(* ===== verification/_CoqProject ===== *)
-Q . S2P
Prelude.v
Types.v
ErrorHandling.v
MemoryPool.v
PoolThreads.v
OrderPool.v
PriceLevels.v
OrderBook.v
OrderBookSpec.v
OrderBookInv.v
OrderBookMatch.v
OrderBookAdd.v
OrderBookCancel.v
OrderBookMaint.v
OrderBookTheorems.v
SpscQueue.v
MpmcQueue.v
MpmcThreads.v
MatchingEngine.v
EngineTheorems.v
Double.v
RiskManager.v
RiskTheorems.v
MemorySafety.v
AlignedBuffers.v
Protocol.v
TcpGateway.v
GatewayTheorems.v
Transaction.v
Strings.v
Formatting.v
InputValidation.v
SecurityUtils.v
Logger.v
ConfigLoader.v
Performance.v
ThreadSafety.v
WorkThreads.v
NetworkSecurity.v
NetworkTheorems.v
HttpServer.v
Metrics.v
Monitoring.v
Observability.v
ObservabilityTheorems.v
SecureConfig.v
NumericRules.v
Readiness.v
Dashboard.v
Deployment.v
HealthServer.v
Clients.v
ClientTheorems.v
UdpPublisher.v
UdpReceiver.v
TcpClient.v
Tools.v
PerfHarness.v
Exchange.v
SystemFrames.v
GatewayFrames.v
Main.v
ExchangeInv.v
SystemInv.v
SystemTheorems.v
Program.v
BenchMatching.v
Benchmarks.v
CodebaseAnalyzer.v
SelfChecks.v
PerfSuite.v
