(* ===== verification/Prelude.v ===== *)
(** * RTES: a verification library for the Real-Time Trading Exchange Simulator

    The program is a trading exchange in C++.  Orders arrive over TCP, pass
    pre-trade risk checks and are matched per symbol; trades and quotes leave
    through a market data queue as UDP datagrams:

      client --TCP--> TcpGateway --submit--> RiskManager --submit--> MatchingEngine --> MPMCQueue --> UdpPublisher
                          |      SPSCQueue        |      SPSCQueue         |
                          +----- OrderPool (MemoryPool<Order>) ------------+--- OrderBook

    The Exchange owns and wires these, main.cpp starts them under a guard and
    stops them.  Around them are trading clients, configuration, HTTP and health
    services and operational tooling.

    ** Files, in dependency order

    - Prelude: machine words, vectors, tactics ([u_lia], [zbool], [inv_bind]),
      the hint databases [rtes] and [wraps].
    - Types: include/rtes/types.hpp.  Scalars in their width, [FixedString] as its
      character array with [strncpy]/[strncmp]/FNV-1a written out, enumerations
      that keep a byte naming no enumerator, [Order], [Trade].
    - ErrorHandling: error_handling.hpp/.cpp.  [Result], messages, the recovery
      strategies; the circuit breaker as a step relation with its invariant.
    - MemoryPool: memory_pool.hpp.  The tagged free list with debug ownership
      flags.  PoolThreads: the same pool under every interleaving of any number
      of threads.  OrderPool: the class of what the book and the engine use of a
      pool, with its laws, and the instance.
    - PriceLevels: FlatLevel and FlatPriceBook of order_book.hpp.
    - OrderBook: order_book.hpp/.cpp.  The book, the shared pool, the clock and
      the trade callback are one environment that every operation transforms.
      OrderBookSpec is the abstract book (two priority lists of resting orders);
      OrderBookInv the representation invariant; OrderBookMatch, OrderBookAdd,
      OrderBookCancel, OrderBookMaint the refinement proofs per operation;
      OrderBookTheorems the properties and reachability.
    - SpscQueue, MpmcQueue: spsc_queue.hpp, mpmc_queue.hpp.  Sequential
      behaviour over 64-bit positions that wrap, and for the SPSC queue every
      interleaving of producer and consumer as a step relation.  MpmcThreads:
      every interleaving of any number of producers and consumers.
    - MatchingEngine, EngineTheorems: matching_engine.hpp/.cpp.
    - Double: IEEE binary64 through the specification floats of the standard
      library.  RiskManager, RiskTheorems: risk_manager.hpp/.cpp; the engines are
      reached through the class [OrderSink], which the engine implements.
    - MemorySafety: memory_safety.hpp/.cpp.  AlignedBuffers: who owns the memory
      of its aligned buffers.  Protocol: protocol.hpp/.cpp.
    - TcpGateway, GatewayTheorems: tcp_gateway.hpp/.cpp.
    - Transaction: transaction.hpp/.cpp, for any action type with the laws of
      [Compensable].
    - Strings: searching, cutting and printing texts, as std::string does it.
      Formatting: numbers and times as std::ostream and std::to_string print them.
      InputValidation: input_validation.hpp/.cpp and the structs of config.hpp.
      SecurityUtils: security_utils.hpp/.cpp, auth_middleware.hpp/.cpp.
      Logger: logger.hpp/.cpp.  ConfigLoader: config.cpp.
    - Performance: performance_optimizer.hpp/.cpp.
    - ThreadSafety: thread_safety.hpp/.cpp.  WorkThreads: its work drainer between
      threads, with the mutex and the condition variable.
    - NetworkSecurity, NetworkTheorems: network_security.hpp/.cpp.
    - HttpServer: http_server.hpp/.cpp.  Metrics: metrics.hpp/.cpp and
      monitoring.hpp/.cpp.  Monitoring: the two threads of the monitoring service,
      with the places where they wait.  Observability, ObservabilityTheorems:
      observability.hpp/.cpp.  SecureConfig: secure_config.hpp/.cpp.
      NumericRules: std::stod on any text and the rules that use it.  Readiness:
      production_readiness.hpp/.cpp.  Dashboard: dashboard.hpp/.cpp.
      Deployment: deployment_manager.hpp/.cpp, on the health checks of
      SecureConfig; HealthServer: the thread that serves its endpoints.
    - Clients, ClientTheorems: client_base.hpp/.cpp, strategies.hpp/.cpp; the
      virtual methods are the class [Strategy], with an instance per strategy.
    - UdpPublisher: market_data.hpp, udp_publisher.hpp/.cpp.
    - The programs under tools/: UdpReceiver (udp_receiver.cpp), TcpClient
      (tcp_client.cpp), Tools (client_simulator.cpp, load_generator.cpp),
      PerfHarness (perf_harness.cpp).
    - Exchange: exchange.hpp/.cpp, all components over one pool and one clock.
      Main: the start of main.cpp, the rounds of all threads and the stop calls
      of the main thread as the steps of the running program.
      SystemFrames, GatewayFrames: what each round leaves alone.  ExchangeInv,
      SystemInv: the invariant of the whole program; SystemTheorems: its
      properties.  Program: main.cpp from the command line to the exit status,
      with signals.
    - The benchmarks: BenchMatching (tools/bench_matching.cpp), Benchmarks
      (tools/bench_memory_pool.cpp, tools/bench_exchange.cpp).  The stand-alone
      programs that judge the system: CodebaseAnalyzer (codebase_analysis.cpp),
      SelfChecks (production_validation.cpp, test_runner.cpp), PerfSuite
      (benchmark.cpp, stress_test.cpp).

    ** How the code is modelled

    Integers are [Z] with [wrap w] where the C++ type wraps.  A pointer to an
    order is the index of its pool slot, a null pointer [None].  The build is
    the one with assertions: a failed assertion, undefined behaviour and an
    exception nothing catches are [None]; where exceptions are caught the type
    [outcome] tells [Done], [Throws] and [Undefined] apart.  [std::terminate] is
    [Terminated], a lock that is never released [Blocked].  A thread that waits in
    a system call has a place for it in its state, and a join that does not return
    leaves the state as it is.  The steady clock is a
    function of the number of readings so far.  The iteration order of a hash map
    is an argument.  What the operating system, OpenSSL, the environment and the
    random device deliver (received chunks, results of send, mmap, handshakes,
    ciphers, getenv) is an argument, as are user callbacks, which act on a state
    [W] of their own.  Hash maps keyed by [FixedString] are finite maps keyed by
    the string before the terminator, which [FixedStringFacts] justifies:
    equality and hash depend on nothing else.

    The running program takes steps in any order and with any network input: a
    round of the gateway worker, of the acceptor, of the risk manager, of an engine,
    of the publisher or of the metrics collector, an [accept] or a [recv] of the
    HTTP thread, or the next stop call of the main thread, where the join of the
    HTTP thread is a step of its own.  Each of them runs whole: races inside a
    round are outside this model (one is known: the risk manager writes the status
    of an order after the engine may have freed it).  The finer interleavings, step by access to shared memory, within the queues,
    the pool and the work drainer are those of SpscQueue, MpmcThreads, PoolThreads
    and WorkThreads.  BenchMatching lets the engine's worker run any number of
    rounds between two accesses of the main thread to what they share; Benchmarks
    interleaves whole calls on the pool.  What a program measures about itself,
    times and counts of timed loops, is an argument, and its output is a list of
    lines.

    ** Fuel and bounds

    The sweep of the matching loop gets the number of resting orders plus
    levels; the binary search the length of the vector; draining the queue
    length; the framing loop the number of buffered bytes; the receive loops the
    number of received bytes and chunks; the retry loops of the MPMC queue two
    rounds, which suffice without interference.  Running out is [None], and the
    theorems conclude [Some], so each bound is proved to be enough.  The theorems
    on the whole program hold while fewer than [2^30] replies were sent and the
    market data queue's 64-bit positions have not run out; those on the MPMC
    queue under contention while its positions are below [2^63]; those on the pool
    under contention if no thread sleeps through [2^32] exchanges of the head,
    after which a generation repeats.

    ** What the theorems show

    - Order book: [add_order], [cancel_order], maintenance and shutdown refine
      the abstract book; price-time priority, conservation of quantity, an
      uncrossed book and a current snapshot in every reachable state; no
      operation is undefined.
    - Queues and pool: bounded FIFO, absence of slot conflicts and a free list
      that hands out no slot twice, under every interleaving; a thread left alone
      finishes its call.  The work drainer runs each item once and strands none.
    - Engine: every queued request is processed once and in order, also on stop;
      events and counters.
    - Risk: the outcome of every check and its order; bounded exposure and rate;
      exactness of the integer arithmetic and where it ends.
    - Gateway and protocol: framing does not depend on how the network splits the
      stream, no input takes the gateway out of its invariant, order entry keeps
      pool and queue consistent; messages round trip, the checksum detects bursts.
    - The whole program, by whole rounds: no reachable state is stuck or undefined,
      whatever the order and the network input, as long as no HTTP client resets
      its connection before its response; no order is in two books; the shutdown
      decides and processes every queued request in order, though it does not send
      the market data these cause; a failed start is rolled back; after a signal
      the program ends with status 0, unless a silent HTTP client holds it up, and
      with status 1 after every failure of its start.
    - Publisher and clients: the bytes built for an event decode to its fields; the gateway reads
      what a client sends, a client dispatches all it is sent, the market maker
      loses track of no quote.  A subscriber counts exactly the datagrams it
      misses; what is typed at the console is what the gateway reads; the load
      generator's clients are distinct and its totals the sums; the harness's
      percentiles are order statistics.
    - Transactions are atomic for compensable actions; validated configurations
      and sanitized messages are in the ranges the other components need; the
      configuration readers read back what is written; aligned buffers never
      share or leak memory.
    - Security and operations: token buckets and sessions keep their limits,
      broadcasts authenticate their payload, handshakes leak nothing; HTTP
      requests are answered, histograms count, deployments complete, monitoring
      raises the alerts it has a cause for, readiness follows its checks.
    - Benchmarks and self-checks: the engine benchmark loses no order and always
      waits until its timeout; the pool benchmark gives every slot back under
      every schedule; the exchange benchmark sends at most a tenth of its target,
      and ends when its receiver can be joined.  What decides the verdicts of the analyzer, the validation, the test
      runner and the performance suite.
    - Where the code falls short of its intent a theorem or example says what it
      does instead: locks that are never released, a shutdown wait that never
      ends, an emergency monitor that locks a mutex it holds, a failed deployment
      that ends the process, a silent client that no join gets past, a drain whose wake-up is lost, events that no subscriber
      can miss.

    ** Not modelled

    Log lines of the modelled operations, latency tracking inside the book and the
    engines, spinning, prefetching, thread creation and socket options have no
    effect on the modelled state.  The threads of the running program are not
    interleaved inside a round; a call of [stop] of the exchange, the gateway or the
    publisher is one step.  The queues have the memory their capacity asks for: the
    byte size that wraps above it is [allocated_bytes].  A monitoring round of the
    observability stack reads the clock once.  Memory orderings are sequentially consistent:
    weaker ones are not modelled.  The forwarding wrapper [atomic_wrapper] is a
    field of the states that use it.  In the self-checks the simulated work and the
    allocations around it are not modelled, only what is measured of them.
    demo.cpp prints prepared lines and uses none of the exchange's code; tests/
    are tests. *)

From Corelib Require Export ssreflect.
From Stdlib Require Export ZArith Lia Sorting.Permutation Sorting.Sorted.
From stdpp Require Export base gmap list list_numbers relations.
From stdpp Require Export strings.

#[export] Set Default Proof Using "Type".
#[export] Set Warnings "-rewrite-rw,-clear-no-such-hyp".
Export ListNotations.
#[global] Open Scope general_if_scope.
#[global] Open Scope Z_scope.

(** ** Machine integers *)

(** [wrap w x]: the value of [x] reduced to an unsigned [w]-bit word. *)
Definition wrap (w x : Z) : Z := x mod 2 ^ w.

Definition u64_max : Z := 18446744073709551615.
Definition u32_max : Z := 4294967295.

Definition is_u (w x : Z) : Prop := 0 <= x < 2 ^ w.

Declare Scope rtes_scope.
Delimit Scope rtes_scope with rtes.
Notation "a +₆₄ b" := (wrap 64 (a + b)) (at level 50, left associativity) : rtes_scope.
Notation "a -₆₄ b" := (wrap 64 (a - b)) (at level 50, left associativity) : rtes_scope.
Notation "a *₆₄ b" := (wrap 64 (a * b)) (at level 40, left associativity) : rtes_scope.
Notation "a +₃₂ b" := (wrap 32 (a + b)) (at level 50, left associativity) : rtes_scope.
Abbreviation u64 := (is_u 64).
Abbreviation u32 := (is_u 32).
Abbreviation u8 := (is_u 8).
#[global] Open Scope rtes_scope.

Lemma wrap_range w x : 0 <= w -> is_u w (wrap w x).
Proof. intros. apply Z.mod_pos_bound. by apply Z.pow_pos_nonneg. Qed.

Lemma wrap_small w x : is_u w x -> wrap w x = x.
Proof. intros. by apply Z.mod_small. Qed.

Lemma wrap_add_l w a b : wrap w (wrap w a + b) = wrap w (a + b).
Proof. apply Zplus_mod_idemp_l. Qed.

Lemma wrap_add_r w a b : wrap w (a + wrap w b) = wrap w (a + b).
Proof. apply Zplus_mod_idemp_r. Qed.

Lemma wrap_sub_l w a b : wrap w (wrap w a - b) = wrap w (a - b).
Proof. apply Zminus_mod_idemp_l. Qed.

Lemma wrap_sub_r w a b : wrap w (a - wrap w b) = wrap w (a - b).
Proof. apply Zminus_mod_idemp_r. Qed.

Lemma wrap_wrap w x : wrap w (wrap w x) = wrap w x.
Proof. apply Zmod_mod. Qed.

(** A sum and difference that cancel survive the wrap-around. *)
Lemma wrap_add_sub w a b : wrap w (wrap w (a + b) - b) = wrap w a.
Proof. rewrite wrap_sub_l. f_equal. lia. Qed.

(** Differences and powers of two through the wrap-around. *)
Lemma wrap_distance w a b : 0 <= a - b < 2 ^ w -> wrap w (wrap w a - wrap w b) = a - b.
Proof. intros. rewrite wrap_sub_l wrap_sub_r. by apply wrap_small. Qed.

Lemma wrap_mod_pow2 w k a : 0 <= k <= w -> wrap w a mod 2 ^ k = a mod 2 ^ k.
Proof.
  intros Hk. unfold wrap. apply Z.mod_mod_divide. exists (2 ^ (w - k)).
  rewrite -Z.pow_add_r; [lia|lia|]. f_equal. lia.
Qed.

Lemma mod_distinct c a d : 0 < d < c -> a mod c <> (a + d) mod c.
Proof.
  intros Hd He. assert ((a + d - a) mod c = 0) as Hz.
  { rewrite Zminus_mod -He Z.sub_diag. apply Z.mod_0_l. lia. }
  replace (a + d - a) with d in Hz by lia. rewrite Z.mod_small in Hz; lia.
Qed.

Lemma land_pow2_mask k a : 0 <= k -> Z.land a (2 ^ k - 1) = a mod 2 ^ k.
Proof. intros Hk. rewrite Z.sub_1_r -Z.ones_equiv. by apply Z.land_ones. Qed.

Create HintDb rtes.
Create Rewrite HintDb wraps.
#[export] Hint Resolve wrap_range : rtes.
#[export] Hint Rewrite wrap_add_l wrap_add_r wrap_sub_l wrap_sub_r wrap_wrap : wraps.

(** [u_lia] is [lia] with word ranges unfolded and the word constants evaluated. *)
Ltac word_consts :=
  change (2 ^ 64) with 18446744073709551616 in *;
  change (2 ^ 32) with 4294967296 in *;
  change (2 ^ 16) with 65536 in *;
  change (2 ^ 8) with 256 in *.
Ltac u_lia := unfold is_u, u64_max, u32_max in *; word_consts; lia.

(** Case analysis on every boolean integer test in sight. *)
Ltac zbool :=
  repeat match goal with
  | H : context [?a =? ?b] |- _ => destruct (Z.eqb_spec a b)
  | H : context [?a <? ?b] |- _ => destruct (Z.ltb_spec a b)
  | H : context [?a <=? ?b] |- _ => destruct (Z.leb_spec a b)
  | |- context [?a =? ?b] => destruct (Z.eqb_spec a b)
  | |- context [?a <? ?b] => destruct (Z.ltb_spec a b)
  | |- context [?a <=? ?b] => destruct (Z.leb_spec a b)
  end.

(** Solve a goal about a do-block that is known to return: split every bind. *)
Ltac inv_bind H :=
  repeat (apply bind_Some in H as (? & ? & H)); simplify_eq/=.

(** ** Vectors
    [std::vector] operations on lists: [vec_insert] is [emplace]/[insert] before
    position [i], [delete i] (from stdpp) is [erase] at [i]. *)
Section vectors.
Context {A : Type}.

Definition vec_insert (i : nat) (x : A) (l : list A) : list A :=
  take i l ++ x :: drop i l.

Lemma length_vec_insert i x l : length (vec_insert i x l) = S (length l).
Proof.
  unfold vec_insert. rewrite length_app length_take /= length_drop. lia.
Qed.

Lemma delete_middle (l1 l2 : list A) x : delete (length l1) (l1 ++ x :: l2) = l1 ++ l2.
Proof. by rewrite delete_middle. Qed.

Lemma insert_middle (l1 l2 : list A) x y :
  <[length l1 := y]> (l1 ++ x :: l2) = l1 ++ y :: l2.
Proof.
  rewrite -> insert_app_r_alt by lia. by rewrite Nat.sub_diag.
Qed.

End vectors.

Definition sumZ (l : list Z) : Z := foldr Z.add 0 l.

Lemma sumZ_cons x l : sumZ (x :: l) = x + sumZ l.
Proof. done. Qed.

Lemma sumZ_app l1 l2 : sumZ (l1 ++ l2) = sumZ l1 + sumZ l2.
Proof. induction l1; simpl; lia. Qed.

#[export] Instance sumZ_Permutation : Proper ((≡ₚ) ==> (=)) sumZ.
Proof. intros l1 l2 Hp. induction Hp; simpl; unfold sumZ in *; simpl; lia. Qed.

Lemma wrap_even w x : 0 < w -> Z.even (wrap w x) = Z.even x.
Proof.
  intros Hw. unfold wrap. rewrite {2}(Z.div_mod x (2 ^ w)); [lia|].
  rewrite Z.even_add Z.even_mul Z.even_pow; [lia|]. simpl. by destruct (Z.even (x mod 2 ^ w)).
Qed.

Lemma sumZ_nonneg l : Forall (fun x => 0 <= x) l -> 0 <= sumZ l.
Proof. induction 1; simpl; lia. Qed.

Lemma omap_cons {A B} (f : A -> option B) x l : omap f (x :: l) = option_list (f x) ++ omap f l.
Proof. cbn. by destruct (f x). Qed.
