(* ===== verification/Types.v ===== *)
(** * Domain types (include/rtes/types.hpp)

    Scalars are integers kept in their C++ width; [FixedString<N>] is its raw
    character array, with the string operations of the C library written out;
    [Order] and [Trade] are the structs of the header.  [Side] and [OrderType]
    are scoped enumerations with an explicit [uint8_t] underlying type, so a
    value may also be a byte that names no enumerator: the gateway produces
    such values with an unchecked [static_cast]. *)

From S2P Require Import Prelude.

(** ** Scalar aliases *)

Definition OrderID := Z.
Definition TradeID := Z.
Definition Price := Z.
Definition Quantity := Z.
Definition Timestamp := Z.
Definition PRICE_SCALE : Z := 10000.

(** ** C strings
    A byte is an integer of [0, 256).  A [const char*] that is not null is the
    list of the bytes before its terminator. *)
Definition byte := Z.
Definition cstring := list Z.

(** A string literal. *)
Definition cstr (s : string) : cstring := map (fun c => Z.of_N (Ascii.N_of_ascii c)) (String.list_ascii_of_string s).

(** [strlen]: the bytes of an array before the first NUL. *)
Fixpoint until_nul (a : list Z) : cstring :=
  match a with
  | [] => []
  | c :: a' => if c =? 0 then [] else c :: until_nul a'
  end.

(** [std::strncpy(dst, src, n)]: copy at most [n] bytes, pad with NUL up to [n],
    keep the rest of [dst]. *)
Definition strncpy (dst : list Z) (src : cstring) (n : nat) : list Z :=
  take n src ++ replicate (n - length src) 0 ++ drop n dst.

(** [std::strncmp(a, b, n) == 0]. *)
Fixpoint strncmp_eq (a b : list Z) (n : nat) : bool :=
  match n with
  | O => true
  | S n' =>
      match a, b with
      | x :: a', y :: b' =>
          if x =? y then (if x =? 0 then true else strncmp_eq a' b' n') else false
      | _, _ => false
      end
  end.

(** ** FixedString *)

Module FixedString.

Record t := mk { data : list Z }.

(** [FixedString() = default]: [char data[N]{}]. *)
Definition init (N : nat) : t := mk (replicate N 0).

Definition assign (N : nat) (s : t) (str : option cstring) : t :=
  match str with
  | Some str => mk (<[(N - 1)%nat := 0]> (strncpy (data s) str (N - 1)))
  | None => mk (<[0%nat := 0]> (data s))
  end.

(** [explicit FixedString(const char* str)]. *)
Definition make (N : nat) (str : option cstring) : t := assign N (init N) str.

Definition clear (s : t) : t := mk (<[0%nat := 0]> (data s)).
Definition c_str (s : t) : cstring := until_nul (data s).
Definition strlen (s : t) : Z := Z.of_nat (length (until_nul (data s))).
Definition empty (s : t) : bool := nth 0 (data s) 0 =? 0.
Definition eqb (N : nat) (a b : t) : bool := strncmp_eq (data a) (data b) N.
Definition eqb_cstr (N : nat) (a : t) (str : cstring) : bool :=
  strncmp_eq (data a) (str ++ [0]) N.

(** A [char] read as [size_t]: plain [char] is signed on the target, so bytes
    from 128 up are sign extended. *)
Definition char_to_size_t (c : Z) : Z := if c <? 128 then c else wrap 64 (c - 256).

(** FNV-1a over the bytes before the terminator. *)
Fixpoint fnv1a (hash : Z) (bytes : list Z) : Z :=
  match bytes with
  | [] => hash
  | c :: rest =>
      if c =? 0 then hash
      else fnv1a (Z.lxor hash (char_to_size_t c) *₆₄ 1099511628211) rest
  end.

Definition Hash (N : nat) (s : t) : Z := fnv1a 14695981039346656037 (take N (data s)).

(** A well-formed value: [N] bytes, the last one NUL. *)
Definition wf (N : nat) (s : t) : Prop :=
  length (data s) = N /\ data s !! (N - 1)%nat = Some 0.

End FixedString.

Definition SYMBOL_N : nat := 8.
Definition CLIENT_N : nat := 32.
Abbreviation Symbol := FixedString.t.
Abbreviation ClientID := FixedString.t.

(** ** Enumerations *)

Inductive Side := BUY | SELL | Side_byte (raw : Z).
Inductive OrderType := MARKET | LIMIT | OrderType_byte (raw : Z).
Inductive OrderStatus :=
  PENDING | ACCEPTED | REJECTED | FILLED | PARTIALLY_FILLED | CANCELLED.

#[export] Instance Side_eq_dec : EqDecision Side.
Proof. solve_decision. Defined.
#[export] Instance OrderType_eq_dec : EqDecision OrderType.
Proof. solve_decision. Defined.
#[export] Instance OrderStatus_eq_dec : EqDecision OrderStatus.
Proof. solve_decision. Defined.
#[export] Instance FixedString_eq_dec : EqDecision FixedString.t.
Proof. solve_decision. Defined.

Definition is_buy (s : Side) : bool := match s with BUY => true | _ => false end.
Definition is_sell (s : Side) : bool := match s with SELL => true | _ => false end.
Definition is_market (t : OrderType) : bool := match t with MARKET => true | _ => false end.

(** [static_cast<Side>] and [static_cast<OrderType>] of a byte. *)
Definition Side_of_byte (b : Z) : Side :=
  if b =? 1 then BUY else if b =? 2 then SELL else Side_byte b.
Definition OrderType_of_byte (b : Z) : OrderType :=
  if b =? 1 then MARKET else if b =? 2 then LIMIT else OrderType_byte b.

(** ** Order and Trade *)

Record Order := mkOrder {
  price : Price;
  remaining_quantity : Quantity;
  id : OrderID;
  status : OrderStatus;
  side : Side;
  type : OrderType;
  quantity : Quantity;
  timestamp : Timestamp;
  symbol : Symbol;
  client_id : ClientID
}.

(** [Order() = default]. *)
Definition Order_default : Order :=
  mkOrder 0 0 0 PENDING BUY LIMIT 0 0 (FixedString.init SYMBOL_N) (FixedString.init CLIENT_N).

(** The explicit constructor; [now] is the clock reading it takes. *)
Definition Order_make (now : Timestamp) (order_id : OrderID) (client sym : cstring)
    (s : Side) (t : OrderType) (qty : Quantity) (p : Price) : Order :=
  mkOrder p qty order_id PENDING s t qty now
    (FixedString.make SYMBOL_N (Some sym)) (FixedString.make CLIENT_N (Some client)).

Definition set_remaining (q : Quantity) (o : Order) : Order :=
  mkOrder (price o) q (id o) (status o) (side o) (type o) (quantity o) (timestamp o)
    (symbol o) (client_id o).
Definition set_status (s : OrderStatus) (o : Order) : Order :=
  mkOrder (price o) (remaining_quantity o) (id o) s (side o) (type o) (quantity o)
    (timestamp o) (symbol o) (client_id o).

Record Trade := mkTrade {
  trade_id : TradeID;
  buy_order_id : OrderID;
  sell_order_id : OrderID;
  trade_price : Price;
  trade_quantity : Quantity;
  trade_timestamp : Timestamp;
  trade_symbol : Symbol
}.

Definition Trade_default : Trade := mkTrade 0 0 0 0 0 0 (FixedString.init SYMBOL_N).

Definition Trade_make (now : Timestamp) (tid : TradeID) (buy_id sell_id : OrderID)
    (sym : cstring) (qty : Quantity) (p : Price) : Trade :=
  mkTrade tid buy_id sell_id p qty now (FixedString.make SYMBOL_N (Some sym)).

(** ** Lemmas on C strings *)

Lemma length_until_nul a : (length (until_nul a) <= length a)%nat.
Proof. induction a as [|c a IH]; simpl; [done|]. destruct (c =? 0); simpl; lia. Qed.

Lemma until_nul_app_0 s a : Forall (fun c => c <> 0) s -> until_nul (s ++ 0 :: a) = s.
Proof.
  induction 1 as [|c s Hc _ IH]; simpl; [done|].
  destruct (Z.eqb_spec c 0); [done|]. by rewrite IH.
Qed.

Lemma until_nul_nonzero a : Forall (fun c => c <> 0) (until_nul a).
Proof.
  induction a as [|c a IH]; simpl; [done|].
  destruct (Z.eqb_spec c 0); [done|]. by constructor.
Qed.

(** The bytes of an array that holds a NUL: its string, the NUL, the rest. *)
Lemma until_nul_split a : 0 ∈ a -> exists r, a = until_nul a ++ 0 :: r.
Proof.
  induction a as [|c a IH]; [by intros ?%elem_of_nil|]. intros Hin. simpl.
  destruct (Z.eqb_spec c 0) as [->|Hc]; [by exists a|].
  apply elem_of_cons in Hin as [?|Hin]; [done|].
  destruct (IH Hin) as [r Hr]. exists r. simpl. by rewrite <- Hr.
Qed.

Lemma strncmp_eq_spec s1 s2 r1 r2 n :
  Forall (fun c => c <> 0) s1 -> Forall (fun c => c <> 0) s2 ->
  (length s1 < n)%nat ->
  strncmp_eq (s1 ++ 0 :: r1) (s2 ++ 0 :: r2) n = bool_decide (s1 = s2).
Proof.
  intros H1. revert s2 n. induction H1 as [|x s1 Hx H1 IH]; intros s2 n H2 Hn.
  - destruct n; simpl in *; [lia|]. destruct H2 as [|y s2 Hy H2]; simpl; [done|].
    destruct y; done.
  - destruct n; simpl in *; [lia|]. destruct H2 as [|y s2 Hy H2]; simpl.
    + destruct (Z.eqb_spec x 0); done.
    + destruct (Z.eqb_spec x y) as [->|Hxy].
      * destruct (Z.eqb_spec y 0); [done|]. rewrite -> IH by (done || lia).
        apply bool_decide_ext. split; congruence.
      * symmetry. apply bool_decide_eq_false. congruence.
Qed.

Lemma fnv1a_until_nul h s r :
  Forall (fun c => c <> 0) s -> FixedString.fnv1a h (s ++ 0 :: r) = FixedString.fnv1a h s.
Proof.
  intros Hs. revert h. induction Hs as [|x s Hx Hs IH]; intros h; simpl; [done|].
  destruct (Z.eqb_spec x 0); [done|]. apply IH.
Qed.

(** ** Lemmas on FixedString *)

Module FixedStringFacts.
Import FixedString.

Lemma wf_shape N s :
  (0 < N)%nat -> wf N s ->
  exists r, data s = c_str s ++ 0 :: r /\ (length (c_str s) < N)%nat.
Proof.
  intros HN [Hl H0].
  destruct (until_nul_split (data s)) as [r Hr].
  { apply list_elem_of_lookup. eauto. }
  exists r. split; [done|]. unfold c_str. rewrite <- Hl.
  rewrite -> Hr at 2. rewrite length_app /=. lia.
Qed.

Lemma assign_wf N s str : (0 < N)%nat -> wf N s -> wf N (assign N s str).
Proof.
  intros HN [Hl H0]. destruct str as [str|]; unfold wf, assign; simpl.
  - assert (length (strncpy (data s) str (N - 1)) = N) as Hlen.
    { unfold strncpy. rewrite !length_app length_take length_replicate length_drop. lia. }
    rewrite length_insert. split; [done|]. apply list_lookup_insert_eq. lia.
  - rewrite length_insert. split; [done|]. rewrite list_lookup_insert. case_decide; [|done].
    reflexivity.
Qed.

Lemma init_wf N : (0 < N)%nat -> wf N (init N).
Proof.
  intros. split; simpl; [apply length_replicate|]. apply lookup_replicate. split; [done|lia].
Qed.

Lemma make_wf N str : (0 < N)%nat -> wf N (make N str).
Proof. intros. apply assign_wf; [done|]. by apply init_wf. Qed.

(** The string read back is the source truncated to the capacity. *)
Lemma c_str_assign N s str :
  (0 < N)%nat -> wf N s -> Forall (fun c => c <> 0) str ->
  c_str (assign N s (Some str)) = take (N - 1) str.
Proof.
  intros HN [Hl H0] Hs. unfold c_str, assign, strncpy. simpl.
  assert (Forall (fun c => c <> 0) (take (N - 1) str)) as Ht by by apply Forall_take.
  destruct (decide (length str < N - 1)%nat) as [Hlt|Hge].
  - rewrite -> (take_ge str) by lia.
    assert (exists k, (N - 1 - length str)%nat = S k) as [k Hk] by (exists (N - 2 - length str)%nat; lia).
    rewrite Hk /= insert_app_r_alt; [lia|].
    rewrite Hk /=. by rewrite until_nul_app_0.
  - replace (N - 1 - length str)%nat with 0%nat by lia. simpl.
    assert (exists c, drop (N - 1) (data s) = [c]) as [c Hc].
    { destruct (drop (N - 1) (data s)) as [|c [|? ?]] eqn:E;
        apply (f_equal length) in E; rewrite length_drop /= in E; try lia. eauto. }
    rewrite Hc insert_app_r_alt; [rewrite length_take; lia|].
    replace (N - 1 - length (take (N - 1) str))%nat with 0%nat by (rewrite length_take; lia).
    simpl. by rewrite until_nul_app_0.
Qed.

(** [operator==] compares the strings, not the bytes behind the terminator. *)
Lemma eqb_c_str N a b :
  (0 < N)%nat -> wf N a -> wf N b -> eqb N a b = bool_decide (c_str a = c_str b).
Proof.
  intros HN Ha Hb. destruct (wf_shape N a HN Ha) as (ra & Ea & La).
  destruct (wf_shape N b HN Hb) as (rb & Eb & Lb).
  unfold eqb. rewrite Ea Eb. apply strncmp_eq_spec; [apply until_nul_nonzero..|done].
Qed.

Lemma Hash_c_str N s : (0 < N)%nat -> wf N s ->
  Hash N s = fnv1a 14695981039346656037 (c_str s).
Proof.
  intros HN Hs. destruct (wf_shape N s HN Hs) as (r & E & _). destruct Hs as [Hl _].
  unfold Hash. rewrite -> take_ge by lia. rewrite E. apply fnv1a_until_nul, until_nul_nonzero.
Qed.

Lemma wf_data_ext N s : wf N s -> (0 < N)%nat -> length (data s) = N.
Proof. by intros [? _]. Qed.

End FixedStringFacts.
