(* ===== verification/ErrorHandling.v ===== *)
(** * Errors and recovery (include/rtes/error_handling.hpp, src/error_handling.cpp)

    The error enumeration with its integer values, [std::error_code] as a value
    with its category, the [Result] type, and the three recovery strategies: the
    network circuit breaker, the file fallback search and the memory fallback. *)

From S2P Require Import Prelude.

Inductive ErrorCode :=
  | SUCCESS
  | NETWORK_CONNECTION_FAILED | NETWORK_TIMEOUT | NETWORK_DISCONNECTED | NETWORK_INVALID_MESSAGE
  | MEMORY_ALLOCATION_FAILED | MEMORY_BUFFER_OVERFLOW | MEMORY_POOL_EXHAUSTED
  | FILE_NOT_FOUND | FILE_PERMISSION_DENIED | FILE_CORRUPTED | FILE_DISK_FULL
  | ORDER_INVALID | ORDER_DUPLICATE | ORDER_NOT_FOUND | RISK_LIMIT_EXCEEDED
  | INVALID_CONFIGURATION | INVALID_ARGUMENT
  | SYSTEM_SHUTDOWN | SYSTEM_OVERLOAD | SYSTEM_CORRUPTED_STATE
  | DEPLOYMENT_ALREADY_ACTIVE | DEPLOYMENT_FAILED | DEPLOYMENT_ROLLBACK_FAILED
  | ENCRYPTION_FAILED | DECRYPTION_FAILED | ENCRYPTION_KEY_NOT_FOUND
  | CONFIG_KEY_NOT_FOUND | CONFIG_PARSE_ERROR | CONFIG_TYPE_MISMATCH
  | CONFIG_FILE_NOT_FOUND | INVALID_ENVIRONMENT
  | HEALTH_CHECK_FAILED | BACKUP_FAILED | BACKUP_VERIFICATION_FAILED
  | CONFIG_VALIDATION_FAILED.

#[export] Instance ErrorCode_eq_dec : EqDecision ErrorCode.
Proof. solve_decision. Defined.

Definition ErrorCode_int (e : ErrorCode) : Z :=
  match e with
  | SUCCESS => 0
  | NETWORK_CONNECTION_FAILED => 1000 | NETWORK_TIMEOUT => 1001
  | NETWORK_DISCONNECTED => 1002 | NETWORK_INVALID_MESSAGE => 1003
  | MEMORY_ALLOCATION_FAILED => 2000 | MEMORY_BUFFER_OVERFLOW => 2001
  | MEMORY_POOL_EXHAUSTED => 2002
  | FILE_NOT_FOUND => 3000 | FILE_PERMISSION_DENIED => 3001
  | FILE_CORRUPTED => 3002 | FILE_DISK_FULL => 3003
  | ORDER_INVALID => 4000 | ORDER_DUPLICATE => 4001 | ORDER_NOT_FOUND => 4002
  | RISK_LIMIT_EXCEEDED => 4003 | INVALID_CONFIGURATION => 4004 | INVALID_ARGUMENT => 4005
  | SYSTEM_SHUTDOWN => 5000 | SYSTEM_OVERLOAD => 5001 | SYSTEM_CORRUPTED_STATE => 5002
  | DEPLOYMENT_ALREADY_ACTIVE => 6000 | DEPLOYMENT_FAILED => 6001
  | DEPLOYMENT_ROLLBACK_FAILED => 6002
  | ENCRYPTION_FAILED => 7000 | DECRYPTION_FAILED => 7001 | ENCRYPTION_KEY_NOT_FOUND => 7002
  | CONFIG_KEY_NOT_FOUND => 8000 | CONFIG_PARSE_ERROR => 8001 | CONFIG_TYPE_MISMATCH => 8002
  | CONFIG_FILE_NOT_FOUND => 8003 | INVALID_ENVIRONMENT => 8004
  | HEALTH_CHECK_FAILED => 9000 | BACKUP_FAILED => 9001 | BACKUP_VERIFICATION_FAILED => 9002
  | CONFIG_VALIDATION_FAILED => 9003
  end.

(** ** error_code and Result *)

Inductive error_category := rtes_category | validation_category.
#[export] Instance error_category_eq_dec : EqDecision error_category.
Proof. solve_decision. Defined.

Record error_code := mk_error { value : Z; category : error_category }.
#[export] Instance error_code_eq_dec : EqDecision error_code.
Proof. solve_decision. Defined.

Definition make_error_code (ec : ErrorCode) : error_code := mk_error (ErrorCode_int ec) rtes_category.

(** [std::error_code::operator bool]. *)
Definition error_set (e : error_code) : bool := negb (value e =? 0).

Inductive Result (A : Type) := Value (a : A) | Error (e : error_code).
Arguments Value {A}.
Arguments Error {A}.

Definition err {A} (ec : ErrorCode) : Result A := Error (make_error_code ec).
Definition has_value {A} (r : Result A) : bool := match r with Value _ => true | Error _ => false end.
Definition has_error {A} (r : Result A) : bool := negb (has_value r).

Definition Result_map {A B} (f : A -> B) (r : Result A) : Result B :=
  match r with Value a => Value (f a) | Error e => Error e end.
Definition Result_or_else {A} (f : error_code -> Result A) (r : Result A) : Result A :=
  match r with Value a => Value a | Error e => f e end.

(** [ErrorCategory::message]: the switch lists the network, memory, file,
    business and system codes; every other code falls to the default. *)
Definition message (ev : Z) : string :=
  if ev =? ErrorCode_int SUCCESS then "Success"
  else if ev =? ErrorCode_int NETWORK_CONNECTION_FAILED then "Network connection failed"
  else if ev =? ErrorCode_int NETWORK_TIMEOUT then "Network operation timed out"
  else if ev =? ErrorCode_int NETWORK_DISCONNECTED then "Network disconnected"
  else if ev =? ErrorCode_int NETWORK_INVALID_MESSAGE then "Invalid network message"
  else if ev =? ErrorCode_int MEMORY_ALLOCATION_FAILED then "Memory allocation failed"
  else if ev =? ErrorCode_int MEMORY_BUFFER_OVERFLOW then "Buffer overflow detected"
  else if ev =? ErrorCode_int MEMORY_POOL_EXHAUSTED then "Memory pool exhausted"
  else if ev =? ErrorCode_int FILE_NOT_FOUND then "File not found"
  else if ev =? ErrorCode_int FILE_PERMISSION_DENIED then "File permission denied"
  else if ev =? ErrorCode_int FILE_CORRUPTED then "File corrupted"
  else if ev =? ErrorCode_int FILE_DISK_FULL then "Disk full"
  else if ev =? ErrorCode_int ORDER_INVALID then "Invalid order"
  else if ev =? ErrorCode_int ORDER_DUPLICATE then "Duplicate order"
  else if ev =? ErrorCode_int ORDER_NOT_FOUND then "Order not found"
  else if ev =? ErrorCode_int RISK_LIMIT_EXCEEDED then "Risk limit exceeded"
  else if ev =? ErrorCode_int SYSTEM_SHUTDOWN then "System shutdown"
  else if ev =? ErrorCode_int SYSTEM_OVERLOAD then "System overload"
  else if ev =? ErrorCode_int SYSTEM_CORRUPTED_STATE then "System corrupted state"
  else "Unknown error".

(** ** NetworkErrorRecovery: retries behind a circuit breaker *)

Module NetworkErrorRecovery.

Inductive CircuitState := CLOSED | OPEN | HALF_OPEN.
#[export] Instance CircuitState_eq_dec : EqDecision CircuitState.
Proof. solve_decision. Defined.

Definition FAILURE_THRESHOLD : Z := 5.
(** Thirty seconds, in nanoseconds of the steady clock. *)
Definition CIRCUIT_TIMEOUT : Z := 30000000000.

Record t := mk {
  circuit_state_ : CircuitState;
  failure_count_ : Z;
  last_failure_time_ : Z
}.

Definition init : t := mk CLOSED 0 0.

(** [factory n]: whether the [n]-th call of [connection_factory_] in this
    recovery succeeds; [None] when no factory is set.  The result says after
    how many factory attempts the loop returned with success. *)
Fixpoint retry (factory : option (nat -> bool)) (attempt left : nat) : option nat :=
  match left with
  | O => None
  | S left' =>
      match factory with
      | Some f => if f attempt then Some (S attempt) else retry factory (S attempt) left'
      | None => retry factory (S attempt) left'
      end
  end.

Definition attempt_recovery (max_retries : Z) (factory : option (nat -> bool)) (now : Z)
    (s : t) : Result unit * t :=
  if bool_decide (circuit_state_ s = OPEN) && (now - last_failure_time_ s <? CIRCUIT_TIMEOUT)
  then (err NETWORK_CONNECTION_FAILED, s)
  else
    let st := if bool_decide (circuit_state_ s = OPEN) then HALF_OPEN else circuit_state_ s in
    match retry factory 0 (Z.to_nat max_retries) with
    | Some _ => (Value tt, mk CLOSED 0 (last_failure_time_ s))
    | None =>
        let n := failure_count_ s + 1 in
        (err NETWORK_CONNECTION_FAILED,
         mk (if FAILURE_THRESHOLD <=? n then OPEN else st) n now)
    end.

Definition can_recover (e : ErrorCode) : bool :=
  bool_decide (e = NETWORK_CONNECTION_FAILED) || bool_decide (e = NETWORK_TIMEOUT)
  || bool_decide (e = NETWORK_DISCONNECTED).

(** The breaker as a transition system: one recovery attempt per step. *)
Inductive step : t -> t -> Prop :=
  | step_attempt max_retries factory now s :
      step s (attempt_recovery max_retries factory now s).2.

Lemma retry_ext f g attempt left :
  (forall n, (attempt <= n < attempt + left)%nat -> f n = g n) ->
  retry (Some f) attempt left = retry (Some g) attempt left.
Proof.
  revert attempt. induction left as [|left IH]; intros attempt Hfg; simpl; [done|].
  rewrite Hfg; [lia|]. destruct (g attempt); [done|]. apply IH. intros n Hn. apply Hfg. lia.
Qed.

Lemma retry_some f attempt left n :
  retry (Some f) attempt left = Some n <->
  exists k, n = S k /\ (attempt <= k < attempt + left)%nat /\ f k = true /\
    forall j, (attempt <= j < k)%nat -> f j = false.
Proof.
  revert attempt. induction left as [|left IH]; intros attempt; simpl.
  - split; [done|]. intros (k & _ & ? & _). lia.
  - destruct (f attempt) eqn:E.
    + split.
      * intros [= <-]. exists attempt. split_and!; [done|lia|lia|done|lia].
      * intros (k & -> & Hk & Hf & Hj). f_equal. f_equal.
        destruct (decide (k = attempt)) as [->|]; [done|]. rewrite Hj in E; [lia|done].
    + rewrite IH. split; intros (k & -> & Hk & Hf & Hj); exists k; split_and!; try done; try lia.
      * intros j Hj'. destruct (decide (j = attempt)) as [->|]; [done|]. apply Hj. lia.
      * destruct (decide (k = attempt)) as [->|]; [congruence|lia].
      * intros j Hj'. apply Hj. lia.
Qed.

(** What holds between attempts: the breaker is open exactly when the count of
    consecutive failures has reached the threshold, and it is never half open. *)
Definition inv (s : t) : Prop :=
  0 <= failure_count_ s /\
  (circuit_state_ s = OPEN <-> FAILURE_THRESHOLD <= failure_count_ s) /\
  circuit_state_ s <> HALF_OPEN.

Lemma inv_step s s' : step s s' -> inv s -> inv s'.
Proof.
  intros [max_retries factory now s0] (Hn & Ho & Hh). unfold attempt_recovery.
  destruct (bool_decide (circuit_state_ s0 = OPEN) && _) eqn:E; simpl; [done|].
  destruct (retry factory 0 (Z.to_nat max_retries)); simpl.
  - split_and!; simpl; unfold FAILURE_THRESHOLD; [lia|split; [done|lia]|done].
  - clear E. unfold inv; simpl. unfold FAILURE_THRESHOLD in *. zbool.
    + split_and!; [lia|split; [lia|done]|done].
    + rewrite bool_decide_eq_false_2; [rewrite Ho; lia|].
      split_and!; [lia| |done]. rewrite Ho. lia.
Qed.

Lemma inv_reachable s : rtc step init s -> inv s.
Proof.
  intros Hr. remember init as s0 eqn:E. assert (inv s0) as H0.
  { subst. split_and!; simpl; unfold FAILURE_THRESHOLD; [lia|split; [done|lia]|done]. }
  clear E. induction Hr; eauto using inv_step.
Qed.

End NetworkErrorRecovery.

(** ** FileErrorRecovery: search a list of fallback directories *)

Module FileErrorRecovery.

(** The file system is outside the program: [probe p] is the outcome of
    [exists(p) && is_directory(p)], [None] when the call throws, and
    [create p] says whether [create_directories(p)] returns. *)
Section recovery.
Variable probe : string -> option bool.
Variable create : string -> bool.

Record t := mk { fallback_paths_ : list string; current_fallback_index_ : nat }.

Fixpoint search (i : nat) (paths : list string) : option nat :=
  match paths with
  | [] => None
  | p :: rest =>
      match probe p with
      | Some true => Some i
      | _ => search (S i) rest
      end
  end.

Definition attempt_recovery (s : t) : Result unit * t :=
  let from := current_fallback_index_ s in
  match search from (drop from (fallback_paths_ s)) with
  | Some i => (Value tt, mk (fallback_paths_ s) i)
  | None =>
      if existsb create (fallback_paths_ s) then (Value tt, s) else (err FILE_NOT_FOUND, s)
  end.

Definition can_recover (e : ErrorCode) : bool :=
  bool_decide (e = FILE_NOT_FOUND) || bool_decide (e = FILE_PERMISSION_DENIED)
  || bool_decide (e = FILE_DISK_FULL).

Lemma search_some i paths k :
  search i paths = Some k ->
  (i <= k)%nat /\ exists p, paths !! (k - i)%nat = Some p /\ probe p = Some true.
Proof.
  revert i. induction paths as [|p paths IH]; intros i; simpl; [done|].
  assert (search (S i) paths = Some k ->
    (i <= k)%nat /\ exists q, (p :: paths) !! (k - i)%nat = Some q /\ probe q = Some true) as Hrec.
  { intros (Hle & q & Hq & Hp)%IH. split; [lia|]. exists q. split; [|done].
    replace (k - i)%nat with (S (k - S i)) by lia. done. }
  destruct (probe p) as [[]|] eqn:E; try exact Hrec.
  intros [= ->]. split; [lia|]. exists p. by rewrite Nat.sub_diag.
Qed.

End recovery.
End FileErrorRecovery.

(** ** MemoryErrorRecovery: one emergency fallback *)

Module MemoryErrorRecovery.

Definition attempt_recovery (emergency_allocation_mode_ : bool) : Result unit * bool :=
  if emergency_allocation_mode_ then (err MEMORY_ALLOCATION_FAILED, true) else (Value tt, true).

Definition can_recover (e : ErrorCode) : bool :=
  bool_decide (e = MEMORY_ALLOCATION_FAILED) || bool_decide (e = MEMORY_POOL_EXHAUSTED).

End MemoryErrorRecovery.
