(* ===== verification/MemoryPool.v ===== *)
(** * The lock-free order pool (include/rtes/memory_pool.hpp)

    [MemoryPool<T>] keeps its elements in an array and its free slots in a
    Treiber stack: [head_] packs the index of the first free slot with a
    generation counter, [next_] links the free slots.  A pointer returned by
    [allocate] is the index of its slot.  The operations here are the bodies
    run by one thread without interference, where the compare-and-swap of each
    retry loop succeeds; assertions are enabled, and a failed assertion or an
    access outside the arrays is the outcome [None]. *)

From S2P Require Import Prelude.

Module MemoryPool.

Definition POOL_EMPTY : Z := 4294967295.

(** ** Tagged indices *)

Record TaggedIndex := mkTagged { index : Z; generation : Z }.

Definition pack (index gen : Z) : Z := Z.lor (Z.shiftl gen 32) index.
Definition unpack (packed : Z) : TaggedIndex :=
  mkTagged (wrap 32 packed) (wrap 32 (Z.shiftr packed 32)).

Arguments pack : simpl never.
Arguments unpack : simpl never.

(** ** State *)

Record t (T : Type) := mk {
  capacity_ : Z;
  pool_ : list T;
  next_ : list Z;
  head_ : Z;
  allocated_ : Z;
  high_water_ : Z;
  owned_ : list Z
}.
Arguments mk {T}.
Arguments capacity_ {T}.
Arguments pool_ {T}.
Arguments next_ {T}.
Arguments head_ {T}.
Arguments allocated_ {T}.
Arguments high_water_ {T}.
Arguments owned_ {T}.

Section ops.
Context {T : Type}.

Definition set_pool (x : list T) (p : t T) : t T :=
  mk (capacity_ p) x (next_ p) (head_ p) (allocated_ p) (high_water_ p) (owned_ p).
Definition set_next (x : list Z) (p : t T) : t T :=
  mk (capacity_ p) (pool_ p) x (head_ p) (allocated_ p) (high_water_ p) (owned_ p).
Definition set_head (x : Z) (p : t T) : t T :=
  mk (capacity_ p) (pool_ p) (next_ p) x (allocated_ p) (high_water_ p) (owned_ p).
Definition set_stats (a h : Z) (p : t T) : t T :=
  mk (capacity_ p) (pool_ p) (next_ p) (head_ p) a h (owned_ p).
Definition set_owned (x : list Z) (p : t T) : t T :=
  mk (capacity_ p) (pool_ p) (next_ p) (head_ p) (allocated_ p) (high_water_ p) x.

(** ** Construction: [inl] carries the message of the exception thrown. *)

Definition validate_capacity (cap : Z) : string + Z :=
  if cap =? 0 then inl "MemoryPool capacity must be > 0"%string
  else if POOL_EMPTY <=? cap then inl "MemoryPool capacity must be < 4294967295"%string
  else inr cap.

(** [next_[i] = i + 1] below the last slot, [POOL_EMPTY] in the last one. *)
Definition initial_links (n : nat) : list Z :=
  (Z.of_nat <$> seq 1 (n - 1)) ++ [POOL_EMPTY].

Definition make (dflt : T) (capacity : Z) : string + t T :=
  match validate_capacity capacity with
  | inl e => inl e
  | inr cap =>
      let n := Z.to_nat cap in
      inr (mk cap (replicate n dflt) (initial_links n) (pack 0 0) 0 0 (replicate n 0))
  end.

(** ** Statistics *)

Definition update_stats_allocate (p : t T) : t T :=
  let current := allocated_ p +₆₄ 1 in
  set_stats current (if high_water_ p <? current then current else high_water_ p) p.
Definition update_stats_deallocate (p : t T) : t T :=
  set_stats (allocated_ p -₆₄ 1) (high_water_ p) p.
Definition available (p : t T) : Z := capacity_ p -₆₄ allocated_ p.
Definition owns (p : t T) (ptr : nat) : bool := Z.of_nat ptr <? capacity_ p.

(** ** Allocation and deallocation *)

Definition allocate (p : t T) : option (option nat * t T) :=
  let old := unpack (head_ p) in
  if index old =? POOL_EMPTY then Some (None, p)
  else
    let i := Z.to_nat (index old) in
    next_index ← next_ p !! i;
    let p := set_head (pack next_index (generation old +₃₂ 1)) p in
    let p := update_stats_allocate p in
    prev ← owned_ p !! i;
    if prev =? 0 then Some (Some i, set_owned (<[i := 1]> (owned_ p)) p) else None.

Definition deallocate (ptr : option nat) (p : t T) : option (t T) :=
  match ptr with
  | None => Some p
  | Some i =>
      if negb (Z.of_nat i <? capacity_ p) then None
      else
        prev ← owned_ p !! i;
        let p := set_owned (<[i := 0]> (owned_ p)) p in
        if negb (prev =? 1) then None
        else
          let old := unpack (head_ p) in
          let p := set_next (<[i := index old]> (next_ p)) p in
          let p := set_head (pack (Z.of_nat i) (generation old +₃₂ 1)) p in
          Some (update_stats_deallocate p)
  end.

(** Reading and writing an element through its pointer. *)
Definition deref (p : t T) (i : nat) : option T := pool_ p !! i.
Definition store (i : nat) (x : T) (p : t T) : t T := set_pool (<[i := x]> (pool_ p)) p.

(** ** The invariant: [fl] is the free list, from the head. *)

Fixpoint linked (cap : Z) (next : list Z) (h : Z) (fl : list nat) : Prop :=
  match fl with
  | [] => h = POOL_EMPTY
  | i :: fl' =>
      h = Z.of_nat i /\ Z.of_nat i < cap /\
      exists h', next !! i = Some h' /\ linked cap next h' fl'
  end.

Record free_list (p : t T) (fl : list nat) : Prop := {
  fl_cap : 0 < capacity_ p < POOL_EMPTY;
  fl_pool : length (pool_ p) = Z.to_nat (capacity_ p);
  fl_next : length (next_ p) = Z.to_nat (capacity_ p);
  fl_owned_len : length (owned_ p) = Z.to_nat (capacity_ p);
  fl_head : u64 (head_ p);
  fl_linked : linked (capacity_ p) (next_ p) (index (unpack (head_ p))) fl;
  fl_nodup : NoDup fl;
  fl_owned : forall i, (i < Z.to_nat (capacity_ p))%nat ->
    owned_ p !! i = Some (if decide (i ∈ fl) then 0 else 1);
  fl_alloc : allocated_ p = capacity_ p - Z.of_nat (length fl);
  fl_high : allocated_ p <= high_water_ p <= capacity_ p
}.

Definition ok (p : t T) : Prop := exists fl, free_list p fl.
Definition owned (p : t T) (i : nat) : Prop := owned_ p !! i = Some 1.

End ops.

(** ** Tagged index lemmas *)

Lemma pack_arith i g : u32 i -> u32 g -> pack i g = g * 4294967296 + i.
Proof.
  intros Hi Hg. unfold pack. rewrite Z.shiftl_mul_pow2; [lia|].
  change (2 ^ 32) with 4294967296.
  rewrite <- (Z.lxor_lor (g * 4294967296) i), <- Z.add_nocarry_lxor; [done|..].
  all: apply Z.bits_inj'; intros n Hn; rewrite Z.land_spec Z.bits_0.
  all: destruct (Z.ltb_spec n 32) as [Hlt|Hge].
  1,3: change 4294967296 with (2 ^ 32); rewrite Z.mul_pow2_bits_low; [lia|done].
  all: rewrite (Z.bits_above_log2 i n); [u_lia| |apply andb_false_r].
  all: destruct (decide (i = 0)) as [->|]; [simpl; lia|].
  all: apply Z.log2_lt_pow2; [u_lia|]; eapply Z.lt_le_trans; [apply Hi|].
  all: apply Z.pow_le_mono_r; lia.
Qed.

Lemma pack_u64 i g : u32 i -> u32 g -> u64 (pack i g).
Proof. intros Hi Hg. rewrite pack_arith; [done..|]. u_lia. Qed.

Lemma unpack_pack_fields i g : u32 i -> u32 g -> unpack (pack i g) = mkTagged i g.
Proof.
  intros Hi Hg. unfold unpack. rewrite pack_arith; [done..|].
  rewrite Z.shiftr_div_pow2; [lia|]. f_equal.
  - unfold wrap. rewrite Z.add_comm Z.mod_add; [lia|]. by apply Z.mod_small.
  - change (2 ^ 32) with 4294967296. rewrite Z.add_comm Z.div_add; [lia|].
    rewrite Z.div_small; [u_lia|]. by apply wrap_small.
Qed.

Lemma wrap_pack i g : u32 i -> u32 g -> wrap 32 (pack i g) = i.
Proof. intros Hi Hg. exact (f_equal index (unpack_pack_fields i g Hi Hg)). Qed.

Lemma unpack_u32 x : u32 (index (unpack x)) /\ u32 (generation (unpack x)).
Proof. split; apply wrap_range; lia. Qed.

Section lemmas.
Context {T : Type}.
Implicit Types p : t T.

Lemma linked_insert cap next h fl i x :
  i ∉ fl -> linked cap next h fl -> linked cap (<[i := x]> next) h fl.
Proof.
  revert h. induction fl as [|j fl IH]; intros h Hi; simpl; [done|].
  intros (-> & Hc & h' & Hn & Hl). split_and!; [done..|]. exists h'.
  rewrite list_lookup_insert_ne; [set_solver|]. split; [done|]. apply IH; set_solver.
Qed.

Lemma linked_in_range cap next h fl i :
  linked cap next h fl -> i ∈ fl -> Z.of_nat i < cap.
Proof.
  revert h. induction fl as [|j fl IH]; intros h; simpl; [by intros _ ?%elem_of_nil|].
  intros (-> & Hc & h' & Hn & Hl) [->|Hi]%elem_of_cons; [done|]. by eapply IH.
Qed.

Lemma linked_length cap next h fl :
  linked cap next h fl -> NoDup fl -> (length fl <= Z.to_nat cap)%nat.
Proof.
  intros Hl Hnd. rewrite -(length_seq (Z.to_nat cap) 0).
  apply submseteq_length, NoDup_submseteq; [done|]. intros j Hj. apply elem_of_seq.
  pose proof (linked_in_range _ _ _ _ _ Hl Hj). lia.
Qed.

Lemma linked_u32 cap next h fl : cap < POOL_EMPTY -> linked cap next h fl -> u32 h.
Proof.
  destruct fl; simpl; unfold POOL_EMPTY; intros Hc; [intros ->|intros (-> & ? & _)]; u_lia.
Qed.

Lemma linked_initial_from cap k n :
  cap < POOL_EMPTY -> Z.of_nat (k + n) = cap -> (0 < n)%nat ->
  forall next, (forall i, (k <= i < k + n)%nat -> next !! i = initial_links (k + n) !! i) ->
  linked cap next (Z.of_nat k) (seq k n).
Proof.
  intros Hc. revert k. induction n as [|n IH]; intros k Hk Hn next Hnext; [lia|].
  simpl. split_and!; [done|lia|]. rewrite Hnext; [lia|]. unfold initial_links.
  destruct n as [|n].
  - exists POOL_EMPTY. split; [|done]. rewrite lookup_app_r; rewrite length_fmap length_seq; [lia|].
    by replace (k - (k + 1 - 1))%nat with 0%nat by lia.
  - exists (Z.of_nat (S k)). split.
    + rewrite lookup_app_l; [rewrite length_fmap length_seq; lia|].
      rewrite list_lookup_fmap lookup_seq_lt; [lia|]. done.
    + apply IH; [lia..|]. intros i Hi. rewrite Hnext; [lia|]. do 2 f_equal. lia.
Qed.

Lemma make_free_list dflt cap :
  0 < cap < POOL_EMPTY ->
  exists p, make (T := T) dflt cap = inr p /\ capacity_ p = cap /\
    free_list p (seq 0 (Z.to_nat cap)).
Proof.
  intros Hc. unfold make, validate_capacity.
  destruct (Z.eqb_spec cap 0); [lia|]. destruct (Z.leb_spec POOL_EMPTY cap); [lia|].
  eexists. split; [done|]. split; [done|]. split; simpl; try done.
  - apply length_replicate.
  - unfold initial_links. rewrite length_app length_fmap length_seq /=. lia.
  - apply length_replicate.
  - apply (linked_initial_from cap 0); [lia..|]. done.
  - apply NoDup_seq.
  - intros i Hi. rewrite lookup_replicate_2; [done|]. rewrite decide_True; [|done].
    apply elem_of_seq. lia.
  - rewrite length_seq. lia.
  - lia.
Qed.

(** Popping the head of the free list. *)
Lemma allocate_cons p i fl :
  free_list p (i :: fl) ->
  exists p', allocate p = Some (Some i, p') /\ free_list p' fl /\ pool_ p' = pool_ p /\
    capacity_ p' = capacity_ p /\ owned_ p' = <[i := 1]> (owned_ p) /\
    allocated_ p' = allocated_ p + 1.
Proof.
  intros [Hcap Hpl Hnx Hol Hh Hlk Hnd How Hal Hhw].
  pose proof Hlk as (Hi & Hic & h' & Hn & Hl).
  pose proof (unpack_u32 (head_ p)) as [Hu1 Hu2].
  assert (u32 h') as Hh' by (eapply linked_u32; [|done]; lia).
  unfold allocate. destruct (Z.eqb_spec (index (unpack (head_ p))) POOL_EMPTY) as [He|_].
  { unfold POOL_EMPTY in *. lia. }
  rewrite Hi Nat2Z.id Hn /=. rewrite How; [lia|].
  rewrite decide_True; [left|]. simpl.
  pose proof (linked_length _ _ _ _ Hlk Hnd) as Hlen.
  apply NoDup_cons in Hnd as [Hni Hnd].
  assert (allocated_ p +₆₄ 1 = allocated_ p + 1) as Ha.
  { apply wrap_small. simpl length in *. unfold POOL_EMPTY in *. u_lia. }
  eexists. split; [done|]. unfold update_stats_allocate; simpl. rewrite Ha.
  split_and!; [|done..]. split; simpl; try done.
  - by rewrite length_insert.
  - apply pack_u64; [done|]. apply wrap_range; lia.
  - rewrite wrap_pack; [done|apply wrap_range; lia|done].
  - intros j Hj. destruct (decide (i = j)) as [<-|Hne].
    + rewrite list_lookup_insert_eq; [lia|]. by rewrite decide_False.
    + rewrite list_lookup_insert_ne; [done|]. rewrite How; [done|]. f_equal.
      destruct (decide (j ∈ i :: fl)), (decide (j ∈ fl)); set_solver.
  - simpl in Hal. lia.
  - simpl in Hal. zbool; lia.
Qed.

Lemma allocate_nil p : free_list p [] -> allocate p = Some (None, p).
Proof. intros H. unfold allocate. by rewrite (fl_linked _ _ H). Qed.

(** Pushing an owned slot. *)
Lemma deallocate_free_list p i fl :
  free_list p fl -> owned p i ->
  exists p', deallocate (Some i) p = Some p' /\ free_list p' (i :: fl) /\
    pool_ p' = pool_ p /\ capacity_ p' = capacity_ p /\
    owned_ p' = <[i := 0]> (owned_ p) /\ allocated_ p' = allocated_ p - 1.
Proof.
  intros [Hcap Hpl Hnx Hol Hh Hlk Hnd How Hal Hhw] Hown.
  unfold owned in Hown.
  assert (i < Z.to_nat (capacity_ p))%nat as Hi by (rewrite -Hol; by eapply lookup_lt_Some).
  assert (i ∉ fl) as Hni.
  { intros Hin. rewrite How in Hown; [done|]. rewrite decide_True in Hown; done. }
  pose proof (unpack_u32 (head_ p)) as [Hu1 Hu2].
  assert (length (i :: fl) <= Z.to_nat (capacity_ p))%nat as Hlen.
  { apply (linked_length _ (<[i := index (unpack (head_ p))]> (next_ p)) (Z.of_nat i)).
    - simpl. split_and!; [done|lia|]. eexists.
      rewrite list_lookup_insert_eq; [lia|]. split; [done|]. by apply linked_insert.
    - by constructor. }
  unfold deallocate. destruct (Z.ltb_spec (Z.of_nat i) (capacity_ p)); [|lia].
  simpl. rewrite Hown /=. eexists. split; [done|]. simpl in Hlen.
  assert (allocated_ p -₆₄ 1 = allocated_ p - 1) as Ha.
  { apply wrap_small. unfold POOL_EMPTY in *. u_lia. }
  assert (u32 (Z.of_nat i)) as Hi32 by (unfold POOL_EMPTY in *; u_lia).
  unfold update_stats_deallocate; simpl. rewrite Ha.
  split_and!; [|done..]. split; simpl; try done.
  - by rewrite length_insert.
  - by rewrite length_insert.
  - apply pack_u64; [done|]. apply wrap_range; lia.
  - rewrite wrap_pack; [done|apply wrap_range; lia|]. split_and!; [done..|].
    exists (index (unpack (head_ p))). rewrite list_lookup_insert_eq; [lia|]. split; [done|].
    by apply linked_insert.
  - by constructor.
  - intros j Hj. destruct (decide (i = j)) as [<-|Hne].
    + rewrite list_lookup_insert_eq; [lia|]. rewrite decide_True; [set_solver|done].
    + rewrite list_lookup_insert_ne; [done|]. rewrite How; [done|]. f_equal.
      destruct (decide (j ∈ i :: fl)), (decide (j ∈ fl)); set_solver.
  - lia.
  - lia.
Qed.

Lemma store_free_list p i x fl : free_list p fl -> free_list (store i x p) fl.
Proof. intros []. split; simpl; try done. by rewrite length_insert. Qed.

Lemma owned_in_range p i : ok p -> owned p i -> exists x, deref p i = Some x.
Proof.
  intros [fl H] Ho. apply lookup_lt_is_Some_2. rewrite (fl_pool _ _ H) -(fl_owned_len _ _ H).
  by eapply lookup_lt_Some.
Qed.

End lemmas.
End MemoryPool.

(** ** The property *)

(** The pool is a free list.  [allocate] hands out the slot at the head of
    the free list, one that nobody owned, without touching any other slot or
    any element, and reports exhaustion exactly when no slot is free;
    [deallocate] of an owned slot puts it back at the head; a second
    [deallocate], or one of a slot that was never handed out, fails its
    assertion; the statistics count the free slots. *)
Theorem pool_operations {T} (p : MemoryPool.t T) fl :
  MemoryPool.free_list p fl ->
  (match fl with
   | [] => MemoryPool.allocate p = Some (None, p)
   | i :: fl' => exists p', MemoryPool.allocate p = Some (Some i, p') /\ MemoryPool.free_list p' fl' /\
       ~ MemoryPool.owned p i /\ MemoryPool.owned p' i /\
       (forall j, j <> i -> MemoryPool.owned p' j <-> MemoryPool.owned p j) /\
       (forall j, MemoryPool.deref p' j = MemoryPool.deref p j)
   end) /\
  (forall i, MemoryPool.owned p i -> exists p', MemoryPool.deallocate (Some i) p = Some p' /\
     MemoryPool.free_list p' (i :: fl) /\ MemoryPool.deallocate (Some i) p' = None) /\
  (forall i, ~ MemoryPool.owned p i -> MemoryPool.deallocate (Some i) p = None) /\
  MemoryPool.available p = Z.of_nat (length fl).
Proof.
  intros Hfl.
  assert (forall p' : MemoryPool.t T, forall i, ~ MemoryPool.owned p' i -> MemoryPool.deallocate (Some i) p' = None)
    as Hnot.
  { intros p' i Hno. unfold MemoryPool.deallocate, MemoryPool.owned in *. destruct (negb _); [done|].
    destruct (MemoryPool.owned_ p' !! i) as [x|]; [|done]. simpl. destruct (Z.eqb_spec x 1) as [->|]; done. }
  split; [|split; [|split; [by apply Hnot|]]].
  - destruct fl as [|i fl]; [by apply MemoryPool.allocate_nil|].
    destruct (MemoryPool.allocate_cons p i fl Hfl) as (p' & Ha & Hfl' & Hp & Hc & Ho & _). exists p'.
    destruct (MemoryPool.fl_linked _ _ Hfl) as (_ & Hi & _).
    unfold MemoryPool.owned, MemoryPool.deref. rewrite Ho Hp (MemoryPool.fl_owned _ _ Hfl i); [lia|].
    rewrite decide_True; [left|]. split_and!; try done.
    + apply list_lookup_insert_eq. rewrite (MemoryPool.fl_owned_len _ _ Hfl). lia.
    + intros j Hj. by rewrite list_lookup_insert_ne.
  - intros i Hi. destruct (MemoryPool.deallocate_free_list p i fl Hfl Hi) as (p' & Hd & Hfl' & _ & _ & Ho & _).
    exists p'. split; [done|]. split; [done|]. apply Hnot. unfold MemoryPool.owned. rewrite Ho.
    rewrite list_lookup_insert_eq; [by eapply lookup_lt_Some|]. done.
  - unfold MemoryPool.available. rewrite (MemoryPool.fl_alloc _ _ Hfl).
    replace (_ - _) with (Z.of_nat (length fl)) by lia. apply wrap_small.
    pose proof (MemoryPool.linked_length _ _ _ _ (MemoryPool.fl_linked _ _ Hfl) (MemoryPool.fl_nodup _ _ Hfl)).
    destruct (MemoryPool.fl_cap _ _ Hfl). unfold MemoryPool.POOL_EMPTY in *. u_lia.
Qed.

Definition ex_small_pool : MemoryPool.t Z :=
  match MemoryPool.make 0 2 with inr p => p | inl _ => MemoryPool.mk 0 [] [] 0 0 0 [] end.

Lemma pool_operations_witness :
  exists p', MemoryPool.allocate ex_small_pool = Some (Some 0%nat, p') /\ MemoryPool.free_list p' [1%nat].
Proof.
  assert (MemoryPool.free_list ex_small_pool [0%nat; 1%nat]) as Hfl.
  { unfold ex_small_pool. destruct (MemoryPool.make_free_list 0 2) as (p & -> & _ & Hfl); [done|]. exact Hfl. }
  destruct (pool_operations ex_small_pool [0%nat; 1%nat] Hfl) as [(p' & H1 & H2 & _) _].
  exists p'. exact (conj H1 H2).
Defined.
