(* ===== verification/PoolThreads.v ===== *)
(** * The order pool under contention (include/rtes/memory_pool.hpp)

    The gateway, the risk manager and the engines allocate and free orders of
    one pool at the same time.  A step of a thread is one access to shared
    memory, sequentially consistent: loading [head_], reading or writing a link,
    the compare-exchange on [head_] (which may also fail spuriously), counting,
    raising the high-water mark, exchanging the ownership flag.  [held] are the
    slots handed out and not given back; freeing one of them is what a caller
    may do.  [exchanges] counts the successful exchanges of [head_]; a thread
    that has loaded [head_] remembers the count at that moment, which the
    program does not see: the generation it does see is this count modulo 2^32. *)

From S2P Require Import Prelude MemoryPool.

Module PoolThreads.
Import MemoryPool.

Section threads.
Context {T : Type}.

(** Where a thread is in its call. *)
Inductive pc :=
  | Idle
  | AllocLoaded (old_head stamp : Z)               (* next: test for the end, read the link *)
  | AllocNext (old_head next_index stamp : Z)      (* next: exchange the head *)
  | AllocClaimed (k : nat)                         (* next: count *)
  | AllocCounted (k : nat) (current : Z)           (* next: load the high-water mark *)
  | AllocHigh (k : nat) (current hw : Z)           (* next: compare, raise it *)
  | AllocMark (k : nat)                            (* next: mark as owned, return *)
  | FreeStart (k : nat)                            (* next: mark as free *)
  | FreeUnmarked (k : nat)                         (* next: load the head *)
  | FreeLoaded (k : nat) (old_head stamp : Z)      (* next: write the link *)
  | FreeLinked (k : nat) (old_head stamp : Z)      (* next: exchange the head *)
  | FreePushed (k : nat).                          (* next: count, return *)

Record st := mkst {
  pool : MemoryPool.t T;
  threads : list pc;
  held : list nat;
  exchanges : Z
}.
Implicit Types s : st.

Definition go (i : nat) (c : pc) (p : MemoryPool.t T) s : st :=
  mkst p (<[i := c]> (threads s)) (held s) (exchanges s).

Definition head_slot (old_head : Z) : nat := Z.to_nat (index (unpack old_head)).

Inductive step (i : nat) : st -> st -> Prop :=
  | alloc_start s :
      threads s !! i = Some Idle -> step i s (go i (AllocLoaded (head_ (pool s)) (exchanges s)) (pool s) s)
  | alloc_empty s old stamp :
      threads s !! i = Some (AllocLoaded old stamp) -> index (unpack old) = POOL_EMPTY ->
      step i s (go i Idle (pool s) s)
  | alloc_read s old stamp next_index :
      threads s !! i = Some (AllocLoaded old stamp) -> index (unpack old) <> POOL_EMPTY ->
      next_ (pool s) !! head_slot old = Some next_index ->
      step i s (go i (AllocNext old next_index stamp) (pool s) s)
  | alloc_claim s old next_index stamp :
      threads s !! i = Some (AllocNext old next_index stamp) -> head_ (pool s) = old ->
      step i s (mkst (set_head (pack next_index (generation (unpack old) +₃₂ 1)) (pool s))
                  (<[i := AllocClaimed (head_slot old)]> (threads s)) (held s) (exchanges s + 1))
  | alloc_retry s old next_index stamp :
      threads s !! i = Some (AllocNext old next_index stamp) ->
      step i s (go i (AllocLoaded (head_ (pool s)) (exchanges s)) (pool s) s)
  | alloc_count s k :
      threads s !! i = Some (AllocClaimed k) ->
      step i s (go i (AllocCounted k (allocated_ (pool s) +₆₄ 1))
                  (set_stats (allocated_ (pool s) +₆₄ 1) (high_water_ (pool s)) (pool s)) s)
  | alloc_load_high s k current :
      threads s !! i = Some (AllocCounted k current) ->
      step i s (go i (AllocHigh k current (high_water_ (pool s))) (pool s) s)
  | alloc_high_enough s k current hw :
      threads s !! i = Some (AllocHigh k current hw) -> current <= hw ->
      step i s (go i (AllocMark k) (pool s) s)
  | alloc_raise s k current hw :
      threads s !! i = Some (AllocHigh k current hw) -> hw < current -> high_water_ (pool s) = hw ->
      step i s (go i (AllocMark k) (set_stats (allocated_ (pool s)) current (pool s)) s)
  | alloc_raise_retry s k current hw :
      threads s !! i = Some (AllocHigh k current hw) -> hw < current ->
      step i s (go i (AllocHigh k current (high_water_ (pool s))) (pool s) s)
  | alloc_mark s k :
      threads s !! i = Some (AllocMark k) -> owned_ (pool s) !! k = Some 0 ->
      step i s (mkst (set_owned (<[k := 1]> (owned_ (pool s))) (pool s)) (<[i := Idle]> (threads s))
                  (k :: held s) (exchanges s))
  | free_start s k rest :
      threads s !! i = Some Idle -> held s ≡ₚ k :: rest ->
      step i s (mkst (pool s) (<[i := FreeStart k]> (threads s)) rest (exchanges s))
  | free_unmark s k :
      threads s !! i = Some (FreeStart k) -> Z.of_nat k < capacity_ (pool s) -> owned_ (pool s) !! k = Some 1 ->
      step i s (go i (FreeUnmarked k) (set_owned (<[k := 0]> (owned_ (pool s))) (pool s)) s)
  | free_load s k :
      threads s !! i = Some (FreeUnmarked k) ->
      step i s (go i (FreeLoaded k (head_ (pool s)) (exchanges s)) (pool s) s)
  | free_link s k old stamp :
      threads s !! i = Some (FreeLoaded k old stamp) ->
      step i s (go i (FreeLinked k old stamp) (set_next (<[k := index (unpack old)]> (next_ (pool s))) (pool s)) s)
  | free_push s k old stamp :
      threads s !! i = Some (FreeLinked k old stamp) -> head_ (pool s) = old ->
      step i s (mkst (set_head (pack (Z.of_nat k) (generation (unpack old) +₃₂ 1)) (pool s))
                  (<[i := FreePushed k]> (threads s)) (held s) (exchanges s + 1))
  | free_retry s k old stamp :
      threads s !! i = Some (FreeLinked k old stamp) ->
      step i s (go i (FreeLoaded k (head_ (pool s)) (exchanges s)) (pool s) s)
  | free_count s k :
      threads s !! i = Some (FreePushed k) ->
      step i s (go i Idle (set_stats (allocated_ (pool s) -₆₄ 1) (high_water_ (pool s)) (pool s)) s).

(** A thread must not sleep through 2^32 exchanges between its load of [head_]
    and its own exchange: after exactly that many the generation repeats. *)
Definition stamp_of (c : pc) : option Z :=
  match c with
  | AllocLoaded _ st | AllocNext _ _ st | FreeLoaded _ _ st | FreeLinked _ _ st => Some st
  | _ => None
  end.
Definition awake (i : nat) s : Prop :=
  forall c st, threads s !! i = Some c -> stamp_of c = Some st -> exchanges s - st < 2 ^ 32.

Definition start (p : MemoryPool.t T) (n : nat) : st := mkst p (replicate n Idle) [] 0.
Definition reachable (p : MemoryPool.t T) (n : nat) s : Prop :=
  rtc (fun s s' => exists i, awake i s /\ step i s s') (start p n) s.

(** ** The invariant *)

(** The slot a thread has for itself, and its ownership flag. *)
Definition in_flight (c : pc) : option nat :=
  match c with
  | AllocClaimed k | AllocCounted k _ | AllocHigh k _ _ | AllocMark k
  | FreeStart k | FreeUnmarked k | FreeLoaded k _ _ | FreeLinked k _ _ => Some k
  | _ => None
  end.
Definition flag (c : pc) : Z := match c with FreeStart _ => 1 | _ => 0 end.

(** What the count still misses of a thread's call. *)
Definition uncounted (c : pc) : Z := match c with AllocClaimed _ => -1 | FreePushed _ => 1 | _ => 0 end.

(** The count a thread will raise the high-water mark to. *)
Definition raising (c : pc) : option Z :=
  match c with AllocCounted _ cur | AllocHigh _ cur _ => Some cur | _ => None end.

(** A head as it was at exchange number [stamp]. *)
Definition loaded_ok s (old stamp : Z) : Prop :=
  stamp <= exchanges s /\ (stamp = exchanges s -> old = head_ (pool s)) /\
  exists h, old = pack h (wrap 32 stamp) /\ u32 h /\ (h = POOL_EMPTY \/ 0 <= h < capacity_ (pool s)).

Definition thread_ok s (c : pc) : Prop :=
  match c with
  | AllocLoaded old stamp => loaded_ok s old stamp
  | AllocNext old n stamp => loaded_ok s old stamp /\ index (unpack old) <> POOL_EMPTY /\
      (stamp = exchanges s -> next_ (pool s) !! head_slot old = Some n)
  | AllocHigh _ _ hw => hw <= high_water_ (pool s)
  | FreeLoaded _ old stamp => loaded_ok s old stamp
  | FreeLinked k old stamp => loaded_ok s old stamp /\ next_ (pool s) !! k = Some (index (unpack old))
  | _ => True
  end.

Record inv s (fl : list nat) : Prop := {
  i_cap : 0 < capacity_ (pool s) < POOL_EMPTY;
  i_pool : length (pool_ (pool s)) = Z.to_nat (capacity_ (pool s));
  i_next : length (next_ (pool s)) = Z.to_nat (capacity_ (pool s));
  i_owned_len : length (owned_ (pool s)) = Z.to_nat (capacity_ (pool s));
  i_few : Z.of_nat (length (threads s)) < 2 ^ 32;
  i_exchanges : 0 <= exchanges s;
  i_head : exists h, head_ (pool s) = pack h (wrap 32 (exchanges s)) /\ linked (capacity_ (pool s)) (next_ (pool s)) h fl;
  i_parts : fl ++ held s ++ omap in_flight (threads s) ≡ₚ seq 0 (Z.to_nat (capacity_ (pool s)));
  i_free : forall k, k ∈ fl -> owned_ (pool s) !! k = Some 0;
  i_held : forall k, k ∈ held s -> owned_ (pool s) !! k = Some 1;
  i_flags : forall c k, c ∈ threads s -> in_flight c = Some k -> owned_ (pool s) !! k = Some (flag c);
  i_threads : forall c, c ∈ threads s -> thread_ok s c;
  i_count : allocated_ (pool s) = capacity_ (pool s) - Z.of_nat (length fl) + sumZ (uncounted <$> threads s);
  i_high : allocated_ (pool s) <= high_water_ (pool s) \/
    exists c cur, c ∈ threads s /\ raising c = Some cur /\ allocated_ (pool s) <= cur;
  i_high_le : high_water_ (pool s) <= capacity_ (pool s) + Z.of_nat (length (threads s));
  i_raising : forall c cur, c ∈ threads s -> raising c = Some cur -> cur <= capacity_ (pool s) + Z.of_nat (length (threads s))
}.

(** ** Preservation *)

Lemma thread_split s i c : threads s !! i = Some c ->
  exists R, threads s ≡ₚ c :: R /\ forall c', <[i := c']> (threads s) ≡ₚ c' :: R.
Proof.
  intros Hi. exists (take i (threads s) ++ drop (S i) (threads s)). split.
  - rewrite -{1}(take_drop_middle _ _ _ Hi). by rewrite Permutation_middle.
  - intros c'. rewrite insert_take_drop; [by eapply lookup_lt_Some|]. by rewrite Permutation_middle.
Qed.

(** What the other threads know survives. *)
Lemma pool_thread_frame s s' c :
  thread_ok s c -> capacity_ (pool s') = capacity_ (pool s) -> exchanges s <= exchanges s' ->
  high_water_ (pool s) <= high_water_ (pool s') ->
  (exchanges s' = exchanges s -> head_ (pool s') = head_ (pool s)) ->
  (forall n, exchanges s' = exchanges s -> index (unpack (head_ (pool s))) <> POOL_EMPTY ->
     next_ (pool s) !! head_slot (head_ (pool s)) = Some n -> next_ (pool s') !! head_slot (head_ (pool s)) = Some n) ->
  (forall k, in_flight c = Some k -> next_ (pool s') !! k = next_ (pool s) !! k) ->
  thread_ok s' c.
Proof.
  intros Ht Hc He Hh Hhead Hnext Hk.
  assert (forall old stamp, loaded_ok s old stamp -> loaded_ok s' old stamp) as Hl.
  { intros old stamp (Hle & Hcur & h & Hold & Hu & Hr). split; [lia|]. split.
    - intros Hst. rewrite Hcur; [lia|]. rewrite Hhead //. lia.
    - exists h. by rewrite Hc. }
  destruct c; cbn [thread_ok] in *; try done.
  - by apply Hl.
  - destruct Ht as (Hlo & Hne & Hn). split; [by apply Hl|]. split; [done|]. intros Hst.
    destruct Hlo as (Hle & Hcur & _). assert (stamp = exchanges s) as Hs by lia. rewrite (Hcur Hs).
    apply Hnext; [lia|by rewrite -(Hcur Hs)|]. rewrite -(Hcur Hs). by apply Hn.
  - lia.
  - by apply Hl.
  - destruct Ht as [Hlo Hn]. split; [by apply Hl|]. by rewrite (Hk k).
Qed.

(** One thread goes from [c] to [c'], the others [R] stay where they are. *)
Lemma inv_update s s' fl fl' c c' R :
  inv s fl -> threads s ≡ₚ c :: R -> threads s' ≡ₚ c' :: R ->
  capacity_ (pool s') = capacity_ (pool s) -> length (pool_ (pool s')) = length (pool_ (pool s)) ->
  length (next_ (pool s')) = length (next_ (pool s)) -> length (owned_ (pool s')) = length (owned_ (pool s)) ->
  exchanges s <= exchanges s' ->
  (exists h, head_ (pool s') = pack h (wrap 32 (exchanges s')) /\ linked (capacity_ (pool s)) (next_ (pool s')) h fl') ->
  fl' ++ held s' ++ option_list (in_flight c') ≡ₚ fl ++ held s ++ option_list (in_flight c) ->
  (forall k, k ∈ fl' -> owned_ (pool s') !! k = Some 0) ->
  (forall k, k ∈ held s' -> owned_ (pool s') !! k = Some 1) ->
  (forall k, in_flight c' = Some k -> owned_ (pool s') !! k = Some (flag c')) ->
  (forall k, k ∈ omap in_flight R -> owned_ (pool s') !! k = owned_ (pool s) !! k) ->
  (forall c0, c0 ∈ R -> thread_ok s c0 -> thread_ok s' c0) -> thread_ok s' c' ->
  allocated_ (pool s') - uncounted c' + Z.of_nat (length fl') = allocated_ (pool s) - uncounted c + Z.of_nat (length fl) ->
  (allocated_ (pool s') <= high_water_ (pool s') \/
   (exists cur, raising c' = Some cur /\ allocated_ (pool s') <= cur) \/
   (exists c0 cur, c0 ∈ R /\ raising c0 = Some cur /\ allocated_ (pool s') <= cur)) ->
  high_water_ (pool s') <= capacity_ (pool s) + Z.of_nat (length (threads s)) ->
  (forall cur, raising c' = Some cur -> cur <= capacity_ (pool s) + Z.of_nat (length (threads s))) ->
  inv s' fl'.
Proof.
  intros Hi Hp Hp' Hc Hl1 Hl2 Hl3 He Hhead Hparts Hf Hh Hfl Hother Hth Htc Hcount Hhigh Hhle Hrais.
  assert (length (threads s') = length (threads s)) as Hlen by by rewrite Hp Hp'.
  assert (forall c0, c0 ∈ R -> c0 ∈ threads s) as HR by (intros c0 H0; rewrite Hp; by right).
  split; rewrite ?Hc ?Hl1 ?Hl2 ?Hl3 ?Hlen; try apply Hi; try done.
  - pose proof (i_exchanges _ _ Hi). lia.
  - rewrite Hp' omap_cons. rewrite -(i_parts _ _ Hi) Hp omap_cons.
    rewrite (Permutation_app_comm (option_list (in_flight c')) _) (Permutation_app_comm (option_list (in_flight c)) _).
    rewrite !(app_assoc (held _)) !(app_assoc fl) !(app_assoc fl').
    rewrite -!(app_assoc _ _ (option_list _)).
    rewrite (Permutation_app_comm (omap in_flight R) (option_list (in_flight c'))).
    rewrite (Permutation_app_comm (omap in_flight R) (option_list (in_flight c))).
    rewrite !app_assoc. apply Permutation_app_tail. rewrite -!app_assoc. exact Hparts.
  - intros c0 k Hin Hk. rewrite Hp' in Hin. apply elem_of_cons in Hin as [->|Hin]; [by apply Hfl|].
    rewrite Hother; [apply list_elem_of_omap; by exists c0|]. eapply i_flags; [exact Hi|by apply HR|done].
  - intros c0 Hin. rewrite Hp' in Hin. apply elem_of_cons in Hin as [->|Hin]; [done|]. apply Hth; [done|].
    eapply i_threads; [exact Hi|by apply HR].
  - rewrite Hp'. cbn [fmap list_fmap]. rewrite sumZ_cons.
    pose proof (i_count _ _ Hi) as Hcnt. rewrite Hp in Hcnt. cbn [fmap list_fmap] in Hcnt. rewrite sumZ_cons in Hcnt. lia.
  - destruct Hhigh as [|[(cur & Hr & Hle)|(c0 & cur & Hin & Hr & Hle)]]; [by left|right; exists c', cur|right; exists c0, cur];
      rewrite Hp'; split_and!; try done; set_solver.
  - intros c0 cur Hin Hr. rewrite Hp' in Hin. apply elem_of_cons in Hin as [->|Hin]; [by apply Hrais|].
    eapply i_raising; [exact Hi|by apply HR|done].
Qed.

Lemma parts_nodup s fl : inv s fl -> NoDup (fl ++ held s ++ omap in_flight (threads s)).
Proof. intros Hi. rewrite (i_parts _ _ Hi). apply NoDup_seq. Qed.

Lemma parts_range s fl k : inv s fl -> k ∈ fl ++ held s ++ omap in_flight (threads s) -> (k < Z.to_nat (capacity_ (pool s)))%nat.
Proof. intros Hi Hk. rewrite (i_parts _ _ Hi) in Hk. apply elem_of_seq in Hk. lia. Qed.

(** The slot of one thread is nobody else's. *)
Lemma flight_alone s fl c R k : inv s fl -> threads s ≡ₚ c :: R -> in_flight c = Some k ->
  (k ∉ fl) /\ (k ∉ held s) /\ (k ∉ omap in_flight R) /\ (k < Z.to_nat (capacity_ (pool s)))%nat.
Proof.
  intros Hi Hp Hk. pose proof (parts_nodup _ _ Hi) as Hnd.
  assert (omap in_flight (threads s) ≡ₚ k :: omap in_flight R) as Hom by (rewrite Hp omap_cons Hk; done).
  rewrite Hom in Hnd. apply NoDup_app in Hnd as (_ & Hd1 & Hnd). apply NoDup_app in Hnd as (_ & Hd2 & Hnd).
  apply NoDup_cons in Hnd as [Hd3 _]. split_and!; try done.
  - intros Hin. apply (Hd1 k Hin), elem_of_app. right. left.
  - intros Hin. apply (Hd2 k Hin). left.
  - apply (parts_range s fl); [done|]. rewrite Hom. set_solver.
Qed.

Lemma free_alone s fl c R k : inv s fl -> threads s ≡ₚ c :: R -> k ∈ fl ->
  (k ∉ held s) /\ (k ∉ omap in_flight R) /\ (k < Z.to_nat (capacity_ (pool s)))%nat.
Proof.
  intros Hi Hp Hk. pose proof (parts_nodup _ _ Hi) as Hnd. apply NoDup_app in Hnd as (_ & Hd & _).
  specialize (Hd k Hk). rewrite Hp omap_cons in Hd. split_and!; [set_solver..|].
  apply (parts_range s fl); [done|]. set_solver.
Qed.

(** A step that changes no shared memory. *)
Lemma inv_local s fl i c c' : inv s fl -> threads s !! i = Some c ->
  in_flight c' = in_flight c -> flag c' = flag c -> uncounted c' = uncounted c -> thread_ok s c' ->
  (raising c' = raising c \/ raising c' = None /\ forall cur, raising c = Some cur -> cur <= high_water_ (pool s)) ->
  inv (go i c' (pool s) s) fl.
Proof.
  intros Hi Hc Hf Hg Hu Ht Hr. destruct (thread_split s i c Hc) as (R & Hp & Hp').
  eapply (inv_update s _ fl fl c c' R Hi Hp); [exact (Hp' _)|..]; cbn [go pool held exchanges]; try done; try apply Hi; try lia.
  - by rewrite Hf.
  - intros k. rewrite Hf Hg. apply (i_flags _ _ Hi). rewrite Hp. left.
  - destruct (i_high _ _ Hi) as [|(c0 & cur & Hin & Hr0 & Hle)]; [by left|]. rewrite Hp in Hin.
    apply elem_of_cons in Hin as [->|Hin]; [|right; right; by exists c0, cur].
    destruct Hr as [Hr|[_ Hr]]; [right; left; exists cur; by rewrite Hr|left]. specialize (Hr _ Hr0). lia.
  - intros cur Hcur. destruct Hr as [Hr|[Hr _]]; [|congruence]. rewrite Hr in Hcur.
    apply (i_raising _ _ Hi c); [rewrite Hp; left|done].
Qed.

(** The head is what a thread loads. *)
Lemma load_head s fl : inv s fl -> loaded_ok s (head_ (pool s)) (exchanges s).
Proof.
  intros Hi. destruct (i_head _ _ Hi) as (h & Hh & Hl). pose proof (i_cap _ _ Hi).
  split; [lia|]. split; [done|]. exists h. split; [done|]. split; [by eapply linked_u32; [|exact Hl]; lia|].
  destruct fl as [|j fl]; cbn [linked] in Hl; [by left|right]. destruct Hl as (-> & ? & _). lia.
Qed.

(** An exchange that succeeds found the head the thread had loaded. *)
Lemma same_generation s old stamp fl : inv s fl -> loaded_ok s old stamp -> head_ (pool s) = old ->
  exchanges s - stamp < 2 ^ 32 -> stamp = exchanges s.
Proof.
  intros Hi (Hle & _ & h & Hold & Hu & _) He Hlag. destruct (i_head _ _ Hi) as (h' & Hh' & Hl).
  assert (u32 h') as Hu' by (eapply linked_u32; [|exact Hl]; apply Hi).
  rewrite Hold Hh' in He. apply (f_equal unpack) in He.
  rewrite !unpack_pack_fields // in He; try (apply wrap_range; lia). injection He as _ Hg.
  destruct (decide (stamp = exchanges s)) as [|Hne]; [done|]. exfalso.
  apply (mod_distinct (2 ^ 32) stamp (exchanges s - stamp)); [lia|].
  replace (stamp + (exchanges s - stamp)) with (exchanges s) by lia. by unfold wrap in Hg.
Qed.

(** The head as index and generation. *)
Lemma unpack_head s fl : inv s fl -> exists h, unpack (head_ (pool s)) = mkTagged h (wrap 32 (exchanges s)) /\
  linked (capacity_ (pool s)) (next_ (pool s)) h fl /\ u32 h.
Proof.
  intros Hi. destruct (i_head _ _ Hi) as (h & Hh & Hl). exists h.
  assert (u32 h) as Hu by (eapply linked_u32; [|exact Hl]; apply Hi). split; [|done].
  rewrite Hh unpack_pack_fields //. apply wrap_range. lia.
Qed.

Lemma inv_alloc_claim s fl i old n stamp : inv s fl -> awake i s ->
  threads s !! i = Some (AllocNext old n stamp) -> head_ (pool s) = old ->
  exists fl', fl = head_slot old :: fl' /\
  inv (mkst (set_head (pack n (generation (unpack old) +₃₂ 1)) (pool s))
         (<[i := AllocClaimed (head_slot old)]> (threads s)) (held s) (exchanges s + 1)) fl'.
Proof.
  intros Hi Haw Hc Hold. destruct (thread_split s i _ Hc) as (R & Hp & Hp').
  assert (thread_ok s (AllocNext old n stamp)) as (Hlo & Hne & Hn) by (apply (i_threads _ _ Hi); rewrite Hp; left).
  assert (stamp = exchanges s) as -> by (eapply same_generation; try done; by apply (Haw _ _ Hc)).
  specialize (Hn eq_refl). subst old. destruct (unpack_head s fl Hi) as (h & Hun & Hl & Hu).
  unfold head_slot in *. rewrite Hun in Hne Hn |- *. cbn [index generation] in *.
  destruct fl as [|j fl]; cbn [linked] in Hl; [done|]. destruct Hl as (-> & Hj & h' & Hn' & Hl). rewrite Nat2Z.id in Hn |- *.
  assert (h' = n) as -> by congruence. exists fl. split; [done|].
  pose proof (i_cap _ _ Hi) as Hcap. pose proof (free_alone _ _ _ _ j Hi Hp ltac:(left)) as (Hjh & HjR & _).
  pose proof (parts_nodup _ _ Hi) as Hnd. apply NoDup_cons in Hnd as [Hjfl _].
  eapply (inv_update s _ (j :: fl) fl _ _ R Hi Hp); [exact (Hp' _)|..]; cbn [pool held exchanges set_head capacity_ pool_ next_ owned_ head_ allocated_ high_water_]; try done; try lia.
  - exists n. split; [|done]. f_equal. by rewrite wrap_add_l.
  - cbn [in_flight option_list]. rewrite !app_nil_r. rewrite (Permutation_app_comm (held s)) /=. by rewrite -Permutation_middle.
  - intros k Hk. apply (i_free _ _ Hi). by right.
  - apply Hi.
  - intros k [= <-]. cbn [flag]. apply (i_free _ _ Hi). left.
  - intros c0 H0 Ht. apply (pool_thread_frame s); cbn [pool exchanges set_head capacity_ high_water_ next_]; try done; try lia.
  - cbn [uncounted length]. lia.
  - destruct (i_high _ _ Hi) as [|(c0 & cur & Hin & Hr0 & Hle)]; [by left|]. rewrite Hp in Hin.
    apply elem_of_cons in Hin as [->|Hin]; [done|]. right. right. by exists c0, cur.
  - apply Hi.
Qed.

Lemma inv_free_push s fl i k old stamp : inv s fl -> awake i s ->
  threads s !! i = Some (FreeLinked k old stamp) -> head_ (pool s) = old ->
  inv (mkst (set_head (pack (Z.of_nat k) (generation (unpack old) +₃₂ 1)) (pool s))
         (<[i := FreePushed k]> (threads s)) (held s) (exchanges s + 1)) (k :: fl).
Proof.
  intros Hi Haw Hc Hold. destruct (thread_split s i _ Hc) as (R & Hp & Hp').
  assert (thread_ok s (FreeLinked k old stamp)) as (Hlo & Hn) by (apply (i_threads _ _ Hi); rewrite Hp; left).
  subst old. destruct (unpack_head s fl Hi) as (h & Hun & Hl & Hu). rewrite Hun in Hn |- *. cbn [index generation] in *.
  pose proof (i_cap _ _ Hi) as Hcap. destruct (flight_alone _ _ _ _ k Hi Hp eq_refl) as (Hkf & Hkh & HkR & Hk).
  eapply (inv_update s _ fl (k :: fl) _ _ R Hi Hp); [exact (Hp' _)|..]; cbn [pool held exchanges set_head capacity_ pool_ next_ owned_ head_ allocated_ high_water_]; try done; try lia.
  - exists (Z.of_nat k). split; [f_equal; by rewrite wrap_add_l|]. cbn [linked]. split; [done|]. split; [lia|]. by exists h.
  - cbn [in_flight option_list]. rewrite app_nil_r. rewrite (Permutation_app_comm (held s)) /=. by rewrite -Permutation_middle.
  - intros j [->|Hj]%elem_of_cons; [|by apply (i_free _ _ Hi)].
    apply (i_flags _ _ Hi (FreeLinked k (head_ (pool s)) stamp)); [rewrite Hp; left|done].
  - apply Hi.
  - intros c0 H0 Ht. apply (pool_thread_frame s); cbn [pool exchanges set_head capacity_ high_water_ next_]; try done; try lia.
  - cbn [uncounted length]. lia.
  - destruct (i_high _ _ Hi) as [|(c0 & cur & Hin & Hr0 & Hle)]; [by left|]. rewrite Hp in Hin.
    apply elem_of_cons in Hin as [->|Hin]; [done|]. right. right. by exists c0, cur.
  - apply Hi.
Qed.

(** The count stays within its range. *)
Lemma uncounted_le cs : sumZ (uncounted <$> cs) <= Z.of_nat (length cs).
Proof.
  induction cs as [|c cs IH]; [done|]. rewrite fmap_cons sumZ_cons. cbn [length].
  assert (uncounted c <= 1) by (destruct c; cbn; lia). lia.
Qed.

Lemma uncounted_ge cs : - Z.of_nat (length (omap in_flight cs)) <= sumZ (uncounted <$> cs).
Proof.
  induction cs as [|c cs IH]; [done|]. rewrite omap_cons length_app fmap_cons sumZ_cons.
  assert (- Z.of_nat (length (option_list (in_flight c))) <= uncounted c) by (destruct c; cbn; lia). lia.
Qed.

Lemma count_range s fl : inv s fl -> 0 <= allocated_ (pool s) <= capacity_ (pool s) + Z.of_nat (length (threads s)).
Proof.
  intros Hi. rewrite (i_count _ _ Hi). pose proof (uncounted_le (threads s)). pose proof (uncounted_ge (threads s)).
  pose proof (Permutation_length (i_parts _ _ Hi)) as Hl. rewrite !length_app length_seq in Hl.
  pose proof (i_cap _ _ Hi). lia.
Qed.

(** With a thread that has claimed a slot and not counted it, there is room. *)
Lemma count_room s fl i k : inv s fl -> threads s !! i = Some (AllocClaimed k) ->
  allocated_ (pool s) + 1 <= capacity_ (pool s) + Z.of_nat (length (threads s)) /\
  allocated_ (pool s) +₆₄ 1 = allocated_ (pool s) + 1.
Proof.
  intros Hi Hc. destruct (thread_split s i _ Hc) as (R & Hp & _). pose proof (i_count _ _ Hi) as Hn.
  rewrite Hp fmap_cons sumZ_cons in Hn. cbn [uncounted] in Hn.
  pose proof (uncounted_le R). pose proof (Permutation_length Hp) as Hl. cbn [length] in Hl.
  pose proof (count_range s fl Hi). pose proof (i_cap _ _ Hi). pose proof (i_few _ _ Hi) as Hfew.
  split; [lia|]. apply wrap_small. unfold POOL_EMPTY in *. change (2 ^ 32) with 4294967296 in Hfew. u_lia.
Qed.

Lemma count_down s fl i k : inv s fl -> threads s !! i = Some (FreePushed k) ->
  allocated_ (pool s) -₆₄ 1 = allocated_ (pool s) - 1.
Proof.
  intros Hi Hc. destruct (thread_split s i _ Hc) as (R & Hp & _). pose proof (i_count _ _ Hi) as Hn.
  rewrite Hp fmap_cons sumZ_cons in Hn. cbn [uncounted] in Hn.
  pose proof (uncounted_ge R) as Hge. pose proof (Permutation_length (i_parts _ _ Hi)) as Hl.
  rewrite Hp omap_cons !length_app length_seq in Hl. cbn [in_flight option_list length] in Hl.
  pose proof (count_range s fl Hi). pose proof (i_cap _ _ Hi). pose proof (i_few _ _ Hi) as Hfew.
  apply wrap_small. unfold POOL_EMPTY in *. change (2 ^ 32) with 4294967296 in Hfew. u_lia.
Qed.

Lemma inv_alloc_count s fl i k : inv s fl -> threads s !! i = Some (AllocClaimed k) ->
  inv (go i (AllocCounted k (allocated_ (pool s) +₆₄ 1))
         (set_stats (allocated_ (pool s) +₆₄ 1) (high_water_ (pool s)) (pool s)) s) fl.
Proof.
  intros Hi Hc. destruct (count_room s fl i k Hi Hc) as [Hroom ->].
  destruct (thread_split s i _ Hc) as (R & Hp & Hp').
  eapply (inv_update s _ fl fl _ _ R Hi Hp); [exact (Hp' _)|..];
    cbn [go pool held exchanges set_stats capacity_ pool_ next_ owned_ head_ allocated_ high_water_]; try done; try apply Hi; try lia.
  - intros j Hj. apply (i_flags _ _ Hi (AllocClaimed k)); [rewrite Hp; left|done].
  - cbn [uncounted]. lia.
  - right. left. eexists. split; [reflexivity|lia].
  - intros cur [= <-]. done.
Qed.

Lemma inv_alloc_raise s fl i k current hw : inv s fl ->
  threads s !! i = Some (AllocHigh k current hw) -> hw < current -> high_water_ (pool s) = hw ->
  inv (go i (AllocMark k) (set_stats (allocated_ (pool s)) current (pool s)) s) fl.
Proof.
  intros Hi Hc Hlt Hhw. destruct (thread_split s i _ Hc) as (R & Hp & Hp').
  eapply (inv_update s _ fl fl _ _ R Hi Hp); [exact (Hp' _)|..];
    cbn [go pool held exchanges set_stats capacity_ pool_ next_ owned_ head_ allocated_ high_water_]; try done; try apply Hi; try lia.
  - intros j Hj. apply (i_flags _ _ Hi (AllocHigh k current hw)); [rewrite Hp; left|done].
  - intros c0 H0 Ht. apply (pool_thread_frame s); cbn [go pool set_stats high_water_]; try done; lia.
  - destruct (i_high _ _ Hi) as [|(c0 & cur & Hin & Hr0 & Hle)]; [left; lia|]. rewrite Hp in Hin.
    apply elem_of_cons in Hin as [->|Hin]; [|right; right; by exists c0, cur]. injection Hr0 as <-. by left.
  - apply (i_raising _ _ Hi (AllocHigh k current hw)); [rewrite Hp; left|done].
Qed.

Lemma inv_alloc_mark s fl i k : inv s fl -> threads s !! i = Some (AllocMark k) ->
  inv (mkst (set_owned (<[k := 1]> (owned_ (pool s))) (pool s)) (<[i := Idle]> (threads s)) (k :: held s) (exchanges s)) fl.
Proof.
  intros Hi Hc. destruct (thread_split s i _ Hc) as (R & Hp & Hp').
  destruct (flight_alone _ _ _ _ k Hi Hp eq_refl) as (Hkf & Hkh & HkR & Hk).
  eapply (inv_update s _ fl fl _ _ R Hi Hp); [exact (Hp' _)|..];
    cbn [pool held exchanges set_owned capacity_ pool_ next_ owned_ head_ allocated_ high_water_]; try done; try apply Hi; try lia.
  - by rewrite length_insert.
  - cbn [in_flight option_list]. rewrite app_nil_r. apply Permutation_app_head. by rewrite Permutation_app_comm.
  - intros j Hj. rewrite list_lookup_insert_ne; [set_solver|]. by apply Hi.
  - intros j [->|Hj]%elem_of_cons.
    + apply list_lookup_insert_eq. by rewrite (i_owned_len _ _ Hi).
    + rewrite list_lookup_insert_ne; [set_solver|]. by apply Hi.
  - intros j Hj. rewrite list_lookup_insert_ne //. intros ->. done.
  - destruct (i_high _ _ Hi) as [|(c0 & cur & Hin & Hr0 & Hle)]; [by left|]. rewrite Hp in Hin.
    apply elem_of_cons in Hin as [->|Hin]; [done|]. right. right. by exists c0, cur.
Qed.

Lemma inv_free_start s fl i k rest : inv s fl -> threads s !! i = Some Idle -> held s ≡ₚ k :: rest ->
  inv (mkst (pool s) (<[i := FreeStart k]> (threads s)) rest (exchanges s)) fl.
Proof.
  intros Hi Hc Hh. destruct (thread_split s i _ Hc) as (R & Hp & Hp').
  eapply (inv_update s _ fl fl _ _ R Hi Hp); [exact (Hp' _)|..]; cbn [pool held exchanges]; try done; try apply Hi; try lia.
  - cbn [in_flight option_list]. rewrite app_nil_r Hh. apply Permutation_app_head. by rewrite Permutation_app_comm.
  - intros j Hj. apply (i_held _ _ Hi). rewrite Hh. by right.
  - intros j [= <-]. apply (i_held _ _ Hi). rewrite Hh. left.
  - destruct (i_high _ _ Hi) as [|(c0 & cur & Hin & Hr0 & Hle)]; [by left|]. rewrite Hp in Hin.
    apply elem_of_cons in Hin as [->|Hin]; [done|]. right. right. by exists c0, cur.
Qed.

Lemma inv_free_unmark s fl i k : inv s fl -> threads s !! i = Some (FreeStart k) ->
  inv (go i (FreeUnmarked k) (set_owned (<[k := 0]> (owned_ (pool s))) (pool s)) s) fl.
Proof.
  intros Hi Hc. destruct (thread_split s i _ Hc) as (R & Hp & Hp').
  destruct (flight_alone _ _ _ _ k Hi Hp eq_refl) as (Hkf & Hkh & HkR & Hk).
  eapply (inv_update s _ fl fl _ _ R Hi Hp); [exact (Hp' _)|..];
    cbn [go pool held exchanges set_owned capacity_ pool_ next_ owned_ head_ allocated_ high_water_]; try done; try apply Hi; try lia.
  - by rewrite length_insert.
  - intros j Hj. rewrite list_lookup_insert_ne; [set_solver|]. by apply Hi.
  - intros j Hj. rewrite list_lookup_insert_ne; [set_solver|]. by apply Hi.
  - intros j [= <-]. apply list_lookup_insert_eq. by rewrite (i_owned_len _ _ Hi).
  - intros j Hj. rewrite list_lookup_insert_ne //. intros ->. done.
  - destruct (i_high _ _ Hi) as [|(c0 & cur & Hin & Hr0 & Hle)]; [by left|]. rewrite Hp in Hin.
    apply elem_of_cons in Hin as [->|Hin]; [done|]. right. right. by exists c0, cur.
Qed.

Lemma inv_free_link s fl i k old stamp : inv s fl -> threads s !! i = Some (FreeLoaded k old stamp) ->
  inv (go i (FreeLinked k old stamp) (set_next (<[k := index (unpack old)]> (next_ (pool s))) (pool s)) s) fl.
Proof.
  intros Hi Hc. destruct (thread_split s i _ Hc) as (R & Hp & Hp').
  assert (thread_ok s (FreeLoaded k old stamp)) as Hlo by (apply (i_threads _ _ Hi); rewrite Hp; left).
  destruct (flight_alone _ _ _ _ k Hi Hp eq_refl) as (Hkf & Hkh & HkR & Hk).
  eapply (inv_update s _ fl fl _ _ R Hi Hp); [exact (Hp' _)|..];
    cbn [go pool held exchanges set_next capacity_ pool_ next_ owned_ head_ allocated_ high_water_]; try done; try apply Hi; try lia.
  - by rewrite length_insert.
  - destruct (i_head _ _ Hi) as (h & Hh & Hl). exists h. split; [done|]. by apply linked_insert.
  - intros j Hj. apply (i_flags _ _ Hi (FreeLoaded k old stamp)); [rewrite Hp; left|done].
  - intros c0 H0 Ht. apply (pool_thread_frame s); cbn [go pool exchanges set_next capacity_ high_water_ next_]; try done; try lia.
    + intros n _ Hne Hn. rewrite list_lookup_insert_ne //. intros ->. apply Hkf.
      destruct (unpack_head s fl Hi) as (h & Hun & Hl & _). unfold head_slot in *. rewrite Hun in Hne |- *. cbn [index] in *.
      destruct fl as [|j fl]; cbn [linked] in Hl; [done|]. destruct Hl as (-> & _). rewrite Nat2Z.id. left.
    + intros j Hj. rewrite list_lookup_insert_ne //. intros ->. apply HkR, list_elem_of_omap. by exists c0.
  - cbn [thread_ok go pool set_next next_]. split; [exact Hlo|]. apply list_lookup_insert_eq. by rewrite (i_next _ _ Hi).
  - destruct (i_high _ _ Hi) as [|(c0 & cur & Hin & Hr0 & Hle)]; [by left|]. rewrite Hp in Hin.
    apply elem_of_cons in Hin as [->|Hin]; [done|]. right. right. by exists c0, cur.
Qed.

Lemma inv_free_count s fl i k : inv s fl -> threads s !! i = Some (FreePushed k) ->
  inv (go i Idle (set_stats (allocated_ (pool s) -₆₄ 1) (high_water_ (pool s)) (pool s)) s) fl.
Proof.
  intros Hi Hc. rewrite (count_down s fl i k) //. destruct (thread_split s i _ Hc) as (R & Hp & Hp').
  eapply (inv_update s _ fl fl _ _ R Hi Hp); [exact (Hp' _)|..];
    cbn [go pool held exchanges set_stats capacity_ pool_ next_ owned_ head_ allocated_ high_water_]; try done; try apply Hi; try lia.
  - cbn [uncounted]. lia.
  - destruct (i_high _ _ Hi) as [|(c0 & cur & Hin & Hr0 & Hle)]; [left; lia|]. rewrite Hp in Hin.
    apply elem_of_cons in Hin as [->|Hin]; [done|]. right. right. exists c0, cur. split_and!; try done. lia.
Qed.

Lemma pool_step_inv i s s' fl : inv s fl -> awake i s -> step i s s' -> exists fl', inv s' fl'.
Proof.
  intros Hi Haw Hs.
  assert (forall c, threads s !! i = Some c -> thread_ok s c) as Hti.
  { intros c Hc. apply (i_threads _ _ Hi). by eapply list_elem_of_lookup_2. }
  pose proof (load_head s fl Hi) as Hload.
  destruct Hs as [s Hc|s old stamp Hc He|s old stamp n Hc Hne Hn|s old n stamp Hc Hh|s old n stamp Hc|s k Hc|s k cur Hc
    |s k cur hw Hc Hle|s k cur hw Hc Hlt Hh|s k cur hw Hc Hlt|s k Hc Ho|s k rest Hc Hh|s k Hc Hk Ho|s k Hc|s k old stamp Hc
    |s k old stamp Hc Hh|s k old stamp Hc|s k Hc]; specialize (Hti _ Hc); cbn [thread_ok] in Hti.
  - exists fl. eapply inv_local; try done. by left.
  - exists fl. eapply inv_local; try done. by left.
  - exists fl. eapply inv_local; try done. by left.
  - destruct (inv_alloc_claim s fl i old n stamp Hi Haw Hc Hh) as (fl' & _ & H). by exists fl'.
  - exists fl. eapply inv_local; try done. by left.
  - exists fl. by apply inv_alloc_count.
  - exists fl. eapply inv_local; try done; [cbn; lia|by left].
  - exists fl. eapply inv_local; try done. right. split; [done|]. intros cur' [= <-]. lia.
  - exists fl. by eapply inv_alloc_raise.
  - exists fl. eapply inv_local; try done; [cbn; lia|by left].
  - exists fl. by apply inv_alloc_mark.
  - exists fl. by apply inv_free_start.
  - exists fl. by apply inv_free_unmark.
  - exists fl. eapply inv_local; try done. by left.
  - exists fl. by apply inv_free_link.
  - exists (k :: fl). by eapply inv_free_push.
  - exists fl. eapply inv_local; try done. by left.
  - exists fl. by eapply inv_free_count.
Qed.

Lemma pool_start_inv dflt cap p n : 0 <= cap -> make dflt cap = inr p -> Z.of_nat n < 2 ^ 32 -> inv (start p n) (seq 0 (Z.to_nat cap)).
Proof.
  intros Hcap Hm Hn. unfold make, validate_capacity in Hm. destruct (cap =? 0) eqn:E0; [done|].
  destruct (POOL_EMPTY <=? cap) eqn:E1; [done|]. injection Hm as <-.
  assert (omap in_flight (replicate n (@Idle)) = []) as Ho by (clear; induction n; [done|]; cbn; done).
  assert (sumZ (uncounted <$> replicate n (@Idle)) = 0) as Hu.
  { clear. induction n as [|n IH]; [done|]. cbn [replicate]. rewrite fmap_cons sumZ_cons IH. done. }
  assert (forall c, c ∈ threads (start (mk cap (replicate (Z.to_nat cap) dflt) (initial_links (Z.to_nat cap)) (pack 0 0) 0 0
    (replicate (Z.to_nat cap) 0)) n) -> c = Idle) as Hidle by (intros c Hc; by apply elem_of_replicate in Hc as [-> _]).
  apply Z.eqb_neq in E0. apply Z.leb_gt in E1.
  split; cbn [start pool threads held exchanges capacity_ pool_ next_ owned_ head_ allocated_ high_water_]; try done; try lia.
  - apply length_replicate.
  - unfold initial_links. rewrite length_app length_fmap length_seq /=. lia.
  - apply length_replicate.
  - by rewrite length_replicate.
  - exists 0. split; [done|]. apply (linked_initial_from cap 0); [lia..|]. done.
  - rewrite Ho. cbn [app]. by rewrite app_nil_r.
  - intros k Hk. apply elem_of_seq in Hk. apply lookup_replicate_2. lia.
  - intros k Hk. by apply not_elem_of_nil in Hk.
  - intros c k Hc Hk. by rewrite (Hidle c Hc) in Hk.
  - intros c Hc. by rewrite (Hidle c Hc).
  - rewrite length_seq Hu. lia.
  - intros c cur Hc Hr. by rewrite (Hidle c Hc) in Hr.
Qed.

Lemma pool_reach_inv dflt cap p n s : 0 <= cap -> make dflt cap = inr p -> Z.of_nat n < 2 ^ 32 -> reachable p n s -> exists fl, inv s fl.
Proof.
  intros Hcap Hm Hn. revert s. apply (rtc_ind_r (fun s => exists fl, inv s fl)).
  - eexists. by eapply pool_start_inv.
  - intros s1 s2 _ (i & Haw & Hstep) [fl Hi]. by eapply pool_step_inv.
Qed.

(** ** A thread that runs alone finishes its call *)

Definition finishes (i n : nat) s : Prop := exists s', bsteps (step i) n s s' /\ threads s' !! i = Some Idle.

Lemma finishes_l i n s s1 : step i s s1 -> finishes i n s1 -> finishes i (S n) s.
Proof. intros Hs (s' & Hb & Ht). exists s'. split; [by eapply bsteps_l|done]. Qed.

Lemma finishes_weaken i n m s : (n <= m)%nat -> finishes i n s -> finishes i m s.
Proof. intros Hle (s' & Hb & Ht). exists s'. split; [by eapply bsteps_weaken|done]. Qed.

Lemma now_at s i c c' : threads s !! i = Some c -> <[i := c']> (threads s) !! i = Some c'.
Proof. intros Hc. apply list_lookup_insert_eq. by eapply lookup_lt_Some. Qed.

Lemma awake_fresh s i c : threads s !! i = Some c -> (forall stamp, stamp_of c = Some stamp -> stamp = exchanges s) -> awake i s.
Proof. intros Hc Hs c' stamp Hc' Hst. rewrite Hc in Hc'. simplify_eq. rewrite (Hs _ Hst). lia. Qed.

Lemma finish_mark s fl i k : inv s fl -> threads s !! i = Some (AllocMark k) -> finishes i 1 s.
Proof.
  intros Hi Hc. assert (owned_ (pool s) !! k = Some 0) as Ho.
  { by apply (i_flags _ _ Hi (AllocMark k)); [eapply list_elem_of_lookup_2|]. }
  eexists. split; [by apply bsteps_once, alloc_mark|]. cbn [threads]. by eapply now_at.
Qed.

Lemma finish_high s fl i k cur hw : inv s fl -> threads s !! i = Some (AllocHigh k cur hw) -> finishes i 3 s.
Proof.
  intros Hi Hc.
  assert (forall s1 fl1 hw1, inv s1 fl1 -> threads s1 !! i = Some (AllocHigh k cur hw1) ->
    high_water_ (pool s1) = hw1 \/ cur <= hw1 -> finishes i 2 s1) as H2.
  { clear. intros s fl hw Hi Hc Hor. destruct (decide (cur <= hw)) as [Hle|Hlt].
    - assert (step i s (go i (AllocMark k) (pool s) s)) as Hs by by eapply alloc_high_enough.
      destruct (pool_step_inv i _ _ fl Hi (awake_fresh _ _ _ Hc ltac:(done)) Hs) as [fl' Hi'].
      eapply finishes_l; [exact Hs|]. eapply finish_mark; [exact Hi'|]. by eapply now_at.
    - destruct Hor as [Hh|]; [|lia].
      assert (step i s (go i (AllocMark k) (set_stats (allocated_ (pool s)) cur (pool s)) s)) as Hs.
      { eapply alloc_raise; [done|lia|done]. }
      destruct (pool_step_inv i _ _ fl Hi (awake_fresh _ _ _ Hc ltac:(done)) Hs) as [fl' Hi'].
      eapply finishes_l; [exact Hs|]. eapply finish_mark; [exact Hi'|]. by eapply now_at. }
  destruct (decide (cur <= hw)) as [Hle|Hlt]; [eapply finishes_weaken, H2; eauto; lia|].
  assert (step i s (go i (AllocHigh k cur (high_water_ (pool s))) (pool s) s)) as Hs.
  { eapply alloc_raise_retry; [done|lia]. }
  destruct (pool_step_inv i _ _ fl Hi (awake_fresh _ _ _ Hc ltac:(done)) Hs) as [fl' Hi'].
  eapply finishes_l; [exact Hs|]. eapply H2; [exact Hi'|by eapply now_at|by left].
Qed.

Lemma pool_finish_claimed s fl i k : inv s fl -> threads s !! i = Some (AllocClaimed k) -> finishes i 5 s.
Proof.
  intros Hi Hc. pose proof (alloc_count i s k Hc) as Hs.
  destruct (pool_step_inv i _ _ fl Hi (awake_fresh _ _ _ Hc ltac:(done)) Hs) as [fl1 Hi1].
  eapply finishes_l; [exact Hs|]. set (s1 := go _ _ _ _) in *.
  assert (threads s1 !! i = Some (AllocCounted k (allocated_ (pool s) +₆₄ 1))) as Hc1 by by eapply now_at.
  pose proof (alloc_load_high i s1 _ _ Hc1) as Hs1.
  destruct (pool_step_inv i _ _ fl1 Hi1 (awake_fresh _ _ _ Hc1 ltac:(done)) Hs1) as [fl2 Hi2].
  eapply finishes_l; [exact Hs1|]. eapply finish_high; [exact Hi2|]. by eapply now_at.
Qed.

Lemma finish_alloc_fresh s fl i : inv s fl -> threads s !! i = Some (AllocLoaded (head_ (pool s)) (exchanges s)) -> finishes i 7 s.
Proof.
  intros Hi Hc. destruct (unpack_head s fl Hi) as (h & Hun & Hl & Hu).
  assert (awake i s) as Haw by (eapply awake_fresh; [exact Hc|by intros ? [= <-]]).
  destruct fl as [|j fl]; cbn [linked] in Hl.
  - subst h. eapply (finishes_weaken i 1); [lia|].
    eexists. split; [apply bsteps_once; eapply alloc_empty; [done|by rewrite Hun]|]. by eapply now_at.
  - destruct Hl as (-> & Hj & h' & Hn & _). pose proof (i_cap _ _ Hi).
    assert (step i s (go i (AllocNext (head_ (pool s)) h' (exchanges s)) (pool s) s)) as Hs.
    { eapply alloc_read; [done| |]; unfold head_slot; rewrite Hun; cbn [index]; [unfold POOL_EMPTY in *; lia|by rewrite Nat2Z.id]. }
    destruct (pool_step_inv i _ _ _ Hi Haw Hs) as [fl1 Hi1]. eapply finishes_l; [exact Hs|].
    set (s1 := go _ _ _ _) in *.
    assert (threads s1 !! i = Some (AllocNext (head_ (pool s)) h' (exchanges s))) as Hc1 by by eapply now_at.
    pose proof (alloc_claim i s1 _ _ _ Hc1 eq_refl) as Hs1.
    assert (awake i s1) as Haw1 by (eapply awake_fresh; [exact Hc1|by intros ? [= <-]]).
    destruct (pool_step_inv i _ _ _ Hi1 Haw1 Hs1) as [fl2 Hi2]. eapply finishes_l; [exact Hs1|].
    eapply pool_finish_claimed; [exact Hi2|]. by eapply now_at.
Qed.

Lemma finish_next s fl i old n stamp : inv s fl -> threads s !! i = Some (AllocNext old n stamp) -> finishes i 8 s.
Proof.
  intros Hi Hc.
  pose proof (alloc_retry i s _ _ _ Hc) as Hs. eapply finishes_l; [exact Hs|].
  assert (inv (go i (AllocLoaded (head_ (pool s)) (exchanges s)) (pool s) s) fl) as Hi1.
  { eapply inv_local; try done; [by eapply load_head|by left]. }
  eapply finish_alloc_fresh; [exact Hi1|]. by eapply now_at.
Qed.

Lemma finish_pushed s i k : threads s !! i = Some (FreePushed k) -> finishes i 1 s.
Proof. intros Hc. eexists. split; [by eapply bsteps_once, free_count|]. by eapply now_at. Qed.

Lemma finish_free_fresh s fl i k : inv s fl -> threads s !! i = Some (FreeLoaded k (head_ (pool s)) (exchanges s)) -> finishes i 3 s.
Proof.
  intros Hi Hc. eapply finishes_l; [by eapply free_link|]. set (s1 := go _ _ _ _).
  assert (threads s1 !! i = Some (FreeLinked k (head_ (pool s)) (exchanges s))) as Hc1 by by eapply now_at.
  eapply finishes_l; [by eapply (free_push i s1)|]. eapply finish_pushed. by eapply now_at.
Qed.

Lemma finish_linked s fl i k old stamp : inv s fl -> threads s !! i = Some (FreeLinked k old stamp) -> finishes i 4 s.
Proof.
  intros Hi Hc. pose proof (free_retry i s _ _ _ Hc) as Hs. eapply finishes_l; [exact Hs|].
  assert (inv (go i (FreeLoaded k (head_ (pool s)) (exchanges s)) (pool s) s) fl) as Hi1.
  { eapply inv_local; try done; [by eapply load_head|by left]. }
  eapply finish_free_fresh; [exact Hi1|]. by eapply now_at.
Qed.

Lemma pool_finish_call s fl i : inv s fl -> awake i s -> is_Some (threads s !! i) -> finishes i 9 s.
Proof.
  intros Hi Haw [c Hc]. pose proof Hi as Hi0.
  assert (thread_ok s c) as Ht by (apply (i_threads _ _ Hi); by eapply list_elem_of_lookup_2).
  destruct c as [|old stamp|old n stamp|k|k cur|k cur hw|k|k|k|k old stamp|k old stamp|k].
  - exists s. split; [apply bsteps_refl|done].
  - destruct (decide (index (unpack old) = POOL_EMPTY)) as [He|Hne].
    { eapply (finishes_weaken i 1); [lia|]. eexists. split; [by eapply bsteps_once, alloc_empty|]. by eapply now_at. }
    destruct Ht as (_ & _ & h & -> & Hu & Hr). rewrite unpack_pack_fields // in Hne; [apply wrap_range; lia|].
    cbn [index] in Hne. destruct Hr as [|Hr]; [done|].
    destruct (lookup_lt_is_Some_2 (next_ (pool s)) (Z.to_nat h)) as [n Hn]; [rewrite (i_next _ _ Hi); lia|].
    assert (step i s (go i (AllocNext (pack h (wrap 32 stamp)) n stamp) (pool s) s)) as Hs.
    { eapply alloc_read; [done| |]; unfold head_slot; rewrite unpack_pack_fields //; apply wrap_range; lia. }
    destruct (pool_step_inv i _ _ fl Hi Haw Hs) as [fl1 Hi1]. eapply finishes_l; [exact Hs|].
    eapply finish_next; [exact Hi1|]. by eapply now_at.
  - eapply finishes_weaken, finish_next; eauto; lia.
  - eapply finishes_weaken, pool_finish_claimed; eauto; lia.
  - pose proof (alloc_load_high i s _ _ Hc) as Hs. destruct (pool_step_inv i _ _ fl Hi Haw Hs) as [fl1 Hi1].
    eapply (finishes_weaken i 4); [lia|]. eapply finishes_l; [exact Hs|]. eapply finish_high; [exact Hi1|]. by eapply now_at.
  - eapply finishes_weaken, finish_high; eauto; lia.
  - eapply finishes_weaken, finish_mark; eauto; lia.
  - assert (owned_ (pool s) !! k = Some 1) as Ho.
    { by apply (i_flags _ _ Hi (FreeStart k)); [eapply list_elem_of_lookup_2|]. }
    destruct (thread_split s i _ Hc) as (R & Hp & _).
    destruct (flight_alone _ _ _ _ k Hi Hp eq_refl) as (_ & _ & _ & Hk). pose proof (i_cap _ _ Hi).
    pose proof (free_unmark i s k Hc ltac:(lia) Ho) as Hs. destruct (pool_step_inv i _ _ fl Hi Haw Hs) as [fl1 Hi1].
    eapply (finishes_weaken i 5); [lia|]. eapply finishes_l; [exact Hs|]. set (s1 := go _ _ _ _) in *.
    assert (threads s1 !! i = Some (FreeUnmarked k)) as Hc1 by by eapply now_at.
    pose proof (free_load i s1 _ Hc1) as Hs1.
    destruct (pool_step_inv i _ _ fl1 Hi1 (awake_fresh _ _ _ Hc1 ltac:(done)) Hs1) as [fl2 Hi2].
    eapply finishes_l; [exact Hs1|]. eapply finish_free_fresh; [exact Hi2|]. by eapply now_at.
  - pose proof (free_load i s _ Hc) as Hs. destruct (pool_step_inv i _ _ fl Hi Haw Hs) as [fl1 Hi1].
    eapply (finishes_weaken i 4); [lia|]. eapply finishes_l; [exact Hs|]. eapply finish_free_fresh; [exact Hi1|]. by eapply now_at.
  - pose proof (free_link i s _ _ _ Hc) as Hs. destruct (pool_step_inv i _ _ fl Hi Haw Hs) as [fl1 Hi1].
    eapply (finishes_weaken i 5); [lia|]. eapply finishes_l; [exact Hs|]. eapply finish_linked; [exact Hi1|]. by eapply now_at.
  - eapply finishes_weaken, finish_linked; eauto; lia.
  - eapply finishes_weaken, finish_pushed; eauto; lia.
Qed.

Lemma step_shape i s s' : step i s s' -> length (threads s') = length (threads s) /\ capacity_ (pool s') = capacity_ (pool s).
Proof. intros []; cbn [go threads pool]; by rewrite length_insert. Qed.

Lemma reach_shape p n s : reachable p n s -> length (threads s) = n /\ capacity_ (pool s) = capacity_ p.
Proof.
  revert s. apply (rtc_ind_r (fun s => length (threads s) = n /\ capacity_ (pool s) = capacity_ p)).
  - split; [apply length_replicate|done].
  - intros s1 s2 _ (i & _ & Hs) [Hl Hc]. destruct (step_shape _ _ _ Hs) as [Hl' Hc']. by rewrite Hl' Hc'.
Qed.

(** ** The uninterrupted call is the sequential one *)

(** Thread [i] has come from idle to [c], with the pool and the held slots as given. *)
Definition runs_to (i : nat) s (c : pc) (p : MemoryPool.t T) (hs : list nat) : Prop :=
  exists e, rtc (step i) s (mkst p (<[i := c]> (threads s)) hs e).

Lemma runs_on i s c p hs c' p' hs' : runs_to i s c p hs -> is_Some (threads s !! i) ->
  (forall e, let s1 := mkst p (<[i := c]> (threads s)) hs e in threads s1 !! i = Some c ->
     exists e', step i s1 (mkst p' (<[i := c']> (threads s1)) hs' e')) -> runs_to i s c' p' hs'.
Proof.
  intros [e Hr] [c0 Hc0] Hstep. destruct (Hstep e) as [e' Hs]; [by eapply now_at|]. exists e'.
  eapply rtc_r; [exact Hr|]. cbn [threads] in Hs. by rewrite list_insert_insert_eq in Hs.
Qed.

Lemma runs_start i s : threads s !! i = Some Idle -> runs_to i s Idle (pool s) (held s).
Proof. intros Hc. exists (exchanges s). rewrite list_insert_id //. destruct s; apply rtc_refl. Qed.

Lemma allocate_alone s i r p' : threads s !! i = Some Idle -> MemoryPool.allocate (pool s) = Some (r, p') ->
  runs_to i s Idle p' (option_list r ++ held s).
Proof.
  intros Hc Ha. assert (is_Some (threads s !! i)) as Hsome by by rewrite Hc.
  pose proof (runs_start i s Hc) as H0. unfold MemoryPool.allocate in Ha.
  assert (exists e, runs_to i s (AllocLoaded (head_ (pool s)) e) (pool s) (held s)) as [e H1].
  { destruct H0 as [e H0]. exists e, e. eapply rtc_r; [exact H0|].
    pose proof (alloc_start i (mkst (pool s) (<[i := Idle]> (threads s)) (held s) e) (now_at s i _ _ Hc)) as Hs.
    unfold go in Hs. cbn [threads pool held exchanges] in Hs. by rewrite list_insert_insert_eq in Hs. }
  destruct (index (unpack (head_ (pool s))) =? POOL_EMPTY) eqn:E0.
  - injection Ha as <- <-. eapply runs_on; [exact H1|done|]. intros e1 s1 Hc1. exists e1.
    apply (alloc_empty i s1 _ _ Hc1). by apply Z.eqb_eq.
  - apply Z.eqb_neq in E0. destruct (next_ (pool s) !! _) as [n|] eqn:En; [|done]. cbn [mbind option_bind] in Ha.
    assert (runs_to i s (AllocNext (head_ (pool s)) n e) (pool s) (held s)) as H2.
    { eapply runs_on; [exact H1|done|]. intros e1 s1 Hc1. exists e1. by apply (alloc_read i s1 _ _ n Hc1). }
    set (k := Z.to_nat (index (unpack (head_ (pool s))))) in *.
    set (p1 := set_head _ (pool s)) in *.
    assert (runs_to i s (AllocClaimed k) p1 (held s)) as H3.
    { eapply runs_on; [exact H2|done|]. intros e1 s1 Hc1. exists (e1 + 1). by apply (alloc_claim i s1 _ n _ Hc1). }
    set (a := allocated_ p1 +₆₄ 1) in *.
    assert (runs_to i s (AllocCounted k a) (set_stats a (high_water_ p1) p1) (held s)) as H4.
    { eapply runs_on; [exact H3|done|]. intros e1 s1 Hc1. exists e1. by apply (alloc_count i s1 k Hc1). }
    assert (runs_to i s (AllocHigh k a (high_water_ p1)) (set_stats a (high_water_ p1) p1) (held s)) as H5.
    { eapply runs_on; [exact H4|done|]. intros e1 s1 Hc1. exists e1. by apply (alloc_load_high i s1 k a Hc1). }
    assert (runs_to i s (AllocMark k) (update_stats_allocate p1) (held s)) as H6.
    { unfold update_stats_allocate. fold a. destruct (high_water_ p1 <? a) eqn:Eh.
      - eapply runs_on; [exact H5|done|]. intros e1 s1 Hc1. exists e1. apply Z.ltb_lt in Eh.
        by apply (alloc_raise i s1 k a (high_water_ p1) Hc1 Eh).
      - eapply runs_on; [exact H5|done|]. intros e1 s1 Hc1. exists e1. apply Z.ltb_ge in Eh.
        by apply (alloc_high_enough i s1 k a (high_water_ p1) Hc1 Eh). }
    destruct (owned_ (update_stats_allocate p1) !! k) as [prev|] eqn:Eo; [|done]. cbn [mbind option_bind] in Ha.
    destruct (prev =? 0) eqn:Ep; [|done]. apply Z.eqb_eq in Ep as ->. injection Ha as <- <-.
    eapply runs_on; [exact H6|done|]. intros e1 s1 Hc1. exists e1. by apply (alloc_mark i s1 k Hc1).
Qed.

Lemma deallocate_alone s i k rest p' : threads s !! i = Some Idle -> held s ≡ₚ k :: rest ->
  MemoryPool.deallocate (Some k) (pool s) = Some p' -> runs_to i s Idle p' rest.
Proof.
  intros Hc Hh Hd. assert (is_Some (threads s !! i)) as Hsome by by rewrite Hc.
  pose proof (runs_start i s Hc) as H0. unfold MemoryPool.deallocate in Hd.
  destruct (Z.of_nat k <? capacity_ (pool s)) eqn:Ek; [|done]. apply Z.ltb_lt in Ek. cbn [negb] in Hd.
  destruct (owned_ (pool s) !! k) as [prev|] eqn:Eo; [|done]. cbn [mbind option_bind] in Hd.
  destruct (prev =? 1) eqn:Ep; [|done]. apply Z.eqb_eq in Ep as ->. cbn [negb] in Hd. injection Hd as <-.
  set (p1 := set_owned (<[k := 0]> (owned_ (pool s))) (pool s)) in *.
  assert (runs_to i s (FreeStart k) (pool s) rest) as H1.
  { eapply runs_on; [exact H0|done|]. intros e1 s1 Hc1. exists e1. by apply (free_start i s1 k rest Hc1). }
  assert (runs_to i s (FreeUnmarked k) p1 rest) as H2.
  { eapply runs_on; [exact H1|done|]. intros e1 s1 Hc1. exists e1. by apply (free_unmark i s1 k Hc1). }
  assert (exists e, runs_to i s (FreeLoaded k (head_ p1) e) p1 rest) as [e H3].
  { destruct H2 as [e H2]. exists e, e. eapply rtc_r; [exact H2|].
    pose proof (free_load i (mkst p1 (<[i := FreeUnmarked k]> (threads s)) rest e) k (now_at s i _ _ Hc)) as Hs.
    unfold go in Hs. cbn [threads pool held exchanges] in Hs. by rewrite list_insert_insert_eq in Hs. }
  set (p2 := set_next (<[k := index (unpack (head_ p1))]> (next_ p1)) p1) in *.
  assert (runs_to i s (FreeLinked k (head_ p1) e) p2 rest) as H4.
  { eapply runs_on; [exact H3|done|]. intros e1 s1 Hc1. exists e1. by apply (free_link i s1 k _ _ Hc1). }
  set (p3 := set_head (pack (Z.of_nat k) (generation (unpack (head_ p1)) +₃₂ 1)) p2) in *.
  assert (runs_to i s (FreePushed k) p3 rest) as H5.
  { eapply runs_on; [exact H4|done|]. intros e1 s1 Hc1. exists (e1 + 1). by apply (free_push i s1 k _ _ Hc1). }
  eapply runs_on; [exact H5|done|]. intros e1 s1 Hc1. exists e1. by apply (free_count i s1 k Hc1).
Qed.

End threads.
Arguments st : clear implicits.
End PoolThreads.

(** ** Guarantees *)

(** C19: the pool under contention.  For any number of threads below 2^32 that
    allocate and free concurrently, none of which sleeps through 2^32 exchanges
    of the head between its load and its own exchange, in every state they can
    reach: the free list, the slots handed out and the slots of calls in progress
    are together all slots, each exactly once, so no slot has two owners and none
    is lost; the assertions against double allocation, double free and foreign
    pointers hold; every thread left alone finishes its call within nine steps;
    when no call is in progress the count is the number of slots handed out and
    the high-water mark is at least that; and a call that is not interrupted acts
    as the sequential [allocate] or [deallocate]. *)
Theorem pool_interleaved {T} (dflt : T) cap p n s :
  0 <= cap -> MemoryPool.make dflt cap = inr p -> Z.of_nat n < 2 ^ 32 -> PoolThreads.reachable p n s ->
  let P := PoolThreads.pool s in
  exists fl,
  (MemoryPool.linked (MemoryPool.capacity_ p) (MemoryPool.next_ P) (MemoryPool.index (MemoryPool.unpack (MemoryPool.head_ P))) fl /\
   fl ++ PoolThreads.held s ++ omap PoolThreads.in_flight (PoolThreads.threads s) ≡ₚ seq 0 (Z.to_nat (MemoryPool.capacity_ p))) /\
  (forall i k, PoolThreads.threads s !! i = Some (PoolThreads.AllocMark k) ->
     MemoryPool.owned_ P !! k = Some 0 /\ (k ∉ PoolThreads.held s)) /\
  (forall i k, PoolThreads.threads s !! i = Some (PoolThreads.FreeStart k) ->
     Z.of_nat k < MemoryPool.capacity_ P /\ MemoryPool.owned_ P !! k = Some 1) /\
  (forall i, (i < n)%nat -> PoolThreads.awake i s -> PoolThreads.finishes i 9 s) /\
  ((forall c, c ∈ PoolThreads.threads s -> c = PoolThreads.Idle) ->
     MemoryPool.allocated_ P = Z.of_nat (length (PoolThreads.held s)) /\ MemoryPool.allocated_ P <= MemoryPool.high_water_ P) /\
  (forall i, PoolThreads.threads s !! i = Some PoolThreads.Idle ->
     (forall r p', MemoryPool.allocate P = Some (r, p') ->
        PoolThreads.runs_to i s PoolThreads.Idle p' (option_list r ++ PoolThreads.held s)) /\
     (forall k rest p', PoolThreads.held s ≡ₚ k :: rest -> MemoryPool.deallocate (Some k) P = Some p' ->
        PoolThreads.runs_to i s PoolThreads.Idle p' rest)).
Proof.
  intros Hcap Hm Hn Hr P. destruct (PoolThreads.pool_reach_inv dflt cap p n s Hcap Hm Hn Hr) as [fl Hi].
  destruct (PoolThreads.reach_shape p n s Hr) as [Hlen Hc]. exists fl.
  destruct (PoolThreads.unpack_head s fl Hi) as (h & Hun & Hl & _).
  split; [rewrite -Hc Hun; split; [exact Hl|apply Hi]|].
  split.
  { intros i k Hk. destruct (PoolThreads.thread_split s i _ Hk) as (R & Hp & _). split.
    - by apply (PoolThreads.i_flags _ _ Hi (PoolThreads.AllocMark k)); [eapply list_elem_of_lookup_2|].
    - by apply (PoolThreads.flight_alone _ _ _ _ k Hi Hp eq_refl). }
  split.
  { intros i k Hk. destruct (PoolThreads.thread_split s i _ Hk) as (R & Hp & _).
    destruct (PoolThreads.flight_alone _ _ _ _ k Hi Hp eq_refl) as (_ & _ & _ & Hlt).
    pose proof (PoolThreads.i_cap _ _ Hi). split; [unfold P; lia|].
    by apply (PoolThreads.i_flags _ _ Hi (PoolThreads.FreeStart k)); [eapply list_elem_of_lookup_2|]. }
  split; [intros i Hlt Haw; eapply PoolThreads.pool_finish_call; [done..|apply lookup_lt_is_Some_2; lia]|].
  split; [|intros i Hidle; split; [intros r p'; by apply PoolThreads.allocate_alone|intros k rest p'; by apply PoolThreads.deallocate_alone]].
  intros Hall.
  assert (omap PoolThreads.in_flight (PoolThreads.threads s) = [] /\
    sumZ (PoolThreads.uncounted <$> PoolThreads.threads s) = 0) as [Ho Hu].
  { clear -Hall. induction (PoolThreads.threads s) as [|c cs IH]; [done|].
    assert (c = PoolThreads.Idle) as -> by (apply Hall; left).
    destruct IH as [IH1 IH2]; [intros c Hc; apply Hall; by right|].
    rewrite omap_cons fmap_cons sumZ_cons IH1 IH2. done. }
  pose proof (Permutation_length (PoolThreads.i_parts _ _ Hi)) as Hpl. rewrite Ho app_nil_r length_app length_seq in Hpl.
  pose proof (PoolThreads.i_cap _ _ Hi). split.
  - unfold P. rewrite (PoolThreads.i_count _ _ Hi) Hu. lia.
  - destruct (PoolThreads.i_high _ _ Hi) as [|(c & cur & Hin & Hrais & _)]; [done|]. by rewrite (Hall c Hin) in Hrais.
Qed.

(** Two threads load the same head; the second loses the exchange. *)
Lemma ex_pool_contention : exists s, PoolThreads.reachable ex_small_pool 2 s /\ PoolThreads.awake 1 s /\
  PoolThreads.threads s = [PoolThreads.AllocClaimed 0; PoolThreads.AllocNext 0 1 0].
Proof.
  eexists. split.
  - eapply rtc_l; [exists 0%nat; split; [by intros c st [= <-]|by apply PoolThreads.alloc_start]|].
    eapply rtc_l; [exists 1%nat; split; [by intros c st [= <-]|by apply PoolThreads.alloc_start]|].
    eapply rtc_l; [exists 0%nat; split; [by intros c st [= <-] [= <-]|by eapply PoolThreads.alloc_read]|].
    eapply rtc_l; [exists 1%nat; split; [by intros c st [= <-] [= <-]|by eapply PoolThreads.alloc_read]|].
    eapply rtc_l; [exists 0%nat; split; [by intros c st [= <-] [= <-]|by eapply PoolThreads.alloc_claim]|].
    apply rtc_refl.
  - split; [by intros c st [= <-] [= <-]|reflexivity].
Qed.

Lemma pool_interleaved_witness : exists s, PoolThreads.reachable ex_small_pool 2 s /\ PoolThreads.finishes 1 9 s.
Proof.
  destruct ex_pool_contention as (s & Hr & Haw & _). exists s. split; [exact Hr|].
  assert (MemoryPool.make 0 2 = inr ex_small_pool) as Hm by reflexivity.
  assert (0 <= 2) as H0 by discriminate. assert (Z.of_nat 2 < 2 ^ 32) as Hn by reflexivity.
  destruct (pool_interleaved 0 2 ex_small_pool 2 s H0 Hm Hn Hr) as (fl & _ & _ & _ & H & _).
  apply H; [apply le_n|exact Haw].
Defined.

(** The next step, with the state it leads to computed. *)
Lemma reach_next {T} (s s1 s2 s' : PoolThreads.st T) i :
  PoolThreads.awake i s -> PoolThreads.step i s s1 -> s1 = s2 ->
  rtc (fun s s' => exists i, PoolThreads.awake i s /\ PoolThreads.step i s s') s2 s' ->
  rtc (fun s s' => exists i, PoolThreads.awake i s /\ PoolThreads.step i s s') s s'.
Proof. intros Ha Hs <- Hr. eapply rtc_l; [by exists i|done]. Qed.

Ltac pool_step i c :=
  eapply (reach_next _ _ _ _ i);
    [intros ? ? [= <-]; first [discriminate|intros [= <-]; reflexivity]
    |eapply c; first [reflexivity|discriminate]
    |match goal with |- ?a = _ => let v := eval vm_compute in a in exact (@eq_refl _ v <: a = v) end
    |].

(** The count runs ahead of the truth: with one slot, a thread that has put the
    slot back but not counted it and a thread that takes it make the count 2, so
    that the high-water mark exceeds the capacity and [available] wraps. *)
Example high_water_above_capacity : exists p s, MemoryPool.make 0 1 = inr p /\ PoolThreads.reachable p 2 s /\
  MemoryPool.capacity_ (PoolThreads.pool s) = 1 /\ MemoryPool.high_water_ (PoolThreads.pool s) = 2 /\
  MemoryPool.available (PoolThreads.pool s) = 2 ^ 64 - 1.
Proof.
  eexists _, _. split; [reflexivity|]. split.
  - pool_step 0%nat @PoolThreads.alloc_start.
    pool_step 0%nat @PoolThreads.alloc_read.
    pool_step 0%nat @PoolThreads.alloc_claim.
    pool_step 0%nat @PoolThreads.alloc_count.
    pool_step 0%nat @PoolThreads.alloc_load_high.
    pool_step 0%nat @PoolThreads.alloc_raise.
    pool_step 0%nat @PoolThreads.alloc_mark.
    pool_step 0%nat (fun s H => @PoolThreads.free_start Z 0 s 0%nat [] H).
    pool_step 0%nat @PoolThreads.free_unmark.
    pool_step 0%nat @PoolThreads.free_load.
    pool_step 0%nat @PoolThreads.free_link.
    pool_step 0%nat @PoolThreads.free_push.
    pool_step 1%nat @PoolThreads.alloc_start.
    pool_step 1%nat @PoolThreads.alloc_read.
    pool_step 1%nat @PoolThreads.alloc_claim.
    pool_step 1%nat @PoolThreads.alloc_count.
    pool_step 1%nat @PoolThreads.alloc_load_high.
    pool_step 1%nat @PoolThreads.alloc_raise.
    apply rtc_refl.
  - split_and!; reflexivity.
Qed.

(** A link is read while it is written: a thread that has loaded the head is
    about to read the link of slot 0 while another thread, which took the slot
    and is giving it back, is about to write it.  The exchange of the reader will
    fail, but the two accesses to the plain array race. *)
Example link_read_races_with_write : exists p s, MemoryPool.make 0 2 = inr p /\ PoolThreads.reachable p 2 s /\
  exists old stamp old' stamp',
    PoolThreads.threads s = [PoolThreads.FreeLoaded 0 old stamp; PoolThreads.AllocLoaded old' stamp'] /\
    MemoryPool.index (MemoryPool.unpack old') <> MemoryPool.POOL_EMPTY /\ PoolThreads.head_slot old' = 0%nat.
Proof.
  eexists _, _. split; [reflexivity|]. split.
  - pool_step 1%nat @PoolThreads.alloc_start.
    pool_step 0%nat @PoolThreads.alloc_start.
    pool_step 0%nat @PoolThreads.alloc_read.
    pool_step 0%nat @PoolThreads.alloc_claim.
    pool_step 0%nat @PoolThreads.alloc_count.
    pool_step 0%nat @PoolThreads.alloc_load_high.
    pool_step 0%nat @PoolThreads.alloc_raise.
    pool_step 0%nat @PoolThreads.alloc_mark.
    pool_step 0%nat (fun s H => @PoolThreads.free_start Z 0 s 0%nat [] H).
    pool_step 0%nat @PoolThreads.free_unmark.
    pool_step 0%nat @PoolThreads.free_load.
    apply rtc_refl.
  - eexists _, _, _, _. split; [reflexivity|]. split; [discriminate|reflexivity].
Qed.
