(* ===== verification/OrderPool.v ===== *)
(** * What the pool promises to the order book

    [OrderBook] and [MatchingEngine] use an [OrderPool&] to read and write orders
    through pointers and to give slots back.  The class states the operations
    they call and the laws they rely on; the instance discharges it with
    [MemoryPool<Order>]. *)

From S2P Require Import Prelude.
From S2P Require Import Types.
From S2P Require Import MemoryPool.

Class OrderPool (P : Type) := {
  deref : P -> nat -> option Order;
  store : nat -> Order -> P -> P;
  deallocate : nat -> P -> option P;
  pool_ok : P -> Prop;
  owned : P -> nat -> Prop;

  deref_store_eq p i x : is_Some (deref p i) -> deref (store i x p) i = Some x;
  deref_store_ne p i j x : i <> j -> deref (store i x p) j = deref p j;
  pool_ok_store p i x : pool_ok p -> pool_ok (store i x p);
  owned_store p i x j : owned (store i x p) j <-> owned p j;
  owned_deref p i : pool_ok p -> owned p i -> is_Some (deref p i);
  deallocate_owned p i : pool_ok p -> owned p i ->
    exists p', deallocate i p = Some p' /\ pool_ok p' /\
      (forall j, deref p' j = deref p j) /\ (forall j, owned p' j <-> owned p j /\ j <> i);
  deallocate_not_owned p i : pool_ok p -> ~ owned p i -> deallocate i p = None
}.

(** Read-modify-write through a pointer. *)
Definition modify `{OrderPool P} (i : nat) (f : Order -> Order) (p : P) : option P :=
  o ← deref p i; Some (store i (f o) p).

Section modify_lemmas.
Context `{OrderPool P}.
Implicit Types p : P.

Lemma modify_some p i f o : deref p i = Some o -> modify i f p = Some (store i (f o) p).
Proof. intros E. unfold modify. by rewrite E. Qed.

Lemma deref_store p i j x :
  is_Some (deref p i) -> deref (store i x p) j = if decide (i = j) then Some x else deref p j.
Proof. intros Hi. case_decide as Hij; [subst; by apply deref_store_eq|by apply deref_store_ne]. Qed.

End modify_lemmas.

(** ** The instance *)

Section instance.
Abbreviation MP := (MemoryPool.t Order).

Lemma mp_deallocate_owned (p : MP) i :
  MemoryPool.ok p -> MemoryPool.owned p i ->
  exists p', MemoryPool.deallocate (Some i) p = Some p' /\ MemoryPool.ok p' /\
    (forall j, MemoryPool.deref p' j = MemoryPool.deref p j) /\
    (forall j, MemoryPool.owned p' j <-> MemoryPool.owned p j /\ j <> i).
Proof.
  intros [fl Hfl] Ho.
  destruct (MemoryPool.deallocate_free_list p i fl Hfl Ho) as (p' & Hd & Hfl' & Hp & _ & Hown & _).
  exists p'. split; [done|]. split; [by exists (i :: fl)|]. split.
  - intros j. unfold MemoryPool.deref. by rewrite Hp.
  - intros j. unfold MemoryPool.owned in *. rewrite Hown. rewrite list_lookup_insert_Some.
    apply lookup_lt_Some in Ho. naive_solver.
Qed.

Lemma mp_deallocate_not_owned (p : MP) i :
  MemoryPool.ok p -> ~ MemoryPool.owned p i -> MemoryPool.deallocate (Some i) p = None.
Proof.
  intros _ Hno. unfold MemoryPool.deallocate, MemoryPool.owned in *.
  destruct (negb _); [done|]. destruct (MemoryPool.owned_ p !! i) as [x|] eqn:E; [|done].
  simpl. destruct (Z.eqb_spec x 1) as [->|]; done.
Qed.

#[export] Program Instance MemoryPool_OrderPool : OrderPool MP := {|
  deref := MemoryPool.deref;
  store := MemoryPool.store;
  deallocate i p := MemoryPool.deallocate (Some i) p;
  pool_ok := MemoryPool.ok;
  owned := MemoryPool.owned
|}.
Next Obligation.
  intros p i x [y Hy]. apply list_lookup_insert_eq. by eapply lookup_lt_Some.
Qed.
Next Obligation. intros p i j x Hij. by apply list_lookup_insert_ne. Qed.
Next Obligation. intros p i x [fl Hfl]. exists fl. by apply MemoryPool.store_free_list. Qed.
Next Obligation. done. Qed.
Next Obligation.
  intros p i Hok Ho. destruct (MemoryPool.owned_in_range p i Hok Ho) as [x Hx]. by exists x.
Qed.
Next Obligation. apply mp_deallocate_owned. Qed.
Next Obligation. apply mp_deallocate_not_owned. Qed.

End instance.
