(* ===== verification/PriceLevels.v ===== *)
(** * Price levels (include/rtes/order_book.hpp, FlatLevel and FlatPriceBook)

    A [FlatLevel] is the FIFO queue of the orders at one price, with a cursor
    [head_] in front of the live orders; a [FlatPriceBook] is the sorted vector
    of the levels of one side, searched with [std::lower_bound].  Order pointers
    are pool slots; an assertion failure is the outcome [None]. *)

From S2P Require Import Prelude.
From S2P Require Import Types.

Definition COMPACT_THRESHOLD : Z := 64.

Module FlatLevel.

Record t := mk {
  price : Price;
  total_quantity : Quantity;
  head_ : Z;
  orders : list nat
}.

(** [explicit FlatLevel(Price p)]. *)
Definition make (p : Price) : t := mk p 0 0 [].

(** [o_remaining] is [o->remaining_quantity]. *)
Definition push_back (o : nat) (o_remaining : Quantity) (l : t) : t :=
  mk (price l) (total_quantity l +₆₄ o_remaining) (head_ l) (orders l ++ [o]).

Definition empty (l : t) : bool := Z.of_nat (length (orders l)) <=? head_ l.
Definition size (l : t) : Z := Z.of_nat (length (orders l)) -₆₄ head_ l.

Definition front (l : t) : option nat :=
  if empty l then None else orders l !! Z.to_nat (head_ l).

Definition pop_front (filled_qty : Quantity) (l : t) : option t :=
  if empty l then None
  else Some (mk (price l) (total_quantity l -₆₄ filled_qty) (head_ l +₃₂ 1) (orders l)).

Definition reduce_quantity (qty : Quantity) (l : t) : t :=
  mk (price l) (total_quantity l -₆₄ qty) (head_ l) (orders l).

Definition needs_compaction (l : t) : bool := COMPACT_THRESHOLD <? head_ l.

Definition compact (l : t) : t :=
  if head_ l =? 0 then l
  else mk (price l) (total_quantity l) 0 (drop (Z.to_nat (head_ l)) (orders l)).

(** The live orders, first in first. *)
Definition live (l : t) : list nat := drop (Z.to_nat (head_ l)) (orders l).

(** The cursor is inside the vector. *)
Definition wf (l : t) : Prop := 0 <= head_ l <= Z.of_nat (length (orders l)).

End FlatLevel.

Module FlatPriceBook.

Abbreviation levels := (list FlatLevel.t).

Definition best_price (ls : levels) : Price :=
  match ls with [] => 0 | l :: _ => FlatLevel.price l end.
Definition best_quantity (ls : levels) : Quantity :=
  match ls with [] => 0 | l :: _ => FlatLevel.total_quantity l end.
Definition empty (ls : levels) : bool := match ls with [] => true | _ => false end.

(** The comparator of [lower_bound_for]; [desc] is the template argument. *)
Definition before (desc : bool) (level_price target : Price) : bool :=
  if desc then target <? level_price else level_price <? target.

(** [std::lower_bound]: halve the range until it is empty.  The range shrinks
    in every round, so its length bounds the rounds. *)
Fixpoint lower_bound_loop (fuel : nat) (desc : bool) (ls : levels) (p : Price)
    (first len : nat) : nat :=
  match fuel with
  | O => first
  | S fuel' =>
      match len with
      | O => first
      | S _ =>
          let half := Nat.div2 len in
          let middle := (first + half)%nat in
          match ls !! middle with
          | None => first
          | Some l =>
              if before desc (FlatLevel.price l) p
              then lower_bound_loop fuel' desc ls p (S middle) (len - half - 1)
              else lower_bound_loop fuel' desc ls p first half
          end
      end
  end.

Definition lower_bound_for (desc : bool) (p : Price) (ls : levels) : nat :=
  lower_bound_loop (S (length ls)) desc ls p 0 (length ls).

(** [find] returns the position of the level, the model of its address. *)
Definition find (desc : bool) (p : Price) (ls : levels) : option nat :=
  let i := lower_bound_for desc p ls in
  match ls !! i with
  | Some l => if FlatLevel.price l =? p then Some i else None
  | None => None
  end.

Definition insert (desc : bool) (p : Price) (ls : levels) : option (nat * levels) :=
  let i := lower_bound_for desc p ls in
  match find desc p ls with
  | Some _ => None
  | None => Some (i, vec_insert i (FlatLevel.make p) ls)
  end.

Definition find_or_insert (desc : bool) (p : Price) (ls : levels) : nat * levels :=
  let i := lower_bound_for desc p ls in
  match find desc p ls with
  | Some _ => (i, ls)
  | None => (i, vec_insert i (FlatLevel.make p) ls)
  end.

Definition remove (desc : bool) (p : Price) (ls : levels) : levels :=
  match find desc p ls with
  | Some i => delete i ls
  | None => ls
  end.

Definition remove_best (ls : levels) : option levels :=
  match ls with [] => None | _ :: ls' => Some ls' end.

Definition compact_all (ls : levels) : levels :=
  (fun l => if FlatLevel.needs_compaction l then FlatLevel.compact l else l) <$> ls.

Definition prune_empty (ls : levels) : levels :=
  base.filter (fun l => FlatLevel.empty l = false) ls.

(** ** Reference search and sortedness *)

(** First position whose level does not precede [p]. *)
Fixpoint first_not_before (desc : bool) (p : Price) (ls : levels) : nat :=
  match ls with
  | [] => O
  | l :: ls' => if before desc (FlatLevel.price l) p then S (first_not_before desc p ls') else O
  end.

Definition lt_level (desc : bool) (a b : FlatLevel.t) : Prop :=
  before desc (FlatLevel.price a) (FlatLevel.price b) = true.
Definition sorted (desc : bool) (ls : levels) : Prop := StronglySorted (lt_level desc) ls.

End FlatPriceBook.

(** ** Lemmas on levels *)

Module FlatLevelFacts.
Import FlatLevel.

Lemma empty_live l : wf l -> empty l = bool_decide (live l = []).
Proof.
  intros [Hh Hl]. unfold empty, live. destruct (Z.leb_spec (Z.of_nat (length (orders l))) (head_ l)).
  - rewrite drop_ge; [lia|]. by rewrite bool_decide_eq_true_2.
  - rewrite bool_decide_eq_false_2; [|done]. intros E. apply (f_equal length) in E.
    rewrite length_drop /= in E. lia.
Qed.

Lemma live_lookup_head l p rest : live l = p :: rest -> orders l !! Z.to_nat (head_ l) = Some p.
Proof. unfold live. intros E. by rewrite -(Nat.add_0_r (Z.to_nat (head_ l))) -lookup_drop E. Qed.

Lemma front_live l p rest : wf l -> live l = p :: rest -> front l = Some p.
Proof.
  intros Hwf E. unfold front. rewrite empty_live; [done|].
  rewrite bool_decide_eq_false_2; [by rewrite E|]. by eapply live_lookup_head.
Qed.

Lemma live_cons_head l p rest :
  live l = p :: rest -> (Z.to_nat (head_ l) < length (orders l))%nat.
Proof. intros E. eapply lookup_lt_Some, live_lookup_head, E. Qed.

Lemma pop_front_live l p rest q :
  wf l -> Z.of_nat (length (orders l)) < 2 ^ 32 -> live l = p :: rest ->
  exists l', pop_front q l = Some l' /\ wf l' /\ live l' = rest /\ price l' = price l /\
    total_quantity l' = total_quantity l -₆₄ q /\ length (orders l') = length (orders l).
Proof.
  intros Hwf H32 E. pose proof (live_cons_head _ _ _ E) as Hlt. destruct Hwf as [Hh Hl].
  unfold pop_front. rewrite empty_live; [done|].
  rewrite bool_decide_eq_false_2; [by rewrite E|]. eexists. split; [done|].
  assert (wrap 32 (head_ l + 1) = head_ l + 1) as Hw by (apply wrap_small; u_lia).
  unfold wf, live; simpl. rewrite Hw. split_and!; [lia|lia| |done..].
  replace (Z.to_nat (head_ l + 1)) with (Z.to_nat (head_ l) + 1)%nat by lia.
  rewrite -drop_drop. unfold live in E. by rewrite E.
Qed.

Lemma push_back_live l o q : wf l -> wf (push_back o q l) /\ live (push_back o q l) = live l ++ [o].
Proof.
  intros [Hh Hl]. unfold wf, live, push_back; simpl. rewrite length_app /=.
  split; [lia|]. rewrite drop_app_le; [lia|done].
Qed.

Lemma compact_live l : live (compact l) = live l /\ price (compact l) = price l /\
  total_quantity (compact l) = total_quantity l.
Proof. unfold compact, live. by destruct (Z.eqb_spec (head_ l) 0) as [->|]. Qed.

Lemma compact_wf l : wf l -> wf (compact l).
Proof.
  unfold compact, wf. intros. destruct (Z.eqb_spec (head_ l) 0); [done|]. simpl. lia.
Qed.

Lemma flat_level_make_wf p : wf (make p).
Proof. unfold wf; simpl; lia. Qed.

End FlatLevelFacts.

(** ** Lemmas on the sorted vector *)

Module FlatPriceBookFacts.
Import FlatPriceBook.

Lemma before_spec desc a b :
  before desc a b = true <-> if desc then b < a else a < b.
Proof. destruct desc; simpl; lia. Qed.

Lemma before_irrefl desc a : before desc a a = false.
Proof. destruct desc; simpl; lia. Qed.

Lemma before_trans desc a b c :
  before desc a b = true -> before desc b c = true -> before desc a c = true.
Proof. rewrite !before_spec. destruct desc; lia. Qed.

Lemma before_asym desc a b : before desc a b = true -> before desc b a = false.
Proof. destruct desc; simpl; lia. Qed.

Lemma before_total desc a b : before desc a b = false -> before desc b a = false -> a = b.
Proof. destruct desc; simpl; lia. Qed.

Lemma first_not_before_le desc p ls : (first_not_before desc p ls <= length ls)%nat.
Proof. induction ls as [|l ls IH]; simpl; [done|]. destruct (before _ _ _); simpl; lia. Qed.

Lemma first_not_before_lt desc p ls i l :
  (i < first_not_before desc p ls)%nat -> ls !! i = Some l ->
  before desc (FlatLevel.price l) p = true.
Proof.
  revert i. induction ls as [|a ls IH]; intros i; simpl; [lia|].
  destruct (before desc (FlatLevel.price a) p) eqn:E; [|lia].
  destruct i as [|i]; simpl; [intros _ [= <-]; done|]. intros Hi Hl. apply (IH i); [lia|done].
Qed.

Lemma first_not_before_ge desc p ls i l :
  sorted desc ls -> (first_not_before desc p ls <= i)%nat -> ls !! i = Some l ->
  before desc (FlatLevel.price l) p = false.
Proof.
  intros Hs. revert i. induction Hs as [|a ls Hs IH Ha]; intros i Hi Hl; [done|].
  simpl in Hi. destruct (before desc (FlatLevel.price a) p) eqn:E.
  - destruct i as [|i]; [lia|]. apply (IH i); [lia|done].
  - destruct i as [|i]; simpl in Hl; [by simplify_eq|].
    destruct (before desc (FlatLevel.price l) p) eqn:E2; [|done].
    rewrite (before_trans desc (FlatLevel.price a) (FlatLevel.price l) p) in E; [|done|done].
    rewrite Forall_forall in Ha. apply Ha. apply list_elem_of_lookup. eauto.
Qed.

Lemma div2_lt n : (0 < n)%nat -> (Nat.div2 n < n)%nat.
Proof. intros. apply Nat.lt_div2. lia. Qed.

(** The binary search lands on the reference position whenever that position
    is inside the current range. *)
Lemma lower_bound_loop_correct desc ls p fuel first len :
  sorted desc ls -> (len < fuel)%nat -> (first + len <= length ls)%nat ->
  (first <= first_not_before desc p ls <= first + len)%nat ->
  lower_bound_loop fuel desc ls p first len = first_not_before desc p ls.
Proof.
  intros Hs. revert first len. induction fuel as [|fuel IH]; intros first len Hf Hb Hr; [lia|].
  destruct len as [|len']; cbn [lower_bound_loop]; [lia|].
  pose proof (div2_lt (S len') ltac:(lia)) as Hd.
  generalize dependent (Nat.div2 (S len')). intros half Hd.
  destruct (ls !! (first + half)%nat) as [l|] eqn:El; [|apply lookup_ge_None in El; lia].
  destruct (before desc (FlatLevel.price l) p) eqn:E; (apply IH; [lia|lia|]).
  - destruct (decide (first_not_before desc p ls <= first + half)%nat) as [Hle|]; [|lia].
    by rewrite (first_not_before_ge desc p ls _ l Hs Hle El) in E.
  - destruct (decide (first + half < first_not_before desc p ls)%nat) as [Hlt|]; [|lia].
    by rewrite (first_not_before_lt desc p ls _ l Hlt El) in E.
Qed.

Lemma lower_bound_for_correct desc p ls :
  sorted desc ls -> lower_bound_for desc p ls = first_not_before desc p ls.
Proof.
  intros Hs. apply lower_bound_loop_correct; [done|lia|lia|].
  pose proof (first_not_before_le desc p ls). lia.
Qed.

(** Position of [p] in a sorted vector split around it. *)
Lemma first_not_before_split desc p l1 l2 :
  Forall (fun a => before desc (FlatLevel.price a) p = true) l1 ->
  (forall b, head l2 = Some b -> before desc (FlatLevel.price b) p = false) ->
  first_not_before desc p (l1 ++ l2) = length l1.
Proof.
  intros H1 H2. induction H1 as [|a l1 Ha _ IH]; simpl.
  - destruct l2 as [|b l2]; simpl; [done|]. by rewrite H2.
  - by rewrite Ha IH.
Qed.

(** A sorted vector either holds a level at [p] or has a gap for it. *)
Lemma sorted_split desc p ls :
  sorted desc ls ->
  exists l1 l2, ls = l1 ++ l2 /\ lower_bound_for desc p ls = length l1 /\
    Forall (fun a => before desc (FlatLevel.price a) p = true) l1 /\
    (match l2 with
     | [] => find desc p ls = None
     | b :: l2' =>
         (FlatLevel.price b = p /\ find desc p ls = Some (length l1)) \/
         (before desc p (FlatLevel.price b) = true /\ find desc p ls = None)
     end).
Proof.
  intros Hs. set (k := first_not_before desc p ls).
  pose proof (first_not_before_le desc p ls) as Hk.
  exists (take k ls), (drop k ls). rewrite lower_bound_for_correct; [done|].
  rewrite take_drop length_take_le; [done|]. split_and!; [done..| |].
  - apply Forall_forall. intros a [i Hi]%list_elem_of_lookup.
    apply lookup_take_Some in Hi as [Hi Hlt]. by eapply first_not_before_lt.
  - unfold find. rewrite lower_bound_for_correct; [done|]. fold k.
    destruct (drop k ls) as [|b l2] eqn:E.
    + assert (ls !! k = None) as ->; [|done]. apply lookup_ge_None.
      apply (f_equal length) in E. rewrite length_drop /= in E. lia.
    + assert (ls !! k = Some b) as Hb by by rewrite -(Nat.add_0_r k) -lookup_drop E.
      rewrite Hb. pose proof (first_not_before_ge desc p ls k b Hs ltac:(lia) Hb) as Hnb.
      destruct (Z.eqb_spec (FlatLevel.price b) p) as [He|Hne]; [by left|]. right. split; [|done].
      destruct (before desc p (FlatLevel.price b)) eqn:E2; [done|].
      by destruct Hne; eapply before_total.
Qed.

Lemma sorted_app desc l1 l2 :
  sorted desc (l1 ++ l2) <->
  sorted desc l1 /\ sorted desc l2 /\ (forall a b, a ∈ l1 -> b ∈ l2 -> lt_level desc a b).
Proof.
  unfold sorted. induction l1 as [|a l1 IH]; simpl.
  - split; [|by intros (_ & ? & _)]. intros ?. split_and!; [constructor|done|set_solver].
  - split.
    + intros H. apply StronglySorted_inv in H as [Hs Ha]. apply IH in Hs as (H1 & H2 & H3).
      apply Forall_app in Ha as [Ha1 Ha2]. split_and!; [by constructor|done|].
      intros x y [->|Hx]%elem_of_cons Hy; [|by apply H3].
      rewrite Forall_forall in Ha2. by apply Ha2.
    + intros (H1 & H2 & H3). apply StronglySorted_inv in H1 as [H1 Ha]. constructor.
      * apply IH. split_and!; [done..|]. intros x y Hx Hy. apply H3; set_solver.
      * apply Forall_app. split; [done|]. apply Forall_forall. intros y Hy. apply H3; set_solver.
Qed.

Lemma sorted_cons desc a ls :
  sorted desc (a :: ls) <-> sorted desc ls /\ Forall (lt_level desc a) ls.
Proof.
  split; [intros H; by apply StronglySorted_inv in H|]. intros []. by constructor.
Qed.

(** Draining the best level: [remove] of the front price drops the front. *)
Lemma remove_front desc l ls :
  sorted desc (l :: ls) -> remove desc (FlatLevel.price l) (l :: ls) = ls.
Proof.
  intros Hs. unfold remove, find. rewrite lower_bound_for_correct; [done|].
  simpl. rewrite before_irrefl /=. by rewrite Z.eqb_refl.
Qed.

(** Replacing a level by one with the same price keeps the vector sorted. *)
Lemma sorted_replace desc l1 l l' l2 :
  FlatLevel.price l' = FlatLevel.price l ->
  sorted desc (l1 ++ l :: l2) -> sorted desc (l1 ++ l' :: l2).
Proof.
  intros Hp. rewrite !sorted_app !sorted_cons. intros (H1 & [H2 H3] & H4). unfold lt_level in *.
  split_and!; [done..| |].
  - by rewrite Hp.
  - intros a b Ha [->|Hb]%elem_of_cons; [rewrite Hp; apply H4; set_solver|]. apply H4; set_solver.
Qed.

End FlatPriceBookFacts.

(** ** The property *)

Module FlatPriceBookClaims.
Import FlatPriceBook FlatPriceBookFacts.

(** A sorted side around [p]: what is before it, its own level if any, what is
    after it. *)
Lemma around desc p ls :
  sorted desc ls ->
  exists l1 l2, Forall (fun a => before desc (FlatLevel.price a) p = true) l1 /\
    Forall (fun b => before desc p (FlatLevel.price b) = true) l2 /\
    lower_bound_for desc p ls = length l1 /\
    ((exists b, ls = l1 ++ b :: l2 /\ FlatLevel.price b = p /\ find desc p ls = Some (length l1)) \/
     (ls = l1 ++ l2 /\ find desc p ls = None)).
Proof.
  intros Hs. destruct (sorted_split desc p ls Hs) as (l1 & l2 & Els & Hi & H1 & H2). exists l1.
  destruct l2 as [|b l2]; [exists []; split_and!; [done..|by right]|].
  pose proof Hs as Hs'. rewrite Els in Hs'. apply sorted_app in Hs' as (_ & [_ Hb]%sorted_cons & _).
  destruct H2 as [[Hp Hf]|[Hlt Hf]].
  - exists l2. split_and!; [done| |done|left; by exists b].
    eapply Forall_impl; [exact Hb|]. intros x Hx. unfold lt_level in Hx. by rewrite Hp in Hx.
  - exists (b :: l2). split_and!; [done| |done|by right]. constructor; [done|].
    eapply Forall_impl; [exact Hb|]. intros x Hx. by eapply before_trans.
Qed.

Lemma not_at_price desc p l1 l2 :
  Forall (fun a => before desc (FlatLevel.price a) p = true) l1 ->
  Forall (fun b => before desc p (FlatLevel.price b) = true) l2 ->
  p ∉ FlatLevel.price <$> (l1 ++ l2).
Proof.
  intros H1 H2 (x & -> & Hx)%list_elem_of_fmap. rewrite !Forall_forall in H1, H2.
  apply elem_of_app in Hx as [Hx|Hx]; [specialize (H1 x Hx)|specialize (H2 x Hx)];
    by rewrite before_irrefl in H1 || by rewrite before_irrefl in H2.
Qed.

(** C24: on a sorted side of the book the binary search is the linear search for
    the insertion point, and the operations built on it act as on a sorted map
    keyed by price: [find_or_insert] returns the position of the level of that
    price, creating an empty one exactly when there is none, keeps the side
    sorted and all other levels; [remove] drops exactly the level of that price
    and keeps the side sorted. *)
Theorem level_search_correct desc p ls :
  sorted desc ls ->
  lower_bound_for desc p ls = first_not_before desc p ls /\
  (let '(i, ls') := find_or_insert desc p ls in
   sorted desc ls' /\
   ((exists l, ls !! i = Some l /\ FlatLevel.price l = p /\ ls' = ls) \/
    ((p ∉ FlatLevel.price <$> ls) /\ ls' !! i = Some (FlatLevel.make p) /\ delete i ls' = ls))) /\
  (sorted desc (remove desc p ls) /\ (p ∉ FlatLevel.price <$> remove desc p ls) /\
   forall l, FlatLevel.price l <> p -> l ∈ remove desc p ls <-> l ∈ ls).
Proof.
  intros Hs. split; [by apply lower_bound_for_correct|]. unfold find_or_insert, remove.
  destruct (around desc p ls Hs) as (l1 & l2 & H1 & H2 & Hi & [(b & -> & Hp & ->)|[-> ->]]); rewrite Hi.
  - split; [split; [done|]; left; exists b; by rewrite list_lookup_middle|]. rewrite delete_middle.
    apply sorted_app in Hs as (Hs1 & [Hs2 _]%sorted_cons & Hs3). split.
    { apply sorted_app. split; [done|]. split; [done|]. intros x y Hx Hy. apply Hs3; set_solver. }
    split; [by apply (not_at_price desc)|]. intros l Hl. rewrite !elem_of_app elem_of_cons. naive_solver.
  - apply sorted_app in Hs as (Hs1 & Hs2 & Hs3). rewrite !Forall_forall in H1, H2. split; [split|].
    + unfold vec_insert. rewrite take_app_length drop_app_length. apply sorted_app. rewrite sorted_cons.
      split; [done|]. split; [split; [done|by apply Forall_forall]|].
      intros x y Hx [->|Hy]%elem_of_cons; [by apply H1|by apply Hs3].
    + right. unfold vec_insert. rewrite take_app_length drop_app_length list_lookup_middle; [done|].
      rewrite delete_middle. split; [|done]. apply (not_at_price desc); by apply Forall_forall.
    + split; [by apply sorted_app|]. split; [|done]. apply (not_at_price desc); by apply Forall_forall.
Qed.

Lemma level_search_correct_witness :
  let ls := [FlatLevel.make 105; FlatLevel.make 101] in
  find_or_insert true 103 ls = (1%nat, [FlatLevel.make 105; FlatLevel.make 103; FlatLevel.make 101]) /\
  lower_bound_for true 103 ls = first_not_before true 103 ls.
Proof.
  intros ls. split; [reflexivity|]. apply (level_search_correct true 103 ls).
  repeat constructor.
Defined.

End FlatPriceBookClaims.
