(* ===== verification/OrderBook.v ===== *)
(** * The order book (include/rtes/order_book.hpp, src/order_book.cpp)

    [OrderBook.t] holds the data members of the class; [env] adds what its
    operations reach through references: the order pool, the context of the
    trade callback, and the clock that stamps trades.  Every operation returns
    [None] for undefined behaviour or a failed assertion (a dangling pointer, a
    pop of an empty level, a double free), so "returns [Some]" is a safety
    statement.  Heap exhaustion inside the containers, which the code catches as
    [std::exception], is not modelled, nor are the latency trackers, which the
    matching code only writes. *)

From S2P Require Import Prelude.
From S2P Require Import Types.
From S2P Require Import ErrorHandling.
From S2P Require Import OrderPool.
From S2P Require Import PriceLevels.

Definition MAX_DEPTH_LEVELS : nat := 20.

Record DepthLevel := mkDepthLevel { dl_price : Price; dl_quantity : Quantity; dl_order_count : Z }.
Definition DepthLevel_default : DepthLevel := mkDepthLevel 0 0 0.

Record DepthSnapshot := mkDepthSnapshot {
  ds_bids : list DepthLevel;
  ds_asks : list DepthLevel;
  bid_levels : nat;
  ask_levels : nat
}.
Definition DepthSnapshot_default : DepthSnapshot :=
  mkDepthSnapshot (replicate MAX_DEPTH_LEVELS DepthLevel_default)
    (replicate MAX_DEPTH_LEVELS DepthLevel_default) 0 0.

Record BBOSnapshot := mkBBO {
  bid_price : Price;
  bid_quantity : Quantity;
  ask_price : Price;
  ask_quantity : Quantity;
  sequence : Z
}.

Module OrderBook.

Record t := mk {
  bids_ : list FlatLevel.t;
  asks_ : list FlatLevel.t;
  order_lookup_ : gmap Z nat;
  next_trade_id_ : TradeID;
  shutdown_requested_ : bool;
  bbo_snapshot_ : BBOSnapshot;
  symbol_ : cstring
}.

Definition make (symbol : cstring) : t := mk [] [] ∅ 1 false (mkBBO 0 0 0 0 0) symbol.

(** [bids_] is [FlatPriceBook<true>], [asks_] is [FlatPriceBook<false>]. *)
Definition get_side (d : bool) (b : t) : list FlatLevel.t := if d then bids_ b else asks_ b.
Definition set_side (d : bool) (ls : list FlatLevel.t) (b : t) : t :=
  if d
  then mk ls (asks_ b) (order_lookup_ b) (next_trade_id_ b) (shutdown_requested_ b)
         (bbo_snapshot_ b) (symbol_ b)
  else mk (bids_ b) ls (order_lookup_ b) (next_trade_id_ b) (shutdown_requested_ b)
         (bbo_snapshot_ b) (symbol_ b).
Definition set_lookup (m : gmap Z nat) (b : t) : t :=
  mk (bids_ b) (asks_ b) m (next_trade_id_ b) (shutdown_requested_ b) (bbo_snapshot_ b) (symbol_ b).
Definition set_next_trade_id (n : TradeID) (b : t) : t :=
  mk (bids_ b) (asks_ b) (order_lookup_ b) n (shutdown_requested_ b) (bbo_snapshot_ b) (symbol_ b).
Definition set_bbo (s : BBOSnapshot) (b : t) : t :=
  mk (bids_ b) (asks_ b) (order_lookup_ b) (next_trade_id_ b) (shutdown_requested_ b) s (symbol_ b).
Definition set_shutdown (x : bool) (b : t) : t :=
  mk (bids_ b) (asks_ b) (order_lookup_ b) (next_trade_id_ b) x (bbo_snapshot_ b) (symbol_ b).

(** ** Accessors *)

Definition best_bid (b : t) : Price := FlatPriceBook.best_price (bids_ b).
Definition best_ask (b : t) : Price := FlatPriceBook.best_price (asks_ b).
Definition bid_quantity (b : t) : Quantity := FlatPriceBook.best_quantity (bids_ b).
Definition ask_quantity (b : t) : Quantity := FlatPriceBook.best_quantity (asks_ b).
Definition order_count (b : t) : nat := size (order_lookup_ b).

Definition update_bbo_snapshot (b : t) : t :=
  let s := bbo_snapshot_ b in
  set_bbo (mkBBO (FlatPriceBook.best_price (bids_ b)) (FlatPriceBook.best_quantity (bids_ b))
                 (FlatPriceBook.best_price (asks_ b)) (FlatPriceBook.best_quantity (asks_ b))
                 (sequence s +₆₄ 1 +₆₄ 1)) b.

(** [read_bbo] run with no writer in between: [None] is its [false]. *)
Definition read_bbo (b : t) : option BBOSnapshot :=
  let seq1 := sequence (bbo_snapshot_ b) in
  if Z.odd seq1 then None
  else
    let seq2 := sequence (bbo_snapshot_ b) in
    if seq1 =? seq2 then Some (bbo_snapshot_ b) else None.

Fixpoint fill_depth (max_levels : nat) (ls : list FlatLevel.t) (out : list DepthLevel) (n : nat)
    : list DepthLevel * nat :=
  match ls with
  | [] => (out, n)
  | l :: ls' =>
      if Nat.ltb n max_levels && Nat.ltb n MAX_DEPTH_LEVELS
      then
        if FlatLevel.empty l then fill_depth max_levels ls' out n
        else fill_depth max_levels ls'
               (<[n := mkDepthLevel (FlatLevel.price l) (FlatLevel.total_quantity l)
                         (wrap 32 (FlatLevel.size l))]> out) (S n)
      else (out, n)
  end.

Definition get_depth (b : t) (out : DepthSnapshot) (max_levels : nat) : DepthSnapshot :=
  let '(bs, nb) := fill_depth max_levels (bids_ b) (ds_bids out) 0 in
  let '(az, na) := fill_depth max_levels (asks_ b) (ds_asks out) 0 in
  mkDepthSnapshot bs az nb na.

Definition compact (b : t) : t :=
  set_side false (FlatPriceBook.compact_all (asks_ b))
    (set_side true (FlatPriceBook.compact_all (bids_ b)) b).
Definition prune (b : t) : t :=
  set_side false (FlatPriceBook.prune_empty (asks_ b))
    (set_side true (FlatPriceBook.prune_empty (bids_ b)) b).

(** ** Operations *)

Record env (P C : Type) := mkenv { book : t; pool : P; ctx : C; ticks : nat }.
Arguments mkenv {P C}.
Arguments book {P C}.
Arguments pool {P C}.
Arguments ctx {P C}.
Arguments ticks {P C}.

Section ops.
Context {P C : Type} `{!OrderPool P}.

(** [now_timestamp()]: the [n]-th reading of the steady clock. *)
Variable steady_clock : nat -> Timestamp.
Variable trade_callback_ : option (Trade -> C -> C).

Abbreviation env := (env P C).
Definition with_book (b : t) (e : env) : env := mkenv b (pool e) (ctx e) (ticks e).
Definition with_pool (p : P) (e : env) : env := mkenv (book e) p (ctx e) (ticks e).

Definition fill_status (o : Order) : OrderStatus :=
  if remaining_quantity o =? 0 then FILLED else PARTIALLY_FILLED.

Definition execute_trade (aggressive passive : nat) (qty : Quantity) (px : Price) (e : env)
    : option env :=
  p ← modify aggressive (fun o => set_remaining (remaining_quantity o -₆₄ qty) o) (pool e);
  p ← modify passive (fun o => set_remaining (remaining_quantity o -₆₄ qty) o) p;
  p ← modify aggressive (fun o => set_status (fill_status o) o) p;
  p ← modify passive (fun o => set_status (fill_status o) o) p;
  a ← deref p aggressive;
  q ← deref p passive;
  let b := book e in
  let trade :=
    Trade_make (steady_clock (ticks e)) (next_trade_id_ b)
      (if is_buy (side a) then id a else id q)
      (if is_sell (side a) then id a else id q)
      (symbol_ b) qty px in
  Some (mkenv (set_next_trade_id (next_trade_id_ b +₆₄ 1) b) p
          (match trade_callback_ with Some f => f trade (ctx e) | None => ctx e end)
          (S (ticks e))).

(** One passive order at the front of [level] against the incoming one. *)
Definition trade_with_front (d : bool) (order : nat) (level : FlatLevel.t) (e : env) : option env :=
  passive ← FlatLevel.front level;
  o ← deref (pool e) order;
  q ← deref (pool e) passive;
  let qty := Z.min (remaining_quantity o) (remaining_quantity q) in
  e ← execute_trade order passive qty (FlatLevel.price level) e;
  q ← deref (pool e) passive;
  e_level ←
    (if remaining_quantity q =? 0 then
       level ← FlatLevel.pop_front qty level;
       let e := with_book (set_lookup (delete (id q) (order_lookup_ (book e))) (book e)) e in
       p ← modify passive (set_status FILLED) (pool e);
       p ← deallocate passive p;
       Some (with_pool p e, level)
     else Some (e, FlatLevel.reduce_quantity qty level));
  let '(e, level) := e_level : env * FlatLevel.t in
  let ls := <[0%nat := level]> (get_side d (book e)) in
  let ls := if FlatLevel.empty level then FlatPriceBook.remove d (FlatLevel.price level) ls else ls in
  Some (with_book (set_side d ls (book e)) e).

(** The [sweep] lambda of both matching functions, on the side [d]; [crosses]
    is the test of the limit version, constantly true in the market version. *)
Fixpoint sweep (fuel : nat) (crosses : Order -> Price -> bool) (d : bool) (order : nat) (e : env)
    : option env :=
  match fuel with
  | O => None
  | S fuel' =>
      o ← deref (pool e) order;
      if remaining_quantity o =? 0 then Some e
      else
        match get_side d (book e) with
        | [] => Some e
        | level :: _ =>
            if negb (crosses o (FlatLevel.price level)) then Some e
            else if FlatLevel.empty level then
              sweep fuel' crosses d order
                (with_book (set_side d (FlatPriceBook.remove d (FlatLevel.price level)
                                          (get_side d (book e))) (book e)) e)
            else
              e ← trade_with_front d order level e;
              sweep fuel' crosses d order e
        end
  end.

(** Each round fills a resting order, ends the incoming one, or drops an empty
    level: the orders and levels of the side bound the rounds. *)
Definition sweep_fuel (d : bool) (e : env) : nat :=
  S (S (length (get_side d (book e)) +
        sum_list_with (fun l => length (FlatLevel.orders l)) (get_side d (book e)))).

Definition limit_crosses (o : Order) (level_price : Price) : bool :=
  if is_buy (side o) then level_price <=? price o else price o <=? level_price.

Definition match_market_order (order : nat) (e : env) : option (Result unit * env) :=
  o ← deref (pool e) order;
  let d := negb (is_buy (side o)) in
  e ← sweep (sweep_fuel d e) (fun _ _ => true) d order e;
  Some (Value tt, e).

Definition match_limit_order (order : nat) (e : env) : option (Result unit * env) :=
  o ← deref (pool e) order;
  let d := negb (is_buy (side o)) in
  e ← sweep (sweep_fuel d e) limit_crosses d order e;
  Some (Value tt, e).

Definition match_order (order : option nat) (e : env) : option (Result unit * env) :=
  if shutdown_requested_ (book e) then Some (err SYSTEM_SHUTDOWN, e)
  else
    match order with
    | None => Some (err ORDER_INVALID, e)
    | Some order =>
        o ← deref (pool e) order;
        if is_market (type o) then match_market_order order e else match_limit_order order e
    end.

Definition add_to_book (order : option nat) (e : env) : option (Result unit * env) :=
  match order with
  | None => Some (err ORDER_INVALID, e)
  | Some order =>
      o ← deref (pool e) order;
      let d := is_buy (side o) in
      let '(i, ls) := FlatPriceBook.find_or_insert d (price o) (get_side d (book e)) in
      level ← ls !! i;
      let ls := <[i := FlatLevel.push_back order (remaining_quantity o) level]> ls in
      p ← modify order (set_status ACCEPTED) (pool e);
      Some (Value tt, with_pool p (with_book (set_side d ls (book e)) e))
  end.

Definition add_order (order : option nat) (e : env) : option (Result unit * env) :=
  if shutdown_requested_ (book e) then Some (err SYSTEM_SHUTDOWN, e)
  else
    match order with
    | None => Some (err ORDER_INVALID, e)
    | Some ptr =>
        o ← deref (pool e) ptr;
        if remaining_quantity o =? 0 then Some (err ORDER_INVALID, e)
        else if bool_decide (is_Some (order_lookup_ (book e) !! id o))
        then Some (err ORDER_DUPLICATE, e)
        else
          let e := with_book (set_lookup (<[id o := ptr]> (order_lookup_ (book e))) (book e)) e in
          '(r, e) ← match_order order e;
          match r with
          | Error c =>
              o ← deref (pool e) ptr;
              Some (Error c, with_book (set_lookup (delete (id o) (order_lookup_ (book e))) (book e)) e)
          | Value _ =>
              o ← deref (pool e) ptr;
              if 0 <? remaining_quantity o then
                '(r, e) ← add_to_book order e;
                match r with
                | Error c =>
                    o ← deref (pool e) ptr;
                    Some (Error c, with_book (set_lookup (delete (id o) (order_lookup_ (book e))) (book e)) e)
                | Value _ => Some (Value tt, with_book (update_bbo_snapshot (book e)) e)
                end
              else
                let e := with_book (set_lookup (delete (id o) (order_lookup_ (book e))) (book e)) e in
                Some (Value tt, with_book (update_bbo_snapshot (book e)) e)
          end
    end.

(** The scan of [remove_from_book]: first position from [i] on that holds the
    pointer, if any. *)
Fixpoint index_of_from (order : nat) (i : nat) (v : list nat) : option nat :=
  match v with
  | [] => None
  | x :: v' => if bool_decide (x = order) then Some i else index_of_from order (S i) v'
  end.

Definition remove_from_book (order : nat) (e : env) : option env :=
  o ← deref (pool e) order;
  let d := is_buy (side o) in
  let ls := get_side d (book e) in
  match FlatPriceBook.find d (price o) ls with
  | None => Some e
  | Some i =>
      level ← ls !! i;
      let h := Z.to_nat (FlatLevel.head_ level) in
      match index_of_from order h (drop h (FlatLevel.orders level)) with
      | None => Some e
      | Some k =>
          let head := if Nat.ltb k h then wrap 32 (FlatLevel.head_ level - 1) else FlatLevel.head_ level in
          let level :=
            FlatLevel.mk (FlatLevel.price level)
              (FlatLevel.total_quantity level -₆₄ remaining_quantity o) head
              (delete k (FlatLevel.orders level)) in
          let ls := <[i := level]> ls in
          let ls := if FlatLevel.empty level then FlatPriceBook.remove d (price o) ls else ls in
          Some (with_book (set_side d ls (book e)) e)
      end
  end.

Definition cancel_order (order_id : OrderID) (e : env) : option (Result unit * env) :=
  if shutdown_requested_ (book e) then Some (err SYSTEM_SHUTDOWN, e)
  else
    match order_lookup_ (book e) !! order_id with
    | None => Some (err ORDER_NOT_FOUND, e)
    | Some order =>
        e ← remove_from_book order e;
        let e := with_book (set_lookup (delete order_id (order_lookup_ (book e))) (book e)) e in
        p ← modify order (set_status CANCELLED) (pool e);
        p ← deallocate order p;
        let e := with_pool p e in
        Some (Value tt, with_book (update_bbo_snapshot (book e)) e)
    end.

(** Cancel and free every order of [entries], the traversal of [order_lookup_]. *)
Fixpoint cancel_all (entries : list (Z * nat)) (p : P) : option P :=
  match entries with
  | [] => Some p
  | (_, order) :: rest =>
      p ← modify order (set_status CANCELLED) p;
      p ← deallocate order p;
      cancel_all rest p
  end.

(** [iteration] is the order in which the hash table is traversed. *)
Definition shutdown (iteration : gmap Z nat -> list (Z * nat)) (e : env) : option env :=
  let b := set_shutdown true (book e) in
  p ← cancel_all (iteration (order_lookup_ b)) (pool e);
  let b := set_side false [] (set_side true [] (set_lookup ∅ b)) in
  Some (with_pool p (with_book b e)).

End ops.
End OrderBook.
