(* ===== verification/OrderBookSpec.v ===== *)
(** * The abstract order book

    What the order book promises: two lists of resting orders, each in
    price-time priority.  An incoming order trades against the front of the
    opposite list while its limit allows it; what is left is placed behind every
    resting order of an equal or better price; a cancel removes one order.  No
    levels, cursors, pointers or machine words appear here. *)

From S2P Require Import Prelude.
From S2P Require Import Types.
From S2P Require Import PriceLevels.

Module Spec.

Record Resting := mkResting { r_id : OrderID; r_price : Price; r_qty : Quantity }.
Record Fill := mkFill { f_id : OrderID; f_price : Price; f_qty : Quantity }.

Record book := mkbook { sb_bids : list Resting; sb_asks : list Resting }.

Definition get (d : bool) (b : book) : list Resting := if d then sb_bids b else sb_asks b.
Definition set (d : bool) (rs : list Resting) (b : book) : book :=
  if d then mkbook rs (sb_asks b) else mkbook (sb_bids b) rs.

(** Trade [q] units against the resting orders, best first, while [cr] accepts
    the price: the fills, what is left of [q], what is left of the list. *)
Fixpoint match_against (cr : Price -> bool) (q : Quantity) (rs : list Resting)
    : list Fill * Quantity * list Resting :=
  match rs with
  | [] => ([], q, [])
  | r :: rs' =>
      if q =? 0 then ([], q, rs)
      else if cr (r_price r) then
        if r_qty r <=? q then
          let '(fs, q', out) := match_against cr (q - r_qty r) rs' in
          (mkFill (r_id r) (r_price r) (r_qty r) :: fs, q', out)
        else ([mkFill (r_id r) (r_price r) q], 0, mkResting (r_id r) (r_price r) (r_qty r - q) :: rs')
      else ([], q, rs)
  end.

(** Behind every order of an equal or better price. *)
Fixpoint place (d : bool) (r : Resting) (rs : list Resting) : list Resting :=
  match rs with
  | [] => [r]
  | x :: rs' =>
      if FlatPriceBook.before d (r_price r) (r_price x) then r :: rs else x :: place d r rs'
  end.

(** The price test of an incoming order of side [buy]. *)
Definition accepts (market buy : bool) (limit px : Price) : bool :=
  market || (if buy then px <=? limit else limit <=? px).

Definition add (market buy : bool) (r : Resting) (b : book) : list Fill * book :=
  let '(fs, q, out) := match_against (accepts market buy (r_price r)) (r_qty r) (get (negb buy) b) in
  let b := set (negb buy) out b in
  (fs, if q =? 0 then b else set buy (place buy (mkResting (r_id r) (r_price r) q) (get buy b)) b).

Definition cancel (i : OrderID) (b : book) : book :=
  mkbook (base.filter (fun r => r_id r <> i) (sb_bids b)) (base.filter (fun r => r_id r <> i) (sb_asks b)).

(** Price-time priority of one side: prices never improve along the list. *)
Definition in_priority (d : bool) (rs : list Resting) : Prop :=
  StronglySorted (fun a b => FlatPriceBook.before d (r_price b) (r_price a) = false) rs.

Definition fills_total (fs : list Fill) : Z := sumZ (f_qty <$> fs).
Definition resting_total (rs : list Resting) : Z := sumZ (r_qty <$> rs).

(** ** Lemmas *)

Lemma fills_total_cons f fs : fills_total (f :: fs) = f_qty f + fills_total fs.
Proof. done. Qed.

Lemma resting_total_cons r rs : resting_total (r :: rs) = r_qty r + resting_total rs.
Proof. done. Qed.

Lemma fills_total_nil : fills_total [] = 0.
Proof. done. Qed.

Lemma match_against_conserves cr q rs fs q' out :
  match_against cr q rs = (fs, q', out) ->
  q = q' + fills_total fs /\ resting_total rs = resting_total out + fills_total fs.
Proof.
  revert q fs q' out. induction rs as [|r rs IH]; intros q fs q' out; simpl.
  - intros [= <- <- <-]. rewrite fills_total_nil. lia.
  - destruct (Z.eqb_spec q 0) as [->|Hq]; [intros [= <- <- <-]; rewrite fills_total_nil; lia|].
    destruct (cr (r_price r)); [|intros [= <- <- <-]; rewrite fills_total_nil; lia].
    destruct (Z.leb_spec (r_qty r) q) as [Hle|Hlt].
    + destruct (match_against cr (q - r_qty r) rs) as [[fs0 q0] out0] eqn:E.
      intros [= <- <- <-]. destruct (IH _ _ _ _ E) as [H1 H2].
      rewrite fills_total_cons resting_total_cons; simpl. lia.
    + intros [= <- <- <-]. rewrite fills_total_cons fills_total_nil !resting_total_cons; simpl. lia.
Qed.

Lemma match_against_positive cr q rs fs q' out :
  0 <= q -> Forall (fun r => 0 < r_qty r) rs -> match_against cr q rs = (fs, q', out) ->
  0 <= q' <= q /\ Forall (fun f => 0 < f_qty f) fs /\ Forall (fun r => 0 < r_qty r) out.
Proof.
  intros Hq Hrs. revert q Hq fs q' out.
  induction Hrs as [|r rs Hr Hrs IH]; intros q Hq fs q' out; simpl.
  - intros [= <- <- <-]. split_and!; [lia|lia|done|done].
  - destruct (Z.eqb_spec q 0) as [->|Hq0].
    { intros [= <- <- <-]. split_and!; [lia|lia|done|by constructor]. }
    destruct (cr (r_price r)); [|intros [= <- <- <-]; split_and!; [lia|lia|done|by constructor]].
    destruct (Z.leb_spec (r_qty r) q) as [Hle|Hlt].
    + destruct (match_against cr (q - r_qty r) rs) as [[fs0 q0] out0] eqn:E.
      intros [= <- <- <-]. destruct (IH (q - r_qty r) ltac:(lia) _ _ _ E) as (H1 & H2 & H3).
      split_and!; [lia|lia| |done]. by constructor.
    + intros [= <- <- <-]. split_and!; [lia|lia| |].
      * constructor; [simpl; lia|done].
      * constructor; [simpl; lia|done].
Qed.

(** Every fill is at a price the incoming order accepts. *)
Lemma match_against_accepted cr q rs fs q' out :
  match_against cr q rs = (fs, q', out) -> Forall (fun f => cr (f_price f) = true) fs.
Proof.
  revert q fs q' out. induction rs as [|r rs IH]; intros q fs q' out; simpl.
  - by intros [= <- <- <-].
  - destruct (q =? 0); [by intros [= <- <- <-]|].
    destruct (cr (r_price r)) eqn:Ec; [|by intros [= <- <- <-]].
    destruct (r_qty r <=? q).
    + destruct (match_against cr (q - r_qty r) rs) as [[fs0 q0] out0] eqn:E.
      intros [= <- <- <-]. constructor; [done|]. by eapply IH.
    + intros [= <- <- <-]. by constructor.
Qed.

(** When something is left over, the best remaining price is not acceptable. *)
Lemma match_against_stop cr q rs fs q' out :
  Forall (fun r => 0 < r_qty r) rs -> match_against cr q rs = (fs, q', out) ->
  q' <> 0 -> forall r, head out = Some r -> cr (r_price r) = false.
Proof.
  intros Hrs. revert q fs q' out. induction Hrs as [|r rs Hr Hrs IH]; intros q fs q' out; simpl.
  - by intros [= <- <- <-].
  - destruct (Z.eqb_spec q 0) as [->|Hq]; [by intros [= <- <- <-]|].
    destruct (cr (r_price r)) eqn:Ec.
    + destruct (Z.leb_spec (r_qty r) q).
      * destruct (match_against cr (q - r_qty r) rs) as [[fs0 q0] out0] eqn:E.
        intros [= <- <- <-]. by eapply IH.
      * by intros [= <- <- <-].
    + intros [= <- <- <-] _ r0 [= <-]. done.
Qed.

Lemma place_perm d r rs : place d r rs ≡ₚ r :: rs.
Proof.
  induction rs as [|x rs IH]; simpl; [done|].
  destruct (FlatPriceBook.before _ _ _); [done|]. rewrite IH. apply Permutation_swap.
Qed.

End Spec.
