(* ===== verification/OrderBookInv.v ===== *)
(** * The order book invariant

    [inv extra e]: both sides are sorted, every level is non-empty and its
    [total_quantity] is the sum of its live orders, every live pointer is an
    owned pool slot holding an order of that price and side, the lookup table
    names exactly the live orders (and the ones in [extra], in flight), and no
    bid reaches an ask.  [abs] reads the abstract book off the concrete one. *)

From S2P Require Import Prelude.
From S2P Require Import Types.
From S2P Require Import OrderPool.
From S2P Require Import PriceLevels.
From S2P Require Import OrderBook.
From S2P Require Import OrderBookSpec.
Import OrderBook.

Definition ptrs (ls : list FlatLevel.t) : list nat := ls ≫= FlatLevel.live.
Definition all_ptrs (b : OrderBook.t) : list nat := ptrs (bids_ b) ++ ptrs (asks_ b).

Definition resting_of (o : Order) : Spec.Resting :=
  Spec.mkResting (id o) (price o) (remaining_quantity o).

Section inv.
Context {P C : Type} `{!OrderPool P}.
Implicit Types p : P.
Implicit Types e : env P C.

Definition rem p (i : nat) : Z :=
  match deref p i with Some o => remaining_quantity o | None => 0 end.

Definition order_at p (d : bool) (px : Price) (i : nat) : Prop :=
  owned p i /\
  exists o, deref p i = Some o /\ price o = px /\ is_buy (side o) = d /\
    0 < remaining_quantity o < 2 ^ 64.

Record level_ok p (d : bool) (l : FlatLevel.t) : Prop := {
  lo_wf : FlatLevel.wf l;
  lo_live : FlatLevel.live l <> [];
  lo_total : FlatLevel.total_quantity l = wrap 64 (sumZ (rem p <$> FlatLevel.live l));
  lo_orders : Forall (order_at p d (FlatLevel.price l)) (FlatLevel.live l)
}.

Record side_ok p (d : bool) (ls : list FlatLevel.t) : Prop := {
  so_sorted : FlatPriceBook.sorted d ls;
  so_levels : Forall (level_ok p d) ls
}.

(** The lookup table is exactly the map from ids to the tracked pointers. *)
Definition tracked (lk : gmap Z nat) p (ps : list nat) : Prop :=
  forall k i, lk !! k = Some i <-> i ∈ ps /\ exists o, deref p i = Some o /\ id o = k.

Definition uncrossed (d : bool) (b : OrderBook.t) : Prop :=
  forall x y, x ∈ get_side d b -> y ∈ get_side (negb d) b ->
    FlatPriceBook.before (negb d) (FlatLevel.price x) (FlatLevel.price y) = true.

Record inv (extra : list nat) e : Prop := {
  inv_side d : side_ok (pool e) d (get_side d (book e));
  inv_nodup : NoDup (all_ptrs (book e) ++ extra);
  inv_tracked : tracked (order_lookup_ (book e)) (pool e) (all_ptrs (book e) ++ extra);
  inv_pool : pool_ok (pool e);
  inv_uncrossed d : uncrossed d (book e)
}.

(** The entries of the level vectors of a side, those behind the cursors
    included; [small]: no cursor of the side can overflow its 32 bits. *)
Definition weight (ls : list FlatLevel.t) : nat :=
  sum_list_with (fun l => length (FlatLevel.orders l)) ls.
Definition small (ls : list FlatLevel.t) : Prop := Z.of_nat (weight ls) < 2 ^ 32.
Definition book_weight (b : OrderBook.t) : nat := (weight (bids_ b) + weight (asks_ b))%nat.

Definition abs_ptrs p (ps : list nat) : list Spec.Resting :=
  omap (fun i => resting_of <$> deref p i) ps.
Definition abs_side p (ls : list FlatLevel.t) : list Spec.Resting := abs_ptrs p (ptrs ls).
Definition abs e : Spec.book :=
  Spec.mkbook (abs_side (pool e) (bids_ (book e))) (abs_side (pool e) (asks_ (book e))).

(** ** Pointers *)

Lemma ptrs_cons l ls : ptrs (l :: ls) = FlatLevel.live l ++ ptrs ls.
Proof. done. Qed.

Lemma ptrs_app l1 l2 : ptrs (l1 ++ l2) = ptrs l1 ++ ptrs l2.
Proof. apply bind_app. Qed.

Lemma all_ptrs_side d (b : OrderBook.t) :
  all_ptrs b ≡ₚ ptrs (get_side d b) ++ ptrs (get_side (negb d) b).
Proof. destruct d; simpl; [done|]. apply Permutation_app_comm. Qed.

Lemma all_ptrs_set_side d ls (b : OrderBook.t) :
  all_ptrs (set_side d ls b) ≡ₚ ptrs ls ++ ptrs (get_side (negb d) b).
Proof. destruct d; simpl; [done|]. apply Permutation_app_comm. Qed.

Lemma get_set_side d ls (b : OrderBook.t) : get_side d (set_side d ls b) = ls.
Proof. by destruct d. Qed.

Lemma get_set_side_other d ls (b : OrderBook.t) :
  get_side (negb d) (set_side d ls b) = get_side (negb d) b.
Proof. by destruct d. Qed.

Lemma elem_of_ptrs i ls : i ∈ ptrs ls <-> exists l, l ∈ ls /\ i ∈ FlatLevel.live l.
Proof. unfold ptrs. rewrite list_elem_of_bind. naive_solver. Qed.

Lemma abs_ptrs_cons p i ps o :
  deref p i = Some o -> abs_ptrs p (i :: ps) = resting_of o :: abs_ptrs p ps.
Proof. intros E. unfold abs_ptrs. cbn. by rewrite E. Qed.

Lemma abs_ptrs_app p ps qs : abs_ptrs p (ps ++ qs) = abs_ptrs p ps ++ abs_ptrs p qs.
Proof. apply omap_app. Qed.

Lemma abs_get d e : Spec.get d (abs e) = abs_side (pool e) (get_side d (book e)).
Proof. by destruct d. Qed.

(** ** Frames: pools that agree on the pointers of interest *)

Definition agree p p' (ps : list nat) : Prop :=
  forall i, i ∈ ps -> deref p' i = deref p i /\ (owned p i -> owned p' i).

Lemma agree_mono p p' ps qs : (forall i, i ∈ qs -> i ∈ ps) -> agree p p' ps -> agree p p' qs.
Proof. unfold agree. eauto. Qed.

Lemma abs_ptrs_agree p p' ps : agree p p' ps -> abs_ptrs p' ps = abs_ptrs p ps.
Proof.
  intros Ha. unfold abs_ptrs. induction ps as [|i ps IH]; [done|]. cbn.
  rewrite (proj1 (Ha i ltac:(left))). rewrite IH; [|done]. eapply agree_mono, Ha. set_solver.
Qed.

Lemma order_at_agree p p' d px i ps :
  i ∈ ps -> agree p p' ps -> order_at p d px i -> order_at p' d px i.
Proof. intros Hi Ha (Ho & Hx). destruct (Ha i Hi) as [Hd Hw]. unfold order_at. rewrite Hd. eauto. Qed.

Lemma sum_rem_agree p p' ps : agree p p' ps -> rem p' <$> ps = rem p <$> ps.
Proof.
  intros Ha. apply list_fmap_ext. intros k i Hk. unfold rem.
  rewrite (proj1 (Ha i _)); [|done]. apply list_elem_of_lookup. eauto.
Qed.

Lemma level_ok_agree p p' d l : agree p p' (FlatLevel.live l) -> level_ok p d l -> level_ok p' d l.
Proof.
  intros Ha [H1 H2 H3 H4]. split; [done..| |].
  - by rewrite (sum_rem_agree p).
  - apply Forall_forall. intros i Hi. rewrite Forall_forall in H4.
    eapply order_at_agree; [exact Hi|done|by apply H4].
Qed.

Lemma side_ok_agree p p' d ls : agree p p' (ptrs ls) -> side_ok p d ls -> side_ok p' d ls.
Proof.
  intros Ha [Hs Hl]. split; [done|]. apply Forall_forall. intros l Hin.
  rewrite Forall_forall in Hl. eapply level_ok_agree; [|by apply Hl].
  eapply agree_mono, Ha. intros i Hi. apply elem_of_ptrs. eauto.
Qed.

Lemma side_ok_ptr p d ls i : side_ok p d ls -> i ∈ ptrs ls -> exists px, order_at p d px i.
Proof.
  intros [_ Hl] (l & Hin & Hi)%elem_of_ptrs. rewrite Forall_forall in Hl.
  destruct (Hl l Hin) as [_ _ _ Ho]. rewrite Forall_forall in Ho. eauto.
Qed.

(** Every live pointer is owned and can be read. *)
Lemma inv_ptr extra e d i :
  inv extra e -> i ∈ ptrs (get_side d (book e)) ->
  owned (pool e) i /\ exists o, deref (pool e) i = Some o /\ is_buy (side o) = d /\
    0 < remaining_quantity o < 2 ^ 64.
Proof.
  intros Hinv Hi. destruct (side_ok_ptr _ _ _ _ (inv_side _ _ Hinv d) Hi) as (px & Ho & o & Hd & _ & ? & ?).
  eauto.
Qed.

(** ** The lookup table *)

Lemma tracked_ext lk p p' ps qs :
  (forall i, i ∈ ps <-> i ∈ qs) ->
  (forall i, i ∈ ps -> id <$> deref p' i = id <$> deref p i) ->
  tracked lk p ps -> tracked lk p' qs.
Proof.
  intros Hij Hid Ht k i. rewrite Ht -Hij. split; intros (Hi & o & Ho & Hk); split; try done.
  - specialize (Hid i Hi). rewrite Ho /= in Hid. destruct (deref p' i) as [o'|]; [|done].
    exists o'. split; [done|]. simpl in Hid. congruence.
  - specialize (Hid i Hi). rewrite Ho /= in Hid. destruct (deref p i) as [o'|]; [|done].
    exists o'. split; [done|]. simpl in Hid. congruence.
Qed.

Lemma tracked_inj lk p ps i j oi oj :
  tracked lk p ps -> i ∈ ps -> j ∈ ps -> deref p i = Some oi -> deref p j = Some oj ->
  id oi = id oj -> i = j.
Proof.
  intros Ht Hi Hj Hoi Hoj Hid.
  assert (lk !! id oi = Some i) as H1 by (apply Ht; eauto).
  assert (lk !! id oi = Some j) as H2 by (apply Ht; eauto). congruence.
Qed.

Lemma tracked_delete lk p ps qs q oq :
  tracked lk p ps -> q ∈ ps -> deref p q = Some oq ->
  (forall i, i ∈ qs <-> i ∈ ps /\ i <> q) -> tracked (delete (id oq) lk) p qs.
Proof.
  intros Ht Hq Hoq Hjs k i. rewrite lookup_delete_Some Ht Hjs. split.
  - intros (Hk & Hi & o & Ho & <-). split_and!; [done| |eauto].
    intros ->. congruence.
  - intros ((Hi & Hne) & o & Ho & <-). split_and!; [|done|eauto].
    intros Heq. apply Hne. eapply tracked_inj; eauto.
Qed.

Lemma tracked_insert lk p ps qs q oq :
  tracked lk p ps -> lk !! id oq = None -> deref p q = Some oq ->
  (forall i, i ∈ qs <-> i ∈ ps \/ i = q) -> tracked (<[id oq := q]> lk) p qs.
Proof.
  intros Ht Hnone Hoq Hjs k i. rewrite lookup_insert_Some Ht Hjs. split.
  - intros [[<- <-]|(Hk & Hi & o & Ho & <-)]; [by eauto|]. eauto.
  - intros [Hi' (o & Ho & <-)]. destruct (decide (id oq = id o)) as [He|Hne].
    + left. split; [done|]. destruct Hi' as [Hi|<-]; [|done].
      assert (lk !! id o = Some i) as H1 by (apply Ht; eauto). congruence.
    + right. split; [done|]. destruct Hi' as [Hi| ->]; [eauto|congruence].
Qed.

(** ** Sides *)

Lemma uncrossed_set_side d ls (b : OrderBook.t) :
  (forall x y, x ∈ ls -> y ∈ get_side (negb d) b ->
    FlatPriceBook.before (negb d) (FlatLevel.price x) (FlatLevel.price y) = true) ->
  forall d', uncrossed d' (set_side d ls b).
Proof.
  intros Hx d'. unfold uncrossed. destruct (decide (d' = d)) as [->|Hne].
  - rewrite get_set_side get_set_side_other. done.
  - assert (d' = negb d) as -> by by destruct d, d'.
    rewrite get_set_side_other negb_involutive get_set_side. intros x y Hin Hy.
    specialize (Hx y x Hy Hin). by destruct d; simpl in *.
Qed.

Lemma side_ok_cons p d l ls :
  side_ok p d (l :: ls) <->
  level_ok p d l /\ side_ok p d ls /\ Forall (FlatPriceBook.lt_level d l) ls.
Proof.
  split.
  - intros [Hs Hl]. apply FlatPriceBookFacts.sorted_cons in Hs as [Hs Hlt].
    apply Forall_cons in Hl as [? ?]. split_and!; [done|by split|done].
  - intros (H1 & [H2 H3] & H4). split; [by apply FlatPriceBookFacts.sorted_cons|by constructor].
Qed.

(** Rebuilding the invariant after a change of one side. *)
Lemma inv_rebuild d extra extra' e e' ls' :
  inv extra e ->
  get_side d (book e') = ls' -> get_side (negb d) (book e') = get_side (negb d) (book e) ->
  side_ok (pool e') d ls' ->
  agree (pool e) (pool e') (ptrs (get_side (negb d) (book e))) ->
  NoDup (ptrs ls' ++ ptrs (get_side (negb d) (book e)) ++ extra') ->
  tracked (order_lookup_ (book e')) (pool e') (ptrs ls' ++ ptrs (get_side (negb d) (book e)) ++ extra') ->
  pool_ok (pool e') ->
  (forall x y, x ∈ ls' -> y ∈ get_side (negb d) (book e) ->
    FlatPriceBook.before (negb d) (FlatLevel.price x) (FlatLevel.price y) = true) ->
  inv extra' e'.
Proof.
  intros Hinv Hd Hnd Hside Hag Hdup Htr Hok Hunc.
  assert (all_ptrs (book e') ≡ₚ ptrs ls' ++ ptrs (get_side (negb d) (book e))) as Hperm.
  { by rewrite (all_ptrs_side d) Hd Hnd. }
  split; [| | |done|].
  - intros d'. destruct (decide (d' = d)) as [->|Hne]; [by rewrite Hd|].
    assert (d' = negb d) as -> by by destruct d, d'. rewrite Hnd.
    eapply side_ok_agree; [done|apply (inv_side _ _ Hinv)].
  - by rewrite Hperm -app_assoc.
  - eapply tracked_ext; [|done|exact Htr]. intros i. by rewrite Hperm -app_assoc.
  - intros d'. unfold uncrossed. destruct (decide (d' = d)) as [->|Hne].
    + rewrite Hd Hnd. done.
    + assert (d' = negb d) as -> by by destruct d, d'. rewrite negb_involutive Hnd Hd.
      intros x y Hx Hy. specialize (Hunc y x Hy Hx). by destruct d; simpl in *.
Qed.

Lemma inv_nodup_side d extra e :
  inv extra e ->
  NoDup (ptrs (get_side d (book e)) ++ ptrs (get_side (negb d) (book e)) ++ extra).
Proof. intros Hinv. rewrite app_assoc -(all_ptrs_side d). apply (inv_nodup _ _ Hinv). Qed.

Lemma inv_tracked_side d extra e :
  inv extra e ->
  tracked (order_lookup_ (book e)) (pool e)
    (ptrs (get_side d (book e)) ++ ptrs (get_side (negb d) (book e)) ++ extra).
Proof.
  intros Hinv. eapply tracked_ext; [|done|apply (inv_tracked _ _ Hinv)].
  intros i. by rewrite (all_ptrs_side d) -app_assoc.
Qed.

End inv.
