(* ===== verification/OrderBookMatch.v ===== *)
(** * Matching: the sweep refines the abstract matching

    Lemmas that describe one trade, one round of the sweep and the whole sweep
    in terms of the abstract book. *)

From S2P Require Import Prelude.
From S2P Require Import Types.
From S2P Require Import ErrorHandling.
From S2P Require Import OrderPool.
From S2P Require Import PriceLevels.
From S2P Require Import OrderBook.
From S2P Require Import OrderBookSpec.
From S2P Require Import OrderBookInv.
Import OrderBook.

(** An order after a fill of [x]. *)
Definition fill_upd (x : Quantity) (o : Order) : Order :=
  let o := set_remaining (remaining_quantity o -₆₄ x) o in set_status (fill_status o) o.

Section matching.
Context {P C : Type} `{!OrderPool P}.
Variable steady_clock : nat -> Timestamp.
Variable trade_callback_ : option (Trade -> C -> C).
Implicit Types p : P.
Implicit Types e : env P C.

(** ** The trades reported for a list of fills *)

Definition notify (c : C) (t : Trade) : C :=
  match trade_callback_ with Some f => f t c | None => c end.

Definition trade_of (o : Order) (sym : cstring) (now : Timestamp) (tid : TradeID) (f : Spec.Fill)
    : Trade :=
  Trade_make now tid
    (if is_buy (side o) then id o else Spec.f_id f)
    (if is_sell (side o) then id o else Spec.f_id f) sym (Spec.f_qty f) (Spec.f_price f).

Fixpoint trades_of (o : Order) (sym : cstring) (tick : nat) (tid : TradeID) (fs : list Spec.Fill)
    : list Trade :=
  match fs with
  | [] => []
  | f :: fs' => trade_of o sym (steady_clock tick) tid f :: trades_of o sym (S tick) (tid +₆₄ 1) fs'
  end.

(** What a fill leaves alone. *)
Definition same_order (o o' : Order) : Prop :=
  price o' = price o /\ id o' = id o /\ side o' = side o /\ type o' = type o /\
  quantity o' = quantity o /\ timestamp o' = timestamp o /\ symbol o' = symbol o /\
  client_id o' = client_id o.

Lemma same_order_refl o : same_order o o.
Proof. done. Qed.

Lemma same_order_trans o1 o2 o3 : same_order o1 o2 -> same_order o2 o3 -> same_order o1 o3.
Proof. unfold same_order. intuition congruence. Qed.

Lemma same_order_fill x o : same_order o (fill_upd x o).
Proof. done. Qed.

Lemma trades_of_same o o' sym tick tid fs :
  same_order o o' -> trades_of o' sym tick tid fs = trades_of o sym tick tid fs.
Proof.
  intros (_ & Hid & Hside & _). revert tick tid.
  induction fs as [|f fs IH]; intros; simpl; [done|]. unfold trade_of. by rewrite Hid Hside IH.
Qed.

Lemma fill_upd_remaining x o :
  0 <= x <= remaining_quantity o -> remaining_quantity o < 2 ^ 64 ->
  remaining_quantity (fill_upd x o) = remaining_quantity o - x.
Proof. intros. simpl. apply wrap_small. u_lia. Qed.

(** ** One trade *)

Lemma execute_trade_spec a q o oq x px e :
  a <> q -> pool_ok (pool e) -> deref (pool e) a = Some o -> deref (pool e) q = Some oq ->
  exists p',
    execute_trade steady_clock trade_callback_ a q x px e =
      Some (mkenv (set_next_trade_id (next_trade_id_ (book e) +₆₄ 1) (book e)) p'
             (notify (ctx e)
               (trade_of o (symbol_ (book e)) (steady_clock (ticks e)) (next_trade_id_ (book e))
                 (Spec.mkFill (id oq) px x)))
             (S (ticks e))) /\
    pool_ok p' /\ deref p' a = Some (fill_upd x o) /\ deref p' q = Some (fill_upd x oq) /\
    (forall i, i <> a -> i <> q -> deref p' i = deref (pool e) i) /\
    (forall i, owned p' i <-> owned (pool e) i).
Proof.
  intros Hne Hok Ha Hq. unfold execute_trade.
  rewrite (modify_some _ _ _ _ Ha) /=.
  set (p1 := store a _ (pool e)).
  assert (deref p1 q = Some oq) as Hq1 by (unfold p1; by rewrite deref_store_ne).
  assert (is_Some (deref (pool e) a)) as Hsa by eauto.
  assert (is_Some (deref p1 q)) as Hsq by eauto.
  rewrite (modify_some _ _ _ _ Hq1) /=. set (p2 := store q _ p1).
  assert (deref p2 a = Some (set_remaining (remaining_quantity o -₆₄ x) o)) as Ha2.
  { unfold p2. rewrite deref_store_ne; [done|]. unfold p1. by apply deref_store_eq. }
  rewrite (modify_some _ _ _ _ Ha2) /=. set (p3 := store a _ p2).
  assert (deref p3 q = Some (set_remaining (remaining_quantity oq -₆₄ x) oq)) as Hq3.
  { unfold p3. rewrite deref_store_ne; [done|]. unfold p2. by apply deref_store_eq. }
  rewrite (modify_some _ _ _ _ Hq3) /=. set (p4 := store q _ p3).
  assert (deref p4 a = Some (fill_upd x o)) as Ha4.
  { unfold p4. rewrite deref_store_ne; [done|]. unfold p3. apply deref_store_eq. eauto. }
  assert (deref p4 q = Some (fill_upd x oq)) as Hq4.
  { unfold p4. apply deref_store_eq. eauto. }
  rewrite Ha4 /= Hq4 /=. exists p4. split; [done|]. split_and!; [|done|done| |].
  - unfold p4, p3, p2, p1. by do 4 apply pool_ok_store.
  - intros i Hia Hiq. unfold p4, p3, p2, p1. by rewrite !deref_store_ne.
  - intros i. unfold p4, p3, p2, p1. by rewrite !owned_store.
Qed.

(** ** One level after one fill *)

Lemma level_sum_cons p q rest oq :
  deref p q = Some oq ->
  sumZ (rem p <$> q :: rest) = remaining_quantity oq + sumZ (rem p <$> rest).
Proof. intros E. cbn. unfold rem at 1. by rewrite E. Qed.

Lemma level_ok_popped p p' d level q rest oq l' :
  level_ok p d level -> FlatLevel.live level = q :: rest -> deref p q = Some oq ->
  rest <> [] -> agree p p' rest ->
  FlatLevel.wf l' -> FlatLevel.live l' = rest -> FlatLevel.price l' = FlatLevel.price level ->
  FlatLevel.total_quantity l' = FlatLevel.total_quantity level -₆₄ remaining_quantity oq ->
  level_ok p' d l'.
Proof.
  intros [Hwf _ Ht Ho] Hl Hq Hne Ha Hwf' Hl' Hp Ht'. split; [done|by rewrite Hl'| |].
  - rewrite Ht' Ht Hl Hl' (level_sum_cons _ _ _ _ Hq) wrap_sub_l (sum_rem_agree p p'); [done|].
    f_equal. lia.
  - rewrite Hl' Hp. rewrite Hl in Ho. apply Forall_cons in Ho as [_ Ho].
    apply Forall_forall. intros i Hi. rewrite Forall_forall in Ho.
    eapply order_at_agree; [exact Hi|done|by apply Ho].
Qed.

Lemma level_ok_reduced p p' d level q rest oq x :
  level_ok p d level -> FlatLevel.live level = q :: rest -> deref p q = Some oq ->
  q ∉ rest -> agree p p' rest -> (owned p q -> owned p' q) ->
  deref p' q = Some (fill_upd x oq) -> 0 <= x < remaining_quantity oq ->
  level_ok p' d (FlatLevel.reduce_quantity x level).
Proof.
  intros [Hwf Hne Ht Ho] Hl Hq Hni Ha Hown Hq' Hx. rewrite Hl in Ho.
  apply Forall_cons in Ho as [(Hoq & oq' & E & Hpx & Hside & Hrem) Ho]. simplify_eq.
  assert (remaining_quantity (fill_upd x oq) = remaining_quantity oq - x) as Hr
    by (apply fill_upd_remaining; lia).
  split; [done|done| |].
  - change (FlatLevel.live (FlatLevel.reduce_quantity x level)) with (FlatLevel.live level).
    simpl FlatLevel.total_quantity. rewrite Ht Hl (level_sum_cons _ _ _ _ Hq) (level_sum_cons _ _ _ _ Hq') Hr.
    rewrite wrap_sub_l (sum_rem_agree p p'); [done|]. f_equal. lia.
  - change (FlatLevel.live (FlatLevel.reduce_quantity x level)) with (FlatLevel.live level).
    rewrite Hl. constructor.
    + split; [by apply Hown|]. exists (fill_upd x oq). split_and!; [done..| |]; rewrite Hr; lia.
    + apply Forall_forall. intros i Hi. rewrite Forall_forall in Ho.
      eapply order_at_agree; [exact Hi|done|by apply Ho].
Qed.

(** ** One round of the sweep *)

(** What a round does not touch. *)
Record round_frame (d : bool) (a : nat) (touched : list nat) e e' : Prop := {
  rf_other : get_side (negb d) (book e') = get_side (negb d) (book e);
  rf_symbol : symbol_ (book e') = symbol_ (book e);
  rf_shutdown : shutdown_requested_ (book e') = shutdown_requested_ (book e);
  rf_bbo : bbo_snapshot_ (book e') = bbo_snapshot_ (book e);
  rf_deref i : i <> a -> i ∉ touched -> deref (pool e') i = deref (pool e) i;
  rf_owned i : i ∉ touched -> owned (pool e') i <-> owned (pool e) i;
  rf_freed i : owned (pool e') i -> owned (pool e) i
}.

(** The side vector after the front level became [level']. *)
Definition close_front (d : bool) (level' : FlatLevel.t) (ls : list FlatLevel.t) : list FlatLevel.t :=
  if FlatLevel.empty level' then ls else level' :: ls.

Lemma close_front_eq d level level' ls :
  FlatPriceBook.sorted d (level :: ls) -> FlatLevel.price level' = FlatLevel.price level ->
  (if FlatLevel.empty level'
   then FlatPriceBook.remove d (FlatLevel.price level') (<[0%nat := level']> (level :: ls))
   else <[0%nat := level']> (level :: ls)) = close_front d level' ls.
Proof.
  intros Hs Hp. unfold close_front. destruct (FlatLevel.empty level'); [|done].
  apply FlatPriceBookFacts.remove_front.
  by apply (FlatPriceBookFacts.sorted_replace d [] level level' ls).
Qed.

Lemma close_front_ptrs d level' ls :
  FlatLevel.wf level' -> ptrs (close_front d level' ls) = FlatLevel.live level' ++ ptrs ls.
Proof.
  intros Hwf. unfold close_front. rewrite FlatLevelFacts.empty_live; [done|].
  case_bool_decide as E; [by rewrite E|done].
Qed.

Lemma close_front_weight d level level' ls :
  length (FlatLevel.orders level') = length (FlatLevel.orders level) ->
  (weight (close_front d level' ls) <= weight (level :: ls))%nat.
Proof. intros Hl. unfold close_front. destruct (FlatLevel.empty level'); simpl; lia. Qed.

Lemma close_front_length d level' ls : (length (close_front d level' ls) <= S (length ls))%nat.
Proof. unfold close_front. destruct (FlatLevel.empty level'); simpl; lia. Qed.

Lemma close_front_side_ok p p' d level level' ls :
  side_ok p d (level :: ls) -> FlatLevel.price level' = FlatLevel.price level ->
  FlatLevel.wf level' -> agree p p' (ptrs ls) ->
  (FlatLevel.live level' <> [] -> level_ok p' d level') ->
  side_ok p' d (close_front d level' ls).
Proof.
  intros (_ & Hs & Hlt)%side_ok_cons Hp Hwf Hag Hlok.
  assert (side_ok p' d ls) as Hs' by by eapply side_ok_agree.
  unfold close_front. rewrite FlatLevelFacts.empty_live; [done|].
  case_bool_decide as E; [done|]. apply side_ok_cons. split_and!; [by apply Hlok|done|].
  eapply Forall_impl; [exact Hlt|]. intros y. unfold FlatPriceBook.lt_level. by rewrite Hp.
Qed.

Lemma close_front_prices d level level' ls x :
  FlatLevel.price level' = FlatLevel.price level -> x ∈ close_front d level' ls ->
  exists x0, x0 ∈ level :: ls /\ FlatLevel.price x = FlatLevel.price x0.
Proof.
  intros Hp. unfold close_front. destruct (FlatLevel.empty level').
  - intros Hx. exists x. split; [by right|done].
  - intros [->|Hx]%elem_of_cons; [exists level; split; [by left|done]|].
    exists x. split; [by right|done].
Qed.

Lemma get_side_set_lookup d m (b : OrderBook.t) : get_side d (set_lookup m b) = get_side d b.
Proof. by destruct d. Qed.
Lemma get_side_set_next d n (b : OrderBook.t) : get_side d (set_next_trade_id n b) = get_side d b.
Proof. by destruct d. Qed.
Lemma symbol_set_side d ls (b : OrderBook.t) : symbol_ (set_side d ls b) = symbol_ b.
Proof. by destruct d. Qed.
Lemma shutdown_set_side d ls (b : OrderBook.t) :
  shutdown_requested_ (set_side d ls b) = shutdown_requested_ b.
Proof. by destruct d. Qed.
Lemma bbo_set_side d ls (b : OrderBook.t) : bbo_snapshot_ (set_side d ls b) = bbo_snapshot_ b.
Proof. by destruct d. Qed.
Lemma lookup_set_side d ls (b : OrderBook.t) : order_lookup_ (set_side d ls b) = order_lookup_ b.
Proof. by destruct d. Qed.
Lemma next_set_side d ls (b : OrderBook.t) : next_trade_id_ (set_side d ls b) = next_trade_id_ b.
Proof. by destruct d. Qed.

(** The pointers of a round: the incoming order and the front are distinct and
    neither appears elsewhere. *)
Lemma round_ptrs d a level ls q rest e :
  inv [a] e -> get_side d (book e) = level :: ls -> FlatLevel.live level = q :: rest ->
  a <> q /\ (q ∉ rest ++ ptrs ls ++ ptrs (get_side (negb d) (book e)) ++ [a]) /\
  NoDup ((rest ++ ptrs ls) ++ ptrs (get_side (negb d) (book e)) ++ [a]).
Proof.
  intros Hinv Hside Hlive. pose proof (inv_nodup_side d _ _ Hinv) as Hnd.
  rewrite Hside ptrs_cons Hlive in Hnd. simpl in Hnd. rewrite -app_assoc in Hnd.
  apply NoDup_cons in Hnd as [Hq Hnd]. rewrite -app_assoc. split_and!; [|done|done].
  intros ->. apply Hq. do 3 (apply elem_of_app; right). left.
Qed.

(** The conclusion shared by the two cases of a round. *)
Definition round_result (d : bool) (a : nat) (o : Order) (level : FlatLevel.t)
    (ls : list FlatLevel.t) (q : nat) (rest : list nat) (oq : Order) e e' : Prop :=
  let x := Z.min (remaining_quantity o) (remaining_quantity oq) in
  let filled := remaining_quantity oq <=? remaining_quantity o in
  trade_with_front steady_clock trade_callback_ d a level e = Some e' /\
  inv [a] e' /\
  ptrs (get_side d (book e')) = (if filled then rest else q :: rest) ++ ptrs ls /\
  (weight (get_side d (book e')) <= weight (level :: ls))%nat /\
  round_frame d a [q] e e' /\
  deref (pool e') a = Some (fill_upd x o) /\
  (if filled then ~ owned (pool e') q else deref (pool e') q = Some (fill_upd x oq)) /\
  ctx e' = notify (ctx e)
    (trade_of o (symbol_ (book e)) (steady_clock (ticks e)) (next_trade_id_ (book e))
      (Spec.mkFill (id oq) (FlatLevel.price level) x)) /\
  ticks e' = S (ticks e) /\ next_trade_id_ (book e') = next_trade_id_ (book e) +₆₄ 1.

Section round.
Variables (d : bool) (a : nat) (o : Order) (level : FlatLevel.t) (ls : list FlatLevel.t).
Variables (q : nat) (rest : list nat) (oq : Order) (e : env P C).
Hypothesis Hinv : inv [a] e.
Hypothesis Ha : deref (pool e) a = Some o.
Hypothesis Hrem : 0 < remaining_quantity o < 2 ^ 64.
Hypothesis Hside : get_side d (book e) = level :: ls.
Hypothesis Hlive : FlatLevel.live level = q :: rest.
Hypothesis Hq : deref (pool e) q = Some oq.
Hypothesis H32 : Z.of_nat (length (FlatLevel.orders level)) < 2 ^ 32.

Lemma round_front : FlatLevel.front level = Some q /\ level_ok (pool e) d level /\
  side_ok (pool e) d (level :: ls) /\ owned (pool e) q /\ 0 < remaining_quantity oq < 2 ^ 64.
Proof using All.
  pose proof (inv_side _ _ Hinv d) as Hs. rewrite Hside in Hs.
  pose proof Hs as (Hl & _ & _)%side_ok_cons.
  pose proof (lo_orders _ _ _ Hl) as Ho. rewrite Hlive in Ho.
  apply Forall_cons in Ho as [(Hown & oq' & E & _ & _ & Hr) _].
  split_and!; try done; [|naive_solver..].
  eapply FlatLevelFacts.front_live; [apply (lo_wf _ _ _ Hl)|done].
Qed.

(** A change of the pool that spares every pointer but [a] and [q]. *)
Lemma round_agree (p' : P) ps :
  (forall i, i <> a -> i <> q -> deref p' i = deref (pool e) i) ->
  (forall i, i <> q -> owned (pool e) i -> owned p' i) ->
  a ∉ ps -> q ∉ ps -> agree (pool e) p' ps.
Proof using All.
  intros Hd Ho Hna Hnq i Hi. split; [apply Hd|apply Ho]; congruence.
Qed.

Lemma round_disjoint :
  a <> q /\ (a ∉ rest) /\ (q ∉ rest) /\ (a ∉ ptrs ls) /\ (q ∉ ptrs ls) /\
  (a ∉ ptrs (get_side (negb d) (book e))) /\ (q ∉ ptrs (get_side (negb d) (book e))).
Proof using All.
  destruct (round_ptrs d a level ls q rest e Hinv Hside Hlive) as (Hne & Hnq & Hnd).
  rewrite -app_assoc in Hnd. rewrite !app_assoc in Hnd.
  apply NoDup_app in Hnd as (_ & Hna & _).
  assert (forall i, i ∈ (rest ++ ptrs ls) ++ ptrs (get_side (negb d) (book e)) -> i <> a) as Hna'.
  { intros i Hi ->. apply (Hna a Hi). left. }
  split_and!; [done|..]; try (intros Hi; apply Hnq; rewrite !elem_of_app; tauto).
  all: intros Hi; eapply Hna'; [|reflexivity]; rewrite !elem_of_app; tauto.
Qed.

Lemma round_prices level' x y :
  FlatLevel.price level' = FlatLevel.price level -> x ∈ close_front d level' ls ->
  y ∈ get_side (negb d) (book e) ->
  FlatPriceBook.before (negb d) (FlatLevel.price x) (FlatLevel.price y) = true.
Proof using All.
  intros Hp Hx Hy. destruct (close_front_prices d level level' ls x Hp Hx) as (x0 & Hx0 & ->).
  apply (inv_uncrossed _ _ Hinv d); [by rewrite Hside|done].
Qed.

Lemma round_filled :
  remaining_quantity oq <= remaining_quantity o ->
  exists e', round_result d a o level ls q rest oq e e'.
Proof using All.
  intros Hle. destruct round_front as (Hf & Hlok & Hsok & Hown & Hrq).
  destruct round_disjoint as (Hne & Har & Hqr & Hal & Hql & Hao & Hqo).
  destruct (execute_trade_spec a q o oq (remaining_quantity oq) (FlatLevel.price level) e
    Hne (inv_pool _ _ Hinv) Ha Hq) as (p1 & Hex & Hok1 & Ha1 & Hq1 & Hd1 & Ho1).
  destruct (FlatLevelFacts.pop_front_live level q rest (remaining_quantity oq) (lo_wf _ _ _ Hlok) H32 Hlive)
    as (level' & Hpop & Hwf' & Hlive' & Hpx' & Htot' & Hlen').
  assert (remaining_quantity oq -₆₄ remaining_quantity oq = 0) as Hz by by rewrite Z.sub_diag.
  set (oq2 := set_status FILLED (fill_upd (remaining_quantity oq) oq)).
  assert (is_Some (deref p1 q)) as Hsq by eauto.
  destruct (deallocate_owned (store q oq2 p1) q) as (p3 & Hde & Hok3 & Hd3 & Ho3).
  { by apply pool_ok_store. } { apply owned_store. by apply Ho1. }
  unfold round_result, trade_with_front. rewrite Z.min_r; [lia|].
  destruct (Z.leb_spec (remaining_quantity oq) (remaining_quantity o)); [|lia].
  rewrite Hf /= Ha /= Hq /= Z.min_r; [lia|]. rewrite Hex /= Hq1 /=. rewrite Hz /=.
  rewrite Hpop /= (modify_some _ _ _ _ Hq1) /= Hde /=.
  rewrite get_side_set_lookup get_side_set_next Hside.
  rewrite (close_front_eq d level level' ls (so_sorted _ _ _ Hsok) Hpx').
  eexists. split; [reflexivity|]. simpl.
  assert (forall i, i <> a -> i <> q -> deref p3 i = deref (pool e) i) as Hd3'.
  { intros i Hia Hiq. rewrite Hd3 deref_store_ne; [done|]. by apply Hd1. }
  assert (forall i, i <> q -> owned (pool e) i -> owned p3 i) as Ho3'.
  { intros i Hiq Hi. apply Ho3. split; [|done]. apply owned_store. by apply Ho1. }
  assert (deref p3 a = Some (fill_upd (remaining_quantity oq) o)) as Ha3.
  { rewrite Hd3 deref_store_ne; done. }
  split_and!.
  - eapply (inv_rebuild d [a] [a] e); simpl;
      [done|apply get_set_side|by rewrite get_set_side_other get_side_set_lookup get_side_set_next| |
       by apply round_agree| | |done|by intros x y; apply round_prices].
    + eapply close_front_side_ok; [exact Hsok|done|done|by apply round_agree|].
      intros Hne'. eapply level_ok_popped; [exact Hlok|done|done| |by apply round_agree|done..].
      by rewrite -Hlive'.
    + rewrite close_front_ptrs; [done|]. rewrite Hlive'. by eapply round_ptrs.
    + rewrite close_front_ptrs; [done|]. rewrite Hlive' lookup_set_side /=.
      pose proof (inv_tracked_side d _ _ Hinv) as Ht.
      rewrite Hside ptrs_cons Hlive in Ht.
      eapply (tracked_ext _ (pool e) p3); [done| |].
      * intros i Hi. destruct (decide (i = a)) as [->|Hia]; [by rewrite Ha3 Ha|].
        rewrite Hd3'; [done| |done]. intros ->. rewrite !elem_of_app in Hi. set_solver.
      * eapply (tracked_delete _ _ _ _ q oq Ht); [left|done|].
        intros i. rewrite !elem_of_app elem_of_cons. set_solver.
  - rewrite get_set_side close_front_ptrs; [done|]. by rewrite Hlive'.
  - rewrite get_set_side. by apply close_front_weight.
  - split; simpl;
      [by rewrite get_set_side_other get_side_set_lookup get_side_set_next
      |by rewrite symbol_set_side|by rewrite shutdown_set_side|by rewrite bbo_set_side|..].
    + intros i Hia Hiq. apply Hd3'; [done|]. set_solver.
    + intros i Hiq. rewrite Ho3 owned_store Ho1. set_solver.
    + intros i Hi. apply Ho3 in Hi as [Hi _]. by apply Ho1, (owned_store p1 q oq2).
  - done.
  - intros Ho. by apply Ho3 in Ho as [_ ?].
  - done.
  - done.
  - by rewrite next_set_side.
Qed.

Lemma round_partial :
  remaining_quantity o < remaining_quantity oq ->
  exists e', round_result d a o level ls q rest oq e e'.
Proof using All.
  intros Hlt. destruct round_front as (Hf & Hlok & Hsok & Hown & Hrq).
  destruct round_disjoint as (Hne & Har & Hqr & Hal & Hql & Hao & Hqo).
  destruct (execute_trade_spec a q o oq (remaining_quantity o) (FlatLevel.price level) e
    Hne (inv_pool _ _ Hinv) Ha Hq) as (p1 & Hex & Hok1 & Ha1 & Hq1 & Hd1 & Ho1).
  assert (remaining_quantity oq -₆₄ remaining_quantity o <> 0) as Hz.
  { rewrite wrap_small; u_lia. }
  set (level' := FlatLevel.reduce_quantity (remaining_quantity o) level).
  assert (FlatLevel.wf level') as Hwf' by apply (lo_wf _ _ _ Hlok).
  unfold round_result, trade_with_front. rewrite Z.min_l; [lia|].
  destruct (Z.leb_spec (remaining_quantity oq) (remaining_quantity o)); [lia|].
  rewrite Hf /= Ha /= Hq /= Z.min_l; [lia|]. rewrite Hex /= Hq1 /=.
  destruct (Z.eqb_spec (remaining_quantity oq -₆₄ remaining_quantity o) 0); [done|]. simpl.
  rewrite get_side_set_next Hside. fold level'.
  rewrite (close_front_eq d level level' ls (so_sorted _ _ _ Hsok) eq_refl).
  eexists. split; [reflexivity|]. simpl.
  assert (forall i, i <> q -> owned (pool e) i -> owned p1 i) as Ho1' by (intros i _; apply Ho1).
  split_and!.
  - eapply (inv_rebuild d [a] [a] e); simpl;
      [done|apply get_set_side|by rewrite get_set_side_other get_side_set_next| |
       by apply round_agree| | |done|by intros x y; apply round_prices].
    + eapply close_front_side_ok; [exact Hsok|done|done|by apply round_agree|].
      intros _. eapply level_ok_reduced; [exact Hlok|done|done|done|by apply round_agree| |done|lia].
      apply Ho1.
    + rewrite close_front_ptrs; [done|]. unfold level'. simpl.
      change (FlatLevel.live (FlatLevel.reduce_quantity _ level)) with (FlatLevel.live level).
      pose proof (inv_nodup_side d _ _ Hinv) as Hnd. by rewrite Hside ptrs_cons in Hnd.
    + rewrite close_front_ptrs; [done|]. rewrite lookup_set_side /=.
      change (FlatLevel.live level') with (FlatLevel.live level).
      pose proof (inv_tracked_side d _ _ Hinv) as Ht. rewrite Hside ptrs_cons in Ht.
      eapply (tracked_ext _ (pool e) p1); [done| |exact Ht].
      intros i Hi. destruct (decide (i = a)) as [->|Hia]; [by rewrite Ha1 Ha|].
      destruct (decide (i = q)) as [->|Hiq]; [by rewrite Hq1 Hq|]. by rewrite Hd1.
  - rewrite get_set_side close_front_ptrs; [done|].
    change (FlatLevel.live level') with (FlatLevel.live level). by rewrite Hlive.
  - rewrite get_set_side. by apply (close_front_weight d level level' ls).
  - split; simpl;
      [by rewrite get_set_side_other get_side_set_next
      |by rewrite symbol_set_side|by rewrite shutdown_set_side|by rewrite bbo_set_side|..].
    + intros i Hia Hiq. apply Hd1; [done|]. set_solver.
    + intros i _. apply Ho1.
    + intros i. apply Ho1.
  - done.
  - done.
  - done.
  - done.
  - by rewrite next_set_side.
Qed.

End round.

Lemma round_spec d a o level ls q rest oq e :
  inv [a] e -> deref (pool e) a = Some o -> 0 < remaining_quantity o < 2 ^ 64 ->
  get_side d (book e) = level :: ls -> FlatLevel.live level = q :: rest ->
  deref (pool e) q = Some oq -> Z.of_nat (length (FlatLevel.orders level)) < 2 ^ 32 ->
  exists e', round_result d a o level ls q rest oq e e'.
Proof.
  intros. destruct (Z.le_gt_cases (remaining_quantity oq) (remaining_quantity o)).
  - by apply round_filled.
  - by apply round_partial.
Qed.

(** ** The whole sweep *)

Record sweep_result (d : bool) (a : nat) (o : Order) (fs : list Spec.Fill) (q' : Quantity)
    (out : list Spec.Resting) e e' : Prop := {
  sr_inv : inv [a] e';
  sr_order : exists o', deref (pool e') a = Some o' /\ same_order o o' /\ remaining_quantity o' = q';
  sr_abs : abs_side (pool e') (get_side d (book e')) = out;
  sr_weight : (weight (get_side d (book e')) <= weight (get_side d (book e)))%nat;
  sr_sub i : i ∈ ptrs (get_side d (book e')) -> i ∈ ptrs (get_side d (book e));
  sr_frame : round_frame d a (ptrs (get_side d (book e))) e e';
  sr_freed i : i ∈ ptrs (get_side d (book e)) ->
    i ∈ ptrs (get_side d (book e')) \/ ~ owned (pool e') i;
  sr_ctx : ctx e' = foldl notify (ctx e)
    (trades_of o (symbol_ (book e)) (ticks e) (next_trade_id_ (book e)) fs);
  sr_ticks : ticks e' = (ticks e + length fs)%nat;
  sr_next : wrap 64 (next_trade_id_ (book e')) =
    wrap 64 (next_trade_id_ (book e) + Z.of_nat (length fs))
}.

Lemma round_frame_refl d a ps e : round_frame d a ps e e.
Proof. by split. Qed.

Lemma round_frame_trans d a ps qs e1 e2 e3 :
  round_frame d a ps e1 e2 -> round_frame d a qs e2 e3 -> (forall i, i ∈ qs -> i ∈ ps) ->
  round_frame d a ps e1 e3.
Proof.
  intros [] [] Hsub. split; try (etrans; eassumption).
  - intros i Hia Hi. rewrite rf_deref1; [done|by intros ?%Hsub|by apply rf_deref0].
  - intros i Hi. rewrite rf_owned1; [by intros ?%Hsub|by apply rf_owned0].
  - auto.
Qed.

Lemma round_frame_mono d a ps qs e e' :
  (forall i, i ∈ ps -> i ∈ qs) -> round_frame d a ps e e' -> round_frame d a qs e e'.
Proof.
  intros Hsub []. split; try done.
  - intros i Hia Hi. apply rf_deref0; [done|]. by intros ?%Hsub.
  - intros i Hi. apply rf_owned0. by intros ?%Hsub.
Qed.

(** The sweep stops at once: nothing left, nothing to match, or no crossing. *)
Lemma sweep_stop d a o e out :
  inv [a] e -> deref (pool e) a = Some o ->
  out = abs_side (pool e) (get_side d (book e)) ->
  sweep_result d a o [] (remaining_quantity o) out e e.
Proof.
  intros Hinv Ha ->. split; try done; first [by exists o|by left|simpl; lia|by rewrite Z.add_0_r].
Qed.

Lemma side_nonempty_live p d level ls :
  side_ok p d (level :: ls) -> exists q rest, FlatLevel.live level = q :: rest.
Proof.
  intros (Hl & _)%side_ok_cons. pose proof (lo_live _ _ _ Hl).
  destruct (FlatLevel.live level) as [|q rest]; [done|eauto].
Qed.

Lemma front_order p d level ls q rest :
  side_ok p d (level :: ls) -> FlatLevel.live level = q :: rest ->
  exists oq, deref p q = Some oq /\ price oq = FlatLevel.price level /\
    0 < remaining_quantity oq < 2 ^ 64 /\
    abs_side p (level :: ls) = resting_of oq :: abs_ptrs p (rest ++ ptrs ls).
Proof.
  intros (Hl & _)%side_ok_cons Hlive. pose proof (lo_orders _ _ _ Hl) as Ho.
  rewrite Hlive in Ho. apply Forall_cons in Ho as [(_ & oq & E & Hp & _ & Hr) _].
  exists oq. split_and!; try done; try lia. unfold abs_side. rewrite ptrs_cons Hlive.
  by rewrite -app_comm_cons (abs_ptrs_cons _ _ _ _ E).
Qed.

(** A round followed by a sweep of the rest is a sweep. *)
Lemma sweep_result_cons d a o level ls q rest oq e e1 e2 fs q' out :
  get_side d (book e) = level :: ls -> FlatLevel.live level = q :: rest ->
  round_result d a o level ls q rest oq e e1 ->
  let x := Z.min (remaining_quantity o) (remaining_quantity oq) in
  sweep_result d a (fill_upd x o) fs q' out e1 e2 ->
  sweep_result d a o (Spec.mkFill (id oq) (FlatLevel.price level) x :: fs) q' out e e2.
Proof.
  intros Hside Hlive (_ & Hinv1 & Hp1 & Hsm1 & Hf1 & Ha1 & Hq1 & Hc1 & Ht1 & Hn1) x
    [Hinv2 (o' & Ho' & Hso & Hr) Habs Hsm Hsub2 Hfr Hfree Hc Ht Hn].
  assert (forall i, i ∈ ptrs (get_side d (book e1)) -> i ∈ ptrs (get_side d (book e))) as Hsub.
  { intros i. rewrite Hp1 Hside ptrs_cons Hlive. destruct (_ <=? _); [|done].
    intros Hi. by right. }
  split; try done.
  - exists o'. split_and!; [done| |done]. eapply same_order_trans; [apply same_order_fill|exact Hso].
  - rewrite Hside. lia.
  - intros i Hi. by apply Hsub, Hsub2.
  - eapply round_frame_trans; [|exact Hfr|exact Hsub]. eapply round_frame_mono, Hf1.
    intros i ->%list_elem_of_singleton. rewrite Hside ptrs_cons Hlive. left.
  - intros i Hi. destruct (decide (i ∈ ptrs (get_side d (book e1)))) as [H1|H1]; [by apply Hfree|].
    right. intros Ho. apply (rf_freed _ _ _ _ _ Hfr) in Ho. revert Ho.
    rewrite Hside ptrs_cons Hlive in Hi. rewrite Hp1 in H1. revert Hq1 H1.
    destruct (_ <=? _); intros Hq1 H1; [|done].
    apply elem_of_cons in Hi as [->|Hi]; done.
  - rewrite Hc Hc1 Ht1 Hn1 (rf_symbol _ _ _ _ _ Hf1). simpl. f_equal.
    apply trades_of_same, same_order_fill.
  - rewrite Ht Ht1. simpl. lia.
  - rewrite Hn Hn1. autorewrite with wraps. f_equal. simpl. lia.
Qed.

(** After a round, the rest of the side reads as before. *)
Lemma round_rest d a o level ls q rest oq e e1 :
  inv [a] e -> get_side d (book e) = level :: ls -> FlatLevel.live level = q :: rest ->
  round_result d a o level ls q rest oq e e1 ->
  abs_ptrs (pool e1) (rest ++ ptrs ls) = abs_ptrs (pool e) (rest ++ ptrs ls).
Proof.
  intros Hinv Hside Hlive (_ & _ & _ & _ & Hf & _).
  destruct (round_ptrs d a level ls q rest e Hinv Hside Hlive) as (_ & Hnq & Hnd).
  apply NoDup_app in Hnd as (_ & Hna & _).
  assert (forall i, i ∈ rest ++ ptrs ls -> i <> a /\ i ∉ [q]) as Hi.
  { intros i Hi. split.
    - intros ->. apply (Hna a Hi). apply elem_of_app. right. left.
    - intros ->%list_elem_of_singleton. apply Hnq. rewrite app_assoc. apply elem_of_app. by left. }
  clear Hnq Hna. induction (rest ++ ptrs ls) as [|i ps IH]; [done|]. unfold abs_ptrs in *. cbn.
  destruct (Hi i ltac:(left)) as [H1 H2]. rewrite (rf_deref _ _ _ _ _ Hf i H1 H2). rewrite IH; [|done].
  intros j Hj. apply Hi. by right.
Qed.

Lemma sweep_spec crosses cr d a fuel o e fs q' out :
  inv [a] e -> deref (pool e) a = Some o -> 0 <= remaining_quantity o < 2 ^ 64 ->
  small (get_side d (book e)) -> (length (ptrs (get_side d (book e))) < fuel)%nat ->
  (forall o' px, same_order o o' -> crosses o' px = cr px) ->
  Spec.match_against cr (remaining_quantity o) (abs_side (pool e) (get_side d (book e))) = (fs, q', out) ->
  exists e', sweep steady_clock trade_callback_ fuel crosses d a e = Some e' /\
    sweep_result d a o fs q' out e e'.
Proof.
  revert o e fs q' out. induction fuel as [|fuel IH]; intros o e fs q' out Hinv Ha Hr Hsm Hfuel Hcr Hm;
    [lia|].
  simpl. rewrite Ha /=. pose proof (inv_side _ _ Hinv d) as Hs.
  destruct (get_side d (book e)) as [|level ls] eqn:Hside.
  { simpl in Hm. simplify_eq. destruct (_ =? _);
      (eexists; split; [done|]; apply sweep_stop; rewrite ?Hside; done). }
  destruct (side_nonempty_live _ _ _ _ Hs) as (q & rest & Hlive).
  destruct (front_order _ _ _ _ _ _ Hs Hlive) as (oq & Hq & Hpx & Hrq & Habs).
  rewrite Habs in Hm. cbn [Spec.match_against Spec.r_price Spec.r_qty Spec.r_id resting_of] in Hm.
  rewrite Hpx in Hm. rewrite (Hcr o (FlatLevel.price level) (same_order_refl o)).
  destruct (Z.eqb_spec (remaining_quantity o) 0) as [Hz|Hnz].
  { simplify_eq. eexists. split; [done|]. by apply sweep_stop; rewrite ?Hside. }
  destruct (cr (FlatLevel.price level)) eqn:Ec; simpl;
    [|simplify_eq; eexists; split; [done|]; by apply sweep_stop; rewrite ?Hside].
  pose proof Hs as (Hlok & _)%side_ok_cons.
  rewrite FlatLevelFacts.empty_live; [apply (lo_wf _ _ _ Hlok)|].
  rewrite bool_decide_eq_false_2; [by rewrite Hlive|].
  assert (Z.of_nat (length (FlatLevel.orders level)) < 2 ^ 32) as H32
    by (unfold small in Hsm; simpl in Hsm; lia).
  destruct (round_spec d a o level ls q rest oq e) as [e1 He1]; [done|done|lia|done|done|done|done|].
  pose proof He1 as (Htr & Hinv1 & Hp1 & Hsm1 & Hf1 & Ha1 & Hq1 & _). rewrite Htr /=.
  pose proof (round_rest _ _ _ _ _ _ _ _ _ _ Hinv Hside Hlive He1) as Hrest.
  rewrite ptrs_cons Hlive /= in Hfuel.
  revert Hm Hp1 Hq1 Ha1. destruct (Z.leb_spec (remaining_quantity oq) (remaining_quantity o)) as [Hle|Hlt];
    intros Hm Hp1 Hq1 Ha1.
  - rewrite Z.min_r in Ha1; [lia|].
    assert (remaining_quantity (fill_upd (remaining_quantity oq) o)
      = remaining_quantity o - remaining_quantity oq) as Hr1 by (apply fill_upd_remaining; lia).
    destruct (Spec.match_against cr _ _) as [[fs0 q0] out0] eqn:E. simplify_eq.
    destruct (IH (fill_upd (remaining_quantity oq) o) e1 fs0 q' out) as (e2 & Hsw & Hres).
    + done. + done. + rewrite Hr1. lia. + unfold small in *. lia. + rewrite Hp1. lia.
    + intros o' px Hso. apply Hcr. eapply same_order_trans; [apply same_order_fill|exact Hso].
    + unfold abs_side. by rewrite Hr1 Hp1 Hrest.
    + exists e2. split; [done|].
      pose proof (sweep_result_cons _ _ _ _ _ _ _ _ _ _ e2 fs0 q' out Hside Hlive He1) as Hc.
      simpl in Hc. rewrite Z.min_r in Hc; [lia|]. by apply Hc.
  - simplify_eq. rewrite Z.min_l in Ha1; [lia|]. rewrite Z.min_l in Hq1; [lia|].
    assert (remaining_quantity (fill_upd (remaining_quantity o) o) = 0) as Hr1
      by (rewrite fill_upd_remaining; lia).
    exists e1. split.
    + destruct fuel as [|fuel]; [lia|]. cbn [sweep]. rewrite Ha1.
      cbn [mbind option_bind]. by rewrite Hr1.
    + pose proof (sweep_result_cons _ _ _ _ _ _ _ _ _ _ e1 [] 0
        (Spec.mkResting (id oq) (price oq) (remaining_quantity oq - remaining_quantity o)
           :: abs_ptrs (pool e) (rest ++ ptrs ls)) Hside Hlive He1) as Hc.
      simpl in Hc. rewrite Z.min_l in Hc; [lia|]. rewrite Hpx in Hc. apply Hc. clear Hc.
      rewrite -Hr1. apply sweep_stop; [done|done|].
      unfold abs_side. rewrite Hp1 -app_comm_cons (abs_ptrs_cons _ _ _ _ Hq1) Hrest. f_equal.
      unfold resting_of. rewrite fill_upd_remaining; [lia..|]. by rewrite -Hpx.
Qed.

End matching.
