(* ===== verification/OrderBookAdd.v ===== *)
(** * Resting and cancelling orders

    [add_to_book] places the remainder of an order behind its equals,
    [remove_from_book] takes an order out of its level; both are related to the
    abstract book, and so are [add_order] and [cancel_order] built on them. *)

From S2P Require Import Prelude.
From S2P Require Import Types.
From S2P Require Import ErrorHandling.
From S2P Require Import OrderPool.
From S2P Require Import PriceLevels.
From S2P Require Import OrderBook.
From S2P Require Import OrderBookSpec.
From S2P Require Import OrderBookInv.
From S2P Require Import OrderBookMatch.
Import OrderBook.

(** ** Finding or creating a level *)

Lemma find_or_insert_spec d p ls :
  FlatPriceBook.sorted d ls ->
  exists l1 lv l2,
    FlatPriceBook.find_or_insert d p ls = (length l1, l1 ++ lv :: l2) /\
    FlatLevel.price lv = p /\ FlatPriceBook.sorted d (l1 ++ lv :: l2) /\
    (ls = l1 ++ lv :: l2 \/ (lv = FlatLevel.make p /\ ls = l1 ++ l2)).
Proof.
  intros Hs. destruct (FlatPriceBookFacts.sorted_split d p ls Hs) as (l1 & l2 & -> & Hlb & H1 & H2).
  unfold FlatPriceBook.find_or_insert. rewrite Hlb.
  apply FlatPriceBookFacts.sorted_app in Hs as (Hs1 & Hs2 & Hs12).
  assert (FlatPriceBook.find d p (l1 ++ l2) = None ->
    Forall (fun b => FlatPriceBook.before d p (FlatLevel.price b) = true) l2 ->
    exists l1' lv l2', (match FlatPriceBook.find d p (l1 ++ l2) with
      | Some _ => (length l1, l1 ++ l2)
      | None => (length l1, vec_insert (length l1) (FlatLevel.make p) (l1 ++ l2)) end)
      = (length l1', l1' ++ lv :: l2') /\ FlatLevel.price lv = p /\
      FlatPriceBook.sorted d (l1' ++ lv :: l2') /\
      (l1 ++ l2 = l1' ++ lv :: l2' \/ (lv = FlatLevel.make p /\ l1 ++ l2 = l1' ++ l2'))) as Hnew.
  { intros -> Hb. exists l1, (FlatLevel.make p), l2. unfold vec_insert.
    rewrite take_app_length drop_app_length. split_and!; [done|done| |by right].
    apply FlatPriceBookFacts.sorted_app. split_and!; [done| |].
    - apply FlatPriceBookFacts.sorted_cons. split; [done|]. exact Hb.
    - intros a b Ha [->|Hb']%elem_of_cons; [|by apply Hs12].
      rewrite Forall_forall in H1. by apply H1. }
  destruct l2 as [|b l2]; [apply Hnew; done|].
  destruct H2 as [[Hpb Hf]|[Hbf Hf]].
  - rewrite Hf. exists l1, b, l2. split_and!; [done|done| |by left].
    apply FlatPriceBookFacts.sorted_app. done.
  - apply Hnew; [done|]. constructor; [done|].
    apply FlatPriceBookFacts.sorted_cons in Hs2 as [_ Hlt].
    eapply Forall_impl; [exact Hlt|]. intros y. unfold FlatPriceBook.lt_level.
    by apply FlatPriceBookFacts.before_trans.
Qed.

Lemma place_app d r l1 l2 :
  Forall (fun x => FlatPriceBook.before d (Spec.r_price r) (Spec.r_price x) = false) l1 ->
  (forall x, head l2 = Some x -> FlatPriceBook.before d (Spec.r_price r) (Spec.r_price x) = true) ->
  Spec.place d r (l1 ++ l2) = l1 ++ r :: l2.
Proof.
  intros H1 H2. induction H1 as [|x l1 Hx _ IH]; simpl.
  - destruct l2 as [|x l2]; simpl; [done|]. by rewrite H2.
  - by rewrite Hx IH.
Qed.

Section add.
Context {P C : Type} `{!OrderPool P}.
Implicit Types p : P.
Implicit Types e : env P C.

Lemma abs_side_app p l1 l2 : abs_side p (l1 ++ l2) = abs_side p l1 ++ abs_side p l2.
Proof. unfold abs_side. by rewrite ptrs_app abs_ptrs_app. Qed.

(** A resting order has the price of its level. *)
Lemma abs_ptrs_elem p r ps :
  r ∈ abs_ptrs p ps -> exists i o, i ∈ ps /\ deref p i = Some o /\ r = resting_of o.
Proof.
  unfold abs_ptrs. intros (i & Hi & Hr)%list_elem_of_omap.
  apply fmap_Some in Hr as (o & Ho & ->). eauto.
Qed.

Lemma abs_live_price p d px ps r :
  Forall (order_at p d px) ps -> r ∈ abs_ptrs p ps -> Spec.r_price r = px.
Proof.
  intros Hf (i & o & Hi & Ho & ->)%abs_ptrs_elem. rewrite Forall_forall in Hf.
  destruct (Hf i Hi) as (_ & o' & Ho' & <- & _). simpl. congruence.
Qed.

Lemma abs_side_price p d ls r :
  Forall (level_ok p d) ls -> r ∈ abs_side p ls -> exists l, l ∈ ls /\ Spec.r_price r = FlatLevel.price l.
Proof.
  intros Hf (i & o & Hi & Ho & ->)%abs_ptrs_elem. apply elem_of_ptrs in Hi as (l & Hl & Hi).
  exists l. split; [done|]. rewrite Forall_forall in Hf. pose proof (lo_orders _ _ _ (Hf l Hl)) as Hlo.
  rewrite Forall_forall in Hlo. destruct (Hlo i Hi) as (_ & o' & Ho' & <- & _). simpl. congruence.
Qed.

(** ** add_to_book *)

(** The level an order is appended to, possibly fresh. *)
Lemma level_ok_pushed p p' d lv a o :
  FlatLevel.wf lv -> FlatLevel.total_quantity lv = wrap 64 (sumZ (rem p <$> FlatLevel.live lv)) ->
  Forall (order_at p d (FlatLevel.price lv)) (FlatLevel.live lv) ->
  agree p p' (FlatLevel.live lv) -> owned p' a -> deref p' a = Some o ->
  price o = FlatLevel.price lv -> is_buy (side o) = d -> 0 < remaining_quantity o < 2 ^ 64 ->
  level_ok p' d (FlatLevel.push_back a (remaining_quantity o) lv).
Proof.
  intros Hwf Ht Ho Ha Hown Hd Hp Hs Hr.
  destruct (FlatLevelFacts.push_back_live lv a (remaining_quantity o) Hwf) as [Hwf' Hlive'].
  split; [done|rewrite Hlive'; by destruct (FlatLevel.live lv)| |].
  - rewrite Hlive' fmap_app sumZ_app (sum_rem_agree p p'); [done|]. simpl. rewrite Ht.
    assert (rem p' a = remaining_quantity o) as -> by (unfold rem; by rewrite Hd).
    autorewrite with wraps. f_equal. lia.
  - rewrite Hlive'. apply Forall_app. split.
    + apply Forall_forall. intros i Hi. rewrite Forall_forall in Ho.
      eapply order_at_agree; [exact Hi|done|by apply Ho].
    + constructor; [|done]. split; [done|]. exists o. done.
Qed.

Lemma level_pre p d (px : Price) l1 lv l2 ls :
  side_ok p d ls -> (ls = l1 ++ lv :: l2 \/ (lv = FlatLevel.make px /\ ls = l1 ++ l2)) ->
  FlatLevel.wf lv /\ FlatLevel.total_quantity lv = wrap 64 (sumZ (rem p <$> FlatLevel.live lv)) /\
  Forall (order_at p d (FlatLevel.price lv)) (FlatLevel.live lv) /\
  Forall (level_ok p d) l1 /\ Forall (level_ok p d) l2 /\
  ptrs ls = ptrs l1 ++ FlatLevel.live lv ++ ptrs l2.
Proof.
  intros [_ Hl] [->|[-> ->]].
  - apply Forall_app in Hl as [Hl1 [[Hwf _ Ht Ho] Hl2]%Forall_cons].
    split_and!; try done. by rewrite ptrs_app ptrs_cons.
  - apply Forall_app in Hl as [Hl1 Hl2].
    split_and!; try done. by rewrite ptrs_app.
Qed.

Section append.
Variables (a : nat) (o : Order) (e : env P C) (d : bool).
Variables (l1 l2 : list FlatLevel.t) (lv : FlatLevel.t).
Hypothesis Hinv : inv [a] e.
Hypothesis Ha : deref (pool e) a = Some o.
Hypothesis Hown : owned (pool e) a.
Hypothesis Hr : 0 < remaining_quantity o < 2 ^ 64.
Hypothesis Hd : is_buy (side o) = d.
Hypothesis Hunc : forall x, x ∈ get_side (negb d) (book e) ->
  FlatPriceBook.before d (FlatLevel.price x) (price o) = true.
Hypothesis Hpx : FlatLevel.price lv = price o.
Hypothesis Hsrt : FlatPriceBook.sorted d (l1 ++ lv :: l2).
Hypothesis Hls : get_side d (book e) = l1 ++ lv :: l2 \/
  (lv = FlatLevel.make (price o) /\ get_side d (book e) = l1 ++ l2).

Let lv' := FlatLevel.push_back a (remaining_quantity o) lv.
Let p' := store a (set_status ACCEPTED o) (pool e).
Let e' := with_pool p' (with_book (set_side d (l1 ++ lv' :: l2) (book e)) e).

Lemma append_fresh i :
  i ∈ ptrs l1 ++ FlatLevel.live lv ++ ptrs l2 \/ i ∈ ptrs (get_side (negb d) (book e)) -> i <> a.
Proof using Hinv Ha Hown Hr Hd Hunc Hpx Hsrt Hls.
  destruct (level_pre _ _ _ _ _ _ _ (inv_side _ _ Hinv d) Hls) as (_ & _ & _ & _ & _ & Hptrs).
  pose proof (inv_nodup_side d _ _ Hinv) as Hnd. rewrite Hptrs app_assoc in Hnd.
  intros Hi ->. apply NoDup_app in Hnd as (_ & Hna & _).
  apply (Hna a); [|left]. rewrite elem_of_app. tauto.
Qed.

Lemma append_agree ps : (forall i, i ∈ ps -> i <> a) -> agree (pool e) p' ps.
Proof using Hinv Ha Hown Hr Hd Hunc Hpx Hsrt Hls.
  intros Hps i Hi. unfold p'. rewrite deref_store_ne; [by apply not_eq_sym, Hps|].
  by rewrite owned_store.
Qed.

Lemma append_levels_agree ls :
  (forall i, i ∈ ptrs ls -> i ∈ ptrs l1 ++ FlatLevel.live lv ++ ptrs l2) ->
  Forall (level_ok (pool e) d) ls -> Forall (level_ok p' d) ls.
Proof using Hinv Ha Hown Hr Hd Hunc Hpx Hsrt Hls.
  intros Hin Hl. apply Forall_forall. intros l Hel. rewrite Forall_forall in Hl.
  eapply level_ok_agree, Hl, Hel. apply append_agree. intros i Hi. apply append_fresh. left.
  apply Hin, elem_of_ptrs. eauto.
Qed.

Lemma append_side_ok : side_ok p' d (l1 ++ lv' :: l2).
Proof using Hinv Ha Hown Hr Hd Hunc Hpx Hsrt Hls.
  destruct (level_pre _ _ _ _ _ _ _ (inv_side _ _ Hinv d) Hls) as (Hwf & Ht & Ho & Hl1 & Hl2 & Hptrs).
  split; [by eapply FlatPriceBookFacts.sorted_replace; [|exact Hsrt]|].
  apply Forall_app. split; [|constructor].
  - apply append_levels_agree; [|done]. intros i. rewrite !elem_of_app. tauto.
  - eapply (level_ok_pushed (pool e) p' d lv a (set_status ACCEPTED o)); try done.
    + apply append_agree. intros i Hi. apply append_fresh. left. rewrite !elem_of_app. tauto.
    + unfold p'. by apply owned_store.
    + apply deref_store_eq. eauto.
  - apply append_levels_agree; [|done]. intros i. rewrite !elem_of_app. tauto.
Qed.

Lemma append_ptrs :
  ptrs (l1 ++ lv' :: l2) = (ptrs l1 ++ FlatLevel.live lv) ++ a :: ptrs l2 /\
  ptrs (get_side d (book e)) = (ptrs l1 ++ FlatLevel.live lv) ++ ptrs l2.
Proof using Hinv Ha Hown Hr Hd Hunc Hpx Hsrt Hls.
  destruct (level_pre _ _ _ _ _ _ _ (inv_side _ _ Hinv d) Hls) as (Hwf & _ & _ & _ & _ & Hptrs).
  destruct (FlatLevelFacts.push_back_live lv a (remaining_quantity o) Hwf) as [_ Hlive'].
  unfold lv'. by rewrite Hptrs ptrs_app ptrs_cons Hlive' -!app_assoc.
Qed.

Lemma append_inv : inv [] e'.
Proof using Hinv Ha Hown Hr Hd Hunc Hpx Hsrt Hls.
  destruct append_ptrs as [Hp1 Hp2].
  eapply (inv_rebuild d [a] [] e); simpl;
    [done|apply get_set_side|apply get_set_side_other|apply append_side_ok|
     apply append_agree; intros i Hi; apply append_fresh; by right| | |
     by apply pool_ok_store, (inv_pool _ _ Hinv)|].
  - pose proof (inv_nodup_side d _ _ Hinv) as Hnd. rewrite Hp2 in Hnd. rewrite app_nil_r Hp1.
    eapply NoDup_Permutation_proper; [|exact Hnd]. by solve_Permutation.
  - rewrite app_nil_r lookup_set_side.
    eapply (tracked_ext _ (pool e)); [| |apply (inv_tracked_side d _ _ Hinv)].
    + intros i. rewrite Hp1 Hp2 !elem_of_app !elem_of_cons. pose proof (not_elem_of_nil i). tauto.
    + intros i Hi. unfold p'. rewrite deref_store; [by eauto|]. case_decide; [subst; by rewrite Ha|done].
  - intros x y Hx Hy. rewrite elem_of_app elem_of_cons in Hx.
    assert (x ∈ l1 \/ x ∈ l2 -> x ∈ get_side d (book e)) as Hold.
    { intros Hin. destruct Hls as [->|[_ ->]]; rewrite elem_of_app ?elem_of_cons; tauto. }
    destruct Hx as [Hx|[->|Hx]]; [apply (inv_uncrossed _ _ Hinv d); tauto| |
      apply (inv_uncrossed _ _ Hinv d); tauto].
    specialize (Hunc y Hy). simpl. rewrite Hpx. clear -Hunc. by destruct d; simpl in *.
Qed.

Lemma append_abs :
  abs_side p' (l1 ++ lv' :: l2) =
  Spec.place d (resting_of o) (abs_side (pool e) (get_side d (book e))).
Proof using Hinv Ha Hown Hr Hd Hunc Hpx Hsrt Hls.
  destruct append_ptrs as [Hp1 Hp2]. unfold abs_side. rewrite Hp1 Hp2 !abs_ptrs_app.
  destruct (level_pre _ _ _ _ _ _ _ (inv_side _ _ Hinv d) Hls) as (_ & _ & Ho & Hl1 & Hl2 & _).
  pose proof Hsrt as (_ & Hs2 & Hs12)%FlatPriceBookFacts.sorted_app.
  apply FlatPriceBookFacts.sorted_cons in Hs2 as [_ Hs2].
  rewrite place_app.
  - apply Forall_app. split; apply Forall_forall; intros r Hin; simpl.
    + destruct (abs_side_price _ _ _ _ Hl1 Hin) as (l & Hl & ->). rewrite -Hpx.
      apply FlatPriceBookFacts.before_asym, Hs12; [done|left].
    + rewrite (abs_live_price _ _ _ _ _ Ho Hin) Hpx. apply FlatPriceBookFacts.before_irrefl.
  - intros r Hhd. assert (r ∈ abs_side (pool e) l2) as Hin.
    { unfold abs_side. destruct (abs_ptrs (pool e) (ptrs l2)); simplify_eq/=. left. }
    destruct (abs_side_price _ _ _ _ Hl2 Hin) as (l & Hl & ->). simpl. rewrite -Hpx.
    rewrite Forall_forall in Hs2. by apply Hs2.
  - rewrite (abs_ptrs_cons _ _ _ (set_status ACCEPTED o)); [apply deref_store_eq; eauto|].
    rewrite !(abs_ptrs_agree (pool e) p'); [..|done];
      apply append_agree; intros i Hi; apply append_fresh; left; rewrite !elem_of_app; tauto.
Qed.

Lemma append_abs_book :
  abs e' = Spec.set d (Spec.place d (resting_of o) (Spec.get d (abs e))) (abs e).
Proof using Hinv Ha Hown Hr Hd Hunc Hpx Hsrt Hls.
  rewrite abs_get -append_abs. unfold abs, e'. simpl.
  assert (abs_side p' (get_side (negb d) (book e)) = abs_side (pool e) (get_side (negb d) (book e))) as Hoth.
  { apply abs_ptrs_agree, append_agree. intros i Hi. apply append_fresh. by right. }
  clear -Hoth. destruct d; simpl in *; by rewrite Hoth.
Qed.

End append.

(** What [add_to_book] does to the side it appends to. *)
Lemma add_to_book_spec a o e :
  inv [a] e -> deref (pool e) a = Some o -> owned (pool e) a -> 0 < remaining_quantity o < 2 ^ 64 ->
  (forall x, x ∈ get_side (negb (is_buy (side o))) (book e) ->
    FlatPriceBook.before (is_buy (side o)) (FlatLevel.price x) (price o) = true) ->
  exists e', add_to_book (Some a) e = Some (Value tt, e') /\ inv [] e' /\
    abs e' = Spec.set (is_buy (side o))
      (Spec.place (is_buy (side o)) (resting_of o) (Spec.get (is_buy (side o)) (abs e))) (abs e) /\
    deref (pool e') a = Some (set_status ACCEPTED o) /\ ctx e' = ctx e /\ ticks e' = ticks e /\
    shutdown_requested_ (book e') = shutdown_requested_ (book e) /\
    bbo_snapshot_ (book e') = bbo_snapshot_ (book e) /\
    next_trade_id_ (book e') = next_trade_id_ (book e) /\
    book_weight (book e') = S (book_weight (book e)) /\
    all_ptrs (book e') ≡ₚ a :: all_ptrs (book e) /\
    (forall i, i <> a -> deref (pool e') i = deref (pool e) i) /\
    (forall i, owned (pool e') i <-> owned (pool e) i).
Proof.
  intros Hinv Ha Hown Hr Hunc. set (d := is_buy (side o)) in *.
  destruct (find_or_insert_spec d (price o) _ (so_sorted _ _ _ (inv_side _ _ Hinv d)))
    as (l1 & lv & l2 & Hfi & Hpx & Hsrt & Hls).
  unfold add_to_book. rewrite Ha /=. fold d. rewrite Hfi list_lookup_middle; [done|].
  simpl. rewrite insert_middle (modify_some _ _ _ _ Ha) /=.
  eexists. split; [reflexivity|]. split_and!.
  - by eapply append_inv.
  - by eapply append_abs_book.
  - apply deref_store_eq. eauto.
  - done.
  - done.
  - apply shutdown_set_side.
  - apply bbo_set_side.
  - apply next_set_side.
  - assert (weight (l1 ++ FlatLevel.push_back a (remaining_quantity o) lv :: l2) =
      S (weight (get_side d (book e)))) as Hwt.
    { destruct Hls as [->|[-> ->]]; unfold weight; rewrite !sum_list_with_app /= ?length_app /=; lia. }
    clear -Hwt. unfold book_weight. by destruct d; simpl in *; rewrite Hwt; lia.
  - destruct (append_ptrs a o e d l1 l2 lv) as [Hp1 Hp2]; try done. simpl.
    rewrite all_ptrs_set_side Hp1 (all_ptrs_side d (book e)) Hp2. by solve_Permutation.
  - intros i Hi. by apply deref_store_ne.
  - intros i. apply owned_store.
Qed.

(** ** Bookkeeping around a match *)

Lemma inv_update_bbo extra e :
  inv extra e -> inv extra (with_book (update_bbo_snapshot (book e)) e).
Proof.
  intros [H1 H2 H3 H4 H5]. split; [|done|done|done|].
  - intros d. specialize (H1 d). by destruct d.
  - intros d. specialize (H5 d). by destruct d.
Qed.

Lemma abs_update_bbo e : abs (with_book (update_bbo_snapshot (book e)) e) = abs e.
Proof. done. Qed.

Lemma inv_set_lookup extra extra' e m :
  inv extra e -> NoDup (all_ptrs (book e) ++ extra') ->
  tracked m (pool e) (all_ptrs (book e) ++ extra') ->
  inv extra' (with_book (set_lookup m (book e)) e).
Proof.
  intros [H1 H2 H3 H4 H5] Hnd Ht. split; [|done|done|done|].
  - intros d. specialize (H1 d). by destruct d.
  - intros d. specialize (H5 d). by destruct d.
Qed.

Lemma inv_start a o e :
  inv [] e -> deref (pool e) a = Some o -> a ∉ all_ptrs (book e) ->
  order_lookup_ (book e) !! id o = None ->
  inv [a] (with_book (set_lookup (<[id o := a]> (order_lookup_ (book e))) (book e)) e).
Proof.
  intros Hinv Ha Hna Hnone. pose proof (inv_nodup _ _ Hinv) as Hnd. rewrite app_nil_r in Hnd.
  pose proof (inv_tracked _ _ Hinv) as Ht. rewrite app_nil_r in Ht.
  eapply inv_set_lookup; [done| |].
  - rewrite -Permutation_cons_append. by constructor.
  - eapply tracked_insert; [exact Ht|done|done|].
    intros i. by rewrite elem_of_app list_elem_of_singleton.
Qed.

Lemma inv_finish a o e :
  inv [a] e -> deref (pool e) a = Some o ->
  inv [] (with_book (set_lookup (delete (id o) (order_lookup_ (book e))) (book e)) e).
Proof.
  intros Hinv Ha. pose proof (inv_nodup _ _ Hinv) as Hnd.
  apply NoDup_app in Hnd as (Hnd & Hdis & _).
  eapply inv_set_lookup; [done|by rewrite app_nil_r|]. rewrite app_nil_r.
  eapply tracked_delete; [apply (inv_tracked _ _ Hinv)|apply elem_of_app; right; left|done|].
  intros i. rewrite elem_of_app list_elem_of_singleton. split.
  - intros Hi. split; [by left|]. intros ->. apply (Hdis a Hi). left.
  - by intros [[Hi|Hi] Hne].
Qed.

Lemma abs_side_positive p d ls :
  side_ok p d ls -> Forall (fun r => 0 < Spec.r_qty r) (abs_side p ls).
Proof.
  intros Hs. apply Forall_forall. intros r (i & o & Hi & Ho & ->)%abs_ptrs_elem.
  destruct (side_ok_ptr _ _ _ _ Hs Hi) as (px & _ & o' & Ho' & _ & _ & Hr). simpl.
  rewrite Ho in Ho'. simplify_eq. lia.
Qed.

(** When the sweep leaves a remainder, no level of the opposite side crosses it. *)
Lemma stop_uncrossed p m buy px ls q fs q' rs :
  side_ok p (negb buy) ls -> Forall (fun r => 0 < Spec.r_qty r) rs ->
  Spec.match_against (Spec.accepts m buy px) q rs = (fs, q', abs_side p ls) -> q' <> 0 ->
  forall x, x ∈ ls -> FlatPriceBook.before buy (FlatLevel.price x) px = true.
Proof.
  intros Hs Hrs Hm Hq x Hx. destruct ls as [|l ls]; [by apply not_elem_of_nil in Hx|].
  destruct (side_nonempty_live _ _ _ _ Hs) as (i & rest & Hlive).
  destruct (front_order _ _ _ _ _ _ Hs Hlive) as (oq & _ & Hpx & _ & Habs).
  pose proof (Spec.match_against_stop _ _ _ _ _ _ Hrs Hm Hq (resting_of oq)) as Hstop.
  rewrite Habs in Hstop. specialize (Hstop eq_refl). simpl in Hstop. rewrite Hpx in Hstop.
  unfold Spec.accepts in Hstop. destruct m; [done|]. simpl in Hstop.
  assert (FlatPriceBook.before buy (FlatLevel.price l) px = true) as Hl by (destruct buy; simpl in *; lia).
  apply side_ok_cons in Hs as (_ & _ & Hlt). rewrite Forall_forall in Hlt.
  apply elem_of_cons in Hx as [->|Hx]; [done|]. specialize (Hlt x Hx).
  unfold FlatPriceBook.lt_level in Hlt. destruct buy; simpl in *; lia.
Qed.

Lemma length_ptrs_fuel d e : (length (ptrs (get_side d (book e))) < sweep_fuel d e)%nat.
Proof.
  unfold sweep_fuel. assert (forall ls : list FlatLevel.t,
    (length (ptrs ls) <= sum_list_with (fun l => length (FlatLevel.orders l)) ls)%nat) as Hle.
  { induction ls as [|l ls IH]; [done|]. rewrite ptrs_cons length_app. simpl.
    unfold FlatLevel.live at 1. rewrite length_drop. lia. }
  specialize (Hle (get_side d (book e))). lia.
Qed.

(** The clock and the callback only matter to the operations that trade. *)
Variable steady_clock : nat -> Timestamp.
Variable trade_callback_ : option (Trade -> C -> C).

Lemma match_order_spec a o e fs q' out :
  inv [a] e -> shutdown_requested_ (book e) = false ->
  deref (pool e) a = Some o -> 0 < remaining_quantity o < 2 ^ 64 ->
  small (get_side (negb (is_buy (side o))) (book e)) ->
  Spec.match_against (Spec.accepts (is_market (type o)) (is_buy (side o)) (price o))
    (remaining_quantity o) (abs_side (pool e) (get_side (negb (is_buy (side o))) (book e))) = (fs, q', out) ->
  exists e', match_order steady_clock trade_callback_ (Some a) e = Some (Value tt, e') /\
    sweep_result steady_clock trade_callback_ (negb (is_buy (side o))) a o fs q' out e e'.
Proof.
  intros Hinv Hsd Ha Hr Hsm Hm. unfold match_order. rewrite Hsd Ha. cbn [mbind option_bind].
  pose proof (length_ptrs_fuel (negb (is_buy (side o))) e) as Hfuel.
  unfold match_market_order, match_limit_order. rewrite Ha. cbn [mbind option_bind].
  destruct (is_market (type o)) eqn:Em.
  - destruct (sweep_spec steady_clock trade_callback_ (fun _ _ => true)
      (Spec.accepts true (is_buy (side o)) (price o)) (negb (is_buy (side o))) a _ o e fs q' out
      Hinv Ha ltac:(lia) Hsm Hfuel) as (e' & Hsw & Hres); [done|done|].
    exists e'. rewrite Hsw. done.
  - destruct (sweep_spec steady_clock trade_callback_ limit_crosses
      (Spec.accepts false (is_buy (side o)) (price o)) (negb (is_buy (side o))) a _ o e fs q' out
      Hinv Ha ltac:(lia) Hsm Hfuel) as (e' & Hsw & Hres); [|done|].
    { intros o' px (Hp & _ & Hs & _). unfold limit_crosses, Spec.accepts. by rewrite Hs Hp. }
    exists e'. rewrite Hsw. done.
Qed.

(** What [add_order] leaves behind, in terms of the abstract book. *)
Record add_result (a : nat) (o : Order) (fs : list Spec.Fill) (b' : Spec.book) e e' : Prop := {
  ar_inv : inv [] e';
  ar_abs : abs e' = b';
  ar_order : exists o', deref (pool e') a = Some o' /\ same_order o o' /\
    remaining_quantity o' = remaining_quantity o - Spec.fills_total fs;
  ar_rests : a ∈ all_ptrs (book e') <-> Spec.fills_total fs < remaining_quantity o;
  ar_owned : owned (pool e') a;
  ar_freed i : i ∈ all_ptrs (book e) -> i ∈ all_ptrs (book e') \/ ~ owned (pool e') i;
  ar_sub i : i ∈ all_ptrs (book e') -> i = a \/ i ∈ all_ptrs (book e);
  ar_frame i : i ∉ all_ptrs (book e) -> i <> a ->
    deref (pool e') i = deref (pool e) i /\ (owned (pool e') i <-> owned (pool e) i);
  ar_ctx : ctx e' = foldl (notify trade_callback_) (ctx e)
    (trades_of steady_clock o (symbol_ (book e)) (ticks e) (next_trade_id_ (book e)) fs);
  ar_next : wrap 64 (next_trade_id_ (book e')) =
    wrap 64 (next_trade_id_ (book e) + Z.of_nat (length fs));
  ar_weight : (book_weight (book e') <= S (book_weight (book e)))%nat;
  ar_running : shutdown_requested_ (book e') = false;
  ar_bbo : bbo_snapshot_ (book e') =
    mkBBO (best_bid (book e')) (bid_quantity (book e')) (best_ask (book e')) (ask_quantity (book e'))
      (sequence (bbo_snapshot_ (book e)) +₆₄ 1 +₆₄ 1)
}.

Lemma sweep_other_agree d a o fs q' out e e' :
  inv [a] e -> sweep_result steady_clock trade_callback_ d a o fs q' out e e' ->
  agree (pool e) (pool e') (ptrs (get_side (negb d) (book e))).
Proof.
  intros Hinv Hr i Hi. pose proof (inv_nodup_side d _ _ Hinv) as Hnd.
  apply NoDup_app in Hnd as (_ & Hd1 & Hnd2). apply NoDup_app in Hnd2 as (_ & Hd2 & _).
  assert (i ∉ ptrs (get_side d (book e))) as Hni.
  { intros Hin. apply (Hd1 i Hin). apply elem_of_app. by left. }
  assert (i <> a) as Hia by (intros ->; apply (Hd2 a Hi); left).
  destruct (sr_frame _ _ _ _ _ _ _ _ _ _ Hr). split; [by apply rf_deref|]. by apply rf_owned.
Qed.

Lemma abs_sweep d a o fs q' out e e' :
  inv [a] e -> sweep_result steady_clock trade_callback_ d a o fs q' out e e' ->
  abs e' = Spec.set d out (abs e).
Proof.
  intros Hinv Hr. pose proof (sweep_other_agree _ _ _ _ _ _ _ _ Hinv Hr) as Ha.
  apply abs_ptrs_agree in Ha. pose proof (sr_abs _ _ _ _ _ _ _ _ _ _ Hr) as Hout.
  pose proof (rf_other _ _ _ _ _ (sr_frame _ _ _ _ _ _ _ _ _ _ Hr)) as Hoth.
  unfold abs, abs_side in *. destruct d; simpl in *; by rewrite Hout Hoth Ha.
Qed.

Lemma freed_sweep d a o fs q' out e e' i :
  sweep_result steady_clock trade_callback_ d a o fs q' out e e' ->
  i ∈ all_ptrs (book e) -> i ∈ all_ptrs (book e') \/ ~ owned (pool e') i.
Proof.
  intros Hr. rewrite (all_ptrs_side d (book e)) (all_ptrs_side d (book e')).
  rewrite (rf_other _ _ _ _ _ (sr_frame _ _ _ _ _ _ _ _ _ _ Hr)) !elem_of_app.
  intros [Hi|Hi]; [|by left; right].
  destruct (sr_freed _ _ _ _ _ _ _ _ _ _ Hr i Hi) as [H|H]; [by left; left|by right].
Qed.

Lemma sweep_sub d a o fs q' out e e' i :
  sweep_result steady_clock trade_callback_ d a o fs q' out e e' ->
  i ∈ all_ptrs (book e') -> i ∈ all_ptrs (book e).
Proof.
  intros Hr. rewrite (all_ptrs_side d (book e)) (all_ptrs_side d (book e')).
  rewrite (rf_other _ _ _ _ _ (sr_frame _ _ _ _ _ _ _ _ _ _ Hr)) !elem_of_app.
  intros [Hi|Hi]; [left|by right]. by apply (sr_sub _ _ _ _ _ _ _ _ _ _ Hr).
Qed.

Lemma sweep_frame d a o fs q' out e e' i :
  sweep_result steady_clock trade_callback_ d a o fs q' out e e' ->
  i ∉ all_ptrs (book e) -> i <> a ->
  deref (pool e') i = deref (pool e) i /\ (owned (pool e') i <-> owned (pool e) i).
Proof.
  intros Hr Hi Hia. pose proof (sr_frame _ _ _ _ _ _ _ _ _ _ Hr) as Hf.
  assert (i ∉ ptrs (get_side d (book e))) as Hi'.
  { intros Hin. apply Hi. rewrite (all_ptrs_side d). apply elem_of_app. by left. }
  split; [by apply (rf_deref _ _ _ _ _ Hf)|by apply (rf_owned _ _ _ _ _ Hf)].
Qed.

Lemma sweep_weight d a o fs q' out e e' :
  sweep_result steady_clock trade_callback_ d a o fs q' out e e' ->
  (book_weight (book e') <= book_weight (book e))%nat.
Proof.
  intros Hr. pose proof (sr_weight _ _ _ _ _ _ _ _ _ _ Hr) as Hw.
  pose proof (rf_other _ _ _ _ _ (sr_frame _ _ _ _ _ _ _ _ _ _ Hr)) as Ho.
  unfold book_weight. destruct d; simpl in *; rewrite Ho; lia.
Qed.

(** The result does not depend on the lookup table of the first state. *)
Lemma add_result_lookup a o fs b' m e e' :
  add_result a o fs b' (with_book (set_lookup m (book e)) e) e' -> add_result a o fs b' e e'.
Proof. by intros []. Qed.

(** The two ends of [add_order] after the sweep. *)
Lemma add_order_filled a o e e1 fs out :
  inv [a] e -> sweep_result steady_clock trade_callback_ (negb (is_buy (side o))) a o fs 0 out e e1 ->
  remaining_quantity o = Spec.fills_total fs -> owned (pool e) a ->
  shutdown_requested_ (book e) = false ->
  let e2 := with_book (set_lookup (delete (id o) (order_lookup_ (book e1))) (book e1)) e1 in
  add_result a o fs (Spec.set (negb (is_buy (side o))) out (abs e)) e
    (with_book (update_bbo_snapshot (book e2)) e2).
Proof.
  intros Hinv Hr Hq Hown Hsd e2. set (d := negb (is_buy (side o))) in *.
  destruct (sr_order _ _ _ _ _ _ _ _ _ _ Hr) as (o1 & Ho1 & Hso & Hq1).
  pose proof (sr_frame _ _ _ _ _ _ _ _ _ _ Hr) as Hf.
  pose proof (inv_nodup_side d _ _ Hinv) as Hnd. apply NoDup_app in Hnd as (_ & Hd1 & _).
  assert (inv [] e2) as Hinv2.
  { assert (id o = id o1) as Hid by (symmetry; apply Hso). unfold e2. rewrite Hid.
    eapply inv_finish; [apply (sr_inv _ _ _ _ _ _ _ _ _ _ Hr)|done]. }
  split; [by apply inv_update_bbo| | | | | | | | | | | |]; cbn [with_book book pool ctx ticks e2].
  - by eapply abs_sweep in Hr.
  - exists o1. split_and!; [done|done|]. lia.
  - split; [|lia]. intros Hin. exfalso.
    pose proof (inv_nodup _ _ (sr_inv _ _ _ _ _ _ _ _ _ _ Hr)) as Hnd1.
    apply NoDup_app in Hnd1 as (_ & Hna & _). apply (Hna a); [exact Hin|left].
  - apply (rf_owned _ _ _ _ _ Hf); [|done]. intros Hin. apply (Hd1 a Hin).
    apply elem_of_app. right. left.
  - intros i Hi. exact (freed_sweep _ _ _ _ _ _ _ _ i Hr Hi).
  - intros i Hi. right. exact (sweep_sub _ _ _ _ _ _ _ _ i Hr Hi).
  - intros i Hi Hia. exact (sweep_frame _ _ _ _ _ _ _ _ i Hr Hi Hia).
  - apply (sr_ctx _ _ _ _ _ _ _ _ _ _ Hr).
  - apply (sr_next _ _ _ _ _ _ _ _ _ _ Hr).
  - pose proof (sweep_weight _ _ _ _ _ _ _ _ Hr). unfold book_weight in *. simpl. lia.
  - simpl. by rewrite (rf_shutdown _ _ _ _ _ Hf).
  - simpl. by rewrite (rf_bbo _ _ _ _ _ Hf).
Qed.

Lemma add_order_rests a o o1 e e1 e2 fs q' out :
  inv [a] e -> sweep_result steady_clock trade_callback_ (negb (is_buy (side o))) a o fs q' out e e1 ->
  remaining_quantity o = q' + Spec.fills_total fs -> 0 < q' ->
  deref (pool e1) a = Some o1 -> same_order o o1 -> remaining_quantity o1 = q' ->
  owned (pool e1) a -> shutdown_requested_ (book e) = false ->
  inv [] e2 ->
  abs e2 = Spec.set (is_buy (side o1))
    (Spec.place (is_buy (side o1)) (resting_of o1) (Spec.get (is_buy (side o1)) (abs e1))) (abs e1) ->
  deref (pool e2) a = Some (set_status ACCEPTED o1) -> ctx e2 = ctx e1 ->
  shutdown_requested_ (book e2) = shutdown_requested_ (book e1) ->
  bbo_snapshot_ (book e2) = bbo_snapshot_ (book e1) ->
  next_trade_id_ (book e2) = next_trade_id_ (book e1) ->
  book_weight (book e2) = S (book_weight (book e1)) ->
  all_ptrs (book e2) ≡ₚ a :: all_ptrs (book e1) ->
  (forall i, i <> a -> deref (pool e2) i = deref (pool e1) i) ->
  (forall i, owned (pool e2) i <-> owned (pool e1) i) ->
  let b := Spec.set (negb (is_buy (side o))) out (abs e) in
  add_result a o fs
    (Spec.set (is_buy (side o)) (Spec.place (is_buy (side o)) (Spec.mkResting (id o) (price o) q')
      (Spec.get (is_buy (side o)) b)) b) e
    (with_book (update_bbo_snapshot (book e2)) e2).
Proof.
  intros Hinv Hr Hq Hq' Ho1 Hso Hq1 Hown Hsd Hinv2 Habs Ho2 Hc Hs2 Hb2 Hn2 Hwt2 Hp2 Hde2 Hw2 b.
  pose proof (sr_frame _ _ _ _ _ _ _ _ _ _ Hr) as Hf.
  split; [by apply inv_update_bbo| | | | | | | | | | | |]; cbn [with_book book pool ctx ticks].
  - rewrite abs_update_bbo Habs (abs_sweep _ _ _ _ _ _ _ _ Hinv Hr).
    destruct Hso as (Hp & Hi & Hs & _). unfold resting_of. by rewrite Hp Hi Hs Hq1.
  - exists (set_status ACCEPTED o1). split_and!; [done|done|]. simpl. lia.
  - split; [lia|]. intros _. change (a ∈ all_ptrs (book e2)). rewrite Hp2. left.
  - by apply Hw2.
  - intros i Hi. destruct (freed_sweep _ _ _ _ _ _ _ _ i Hr Hi) as [H|H].
    + left. change (i ∈ all_ptrs (book e2)). rewrite Hp2. by right.
    + right. by rewrite Hw2.
  - intros i. change (i ∈ all_ptrs (book e2) -> i = a \/ i ∈ all_ptrs (book e)). rewrite Hp2.
    intros [->|Hi]%elem_of_cons; [by left|right]. exact (sweep_sub _ _ _ _ _ _ _ _ i Hr Hi).
  - intros i Hi Hia. rewrite Hw2 Hde2 //. exact (sweep_frame _ _ _ _ _ _ _ _ i Hr Hi Hia).
  - rewrite Hc. apply (sr_ctx _ _ _ _ _ _ _ _ _ _ Hr).
  - simpl. rewrite Hn2. apply (sr_next _ _ _ _ _ _ _ _ _ _ Hr).
  - pose proof (sweep_weight _ _ _ _ _ _ _ _ Hr). unfold book_weight in *. simpl in *. lia.
  - simpl. by rewrite Hs2 (rf_shutdown _ _ _ _ _ Hf).
  - simpl. by rewrite Hb2 (rf_bbo _ _ _ _ _ Hf).
Qed.

(** What an order needs to be accepted by [add_order]. *)
Record acceptable (a : nat) (o : Order) e : Prop := {
  ac_running : shutdown_requested_ (book e) = false;
  ac_deref : deref (pool e) a = Some o;
  ac_owned : owned (pool e) a;
  ac_fresh : a ∉ all_ptrs (book e);
  ac_qty : 0 < remaining_quantity o < 2 ^ 64;
  ac_new : order_lookup_ (book e) !! id o = None;
  ac_small : small (get_side (negb (is_buy (side o))) (book e))
}.

Lemma add_order_spec a o e :
  inv [] e -> acceptable a o e ->
  let '(fs, b') := Spec.add (is_market (type o)) (is_buy (side o)) (resting_of o) (abs e) in
  exists e', add_order steady_clock trade_callback_ (Some a) e = Some (Value tt, e') /\
    add_result a o fs b' e e'.
Proof.
  intros Hinv [Hsd Ha Hown Hna Hr Hnew Hsm]. unfold Spec.add. simpl Spec.r_price. simpl Spec.r_qty.
  set (d := is_buy (side o)) in *. rewrite abs_get.
  destruct (Spec.match_against _ _ _) as [[fs q'] out] eqn:Hm.
  unfold add_order. rewrite Hsd Ha. cbn [mbind option_bind].
  rewrite (proj2 (Z.eqb_neq (remaining_quantity o) 0)); [lia|]. rewrite Hnew. simpl bool_decide. cbn match.
  pose proof (inv_start a o e Hinv Ha Hna Hnew) as Hinv0.
  set (e0 := with_book _ e) in *.
  assert (forall d', get_side d' (book e0) = get_side d' (book e)) as Hside by (intros []; done).
  destruct (match_order_spec a o e0 fs q' out) as (e1 & Hmo & Hres); try done; try by rewrite Hside.
  rewrite Hmo. cbn [mbind option_bind].
  destruct (sr_order _ _ _ _ _ _ _ _ _ _ Hres) as (o1 & Ho1 & Hso & Hq1). rewrite Ho1. cbn [mbind option_bind].
  pose proof (abs_side_positive _ _ _ (inv_side _ _ Hinv (negb d))) as Hpos.
  destruct (Spec.match_against_conserves _ _ _ _ _ _ Hm) as [Hq _].
  destruct (Spec.match_against_positive _ _ _ _ _ _ (ltac:(lia) : 0 <= remaining_quantity o) Hpos Hm) as (Hq' & _ & _).
  assert (owned (pool e1) a) as Hown1.
  { apply (rf_owned _ _ _ _ _ (sr_frame _ _ _ _ _ _ _ _ _ _ Hres)); [|done].
    intros Hin. apply Hna. rewrite (all_ptrs_side (negb d)) -Hside. apply elem_of_app. by left. }
  rewrite Hq1. destruct (Z.eqb_spec q' 0) as [->|Hnz].
  - eexists. split; [reflexivity|]. assert (id o1 = id o) as -> by apply Hso.
    eapply add_result_lookup, (add_order_filled a o e0 e1 fs out); done || lia.
  - rewrite (proj2 (Z.ltb_lt 0 q')); [lia|].
    destruct (add_to_book_spec a o1 e1) as (e2 & Hab & Hinv2 & Habs & Ho2 & Hc & _ & Hs2 & Hb2 & Hn2 & Hwt2 & Hp2 & Hde2 & Hw2);
      [apply (sr_inv _ _ _ _ _ _ _ _ _ _ Hres)|done|done|lia| |].
    { destruct Hso as (Hp & _ & Hs & _). rewrite Hp Hs. fold d.
      eapply stop_uncrossed; [apply (inv_side _ _ (sr_inv _ _ _ _ _ _ _ _ _ _ Hres))|exact Hpos| |done].
      rewrite (sr_abs _ _ _ _ _ _ _ _ _ _ Hres). exact Hm. }
    rewrite Hab. cbn [mbind option_bind]. eexists. split; [reflexivity|].
    eapply add_result_lookup, (add_order_rests a o o1 e0 e1 e2 fs q' out); done || lia.
Qed.

End add.
