(* ===== verification/OrderBookCancel.v ===== *)
(** * Cancelling an order

    [remove_from_book] takes an order out of its level and drops the level when
    it was the last one; [cancel_order] then forgets the order and frees its
    slot.  Together they implement [Spec.cancel]. *)

From S2P Require Import Prelude.
From S2P Require Import Types.
From S2P Require Import ErrorHandling.
From S2P Require Import OrderPool.
From S2P Require Import PriceLevels.
From S2P Require Import OrderBook.
From S2P Require Import OrderBookSpec.
From S2P Require Import OrderBookInv.
From S2P Require Import OrderBookMatch.
From S2P Require Import OrderBookAdd.
Import OrderBook.

(** ** Searching *)

Lemma find_middle d l1 lv l2 :
  FlatPriceBook.sorted d (l1 ++ lv :: l2) ->
  FlatPriceBook.find d (FlatLevel.price lv) (l1 ++ lv :: l2) = Some (length l1).
Proof.
  intros Hs. unfold FlatPriceBook.find.
  rewrite FlatPriceBookFacts.lower_bound_for_correct; [done|].
  apply FlatPriceBookFacts.sorted_app in Hs as (_ & _ & H12).
  rewrite FlatPriceBookFacts.first_not_before_split.
  - apply Forall_forall. intros x Hx. apply H12; [done|left].
  - intros b [= <-]. apply FlatPriceBookFacts.before_irrefl.
  - by rewrite list_lookup_middle // Z.eqb_refl.
Qed.

Lemma remove_middle d l1 lv l2 :
  FlatPriceBook.sorted d (l1 ++ lv :: l2) ->
  FlatPriceBook.remove d (FlatLevel.price lv) (l1 ++ lv :: l2) = l1 ++ l2.
Proof. intros Hs. unfold FlatPriceBook.remove. rewrite find_middle //. apply delete_middle. Qed.

Lemma sorted_drop d l1 lv l2 :
  FlatPriceBook.sorted d (l1 ++ lv :: l2) -> FlatPriceBook.sorted d (l1 ++ l2).
Proof.
  rewrite !FlatPriceBookFacts.sorted_app FlatPriceBookFacts.sorted_cons.
  intros (H1 & [H2 _] & H3). split_and!; [done..|]. intros a b Ha Hb. apply H3; [done|by right].
Qed.

Lemma index_of_from_app a h w1 w2 :
  a ∉ w1 -> index_of_from a h (w1 ++ a :: w2) = Some (h + length w1)%nat.
Proof.
  revert h. induction w1 as [|x w1 IH]; intros h Hna; simpl.
  - rewrite bool_decide_eq_true_2 //. by rewrite Nat.add_0_r.
  - apply not_elem_of_cons in Hna as [Hne Hna]. rewrite bool_decide_eq_false_2; [done|].
    rewrite IH //. f_equal. lia.
Qed.

(** A level without one of its live orders. *)
Definition level_without (k : nat) (q : Quantity) (l : FlatLevel.t) : FlatLevel.t :=
  FlatLevel.mk (FlatLevel.price l) (FlatLevel.total_quantity l -₆₄ q) (FlatLevel.head_ l)
    (delete k (FlatLevel.orders l)).

Lemma level_without_live l q a w1 w2 :
  FlatLevel.wf l -> FlatLevel.live l = w1 ++ a :: w2 ->
  let k := (Z.to_nat (FlatLevel.head_ l) + length w1)%nat in
  FlatLevel.wf (level_without k q l) /\ FlatLevel.live (level_without k q l) = w1 ++ w2.
Proof.
  intros [Hh Hl] Hlive k. unfold FlatLevel.wf, FlatLevel.live in *. simpl.
  set (h := Z.to_nat (FlatLevel.head_ l)) in *.
  assert (FlatLevel.orders l = (take h (FlatLevel.orders l) ++ w1) ++ a :: w2) as Ho.
  { by rewrite -app_assoc -Hlive take_drop. }
  assert (length (take h (FlatLevel.orders l)) = h) as Hlen by (apply length_take_le; lia).
  assert (delete k (FlatLevel.orders l) = take h (FlatLevel.orders l) ++ w1 ++ w2) as Hdel.
  { rewrite {1}Ho. replace k with (length (take h (FlatLevel.orders l) ++ w1)) by (rewrite length_app; lia).
    by rewrite delete_middle -app_assoc. }
  rewrite Hdel. split; [|].
  - rewrite length_app Hlen. lia.
  - by rewrite drop_app_length'.
Qed.

Lemma ptr_split a ls :
  a ∈ ptrs ls ->
  exists l1 lv l2 w1 w2, ls = l1 ++ lv :: l2 /\ FlatLevel.live lv = w1 ++ a :: w2 /\ a ∉ w1.
Proof.
  intros (lv & Hlv & Ha)%elem_of_ptrs. apply list_elem_of_split in Hlv as (l1 & l2 & ->).
  apply list_elem_of_split_l in Ha as (w1 & w2 & Hw & Hna). by exists l1, lv, l2, w1, w2.
Qed.

Section cancel.
Context {P C : Type} `{!OrderPool P}.
Implicit Types p : P.
Implicit Types e : env P C.

(** The side vector after its level [lv] became [lv']. *)
Definition close_level (l1 : list FlatLevel.t) (lv' : FlatLevel.t) (l2 : list FlatLevel.t) :=
  if FlatLevel.empty lv' then l1 ++ l2 else l1 ++ lv' :: l2.

Lemma close_level_ptrs l1 lv' l2 :
  FlatLevel.wf lv' -> ptrs (close_level l1 lv' l2) = ptrs l1 ++ FlatLevel.live lv' ++ ptrs l2.
Proof.
  intros Hwf. unfold close_level. rewrite FlatLevelFacts.empty_live //.
  case_bool_decide as E; rewrite !ptrs_app ?ptrs_cons ?E //.
Qed.

Lemma close_level_weight k q l1 lv l2 :
  (weight (close_level l1 (level_without k q lv) l2) <= weight (l1 ++ lv :: l2))%nat.
Proof.
  unfold close_level, weight. destruct (FlatLevel.empty _); rewrite !sum_list_with_app /=; [lia|].
  assert (length (delete k (FlatLevel.orders lv)) <= length (FlatLevel.orders lv))%nat; [|lia].
  generalize (FlatLevel.orders lv). intros l. revert k. induction l as [|x l IH]; intros [|k]; simpl; try lia.
  specialize (IH k). lia.
Qed.

Lemma close_level_elem x l1 lv lv' l2 :
  x ∈ close_level l1 lv' l2 -> FlatLevel.price lv' = FlatLevel.price lv ->
  exists y, y ∈ l1 ++ lv :: l2 /\ FlatLevel.price x = FlatLevel.price y.
Proof.
  unfold close_level. intros Hx Hp.
  assert (x ∈ l1 \/ x = lv' \/ x ∈ l2) as [H|[->|H]].
  { destruct (FlatLevel.empty lv'); rewrite elem_of_app ?elem_of_cons in Hx; tauto. }
  - exists x. split; [|done]. apply elem_of_app. by left.
  - exists lv. split; [|done]. apply elem_of_app. right. left.
  - exists x. split; [|done]. apply elem_of_app. right. by right.
Qed.

Lemma remove_from_book_eq a o e l1 lv l2 w1 w2 d :
  inv [] e -> deref (pool e) a = Some o -> is_buy (side o) = d ->
  get_side d (book e) = l1 ++ lv :: l2 -> FlatLevel.live lv = w1 ++ a :: w2 -> a ∉ w1 ->
  price o = FlatLevel.price lv ->
  let k := (Z.to_nat (FlatLevel.head_ lv) + length w1)%nat in
  remove_from_book a e =
    Some (with_book (set_side d (close_level l1 (level_without k (remaining_quantity o) lv) l2) (book e)) e).
Proof.
  intros Hinv Ha Hd Hs Hlive Hna Hp k. unfold remove_from_book. rewrite Ha. cbn [mbind option_bind].
  pose proof (so_sorted _ _ _ (inv_side _ _ Hinv d)) as Hsrt. rewrite Hs in Hsrt.
  rewrite Hd Hs Hp find_middle // list_lookup_middle //. cbn [mbind option_bind].
  fold (FlatLevel.live lv). rewrite Hlive index_of_from_app // insert_middle.
  replace (Nat.ltb _ _) with false by (symmetry; apply Nat.ltb_ge; lia). fold k.
  change (FlatLevel.mk _ _ _ _) with (level_without k (remaining_quantity o) lv).
  unfold close_level. destruct (FlatLevel.empty _); [|done].
  rewrite -(remove_middle d l1 (level_without k (remaining_quantity o) lv) l2) //.
  by apply (FlatPriceBookFacts.sorted_replace d l1 lv).
Qed.

Lemma level_without_ok p p' d l k a o w1 w2 :
  level_ok p d l -> FlatLevel.live l = w1 ++ a :: w2 -> deref p a = Some o ->
  k = (Z.to_nat (FlatLevel.head_ l) + length w1)%nat -> agree p p' (w1 ++ w2) -> w1 ++ w2 <> [] ->
  level_ok p' d (level_without k (remaining_quantity o) l).
Proof.
  intros [Hwf _ Ht Ho] Hlive Ha -> Hag Hne.
  destruct (level_without_live l (remaining_quantity o) a w1 w2 Hwf Hlive) as [Hwf' Hlive'].
  split; [done|by rewrite Hlive'| |].
  - rewrite Hlive' (sum_rem_agree p) //. simpl.
    rewrite Ht Hlive !fmap_app fmap_cons !sumZ_app sumZ_cons.
    assert (rem p a = remaining_quantity o) as -> by (unfold rem; by rewrite Ha).
    autorewrite with wraps. f_equal. lia.
  - rewrite Hlive'. simpl. rewrite Hlive in Ho. apply Forall_forall. intros i Hi.
    rewrite Forall_forall in Ho. eapply order_at_agree; [exact Hi|done|]. apply Ho.
    rewrite elem_of_app in Hi. rewrite elem_of_app elem_of_cons. tauto.
Qed.

Lemma close_level_ok p p' d l1 l k a o w1 w2 l2 :
  side_ok p d (l1 ++ l :: l2) -> FlatLevel.live l = w1 ++ a :: w2 -> deref p a = Some o ->
  k = (Z.to_nat (FlatLevel.head_ l) + length w1)%nat ->
  agree p p' (ptrs l1 ++ (w1 ++ w2) ++ ptrs l2) ->
  side_ok p' d (close_level l1 (level_without k (remaining_quantity o) l) l2).
Proof.
  intros [Hs Hl] Hlive Ha Hk Hag. apply Forall_app in Hl as [Hl1 [Hlv Hl2]%Forall_cons].
  assert (forall ls, (forall i, i ∈ ptrs ls -> i ∈ ptrs l1 ++ (w1 ++ w2) ++ ptrs l2) ->
    Forall (level_ok p d) ls -> Forall (level_ok p' d) ls) as Hkeep.
  { intros ls Hin. rewrite !Forall_forall. intros Hls x Hx. eapply level_ok_agree, Hls, Hx.
    eapply agree_mono, Hag. intros i Hi. apply Hin, elem_of_ptrs. eauto. }
  assert (Forall (level_ok p' d) l1) by (apply Hkeep; [intros i; rewrite !elem_of_app; tauto|done]).
  assert (Forall (level_ok p' d) l2) by (apply Hkeep; [intros i; rewrite !elem_of_app; tauto|done]).
  destruct (level_without_live l (remaining_quantity o) a w1 w2 (lo_wf _ _ _ Hlv) Hlive) as [Hwf Hlive'].
  rewrite -Hk in Hwf Hlive'. unfold close_level. rewrite FlatLevelFacts.empty_live // Hlive'.
  case_bool_decide as E.
  - split; [by eapply sorted_drop|by apply Forall_app].
  - split; [by eapply FlatPriceBookFacts.sorted_replace, Hs|]. apply Forall_app. split; [done|].
    constructor; [|done]. eapply level_without_ok; try done.
    eapply agree_mono, Hag. intros i. rewrite !elem_of_app. tauto.
Qed.

(** ** cancel_order *)

Lemma filter_keep {A} (Q : A -> Prop) `{!forall x, Decision (Q x)} (l : list A) :
  Forall Q l -> base.filter Q l = l.
Proof. induction 1 as [|x l Hx _ IH]; [done|]. rewrite filter_cons_True // IH //. Qed.

Lemma cancel_other p lk ps qs k a :
  tracked lk p qs -> lk !! k = Some a -> (forall i, i ∈ ps -> i ∈ qs) -> a ∉ ps ->
  base.filter (fun r => Spec.r_id r <> k) (abs_ptrs p ps) = abs_ptrs p ps.
Proof.
  intros Ht Hk Hsub Hna. apply filter_keep, Forall_forall.
  intros r (i & o & Hi & Ho & ->)%abs_ptrs_elem Hid. simpl in Hid.
  assert (lk !! k = Some i) as Hk' by (apply Ht; eauto). congruence.
Qed.

Lemma cancel_split p lk ps1 ps2 qs k a o :
  tracked lk p qs -> lk !! k = Some a -> deref p a = Some o ->
  NoDup (ps1 ++ a :: ps2) -> (forall i, i ∈ ps1 ++ a :: ps2 -> i ∈ qs) ->
  base.filter (fun r => Spec.r_id r <> k) (abs_ptrs p (ps1 ++ a :: ps2)) = abs_ptrs p (ps1 ++ ps2).
Proof.
  intros Ht Hk Ha Hnd Hsub. apply NoDup_app in Hnd as (_ & Hd & [Hn2 _]%NoDup_cons).
  assert (a ∉ ps1) as Hn1 by (intros Hin; apply (Hd a Hin); left).
  apply Ht in Hk as Hka. destruct Hka as (_ & o' & Ha' & Hid). simplify_eq.
  rewrite !abs_ptrs_app (abs_ptrs_cons _ _ _ _ Ha) filter_app.
  rewrite filter_cons_False; [by intros []|].
  rewrite !(cancel_other p lk _ qs (id o) a) //; intros i Hi; apply Hsub, elem_of_app;
    first [by left|by right; right].
Qed.

Record cancel_result (k : OrderID) (a : nat) e e' : Prop := {
  cr_inv : inv [] e';
  cr_abs : abs e' = Spec.cancel k (abs e);
  cr_owned i : owned (pool e') i <-> owned (pool e) i /\ i <> a;
  cr_sub i : i ∈ all_ptrs (book e') -> i ∈ all_ptrs (book e);
  cr_deref i : i <> a -> deref (pool e') i = deref (pool e) i;
  cr_lookup : order_lookup_ (book e') = delete k (order_lookup_ (book e));
  cr_ctx : ctx e' = ctx e;
  cr_next : next_trade_id_ (book e') = next_trade_id_ (book e);
  cr_weight : (book_weight (book e') <= book_weight (book e))%nat;
  cr_running : shutdown_requested_ (book e') = false;
  cr_bbo : bbo_snapshot_ (book e') =
    mkBBO (best_bid (book e')) (bid_quantity (book e')) (best_ask (book e')) (ask_quantity (book e'))
      (sequence (bbo_snapshot_ (book e)) +₆₄ 1 +₆₄ 1)
}.

(** The state after the order left its level, its table entry and its slot. *)
Section freed.
Variables (d : bool) (k : OrderID) (a : nat) (o : Order) (e e' : env P C).
Variables (l1 l2 : list FlatLevel.t) (lv : FlatLevel.t) (w1 w2 : list nat).
Hypothesis Hinv : inv [] e.
Hypothesis Hk : order_lookup_ (book e) !! k = Some a.
Hypothesis Ha : deref (pool e) a = Some o.
Hypothesis Hls : get_side d (book e) = l1 ++ lv :: l2.
Hypothesis Hlive : FlatLevel.live lv = w1 ++ a :: w2.
Hypothesis Hd : get_side d (book e') =
  close_level l1 (level_without (Z.to_nat (FlatLevel.head_ lv) + length w1) (remaining_quantity o) lv) l2.
Hypothesis Hoth : get_side (negb d) (book e') = get_side (negb d) (book e).
Hypothesis Hlk : order_lookup_ (book e') = delete k (order_lookup_ (book e)).
Hypothesis Hok : pool_ok (pool e').
Hypothesis Hde : forall i, i <> a -> deref (pool e') i = deref (pool e) i.
Hypothesis Hown : forall i, owned (pool e') i <-> owned (pool e) i /\ i <> a.

Let rest := (ptrs l1 ++ w1) ++ w2 ++ ptrs l2.
Let other := ptrs (get_side (negb d) (book e)).

Lemma freed_ptrs :
  ptrs (get_side d (book e)) = (ptrs l1 ++ w1) ++ a :: w2 ++ ptrs l2 /\
  ptrs (get_side d (book e')) = rest.
Proof using All.
  pose proof (inv_side _ _ Hinv d) as [_ Hl]. rewrite Hls in Hl.
  apply Forall_app in Hl as [_ [Hlv _]%Forall_cons].
  destruct (level_without_live lv (remaining_quantity o) a w1 w2 (lo_wf _ _ _ Hlv) Hlive) as [Hwf' Hlive'].
  rewrite Hd close_level_ptrs // Hlive' Hls ptrs_app ptrs_cons Hlive. unfold rest.
  by rewrite -!app_assoc.
Qed.

Lemma freed_nodup : NoDup (a :: rest ++ other).
Proof using All.
  pose proof (inv_nodup_side d _ _ Hinv) as Hnd. rewrite app_nil_r (proj1 freed_ptrs) in Hnd.
  eapply NoDup_Permutation_proper; [|exact Hnd]. unfold rest, other. by solve_Permutation.
Qed.

Lemma freed_agree ps : (forall i, i ∈ ps -> i ∈ rest \/ i ∈ other) -> agree (pool e) (pool e') ps.
Proof using All.
  intros Hps i Hi. pose proof freed_nodup as [Hna _]%NoDup_cons.
  assert (i <> a) by (intros ->; apply Hna, elem_of_app; auto).
  split; [by apply Hde|]. by rewrite Hown.
Qed.

Lemma freed_tracked : tracked (order_lookup_ (book e')) (pool e') (rest ++ other).
Proof using All.
  pose proof (inv_tracked_side d _ _ Hinv) as Ht. rewrite app_nil_r (proj1 freed_ptrs) in Ht.
  apply Ht in Hk as Hka. destruct Hka as (_ & oa & Hoa & Hid).
  assert (oa = o) as -> by congruence. rewrite Hlk -Hid.
  pose proof freed_nodup as [Hna _]%NoDup_cons.
  eapply (tracked_ext _ (pool e)); [done| |].
  - intros i Hi. rewrite Hde //. by intros ->.
  - eapply (tracked_delete _ _ _ _ a _ Ht); [rewrite !elem_of_app; left; right; left|done|].
    intros i. fold other. unfold rest in *. rewrite !elem_of_app elem_of_cons !elem_of_app in Hna |- *.
    destruct (decide (i = a)) as [->|]; tauto.
Qed.

Lemma freed_inv : inv [] e'.
Proof using All.
  pose proof (inv_side _ _ Hinv d) as Hside. rewrite Hls in Hside.
  eapply (inv_rebuild d [] [] e e' _ Hinv eq_refl Hoth).
  - rewrite Hd. eapply close_level_ok; [exact Hside|done|done|done|]. apply freed_agree.
    intros i. unfold rest. rewrite !elem_of_app. tauto.
  - apply freed_agree. by right.
  - rewrite (proj2 freed_ptrs) app_nil_r. by pose proof freed_nodup as [_ ?]%NoDup_cons.
  - rewrite (proj2 freed_ptrs) app_nil_r. apply freed_tracked.
  - done.
  - intros x y Hx Hy. rewrite Hd in Hx.
    destruct (close_level_elem x l1 lv _ l2 Hx eq_refl) as (x' & Hx' & ->).
    apply (inv_uncrossed _ _ Hinv d); [by rewrite Hls|done].
Qed.

Lemma freed_abs : abs e' = Spec.cancel k (abs e).
Proof using All.
  pose proof (inv_tracked_side d _ _ Hinv) as Ht. rewrite app_nil_r in Ht.
  pose proof (inv_nodup_side d _ _ Hinv) as Hnd. rewrite app_nil_r in Hnd.
  destruct freed_ptrs as [Hp Hp']. pose proof freed_nodup as [Hna _]%NoDup_cons.
  assert (abs_side (pool e') (get_side d (book e')) =
    base.filter (fun r => Spec.r_id r <> k) (abs_side (pool e) (get_side d (book e)))) as H1.
  { unfold abs_side. rewrite Hp Hp' (abs_ptrs_agree (pool e)); [apply freed_agree; by left|].
    rewrite Hp in Hnd, Ht. symmetry.
    eapply cancel_split; [exact Ht|done|done|by apply NoDup_app in Hnd as [? _]|].
    intros i Hi. apply elem_of_app. by left. }
  assert (abs_side (pool e') (get_side (negb d) (book e')) =
    base.filter (fun r => Spec.r_id r <> k) (abs_side (pool e) (get_side (negb d) (book e)))) as H2.
  { unfold abs_side. rewrite Hoth (abs_ptrs_agree (pool e)); [apply freed_agree; by right|].
    symmetry. eapply cancel_other; [exact Ht|done| |].
    - intros i Hi. apply elem_of_app. by right.
    - intros Hin. apply Hna, elem_of_app. by right. }
  unfold abs, Spec.cancel; simpl. clear -H1 H2. by destruct d; simpl in *; rewrite H1 H2.
Qed.

End freed.

(** Where a tracked order rests. *)
Lemma tracked_resting k a e :
  inv [] e -> order_lookup_ (book e) !! k = Some a ->
  exists o l1 lv l2 w1 w2,
    deref (pool e) a = Some o /\ owned (pool e) a /\
    get_side (is_buy (side o)) (book e) = l1 ++ lv :: l2 /\
    FlatLevel.live lv = w1 ++ a :: w2 /\ (a ∉ w1) /\ price o = FlatLevel.price lv.
Proof.
  intros Hinv Hk. pose proof (inv_tracked _ _ Hinv) as Ht. rewrite app_nil_r in Ht.
  apply Ht in Hk as (Hin & o & Ha & _). set (d := is_buy (side o)).
  assert (a ∈ ptrs (get_side d (book e))) as Hd.
  { rewrite (all_ptrs_side d) elem_of_app in Hin. destruct Hin as [H|H]; [done|].
    destruct (inv_ptr _ _ _ _ Hinv H) as (_ & o' & Ho' & Hs & _). simplify_eq.
    exfalso. revert Hs. unfold d. clear. by destruct (is_buy (side o)). }
  destruct (inv_ptr _ _ _ _ Hinv Hd) as (Hown & _).
  destruct (ptr_split _ _ Hd) as (l1 & lv & l2 & w1 & w2 & Hls & Hlive & Hna).
  exists o, l1, lv, l2, w1, w2. split_and!; try done.
  pose proof (inv_side _ _ Hinv d) as [_ Hl]. rewrite Hls in Hl.
  apply Forall_app in Hl as [_ [Hlv _]%Forall_cons]. pose proof (lo_orders _ _ _ Hlv) as Ho.
  rewrite Hlive in Ho. apply Forall_app in Ho as [_ [(_ & o' & Ho' & Hp & _) _]%Forall_cons].
  by simplify_eq.
Qed.

Lemma cancel_order_spec k a e :
  inv [] e -> shutdown_requested_ (book e) = false -> order_lookup_ (book e) !! k = Some a ->
  exists e', cancel_order k e = Some (Value tt, e') /\ cancel_result k a e e'.
Proof.
  intros Hinv Hsd Hk.
  destruct (tracked_resting k a e Hinv Hk) as (o & l1 & lv & l2 & w1 & w2 & Ha & Hown & Hls & Hlive & Hna & Hp).
  set (d := is_buy (side o)) in *.
  unfold cancel_order. rewrite Hsd Hk (remove_from_book_eq a o e l1 lv l2 w1 w2 d) //.
  cbn [mbind option_bind]. set (e1 := with_book (set_lookup _ _) _).
  assert (deref (pool e1) a = Some o) as Ha1 by done. rewrite (modify_some _ _ _ _ Ha1). cbn [mbind option_bind].
  destruct (deallocate_owned (store a (set_status CANCELLED o) (pool e1)) a)
    as (p' & -> & Hok & Hde & Hw); [apply pool_ok_store, (inv_pool _ _ Hinv)|by apply owned_store|].
  cbn [mbind option_bind]. eexists. split; [reflexivity|]. set (e2 := with_pool p' e1).
  assert (forall i, i <> a -> deref (pool e2) i = deref (pool e) i) as Hde2.
  { intros i Hi. simpl. rewrite Hde. by apply deref_store_ne. }
  assert (forall i, owned (pool e2) i <-> owned (pool e) i /\ i <> a) as Hw2.
  { intros i. simpl. by rewrite Hw owned_store. }
  assert (get_side d (book e2) = close_level l1
    (level_without (Z.to_nat (FlatLevel.head_ lv) + length w1) (remaining_quantity o) lv) l2) as Hd2.
  { cbn. by rewrite get_side_set_lookup get_set_side. }
  assert (get_side (negb d) (book e2) = get_side (negb d) (book e)) as Hnd2.
  { cbn. by rewrite get_side_set_lookup get_set_side_other. }
  assert (order_lookup_ (book e2) = delete k (order_lookup_ (book e))) as Hlk2.
  { cbn. by rewrite lookup_set_side. }
  split; try done.
  - apply inv_update_bbo. by eapply (freed_inv d k a o e e2 l1 l2 lv w1 w2).
  - rewrite abs_update_bbo. by eapply (freed_abs d k a o e e2 l1 l2 lv w1 w2).
  - intros i. change (i ∈ all_ptrs (book e2) -> i ∈ all_ptrs (book e)).
    rewrite (all_ptrs_side d (book e)) (all_ptrs_side d (book e2)) Hnd2 !elem_of_app.
    destruct (freed_ptrs d k a o e e2 l1 l2 lv w1 w2) as [-> ->]; try done.
    rewrite !elem_of_app elem_of_cons !elem_of_app. clear. tauto.
  - cbn. by rewrite next_set_side.
  - assert (weight (get_side d (book e2)) <= weight (get_side d (book e)))%nat as Hwt.
    { rewrite Hd2 Hls. apply close_level_weight. }
    clear -Hwt Hnd2. unfold book_weight in *. destruct d; simpl in *; lia.
  - cbn. by rewrite shutdown_set_side.
  - cbn. by rewrite bbo_set_side.
Qed.

End cancel.
