(* ===== verification/OrderBookMaint.v ===== *)
(** * Shutdown, maintenance and market depth

    [shutdown] gives every resting order back to the pool, [compact] and
    [prune] rearrange levels without changing the book they represent, and
    [get_depth] reports the best levels of each side. *)

From S2P Require Import Prelude.
From S2P Require Import Types.
From S2P Require Import ErrorHandling.
From S2P Require Import OrderPool.
From S2P Require Import PriceLevels.
From S2P Require Import OrderBook.
From S2P Require Import OrderBookSpec.
From S2P Require Import OrderBookInv.
From S2P Require Import OrderBookMatch.
From S2P Require Import OrderBookAdd.
From S2P Require Import OrderBookCancel.
Import OrderBook.

(** ** Depth *)

Definition depth_entry (l : FlatLevel.t) : DepthLevel :=
  mkDepthLevel (FlatLevel.price l) (FlatLevel.total_quantity l) (wrap 32 (FlatLevel.size l)).

Lemma fill_depth_spec max ls out n :
  Forall (fun l => FlatLevel.empty l = false) ls ->
  (n <= MAX_DEPTH_LEVELS)%nat -> length out = MAX_DEPTH_LEVELS ->
  let k := (Nat.min (Nat.min max MAX_DEPTH_LEVELS - n) (length ls))%nat in
  fill_depth max ls out n = (take n out ++ (depth_entry <$> take k ls) ++ drop (n + k) out, (n + k)%nat).
Proof.
  intros Hne. revert out n. induction Hne as [|l ls Hl _ IH]; intros out n Hn Hlen; cbn [fill_depth length].
  - by rewrite Nat.min_0_r Nat.add_0_r take_nil /= take_drop.
  - destruct (Nat.ltb_spec n max) as [H1|H1]; cbn [andb].
    2: { replace (Nat.min max MAX_DEPTH_LEVELS - n)%nat with 0%nat by lia.
         by rewrite /= Nat.add_0_r take_drop. }
    destruct (Nat.ltb_spec n MAX_DEPTH_LEVELS) as [H2|H2].
    2: { replace (Nat.min max MAX_DEPTH_LEVELS - n)%nat with 0%nat by lia.
         by rewrite /= Nat.add_0_r take_drop. }
    rewrite Hl IH; [lia|by rewrite length_insert|].
    replace (Nat.min (Nat.min max MAX_DEPTH_LEVELS - n) (S (length ls)))
      with (S (Nat.min (Nat.min max MAX_DEPTH_LEVELS - S n) (length ls))) by lia.
    generalize (Nat.min (Nat.min max MAX_DEPTH_LEVELS - S n) (length ls)). intros k.
    f_equal; [|lia]. rewrite (take_S_r _ _ (depth_entry l)).
    { apply list_lookup_insert_eq. lia. }
    rewrite take_insert_ge // drop_insert_lt; [lia|]. rewrite -app_assoc. simpl.
    by replace (n + S k)%nat with (S (n + k)) by lia.
Qed.

Section maint.
Context {P C : Type} `{!OrderPool P}.
Implicit Types p : P.
Implicit Types e : env P C.

Lemma levels_nonempty p d ls : side_ok p d ls -> Forall (fun l => FlatLevel.empty l = false) ls.
Proof.
  intros [_ Hl]. eapply Forall_impl; [exact Hl|]. intros l [Hwf Hlive _ _].
  rewrite FlatLevelFacts.empty_live //. by apply bool_decide_eq_false_2.
Qed.

(** ** Compaction *)

Definition compact_level (l : FlatLevel.t) : FlatLevel.t :=
  if FlatLevel.needs_compaction l then FlatLevel.compact l else l.

Lemma compact_level_live l :
  FlatLevel.live (compact_level l) = FlatLevel.live l /\
  FlatLevel.price (compact_level l) = FlatLevel.price l /\
  FlatLevel.total_quantity (compact_level l) = FlatLevel.total_quantity l.
Proof. unfold compact_level. destruct (FlatLevel.needs_compaction l); [apply FlatLevelFacts.compact_live|done]. Qed.

Lemma compact_level_ok p d l : level_ok p d l -> level_ok p d (compact_level l).
Proof.
  destruct (compact_level_live l) as (Hl & Hp & Ht). intros [H1 H2 H3 H4].
  split; rewrite ?Hl ?Hp ?Ht //. unfold compact_level.
  destruct (FlatLevel.needs_compaction l); [by apply FlatLevelFacts.compact_wf|done].
Qed.

Lemma compact_all_ptrs ls : ptrs (FlatPriceBook.compact_all ls) = ptrs ls.
Proof.
  unfold FlatPriceBook.compact_all. induction ls as [|l ls IH]; [done|].
  rewrite fmap_cons !ptrs_cons IH. f_equal. apply (compact_level_live l).
Qed.

Lemma compact_all_sorted d ls :
  FlatPriceBook.sorted d ls -> FlatPriceBook.sorted d (FlatPriceBook.compact_all ls).
Proof.
  unfold FlatPriceBook.sorted, FlatPriceBook.compact_all.
  induction 1 as [|l ls Hs IH Hl]; [constructor|]. rewrite fmap_cons. constructor; [done|].
  apply Forall_fmap. eapply Forall_impl; [exact Hl|]. intros x. unfold FlatPriceBook.lt_level, compose.
  by rewrite (proj1 (proj2 (compact_level_live l))) (proj1 (proj2 (compact_level_live x))).
Qed.

Lemma compact_all_side_ok p d ls : side_ok p d ls -> side_ok p d (FlatPriceBook.compact_all ls).
Proof.
  intros [Hs Hl]. split; [by apply compact_all_sorted|]. apply Forall_fmap.
  eapply Forall_impl; [exact Hl|]. intros l. apply compact_level_ok.
Qed.

Lemma compact_all_price x ls :
  x ∈ FlatPriceBook.compact_all ls -> exists y, y ∈ ls /\ FlatLevel.price x = FlatLevel.price y.
Proof.
  intros (y & -> & Hy)%list_elem_of_fmap. exists y. split; [done|]. apply (compact_level_live y).
Qed.

Lemma get_side_compact d (b : OrderBook.t) :
  get_side d (compact b) = FlatPriceBook.compact_all (get_side d b).
Proof. by destruct d. Qed.

Lemma all_ptrs_compact (b : OrderBook.t) : all_ptrs (compact b) = all_ptrs b.
Proof. unfold all_ptrs. simpl. by rewrite !compact_all_ptrs. Qed.

Lemma inv_compact extra e : inv extra e -> inv extra (with_book (compact (book e)) e).
Proof.
  intros [H1 H2 H3 H4 H5]. split; simpl; [| | |done|].
  - intros d. rewrite get_side_compact. by apply compact_all_side_ok.
  - by rewrite all_ptrs_compact.
  - by rewrite all_ptrs_compact.
  - intros d x y. rewrite !get_side_compact.
    intros (x' & Hx & ->)%compact_all_price (y' & Hy & ->)%compact_all_price. by apply H5.
Qed.

Lemma abs_compact e : abs (with_book (compact (book e)) e) = abs e.
Proof. unfold abs, abs_side. simpl. by rewrite !compact_all_ptrs. Qed.

Lemma prune_inv extra e : inv extra e -> prune (book e) = book e.
Proof.
  intros Hinv. unfold prune, FlatPriceBook.prune_empty.
  pose proof (levels_nonempty _ _ _ (inv_side _ _ Hinv true)) as Hb.
  pose proof (levels_nonempty _ _ _ (inv_side _ _ Hinv false)) as Hz.
  rewrite !filter_keep //. by destruct (book e).
Qed.

Lemma compact_weight (b : OrderBook.t) : (book_weight (compact b) <= book_weight b)%nat.
Proof.
  assert (forall ls, (weight (FlatPriceBook.compact_all ls) <= weight ls)%nat) as Hle.
  { unfold weight. induction ls as [|l ls IH]; [done|]. simpl.
    destruct (FlatLevel.needs_compaction l); [|lia]. unfold FlatLevel.compact.
    destruct (FlatLevel.head_ l =? 0); simpl; rewrite ?length_drop; lia. }
  unfold book_weight. simpl. pose proof (Hle (bids_ b)). pose proof (Hle (asks_ b)). lia.
Qed.

(** ** Shutdown *)

Lemma cancel_all_spec (entries : list (Z * nat)) p :
  pool_ok p -> NoDup entries.*2 -> (forall i, i ∈ entries.*2 -> owned p i) ->
  exists p', cancel_all entries p = Some p' /\ pool_ok p' /\
    (forall i, owned p' i <-> owned p i /\ i ∉ entries.*2) /\
    (forall i, i ∉ entries.*2 -> deref p' i = deref p i) /\
    (forall i, i ∈ entries.*2 -> status <$> deref p' i = Some CANCELLED).
Proof.
  revert p. induction entries as [|[k a] rest IH]; intros p Hok Hnd Hown; simpl.
  - exists p. split_and!; try done; [|by intros i ?%not_elem_of_nil].
    intros i. split; [|by intros []]. split; [done|apply not_elem_of_nil].
  - apply NoDup_cons in Hnd as [Hna Hnd]. simpl in Hna, Hnd.
    destruct (owned_deref p a Hok (Hown a ltac:(left))) as [o Ho]. rewrite (modify_some _ _ _ _ Ho) /=.
    destruct (deallocate_owned (store a (set_status CANCELLED o) p) a) as (p1 & Hd & Hok1 & Hde & Hw);
      [by apply pool_ok_store|apply owned_store, Hown; left|]. rewrite Hd /=.
    destruct (IH p1 Hok1 Hnd) as (p' & Hc & Hok' & Hw' & Hde' & Hst).
    { intros i Hi. apply Hw. split; [apply owned_store, Hown; by right|]. by intros ->. }
    exists p'. split_and!; [done|done| | |].
    + intros i. rewrite Hw' Hw owned_store not_elem_of_cons. tauto.
    + intros i [Hia Hi]%not_elem_of_cons. rewrite Hde' // Hde. by apply deref_store_ne.
    + intros i [->|Hi]%elem_of_cons; [|by apply Hst].
      rewrite Hde' // Hde deref_store_eq //.
Qed.

Lemma tracked_values lk p ps (entries : list (Z * nat)) :
  tracked lk p ps -> (forall i, i ∈ ps -> is_Some (deref p i)) -> entries ≡ₚ map_to_list lk ->
  NoDup entries.*2 /\ (forall i, i ∈ entries.*2 <-> i ∈ ps).
Proof.
  intros Ht Hd He. split.
  - rewrite He. apply (NoDup_fmap_2_strong snd); [|apply NoDup_map_to_list].
    intros [k1 i1] [k2 i2] H1%elem_of_map_to_list H2%elem_of_map_to_list. simpl. intros ->.
    apply Ht in H1 as (_ & o1 & Ho1 & <-), H2 as (_ & o2 & Ho2 & <-). congruence.
  - intros i. rewrite He list_elem_of_fmap. split.
    + intros ([k j] & -> & Hj%elem_of_map_to_list). by apply Ht in Hj as [? _].
    + intros Hi. destruct (Hd i Hi) as [o Ho]. exists (id o, i). split; [done|].
      apply elem_of_map_to_list, Ht. eauto.
Qed.

Lemma shutdown_spec iteration e :
  inv [] e -> iteration (order_lookup_ (book e)) ≡ₚ map_to_list (order_lookup_ (book e)) ->
  exists e', shutdown iteration e = Some e' /\ inv [] e' /\ abs e' = Spec.mkbook [] [] /\
    shutdown_requested_ (book e') = true /\ ctx e' = ctx e /\
    bbo_snapshot_ (book e') = bbo_snapshot_ (book e) /\
    (forall i, owned (pool e') i <-> owned (pool e) i /\ i ∉ all_ptrs (book e)) /\
    (forall i, i ∈ all_ptrs (book e) -> status <$> deref (pool e') i = Some CANCELLED).
Proof.
  intros Hinv Hit. pose proof (inv_tracked _ _ Hinv) as Ht. rewrite app_nil_r in Ht.
  assert (forall i, i ∈ all_ptrs (book e) -> owned (pool e) i) as Hown.
  { intros i. rewrite (all_ptrs_side true) elem_of_app.
    intros [H|H]; by destruct (inv_ptr _ _ _ _ Hinv H) as (? & _). }
  destruct (tracked_values _ _ _ (iteration (order_lookup_ (book e))) Ht)
    as [Hnd Hin]; [|done|].
  { intros i Hi. apply owned_deref; [apply (inv_pool _ _ Hinv)|by apply Hown]. }
  destruct (cancel_all_spec _ (pool e) (inv_pool _ _ Hinv) Hnd) as (p' & Hc & Hok & Hw & _ & Hst).
  { intros i Hi. by apply Hown, Hin. }
  unfold shutdown. simpl order_lookup_. rewrite Hc /=. eexists. split; [reflexivity|].
  split_and!; try done.
  - split; [by intros []; split; constructor|constructor| |done|by intros [] x y ?%not_elem_of_nil].
    intros k i. simpl. split; [by rewrite lookup_empty|by intros [?%not_elem_of_nil _]].
  - intros i. simpl. by rewrite Hw Hin.
  - intros i Hi. simpl. by apply Hst, Hin.
Qed.

End maint.
