(* ===== verification/OrderBookTheorems.v ===== *)
(** * What the order book guarantees

    The sequences of operations an order book goes through, the invariant over
    all of them, and the guarantees derived from the refinement: every operation
    is safe and implements the abstract book, quantities are conserved, trades
    follow price-time priority, and the published snapshot is the best bid and
    offer. *)

From S2P Require Import Prelude.
From S2P Require Import Types.
From S2P Require Import ErrorHandling.
From S2P Require Import MemoryPool.
From S2P Require Import OrderPool.
From S2P Require Import PriceLevels.
From S2P Require Import OrderBook.
From S2P Require Import OrderBookSpec.
From S2P Require Import OrderBookInv.
From S2P Require Import OrderBookMatch.
From S2P Require Import OrderBookAdd.
From S2P Require Import OrderBookCancel.
From S2P Require Import OrderBookMaint.
Import OrderBook.

(** ** Facts about the abstract book *)

Lemma match_against_priority cr q rs fs q' out :
  Spec.match_against cr q rs = (fs, q', out) ->
  (Spec.f_id <$> fs) `prefix_of` (Spec.r_id <$> rs) /\
  (Spec.f_price <$> fs) `prefix_of` (Spec.r_price <$> rs).
Proof.
  revert q fs q' out. induction rs as [|r rs IH]; intros q fs q' out; simpl.
  - intros [= <- <- <-]. done.
  - assert (([] : list Z) `prefix_of` Spec.r_id r :: (Spec.r_id <$> rs) /\
      ([] : list Z) `prefix_of` Spec.r_price r :: (Spec.r_price <$> rs)) by (split; apply prefix_nil).
    destruct (q =? 0); [by intros [= <- <- <-]|].
    destruct (cr (Spec.r_price r)); [|by intros [= <- <- <-]].
    destruct (Spec.r_qty r <=? q).
    + destruct (Spec.match_against cr (q - Spec.r_qty r) rs) as [[fs0 q0] out0] eqn:E.
      intros [= <- <- <-]. destruct (IH _ _ _ _ E) as [H1 H2].
      split; rewrite fmap_cons; by apply prefix_cons.
    + intros [= <- <- <-]. split; apply prefix_cons, prefix_nil.
Qed.

Lemma in_priority_place d r rs : Spec.in_priority d rs -> Spec.in_priority d (Spec.place d r rs).
Proof.
  unfold Spec.in_priority. induction 1 as [|x rs Hs IH Hx]; simpl; [by repeat constructor|].
  destruct (FlatPriceBook.before d (Spec.r_price r) (Spec.r_price x)) eqn:E.
  - constructor; [by constructor|]. constructor; [by apply FlatPriceBookFacts.before_asym|].
    eapply Forall_impl; [exact Hx|]. intros y Hy. simpl in Hy.
    destruct (FlatPriceBook.before d (Spec.r_price y) (Spec.r_price r)) eqn:E2; [|done].
    rewrite (FlatPriceBookFacts.before_trans d _ _ _ E2 E) in Hy. done.
  - constructor; [done|]. rewrite Spec.place_perm. by constructor.
Qed.

(** ** Runs *)

Section runs.
Context {P C : Type} `{!OrderPool P}.
Variable steady_clock : nat -> Timestamp.
Variable trade_callback_ : option (Trade -> C -> C).
Implicit Types e : env P C.

(** What happens to a book: its clients take slots from the pool and write
    orders into slots that are not resting; its engine adds and cancels orders,
    compacts, prunes and finally shuts down.  An order is added while the side
    it may trade with has fewer than 2^32 entries per level. *)
Inductive step : env P C -> env P C -> Prop :=
  | step_take e p' a :
      ~ owned (pool e) a -> pool_ok p' ->
      (forall i, owned p' i <-> owned (pool e) i \/ i = a) ->
      (forall i, deref p' i = deref (pool e) i) ->
      step e (with_pool p' e)
  | step_write e a o :
      owned (pool e) a -> a ∉ all_ptrs (book e) -> step e (with_pool (store a o (pool e)) e)
  | step_add e a o r e' :
      owned (pool e) a -> a ∉ all_ptrs (book e) -> deref (pool e) a = Some o ->
      0 <= remaining_quantity o < 2 ^ 64 ->
      small (get_side (negb (is_buy (side o))) (book e)) ->
      add_order steady_clock trade_callback_ (Some a) e = Some (r, e') -> step e e'
  | step_cancel e k r e' : cancel_order k e = Some (r, e') -> step e e'
  | step_maintain e : step e (with_book (prune (compact (book e))) e)
  | step_shutdown e iteration e' :
      iteration (order_lookup_ (book e)) ≡ₚ map_to_list (order_lookup_ (book e)) ->
      shutdown iteration e = Some e' -> step e e'.

Lemma inv_make sym p c n : pool_ok p -> inv [] (mkenv (make sym) p c n : env P C).
Proof.
  intros Hok. split; [by intros []; split; constructor|constructor| |done|by intros [] x y ?%not_elem_of_nil].
  intros k i. simpl. split; [by rewrite lookup_empty|by intros [?%not_elem_of_nil _]].
Qed.

(** A change of the pool that leaves the resting orders alone. *)
Lemma inv_with_pool e p' :
  inv [] e -> agree (pool e) p' (all_ptrs (book e)) -> pool_ok p' -> inv [] (with_pool p' e).
Proof.
  intros [H1 H2 H3 H4 H5] Ha Hok. split; simpl; [|done| |done|done].
  - intros d. eapply side_ok_agree, H1. eapply agree_mono, Ha. intros i Hi.
    rewrite (all_ptrs_side d). apply elem_of_app. by left.
  - rewrite app_nil_r in H3 |- *. eapply tracked_ext; [done| |exact H3].
    intros i Hi. by rewrite (proj1 (Ha i Hi)).
Qed.

(** [add_order] on any order the caller may pass: it returns, and either
    reports an error and changes nothing or adds the order. *)
Lemma add_order_total e a o :
  inv [] e -> owned (pool e) a -> a ∉ all_ptrs (book e) -> deref (pool e) a = Some o ->
  0 <= remaining_quantity o < 2 ^ 64 -> small (get_side (negb (is_buy (side o))) (book e)) ->
  exists r e', add_order steady_clock trade_callback_ (Some a) e = Some (r, e') /\
    match r with
    | Error _ => e' = e /\ ~ acceptable a o e
    | Value _ => acceptable a o e
    end /\ inv [] e'.
Proof.
  intros Hinv Hown Hna Ho Hr Hsm.
  destruct (shutdown_requested_ (book e)) eqn:Hsd.
  { exists (err SYSTEM_SHUTDOWN), e. unfold add_order. rewrite Hsd.
    split_and!; [done|split; [done|by intros []; congruence]|done]. }
  destruct (Z.eqb_spec (remaining_quantity o) 0) as [Hz|Hnz].
  { exists (err ORDER_INVALID), e. unfold add_order. rewrite Hsd Ho. cbn [mbind option_bind].
    rewrite Hz. split_and!; [done|split; [done|by intros []; lia]|done]. }
  destruct (order_lookup_ (book e) !! id o) as [j|] eqn:Hlk.
  { exists (err ORDER_DUPLICATE), e. unfold add_order. rewrite Hsd Ho. cbn [mbind option_bind].
    rewrite (proj2 (Z.eqb_neq _ _) Hnz) Hlk. split_and!; [done|split; [done|by intros []; congruence]|done]. }
  assert (acceptable a o e) as Hac by (split; done || lia).
  pose proof (add_order_spec steady_clock trade_callback_ a o e Hinv Hac) as Hspec.
  destruct (Spec.add _ _ _ _) as [fs b']. destruct Hspec as (e' & He & Hres).
  exists (Value tt), e'. split_and!; [done|done|]. apply (ar_inv _ _ _ _ _ _ _ _ Hres).
Qed.

(** [cancel_order] returns on every id. *)
Lemma cancel_order_total e k :
  inv [] e -> exists r e', cancel_order k e = Some (r, e') /\
    match r with
    | Error _ => e' = e /\ (shutdown_requested_ (book e) = true \/ order_lookup_ (book e) !! k = None)
    | Value _ => exists a, order_lookup_ (book e) !! k = Some a /\ cancel_result k a e e'
    end /\ inv [] e'.
Proof.
  intros Hinv. destruct (shutdown_requested_ (book e)) eqn:Hsd.
  { exists (err SYSTEM_SHUTDOWN), e. unfold cancel_order. rewrite Hsd.
    split_and!; [done|by split; [|left]|done]. }
  destruct (order_lookup_ (book e) !! k) as [a|] eqn:Hk.
  - destruct (cancel_order_spec k a e Hinv Hsd Hk) as (e' & He & Hres).
    exists (Value tt), e'. split_and!; [done|eauto|apply (cr_inv _ _ _ _ Hres)].
  - exists (err ORDER_NOT_FOUND), e. unfold cancel_order. rewrite Hsd Hk.
    split_and!; [done|by split; [|right]|done].
Qed.

Lemma book_step_inv e e' : inv [] e -> step e e' -> inv [] e'.
Proof.
  intros Hinv Hs. destruct Hs as [e p' a Hna Hok Hw Hd|e a o Hown Hna|e a o r e' Hown Hna Ho Hr Hsm He
    |e k r e' He|e|e iteration e' Hit He].
  - apply inv_with_pool; [done| |done]. intros i Hi. split; [done|]. rewrite Hw. by left.
  - apply inv_with_pool; [done| |by apply pool_ok_store, (inv_pool _ _ Hinv)].
    intros i Hi. split; [apply deref_store_ne; by intros ->|by rewrite owned_store].
  - destruct (add_order_total e a o Hinv Hown Hna Ho Hr Hsm) as (r' & e1 & He1 & _ & Hi).
    rewrite He in He1. by simplify_eq.
  - destruct (cancel_order_total e k Hinv) as (r' & e1 & He1 & _ & Hi). rewrite He in He1. by simplify_eq.
  - pose proof (inv_compact _ _ Hinv) as Hc.
    change (inv [] (with_book (prune (book (with_book (compact (book e)) e))) (with_book (compact (book e)) e))).
    by rewrite (prune_inv [] _ Hc).
  - destruct (shutdown_spec iteration e Hinv Hit) as (e1 & He1 & Hi & _). rewrite He in He1. by simplify_eq.
Qed.

Definition reachable (sym : cstring) e : Prop :=
  exists p c n, pool_ok p /\ rtc step (mkenv (make sym) p c n) e.

Lemma reachable_inv sym e : reachable sym e -> inv [] e.
Proof.
  intros (p & c & n & Hok & Hr). apply (inv_make sym p c n) in Hok.
  induction Hr as [|x y z Hs _ IH]; [done|]. by eapply IH, book_step_inv.
Qed.

End runs.

(** ** Reading the invariant *)

Section reading.
Context {P C : Type} `{!OrderPool P}.
Implicit Types p : P.
Implicit Types e : env P C.

Lemma abs_side_length p d ls : side_ok p d ls -> length (abs_side p ls) = length (ptrs ls).
Proof.
  intros Hs. assert (forall i, i ∈ ptrs ls -> is_Some (deref p i)) as Hd.
  { intros i Hi. destruct (side_ok_ptr _ _ _ _ Hs Hi) as (px & _ & o & Ho & _). by exists o. }
  clear Hs. unfold abs_side. induction (ptrs ls) as [|i ps IH]; [done|].
  destruct (Hd i ltac:(left)) as [o Ho]. rewrite (abs_ptrs_cons _ _ _ _ Ho) /= IH //.
  intros j Hj. apply Hd. by right.
Qed.

Lemma order_count_resting e :
  inv [] e ->
  order_count (book e) = (length (Spec.sb_bids (abs e)) + length (Spec.sb_asks (abs e)))%nat.
Proof.
  intros Hinv. unfold abs. simpl.
  rewrite (abs_side_length _ true) ?(abs_side_length _ false);
    [apply (inv_side _ _ Hinv true)|apply (inv_side _ _ Hinv false)|].
  pose proof (inv_tracked _ _ Hinv) as Ht. pose proof (inv_nodup _ _ Hinv) as Hnd.
  rewrite app_nil_r in Ht, Hnd.
  destruct (tracked_values _ _ _ (map_to_list (order_lookup_ (book e))) Ht) as [Hnd' Hin]; [|done|].
  { intros i Hi. rewrite (all_ptrs_side true) elem_of_app in Hi.
    destruct Hi as [Hi|Hi]; destruct (inv_ptr _ _ _ _ Hinv Hi) as (_ & o & Ho & _); by exists o. }
  pose proof (Permutation_length (NoDup_Permutation _ _ Hnd' Hnd Hin)) as Hlen.
  rewrite length_fmap length_map_to_list /all_ptrs length_app in Hlen. exact Hlen.
Qed.

Lemma level_priority p d px ps rs :
  Forall (order_at p d px) ps -> Spec.in_priority d rs ->
  (forall r, r ∈ rs -> FlatPriceBook.before d (Spec.r_price r) px = false) ->
  Spec.in_priority d (abs_ptrs p ps ++ rs).
Proof.
  intros Ho Hrs Hpx. induction Ho as [|i ps Hi Ho IH]; [done|].
  destruct Hi as (_ & o & Hd & Hp & _). rewrite (abs_ptrs_cons _ _ _ _ Hd). simpl.
  constructor; [done|]. apply Forall_forall. intros r Hr. simpl. rewrite Hp.
  apply elem_of_app in Hr as [Hr|Hr]; [|by apply Hpx].
  rewrite (abs_live_price _ _ _ _ _ Ho Hr). apply FlatPriceBookFacts.before_irrefl.
Qed.

Lemma side_priority p d ls : side_ok p d ls -> Spec.in_priority d (abs_side p ls).
Proof.
  induction ls as [|l ls IH]; [constructor|]. intros (Hl & Hs & Hlt)%side_ok_cons.
  unfold abs_side. rewrite ptrs_cons abs_ptrs_app.
  apply (level_priority _ _ (FlatLevel.price l)); [apply (lo_orders _ _ _ Hl)|by apply IH|].
  intros r Hr. destruct (abs_side_price _ _ _ _ (so_levels _ _ _ Hs) Hr) as (x & Hx & ->).
  apply FlatPriceBookFacts.before_asym. rewrite Forall_forall in Hlt. by apply Hlt.
Qed.

Lemma inv_priority e d : inv [] e -> Spec.in_priority d (Spec.get d (abs e)).
Proof. intros Hinv. rewrite abs_get. apply side_priority, (inv_side _ _ Hinv). Qed.

Lemma inv_not_crossed e :
  inv [] e -> bids_ (book e) <> [] -> asks_ (book e) <> [] -> best_bid (book e) < best_ask (book e).
Proof.
  intros Hinv Hb Ha. pose proof (inv_uncrossed _ _ Hinv true) as Hu. unfold uncrossed in Hu. simpl in Hu.
  unfold best_bid, best_ask, FlatPriceBook.best_price.
  destruct (bids_ (book e)) as [|x bs]; [done|]. destruct (asks_ (book e)) as [|y az]; [done|].
  specialize (Hu x y ltac:(left) ltac:(left)). lia.
Qed.

(** The quantity a level reports is that of the orders resting at its price. *)
Lemma rem_abs p ps : sumZ (rem p <$> ps) = Spec.resting_total (abs_ptrs p ps).
Proof.
  unfold Spec.resting_total, abs_ptrs. induction ps as [|i ps IH]; [done|]. cbn -[sumZ].
  rewrite sumZ_cons IH. unfold rem at 1. destruct (deref p i); simpl; [done|lia].
Qed.

(** The best level holds exactly the resting orders at the best price. *)
Lemma filter_price_none p d px ls :
  side_ok p d ls -> Forall (fun l => FlatPriceBook.before d px (FlatLevel.price l) = true) ls ->
  base.filter (fun r => Spec.r_price r = px) (abs_side p ls) = [].
Proof.
  intros Hs Hlt. destruct (base.filter _ _) as [|r rs] eqn:E; [done|].
  assert (r ∈ base.filter (fun r => Spec.r_price r = px) (abs_side p ls)) as Hin by (rewrite E; left).
  apply list_elem_of_filter in Hin as [He Hr].
  destruct (abs_side_price _ _ _ _ (so_levels _ _ _ Hs) Hr) as (x & Hx & Hpx).
  rewrite Forall_forall in Hlt. specialize (Hlt x Hx). rewrite -Hpx He in Hlt.
  by rewrite FlatPriceBookFacts.before_irrefl in Hlt.
Qed.

Lemma best_quantity_abs p d l ls :
  side_ok p d (l :: ls) ->
  FlatLevel.total_quantity l = wrap 64 (Spec.resting_total
    (base.filter (fun r => Spec.r_price r = FlatLevel.price l) (abs_side p (l :: ls)))).
Proof.
  intros (Hl & Hs & Hlt)%side_ok_cons. rewrite (lo_total _ _ _ Hl) rem_abs. f_equal. f_equal.
  unfold abs_side. rewrite ptrs_cons abs_ptrs_app filter_app.
  rewrite (filter_price_none p d _ ls Hs Hlt) app_nil_r filter_keep //.
  apply Forall_forall. intros r Hr. eapply abs_live_price; [apply (lo_orders _ _ _ Hl)|exact Hr].
Qed.

End reading.

(** ** The guarantees *)

Section guarantees.
Context {P C : Type} `{!OrderPool P}.
Variable steady_clock : nat -> Timestamp.
Variable trade_callback_ : option (Trade -> C -> C).
Implicit Types e : env P C.

(** C1: [add_order] implements the abstract book.  From every state satisfying
    the invariant, an acceptable order is added without undefined behaviour: the
    sweep terminates, the resulting book is the abstract one, the callback sees
    exactly the trades of the abstract fills in order, every filled resting
    order is back in the pool, and the snapshot is current. *)
Theorem add_order_refines a o e :
  inv [] e -> acceptable a o e ->
  let '(fs, b') := Spec.add (is_market (type o)) (is_buy (side o)) (resting_of o) (abs e) in
  exists e', add_order steady_clock trade_callback_ (Some a) e = Some (Value tt, e') /\
    add_result steady_clock trade_callback_ a o fs b' e e'.
Proof. apply add_order_spec. Qed.

(** C2: [cancel_order] implements the abstract cancel: the order leaves the book,
    every other order keeps its place, exactly its slot is freed, and no trade is
    reported. *)
Theorem cancel_order_refines k a e :
  inv [] e -> shutdown_requested_ (book e) = false -> order_lookup_ (book e) !! k = Some a ->
  exists e', cancel_order k e = Some (Value tt, e') /\ cancel_result k a e e'.
Proof. apply cancel_order_spec. Qed.

(** C5: In every state a book reaches, through any sequence of operations of its
    clients and its engine, both sides are sorted best first and in price-time
    priority, the best bid is below the best ask, every resting order has
    something left, and the lookup table counts the resting orders. *)
Theorem reachable_book sym e :
  reachable steady_clock trade_callback_ sym e ->
  (forall d, FlatPriceBook.sorted d (get_side d (book e)) /\ Spec.in_priority d (Spec.get d (abs e)) /\
     Forall (fun r => 0 < Spec.r_qty r) (Spec.get d (abs e))) /\
  (bids_ (book e) <> [] -> asks_ (book e) <> [] -> best_bid (book e) < best_ask (book e)) /\
  order_count (book e) = (length (Spec.sb_bids (abs e)) + length (Spec.sb_asks (abs e)))%nat.
Proof.
  intros Hinv%reachable_inv. split_and!; [|by apply inv_not_crossed|by apply order_count_resting].
  intros d. split_and!; [apply (inv_side _ _ Hinv d)|by apply inv_priority|].
  rewrite abs_get. eapply abs_side_positive, (inv_side _ _ Hinv d).
Qed.

(** C6: No operation on a reachable book is undefined: [add_order] returns on
    every order its caller owns and [cancel_order] on every id, and an error
    leaves the whole state as it was. *)
Theorem reachable_safe sym e :
  reachable steady_clock trade_callback_ sym e ->
  (forall k, exists r e', cancel_order k e = Some (r, e') /\ (has_error r = true -> e' = e)) /\
  (forall a o, owned (pool e) a -> a ∉ all_ptrs (book e) -> deref (pool e) a = Some o ->
    0 <= remaining_quantity o < 2 ^ 64 -> small (get_side (negb (is_buy (side o))) (book e)) ->
    exists r e', add_order steady_clock trade_callback_ (Some a) e = Some (r, e') /\
      (has_error r = true -> e' = e) /\
      (has_value r = true <->
        shutdown_requested_ (book e) = false /\ remaining_quantity o <> 0 /\
        order_lookup_ (book e) !! id o = None)).
Proof.
  intros Hinv%reachable_inv. split.
  - intros k. destruct (cancel_order_total e k Hinv) as (r & e' & He & Hr & _).
    exists r, e'. split; [done|]. by destruct r; [|destruct Hr].
  - intros a o Hown Hna Ho Hr Hsm.
    destruct (add_order_total steady_clock trade_callback_ e a o Hinv Hown Hna Ho Hr Hsm)
      as (r & e' & He & Hres & _).
    exists r, e'. split_and!; [done|by destruct r; [|destruct Hres]|].
    destruct r; simpl; split; try done.
    + intros _. destruct Hres. split_and!; [done|lia|done].
    + intros (H1 & H2 & H3). destruct Hres as [_ Hno]. destruct Hno. split; done || lia.
Qed.

(** C4: Matching neither creates nor destroys quantity: what the incoming order
    lost and what the resting orders lost are both the sum of the fills. *)
Theorem add_order_conservation a o e :
  inv [] e -> acceptable a o e ->
  exists fs e', add_order steady_clock trade_callback_ (Some a) e = Some (Value tt, e') /\
    Forall (fun f => 0 < Spec.f_qty f) fs /\
    (exists o', deref (pool e') a = Some o' /\
      remaining_quantity o' = remaining_quantity o - Spec.fills_total fs) /\
    Spec.resting_total (Spec.sb_bids (abs e')) + Spec.resting_total (Spec.sb_asks (abs e')) +
      2 * Spec.fills_total fs =
    Spec.resting_total (Spec.sb_bids (abs e)) + Spec.resting_total (Spec.sb_asks (abs e)) +
      remaining_quantity o.
Proof.
  intros Hinv Hac. pose proof (add_order_spec steady_clock trade_callback_ a o e Hinv Hac) as Hspec.
  pose proof (abs_side_positive _ _ _ (inv_side _ _ Hinv (negb (is_buy (side o))))) as Hpos.
  rewrite -abs_get in Hpos. unfold Spec.add in Hspec. cbn [Spec.r_price Spec.r_qty Spec.r_id resting_of] in Hspec.
  destruct (Spec.match_against _ _ _) as [[fs q] out] eqn:Hm.
  destruct (Spec.match_against_conserves _ _ _ _ _ _ Hm) as [Hq Hout].
  destruct (Spec.match_against_positive _ _ _ _ _ _ (ltac:(destruct Hac; lia) : 0 <= remaining_quantity o) Hpos Hm)
    as (Hqb & Hfs & _).
  destruct Hspec as (e' & He & Hres). exists fs, e'. split_and!; [done|done| |].
  - destruct (ar_order _ _ _ _ _ _ _ _ Hres) as (o' & ? & _ & ?). eauto.
  - rewrite (ar_abs _ _ _ _ _ _ _ _ Hres).
    assert (forall d r rs, Spec.resting_total (Spec.place d r rs) = Spec.r_qty r + Spec.resting_total rs) as Hpl.
    { intros d r rs. unfold Spec.resting_total. by rewrite (Spec.place_perm d r rs). }
    destruct (Z.eqb_spec q 0); destruct (is_buy (side o)); simpl in *; rewrite ?Hpl /=; lia.
Qed.

(** C3: Price-time priority.  The trades an order causes hit the best resting
    orders of the opposite side, in their order and at their prices; every price
    is within the limit of a limit order. *)
Theorem add_order_priority a o e :
  inv [] e -> acceptable a o e ->
  exists fs e', add_order steady_clock trade_callback_ (Some a) e = Some (Value tt, e') /\
    ctx e' = foldl (notify trade_callback_) (ctx e)
      (trades_of steady_clock o (symbol_ (book e)) (ticks e) (next_trade_id_ (book e)) fs) /\
    (Spec.f_id <$> fs) `prefix_of` (Spec.r_id <$> Spec.get (negb (is_buy (side o))) (abs e)) /\
    (Spec.f_price <$> fs) `prefix_of` (Spec.r_price <$> Spec.get (negb (is_buy (side o))) (abs e)) /\
    Forall (fun f => is_market (type o) = true \/
      if is_buy (side o) then Spec.f_price f <= price o else price o <= Spec.f_price f) fs.
Proof.
  intros Hinv Hac. pose proof (add_order_spec steady_clock trade_callback_ a o e Hinv Hac) as Hspec.
  unfold Spec.add in Hspec. cbn [Spec.r_price Spec.r_qty Spec.r_id resting_of] in Hspec.
  destruct (Spec.match_against _ _ _) as [[fs q] out] eqn:Hm. destruct Hspec as (e' & He & Hres).
  destruct (match_against_priority _ _ _ _ _ _ Hm) as [Hid Hpx].
  exists fs, e'. split_and!; [done|apply (ar_ctx _ _ _ _ _ _ _ _ Hres)|done|done|].
  eapply Forall_impl; [eapply Spec.match_against_accepted, Hm|]. intros f. unfold Spec.accepts.
  destruct (is_market (type o)); [by left|]. right. destruct (is_buy (side o)); simpl in *; lia.
Qed.

(** [add_order] keeps the slot of the incoming order, whatever it becomes.
    When it was filled on arrival it is in no level and in no table afterwards,
    so the book will never give that slot back to the pool. *)
Theorem filled_order_not_freed a o e :
  inv [] e -> acceptable a o e ->
  exists e', add_order steady_clock trade_callback_ (Some a) e = Some (Value tt, e') /\
    owned (pool e') a /\
    (forall o', deref (pool e') a = Some o' -> remaining_quantity o' = 0 ->
      (a ∉ all_ptrs (book e')) /\ forall k, order_lookup_ (book e') !! k <> Some a).
Proof.
  intros Hinv Hac. pose proof (add_order_spec steady_clock trade_callback_ a o e Hinv Hac) as Hspec.
  destruct (Spec.add _ _ _ _) as [fs b']. destruct Hspec as (e' & He & Hres).
  exists e'. split_and!; [done|apply (ar_owned _ _ _ _ _ _ _ _ Hres)|]. intros o' Ho' Hz.
  destruct (ar_order _ _ _ _ _ _ _ _ Hres) as (o2 & Ho2 & _ & Hq). simplify_eq.
  assert (a ∉ all_ptrs (book e')) as Hna.
  { intros Hin%(ar_rests _ _ _ _ _ _ _ _ Hres). lia. }
  split; [done|]. intros k Hk. pose proof (inv_tracked _ _ (ar_inv _ _ _ _ _ _ _ _ Hres)) as Ht.
  rewrite app_nil_r in Ht. by apply Ht in Hk as [? _].
Qed.

(** After a successful [add_order] or [cancel_order], [read_bbo] succeeds and
    reports the best price of each side together with the quantity resting at
    that price (modulo 2^64); its counter stays even. *)
Theorem read_bbo_current e e' :
  inv [] e -> Z.even (sequence (bbo_snapshot_ (book e))) = true ->
  (exists a o, acceptable a o e /\
     add_order steady_clock trade_callback_ (Some a) e = Some (Value tt, e')) \/
  (exists k, cancel_order k e = Some (Value tt, e')) ->
  exists seq, Z.even seq = true /\
    read_bbo (book e') = Some (mkBBO (best_bid (book e')) (bid_quantity (book e'))
      (best_ask (book e')) (ask_quantity (book e')) seq) /\
    (forall l ls, bids_ (book e') = l :: ls -> best_bid (book e') = FlatLevel.price l /\
      bid_quantity (book e') = wrap 64 (Spec.resting_total
        (base.filter (fun r => Spec.r_price r = FlatLevel.price l) (Spec.sb_bids (abs e'))))) /\
    (forall l ls, asks_ (book e') = l :: ls -> best_ask (book e') = FlatLevel.price l /\
      ask_quantity (book e') = wrap 64 (Spec.resting_total
        (base.filter (fun r => Spec.r_price r = FlatLevel.price l) (Spec.sb_asks (abs e'))))).
Proof.
  intros Hinv Hev Hop.
  assert (inv [] e' /\ bbo_snapshot_ (book e') = mkBBO (best_bid (book e')) (bid_quantity (book e'))
    (best_ask (book e')) (ask_quantity (book e')) (sequence (bbo_snapshot_ (book e)) +₆₄ 1 +₆₄ 1)) as [Hinv' Hb].
  { destruct Hop as [(a & o & Hac & He)|(k & He)].
    - pose proof (add_order_spec steady_clock trade_callback_ a o e Hinv Hac) as Hspec.
      destruct (Spec.add _ _ _ _) as [fs b']. destruct Hspec as (e1 & He1 & Hres). rewrite He in He1.
      simplify_eq. split; [apply (ar_inv _ _ _ _ _ _ _ _ Hres)|apply (ar_bbo _ _ _ _ _ _ _ _ Hres)].
    - destruct (cancel_order_total e k Hinv) as (r & e1 & He1 & Hres & _). rewrite He in He1. simplify_eq.
      destruct Hres as (a & _ & Hres). split; [apply (cr_inv _ _ _ _ Hres)|apply (cr_bbo _ _ _ _ Hres)]. }
  exists (sequence (bbo_snapshot_ (book e'))). unfold read_bbo.
  assert (Z.even (sequence (bbo_snapshot_ (book e'))) = true) as Hev'.
  { rewrite Hb. simpl. rewrite wrap_add_l wrap_even; [lia|]. by rewrite -Z.add_assoc Z.even_add Hev. }
  rewrite -Z.negb_even Hev' Z.eqb_refl. split; [done|]. split; [by rewrite Hb|].
  unfold best_bid, best_ask, bid_quantity, ask_quantity, abs.
  split; intros l ls Hls; rewrite Hls /=; (split; [done|]).
  - apply (best_quantity_abs (pool e') true). rewrite -Hls. apply (inv_side _ _ Hinv' true).
  - apply (best_quantity_abs (pool e') false). rewrite -Hls. apply (inv_side _ _ Hinv' false).
Qed.

(** Shutdown cancels and frees every resting order exactly once, whatever the
    traversal order of the hash table, leaves an empty book that refuses further
    orders, and frees nothing else. *)
Theorem shutdown_frees_all iteration e :
  inv [] e -> iteration (order_lookup_ (book e)) ≡ₚ map_to_list (order_lookup_ (book e)) ->
  exists e', shutdown iteration e = Some e' /\ inv [] e' /\ abs e' = Spec.mkbook [] [] /\
    (forall i, owned (pool e') i <-> owned (pool e) i /\ i ∉ all_ptrs (book e)) /\
    (forall i, i ∈ all_ptrs (book e) -> status <$> deref (pool e') i = Some CANCELLED) /\
    (forall a, add_order steady_clock trade_callback_ a e' = Some (err SYSTEM_SHUTDOWN, e')) /\
    (forall k, cancel_order k e' = Some (err SYSTEM_SHUTDOWN, e')).
Proof.
  intros Hinv Hit. destruct (shutdown_spec iteration e Hinv Hit) as (e' & He & Hi & Ha & Hsd & _ & _ & Hw & Hst).
  exists e'. split_and!; try done.
  - intros a. unfold add_order. by rewrite Hsd.
  - intros k. unfold cancel_order. by rewrite Hsd.
Qed.

(** Compaction and pruning keep the invariant and the abstract book. *)
Theorem maintenance_refines e :
  inv [] e ->
  let e' := with_book (prune (compact (book e))) e in inv [] e' /\ abs e' = abs e.
Proof.
  intros Hinv. pose proof (inv_compact _ _ Hinv) as Hc. pose proof (prune_inv [] _ Hc) as Hp.
  cbn [book with_book] in Hp. cbn zeta. rewrite Hp. split; [done|apply abs_compact].
Qed.

(** [get_depth] reports the first [min(max_levels, 20)] levels of each side,
    best first, with their price, quantity and order count, and leaves the rest
    of the output arrays alone. *)
Theorem get_depth_levels e out max :
  inv [] e -> length (ds_bids out) = MAX_DEPTH_LEVELS -> length (ds_asks out) = MAX_DEPTH_LEVELS ->
  let n d := Nat.min (Nat.min max MAX_DEPTH_LEVELS) (length (get_side d (book e))) in
  get_depth (book e) out max =
    mkDepthSnapshot
      ((depth_entry <$> take (n true) (bids_ (book e))) ++ drop (n true) (ds_bids out))
      ((depth_entry <$> take (n false) (asks_ (book e))) ++ drop (n false) (ds_asks out))
      (n true) (n false).
Proof.
  intros Hinv Hb Ha n. unfold get_depth.
  rewrite (fill_depth_spec max (bids_ (book e)) (ds_bids out) 0);
    [by eapply levels_nonempty, (inv_side _ _ Hinv true)|lia|done|].
  rewrite (fill_depth_spec max (asks_ (book e)) (ds_asks out) 0);
    [by eapply levels_nonempty, (inv_side _ _ Hinv false)|lia|done|].
  by rewrite !Nat.sub_0_r.
Qed.

End guarantees.

(** ** A concrete book

    Two sell orders and a buy order in a pool of four slots; the first sell
    order rests, the buy order trades against it. *)

(** Checks by evaluation that a concrete order is acceptable. *)
Ltac ex_acceptable :=
  split;
  [vm_compute; reflexivity|vm_compute; reflexivity|vm_compute; reflexivity
  |eapply bool_decide_eq_false_1; vm_compute; reflexivity
  |vm_compute; split; reflexivity|vm_compute; reflexivity
  |eapply bool_decide_eq_true_1; vm_compute; reflexivity].

Section example.

Definition ex_clock (n : nat) : Timestamp := 1000 + Z.of_nat n.
Definition ex_callback : option (Trade -> list Trade -> list Trade) := Some (fun t ts => ts ++ [t]).
Definition ex_symbol : cstring := [65; 66].

Definition ex_order (i : OrderID) (s : Side) (t : OrderType) (q : Quantity) (px : Price) : Order :=
  Order_make 7 i [67] ex_symbol s t q px.

Definition ex_take (o : Order) (p : MemoryPool.t Order) : MemoryPool.t Order :=
  match MemoryPool.allocate p with
  | Some (Some i, p') => MemoryPool.store i o p'
  | _ => p
  end.

Definition ex_empty_pool : MemoryPool.t Order :=
  match MemoryPool.make Order_default 4 with
  | inr p => p
  | inl _ => MemoryPool.mk 0 [] [] 0 0 0 []
  end.

Definition ex_pool : MemoryPool.t Order :=
  ex_take (ex_order 3 SELL LIMIT 5 101)
    (ex_take (ex_order 2 BUY LIMIT 4 101)
      (ex_take (ex_order 1 SELL LIMIT 10 100) ex_empty_pool)).

Abbreviation ex_env := (env (MemoryPool.t Order) (list Trade)).

Definition ex_start : ex_env := mkenv (make ex_symbol) ex_pool [] 0.
Definition ex_add (a : nat) (e : ex_env) : ex_env :=
  match add_order ex_clock ex_callback (Some a) e with Some (_, e') => e' | None => e end.

(** The book with the first sell order resting. *)
Definition ex_resting : ex_env := ex_add 0 ex_start.

Lemma ex_take_ok o p : MemoryPool.ok p -> MemoryPool.ok (ex_take o p).
Proof.
  intros [[|i fl] Hfl]; unfold ex_take.
  - rewrite MemoryPool.allocate_nil //. by exists [].
  - destruct (MemoryPool.allocate_cons p i fl Hfl) as (p' & -> & Hfl' & _).
    exists fl. by apply MemoryPool.store_free_list.
Qed.

Lemma ex_pool_ok : MemoryPool.ok ex_pool.
Proof.
  do 3 apply ex_take_ok. unfold ex_empty_pool.
  destruct (MemoryPool.make_free_list Order_default 4) as (p & -> & _ & Hfl); [done|]. by eexists.
Qed.

Lemma ex_start_inv : inv [] ex_start.
Proof. apply inv_make, ex_pool_ok. Qed.

Lemma ex_start_acceptable : acceptable 0 (ex_order 1 SELL LIMIT 10 100) ex_start.
Proof. ex_acceptable. Qed.

Lemma ex_resting_acceptable : acceptable 1 (ex_order 2 BUY LIMIT 4 101) ex_resting.
Proof. ex_acceptable. Qed.

Lemma ex_resting_inv : inv [] ex_resting.
Proof.
  pose proof (add_order_spec ex_clock ex_callback _ _ _ ex_start_inv ex_start_acceptable) as Hs.
  destruct (Spec.add _ _ _ _) as [fs b']. destruct Hs as (e' & He & Hres).
  unfold ex_resting, ex_add. rewrite He. apply (ar_inv _ _ _ _ _ _ _ _ Hres).
Qed.

Lemma ex_resting_reachable : reachable ex_clock ex_callback ex_symbol ex_resting.
Proof.
  exists ex_pool, [], 0%nat. split; [apply ex_pool_ok|].
  apply rtc_once. destruct ex_start_acceptable as [_ Hd Ho Hf Hq _ Hs].
  apply (step_add _ _ ex_start 0 _ (Value tt) ex_resting Ho Hf Hd); [lia|exact Hs|vm_compute; reflexivity].
Qed.

Lemma add_order_refines_witness :
  exists e', add_order ex_clock ex_callback (Some 1%nat) ex_resting = Some (Value tt, e') /\
    abs e' = Spec.mkbook [] [Spec.mkResting 1 100 6].
Proof.
  pose proof (add_order_refines ex_clock ex_callback 1 _ ex_resting ex_resting_inv ex_resting_acceptable) as Hs.
  destruct (Spec.add _ _ _ _) as [fs b'] eqn:E. destruct Hs as (e' & He & Hres). exists e'.
  split; [exact He|]. rewrite (ar_abs _ _ _ _ _ _ _ _ Hres). vm_compute in E. injection E as _ <-. reflexivity.
Defined.

Lemma cancel_order_refines_witness :
  exists e', cancel_order 1 ex_resting = Some (Value tt, e') /\ abs e' = Spec.mkbook [] [].
Proof.
  destruct (cancel_order_refines 1 0 ex_resting ex_resting_inv) as (e' & He & Hres);
    [vm_compute; reflexivity|vm_compute; reflexivity|].
  exists e'. split; [exact He|]. rewrite (cr_abs _ _ _ _ Hres). vm_compute. reflexivity.
Defined.

Lemma reachable_book_witness : order_count (book ex_resting) = 1%nat.
Proof.
  destruct (reachable_book ex_clock ex_callback ex_symbol ex_resting ex_resting_reachable) as (_ & _ & H).
  rewrite H. vm_compute. reflexivity.
Defined.

Lemma reachable_safe_witness : exists r e', cancel_order 77 ex_resting = Some (r, e').
Proof.
  destruct (reachable_safe ex_clock ex_callback ex_symbol ex_resting ex_resting_reachable) as [H _].
  destruct (H 77) as (r & e' & He & _). exists r, e'. exact He.
Defined.

Lemma add_order_conservation_witness :
  exists fs e', add_order ex_clock ex_callback (Some 1%nat) ex_resting = Some (Value tt, e') /\
    0 + Spec.resting_total (Spec.sb_asks (abs e')) + 2 * Spec.fills_total fs =
    0 + Spec.resting_total (Spec.sb_asks (abs ex_resting)) + 4 - Spec.resting_total (Spec.sb_bids (abs e')).
Proof.
  destruct (add_order_conservation ex_clock ex_callback 1 _ ex_resting ex_resting_inv ex_resting_acceptable)
    as (fs & e' & He & _ & _ & H). exists fs, e'. split; [exact He|].
  assert (Spec.resting_total (Spec.sb_bids (abs ex_resting)) = 0) as Hb by (vm_compute; reflexivity).
  rewrite Hb in H. cbn [remaining_quantity ex_order Order_make] in H. lia.
Defined.

Lemma add_order_priority_witness :
  exists fs e', add_order ex_clock ex_callback (Some 1%nat) ex_resting = Some (Value tt, e') /\
    (Spec.f_id <$> fs) `prefix_of` [1].
Proof.
  destruct (add_order_priority ex_clock ex_callback 1 _ ex_resting ex_resting_inv ex_resting_acceptable)
    as (fs & e' & He & _ & H & _). exists fs, e'. split; [exact He|].
  assert (Spec.r_id <$> Spec.sb_asks (abs ex_resting) = [1]) as Hr by (vm_compute; reflexivity).
  rewrite -Hr. exact H.
Defined.

Lemma filled_order_not_freed_witness :
  exists e', add_order ex_clock ex_callback (Some 1%nat) ex_resting = Some (Value tt, e') /\
    owned (pool e') 1%nat.
Proof.
  destruct (filled_order_not_freed ex_clock ex_callback 1 _ ex_resting ex_resting_inv ex_resting_acceptable)
    as (e' & He & Ho & _). exists e'. split; [exact He|exact Ho].
Defined.

Lemma read_bbo_current_witness :
  exists seq, Z.even seq = true /\
    read_bbo (book ex_resting) = Some (mkBBO 0 0 100 10 seq).
Proof.
  destruct (read_bbo_current ex_clock ex_callback ex_start ex_resting ex_start_inv)
    as (seq & Hev & Hb & _).
  - vm_compute. reflexivity.
  - left. exists 0%nat, (ex_order 1 SELL LIMIT 10 100). split; [exact ex_start_acceptable|].
    vm_compute. reflexivity.
  - exists seq. split; [exact Hev|]. rewrite Hb. vm_compute. reflexivity.
Defined.

Lemma shutdown_frees_all_witness :
  exists e', shutdown map_to_list ex_resting = Some e' /\ abs e' = Spec.mkbook [] [].
Proof.
  destruct (shutdown_frees_all ex_clock ex_callback map_to_list ex_resting ex_resting_inv (reflexivity _))
    as (e' & He & _ & Ha & _). exists e'. split; [exact He|exact Ha].
Defined.

Lemma maintenance_refines_witness :
  abs (with_book (prune (compact (book ex_resting))) ex_resting) = abs ex_resting.
Proof. exact (proj2 (maintenance_refines ex_resting ex_resting_inv)). Defined.

Lemma get_depth_levels_witness :
  ask_levels (get_depth (book ex_resting) DepthSnapshot_default 10) = 1%nat.
Proof.
  rewrite (get_depth_levels ex_resting DepthSnapshot_default 10 ex_resting_inv); [reflexivity|reflexivity|].
  vm_compute. reflexivity.
Defined.

End example.
