(* ===== verification/SpscQueue.v ===== *)
(** * The single-producer single-consumer queue (include/rtes/spsc_queue.hpp)

    A ring buffer over a power-of-two array, with 64-bit positions that only
    grow (and wrap around), and on each side a cached copy of the other side's
    position.  [push] and [pop] are modelled whole; [step] interleaves the
    atomic actions of one producer and one consumer. *)

From S2P Require Import Prelude.

(** ** detail::round_up_pow2 *)

Definition or_shift (v s : Z) : Z := Z.lor v (Z.shiftr v s).

Definition round_up_pow2 (v : Z) : Z :=
  if v =? 0 then 1
  else
    let v := v -₆₄ 1 in
    let v := or_shift v 1 in
    let v := or_shift v 2 in
    let v := or_shift v 4 in
    let v := or_shift v 8 in
    let v := or_shift v 16 in
    let v := or_shift v 32 in
    v +₆₄ 1.

(** [spread s x y]: the bits of [y] are those of [x] copied down by less than [s]. *)
Definition spread (s x y : Z) : Prop :=
  forall n, 0 <= n -> (Z.testbit y n = true <-> exists j, 0 <= j < s /\ Z.testbit x (n + j) = true).

Lemma spread_start x : spread 1 x x.
Proof.
  intros n Hn. split; [intros H; exists 0; rewrite Z.add_0_r; split; [lia|done]|].
  intros (j & Hj & H). by replace (n + j) with n in H by lia.
Qed.

Lemma spread_double s x y : 0 < s -> spread s x y -> spread (2 * s) x (or_shift y s).
Proof.
  intros Hs Hy n Hn. unfold or_shift. rewrite Z.lor_spec Z.shiftr_spec // orb_true_iff (Hy n Hn).
  rewrite (Hy (n + s)); [lia|]. split.
  - intros [(j & Hj & H)|(j & Hj & H)]; [exists j; split; [lia|done]|].
    exists (s + j). split; [lia|]. by rewrite Z.add_assoc.
  - intros (j & Hj & H). destruct (Z.ltb_spec j s); [left; exists j; split; [lia|done]|].
    right. exists (j - s). split; [lia|]. by replace (n + s + (j - s)) with (n + j) by lia.
Qed.

Lemma spread_all x y : 0 < x < 2 ^ 64 -> spread 64 x y -> 0 <= y -> y = 2 ^ (Z.log2 x + 1) - 1.
Proof.
  intros Hx Hy H0. rewrite Z.sub_1_r -Z.ones_equiv.
  pose proof (Z.log2_nonneg x). assert (Z.log2 x < 64) by (apply Z.log2_lt_pow2; lia).
  apply Z.bits_inj'. intros n Hn. destruct (Z.ltb_spec n (Z.log2 x + 1)).
  - rewrite Z.ones_spec_low; [lia|]. apply (Hy n Hn). exists (Z.log2 x - n). split; [lia|].
    replace (n + (Z.log2 x - n)) with (Z.log2 x) by lia. apply Z.bit_log2. lia.
  - rewrite Z.ones_spec_high; [lia|]. destruct (Z.testbit y n) eqn:E; [|done].
    apply (Hy n Hn) in E as (j & Hj & Hb). rewrite Z.bits_above_log2 in Hb; [lia|lia|done].
Qed.

Lemma or_shift_nonneg v s : 0 <= v -> 0 <= or_shift v s.
Proof. intros. unfold or_shift. rewrite Z.lor_nonneg Z.shiftr_nonneg. done. Qed.

(** In range, the result is the least power of two not below the argument. *)
Lemma round_up_pow2_spec v :
  0 < v <= 2 ^ 63 -> round_up_pow2 v = 2 ^ Z.log2_up v.
Proof.
  intros Hv. unfold round_up_pow2. destruct (Z.eqb_spec v 0); [lia|].
  destruct (decide (v = 1)) as [->|Hne]; [done|].
  assert (wrap 64 (v - 1) = v - 1) as ->.
  { apply wrap_small. split; [lia|]. change (2 ^ 63) with 9223372036854775808 in Hv. u_lia. }
  set (x := v - 1). assert (0 < x < 2 ^ 63) as Hx by lia.
  pose proof (spread_start x) as S0.
  apply spread_double in S0; [|lia]. apply spread_double in S0; [|lia]. apply spread_double in S0; [|lia].
  apply spread_double in S0; [|lia]. apply spread_double in S0; [|lia]. apply spread_double in S0; [|lia].
  apply spread_all in S0; [|change (2 ^ 64) with (2 * 2 ^ 63); lia|repeat apply or_shift_nonneg; lia].
  cbn [Z.mul Pos.mul] in S0. rewrite S0.
  assert (Z.log2 x < 63) by (apply Z.log2_lt_pow2; lia). pose proof (Z.log2_nonneg x).
  rewrite wrap_small.
  - split; [pose proof (Z.pow_pos_nonneg 2 (Z.log2 x + 1)); lia|].
    rewrite Z.sub_add. apply Z.pow_lt_mono_r; lia.
  - rewrite Z.sub_add Z.log2_up_eqn; [lia|]. unfold x. by rewrite -Z.sub_1_r.
Qed.

Lemma round_up_pow2_too_big v : 2 ^ 63 < v < 2 ^ 64 -> round_up_pow2 v = 0.
Proof.
  intros Hv. change (2 ^ 63) with 9223372036854775808 in Hv. unfold round_up_pow2.
  destruct (Z.eqb_spec v 0); [lia|].
  assert (wrap 64 (v - 1) = v - 1) as -> by (apply wrap_small; u_lia).
  set (x := v - 1). assert (2 ^ 63 <= x < 2 ^ 64) as Hx by (change (2 ^ 63) with 9223372036854775808; u_lia).
  pose proof (spread_start x) as S0.
  apply spread_double in S0; [|lia]. apply spread_double in S0; [|lia]. apply spread_double in S0; [|lia].
  apply spread_double in S0; [|lia]. apply spread_double in S0; [|lia]. apply spread_double in S0; [|lia].
  apply spread_all in S0; [|lia|repeat apply or_shift_nonneg; lia].
  cbn [Z.mul Pos.mul] in S0. rewrite S0.
  assert (Z.log2 x = 63) as -> by (apply Z.log2_unique; lia). done.
Qed.

Module SPSCQueue.

Record t (T : Type) := mk {
  capacity_ : Z;
  mask_ : Z;
  buffer_ : list T;
  head_ : Z;
  cached_tail_ : Z;
  tail_ : Z;
  cached_head_ : Z
}.
Arguments mk {T}.
Arguments capacity_ {T}.
Arguments mask_ {T}.
Arguments buffer_ {T}.
Arguments head_ {T}.
Arguments cached_tail_ {T}.
Arguments tail_ {T}.
Arguments cached_head_ {T}.

Section ops.
Context {T : Type}.
Implicit Types q : t T.

(** The size [allocate_buffer] asks [aligned_alloc] for, with elements of [sizeof]
    bytes: the product wraps around, and is rounded up to a cache line. *)
Definition allocated_bytes (sizeof cap : Z) : Z :=
  let bytes := wrap 64 (cap * sizeof) in Z.land (bytes +₆₄ 64 -₆₄ 1) (Z.lxor (2 ^ 64 - 1) 63).

(** [zero] is an element of zero bytes, the content after [memset]; a failed
    assertion is [None].  The buffer is the memory the code means to have, which it
    has when the product of [allocated_bytes] does not wrap ([buffer_fits]). *)
Definition make (zero : T) (min_capacity : Z) : option (t T) :=
  let capacity := round_up_pow2 min_capacity in
  let mask := capacity -₆₄ 1 in
  if negb (min_capacity <=? capacity) then None
  else if negb (Z.land capacity mask =? 0) then None
  else Some (mk capacity mask (replicate (Z.to_nat capacity) zero) 0 0 0 0).

Lemma buffer_fits sizeof cap :
  0 <= cap -> 0 <= sizeof -> cap * sizeof + 64 < 2 ^ 64 -> cap * sizeof <= allocated_bytes sizeof cap.
Proof.
  intros Hc Hs Hb. unfold allocated_bytes. set (n := cap * sizeof) in *. assert (0 <= n) as Hn by (unfold n; nia).
  change (2 ^ 64) with 18446744073709551616 in Hb.
  rewrite (wrap_small 64 n); [u_lia|]. rewrite (wrap_small 64 (n + 64)); [u_lia|]. rewrite (wrap_small 64 (n + 64 - 1)); [u_lia|].
  assert (Z.land (n + 64 - 1) (Z.lxor (2 ^ 64 - 1) 63) = n + 64 - 1 - (n + 64 - 1) mod 64) as ->.
  { rewrite -(Z.land_ones _ 6); [lia|]. change (Z.ones 6) with 63.
    assert (Z.land (n + 64 - 1) (Z.lxor (2 ^ 64 - 1) 63) = Z.ldiff (n + 64 - 1) 63) as ->.
    { apply Z.bits_inj'. intros i Hi. rewrite Z.land_spec Z.ldiff_spec Z.lxor_spec. change (2 ^ 64 - 1) with (Z.ones 64).
      rewrite Z.testbit_ones; [lia|]. destruct (Z.ltb_spec i 64).
      - rewrite (proj2 (Z.leb_le 0 i)); [lia|]. by destruct (Z.testbit 63 i).
      - rewrite (Z.bits_above_log2 (n + 64 - 1) i); [lia| |done].
        destruct (Z.eq_dec (n + 64 - 1) 0) as [->|]; [cbn; lia|]. apply Z.log2_lt_pow2; [lia|].
        eapply Z.lt_le_trans; [|apply (Z.pow_le_mono_r 2 64 i); lia]. change (2 ^ 64) with 18446744073709551616. lia. }
    assert (Z.land (n + 64 - 1) 63 + Z.ldiff (n + 64 - 1) 63 = n + 64 - 1); [|lia].
    rewrite Z.add_nocarry_lxor.
    - apply Z.bits_inj'. intros i Hi. rewrite Z.land_spec Z.land_spec Z.ldiff_spec Z.bits_0.
      by destruct (Z.testbit (n + 64 - 1) i), (Z.testbit 63 i).
    - apply Z.bits_inj'. intros i Hi. rewrite Z.lxor_spec Z.land_spec Z.ldiff_spec.
      by destruct (Z.testbit (n + 64 - 1) i), (Z.testbit 63 i). }
  pose proof (Z.mod_pos_bound (n + 64 - 1) 64). lia.
Qed.

(** Outside that range the queue has less memory than its slots take: 2^60 elements
    of sixteen bytes are allocated none. *)
Example allocation_wraps : allocated_bytes 16 (2 ^ 60) = 0 /\ round_up_pow2 (2 ^ 60) = 2 ^ 60.
Proof. done. Qed.

Definition set_buffer (b : list T) q : t T :=
  mk (capacity_ q) (mask_ q) b (head_ q) (cached_tail_ q) (tail_ q) (cached_head_ q).
Definition set_head (h : Z) q : t T :=
  mk (capacity_ q) (mask_ q) (buffer_ q) h (cached_tail_ q) (tail_ q) (cached_head_ q).
Definition set_cached_tail (x : Z) q : t T :=
  mk (capacity_ q) (mask_ q) (buffer_ q) (head_ q) x (tail_ q) (cached_head_ q).
Definition set_tail (x : Z) q : t T :=
  mk (capacity_ q) (mask_ q) (buffer_ q) (head_ q) (cached_tail_ q) x (cached_head_ q).
Definition set_cached_head (x : Z) q : t T :=
  mk (capacity_ q) (mask_ q) (buffer_ q) (head_ q) (cached_tail_ q) (tail_ q) x.

Definition slot (pos : Z) q : nat := Z.to_nat (Z.land pos (mask_ q)).

Definition push (item : T) q : bool * t T :=
  let head := head_ q in
  let store q := (true, set_head (head +₆₄ 1) (set_buffer (<[slot head q := item]> (buffer_ q)) q)) in
  if capacity_ q <=? head -₆₄ cached_tail_ q then
    let q := set_cached_tail (tail_ q) q in
    if capacity_ q <=? head -₆₄ cached_tail_ q then (false, q) else store q
  else store q.

(** [None]: a read outside the buffer; otherwise the element, if any. *)
Definition pop q : option (option T * t T) :=
  let tail := tail_ q in
  let load q := item ← buffer_ q !! slot tail q; Some (Some item, set_tail (tail +₆₄ 1) q) in
  if tail =? cached_head_ q then
    let q := set_cached_head (head_ q) q in
    if tail =? cached_head_ q then Some (None, q) else load q
  else load q.

Definition consumer_empty q : bool * t T :=
  let tail := tail_ q in
  if negb (tail =? cached_head_ q) then (false, q)
  else
    let q := set_cached_head (head_ q) q in
    (tail =? cached_head_ q, q).

Definition empty q : bool := head_ q =? tail_ q.
Definition size q : Z := head_ q -₆₄ tail_ q.
Definition capacity q : Z := capacity_ q.

(** ** Representation

    The positions are the low 64 bits of counters that never wrap: [T0] pops and
    [H] pushes so far; [xs] are the elements in between. *)
Record repr q (T0 H : Z) (xs : list T) : Prop := {
  r_cap : exists k, 0 <= k <= 63 /\ capacity_ q = 2 ^ k;
  r_mask : mask_ q = capacity_ q - 1;
  r_buffer : length (buffer_ q) = Z.to_nat (capacity_ q);
  r_tail : tail_ q = wrap 64 T0;
  r_head : head_ q = wrap 64 H;
  r_len : H - T0 = Z.of_nat (length xs);
  r_full : H - T0 <= capacity_ q;
  r_ctail : exists CT, cached_tail_ q = wrap 64 CT /\ CT <= T0 /\ H - CT <= capacity_ q;
  r_chead : exists CH, cached_head_ q = wrap 64 CH /\ T0 <= CH <= H;
  r_nonneg : 0 <= T0;
  r_elems : forall i x, xs !! i = Some x ->
    buffer_ q !! Z.to_nat ((T0 + Z.of_nat i) mod capacity_ q) = Some x
}.

(** The queue holds [xs], oldest first. *)
Definition holds q (xs : list T) : Prop := exists T0 H, repr q T0 H xs.

(** ** The operations refine a bounded FIFO queue *)

Lemma slot_pos q T0 H xs pos :
  repr q T0 H xs -> slot (wrap 64 pos) q = Z.to_nat (pos mod capacity_ q).
Proof.
  intros Hr. destruct (r_cap _ _ _ _ Hr) as (k & Hk & Hc). unfold slot.
  rewrite (r_mask _ _ _ _ Hr) Hc land_pow2_mask; [lia|]. by rewrite wrap_mod_pow2; [lia|].
Qed.

Lemma cap_bounds q T0 H xs : repr q T0 H xs -> 0 < capacity_ q <= 2 ^ 63.
Proof.
  intros Hr. destruct (r_cap _ _ _ _ Hr) as (k & Hk & ->).
  split; [apply Z.pow_pos_nonneg; lia|apply Z.pow_le_mono_r; lia].
Qed.

(** The slot the producer writes is inside the buffer and holds no element. *)
Lemma slot_lt q T0 H xs pos :
  repr q T0 H xs -> (Z.to_nat (pos mod capacity_ q) < length (buffer_ q))%nat.
Proof.
  intros Hr. rewrite (r_buffer _ _ _ _ Hr). pose proof (cap_bounds _ _ _ _ Hr).
  pose proof (Z.mod_pos_bound pos (capacity_ q)). lia.
Qed.

Lemma slot_ne q T0 H xs i j :
  repr q T0 H xs -> i < j < i + capacity_ q ->
  Z.to_nat (i mod capacity_ q) <> Z.to_nat (j mod capacity_ q).
Proof.
  intros Hr Hij. pose proof (cap_bounds _ _ _ _ Hr).
  pose proof (Z.mod_pos_bound i (capacity_ q)). pose proof (Z.mod_pos_bound j (capacity_ q)).
  pose proof (mod_distinct (capacity_ q) i (j - i) ltac:(lia)) as Hne.
  replace (i + (j - i)) with j in Hne by lia. lia.
Qed.

Lemma full_test q T0 H xs :
  repr q T0 H xs ->
  exists CT, cached_tail_ q = wrap 64 CT /\ CT <= T0 /\ H - CT <= capacity_ q /\
    (capacity_ q <=? head_ q -₆₄ cached_tail_ q) = (capacity_ q <=? H - CT) /\
    (capacity_ q <=? head_ q -₆₄ tail_ q) = (capacity_ q <=? H - T0).
Proof.
  intros Hr. destruct (r_ctail _ _ _ _ Hr) as (CT & HCT & Hle & Hcap). exists CT.
  pose proof (cap_bounds _ _ _ _ Hr) as Hc. change (2 ^ 63) with 9223372036854775808 in Hc.
  pose proof (r_len _ _ _ _ Hr). pose proof (r_full _ _ _ _ Hr).
  rewrite (r_head _ _ _ _ Hr) (r_tail _ _ _ _ Hr) HCT.
  rewrite !wrap_distance; [word_consts; lia..|]. done.
Qed.

(** Storing at the head of a queue that is not full. *)
Lemma store_repr q T0 H xs item :
  repr q T0 H xs -> H - T0 < capacity_ q ->
  (exists CT, cached_tail_ q = wrap 64 CT /\ CT <= T0 /\ H + 1 - CT <= capacity_ q) ->
  repr (set_head (head_ q +₆₄ 1) (set_buffer (<[slot (head_ q) q := item]> (buffer_ q)) q))
    T0 (H + 1) (xs ++ [item]).
Proof.
  intros Hr Hlt HCT. destruct (r_chead _ _ _ _ Hr) as (CH & HCH & HCHb).
  pose proof (r_len _ _ _ _ Hr) as Hlen. pose proof (r_full _ _ _ _ Hr).
  pose proof (slot_pos _ _ _ _ H Hr) as Hs. rewrite -(r_head _ _ _ _ Hr) in Hs.
  split; simpl; try apply Hr; try done.
  - by rewrite length_insert (r_buffer _ _ _ _ Hr).
  - rewrite (r_head _ _ _ _ Hr). by autorewrite with wraps.
  - rewrite length_app /=. lia.
  - lia.
  - exists CH. split; [done|lia].
  - intros i x Hi. rewrite Hs. apply lookup_app_Some in Hi as [Hi|[Hge Hi]].
    + pose proof (lookup_lt_Some _ _ _ Hi). rewrite list_lookup_insert_ne.
      * symmetry. eapply slot_ne; [exact Hr|lia].
      * by apply (r_elems _ _ _ _ Hr).
    + destruct (i - length xs)%nat eqn:Ei; [|done]. simpl in Hi. simplify_eq.
      replace (T0 + Z.of_nat i) with H by lia. apply list_lookup_insert_eq. by eapply slot_lt.
Qed.

Lemma push_spec q T0 H xs item :
  repr q T0 H xs ->
  if decide (Z.of_nat (length xs) < capacity_ q)
  then exists q', push item q = (true, q') /\ repr q' T0 (H + 1) (xs ++ [item])
  else exists q', push item q = (false, q') /\ repr q' T0 H xs.
Proof.
  intros Hr. destruct (full_test _ _ _ _ Hr) as (CT & HCT & Hle & Hcap & Hf1 & Hf2).
  pose proof (r_len _ _ _ _ Hr) as Hlen. pose proof (r_full _ _ _ _ Hr) as Hfull.
  assert (repr (set_cached_tail (tail_ q) q) T0 H xs) as Hr'.
  { split; try apply Hr. exists T0. split_and!; [apply Hr|lia|done]. }
  unfold push. cbn zeta. rewrite Hf1. destruct (Z.leb_spec (capacity_ q) (H - CT)) as [Hge|Hlt].
  - cbn [cached_tail_ set_cached_tail capacity_ head_]. rewrite Hf2.
    destruct (Z.leb_spec (capacity_ q) (H - T0)) as [Hge'|Hlt'].
    + rewrite decide_False; [lia|]. eauto.
    + rewrite decide_True; [lia|]. eexists. split; [reflexivity|].
      apply (store_repr _ T0 H xs item Hr'); [done|]. exists T0. split_and!; [apply Hr|lia|simpl; lia].
  - rewrite decide_True; [lia|]. eexists. split; [reflexivity|]. apply store_repr; [done|lia|].
    exists CT. split_and!; [done|done|lia].
Qed.

Lemma empty_test q T0 H xs :
  repr q T0 H xs -> (tail_ q =? head_ q) = bool_decide (xs = []) /\
  ((tail_ q =? cached_head_ q) = false -> xs <> []).
Proof.
  intros Hr. pose proof (r_len _ _ _ _ Hr) as Hlen. pose proof (r_full _ _ _ _ Hr) as Hfull.
  pose proof (cap_bounds _ _ _ _ Hr) as Hc. change (2 ^ 63) with 9223372036854775808 in Hc.
  assert (forall X, 0 <= X - T0 < 2 ^ 64 -> (wrap 64 T0 =? wrap 64 X) = (X - T0 =? 0)) as Heq.
  { intros X HX. destruct (Z.eqb_spec (wrap 64 T0) (wrap 64 X)) as [E|E]; destruct (Z.eqb_spec (X - T0) 0); try done.
    - rewrite -(wrap_distance 64 X T0) // E Z.sub_diag in n. done.
    - destruct E. by replace X with T0 by lia. }
  rewrite (r_tail _ _ _ _ Hr) (r_head _ _ _ _ Hr). split.
  - rewrite Heq; [word_consts; lia|]. destruct xs; simpl in Hlen.
    + rewrite bool_decide_eq_true_2 //. lia.
    + rewrite bool_decide_eq_false_2 //. lia.
  - destruct (r_chead _ _ _ _ Hr) as (CH & -> & HCH). rewrite Heq; [word_consts; lia|].
    intros ? ->. simpl in Hlen. lia.
Qed.

(** Loading at the tail of a queue that is not empty. *)
Lemma load_repr q T0 H x xs :
  repr q T0 H (x :: xs) -> (exists CH, cached_head_ q = wrap 64 CH /\ T0 + 1 <= CH <= H) ->
  buffer_ q !! slot (tail_ q) q = Some x /\ repr (set_tail (tail_ q +₆₄ 1) q) (T0 + 1) H xs.
Proof.
  intros Hr HCH. pose proof (r_len _ _ _ _ Hr) as Hlen. simpl in Hlen. pose proof (r_full _ _ _ _ Hr).
  pose proof (r_nonneg _ _ _ _ Hr). split.
  - rewrite (r_tail _ _ _ _ Hr) (slot_pos _ _ _ _ T0 Hr).
    pose proof (r_elems _ _ _ _ Hr 0%nat x eq_refl) as He. by rewrite Z.add_0_r in He.
  - split; simpl; try apply Hr; try done; try lia.
    + rewrite (r_tail _ _ _ _ Hr). by autorewrite with wraps.
    + destruct (r_ctail _ _ _ _ Hr) as (CT & ? & ? & ?). exists CT. split_and!; [done|lia|done].
    + intros i y Hi. pose proof (r_elems _ _ _ _ Hr (S i) y Hi) as He.
      by replace (T0 + 1 + Z.of_nat i) with (T0 + Z.of_nat (S i)) by lia.
Qed.

Lemma pop_spec q T0 H xs :
  repr q T0 H xs ->
  match xs with
  | [] => exists q', pop q = Some (None, q') /\ repr q' T0 H []
  | x :: xs' => exists q', pop q = Some (Some x, q') /\ repr q' (T0 + 1) H xs'
  end.
Proof.
  intros Hr. destruct (empty_test _ _ _ _ Hr) as [He1 He2]. pose proof (r_len _ _ _ _ Hr) as Hlen.
  assert (repr (set_cached_head (head_ q) q) T0 H xs) as Hr'.
  { split; try apply Hr. exists H. split; [apply Hr|lia]. }
  unfold pop. cbn zeta. destruct (tail_ q =? cached_head_ q) eqn:Ec.
  - cbn [cached_head_ set_cached_head]. rewrite He1. destruct xs as [|x xs].
    + rewrite bool_decide_eq_true_2 //. eauto.
    + rewrite bool_decide_eq_false_2 //.
      destruct (load_repr _ _ _ _ _ Hr') as [Hl Hq]; [exists H; split; [apply Hr|simpl in Hlen; lia]|].
      cbn [tail_ set_cached_head] in Hl. rewrite Hl. simpl. eauto.
  - destruct xs as [|x xs]; [by destruct (He2 eq_refl)|].
    destruct (load_repr _ _ _ _ _ Hr) as [Hl Hq]; [|rewrite Hl; simpl; eauto].
    destruct (r_chead _ _ _ _ Hr) as (CH & HCH & HCHb). exists CH. split; [done|].
    assert (CH <> T0) as Hne; [|lia]. intros ->.
    rewrite HCH (r_tail _ _ _ _ Hr) Z.eqb_refl in Ec. done.
Qed.

Lemma make_repr (zero : T) n :
  0 <= n <= 2 ^ 63 -> exists q, make zero n = Some q /\ repr q 0 0 [] /\ n <= capacity_ q.
Proof.
  intros Hn. assert (exists k, 0 <= k <= 63 /\ round_up_pow2 n = 2 ^ k /\ n <= 2 ^ k) as (k & Hk & Hc & Hle).
  { destruct (decide (n = 0)) as [->|Hne]; [by exists 0|].
    exists (Z.log2_up n). rewrite round_up_pow2_spec; [lia|]. split_and!; [apply Z.log2_up_nonneg| |done|].
    - apply Z.log2_up_le_pow2; lia.
    - destruct (decide (n = 1)) as [->|]; [done|]. apply Z.log2_up_spec. lia. }
  assert (0 < 2 ^ k < 2 ^ 64) as Hb by (split; [apply Z.pow_pos_nonneg; lia|apply Z.pow_lt_mono_r; lia]).
  assert (wrap 64 (2 ^ k - 1) = 2 ^ k - 1) as Hm by (apply wrap_small; split; lia).
  unfold make. rewrite Hc Hm. rewrite (proj2 (Z.leb_le n (2 ^ k)) Hle) /=.
  rewrite land_pow2_mask; [lia|]. rewrite Z.mod_same; [lia|]. simpl. eexists. split; [reflexivity|].
  split; [|done]. split; simpl; try done; try lia.
  - by exists k.
  - by rewrite length_replicate.
  - exists 0. split_and!; [done|lia|lia].
  - exists 0. split; [done|lia].
Qed.

Lemma repr_size q T0 H xs :
  repr q T0 H xs -> size q = Z.of_nat (length xs) /\ empty q = bool_decide (xs = []).
Proof.
  intros Hr. destruct (empty_test _ _ _ _ Hr) as [He _]. split.
  - unfold size. rewrite (r_head _ _ _ _ Hr) (r_tail _ _ _ _ Hr).
    pose proof (cap_bounds _ _ _ _ Hr) as Hc. change (2 ^ 63) with 9223372036854775808 in Hc.
    pose proof (r_full _ _ _ _ Hr). rewrite -(r_len _ _ _ _ Hr). apply wrap_distance.
    pose proof (r_len _ _ _ _ Hr). word_consts. lia.
  - unfold empty. by rewrite Z.eqb_sym.
Qed.

Lemma consumer_empty_spec q T0 H xs :
  repr q T0 H xs -> exists q', consumer_empty q = (bool_decide (xs = []), q') /\ repr q' T0 H xs.
Proof.
  intros Hr. destruct (empty_test _ _ _ _ Hr) as [He1 He2]. unfold consumer_empty. cbn zeta.
  destruct (tail_ q =? cached_head_ q) eqn:Ec; simpl.
  - exists (set_cached_head (head_ q) q). rewrite He1. split; [done|]. split; try apply Hr.
    exists H. pose proof (r_len _ _ _ _ Hr). split; [apply Hr|lia].
  - exists q. rewrite bool_decide_eq_false_2; [by apply He2|done].
Qed.

End ops.
End SPSCQueue.

(** ** Interleavings of one producer and one consumer

    The atomic actions of [push] and [pop], interleaved sequentially
    consistently: the test against the cached position, the reload of the other
    side's position, the access to the slot, and the store that publishes it.
    [pushed] and [popped] record the elements published so far. *)
Module SPSCThreads.
Import SPSCQueue.

Section threads.
Context {T : Type}.
Implicit Types q : SPSCQueue.t T.

Inductive Producer := PIdle | PReady (item : T) | PWritten (item : T).
Inductive Consumer := CIdle | CReady | CRead (item : T).

Record st := mkst {
  queue : SPSCQueue.t T;
  producer : Producer;
  consumer : Consumer;
  pushed : list T;
  popped : list T
}.

Inductive step : st -> st -> Prop :=
  | p_fast item q c pu po :
      (capacity_ q <=? head_ q -₆₄ cached_tail_ q) = false ->
      step (mkst q PIdle c pu po) (mkst q (PReady item) c pu po)
  | p_reload item q c pu po :
      (capacity_ q <=? head_ q -₆₄ cached_tail_ q) = true ->
      step (mkst q PIdle c pu po)
        (mkst (set_cached_tail (tail_ q) q)
           (if capacity_ q <=? head_ q -₆₄ tail_ q then PIdle else PReady item) c pu po)
  | p_write item q c pu po :
      step (mkst q (PReady item) c pu po)
        (mkst (set_buffer (<[slot (head_ q) q := item]> (buffer_ q)) q) (PWritten item) c pu po)
  | p_publish item q c pu po :
      step (mkst q (PWritten item) c pu po) (mkst (set_head (head_ q +₆₄ 1) q) PIdle c (pu ++ [item]) po)
  | c_fast q p pu po :
      (tail_ q =? cached_head_ q) = false -> step (mkst q p CIdle pu po) (mkst q p CReady pu po)
  | c_reload q p pu po :
      (tail_ q =? cached_head_ q) = true ->
      step (mkst q p CIdle pu po)
        (mkst (set_cached_head (head_ q) q) p (if tail_ q =? head_ q then CIdle else CReady) pu po)
  | c_read item q p pu po :
      buffer_ q !! slot (tail_ q) q = Some item ->
      step (mkst q p CReady pu po) (mkst q p (CRead item) pu po)
  | c_publish item q p pu po :
      step (mkst q p (CRead item) pu po) (mkst (set_tail (tail_ q +₆₄ 1) q) p CIdle pu (po ++ [item])).

(** [xs] is what was pushed and not popped; the program counters bring what
    their tests established. *)
Record inv (s : st) (xs : list T) : Prop := {
  i_repr : repr (queue s) (Z.of_nat (length (popped s))) (Z.of_nat (length (pushed s))) xs;
  i_fifo : pushed s = popped s ++ xs;
  i_producer :
    match producer s with
    | PIdle => True
    | PReady item | PWritten item =>
        exists CT, cached_tail_ (queue s) = wrap 64 CT /\ CT <= Z.of_nat (length (popped s)) /\
          Z.of_nat (length (pushed s)) + 1 - CT <= capacity_ (queue s)
    end;
  i_written :
    match producer s with
    | PWritten item =>
        buffer_ (queue s) !! Z.to_nat (Z.of_nat (length (pushed s)) mod capacity_ (queue s)) = Some item
    | _ => True
    end;
  i_consumer :
    match consumer s with
    | CIdle => True
    | _ => exists CH, cached_head_ (queue s) = wrap 64 CH /\
        Z.of_nat (length (popped s)) + 1 <= CH <= Z.of_nat (length (pushed s))
    end;
  i_read : match consumer s with CRead item => head xs = Some item | _ => True end
}.

Lemma repr_with q q' T0 H xs :
  repr q T0 H xs ->
  capacity_ q' = capacity_ q -> mask_ q' = mask_ q -> buffer_ q' = buffer_ q ->
  tail_ q' = tail_ q -> head_ q' = head_ q ->
  (exists CT, cached_tail_ q' = wrap 64 CT /\ CT <= T0 /\ H - CT <= capacity_ q) ->
  (exists CH, cached_head_ q' = wrap 64 CH /\ T0 <= CH <= H) -> repr q' T0 H xs.
Proof. intros [] Hc Hm Hb Ht Hh HCT HCH. split; rewrite ?Hc ?Hm ?Hb ?Ht ?Hh; done. Qed.

Lemma write_repr q T0 H xs item :
  repr q T0 H xs -> H - T0 < capacity_ q ->
  repr (set_buffer (<[slot (head_ q) q := item]> (buffer_ q)) q) T0 H xs /\
  <[slot (head_ q) q := item]> (buffer_ q) !! Z.to_nat (H mod capacity_ q) = Some item.
Proof.
  intros Hr Hlt. pose proof (slot_pos _ _ _ _ H Hr) as Hs. rewrite -(r_head _ _ _ _ Hr) in Hs.
  pose proof (r_len _ _ _ _ Hr) as Hlen. rewrite Hs. split.
  - split; simpl; try apply Hr; [by rewrite length_insert; apply Hr|].
    intros i x Hi. pose proof (lookup_lt_Some _ _ _ Hi). rewrite list_lookup_insert_ne.
    + symmetry. eapply slot_ne; [exact Hr|lia].
    + by apply (r_elems _ _ _ _ Hr).
  - apply list_lookup_insert_eq. by eapply slot_lt.
Qed.

Lemma publish_repr q T0 H xs item :
  repr q T0 H xs -> H - T0 < capacity_ q ->
  (exists CT, cached_tail_ q = wrap 64 CT /\ CT <= T0 /\ H + 1 - CT <= capacity_ q) ->
  buffer_ q !! Z.to_nat (H mod capacity_ q) = Some item ->
  repr (set_head (head_ q +₆₄ 1) q) T0 (H + 1) (xs ++ [item]).
Proof.
  intros Hr Hlt HCT Hb. pose proof (store_repr q T0 H xs item Hr Hlt HCT) as Hst.
  pose proof (slot_pos _ _ _ _ H Hr) as Hs. rewrite -(r_head _ _ _ _ Hr) in Hs.
  rewrite Hs list_insert_id in Hst; [done|]. by destruct q.
Qed.


(** The tests of the producer establish that there is room. *)
Lemma room_checked q T0 H xs :
  repr q T0 H xs -> (capacity_ q <=? head_ q -₆₄ cached_tail_ q) = false ->
  exists CT, cached_tail_ q = wrap 64 CT /\ CT <= T0 /\ H + 1 - CT <= capacity_ q.
Proof.
  intros Hr Ht. destruct (full_test _ _ _ _ Hr) as (CT & HCT & Hle & _ & Hf & _).
  exists CT. split_and!; [done|done|]. rewrite Hf in Ht. lia.
Qed.

Lemma reload_tail_repr q T0 H xs : repr q T0 H xs -> repr (set_cached_tail (tail_ q) q) T0 H xs.
Proof.
  intros Hr. eapply repr_with; try done; [|apply Hr]. exists T0. split_and!; [apply Hr|lia|apply Hr].
Qed.

Lemma reload_head_repr q T0 H xs : repr q T0 H xs -> repr (set_cached_head (head_ q) q) T0 H xs.
Proof.
  intros Hr. pose proof (r_len _ _ _ _ Hr). eapply repr_with; try done; [apply Hr|].
  exists H. split; [apply Hr|lia].
Qed.

(** The tests of the consumer establish that there is an element. *)
Lemma element_checked q T0 H xs :
  repr q T0 H xs -> (tail_ q =? cached_head_ q) = false ->
  exists CH, cached_head_ q = wrap 64 CH /\ T0 + 1 <= CH <= H.
Proof.
  intros Hr Ht. destruct (r_chead _ _ _ _ Hr) as (CH & HCH & Hb). exists CH. split; [done|].
  assert (CH <> T0); [|lia]. intros ->. by rewrite HCH (r_tail _ _ _ _ Hr) Z.eqb_refl in Ht.
Qed.

Lemma step_inv s s' xs : inv s xs -> step s s' -> exists xs', inv s' xs'.
Proof.
  intros [Hr Hf Hp Hw Hc Hd] Hs.
  destruct Hs as [item q c pu po Ht|item q c pu po Ht|item q c pu po|item q c pu po
    |q p pu po Ht|q p pu po Ht|item q p pu po Ht|item q p pu po]; simpl in *;
    pose proof (r_len _ _ _ _ Hr) as Hlen; pose proof (r_full _ _ _ _ Hr) as Hfull.
  - exists xs. split; simpl; try done. by eapply room_checked.
  - exists xs. pose proof (reload_tail_repr _ _ _ _ Hr) as Hr'.
    split; simpl; try done; destruct (capacity_ q <=? head_ q -₆₄ tail_ q) eqn:E; try done.
    by apply (room_checked _ _ _ _ Hr').
  - exists xs. destruct Hp as (CT & HCT & Hle & Hroom).
    destruct (write_repr q _ _ xs item Hr) as [Hr' Hb]; [lia|].
    split; simpl; try done. by exists CT.
  - exists (xs ++ [item]). destruct Hp as (CT & HCT & Hle & Hroom).
    split; simpl; try done.
    + rewrite length_app Nat2Z.inj_add. apply publish_repr; [done|lia|by exists CT|done].
    + by rewrite Hf app_assoc.
    + destruct c; try done; destruct Hc as (CH & ? & ?); exists CH; (split; [done|]);
        rewrite length_app /=; lia.
    + destruct c; try done. by destruct xs.
  - exists xs. split; simpl; try done. by eapply element_checked.
  - exists xs. pose proof (reload_head_repr _ _ _ _ Hr) as Hr'.
    split; simpl; try done; destruct (tail_ q =? head_ q) eqn:E; try done.
    by apply (element_checked _ _ _ _ Hr').
  - exists xs. split; simpl; try done.
    destruct xs as [|x xs]; [destruct Hc as (CH & _ & HCH); simpl in Hlen; lia|].
    destruct (load_repr _ _ _ _ _ Hr Hc) as [Hl _]. simpl. congruence.
  - destruct xs as [|x xs]; [done|]. simpl in Hd. simplify_eq. exists xs.
    destruct (load_repr _ _ _ _ _ Hr Hc) as [_ Hr'].
    assert (Z.of_nat (length (po ++ [item])) = Z.of_nat (length po) + 1) as Hl1 by (rewrite length_app /=; lia).
    split; simpl; try done.
    + by rewrite Hl1.
    + by rewrite -app_assoc.
    + destruct p; try done; destruct Hp as (CT & ? & ? & ?); exists CT; rewrite Hl1; split_and!; done || lia.
Qed.

Lemma rtc_inv s s' xs : inv s xs -> rtc step s s' -> exists xs', inv s' xs'.
Proof.
  intros Hi Hr. revert xs Hi. induction Hr as [|x y z Hs _ IH]; intros xs Hi; [eauto|].
  destruct (step_inv _ _ _ Hi Hs) as (ys & Hy). eauto.
Qed.

Lemma start_inv q : repr q 0 0 [] -> inv (mkst q PIdle CIdle [] []) [].
Proof. intros Hr. split; simpl; try done. Qed.

(** A call of [push] or [pop] that is not interrupted is a run of the thread's
    own steps, with the other thread where it was. *)
Lemma store_steps item q c pu po :
  rtc step (mkst q (PReady item) c pu po)
    (mkst (set_head (head_ q +₆₄ 1) (set_buffer (<[slot (head_ q) q := item]> (buffer_ q)) q))
       PIdle c (pu ++ [item]) po).
Proof. eapply rtc_l; [apply p_write|]. apply rtc_once. exact (p_publish item _ _ _ _). Qed.

Lemma push_steps item q c pu po :
  rtc step (mkst q PIdle c pu po)
    (mkst (push item q).2 PIdle c (if (push item q).1 then pu ++ [item] else pu) po).
Proof.
  unfold push. destruct (capacity_ q <=? head_ q -₆₄ cached_tail_ q) eqn:E.
  - eapply rtc_l; [by apply (p_reload item)|]. cbn [cached_tail_ set_cached_tail capacity_].
    destruct (capacity_ q <=? head_ q -₆₄ tail_ q); [done|]. apply store_steps.
  - eapply rtc_l; [by apply (p_fast item)|]. apply store_steps.
Qed.

Lemma load_steps item q p pu po :
  buffer_ q !! slot (tail_ q) q = Some item ->
  rtc step (mkst q p CReady pu po) (mkst (set_tail (tail_ q +₆₄ 1) q) p CIdle pu (po ++ [item])).
Proof. intros E. eapply rtc_l; [by apply c_read|]. apply rtc_once. apply c_publish. Qed.

Lemma pop_steps q r q' p pu po :
  pop q = Some (r, q') -> rtc step (mkst q p CIdle pu po) (mkst q' p CIdle pu (po ++ option_list r)).
Proof.
  unfold pop. destruct (tail_ q =? cached_head_ q) eqn:E.
  - intros Hq. eapply rtc_l; [by apply c_reload|]. revert Hq.
    cbn [cached_head_ set_cached_head]. destruct (tail_ q =? head_ q).
    + intros ?. simplify_eq. rewrite app_nil_r. done.
    + destruct (buffer_ _ !! _) as [item|] eqn:Eb; cbn [mbind option_bind]; intros ?; simplify_eq.
      exact (load_steps item (set_cached_head (head_ q) q) _ _ _ Eb).
  - destruct (buffer_ _ !! _) as [item|] eqn:Eb; cbn [mbind option_bind]; intros ?; simplify_eq.
    eapply rtc_l; [by apply c_fast|]. by apply (load_steps item).
Qed.

End threads.
End SPSCThreads.

(** ** Guarantees *)

(** [round_up_pow2] returns the least power of two not below its argument
    for arguments up to 2^63, and 0 for every larger one: the capacity of a queue
    asked to hold more than 2^63 elements collapses to nothing. *)
Theorem round_up_pow2_correct v :
  0 < v < 2 ^ 64 ->
  if v <=? 2 ^ 63
  then exists k, 0 <= k <= 63 /\ round_up_pow2 v = 2 ^ k /\ 2 ^ k < 2 * v /\ v <= 2 ^ k
  else round_up_pow2 v = 0.
Proof.
  intros Hv. destruct (Z.leb_spec v (2 ^ 63)); [|apply round_up_pow2_too_big; lia].
  exists (Z.log2_up v). rewrite round_up_pow2_spec; [lia|]. destruct (decide (v = 1)) as [->|Hne]; [done|].
  destruct (Z.log2_up_spec v ltac:(lia)) as [H1 H2]. pose proof (Z.log2_up_pos v ltac:(lia)).
  rewrite -Z.sub_1_r in H1. replace (2 ^ Z.log2_up v) with (2 * 2 ^ (Z.log2_up v - 1)).
  { split_and!; [lia|apply Z.log2_up_le_pow2; lia|done|lia|].
    rewrite -Z.pow_succ_r; [lia|]. by replace (Z.succ (Z.log2_up v - 1)) with (Z.log2_up v) by lia. }
  rewrite -Z.pow_succ_r; [lia|]. f_equal. lia.
Qed.

Lemma round_up_pow2_correct_witness : exists k, 0 <= k <= 63 /\ round_up_pow2 50000 = 2 ^ k.
Proof. destruct (round_up_pow2_correct 50000 ltac:(lia)) as (k & Hk & H & _). exists k. split; [exact Hk|exact H]. Defined.

(** The queue is a bounded FIFO.  On a queue holding [xs], [push] succeeds
    exactly when there are fewer than [capacity] elements and appends at the end,
    [pop] removes the first element or reports emptiness, and [size] and [empty]
    are exact, across the wrap-around of the 64-bit positions. *)
Theorem spsc_fifo {T} (q : SPSCQueue.t T) xs :
  SPSCQueue.holds q xs ->
  (forall item, exists q', SPSCQueue.push item q = (bool_decide (Z.of_nat (length xs) < SPSCQueue.capacity q), q') /\
     SPSCQueue.holds q' (if decide (Z.of_nat (length xs) < SPSCQueue.capacity q) then xs ++ [item] else xs)) /\
  (exists q', SPSCQueue.pop q = Some (head xs, q') /\ SPSCQueue.holds q' (tail xs)) /\
  SPSCQueue.size q = Z.of_nat (length xs) /\ SPSCQueue.empty q = bool_decide (xs = []).
Proof.
  intros (T0 & H & Hr). destruct (SPSCQueue.repr_size _ _ _ _ Hr) as [Hs He]. split_and!; [| |done|done].
  - intros item. pose proof (SPSCQueue.push_spec q T0 H xs item Hr) as Hp. unfold SPSCQueue.capacity.
    case_decide as Hd; destruct Hp as (q' & Hq & Hr'); exists q'; rewrite Hq.
    + rewrite bool_decide_eq_true_2 //. split; [done|]. by exists T0, (H + 1).
    + rewrite bool_decide_eq_false_2 //. split; [done|]. by exists T0, H.
  - pose proof (SPSCQueue.pop_spec q T0 H xs Hr) as Hp.
    destruct xs as [|x xs]; destruct Hp as (q' & Hq & Hr'); exists q'; rewrite Hq; (split; [done|]).
    + by exists T0, H.
    + by exists (T0 + 1), H.
Qed.

Definition ex_spsc : SPSCQueue.t Z :=
  match SPSCQueue.make 0 3 with Some q => snd (SPSCQueue.push 7 q) | None => SPSCQueue.mk 1 0 [0] 0 0 0 0 end.

Lemma ex_spsc_holds : SPSCQueue.holds ex_spsc [7].
Proof.
  unfold ex_spsc. destruct (SPSCQueue.make_repr 0 3) as (q & Hq & Hr & Hc); [lia|]. rewrite Hq.
  pose proof (SPSCQueue.push_spec q 0 0 [] 7 Hr) as Hp. rewrite decide_True in Hp; [simpl; lia|].
  destruct Hp as (q' & -> & Hr'). by exists 0, 1.
Qed.

Lemma spsc_fifo_witness : exists q', SPSCQueue.pop ex_spsc = Some (Some 7, q') /\ SPSCQueue.holds q' [].
Proof. destruct (spsc_fifo ex_spsc [7] ex_spsc_holds) as (_ & H & _). exact H. Defined.

(** C10: Under every interleaving of one producer and one consumer, what was
    popped is an initial part of what was pushed, in order; at most [capacity]
    elements are in between; when both threads are about to access a slot, the
    slots differ; and each thread, from wherever the other one stands, can
    complete a call: the call changes the queue as the uninterrupted [push] or
    [pop] does, the element [pop] delivers being the oldest one not popped yet. *)
Theorem spsc_interleaved_fifo {T} (zero : T) n q s :
  0 <= n <= 2 ^ 63 -> SPSCQueue.make zero n = Some q ->
  rtc SPSCThreads.step (SPSCThreads.mkst q SPSCThreads.PIdle SPSCThreads.CIdle [] []) s ->
  SPSCThreads.popped s `prefix_of` SPSCThreads.pushed s /\
  Z.of_nat (length (SPSCThreads.pushed s)) - Z.of_nat (length (SPSCThreads.popped s)) <= SPSCQueue.capacity_ (SPSCThreads.queue s) /\
  (forall item, SPSCThreads.producer s = SPSCThreads.PReady item -> SPSCThreads.consumer s = SPSCThreads.CReady ->
     SPSCQueue.slot (SPSCQueue.head_ (SPSCThreads.queue s)) (SPSCThreads.queue s) <>
     SPSCQueue.slot (SPSCQueue.tail_ (SPSCThreads.queue s)) (SPSCThreads.queue s)) /\
  (forall item, SPSCThreads.producer s = SPSCThreads.PIdle ->
     rtc SPSCThreads.step s
       (SPSCThreads.mkst (SPSCQueue.push item (SPSCThreads.queue s)).2 SPSCThreads.PIdle
          (SPSCThreads.consumer s)
          (if (SPSCQueue.push item (SPSCThreads.queue s)).1 then SPSCThreads.pushed s ++ [item]
           else SPSCThreads.pushed s) (SPSCThreads.popped s))) /\
  (SPSCThreads.consumer s = SPSCThreads.CIdle ->
     exists q',
       SPSCQueue.pop (SPSCThreads.queue s) =
         Some (SPSCThreads.pushed s !! length (SPSCThreads.popped s), q') /\
       rtc SPSCThreads.step s
         (SPSCThreads.mkst q' (SPSCThreads.producer s) SPSCThreads.CIdle (SPSCThreads.pushed s)
            (SPSCThreads.popped s ++ option_list (SPSCThreads.pushed s !! length (SPSCThreads.popped s))))).
Proof.
  intros Hn Hq Hs. destruct (SPSCQueue.make_repr zero n Hn) as (q0 & Hq0 & Hr0 & _).
  rewrite Hq in Hq0. simplify_eq.
  destruct (SPSCThreads.rtc_inv _ _ _ (SPSCThreads.start_inv _ Hr0) Hs) as (xs & [Hr Hf Hp _ Hc _]).
  split_and!; [by exists xs|apply Hr| | |].
  2:{ intros item Hpi. destruct s; simpl in *; simplify_eq. apply SPSCThreads.push_steps. }
  2:{ intros Hci. pose proof (SPSCQueue.pop_spec _ _ _ _ Hr) as Hpop.
      assert (SPSCThreads.pushed s !! length (SPSCThreads.popped s) = head xs) as ->.
      { rewrite Hf lookup_app_r // Nat.sub_diag. by destruct xs. }
      destruct s; simpl in *; simplify_eq.
      destruct xs; destruct Hpop as (q' & Hpop & _); exists q'; split; try done;
        by apply SPSCThreads.pop_steps. }
  intros item Hpi Hci. rewrite Hpi in Hp. rewrite Hci in Hc.
  destruct Hp as (CT & _ & HCT & Hroom), Hc as (CH & _ & HCH).
  rewrite (SPSCQueue.r_head _ _ _ _ Hr) (SPSCQueue.r_tail _ _ _ _ Hr) !(SPSCQueue.slot_pos _ _ _ _ _ Hr).
  symmetry. eapply SPSCQueue.slot_ne; [exact Hr|lia].
Qed.

Section interleaving_example.
Import SPSCThreads.

Abbreviation ex_q h ct t ch b := (SPSCQueue.mk 2 1 b h ct t ch).

(** One element goes through a queue of two slots. *)
Lemma ex_spsc_run :
  rtc step (mkst (ex_q 0 0 0 0 [0; 0]) PIdle CIdle [] []) (mkst (ex_q 1 0 1 1 [5; 0]) PIdle CIdle [5] [5]).
Proof.
  apply (rtc_l _ _ (mkst (ex_q 0 0 0 0 [0; 0]) (PReady 5) CIdle [] [])); [by apply p_fast|].
  apply (rtc_l _ _ (mkst (ex_q 0 0 0 0 [5; 0]) (PWritten 5) CIdle [] [])); [exact (p_write 5 _ _ _ _)|].
  apply (rtc_l _ _ (mkst (ex_q 1 0 0 0 [5; 0]) PIdle CIdle [5] [])); [exact (p_publish 5 _ _ _ _)|].
  apply (rtc_l _ _ (mkst (ex_q 1 0 0 1 [5; 0]) PIdle CReady [5] [])); [by refine (c_reload _ _ _ _ _)|].
  apply (rtc_l _ _ (mkst (ex_q 1 0 0 1 [5; 0]) PIdle (CRead 5) [5] [])); [by apply c_read|].
  apply rtc_once. exact (c_publish 5 _ _ _ _).
Qed.

Lemma spsc_interleaved_fifo_witness : [5] `prefix_of` [5].
Proof.
  exact (proj1 (spsc_interleaved_fifo 0 2 _ _ ltac:(lia) eq_refl ex_spsc_run)).
Defined.

End interleaving_example.
