(* ===== verification/MpmcQueue.v ===== *)
(** * The multi-producer multi-consumer queue (include/rtes/mpmc_queue.hpp)

    Vyukov's bounded queue: every cell carries a sequence number that tells
    producers and consumers whether its position is theirs.  [push] and [pop] are
    the bodies run by one thread without interference; the signed difference of
    two positions is undefined ([None]) when it leaves the range of [intptr_t].
    MpmcThreads interleaves the calls of any number of threads. *)

From S2P Require Import Prelude.
From S2P Require Import SpscQueue.

(** [static_cast<intptr_t>] of a 64-bit word. *)
Definition intptr (x : Z) : Z := if x <? 2 ^ 63 then x else x - 2 ^ 64.

(** Signed subtraction: overflow is undefined behaviour. *)
Definition signed_diff (a b : Z) : option Z :=
  let d := intptr a - intptr b in
  if (- 2 ^ 63 <=? d) && (d <? 2 ^ 63) then Some d else None.

Module MPMCQueue.

Record Cell (T : Type) := mkCell { sequence : Z; data : T }.
Arguments mkCell {T}.
Arguments sequence {T}.
Arguments data {T}.

Record t (T : Type) := mk {
  capacity_ : Z;
  mask_ : Z;
  buffer_ : list (Cell T);
  enqueue_pos_ : Z;
  dequeue_pos_ : Z
}.
Arguments mk {T}.
Arguments capacity_ {T}.
Arguments mask_ {T}.
Arguments buffer_ {T}.
Arguments enqueue_pos_ {T}.
Arguments dequeue_pos_ {T}.

Section ops.
Context {T : Type}.
Implicit Types q : t T.

(** The size [allocate_buffer] asks [aligned_alloc] for, with cells of [sizeof]
    bytes (a multiple of the cache line): the product wraps around. *)
Definition allocated_bytes (sizeof cap : Z) : Z := wrap 64 (cap * sizeof).

(** The buffer is the memory the code means to have, which it has when the product
    of [allocated_bytes] does not wrap ([cells_fit]). *)
Definition make (zero : T) (min_capacity : Z) : option (t T) :=
  let capacity := round_up_pow2 min_capacity in
  let mask := capacity -₆₄ 1 in
  if negb (min_capacity <=? capacity) then None
  else if negb (Z.land capacity mask =? 0) then None
  else Some (mk capacity mask ((fun i => mkCell (Z.of_nat i) zero) <$> seq 0 (Z.to_nat capacity)) 0 0).

Lemma cells_fit sizeof cap :
  0 <= cap -> 0 <= sizeof -> (allocated_bytes sizeof cap = cap * sizeof <-> cap * sizeof < 2 ^ 64).
Proof.
  intros Hc Hs. unfold allocated_bytes. split.
  - intros <-. by apply Z.mod_pos_bound.
  - intros H. apply wrap_small. split; [nia|done].
Qed.

(** 2^58 cells of a cache line each are allocated no memory. *)
Example cells_wrap : allocated_bytes 64 (2 ^ 58) = 0 /\ round_up_pow2 (2 ^ 58) = 2 ^ 58.
Proof. done. Qed.

Definition set_buffer (b : list (Cell T)) q : t T :=
  mk (capacity_ q) (mask_ q) b (enqueue_pos_ q) (dequeue_pos_ q).
Definition set_enqueue_pos (x : Z) q : t T := mk (capacity_ q) (mask_ q) (buffer_ q) x (dequeue_pos_ q).
Definition set_dequeue_pos (x : Z) q : t T := mk (capacity_ q) (mask_ q) (buffer_ q) (enqueue_pos_ q) x.

Definition slot (pos : Z) q : nat := Z.to_nat (Z.land pos (mask_ q)).

(** The retry loop.  Without interference the compare-and-swap succeeds when it
    is reached; a cell from the future sends the loop back to the same position,
    so that running out of [fuel] stands for spinning forever. *)
Fixpoint push_loop (fuel : nat) (item : T) (pos : Z) q : option (bool * t T) :=
  match fuel with
  | O => None
  | S fuel' =>
      cell ← buffer_ q !! slot pos q;
      diff ← signed_diff (sequence cell) pos;
      if diff =? 0 then
        if enqueue_pos_ q =? pos then
          let q := set_enqueue_pos (pos +₆₄ 1) q in
          Some (true, set_buffer (<[slot pos q := mkCell (pos +₆₄ 1) item]> (buffer_ q)) q)
        else push_loop fuel' item (enqueue_pos_ q) q
      else if diff <? 0 then Some (false, q)
      else push_loop fuel' item (enqueue_pos_ q) q
  end.

Definition push (item : T) q : option (bool * t T) := push_loop 2 item (enqueue_pos_ q) q.

Fixpoint pop_loop (fuel : nat) (pos : Z) q : option (option T * t T) :=
  match fuel with
  | O => None
  | S fuel' =>
      cell ← buffer_ q !! slot pos q;
      diff ← signed_diff (sequence cell) (pos +₆₄ 1);
      if diff =? 0 then
        if dequeue_pos_ q =? pos then
          let q := set_dequeue_pos (pos +₆₄ 1) q in
          Some (Some (data cell),
                set_buffer (<[slot pos q := mkCell (pos +₆₄ capacity_ q) (data cell)]> (buffer_ q)) q)
        else pop_loop fuel' (dequeue_pos_ q) q
      else if diff <? 0 then Some (None, q)
      else pop_loop fuel' (dequeue_pos_ q) q
  end.

Definition pop q : option (option T * t T) := pop_loop 2 (dequeue_pos_ q) q.

Definition empty q : bool := enqueue_pos_ q <=? dequeue_pos_ q.
Definition size_approx q : Z :=
  let diff := enqueue_pos_ q -₆₄ dequeue_pos_ q in
  if diff <=? capacity_ q then diff else 0.
Definition capacity q : Z := capacity_ q.

(** ** Representation

    [D] pops and [E] pushes so far; the cells of the positions in between hold
    [xs] and are one ahead, the cells of the next positions are free.  A queue
    of one cell is excluded: there, "filled" and "free for the next round" are
    the same sequence number. *)
Record repr q (D E : Z) (xs : list T) : Prop := {
  r_cap : exists k, 1 <= k <= 62 /\ capacity_ q = 2 ^ k;
  r_mask : mask_ q = capacity_ q - 1;
  r_buffer : length (buffer_ q) = Z.to_nat (capacity_ q);
  r_deq : dequeue_pos_ q = D;
  r_enq : enqueue_pos_ q = E;
  r_len : E - D = Z.of_nat (length xs);
  r_full : E - D <= capacity_ q;
  r_nonneg : 0 <= D;
  r_elems : forall i x, xs !! i = Some x ->
    buffer_ q !! Z.to_nat ((D + Z.of_nat i) mod capacity_ q) = Some (mkCell (D + Z.of_nat i + 1) x);
  r_free : forall p, E <= p < D + capacity_ q ->
    sequence <$> buffer_ q !! Z.to_nat (p mod capacity_ q) = Some p
}.

(** Room for [n] more operations before a position reaches 2^63. *)
Definition holds (n : nat) q (xs : list T) : Prop :=
  exists D E, repr q D E xs /\ E + capacity_ q + Z.of_nat n < 2 ^ 63.

Lemma signed_diff_small a b : 0 <= a < 2 ^ 63 -> 0 <= b < 2 ^ 63 -> signed_diff a b = Some (a - b).
Proof.
  intros Ha Hb. unfold signed_diff, intptr.
  rewrite (proj2 (Z.ltb_lt a _)); [lia|]. rewrite (proj2 (Z.ltb_lt b _)); [lia|].
  rewrite (proj2 (Z.leb_le _ _)); [lia|]. rewrite (proj2 (Z.ltb_lt _ _)); [lia|]. done.
Qed.

(** What never changes: the number of cells, a power of two above one. *)
Record shape q : Prop := {
  sh_cap : exists k, 1 <= k <= 62 /\ capacity_ q = 2 ^ k;
  sh_mask : mask_ q = capacity_ q - 1;
  sh_buffer : length (buffer_ q) = Z.to_nat (capacity_ q)
}.

Lemma repr_shape q D E xs : repr q D E xs -> shape q.
Proof. intros [Hc Hm Hb _ _ _ _ _ _ _]. by split. Qed.

Lemma shape_cap q : shape q -> 2 <= capacity_ q <= 2 ^ 62.
Proof.
  intros Hr. destruct (sh_cap _ Hr) as (k & Hk & ->). split; [|apply Z.pow_le_mono_r; lia].
  change 2 with (2 ^ 1) at 1. apply Z.pow_le_mono_r; lia.
Qed.

Lemma shape_slot q pos : shape q -> slot pos q = Z.to_nat (pos mod capacity_ q).
Proof.
  intros Hr. destruct (sh_cap _ Hr) as (k & Hk & Hc). unfold slot.
  rewrite (sh_mask _ Hr) Hc land_pow2_mask; [lia|]. done.
Qed.

Lemma shape_slot_lt q pos : shape q -> (Z.to_nat (pos mod capacity_ q) < length (buffer_ q))%nat.
Proof.
  intros Hr. rewrite (sh_buffer _ Hr). pose proof (shape_cap _ Hr).
  pose proof (Z.mod_pos_bound pos (capacity_ q)). lia.
Qed.

Lemma shape_slot_ne q i j :
  shape q -> i < j < i + capacity_ q -> Z.to_nat (i mod capacity_ q) <> Z.to_nat (j mod capacity_ q).
Proof.
  intros Hr Hij. pose proof (shape_cap _ Hr).
  pose proof (Z.mod_pos_bound i (capacity_ q)). pose proof (Z.mod_pos_bound j (capacity_ q)).
  pose proof (mod_distinct (capacity_ q) i (j - i) ltac:(lia)) as Hne.
  replace (i + (j - i)) with j in Hne by lia. lia.
Qed.

Lemma shape_wraps q p : shape q -> (p + capacity_ q) mod capacity_ q = p mod capacity_ q.
Proof.
  intros Hr. pose proof (shape_cap _ Hr).
  rewrite -{1}(Z.mul_1_l (capacity_ q)) Z.mod_add; [lia|]. done.
Qed.

Lemma mpmc_cap_bounds q D E xs : repr q D E xs -> 2 <= capacity_ q <= 2 ^ 62.
Proof. intros Hr. by eapply shape_cap, repr_shape. Qed.

Lemma mpmc_slot_pos q D E xs pos : repr q D E xs -> slot pos q = Z.to_nat (pos mod capacity_ q).
Proof. intros Hr. by eapply shape_slot, repr_shape. Qed.

Lemma mpmc_slot_lt q D E xs pos :
  repr q D E xs -> (Z.to_nat (pos mod capacity_ q) < length (buffer_ q))%nat.
Proof. intros Hr. by eapply shape_slot_lt, repr_shape. Qed.

Lemma mpmc_slot_ne q D E xs i j :
  repr q D E xs -> i < j < i + capacity_ q ->
  Z.to_nat (i mod capacity_ q) <> Z.to_nat (j mod capacity_ q).
Proof. intros Hr. by eapply shape_slot_ne, repr_shape. Qed.

Lemma mod_wraps q D E xs p : repr q D E xs -> (p + capacity_ q) mod capacity_ q = p mod capacity_ q.
Proof. intros Hr. by eapply shape_wraps, repr_shape. Qed.

(** The cell at the enqueue position: free, or still holding an element of the
    previous round. *)
Lemma cell_at_enq q D E xs :
  repr q D E xs ->
  exists cell, buffer_ q !! Z.to_nat (E mod capacity_ q) = Some cell /\
    sequence cell = if decide (E - D < capacity_ q) then E else E - capacity_ q + 1.
Proof.
  intros Hr. pose proof (r_len _ _ _ _ Hr) as Hlen. pose proof (mpmc_cap_bounds _ _ _ _ Hr).
  pose proof (r_full _ _ _ _ Hr). case_decide as Hd.
  - pose proof (r_free _ _ _ _ Hr E ltac:(lia)) as Hf.
    destruct (buffer_ q !! Z.to_nat (E mod capacity_ q)) as [c|]; simplify_eq/=. eauto.
  - destruct xs as [|x xs]; [simpl in Hlen; lia|].
    pose proof (r_elems _ _ _ _ Hr 0%nat x eq_refl) as He. rewrite Z.add_0_r in He.
    replace (E mod capacity_ q) with (D mod capacity_ q); [|by rewrite -(mod_wraps _ _ _ _ D Hr); f_equal; lia].
    eexists. split; [exact He|]. simpl. lia.
Qed.

Lemma push_repr q D E xs item :
  repr q D E xs -> E - D < capacity_ q ->
  repr (set_buffer (<[Z.to_nat (E mod capacity_ q) := mkCell (E + 1) item]> (buffer_ q)) (set_enqueue_pos (E + 1) q))
    D (E + 1) (xs ++ [item]).
Proof.
  intros Hr Hlt. pose proof (r_len _ _ _ _ Hr) as Hlen. pose proof (r_nonneg _ _ _ _ Hr).
  split; simpl; try apply Hr; try done; try lia.
  - by rewrite length_insert (r_buffer _ _ _ _ Hr).
  - rewrite length_app /=. lia.
  - intros i x Hi. apply lookup_app_Some in Hi as [Hi|[Hge Hi]].
    + pose proof (lookup_lt_Some _ _ _ Hi). rewrite list_lookup_insert_ne.
      * symmetry. eapply mpmc_slot_ne; [exact Hr|lia].
      * by apply (r_elems _ _ _ _ Hr).
    + destruct (i - length xs)%nat eqn:Ei; [|done]. simpl in Hi. simplify_eq.
      replace (D + Z.of_nat i) with E by lia. apply list_lookup_insert_eq. by eapply mpmc_slot_lt.
  - intros p Hp. rewrite list_lookup_insert_ne; [eapply mpmc_slot_ne; [exact Hr|lia]|].
    apply (r_free _ _ _ _ Hr). lia.
Qed.

Lemma mpmc_push_spec q D E xs item :
  repr q D E xs -> E + capacity_ q + 1 < 2 ^ 63 ->
  if decide (Z.of_nat (length xs) < capacity_ q)
  then exists q', push item q = Some (true, q') /\ repr q' D (E + 1) (xs ++ [item]) /\ capacity_ q' = capacity_ q
  else push item q = Some (false, q).
Proof.
  intros Hr Hb. pose proof (r_len _ _ _ _ Hr) as Hlen. pose proof (r_nonneg _ _ _ _ Hr).
  pose proof (mpmc_cap_bounds _ _ _ _ Hr) as Hc. pose proof (r_full _ _ _ _ Hr).
  destruct (cell_at_enq _ _ _ _ Hr) as (cell & Hcell & Hseq). rewrite -Hlen.
  unfold push. cbn [push_loop]. rewrite (r_enq _ _ _ _ Hr) (mpmc_slot_pos _ _ _ _ E Hr) Hcell.
  cbn [mbind option_bind]. case_decide as Hd.
  - rewrite Hseq signed_diff_small; [lia..|]. cbn [mbind option_bind].
    rewrite Z.sub_diag Z.eqb_refl Z.eqb_refl.
    assert (wrap 64 (E + 1) = E + 1) as -> by (apply wrap_small; split; [lia|]; word_consts; change (2^63) with 9223372036854775808 in *; lia).
    eexists. split; [reflexivity|]. split; [|done].
    assert (slot E (set_enqueue_pos (E + 1) q) = Z.to_nat (E mod capacity_ q)) as -> by (apply (mpmc_slot_pos _ _ _ _ E Hr)).
    exact (push_repr q D E xs item Hr Hd).
  - rewrite Hseq signed_diff_small; [lia..|]. cbn [mbind option_bind].
    rewrite (proj2 (Z.eqb_neq _ _)); [lia|]. rewrite (proj2 (Z.ltb_lt _ _)); [lia|]. done.
Qed.

(** The cell at the dequeue position: filled, or free for this round. *)
Lemma cell_at_deq q D E xs :
  repr q D E xs ->
  exists cell, buffer_ q !! Z.to_nat (D mod capacity_ q) = Some cell /\
    match xs with [] => sequence cell = D | x :: _ => cell = mkCell (D + 1) x end.
Proof.
  intros Hr. pose proof (r_len _ _ _ _ Hr) as Hlen. pose proof (mpmc_cap_bounds _ _ _ _ Hr).
  destruct xs as [|x xs].
  - pose proof (r_free _ _ _ _ Hr D ltac:(simpl in Hlen; lia)) as Hf.
    destruct (buffer_ q !! Z.to_nat (D mod capacity_ q)) as [c|]; simplify_eq/=. eauto.
  - pose proof (r_elems _ _ _ _ Hr 0%nat x eq_refl) as He. rewrite Z.add_0_r in He. eauto.
Qed.

Lemma pop_repr q D E x xs :
  repr q D E (x :: xs) ->
  repr (set_buffer (<[Z.to_nat (D mod capacity_ q) := mkCell (D + capacity_ q) x]> (buffer_ q))
    (set_dequeue_pos (D + 1) q)) (D + 1) E xs.
Proof.
  intros Hr. pose proof (r_len _ _ _ _ Hr) as Hlen. simpl in Hlen. pose proof (r_nonneg _ _ _ _ Hr).
  pose proof (r_full _ _ _ _ Hr). split; simpl; try apply Hr; try done; try lia.
  - by rewrite length_insert (r_buffer _ _ _ _ Hr).
  - intros i y Hi. pose proof (lookup_lt_Some _ _ _ Hi).
    pose proof (r_elems _ _ _ _ Hr (S i) y Hi) as He.
    replace (D + 1 + Z.of_nat i) with (D + Z.of_nat (S i)) by lia.
    rewrite list_lookup_insert_ne; [eapply mpmc_slot_ne; [exact Hr|lia]|done].
  - intros p Hp. destruct (decide (p = D + capacity_ q)) as [->|Hne].
    + rewrite (mod_wraps _ _ _ _ D Hr) list_lookup_insert_eq; [by eapply mpmc_slot_lt|done].
    + rewrite list_lookup_insert_ne; [eapply mpmc_slot_ne; [exact Hr|lia]|]. apply (r_free _ _ _ _ Hr). lia.
Qed.

Lemma mpmc_pop_spec q D E xs :
  repr q D E xs -> E + capacity_ q + 1 < 2 ^ 63 ->
  match xs with
  | [] => pop q = Some (None, q)
  | x :: xs' => exists q', pop q = Some (Some x, q') /\ repr q' (D + 1) E xs' /\ capacity_ q' = capacity_ q
  end.
Proof.
  intros Hr Hb. pose proof (r_len _ _ _ _ Hr) as Hlen. pose proof (r_nonneg _ _ _ _ Hr).
  pose proof (mpmc_cap_bounds _ _ _ _ Hr) as Hc. change (2 ^ 63) with 9223372036854775808 in *.
  destruct (cell_at_deq _ _ _ _ Hr) as (cell & Hcell & Hseq).
  unfold pop. cbn [pop_loop]. rewrite (r_deq _ _ _ _ Hr) (mpmc_slot_pos _ _ _ _ D Hr) Hcell.
  assert (wrap 64 (D + 1) = D + 1) as Hw by (apply wrap_small; u_lia).
  cbn [mbind option_bind]. rewrite Hw. destruct xs as [|x xs].
  - rewrite Hseq signed_diff_small; [change (2 ^ 63) with 9223372036854775808; simpl in Hlen; lia..|].
    cbn [mbind option_bind]. rewrite (proj2 (Z.eqb_neq _ _)); [lia|]. rewrite (proj2 (Z.ltb_lt _ _)); [lia|]. done.
  - subst cell. cbn [sequence data]. simpl in Hlen.
    rewrite signed_diff_small; [change (2 ^ 63) with 9223372036854775808; lia..|].
    cbn [mbind option_bind]. rewrite Z.sub_diag Z.eqb_refl Z.eqb_refl.
    assert (wrap 64 (D + capacity_ q) = D + capacity_ q) as Hw2 by (apply wrap_small; u_lia).
    cbn [capacity_ set_dequeue_pos]. rewrite Hw2. eexists. split; [reflexivity|]. split; [|done].
    assert (slot D (set_dequeue_pos (D + 1) q) = Z.to_nat (D mod capacity_ q)) as -> by (apply (mpmc_slot_pos _ _ _ _ D Hr)).
    exact (pop_repr q D E x xs Hr).
Qed.

Lemma mpmc_make_repr (zero : T) n :
  2 <= n <= 2 ^ 62 -> exists q, make zero n = Some q /\ repr q 0 0 [] /\ n <= capacity_ q.
Proof.
  intros Hn. set (k := Z.log2_up n). assert (round_up_pow2 n = 2 ^ k) as Hc.
  { apply round_up_pow2_spec. change (2 ^ 63) with (2 * 2 ^ 62). lia. }
  assert (1 <= k <= 62) as Hk.
  { split; [unfold k; pose proof (Z.log2_up_pos n ltac:(lia)); lia|].
    apply Z.log2_up_le_pow2; lia. }
  assert (n <= 2 ^ k) as Hle by (apply Z.log2_up_spec; lia).
  assert (0 < 2 ^ k < 2 ^ 64) as Hb by (split; [apply Z.pow_pos_nonneg; lia|apply Z.pow_lt_mono_r; lia]).
  assert (wrap 64 (2 ^ k - 1) = 2 ^ k - 1) as Hm by (apply wrap_small; split; lia).
  unfold make. rewrite Hc Hm. rewrite (proj2 (Z.leb_le n (2 ^ k)) Hle) /=.
  rewrite land_pow2_mask; [lia|]. rewrite Z.mod_same; [lia|]. simpl. eexists. split; [reflexivity|].
  split; [|done]. split; simpl; try done; try lia.
  - by exists k.
  - by rewrite length_fmap length_seq.
  - intros p Hp. rewrite Z.mod_small; [lia|]. rewrite list_lookup_fmap lookup_seq_lt; [lia|]. simpl. f_equal. lia.
Qed.

End ops.
End MPMCQueue.

(** ** Guarantees *)

(** With at least two cells and until a position reaches 2^63, the queue used
    without interference is a bounded FIFO: [push] and [pop] return (the retry
    loops end), [push] fails exactly on a full queue, [pop] exactly on an empty
    one, and elements leave in the order they entered. *)
Theorem mpmc_fifo {T} (q : MPMCQueue.t T) xs n :
  MPMCQueue.holds (S n) q xs ->
  (forall item, exists q', MPMCQueue.push item q = Some (bool_decide (Z.of_nat (length xs) < MPMCQueue.capacity q), q') /\
     MPMCQueue.holds n q' (if decide (Z.of_nat (length xs) < MPMCQueue.capacity q) then xs ++ [item] else xs)) /\
  (exists q', MPMCQueue.pop q = Some (head xs, q') /\ MPMCQueue.holds n q' (tail xs)).
Proof.
  intros (D & E & Hr & Hb). assert (E + MPMCQueue.capacity_ q + 1 < 2 ^ 63) as Hb1 by lia. split.
  - intros item. pose proof (MPMCQueue.mpmc_push_spec q D E xs item Hr Hb1) as Hp. unfold MPMCQueue.capacity.
    case_decide as Hd; [destruct Hp as (q' & Hq & Hr' & Hc)|].
    + exists q'. rewrite bool_decide_eq_true_2 //. split; [done|]. exists D, (E + 1). split; [done|]. rewrite Hc. lia.
    + exists q. rewrite bool_decide_eq_false_2 //. split; [done|]. exists D, E. split; [done|lia].
  - pose proof (MPMCQueue.mpmc_pop_spec q D E xs Hr Hb1) as Hp.
    destruct xs as [|x xs]; [|destruct Hp as (q' & Hq & Hr' & Hc)].
    + exists q. split; [done|]. exists D, E. split; [done|lia].
    + exists q'. split; [done|]. exists (D + 1), E. split; [done|]. rewrite Hc. lia.
Qed.

Definition ex_mpmc : MPMCQueue.t Z :=
  match MPMCQueue.make 0 2 with Some q => q | None => MPMCQueue.mk 0 0 [] 0 0 end.

Lemma ex_mpmc_holds : MPMCQueue.holds 100 ex_mpmc [].
Proof.
  unfold ex_mpmc. destruct (MPMCQueue.mpmc_make_repr 0 2) as (q & Hq & Hr & Hc); [lia|]. rewrite Hq.
  exists 0, 0. split; [done|]. pose proof (MPMCQueue.mpmc_cap_bounds _ _ _ _ Hr) as Hb.
  change (2 ^ 62) with 4611686018427387904 in Hb. change (2 ^ 63) with 9223372036854775808. lia.
Qed.

Lemma mpmc_fifo_witness : exists q', MPMCQueue.pop ex_mpmc = Some (None, q') /\ MPMCQueue.holds 99 q' [].
Proof. destruct (mpmc_fifo ex_mpmc [] 99 ex_mpmc_holds) as [_ H]. exact H. Defined.

(** A queue constructed with [min_capacity] 0 or 1 has one cell and is no
    bounded FIFO: it accepts a second element while the first is still in it,
    the first is lost, and the next [pop] spins forever. *)
Theorem mpmc_one_cell_overwrites {T} (zero x y : T) n :
  0 <= n <= 1 ->
  exists q0 q1 q2, MPMCQueue.make zero n = Some q0 /\ MPMCQueue.capacity q0 = 1 /\
    MPMCQueue.push x q0 = Some (true, q1) /\ MPMCQueue.push y q1 = Some (true, q2) /\
    MPMCQueue.buffer_ q2 = [MPMCQueue.mkCell 2 y] /\
    forall fuel, MPMCQueue.pop_loop fuel (MPMCQueue.dequeue_pos_ q2) q2 = None.
Proof.
  intros Hn. exists (MPMCQueue.mk 1 0 [MPMCQueue.mkCell 0 zero] 0 0).
  exists (MPMCQueue.mk 1 0 [MPMCQueue.mkCell 1 x] 1 0), (MPMCQueue.mk 1 0 [MPMCQueue.mkCell 2 y] 2 0).
  split_and!; [by assert (n = 0 \/ n = 1) as [-> | ->] by lia|done..|].
  intros fuel. simpl MPMCQueue.dequeue_pos_. induction fuel as [|fuel IH]; [done|]. exact IH.
Qed.

Lemma mpmc_one_cell_overwrites_witness :
  exists q0 q1 q2, MPMCQueue.make 0 1 = Some q0 /\ MPMCQueue.push 8 q0 = Some (true, q1) /\
    MPMCQueue.push 9 q1 = Some (true, q2).
Proof.
  destruct (mpmc_one_cell_overwrites 0 8 9 1 ltac:(lia)) as (q0 & q1 & q2 & H0 & _ & H1 & H2 & _).
  exists q0, q1, q2. split; [exact H0|]. split; [exact H1|exact H2].
Defined.
