(* ===== verification/MpmcThreads.v ===== *)
(** * The MPMC queue under contention (include/rtes/mpmc_queue.hpp)

    Any number of threads call [push] and [pop] at the same time.  A step of a
    thread is one access to shared memory, sequentially consistent: loading a
    position, loading a cell's sequence number, the compare-exchange that claims
    a position (which may also fail spuriously), the access to the cell's data,
    and the store that publishes the cell.  The history records the elements in
    the order in which their positions were claimed and the results of the
    finished pops. *)

From S2P Require Import Prelude SpscQueue MpmcQueue.
From stdpp Require Import functions list.
#[local] Open Scope Z_scope.

Module MPMCThreads.
Import MPMCQueue.

Section threads.
Context {T : Type}.
Implicit Types q : MPMCQueue.t T.

(** Where a thread is in its call. *)
Inductive pc :=
  | Idle
  | PushLoaded (item : T) (pos : Z)            (* next: load the sequence of the cell *)
  | PushSeq (item : T) (pos seq : Z)           (* next: test the difference, claim *)
  | PushClaimed (item : T) (pos : Z)           (* next: write the data *)
  | PushWritten (item : T) (pos : Z)           (* next: publish *)
  | PopLoaded (pos : Z)
  | PopSeq (pos seq : Z)
  | PopClaimed (pos : Z)                       (* next: read the data *)
  | PopRead (pos : Z) (item : T).              (* next: recycle the cell *)

Record st := mkst {
  queue : MPMCQueue.t T;
  threads : nat -> pc;
  enqueued : list T;             (* in the order of the claims *)
  results : list (Z * T)         (* finished pops: claimed position and element *)
}.
Implicit Types s : st.

Definition go (i : nat) (c : pc) s : st := mkst (queue s) (<[i := c]> (threads s)) (enqueued s) (results s).
Definition store (i : nat) (c : pc) (pos : Z) (cell : Cell T) s : st :=
  mkst (set_buffer (<[slot pos (queue s) := cell]> (buffer_ (queue s))) (queue s))
    (<[i := c]> (threads s)) (enqueued s) (results s).

Inductive step (i : nat) : st -> st -> Prop :=
  | push_start s item :
      threads s i = Idle -> step i s (go i (PushLoaded item (enqueue_pos_ (queue s))) s)
  | push_load s item pos cell :
      threads s i = PushLoaded item pos -> buffer_ (queue s) !! slot pos (queue s) = Some cell ->
      step i s (go i (PushSeq item pos (sequence cell)) s)
  | push_claim s item pos seq :
      threads s i = PushSeq item pos seq -> signed_diff seq pos = Some 0 -> enqueue_pos_ (queue s) = pos ->
      step i s (mkst (set_enqueue_pos (pos +₆₄ 1) (queue s)) (<[i := PushClaimed item pos]> (threads s))
                  (enqueued s ++ [item]) (results s))
  | push_retry s item pos seq diff :   (* the exchange failed, or the position is stale *)
      threads s i = PushSeq item pos seq -> signed_diff seq pos = Some diff -> 0 <= diff ->
      step i s (go i (PushLoaded item (enqueue_pos_ (queue s))) s)
  | push_full s item pos seq diff :
      threads s i = PushSeq item pos seq -> signed_diff seq pos = Some diff -> diff < 0 ->
      step i s (go i Idle s)
  | push_write s item pos cell :
      threads s i = PushClaimed item pos -> buffer_ (queue s) !! slot pos (queue s) = Some cell ->
      step i s (store i (PushWritten item pos) pos (mkCell (sequence cell) item) s)
  | push_publish s item pos cell :
      threads s i = PushWritten item pos -> buffer_ (queue s) !! slot pos (queue s) = Some cell ->
      step i s (store i Idle pos (mkCell (pos +₆₄ 1) (data cell)) s)
  | pop_start s :
      threads s i = Idle -> step i s (go i (PopLoaded (dequeue_pos_ (queue s))) s)
  | pop_load s pos cell :
      threads s i = PopLoaded pos -> buffer_ (queue s) !! slot pos (queue s) = Some cell ->
      step i s (go i (PopSeq pos (sequence cell)) s)
  | pop_claim s pos seq :
      threads s i = PopSeq pos seq -> signed_diff seq (pos +₆₄ 1) = Some 0 -> dequeue_pos_ (queue s) = pos ->
      step i s (mkst (set_dequeue_pos (pos +₆₄ 1) (queue s)) (<[i := PopClaimed pos]> (threads s))
                  (enqueued s) (results s))
  | pop_retry s pos seq diff :
      threads s i = PopSeq pos seq -> signed_diff seq (pos +₆₄ 1) = Some diff -> 0 <= diff ->
      step i s (go i (PopLoaded (dequeue_pos_ (queue s))) s)
  | pop_empty s pos seq diff :
      threads s i = PopSeq pos seq -> signed_diff seq (pos +₆₄ 1) = Some diff -> diff < 0 ->
      step i s (go i Idle s)
  | pop_read s pos cell :
      threads s i = PopClaimed pos -> buffer_ (queue s) !! slot pos (queue s) = Some cell ->
      step i s (go i (PopRead pos (data cell)) s)
  | pop_recycle s pos item cell :
      threads s i = PopRead pos item -> buffer_ (queue s) !! slot pos (queue s) = Some cell ->
      step i s (let s' := store i Idle pos (mkCell (pos +₆₄ capacity_ (queue s)) (data cell)) s in
                mkst (queue s') (threads s') (enqueued s') (results s ++ [(pos, item)])).

Definition start q : st := mkst q (fun _ => Idle) [] [].
Definition reachable q s : Prop := rtc (fun s s' => exists i, step i s s') (start q) s.

(** The position a thread has claimed and not published yet. *)
Definition pushes (c : pc) : option Z :=
  match c with PushClaimed _ p | PushWritten _ p => Some p | _ => None end.
Definition pops (c : pc) : option Z := match c with PopClaimed p | PopRead p _ => Some p | _ => None end.
Definition owns (c : pc) : option Z := match pushes c with Some p => Some p | None => pops c end.

Abbreviation D s := (dequeue_pos_ (queue s)).
Abbreviation E s := (enqueue_pos_ (queue s)).
Abbreviation C s := (capacity_ (queue s)).
Abbreviation at_ s p := (buffer_ (queue s) !! slot p (queue s)).

(** ** The invariant

    Of the last [capacity_] positions handed to producers, those below [D] are
    recycled or being read by exactly one consumer, the others are filled or
    being written by exactly one producer. *)
Definition window_ok s (p : Z) (cell : Cell T) : Prop :=
  if decide (p < D s) then
    sequence cell = p + C s \/
    (sequence cell = p + 1 /\ enqueued s !! Z.to_nat p = Some (data cell) /\ exists i, pops (threads s i) = Some p)
  else
    (sequence cell = p /\ exists i, pushes (threads s i) = Some p) \/
    (sequence cell = p + 1 /\ enqueued s !! Z.to_nat p = Some (data cell)).

(** What a thread knows from its accesses so far. *)
Definition thread_ok s (c : pc) : Prop :=
  match c with
  | Idle => True
  | PushLoaded _ pos => 0 <= pos <= E s
  | PushSeq _ pos seq => 0 <= pos <= E s /\ 0 <= seq /\ exists cell, at_ s pos = Some cell /\ seq <= sequence cell
  | PushClaimed x p => 0 <= p /\ D s <= p < E s /\ enqueued s !! Z.to_nat p = Some x /\
      exists cell, at_ s p = Some cell /\ sequence cell = p
  | PushWritten x p => 0 <= p /\ D s <= p < E s /\ enqueued s !! Z.to_nat p = Some x /\
      exists cell, at_ s p = Some cell /\ sequence cell = p /\ data cell = x
  | PopLoaded pos => 0 <= pos <= D s
  | PopSeq pos seq => 0 <= pos <= D s /\ 0 <= seq /\ exists cell, at_ s pos = Some cell /\ seq <= sequence cell
  | PopClaimed p => 0 <= p /\ E s - C s <= p < D s /\
      exists cell, at_ s p = Some cell /\ sequence cell = p + 1 /\ enqueued s !! Z.to_nat p = Some (data cell)
  | PopRead p x => 0 <= p /\ E s - C s <= p < D s /\ enqueued s !! Z.to_nat p = Some x /\
      exists cell, at_ s p = Some cell /\ sequence cell = p + 1
  end.

Record inv s : Prop := {
  i_shape : shape (queue s);
  i_enq : E s = Z.of_nat (length (enqueued s));
  i_range : 0 <= D s <= E s;
  i_room : E s <= D s + C s;
  i_window : forall p, E s - C s <= p < E s -> exists cell, at_ s p = Some cell /\ window_ok s p cell;
  i_threads : forall i, thread_ok s (threads s i);
  i_unique : forall i j p, owns (threads s i) = Some p -> owns (threads s j) = Some p -> i = j;
  i_nodup : NoDup (results s).*1;
  i_results : forall p x, (p, x) ∈ results s -> 0 <= p < D s /\ enqueued s !! Z.to_nat p = Some x;
  i_popped : forall p, 0 <= p < D s -> p ∈ (results s).*1 \/ exists i, pops (threads s i) = Some p;
  i_popping : forall i p, pops (threads s i) = Some p -> p ∉ (results s).*1
}.

(** The cells as positions of the window. *)
Lemma slot_window s pos : inv s -> 0 <= pos <= E s ->
  exists p, E s - C s <= p < E s /\ slot p (queue s) = slot pos (queue s) /\
    (pos < E s -> pos <= p) /\ (pos = E s -> p = E s - C s).
Proof.
  intros Hi Hp. pose proof (i_shape _ Hi) as Hs. pose proof (shape_cap _ Hs) as Hc.
  exists (E s - 1 - (E s - 1 - pos) mod C s).
  pose proof (Z.mod_pos_bound (E s - 1 - pos) (C s) ltac:(lia)) as Hm. split; [lia|].
  pose proof (Z.div_mod (E s - 1 - pos) (C s) ltac:(lia)) as Hd. split.
  - rewrite !shape_slot //. f_equal.
    replace (E s - 1 - (E s - 1 - pos) mod C s) with (pos + (E s - 1 - pos) / C s * C s) by lia.
    rewrite Z.mod_add; lia.
  - split; intros Hlt; [|subst pos].
    + assert (0 <= (E s - 1 - pos) / C s) by (apply Z.div_pos; lia). nia.
    + replace (E s - 1 - E s) with (- 1) in * by lia.
      assert (-1 mod C s = C s - 1) as ->; [|lia]. symmetry. apply (Z.mod_unique _ _ (-1)); lia.
Qed.

Lemma pops_nonneg s i p : inv s -> pops (threads s i) = Some p -> 0 <= p.
Proof. intros Hi Hp. pose proof (i_threads _ Hi i) as Ht. destruct (threads s i); simplify_eq/=; tauto. Qed.

Lemma window_bounds s p cell : inv s -> window_ok s p cell -> E s - C s <= p < E s ->
  0 <= sequence cell /\ p <= sequence cell <= p + C s.
Proof.
  intros Hi Hw Hp. pose proof (shape_cap _ (i_shape _ Hi)). pose proof (i_range _ Hi). unfold window_ok in Hw.
  case_decide; destruct Hw as [Hw|Hw].
  - lia.
  - destruct Hw as (? & _ & i & Hpop). pose proof (pops_nonneg _ _ _ Hi Hpop). lia.
  - lia.
  - lia.
Qed.

(** The cell of any position up to [E]. *)
Lemma cell_bounds s pos : inv s -> 0 <= pos <= E s ->
  exists cell, at_ s pos = Some cell /\ 0 <= sequence cell < E s + C s /\ (pos < E s -> pos <= sequence cell).
Proof.
  intros Hi Hp. destruct (slot_window s pos Hi Hp) as (p & Hw & Hsl & Hlt & _).
  destruct (i_window _ Hi p Hw) as (cell & Hc & Hok). rewrite Hsl in Hc. exists cell. split; [done|].
  pose proof (window_bounds s p cell Hi Hok Hw). lia.
Qed.

(** The cell at [E]: free exactly when the position a round earlier is recycled. *)
Lemma cell_at_E s : inv s ->
  exists cell, at_ s (E s) = Some cell /\ at_ s (E s - C s) = Some cell /\ sequence cell <= E s /\
    (sequence cell = E s -> E s - C s < D s /\ forall i, pops (threads s i) <> Some (E s - C s)) /\
    (sequence cell < E s -> D s + C s = E s \/ exists i, pops (threads s i) = Some (E s - C s)).
Proof.
  intros Hi. pose proof (shape_cap _ (i_shape _ Hi)) as Hc. pose proof (i_range _ Hi). pose proof (i_room _ Hi).
  destruct (i_window _ Hi (E s - C s) ltac:(lia)) as (cell & Hcell & Hok). exists cell.
  assert (slot (E s) (queue s) = slot (E s - C s) (queue s)) as Hsl.
  { rewrite !shape_slot; try apply Hi. f_equal. rewrite -(shape_wraps _ (E s - C s)); [apply Hi|]. f_equal. lia. }
  rewrite Hsl. split; [done|]. split; [done|].
  unfold window_ok in Hok. case_decide as Hd; destruct Hok as [Hok|Hok].
  - split; [lia|]. split; [|lia]. intros _. split; [done|]. intros i Hpop.
    pose proof (i_threads _ Hi i) as Ht. destruct (threads s i); simplify_eq/=.
    + destruct Ht as (_ & _ & cell' & Hcell' & Hq & _). rewrite Hcell in Hcell'. simplify_eq. lia.
    + destruct Ht as (_ & _ & _ & cell' & Hcell' & Hq). rewrite Hcell in Hcell'. simplify_eq. lia.
  - split; [lia|]. split; [lia|]. right. tauto.
  - split; [lia|]. split; [lia|]. left. lia.
  - split; [lia|]. split; [lia|]. left. lia.
Qed.

(** The cell at [D]: ready exactly when its position is published. *)
Lemma cell_at_D s : inv s ->
  exists cell, at_ s (D s) = Some cell /\ sequence cell <= D s + 1 /\
    (sequence cell = D s + 1 -> D s < E s /\ enqueued s !! Z.to_nat (D s) = Some (data cell) /\
       forall i, pushes (threads s i) <> Some (D s)) /\
    (sequence cell < D s + 1 -> D s = E s \/ exists i, pushes (threads s i) = Some (D s)).
Proof.
  intros Hi. pose proof (shape_cap _ (i_shape _ Hi)) as Hc. pose proof (i_range _ Hi). pose proof (i_room _ Hi).
  destruct (decide (D s = E s)) as [HE|HE].
  - destruct (cell_at_E s Hi) as (cell & Hcell & _ & Hle & _ & _). exists cell. rewrite -HE in Hcell Hle.
    split; [done|]. split; [lia|]. split; [lia|]. by left.
  - destruct (i_window _ Hi (D s) ltac:(lia)) as (cell & Hcell & Hok). exists cell. split; [done|].
    unfold window_ok in Hok. rewrite decide_False in Hok; [lia|]. destruct Hok as [[Hq Hown]|[Hq Hd]].
    + split; [lia|]. split; [lia|]. by right.
    + split; [lia|]. split; [|lia]. intros _. split; [lia|]. split; [done|]. intros i Hp.
      pose proof (i_threads _ Hi i) as Ht. destruct (threads s i); simplify_eq/=.
      * destruct Ht as (_ & _ & _ & cell' & Hcell' & Hq'). rewrite Hcell in Hcell'. simplify_eq. lia.
      * destruct Ht as (_ & _ & _ & cell' & Hcell' & Hq' & _). rewrite Hcell in Hcell'. simplify_eq. lia.
Qed.

(** What one thread knows survives the steps of the others. *)
Lemma mpmc_thread_frame s s' c :
  thread_ok s c -> D s <= D s' -> E s <= E s' -> enqueued s `prefix_of` enqueued s' ->
  capacity_ (queue s') = C s -> (forall p, slot p (queue s') = slot p (queue s)) ->
  (forall p cell, at_ s p = Some cell -> exists cell', at_ s' p = Some cell' /\ sequence cell <= sequence cell') ->
  (forall p, pushes c = Some p -> D s' <= p /\ at_ s' p = at_ s p) ->
  (forall p, pops c = Some p -> E s' - C s <= p /\ at_ s' p = at_ s p) ->
  thread_ok s' c.
Proof.
  intros Ht HD HE Hpre HC Hsl Hmono Hpush Hpop.
  assert (forall n x, enqueued s !! n = Some x -> enqueued s' !! n = Some x) as Hh.
  { intros n x Hx. by eapply prefix_lookup_Some. }
  destruct c as [|x pos|x pos sq|x p|x p|pos|pos sq|p|p x]; cbn [thread_ok pushes pops] in *; rewrite ?HC.
  - done.
  - lia.
  - destruct Ht as (Hp & H0 & cell & Hc & Hle). destruct (Hmono _ _ Hc) as (cell' & Hc' & Hle').
    split; [lia|]. split; [done|]. exists cell'. split; [done|lia].
  - destruct Ht as (H0 & Hp & Hx & cell & Hc & Hq). destruct (Hpush p eq_refl) as [Hp' He].
    split; [done|]. split; [lia|]. split; [by apply Hh|]. exists cell. by rewrite He.
  - destruct Ht as (H0 & Hp & Hx & cell & Hc & Hq). destruct (Hpush p eq_refl) as [Hp' He].
    split; [done|]. split; [lia|]. split; [by apply Hh|]. exists cell. by rewrite He.
  - lia.
  - destruct Ht as (Hp & H0 & cell & Hc & Hle). destruct (Hmono _ _ Hc) as (cell' & Hc' & Hle').
    split; [lia|]. split; [done|]. exists cell'. split; [done|lia].
  - destruct Ht as (H0 & Hp & cell & Hc & Hq & Hx). destruct (Hpop p eq_refl) as [Hp' He].
    split; [done|]. split; [lia|]. exists cell. rewrite He. split_and!; try done. by apply Hh.
  - destruct Ht as (H0 & Hp & Hx & cell & Hc & Hq). destruct (Hpop p eq_refl) as [Hp' He].
    split; [done|]. split; [lia|]. split; [by apply Hh|]. exists cell. by rewrite He.
Qed.

(** A step that touches neither the queue nor a claim. *)
Lemma inv_go s i c : inv s -> pushes c = pushes (threads s i) -> pops c = pops (threads s i) -> thread_ok s c ->
  inv (go i c s).
Proof.
  intros Hi Hpu Hpo Ht.
  assert (forall j, pushes (<[i := c]> (threads s) j) = pushes (threads s j)) as Hpus.
  { intros j. destruct (decide (i = j)) as [<-|Hne]; [by rewrite fn_lookup_insert|by rewrite fn_lookup_insert_ne]. }
  assert (forall j, pops (<[i := c]> (threads s) j) = pops (threads s j)) as Hpos.
  { intros j. destruct (decide (i = j)) as [<-|Hne]; [by rewrite fn_lookup_insert|by rewrite fn_lookup_insert_ne]. }
  destruct Hi as [? ? ? ? Hw Hth Hu ? ? Hpd Hpg].
  split; cbn [go queue threads enqueued results]; try done.
  - intros p Hp. destruct (Hw p Hp) as (cell & Hc & Hok). exists cell. split; [done|].
    unfold window_ok in *. cbn [go queue threads enqueued].
    case_decide; destruct Hok as [Hok|Hok]; [by left|right|left|by right].
    + destruct Hok as (? & ? & j & Hj). split_and!; try done. exists j. by rewrite Hpos.
    + destruct Hok as (? & j & Hj). split_and!; try done. exists j. by rewrite Hpus.
  - intros j. destruct (decide (i = j)) as [<-|Hne]; [by rewrite fn_lookup_insert|rewrite fn_lookup_insert_ne //].
    exact (Hth j).
  - intros j k p. unfold owns. rewrite !Hpus !Hpos. apply Hu.
  - intros p Hp. destruct (Hpd p Hp) as [|[j Hj]]; [by left|]. right. exists j. by rewrite Hpos.
  - intros j p. rewrite Hpos. apply Hpg.
Qed.

Lemma owned_window s i p : inv s -> owns (threads s i) = Some p -> 0 <= p /\ E s - C s <= p < E s.
Proof.
  intros Hi Ho. pose proof (i_threads _ Hi i) as Ht. pose proof (i_range _ Hi). pose proof (i_room _ Hi).
  unfold owns in Ho. destruct (threads s i); simplify_eq/=; lia.
Qed.

Lemma shape_store q k cell : shape q -> shape (set_buffer (<[k := cell]> (buffer_ q)) q).
Proof. intros [Hc Hm Hb]. split; cbn [set_buffer capacity_ mask_ buffer_]; try done. by rewrite length_insert. Qed.

Lemma shape_positions q q' :
  shape q -> capacity_ q' = capacity_ q -> mask_ q' = mask_ q -> buffer_ q' = buffer_ q -> shape q'.
Proof. intros [Hc Hm Hb] E1 E2 E3. split; by rewrite ?E1 ?E2 ?E3. Qed.

Lemma store_same s i c p cell : inv s -> at_ (store i c p cell s) p = Some cell.
Proof.
  intros Hi. cbn [store queue set_buffer buffer_].
  change (slot p (set_buffer _ (queue s))) with (slot p (queue s)).
  apply list_lookup_insert_eq. rewrite shape_slot; [apply Hi|]. apply shape_slot_lt, Hi.
Qed.

Lemma store_other s i c p cell p' : inv s -> E s - C s <= p < E s -> E s - C s <= p' < E s -> p' <> p ->
  at_ (store i c p cell s) p' = at_ s p'.
Proof.
  intros Hi Hp Hp' Hne. cbn [store queue set_buffer buffer_].
  change (slot p' (set_buffer _ (queue s))) with (slot p' (queue s)).
  apply list_lookup_insert_ne. rewrite !shape_slot; try apply Hi.
  destruct (decide (p < p')); [|apply not_eq_sym]; apply shape_slot_ne; try apply Hi; lia.
Qed.

(** A thread stores into the cell of the position it has claimed. *)
Lemma inv_store s i c p cell cell' res :
  inv s -> owns (threads s i) = Some p -> at_ s p = Some cell -> sequence cell <= sequence cell' ->
  (pushes c = pushes (threads s i) /\ pops c = pops (threads s i)) \/ c = Idle ->
  let s' := mkst (queue (store i c p cell' s)) (threads (store i c p cell' s)) (enqueued s) res in
  window_ok s' p cell' -> thread_ok s' c ->
  NoDup res.*1 -> (forall p x, (p, x) ∈ res -> 0 <= p < D s /\ enqueued s !! Z.to_nat p = Some x) ->
  (forall p, 0 <= p < D s -> p ∈ res.*1 \/ exists j, pops (threads s' j) = Some p) ->
  (forall j p, pops (threads s' j) = Some p -> p ∉ res.*1) ->
  inv s'.
Proof.
  intros Hi Ho Hc Hle Hkind s' Hwp Htc Hnd Hres Hpd Hpg.
  pose proof (owned_window _ _ _ Hi Ho) as [H0 Hp].
  assert (forall j, j <> i -> threads s' j = threads s j) as Hoth.
  { intros j Hj. cbn [s' threads store]. by rewrite fn_lookup_insert_ne. }
  assert (forall j p', owns (threads s j) = Some p' -> p' <> p -> j <> i) as Hji.
  { intros j p' Hj Hne ->. congruence. }
  assert (forall j p', owns (threads s' j) = Some p' -> owns (threads s j) = Some p') as Hown.
  { intros j p'. destruct (decide (j = i)) as [->|Hj]; [|by rewrite Hoth].
    cbn [s' threads store]. rewrite fn_lookup_insert. destruct Hkind as [[E1 E2]| ->]; [|done].
    unfold owns. by rewrite E1 E2. }
  split; try done.
  - apply shape_store, Hi.
  - apply Hi.
  - apply Hi.
  - apply Hi.
  - intros p' Hp'. destruct (decide (p' = p)) as [->|Hne].
    { exists cell'. split; [by apply (store_same s i c)|done]. }
    destruct (i_window _ Hi p' Hp') as (cl & Hcl & Hok). exists cl. split.
    { rewrite -Hcl. by apply (store_other s i c p cell'). }
    unfold window_ok in *. cbn [s' queue enqueued store set_buffer dequeue_pos_ capacity_].
    case_decide; destruct Hok as [Hok|Hok]; [by left|right|left|by right].
    + destruct Hok as (? & ? & j & Hj). split_and!; try done. exists j. rewrite Hoth //.
      apply (Hji j p'); [|done]. unfold owns. destruct (threads s j); simplify_eq/=; done.
    + destruct Hok as (? & j & Hj). split_and!; try done. exists j. rewrite Hoth //.
      apply (Hji j p'); [|done]. unfold owns. by rewrite Hj.
  - intros j. destruct (decide (j = i)) as [->|Hj].
    { cbn [s' threads store]. by rewrite fn_lookup_insert. }
    rewrite Hoth //. apply (mpmc_thread_frame s); try done.
    + apply Hi.
    + intros p' cl Hcl. destruct (decide (slot p' (queue s) = slot p (queue s))) as [He|He].
      * exists cell'. assert (cl = cell) as -> by congruence. split; [|done].
        change (at_ (store i c p cell' s) p' = Some cell').
        rewrite -(store_same s i c p cell' Hi). cbn [store queue]. by f_equal.
      * exists cl. split; [|done]. rewrite -Hcl. cbn [s' queue store set_buffer buffer_].
        apply list_lookup_insert_ne. exact (not_eq_sym He).
    + intros p' Hp'. assert (owns (threads s j) = Some p') as Hoj by (unfold owns; by rewrite Hp').
      pose proof (owned_window _ _ _ Hi Hoj) as [_ Hw'].
      split; [|apply (store_other s i c p cell'); try done].
      * pose proof (i_threads _ Hi j) as Htj. destruct (threads s j); simplify_eq/=; cbn [s' queue store set_buffer dequeue_pos_]; lia.
      * intros ->. apply Hj. by eapply i_unique.
    + intros p' Hp'. assert (owns (threads s j) = Some p') as Hoj by (unfold owns; destruct (threads s j); simplify_eq/=; done).
      pose proof (owned_window _ _ _ Hi Hoj) as [_ Hw'].
      split; [cbn [s' queue store set_buffer enqueue_pos_]; lia|apply (store_other s i c p cell'); try done].
      intros ->. apply Hj. by eapply i_unique.
  - intros j k p' Hj Hk. eapply i_unique; [exact Hi|by apply Hown|by apply Hown].
Qed.

(** Room before a position reaches 2^63. *)
Definition in_range s : Prop := Z.of_nat (length (enqueued s)) + C s < 2 ^ 63.

Lemma wrap_position s p : inv s -> in_range s -> 0 <= p <= E s + C s -> wrap 64 p = p.
Proof.
  intros Hi Hb Hp. unfold in_range in Hb. rewrite -(i_enq _ Hi) in Hb. apply wrap_small.
  change (2 ^ 63) with 9223372036854775808 in Hb. u_lia.
Qed.

(** The difference a thread computes is exact. *)
Lemma diff_exact s a b : inv s -> in_range s -> 0 <= a < E s + C s -> 0 <= b <= E s + 1 ->
  signed_diff a b = Some (a - b).
Proof.
  intros Hi Hb Ha Hb'. unfold in_range in Hb. rewrite -(i_enq _ Hi) in Hb. pose proof (shape_cap _ (i_shape _ Hi)).
  apply signed_diff_small; lia.
Qed.

Lemma loaded_seq s pos seq : inv s -> 0 <= pos <= E s ->
  (exists cell, at_ s pos = Some cell /\ seq <= sequence cell) -> seq < E s + C s.
Proof.
  intros Hi Hp (cell & Hc & Hle). destruct (cell_bounds s pos Hi Hp) as (cell' & Hc' & Hb & _).
  rewrite Hc in Hc'. simplify_eq. lia.
Qed.

Lemma inv_push_claim s i item pos seq :
  inv s -> in_range s -> threads s i = PushSeq item pos seq -> signed_diff seq pos = Some 0 -> E s = pos ->
  inv (mkst (set_enqueue_pos (pos +₆₄ 1) (queue s)) (<[i := PushClaimed item pos]> (threads s))
         (enqueued s ++ [item]) (results s)).
Proof.
  intros Hi Hb Ht Hd He. pose proof (shape_cap _ (i_shape _ Hi)) as Hcap. pose proof (i_range _ Hi). pose proof (i_room _ Hi).
  pose proof (i_threads _ Hi i) as Hti. rewrite Ht in Hti. destruct Hti as (Hp & Hs0 & Hle).
  pose proof (loaded_seq s pos seq Hi Hp Hle) as Hlt. rewrite (diff_exact s) in Hd; try done; try lia.
  assert (seq = E s) as -> by (simplify_eq; lia). subst pos.
  destruct (cell_at_E s Hi) as (cell & HcE & Hcw & Hmax & Hfree & _).
  destruct Hle as (cell1 & Hc1 & Hle). rewrite HcE in Hc1. simplify_eq.
  destruct (Hfree ltac:(lia)) as [Hroom Hnopop].
  rewrite (wrap_position s) //; [lia|].
  set (s' := mkst _ _ _ _).
  assert (forall n x, enqueued s !! n = Some x -> (enqueued s ++ [item]) !! n = Some x) as Hh.
  { intros n x Hx. by apply lookup_app_l_Some. }
  assert (pops (threads s i) = None /\ pushes (threads s i) = None) as [Hni1 Hni2] by by rewrite Ht.
  assert (forall j p', pops (threads s' j) = Some p' <-> pops (threads s j) = Some p') as Hpops.
  { intros j p'. cbn [s' threads]. destruct (decide (i = j)) as [<-|Hj].
    - rewrite fn_lookup_insert Hni1. done.
    - by rewrite fn_lookup_insert_ne. }
  split; cbn [s' queue threads enqueued results set_enqueue_pos enqueue_pos_ dequeue_pos_ capacity_].
  - by eapply shape_positions; [apply (i_shape _ Hi)|..].
  - rewrite length_app (i_enq _ Hi) /=. lia.
  - lia.
  - lia.
  - intros p Hp'. destruct (decide (p = E s)) as [->|Hne].
    + exists cell1. split; [done|]. unfold window_ok. cbn [s' queue set_enqueue_pos dequeue_pos_]. rewrite decide_False; [lia|].
      left. split; [lia|]. exists i. cbn [s' threads]. by rewrite fn_lookup_insert.
    + destruct (i_window _ Hi p ltac:(lia)) as (cl & Hcl & Hok). exists cl. split; [done|].
      unfold window_ok in *. cbn [s' queue dequeue_pos_ capacity_ set_enqueue_pos enqueued].
      case_decide; destruct Hok as [Hok|Hok]; [by left|right|left|right].
      * destruct Hok as (? & ? & j & Hj). split_and!; try done; [by apply Hh|]. exists j. by apply Hpops.
      * destruct Hok as (? & j & Hj). split; [done|]. exists j. cbn [s' threads].
        destruct (decide (i = j)) as [<-|Hj']; [congruence|]. by rewrite fn_lookup_insert_ne.
      * destruct Hok as (? & ?). split; [done|]. by apply Hh.
  - intros j. destruct (decide (i = j)) as [<-|Hj].
    + rewrite fn_lookup_insert. cbn [thread_ok s' queue enqueued set_enqueue_pos enqueue_pos_ dequeue_pos_ buffer_].
      split; [lia|]. split; [lia|]. split.
      * pose proof (i_enq _ Hi). replace (Z.to_nat (E s)) with (length (enqueued s)) by lia.
        by rewrite lookup_app_r // Nat.sub_diag.
      * exists cell1. split; [done|]. lia.
    + rewrite fn_lookup_insert_ne //. apply (mpmc_thread_frame s); try done.
      * apply Hi.
      * cbn [s' queue set_enqueue_pos enqueue_pos_]. lia.
      * by eexists.
      * intros p' cl Hcl. exists cl. split; [exact Hcl|lia].
      * intros p' Hp'. split; [|done]. pose proof (i_threads _ Hi j) as Htj.
        destruct (threads s j); simplify_eq/=; lia.
      * intros p' Hp'. split; [|done]. pose proof (i_threads _ Hi j) as Htj.
        assert (p' <> E s - C s) by (intros ->; by eapply Hnopop).
        cbn [s' queue set_enqueue_pos enqueue_pos_]. destruct (threads s j); simplify_eq/=; lia.
  - assert (forall j p, owns (<[i := PushClaimed item (E s)]> (threads s) j) = Some p -> j <> i -> p < E s) as Hlow.
    { intros j p. destruct (decide (i = j)) as [<-|Hj]; [done|]. rewrite fn_lookup_insert_ne //. intros Ho _.
      by apply (owned_window s j). }
    intros j k p Hj Hk. destruct (decide (j = i)) as [->|Hji], (decide (k = i)) as [->|Hki]; [done|..].
    + rewrite fn_lookup_insert in Hj. injection Hj as <-. pose proof (Hlow k _ Hk Hki). lia.
    + rewrite fn_lookup_insert in Hk. injection Hk as <-. pose proof (Hlow j _ Hj Hji). lia.
    + rewrite fn_lookup_insert_ne // in Hj. rewrite fn_lookup_insert_ne // in Hk. by eapply i_unique.
  - apply Hi.
  - intros p x Hpx. destruct (i_results _ Hi p x Hpx). split; [done|by apply Hh].
  - intros p Hpx. destruct (i_popped _ Hi p Hpx) as [|[j Hj]]; [by left|right]. exists j. by apply Hpops.
  - intros j p Hj. apply (i_popping _ Hi j). by apply Hpops.
Qed.

Lemma inv_pop_claim s i pos seq :
  inv s -> in_range s -> threads s i = PopSeq pos seq -> signed_diff seq (pos +₆₄ 1) = Some 0 -> D s = pos ->
  inv (mkst (set_dequeue_pos (pos +₆₄ 1) (queue s)) (<[i := PopClaimed pos]> (threads s)) (enqueued s) (results s)).
Proof.
  intros Hi Hb Ht Hd He. pose proof (shape_cap _ (i_shape _ Hi)) as Hcap. pose proof (i_range _ Hi). pose proof (i_room _ Hi).
  pose proof (i_threads _ Hi i) as Hti. rewrite Ht in Hti. destruct Hti as (Hp & Hs0 & Hle).
  pose proof (loaded_seq s pos seq Hi ltac:(lia) Hle) as Hlt.
  rewrite (wrap_position s) // in Hd; [lia|]. rewrite (wrap_position s) //; [lia|].
  rewrite (diff_exact s) in Hd; try done; try lia.
  assert (seq = D s + 1) as -> by (simplify_eq; lia). subst pos.
  destruct (cell_at_D s Hi) as (cell & HcD & Hmax & Hready & _).
  destruct Hle as (cell1 & Hc1 & Hle). rewrite HcD in Hc1. simplify_eq.
  destruct (Hready ltac:(lia)) as (HDE & Hdata & Hnopush).
  set (s' := mkst _ _ _ _).
  assert (pops (threads s i) = None /\ pushes (threads s i) = None) as [Hni1 Hni2] by by rewrite Ht.
  assert (forall j, j <> i -> threads s' j = threads s j) as Hoth.
  { intros j Hj. cbn [s' threads]. by rewrite fn_lookup_insert_ne. }
  assert (forall j p, pops (threads s j) = Some p -> pops (threads s' j) = Some p) as Hpops.
  { intros j p Hj. rewrite Hoth //. intros ->. congruence. }
  assert (forall j p, pushes (threads s j) = Some p -> pushes (threads s' j) = Some p) as Hpushes.
  { intros j p Hj. rewrite Hoth //. intros ->. congruence. }
  assert (pops (threads s' i) = Some (D s)) as Hnew by (cbn [s' threads]; by rewrite fn_lookup_insert).
  split; cbn [s' queue enqueued results set_dequeue_pos enqueue_pos_ dequeue_pos_ capacity_].
  - by eapply shape_positions; [apply (i_shape _ Hi)|..].
  - apply Hi.
  - lia.
  - lia.
  - intros p Hp'. destruct (i_window _ Hi p Hp') as (cl & Hcl & Hok). exists cl. split; [exact Hcl|].
    unfold window_ok in *. cbn [s' queue dequeue_pos_ capacity_ set_dequeue_pos enqueued].
    destruct (decide (p = D s)) as [->|Hne].
    + rewrite decide_True; [lia|]. assert (cl = cell1) as -> by congruence. right. split_and!; try done; [lia|]. by exists i.
    + destruct (decide (p < D s)) as [Hlow|Hhigh]; [rewrite decide_True; [lia|]|rewrite decide_False; [lia|]];
        destruct Hok as [Hok|Hok]; [by left|right|left|by right].
      * destruct Hok as (? & ? & j & Hj). split_and!; try done. exists j. by apply Hpops.
      * destruct Hok as (? & j & Hj). split; [done|]. exists j. by apply Hpushes.
  - intros j. destruct (decide (j = i)) as [->|Hj].
    + cbn [s' threads]. rewrite fn_lookup_insert.
      cbn [thread_ok s' queue enqueued set_dequeue_pos enqueue_pos_ dequeue_pos_ buffer_ capacity_].
      split; [lia|]. split; [lia|]. exists cell1. split; [exact HcD|]. split; [lia|done].
    + rewrite Hoth //. apply (mpmc_thread_frame s); try done.
      * apply Hi.
      * cbn [s' queue set_dequeue_pos dequeue_pos_]. lia.
      * intros p' cl Hcl. exists cl. split; [exact Hcl|lia].
      * intros p' Hp'. split; [|done]. pose proof (i_threads _ Hi j) as Htj.
        assert (p' <> D s) by (intros ->; by eapply Hnopush).
        cbn [s' queue set_dequeue_pos dequeue_pos_]. destruct (threads s j); simplify_eq/=; lia.
      * intros p' Hp'. split; [|done]. pose proof (i_threads _ Hi j) as Htj.
        destruct (threads s j); simplify_eq/=; lia.
  - assert (forall j p, owns (threads s' j) = Some p -> j <> i -> p <> D s) as Hlow.
    { intros j p. intros Ho Hj ->. rewrite Hoth // in Ho. pose proof (i_threads _ Hi j) as Htj.
      pose proof (Hnopush j). unfold owns in Ho. destruct (threads s j); simplify_eq/=; lia. }
    assert (owns (threads s' i) = Some (D s)) as Hoi by (cbn [s' threads]; by rewrite fn_lookup_insert).
    intros j k p Hj Hk. destruct (decide (j = i)) as [->|Hji], (decide (k = i)) as [->|Hki]; [done|..].
    + rewrite Hoi in Hj. injection Hj as <-. by destruct (Hlow k _ Hk Hki).
    + rewrite Hoi in Hk. injection Hk as <-. by destruct (Hlow j _ Hj Hji).
    + rewrite Hoth // in Hj. rewrite Hoth // in Hk. by eapply i_unique.
  - apply Hi.
  - intros p x Hpx. destruct (i_results _ Hi p x Hpx). split; [lia|done].
  - intros p Hpx. destruct (decide (p = D s)) as [->|Hne]; [right; by exists i|].
    destruct (i_popped _ Hi p ltac:(lia)) as [|[j Hj]]; [by left|right]. exists j. by apply Hpops.
  - intros j p Hj. destruct (decide (j = i)) as [->|Hji].
    + rewrite Hnew in Hj. injection Hj as <-. intros ([p x] & Hx & Hin)%list_elem_of_fmap. simpl in Hx. subst.
      destruct (i_results _ Hi _ _ Hin). lia.
    + rewrite Hoth // in Hj. by eapply i_popping.
Qed.

Lemma mpmc_step_inv i s s' : inv s -> in_range s -> step i s s' -> inv s'.
Proof.
  intros Hi Hb Hs. pose proof (i_threads _ Hi i) as Hti. pose proof (i_range _ Hi) as HDE.
  pose proof (shape_cap _ (i_shape _ Hi)) as Hcap.
  destruct Hs as [s item Ht|s item pos cell Ht Hc|s item pos seq Ht Hd He|s item pos seq d Ht Hd Hge|s item pos seq d Ht Hd Hlt
    |s item pos cell Ht Hc|s item pos cell Ht Hc|s Ht|s pos cell Ht Hc|s pos seq Ht Hd He|s pos seq d Ht Hd Hge
    |s pos seq d Ht Hd Hlt|s pos cell Ht Hc|s pos item cell Ht Hc]; rewrite Ht in Hti; cbn [thread_ok] in Hti.
  - apply inv_go; rewrite ?Ht //. cbn [thread_ok]. lia.
  - apply inv_go; rewrite ?Ht //. cbn [thread_ok]. destruct (cell_bounds s pos Hi Hti) as (cell' & Hc' & Hq & _).
    split; [done|]. rewrite Hc in Hc'. simplify_eq. split; [lia|]. by exists cell'.
  - by eapply inv_push_claim.
  - apply inv_go; rewrite ?Ht //. cbn [thread_ok]. lia.
  - apply inv_go; rewrite ?Ht //.
  - destruct Hti as (H0 & Hp & Hx & cell' & Hc' & Hq). rewrite Hc in Hc'. simplify_eq.
    apply (inv_store s i _ _ cell' (mkCell (sequence cell') item) (results s) Hi); try apply Hi; try done.
    + by rewrite Ht.
    + left. by rewrite Ht.
    + unfold window_ok. cbn [queue store set_buffer dequeue_pos_]. rewrite decide_False; [lia|]. left.
      split; [done|]. exists i. cbn [threads store]. by rewrite fn_lookup_insert.
    + split; [done|]. split; [done|]. split; [done|]. eexists. split; [by apply (store_same s i)|done].
    + intros p Hpx. destruct (i_popped _ Hi p Hpx) as [|[j Hj]]; [by left|right]. exists j. cbn [threads store].
      rewrite fn_lookup_insert_ne //. intros ->. by rewrite Ht in Hj.
    + intros j p. cbn [threads store]. destruct (decide (i = j)) as [<-|Hj]; [by rewrite fn_lookup_insert|].
      rewrite fn_lookup_insert_ne //. apply Hi.
  - destruct Hti as (H0 & Hp & Hx & cell' & Hc' & Hq & Hdat). rewrite Hc in Hc'. simplify_eq.
    rewrite (wrap_position s) //; [lia|].
    apply (inv_store s i _ _ cell' (mkCell (sequence cell' + 1) (data cell')) (results s) Hi); try apply Hi; try done.
    + by rewrite Ht.
    + cbn [sequence]. lia.
    + by right.
    + unfold window_ok. cbn [queue store set_buffer dequeue_pos_]. rewrite decide_False; [lia|]. by right.
    + intros p Hpx. destruct (i_popped _ Hi p Hpx) as [|[j Hj]]; [by left|right]. exists j. cbn [threads store].
      rewrite fn_lookup_insert_ne //. intros ->. by rewrite Ht in Hj.
    + intros j p. cbn [threads store]. destruct (decide (i = j)) as [<-|Hj]; [by rewrite fn_lookup_insert|].
      rewrite fn_lookup_insert_ne //. apply Hi.
  - apply inv_go; rewrite ?Ht //. cbn [thread_ok]. lia.
  - apply inv_go; rewrite ?Ht //. cbn [thread_ok]. destruct (cell_bounds s pos Hi ltac:(lia)) as (cell' & Hc' & Hq & _).
    split; [done|]. rewrite Hc in Hc'. simplify_eq. split; [lia|]. by exists cell'.
  - by eapply inv_pop_claim.
  - apply inv_go; rewrite ?Ht //. cbn [thread_ok]. lia.
  - apply inv_go; rewrite ?Ht //.
  - apply inv_go; rewrite ?Ht //. cbn [thread_ok]. destruct Hti as (H0 & Hp & cell' & Hc' & Hq & Hx).
    rewrite Hc in Hc'. simplify_eq. split_and!; try done; try lia. by exists cell'.
  - destruct Hti as (H0 & Hp & Hx & cell' & Hc' & Hq). rewrite Hc in Hc'. simplify_eq.
    rewrite (wrap_position s) //; [lia|].
    assert (forall j p, j <> i -> pops (threads s j) = Some p -> p <> pos) as Hother.
    { intros j p Hj Hp' ->. apply Hj. eapply (i_unique _ Hi _ _ pos).
      - unfold owns. destruct (threads s j); simplify_eq/=; done.
      - by rewrite Ht. }
    apply (inv_store s i _ _ cell' (mkCell (pos + C s) (data cell')) (results s ++ [(pos, item)]) Hi); try done.
    + by rewrite Ht.
    + cbn [sequence]. lia.
    + by right.
    + unfold window_ok. cbn [queue store set_buffer dequeue_pos_]. rewrite decide_True; [lia|]. by left.
    + rewrite fmap_app. apply NoDup_app. split; [apply Hi|]. split; [|apply NoDup_singleton].
      intros p Hin Hin'. apply list_elem_of_singleton in Hin'. simpl in Hin'. subst p.
      eapply (i_popping _ Hi i); [by rewrite Ht|done].
    + intros p x [Hin|Hin]%elem_of_app; [by eapply i_results|]. apply list_elem_of_singleton in Hin. simplify_eq. split; [lia|done].
    + intros p Hpx. rewrite fmap_app elem_of_app. cbn [threads store].
      destruct (i_popped _ Hi p Hpx) as [|[j Hj]]; [by left; left|].
      destruct (decide (j = i)) as [->|Hji].
      * rewrite Ht in Hj. simplify_eq/=. left. right. by apply list_elem_of_singleton.
      * right. exists j. by rewrite fn_lookup_insert_ne.
    + intros j p. cbn [threads store]. destruct (decide (i = j)) as [<-|Hj]; [by rewrite fn_lookup_insert|].
      rewrite fn_lookup_insert_ne // fmap_app. intros Hj'. rewrite not_elem_of_app. split; [by eapply i_popping|].
      rewrite list_elem_of_singleton. by apply (Hother j).
Qed.

Lemma mpmc_start_inv q : repr q 0 0 [] -> inv (start q).
Proof.
  intros Hr. pose proof (mpmc_cap_bounds _ _ _ _ Hr) as Hc. pose proof (r_deq _ _ _ _ Hr) as HD. pose proof (r_enq _ _ _ _ Hr) as HE.
  split; cbn [start queue threads enqueued results length]; rewrite ?HD ?HE; try done; try lia.
  - by eapply repr_shape.
  - intros p Hp. pose proof (r_free _ _ _ _ Hr (p + capacity_ q) ltac:(lia)) as Hf.
    rewrite (mod_wraps _ _ _ _ _ Hr) in Hf. rewrite (mpmc_slot_pos _ _ _ _ _ Hr).
    destruct (buffer_ q !! _) as [cell|]; simplify_eq/=. exists cell. split; [done|].
    unfold window_ok. cbn [start queue]. rewrite HD decide_True; [lia|]. by left.
  - apply NoDup_nil_2.
  - by intros p x ?%not_elem_of_nil.
Qed.

Lemma step_grows i s s' : step i s s' -> enqueued s `prefix_of` enqueued s' /\ C s' = C s.
Proof. intros []; (split; [|done]); cbn [enqueued go store]; try done. by eexists. Qed.

Lemma mpmc_reach_inv q s : repr q 0 0 [] -> reachable q s -> in_range s -> inv s.
Proof.
  intros Hr. revert s. apply (rtc_ind_r (fun s => in_range s -> inv s)).
  - intros _. by apply mpmc_start_inv.
  - intros s1 s2 _ [i Hi] IH Hb. destruct (step_grows _ _ _ Hi) as [Hp Hc].
    assert (in_range s1) as Hb1.
    { apply prefix_length in Hp. unfold in_range in *. rewrite Hc in Hb. lia. }
    eapply mpmc_step_inv; [by apply IH|done|exact Hi].
Qed.

(** ** Consequences *)

(** Two threads never access the data of the same cell. *)
Lemma no_conflict s i j p p' : inv s -> owns (threads s i) = Some p -> owns (threads s j) = Some p' ->
  i <> j -> slot p (queue s) <> slot p' (queue s).
Proof.
  intros Hi Hp Hp' Hne. pose proof (owned_window _ _ _ Hi Hp) as [_ Hw]. pose proof (owned_window _ _ _ Hi Hp') as [_ Hw'].
  assert (p <> p') by (intros ->; apply Hne; by eapply i_unique).
  rewrite !shape_slot; try apply Hi.
  destruct (decide (p < p')); [|apply not_eq_sym]; apply shape_slot_ne; try apply Hi; lia.
Qed.

(** A push is refused only when, at its look at the cell, the queue is full or
    the element a round earlier is still being taken out. *)
Lemma refused_push s i item pos cell : inv s -> threads s i = PushLoaded item pos -> at_ s pos = Some cell ->
  sequence cell < pos -> E s - D s = C s \/ exists j, pops (threads s j) = Some (E s - C s).
Proof.
  intros Hi Ht Hc Hlt. pose proof (i_threads _ Hi i) as Hti. rewrite Ht in Hti. cbn [thread_ok] in Hti.
  destruct (cell_bounds s pos Hi Hti) as (cell' & Hc' & _ & Hge). rewrite Hc in Hc'. simplify_eq.
  assert (pos = E s) as -> by lia. destruct (cell_at_E s Hi) as (cl & Hcl & _ & _ & _ & Hfull).
  rewrite Hc in Hcl. simplify_eq. destruct (Hfull Hlt) as [He|He]; [left; lia|by right].
Qed.

(** A pop finds nothing only when the queue is empty or the oldest element is
    still being put in. *)
Lemma refused_pop s i pos cell : inv s -> threads s i = PopLoaded pos -> at_ s pos = Some cell ->
  sequence cell < pos + 1 -> D s = E s \/ exists j, pushes (threads s j) = Some (D s).
Proof.
  intros Hi Ht Hc Hlt. pose proof (i_threads _ Hi i) as Hti. rewrite Ht in Hti. cbn [thread_ok] in Hti.
  pose proof (i_range _ Hi). pose proof (shape_cap _ (i_shape _ Hi)).
  destruct (decide (pos = D s)) as [->|Hne].
  - destruct (cell_at_D s Hi) as (cl & Hcl & _ & _ & He). rewrite Hc in Hcl. simplify_eq. by apply He.
  - exfalso. destruct (slot_window s pos Hi ltac:(lia)) as (p & Hw & Hsl & Hge & _).
    destruct (i_window _ Hi p Hw) as (cl & Hcl & Hok). rewrite Hsl Hc in Hcl. simplify_eq.
    specialize (Hge ltac:(lia)). unfold window_ok in Hok. case_decide; destruct Hok as [Hok|Hok]; lia.
Qed.

(** ** A thread that runs alone *)

Lemma cell_exists q p : shape q -> exists cell, buffer_ q !! slot p q = Some cell.
Proof. intros Hs. apply lookup_lt_is_Some_2. rewrite shape_slot //. by apply shape_slot_lt. Qed.

Lemma finish_written s i item p : shape (queue s) -> threads s i = PushWritten item p ->
  exists s', bsteps (step i) 1 s s' /\ threads s' i = Idle.
Proof.
  intros Hs Ht. destruct (cell_exists _ p Hs) as [cell Hc]. eexists. split.
  - apply bsteps_once. by eapply push_publish.
  - cbn [store threads]. by rewrite fn_lookup_insert.
Qed.

Lemma mpmc_finish_claimed s i item p : shape (queue s) -> threads s i = PushClaimed item p ->
  exists s', bsteps (step i) 2 s s' /\ threads s' i = Idle.
Proof.
  intros Hs Ht. destruct (cell_exists _ p Hs) as [cell Hc].
  destruct (finish_written (store i (PushWritten item p) p (mkCell (sequence cell) item) s) i item p) as (s' & Hb & Hidle).
  - by apply shape_store.
  - cbn [store threads]. by rewrite fn_lookup_insert.
  - exists s'. split; [|done]. eapply bsteps_l; [|exact Hb]. by eapply push_write.
Qed.

Lemma finish_pop_read s i item p : shape (queue s) -> threads s i = PopRead p item ->
  exists s', bsteps (step i) 1 s s' /\ threads s' i = Idle.
Proof.
  intros Hs Ht. destruct (cell_exists _ p Hs) as [cell Hc]. eexists. split.
  - apply bsteps_once. by eapply pop_recycle.
  - cbn [store threads]. by rewrite fn_lookup_insert.
Qed.

Lemma finish_pop_claimed s i p : shape (queue s) -> threads s i = PopClaimed p ->
  exists s', bsteps (step i) 2 s s' /\ threads s' i = Idle.
Proof.
  intros Hs Ht. destruct (cell_exists _ p Hs) as [cell Hc].
  destruct (finish_pop_read (go i (PopRead p (data cell)) s) i (data cell) p) as (s' & Hb & Hidle); [done| |].
  - cbn [go threads]. by rewrite fn_lookup_insert.
  - exists s'. split; [|done]. eapply bsteps_l; [|exact Hb]. by eapply pop_read.
Qed.

(** With the sequence number loaded from the cell at the current position. *)
Lemma finish_push_seq s i item seq : inv s -> in_range s -> threads s i = PushSeq item (E s) seq -> 
  seq <= E s -> exists s', bsteps (step i) 3 s s' /\ threads s' i = Idle.
Proof.
  intros Hi Hb Ht Hle. pose proof (i_threads _ Hi i) as Hti. rewrite Ht in Hti. cbn [thread_ok] in Hti.
  destruct Hti as (Hp & Hs0 & Hc). pose proof (shape_cap _ (i_shape _ Hi)).
  assert (signed_diff seq (E s) = Some (seq - E s)) as Hd by (apply (diff_exact s); try done; lia).
  destruct (decide (seq = E s)) as [->|Hne].
  - rewrite Z.sub_diag in Hd.
    destruct (mpmc_finish_claimed (mkst (set_enqueue_pos (E s +₆₄ 1) (queue s)) (<[i := PushClaimed item (E s)]> (threads s))
                  (enqueued s ++ [item]) (results s)) i item (E s)) as (s' & Hbs & Hidle).
    + by eapply shape_positions; [apply (i_shape _ Hi)|..].
    + cbn [threads]. by rewrite fn_lookup_insert.
    + exists s'. split; [|done]. eapply bsteps_l; [|exact Hbs]. by eapply push_claim.
  - eexists. split; [eapply bsteps_l; [eapply push_full; [done|exact Hd|lia]|apply bsteps_refl]|].
    cbn [go threads]. by rewrite fn_lookup_insert.
Qed.

Lemma finish_push_fresh s i item : inv s -> in_range s -> threads s i = PushLoaded item (E s) ->
  exists s', bsteps (step i) 4 s s' /\ threads s' i = Idle.
Proof.
  intros Hi Hb Ht. destruct (cell_at_E s Hi) as (cell & Hc & _ & Hle & _).
  assert (step i s (go i (PushSeq item (E s) (sequence cell)) s)) as Hstep by by eapply push_load.
  destruct (finish_push_seq (go i (PushSeq item (E s) (sequence cell)) s) i item (sequence cell)) as (s' & Hbs & Hidle).
  - by eapply mpmc_step_inv.
  - done.
  - cbn [go threads queue]. by rewrite fn_lookup_insert.
  - done.
  - exists s'. split; [|done]. by eapply bsteps_l.
Qed.

Lemma finish_pop_seq s i seq : inv s -> in_range s -> threads s i = PopSeq (D s) seq ->
  seq <= D s + 1 -> exists s', bsteps (step i) 3 s s' /\ threads s' i = Idle.
Proof.
  intros Hi Hb Ht Hle. pose proof (i_threads _ Hi i) as Hti. rewrite Ht in Hti. cbn [thread_ok] in Hti.
  destruct Hti as (Hp & Hs0 & Hc). pose proof (shape_cap _ (i_shape _ Hi)). pose proof (i_range _ Hi).
  assert (signed_diff seq (D s +₆₄ 1) = Some (seq - (D s + 1))) as Hd.
  { rewrite (wrap_position s) //; [lia|]. apply (diff_exact s); try done; lia. }
  destruct (decide (seq = D s + 1)) as [->|Hne].
  - rewrite Z.sub_diag in Hd.
    destruct (finish_pop_claimed (mkst (set_dequeue_pos (D s +₆₄ 1) (queue s)) (<[i := PopClaimed (D s)]> (threads s))
                  (enqueued s) (results s)) i (D s)) as (s' & Hbs & Hidle).
    + by eapply shape_positions; [apply (i_shape _ Hi)|..].
    + cbn [threads]. by rewrite fn_lookup_insert.
    + exists s'. split; [|done]. eapply bsteps_l; [|exact Hbs]. by eapply pop_claim.
  - eexists. split; [eapply bsteps_l; [eapply pop_empty; [done|exact Hd|lia]|apply bsteps_refl]|].
    cbn [go threads]. by rewrite fn_lookup_insert.
Qed.

Lemma finish_pop_fresh s i : inv s -> in_range s -> threads s i = PopLoaded (D s) ->
  exists s', bsteps (step i) 4 s s' /\ threads s' i = Idle.
Proof.
  intros Hi Hb Ht. destruct (cell_at_D s Hi) as (cell & Hc & Hle & _).
  assert (step i s (go i (PopSeq (D s) (sequence cell)) s)) as Hstep by by eapply pop_load.
  destruct (finish_pop_seq (go i (PopSeq (D s) (sequence cell)) s) i (sequence cell)) as (s' & Hbs & Hidle).
  - by eapply mpmc_step_inv.
  - done.
  - cbn [go threads queue]. by rewrite fn_lookup_insert.
  - done.
  - exists s'. split; [|done]. by eapply bsteps_l.
Qed.

Lemma finish_push_stale s i item pos seq : inv s -> in_range s -> threads s i = PushSeq item pos seq ->
  exists s', bsteps (step i) 5 s s' /\ threads s' i = Idle.
Proof.
  intros Hi Hb Ht. pose proof (i_threads _ Hi i) as Hti. rewrite Ht in Hti. cbn [thread_ok] in Hti.
  destruct Hti as (Hp & Hs0 & Hc). pose proof (loaded_seq s pos seq Hi Hp Hc) as Hlt.
  assert (signed_diff seq pos = Some (seq - pos)) as Hd by (apply (diff_exact s); try done; lia).
  destruct (decide (seq < pos)) as [Hl|Hge].
  { eexists. split; [eapply bsteps_l; [eapply push_full; [done|exact Hd|lia]|apply bsteps_refl]|].
    cbn [go threads]. by rewrite fn_lookup_insert. }
  assert (step i s (go i (PushLoaded item (E s)) s)) as Hstep by (eapply push_retry; [done|exact Hd|lia]).
  destruct (finish_push_fresh (go i (PushLoaded item (E s)) s) i item) as (s' & Hbs & Hidle).
  - by eapply mpmc_step_inv.
  - done.
  - cbn [go threads queue]. by rewrite fn_lookup_insert.
  - exists s'. split; [|done]. by eapply bsteps_l.
Qed.

Lemma finish_pop_stale s i pos seq : inv s -> in_range s -> threads s i = PopSeq pos seq ->
  exists s', bsteps (step i) 5 s s' /\ threads s' i = Idle.
Proof.
  intros Hi Hb Ht. pose proof (i_threads _ Hi i) as Hti. rewrite Ht in Hti. cbn [thread_ok] in Hti.
  destruct Hti as (Hp & Hs0 & Hc). pose proof (i_range _ Hi). pose proof (shape_cap _ (i_shape _ Hi)).
  pose proof (loaded_seq s pos seq Hi ltac:(lia) Hc) as Hlt.
  assert (signed_diff seq (pos +₆₄ 1) = Some (seq - (pos + 1))) as Hd.
  { rewrite (wrap_position s) //; [lia|]. apply (diff_exact s); try done; lia. }
  destruct (decide (seq < pos + 1)) as [Hl|Hge].
  { eexists. split; [eapply bsteps_l; [eapply pop_empty; [done|exact Hd|lia]|apply bsteps_refl]|].
    cbn [go threads]. by rewrite fn_lookup_insert. }
  assert (step i s (go i (PopLoaded (D s)) s)) as Hstep by (eapply pop_retry; [done|exact Hd|lia]).
  destruct (finish_pop_fresh (go i (PopLoaded (D s)) s) i) as (s' & Hbs & Hidle).
  - by eapply mpmc_step_inv.
  - done.
  - cbn [go threads queue]. by rewrite fn_lookup_insert.
  - exists s'. split; [|done]. by eapply bsteps_l.
Qed.

(** From any point of its call. *)
Lemma mpmc_finish_call s i : inv s -> in_range s -> exists s', bsteps (step i) 6 s s' /\ threads s' i = Idle.
Proof.
  intros Hi Hb. pose proof (i_shape _ Hi) as Hsh. destruct (threads s i) as [|x pos|x pos sq|x p|x p|pos|pos sq|p|p x] eqn:Ht.
  - exists s. split; [apply bsteps_refl|done].
  - destruct (cell_exists _ pos Hsh) as [cell Hc].
    assert (step i s (go i (PushSeq x pos (sequence cell)) s)) as Hstep by by eapply push_load.
    destruct (finish_push_stale (go i (PushSeq x pos (sequence cell)) s) i x pos (sequence cell)) as (s' & Hbs & Hidle).
    + by eapply mpmc_step_inv.
    + done.
    + cbn [go threads]. by rewrite fn_lookup_insert.
    + exists s'. split; [|done]. by eapply bsteps_l.
  - destruct (finish_push_stale s i x pos sq Hi Hb Ht) as (s' & ? & ?). exists s'. split; [|done]. by apply bsteps_S.
  - destruct (mpmc_finish_claimed s i x p Hsh Ht) as (s' & ? & ?). exists s'. split; [|done]. eapply (bsteps_weaken 2); [lia|done].
  - destruct (finish_written s i x p Hsh Ht) as (s' & ? & ?). exists s'. split; [|done]. eapply (bsteps_weaken 1); [lia|done].
  - destruct (cell_exists _ pos Hsh) as [cell Hc].
    assert (step i s (go i (PopSeq pos (sequence cell)) s)) as Hstep by by eapply pop_load.
    destruct (finish_pop_stale (go i (PopSeq pos (sequence cell)) s) i pos (sequence cell)) as (s' & Hbs & Hidle).
    + by eapply mpmc_step_inv.
    + done.
    + cbn [go threads]. by rewrite fn_lookup_insert.
    + exists s'. split; [|done]. by eapply bsteps_l.
  - destruct (finish_pop_stale s i pos sq Hi Hb Ht) as (s' & ? & ?). exists s'. split; [|done]. by apply bsteps_S.
  - destruct (finish_pop_claimed s i p Hsh Ht) as (s' & ? & ?). exists s'. split; [|done]. eapply (bsteps_weaken 2); [lia|done].
  - destruct (finish_pop_read s i x p Hsh Ht) as (s' & ? & ?). exists s'. split; [|done]. eapply (bsteps_weaken 1); [lia|done].
Qed.

(** ** No call in progress *)

Lemma omap_lookup_take {A} (l : list A) n : (n <= length l)%nat ->
  omap (fun p => l !! Z.to_nat p) (seqZ 0 (Z.of_nat n)) = take n l.
Proof.
  induction n as [|n IH]; intros Hn; [by rewrite take_0|].
  rewrite seqZ_S omap_app IH; [lia|]. cbn [omap list_omap Z.add]. rewrite Nat2Z.id.
  destruct (lookup_lt_is_Some_2 l n ltac:(lia)) as [x Hx]. rewrite Hx. by rewrite (take_S_r _ _ x).
Qed.

Lemma results_values s : inv s -> omap (fun p => enqueued s !! Z.to_nat p) (results s).*1 = (results s).*2.
Proof.
  intros Hi. assert (Forall (fun r => enqueued s !! Z.to_nat r.1 = Some r.2) (results s)) as Hf.
  { apply Forall_forall. intros [p x] Hin. by apply (i_results _ Hi). }
  induction Hf as [|[p x] l Hx Hl IH]; [done|]. cbn [fmap list_fmap omap list_omap fst snd] in *. by rewrite Hx IH.
Qed.

Lemma quiescent s : inv s -> (forall i, threads s i = Idle) ->
  repr (queue s) (D s) (E s) (drop (Z.to_nat (D s)) (enqueued s)) /\
  (results s).*2 ≡ₚ take (Z.to_nat (D s)) (enqueued s).
Proof.
  intros Hi Hidle. pose proof (i_range _ Hi). pose proof (i_room _ Hi). pose proof (i_enq _ Hi) as HE.
  pose proof (i_shape _ Hi) as Hsh. pose proof (shape_cap _ Hsh). split.
  - split; try apply Hsh; try done; try lia.
    + rewrite length_drop. lia.
    + intros k x Hk. rewrite lookup_drop in Hk. pose proof (lookup_lt_Some _ _ _ Hk) as Hlt.
      destruct (i_window _ Hi (D s + Z.of_nat k) ltac:(lia)) as (cell & Hc & Hok). rewrite shape_slot // in Hc. rewrite Hc.
      unfold window_ok in Hok. rewrite decide_False in Hok; [lia|]. destruct Hok as [(_ & i & Hp)|[Hq Hd]].
      { by rewrite Hidle in Hp. }
      replace (Z.to_nat (D s + Z.of_nat k)) with (Z.to_nat (D s) + k)%nat in Hd by lia.
      destruct cell as [sq dt]. cbn [sequence data] in *. by simplify_eq.
    + intros p Hp. destruct (i_window _ Hi (p - C s) ltac:(lia)) as (cell & Hc & Hok). rewrite shape_slot // in Hc.
      rewrite -(shape_wraps _ (p - C s)) // in Hc. replace (p - C s + C s) with p in Hc by lia. rewrite Hc. cbn.
      unfold window_ok in Hok. rewrite decide_True in Hok; [lia|]. destruct Hok as [Hq|(_ & _ & i & Hp')].
      { f_equal. lia. }
      by rewrite Hidle in Hp'.
  - rewrite -results_values // -omap_lookup_take; [lia|]. rewrite Z2Nat.id; [lia|]. apply omap_Permutation.
    apply NoDup_Permutation; [apply Hi|apply NoDup_seqZ|]. intros p. rewrite elem_of_seqZ. split.
    + intros ([p' x] & -> & Hin)%list_elem_of_fmap. destruct (i_results _ Hi _ _ Hin). simpl. lia.
    + intros Hp. destruct (i_popped _ Hi p ltac:(lia)) as [|[j Hj]]; [done|]. by rewrite Hidle in Hj.
Qed.

(** ** The uninterrupted call is the sequential one *)

(** [s'] is [s] with queue [q'], thread [i] idle, and the rest as given. *)
Definition after_call (i : nat) s (q' : MPMCQueue.t T) (xs : list T) (rs : list (Z * T)) (s' : st) : Prop :=
  queue s' = q' /\ threads s' i = Idle /\ (forall j, j <> i -> threads s' j = threads s j) /\
  enqueued s' = enqueued s ++ xs /\ results s' = results s ++ rs.

Lemma after_call_l i s s1 q' xs rs s' : after_call i s1 q' xs rs s' ->
  (forall j, j <> i -> threads s1 j = threads s j) -> enqueued s1 = enqueued s -> results s1 = results s ->
  after_call i s q' xs rs s'.
Proof. intros (Hq & Hi & Hj & He & Hr) Hj1 He1 Hr1. rewrite He1 in He. rewrite Hr1 in Hr. split_and!; try done.
  intros j Hne. by rewrite Hj // Hj1. Qed.

Lemma push_claimed_alone s i item pos : shape (queue s) -> threads s i = PushClaimed item pos ->
  exists s', rtc (step i) s s' /\
    after_call i s (set_buffer (<[slot pos (queue s) := mkCell (pos +₆₄ 1) item]> (buffer_ (queue s))) (queue s)) [] [] s'.
Proof.
  intros Hs Ht. destruct (cell_exists _ pos Hs) as [cell Hc].
  set (s1 := store i (PushWritten item pos) pos (mkCell (sequence cell) item) s).
  assert (buffer_ (queue s1) !! slot pos (queue s1) = Some (mkCell (sequence cell) item)) as Hc1.
  { apply list_lookup_insert_eq. by eapply lookup_lt_Some. }
  exists (store i Idle pos (mkCell (pos +₆₄ 1) item) s1). split.
  - eapply rtc_l; [by eapply push_write|]. apply rtc_once.
    apply (push_publish i s1 item pos (mkCell (sequence cell) item)); [|exact Hc1]. cbn [s1 store threads]. by rewrite fn_lookup_insert.
  - split_and!; cbn [s1 store queue threads enqueued results].
    + unfold set_buffer. cbn [capacity_ mask_ buffer_ enqueue_pos_ dequeue_pos_]. f_equal.
      change (slot pos (mk _ _ _ _ _)) with (slot pos (queue s)). by rewrite list_insert_insert_eq.
    + by rewrite fn_lookup_insert.
    + intros j Hj. by rewrite !fn_lookup_insert_ne.
    + by rewrite app_nil_r.
    + by rewrite app_nil_r.
Qed.

Lemma push_loop_alone fuel : forall s i item pos b q',
  shape (queue s) -> threads s i = PushLoaded item pos -> push_loop fuel item pos (queue s) = Some (b, q') ->
  exists s', rtc (step i) s s' /\ after_call i s q' (if b then [item] else []) [] s'.
Proof.
  induction fuel as [|fuel IH]; intros s i item pos b q' Hs Ht Hp; [done|]. cbn [push_loop] in Hp.
  destruct (buffer_ (queue s) !! slot pos (queue s)) as [cell|] eqn:Hc; [|done]. cbn [mbind option_bind] in Hp.
  destruct (signed_diff (sequence cell) pos) as [d|] eqn:Hd; [|done]. cbn [mbind option_bind] in Hp.
  set (s1 := go i (PushSeq item pos (sequence cell)) s).
  assert (threads s1 i = PushSeq item pos (sequence cell)) as Ht1 by (cbn [s1 go threads]; by rewrite fn_lookup_insert).
  assert (step i s s1) as Hstep by by eapply push_load.
  assert (forall j, j <> i -> threads s1 j = threads s j) as Hoth.
  { intros j Hj. cbn [s1 go threads]. by rewrite fn_lookup_insert_ne. }
  assert (0 <= d -> push_loop fuel item (enqueue_pos_ (queue s)) (queue s) = Some (b, q') ->
    exists s', rtc (step i) s s' /\ after_call i s q' (if b then [item] else []) [] s') as Hretry.
  { intros Hge Hloop. set (s2 := go i (PushLoaded item (E s)) s1).
    destruct (IH s2 i item (E s) b q') as (s' & Hr & Ha); [done| |done|].
    { cbn [s2 go threads]. by rewrite fn_lookup_insert. }
    exists s'. split.
    - eapply rtc_l; [exact Hstep|]. eapply rtc_l; [|exact Hr]. by eapply (push_retry i s1).
    - eapply after_call_l; [exact Ha| |done|done]. intros j Hj. cbn [s2 go threads].
      rewrite fn_lookup_insert_ne //. by apply Hoth. }
  destruct (d =? 0) eqn:E0.
  - apply Z.eqb_eq in E0 as ->. destruct (E s =? pos) eqn:Ee; [|by apply Hretry].
    apply Z.eqb_eq in Ee. injection Hp as <- <-.
    set (s2 := mkst (set_enqueue_pos (pos +₆₄ 1) (queue s1)) (<[i := PushClaimed item pos]> (threads s1))
      (enqueued s1 ++ [item]) (results s1)).
    destruct (push_claimed_alone s2 i item pos) as (s' & Hr & Ha).
    + by eapply shape_positions; [exact Hs|..].
    + cbn [s2 threads]. by rewrite fn_lookup_insert.
    + exists s'. split.
      * eapply rtc_l; [exact Hstep|]. eapply rtc_l; [|exact Hr]. by apply (push_claim i s1 item pos (sequence cell)).
      * destruct Ha as (Hq & Hi' & Hj & He & Hres). split_and!; try done.
        -- intros j Hne. rewrite Hj //. cbn [s2 threads]. rewrite fn_lookup_insert_ne //. by apply Hoth.
        -- rewrite He. cbn [s2 enqueued]. by rewrite app_nil_r.
  - destruct (d <? 0) eqn:El; [|apply Hretry; [lia|done]]. injection Hp as <- <-.
    exists (go i Idle s1). split.
    + eapply rtc_l; [exact Hstep|]. apply rtc_once. eapply push_full; [done|exact Hd|lia].
    + split_and!; cbn [go queue threads enqueued results s1]; rewrite ?app_nil_r //.
      * by rewrite fn_lookup_insert.
      * intros j Hj. by rewrite !fn_lookup_insert_ne.
Qed.

Lemma push_alone s i item b q' :
  shape (queue s) -> threads s i = Idle -> push item (queue s) = Some (b, q') ->
  exists s', rtc (step i) s s' /\ after_call i s q' (if b then [item] else []) [] s'.
Proof.
  intros Hs Ht Hp. set (s1 := go i (PushLoaded item (E s)) s).
  destruct (push_loop_alone 2 s1 i item (E s) b q') as (s' & Hr & Ha); [done| |done|].
  { cbn [s1 go threads]. by rewrite fn_lookup_insert. }
  exists s'. split; [eapply rtc_l; [by eapply push_start|exact Hr]|].
  eapply after_call_l; [exact Ha| |done|done]. intros j Hj. cbn [s1 go threads]. by rewrite fn_lookup_insert_ne.
Qed.

Lemma pop_claimed_alone s i pos cell : shape (queue s) -> threads s i = PopClaimed pos ->
  buffer_ (queue s) !! slot pos (queue s) = Some cell ->
  exists s', rtc (step i) s s' /\
    after_call i s (set_buffer (<[slot pos (queue s) := mkCell (pos +₆₄ C s) (data cell)]> (buffer_ (queue s))) (queue s))
      [] [(pos, data cell)] s'.
Proof.
  intros Hs Ht Hc. set (s1 := go i (PopRead pos (data cell)) s). eexists. split.
  - eapply rtc_l; [by eapply pop_read|]. apply rtc_once.
    apply (pop_recycle i s1 pos (data cell) cell); [|exact Hc]. cbn [s1 go threads]. by rewrite fn_lookup_insert.
  - split_and!; cbn [s1 go store queue threads enqueued results]; try done.
    + by rewrite fn_lookup_insert.
    + intros j Hj. by rewrite !fn_lookup_insert_ne.
    + by rewrite app_nil_r.
Qed.

Lemma pop_loop_alone fuel : forall s i pos r q',
  shape (queue s) -> threads s i = PopLoaded pos -> pop_loop fuel pos (queue s) = Some (r, q') ->
  exists s', rtc (step i) s s' /\
    after_call i s q' [] (match r with Some x => [(D s, x)] | None => [] end) s'.
Proof.
  induction fuel as [|fuel IH]; intros s i pos r q' Hs Ht Hp; [done|]. cbn [pop_loop] in Hp.
  destruct (buffer_ (queue s) !! slot pos (queue s)) as [cell|] eqn:Hc; [|done]. cbn [mbind option_bind] in Hp.
  destruct (signed_diff (sequence cell) (pos +₆₄ 1)) as [d|] eqn:Hd; [|done]. cbn [mbind option_bind] in Hp.
  set (s1 := go i (PopSeq pos (sequence cell)) s).
  assert (threads s1 i = PopSeq pos (sequence cell)) as Ht1 by (cbn [s1 go threads]; by rewrite fn_lookup_insert).
  assert (step i s s1) as Hstep by by eapply pop_load.
  assert (forall j, j <> i -> threads s1 j = threads s j) as Hoth.
  { intros j Hj. cbn [s1 go threads]. by rewrite fn_lookup_insert_ne. }
  assert (0 <= d -> pop_loop fuel (dequeue_pos_ (queue s)) (queue s) = Some (r, q') ->
    exists s', rtc (step i) s s' /\
      after_call i s q' [] (match r with Some x => [(D s, x)] | None => [] end) s') as Hretry.
  { intros Hge Hloop. set (s2 := go i (PopLoaded (D s)) s1).
    destruct (IH s2 i (D s) r q') as (s' & Hr & Ha); [done| |done|].
    { cbn [s2 go threads]. by rewrite fn_lookup_insert. }
    exists s'. split.
    - eapply rtc_l; [exact Hstep|]. eapply rtc_l; [|exact Hr]. by eapply (pop_retry i s1).
    - eapply after_call_l; [exact Ha| |done|done]. intros j Hj. cbn [s2 go threads].
      rewrite fn_lookup_insert_ne //. by apply Hoth. }
  destruct (d =? 0) eqn:E0.
  - apply Z.eqb_eq in E0 as ->. destruct (D s =? pos) eqn:Ee; [|by apply Hretry].
    apply Z.eqb_eq in Ee. injection Hp as <- <-.
    set (s2 := mkst (set_dequeue_pos (pos +₆₄ 1) (queue s1)) (<[i := PopClaimed pos]> (threads s1))
      (enqueued s1) (results s1)).
    destruct (pop_claimed_alone s2 i pos cell) as (s' & Hr & Ha).
    + by eapply shape_positions; [exact Hs|..].
    + cbn [s2 threads]. by rewrite fn_lookup_insert.
    + exact Hc.
    + exists s'. split.
      * eapply rtc_l; [exact Hstep|]. eapply rtc_l; [|exact Hr]. by apply (pop_claim i s1 pos (sequence cell)).
      * rewrite Ee. eapply after_call_l; [exact Ha| |done|done]. intros j Hne. cbn [s2 threads].
        rewrite fn_lookup_insert_ne //. by apply Hoth.
  - destruct (d <? 0) eqn:El; [|apply Hretry; [lia|done]]. injection Hp as <- <-.
    exists (go i Idle s1). split.
    + eapply rtc_l; [exact Hstep|]. apply rtc_once. eapply pop_empty; [done|exact Hd|lia].
    + split_and!; cbn [go queue threads enqueued results s1]; rewrite ?app_nil_r //.
      * by rewrite fn_lookup_insert.
      * intros j Hj. by rewrite !fn_lookup_insert_ne.
Qed.

Lemma pop_alone s i r q' :
  shape (queue s) -> threads s i = Idle -> pop (queue s) = Some (r, q') ->
  exists s', rtc (step i) s s' /\
    after_call i s q' [] (match r with Some x => [(D s, x)] | None => [] end) s'.
Proof.
  intros Hs Ht Hp. set (s1 := go i (PopLoaded (D s)) s).
  destruct (pop_loop_alone 2 s1 i (D s) r q') as (s' & Hr & Ha); [done| |done|].
  { cbn [s1 go threads]. by rewrite fn_lookup_insert. }
  exists s'. split; [eapply rtc_l; [by eapply pop_start|exact Hr]|].
  eapply after_call_l; [exact Ha| |done|done]. intros j Hj. cbn [s1 go threads]. by rewrite fn_lookup_insert_ne.
Qed.

End threads.
Arguments pc : clear implicits.
Arguments st : clear implicits.
End MPMCThreads.

(** ** Guarantees *)

(** C25: the queue under contention.  For a queue constructed for at least two
    elements and any number of threads that push and pop concurrently, in every
    state they can reach while fewer than 2^63 - capacity elements were claimed:
    at most [capacity] elements are in the queue; every finished pop returned the
    element pushed at the position it claimed, no two pops the same position, and
    every claimed position was returned or is held by a pop in progress - elements
    leave in the order in which they entered, none lost, doubled or made up; no
    two threads access the data of the same cell at the same time; a push is
    refused only if the queue is full or the element a round earlier is still
    being taken out, a pop finds nothing only if the queue is empty or the oldest
    element is still being put in; every thread left alone finishes its call
    within six steps; when no call is in progress the queue represents exactly
    the elements not popped yet, and a call that is not interrupted then acts as
    the sequential [push] or [pop]. *)
Theorem mpmc_interleaved_fifo {T} (zero : T) n q s :
  2 <= n <= 2 ^ 62 -> MPMCQueue.make zero n = Some q -> MPMCThreads.reachable q s -> MPMCThreads.in_range s ->
  let D := MPMCQueue.dequeue_pos_ (MPMCThreads.queue s) in
  let E := MPMCQueue.enqueue_pos_ (MPMCThreads.queue s) in
  let capacity := MPMCQueue.capacity_ (MPMCThreads.queue s) in
  let slot p := MPMCQueue.slot p (MPMCThreads.queue s) in
  (E = Z.of_nat (length (MPMCThreads.enqueued s)) /\ 0 <= D <= E /\ E - D <= capacity) /\
  (NoDup (MPMCThreads.results s).*1 /\
   (forall p x, (p, x) ∈ MPMCThreads.results s -> 0 <= p < D /\ MPMCThreads.enqueued s !! Z.to_nat p = Some x) /\
   (forall p, 0 <= p < D -> p ∈ (MPMCThreads.results s).*1 \/
      exists i, MPMCThreads.pops (MPMCThreads.threads s i) = Some p)) /\
  (forall i j p p', i <> j -> MPMCThreads.owns (MPMCThreads.threads s i) = Some p ->
     MPMCThreads.owns (MPMCThreads.threads s j) = Some p' -> slot p <> slot p') /\
  (forall i item pos cell, MPMCThreads.threads s i = MPMCThreads.PushLoaded item pos ->
     MPMCQueue.buffer_ (MPMCThreads.queue s) !! slot pos = Some cell -> MPMCQueue.sequence cell < pos ->
     E - D = capacity \/ exists j, MPMCThreads.pops (MPMCThreads.threads s j) = Some (E - capacity)) /\
  (forall i pos cell, MPMCThreads.threads s i = MPMCThreads.PopLoaded pos ->
     MPMCQueue.buffer_ (MPMCThreads.queue s) !! slot pos = Some cell -> MPMCQueue.sequence cell < pos + 1 ->
     D = E \/ exists j, MPMCThreads.pushes (MPMCThreads.threads s j) = Some D) /\
  (forall i, exists s', bsteps (MPMCThreads.step i) 6 s s' /\ MPMCThreads.threads s' i = MPMCThreads.Idle) /\
  ((forall i, MPMCThreads.threads s i = MPMCThreads.Idle) ->
     MPMCQueue.repr (MPMCThreads.queue s) D E (drop (Z.to_nat D) (MPMCThreads.enqueued s)) /\
     (MPMCThreads.results s).*2 ≡ₚ take (Z.to_nat D) (MPMCThreads.enqueued s)) /\
  (forall i, MPMCThreads.threads s i = MPMCThreads.Idle ->
     (forall item b q', MPMCQueue.push item (MPMCThreads.queue s) = Some (b, q') ->
        exists s', rtc (MPMCThreads.step i) s s' /\
          MPMCThreads.after_call i s q' (if b then [item] else []) [] s') /\
     (forall r q', MPMCQueue.pop (MPMCThreads.queue s) = Some (r, q') ->
        exists s', rtc (MPMCThreads.step i) s s' /\
          MPMCThreads.after_call i s q' [] (match r with Some x => [(D, x)] | None => [] end) s')).
Proof.
  intros Hn Hmake Hs Hb D E capacity slot. destruct (MPMCQueue.mpmc_make_repr zero n Hn) as (q0 & Hq & Hr & _).
  rewrite Hmake in Hq. injection Hq as <-. pose proof (MPMCThreads.mpmc_reach_inv q s Hr Hs Hb) as Hi.
  pose proof (MPMCThreads.i_shape _ Hi) as Hsh. pose proof (MPMCThreads.i_room _ Hi).
  split; [split; [apply Hi|split; [apply Hi|lia]]|]. split; [split; [apply Hi|split; apply Hi]|].
  split; [intros i j p p' Hne Hp Hp'; by eapply MPMCThreads.no_conflict|].
  split; [intros i item pos cell; by apply MPMCThreads.refused_push|].
  split; [intros i pos cell; by apply MPMCThreads.refused_pop|].
  split; [intros i; by apply MPMCThreads.mpmc_finish_call|].
  split; [by apply MPMCThreads.quiescent|].
  intros i Hidle. split; [intros item b q'; by apply MPMCThreads.push_alone|intros r q'; by apply MPMCThreads.pop_alone].
Qed.

(** Two producers load the same position; the second finds it taken and starts
    over at the next one. *)
Lemma ex_contention : exists s, MPMCThreads.reachable ex_mpmc s /\ MPMCThreads.in_range s /\
  MPMCThreads.enqueued s = [7] /\ MPMCThreads.threads s 0%nat = MPMCThreads.PushClaimed 7 0 /\
  MPMCThreads.threads s 1%nat = MPMCThreads.PushLoaded 8 1.
Proof.
  eexists. split.
  - eapply rtc_l; [exists 0%nat; apply (MPMCThreads.push_start _ _ 7); reflexivity|].
    eapply rtc_l; [exists 1%nat; apply (MPMCThreads.push_start _ _ 8); reflexivity|].
    eapply rtc_l; [exists 0%nat; eapply MPMCThreads.push_load; reflexivity|].
    eapply rtc_l; [exists 1%nat; eapply MPMCThreads.push_load; reflexivity|].
    eapply rtc_l; [exists 0%nat; eapply MPMCThreads.push_claim; reflexivity|].
    eapply rtc_l; [exists 1%nat; eapply MPMCThreads.push_retry; [reflexivity|reflexivity|reflexivity]|].
    apply rtc_refl.
  - split_and!; reflexivity.
Qed.

Lemma mpmc_interleaved_fifo_witness : exists s, MPMCThreads.reachable ex_mpmc s /\
  exists s', bsteps (MPMCThreads.step 1%nat) 6 s s' /\ MPMCThreads.threads s' 1%nat = MPMCThreads.Idle.
Proof.
  destruct ex_contention as (s & Hr & Hb & _). exists s. split; [exact Hr|].
  assert (MPMCQueue.make 0 2 = Some ex_mpmc) as Hm by reflexivity.
  assert (2 <= 2 <= 2 ^ 62) as Hn by (split; discriminate).
  destruct (mpmc_interleaved_fifo 0 2 ex_mpmc s Hn Hm Hr Hb) as (_ & _ & _ & _ & _ & H & _). exact (H 1%nat).
Defined.
