(* ===== verification/MatchingEngine.v ===== *)
(** * The matching engine (include/rtes/matching_engine.hpp, src/matching_engine.cpp)

    One engine per symbol: requests arrive in a single-producer queue, a worker
    drains them in batches into the order book, trades and quote changes leave
    through the market data queue.  [Ctx] is the part of the engine that the trade
    callback reaches; the other members are in [t].  Logging, the pauses of the
    spin loop and thread creation are not modelled. *)

From S2P Require Import Prelude.
From S2P Require Import Types.
From S2P Require Import ErrorHandling.
From S2P Require Import OrderPool.
From S2P Require Import PriceLevels.
From S2P Require Import OrderBook.
From S2P Require Import SpscQueue.
From S2P Require Import MpmcQueue.

(** ** Messages *)

(** The tagged union: the tag selects the payload. *)
Inductive OrderRequest :=
  | NEW_ORDER (order : option nat)
  | CANCEL_ORDER (order_id : OrderID) (client_id : ClientID).

Definition OrderRequest_default : OrderRequest := NEW_ORDER None.
Definition make_new_order (order : option nat) : OrderRequest := NEW_ORDER order.
Definition make_cancel (i : OrderID) (client : ClientID) : OrderRequest := CANCEL_ORDER i client.

Record BBOData := mkBBOData {
  bd_bid_price : Price;
  bd_bid_quantity : Quantity;
  bd_ask_price : Price;
  bd_ask_quantity : Quantity
}.

Inductive MarketDataPayload := TRADE (trade : Trade) | BBO_UPDATE (bbo : BBOData).
Record MarketDataEvent := mkEvent { ev_symbol : list Z; ev_payload : MarketDataPayload }.

Definition make_trade (sym : list Z) (t : Trade) : MarketDataEvent := mkEvent (take 16 sym) (TRADE t).
Definition make_bbo (sym : list Z) (bid_px : Price) (bid_qty : Quantity) (ask_px : Price) (ask_qty : Quantity)
    : MarketDataEvent := mkEvent (take 16 sym) (BBO_UPDATE (mkBBOData bid_px bid_qty ask_px ask_qty)).

(** ** State *)

Record LocalStats := mkStats {
  total_processed : Z;
  orders_accepted : Z;
  orders_rejected : Z;
  cancels_accepted : Z;
  cancels_rejected : Z;
  trades_executed : Z;
  md_drops : Z;
  queue_full_count : Z
}.

Definition LocalStats_zero : LocalStats := mkStats 0 0 0 0 0 0 0 0.

Definition add_processed (n : Z) (s : LocalStats) : LocalStats :=
  mkStats (total_processed s +₆₄ n) (orders_accepted s) (orders_rejected s) (cancels_accepted s)
    (cancels_rejected s) (trades_executed s) (md_drops s) (queue_full_count s).
Definition inc_accepted (s : LocalStats) : LocalStats :=
  mkStats (total_processed s) (orders_accepted s +₆₄ 1) (orders_rejected s) (cancels_accepted s)
    (cancels_rejected s) (trades_executed s) (md_drops s) (queue_full_count s).
Definition inc_rejected (s : LocalStats) : LocalStats :=
  mkStats (total_processed s) (orders_accepted s) (orders_rejected s +₆₄ 1) (cancels_accepted s)
    (cancels_rejected s) (trades_executed s) (md_drops s) (queue_full_count s).
Definition inc_cancels_accepted (s : LocalStats) : LocalStats :=
  mkStats (total_processed s) (orders_accepted s) (orders_rejected s) (cancels_accepted s +₆₄ 1)
    (cancels_rejected s) (trades_executed s) (md_drops s) (queue_full_count s).
Definition inc_cancels_rejected (s : LocalStats) : LocalStats :=
  mkStats (total_processed s) (orders_accepted s) (orders_rejected s) (cancels_accepted s)
    (cancels_rejected s +₆₄ 1) (trades_executed s) (md_drops s) (queue_full_count s).
Definition inc_trades (s : LocalStats) : LocalStats :=
  mkStats (total_processed s) (orders_accepted s) (orders_rejected s) (cancels_accepted s)
    (cancels_rejected s) (trades_executed s +₆₄ 1) (md_drops s) (queue_full_count s).
Definition inc_md_drops (s : LocalStats) : LocalStats :=
  mkStats (total_processed s) (orders_accepted s) (orders_rejected s) (cancels_accepted s)
    (cancels_rejected s) (trades_executed s) (md_drops s +₆₄ 1) (queue_full_count s).
Definition inc_queue_full (s : LocalStats) : LocalStats :=
  mkStats (total_processed s) (orders_accepted s) (orders_rejected s) (cancels_accepted s)
    (cancels_rejected s) (trades_executed s) (md_drops s) (queue_full_count s +₆₄ 1).

(** The pointer to the shared market data queue: null, a queue, or a queue whose
    last operation was undefined. *)
Inductive MdQueue := md_null | md_queue (q : MPMCQueue.t MarketDataEvent) | md_undefined.

Record Ctx := mkCtx {
  local_stats_ : LocalStats;
  market_data_queue_ : MdQueue;
  symbol_cache_ : list Z
}.

Module MatchingEngine.
Import OrderBook.

Definition BATCH_SIZE : nat := 256.
Definition STATS_FLUSH_INTERVAL : Z := 4096.
Definition COMPACT_INTERVAL : Z := 8192.
Definition QUEUE_CAPACITY : Z := 65536.

Record t (P : Type) := mk {
  input_queue_ : SPSCQueue.t OrderRequest;
  book_ : env P Ctx;
  orders_processed_ : Z;
  trades_executed_ : Z;
  orders_rejected_ : Z;
  md_drops_ : Z;
  running_ : bool
}.
Arguments mk {P}.
Arguments input_queue_ {P}.
Arguments book_ {P}.
Arguments orders_processed_ {P}.
Arguments trades_executed_ {P}.
Arguments orders_rejected_ {P}.
Arguments md_drops_ {P}.
Arguments running_ {P}.

(** The constructor's copy of the symbol: at most 15 characters, zero filled. *)
Definition make_symbol_cache (symbol : cstring) : list Z :=
  take 15 symbol ++ replicate (16 - length (take 15 symbol)) 0.

(** ** Market data publishing *)

Definition update_stats (f : LocalStats -> LocalStats) (c : Ctx) : Ctx :=
  mkCtx (f (local_stats_ c)) (market_data_queue_ c) (symbol_cache_ c).
Definition set_md (q : MdQueue) (c : Ctx) : Ctx := mkCtx (local_stats_ c) q (symbol_cache_ c).

Definition push_event (ev : MarketDataEvent) (c : Ctx) : Ctx :=
  match market_data_queue_ c with
  | md_null => c
  | md_queue q =>
      match MPMCQueue.push ev q with
      | Some (true, q) => set_md (md_queue q) c
      | Some (false, q) => update_stats inc_md_drops (set_md (md_queue q) c)
      | None => set_md md_undefined c
      end
  | md_undefined => c
  end.

Definition publish_trade (trade : Trade) (c : Ctx) : Ctx :=
  push_event (mkEvent (symbol_cache_ c) (TRADE trade)) c.

Definition on_trade_internal (trade : Trade) (c : Ctx) : Ctx :=
  publish_trade trade (update_stats inc_trades c).

Definition publish_bbo_update (b : OrderBook.t) (c : Ctx) : Ctx :=
  push_event (mkEvent (symbol_cache_ c)
    (BBO_UPDATE (mkBBOData (best_bid b) (bid_quantity b) (best_ask b) (ask_quantity b)))) c.

Section ops.
Context {P : Type} `{!OrderPool P}.
Variable steady_clock : nat -> Timestamp.
Implicit Types e : env P Ctx.
Implicit Types m : t P.

Definition with_ctx (f : Ctx -> Ctx) e : env P Ctx := mkenv (book e) (pool e) (f (ctx e)) (ticks e).

(** [trade_callback_trampoline]. *)
Definition callback : option (Trade -> Ctx -> Ctx) := Some on_trade_internal.

(** ** Order processing *)

Definition publish_if_changed (old_bid old_ask : Price) e : env P Ctx :=
  if negb (best_bid (book e) =? old_bid) || negb (best_ask (book e) =? old_ask)
  then with_ctx (publish_bbo_update (book e)) e
  else e.

Definition process_new_order (order : option nat) e : option (env P Ctx) :=
  match order with
  | None => Some e
  | Some ptr =>
      let old_bid := best_bid (book e) in
      let old_ask := best_ask (book e) in
      '(result, e) ← add_order steady_clock callback order e;
      if has_value result then
        Some (publish_if_changed old_bid old_ask (with_ctx (update_stats inc_accepted) e))
      else
        let e := with_ctx (update_stats inc_rejected) e in
        p ← modify ptr (set_status REJECTED) (pool e);
        p ← deallocate ptr p;
        Some (with_pool p e)
  end.

Definition process_cancel (order_id : OrderID) (client_id : ClientID) e : option (env P Ctx) :=
  let old_bid := best_bid (book e) in
  let old_ask := best_ask (book e) in
  '(result, e) ← cancel_order order_id e;
  if has_value result then
    Some (publish_if_changed old_bid old_ask (with_ctx (update_stats inc_cancels_accepted) e))
  else Some (with_ctx (update_stats inc_cancels_rejected) e).

(** ** Order submission (the producer side) *)

Definition with_queue (q : SPSCQueue.t OrderRequest) m : t P :=
  mk q (book_ m) (orders_processed_ m) (trades_executed_ m) (orders_rejected_ m) (md_drops_ m) (running_ m).
Definition with_env e m : t P :=
  mk (input_queue_ m) e (orders_processed_ m) (trades_executed_ m) (orders_rejected_ m) (md_drops_ m) (running_ m).

Definition submit (request : OrderRequest) m : bool * t P :=
  let '(ok, q) := SPSCQueue.push request (input_queue_ m) in
  let m := with_queue q m in
  if ok then (true, m) else (false, with_env (with_ctx (update_stats inc_queue_full) (book_ m)) m).

Definition submit_order (order : option nat) m : bool * t P :=
  match order with
  | None => (false, m)
  | Some _ => submit (make_new_order order) m
  end.

Definition cancel_order (order_id : OrderID) (client_id : ClientID) m : bool * t P :=
  submit (make_cancel order_id client_id) m.

(** ** The worker *)

Definition dispatch (request : OrderRequest) e : option (env P Ctx) :=
  match request with
  | NEW_ORDER order => process_new_order order e
  | CANCEL_ORDER order_id client_id => process_cancel order_id client_id e
  end.

(** The loop of [drain_batch]: [left] more rounds, [count] done. *)
Fixpoint drain_loop (left count : nat) m : option (nat * t P) :=
  match left with
  | O => Some (count, m)
  | S left' =>
      '(request, q) ← SPSCQueue.pop (input_queue_ m);
      let m := with_queue q m in
      match request with
      | None => Some (count, m)
      | Some request =>
          e ← dispatch request (book_ m);
          drain_loop left' (S count) (with_env e m)
      end
  end.

Definition drain_batch m : option (nat * t P) :=
  '(count, m) ← drain_loop BATCH_SIZE 0 m;
  Some (count, with_env (with_ctx (update_stats (add_processed (Z.of_nat count))) (book_ m)) m).

(** ** Periodic maintenance *)

Definition flush_stats m : t P :=
  let s := local_stats_ (ctx (book_ m)) in
  mk (input_queue_ m) (book_ m) (orders_accepted s) (trades_executed s) (orders_rejected s) (md_drops s) (running_ m).

Definition processed_mod (m : t P) (interval : Z) : bool :=
  total_processed (local_stats_ (ctx (book_ m))) mod interval =? 0.

Definition maybe_compact m : t P :=
  if processed_mod m COMPACT_INTERVAL
  then with_env (with_book (prune (compact (book (book_ m)))) (book_ m)) m
  else m.

Definition maybe_flush_stats m : t P :=
  if processed_mod m STATS_FLUSH_INTERVAL then flush_stats m else m.

(** One round of the loop of [run]; [spin_wait] changes nothing. *)
Definition run_round m : option (t P) :=
  '(processed, m) ← drain_batch m;
  Some (if Nat.ltb 0 processed then maybe_flush_stats (maybe_compact m) else m).

(** The drain after the worker was told to stop.  Every round but the last one
    takes a request, so the requests bound the rounds. *)
Fixpoint drain_remaining (fuel : nat) m : option (t P) :=
  match fuel with
  | O => None
  | S fuel' =>
      '(batch, m) ← drain_batch m;
      match batch with
      | O => Some m
      | S _ => drain_remaining fuel' m
      end
  end.

Definition run_exit m : option (t P) :=
  m ← drain_remaining (S (Z.to_nat (SPSCQueue.size (input_queue_ m)))) m;
  Some (flush_stats m).

(** ** Lifecycle: the compare-and-swap on [running_] makes both idempotent. *)

Definition start m : bool * t P :=
  if running_ m then (false, m)
  else (true, mk (input_queue_ m) (book_ m) (orders_processed_ m) (trades_executed_ m)
                (orders_rejected_ m) (md_drops_ m) true).

(** [stop] joins the worker, which runs [run_exit]. *)
Definition stop m : option (t P) :=
  if running_ m
  then run_exit (mk (input_queue_ m) (book_ m) (orders_processed_ m) (trades_executed_ m)
                   (orders_rejected_ m) (md_drops_ m) false)
  else Some m.

(** The constructor; [pool] is shared, [ticks] counts the clock readings. *)
Definition make (symbol : cstring) (p : P) (ticks : nat) : option (t P) :=
  q ← SPSCQueue.make OrderRequest_default QUEUE_CAPACITY;
  Some (mk q (mkenv (OrderBook.make symbol) p (mkCtx LocalStats_zero md_null (make_symbol_cache symbol)) ticks)
          0 0 0 0 false).

Definition set_market_data_queue (q : MdQueue) m : t P := with_env (with_ctx (set_md q) (book_ m)) m.

End ops.
End MatchingEngine.
