(* ===== verification/EngineTheorems.v ===== *)
(** * What the matching engine guarantees

    Processing a request keeps the order book invariant and the ownership of the
    orders still waiting in the queue, publishes exactly the trades and the quote
    change it caused, and the worker's batches amount to processing the queued
    requests one by one, in order, until none is left. *)

From S2P Require Import Prelude.
From S2P Require Import Types.
From S2P Require Import ErrorHandling.
From S2P Require Import MemoryPool.
From S2P Require Import OrderPool.
From S2P Require Import PriceLevels.
From S2P Require Import OrderBook.
From S2P Require Import OrderBookSpec.
From S2P Require Import OrderBookInv.
From S2P Require Import OrderBookMatch.
From S2P Require Import OrderBookAdd.
From S2P Require Import OrderBookCancel.
From S2P Require Import OrderBookMaint.
From S2P Require Import OrderBookTheorems.
From S2P Require Import SpscQueue.
From S2P Require Import MpmcQueue.
From S2P Require Import MatchingEngine.
Import OrderBook.
Import MatchingEngine.

(** ** Events *)

Definition push_all (evs : list MarketDataEvent) (c : Ctx) : Ctx :=
  foldl (fun c ev => push_event ev c) c evs.

Lemma push_all_cons ev evs c : push_all (ev :: evs) c = push_all evs (push_event ev c).
Proof. done. Qed.

Definition trade_events (sym : list Z) (ts : list Trade) : list MarketDataEvent :=
  (fun t => mkEvent sym (TRADE t)) <$> ts.

Fixpoint repeat_stats (n : nat) (s : LocalStats) : LocalStats :=
  match n with O => s | S n' => repeat_stats n' (inc_trades s) end.

Lemma push_event_symbol ev c : symbol_cache_ (push_event ev c) = symbol_cache_ c.
Proof.
  unfold push_event. destruct (market_data_queue_ c) as [|q|]; [done| |done].
  by destruct (MPMCQueue.push ev q) as [[[] q']|].
Qed.

Lemma push_event_inc_trades ev c :
  push_event ev (update_stats inc_trades c) = update_stats inc_trades (push_event ev c).
Proof.
  unfold push_event. simpl. destruct (market_data_queue_ c) as [|q|]; [done| |done].
  by destruct (MPMCQueue.push ev q) as [[[] q']|].
Qed.

Lemma push_event_repeat n ev c :
  push_event ev (update_stats (repeat_stats n) c) = update_stats (repeat_stats n) (push_event ev c).
Proof.
  revert c. induction n as [|n IH]; intros c; [by destruct c; simpl; destruct (push_event _ _)|].
  change (update_stats (repeat_stats (S n)) c) with (update_stats (repeat_stats n) (update_stats inc_trades c)).
  by rewrite IH push_event_inc_trades.
Qed.

(** The callback runs as: count all trades, then publish them in order. *)
Lemma on_trades ts c :
  foldl (notify callback) c ts =
  push_all (trade_events (symbol_cache_ c) ts) (update_stats (repeat_stats (length ts)) c).
Proof.
  revert c. induction ts as [|t ts IH]; intros c; [by destruct c|].
  cbn [foldl]. rewrite IH. cbn [notify callback]. unfold on_trade_internal, publish_trade.
  rewrite push_event_symbol. cbn [trade_events fmap list_fmap push_all foldl length symbol_cache_ update_stats].
  f_equal. rewrite -push_event_repeat. done.
Qed.

(** ** The market data queue under a sequence of events *)

Definition drops_by (k : nat) (s s' : LocalStats) : Prop :=
  wrap 64 (md_drops s') = wrap 64 (md_drops s + Z.of_nat k) /\
  total_processed s' = total_processed s /\ orders_accepted s' = orders_accepted s /\
  orders_rejected s' = orders_rejected s /\ cancels_accepted s' = cancels_accepted s /\
  cancels_rejected s' = cancels_rejected s /\ trades_executed s' = trades_executed s /\
  queue_full_count s' = queue_full_count s.

Lemma drops_by_trans j k s1 s2 s3 : drops_by j s1 s2 -> drops_by k s2 s3 -> drops_by (j + k) s1 s3.
Proof.
  intros (H1 & ?) (H2 & ?). split; [|intuition congruence].
  rewrite H2 -wrap_add_l H1 wrap_add_l. f_equal. lia.
Qed.

Lemma push_event_queue ev c q xs n :
  market_data_queue_ c = md_queue q -> MPMCQueue.holds (S n) q xs ->
  exists q', market_data_queue_ (push_event ev c) = md_queue q' /\ MPMCQueue.capacity_ q' = MPMCQueue.capacity_ q /\
    if decide (Z.of_nat (length xs) < MPMCQueue.capacity_ q)
    then MPMCQueue.holds n q' (xs ++ [ev]) /\ drops_by 0 (local_stats_ c) (local_stats_ (push_event ev c))
    else MPMCQueue.holds n q' xs /\ drops_by 1 (local_stats_ c) (local_stats_ (push_event ev c)).
Proof.
  intros Hq (D & E & Hr & Hb). unfold push_event. rewrite Hq.
  pose proof (MPMCQueue.mpmc_push_spec q D E xs ev Hr ltac:(lia)) as Hp. case_decide.
  - destruct Hp as (q' & -> & Hr' & Hc). exists q'. split_and!; [done|done| |].
    + exists D, (E + 1). rewrite Hc. split; [done|lia].
    + split; [by rewrite Z.add_0_r|done].
  - rewrite Hp. exists q. split_and!; [done|done| |].
    + exists D, E. split; [done|lia].
    + split; [|done]. simpl. by autorewrite with wraps.
Qed.

Lemma push_all_queue evs c q xs n :
  market_data_queue_ c = md_queue q -> MPMCQueue.holds (length evs + n) q xs ->
  let room := (Z.to_nat (MPMCQueue.capacity_ q) - length xs)%nat in
  exists q', market_data_queue_ (push_all evs c) = md_queue q' /\ MPMCQueue.capacity_ q' = MPMCQueue.capacity_ q /\
    MPMCQueue.holds n q' (xs ++ take room evs) /\
    drops_by (length evs - room) (local_stats_ c) (local_stats_ (push_all evs c)).
Proof.
  revert c q xs. induction evs as [|ev evs IH]; intros c q xs Hq Hh room.
  { exists q. rewrite take_nil app_nil_r. split_and!; [done..|]. split; [by rewrite Z.add_0_r|done]. }
  destruct (push_event_queue ev c q xs (length evs + n) Hq Hh) as (q1 & Hq1 & Hc1 & Hcase).
  cbn [push_all foldl length]. case_decide as Hd; destruct Hcase as [Hh1 Hdr1].
  - destruct (IH _ _ _ Hq1 Hh1) as (q' & Hq' & Hc' & Hh' & Hdr'). exists q'.
    rewrite Hc1 length_app /= in Hh' Hdr'.
    replace room with (S (Z.to_nat (MPMCQueue.capacity_ q) - (length xs + 1))) by lia.
    split_and!; [done|congruence| |].
    + by rewrite firstn_cons cons_middle app_assoc.
    + exact (drops_by_trans 0 _ _ _ _ Hdr1 Hdr').
  - destruct (IH _ _ _ Hq1 Hh1) as (q' & Hq' & Hc' & Hh' & Hdr'). exists q'.
    rewrite Hc1 in Hh' Hdr'. assert (room = 0%nat) as Hz by lia. fold room in Hh', Hdr'.
    rewrite Hz in Hh' Hdr' |- *. split_and!; [done|congruence| |].
    + rewrite take_0 in Hh' |- *. done.
    + rewrite Nat.sub_0_r in Hdr' |- *. exact (drops_by_trans 1 _ _ _ _ Hdr1 Hdr').
Qed.

(** ** Processing one request *)

Section processing.
Context {P : Type} `{!OrderPool P}.
Variable steady_clock : nat -> Timestamp.
Implicit Types e : env P Ctx.

(** The orders still in the queue: owned by nobody else, not resting, and few
    enough for the 32-bit cursors of the levels. *)
Record pending_ok (ps : list nat) e : Prop := {
  po_nodup : NoDup ps;
  po_owned i : i ∈ ps -> owned (pool e) i;
  po_fresh i : i ∈ ps -> i ∉ all_ptrs (book e);
  po_qty i o : i ∈ ps -> deref (pool e) i = Some o -> 0 <= remaining_quantity o < 2 ^ 64;
  po_weight : Z.of_nat (book_weight (book e) + length ps) < 2 ^ 32
}.

Definition engine_ok (ps : list nat) e : Prop := inv [] e /\ pending_ok ps e.

Lemma small_side d e ps : pending_ok ps e -> small (get_side d (book e)).
Proof.
  intros H. pose proof (po_weight _ _ H). unfold small, book_weight in *. destruct d; simpl; lia.
Qed.

(** Dropping the first pending order after it was processed. *)
Lemma pending_next a ps e e' :
  pending_ok (a :: ps) e ->
  (forall i, i ∈ ps -> i ∈ all_ptrs (book e') -> i = a \/ i ∈ all_ptrs (book e)) ->
  (forall i, i ∈ ps -> i ∉ all_ptrs (book e) -> i <> a ->
     deref (pool e') i = deref (pool e) i /\ (owned (pool e') i <-> owned (pool e) i)) ->
  (book_weight (book e') <= S (book_weight (book e)))%nat -> pending_ok ps e'.
Proof.
  intros [Hnd Hown Hfresh Hq Hw] Hsub Hfr Hwt. apply NoDup_cons in Hnd as [Hna Hnd].
  assert (forall i, i ∈ ps -> i <> a /\ i ∉ all_ptrs (book e)) as Hi.
  { intros i Hin. split; [by intros ->|]. apply Hfresh. by right. }
  split; [done| | | |simpl in Hw; lia].
  - intros i Hin. destruct (Hi i Hin). apply (Hfr i Hin); [done|done|]. apply Hown. by right.
  - intros i Hin Hp. destruct (Hi i Hin) as [Hia Hip]. by destruct (Hsub i Hin Hp).
  - intros i o Hin Ho. destruct (Hi i Hin) as [Hia Hip]. apply (Hq i); [by right|].
    by rewrite -(proj1 (Hfr i Hin Hip Hia)).
Qed.

Lemma with_ctx_inv f e ps : engine_ok ps e -> engine_ok ps (with_ctx f e).
Proof. intros [[] []]. by split; split. Qed.

(** The quote published after a change, if any. *)
Definition bbo_events (sym : list Z) (old_bid old_ask : Price) (b : OrderBook.t) : list MarketDataEvent :=
  if negb (best_bid b =? old_bid) || negb (best_ask b =? old_ask)
  then [mkEvent sym (BBO_UPDATE (mkBBOData (best_bid b) (OrderBook.bid_quantity b) (best_ask b) (OrderBook.ask_quantity b)))]
  else [].

Lemma publish_if_changed_spec old_bid old_ask e :
  publish_if_changed old_bid old_ask e =
  with_ctx (push_all (bbo_events (symbol_cache_ (ctx e)) old_bid old_ask (book e))) e.
Proof. unfold publish_if_changed, bbo_events. destruct (_ || _); by destruct e. Qed.

Lemma push_all_symbol evs c : symbol_cache_ (push_all evs c) = symbol_cache_ c.
Proof. revert c. induction evs as [|ev evs IH]; intros c; [done|].
  by rewrite push_all_cons IH push_event_symbol. Qed.

Lemma push_all_app evs1 evs2 c : push_all (evs1 ++ evs2) c = push_all evs2 (push_all evs1 c).
Proof. apply foldl_app. Qed.

Lemma push_event_inc_accepted ev c :
  push_event ev (update_stats inc_accepted c) = update_stats inc_accepted (push_event ev c).
Proof.
  unfold push_event. simpl. destruct (market_data_queue_ c) as [|q|]; [done| |done].
  by destruct (MPMCQueue.push ev q) as [[[] q']|].
Qed.

Lemma push_all_inc_accepted evs c :
  push_all evs (update_stats inc_accepted c) = update_stats inc_accepted (push_all evs c).
Proof.
  revert c. induction evs as [|ev evs IH]; intros c; [done|].
  by rewrite !push_all_cons push_event_inc_accepted IH.
Qed.

(** What processing a new order does. *)
Definition new_order_effect (a : nat) (o : Order) e e' : Prop :=
  (acceptable a o e /\
   exists fs b', Spec.add (is_market (type o)) (is_buy (side o)) (resting_of o) (abs e) = (fs, b') /\
     abs e' = b' /\ owned (pool e') a /\
     ctx e' = push_all
       (trade_events (symbol_cache_ (ctx e))
          (trades_of steady_clock o (symbol_ (book e)) (ticks e) (next_trade_id_ (book e)) fs) ++
        bbo_events (symbol_cache_ (ctx e)) (best_bid (book e)) (best_ask (book e)) (book e'))
       (update_stats inc_accepted (update_stats (repeat_stats (length fs)) (ctx e)))) \/
  (~ acceptable a o e /\ book e' = book e /\ ~ owned (pool e') a /\
   ctx e' = update_stats inc_rejected (ctx e)).

Lemma length_trades_of o sym n tid fs : length (trades_of steady_clock o sym n tid fs) = length fs.
Proof. revert n tid. induction fs as [|f fs IH]; intros n tid; simpl; [done|]. by rewrite IH. Qed.

Lemma process_new_order_accepted a o ps e :
  engine_ok (a :: ps) e -> acceptable a o e ->
  exists e', process_new_order steady_clock (Some a) e = Some e' /\ engine_ok ps e' /\
    new_order_effect a o e e'.
Proof.
  intros [Hinv Hp] Hac.
  pose proof (add_order_spec steady_clock callback a o e Hinv Hac) as Hspec.
  destruct (Spec.add _ _ _ _) as [fs b'] eqn:Hadd. destruct Hspec as (e1 & He & Hres).
  unfold process_new_order. rewrite He. cbn [mbind option_bind has_value].
  rewrite publish_if_changed_spec. eexists. split; [reflexivity|]. split.
  - apply with_ctx_inv, with_ctx_inv. split; [apply (ar_inv _ _ _ _ _ _ _ _ Hres)|].
    eapply pending_next; [exact Hp| | |apply (ar_weight _ _ _ _ _ _ _ _ Hres)].
    + intros i _. apply (ar_sub _ _ _ _ _ _ _ _ Hres).
    + intros i _. apply (ar_frame _ _ _ _ _ _ _ _ Hres).
  - left. split; [done|]. exists fs, b'.
    split_and!; [done|by rewrite -(ar_abs _ _ _ _ _ _ _ _ Hres)|apply (ar_owned _ _ _ _ _ _ _ _ Hres)|].
    cbn [with_ctx ctx book update_stats symbol_cache_]. rewrite (ar_ctx _ _ _ _ _ _ _ _ Hres).
    rewrite on_trades push_all_symbol length_trades_of push_all_app. cbn [update_stats symbol_cache_].
    f_equal. change (mkCtx _ _ _) with (update_stats inc_accepted
      (push_all (trade_events (symbol_cache_ (ctx e))
        (trades_of steady_clock o (symbol_ (book e)) (ticks e) (next_trade_id_ (book e)) fs))
        (update_stats (repeat_stats (length fs)) (ctx e)))).
    by rewrite push_all_inc_accepted.
Qed.

Lemma process_new_order_rejected a o ps e :
  engine_ok (a :: ps) e -> deref (pool e) a = Some o -> ~ acceptable a o e ->
  exists e', process_new_order steady_clock (Some a) e = Some e' /\ engine_ok ps e' /\
    new_order_effect a o e e'.
Proof.
  intros [Hinv Hp] Ho Hno. assert (owned (pool e) a) as Hown by (apply (po_owned _ _ Hp); left).
  destruct (add_order_total steady_clock callback e a o Hinv Hown) as (r & e1 & He & Hr & _);
    [apply (po_fresh _ _ Hp); left|done|by apply (po_qty _ _ Hp a); [left|]|by eapply small_side|].
  destruct r as [u|c]; [done|]. destruct Hr as [-> _].
  unfold process_new_order. rewrite He. cbn [mbind option_bind has_value].
  cbn [with_ctx pool]. rewrite (modify_some _ _ _ _ Ho). cbn [mbind option_bind].
  destruct (deallocate_owned (store a (set_status REJECTED o) (pool e)) a) as (p' & -> & Hok & Hde & Hw);
    [apply pool_ok_store, (inv_pool _ _ Hinv)|by apply owned_store|].
  cbn [mbind option_bind]. eexists. split; [reflexivity|].
  assert (forall i, i <> a -> deref p' i = deref (pool e) i /\ (owned p' i <-> owned (pool e) i)) as Hfr.
  { intros i Hia. rewrite Hde Hw owned_store deref_store_ne //. tauto. }
  split; [split|].
  - change (inv [] (with_pool p' (with_ctx (update_stats inc_rejected) e))). apply inv_with_pool; [| |done].
    + by apply (with_ctx_inv _ _ (a :: ps)).
    + intros i Hi. assert (i <> a) as Hia.
      { intros ->. exact (po_fresh _ _ Hp a ltac:(left) Hi). }
      destruct (Hfr i Hia) as [H1 H2]. split; [done|apply H2].
  - eapply pending_next; [exact Hp|by right|intros i _ _; apply Hfr|simpl; lia].
  - right. split_and!; [done|done| |done]. simpl. rewrite Hw. by intros [_ ?].
Qed.

Lemma process_new_order_spec a o ps e :
  engine_ok (a :: ps) e -> deref (pool e) a = Some o ->
  exists e', process_new_order steady_clock (Some a) e = Some e' /\ engine_ok ps e' /\
    new_order_effect a o e e'.
Proof.
  intros Hok Ho. destruct Hok as [Hinv Hp].
  destruct (add_order_total steady_clock callback e a o Hinv) as (r & e1 & He & Hr & _);
    [apply (po_owned _ _ Hp); left|apply (po_fresh _ _ Hp); left|done|
     by apply (po_qty _ _ Hp a); [left|]|by eapply small_side|].
  destruct r; [by apply process_new_order_accepted|].
  apply process_new_order_rejected; [done|done|by destruct Hr].
Qed.

(** What processing a cancel does. *)
Definition cancel_effect (k : OrderID) e e' : Prop :=
  (exists a, order_lookup_ (book e) !! k = Some a /\ shutdown_requested_ (book e) = false /\
     abs e' = Spec.cancel k (abs e) /\ ~ owned (pool e') a /\
     ctx e' = push_all (bbo_events (symbol_cache_ (ctx e)) (best_bid (book e)) (best_ask (book e)) (book e'))
       (update_stats inc_cancels_accepted (ctx e))) \/
  ((order_lookup_ (book e) !! k = None \/ shutdown_requested_ (book e) = true) /\
   book e' = book e /\ pool e' = pool e /\ ctx e' = update_stats inc_cancels_rejected (ctx e)).

Lemma process_cancel_spec k cl ps e :
  engine_ok ps e ->
  exists e', process_cancel k cl e = Some e' /\ engine_ok ps e' /\ cancel_effect k e e'.
Proof.
  intros [Hinv Hp]. destruct (cancel_order_total e k Hinv) as (r & e1 & He & Hr & Hinv1).
  unfold process_cancel. rewrite He. cbn [mbind option_bind]. destruct r as [u|c]; cbn [has_value].
  - destruct Hr as (a & Hk & Hres). rewrite publish_if_changed_spec.
    pose proof (inv_tracked _ _ Hinv) as Ht. rewrite app_nil_r in Ht. apply Ht in Hk as Hk'.
    destruct Hk' as [Hin _].
    eexists. split; [reflexivity|]. split.
    + apply with_ctx_inv, with_ctx_inv. split; [done|]. destruct Hp as [Hnd Hown Hfresh Hq Hw].
      assert (forall i, i ∈ ps -> i <> a) as Hia by (intros i Hi ->; by apply (Hfresh a)).
      split; [done| | | |].
      * intros i Hi. apply (cr_owned _ _ _ _ Hres). split; [by apply Hown|by apply Hia].
      * intros i Hi Hin'. by apply (Hfresh i Hi), (cr_sub _ _ _ _ Hres).
      * intros i o Hi. rewrite (cr_deref _ _ _ _ Hres); [by apply Hia|]. by apply Hq.
      * pose proof (cr_weight _ _ _ _ Hres). lia.
    + left. exists a. split_and!; [done| |apply (cr_abs _ _ _ _ Hres)| |].
      * unfold OrderBook.cancel_order in He. by destruct (shutdown_requested_ (book e)).
      * cbn. rewrite (cr_owned _ _ _ _ Hres). by intros [_ ?].
      * cbn [with_ctx ctx book]. rewrite (cr_ctx _ _ _ _ Hres). done.
  - destruct Hr as [-> Hr]. eexists. split; [reflexivity|]. split; [by apply with_ctx_inv|].
    right. split_and!; [destruct Hr; auto|done|done|done].
Qed.

End processing.

(** ** Batches *)

Section batches.
Context {P : Type} `{!OrderPool P}.
Variable steady_clock : nat -> Timestamp.
Implicit Types e : env P Ctx.
Implicit Types m : MatchingEngine.t P.

Definition new_ptrs (reqs : list OrderRequest) : list nat :=
  omap (fun r => match r with NEW_ORDER order => order | CANCEL_ORDER _ _ => None end) reqs.

Lemma dispatch_spec r reqs e :
  engine_ok (new_ptrs (r :: reqs)) e ->
  exists e', dispatch steady_clock r e = Some e' /\ engine_ok (new_ptrs reqs) e'.
Proof.
  intros Hok. destruct r as [[a|]|k cl]; simpl in *.
  - destruct Hok as [Hinv Hp].
    destruct (owned_deref (pool e) a (inv_pool _ _ Hinv)) as [o Ho]; [apply (po_owned _ _ Hp); left|].
    destruct (process_new_order_spec steady_clock a o (new_ptrs reqs) e (conj Hinv Hp) Ho) as (e' & He & Hok & _).
    eauto.
  - eauto.
  - destruct (process_cancel_spec k cl _ e Hok) as (e' & He & Hok' & _). eauto.
Qed.

(** The requests [reqs], processed one after the other; the worker adds to its
    count of processed requests now and then. *)
Inductive worked : list OrderRequest -> env P Ctx -> env P Ctx -> Prop :=
  | worked_nil e : worked [] e e
  | worked_request r reqs e e1 e2 :
      dispatch steady_clock r e = Some e1 -> worked reqs e1 e2 -> worked (r :: reqs) e e2
  | worked_count n reqs e e2 :
      worked reqs (with_ctx (update_stats (add_processed n)) e) e2 -> worked reqs e e2.

Lemma worked_app reqs1 reqs2 e e1 e2 :
  worked reqs1 e e1 -> worked reqs2 e1 e2 -> worked (reqs1 ++ reqs2) e e2.
Proof.
  induction 1 as [e|r reqs e e1' e2' He _ IH|n reqs e e2' _ IH]; intros H2; [done| |].
  - simpl. eapply worked_request; eauto.
  - eapply worked_count; eauto.
Qed.

Lemma drain_loop_spec left count m reqs :
  SPSCQueue.holds (input_queue_ m) reqs -> engine_ok (new_ptrs reqs) (book_ m) ->
  let k := Nat.min left (length reqs) in
  exists e' q', drain_loop steady_clock left count m = Some ((count + k)%nat, with_env e' (with_queue q' m)) /\
    worked (take k reqs) (book_ m) e' /\ SPSCQueue.holds q' (drop k reqs) /\
    engine_ok (new_ptrs (drop k reqs)) e'.
Proof.
  revert count m reqs. induction left as [|left IH]; intros count m reqs Hh Hok k.
  - exists (book_ m), (input_queue_ m). simpl. rewrite Nat.add_0_r. split_and!; [by destruct m|constructor|done|done].
  - destruct Hh as (T0 & H & Hr). pose proof (SPSCQueue.pop_spec _ _ _ _ Hr) as Hp. cbn [drain_loop].
    destruct reqs as [|r reqs]; destruct Hp as (q' & Hq & Hr'); rewrite Hq; cbn [mbind option_bind].
    + exists (book_ m), q'. simpl. rewrite Nat.add_0_r. split_and!; [by destruct m|constructor| |done].
      by exists T0, H.
    + destruct (dispatch_spec r reqs (book_ m) Hok) as (e1 & He1 & Hok1). simpl book_. rewrite He1.
      cbn [mbind option_bind].
      destruct (IH (S count) (with_env e1 (with_queue q' m)) reqs) as (e' & q2 & Hd & Hw & Hh2 & Hok2);
        [by exists (T0 + 1), H|done|].
      exists e', q2. rewrite Hd. subst k. simpl. split_and!; [by rewrite Nat.add_succ_r| |done|done].
      by eapply worked_request.
Qed.

Lemma drain_batch_spec m reqs :
  SPSCQueue.holds (input_queue_ m) reqs -> engine_ok (new_ptrs reqs) (book_ m) ->
  let k := Nat.min BATCH_SIZE (length reqs) in
  exists e' q', drain_batch steady_clock m = Some (k, with_env e' (with_queue q' m)) /\
    worked (take k reqs) (book_ m) e' /\ SPSCQueue.holds q' (drop k reqs) /\
    engine_ok (new_ptrs (drop k reqs)) e'.
Proof.
  intros Hh Hok k. destruct (drain_loop_spec BATCH_SIZE 0 m reqs Hh Hok) as (e' & q' & Hd & Hw & Hh' & Hok').
  unfold drain_batch. rewrite Hd. cbn [mbind option_bind].
  exists (with_ctx (update_stats (add_processed (Z.of_nat k))) e'), q'. split_and!; [done| |done|by apply with_ctx_inv].
  rewrite -(app_nil_r (take k reqs)). eapply worked_app; [exact Hw|]. eapply worked_count, worked_nil.
Qed.

(** Everything but the book and the queue. *)
Definition same_atomics m m' : Prop :=
  orders_processed_ m' = orders_processed_ m /\ trades_executed_ m' = trades_executed_ m /\
  orders_rejected_ m' = orders_rejected_ m /\ md_drops_ m' = md_drops_ m /\ running_ m' = running_ m.

Lemma drain_remaining_spec fuel m reqs :
  SPSCQueue.holds (input_queue_ m) reqs -> engine_ok (new_ptrs reqs) (book_ m) ->
  (length reqs < fuel)%nat ->
  exists m', drain_remaining steady_clock fuel m = Some m' /\ worked reqs (book_ m) (book_ m') /\
    SPSCQueue.holds (input_queue_ m') [] /\ engine_ok [] (book_ m') /\ same_atomics m m'.
Proof.
  revert m reqs. induction fuel as [|fuel IH]; intros m reqs Hh Hok Hf; [lia|].
  destruct (drain_batch_spec m reqs Hh Hok) as (e' & q' & Hd & Hw & Hh' & Hok').
  cbn [drain_remaining]. rewrite Hd. cbn [mbind option_bind].
  destruct (Nat.min BATCH_SIZE (length reqs)) as [|k] eqn:Ek.
  - assert (reqs = []) as -> by (destruct reqs; [done|simpl in Ek; lia]).
    eexists. split; [reflexivity|]. rewrite drop_nil in Hh' Hok'. by rewrite take_nil in Hw.
  - destruct (IH (with_env e' (with_queue q' m)) (drop (S k) reqs) Hh' Hok') as (m' & Hr & Hw' & Hh2 & Hok2 & Hs).
    { rewrite length_drop. lia. }
    exists m'. split_and!; [done| |done|done|done].
    rewrite -(take_drop (S k) reqs). by eapply worked_app.
Qed.

Lemma holds_size (q : SPSCQueue.t OrderRequest) reqs :
  SPSCQueue.holds q reqs -> Z.to_nat (SPSCQueue.size q) = length reqs.
Proof. intros (T0 & H & Hr). destruct (SPSCQueue.repr_size _ _ _ _ Hr) as [-> _]. lia. Qed.

Lemma maintain_ok m ps : engine_ok ps (book_ m) -> engine_ok ps (book_ (maybe_compact m)).
Proof.
  intros [Hinv Hp]. unfold maybe_compact. destruct (processed_mod m COMPACT_INTERVAL); [|done]. simpl.
  pose proof (inv_compact _ _ Hinv) as Hc. pose proof (prune_inv [] _ Hc) as Hpr. cbn [book with_book] in Hpr.
  rewrite Hpr. split; [done|]. destruct Hp as [Hnd Hown Hfresh Hq Hw]. split; try done.
  - intros i Hi. change (i ∉ all_ptrs (compact (book (book_ m)))). rewrite all_ptrs_compact. by apply Hfresh.
  - pose proof (compact_weight (book (book_ m))). simpl. lia.
Qed.

End batches.

(** ** Guarantees *)

Section guarantees.
Context {P : Type} `{!OrderPool P}.
Variable steady_clock : nat -> Timestamp.
Implicit Types e : env P Ctx.
Implicit Types m : MatchingEngine.t P.

(** C17: Processing a new order is safe on every order waiting in the queue: an
    acceptable one has the effect of the abstract book, any other is marked
    rejected and its slot is freed; the remaining orders stay valid, and exactly
    one of the two counters advances. *)
Theorem process_new_order_effect a o ps e :
  engine_ok (a :: ps) e -> deref (pool e) a = Some o ->
  exists e', process_new_order steady_clock (Some a) e = Some e' /\ engine_ok ps e' /\
    new_order_effect steady_clock a o e e'.
Proof. apply process_new_order_spec. Qed.

(** The market data queue receives, in order, one trade event per fill of an
    accepted order and then one quote event exactly if the best bid or the best
    ask moved; events that find the queue full are counted as dropped and nothing
    else changes. *)
Theorem process_new_order_events a o ps e fs b' :
  engine_ok (a :: ps) e -> acceptable a o e ->
  Spec.add (is_market (type o)) (is_buy (side o)) (resting_of o) (abs e) = (fs, b') ->
  exists e', process_new_order steady_clock (Some a) e = Some e' /\ abs e' = b' /\
    let evs := trade_events (symbol_cache_ (ctx e))
        (trades_of steady_clock o (symbol_ (book e)) (ticks e) (next_trade_id_ (book e)) fs) ++
      bbo_events (symbol_cache_ (ctx e)) (best_bid (book e)) (best_ask (book e)) (book e') in
    forall q xs n, market_data_queue_ (ctx e) = md_queue q -> MPMCQueue.holds (length evs + n) q xs ->
    exists q', market_data_queue_ (ctx e') = md_queue q' /\
      let room := (Z.to_nat (MPMCQueue.capacity_ q) - length xs)%nat in
      MPMCQueue.holds n q' (xs ++ take room evs) /\
      wrap 64 (md_drops (local_stats_ (ctx e'))) =
        wrap 64 (md_drops (local_stats_ (ctx e)) + Z.of_nat (length evs - room)).
Proof.
  intros Hok Hac Hadd. destruct (process_new_order_accepted steady_clock a o ps e Hok Hac) as (e' & He & _ & Heff).
  destruct Heff as [(_ & fs1 & b1 & Hadd1 & Hb & _ & Hctx)|[Hno _]]; [|done].
  rewrite Hadd in Hadd1. simplify_eq. exists e'. split_and!; [done|done|]. intros evs q xs n Hq Hh.
  assert (forall k s, md_drops (repeat_stats k s) = md_drops s) as Hrep.
  { intros k. induction k as [|k IH]; intros s; [done|]. simpl. by rewrite IH. }
  destruct (push_all_queue evs (update_stats inc_accepted (update_stats (repeat_stats (length fs1)) (ctx e))) q xs n)
    as (q' & Hq' & _ & Hh' & (Hd & _)); [done|done|].
  exists q'. rewrite Hctx. split; [done|]. cbn zeta. split; [done|]. rewrite Hd. simpl. by rewrite Hrep.
Qed.

(** Processing a cancel is safe, removes the order if it rests, frees its slot
    and publishes a quote exactly if the best bid or ask moved; an unknown id
    changes nothing but the count of rejected cancels.  The client id of the
    request plays no role. *)
Theorem process_cancel_effect k ps e :
  engine_ok ps e ->
  exists e', (forall other, process_cancel k other e = Some e') /\ engine_ok ps e' /\ cancel_effect k e e'.
Proof.
  intros Hok. destruct (process_cancel_spec k (FixedString.init CLIENT_N) ps e Hok) as (e' & He & H). by exists e'.
Qed.

(** A batch takes the oldest requests, at most 256, processes them in the
    order they were submitted, leaves the others queued, and never touches freed
    or foreign memory. *)
Theorem drain_batch_in_order m reqs :
  SPSCQueue.holds (input_queue_ m) reqs -> engine_ok (new_ptrs reqs) (book_ m) ->
  let k := Nat.min BATCH_SIZE (length reqs) in
  exists m', drain_batch steady_clock m = Some (k, m') /\
    worked steady_clock (take k reqs) (book_ m) (book_ m') /\
    SPSCQueue.holds (input_queue_ m') (drop k reqs) /\ engine_ok (new_ptrs (drop k reqs)) (book_ m').
Proof.
  intros Hh Hok k. destruct (drain_batch_spec steady_clock m reqs Hh Hok) as (e' & q' & Hd & Hw & Hh' & Hok').
  by exists (with_env e' (with_queue q' m)).
Qed.

(** C18: [stop] terminates: every queued request is processed, in order, before the
    worker exits, the queue is empty, the published counters are the local ones,
    and a second [stop] does nothing. *)
Theorem stop_drains_all m reqs :
  running_ m = true -> SPSCQueue.holds (input_queue_ m) reqs -> engine_ok (new_ptrs reqs) (book_ m) ->
  exists m', stop steady_clock m = Some m' /\ worked steady_clock reqs (book_ m) (book_ m') /\
    SPSCQueue.holds (input_queue_ m') [] /\ engine_ok [] (book_ m') /\
    orders_processed_ m' = orders_accepted (local_stats_ (ctx (book_ m'))) /\
    trades_executed_ m' = trades_executed (local_stats_ (ctx (book_ m'))) /\
    orders_rejected_ m' = orders_rejected (local_stats_ (ctx (book_ m'))) /\
    stop steady_clock m' = Some m'.
Proof.
  intros Hrun Hh Hok. unfold stop at 1. rewrite Hrun. unfold run_exit. cbn [input_queue_].
  rewrite (holds_size _ _ Hh).
  match goal with |- context [drain_remaining _ _ ?x] => set (m0 := x) end.
  destruct (drain_remaining_spec steady_clock (S (length reqs)) m0 reqs) as (m1 & Hd & Hw & Hh1 & Hok1 & Hs);
    [done|done|lia|].
  rewrite Hd. cbn [mbind option_bind]. eexists. split; [reflexivity|]. split_and!; try done.
  unfold stop. simpl. destruct Hs as (_ & _ & _ & _ & ->). done.
Qed.

(** A round of the worker publishes its counters only when the number of
    requests processed so far is a multiple of 4096; otherwise the counters
    other threads read keep their old values. *)
Theorem run_round_publishes m reqs :
  reqs <> [] -> SPSCQueue.holds (input_queue_ m) reqs -> engine_ok (new_ptrs reqs) (book_ m) ->
  exists m', run_round steady_clock m = Some m' /\
    engine_ok (new_ptrs (drop (Nat.min BATCH_SIZE (length reqs)) reqs)) (book_ m') /\
    let s := local_stats_ (ctx (book_ m')) in
    if total_processed s mod 4096 =? 0
    then orders_processed_ m' = orders_accepted s /\ trades_executed_ m' = trades_executed s
    else same_atomics m m'.
Proof.
  intros Hne Hh Hok. destruct (drain_batch_spec steady_clock m reqs Hh Hok) as (e' & q' & Hd & _ & _ & Hok').
  unfold run_round. rewrite Hd. cbn [mbind option_bind].
  rewrite (proj2 (Nat.ltb_lt _ _)); [destruct reqs; [done|unfold BATCH_SIZE; simpl; lia]|].
  eexists. split; [reflexivity|]. set (m1 := with_env e' (with_queue q' m)) in *.
  pose proof (maintain_ok m1 _ Hok') as Hok2.
  assert (same_atomics m (maybe_compact m1)) as Hs by (unfold maybe_compact; by destruct (processed_mod _ _)).
  unfold maybe_flush_stats, processed_mod, STATS_FLUSH_INTERVAL.
  destruct (total_processed (local_stats_ (ctx (book_ (maybe_compact m1)))) mod 4096 =? 0) eqn:E;
    (split; [done|]); cbn [flush_stats book_]; cbn zeta; rewrite E; done.
Qed.

(** [submit_order] refuses a null order, otherwise appends the request if the
    queue has room and reports failure, changing only the overflow counter, if it
    has none. *)
Theorem submit_order_fifo order m reqs :
  SPSCQueue.holds (input_queue_ m) reqs ->
  match order with
  | None => submit_order order m = (false, m)
  | Some _ =>
      exists m', submit_order order m = (bool_decide (Z.of_nat (length reqs) < SPSCQueue.capacity_ (input_queue_ m)), m') /\
        same_atomics m m' /\ book (book_ m') = book (book_ m) /\ pool (book_ m') = pool (book_ m) /\
        SPSCQueue.holds (input_queue_ m')
          (if decide (Z.of_nat (length reqs) < SPSCQueue.capacity_ (input_queue_ m))
           then reqs ++ [NEW_ORDER order] else reqs)
  end.
Proof.
  intros (T0 & H & Hr). destruct order as [a|]; [|done]. unfold submit_order, submit.
  pose proof (SPSCQueue.push_spec _ _ _ _ (make_new_order (Some a)) Hr) as Hp.
  case_decide as Hd; destruct Hp as (q' & -> & Hr').
  - eexists. rewrite bool_decide_eq_true_2 //. split; [reflexivity|]. split_and!; try done. by exists T0, (H + 1).
  - eexists. rewrite bool_decide_eq_false_2 //. split; [reflexivity|]. split_and!; try done. by exists T0, H.
Qed.

End guarantees.

(** ** A concrete engine

    Two orders wait in the queue of a running engine; the market data queue has
    two cells. *)

Section example.

Definition ex_md : MPMCQueue.t MarketDataEvent :=
  match MPMCQueue.make (mkEvent [] (TRADE Trade_default)) 2 with
  | Some q => q
  | None => MPMCQueue.mk 0 0 [] 0 0
  end.

Definition ex_ctx : Ctx := mkCtx LocalStats_zero (md_queue ex_md) (make_symbol_cache ex_symbol).

Definition ex_requests : list OrderRequest := [NEW_ORDER (Some 0%nat); NEW_ORDER (Some 1%nat)].

Definition ex_queue : SPSCQueue.t OrderRequest :=
  match SPSCQueue.make OrderRequest_default 4 with
  | Some q => snd (SPSCQueue.push (NEW_ORDER (Some 1%nat)) (snd (SPSCQueue.push (NEW_ORDER (Some 0%nat)) q)))
  | None => SPSCQueue.mk 1 0 [OrderRequest_default] 0 0 0 0
  end.

Abbreviation ex_engine_env := (env (MemoryPool.t Order) Ctx).

Definition ex_engine_start : ex_engine_env := mkenv (OrderBook.make ex_symbol) ex_pool ex_ctx 0.
Definition ex_engine : MatchingEngine.t (MemoryPool.t Order) := mk ex_queue ex_engine_start 0 0 0 0 true.

Lemma ex_queue_holds : SPSCQueue.holds ex_queue ex_requests.
Proof.
  unfold ex_queue. destruct (SPSCQueue.make_repr OrderRequest_default 4) as (q & -> & Hr & Hc); [lia|].
  pose proof (SPSCQueue.push_spec q 0 0 [] (NEW_ORDER (Some 0%nat)) Hr) as Hp.
  rewrite decide_True in Hp; [simpl; lia|]. destruct Hp as (q1 & Hq1 & Hr1).
  pose proof (SPSCQueue.push_spec q1 0 1 [NEW_ORDER (Some 0%nat)] (NEW_ORDER (Some 1%nat)) Hr1) as Hp.
  assert (SPSCQueue.capacity_ q1 = SPSCQueue.capacity_ q) as Hc1.
  { unfold SPSCQueue.push in Hq1. cbn zeta in Hq1. repeat case_match; by simplify_eq/=. }
  rewrite decide_True in Hp; [rewrite Hc1; simpl; lia|]. destruct Hp as (q2 & Hq2 & Hr2).
  rewrite Hq1. cbn [snd]. rewrite Hq2. by exists 0, 2.
Qed.

Lemma ex_engine_ok : engine_ok [0%nat; 1%nat] ex_engine_start.
Proof.
  split; [apply inv_make, ex_pool_ok|]. split.
  - apply NoDup_cons. split; [by intros ?%list_elem_of_singleton|]. apply NoDup_singleton.
  - intros i [->| ->%list_elem_of_singleton]%elem_of_cons; vm_compute; reflexivity.
  - intros i _. apply not_elem_of_nil.
  - intros i o [->| ->%list_elem_of_singleton]%elem_of_cons Ho; vm_compute in Ho;
      injection Ho as <-; vm_compute; by split.
  - vm_compute. reflexivity.
Qed.

Lemma ex_engine_acceptable : acceptable 0 (ex_order 1 SELL LIMIT 10 100) ex_engine_start.
Proof. ex_acceptable. Qed.

Lemma process_new_order_effect_witness :
  exists e', process_new_order ex_clock (Some 0%nat) ex_engine_start = Some e' /\ engine_ok [1%nat] e'.
Proof.
  destruct (process_new_order_effect ex_clock 0 (ex_order 1 SELL LIMIT 10 100) [1%nat] ex_engine_start ex_engine_ok)
    as (e' & He & Hok & _); [vm_compute; reflexivity|].
  exists e'. split; [exact He|exact Hok].
Defined.

Lemma process_new_order_events_witness :
  exists e', process_new_order ex_clock (Some 0%nat) ex_engine_start = Some e' /\
    abs e' = Spec.mkbook [] [Spec.mkResting 1 100 10].
Proof.
  destruct (process_new_order_events ex_clock 0 (ex_order 1 SELL LIMIT 10 100) [1%nat] ex_engine_start []
    (Spec.mkbook [] [Spec.mkResting 1 100 10]) ex_engine_ok ex_engine_acceptable)
    as (e' & He & Ha & _); [vm_compute; reflexivity|].
  exists e'. split; [exact He|exact Ha].
Defined.

Lemma process_cancel_effect_witness :
  exists e', process_cancel 9 (FixedString.init CLIENT_N) ex_engine_start = Some e' /\ engine_ok [0%nat; 1%nat] e'.
Proof.
  destruct (process_cancel_effect 9 [0%nat; 1%nat] ex_engine_start ex_engine_ok) as (e' & He & Hok & _).
  exists e'. split; [apply He|exact Hok].
Defined.

Lemma drain_batch_in_order_witness :
  exists m', drain_batch ex_clock ex_engine = Some (2%nat, m') /\ SPSCQueue.holds (input_queue_ m') [].
Proof.
  destruct (drain_batch_in_order ex_clock ex_engine ex_requests ex_queue_holds ex_engine_ok) as (m' & Hd & _ & Hh & _).
  exists m'. split; [exact Hd|exact Hh].
Defined.

Lemma stop_drains_all_witness :
  exists m', stop ex_clock ex_engine = Some m' /\ engine_ok [] (book_ m').
Proof.
  destruct (stop_drains_all ex_clock ex_engine ex_requests eq_refl ex_queue_holds ex_engine_ok)
    as (m' & Hs & _ & _ & Hok & _). exists m'. split; [exact Hs|exact Hok].
Defined.

Lemma run_round_publishes_witness : exists m', run_round ex_clock ex_engine = Some m'.
Proof.
  destruct (run_round_publishes ex_clock ex_engine ex_requests) as (m' & Hr & _);
    [discriminate|exact ex_queue_holds|exact ex_engine_ok|].
  exists m'. exact Hr.
Defined.

Lemma submit_order_fifo_witness :
  exists m', submit_order (Some 2%nat) ex_engine = (true, m') /\
    SPSCQueue.holds (input_queue_ m') (ex_requests ++ [NEW_ORDER (Some 2%nat)]).
Proof.
  destruct (submit_order_fifo (Some 2%nat) ex_engine ex_requests ex_queue_holds) as (m' & Hs & _ & _ & _ & Hh).
  exists m'. split; [exact Hs|]. exact Hh.
Defined.

End example.
