(* ===== verification/Double.v ===== *)
(** * Doubles

    [double] is IEEE 754 binary64 with round to nearest even, through the
    specification of floating-point arithmetic of the standard library; converting
    a value outside the range of the target integer is undefined ([None]). *)

From Stdlib Require Import SpecFloat.
From S2P Require Import Prelude.
From S2P Require Import Types.

Definition double := spec_float.

Definition double_of_Z (z : Z) : double := binary_normalize 53 1024 z 0 false.
Definition double_half : double := S754_finite false 4503599627370496 (-53).

Definition double_mul (x y : double) : double := SFmul 53 1024 x y.
Definition double_add (x y : double) : double := SFadd 53 1024 x y.
Definition double_div (x y : double) : double := SFdiv 53 1024 x y.
Definition double_lt (x y : double) : bool := SFltb x y.
Definition double_le (x y : double) : bool := SFleb x y.

(** [static_cast<uint64_t>]: truncation towards zero. *)
Definition trunc_u64 (d : double) : option Z :=
  match d with
  | S754_zero _ => Some 0
  | S754_finite s m e =>
      let v := if 0 <=? e then Zpos m * 2 ^ e else Zpos m / 2 ^ (- e) in
      if s then (if v =? 0 then Some 0 else None)
      else if v <? 2 ^ 64 then Some v else None
  | _ => None
  end.

(** ** types.hpp: prices *)

Definition price_from_double (p : double) : option Price :=
  trunc_u64 (double_add (double_mul p (double_of_Z PRICE_SCALE)) double_half).
Definition price_to_double (p : Price) : double :=
  double_div (double_of_Z p) (double_of_Z PRICE_SCALE).

(** A truncated double is in range. *)
Lemma trunc_u64_range d v : trunc_u64 d = Some v -> 0 <= v < 2 ^ 64.
Proof.
  destruct d as [s|s| |s m e]; unfold trunc_u64; [by intros [= <-]|done|done|]. cbn zeta.
  assert (0 <= if 0 <=? e then Zpos m * 2 ^ e else Zpos m / 2 ^ (- e)) as Hnn.
  { destruct (Z.leb_spec 0 e); [apply Z.mul_nonneg_nonneg; [done|by apply Z.pow_nonneg]|].
    apply Z.div_pos; [lia|]. apply Z.pow_pos_nonneg; lia. }
  generalize dependent (if 0 <=? e then Zpos m * 2 ^ e else Zpos m / 2 ^ (- e)). intros x Hx.
  destruct s; zbool; intros [= <-]; lia.
Qed.

(** ** The order of doubles
    A double that is a number has a rank; the comparisons are those of ranks. *)

Definition is_number (d : double) : bool := match d with S754_nan => false | _ => true end.

Definition rank (d : double) : Z * Z * Z :=
  match d with
  | S754_infinity true => (-2, 0, 0)
  | S754_finite true m e => (-1, - e, - Zpos m)
  | S754_zero _ => (0, 0, 0)
  | S754_finite false m e => (1, e, Zpos m)
  | S754_infinity false => (2, 0, 0)
  | S754_nan => (0, 0, 0)
  end.

Definition rank_lt (a b : Z * Z * Z) : Prop :=
  a.1.1 < b.1.1 \/ a.1.1 = b.1.1 /\ (a.1.2 < b.1.2 \/ a.1.2 = b.1.2 /\ a.2 < b.2).

Lemma compare_rank x y : is_number x = true -> is_number y = true ->
  match SFcompare x y with
  | Some Lt => rank_lt (rank x) (rank y)
  | Some Eq => rank x = rank y
  | Some Gt => rank_lt (rank y) (rank x)
  | None => False
  end.
Proof.
  destruct x as [sx|[]| |[] mx ex], y as [sy|[]| |[] my ey]; intros Hx Hy; try done; cbn [SFcompare rank];
    try (unfold rank_lt; simpl; lia).
  - change (Pos.compare_cont Eq mx my) with (mx ?= my)%positive. unfold rank_lt; simpl.
    destruct (Z.compare_spec ex ey) as [->| |]; [|lia..].
    destruct (Pos.compare_spec mx my) as [->| |]; simpl; [done|lia..].
  - change (Pos.compare_cont Eq mx my) with (mx ?= my)%positive. unfold rank_lt; simpl.
    destruct (Z.compare_spec ex ey) as [->| |]; [|lia..].
    destruct (Pos.compare_spec mx my) as [->| |]; simpl; [done|lia..].
Qed.

Lemma rank_lt_irrefl a b : rank_lt a b -> a <> b.
Proof. intros H ->. unfold rank_lt in H. lia. Qed.

Lemma double_le_rank x y : is_number x = true -> is_number y = true ->
  double_le x y = true <-> ~ rank_lt (rank y) (rank x).
Proof.
  intros Hx Hy. pose proof (compare_rank x y Hx Hy) as Hc. unfold double_le, SFleb.
  destruct (SFcompare x y) as [[]|]; [..|done].
  - split; [|done]. intros _ H. by apply rank_lt_irrefl in H.
  - split; [|done]. intros _ H. unfold rank_lt in *. lia.
  - split; [done|]. by intros [].
Qed.

Lemma double_lt_rank x y : is_number x = true -> is_number y = true ->
  double_lt x y = true <-> rank_lt (rank x) (rank y).
Proof.
  intros Hx Hy. pose proof (compare_rank x y Hx Hy) as Hc. unfold double_lt, SFltb.
  destruct (SFcompare x y) as [[]|]; [..|done].
  - split; [done|]. intros H. by apply rank_lt_irrefl in H.
  - done.
  - split; [done|]. intros H. unfold rank_lt in *. lia.
Qed.

(** Nothing is at most, or above, what is not a number. *)
Lemma double_le_number x y : double_le x y = true -> is_number x = true /\ is_number y = true.
Proof. by destruct x as [|[]| |[]], y as [|[]| |[]]. Qed.

Lemma double_le_trans x y z : double_le x y = true -> double_le y z = true -> double_le x z = true.
Proof.
  intros Hxy Hyz. destruct (double_le_number _ _ Hxy) as [Hx Hy], (double_le_number _ _ Hyz) as [_ Hz].
  rewrite double_le_rank // in Hxy. rewrite double_le_rank // in Hyz. rewrite double_le_rank //.
  unfold rank_lt in *. lia.
Qed.

Lemma double_not_lt x y : is_number x = true -> is_number y = true -> double_lt x y = false -> double_le y x = true.
Proof.
  intros Hx Hy Hlt. apply not_true_iff_false in Hlt. rewrite double_lt_rank // in Hlt. rewrite double_le_rank //.
Qed.

Lemma double_lt_le x y : double_lt x y = true -> double_le x y = true.
Proof. unfold double_lt, double_le, SFltb, SFleb. by destruct (SFcompare x y) as [[]|]. Qed.

(** ** Integers as doubles *)

Lemma digits2_pos_log2 m : Zpos (digits2_pos m) = Z.log2 (Zpos m) + 1.
Proof.
  induction m as [m IH|m IH|]; cbn [digits2_pos]; [| |done]; rewrite Pos2Z.inj_succ IH.
  - rewrite (Pos2Z.inj_xI m) Z.log2_succ_double; lia.
  - rewrite (Pos2Z.inj_xO m) Z.log2_double; lia.
Qed.

Lemma iter_xO m d : Zpos (Pos.iter xO m d) = Zpos m * 2 ^ Zpos d.
Proof.
  revert m. induction d as [|d IH] using Pos.peano_ind; intros m; [simpl; lia|].
  rewrite Pos.iter_succ Pos2Z.inj_xO IH Pos2Z.inj_succ Z.pow_succ_r; lia.
Qed.

(** A normalized mantissa is left alone. *)
Lemma round_exact m e :
  Z.log2 (Zpos m) = 52 -> -1074 <= e <= 971 -> binary_round_aux 53 1024 false (Zpos m) e loc_Exact = S754_finite false m e.
Proof.
  intros Hm He. unfold binary_round_aux, shr_fexp.
  assert (fexp 53 1024 (Zdigits2 (Zpos m) + e) - e = 0) as Hf.
  { cbn [Zdigits2]. rewrite digits2_pos_log2 Hm. unfold fexp, emin. lia. }
  rewrite Hf. cbn [shr shr_record_of_loc shr_m loc_of_shr_record round_nearest_even].
  rewrite Hf. cbn [shr shr_m]. rewrite (proj2 (Z.leb_le e (1024 - 53))); [lia|done].
Qed.

Lemma double_of_small n :
  0 < n < 2 ^ 53 ->
  exists m e, double_of_Z n = S754_finite false m e /\ e <= 0 /\ Zpos m = n * 2 ^ (- e).
Proof.
  intros Hn. destruct n as [|p|p]; [lia| |lia]. unfold double_of_Z, binary_normalize, binary_round.
  assert (0 <= Z.log2 (Zpos p) <= 52) as Hl.
  { split; [apply Z.log2_nonneg|]. assert (Z.log2 (Zpos p) < 53) by (apply Z.log2_lt_pow2; lia). lia. }
  assert (fexp 53 1024 (Zpos (digits2_pos p) + 0) = Z.log2 (Zpos p) - 52) as Hf.
  { rewrite digits2_pos_log2. unfold fexp, emin. lia. }
  rewrite Hf. unfold shl_align.
  destruct (Z.log2 (Zpos p) - 52 - 0) as [|d|d] eqn:Ed; [|lia|].
  - exists p, 0. rewrite round_exact; [lia|lia|]. split; [done|]. split; [lia|]. rewrite Z.pow_0_r. lia.
  - assert (Z.log2 (Zpos p) - 52 = Zneg d) as Hd by lia. rewrite Hd.
    exists (Pos.iter xO p d), (Zneg d). rewrite round_exact.
    + rewrite iter_xO Z.log2_mul_pow2; lia.
    + lia.
    + split; [done|]. split; [lia|]. by rewrite iter_xO.
Qed.

Lemma trunc_of_Z n : 0 <= n < 2 ^ 53 -> trunc_u64 (double_of_Z n) = Some n.
Proof.
  intros Hn. destruct (decide (n = 0)) as [->|Hne]; [done|].
  destruct (double_of_small n ltac:(lia)) as (m & e & -> & He & Hm). cbn [trunc_u64]. rewrite Hm.
  assert ((if 0 <=? e then n * 2 ^ (- e) * 2 ^ e else n * 2 ^ (- e) / 2 ^ (- e)) = n) as ->.
  { destruct (Z.leb_spec 0 e) as [H0|H0].
    - replace e with 0 by lia. rewrite Z.pow_0_r. lia.
    - rewrite Z.div_mul; [|done]. apply Z.pow_nonzero; lia. }
  rewrite (proj2 (Z.ltb_lt _ _)); [|done]. change (2 ^ 53) with 9007199254740992 in Hn. change (2 ^ 64) with 18446744073709551616. lia.
Qed.

(** ** Sums of integers *)

Lemma iter_pos_iter {A} (f : A -> A) n x : SpecFloat.iter_pos f n x = Pos.iter f x n.
Proof.
  revert x. induction n as [n IH|n IH|]; intros x; cbn [SpecFloat.iter_pos Pos.iter]; [| |done]; rewrite !IH //.
  by rewrite -!Pos.iter_swap.
Qed.

(** Shifting an exact, even enough mantissa right loses nothing. *)
Lemma shr_exact m d :
  Pos.iter shr_1 (Build_shr_record (Zpos m * 2 ^ Zpos d) false false) d = Build_shr_record (Zpos m) false false.
Proof.
  revert m. induction d as [|d IH] using Pos.peano_ind; intros m.
  - replace (Zpos m * 2 ^ 1) with (Zpos m~0) by lia. done.
  - rewrite Pos.iter_succ_r Pos2Z.inj_succ Z.pow_succ_r; [lia|].
    replace (Zpos m * (2 * 2 ^ Zpos d)) with (2 * (Zpos m * 2 ^ Zpos d)) by lia.
    assert (0 < Zpos m * 2 ^ Zpos d) as Hp by (apply Z.mul_pos_pos; [lia|by apply Z.pow_pos_nonneg]).
    destruct (Zpos m * 2 ^ Zpos d) as [|p|p] eqn:E; [lia| |lia].
    change (2 * Zpos p) with (Zpos p~0). cbn [shr_1]. rewrite -E. apply IH.
Qed.

Lemma round_shifted m e d :
  Z.log2 (Zpos m) = 52 -> -1074 <= e -> e + Zpos d <= 971 ->
  binary_round_aux 53 1024 false (Zpos m * 2 ^ Zpos d) e loc_Exact = S754_finite false m (e + Zpos d).
Proof.
  intros Hm He Hd. assert (Z.log2 (Zpos m * 2 ^ Zpos d) = 52 + Zpos d) as Hl by (rewrite Z.log2_mul_pow2; lia).
  assert (0 < Zpos m * 2 ^ Zpos d) as Hp by (apply Z.mul_pos_pos; [lia|by apply Z.pow_pos_nonneg]).
  unfold binary_round_aux, shr_fexp.
  assert (Zdigits2 (Zpos m * 2 ^ Zpos d) = 53 + Zpos d) as ->.
  { destruct (Zpos m * 2 ^ Zpos d) as [|p|p]; [lia| |lia]. cbn [Zdigits2]. rewrite digits2_pos_log2. lia. }
  assert (fexp 53 1024 (53 + Zpos d + e) - e = Zpos d) as -> by (unfold fexp, emin; lia).
  cbn [shr shr_record_of_loc]. rewrite iter_pos_iter shr_exact. cbn [shr_m loc_of_shr_record round_nearest_even].
  assert (fexp 53 1024 (Zdigits2 (Zpos m) + (e + Zpos d)) - (e + Zpos d) = 0) as ->.
  { cbn [Zdigits2]. rewrite digits2_pos_log2 Hm. unfold fexp, emin. lia. }
  cbn [shr shr_record_of_loc shr_m]. rewrite (proj2 (Z.leb_le _ (1024 - 53))); [lia|done].
Qed.

(** The double of an integer below 2^53 in terms of its normalized mantissa. *)
Lemma double_of_pos p :
  Zpos p < 2 ^ 53 ->
  exists m, Zpos m = Zpos p * 2 ^ (52 - Z.log2 (Zpos p)) /\ Z.log2 (Zpos m) = 52 /\
    double_of_Z (Zpos p) = S754_finite false m (Z.log2 (Zpos p) - 52).
Proof.
  intros Hp. assert (0 <= Z.log2 (Zpos p) <= 52) as Hl.
  { split; [apply Z.log2_nonneg|]. assert (Z.log2 (Zpos p) < 53) by (apply Z.log2_lt_pow2; lia). lia. }
  assert (0 < Zpos p * 2 ^ (52 - Z.log2 (Zpos p))) as Hpos by (apply Z.mul_pos_pos; [lia|apply Z.pow_pos_nonneg; lia]).
  destruct (Zpos p * 2 ^ (52 - Z.log2 (Zpos p))) as [|m|m] eqn:E; [lia| |lia].
  exists m. split; [done|]. assert (Z.log2 (Zpos m) = 52) as Hm by (rewrite -E Z.log2_mul_pow2; lia). split; [done|].
  unfold double_of_Z, binary_normalize, binary_round. rewrite digits2_pos_log2.
  assert (fexp 53 1024 (Z.log2 (Zpos p) + 1 + 0) = Z.log2 (Zpos p) - 52) as -> by (unfold fexp, emin; lia).
  unfold shl_align. rewrite Z.sub_0_r. destruct (Z.log2 (Zpos p) - 52) as [|d|d] eqn:Ed; [|lia|].
  - replace (52 - Z.log2 (Zpos p)) with 0 in E by lia. assert (m = p) as -> by lia. apply round_exact; lia.
  - replace (52 - Z.log2 (Zpos p)) with (Zpos d) in E by lia. rewrite iter_xO E. apply round_exact; lia.
Qed.

(** Whatever exponent below the normalized one the integer is given with. *)
Lemma normalize_scaled p k :
  Zpos p < 2 ^ 53 -> 0 <= k <= 52 -> binary_normalize 53 1024 (Zpos p * 2 ^ k) (- k) false = double_of_Z (Zpos p).
Proof.
  intros Hp Hk. destruct (double_of_pos p Hp) as (m & Em & Hm & ->).
  assert (0 <= Z.log2 (Zpos p) <= 52) as Hl.
  { split; [apply Z.log2_nonneg|]. assert (Z.log2 (Zpos p) < 53) by (apply Z.log2_lt_pow2; lia). lia. }
  assert (0 < Zpos p * 2 ^ k) as Hpos by (apply Z.mul_pos_pos; [lia|apply Z.pow_pos_nonneg; lia]).
  destruct (Zpos p * 2 ^ k) as [|q|q] eqn:Eq; [lia| |lia]. unfold binary_normalize, binary_round.
  assert (Zpos (digits2_pos q) = Z.log2 (Zpos p) + k + 1) as -> by (rewrite digits2_pos_log2 -Eq Z.log2_mul_pow2; lia).
  assert (fexp 53 1024 (Z.log2 (Zpos p) + k + 1 + - k) = Z.log2 (Zpos p) - 52) as -> by (unfold fexp, emin; lia).
  unfold shl_align. destruct (Z.log2 (Zpos p) - 52 - - k) as [|d|d] eqn:Ed.
  - replace (52 - Z.log2 (Zpos p)) with k in Em by lia. assert (q = m) as -> by lia.
    replace (- k) with (Z.log2 (Zpos p) - 52) by lia. apply round_exact; lia.
  - replace (Zpos q) with (Zpos m * 2 ^ Zpos d).
    + rewrite round_shifted; [lia..|]. f_equal. lia.
    + rewrite Em -Eq -Z.mul_assoc -Z.pow_add_r; [lia..|]. do 2 f_equal. lia.
  - replace (Zpos (Pos.iter xO q d)) with (Zpos m).
    + apply round_exact; lia.
    + rewrite iter_xO Em -Eq -Z.mul_assoc -Z.pow_add_r; [lia..|]. do 2 f_equal. lia.
Qed.

(** Sums of integers are exact below 2^53. *)
Lemma double_add_exact a b :
  0 <= a -> 0 <= b -> a + b < 2 ^ 53 -> double_add (double_of_Z a) (double_of_Z b) = double_of_Z (a + b).
Proof.
  intros Ha Hb Hab. destruct a as [|p|p]; [|clear Ha|lia].
  - destruct b as [|q|q]; [done| |lia]. rewrite Z.add_0_l. by destruct (double_of_pos q ltac:(lia)) as (m & _ & _ & ->).
  - destruct b as [|q|q]; [|clear Hb|lia].
    + rewrite Z.add_0_r. by destruct (double_of_pos p ltac:(lia)) as (m & _ & _ & ->).
    + assert (0 <= Z.log2 (Zpos p) <= 52 /\ 0 <= Z.log2 (Zpos q) <= 52) as [Hlp Hlq].
      { pose proof (Z.log2_nonneg (Zpos p)). pose proof (Z.log2_nonneg (Zpos q)).
        assert (Z.log2 (Zpos p) < 53 /\ Z.log2 (Zpos q) < 53) by (split; apply Z.log2_lt_pow2; lia). lia. }
      destruct (double_of_pos p ltac:(lia)) as (m & Em & _ & ->), (double_of_pos q ltac:(lia)) as (n & En & _ & ->).
      unfold double_add. cbn [SFadd]. set (k := 52 - Z.min (Z.log2 (Zpos p)) (Z.log2 (Zpos q))).
      replace (Z.min _ _) with (- k) by lia.
      change (Zpos p + Zpos q) with (Zpos (p + q)). rewrite -(normalize_scaled (p + q) k); [lia..|]. f_equal.
      assert (forall x l, Z.log2 (Zpos x) = l -> forall y, Zpos y = Zpos x * 2 ^ (52 - l) -> l <= 52 -> 52 - l <= k ->
        Zpos (fst (shl_align y (l - 52) (- k))) = Zpos x * 2 ^ k) as Hs.
      { intros x l _ y Ey Hl Hk. unfold shl_align. destruct (- k - (l - 52)) as [|d|d] eqn:Ed; [| lia |]; cbn [fst].
        - rewrite Ey. do 2 f_equal. lia.
        - rewrite iter_xO Ey -Z.mul_assoc -Z.pow_add_r; [lia..|]. do 2 f_equal. lia. }
      cbn [cond_Zopp]. rewrite (Hs p _ eq_refl _ Em) ?(Hs q _ eq_refl _ En); lia.
Qed.

(** ** A share of a whole number *)

Lemma shr_m_div d : forall r, 0 <= shr_m r -> shr_m (Pos.iter shr_1 r d) = shr_m r / 2 ^ Zpos d.
Proof.
  assert (forall r, 0 <= shr_m r -> shr_m (shr_1 r) = shr_m r / 2) as H1.
  { intros [m r s] Hm. cbn [shr_m] in *. destruct m as [|[p|p|]|]; try done; try lia; cbn [shr_1 shr_m].
    - rewrite Pos2Z.inj_xI Z.add_comm Z.mul_comm Z.div_add //.
    - rewrite Pos2Z.inj_xO Z.mul_comm Z.div_mul //. }
  induction d as [|d IH] using Pos.peano_ind; intros r Hr; [by apply H1|].
  rewrite Pos.iter_succ_r IH; [rewrite H1 //; by apply Z.div_pos|]. rewrite H1 // Z.div_div; [lia|by apply Z.pow_pos_nonneg|].
  by rewrite Pos2Z.inj_succ Z.pow_succ_r; [lia|].
Qed.

Lemma round_nearest_even_step m l : round_nearest_even m l = m \/ round_nearest_even m l = m + 1.
Proof. destruct l as [|[]]; cbn [round_nearest_even]; auto. destruct (Z.even m); auto. Qed.

(** Rounding to 53 bits moves the mantissa up by at most one unit of its last
    place. *)
Lemma round_bounded M e k :
  Z.log2 M = 52 + Zpos k -> -1074 <= e + Zpos k -> e + Zpos k <= 970 ->
  exists m e', binary_round_aux 53 1024 false M e loc_Exact = S754_finite false m e' /\
    ((e' = e + Zpos k /\ Zpos m <= M / 2 ^ Zpos k + 1) \/ (e' = e + Zpos k + 1 /\ 2 * Zpos m <= M / 2 ^ Zpos k + 1)).
Proof.
  intros Hl He He'. assert (0 < M) as HM by (destruct M; simpl in Hl; lia).
  unfold binary_round_aux, shr_fexp.
  assert (Zdigits2 M = 53 + Zpos k) as ->.
  { destruct M as [|p|p]; [lia| |lia]. cbn [Zdigits2]. rewrite digits2_pos_log2. lia. }
  assert (fexp 53 1024 (53 + Zpos k + e) - e = Zpos k) as -> by (unfold fexp, emin; lia).
  cbn [shr shr_record_of_loc]. rewrite iter_pos_iter shr_m_div; [cbn; lia|]. cbn [shr_m].
  generalize (loc_of_shr_record (Pos.iter shr_1 (Build_shr_record M false false) k)) as loc. intros loc.
  set (q := M / 2 ^ Zpos k). assert (2 ^ 52 <= q < 2 ^ 53) as Hq.
  { destruct (Z.log2_spec M HM) as [H1 H2]. rewrite Hl in H1, H2.
    rewrite Z.pow_add_r in H1; [lia..|]. replace (Z.succ (52 + Zpos k)) with (53 + Zpos k) in H2 by lia.
    rewrite Z.pow_add_r in H2; [lia..|]. assert (0 < 2 ^ Zpos k) by (by apply Z.pow_pos_nonneg). unfold q. split.
    - apply Z.div_le_lower_bound; lia.
    - apply Z.div_lt_upper_bound; lia. }
  change (2 ^ 52) with 4503599627370496 in Hq. change (2 ^ 53) with 9007199254740992 in Hq.
  assert (exists r, round_nearest_even q loc = Zpos r /\ Zpos r <= q + 1 /\ q <= Zpos r) as (r & -> & Hr & Hr').
  { destruct (round_nearest_even_step q loc) as [->| ->].
    - destruct q as [|r|r]; [lia| |lia]. exists r. lia.
    - destruct (q + 1) as [|r|r] eqn:E; [lia| |lia]. exists r. lia. }
  assert (Zpos r < 2 ^ 53 \/ Zpos r = 2 ^ 53) as [Hlt|Heq] by (change (2 ^ 53) with 9007199254740992; lia).
  - assert (Z.log2 (Zpos r) = 52) as Hlr.
    { apply Z.log2_unique; [lia|]. change (2 ^ Z.succ 52) with (2 ^ 53). split; [|done]. change (2 ^ 52) with 4503599627370496. lia. }
    assert (fexp 53 1024 (Zdigits2 (Zpos r) + (e + Zpos k)) - (e + Zpos k) = 0) as ->.
    { cbn [Zdigits2]. rewrite digits2_pos_log2 Hlr. unfold fexp, emin. lia. }
    cbn [shr shr_record_of_loc shr_m]. rewrite (proj2 (Z.leb_le _ (1024 - 53))); [lia|].
    exists r, (e + Zpos k). split; [done|]. left. lia.
  - assert (Zdigits2 (Zpos r) = 54) as -> by (cbn [Zdigits2]; rewrite digits2_pos_log2 Heq; done).
    assert (fexp 53 1024 (54 + (e + Zpos k)) - (e + Zpos k) = 1) as -> by (unfold fexp, emin; lia).
    cbn [shr shr_record_of_loc]. rewrite iter_pos_iter shr_m_div; [cbn; lia|]. cbn [shr_m].
    rewrite Heq. change (2 ^ 53 / 2 ^ 1) with 4503599627370496. rewrite (proj2 (Z.leb_le _ (1024 - 53))); [lia|].
    exists 4503599627370496%positive, (e + Zpos k + 1). split; [done|]. right. split; [done|].
    change (2 ^ 53) with 9007199254740992 in Heq. lia.
Qed.

(** A fraction between a half and 0.99 of a whole number, truncated, is below it. *)
Lemma share_below n c :
  0 < n < 2 ^ 53 -> 2 ^ 52 <= Zpos c <= 2 ^ 53 - 2 ^ 46 ->
  exists i, trunc_u64 (double_mul (double_of_Z n) (S754_finite false c (-53))) = Some i /\ 0 <= i < n.
Proof.
  intros Hn Hc. destruct n as [|p|p]; [lia| |lia]. destruct (double_of_pos p ltac:(lia)) as (m & Em & Hm & ->).
  assert (0 <= Z.log2 (Zpos p) <= 52) as Hl.
  { split; [apply Z.log2_nonneg|]. assert (Z.log2 (Zpos p) < 53) by (apply Z.log2_lt_pow2; lia). lia. }
  set (l := Z.log2 (Zpos p)) in *.
  destruct (Z.log2_spec (Zpos m) ltac:(lia)) as [Hm1 Hm2]. rewrite Hm in Hm1, Hm2. change (Z.succ 52) with 53 in Hm2.
  assert (2 ^ 104 <= Zpos (m * c) < 2 ^ 106) as HM.
  { rewrite Pos2Z.inj_mul. change (2 ^ 104) with (2 ^ 52 * 2 ^ 52). change (2 ^ 106) with (2 ^ 53 * 2 ^ 53).
    change (2 ^ 53 - 2 ^ 46) with 8936830510563328 in Hc. change (2 ^ 52) with 4503599627370496 in *.
    change (2 ^ 53) with 9007199254740992 in *. nia. }
  assert (exists k, Z.log2 (Zpos (m * c)) = 52 + Zpos k /\ (k = 52 \/ k = 53)%positive) as (k & Hk & Hk').
  { assert (Z.log2 (Zpos (m * c)) = 104 \/ Z.log2 (Zpos (m * c)) = 105) as [H|H].
    - assert (104 <= Z.log2 (Zpos (m * c))) by (apply Z.log2_le_pow2; lia).
      assert (Z.log2 (Zpos (m * c)) < 106) by (apply Z.log2_lt_pow2; lia). lia.
    - exists 52%positive. lia.
    - exists 53%positive. lia. }
  unfold double_mul. cbn [SFmul xorb].
  destruct (round_bounded (Zpos (m * c)) (l - 52 + -53) k Hk ltac:(lia) ltac:(lia)) as (r & e & -> & Hr).
  (* the value is below [m * 2^(l - 52)] *)
  assert (Zpos r * 2 ^ (e + 105 - l) < Zpos m * 2 ^ 53) as Hv.
  { assert (Zpos r * 2 ^ (e + 105 - l) <= (Zpos (m * c) / 2 ^ Zpos k + 1) * 2 ^ Zpos k) as H.
    { assert (0 < 2 ^ Zpos k) by (by apply Z.pow_pos_nonneg). destruct Hr as [[-> Hr]|[-> Hr]].
      - replace (l - 52 + -53 + Zpos k + 105 - l) with (Zpos k) by lia. nia.
      - replace (l - 52 + -53 + Zpos k + 1 + 105 - l) with (Z.succ (Zpos k)) by lia. rewrite Z.pow_succ_r; [lia|]. nia. }
    assert (Zpos (m * c) / 2 ^ Zpos k * 2 ^ Zpos k <= Zpos (m * c)) as H'.
    { rewrite Z.mul_comm. apply Z.mul_div_le. by apply Z.pow_pos_nonneg. }
    assert (2 ^ Zpos k <= 2 ^ 53) as H'' by (apply Z.pow_le_mono_r; lia).
    rewrite Pos2Z.inj_mul in H'. change (2 ^ 53 - 2 ^ 46) with 8936830510563328 in Hc.
    rewrite Pos2Z.inj_mul in H. change (2 ^ 52) with 4503599627370496 in *. change (2 ^ 53) with 9007199254740992 in *.
    change (2 ^ 46) with 70368744177664 in *. nia. }
  assert (0 < e + 105 - l) as He by (destruct Hr as [[-> _]|[-> _]]; lia).
  rewrite Em -Z.mul_assoc -Z.pow_add_r in Hv; [lia..|]. replace (52 - l + 53) with (105 - l) in Hv by lia.
  assert (exists i, (if 0 <=? e then Zpos r * 2 ^ e else Zpos r / 2 ^ (- e)) = i /\ 0 <= i < Zpos p) as (i & Ei & Hi).
  { eexists. split; [done|]. destruct (Z.leb_spec 0 e) as [H0|H0].
    - split; [apply Z.mul_nonneg_nonneg; [lia|by apply Z.pow_nonneg]|].
      replace (e + 105 - l) with (e + (105 - l)) in Hv by lia. rewrite Z.pow_add_r in Hv; [lia..|].
      apply (Z.mul_lt_mono_pos_r (2 ^ (105 - l))); [apply Z.pow_pos_nonneg; lia|]. lia.
    - assert (0 < 2 ^ (- e)) by (apply Z.pow_pos_nonneg; lia). split; [apply Z.div_pos; lia|]. apply Z.div_lt_upper_bound; [lia|].
      replace (105 - l) with (- e + (e + 105 - l)) in Hv by lia. rewrite (Z.pow_add_r 2 (- e)) in Hv; [lia..|].
      apply (Z.mul_lt_mono_pos_r (2 ^ (e + 105 - l))); [apply Z.pow_pos_nonneg; lia|]. lia. }
  exists i. cbn [trunc_u64]. rewrite Ei (proj2 (Z.ltb_lt i _)); [|done].
  eapply Z.lt_trans; [apply Hi|]. eapply Z.lt_trans; [apply Hn|done].
Qed.
