(* ===== verification/RiskManager.v ===== *)
(** * The risk manager (include/rtes/risk_manager.hpp, src/risk_manager.cpp)

    Every order passes the checks of [process_new_order] before it is forwarded
    to the engine of its symbol.  The engines are reached through the class
    [OrderSink], which the matching engine implements; hash maps keyed by
    [FixedString] are keyed here by the string the comparison looks at. *)

From S2P Require Import Prelude.
From S2P Require Import Types.
From S2P Require Import Double.
From S2P Require Import OrderPool.
From S2P Require Import SpscQueue.
From S2P Require Import MatchingEngine.

(** ** What an engine promises to the risk manager

    A submission either appends the request to what the engine has pending or
    reports failure and leaves it alone. *)
Class OrderSink (E : Type) := {
  sink_submit : option nat -> E -> bool * E;
  sink_cancel : OrderID -> ClientID -> E -> bool * E;
  sink_holds : E -> list OrderRequest -> Prop;
  sink_submit_law e reqs a : sink_holds e reqs ->
    exists ok e', sink_submit (Some a) e = (ok, e') /\
      sink_holds e' (if ok then reqs ++ [NEW_ORDER (Some a)] else reqs);
  sink_cancel_law e reqs k c : sink_holds e reqs ->
    exists ok e', sink_cancel k c e = (ok, e') /\
      sink_holds e' (if ok then reqs ++ [CANCEL_ORDER k c] else reqs)
}.

(** ** Configuration (config.hpp) *)

Record SymbolConfig := mkSymbolConfig {
  sc_symbol : cstring;
  tick_size : double;
  lot_size : Z;
  price_collar_pct : double
}.

Record RiskConfig := mkRiskConfig {
  max_order_size : Z;
  max_notional_per_client : double;
  max_orders_per_second : Z;
  price_collar_enabled : bool
}.

Definition RiskConfig_default : RiskConfig := mkRiskConfig 100000 (double_of_Z 10000000) 1000 true.

Inductive RiskResult :=
  | APPROVED | REJECTED_SIZE | REJECTED_PRICE | REJECTED_CREDIT | REJECTED_RATE_LIMIT
  | REJECTED_DUPLICATE | REJECTED_SYMBOL | REJECTED_OWNERSHIP | REJECTED_QUEUE_FULL.

#[export] Instance RiskResult_eq_dec : EqDecision RiskResult.
Proof. solve_decision. Defined.

Inductive RiskRequest :=
  | RISK_NEW_ORDER (order : option nat)
  | RISK_CANCEL_ORDER (order_id : OrderID) (client_id : ClientID).

Record ClientRiskState := mkClient {
  active_orders : gset Z;
  notional_exposure_scaled : Z;
  orders_in_window : Z;
  window_start_ns : Timestamp
}.

Definition ClientRiskState_default : ClientRiskState := mkClient ∅ 0 0 0.

Record RiskStats := mkRiskStats {
  rs_processed : Z;
  rs_approved : Z;
  rs_rejected : Z;
  rs_cancels_accepted : Z;
  rs_cancels_rejected : Z
}.

Definition RiskStats_zero : RiskStats := mkRiskStats 0 0 0 0 0.

Module RiskManager.

Definition RISK_BATCH_SIZE : nat := 128.
Definition RISK_STATS_FLUSH : Z := 4096.
Definition RISK_QUEUE_CAPACITY : Z := 65536.
Definition RATE_LIMIT_WINDOW_NS : Z := 1000000000.

Record t (E : Type) := mk {
  config_ : RiskConfig;
  max_notional_scaled_ : Z;
  symbol_configs_ : gmap cstring SymbolConfig;
  matching_engines_ : gmap cstring E;
  reference_prices_ : gmap cstring Price;
  client_states_ : gmap cstring ClientRiskState;
  order_symbol_index_ : gmap Z cstring;
  input_queue_ : SPSCQueue.t RiskRequest;
  running_ : bool;
  local_stats_ : RiskStats;
  stats_atomic_ : RiskStats
}.
Arguments mk {E}.
Arguments config_ {E}.
Arguments max_notional_scaled_ {E}.
Arguments symbol_configs_ {E}.
Arguments matching_engines_ {E}.
Arguments reference_prices_ {E}.
Arguments client_states_ {E}.
Arguments order_symbol_index_ {E}.
Arguments input_queue_ {E}.
Arguments running_ {E}.
Arguments local_stats_ {E}.
Arguments stats_atomic_ {E}.

Section setters.
Context {E : Type}.
Implicit Types r : t E.

Definition set_engines x r : t E :=
  mk (config_ r) (max_notional_scaled_ r) (symbol_configs_ r) x (reference_prices_ r) (client_states_ r)
    (order_symbol_index_ r) (input_queue_ r) (running_ r) (local_stats_ r) (stats_atomic_ r).
Definition set_prices x r : t E :=
  mk (config_ r) (max_notional_scaled_ r) (symbol_configs_ r) (matching_engines_ r) x (client_states_ r)
    (order_symbol_index_ r) (input_queue_ r) (running_ r) (local_stats_ r) (stats_atomic_ r).
Definition set_clients x r : t E :=
  mk (config_ r) (max_notional_scaled_ r) (symbol_configs_ r) (matching_engines_ r) (reference_prices_ r) x
    (order_symbol_index_ r) (input_queue_ r) (running_ r) (local_stats_ r) (stats_atomic_ r).
Definition set_index x r : t E :=
  mk (config_ r) (max_notional_scaled_ r) (symbol_configs_ r) (matching_engines_ r) (reference_prices_ r)
    (client_states_ r) x (input_queue_ r) (running_ r) (local_stats_ r) (stats_atomic_ r).
Definition set_queue x r : t E :=
  mk (config_ r) (max_notional_scaled_ r) (symbol_configs_ r) (matching_engines_ r) (reference_prices_ r)
    (client_states_ r) (order_symbol_index_ r) x (running_ r) (local_stats_ r) (stats_atomic_ r).
Definition set_running x r : t E :=
  mk (config_ r) (max_notional_scaled_ r) (symbol_configs_ r) (matching_engines_ r) (reference_prices_ r)
    (client_states_ r) (order_symbol_index_ r) (input_queue_ r) x (local_stats_ r) (stats_atomic_ r).
Definition set_stats x r : t E :=
  mk (config_ r) (max_notional_scaled_ r) (symbol_configs_ r) (matching_engines_ r) (reference_prices_ r)
    (client_states_ r) (order_symbol_index_ r) (input_queue_ r) (running_ r) x (stats_atomic_ r).
Definition flush_stats r : t E :=
  mk (config_ r) (max_notional_scaled_ r) (symbol_configs_ r) (matching_engines_ r) (reference_prices_ r)
    (client_states_ r) (order_symbol_index_ r) (input_queue_ r) (running_ r) (local_stats_ r) (local_stats_ r).

End setters.

Definition inc_approved (s : RiskStats) : RiskStats :=
  mkRiskStats (rs_processed s) (rs_approved s +₆₄ 1) (rs_rejected s) (rs_cancels_accepted s) (rs_cancels_rejected s).
Definition inc_rejected (s : RiskStats) : RiskStats :=
  mkRiskStats (rs_processed s) (rs_approved s) (rs_rejected s +₆₄ 1) (rs_cancels_accepted s) (rs_cancels_rejected s).
Definition inc_cancels_accepted (s : RiskStats) : RiskStats :=
  mkRiskStats (rs_processed s) (rs_approved s) (rs_rejected s) (rs_cancels_accepted s +₆₄ 1) (rs_cancels_rejected s).
Definition inc_cancels_rejected (s : RiskStats) : RiskStats :=
  mkRiskStats (rs_processed s) (rs_approved s) (rs_rejected s) (rs_cancels_accepted s) (rs_cancels_rejected s +₆₄ 1).
Definition add_processed (n : Z) (s : RiskStats) : RiskStats :=
  mkRiskStats (rs_processed s +₆₄ n) (rs_approved s) (rs_rejected s) (rs_cancels_accepted s) (rs_cancels_rejected s).

(** ** Construction: [None] when the notional limit does not fit 64 bits. *)

Definition symbol_key (s : cstring) : cstring := FixedString.c_str (FixedString.make SYMBOL_N (Some s)).

Definition make {E} (config : RiskConfig) (symbols : list SymbolConfig) : option (t E) :=
  q ← SPSCQueue.make (RISK_NEW_ORDER None) RISK_QUEUE_CAPACITY;
  limit ← trunc_u64 (double_mul (max_notional_per_client config) (double_of_Z PRICE_SCALE));
  Some (mk config limit
    (foldl (fun m sym => <[symbol_key (sc_symbol sym) := sym]> m) ∅ symbols)
    ∅ ∅ ∅ ∅ q false RiskStats_zero RiskStats_zero).

Definition add_matching_engine {E} (symbol : cstring) (engine : E) (r : t E) : t E :=
  set_engines (<[symbol_key symbol := engine]> (matching_engines_ r)) r.

Definition update_reference_price {E} (symbol : Symbol) (price : Price) (r : t E) : t E :=
  set_prices (<[FixedString.c_str symbol := price]> (reference_prices_ r)) r.

(** ** Checks *)

Definition check_rate_limit (config : RiskConfig) (now : Timestamp) (client : ClientRiskState)
    : bool * ClientRiskState :=
  let client :=
    if RATE_LIMIT_WINDOW_NS <=? now -₆₄ window_start_ns client
    then mkClient (active_orders client) (notional_exposure_scaled client) 0 now
    else client in
  if max_orders_per_second config <=? orders_in_window client then (false, client)
  else (true, mkClient (active_orders client) (notional_exposure_scaled client)
                (orders_in_window client +₃₂ 1) (window_start_ns client)).

Definition check_price_collar_int {E} (r : t E) (o : Order) (sym_config : SymbolConfig) : option bool :=
  match reference_prices_ r !! FixedString.c_str (symbol o) with
  | None => Some true
  | Some ref_price =>
      if ref_price =? 0 then Some true
      else
        collar_pct ← trunc_u64 (price_collar_pct sym_config);
        let order_scaled := wrap 128 (price o * 100) in
        let ref_lower := wrap 128 (ref_price * (100 -₆₄ collar_pct)) in
        let ref_upper := wrap 128 (ref_price * (100 +₆₄ collar_pct)) in
        Some ((ref_lower <=? order_scaled) && (order_scaled <=? ref_upper))
  end.

Definition calculate_notional_int (o : Order) : Z := price o *₆₄ quantity o.

Section ops.
Context {P E : Type} `{!OrderPool P} `{!OrderSink E}.
Variable steady_clock : nat -> Timestamp.

(** The manager with what it reaches: the shared pool and the clock. *)
Record st := mkst { rm : t E; pool : P; ticks : nat }.
Implicit Types s : st.

Definition with_rm (f : t E -> t E) s : st := mkst (f (rm s)) (pool s) (ticks s).

Definition get_or_create_client (id : ClientID) s : ClientRiskState * st :=
  match client_states_ (rm s) !! FixedString.c_str id with
  | Some client => (client, s)
  | None =>
      let client := mkClient ∅ 0 0 (steady_clock (ticks s)) in
      (client, mkst (set_clients (<[FixedString.c_str id := client]> (client_states_ (rm s))) (rm s))
                 (pool s) (S (ticks s)))
  end.

(** Writing through the reference to a client's state. *)
Definition put_client (id : ClientID) (client : ClientRiskState) s : st :=
  with_rm (fun r => set_clients (<[FixedString.c_str id := client]> (client_states_ r)) r) s.

Definition reject_order (order : nat) (reason : RiskResult) s : option (option RiskResult * st) :=
  p ← modify order (set_status REJECTED) (pool s);
  Some (Some reason, mkst (set_stats (inc_rejected (local_stats_ (rm s))) (rm s)) p (ticks s)).

(** The state changes undone when the order cannot be forwarded. *)
Definition unwind (id : ClientID) (order_id : OrderID) (order_notional : Z) s : st :=
  match client_states_ (rm s) !! FixedString.c_str id with
  | Some client =>
      with_rm (fun r => set_index (delete order_id (order_symbol_index_ r)) r)
        (put_client id (mkClient (active_orders client ∖ {[order_id]})
           (notional_exposure_scaled client -₆₄ order_notional)
           (orders_in_window client) (window_start_ns client)) s)
  | None => s
  end.

(** The first component is the reason passed to [reject_order], [APPROVED] at the
    end of the function, and nothing for a null order. *)
Definition process_new_order (order : option nat) s : option (option RiskResult * st) :=
  match order with
  | None => Some (None, with_rm (fun r => set_stats (inc_rejected (local_stats_ r)) r) s)
  | Some ptr =>
      o ← deref (pool s) ptr;
      let sym := FixedString.c_str (symbol o) in
      match symbol_configs_ (rm s) !! sym with
      | None => reject_order ptr REJECTED_SYMBOL s
      | Some sym_config =>
          if (quantity o =? 0) || (max_order_size (config_ (rm s)) <? quantity o)
          then reject_order ptr REJECTED_SIZE s
          else
            let '(client, s) := get_or_create_client (client_id o) s in
            let '(rate_ok, client) := check_rate_limit (config_ (rm s)) (steady_clock (ticks s)) client in
            let s := put_client (client_id o) client (mkst (rm s) (pool s) (S (ticks s))) in
            if negb rate_ok then reject_order ptr REJECTED_RATE_LIMIT s
            else if bool_decide (id o ∈ active_orders client) then reject_order ptr REJECTED_DUPLICATE s
            else
              collar_ok ← (if price_collar_enabled (config_ (rm s))
                           then check_price_collar_int (rm s) o sym_config else Some true);
              if negb collar_ok then reject_order ptr REJECTED_PRICE s
              else
                let order_notional := calculate_notional_int o in
                if max_notional_scaled_ (rm s) <? notional_exposure_scaled client +₆₄ order_notional
                then reject_order ptr REJECTED_CREDIT s
                else
                  let s := put_client (client_id o)
                    (mkClient ({[id o]} ∪ active_orders client)
                       (notional_exposure_scaled client +₆₄ order_notional)
                       (orders_in_window client) (window_start_ns client)) s in
                  let s := with_rm (fun r => set_index (<[id o := sym]> (order_symbol_index_ r)) r) s in
                  match matching_engines_ (rm s) !! sym with
                  | Some engine =>
                      let '(ok, engine) := sink_submit order engine in
                      let s := with_rm (fun r => set_engines (<[sym := engine]> (matching_engines_ r)) r) s in
                      if negb ok
                      then reject_order ptr REJECTED_QUEUE_FULL (unwind (client_id o) (id o) order_notional s)
                      else
                        p ← modify ptr (set_status ACCEPTED) (pool s);
                        Some (Some APPROVED, mkst (set_stats (inc_approved (local_stats_ (rm s))) (rm s)) p (ticks s))
                  | None => reject_order ptr REJECTED_SYMBOL (unwind (client_id o) (id o) order_notional s)
                  end
      end
  end.

Definition process_cancel (order_id : OrderID) (client_id : ClientID) s : st :=
  let refuse := with_rm (fun r => set_stats (inc_cancels_rejected (local_stats_ r)) r) s in
  match client_states_ (rm s) !! FixedString.c_str client_id with
  | None => refuse
  | Some client =>
      if negb (bool_decide (order_id ∈ active_orders client)) then refuse
      else
        let s :=
          match order_symbol_index_ (rm s) !! order_id with
          | Some sym =>
              let s :=
                match matching_engines_ (rm s) !! sym with
                | Some engine =>
                    with_rm (fun r => set_engines (<[sym := snd (sink_cancel order_id client_id engine)]>
                                                    (matching_engines_ r)) r) s
                | None => s
                end in
              with_rm (fun r => set_index (delete order_id (order_symbol_index_ r)) r) s
          | None => s
          end in
        let s := put_client client_id (mkClient (active_orders client ∖ {[order_id]})
          (notional_exposure_scaled client) (orders_in_window client) (window_start_ns client)) s in
        with_rm (fun r => set_stats (inc_cancels_accepted (local_stats_ r)) r) s
  end.

(** ** Submission and the worker *)

Definition submit_order (order : option nat) (r : t E) : bool * t E :=
  match order with
  | None => (false, r)
  | Some _ => let '(ok, q) := SPSCQueue.push (RISK_NEW_ORDER order) (input_queue_ r) in (ok, set_queue q r)
  end.

Definition submit_cancel (order_id : OrderID) (client_id : ClientID) (r : t E) : bool * t E :=
  let '(ok, q) := SPSCQueue.push (RISK_CANCEL_ORDER order_id client_id) (input_queue_ r) in (ok, set_queue q r).

Definition dispatch (request : RiskRequest) s : option st :=
  match request with
  | RISK_NEW_ORDER order => snd <$> process_new_order order s
  | RISK_CANCEL_ORDER order_id client_id => Some (process_cancel order_id client_id s)
  end.

Fixpoint drain_loop (left count : nat) s : option (nat * st) :=
  match left with
  | O => Some (count, s)
  | S left' =>
      '(request, q) ← SPSCQueue.pop (input_queue_ (rm s));
      let s := with_rm (set_queue q) s in
      match request with
      | None => Some (count, s)
      | Some request => s ← dispatch request s; drain_loop left' (S count) s
      end
  end.

Definition drain_batch s : option (nat * st) :=
  '(count, s) ← drain_loop RISK_BATCH_SIZE 0 s;
  Some (count, with_rm (fun r => set_stats (add_processed (Z.of_nat count) (local_stats_ r)) r) s).

Definition maybe_flush_stats (r : t E) : t E :=
  if rs_processed (local_stats_ r) mod RISK_STATS_FLUSH =? 0 then flush_stats r else r.

Definition run_round s : option st :=
  '(processed, s) ← drain_batch s;
  Some (if Nat.ltb 0 processed then with_rm maybe_flush_stats s else s).

Fixpoint drain_remaining (fuel : nat) s : option st :=
  match fuel with
  | O => None
  | S fuel' =>
      '(batch, s) ← drain_batch s;
      match batch with O => Some s | S _ => drain_remaining fuel' s end
  end.

Definition start (r : t E) : bool * t E := if running_ r then (false, r) else (true, set_running true r).

(** [stop] joins the worker, which drains the queue and flushes. *)
Definition stop s : option st :=
  if running_ (rm s) then
    s ← drain_remaining (S (Z.to_nat (SPSCQueue.size (input_queue_ (rm s))))) (with_rm (set_running false) s);
    Some (with_rm flush_stats (with_rm flush_stats s))
  else Some s.

End ops.
Arguments st : clear implicits.
End RiskManager.
