(* ===== verification/RiskTheorems.v ===== *)
(** * What the risk manager guarantees

    An order is forwarded exactly when it passes every check; checks and
    bookkeeping are exact as long as the 64-bit products do not overflow; a
    rejected order leaves exposure, active orders and engine queues as they were;
    cancels are forwarded only for the client's own active orders. *)

From S2P Require Import Prelude.
From S2P Require Import Types.
From S2P Require Import Double.
From S2P Require Import MemoryPool.
From S2P Require Import OrderPool.
From S2P Require Import OrderBookTheorems.
From S2P Require Import EngineTheorems.
From S2P Require Import SpscQueue.
From S2P Require Import MatchingEngine.
From S2P Require Import RiskManager.
Import RiskManager.

(** ** The engine implements the interface *)

#[export] Program Instance MatchingEngine_OrderSink {P} `{!OrderPool P} : OrderSink (MatchingEngine.t P) := {|
  sink_submit := MatchingEngine.submit_order;
  sink_cancel := MatchingEngine.cancel_order;
  sink_holds m reqs := SPSCQueue.holds (MatchingEngine.input_queue_ m) reqs
|}.
Next Obligation.
  intros P HP m reqs a (T0 & H & Hr). unfold MatchingEngine.submit_order, MatchingEngine.submit.
  pose proof (SPSCQueue.push_spec _ _ _ _ (make_new_order (Some a)) Hr) as Hp.
  case_decide as Hd; destruct Hp as (q' & -> & Hr'); do 2 eexists; (split; [reflexivity|]).
  - by exists T0, (H + 1).
  - by exists T0, H.
Qed.
Next Obligation.
  intros P HP m reqs k c (T0 & H & Hr). unfold MatchingEngine.cancel_order, MatchingEngine.submit.
  pose proof (SPSCQueue.push_spec _ _ _ _ (make_cancel k c) Hr) as Hp.
  case_decide as Hd; destruct Hp as (q' & -> & Hr'); do 2 eexists; (split; [reflexivity|]).
  - by exists T0, (H + 1).
  - by exists T0, H.
Qed.

Section risk.
Context {P E : Type} `{!OrderPool P} `{!OrderSink E}.
Variable steady_clock : nat -> Timestamp.
Abbreviation st := (RiskManager.st P E).
Implicit Types s : st.

(** ** Reading the state *)

Definition client_of s (k : cstring) : ClientRiskState :=
  default (mkClient ∅ 0 0 0) (client_states_ (rm s) !! k).
Definition exposure s (k : cstring) : Z := notional_exposure_scaled (client_of s k).
Definition active s (k : cstring) : gset Z := active_orders (client_of s k).

(** The client as the checks see it: created on first sight. *)
Definition seen_client s (o : Order) : ClientRiskState := fst (get_or_create_client steady_clock (client_id o) s).
Definition seen_ticks s (o : Order) : nat := ticks (snd (get_or_create_client steady_clock (client_id o) s)).
Definition rated s (o : Order) : bool * ClientRiskState :=
  check_rate_limit (config_ (rm s)) (steady_clock (seen_ticks s o)) (seen_client s o).

Lemma seen_client_account s o :
  active_orders (seen_client s o) = active s (FixedString.c_str (client_id o)) /\
  notional_exposure_scaled (seen_client s o) = exposure s (FixedString.c_str (client_id o)).
Proof.
  unfold seen_client, get_or_create_client, exposure, active, client_of.
  by destruct (client_states_ (rm s) !! FixedString.c_str (client_id o)).
Qed.

Lemma check_rate_limit_account c now cl :
  active_orders (check_rate_limit c now cl).2 = active_orders cl /\
  notional_exposure_scaled (check_rate_limit c now cl).2 = notional_exposure_scaled cl.
Proof. unfold check_rate_limit. cbn zeta. repeat case_match; done. Qed.

(** ** The outcome of the checks, in terms of the state before *)

Definition collar s (o : Order) (cfg : SymbolConfig) : option bool :=
  if price_collar_enabled (config_ (rm s)) then check_price_collar_int (rm s) o cfg else Some true.

Definition credit_ok s (o : Order) : bool :=
  exposure s (FixedString.c_str (client_id o)) +₆₄ calculate_notional_int o <=? max_notional_scaled_ (rm s).

(** What the state before the forwarding looks like. *)
Definition checked s (o : Order) : st :=
  put_client (client_id o) (rated s o).2
    (mkst (rm (snd (get_or_create_client steady_clock (client_id o) s))) (pool s) (S (seen_ticks s o))).

Lemma get_or_create_frame s o :
  let s' := snd (get_or_create_client steady_clock (client_id o) s) in
  pool s' = pool s /\ config_ (rm s') = config_ (rm s) /\ max_notional_scaled_ (rm s') = max_notional_scaled_ (rm s) /\
  reference_prices_ (rm s') = reference_prices_ (rm s) /\ symbol_configs_ (rm s') = symbol_configs_ (rm s) /\
  matching_engines_ (rm s') = matching_engines_ (rm s) /\ order_symbol_index_ (rm s') = order_symbol_index_ (rm s) /\
  local_stats_ (rm s') = local_stats_ (rm s).
Proof. unfold get_or_create_client. by destruct (client_states_ (rm s) !! _). Qed.

(** The part of [process_new_order] after the checks. *)
Definition forward (ptr : nat) (o : Order) s : option (option RiskResult * st) :=
  let sym := FixedString.c_str (symbol o) in
  let client := client_of s (FixedString.c_str (client_id o)) in
  let order_notional := calculate_notional_int o in
  let s := put_client (client_id o)
    (mkClient ({[id o]} ∪ active_orders client) (notional_exposure_scaled client +₆₄ order_notional)
       (orders_in_window client) (window_start_ns client)) s in
  let s := with_rm (fun r => set_index (<[id o := sym]> (order_symbol_index_ r)) r) s in
  match matching_engines_ (rm s) !! sym with
  | Some engine =>
      let '(ok, engine) := sink_submit (Some ptr) engine in
      let s := with_rm (fun r => set_engines (<[sym := engine]> (matching_engines_ r)) r) s in
      if negb ok
      then reject_order ptr REJECTED_QUEUE_FULL (unwind (client_id o) (id o) order_notional s)
      else
        p ← modify ptr (set_status ACCEPTED) (pool s);
        Some (Some APPROVED, mkst (set_stats (inc_approved (local_stats_ (rm s))) (rm s)) p (ticks s))
  | None => reject_order ptr REJECTED_SYMBOL (unwind (client_id o) (id o) order_notional s)
  end.

Lemma client_of_put k c s : client_of (put_client k c s) (FixedString.c_str k) = c.
Proof. unfold client_of, put_client. simpl. by rewrite lookup_insert_eq. Qed.

Lemma client_of_put_ne k c s k' :
  FixedString.c_str k <> k' -> client_of (put_client k c s) k' = client_of s k'.
Proof. intros Hne. unfold client_of, put_client. simpl. by rewrite lookup_insert_ne. Qed.

(** The whole handler, check by check. *)
Lemma process_new_order_eq ptr o s :
  deref (pool s) ptr = Some o ->
  process_new_order steady_clock (Some ptr) s =
    match symbol_configs_ (rm s) !! FixedString.c_str (symbol o) with
    | None => reject_order ptr REJECTED_SYMBOL s
    | Some cfg =>
        if (quantity o =? 0) || (max_order_size (config_ (rm s)) <? quantity o)
        then reject_order ptr REJECTED_SIZE s
        else if negb (rated s o).1 then reject_order ptr REJECTED_RATE_LIMIT (checked s o)
        else if bool_decide (id o ∈ active s (FixedString.c_str (client_id o)))
        then reject_order ptr REJECTED_DUPLICATE (checked s o)
        else
          c ← collar s o cfg;
          if negb c then reject_order ptr REJECTED_PRICE (checked s o)
          else if negb (credit_ok s o) then reject_order ptr REJECTED_CREDIT (checked s o)
          else forward ptr o (checked s o)
    end.
Proof.
  intros Ho. unfold process_new_order. rewrite Ho. cbn [mbind option_bind].
  destruct (symbol_configs_ (rm s) !! FixedString.c_str (symbol o)) as [cfg|]; [|done].
  destruct ((quantity o =? 0) || (max_order_size (config_ (rm s)) <? quantity o)); [done|].
  destruct (seen_client_account s o) as [Hact Hexp].
  pose proof (get_or_create_frame s o) as (Hp & Hc & Hm & Hrp & _ & He & Hi & Hl).
  unfold forward, credit_ok, collar, checked, rated, seen_client, seen_ticks in *.
  destruct (get_or_create_client steady_clock (client_id o) s) as [client s1] eqn:Eg.
  cbn [fst snd] in *. rewrite Hc.
  pose proof (check_rate_limit_account (config_ (rm s)) (steady_clock (ticks s1)) client) as [Ha2 He2].
  destruct (check_rate_limit (config_ (rm s)) (steady_clock (ticks s1)) client) as [ok client2].
  cbn [fst snd] in *. rewrite Hp Hact in Ha2 |- *. rewrite Ha2.
  destruct (negb ok); [done|]. destruct (bool_decide _); [done|].
  cbn [put_client with_rm rm config_ set_clients]. rewrite Hc.
  assert (forall x, check_price_collar_int (set_clients x (rm s1)) o cfg = check_price_collar_int (rm s) o cfg) as Hcol.
  { intros x. unfold check_price_collar_int. simpl. by rewrite Hrp. }
  rewrite Hcol. destruct (if price_collar_enabled (config_ (rm s)) then _ else _) as [[]|]; [|done|done].
  cbn [mbind option_bind negb]. cbn [max_notional_scaled_ set_clients]. rewrite Hm He2 Hexp.
  rewrite Z.ltb_antisym. destruct (_ <=? _); [|done]. cbn [negb].
  rewrite client_of_put. rewrite Ha2 He2 Hexp. done.
Qed.

(** ** Frames *)

(** Same accounts, same configuration, and every engine still holds what it
    held. *)
Record quiet s s' : Prop := {
  q_active k : active s' k = active s k;
  q_exposure k : exposure s' k = exposure s k;
  q_limit : max_notional_scaled_ (rm s') = max_notional_scaled_ (rm s);
  q_config : config_ (rm s') = config_ (rm s);
  q_engines k e' : matching_engines_ (rm s') !! k = Some e' ->
    exists e, matching_engines_ (rm s) !! k = Some e /\ forall reqs, sink_holds e reqs -> sink_holds e' reqs
}.

Lemma quiet_refl s : quiet s s.
Proof. split; try done. eauto. Qed.

Lemma quiet_trans s1 s2 s3 : quiet s1 s2 -> quiet s2 s3 -> quiet s1 s3.
Proof.
  intros [A1 A2 A3 A4 A5] [B1 B2 B3 B4 B5]. split; [| |congruence|congruence|].
  - intros k. by rewrite B1.
  - intros k. by rewrite B2.
  - intros k e3 H3. destruct (B5 k e3 H3) as (e2 & H2 & Hh2).
    destruct (A5 k e2 H2) as (e1 & H1 & Hh1). eauto.
Qed.

Lemma accounts_put s o cl :
  active_orders cl = active s (FixedString.c_str (client_id o)) ->
  notional_exposure_scaled cl = exposure s (FixedString.c_str (client_id o)) ->
  quiet s (put_client (client_id o) cl s).
Proof.
  intros Ha He. split; try done; [| |eauto].
  all: intros k; unfold active, exposure in *.
  all: destruct (decide (FixedString.c_str (client_id o) = k)) as [<-|Hne];
    [by rewrite client_of_put|by rewrite client_of_put_ne].
Qed.

Lemma quiet_get_or_create s o : quiet s (snd (get_or_create_client steady_clock (client_id o) s)).
Proof.
  unfold get_or_create_client.
  destruct (client_states_ (rm s) !! FixedString.c_str (client_id o)) as [c|] eqn:Ec; [apply quiet_refl|].
  simpl. split; simpl; try done; [| |eauto]; intros k; unfold active, exposure, client_of; simpl;
    destruct (decide (FixedString.c_str (client_id o) = k)) as [<-|Hne];
    by rewrite ?lookup_insert_eq ?lookup_insert_ne // ?Ec.
Qed.

Lemma quiet_checked s o : quiet s (checked s o).
Proof.
  destruct (check_rate_limit_account (config_ (rm s)) (steady_clock (seen_ticks s o)) (seen_client s o)) as [Ha He].
  destruct (seen_client_account s o) as [Ha2 He2]. pose proof (quiet_get_or_create s o) as Hq.
  eapply quiet_trans; [exact Hq|]. unfold checked, rated.
  set (s1 := snd (get_or_create_client steady_clock (client_id o) s)) in *.
  pose proof (accounts_put s1 o (check_rate_limit (config_ (rm s)) (steady_clock (seen_ticks s o)) (seen_client s o)).2) as Hput.
  destruct Hput as [H1 H2 H3 H4 H5].
  - by rewrite Ha Ha2 (q_active _ _ Hq).
  - by rewrite He He2 (q_exposure _ _ Hq).
  - by split.
Qed.

Lemma quiet_reject ptr reason s r s' :
  reject_order ptr reason s = Some (r, s') -> r = Some reason /\ quiet s s'.
Proof.
  unfold reject_order. intros H. inv_bind H. split; [done|]. split; try done. eauto.
Qed.

Lemma reject_some ptr reason s o :
  deref (pool s) ptr = Some o -> exists s', reject_order ptr reason s = Some (Some reason, s').
Proof. intros Ho. unfold reject_order. rewrite (modify_some _ _ _ _ Ho). simpl. eauto. Qed.

(** ** Forwarding *)

(** The outcome of [forward], read off the accounts. *)
Record forwarded (ptr : nat) (o : Order) s s' : Prop := {
  f_engine : exists e e', matching_engines_ (rm s) !! FixedString.c_str (symbol o) = Some e /\
    sink_submit (Some ptr) e = (true, e') /\
    matching_engines_ (rm s') = <[FixedString.c_str (symbol o) := e']> (matching_engines_ (rm s));
  f_active k : active s' k =
    if decide (FixedString.c_str (client_id o) = k) then {[id o]} ∪ active s k else active s k;
  f_exposure k : exposure s' k =
    if decide (FixedString.c_str (client_id o) = k) then exposure s k +₆₄ calculate_notional_int o else exposure s k;
  f_index : order_symbol_index_ (rm s') = <[id o := FixedString.c_str (symbol o)]> (order_symbol_index_ (rm s));
  f_limit : max_notional_scaled_ (rm s') = max_notional_scaled_ (rm s);
  f_approved : rs_approved (local_stats_ (rm s')) = rs_approved (local_stats_ (rm s)) +₆₄ 1;
  f_status : deref (pool s') ptr = Some (set_status ACCEPTED o)
}.

Lemma unwind_quiet o s0 s :
  let k := FixedString.c_str (client_id o) in
  id o ∉ active s0 k -> u64 (exposure s0 k) ->
  (forall k', client_of s k' = if decide (k = k') then
      mkClient ({[id o]} ∪ active s0 k) (exposure s0 k +₆₄ calculate_notional_int o)
        (orders_in_window (client_of s0 k)) (window_start_ns (client_of s0 k))
    else client_of s0 k') ->
  is_Some (client_states_ (rm s) !! k) ->
  max_notional_scaled_ (rm s) = max_notional_scaled_ (rm s0) -> config_ (rm s) = config_ (rm s0) ->
  (forall k e', matching_engines_ (rm s) !! k = Some e' ->
    exists e, matching_engines_ (rm s0) !! k = Some e /\ forall reqs, sink_holds e reqs -> sink_holds e' reqs) ->
  quiet s0 (unwind (client_id o) (id o) (calculate_notional_int o) s).
Proof.
  intros k Hna Hu Hcl [c Hc] Hl Hcf He. unfold unwind. fold k. rewrite Hc.
  assert (c = client_of s k) as Hck by (unfold client_of; by rewrite Hc).
  rewrite Hck (Hcl k) decide_True //. cbn [active_orders notional_exposure_scaled orders_in_window window_start_ns].
  split; simpl; try done.
  - intros k'. unfold active at 1, client_of. simpl. destruct (decide (k = k')) as [<-|Hne].
    + rewrite lookup_insert_eq /=. set_solver.
    + rewrite lookup_insert_ne //. change (active s k' = active s0 k'). unfold active.
      by rewrite Hcl decide_False.
  - intros k'. unfold exposure at 1, client_of. simpl. destruct (decide (k = k')) as [<-|Hne].
    + rewrite lookup_insert_eq /=. rewrite wrap_sub_l. replace (_ + _ - _) with (exposure s0 k) by lia.
      by apply wrap_small.
    + rewrite lookup_insert_ne //. change (exposure s k' = exposure s0 k'). unfold exposure.
      by rewrite Hcl decide_False.
Qed.

Lemma sink_refused a e e' reqs :
  sink_submit (Some a) e = (false, e') -> sink_holds e reqs -> sink_holds e' reqs.
Proof.
  intros Hs Hh. destruct (sink_submit_law e reqs a Hh) as (ok & e2 & He & Hh2).
  rewrite Hs in He. by simplify_eq.
Qed.

Lemma sink_accepted a e e' reqs :
  sink_submit (Some a) e = (true, e') -> sink_holds e reqs -> sink_holds e' (reqs ++ [NEW_ORDER (Some a)]).
Proof.
  intros Hs Hh. destruct (sink_submit_law e reqs a Hh) as (ok & e2 & He & Hh2).
  rewrite Hs in He. by simplify_eq.
Qed.

(** The state with the order already on the books. *)
Lemma booked_client o s k' :
  let k := FixedString.c_str (client_id o) in
  let client := client_of s k in
  client_of (put_client (client_id o)
    (mkClient ({[id o]} ∪ active_orders client) (notional_exposure_scaled client +₆₄ calculate_notional_int o)
       (orders_in_window client) (window_start_ns client)) s) k' =
  if decide (k = k') then
    mkClient ({[id o]} ∪ active s k) (exposure s k +₆₄ calculate_notional_int o)
      (orders_in_window (client_of s k)) (window_start_ns (client_of s k))
  else client_of s k'.
Proof.
  cbn zeta. case_decide as Hd; [subst k'; by rewrite client_of_put|by rewrite client_of_put_ne].
Qed.

Lemma forward_spec ptr o s :
  let k := FixedString.c_str (client_id o) in
  deref (pool s) ptr = Some o -> id o ∉ active s k -> u64 (exposure s k) ->
  exists r s', forward ptr o s = Some (Some r, s') /\
    ((r = APPROVED /\ forwarded ptr o s s') \/
     (r = REJECTED_QUEUE_FULL /\ quiet s s') \/
     (r = REJECTED_SYMBOL /\ quiet s s' /\ matching_engines_ (rm s) !! FixedString.c_str (symbol o) = None)).
Proof.
  intros k Ho Hna Hu. unfold forward. cbn zeta.
  pose proof (booked_client o s) as Hb. cbn zeta in Hb. fold k in Hb |- *.
  match goal with |- context [put_client (client_id o) ?c s] => set (s1 := put_client (client_id o) c s) in * end.
  assert (is_Some (client_states_ (rm s1) !! k)) as Hsome.
  { unfold s1, put_client. simpl. rewrite lookup_insert_eq. eauto. }
  change (matching_engines_ (rm (with_rm _ s1))) with (matching_engines_ (rm s)).
  destruct (matching_engines_ (rm s) !! FixedString.c_str (symbol o)) as [e|] eqn:Ee.
  - destruct (sink_submit (Some ptr) e) as [ok e'] eqn:Es. destruct ok; cbn [negb].
    + change (pool (with_rm _ (with_rm _ s1))) with (pool s). rewrite (modify_some _ _ _ _ Ho). cbn [mbind option_bind].
      do 2 eexists. split; [reflexivity|]. left. split; [done|]. split; simpl.
      * exists e, e'. done.
      * intros k'. change (active s1 k' = if decide (k = k') then {[id o]} ∪ active s k' else active s k').
        unfold active at 1. rewrite Hb. by case_decide as Hd; [subst k'|].
      * intros k'. change (exposure s1 k' = if decide (k = k') then exposure s k' +₆₄ calculate_notional_int o else exposure s k').
        unfold exposure at 1. rewrite Hb. by case_decide as Hd; [subst k'|].
      * done.
      * done.
      * done.
      * apply deref_store_eq. eauto.
    + match goal with |- context [reject_order ptr ?why ?x] => destruct (reject_some ptr why x o) as [s' Hs'] end.
      { unfold unwind. by destruct (client_states_ _ !! _). }
      exists REJECTED_QUEUE_FULL, s'. split; [exact Hs'|]. right. left. split; [done|].
      destruct (quiet_reject _ _ _ _ _ Hs') as [_ Hq]. eapply quiet_trans; [|exact Hq].
      apply unwind_quiet; try done. intros k' e2. simpl. rewrite lookup_insert_Some.
      intros [[<- <-]|[_ He2]]; [|by eauto]. exists e. split; [done|]. intros reqs. by apply (sink_refused ptr).
  - match goal with |- context [reject_order ptr ?why ?x] => destruct (reject_some ptr why x o) as [s' Hs'] end.
    { unfold unwind. by destruct (client_states_ _ !! _). }
    exists REJECTED_SYMBOL, s'. split; [exact Hs'|]. right. right. split_and!; [done| |done].
    destruct (quiet_reject _ _ _ _ _ Hs') as [_ Hq]. eapply quiet_trans; [|exact Hq].
    apply unwind_quiet; try done. eauto.
Qed.

(** ** The handler *)

(** The checks an order must pass, in the order of the code. *)
Definition first_failure s (o : Order) : option RiskResult :=
  match symbol_configs_ (rm s) !! FixedString.c_str (symbol o) with
  | None => Some REJECTED_SYMBOL
  | Some cfg =>
      if (quantity o =? 0) || (max_order_size (config_ (rm s)) <? quantity o) then Some REJECTED_SIZE
      else if negb (rated s o).1 then Some REJECTED_RATE_LIMIT
      else if bool_decide (id o ∈ active s (FixedString.c_str (client_id o))) then Some REJECTED_DUPLICATE
      else if bool_decide (collar s o cfg = Some false) then Some REJECTED_PRICE
      else if negb (credit_ok s o) then Some REJECTED_CREDIT
      else None
  end.

(** The collar percentage of every configured symbol converts to an integer. *)
Definition collars_ok s : Prop :=
  map_Forall (fun _ cfg => is_Some (trunc_u64 (price_collar_pct cfg))) (symbol_configs_ (rm s)).

Lemma collar_some s o cfg :
  is_Some (trunc_u64 (price_collar_pct cfg)) -> is_Some (collar s o cfg).
Proof.
  intros [p Hp]. unfold collar, check_price_collar_int. rewrite Hp.
  repeat case_match; simpl; eauto.
Qed.

Lemma checked_pool s o : pool (checked s o) = pool s.
Proof. done. Qed.

Lemma process_new_order_total ptr o s :
  deref (pool s) ptr = Some o -> collars_ok s -> u64 (exposure s (FixedString.c_str (client_id o))) ->
  exists r s', process_new_order steady_clock (Some ptr) s = Some (Some r, s') /\
    match first_failure s o with
    | Some why => r = why /\ quiet s s'
    | None =>
        (r = APPROVED /\ forwarded ptr o (checked s o) s') \/
        (r = REJECTED_QUEUE_FULL /\ quiet s s') \/
        (r = REJECTED_SYMBOL /\ quiet s s' /\
         matching_engines_ (rm (checked s o)) !! FixedString.c_str (symbol o) = None)
    end.
Proof.
  intros Ho Hcol Hu. rewrite (process_new_order_eq ptr o s Ho). unfold first_failure.
  pose proof (quiet_checked s o) as Hqc.
  assert (forall s1 why, deref (pool s1) ptr = Some o -> quiet s s1 -> exists r s', reject_order ptr why s1 = Some (Some r, s') /\
    r = why /\ quiet s s') as Hrej.
  { intros s1 why Ho1 Hq1. destruct (reject_some ptr why s1 o Ho1) as [s' Hs']. exists why, s'.
    destruct (quiet_reject _ _ _ _ _ Hs') as [_ Hq]. split_and!; [done|done|]. by eapply quiet_trans. }
  destruct (symbol_configs_ (rm s) !! FixedString.c_str (symbol o)) as [cfg|] eqn:Ecfg;
    [|by apply Hrej; [|apply quiet_refl]].
  destruct (_ || _); [by apply Hrej; [|apply quiet_refl]|].
  destruct (negb (rated s o).1); [by apply Hrej|].
  case_bool_decide as Hdup; [by apply Hrej|].
  destruct (collar_some s o cfg (Hcol _ _ Ecfg)) as [c Hc]. rewrite Hc. cbn [mbind option_bind].
  destruct c; cbn [negb]; [|by rewrite bool_decide_eq_true_2 //; apply Hrej].
  rewrite bool_decide_eq_false_2 //. destruct (credit_ok s o); cbn [negb]; [|by apply Hrej].
  destruct (forward_spec ptr o (checked s o)) as (r & s' & Hf & Hr); [done| |by rewrite (q_exposure _ _ Hqc)|].
  { by rewrite (q_active _ _ Hqc). }
  exists r, s'. split; [done|]. destruct Hr as [[? ?]|[[? Hq]|(? & Hq & ?)]]; [by left|right; left|right; right].
  - split; [done|]. by eapply quiet_trans.
  - split_and!; [done|by eapply quiet_trans|done].
Qed.

End risk.

(** ** Exactness of the integer checks *)

(** The collar on the real line: the order price is within [pct] percent of the
    reference price. *)
Definition within_collar (ref pct px : Z) : bool :=
  (ref * (100 - pct) <=? px * 100) && (px * 100 <=? ref * (100 + pct)).

Section exact.
Context {P E : Type} `{!OrderPool P} `{!OrderSink E}.
Variable steady_clock : nat -> Timestamp.
Abbreviation st := (RiskManager.st P E).
Implicit Types s : st.

Lemma collar_exact (r : RiskManager.t E) o cfg ref pct :
  reference_prices_ r !! FixedString.c_str (symbol o) = Some ref ->
  trunc_u64 (price_collar_pct cfg) = Some pct -> pct <= 100 ->
  0 < ref < 2 ^ 64 -> 0 <= price o < 2 ^ 64 ->
  check_price_collar_int r o cfg = Some (within_collar ref pct (price o)).
Proof.
  intros Hr Hp Hle Hre Hpr. apply trunc_u64_range in Hp as Hrange. unfold check_price_collar_int.
  rewrite Hr Hp. destruct (Z.eqb_spec ref 0); [lia|]. cbn [mbind option_bind].
  assert (wrap 64 (100 - pct) = 100 - pct) as -> by (apply wrap_small; u_lia).
  assert (wrap 64 (100 + pct) = 100 + pct) as -> by (apply wrap_small; u_lia).
  assert (forall x y, 0 <= x < 2 ^ 64 -> 0 <= y <= 200 -> wrap 128 (x * y) = x * y) as Hw.
  { intros x y Hx Hy. apply wrap_small. split; [nia|].
    assert (x * y <= 2 ^ 64 * 200) by nia. change (2 ^ 128) with (2 ^ 64 * 18446744073709551616). lia. }
  rewrite !Hw; try lia. done.
Qed.

Lemma credit_exact s o :
  0 <= price o -> 0 <= quantity o -> 0 <= exposure s (FixedString.c_str (client_id o)) ->
  exposure s (FixedString.c_str (client_id o)) + price o * quantity o < 2 ^ 64 ->
  credit_ok s o = (exposure s (FixedString.c_str (client_id o)) + price o * quantity o <=? max_notional_scaled_ (rm s)).
Proof.
  intros Hp Hq He Hlt. unfold credit_ok, calculate_notional_int.
  rewrite wrap_add_r wrap_small //. split; nia.
Qed.

(** ** Exposure over runs *)

Definition accounts_ok s : Prop :=
  max_notional_scaled_ (rm s) < 2 ^ 64 /\ collars_ok s /\
  forall k, 0 <= exposure s k <= max_notional_scaled_ (rm s).

Lemma quiet_accounts s s' :
  quiet s s' -> symbol_configs_ (rm s') = symbol_configs_ (rm s) -> accounts_ok s -> accounts_ok s'.
Proof.
  intros Hq Hc (H1 & H2 & H3). split_and!; [by rewrite (q_limit _ _ Hq)|by unfold collars_ok; rewrite Hc|].
  intros k. rewrite (q_exposure _ _ Hq) (q_limit _ _ Hq). apply H3.
Qed.

Lemma reject_symbols ptr why s r s' :
  reject_order ptr why s = Some (r, s') -> symbol_configs_ (rm s') = symbol_configs_ (rm s).
Proof. unfold reject_order. intros H. by inv_bind H. Qed.

Lemma unwind_symbols c k n s : symbol_configs_ (rm (unwind c k n s)) = symbol_configs_ (rm s).
Proof. unfold unwind. by destruct (client_states_ (rm s) !! _). Qed.

Lemma checked_symbols s o : symbol_configs_ (rm (checked steady_clock s o)) = symbol_configs_ (rm s).
Proof. simpl. apply (get_or_create_frame steady_clock s o). Qed.

Lemma forward_symbols ptr o s r s' :
  forward ptr o s = Some (r, s') -> symbol_configs_ (rm s') = symbol_configs_ (rm s).
Proof.
  unfold forward. cbn zeta. destruct (matching_engines_ _ !! _) as [e|].
  - destruct (sink_submit (Some ptr) e) as [[] e']; cbn [negb].
    + intros H. by inv_bind H.
    + intros H. by rewrite (reject_symbols _ _ _ _ _ H) unwind_symbols.
  - intros H. by rewrite (reject_symbols _ _ _ _ _ H) unwind_symbols.
Qed.

Lemma process_symbols ptr s r s' :
  process_new_order steady_clock (Some ptr) s = Some (r, s') ->
  symbol_configs_ (rm s') = symbol_configs_ (rm s).
Proof.
  intros H. destruct (deref (pool s) ptr) as [o|] eqn:Ho; [|by unfold process_new_order in H; rewrite Ho in H].
  rewrite (process_new_order_eq steady_clock ptr o s Ho) in H.
  assert (forall why, reject_order ptr why (checked steady_clock s o) = Some (r, s') ->
    symbol_configs_ (rm s') = symbol_configs_ (rm s)) as Hrej.
  { intros why Hw. rewrite -(checked_symbols s o). by apply reject_symbols in Hw. }
  destruct (symbol_configs_ (rm s) !! FixedString.c_str (symbol o)) as [cfg|]; [|by apply reject_symbols in H].
  destruct (_ || _); [by apply reject_symbols in H|]. destruct (negb _); [by apply Hrej in H|].
  destruct (bool_decide _); [by apply Hrej in H|]. apply bind_Some in H as (c & _ & H).
  destruct (negb c); [by apply Hrej in H|]. destruct (negb (credit_ok s o)); [by apply Hrej in H|].
  rewrite -(checked_symbols s o). by apply forward_symbols in H.
Qed.

Lemma new_order_accounts ptr s r s' :
  accounts_ok s -> process_new_order steady_clock ptr s = Some (r, s') -> accounts_ok s'.
Proof.
  intros Hok H. destruct ptr as [ptr|]; [|by simpl in H; simplify_eq].
  pose proof (process_symbols _ _ _ _ H) as Hsym.
  destruct (deref (pool s) ptr) as [o|] eqn:Ho; [|by unfold process_new_order in H; rewrite Ho in H].
  destruct Hok as (Hl & Hcol & He).
  destruct (process_new_order_total steady_clock ptr o s Ho Hcol) as (r1 & s1 & H1 & Hcase).
  { pose proof (He (FixedString.c_str (client_id o))). split; lia. }
  rewrite H in H1. simplify_eq.
  assert (quiet s s1 -> accounts_ok s1) as Hquiet by (intros Hq; by eapply quiet_accounts).
  destruct (first_failure steady_clock s o) as [why|] eqn:Hff; [by apply Hquiet, Hcase|].
  destruct Hcase as [[_ Hf]|[[_ Hq]|(_ & Hq & _)]]; [|by apply Hquiet|by apply Hquiet].
  assert (credit_ok s o = true) as Hcr.
  { unfold first_failure in Hff. repeat case_match; try done. by destruct (credit_ok s o). }
  pose proof (quiet_checked steady_clock s o) as Hqc.
  split_and!; [by rewrite (f_limit _ _ _ _ Hf) (q_limit _ _ Hqc)|by unfold collars_ok; rewrite Hsym|].
  intros k'. rewrite (f_exposure _ _ _ _ Hf) (f_limit _ _ _ _ Hf) (q_limit _ _ Hqc) !(q_exposure _ _ Hqc).
  case_decide as Hd; [|apply He]. subst k'. unfold credit_ok in Hcr.
  pose proof (wrap_range 64 (exposure s (FixedString.c_str (client_id o)) + calculate_notional_int o) ltac:(lia)) as Hw.
  unfold is_u in Hw. lia.
Qed.

(** What a cancel does to the accounts: the order leaves the client's active
    set, the exposure stays. *)
Lemma cancel_active s i c k :
  active (process_cancel i c s) k = if decide (FixedString.c_str c = k) then active s k ∖ {[i]} else active s k.
Proof.
  unfold process_cancel. cbn zeta.
  destruct (client_states_ (rm s) !! FixedString.c_str c) as [cl|] eqn:Ecl.
  2: { case_decide as Hd; [subst k|done]. unfold active, client_of. simpl. rewrite Ecl. set_solver. }
  case_bool_decide as Hin; cbn [negb].
  2: { case_decide as Hd; [subst k|done]. change (active s (FixedString.c_str c) = active s (FixedString.c_str c) ∖ {[i]}).
       unfold active, client_of. rewrite Ecl. simpl. set_solver. }
  unfold active, client_of, put_client. simpl. case_decide as Hd.
  - subst k. rewrite lookup_insert_eq Ecl. done.
  - rewrite lookup_insert_ne //. by repeat case_match.
Qed.

Lemma cancel_exposure s i c k : exposure (process_cancel i c s) k = exposure s k.
Proof.
  unfold process_cancel. cbn zeta.
  destruct (client_states_ (rm s) !! FixedString.c_str c) as [cl|] eqn:Ecl; [|done].
  case_bool_decide as Hin; cbn [negb]; [|done].
  unfold exposure, client_of, put_client. simpl. destruct (decide (FixedString.c_str c = k)) as [<-|Hd].
  - by rewrite lookup_insert_eq Ecl.
  - rewrite lookup_insert_ne //. by repeat case_match.
Qed.

Lemma cancel_config s i c :
  max_notional_scaled_ (rm (process_cancel i c s)) = max_notional_scaled_ (rm s) /\
  symbol_configs_ (rm (process_cancel i c s)) = symbol_configs_ (rm s).
Proof.
  unfold process_cancel. cbn zeta. destruct (client_states_ (rm s) !! _) as [cl|]; [|done].
  case_bool_decide; [|done]. simpl. by repeat case_match.
Qed.

Lemma dispatch_accounts req s s' :
  accounts_ok s -> dispatch steady_clock req s = Some s' -> accounts_ok s'.
Proof.
  intros Hok H. destruct req as [ptr|i c]; simpl in H.
  - apply fmap_Some in H as ([r s1] & H & ->). by eapply new_order_accounts.
  - simplify_eq. destruct Hok as (Hl & Hcol & He). destruct (cancel_config s i c) as [Hm Hsym].
    split_and!; [by rewrite Hm|by unfold collars_ok; rewrite Hsym|].
    intros k. rewrite cancel_exposure Hm. apply He.
Qed.

End exact.

(** ** The rate limiter over a sequence of orders *)

Fixpoint rate_run (config : RiskConfig) (client : ClientRiskState) (times : list Timestamp) : list bool :=
  match times with
  | [] => []
  | now :: rest =>
      let '(ok, client) := check_rate_limit config now client in ok :: rate_run config client rest
  end.

Definition passed (oks : list bool) : Z := sumZ ((fun b : bool => if b then 1 else 0) <$> oks).

Lemma rate_run_bound config client times :
  0 <= max_orders_per_second config < 2 ^ 32 ->
  0 <= orders_in_window client <= max_orders_per_second config ->
  Forall (fun now => now -₆₄ window_start_ns client < RATE_LIMIT_WINDOW_NS) times ->
  passed (rate_run config client times) <= max_orders_per_second config - orders_in_window client.
Proof.
  intros Hm. revert client. induction times as [|now times IH]; intros client Hc Ht; simpl.
  - unfold passed. simpl. lia.
  - apply Forall_cons in Ht as [Hnow Ht]. unfold check_rate_limit.
    destruct (Z.leb_spec RATE_LIMIT_WINDOW_NS (now -₆₄ window_start_ns client)); [lia|].
    destruct (Z.leb_spec (max_orders_per_second config) (orders_in_window client)).
    + specialize (IH client Hc Ht). unfold passed in *. rewrite fmap_cons sumZ_cons. lia.
    + set (client' := mkClient _ _ _ _).
      assert (orders_in_window client' = orders_in_window client + 1) as Hw by (apply wrap_small; u_lia).
      specialize (IH client' ltac:(lia) Ht). unfold passed in *. rewrite fmap_cons sumZ_cons. lia.
Qed.

(** ** Guarantees *)

Section guarantees.
Context {P E : Type} `{!OrderPool P} `{!OrderSink E}.
Variable steady_clock : nat -> Timestamp.
Abbreviation st := (RiskManager.st P E).
Implicit Types s : st.

(** C14: The handler returns on every order it can read, and its outcome is the
    first check that fails, in the order symbol, size, rate, duplicate, price,
    credit.  A rejected order changes no exposure, no active set and no engine
    queue; an order that passes is on the client's account, in the symbol index
    and at the end of its engine's queue, unless that engine refuses it, in which
    case the account is rolled back. *)
Theorem process_new_order_decides ptr o s :
  deref (pool s) ptr = Some o -> collars_ok s -> u64 (exposure s (FixedString.c_str (client_id o))) ->
  exists r s', process_new_order steady_clock (Some ptr) s = Some (Some r, s') /\
    match first_failure steady_clock s o with
    | Some why => r = why /\ quiet s s'
    | None =>
        (r = APPROVED /\ forwarded ptr o (checked steady_clock s o) s') \/
        (r = REJECTED_QUEUE_FULL /\ quiet s s') \/
        (r = REJECTED_SYMBOL /\ quiet s s' /\
         matching_engines_ (rm (checked steady_clock s o)) !! FixedString.c_str (symbol o) = None)
    end.
Proof. apply process_new_order_total. Qed.

(** The integer arithmetic of the price collar and of the credit check is
    exact: for a collar of at most 100 percent the 128-bit comparison is the one
    on the integers, and as long as exposure plus notional stays below 2^64 the
    credit check is too. *)
Theorem risk_arithmetic_exact s o cfg ref pct :
  reference_prices_ (rm s) !! FixedString.c_str (symbol o) = Some ref ->
  trunc_u64 (price_collar_pct cfg) = Some pct -> pct <= 100 -> 0 < ref < 2 ^ 64 ->
  0 <= price o < 2 ^ 64 -> 0 <= quantity o -> 0 <= exposure s (FixedString.c_str (client_id o)) ->
  exposure s (FixedString.c_str (client_id o)) + price o * quantity o < 2 ^ 64 ->
  check_price_collar_int (rm s) o cfg = Some (within_collar ref pct (price o)) /\
  credit_ok s o =
    (exposure s (FixedString.c_str (client_id o)) + price o * quantity o <=? max_notional_scaled_ (rm s)).
Proof. intros. split; [by apply collar_exact|apply credit_exact; lia]. Qed.

(** C15: Over every sequence of requests, no client's recorded exposure ever
    exceeds the configured limit. *)
Theorem exposure_bounded reqs s s' :
  accounts_ok s -> foldl (fun os req => os ≫= dispatch steady_clock req) (Some s) reqs = Some s' ->
  forall k, 0 <= exposure s' k <= max_notional_scaled_ (rm s').
Proof.
  intros Hok Hrun. enough (accounts_ok s') as (_ & _ & H) by exact H.
  revert s Hok Hrun. induction reqs as [|req reqs IH]; intros s Hok Hrun; simpl in Hrun; [by simplify_eq|].
  destruct (dispatch steady_clock req s) as [s1|] eqn:Ed; simpl in Hrun.
  - eapply IH; [|exact Hrun]. by eapply dispatch_accounts.
  - exfalso. clear -Hrun. induction reqs; simpl in *; [done|auto].
Qed.

(** While a client has an order id active, no further order with that id is
    approved for it, so an engine never receives two live orders of one client
    under one id. *)
Theorem no_duplicate_approved ptr o s s' :
  deref (pool s) ptr = Some o -> collars_ok s -> u64 (exposure s (FixedString.c_str (client_id o))) ->
  id o ∈ active s (FixedString.c_str (client_id o)) ->
  process_new_order steady_clock (Some ptr) s <> Some (Some APPROVED, s').
Proof.
  intros Ho Hcol Hu Hin H.
  destruct (process_new_order_total steady_clock ptr o s Ho Hcol Hu) as (r & s1 & H1 & Hcase).
  rewrite H in H1. simplify_eq.
  destruct (first_failure steady_clock s o) as [why|] eqn:Hff.
  - destruct Hcase as [<- _]. unfold first_failure in Hff. repeat case_match; done.
  - unfold first_failure in Hff. rewrite (bool_decide_eq_true_2 _ Hin) in Hff. repeat case_match; done.
Qed.

(** C27: A cancel reaches an engine only if the client has the id active, and then
    only the engine recorded for it; afterwards the id is no longer active, so a
    second cancel is refused without touching any engine.  Exposure is never
    given back. *)
Theorem cancel_ownership i c s :
  (i ∉ active s (FixedString.c_str c) ->
     matching_engines_ (rm (process_cancel i c s)) = matching_engines_ (rm s) /\
     order_symbol_index_ (rm (process_cancel i c s)) = order_symbol_index_ (rm s)) /\
  (forall k e', matching_engines_ (rm (process_cancel i c s)) !! k = Some e' ->
     exists e, matching_engines_ (rm s) !! k = Some e /\
       (e' = e \/ (i ∈ active s (FixedString.c_str c) /\ order_symbol_index_ (rm s) !! i = Some k /\
                   e' = snd (sink_cancel i c e)))) /\
  (i ∉ active (process_cancel i c s) (FixedString.c_str c)) /\
  (forall k, exposure (process_cancel i c s) k = exposure s k).
Proof.
  split_and!; [| | |intros k; apply cancel_exposure].
  - intros Hna. unfold process_cancel. cbn zeta. unfold active, client_of in Hna.
    destruct (client_states_ (rm s) !! FixedString.c_str c) as [cl|] eqn:Ecl; [|done]. simpl in Hna.
    by rewrite bool_decide_eq_false_2.
  - intros k e'. unfold process_cancel. cbn zeta. unfold active, client_of.
    destruct (client_states_ (rm s) !! FixedString.c_str c) as [cl|] eqn:Ecl; [|simpl; eauto].
    case_bool_decide as Hin; cbn [negb]; [|simpl; eauto]. simpl.
    destruct (order_symbol_index_ (rm s) !! i) as [sym|] eqn:Ei; [|simpl; eauto].
    destruct (matching_engines_ (rm s) !! sym) as [e|] eqn:Ee; [|simpl; eauto]. simpl.
    rewrite lookup_insert_Some. intros [[<- <-]|[_ He']]; [|by eauto]. exists e. split; [done|]. by right.
  - rewrite cancel_active decide_True //. set_solver.
Qed.

End guarantees.

(** C16: Within one second of the start of a client's window, at most
    [max_orders_per_second] orders pass the rate limiter, whatever their number. *)
Theorem rate_limit_bound config client times :
  0 <= max_orders_per_second config < 2 ^ 32 -> orders_in_window client = 0 ->
  Forall (fun now => now -₆₄ window_start_ns client < RATE_LIMIT_WINDOW_NS) times ->
  passed (rate_run config client times) <= max_orders_per_second config.
Proof. intros Hm Hz Ht. pose proof (rate_run_bound config client times Hm ltac:(lia) Ht). lia. Qed.

Lemma rate_limit_bound_witness :
  passed (rate_run (mkRiskConfig 10 (double_of_Z 1) 2 true) (mkClient ∅ 0 0 5) [5; 6; 7; 8]) <= 2.
Proof.
  apply (rate_limit_bound (mkRiskConfig 10 (double_of_Z 1) 2 true) (mkClient ∅ 0 0 5) [5; 6; 7; 8]);
    [by vm_compute|reflexivity|]. repeat constructor.
Defined.

(** A collar above 100 percent turns the lower bound into a number near 2^64:
    every order with a price below 2^56 is rejected, however close to the
    reference. *)
Theorem collar_above_100_rejects {E} (r : RiskManager.t E) o cfg ref pct :
  reference_prices_ r !! FixedString.c_str (symbol o) = Some ref ->
  trunc_u64 (price_collar_pct cfg) = Some pct -> 100 < pct < 2 ^ 63 ->
  0 < ref < 2 ^ 63 -> 0 <= price o < 2 ^ 56 ->
  check_price_collar_int r o cfg = Some false.
Proof.
  intros Hr Hp Hgt Hre Hpr. unfold check_price_collar_int. rewrite Hr Hp.
  destruct (Z.eqb_spec ref 0); [lia|]. cbn [mbind option_bind].
  change (2 ^ 63) with 9223372036854775808 in *. change (2 ^ 56) with 72057594037927936 in *.
  assert (wrap 64 (100 - pct) = 100 - pct + 18446744073709551616) as ->.
  { unfold wrap. change (2 ^ 64) with 18446744073709551616.
    rewrite -(Z.mod_add _ 1); [lia|]. apply Z.mod_small. lia. }
  assert (wrap 128 (price o * 100) = price o * 100) as ->.
  { apply wrap_small. split; [lia|]. change (2 ^ 128) with (18446744073709551616 * 18446744073709551616). lia. }
  assert (wrap 128 (ref * (100 - pct + 18446744073709551616)) = ref * (100 - pct + 18446744073709551616)) as ->.
  { apply wrap_small. split; [nia|]. change (2 ^ 128) with (18446744073709551616 * 18446744073709551616). nia. }
  rewrite (proj2 (Z.leb_gt _ _)); [nia|]. done.
Qed.

(** ** A concrete risk manager

    The default limits, one symbol with a ten percent collar around 100, the
    engine of the previous example, and a pool with orders of one client. *)

Section example.

Abbreviation ex_sink := (MatchingEngine.t (MemoryPool.t Order)).

Definition ex_cfg : SymbolConfig := mkSymbolConfig ex_symbol (double_of_Z 1) 1 (double_of_Z 10).

Definition ex_manager : RiskManager.t ex_sink :=
  match RiskManager.make RiskConfig_default [ex_cfg] with
  | Some r =>
      update_reference_price (FixedString.make SYMBOL_N (Some ex_symbol)) 100
        (add_matching_engine ex_symbol ex_engine (set_queue (SPSCQueue.mk 1 0 [RISK_NEW_ORDER None] 0 0 0 0) r))
  | None => mk RiskConfig_default 0 ∅ ∅ ∅ ∅ ∅ (SPSCQueue.mk 1 0 [] 0 0 0 0) false RiskStats_zero RiskStats_zero
  end.

Definition ex_state : RiskManager.st (MemoryPool.t Order) ex_sink := mkst ex_manager ex_pool 0.
Definition ex_incoming : Order := ex_order 3 SELL LIMIT 5 101.

Lemma ex_collars_ok : collars_ok ex_state.
Proof.
  assert (symbol_configs_ (rm ex_state) = {[ex_symbol := ex_cfg]}) as Hs by (vm_compute; reflexivity).
  unfold collars_ok. rewrite Hs. apply map_Forall_singleton. exists 10. vm_compute. reflexivity.
Qed.

Lemma ex_accounts_ok : accounts_ok ex_state.
Proof.
  split_and!; [vm_compute; reflexivity|apply ex_collars_ok|]. intros k. unfold exposure, client_of.
  assert (client_states_ (rm ex_state) = ∅) as -> by (vm_compute; reflexivity). rewrite lookup_empty.
  by vm_compute.
Qed.

Lemma process_new_order_decides_witness :
  exists r s', process_new_order ex_clock (Some 2%nat) ex_state = Some (Some r, s').
Proof.
  destruct (process_new_order_decides ex_clock 2 ex_incoming ex_state) as (r & s' & H & _);
    [vm_compute; reflexivity|exact ex_collars_ok|by vm_compute|]. exists r, s'. exact H.
Defined.

Lemma risk_arithmetic_exact_witness :
  check_price_collar_int (rm ex_state) ex_incoming ex_cfg = Some true /\ credit_ok ex_state ex_incoming = true.
Proof.
  assert (exposure ex_state (FixedString.c_str (client_id ex_incoming)) = 0) as He by (vm_compute; reflexivity).
  destruct (risk_arithmetic_exact ex_state ex_incoming ex_cfg 100 10) as [H1 H2];
    [vm_compute; reflexivity|vm_compute; reflexivity|lia|lia|cbn; lia|cbn; lia|rewrite He; lia|rewrite He; cbn; lia|].
  rewrite H1 H2 He. split; [reflexivity|]. apply Z.leb_le. vm_compute. discriminate.
Defined.

Lemma exposure_bounded_witness :
  exists s', dispatch ex_clock (RISK_NEW_ORDER (Some 2%nat)) ex_state = Some s' /\
    0 <= exposure s' [67] <= max_notional_scaled_ (rm s').
Proof.
  assert (is_Some (dispatch ex_clock (RISK_NEW_ORDER (Some 2%nat)) ex_state)) as [s' Hd].
  { eapply bool_decide_eq_true_1. vm_compute. reflexivity. }
  exists s'. split; [exact Hd|].
  apply (exposure_bounded ex_clock [RISK_NEW_ORDER (Some 2%nat)] ex_state s' ex_accounts_ok).
  cbn [foldl mbind option_bind]. exact Hd.
Defined.

(** The client already has order 3 active. *)
Definition ex_busy : RiskManager.st (MemoryPool.t Order) ex_sink :=
  put_client (client_id ex_incoming) (mkClient {[3]} 0 0 0) ex_state.

Lemma no_duplicate_approved_witness :
  process_new_order ex_clock (Some 2%nat) ex_busy <> Some (Some APPROVED, ex_state).
Proof.
  apply (no_duplicate_approved ex_clock 2 ex_incoming ex_busy ex_state);
    [vm_compute; reflexivity|exact ex_collars_ok|by vm_compute|].
  eapply bool_decide_eq_true_1. vm_compute. reflexivity.
Defined.

Lemma collar_above_100_rejects_witness :
  check_price_collar_int (rm ex_state) ex_incoming (mkSymbolConfig ex_symbol (double_of_Z 1) 1 (double_of_Z 150))
  = Some false.
Proof.
  apply (collar_above_100_rejects (rm ex_state) ex_incoming _ 100 150);
    [vm_compute; reflexivity|vm_compute; reflexivity|lia|lia|cbn; lia].
Defined.

(** The 64-bit product of price and quantity wraps: an order of 65536 shares
    at the price 2^48 counts as no exposure at all and is approved, far above the
    limit of the configuration. *)
Theorem credit_check_wraps :
  let o := ex_order 9 BUY MARKET 65536 (2 ^ 48) in
  calculate_notional_int o = 0 /\
  max_notional_scaled_ (rm ex_state) < price o * quantity o /\
  exists s', process_new_order ex_clock (Some 0%nat)
    (mkst (set_prices ∅ ex_manager) (MemoryPool.store 0 o ex_pool) 0) = Some (Some APPROVED, s') /\
    exposure s' [67] = 0.
Proof.
  cbn zeta. split_and!; [by vm_compute|by vm_compute|].
  match goal with |- context [process_new_order ex_clock (Some 0%nat) ?x] => set (s0 := x) end.
  assert ((fun rs => (fst rs, exposure (snd rs) [67])) <$> process_new_order ex_clock (Some 0%nat) s0
    = Some (Some APPROVED, 0)) as Hr by (vm_compute; reflexivity).
  apply fmap_Some in Hr as ([r s'] & Hp & Hr). injection Hr as -> He. exists s'. split; [exact Hp|by symmetry].
Qed.

End example.
