(* ===== verification/MemorySafety.v ===== *)
(** * Bounds-checked buffers and strings (memory_safety.hpp, memory_safety.cpp)

    [memcpy] on arrays is defined exactly where the C++ call is: both ranges
    must lie inside their arrays.  An operation has three outcomes: it returns,
    it throws, or it reaches undefined behaviour ([Undefined]); the theorems
    say when the last one is impossible.  Sizes are [size_t] values, so the
    range checks are written with the 64-bit wrap-around of the source. *)

From S2P Require Import Prelude Types.

Inductive outcome (A : Type) :=
| Done (a : A)
| Throws (what : string)
| Undefined.
Arguments Done {A} _.
Arguments Throws {A} _.
Arguments Undefined {A}.

Definition omap_outcome {A B} (f : A -> outcome B) (x : outcome A) : outcome B :=
  match x with Done a => f a | Throws e => Throws e | Undefined => Undefined end.
Notation "'let!' x ':=' e 'in' k" := (omap_outcome (fun x => k) e)
  (at level 10, x pattern, e at level 100, k at level 200) : rtes_scope.

(** [memcpy(dst + off, src, len)]. *)
Definition memcpy (dst : list Z) (off : Z) (src : list Z) (len : Z) : outcome (list Z) :=
  if (0 <=? off) && (0 <=? len) && (off + len <=? Z.of_nat (length dst))
     && (len <=? Z.of_nat (length src))
  then Done (take (Z.to_nat off) dst ++ take (Z.to_nat len) src
             ++ drop (Z.to_nat (off + len)) dst)
  else Undefined.

(** The bytes [memcpy(dest, src + off, len)] delivers to a large enough [dest]. *)
Definition memread (src : list Z) (off len : Z) : outcome (list Z) :=
  if (0 <=? off) && (0 <=? len) && (off + len <=? Z.of_nat (length src))
  then Done (take (Z.to_nat len) (drop (Z.to_nat off) src))
  else Undefined.

(** ** BoundsCheckedBuffer *)

Module BoundsCheckedBuffer.

(** [buffer_] is the mapped data region between the guard pages, at address
    [address]. *)
Record t := mk { address : Z; buffer_ : list Z; size_ : Z }.

Definition GUARD_SIZE : Z := 4096.

Section os.
(** [mmap] of an anonymous region: the address of the zeroed pages, if any;
    [mprotect addr len]: whether the call returns 0. *)
Context (mmap : Z -> option Z) (mprotect : Z -> Z -> bool).

Definition setup_guard_pages (b : t) : outcome t :=
  let base := address b - GUARD_SIZE in
  if negb (mprotect base GUARD_SIZE) then Throws "Failed to setup guard pages"
  else if negb (mprotect (address b + size_ b) GUARD_SIZE)
  then Throws "Failed to setup guard pages"
  else Done b.

Definition make (size : Z) : outcome t :=
  match mmap (size +₆₄ (2 * GUARD_SIZE)) with
  | None => Throws "bad_alloc"
  | Some p => setup_guard_pages (mk (p + GUARD_SIZE) (replicate (Z.to_nat size) 0) size)
  end.
End os.

Definition validate_range (b : t) (offset length : Z) : bool :=
  (offset <=? size_ b) && (length <=? (size_ b -₆₄ offset)).

Definition checked_read (b : t) (offset length : Z) : outcome (list Z) :=
  if negb (validate_range b offset length) then Throws "Read operation out of bounds"
  else memread (buffer_ b) offset length.

Definition checked_write (src : list Z) (offset length : Z) (b : t) : outcome t :=
  if negb (validate_range b offset length) then Throws "Write operation out of bounds"
  else let! d := memcpy (buffer_ b) offset src length in
       Done (mk (address b) d (size_ b)).

Definition wf (b : t) : Prop := u64 (size_ b) /\ Z.of_nat (length (buffer_ b)) = size_ b.

End BoundsCheckedBuffer.

(** ** FixedSizeBuffer *)

Module FixedSizeBuffer.

Record t := mk { data_ : list Z; used_size_ : Z }.

Definition init (MAX_SIZE : nat) : t := mk (replicate MAX_SIZE 0) 0.

Definition write (MAX_SIZE : nat) (src : list Z) (length : Z) (b : t) : outcome t :=
  if Z.of_nat MAX_SIZE <? length then Throws "Write exceeds buffer capacity"
  else let! d := memcpy (data_ b) 0 src length in Done (mk d length).

Definition read (b : t) (length : Z) : outcome (list Z) :=
  if used_size_ b <? length then Throws "Read exceeds used buffer size"
  else memread (data_ b) 0 length.

Definition append (MAX_SIZE : nat) (src : list Z) (length : Z) (b : t) : outcome t :=
  if Z.of_nat MAX_SIZE <? (used_size_ b +₆₄ length) then Throws "Append exceeds buffer capacity"
  else let! d := memcpy (data_ b) (used_size_ b) src length in
       Done (mk d (used_size_ b +₆₄ length)).

Definition remaining (MAX_SIZE : nat) (b : t) : Z := Z.of_nat MAX_SIZE -₆₄ used_size_ b.
Definition clear (b : t) : t := mk (data_ b) 0.

Definition wf (MAX_SIZE : nat) (b : t) : Prop :=
  length (data_ b) = MAX_SIZE /\ 0 <= used_size_ b <= Z.of_nat MAX_SIZE.

(** The abstract value: the bytes written so far. *)
Definition contents (b : t) : list Z := take (Z.to_nat (used_size_ b)) (data_ b).

End FixedSizeBuffer.

(** ** BoundedString *)

Module BoundedString.

Record t := mk { data_ : list Z; length_ : Z }.

Definition init (MAX_LEN : nat) : t := mk (replicate MAX_LEN 0) 0.
Definition clear (s : t) : t := mk (<[0%nat := 0]> (data_ s)) 0.

(** [assign(const char* str, size_t length)]; [str] is the array behind the
    pointer. *)
Definition assign_n (MAX_LEN : nat) (str : list Z) (length : Z) (s : t) : outcome t :=
  if Z.of_nat MAX_LEN <=? length then Throws "String length exceeds max"
  else let! d := memcpy (data_ s) 0 str length in
       Done (mk (<[Z.to_nat length := 0]> d) length).

Definition assign (MAX_LEN : nat) (str : option cstring) (s : t) : outcome t :=
  match str with
  | None => Done (clear s)
  | Some str => assign_n MAX_LEN (str ++ [0]) (Z.of_nat (length str)) s
  end.

Definition assign_truncate (MAX_LEN : nat) (str : option cstring) (s : t) : outcome t :=
  match str with
  | None => Done (clear s)
  | Some str =>
      let len := Z.of_nat (length str) in
      let len := if Z.of_nat MAX_LEN <=? len then Z.of_nat MAX_LEN - 1 else len in
      let! d := memcpy (data_ s) 0 (str ++ [0]) len in
      Done (mk (<[Z.to_nat len := 0]> d) len)
  end.

(** [view()] and [to_string()]: the first [length_] bytes. *)
Definition view (s : t) : outcome (list Z) := memread (data_ s) 0 (length_ s).

Definition eqb (a b : t) : outcome bool :=
  if negb (length_ a =? length_ b) then Done false
  else let! x := memread (data_ a) 0 (length_ a) in
       let! y := memread (data_ b) 0 (length_ a) in
       Done (bool_decide (x = y)).

(** Equality with a C string: [strncmp] over the array, up to its first zero. *)
Definition eqb_cstr (MAX_LEN : nat) (str : option cstring) (s : t) : bool :=
  match str with
  | None => length_ s =? 0
  | Some str => strncmp_eq (data_ s) (str ++ [0]) MAX_LEN
  end.

(** The copy constructor and copy assignment from a different object: the
    target's array keeps its bytes behind the copied ones. *)
Definition copy_from (other : t) (s : t) : outcome t :=
  let! d := memcpy (data_ s) 0 (data_ other) (length_ other +₆₄ 1) in
  Done (mk d (length_ other)).

(** Moves: the target and the emptied source. *)
Definition move_from (other : t) (s : t) : outcome (t * t) :=
  let! s' := copy_from other s in Done (s', clear other).

Definition wf (MAX_LEN : nat) (s : t) : Prop :=
  length (data_ s) = MAX_LEN /\ 0 <= length_ s < Z.of_nat MAX_LEN /\
  data_ s !! Z.to_nat (length_ s) = Some 0.

End BoundedString.

(** ** Decimal formatting
    [snprintf] with [PRIu64] or [PRId64]: the decimal digits, no leading zero. *)
Fixpoint digits_loop (fuel : nat) (v : Z) (acc : list Z) : list Z :=
  match fuel with
  | O => acc
  | S fuel' =>
      let acc := (48 + v mod 10) :: acc in
      if v <? 10 then acc else digits_loop fuel' (v / 10) acc
  end.

Definition print_u64 (v : Z) : cstring := digits_loop 20 v [].
Definition print_i64 (v : Z) : cstring := if v <? 0 then 45 :: print_u64 (- v) else print_u64 v.

(** [snprintf(buf, 21, ...)] keeps at most 20 characters and returns the full
    length. *)
Definition to_bounded (N : nat) (text : cstring) : outcome BoundedString.t :=
  let buf := take 20 text ++ [0] in
  let len := Z.of_nat (length text) in
  if (0 <? len) && (len <? Z.of_nat N)
  then BoundedString.assign_n N buf len (BoundedString.init N)
  else Done (BoundedString.init N).

Definition to_bounded_string_u64 (N : nat) (value : Z) : outcome BoundedString.t :=
  to_bounded N (print_u64 value).
Definition to_bounded_string_i64 (N : nat) (value : Z) : outcome BoundedString.t :=
  to_bounded N (print_i64 value).

(** ** AlignedBuffer: the size passed to [aligned_alloc], and [at]. *)

Module AlignedBuffer.

Record t (T : Type) := mk { ptr_ : list T; count_ : Z }.
Arguments mk {T}.
Arguments ptr_ {T}.
Arguments count_ {T}.

(** [(bytes + alignment - 1) & ~(alignment - 1)] with [bytes = sizeof(T) * count]. *)
Definition aligned_bytes (sizeof_T count alignment : Z) : Z :=
  Z.land ((sizeof_T *₆₄ count) +₆₄ alignment -₆₄ 1) (Z.lxor (alignment -₆₄ 1) u64_max).

Definition at_ {T} (b : t T) (i : Z) : outcome T :=
  if count_ b <=? i then Throws "AlignedBuffer index out of range"
  else match ptr_ b !! Z.to_nat i with Some x => Done x | None => Undefined end.

End AlignedBuffer.

(** ** FileDescriptor
    [closed] is the sequence of [::close] calls so far. *)

Module FileDescriptor.

Record t := mk { fd_ : Z }.

Definition valid (f : t) : bool := 0 <=? fd_ f.

Definition close (f : t) (closed : list Z) : t * list Z :=
  if 0 <=? fd_ f then (mk (-1), closed ++ [fd_ f]) else (f, closed).

Definition release (f : t) : Z * t := (fd_ f, mk (-1)).

Definition reset (new_fd : Z) (f : t) (closed : list Z) : t * list Z :=
  let '(_, closed) := close f closed in (mk new_fd, closed).

(** Move construction: the new object and the emptied source. *)
Definition move_construct (other : t) : t * t := (mk (fd_ other), mk (-1)).

(** Move assignment from another object. *)
Definition move_assign (other f : t) (closed : list Z) : t * t * list Z :=
  let '(_, closed) := close f closed in (mk (fd_ other), mk (-1), closed).

(** The destructor. *)
Definition destroy (f : t) (closed : list Z) : list Z := (close f closed).2.

(** Moving a descriptor and destroying both objects closes it once; the
    descriptor the target held before is closed first. *)
Lemma move_assign_closes_once f other closed :
  let '(f', other', closed') := move_assign other f closed in
  destroy other' (destroy f' closed') =
    closed ++ (if valid f then [fd_ f] else []) ++ (if valid other then [fd_ other] else []).
Proof.
  unfold move_assign, destroy, close, valid. destruct f as [a], other as [b]. cbn [fd_].
  destruct (0 <=? a); cbn [fst snd fd_]; destruct (0 <=? b); cbn [fst snd fd_]; simpl;
    by rewrite ?app_nil_r -?app_assoc.
Qed.

(** Closing is idempotent. *)
Lemma close_close f closed : destroy (close f closed).1 (close f closed).2 = (close f closed).2.
Proof. unfold destroy, close. destruct (0 <=? fd_ f) eqn:Hv; cbn [fst snd fd_]; [done|]. by rewrite Hv. Qed.

End FileDescriptor.

(** ** Copies inside the bounds *)

Lemma memcpy_done dst off src len :
  0 <= off -> 0 <= len -> off + len <= Z.of_nat (length dst) -> len <= Z.of_nat (length src) ->
  memcpy dst off src len =
    Done (take (Z.to_nat off) dst ++ take (Z.to_nat len) src ++ drop (Z.to_nat (off + len)) dst).
Proof.
  intros. unfold memcpy.
  rewrite (proj2 (Z.leb_le 0 off)); [done|]. rewrite (proj2 (Z.leb_le 0 len)); [done|].
  rewrite (proj2 (Z.leb_le (off + len) _)); [done|]. by rewrite (proj2 (Z.leb_le len _)).
Qed.

Lemma memread_done src off len :
  0 <= off -> 0 <= len -> off + len <= Z.of_nat (length src) ->
  memread src off len = Done (take (Z.to_nat len) (drop (Z.to_nat off) src)).
Proof.
  intros. unfold memread.
  rewrite (proj2 (Z.leb_le 0 off)); [done|]. rewrite (proj2 (Z.leb_le 0 len)); [done|].
  by rewrite (proj2 (Z.leb_le (off + len) _)).
Qed.

(** The array a [memcpy] leaves: its length, and what is read back from it. *)
Lemma length_copied (dst src : list Z) (off len : nat) :
  (off + len <= length dst)%nat -> (len <= length src)%nat ->
  length (take off dst ++ take len src ++ drop (off + len) dst) = length dst.
Proof. intros. rewrite !length_app !length_take length_drop. lia. Qed.

Lemma read_copied (dst src : list Z) (off len : nat) :
  (off + len <= length dst)%nat -> (len <= length src)%nat ->
  take len (drop off (take off dst ++ take len src ++ drop (off + len) dst)) = take len src.
Proof.
  intros. rewrite drop_app_length'; [rewrite length_take; lia|].
  rewrite take_app_length'; [rewrite length_take; lia|done].
Qed.

Lemma take_copied (dst src : list Z) (off len : nat) :
  (off + len <= length dst)%nat -> (len <= length src)%nat ->
  take (off + len) (take off dst ++ take len src ++ drop (off + len) dst) = take off dst ++ take len src.
Proof.
  intros. rewrite app_assoc. apply take_app_length'. rewrite length_app !length_take. lia.
Qed.

(** ** Checked access *)

Module BoundsCheckedBufferFacts.
Import BoundsCheckedBuffer.

(** The subtraction form of the range check does not wrap. *)
Lemma validate_range_spec b offset length :
  wf b -> u64 offset -> u64 length ->
  validate_range b offset length = (offset + length <=? size_ b).
Proof.
  intros [Hs _] Ho Hl. unfold validate_range. destruct (Z.leb_spec offset (size_ b)) as [Hle|Hgt]; simpl.
  - rewrite wrap_small; [u_lia|]. zbool; lia || reflexivity.
  - symmetry. apply Z.leb_gt. u_lia.
Qed.

Lemma checked_write_done b src offset len :
  wf b -> u64 offset -> u64 len -> len <= Z.of_nat (length src) ->
  offset + len <= size_ b ->
  exists b', checked_write src offset len b = Done b' /\ wf b' /\ size_ b' = size_ b /\
    checked_read b' offset len = Done (take (Z.to_nat len) src).
Proof.
  intros Hwf Ho Hl Hsrc Hfit. pose proof Hwf as [Hu Hlen]. unfold checked_write.
  rewrite validate_range_spec; [done..|]. rewrite (proj2 (Z.leb_le _ _)); [done|].
  rewrite memcpy_done; [u_lia..|]. simpl.
  replace (Z.to_nat (offset + len)) with (Z.to_nat offset + Z.to_nat len)%nat by u_lia.
  eexists. split; [done|]. match goal with |- wf ?b' /\ _ => assert (wf b') as Hwf' end.
  { split; simpl; [done|]. rewrite length_copied; [u_lia..|done]. }
  split; [done|]. split; [done|]. unfold checked_read.
  rewrite validate_range_spec; [done..|]. rewrite (proj2 (Z.leb_le _ _)); [done|]. simpl.
  rewrite memread_done; simpl; [u_lia|u_lia|rewrite length_copied; u_lia|].
  rewrite read_copied; [u_lia..|done].
Qed.

(** Out of range, both accesses throw and touch nothing. *)
Lemma checked_out_of_range b src offset len :
  wf b -> u64 offset -> u64 len -> size_ b < offset + len ->
  checked_write src offset len b = Throws "Write operation out of bounds" /\
  checked_read b offset len = Throws "Read operation out of bounds".
Proof.
  intros Hwf Ho Hl Hout. unfold checked_write, checked_read.
  rewrite !validate_range_spec; [done..|]. by rewrite (proj2 (Z.leb_gt _ _)).
Qed.

End BoundsCheckedBufferFacts.

(** ** Appending *)

Module FixedSizeBufferFacts.
Import FixedSizeBuffer.

Lemma append_done N src b :
  wf N b -> Z.of_nat N < 2 ^ 63 -> Z.of_nat (length src) < 2 ^ 63 ->
  used_size_ b + Z.of_nat (length src) <= Z.of_nat N ->
  exists b', append N src (Z.of_nat (length src)) b = Done b' /\ wf N b' /\
    contents b' = contents b ++ src.
Proof.
  intros [Hl Hu] HN Hs Hfit. change (2 ^ 63) with 9223372036854775808 in *. unfold append.
  rewrite wrap_small; [u_lia|]. rewrite (proj2 (Z.ltb_ge _ _)); [lia|].
  rewrite memcpy_done; [lia..|]. simpl. eexists. split; [done|].
  replace (Z.to_nat (used_size_ b + Z.of_nat (length src)))
    with (Z.to_nat (used_size_ b) + length src)%nat by lia.
  rewrite Nat2Z.id. split.
  - split; simpl; [|lia]. by rewrite length_copied; [lia..|].
  - unfold contents; simpl.
    replace (Z.to_nat (used_size_ b + Z.of_nat (length src)))
      with (Z.to_nat (used_size_ b) + length src)%nat by lia.
    rewrite take_copied; [lia..|]. by rewrite (take_ge src).
Qed.

Lemma append_throws N src b :
  wf N b -> Z.of_nat N < 2 ^ 63 -> Z.of_nat (length src) < 2 ^ 63 ->
  Z.of_nat N < used_size_ b + Z.of_nat (length src) ->
  append N src (Z.of_nat (length src)) b = Throws "Append exceeds buffer capacity".
Proof.
  intros [Hl Hu] HN Hs Hout. change (2 ^ 63) with 9223372036854775808 in *. unfold append.
  rewrite wrap_small; [u_lia|]. by rewrite (proj2 (Z.ltb_lt _ _)).
Qed.

(** The sum in [append]'s guard wraps: a length near [2^64] passes it, and the
    copy leaves the buffer. *)
Lemma append_guard_wraps N src b len :
  wf N b -> Z.of_nat N < 2 ^ 63 -> 0 < used_size_ b -> 2 ^ 64 - used_size_ b <= len < 2 ^ 64 ->
  append N src len b = Undefined.
Proof.
  intros [Hl Hu] HN Hpos Hlen. change (2 ^ 63) with 9223372036854775808 in *. unfold append.
  replace (used_size_ b +₆₄ len) with (used_size_ b + len - 2 ^ 64).
  2:{ apply Z.mod_unique with 1; u_lia. }
  rewrite (proj2 (Z.ltb_ge _ _)); [u_lia|]. unfold memcpy.
  rewrite (proj2 (Z.leb_gt (used_size_ b + len) _)); [u_lia|]. by rewrite andb_false_r.
Qed.

End FixedSizeBufferFacts.

(** ** Bounded strings *)

Module BoundedStringFacts.
Import BoundedString.

Lemma bounded_init_wf N : (1 < N)%nat -> wf N (init N).
Proof.
  intros. split; [apply length_replicate|]. split; simpl; [lia|].
  apply lookup_replicate. split; [done|lia].
Qed.

Lemma clear_wf N s : (1 < N)%nat -> wf N s -> wf N (clear s).
Proof.
  intros HN (Hl & _ & _). split; simpl; [by rewrite length_insert|]. split; [lia|].
  apply list_lookup_insert_eq. lia.
Qed.

(** The string a copy of [k] bytes with a terminator behind them leaves. *)
Lemma copied_wf N (d src : list Z) (k : nat) :
  length d = N -> (k < N)%nat -> (k <= length src)%nat ->
  let s := mk (<[k := 0]> (take 0 d ++ take k src ++ drop (0 + k) d)) (Z.of_nat k) in
  wf N s /\ view s = Done (take k src).
Proof.
  intros Hl Hk Hs. simpl.
  assert (length (take 0 d ++ take k src ++ drop (0 + k) d) = N) as Hlen
    by (rewrite length_copied; lia).
  split.
  - split; simpl in *; [by rewrite length_insert|]. split; [lia|]. rewrite Nat2Z.id.
    apply list_lookup_insert_eq. lia.
  - unfold view. simpl in *. rewrite memread_done; simpl; [lia|lia|rewrite length_insert; lia|].
    rewrite Nat2Z.id drop_0 take_insert_ge; [lia|]. f_equal.
    apply take_app_length'. rewrite length_take. lia.
Qed.

Lemma assign_n_done N str k s :
  wf N s -> (k < N)%nat -> (k <= length str)%nat ->
  exists s', assign_n N str (Z.of_nat k) s = Done s' /\ wf N s' /\ view s' = Done (take k str).
Proof.
  intros (Hl & _ & _) Hk Hs. unfold assign_n. rewrite (proj2 (Z.leb_gt _ _)); [lia|].
  rewrite memcpy_done; [lia..|]. cbn [omap_outcome]. rewrite Z.add_0_l Nat2Z.id.
  eexists. split; [done|]. by apply copied_wf.
Qed.

Lemma assign_throws N str s :
  (N <= length str)%nat -> assign N (Some str) s = Throws "String length exceeds max".
Proof. intros. unfold assign, assign_n. by rewrite (proj2 (Z.leb_le _ _)); [lia|]. Qed.

Lemma assign_done N str s :
  wf N s -> (length str < N)%nat ->
  exists s', assign N (Some str) s = Done s' /\ wf N s' /\ view s' = Done str.
Proof.
  intros Hwf Hlt. destruct (assign_n_done N (str ++ [0]) (length str) s) as (s' & E & Hw & Hv); [done..| |].
  { rewrite length_app. lia. }
  exists s'. split; [exact E|]. split; [done|]. by rewrite Hv take_app_length.
Qed.

(** A string compares equal to the C string it was assigned, and to no other. *)
Lemma assigned_eqb N (str other : cstring) s s' :
  wf N s -> (length str < N)%nat -> Forall (fun c => c <> 0) str -> Forall (fun c => c <> 0) other ->
  assign N (Some str) s = Done s' -> eqb_cstr N (Some other) s' = bool_decide (str = other).
Proof.
  intros Hwf Hlt Hs Ho E. destruct (assign_done N str s Hwf Hlt) as (s2 & E2 & (Hl & Hr & Hz) & Hv).
  assert (s2 = s') as -> by (rewrite E in E2; by injection E2). unfold view in Hv.
  assert (length_ s' = Z.of_nat (length str)) as Elen.
  { unfold assign, assign_n in E. rewrite (proj2 (Z.leb_gt _ _)) in E; [lia|]. destruct (memcpy _ _ _ _); [|done..].
    cbn [omap_outcome] in E. by injection E as <-. }
  rewrite memread_done in Hv; [lia|lia|lia|]. rewrite Elen Nat2Z.id drop_0 in Hv. rewrite Elen Nat2Z.id in Hz.
  injection Hv as Hv. cbn [eqb_cstr]. rewrite -(take_drop_middle _ _ _ Hz) Hv. by apply strncmp_eq_spec.
Qed.

Lemma assign_truncate_done N str s :
  (1 < N)%nat -> wf N s ->
  exists s', assign_truncate N (Some str) s = Done s' /\ wf N s' /\ view s' = Done (take (N - 1) str).
Proof.
  intros HN (Hl & _ & _). unfold assign_truncate.
  set (len := if _ <=? _ then _ else _).
  assert (len = Z.of_nat (min (N - 1) (length str))) as -> by (unfold len; zbool; lia).
  rewrite memcpy_done; [lia|lia|lia|rewrite length_app; lia|]. cbn [omap_outcome].
  rewrite Z.add_0_l Nat2Z.id. eexists. split; [done|].
  edestruct (copied_wf N (data_ s) (str ++ [0]) (min (N - 1) (length str))) as [Hw Hv];
    [done|lia|rewrite length_app; lia|].
  split; [exact Hw|]. etransitivity; [exact Hv|]. rewrite take_app_le; [lia|].
  f_equal. destruct (decide (N - 1 <= length str)%nat).
  - by rewrite Nat.min_l.
  - rewrite Nat.min_r; [lia|]. rewrite !take_ge; [lia..|done].
Qed.

Lemma copy_from_done N other s :
  wf N other -> length (data_ s) = N -> Z.of_nat N < 2 ^ 64 ->
  exists s', copy_from other s = Done s' /\ wf N s' /\ view s' = view other /\
    eqb s' other = Done true.
Proof.
  intros (Hl & Hr & H0) Hs HN. unfold copy_from. rewrite wrap_small; [u_lia|].
  rewrite memcpy_done; [lia..|]. cbn [omap_outcome]. eexists. split; [done|].
  set (k := Z.to_nat (length_ other)) in *.
  replace (Z.to_nat (0 + (length_ other + 1))) with (0 + S k)%nat by lia.
  replace (Z.to_nat (length_ other + 1)) with (S k) by lia.
  assert (length (take 0 (data_ s) ++ take (S k) (data_ other) ++ drop (0 + S k) (data_ s)) = N) as Hlen
    by (rewrite length_copied; lia).
  assert (take k (take 0 (data_ s) ++ take (S k) (data_ other) ++ drop (0 + S k) (data_ s))
            = take k (data_ other)) as Hk.
  { simpl. rewrite take_app_le; [rewrite length_take; lia|]. rewrite take_take. f_equal. lia. }
  assert (view (mk (take 0 (data_ s) ++ take (S k) (data_ other) ++ drop (0 + S k) (data_ s))
                 (length_ other)) = view other) as Hv.
  { unfold view. cbn [data_ length_]. rewrite !memread_done; [lia..|]. fold k. by rewrite !drop_0 Hk. }
  split; [|split; [exact Hv|]].
  - split; [exact Hlen|]. split; [simpl; lia|]. cbn [data_ length_]. fold k. simpl.
    rewrite lookup_app_l; [rewrite length_take; lia|]. rewrite lookup_take_lt; [lia|done].
  - unfold eqb. cbn [data_ length_]. rewrite Z.eqb_refl. cbn [negb].
    unfold view in Hv. cbn [data_ length_] in Hv. rewrite Hv memread_done; [lia..|].
    cbn [omap_outcome]. by rewrite bool_decide_true.
Qed.

(** On well-formed strings [operator==] compares the stored strings. *)
Lemma eqb_view N a b x y :
  wf N a -> wf N b -> view a = Done x -> view b = Done y -> eqb a b = Done (bool_decide (x = y)).
Proof.
  intros (Hla & Hra & _) (Hlb & Hrb & _). unfold view, eqb.
  rewrite !memread_done; [lia..|]. rewrite !drop_0. intros [= <-] [= <-].
  destruct (Z.eqb_spec (length_ a) (length_ b)) as [E|E]; simpl.
  - by rewrite -E.
  - rewrite bool_decide_false; [|done]. intros He%(f_equal length). rewrite !length_take in He. lia.
Qed.

End BoundedStringFacts.

(** ** Decimal text *)

(** The value of a string of decimal digits. *)
Definition parse_digits (s : cstring) : Z := foldl (fun v c => 10 * v + (c - 48)) 0 s.
Definition is_digit (c : Z) : Prop := 48 <= c <= 57.

Lemma parse_digits_snoc s c : parse_digits (s ++ [c]) = 10 * parse_digits s + (c - 48).
Proof. unfold parse_digits. by rewrite foldl_app. Qed.

Lemma digits_loop_spec fuel v acc :
  (0 < fuel)%nat -> 0 <= v < 10 ^ Z.of_nat fuel ->
  exists ds, digits_loop fuel v acc = ds ++ acc /\ parse_digits ds = v /\
    Forall is_digit ds /\ (0 < length ds <= fuel)%nat.
Proof.
  revert v acc. induction fuel as [|fuel IH]; [lia|]. intros v acc _ Hv.
  pose proof (Z.mod_pos_bound v 10 ltac:(lia)) as Hm. pose proof (Z.div_mod v 10 ltac:(lia)) as Hd.
  simpl digits_loop. destruct (Z.ltb_spec v 10) as [Hlt|Hge].
  - exists [48 + v mod 10]. split; [done|]. split.
    { rewrite Z.mod_small; [lia|]. unfold parse_digits. simpl. lia. }
    split; [|simpl; lia]. constructor; [unfold is_digit; lia|done].
  - destruct fuel as [|fuel].
    { change (10 ^ Z.of_nat 1) with 10 in Hv. lia. }
    destruct (IH (v / 10) ((48 + v mod 10) :: acc)) as (ds & -> & Hp & Hf & Hl); [lia| |].
    { rewrite (Nat2Z.inj_succ (S fuel)) Z.pow_succ_r in Hv; [lia|]. split; [lia|].
      apply Z.div_lt_upper_bound; lia. }
    exists (ds ++ [48 + v mod 10]). rewrite -app_assoc. split; [done|].
    rewrite parse_digits_snoc Hp length_app /=. split; [lia|]. split; [|lia].
    apply Forall_app. split; [done|]. constructor; [unfold is_digit; lia|done].
Qed.

Lemma print_u64_spec v : u64 v ->
  parse_digits (print_u64 v) = v /\ Forall is_digit (print_u64 v) /\
  (0 < length (print_u64 v) <= 20)%nat.
Proof.
  intros Hv. destruct (digits_loop_spec 20 v []) as (ds & E & H); [lia| |].
  { change (10 ^ Z.of_nat 20) with 100000000000000000000. u_lia. }
  unfold print_u64. by rewrite E app_nil_r.
Qed.

Lemma to_bounded_fits N text :
  (1 < N)%nat -> (0 < length text <= 20)%nat -> (length text < N)%nat ->
  exists s, to_bounded N text = Done s /\ BoundedString.wf N s /\ BoundedString.view s = Done text.
Proof.
  intros HN Hl Hlt. unfold to_bounded. rewrite (proj2 (Z.ltb_lt 0 _)); [lia|].
  rewrite (proj2 (Z.ltb_lt _ (Z.of_nat N))); [lia|]. cbn [andb].
  destruct (BoundedStringFacts.assign_n_done N (take 20 text ++ [0]) (length text) (BoundedString.init N))
    as (s & E & Hw & Hv); [by apply BoundedStringFacts.bounded_init_wf|done| |].
  { rewrite length_app length_take. lia. }
  exists s. split; [exact E|]. split; [done|]. rewrite Hv (take_ge text 20); [lia|]. by rewrite take_app_length.
Qed.

(** ** The properties *)

(** C29: a [BoundedString<N>] (N > 1) that holds its invariant keeps it, without
    undefined behaviour, under every assignment: [assign] stores the string
    exactly when it is shorter than [N] and throws otherwise (leaving the
    string as it was), [assign_truncate] stores its first [N - 1] characters,
    [clear] empties it, and a copy or a move yields an equal string. *)
Theorem bounded_string_ops N s other str :
  (1 < N)%nat -> Z.of_nat N < 2 ^ 64 -> BoundedString.wf N s -> BoundedString.wf N other ->
  (BoundedString.assign N (Some str) s =
     (if (N <=? length str)%nat then Throws "String length exceeds max"
      else BoundedString.assign_truncate N (Some str) s)) /\
  (exists s', BoundedString.assign_truncate N (Some str) s = Done s' /\ BoundedString.wf N s' /\
     BoundedString.view s' = Done (take (N - 1) str)) /\
  (exists s', BoundedString.assign N None s = Done s' /\ BoundedString.wf N s' /\
     BoundedString.view s' = Done []) /\
  (exists s', BoundedString.move_from other s = Done (s', BoundedString.clear other) /\
     BoundedString.wf N s' /\ BoundedString.view s' = BoundedString.view other /\
     BoundedString.eqb s' other = Done true /\ BoundedString.wf N (BoundedString.clear other)).
Proof.
  intros HN Hw Hs Ho. split; [|split; [|split]].
  - destruct (Nat.leb_spec N (length str)) as [Hle|Hlt].
    + by apply BoundedStringFacts.assign_throws.
    + unfold BoundedString.assign, BoundedString.assign_n, BoundedString.assign_truncate.
      by rewrite !(proj2 (Z.leb_gt _ _)); [lia..|].
  - by apply BoundedStringFacts.assign_truncate_done.
  - exists (BoundedString.clear s). split; [done|]. split; [by apply BoundedStringFacts.clear_wf|].
    unfold BoundedString.view. rewrite memread_done; simpl; [lia..|]. by rewrite take_0.
  - destruct (BoundedStringFacts.copy_from_done N other s Ho (proj1 Hs) Hw) as (s' & E & H1 & H2 & H3).
    exists s'. unfold BoundedString.move_from. rewrite E. cbn [omap_outcome].
    repeat (split; [done|]). by apply BoundedStringFacts.clear_wf.
Qed.

Lemma bounded_string_ops_witness :
  BoundedString.assign 8 (Some [65; 66]) (BoundedString.init 8) =
    BoundedString.assign_truncate 8 (Some [65; 66]) (BoundedString.init 8) /\
  BoundedString.assign 2 (Some [65; 66]) (BoundedString.init 2) = Throws "String length exceeds max".
Proof.
  split.
  - exact (proj1 (bounded_string_ops 8 (BoundedString.init 8) (BoundedString.init 8) [65; 66]
      ltac:(lia) ltac:(lia) (BoundedStringFacts.bounded_init_wf 8 ltac:(lia))
      (BoundedStringFacts.bounded_init_wf 8 ltac:(lia)))).
  - exact (proj1 (bounded_string_ops 2 (BoundedString.init 2) (BoundedString.init 2) [65; 66]
      ltac:(lia) ltac:(lia) (BoundedStringFacts.bounded_init_wf 2 ltac:(lia))
      (BoundedStringFacts.bounded_init_wf 2 ltac:(lia)))).
Defined.

(** [to_bounded_string<N>] of an unsigned 64-bit value never overflows its
    21-byte scratch buffer or the string; when the decimal text fits it is the
    stored string, consists of digits and reads back as the value, otherwise
    the result is the empty string. *)
Theorem to_bounded_string_roundtrip N v :
  (1 < N)%nat -> u64 v ->
  exists s, to_bounded_string_u64 N v = Done s /\ BoundedString.wf N s /\
    BoundedString.view s =
      Done (if decide (length (print_u64 v) < N)%nat then print_u64 v else []) /\
    parse_digits (print_u64 v) = v /\ Forall is_digit (print_u64 v).
Proof.
  intros HN Hv. destruct (print_u64_spec v Hv) as (Hp & Hd & Hl). case_decide as Hlt.
  - destruct (to_bounded_fits N (print_u64 v) HN Hl Hlt) as (s & E & Hw & Hs). by exists s.
  - exists (BoundedString.init N). unfold to_bounded_string_u64, to_bounded.
    rewrite (proj2 (Z.ltb_ge _ (Z.of_nat N))); [lia|]. rewrite andb_false_r.
    split; [done|]. split; [by apply BoundedStringFacts.bounded_init_wf|]. split; [|done].
    unfold BoundedString.view. rewrite memread_done; simpl; [lia..|]. by rewrite take_0.
Qed.

Lemma to_bounded_string_roundtrip_witness :
  parse_digits (print_u64 18446744073709551615) = 18446744073709551615.
Proof.
  destruct (to_bounded_string_roundtrip 32 18446744073709551615 ltac:(lia) ltac:(u_lia))
    as (s & _ & _ & _ & H & _).
  exact H.
Defined.

(** Checked access to a heap buffer: a write inside the buffer succeeds and
    a read of the same range returns the written bytes; a range that leaves the
    buffer, even one whose end wraps around [2^64], makes both accesses throw;
    no range reaches undefined behaviour. *)
Theorem checked_access b src offset len :
  BoundsCheckedBuffer.wf b -> u64 offset -> u64 len -> len <= Z.of_nat (length src) ->
  if offset + len <=? BoundsCheckedBuffer.size_ b
  then exists b', BoundsCheckedBuffer.checked_write src offset len b = Done b' /\
         BoundsCheckedBuffer.wf b' /\
         BoundsCheckedBuffer.checked_read b' offset len = Done (take (Z.to_nat len) src)
  else BoundsCheckedBuffer.checked_write src offset len b = Throws "Write operation out of bounds" /\
       BoundsCheckedBuffer.checked_read b offset len = Throws "Read operation out of bounds".
Proof.
  intros Hw Ho Hl Hs. destruct (Z.leb_spec (offset + len) (BoundsCheckedBuffer.size_ b)).
  - destruct (BoundsCheckedBufferFacts.checked_write_done b src offset len) as (b' & ? & ? & ? & ?);
      [done..|]. by exists b'.
  - by apply BoundsCheckedBufferFacts.checked_out_of_range.
Qed.

Lemma checked_access_witness :
  BoundsCheckedBuffer.checked_read (BoundsCheckedBuffer.mk 4096 (replicate 8 0) 8) 18446744073709551615 1
    = Throws "Read operation out of bounds".
Proof.
  exact (proj2 (checked_access (BoundsCheckedBuffer.mk 4096 (replicate 8 0) 8) [1]
    18446744073709551615 1 ltac:(split; [simpl; u_lia|reflexivity]) ltac:(u_lia) ltac:(u_lia)
    ltac:(simpl; lia))).
Defined.

(** The guard-page constructor only works for sizes that are a multiple of
    the page size: [mprotect] refuses an address that is not page aligned, and
    the second guard starts at [buffer_ + size_], so for every other size the
    constructor throws. *)
Theorem guard_pages_need_alignment mmap mprotect size :
  (forall n p, mmap n = Some p -> p mod 4096 = 0) ->
  (forall addr n, addr mod 4096 <> 0 -> mprotect addr n = false) ->
  size mod 4096 <> 0 ->
  forall b, BoundsCheckedBuffer.make mmap mprotect size <> Done b.
Proof.
  intros Hm Hp Hs b. unfold BoundsCheckedBuffer.make. destruct (mmap _) as [p|] eqn:E; [|done].
  unfold BoundsCheckedBuffer.setup_guard_pages. simpl.
  destruct (mprotect _ _); simpl; [|done]. rewrite (Hp (p + BoundsCheckedBuffer.GUARD_SIZE + size)); [|done].
  specialize (Hm _ _ E). unfold BoundsCheckedBuffer.GUARD_SIZE.
  rewrite Zplus_mod (Zplus_mod p) Hm Z_mod_same_full Z.add_0_r Z.add_0_l Zmod_mod. done.
Qed.

Lemma guard_pages_need_alignment_witness :
  BoundsCheckedBuffer.make (fun _ => Some 8192) (fun a _ => a mod 4096 =? 0) 100
    <> Done (BoundsCheckedBuffer.mk 12288 (replicate 100 0) 100).
Proof.
  apply guard_pages_need_alignment.
  - intros n p [= <-]. reflexivity.
  - intros a n H. by apply Z.eqb_neq.
  - discriminate.
Defined.
