(* ===== verification/AlignedBuffers.v ===== *)
(** * The ownership of aligned buffers (memory_safety.hpp)

    [AlignedBuffer] over a heap: construction, the moves, the destructor and the
    checked access, for a program that holds any number of buffers in named
    variables.  The heap maps the address of a live block to its elements;
    freeing an address that is not live, or touching one, is undefined ([None]).
    The elements are trivially copyable, so a fresh block is zero. *)

From S2P Require Import Prelude Types MemorySafety.

(** ** The size of a block *)

Lemma aligned_bytes_spec sizeof_T count k :
  0 <= sizeof_T * count -> 0 <= k < 64 -> sizeof_T * count + 2 ^ k - 1 < 2 ^ 64 ->
  let bytes := AlignedBuffer.aligned_bytes sizeof_T count (2 ^ k) in
  sizeof_T * count <= bytes < sizeof_T * count + 2 ^ k /\ bytes mod 2 ^ k = 0.
Proof.
  intros Hb Hk Hlt bytes. assert (0 < 2 ^ k) as Hpos by (apply Z.pow_pos_nonneg; lia).
  assert (2 ^ k <= 2 ^ 64) as Hle by (apply Z.pow_le_mono_r; lia).
  set (x := sizeof_T * count + 2 ^ k - 1) in *.
  assert (bytes = Z.land x (Z.lxor (2 ^ k - 1) u64_max)) as ->.
  { unfold bytes, AlignedBuffer.aligned_bytes. rewrite (wrap_small 64 (sizeof_T * count)); [unfold is_u; lia|].
    rewrite wrap_sub_l (wrap_small 64 (sizeof_T * count + 2 ^ k - 1)); [unfold x, is_u in *; lia|].
    by rewrite (wrap_small 64 (2 ^ k - 1)); [unfold is_u; lia|]. }
  assert (Z.land x (Z.lxor (2 ^ k - 1) u64_max) = Z.ldiff x (Z.ones k)) as ->.
  { apply Z.bits_inj'. intros n Hn. rewrite Z.land_spec Z.lxor_spec Z.ldiff_spec.
    replace (2 ^ k - 1) with (Z.ones k) by (rewrite Z.ones_equiv; lia). change u64_max with (Z.ones 64).
    destruct (Z.ltb_spec n 64).
    - rewrite (Z.ones_spec_low 64); [lia|]. by rewrite xorb_true_r.
    - assert (Z.testbit x n = false) as ->; [|done].
      destruct (Z.eq_dec x 0) as [->|Hx]; [apply Z.testbit_0_l|]. apply Z.bits_above_log2; [lia|].
      assert (Z.log2 x < 64) by (apply Z.log2_lt_pow2; lia). lia. }
  rewrite Z.ldiff_ones_r; [lia|]. rewrite Z.shiftl_mul_pow2; [lia|]. rewrite Z.shiftr_div_pow2; [lia|].
  pose proof (Z.div_mod x (2 ^ k) ltac:(lia)) as Hdm. pose proof (Z.mod_pos_bound x (2 ^ k) Hpos) as Hmod.
  split; [unfold x in *; lia|]. by apply Z.mod_mul; lia.
Qed.

Module AlignedHeap.
Section heap.
Context {T : Type}.
Variable zero : T.
Variable sizeof_T : Z.

Abbreviation heap := (gmap positive (list T)).
(** [ptr_] and [count_]. *)
Record buffer := mkBuffer { ptr_ : option positive; count_ : Z }.
Definition moved_from : buffer := mkBuffer None 0.

(** [std::free]: a null pointer is ignored. *)
Definition free (p : option positive) (h : heap) : option heap :=
  match p with
  | None => Some h
  | Some a => match h !! a with Some _ => Some (delete a h) | None => None end
  end.

(** The constructor; [granted] is whether the allocation succeeds. *)
Definition construct (granted : bool) (count alignment : Z) (h : heap) : outcome (buffer * heap) :=
  let bytes := AlignedBuffer.aligned_bytes sizeof_T count alignment in
  if granted then
    let a := fresh (dom h) in
    Done (mkBuffer (Some a) count, <[a := replicate (Z.to_nat (bytes / sizeof_T)) zero]> h)
  else Throws "bad_alloc".

Definition destroy (b : buffer) (h : heap) : option heap := free (ptr_ b) h.

(** The move constructor: the new buffer and what is left of the old one. *)
Definition move_construct (other : buffer) : buffer * buffer := (other, moved_from).

(** The move assignment between different objects. *)
Definition move_assign (b other : buffer) (h : heap) : option (buffer * buffer * heap) :=
  h ← free (ptr_ b) h; Some (other, moved_from, h).

Definition at_ (b : buffer) (i : Z) (h : heap) : outcome T :=
  if count_ b <=? i then Throws "AlignedBuffer index out of range"
  else match ptr_ b ≫= fun a => h !! a ≫= fun block => block !! Z.to_nat i with Some x => Done x | None => Undefined end.

Definition set_at (b : buffer) (i : Z) (x : T) (h : heap) : outcome heap :=
  if count_ b <=? i then Throws "AlignedBuffer index out of range"
  else match ptr_ b with
  | Some a => match h !! a with
              | Some block => if bool_decide (Z.to_nat i < length block)%nat then Done (<[a := <[Z.to_nat i := x]> block]> h)
                              else Undefined
              | None => Undefined
              end
  | None => Undefined
  end.

(** ** Programs over named buffers *)

Record state := mkState { vars : gmap positive buffer; memory : heap }.
Implicit Types s : state.

Inductive op :=
  | Construct (v : positive) (granted : bool) (count alignment : Z)
  | MoveConstruct (v from : positive)
  | MoveAssign (v from : positive)
  | Destroy (v : positive)
  | SetAt (v : positive) (i : Z) (x : T).

(** A new variable has a new name; the others exist.  An exception leaves the state. *)
Definition step (o : op) s : option state :=
  match o with
  | Construct v granted count alignment =>
      match vars s !! v with
      | Some _ => Some s
      | None => match construct granted count alignment (memory s) with
                | Done (b, h) => Some (mkState (<[v := b]> (vars s)) h)
                | Throws _ => Some s
                | Undefined => None
                end
      end
  | MoveConstruct v from =>
      match vars s !! v, vars s !! from with
      | None, Some other =>
          let '(b, rest) := move_construct other in Some (mkState (<[v := b]> (<[from := rest]> (vars s))) (memory s))
      | _, _ => Some s
      end
  | MoveAssign v from =>
      if bool_decide (v = from) then Some s
      else match vars s !! v, vars s !! from with
      | Some b, Some other =>
          '(b, rest, h) ← move_assign b other (memory s); Some (mkState (<[v := b]> (<[from := rest]> (vars s))) h)
      | _, _ => Some s
      end
  | Destroy v =>
      match vars s !! v with
      | Some b => h ← destroy b (memory s); Some (mkState (delete v (vars s)) h)
      | None => Some s
      end
  | SetAt v i x =>
      match vars s !! v with
      | Some b => match set_at b i x (memory s) with
                  | Done h => Some (mkState (vars s) h)
                  | Throws _ => Some s
                  | Undefined => None
                  end
      | None => Some s
      end
  end.

Fixpoint steps (os : list op) s : option state :=
  match os with [] => Some s | o :: os => s ← step o s; steps os s end.

(** ** Ownership *)

(** Every live block belongs to exactly one variable, and has room for its elements. *)
Record owned s : Prop := {
  ow_live : forall v b a, vars s !! v = Some b -> ptr_ b = Some a -> exists block, memory s !! a = Some block /\ count_ b <= Z.of_nat (length block);
  ow_null : forall v b, vars s !! v = Some b -> ptr_ b = None -> count_ b = 0;
  ow_once : forall v w b c a, vars s !! v = Some b -> vars s !! w = Some c -> ptr_ b = Some a -> ptr_ c = Some a -> v = w;
  ow_held : forall a, is_Some (memory s !! a) -> exists v b, vars s !! v = Some b /\ ptr_ b = Some a
}.

(** A count whose bytes fit in [size_t], an alignment that is a power of two. *)
Definition op_ok (o : op) : Prop :=
  match o with
  | Construct _ _ count alignment =>
      0 <= count /\ (exists k, 0 <= k < 64 /\ alignment = 2 ^ k) /\ sizeof_T * count + alignment - 1 < 2 ^ 64
  | SetAt _ i _ => 0 <= i
  | _ => True
  end.

Hypothesis sizeof_pos : 0 < sizeof_T.
#[local] Set Default Proof Using "Type*".

Lemma construct_owned v granted count alignment s :
  owned s -> op_ok (Construct v granted count alignment) -> vars s !! v = None -> granted = true ->
  exists b h, construct granted count alignment (memory s) = Done (b, h) /\ owned (mkState (<[v := b]> (vars s)) h).
Proof.
  intros [Hl Hnull Honce Hheld] (Hc & (k & Hk & ->) & Hlt) Hv ->. do 2 eexists. split; [reflexivity|].
  destruct (aligned_bytes_spec sizeof_T count k) as [[Hge _] _]; [nia|done|done|].
  set (bytes := AlignedBuffer.aligned_bytes sizeof_T count (2 ^ k)) in *.
  assert (count <= bytes / sizeof_T) as Hroom by (apply Z.div_le_lower_bound; lia).
  set (a := fresh (dom (memory s))). assert (memory s !! a = None) as Ha by (apply not_elem_of_dom, is_fresh).
  split; cbn [vars memory].
  - intros w b p. destruct (decide (w = v)) as [->|Hne].
    + rewrite lookup_insert_eq. intros [= <-] [= <-]. rewrite lookup_insert_eq. eexists. split; [done|].
      rewrite length_replicate. cbn [count_]. lia.
    + rewrite lookup_insert_ne //. intros Hw Hp. destruct (Hl w b p Hw Hp) as (block & Hb & Hcount).
      exists block. rewrite lookup_insert_ne; [congruence|done].
  - intros w b. destruct (decide (w = v)) as [->|Hne]; [rewrite lookup_insert_eq; by intros [= <-]|].
    rewrite lookup_insert_ne //. apply Hnull.
  - intros w x b c p. destruct (decide (w = v)) as [->|Hw], (decide (x = v)) as [->|Hx]; [done|..].
    + rewrite lookup_insert_eq lookup_insert_ne //. intros [= <-] Hcx [= <-] Hp. exfalso.
      destruct (Hl x c a Hcx Hp) as (block & Hb & _). congruence.
    + rewrite lookup_insert_eq lookup_insert_ne //. intros Hbw [= <-] Hp [= <-]. exfalso.
      destruct (Hl w b a Hbw Hp) as (block & Hb & _). congruence.
    + rewrite !lookup_insert_ne //. apply Honce.
  - intros p Hp. destruct (decide (p = a)) as [->|Hne].
    + exists v. eexists. rewrite lookup_insert_eq. by split.
    + rewrite lookup_insert_ne // in Hp. destruct (Hheld p Hp) as (w & b & Hw & Hb). exists w, b.
      rewrite lookup_insert_ne; [congruence|done].
Qed.

(** Handing a block over to another variable, which held none. *)
Lemma handover_owned v from b s :
  owned s -> v <> from -> vars s !! from = Some b ->
  (forall c, vars s !! v = Some c -> ptr_ c = None) ->
  owned (mkState (<[v := b]> (<[from := moved_from]> (vars s))) (memory s)).
Proof.
  intros [Hl Hnull Honce Hheld] Hne Hf Hv. 
  assert (forall w c a, <[v := b]> (<[from := moved_from]> (vars s)) !! w = Some c -> ptr_ c = Some a ->
    exists w', vars s !! w' = Some c /\ ((w = v /\ w' = from) \/ (w = w' /\ w <> v /\ w <> from))) as Hback.
  { intros w c a. destruct (decide (w = v)) as [->|Hwv].
    - rewrite lookup_insert_eq. intros [= <-] Hp. exists from. auto.
    - rewrite lookup_insert_ne //. destruct (decide (w = from)) as [->|Hwf].
      + rewrite lookup_insert_eq. by intros [= <-].
      + rewrite lookup_insert_ne //. intros Hw _. exists w. auto. }
  split; cbn [vars memory].
  - intros w c a Hw Hp. destruct (Hback w c a Hw Hp) as (w' & Hw' & _). by apply (Hl w').
  - intros w c. destruct (decide (w = v)) as [->|Hwv]; [rewrite lookup_insert_eq; intros [= <-]; by apply (Hnull from)|].
    rewrite lookup_insert_ne //. destruct (decide (w = from)) as [->|Hwf]; [rewrite lookup_insert_eq; by intros [= <-]|].
    rewrite lookup_insert_ne //. apply Hnull.
  - intros w x c d a Hw Hx Hc Hd. destruct (Hback w c a Hw Hc) as (w' & Hw' & Ew), (Hback x d a Hx Hd) as (x' & Hx' & Ex).
    pose proof (Honce _ _ _ _ _ Hw' Hx' Hc Hd) as E. destruct Ew as [[-> ->]|(-> & Hw1 & Hw2)], Ex as [[-> ->]|(-> & Hx1 & Hx2)]; congruence.
  - intros a Ha. destruct (Hheld a Ha) as (w & c & Hw & Hp). destruct (decide (w = from)) as [->|Hwf].
    + exists v, c. rewrite lookup_insert_eq. split; [congruence|done].
    + exists w, c. split; [|done]. rewrite lookup_insert_ne.
      { intros ->. rewrite (Hv c Hw) in Hp. done. }
      by rewrite lookup_insert_ne.
Qed.

(** Freeing the block of a variable empties it. *)
Lemma free_owned v b s :
  owned s -> vars s !! v = Some b ->
  exists h, free (ptr_ b) (memory s) = Some h /\ owned (mkState (<[v := moved_from]> (vars s)) h) /\
    owned (mkState (delete v (vars s)) h).
Proof.
  intros Hown Hv. pose proof Hown as [Hl Hnull Honce Hheld]. unfold free. destruct (ptr_ b) as [a|] eqn:Ep.
  - destruct (Hl v b a Hv Ep) as (block & Hb & _). rewrite Hb. eexists. split; [reflexivity|].
    assert (forall w c p, w <> v -> vars s !! w = Some c -> ptr_ c = Some p -> p <> a) as Hdiff.
    { intros w c p Hw Hc Hp ->. apply Hw. by apply (Honce w v c b a). }
    split; split; cbn [vars memory].
    + intros w c p. destruct (decide (w = v)) as [->|Hw]; [rewrite lookup_insert_eq; by intros [= <-]|].
      rewrite lookup_insert_ne //. intros Hc Hp. destruct (Hl w c p Hc Hp) as (blk & Hblk & Hr). exists blk.
      rewrite lookup_delete_ne; [|done]. intros <-. by apply (Hdiff w c a).
    + intros w c. destruct (decide (w = v)) as [->|Hw]; [rewrite lookup_insert_eq; by intros [= <-]|].
      rewrite lookup_insert_ne //. apply Hnull.
    + intros w x c d p. destruct (decide (w = v)) as [->|Hw]; [rewrite lookup_insert_eq; by intros [= <-]|].
      destruct (decide (x = v)) as [->|Hx]; [rewrite lookup_insert_eq; by intros _ [= <-]|]. rewrite !lookup_insert_ne //. apply Honce.
    + intros p [blk Hp]. apply lookup_delete_Some in Hp as [Hpa Hp]. destruct (Hheld p) as (w & c & Hw & Hc); [by eexists|].
      exists w, c. rewrite lookup_insert_ne; [|done]. intros <-. congruence.
    + intros w c p Hc Hp. apply lookup_delete_Some in Hc as [Hw Hc]. destruct (Hl w c p Hc Hp) as (blk & Hblk & Hr).
      exists blk. rewrite lookup_delete_ne; [|done]. intros <-. by apply (Hdiff w c a).
    + intros w c Hc. apply lookup_delete_Some in Hc as [_ Hc]. by apply (Hnull w).
    + intros w x c d p Hc Hd. apply lookup_delete_Some in Hc as [_ Hc]. apply lookup_delete_Some in Hd as [_ Hd]. by apply Honce.
    + intros p [blk Hp]. apply lookup_delete_Some in Hp as [Hpa Hp]. destruct (Hheld p) as (w & c & Hw & Hc); [by eexists|].
      exists w, c. rewrite lookup_delete_ne; [|done]. intros <-. congruence.
  - exists (memory s). split; [done|]. split; split; cbn [vars memory].
    + intros w c p. destruct (decide (w = v)) as [->|Hw]; [rewrite lookup_insert_eq; by intros [= <-]|].
      rewrite lookup_insert_ne //. apply Hl.
    + intros w c. destruct (decide (w = v)) as [->|Hw]; [rewrite lookup_insert_eq; by intros [= <-]|].
      rewrite lookup_insert_ne //. apply Hnull.
    + intros w x c d p. destruct (decide (w = v)) as [->|Hw]; [rewrite lookup_insert_eq; by intros [= <-]|].
      destruct (decide (x = v)) as [->|Hx]; [rewrite lookup_insert_eq; by intros _ [= <-]|]. rewrite !lookup_insert_ne //. apply Honce.
    + intros p Hp. destruct (Hheld p Hp) as (w & c & Hw & Hc). exists w, c. rewrite lookup_insert_ne; [|done]. intros <-. congruence.
    + intros w c p Hc. apply lookup_delete_Some in Hc as [_ Hc]. by apply (Hl w).
    + intros w c Hc. apply lookup_delete_Some in Hc as [_ Hc]. by apply (Hnull w).
    + intros w x c d p Hc Hd. apply lookup_delete_Some in Hc as [_ Hc]. apply lookup_delete_Some in Hd as [_ Hd]. by apply Honce.
    + intros p Hp. destruct (Hheld p Hp) as (w & c & Hw & Hc). exists w, c. rewrite lookup_delete_ne; [|done]. intros <-. congruence.
Qed.

Lemma set_at_owned v b i x s :
  owned s -> vars s !! v = Some b -> 0 <= i < count_ b ->
  exists h, set_at b i x (memory s) = Done h /\ owned (mkState (vars s) h).
Proof.
  intros [Hl Hnull Honce Hheld] Hv Hi. unfold set_at. destruct (Z.leb_spec (count_ b) i); [lia|].
  destruct (ptr_ b) as [a|] eqn:Ep; [|pose proof (Hnull v b Hv Ep); lia].
  destruct (Hl v b a Hv Ep) as (block & Hb & Hc). rewrite Hb bool_decide_true; [lia|]. eexists. split; [reflexivity|].
  split; cbn [vars memory]; [|done|done|].
  - intros w c p Hw Hp. destruct (Hl w c p Hw Hp) as (blk & Hblk & Hr). destruct (decide (p = a)) as [->|Hne].
    + rewrite lookup_insert_eq. eexists. split; [done|]. rewrite length_insert. congruence.
    + exists blk. by rewrite lookup_insert_ne.
  - intros p Hp. apply Hheld. destruct (decide (p = a)) as [->|Hne]; [by eexists|]. by rewrite lookup_insert_ne in Hp.
Qed.

(** Every operation returns and keeps every block in one hand. *)
Lemma step_owned o s : owned s -> op_ok o -> exists s', step o s = Some s' /\ owned s'.
Proof.
  intros Hown Ho. destruct o as [v granted count alignment|v from|v from|v|v i x]; cbn [step].
  - destruct (vars s !! v) eqn:Hv; [by exists s|]. destruct granted; [|by exists s].
    destruct (construct_owned v true count alignment s Hown Ho Hv eq_refl) as (b & h & -> & H). by eexists.
  - destruct (vars s !! v) eqn:Hv; [by exists s|]. destruct (vars s !! from) as [b|] eqn:Hf; [|by exists s].
    eexists. split; [reflexivity|]. apply handover_owned; [done|congruence|done|]. intros c. by rewrite Hv.
  - case_bool_decide as Hne; [by exists s|]. destruct (vars s !! v) as [b|] eqn:Hv; [|by exists s].
    destruct (vars s !! from) as [c|] eqn:Hf; [|by exists s].
    destruct (free_owned v b s Hown Hv) as (h & Hfree & H & _). unfold move_assign. rewrite Hfree. cbn [mbind option_bind].
    eexists. split; [reflexivity|].
    pose proof (handover_owned v from c _ H Hne) as H2. cbn [vars memory] in H2.
    rewrite lookup_insert_ne // in H2. specialize (H2 Hf). rewrite lookup_insert_eq in H2.
    specialize (H2 ltac:(intros ? [= <-]; done)). rewrite (insert_insert_ne (vars s) from v) in H2; [congruence|].
    by rewrite insert_insert_eq in H2.
  - destruct (vars s !! v) as [b|] eqn:Hv; [|by exists s].
    destruct (free_owned v b s Hown Hv) as (h & Hfree & _ & H). unfold destroy. rewrite Hfree. by eexists.
  - destruct (vars s !! v) as [b|] eqn:Hv; [|by exists s]. cbn [op_ok] in Ho.
    destruct (Z.le_gt_cases (count_ b) i) as [Hge|Hlt].
    + unfold set_at. rewrite (proj2 (Z.leb_le _ _) Hge). by exists s.
    + destruct (set_at_owned v b i x s Hown Hv ltac:(lia)) as (h & -> & H). by eexists.
Qed.

Lemma steps_owned os : forall s, owned s -> Forall op_ok os -> exists s', steps os s = Some s' /\ owned s'.
Proof.
  induction os as [|o os IH]; intros s Hown Hos; [by exists s|]. apply Forall_cons in Hos as [Ho Hos].
  destruct (step_owned o s Hown Ho) as (s1 & E & H1). cbn [steps]. rewrite E. cbn [mbind option_bind]. by apply IH.
Qed.

Lemma initial_owned : owned (mkState ∅ ∅).
Proof. split; cbn; by setoid_rewrite lookup_empty. Qed.

End heap.
Arguments op : clear implicits.
Arguments state : clear implicits.
End AlignedHeap.

Module AlignedClaims.
Import AlignedHeap.

(** C30: Aligned buffers own their memory.  Take any program that constructs, moves,
    assigns, writes through [at] and destroys buffers, where every construction asks
    for a power-of-two alignment and for a number of bytes that, rounded up to it,
    fits [size_t] ([op_ok]; a larger count wraps and overruns its block, see
    [wrapped_size_overruns]).  Whichever allocations are refused, it runs without
    undefined behaviour: nothing is freed twice, no freed or foreign memory is
    touched, every index below [size()] is inside the block.  When the last buffer
    is gone no block is left. *)
Theorem aligned_buffers_owned {T} (zero : T) sizeof_T os :
  0 < sizeof_T -> Forall (op_ok sizeof_T) os ->
  exists s, steps zero sizeof_T os (mkState ∅ ∅) = Some s /\
    (forall v b i, vars s !! v = Some b -> 0 <= i < count_ b -> exists x, at_ b i (memory s) = Done x) /\
    (vars s = ∅ -> memory s = ∅).
Proof.
  intros Hsize Hos. destruct (steps_owned zero sizeof_T Hsize os _ (initial_owned zero) Hos) as (s & E & [Hl Hnull Honce Hheld]).
  exists s. split; [done|]. split.
  - intros v b i Hv Hi. unfold at_. destruct (Z.leb_spec (count_ b) i); [lia|].
    destruct (ptr_ b) as [a|] eqn:Ep; [|pose proof (Hnull v b Hv Ep); lia].
    destruct (Hl v b a Hv Ep) as (block & Hb & Hc). cbn [mbind option_bind]. rewrite Hb. cbn [mbind option_bind].
    destruct (lookup_lt_is_Some_2 block (Z.to_nat i)) as [x Hx]; [lia|]. rewrite Hx. by exists x.
  - intros Hv. apply map_empty. intros a. destruct (memory s !! a) eqn:Ha; [|done].
    destruct (Hheld a) as (v & b & Hvb & _); [by eexists|]. by rewrite Hv lookup_empty in Hvb.
Qed.

Lemma aligned_buffers_owned_witness :
  exists s, steps 0 8 [Construct 1%positive true 10 64; Construct 2%positive true 3 64; SetAt 1%positive 9 7;
      MoveAssign 2%positive 1%positive; Destroy 1%positive; Destroy 2%positive] (mkState ∅ ∅) = Some s /\
    memory s = ∅.
Proof.
  destruct (aligned_buffers_owned 0 8 [Construct 1%positive true 10 64; Construct 2%positive true 3 64; SetAt 1%positive 9 7;
    MoveAssign 2%positive 1%positive; Destroy 1%positive; Destroy 2%positive]) as (s & E & _ & Hend); [done| |].
  - repeat constructor; cbn; try lia; exists 6; done.
  - exists s. split; [exact E|]. apply Hend. vm_compute in E. injection E as <-. reflexivity.
Defined.

End AlignedClaims.

(** A count whose bytes wrap around gets a block that is too small: [at] passes its
    check and leaves the block. *)
Example wrapped_size_overruns :
  match AlignedHeap.construct 0 8 true (2 ^ 61 + 1) 64 ∅ with
  | Done (b, h) => AlignedHeap.at_ b 8 h = Undefined
  | _ => False
  end.
Proof. by vm_compute. Qed.
