(* ===== verification/Protocol.v ===== *)
(** * The binary protocol (protocol.hpp, protocol.cpp)

    The packed wire structs as records with their little-endian byte layout
    (the gateway reads and writes them in place with [reinterpret_cast]), and
    the CRC-32 checksum of [ProtocolUtils].

    Inside [#pragma pack(1)] the fields of the message structs are contiguous;
    [BoundedString<N>], whose template is defined outside the pragma, keeps its
    own layout: [N] characters (for N a multiple of 8) and a [size_t]. *)

From S2P Require Import Prelude Types MemorySafety.

(** ** Little-endian integers in byte arrays *)

Fixpoint le_encode (n : nat) (v : Z) : list Z :=
  match n with
  | O => []
  | S n' => v mod 256 :: le_encode n' (v / 256)
  end.

Fixpoint le_decode (b : list Z) : Z :=
  match b with
  | [] => 0
  | x :: b' => x + 256 * le_decode b'
  end.

(** The [n]-byte unsigned field at offset [off] of a byte array. *)
Definition field (b : list Z) (off n : nat) : Z := le_decode (take n (drop off b)).
Definition bytes_at (b : list Z) (off n : nat) : list Z := take n (drop off b).

(** ** The structs *)

Record MessageHeader := mkHeader {
  h_type : Z;
  h_length : Z;
  h_sequence : Z;
  h_timestamp : Z;
  h_checksum : Z
}.

(** [MessageHeader(t, len, seq, ts)]. *)
Definition MessageHeader_make (t len seq ts : Z) : MessageHeader := mkHeader t len seq ts 0.

Definition NEW_ORDER : Z := 1.
Definition CANCEL_ORDER : Z := 2.
Definition ORDER_ACK : Z := 101.
Definition TRADE_REPORT : Z := 102.
Definition HEARTBEAT : Z := 200.

Record NewOrderMessage := mkNewOrder {
  no_header : MessageHeader;
  no_order_id : Z;
  no_client_id : BoundedString.t;
  no_symbol : BoundedString.t;
  no_side : Z;
  no_quantity : Z;
  no_price : Z;
  no_order_type : Z
}.

Record CancelOrderMessage := mkCancelOrder {
  co_header : MessageHeader;
  co_order_id : Z;
  co_client_id : BoundedString.t;
  co_symbol : BoundedString.t
}.

Record OrderAckMessage := mkOrderAck {
  oa_header : MessageHeader;
  oa_order_id : Z;
  oa_status : Z;
  oa_reason : BoundedString.t
}.

Record TradeMessage := mkTradeMessage {
  tm_header : MessageHeader;
  tm_trade_id : Z;
  tm_buy_order_id : Z;
  tm_sell_order_id : Z;
  tm_symbol : BoundedString.t;
  tm_quantity : Z;
  tm_price : Z;
  tm_timestamp_ns : Z
}.

Record HeartbeatMessage := mkHeartbeat { hb_header : MessageHeader; hb_timestamp_ns : Z }.

(** ** Layout *)

Definition sizeof_header : nat := 28.
Definition sizeof_bounded (N : nat) : nat := N + 8.
Definition sizeof_NewOrderMessage : nat :=
  sizeof_header + 8 + sizeof_bounded 32 + sizeof_bounded 8 + 1 + 8 + 8 + 1.
Definition sizeof_CancelOrderMessage : nat :=
  sizeof_header + 8 + sizeof_bounded 32 + sizeof_bounded 8.
Definition sizeof_OrderAckMessage : nat := sizeof_header + 8 + 1 + sizeof_bounded 32.
Definition sizeof_TradeMessage : nat := sizeof_header + 24 + sizeof_bounded 8 + 24.
Definition sizeof_HeartbeatMessage : nat := sizeof_header + 8.

Definition encode_header (h : MessageHeader) : list Z :=
  le_encode 4 (h_type h) ++ le_encode 4 (h_length h) ++ le_encode 8 (h_sequence h)
  ++ le_encode 8 (h_timestamp h) ++ le_encode 4 (h_checksum h).

Definition decode_header (b : list Z) : MessageHeader :=
  mkHeader (field b 0 4) (field b 4 4) (field b 8 8) (field b 16 8) (field b 24 4).

Definition encode_bounded (s : BoundedString.t) : list Z :=
  BoundedString.data_ s ++ le_encode 8 (BoundedString.length_ s).

Definition decode_bounded (N : nat) (b : list Z) (off : nat) : BoundedString.t :=
  BoundedString.mk (bytes_at b off N) (field b (off + N) 8).

Definition encode_new_order (m : NewOrderMessage) : list Z :=
  encode_header (no_header m) ++ le_encode 8 (no_order_id m)
  ++ encode_bounded (no_client_id m) ++ encode_bounded (no_symbol m)
  ++ le_encode 1 (no_side m) ++ le_encode 8 (no_quantity m) ++ le_encode 8 (no_price m)
  ++ le_encode 1 (no_order_type m).

Definition decode_new_order (b : list Z) : NewOrderMessage :=
  mkNewOrder (decode_header b) (field b 28 8) (decode_bounded 32 b 36) (decode_bounded 8 b 76)
    (field b 92 1) (field b 93 8) (field b 101 8) (field b 109 1).

Definition encode_cancel_order (m : CancelOrderMessage) : list Z :=
  encode_header (co_header m) ++ le_encode 8 (co_order_id m)
  ++ encode_bounded (co_client_id m) ++ encode_bounded (co_symbol m).

Definition decode_cancel_order (b : list Z) : CancelOrderMessage :=
  mkCancelOrder (decode_header b) (field b 28 8) (decode_bounded 32 b 36) (decode_bounded 8 b 76).

Definition encode_order_ack (m : OrderAckMessage) : list Z :=
  encode_header (oa_header m) ++ le_encode 8 (oa_order_id m) ++ le_encode 1 (oa_status m)
  ++ encode_bounded (oa_reason m).

Definition decode_order_ack (b : list Z) : OrderAckMessage :=
  mkOrderAck (decode_header b) (field b 28 8) (field b 36 1) (decode_bounded 32 b 37).

Definition encode_trade (m : TradeMessage) : list Z :=
  encode_header (tm_header m) ++ le_encode 8 (tm_trade_id m) ++ le_encode 8 (tm_buy_order_id m)
  ++ le_encode 8 (tm_sell_order_id m) ++ encode_bounded (tm_symbol m)
  ++ le_encode 8 (tm_quantity m) ++ le_encode 8 (tm_price m) ++ le_encode 8 (tm_timestamp_ns m).

Definition decode_trade (b : list Z) : TradeMessage :=
  mkTradeMessage (decode_header b) (field b 28 8) (field b 36 8) (field b 44 8)
    (decode_bounded 8 b 52) (field b 68 8) (field b 76 8) (field b 84 8).

(** ** Checksums *)

Definition CRC_POLY : Z := 3988292384.  (* 0xEDB88320 *)

(** One turn of the inner loop. *)
Definition crc_bit (crc : Z) : Z :=
  if Z.testbit crc 0 then Z.lxor (Z.shiftr crc 1) CRC_POLY else Z.shiftr crc 1.

(** The inner loop. *)
Fixpoint crc_bits (j : nat) (crc : Z) : Z :=
  match j with O => crc | S j' => crc_bits j' (crc_bit crc) end.

(** The outer loop. *)
Fixpoint crc_loop (crc : Z) (bytes : list Z) : Z :=
  match bytes with
  | [] => crc
  | b :: rest => crc_loop (crc_bits 8 (Z.lxor crc b)) rest
  end.

(** [~crc] on [uint32_t]. *)
Definition calculate_checksum (bytes : list Z) : Z := Z.lxor (crc_loop u32_max bytes) u32_max.

(** [payload] is the array behind the pointer, [None] the null pointer; the
    result is [None] when the loop would read past the array. *)
Definition validate_checksum (header : MessageHeader) (payload : option (list Z)) : option bool :=
  if (h_length header <? Z.of_nat sizeof_header) || (8192 <? h_length header) then Some false
  else match payload with
  | None => Some false
  | Some bytes =>
      let payload_length := Z.to_nat (h_length header - Z.of_nat sizeof_header) in
      if (length bytes <? payload_length)%nat then None
      else Some (calculate_checksum (take payload_length bytes) =? h_checksum header)
  end.

Definition with_checksum (c : Z) (h : MessageHeader) : MessageHeader :=
  mkHeader (h_type h) (h_length h) (h_sequence h) (h_timestamp h) c.

Definition set_checksum (payload : option (list Z)) (header : MessageHeader) : option MessageHeader :=
  if (h_length header <? Z.of_nat sizeof_header) || (8192 <? h_length header)
  then Some (with_checksum 0 header)
  else match payload with
  | None => Some (with_checksum 0 header)
  | Some bytes =>
      let payload_length := Z.to_nat (h_length header - Z.of_nat sizeof_header) in
      if (length bytes <? payload_length)%nat then None
      else Some (with_checksum (calculate_checksum (take payload_length bytes)) header)
  end.

(** The standard check value of CRC-32: the checksum of ["123456789"]. *)
Example crc_check_value :
  calculate_checksum [49; 50; 51; 52; 53; 54; 55; 56; 57] = 3421780262.  (* 0xCBF43926 *)
Proof. reflexivity. Qed.

(** ** Integers round trip *)

Lemma length_le_encode n v : length (le_encode n v) = n.
Proof. revert v. induction n as [|n IH]; intros v; simpl; [done|]. by rewrite IH. Qed.

Lemma le_decode_encode n v : 0 <= v < 256 ^ Z.of_nat n -> le_decode (le_encode n v) = v.
Proof.
  revert v. induction n as [|n IH]; intros v Hv; simpl.
  { change (256 ^ Z.of_nat 0) with 1 in Hv. lia. }
  rewrite Nat2Z.inj_succ Z.pow_succ_r in Hv; [lia|]. rewrite IH.
  - split; [apply Z.div_pos; lia|]. apply Z.div_lt_upper_bound; lia.
  - pose proof (Z.div_mod v 256). lia.
Qed.

Lemma le_decode_nonneg b : Forall (fun x => u8 x) b -> 0 <= le_decode b < 256 ^ Z.of_nat (length b).
Proof.
  induction 1 as [|x b Hx _ IH]; [simpl; lia|]. cbn [length le_decode].
  rewrite Nat2Z.inj_succ Z.pow_succ_r; u_lia.
Qed.

Lemma le_decode_inj a b :
  length a = length b -> Forall (fun x => u8 x) a -> Forall (fun x => u8 x) b ->
  le_decode a = le_decode b -> a = b.
Proof.
  intros Hl Ha. revert b Hl. induction Ha as [|x a Hx Ha IH]; intros [|y b] Hl Hb; simpl in *; try done.
  inversion Hb as [|? ? Hy Hb']; subst. intros He.
  assert (x = y) as -> by u_lia. f_equal. apply IH; [lia|done|lia].
Qed.

#[local] Opaque le_encode.

(** A field behind other bytes, and a field at the front. *)
Lemma field_skip x r off n :
  (length x <= off)%nat -> field (x ++ r) off n = field r (off - length x) n.
Proof. intros. unfold field. by rewrite drop_app_ge. Qed.

Lemma field_here n v r : 0 <= v < 256 ^ Z.of_nat n -> field (le_encode n v ++ r) 0 n = v.
Proof.
  intros. unfold field. rewrite drop_0 take_app_length'; [by rewrite length_le_encode|].
  by apply le_decode_encode.
Qed.

Lemma bytes_at_skip x r off n :
  (length x <= off)%nat -> bytes_at (x ++ r) off n = bytes_at r (off - length x) n.
Proof. intros. unfold bytes_at. by rewrite drop_app_ge. Qed.

Lemma bytes_at_here (d r : list Z) n : length d = n -> bytes_at (d ++ r) 0 n = d.
Proof. intros <-. unfold bytes_at. by rewrite drop_0 take_app_length. Qed.

(** ** Messages in range *)

Record header_wf (h : MessageHeader) : Prop := {
  hw_type : u32 (h_type h);
  hw_length : u32 (h_length h);
  hw_sequence : u64 (h_sequence h);
  hw_timestamp : u64 (h_timestamp h);
  hw_checksum : u32 (h_checksum h)
}.

Definition bounded_wf (N : nat) (s : BoundedString.t) : Prop :=
  length (BoundedString.data_ s) = N /\ u64 (BoundedString.length_ s).

Record new_order_wf (m : NewOrderMessage) : Prop := {
  nw_header : header_wf (no_header m);
  nw_order_id : u64 (no_order_id m);
  nw_client : bounded_wf 32 (no_client_id m);
  nw_symbol : bounded_wf 8 (no_symbol m);
  nw_side : u8 (no_side m);
  nw_quantity : u64 (no_quantity m);
  nw_price : u64 (no_price m);
  nw_type : u8 (no_order_type m)
}.

Record cancel_order_wf (m : CancelOrderMessage) : Prop := {
  cw_header : header_wf (co_header m);
  cw_order_id : u64 (co_order_id m);
  cw_client : bounded_wf 32 (co_client_id m);
  cw_symbol : bounded_wf 8 (co_symbol m)
}.

Record order_ack_wf (m : OrderAckMessage) : Prop := {
  aw_header : header_wf (oa_header m);
  aw_order_id : u64 (oa_order_id m);
  aw_status : u8 (oa_status m);
  aw_reason : bounded_wf 32 (oa_reason m)
}.

Record trade_wf (m : TradeMessage) : Prop := {
  tw_header : header_wf (tm_header m);
  tw_trade_id : u64 (tm_trade_id m);
  tw_buy : u64 (tm_buy_order_id m);
  tw_sell : u64 (tm_sell_order_id m);
  tw_symbol : bounded_wf 8 (tm_symbol m);
  tw_quantity : u64 (tm_quantity m);
  tw_price : u64 (tm_price m);
  tw_timestamp : u64 (tm_timestamp_ns m)
}.

(** Walk to the front of the field and read it. *)
Ltac field_range :=
  unfold is_u in *;
  change (256 ^ Z.of_nat 8) with (2 ^ 64); change (256 ^ Z.of_nat 4) with (2 ^ 32);
  change (256 ^ Z.of_nat 1) with (2 ^ 8); assumption.
Ltac lengths :=
  repeat rewrite length_le_encode;
  repeat match goal with H : length ?d = _ |- context [length ?d] => rewrite H end.
Ltac read_field :=
  repeat first
    [ rewrite field_skip; [lengths; lia|]
    | rewrite bytes_at_skip; [lengths; lia|] ];
  lengths; simpl Nat.sub;
  first [ rewrite field_here; [field_range|reflexivity]
        | rewrite bytes_at_here; [assumption|reflexivity] ].

Lemma decode_header_app h r : header_wf h -> decode_header (encode_header h ++ r) = h.
Proof.
  intros [? ? ? ? ?]. unfold decode_header, encode_header. destruct h; simpl in *.
  rewrite -!app_assoc. f_equal; read_field.
Qed.

Lemma length_encode_header h : length (encode_header h) = sizeof_header.
Proof. unfold encode_header. by rewrite !length_app !length_le_encode. Qed.

(** Decode a message field by field. *)
Ltac decode_message :=
  rewrite -!app_assoc decode_header_app; [assumption|];
  unfold decode_bounded, encode_bounded, encode_header;
  simpl in *; rewrite -?app_assoc;
  f_equal; try read_field; f_equal; read_field.

Lemma decode_new_order_app m r : new_order_wf m -> decode_new_order (encode_new_order m ++ r) = m.
Proof.
  destruct m as [? ? [? ?] [? ?] ? ? ? ?]. intros [Hh ? [? ?] [? ?] ? ? ? ?].
  unfold decode_new_order, encode_new_order. decode_message.
Qed.

Lemma decode_cancel_order_app m r :
  cancel_order_wf m -> decode_cancel_order (encode_cancel_order m ++ r) = m.
Proof.
  destruct m as [? ? [? ?] [? ?]]. intros [Hh ? [? ?] [? ?]].
  unfold decode_cancel_order, encode_cancel_order. decode_message.
Qed.

Lemma decode_order_ack_app m r : order_ack_wf m -> decode_order_ack (encode_order_ack m ++ r) = m.
Proof.
  destruct m as [? ? ? [? ?]]. intros [Hh ? ? [? ?]].
  unfold decode_order_ack, encode_order_ack. decode_message.
Qed.

Lemma decode_trade_app m r : trade_wf m -> decode_trade (encode_trade m ++ r) = m.
Proof.
  destruct m as [? ? ? ? [? ?] ? ? ?]. intros [Hh ? ? ? [? ?] ? ? ?].
  unfold decode_trade, encode_trade. decode_message.
Qed.

(** The length of an encoded message. *)
Ltac encoded_length :=
  unfold encode_header, encode_bounded; rewrite !length_app !length_le_encode;
  repeat match goal with H : bounded_wf _ _ |- _ => rewrite (proj1 H); clear H end;
  reflexivity.

Lemma length_encode_new_order m : new_order_wf m -> length (encode_new_order m) = sizeof_NewOrderMessage.
Proof. intros [_ _ ? ? _ _ _ _]. unfold encode_new_order. encoded_length. Qed.

Lemma length_encode_cancel_order m :
  cancel_order_wf m -> length (encode_cancel_order m) = sizeof_CancelOrderMessage.
Proof. intros [_ _ ? ?]. unfold encode_cancel_order. encoded_length. Qed.

Lemma length_encode_order_ack m : order_ack_wf m -> length (encode_order_ack m) = sizeof_OrderAckMessage.
Proof. intros [_ _ _ ?]. unfold encode_order_ack. encoded_length. Qed.

Lemma length_encode_trade m : trade_wf m -> length (encode_trade m) = sizeof_TradeMessage.
Proof. intros [_ _ _ _ ? _ _ _]. unfold encode_trade. encoded_length. Qed.

(** ** The checksum is linear and its step is injective *)

Lemma crc_bit_lxor a b : crc_bit (Z.lxor a b) = Z.lxor (crc_bit a) (crc_bit b).
Proof.
  unfold crc_bit. rewrite Z.lxor_spec Z.shiftr_lxor.
  destruct (Z.testbit a 0), (Z.testbit b 0); simpl; apply Z.bits_inj'; intros n Hn;
    rewrite !Z.lxor_spec; repeat (destruct (Z.testbit _ n)); reflexivity.
Qed.

Lemma crc_bits_lxor j a b : crc_bits j (Z.lxor a b) = Z.lxor (crc_bits j a) (crc_bits j b).
Proof. revert a b. induction j as [|j IH]; intros; simpl; [done|]. by rewrite crc_bit_lxor IH. Qed.

Lemma crc_bits_add i j c : crc_bits (i + j) c = crc_bits j (crc_bits i c).
Proof. revert c. induction i as [|i IH]; intros c; simpl; [done|]. apply IH. Qed.

Lemma crc_bit_double y : crc_bit (2 * y) = y.
Proof.
  unfold crc_bit. rewrite Z.testbit_even_0 Z.shiftr_div_pow2; [lia|].
  change (2 ^ 1) with 2. rewrite Z.mul_comm. by apply Z.div_mul.
Qed.

(** A byte further up the word arrives at the bottom after eight turns. *)
Lemma crc_bits_shift y : crc_bits 8 (256 * y) = y.
Proof.
  change 8%nat with (1 + (1 + (1 + (1 + (1 + (1 + (1 + 1)))))))%nat.
  replace (256 * y) with (2 * (2 * (2 * (2 * (2 * (2 * (2 * (2 * y)))))))) by lia.
  cbn [crc_bits Nat.add]. by rewrite !crc_bit_double.
Qed.

Lemma lxor_byte_high b y : u8 b -> 0 <= y -> Z.lxor b (256 * y) = b + 256 * y.
Proof.
  intros Hb Hy. rewrite Z.add_nocarry_lxor; [|done]. apply Z.bits_inj'. intros n Hn.
  rewrite Z.land_spec Z.bits_0. change 256 with (2 ^ 8). rewrite Z.mul_comm.
  destruct (Z_lt_le_dec n 8) as [Hlt|Hge].
  - rewrite (Z.mul_pow2_bits_low y); [done|]. apply andb_false_r.
  - rewrite -(Z.mod_small b (2 ^ 8)); [done|]. by rewrite Z.mod_pow2_bits_high.
Qed.

(** Feeding the bytes of a word is feeding the word. *)
Lemma crc_loop_word c w :
  Forall (fun x => u8 x) w ->
  crc_loop c w = crc_bits (8 * length w) (Z.lxor c (le_decode w)).
Proof.
  intros Hw. revert c. induction Hw as [|b w Hb Hw IH]; intros c; cbn [crc_loop length le_decode].
  { by rewrite Z.lxor_0_r. }
  pose proof (le_decode_nonneg w Hw). rewrite IH -lxor_byte_high; [done|lia|].
  replace (8 * S (length w))%nat with (8 + 8 * length w)%nat by lia.
  by rewrite crc_bits_add -Z.lxor_assoc (crc_bits_lxor 8 (Z.lxor c b)) crc_bits_shift.
Qed.

Lemma lxor_u32 a b : u32 a -> u32 b -> u32 (Z.lxor a b).
Proof.
  intros Ha Hb. assert (Z.lxor a b = Z.lxor a b mod 2 ^ 32) as ->.
  2:{ apply Z.mod_pos_bound. lia. }
  apply Z.bits_inj'. intros n Hn. destruct (Z_lt_le_dec n 32).
  - by rewrite Z.mod_pow2_bits_low.
  - rewrite Z.mod_pow2_bits_high; [lia|]. rewrite Z.lxor_spec.
    rewrite -(Z.mod_small a (2 ^ 32)); [done|]. rewrite -(Z.mod_small b (2 ^ 32)); [done|].
    by rewrite !Z.mod_pow2_bits_high.
Qed.

Lemma crc_bit_u32 c : u32 c -> u32 (crc_bit c).
Proof.
  intros Hc. assert (u32 (Z.shiftr c 1)) as Hs.
  { rewrite Z.shiftr_div_pow2; [lia|]. change (2 ^ 1) with 2.
    split; [apply Z.div_pos; u_lia|]. apply Z.div_lt_upper_bound; u_lia. }
  unfold crc_bit. destruct (Z.testbit c 0); [|done]. apply lxor_u32; [done|]. unfold CRC_POLY. u_lia.
Qed.

Lemma crc_bits_u32 j c : u32 c -> u32 (crc_bits j c).
Proof. revert c. induction j as [|j IH]; intros c Hc; simpl; [done|]. by apply IH, crc_bit_u32. Qed.

(** The polynomial has its top bit set, so a turn loses no information. *)
Lemma crc_bit_kernel c : u32 c -> crc_bit c = 0 -> c = 0.
Proof.
  intros Hc. unfold crc_bit. rewrite Z.shiftr_div_pow2; [lia|]. change (2 ^ 1) with 2.
  pose proof (Z.div_mod c 2 ltac:(lia)) as Hd. pose proof (Z.mod_pos_bound c 2 ltac:(lia)).
  rewrite Z.bit0_odd Zmod_odd in Hd |- *. destruct (Z.odd c).
  - intros He%Z.lxor_eq. unfold CRC_POLY in He. u_lia.
  - lia.
Qed.

Lemma crc_bits_inj j a b : u32 a -> u32 b -> crc_bits j a = crc_bits j b -> a = b.
Proof.
  intros Ha Hb He. apply Z.lxor_eq.
  assert (forall j c, u32 c -> crc_bits j c = 0 -> c = 0) as Hk.
  { clear. induction j as [|j IH]; intros c Hc; simpl; [done|]. intros E.
    apply crc_bit_kernel; [done|]. apply IH; [by apply crc_bit_u32|done]. }
  apply (Hk j); [by apply lxor_u32|]. by rewrite crc_bits_lxor He Z.lxor_nilpotent.
Qed.

Lemma u8_u32 b : u8 b -> u32 b.
Proof. u_lia. Qed.

Lemma crc_loop_u32 c w : u32 c -> Forall (fun x => u8 x) w -> u32 (crc_loop c w).
Proof.
  intros Hc Hw. revert c Hc. induction Hw as [|b w Hb Hw IH]; intros c Hc; simpl; [done|].
  apply IH. apply (crc_bits_u32 8). apply lxor_u32; [done|by apply u8_u32].
Qed.

(** Different registers stay different over a common suffix. *)
Lemma crc_loop_inj c d w :
  u32 c -> u32 d -> Forall (fun x => u8 x) w -> crc_loop c w = crc_loop d w -> c = d.
Proof.
  intros Hc Hd Hw. revert c d Hc Hd. induction Hw as [|b w Hb Hw IH]; intros c d Hc Hd; cbn [crc_loop]; [done|].
  pose proof (u8_u32 b Hb) as Hb'. intros E%IH; [|apply (crc_bits_u32 8); by apply lxor_u32..].
  apply crc_bits_inj in E; [|by apply lxor_u32..].
  apply (f_equal (fun x => Z.lxor x b)) in E.
  by rewrite !Z.lxor_assoc Z.lxor_nilpotent !Z.lxor_0_r in E.
Qed.

Lemma crc_loop_app c w s : crc_loop c (w ++ s) = crc_loop (crc_loop c w) s.
Proof. revert c. induction w as [|b w IH]; intros c; simpl; [done|]. apply IH. Qed.

(** Two payloads that differ only inside a window of at most four bytes have
    different checksums. *)
Lemma checksum_burst p w w' s :
  Forall (fun x => u8 x) (p ++ w ++ s) -> Forall (fun x => u8 x) w' ->
  length w' = length w -> (length w <= 4)%nat -> w' <> w ->
  calculate_checksum (p ++ w' ++ s) <> calculate_checksum (p ++ w ++ s).
Proof.
  intros [Hp [Hw Hs]%Forall_app]%Forall_app Hw' Hl H4 Hne. unfold calculate_checksum. intros E.
  apply (f_equal (fun x => Z.lxor x u32_max)) in E.
  rewrite !Z.lxor_assoc Z.lxor_nilpotent !Z.lxor_0_r !crc_loop_app in E.
  set (c := crc_loop u32_max p) in E.
  assert (u32 c) as Hc by (apply crc_loop_u32; [u_lia|done]).
  apply crc_loop_inj in E; [|by apply crc_loop_u32..|done].
  rewrite !crc_loop_word in E; [done..|]. rewrite Hl in E.
  assert (forall x, (length x <= 4)%nat -> Forall (fun x => u8 x) x -> u32 (le_decode x)) as Hu.
  { intros x Hx Hf. pose proof (le_decode_nonneg x Hf).
    assert (256 ^ Z.of_nat (length x) <= 256 ^ 4) by (apply Z.pow_le_mono_r; lia). u_lia. }
  apply crc_bits_inj in E; [|apply lxor_u32; [done|]; apply Hu; [lia|done]..].
  apply (f_equal (Z.lxor c)) in E.
  rewrite -!Z.lxor_assoc Z.lxor_nilpotent !Z.lxor_0_l in E. by apply Hne, le_decode_inj.
Qed.

(** ** The properties *)

Lemma set_checksum_done h payload :
  h_length h = Z.of_nat (sizeof_header + length payload) -> h_length h <= 8192 ->
  set_checksum (Some payload) h = Some (with_checksum (calculate_checksum payload) h).
Proof.
  intros Hl Hm. unfold set_checksum. rewrite Hl.
  rewrite (proj2 (Z.ltb_ge _ _)); [lia|]. rewrite (proj2 (Z.ltb_ge _ _)); [lia|]. cbn [orb].
  replace (Z.to_nat _) with (length payload) by lia.
  by rewrite Nat.ltb_irrefl take_ge.
Qed.

Lemma validate_checksum_done h payload :
  h_length h = Z.of_nat (sizeof_header + length payload) -> h_length h <= 8192 ->
  validate_checksum h (Some payload) = Some (calculate_checksum payload =? h_checksum h).
Proof.
  intros Hl Hm. unfold validate_checksum. rewrite Hl.
  rewrite (proj2 (Z.ltb_ge _ _)); [lia|]. rewrite (proj2 (Z.ltb_ge _ _)); [lia|]. cbn [orb].
  replace (Z.to_nat _) with (length payload) by lia.
  by rewrite Nat.ltb_irrefl take_ge.
Qed.

(** C23: a header stamped by [set_checksum] validates against its payload, and
    stops validating when any bytes inside a window of up to four bytes (32
    bits) of the payload are altered, whatever surrounds the window: the CRC
    detects every such burst, single-bit errors included.  The stamp fits the
    32-bit field and changes no other field. *)
Theorem checksum_detects_bursts h p w w' s :
  h_length h = Z.of_nat (sizeof_header + length (p ++ w ++ s)) -> h_length h <= 8192 ->
  Forall (fun x => u8 x) (p ++ w ++ s) -> Forall (fun x => u8 x) w' ->
  length w' = length w -> (length w <= 4)%nat -> w' <> w ->
  exists h', set_checksum (Some (p ++ w ++ s)) h = Some h' /\
    with_checksum (h_checksum h) h' = h /\ u32 (h_checksum h') /\
    validate_checksum h' (Some (p ++ w ++ s)) = Some true /\
    validate_checksum h' (Some (p ++ w' ++ s)) = Some false.
Proof.
  intros Hl Hm Hb Hw' Hlw H4 Hne. eexists. split; [by apply set_checksum_done|].
  split; [by destruct h|]. split.
  { apply lxor_u32; [|u_lia]. apply crc_loop_u32; [u_lia|done]. }
  split.
  - rewrite validate_checksum_done; [done..|]. by rewrite Z.eqb_refl.
  - rewrite validate_checksum_done; [|done|].
    { rewrite !length_app Hlw -!length_app. exact Hl. }
    f_equal. apply Z.eqb_neq. by apply checksum_burst.
Qed.

Lemma checksum_detects_bursts_witness :
  exists h', set_checksum (Some [1; 2; 3]) (mkHeader 200 31 7 9 0) = Some h' /\
    validate_checksum h' (Some [1; 2; 3]) = Some true /\
    validate_checksum h' (Some [1; 0; 3]) = Some false.
Proof.
  destruct (checksum_detects_bursts (mkHeader 200 31 7 9 0) [1] [2] [0] [3]) as (h' & H1 & _ & _ & H2 & H3);
    [reflexivity|simpl; lia|repeat constructor; u_lia|repeat constructor; u_lia|reflexivity|simpl; lia|discriminate|].
  exists h'. exact (conj H1 (conj H2 H3)).
Defined.

(** Every message struct whose fields are in range survives its wire
    format: the bytes the sender's struct occupies, followed by anything at
    all, decode at the receiver to the same message, and the sender's bytes are
    as many as the [sizeof] the handlers compare with. *)
Theorem message_roundtrip n c a t rest :
  new_order_wf n -> cancel_order_wf c -> order_ack_wf a -> trade_wf t ->
  (decode_new_order (encode_new_order n ++ rest) = n /\
   length (encode_new_order n) = sizeof_NewOrderMessage) /\
  (decode_cancel_order (encode_cancel_order c ++ rest) = c /\
   length (encode_cancel_order c) = sizeof_CancelOrderMessage) /\
  (decode_order_ack (encode_order_ack a ++ rest) = a /\
   length (encode_order_ack a) = sizeof_OrderAckMessage) /\
  (decode_trade (encode_trade t ++ rest) = t /\
   length (encode_trade t) = sizeof_TradeMessage).
Proof.
  intros Hn Hc Ha Ht. split_and!.
  - by apply decode_new_order_app.
  - by apply length_encode_new_order.
  - by apply decode_cancel_order_app.
  - by apply length_encode_cancel_order.
  - by apply decode_order_ack_app.
  - by apply length_encode_order_ack.
  - by apply decode_trade_app.
  - by apply length_encode_trade.
Qed.

Lemma message_roundtrip_witness :
  let h := mkHeader 1 110 7 9 0 in
  let m := mkNewOrder h 42 (BoundedString.init 32) (BoundedString.init 8) 1 100 1500000 2 in
  decode_new_order (encode_new_order m ++ [255]) = m.
Proof.
  intros h m.
  assert (header_wf h) by (split; simpl; u_lia).
  refine (proj1 (proj1 (message_roundtrip m (mkCancelOrder h 42 (BoundedString.init 32) (BoundedString.init 8))
    (mkOrderAck h 42 1 (BoundedString.init 32)) (mkTradeMessage h 1 2 3 (BoundedString.init 8) 4 5 6)
    [255] _ _ _ _))); split; try assumption; try (split; [reflexivity|]); simpl; u_lia.
Defined.
