(* ===== verification/TcpGateway.v ===== *)
(** * The TCP gateway (tcp_gateway.hpp, tcp_gateway.cpp)

    The receive buffer, the framing loop of a connection, the message handlers
    that move orders from the wire into the pool and the risk queue, the
    acknowledgements, and the accept / event / stop steps of the two threads.

    The operating system is an argument: what [recv] delivers on a readable
    socket is a list of chunks and how the sequence ends, what the n-th [send]
    returns is [send_result n].  An exception nothing catches and undefined
    behaviour are [None]. *)

From S2P Require Import Prelude Types MemoryPool SpscQueue RiskManager MemorySafety Protocol.

Definition MAX_CONNECTIONS : nat := 1024.
Definition MAX_MESSAGE_SIZE : Z := 4096.
Definition GW_STATS_FLUSH_INTERVAL : Z := 4096.

(** ** ReadBuffer *)

Module ReadBuffer.

Definition CAPACITY : Z := 8192.

Record t := mk { buf_ : list Z; used_ : Z }.

Definition init : t := mk (replicate (Z.to_nat CAPACITY) 0) 0.

Definition append (data : list Z) (len : Z) (b : t) : outcome (bool * t) :=
  if CAPACITY <? (used_ b +₆₄ len) then Done (false, b)
  else let! d := memcpy (buf_ b) (used_ b) data len in Done (true, mk d (used_ b +₆₄ len)).

(** [memmove(buf_, buf_ + n, used_)] on what is left. *)
Definition consume (n : Z) (b : t) : t :=
  if used_ b <=? n then mk (buf_ b) 0
  else
    let used := used_ b - n in
    mk (take (Z.to_nat used) (drop (Z.to_nat n) (buf_ b)) ++ drop (Z.to_nat used) (buf_ b)) used.

Definition size (b : t) : Z := used_ b.
Definition remaining (b : t) : Z := CAPACITY -₆₄ used_ b.
Definition advance_write (n : Z) (b : t) : t := mk (buf_ b) (used_ b +₆₄ n).
Definition clear (b : t) : t := mk (buf_ b) 0.

(** The bytes [recv] leaves behind [write_ptr()]. *)
Definition written (bytes : list Z) (b : t) : outcome t :=
  let! d := memcpy (buf_ b) (used_ b) bytes (Z.of_nat (length bytes)) in Done (mk d (used_ b)).

Definition wf (b : t) : Prop := Z.of_nat (length (buf_ b)) = CAPACITY /\ 0 <= used_ b <= CAPACITY.
Definition contents (b : t) : list Z := take (Z.to_nat (used_ b)) (buf_ b).

End ReadBuffer.

(** ** Connections and statistics *)

Record ConnectionState := mkConn {
  conn_fd : Z;
  read_buf : ReadBuffer.t;
  authenticated : bool;
  connected : bool;
  connect_time : Timestamp
}.

Definition set_read_buf (b : ReadBuffer.t) (c : ConnectionState) : ConnectionState :=
  mkConn (conn_fd c) b (authenticated c) (connected c) (connect_time c).

(** [connected = false; fd.close()]: the descriptor is closed and forgotten. *)
Definition disconnect (c : ConnectionState) : ConnectionState :=
  mkConn (-1) (read_buf c) (authenticated c) false (connect_time c).

Record GwStats := mkGwStats {
  gs_connections_accepted : Z;
  gs_messages_received : Z;
  gs_messages_sent : Z;
  gs_orders_rejected : Z;
  gs_pool_exhausted : Z;
  gs_disconnections : Z;
  gs_next_sequence : Z
}.

Definition GwStats_init : GwStats := mkGwStats 0 0 0 0 0 0 1.

Record GwAtomicStats := mkGwAtomic {
  ga_connections_accepted : Z;
  ga_messages_received : Z;
  ga_messages_sent : Z;
  ga_disconnections : Z
}.

Definition inc_accepted (s : GwStats) : GwStats :=
  mkGwStats (gs_connections_accepted s +₆₄ 1) (gs_messages_received s) (gs_messages_sent s)
    (gs_orders_rejected s) (gs_pool_exhausted s) (gs_disconnections s) (gs_next_sequence s).
Definition inc_received (s : GwStats) : GwStats :=
  mkGwStats (gs_connections_accepted s) (gs_messages_received s +₆₄ 1) (gs_messages_sent s)
    (gs_orders_rejected s) (gs_pool_exhausted s) (gs_disconnections s) (gs_next_sequence s).
Definition inc_sent (s : GwStats) : GwStats :=
  mkGwStats (gs_connections_accepted s) (gs_messages_received s) (gs_messages_sent s +₆₄ 1)
    (gs_orders_rejected s) (gs_pool_exhausted s) (gs_disconnections s) (gs_next_sequence s).
Definition inc_rejected (s : GwStats) : GwStats :=
  mkGwStats (gs_connections_accepted s) (gs_messages_received s) (gs_messages_sent s)
    (gs_orders_rejected s +₆₄ 1) (gs_pool_exhausted s) (gs_disconnections s) (gs_next_sequence s).
Definition inc_exhausted (s : GwStats) : GwStats :=
  mkGwStats (gs_connections_accepted s) (gs_messages_received s) (gs_messages_sent s)
    (gs_orders_rejected s) (gs_pool_exhausted s +₆₄ 1) (gs_disconnections s) (gs_next_sequence s).
Definition inc_disconnections (s : GwStats) : GwStats :=
  mkGwStats (gs_connections_accepted s) (gs_messages_received s) (gs_messages_sent s)
    (gs_orders_rejected s) (gs_pool_exhausted s) (gs_disconnections s +₆₄ 1) (gs_next_sequence s).
Definition inc_sequence (s : GwStats) : GwStats :=
  mkGwStats (gs_connections_accepted s) (gs_messages_received s) (gs_messages_sent s)
    (gs_orders_rejected s) (gs_pool_exhausted s) (gs_disconnections s) (gs_next_sequence s +₆₄ 1).

(** ** What [recv] can do *)

Inductive recv_end := WouldBlock | RecvError.
Inductive recv_result := Received (bytes : list Z) | RecvFails (e : recv_end).

(** A closed descriptor is an error; a request for 0 bytes returns 0; otherwise
    the next chunk, or as much of it as fits.  [Received []] is the return
    value 0, the end of the stream. *)
Definition recv (open : bool) (len : Z) (chunks : list (list Z)) (last : recv_end)
    : recv_result * list (list Z) :=
  if negb open then (RecvFails RecvError, chunks)
  else if len =? 0 then (Received [], chunks)
  else match chunks with
  | [] => (RecvFails last, [])
  | chunk :: rest =>
      if Z.of_nat (length chunk) <=? len then (Received chunk, rest)
      else (Received (take (Z.to_nat len) chunk), drop (Z.to_nat len) chunk :: rest)
  end.

(** ** TcpGateway *)

Module TcpGateway.
Section gateway.
Context {E : Type}.
Variable steady_clock : nat -> Timestamp.
Variable send_result : nat -> Z.

Record t := mk {
  risk_manager_ : RiskManager.t E;
  order_pool_ : MemoryPool.t Order;
  connections_ : list (option ConnectionState);
  local_stats_ : GwStats;
  stats_atomic_ : GwAtomicStats;
  running_ : bool;
  ticks : nat;
  outbox : list (Z * list Z)
}.
Implicit Types g : t.

Definition set_risk x g : t :=
  mk x (order_pool_ g) (connections_ g) (local_stats_ g) (stats_atomic_ g) (running_ g) (ticks g) (outbox g).
Definition set_pool x g : t :=
  mk (risk_manager_ g) x (connections_ g) (local_stats_ g) (stats_atomic_ g) (running_ g) (ticks g) (outbox g).
Definition set_connections x g : t :=
  mk (risk_manager_ g) (order_pool_ g) x (local_stats_ g) (stats_atomic_ g) (running_ g) (ticks g) (outbox g).
Definition with_stats (f : GwStats -> GwStats) g : t :=
  mk (risk_manager_ g) (order_pool_ g) (connections_ g) (f (local_stats_ g)) (stats_atomic_ g) (running_ g)
    (ticks g) (outbox g).
Definition set_running x g : t :=
  mk (risk_manager_ g) (order_pool_ g) (connections_ g) (local_stats_ g) (stats_atomic_ g) x (ticks g) (outbox g).
Definition tick g : t :=
  mk (risk_manager_ g) (order_pool_ g) (connections_ g) (local_stats_ g) (stats_atomic_ g) (running_ g)
    (S (ticks g)) (outbox g).
Definition put_out (fd : Z) (bytes : list Z) g : t :=
  mk (risk_manager_ g) (order_pool_ g) (connections_ g) (local_stats_ g) (stats_atomic_ g) (running_ g)
    (ticks g) (outbox g ++ [(fd, bytes)]).

Definition flush_stats g : t :=
  let s := local_stats_ g in
  mk (risk_manager_ g) (order_pool_ g) (connections_ g) s
    (mkGwAtomic (gs_connections_accepted s) (gs_messages_received s) (gs_messages_sent s) (gs_disconnections s))
    (running_ g) (ticks g) (outbox g).

Definition maybe_flush_stats g : t :=
  if (gs_messages_received (local_stats_ g) mod GW_STATS_FLUSH_INTERVAL =? 0)
     && (0 <? gs_messages_received (local_stats_ g))
  then flush_stats g else g.

Definition make (risk_manager : RiskManager.t E) (order_pool : MemoryPool.t Order) : t :=
  mk risk_manager order_pool (replicate MAX_CONNECTIONS None) GwStats_init (mkGwAtomic 0 0 0 0) false 0 [].

(** ** Responses *)

Definition send_ack (conn : ConnectionState) (order_id status : Z) (reason : option cstring) g : option t :=
  let header := MessageHeader_make ORDER_ACK (Z.of_nat sizeof_OrderAckMessage)
                  (gs_next_sequence (local_stats_ g)) (steady_clock (ticks g)) in
  let g := tick (with_stats inc_sequence g) in
  match (match reason with
         | Some r => BoundedString.assign 32 (Some r) (BoundedString.init 32)
         | None => Done (BoundedString.init 32)
         end) with
  | Done text =>
      let sent := send_result (length (outbox g)) in
      let g := put_out (conn_fd conn) (encode_order_ack (mkOrderAck header order_id status text)) g in
      Some (if 0 <? sent then with_stats inc_sent g else g)
  | _ => None
  end.

Definition send_reject (conn : ConnectionState) (order_id : Z) (reason : option cstring) g : option t :=
  g ← send_ack conn order_id 2 reason g;
  Some (with_stats inc_rejected g).

(** ** Handlers *)

(** The order the handler writes into the allocated slot: every field. *)
Definition order_of_message (msg : NewOrderMessage) (now : Timestamp) : Order :=
  mkOrder (no_price msg) (no_quantity msg) (no_order_id msg) PENDING
    (Side_of_byte (no_side msg)) (OrderType_of_byte (no_order_type msg)) (no_quantity msg) now
    (FixedString.make SYMBOL_N (Some (until_nul (BoundedString.data_ (no_symbol msg)))))
    (FixedString.make CLIENT_N (Some (until_nul (BoundedString.data_ (no_client_id msg))))).

Definition handle_new_order (conn : ConnectionState) (data : list Z) (length : Z) g : option t :=
  if length <? Z.of_nat sizeof_NewOrderMessage then Some g
  else
    let msg := decode_new_order data in
    '(order, p) ← MemoryPool.allocate (order_pool_ g);
    let g := set_pool p g in
    match order with
    | None =>
        g ← send_reject conn (no_order_id msg) (Some (cstr "Order pool exhausted")) g;
        Some (with_stats inc_exhausted g)
    | Some i =>
        let g := set_pool (MemoryPool.store i (order_of_message msg (steady_clock (ticks g))) (order_pool_ g))
                   (tick g) in
        let '(ok, r) := RiskManager.submit_order (Some i) (risk_manager_ g) in
        let g := set_risk r g in
        if ok then send_ack conn (no_order_id msg) 1 (Some (cstr "Accepted")) g
        else
          p ← MemoryPool.deallocate (Some i) (order_pool_ g);
          send_reject conn (no_order_id msg) (Some (cstr "Risk queue full")) (set_pool p g)
    end.

Definition handle_cancel_order (conn : ConnectionState) (data : list Z) (length : Z) g : option t :=
  if length <? Z.of_nat sizeof_CancelOrderMessage then Some g
  else
    let msg := decode_cancel_order data in
    let '(ok, r) := RiskManager.submit_cancel (co_order_id msg)
      (FixedString.make CLIENT_N (Some (until_nul (BoundedString.data_ (co_client_id msg)))))
      (risk_manager_ g) in
    let g := set_risk r g in
    if ok then send_ack conn (co_order_id msg) 1 (Some (cstr "Cancel submitted")) g
    else send_reject conn (co_order_id msg) (Some (cstr "Cancel queue full")) g.

Definition process_message (conn : ConnectionState) (data : list Z) (length : Z) g : option t :=
  let type := h_type (decode_header data) in
  if type =? NEW_ORDER then handle_new_order conn data length g
  else if type =? CANCEL_ORDER then handle_cancel_order conn data length g
  else Some g.

(** ** Framing *)

Definition try_process_message (conn : ConnectionState) g : option (bool * ConnectionState * t) :=
  let b := read_buf conn in
  if ReadBuffer.size b <? Z.of_nat sizeof_header then Some (false, conn, g)
  else
    let len := h_length (decode_header (ReadBuffer.buf_ b)) in
    if (len <? Z.of_nat sizeof_header) || (MAX_MESSAGE_SIZE <? len)
    then Some (false, disconnect conn, g)
    else if ReadBuffer.size b <? len then Some (false, conn, g)
    else
      g ← process_message conn (ReadBuffer.buf_ b) len g;
      Some (true, set_read_buf (ReadBuffer.consume len b) conn, g).

(** [while (try_process_message(conn)) ++messages_received;] *)
Fixpoint process_loop (fuel : nat) (conn : ConnectionState) g : option (ConnectionState * t) :=
  match fuel with
  | O => None
  | S fuel' =>
      '(more, conn, g) ← try_process_message conn g;
      if (more : bool) then process_loop fuel' conn (with_stats inc_received g) else Some (conn, g)
  end.

(** ** Connections *)

Definition in_range (fd : Z) g : bool := wrap 64 fd <? Z.of_nat (length (connections_ g)).

Definition remove_connection (fd : Z) g : t :=
  if in_range fd g
  then with_stats inc_disconnections (set_connections (<[Z.to_nat fd := None]> (connections_ g)) g)
  else g.

(** The receive loop of [handle_client_data]; [conn] is the object behind the
    reference, stored back when the loop ends. *)
Fixpoint recv_loop (fuel : nat) (fd : Z) (chunks : list (list Z)) (last : recv_end)
    (conn : ConnectionState) g : option t :=
  match fuel with
  | O => None
  | S fuel' =>
      let '(result, chunks) := recv (0 <=? conn_fd conn) (ReadBuffer.remaining (read_buf conn)) chunks last in
      match result with
      | Received [] => Some (remove_connection fd g)
      | Received bytes =>
          match ReadBuffer.written bytes (read_buf conn) with
          | Done b =>
              let conn := set_read_buf (ReadBuffer.advance_write (Z.of_nat (length bytes)) b) conn in
              '(conn, g) ← process_loop (S (Z.to_nat (ReadBuffer.size (read_buf conn)))) conn g;
              recv_loop fuel' fd chunks last conn g
          | _ => None
          end
      | RecvFails WouldBlock => Some (set_connections (<[Z.to_nat fd := Some conn]> (connections_ g)) g)
      | RecvFails RecvError => Some (remove_connection fd g)
      end
  end.

(** Enough turns for every chunk to be read byte by byte. *)
Definition recv_fuel (chunks : list (list Z)) : nat := S (S (length (concat chunks) + length chunks)).

Definition handle_client_data (fd : Z) (chunks : list (list Z)) (last : recv_end) g : option t :=
  if negb (in_range fd g) then Some g
  else match connections_ g !! Z.to_nat fd with
  | Some (Some conn) => recv_loop (recv_fuel chunks) fd chunks last conn g
  | _ => Some g
  end.

(** ** The two threads *)

(** One accepted socket. *)
Definition accept_connection (client_fd : Z) g : t :=
  if Z.of_nat MAX_CONNECTIONS <=? wrap 64 client_fd then g
  else
    let conn := mkConn client_fd ReadBuffer.init false true (steady_clock (ticks g)) in
    with_stats inc_accepted (set_connections (<[Z.to_nat client_fd := Some conn]> (connections_ g)) (tick g)).

(** One ready descriptor of [epoll_wait]. *)
Record event := mkEvent {
  ev_fd : Z;
  ev_error : bool;
  ev_readable : bool;
  ev_chunks : list (list Z);
  ev_last : recv_end
}.

Definition handle_event (e : event) g : option t :=
  if ev_error e then Some (remove_connection (ev_fd e) g)
  else if ev_readable e then handle_client_data (ev_fd e) (ev_chunks e) (ev_last e) g
  else Some g.

Fixpoint handle_events (events : list event) g : option t :=
  match events with
  | [] => Some g
  | e :: rest => g ← handle_event e g; handle_events rest g
  end.

(** One turn of [worker_loop]. *)
Definition worker_round (events : list event) g : option t :=
  g ← handle_events events g; Some (maybe_flush_stats g).

(** [ready]: whether the listening socket and the reactor could be set up. *)
Definition start (ready : bool) g : string + t :=
  if running_ g then inr g
  else if ready then inr (set_running true g)
  else inl "Failed to start TCP Gateway"%string.

Definition stop g : t :=
  if running_ g
  then flush_stats (set_connections ((fun _ => None) <$> connections_ g) (set_running false g))
  else g.

End gateway.
Arguments t : clear implicits.
End TcpGateway.
