(* ===== verification/GatewayTheorems.v ===== *)
(** * Theorems about the TCP gateway

    The framing loop is related to a reference parser of the byte stream that
    knows nothing of buffers and chunks; the handlers are specified by their
    effect on the pool, the risk queue and the reply; and no byte sequence from
    the network, however it is split, takes the gateway out of its invariant. *)

From S2P Require Import Prelude Types MemoryPool SpscQueue RiskManager MemorySafety Protocol TcpGateway.

(** ** The reference: cutting a byte stream into messages *)

Inductive rest_of_stream := Partial (rest : list Z) | Malformed.

Fixpoint frames (fuel : nat) (b : list Z) : list (list Z) * rest_of_stream :=
  match fuel with
  | O => ([], Partial b)
  | S fuel' =>
      if (length b <? sizeof_header)%nat then ([], Partial b)
      else
        let len := field b 4 4 in
        if (len <? 28) || (4096 <? len) then ([], Malformed)
        else if Z.of_nat (length b) <? len then ([], Partial b)
        else
          let n := Z.to_nat len in
          let '(fs, t) := frames fuel' (drop n b) in (take n b :: fs, t)
  end.

Definition parse_stream (b : list Z) : list (list Z) * rest_of_stream := frames (S (length b)) b.

Lemma frames_fuel f1 f2 b : (length b < f1)%nat -> (length b < f2)%nat -> frames f1 b = frames f2 b.
Proof.
  revert f2 b. induction f1 as [|f1 IH]; intros f2 b H1 H2; [lia|].
  destruct f2 as [|f2]; [lia|]. cbn [frames].
  destruct (Nat.ltb_spec (length b) sizeof_header); [done|].
  destruct (_ || _) eqn:E; [done|]. destruct (Z.of_nat (length b) <? field b 4 4); [done|].
  unfold sizeof_header in *. cbn zeta.
  assert (28 <= field b 4 4) by (zbool; simpl in *; try done; lia).
  by rewrite (IH f2 (drop (Z.to_nat (field b 4 4)) b)); [rewrite length_drop; lia..|].
Qed.

Lemma parse_unfold b :
  parse_stream b =
    if (length b <? sizeof_header)%nat then ([], Partial b)
    else
      let len := field b 4 4 in
      if (len <? 28) || (4096 <? len) then ([], Malformed)
      else if Z.of_nat (length b) <? len then ([], Partial b)
      else
        let n := Z.to_nat len in
        let '(fs, t) := parse_stream (drop n b) in (take n b :: fs, t).
Proof.
  unfold parse_stream. cbn [frames].
  destruct (Nat.ltb_spec (length b) sizeof_header); [done|]. cbn zeta.
  destruct (_ || _) eqn:E; [done|]. destruct (Z.of_nat (length b) <? field b 4 4); [done|].
  unfold sizeof_header in *.
  assert (28 <= field b 4 4) by (zbool; simpl in *; try done; lia).
  by rewrite (frames_fuel (length b) (S (length (drop (Z.to_nat (field b 4 4)) b))));
    [rewrite length_drop; lia|lia|].
Qed.

(** The header's length field is read from the first bytes only. *)
Lemma field_prefix a r off n : (off + n <= length a)%nat -> field (a ++ r) off n = field a off n.
Proof.
  intros. unfold field. rewrite drop_app_le; [lia|]. rewrite take_app_le; [rewrite length_drop; lia|done].
Qed.

(** More bytes behind a stream: what was cut stays cut, a partial message is
    completed, a malformed stream stays malformed. *)
Lemma parse_app a c :
  parse_stream (a ++ c) =
    match parse_stream a with
    | (fs, Malformed) => (fs, Malformed)
    | (fs, Partial r) => (fs ++ (parse_stream (r ++ c)).1, (parse_stream (r ++ c)).2)
    end.
Proof.
  remember (length a) as n eqn:Hn. revert a Hn. induction n as [n IH] using lt_wf_ind. intros a ->.
  rewrite (parse_unfold a).
  destruct (Nat.ltb_spec (length a) sizeof_header) as [Hs|Hs]; [by destruct (parse_stream (a ++ c))|].
  cbn zeta. destruct (_ || _) eqn:Eb.
  { rewrite parse_unfold length_app. destruct (Nat.ltb_spec (length a + length c) sizeof_header); [lia|].
    cbn zeta. rewrite field_prefix; [unfold sizeof_header in *; lia|]. by rewrite Eb. }
  destruct (Z.ltb_spec (Z.of_nat (length a)) (field a 4 4)) as [Hp|Hp]; [by destruct (parse_stream (a ++ c))|].
  rewrite parse_unfold length_app. destruct (Nat.ltb_spec (length a + length c) sizeof_header); [lia|].
  cbn zeta. rewrite field_prefix; [unfold sizeof_header in *; lia|]. rewrite Eb.
  destruct (Z.ltb_spec (Z.of_nat (length a + length c)) (field a 4 4)); [lia|].
  assert (28 <= field a 4 4) by (zbool; simpl in *; try done; lia).
  rewrite drop_app_le; [lia|]. rewrite take_app_le; [lia|].
  rewrite (IH (length (drop (Z.to_nat (field a 4 4)) a))); [rewrite length_drop; unfold sizeof_header in *; lia|done|].
  by destruct (parse_stream (drop (Z.to_nat (field a 4 4)) a)) as [fs [r|]].
Qed.

(** What is left over is a proper prefix of a message. *)
Lemma parse_partial b fs r :
  parse_stream b = (fs, Partial r) ->
  (length r < 4096)%nat /\ parse_stream r = ([], Partial r) /\ (length r <= length b)%nat.
Proof.
  remember (length b) as n eqn:Hn. revert b fs Hn. induction n as [n IH] using lt_wf_ind. intros b fs ->.
  rewrite parse_unfold. destruct (Nat.ltb_spec (length b) sizeof_header) as [Hs|Hs].
  { intros [= <- <-]. unfold sizeof_header in *. split; [lia|]. split; [|done].
    rewrite parse_unfold. unfold sizeof_header. by rewrite (proj2 (Nat.ltb_lt _ _)). }
  cbn zeta. destruct (_ || _) eqn:Eb; [done|].
  assert (28 <= field b 4 4 <= 4096) by (zbool; simpl in *; try done; lia).
  destruct (Z.ltb_spec (Z.of_nat (length b)) (field b 4 4)) as [Hp|Hp].
  { intros [= <- <-]. split; [lia|]. split; [|done]. rewrite parse_unfold.
    rewrite (proj2 (Nat.ltb_ge _ _)); [done|]. cbn zeta. rewrite Eb. by rewrite (proj2 (Z.ltb_lt _ _)). }
  destruct (parse_stream (drop _ b)) as [fs' t'] eqn:Ed. intros [= <- ->].
  unfold sizeof_header in *.
  assert (length (drop (Z.to_nat (field b 4 4)) b) < length b)%nat as Hlt by (rewrite length_drop; lia).
  destruct (IH _ Hlt _ _ eq_refl Ed) as (? & ? & ?). split; [done|]. split; [done|lia].
Qed.

(** ** The receive buffer *)

Module ReadBufferFacts.
Import ReadBuffer.

Lemma read_buffer_init_wf : wf init.
Proof. split; [|unfold CAPACITY; simpl; lia]. cbn [buf_ init]. rewrite length_replicate. done. Qed.

Lemma remaining_wf b : wf b -> remaining b = CAPACITY - used_ b.
Proof. intros [_ H]. unfold remaining, CAPACITY in *. apply wrap_small. u_lia. Qed.

Lemma length_contents b : wf b -> length (contents b) = Z.to_nat (used_ b).
Proof. intros [Hl Hu]. unfold contents. rewrite length_take. lia. Qed.

(** Received bytes go behind the contents. *)
Lemma written_spec b bytes :
  wf b -> Z.of_nat (length bytes) <= CAPACITY - used_ b ->
  exists b', written bytes b = Done b' /\
    let b'' := advance_write (Z.of_nat (length bytes)) b' in
    wf b'' /\ contents b'' = contents b ++ bytes.
Proof.
  intros [Hl Hu] Hb. unfold written. rewrite memcpy_done; [lia..|]. cbn [omap_outcome].
  eexists. split; [done|]. unfold advance_write, contents, wf. cbn [buf_ used_].
  rewrite wrap_small; [unfold CAPACITY in *; u_lia|]. rewrite !Nat2Z.id.
  replace (Z.to_nat (used_ b + Z.of_nat (length bytes))) with (Z.to_nat (used_ b) + length bytes)%nat by lia.
  rewrite take_copied; [lia..|]. rewrite length_copied; [lia..|]. rewrite (take_ge bytes); [lia|].
  split; [lia|done].
Qed.

(** [consume n] drops the first [n] bytes of the contents. *)
Lemma consume_spec b n :
  wf b -> 0 <= n <= used_ b ->
  wf (consume n b) /\ contents (consume n b) = drop (Z.to_nat n) (contents b).
Proof.
  intros [Hl Hu] Hn. unfold consume. destruct (Z.leb_spec (used_ b) n).
  - split; [split; simpl; lia|]. unfold contents. cbn [buf_ used_]. rewrite take_0.
    rewrite drop_ge; [rewrite length_take; lia|done].
  - unfold wf, contents. cbn [buf_ used_]. split.
    + rewrite length_app length_take !length_drop. lia.
    + rewrite take_app_length'; [rewrite length_take length_drop; lia|].
      rewrite skipn_firstn_comm. f_equal. lia.
Qed.

(** A field inside the contents is a field of the array. *)
Lemma field_contents b off n :
  (off + n <= Z.to_nat (used_ b))%nat -> field (contents b) off n = field (buf_ b) off n.
Proof.
  intros. unfold field, contents. rewrite skipn_firstn_comm take_take. do 2 f_equal. lia.
Qed.

End ReadBufferFacts.

Lemma field_take b k off n : (off + n <= k)%nat -> field (take k b) off n = field b off n.
Proof. intros. unfold field. rewrite skipn_firstn_comm take_take. do 2 f_equal. lia. Qed.

Lemma bytes_at_take b k off n : (off + n <= k)%nat -> bytes_at (take k b) off n = bytes_at b off n.
Proof. intros. unfold bytes_at. rewrite skipn_firstn_comm take_take. f_equal. lia. Qed.

(** Decoders read the bytes of their struct and no others. *)
Lemma decode_new_order_take b k :
  (sizeof_NewOrderMessage <= k)%nat -> decode_new_order (take k b) = decode_new_order b.
Proof.
  unfold sizeof_NewOrderMessage, sizeof_header, sizeof_bounded. intros.
  unfold decode_new_order, decode_header, decode_bounded.
  rewrite !field_take; [lia..|]. by rewrite !bytes_at_take; [lia..|].
Qed.

Lemma decode_cancel_order_take b k :
  (sizeof_CancelOrderMessage <= k)%nat -> decode_cancel_order (take k b) = decode_cancel_order b.
Proof.
  unfold sizeof_CancelOrderMessage, sizeof_header, sizeof_bounded. intros.
  unfold decode_cancel_order, decode_header, decode_bounded.
  rewrite !field_take; [lia..|]. by rewrite !bytes_at_take; [lia..|].
Qed.

(** ** The handlers *)

Section gateway.
Import TcpGateway.
Context {E : Type}.
Variable steady_clock : nat -> Timestamp.
Variable send_result : nat -> Z.
Abbreviation gw := (TcpGateway.t E).
Abbreviation process := (TcpGateway.process_message (E:=E) steady_clock send_result).
Implicit Types (g : gw) (conn : ConnectionState).

(** A message is processed from its own bytes, whatever follows in the buffer. *)
Lemma process_message_take conn b len g :
  28 <= len -> process conn (take (Z.to_nat len) b) len g = process conn b len g.
Proof.
  intros Hlen. unfold process_message.
  assert (h_type (decode_header (take (Z.to_nat len) b)) = h_type (decode_header b)) as ->.
  { cbn [h_type decode_header]. apply field_take. lia. }
  destruct (_ =? NEW_ORDER).
  - unfold handle_new_order. destruct (Z.ltb_spec len (Z.of_nat sizeof_NewOrderMessage)); [done|].
    by rewrite decode_new_order_take; [lia|].
  - destruct (_ =? CANCEL_ORDER); [|done]. unfold handle_cancel_order.
    destruct (Z.ltb_spec len (Z.of_nat sizeof_CancelOrderMessage)); [done|].
    by rewrite decode_cancel_order_take; [lia|].
Qed.

(** Of the connection, processing uses only the descriptor to reply on. *)
Lemma process_message_fd conn conn' data len g :
  conn_fd conn = conn_fd conn' -> process conn data len g = process conn' data len g.
Proof.
  intros Hfd. unfold process_message, handle_new_order, handle_cancel_order, send_reject, send_ack.
  by rewrite Hfd.
Qed.

(** A reply: one message on the connection's socket, one sequence number. *)
Lemma send_ack_spec conn order_id status reason g :
  (length reason < 32)%nat ->
  exists text g', send_ack steady_clock send_result conn order_id status (Some reason) g = Some g' /\
    BoundedString.wf 32 text /\ BoundedString.view text = Done reason /\
    outbox g' = outbox g ++ [(conn_fd conn, encode_order_ack (mkOrderAck
      (MessageHeader_make ORDER_ACK (Z.of_nat sizeof_OrderAckMessage)
         (gs_next_sequence (local_stats_ g)) (steady_clock (ticks g))) order_id status text))] /\
    gs_next_sequence (local_stats_ g') = gs_next_sequence (local_stats_ g) +₆₄ 1 /\
    gs_orders_rejected (local_stats_ g') = gs_orders_rejected (local_stats_ g) /\
    risk_manager_ g' = risk_manager_ g /\ order_pool_ g' = order_pool_ g /\
    connections_ g' = connections_ g.
Proof.
  intros Hr. unfold send_ack. cbv iota.
  destruct (BoundedStringFacts.assign_done 32 reason (BoundedString.init 32)) as (text & Et & Hw & Hv).
  { apply BoundedStringFacts.bounded_init_wf. lia. }
  { done. }
  exists text. rewrite Et. destruct (0 <? _); eexists; (split; [done|]); by split_and!.
Qed.

Abbreviation risk_queue g := (RiskManager.input_queue_ (risk_manager_ g)).

(** The reply [g'] has put out over [g]. *)
Definition replied conn (order_id status : Z) (reason : cstring) (ticks_at : nat) g g' : Prop :=
  exists text, BoundedString.wf 32 text /\ BoundedString.view text = Done reason /\
    outbox g' = outbox g ++ [(conn_fd conn, encode_order_ack (mkOrderAck
      (MessageHeader_make ORDER_ACK (Z.of_nat sizeof_OrderAckMessage)
         (gs_next_sequence (local_stats_ g)) (steady_clock ticks_at)) order_id status text))].

Lemma send_ack_done conn order_id status reason g :
  (length reason < 32)%nat ->
  exists g', send_ack steady_clock send_result conn order_id status (Some reason) g = Some g' /\
    replied conn order_id status reason (ticks g) g g' /\
    risk_manager_ g' = risk_manager_ g /\ order_pool_ g' = order_pool_ g /\
    connections_ g' = connections_ g.
Proof.
  intros Hr. destruct (send_ack_spec conn order_id status reason g Hr)
    as (text & g' & Hs & Hw & Hv & Ho & _ & _ & H1 & H2 & H3).
  exists g'. split; [done|]. split; [by exists text|done].
Qed.

Lemma send_reject_done conn order_id reason g :
  (length reason < 32)%nat ->
  exists g', send_reject steady_clock send_result conn order_id (Some reason) g = Some g' /\
    replied conn order_id 2 reason (ticks g) g g' /\
    risk_manager_ g' = risk_manager_ g /\ order_pool_ g' = order_pool_ g /\
    connections_ g' = connections_ g.
Proof.
  intros Hr. destruct (send_ack_done conn order_id 2 reason g Hr) as (g' & Hs & Hrep & H1 & H2 & H3).
  unfold send_reject. rewrite Hs. by eexists.
Qed.

(** Submitting to the risk manager appends to its queue if there is room. *)
Lemma submit_push (r : RiskManager.t E) reqs request :
  SPSCQueue.holds (RiskManager.input_queue_ r) reqs ->
  exists q', SPSCQueue.push request (RiskManager.input_queue_ r) =
      (bool_decide (Z.of_nat (length reqs) < SPSCQueue.capacity_ (RiskManager.input_queue_ r)), q') /\
    SPSCQueue.holds q' (if decide (Z.of_nat (length reqs) < SPSCQueue.capacity_ (RiskManager.input_queue_ r))
                        then reqs ++ [request] else reqs).
Proof.
  intros (T0 & H & Hr). pose proof (SPSCQueue.push_spec _ _ _ _ request Hr) as Hp.
  case_decide as Hd; destruct Hp as (q' & Ep & Hr'); exists q'; rewrite Ep.
  - rewrite bool_decide_true; [done|]. split; [done|]. by exists T0, (H + 1).
  - rewrite bool_decide_false; [done|]. split; [done|]. by exists T0, H.
Qed.

(** What a new-order message does to the pool, the risk queue and the client. *)
Definition new_order_effect conn (msg : NewOrderMessage) (fl : list nat) (reqs : list RiskRequest) g g' : Prop :=
  (exists q, risk_manager_ g' = RiskManager.set_queue q (risk_manager_ g)) /\
  connections_ g' = connections_ g /\
  match fl with
  | [] =>
      replied conn (no_order_id msg) 2 (cstr "Order pool exhausted") (ticks g) g g' /\
      order_pool_ g' = order_pool_ g /\ SPSCQueue.holds (risk_queue g') reqs
  | i :: fl' =>
      if decide (Z.of_nat (length reqs) < SPSCQueue.capacity_ (risk_queue g)) then
        replied conn (no_order_id msg) 1 (cstr "Accepted") (S (ticks g)) g g' /\
        MemoryPool.free_list (order_pool_ g') fl' /\
        MemoryPool.deref (order_pool_ g') i = Some (order_of_message msg (steady_clock (ticks g))) /\
        SPSCQueue.holds (risk_queue g') (reqs ++ [RISK_NEW_ORDER (Some i)])
      else
        replied conn (no_order_id msg) 2 (cstr "Risk queue full") (S (ticks g)) g g' /\
        MemoryPool.free_list (order_pool_ g') (i :: fl') /\ SPSCQueue.holds (risk_queue g') reqs
  end.

Lemma set_queue_same (r : RiskManager.t E) : RiskManager.set_queue (RiskManager.input_queue_ r) r = r.
Proof. by destruct r. Qed.

Lemma slot_in_range (p : MemoryPool.t Order) i fl :
  MemoryPool.free_list p (i :: fl) -> (i < length (MemoryPool.pool_ p))%nat.
Proof.
  intros H. destruct (MemoryPool.fl_linked _ _ H) as (_ & Hi & _). rewrite (MemoryPool.fl_pool _ _ H). lia.
Qed.

Lemma handle_new_order_done conn data len g fl reqs :
  Z.of_nat sizeof_NewOrderMessage <= len ->
  MemoryPool.free_list (order_pool_ g) fl -> SPSCQueue.holds (risk_queue g) reqs ->
  exists g', handle_new_order steady_clock send_result conn data len g = Some g' /\
    new_order_effect conn (decode_new_order data) fl reqs g g'.
Proof.
  intros Hlen Hfl Hq. unfold handle_new_order. rewrite (proj2 (Z.ltb_ge _ _)); [done|].
  destruct fl as [|i fl].
  - rewrite (MemoryPool.allocate_nil _ Hfl). cbn [mbind option_bind].
    edestruct send_reject_done as (g' & -> & Hr & H1 & H2 & H3); [vm_compute; lia|].
    cbn [mbind option_bind]. eexists. split; [done|]. split.
    { exists (risk_queue g). simpl. by rewrite set_queue_same H1. }
    split; [done|]. split; [done|]. split; [done|]. simpl. by rewrite H1.
  - destruct (MemoryPool.allocate_cons _ _ _ Hfl) as (p' & -> & Hfl' & Hp & Hc & Ho & _).
    cbn [mbind option_bind]. unfold RiskManager.submit_order. cbn [risk_manager_ set_pool tick].
    destruct (submit_push (risk_manager_ g) reqs (RISK_NEW_ORDER (Some i)) Hq) as (q' & -> & Hq').
    pose proof (slot_in_range _ _ _ Hfl) as Hi. cbn [set_risk order_pool_ set_pool].
    case_decide as Hroom.
    + rewrite bool_decide_true; [done|].
      edestruct send_ack_done as (g' & -> & Hr & H1 & H2 & H3); [vm_compute; lia|].
      eexists. split; [done|]. rewrite /new_order_effect decide_True; [done|].
      rewrite H1 H2 H3. split; [by exists q'|]. split; [done|]. split; [exact Hr|].
      split; [by apply MemoryPool.store_free_list|]. split; [|exact Hq'].
      apply list_lookup_insert_eq. cbn [order_pool_ set_pool tick]. rewrite Hp. exact Hi.
    + rewrite bool_decide_false; [done|].
      destruct (MemoryPool.deallocate_free_list
        (MemoryPool.store i (order_of_message (decode_new_order data) (steady_clock (ticks g))) p') i fl)
        as (p'' & Hd & Hfl'' & _).
      { by apply MemoryPool.store_free_list. }
      { unfold MemoryPool.owned. cbn [MemoryPool.owned_ MemoryPool.store MemoryPool.set_pool]. rewrite Ho.
        apply list_lookup_insert_eq. rewrite (MemoryPool.fl_owned_len _ _ Hfl) -(MemoryPool.fl_pool _ _ Hfl).
        exact Hi. }
      cbn [order_pool_ set_pool tick ticks]. rewrite Hd. cbn [mbind option_bind].
      edestruct send_reject_done as (g' & -> & Hr & H1 & H2 & H3); [vm_compute; lia|].
      eexists. split; [done|]. rewrite /new_order_effect decide_False; [done|].
      rewrite H1 H2 H3. split; [by exists q'|]. split; [done|]. split; [exact Hr|]. by split.
Qed.

(** A cancel message goes to the risk queue or is refused; the pool is untouched. *)
Definition cancel_effect conn (msg : CancelOrderMessage) (reqs : list RiskRequest) g g' : Prop :=
  (exists q, risk_manager_ g' = RiskManager.set_queue q (risk_manager_ g)) /\
  connections_ g' = connections_ g /\ order_pool_ g' = order_pool_ g /\
  let client := FixedString.make CLIENT_N (Some (until_nul (BoundedString.data_ (co_client_id msg)))) in
  if decide (Z.of_nat (length reqs) < SPSCQueue.capacity_ (risk_queue g)) then
    replied conn (co_order_id msg) 1 (cstr "Cancel submitted") (ticks g) g g' /\
    SPSCQueue.holds (risk_queue g') (reqs ++ [RISK_CANCEL_ORDER (co_order_id msg) client])
  else
    replied conn (co_order_id msg) 2 (cstr "Cancel queue full") (ticks g) g g' /\
    SPSCQueue.holds (risk_queue g') reqs.

Lemma handle_cancel_order_done conn data len g reqs :
  Z.of_nat sizeof_CancelOrderMessage <= len -> SPSCQueue.holds (risk_queue g) reqs ->
  exists g', handle_cancel_order steady_clock send_result conn data len g = Some g' /\
    cancel_effect conn (decode_cancel_order data) reqs g g'.
Proof.
  intros Hlen Hq. unfold handle_cancel_order. rewrite (proj2 (Z.ltb_ge _ _)); [done|].
  unfold RiskManager.submit_cancel.
  edestruct (submit_push (risk_manager_ g) reqs) as (q' & -> & Hq'); [done|].
  unfold cancel_effect. case_decide as Hroom.
  - rewrite bool_decide_true; [done|].
    edestruct send_ack_done as (g' & -> & Hr & H1 & H2 & H3); [vm_compute; lia|].
    eexists. split; [done|]. rewrite H1 H2 H3. split; [by exists q'|]. split; [done|]. split; [done|].
    by split.
  - rewrite bool_decide_false; [done|].
    edestruct send_reject_done as (g' & -> & Hr & H1 & H2 & H3); [vm_compute; lia|].
    eexists. split; [done|]. rewrite H1 H2 H3. split; [by exists q'|]. split; [done|]. split; [done|].
    by split.
Qed.

(** ** The invariant, and processing a list of messages *)

Definition gw_inv g : Prop :=
  MemoryPool.ok (order_pool_ g) /\ exists reqs, SPSCQueue.holds (risk_queue g) reqs.

Lemma process_message_total conn data len g :
  gw_inv g -> exists g', process conn data len g = Some g' /\ gw_inv g' /\ connections_ g' = connections_ g.
Proof.
  intros [[fl Hfl] [reqs Hq]]. unfold process_message. destruct (_ =? NEW_ORDER).
  - destruct (Z_lt_le_dec len (Z.of_nat sizeof_NewOrderMessage)) as [Hlt|Hge].
    { unfold handle_new_order. rewrite (proj2 (Z.ltb_lt _ _)); [done|]. eexists. split; [done|].
      split; [|done]. split; eexists; eassumption. }
    destruct (handle_new_order_done conn data len g fl reqs Hge Hfl Hq) as (g' & -> & _ & Hc & He).
    exists g'. split; [done|]. split; [|done]. destruct fl as [|i fl].
    + destruct He as (_ & Hp & Hq'). split; [exists []; by rewrite Hp|by exists reqs].
    + case_decide; destruct He as (_ & Hf & He); (split; [by eexists|]).
      * destruct He as [_ He]. by eexists.
      * by eexists.
  - destruct (_ =? CANCEL_ORDER).
    2:{ eexists. split; [done|]. split; [|done]. split; eexists; eassumption. }
    destruct (Z_lt_le_dec len (Z.of_nat sizeof_CancelOrderMessage)) as [Hlt|Hge].
    { unfold handle_cancel_order. rewrite (proj2 (Z.ltb_lt _ _)); [done|]. eexists. split; [done|].
      split; [|done]. split; eexists; eassumption. }
    destruct (handle_cancel_order_done conn data len g reqs Hge Hq) as (g' & -> & _ & Hc & Hp & He).
    exists g'. split; [done|]. split; [|done]. split; [exists fl; by rewrite Hp|].
    case_decide; destruct He as [_ He]; by eexists.
Qed.

Fixpoint process_frames conn (fs : list (list Z)) g : option gw :=
  match fs with
  | [] => Some g
  | f :: rest =>
      g ← process conn f (Z.of_nat (length f)) g;
      process_frames conn rest (with_stats inc_received g)
  end.

Lemma process_frames_total conn fs g :
  gw_inv g -> exists g', process_frames conn fs g = Some g' /\ gw_inv g' /\ connections_ g' = connections_ g.
Proof.
  revert g. induction fs as [|f fs IH]; intros g Hi; [by exists g|]. cbn [process_frames].
  destruct (process_message_total conn f (Z.of_nat (length f)) g Hi) as (g1 & -> & Hi1 & Hc1).
  cbn [mbind option_bind]. destruct (IH (with_stats inc_received g1) Hi1) as (g2 & -> & Hi2 & Hc2).
  exists g2. split; [done|]. split; [done|]. by rewrite Hc2 -Hc1.
Qed.

Lemma process_frames_fd conn conn' fs g :
  conn_fd conn = conn_fd conn' -> process_frames conn fs g = process_frames conn' fs g.
Proof.
  intros Hfd. revert g. induction fs as [|f fs IH]; intros g; [done|]. cbn [process_frames].
  rewrite (process_message_fd conn conn'); [done|]. destruct (process conn' _ _ g); [|done]. apply IH.
Qed.

Lemma process_frames_app conn fs1 fs2 g :
  process_frames conn (fs1 ++ fs2) g = process_frames conn fs1 g ≫= process_frames conn fs2.
Proof.
  revert g. induction fs1 as [|f fs1 IH]; intros g; [done|]. cbn [process_frames app].
  destruct (process conn f _ g) as [g1|]; [|done]. cbn [mbind option_bind]. apply IH.
Qed.

(** How a connection ends up after its buffer has been processed. *)
Definition conn_after conn (t : rest_of_stream) conn' : Prop :=
  match t with
  | Partial r => exists b, conn' = set_read_buf b conn /\ ReadBuffer.wf b /\ ReadBuffer.contents b = r
  | Malformed => conn_fd conn' = -1
  end.

(** A complete message at the front of the buffer is processed and consumed. *)
Lemma try_process_complete conn g :
  let b := read_buf conn in
  let len := field (ReadBuffer.buf_ b) 4 4 in
  ReadBuffer.wf b -> gw_inv g -> 28 <= len <= 4096 -> len <= ReadBuffer.used_ b ->
  exists g1, try_process_message steady_clock send_result conn g =
      Some (true, set_read_buf (ReadBuffer.consume len b) conn, g1) /\
    process_frames conn [take (Z.to_nat len) (ReadBuffer.contents b)] g = Some (with_stats inc_received g1) /\
    gw_inv g1.
Proof.
  intros b len Hwf Hi Hr Hp. unfold try_process_message. fold b. unfold ReadBuffer.size.
  change (Z.of_nat sizeof_header) with 28. rewrite (proj2 (Z.ltb_ge _ 28)); [lia|].
  cbn [h_length decode_header]. fold len. unfold MAX_MESSAGE_SIZE.
  rewrite (proj2 (Z.ltb_ge len 28)); [lia|]. rewrite (proj2 (Z.ltb_ge 4096 len)); [lia|]. cbn [orb].
  rewrite (proj2 (Z.ltb_ge _ len)); [done|].
  destruct (process_message_total conn (ReadBuffer.buf_ b) len g Hi) as (g1 & E1 & Hi1 & _).
  rewrite E1. cbn [mbind option_bind]. exists g1. split; [done|]. split; [|done].
  assert (take (Z.to_nat len) (ReadBuffer.contents b) = take (Z.to_nat len) (ReadBuffer.buf_ b)) as Ht.
  { unfold ReadBuffer.contents. rewrite take_take. f_equal. lia. }
  cbn [process_frames]. rewrite length_take (ReadBufferFacts.length_contents b Hwf).
  replace (Z.of_nat (_ `min` _)) with len by lia.
  rewrite Ht process_message_take; [lia|]. by rewrite E1.
Qed.

(** The framing loop is the reference parser on the contents of the buffer. *)
Lemma process_loop_spec fuel conn g :
  ReadBuffer.wf (read_buf conn) -> (length (ReadBuffer.contents (read_buf conn)) < fuel)%nat -> gw_inv g ->
  let '(fs, t) := parse_stream (ReadBuffer.contents (read_buf conn)) in
  exists g' conn', process_frames conn fs g = Some g' /\
    process_loop steady_clock send_result fuel conn g = Some (conn', g') /\ conn_after conn t conn'.
Proof.
  revert conn g. induction fuel as [|fuel IH]; intros conn g Hwf Hf Hi; [lia|].
  set (b := read_buf conn) in *. pose proof (ReadBufferFacts.length_contents b Hwf) as Hlen.
  pose proof Hwf as [Hl Hu]. rewrite parse_unfold Hlen. cbn [process_loop].
  change sizeof_header with 28%nat.
  assert (conn_after conn (Partial (ReadBuffer.contents b)) conn) as Hsame by (exists b; by destruct conn).
  destruct (Nat.ltb_spec (Z.to_nat (ReadBuffer.used_ b)) 28) as [Hs|Hs].
  { exists g, conn. unfold try_process_message. fold b. unfold ReadBuffer.size.
    by rewrite (proj2 (Z.ltb_lt _ (Z.of_nat sizeof_header))); [unfold sizeof_header; lia|]. }
  cbn zeta. rewrite ReadBufferFacts.field_contents; [lia|].
  set (len := field (ReadBuffer.buf_ b) 4 4). rewrite Z2Nat.id; [lia|].
  destruct ((len <? 28) || (4096 <? len)) eqn:Eb; [|assert (28 <= len <= 4096) as Hr by (zbool; simpl in *; try done; lia); destruct (Z.ltb_spec (ReadBuffer.used_ b) len) as [Hp|Hp]].
  1,2: unfold try_process_message; fold b; unfold ReadBuffer.size;
    (rewrite (proj2 (Z.ltb_ge _ (Z.of_nat sizeof_header))); [unfold sizeof_header; lia|]);
    cbn [h_length decode_header]; fold len; change (Z.of_nat sizeof_header) with 28; unfold MAX_MESSAGE_SIZE;
    rewrite Eb.
  - by exists g, (disconnect conn).
  - exists g, conn. by rewrite (proj2 (Z.ltb_lt _ len)).
  - destruct (ReadBufferFacts.consume_spec b len Hwf ltac:(lia)) as [Hwf' Hc'].
    destruct (try_process_complete conn g Hwf Hi Hr Hp) as (g1 & -> & Ef & Hi1).
    cbn [mbind option_bind]. fold b len in Ef |- *. rewrite -Hc'.
    set (conn1 := set_read_buf (ReadBuffer.consume len b) conn).
    specialize (IH conn1 (with_stats inc_received g1) Hwf').
    cbn [read_buf conn1 set_read_buf] in IH. rewrite Hc' length_drop Hlen in IH.
    specialize (IH ltac:(lia) Hi1). rewrite -Hc' in IH.
    destruct (parse_stream (ReadBuffer.contents (ReadBuffer.consume len b))) as [fs t].
    destruct IH as (g' & conn' & Hfs & Hloop & Hafter). exists g', conn'.
    rewrite (process_frames_app conn [_] fs) Ef. cbn [mbind option_bind].
    split; [by rewrite (process_frames_fd conn conn1)|]. split; [exact Hloop|]. by destruct t.
Qed.

(** ** The receive loop *)

Definition weight (chunks : list (list Z)) : nat := length (concat chunks) + length chunks.

Lemma recv_chunk len chunk rest last :
  0 < len -> Forall (fun c => c <> []) (chunk :: rest) ->
  exists byte bytes chunks', recv true len (chunk :: rest) last = (Received (byte :: bytes), chunks') /\
    Z.of_nat (length (byte :: bytes)) <= len /\ (byte :: bytes) ++ concat chunks' = concat (chunk :: rest) /\
    (weight chunks' < weight (chunk :: rest))%nat /\ Forall (fun c => c <> []) chunks'.
Proof.
  intros Hlen [Hne Hrest]%Forall_cons. unfold recv. destruct (Z.eqb_spec len 0); [lia|].
  destruct chunk as [|x chunk]; [done|]. cbn [negb].
  destruct (Z.leb_spec (Z.of_nat (length (x :: chunk))) len) as [Hfit|Hbig].
  - exists x, chunk, rest. split_and!; try done. unfold weight. cbn [concat]. rewrite length_app. simpl. lia.
  - destruct (Z.to_nat len) as [|k] eqn:Ek; [lia|]. cbn [take drop].
    exists x, (take k chunk), (drop k chunk :: rest). split; [done|]. cbn [length] in *.
    split; [rewrite length_take; lia|]. split.
    { cbn [concat app]. by rewrite app_assoc take_drop. }
    split.
    { unfold weight. cbn [concat length app]. rewrite !length_app length_drop. lia. }
    constructor; [|done]. intros He%(f_equal length). rewrite length_drop in He. simpl in He. lia.
Qed.

(** What [handle_client_data] leaves: the connection with the incomplete rest of
    the stream, or no connection. *)
Definition recv_outcome (fd : Z) conn (t : rest_of_stream) (last : recv_end) g' g'' : Prop :=
  match t, last with
  | Partial r, WouldBlock =>
      exists b, ReadBuffer.wf b /\ ReadBuffer.contents b = r /\
        g'' = set_connections (<[Z.to_nat fd := Some (set_read_buf b conn)]> (connections_ g')) g'
  | _, _ => g'' = remove_connection fd g'
  end.

Definition conn_ok conn : Prop :=
  0 <= conn_fd conn /\ ReadBuffer.wf (read_buf conn) /\
  parse_stream (ReadBuffer.contents (read_buf conn)) = ([], Partial (ReadBuffer.contents (read_buf conn))).

(** An incomplete message never fills the buffer. *)
Lemma conn_ok_room conn : conn_ok conn -> 4096 < ReadBuffer.remaining (read_buf conn) <= 8192.
Proof.
  intros (_ & Hwf & Hp). rewrite ReadBufferFacts.remaining_wf; [done|].
  apply parse_partial in Hp as (Hl & _). rewrite ReadBufferFacts.length_contents in Hl; [done|].
  destruct Hwf as [_ Hu]. unfold ReadBuffer.CAPACITY in *. lia.
Qed.

Lemma recv_loop_closed fuel fd chunks last conn g :
  conn_fd conn = -1 ->
  recv_loop steady_clock send_result (S fuel) fd chunks last conn g = Some (remove_connection fd g).
Proof. intros Hfd. cbn [recv_loop]. by rewrite Hfd. Qed.

(** Received bytes are appended and the buffer is processed. *)
Lemma receive_step conn bytes g :
  conn_ok conn -> gw_inv g -> Z.of_nat (length bytes) <= ReadBuffer.remaining (read_buf conn) ->
  let '(fs, t) := parse_stream (ReadBuffer.contents (read_buf conn) ++ bytes) in
  exists b' conn1 g1, ReadBuffer.written bytes (read_buf conn) = Done b' /\
    let conn' := set_read_buf (ReadBuffer.advance_write (Z.of_nat (length bytes)) b') conn in
    process_loop steady_clock send_result (S (Z.to_nat (ReadBuffer.size (read_buf conn')))) conn' g
      = Some (conn1, g1) /\
    process_frames conn fs g = Some g1 /\ gw_inv g1 /\ conn_after conn t conn1 /\
    (conn_ok conn1 \/ conn_fd conn1 = -1).
Proof.
  intros Hok Hi Hlen. pose proof Hok as (Hfd & Hwf & Hq). rewrite ReadBufferFacts.remaining_wf in Hlen; [done|].
  destruct (ReadBufferFacts.written_spec (read_buf conn) bytes Hwf Hlen) as (b' & Hw & Hwf' & Hc').
  set (b1 := ReadBuffer.advance_write _ b') in *.
  pose proof (process_loop_spec (S (Z.to_nat (ReadBuffer.size b1))) (set_read_buf b1 conn) g) as Hloop.
  cbn [read_buf set_read_buf] in Hloop. rewrite ReadBufferFacts.length_contents in Hloop; [done|].
  specialize (Hloop Hwf' ltac:(unfold ReadBuffer.size; lia) Hi). rewrite Hc' in Hloop.
  destruct (parse_stream (ReadBuffer.contents (read_buf conn) ++ bytes)) as [fs t] eqn:Ep.
  destruct Hloop as (g1 & conn1 & Hfs & Hl & Hafter). rewrite (process_frames_fd _ conn) in Hfs; [done|].
  destruct (process_frames_total conn fs g Hi) as (g1' & Eg & Hi1 & _).
  rewrite Hfs in Eg. injection Eg as <-. exists b', conn1, g1. split; [done|].
  split; [exact Hl|]. split; [done|]. split; [done|]. destruct t as [r|]; [|split; [exact Hafter|by right]].
  destruct Hafter as (b2 & -> & Hwf2 & Hr). split; [by exists b2|]. left.
  apply parse_partial in Ep as (_ & Hpr & _). split; [done|]. split; [done|]. cbn [read_buf set_read_buf].
  by rewrite Hr.
Qed.

Lemma recv_loop_spec fuel fd chunks last conn g :
  Forall (fun c => c <> []) chunks -> conn_ok conn -> gw_inv g -> (S (weight chunks) < fuel)%nat ->
  let '(fs, t) := parse_stream (ReadBuffer.contents (read_buf conn) ++ concat chunks) in
  exists g' g'', process_frames conn fs g = Some g' /\
    recv_loop steady_clock send_result fuel fd chunks last conn g = Some g'' /\
    recv_outcome fd conn t last g' g''.
Proof.
  revert chunks conn g. induction fuel as [|fuel IH]; intros chunks conn g Hne Hok Hi Hf; [lia|].
  pose proof (conn_ok_room conn Hok) as Hroom. pose proof Hok as (Hfd & Hwf & Hq).
  cbn [recv_loop]. rewrite (proj2 (Z.leb_le 0 (conn_fd conn))); [done|].
  destruct chunks as [|chunk rest].
  { cbn [concat]. rewrite app_nil_r Hq. unfold recv. cbn [negb].
    rewrite (proj2 (Z.eqb_neq _ 0)); [lia|]. exists g. destruct last; eexists; (split; [done|]); (split; [done|]).
    - exists (read_buf conn). by destruct conn.
    - done. }
  destruct (recv_chunk (ReadBuffer.remaining (read_buf conn)) chunk rest last) as
    (x & xs & chunks & -> & Hlen & Hcat & Hw & Hne'); [lia|done|]. rewrite -Hcat.
  pose proof (receive_step conn (x :: xs) g Hok Hi Hlen) as Hstep.
  rewrite app_assoc parse_app. destruct (parse_stream (ReadBuffer.contents (read_buf conn) ++ x :: xs)) as [fs1 t1].
  destruct Hstep as (b' & conn1 & g1 & -> & Hl & Hfs & Hi1 & Hafter & Hok1). rewrite Hl.
  cbn [mbind option_bind]. destruct t1 as [r|].
  - destruct Hafter as (b2 & -> & Hwf2 & Hr). destruct Hok1 as [Hok1|Hbad]; [|simpl in Hbad; lia].
    specialize (IH chunks (set_read_buf b2 conn) g1 Hne' Hok1 Hi1 ltac:(lia)).
    cbn [read_buf set_read_buf] in IH. rewrite Hr in IH.
    destruct (parse_stream (r ++ concat chunks)) as [fs2 t2]. destruct IH as (g' & g'' & Hp & Hrl & Ho).
    exists g', g''. cbn [fst snd]. rewrite process_frames_app Hfs. cbn [mbind option_bind].
    split; [by rewrite (process_frames_fd conn (set_read_buf b2 conn))|]. split; [exact Hrl|exact Ho].
  - exists g1, (remove_connection fd g1). split; [done|]. split; [|by destruct last].
    destruct fuel as [|fuel]; [lia|]. by apply recv_loop_closed.
Qed.

(** An empty chunk is the end of the stream; like an error it ends the reading
    and removes the connection. *)
Fixpoint until_eof (chunks : list (list Z)) (last : recv_end) : list (list Z) * recv_end :=
  match chunks with
  | [] => ([], last)
  | [] :: _ => ([], RecvError)
  | c :: rest => let '(cs, l) := until_eof rest last in (c :: cs, l)
  end.

Lemma until_eof_spec chunks last :
  Forall (fun c => c <> []) (until_eof chunks last).1 /\
  (weight (until_eof chunks last).1 <= weight chunks)%nat.
Proof.
  induction chunks as [|[|x c] rest [IH1 IH2]]; cbn [until_eof]; [done|unfold weight; simpl; split; [done|lia]|].
  destruct (until_eof rest last) as [cs l]. cbn [fst] in *. split; [by constructor|].
  unfold weight in *. cbn [concat length]. rewrite !length_app. lia.
Qed.

(** Reading a byte or more does not depend on what follows the end. *)
Lemma recv_until_eof len x c rest last :
  0 < len ->
  exists bytes chunks', recv true len ((x :: c) :: rest) last = (Received (x :: bytes), chunks') /\
    Z.of_nat (length (x :: bytes)) <= len /\
    recv true len (until_eof ((x :: c) :: rest) last).1 (until_eof ((x :: c) :: rest) last).2 =
      (Received (x :: bytes), (until_eof chunks' last).1) /\
    (until_eof chunks' last).2 = (until_eof ((x :: c) :: rest) last).2.
Proof.
  intros Hlen. cbn [until_eof]. destruct (until_eof rest last) as [cs l] eqn:Eu. cbn [fst snd].
  unfold recv. cbn [negb]. destruct (Z.eqb_spec len 0); [lia|].
  destruct (Z.leb_spec (Z.of_nat (length (x :: c))) len) as [Hfit|Hbig].
  - exists c, rest. by rewrite Eu.
  - destruct (Z.to_nat len) as [|k] eqn:Ek; [lia|]. cbn [take drop].
    exists (take k c), (drop k c :: rest). split; [done|]. cbn [length] in *.
    split; [rewrite length_take; lia|].
    destruct (drop k c) as [|y d] eqn:Ed; [|by rewrite /= Eu].
    apply (f_equal length) in Ed. rewrite length_drop /= in Ed. lia.
Qed.

Lemma recv_loop_until_eof fuel fd chunks last conn g :
  conn_ok conn \/ conn_fd conn = -1 -> gw_inv g ->
  recv_loop steady_clock send_result fuel fd chunks last conn g =
  recv_loop steady_clock send_result fuel fd (until_eof chunks last).1 (until_eof chunks last).2 conn g.
Proof.
  revert chunks conn g. induction fuel as [|fuel IH]; intros chunks conn g Hok Hi; [done|].
  destruct Hok as [Hok|Hfd]; [|by rewrite !recv_loop_closed].
  pose proof (conn_ok_room conn Hok) as Hroom. pose proof Hok as (Hfd & Hwf & Hq).
  destruct chunks as [|[|x c] rest]; [done| |].
  { cbn [recv_loop until_eof fst snd]. rewrite (proj2 (Z.leb_le 0 (conn_fd conn))); [done|].
    unfold recv. cbn [negb length]. rewrite (proj2 (Z.eqb_neq _ 0)); [lia|].
    by rewrite (proj2 (Z.leb_le (Z.of_nat 0) _)); [lia|]. }
  cbn [recv_loop]. rewrite (proj2 (Z.leb_le 0 (conn_fd conn))); [done|].
  destruct (recv_until_eof (ReadBuffer.remaining (read_buf conn)) x c rest last)
    as (bytes & chunks' & -> & Hlen & -> & <-); [lia|].
  pose proof (receive_step conn (x :: bytes) g Hok Hi Hlen) as Hstep.
  destruct (parse_stream (ReadBuffer.contents (read_buf conn) ++ x :: bytes)) as [fs t].
  destruct Hstep as (b' & conn1 & g1 & -> & Hl & _ & Hi1 & _ & Hok1).
  rewrite Hl. cbn [mbind option_bind]. by apply IH.
Qed.

(** ** The gateway's invariant and its steps *)

Definition gateway_ok g : Prop :=
  gw_inv g /\ length (connections_ g) = MAX_CONNECTIONS /\
  forall i c, connections_ g !! i = Some (Some c) -> conn_ok c.

Lemma handle_client_data_spec fd chunks last conn g :
  gateway_ok g -> in_range fd g = true -> connections_ g !! Z.to_nat fd = Some (Some conn) ->
  let '(chunks', last') := until_eof chunks last in
  let '(fs, t) := parse_stream (ReadBuffer.contents (read_buf conn) ++ concat chunks') in
  exists g' g'', process_frames conn fs g = Some g' /\
    handle_client_data steady_clock send_result fd chunks last g = Some g'' /\
    recv_outcome fd conn t last' g' g''.
Proof.
  intros (Hi & _ & Hconn) Hr Hc. unfold handle_client_data. rewrite Hr Hc. cbn [negb].
  rewrite recv_loop_until_eof; [left; by eapply Hconn|done|].
  destruct (until_eof_spec chunks last) as [Hne Hw].
  destruct (until_eof chunks last) as [cs l]. cbn [fst snd] in *.
  apply recv_loop_spec; [done|by eapply Hconn|done|]. unfold recv_fuel, weight in *. lia.
Qed.

Lemma remove_connection_ok fd g : gateway_ok g -> gateway_ok (remove_connection fd g).
Proof.
  intros (Hi & Hl & Hc). unfold remove_connection. destruct (in_range fd g); [|done].
  split; [done|]. cbn [connections_ with_stats set_connections]. rewrite length_insert. split; [done|].
  intros i c [[_ [? _]]|[_ H]]%list_lookup_insert_Some; [done|]. by apply (Hc i).
Qed.

Lemma handle_client_data_ok fd chunks last g :
  gateway_ok g -> exists g', handle_client_data steady_clock send_result fd chunks last g = Some g' /\ gateway_ok g'.
Proof.
  intros Hok. destruct (in_range fd g) eqn:Hr.
  2:{ unfold handle_client_data. rewrite Hr. by exists g. }
  destruct (connections_ g !! Z.to_nat fd) as [[conn|]|] eqn:Hc.
  2,3: unfold handle_client_data; rewrite Hr Hc; by exists g.
  pose proof (handle_client_data_spec fd chunks last conn g Hok Hr Hc) as Hspec.
  destruct (until_eof chunks last) as [cs l].
  destruct (parse_stream (ReadBuffer.contents (read_buf conn) ++ concat cs)) as [fs t] eqn:Ep.
  destruct Hspec as (g' & g'' & Hf & -> & Ho). destruct Hok as (Hi & Hlen & Hconn).
  destruct (process_frames_total conn fs g Hi) as (g1 & Eg & Hi1 & Hcs). rewrite Hf in Eg. injection Eg as <-.
  assert (gateway_ok g') as Hok' by (split; [done|]; by rewrite Hcs).
  exists g''. split; [done|]. destruct t as [r|]; [destruct l|]; cbn [recv_outcome] in Ho.
  2,3: subst; by apply remove_connection_ok.
  destruct Ho as (b & Hwf & Hb & ->). destruct (Hconn _ _ Hc) as (Hfd & _ & _).
  apply parse_partial in Ep as (_ & Hp & _).
  split; [done|]. cbn [connections_ set_connections]. rewrite length_insert Hcs. split; [done|].
  intros i c [[_ [[= <-] _]]|[_ H]]%list_lookup_insert_Some; [|by apply (Hconn i)].
  split; [done|]. split; [done|]. cbn [read_buf set_read_buf]. by rewrite Hb.
Qed.

Lemma handle_events_ok events g :
  gateway_ok g -> exists g', handle_events steady_clock send_result events g = Some g' /\ gateway_ok g'.
Proof.
  revert g. induction events as [|e events IH]; intros g Hok; [by exists g|]. cbn [handle_events].
  assert (exists g', handle_event steady_clock send_result e g = Some g' /\ gateway_ok g') as (g' & -> & Hok').
  { unfold handle_event. destruct (ev_error e); [eexists; split; [done|]; by apply remove_connection_ok|].
    destruct (ev_readable e); [by apply handle_client_data_ok|by exists g]. }
  by apply IH.
Qed.

Lemma worker_round_ok events g :
  gateway_ok g -> exists g', worker_round steady_clock send_result events g = Some g' /\ gateway_ok g'.
Proof.
  intros Hok. unfold worker_round. destruct (handle_events_ok events g Hok) as (g' & -> & Hok').
  cbn [mbind option_bind]. eexists. split; [done|]. unfold maybe_flush_stats. by destruct (_ && _).
Qed.

Lemma init_conn_ok fd now : 0 <= fd -> conn_ok (mkConn fd ReadBuffer.init false true now).
Proof. intros. split; [done|]. split; [apply ReadBufferFacts.read_buffer_init_wf|]. done. Qed.

Lemma accept_ok fd g : 0 <= fd -> gateway_ok g -> gateway_ok (accept_connection steady_clock fd g).
Proof.
  intros Hfd (Hi & Hl & Hc). unfold accept_connection. destruct (_ <=? _); [done|].
  split; [done|]. cbn [connections_ with_stats set_connections tick]. rewrite length_insert. split; [done|].
  intros i c [[_ [[= <-] _]]|[_ H]]%list_lookup_insert_Some; [by apply init_conn_ok|]. by apply (Hc i).
Qed.

Lemma make_ok r p reqs :
  MemoryPool.ok p -> SPSCQueue.holds (RiskManager.input_queue_ r) reqs -> gateway_ok (TcpGateway.make r p).
Proof.
  intros Hp Hq. split; [split; [done|by exists reqs]|]. cbn [connections_ TcpGateway.make].
  split; [apply length_replicate|]. intros i c [? _]%lookup_replicate. done.
Qed.

(** Steps: a connection is accepted, the worker handles any events, the gateway
    is started or stopped; meanwhile the risk worker and the engines may change
    the shared pool and queue. *)
Inductive gw_step : gw -> gw -> Prop :=
| step_accept fd g : 0 <= fd -> gw_step g (accept_connection steady_clock fd g)
| step_events events g g' : worker_round steady_clock send_result events g = Some g' -> gw_step g g'
| step_start ready g g' : TcpGateway.start ready g = inr g' -> gw_step g g'
| step_stop g : gw_step g (TcpGateway.stop g)
| step_others r p g : gw_inv (set_risk r (set_pool p g)) -> gw_step g (set_risk r (set_pool p g)).

Lemma gw_step_ok g g' : gateway_ok g -> gw_step g g' -> gateway_ok g'.
Proof.
  intros Hok Hs. destruct Hs as [fd g Hfd|events g g' Hw|ready g g' Hst|g|r p g Hi].
  - by apply accept_ok.
  - destruct (worker_round_ok events g Hok) as (g1 & Hw1 & Hok1). rewrite Hw in Hw1. by injection Hw1 as <-.
  - unfold TcpGateway.start in Hst. destruct (running_ g); [by injection Hst as <-|].
    destruct ready; [|done]. by injection Hst as <-.
  - unfold TcpGateway.stop. destruct (running_ g); [|done]. destruct Hok as (Hi & Hl & Hc).
    split; [done|]. cbn [connections_ flush_stats set_connections]. rewrite length_fmap. split; [done|].
    intros i c. rewrite list_lookup_fmap. intros (y & _ & ?)%fmap_Some. done.
  - destruct Hok as (_ & Hl & Hc). by split.
Qed.

(** ** The properties *)

(** C11: framing is independent of how the network splits the stream.  A read
    event on a live connection processes exactly the messages that the
    reference parser cuts out of the buffered bytes followed by the received
    ones (up to the end of the stream), in order and each once.  The incomplete
    rest is what the buffer then holds; on a malformed length, a closed stream
    or an error the connection is removed, and nothing behind the malformed
    header is processed.  The loops return for every input. *)
Theorem handle_client_data_refines fd chunks last conn g :
  gateway_ok g -> in_range fd g = true -> connections_ g !! Z.to_nat fd = Some (Some conn) ->
  let '(chunks', last') := until_eof chunks last in
  let '(fs, t) := parse_stream (ReadBuffer.contents (read_buf conn) ++ concat chunks') in
  exists g' g'', process_frames conn fs g = Some g' /\
    handle_client_data steady_clock send_result fd chunks last g = Some g'' /\
    recv_outcome fd conn t last' g' g''.
Proof. apply handle_client_data_spec. Qed.

(** C13: order entry.  When the bytes at the front of the buffer are a client's
    new-order message, the gateway either takes the next free slot of the pool,
    fills it with the client's order and appends it to the risk queue with an
    [Accepted] reply; or, when the pool is exhausted, replies with a reject and
    changes neither pool nor queue; or, when the risk queue is full, returns
    the slot to the pool and replies with a reject.  A cancel message is
    queued or refused without touching the pool.  Exactly one reply goes out. *)
Theorem gateway_order_entry conn m c rest g fl reqs :
  new_order_wf m -> h_type (no_header m) = NEW_ORDER ->
  cancel_order_wf c -> h_type (co_header c) = CANCEL_ORDER ->
  MemoryPool.free_list (order_pool_ g) fl -> SPSCQueue.holds (risk_queue g) reqs ->
  (exists g', process conn (encode_new_order m ++ rest) (Z.of_nat sizeof_NewOrderMessage) g = Some g' /\
     new_order_effect conn m fl reqs g g') /\
  (exists g', process conn (encode_cancel_order c ++ rest) (Z.of_nat sizeof_CancelOrderMessage) g = Some g' /\
     cancel_effect conn c reqs g g').
Proof.
  intros Hm Ht Hc Htc Hfl Hq. pose proof (decode_new_order_app m rest Hm) as Ed.
  pose proof (decode_cancel_order_app c rest Hc) as Ec. unfold process_message. split.
  - change (decode_header ?d) with (no_header (decode_new_order d)). rewrite Ed Ht. cbn [Z.eqb NEW_ORDER].
    destruct (handle_new_order_done conn (encode_new_order m ++ rest) (Z.of_nat sizeof_NewOrderMessage) g fl reqs)
      as (g' & H1 & H2); [lia|done..|]. rewrite Ed in H2. by exists g'.
  - change (decode_header ?d) with (co_header (decode_cancel_order d)). rewrite Ec Htc.
    destruct (handle_cancel_order_done conn (encode_cancel_order c ++ rest) (Z.of_nat sizeof_CancelOrderMessage) g reqs)
      as (g' & H1 & H2); [lia|done|]. rewrite Ec in H2. by exists g'.
Qed.

(** C12: from a gateway that has just been constructed, after any sequence of
    accepts, read events, starts and stops, and whatever the risk side does
    with the shared pool and queue meanwhile, a round of the worker over any
    events with any bytes returns: no input from the network overruns a
    buffer, double-frees a slot, throws or loops.  Every live connection has an
    open descriptor, a buffer within its bounds holding less than one maximal
    message, and room to receive. *)
Theorem gateway_safe r p reqs g events :
  MemoryPool.ok p -> SPSCQueue.holds (RiskManager.input_queue_ r) reqs ->
  rtc gw_step (TcpGateway.make r p) g ->
  (exists g', worker_round steady_clock send_result events g = Some g') /\
  (forall i conn, connections_ g !! i = Some (Some conn) ->
     0 <= conn_fd conn /\ 0 <= ReadBuffer.used_ (read_buf conn) < MAX_MESSAGE_SIZE /\
     MAX_MESSAGE_SIZE < ReadBuffer.remaining (read_buf conn)).
Proof.
  intros Hp Hq Hr. pose proof (make_ok r p reqs Hp Hq) as Hok.
  assert (gateway_ok g) as Hg by (clear -Hok Hr; induction Hr; [done|]; eauto using gw_step_ok).
  split; [destruct (worker_round_ok events g Hg) as (g' & ? & _); by exists g'|].
  intros i conn Hc. destruct Hg as (_ & _ & Hg). specialize (Hg i conn Hc).
  pose proof (conn_ok_room conn Hg) as Hroom. destruct Hg as (Hfd & Hwf & _).
  rewrite ReadBufferFacts.remaining_wf in Hroom |- *; [done..|].
  destruct Hwf as [_ Hu]. unfold ReadBuffer.CAPACITY, MAX_MESSAGE_SIZE in *. lia.
Qed.


End gateway.

(** The text [strncpy] copies from an array depends on at most its first [N - 1]
    bytes. *)
Lemma take_until_nul k a r : (k <= length a)%nat -> take k (until_nul (a ++ r)) = take k (until_nul a).
Proof.
  revert a. induction k as [|k IH]; intros a Hk; [done|]. destruct a as [|c a]; [simpl in Hk; lia|].
  cbn [until_nul app]. destruct (c =? 0); [done|]. cbn [take]. rewrite IH; [simpl in Hk; lia|done].
Qed.

(** Identifiers from the wire are copied safely even when the client sends
    no terminator: for arbitrary 32 and 8 byte arrays, the client id and the
    symbol of the order are terminated strings, they are the bytes before the
    first NUL truncated to 31 and 7 characters, and no byte of the memory
    behind the arrays is used. *)
Theorem wire_strings_bounded msg now behind_client behind_symbol :
  length (BoundedString.data_ (no_client_id msg)) = CLIENT_N ->
  length (BoundedString.data_ (no_symbol msg)) = SYMBOL_N ->
  let o := TcpGateway.order_of_message msg now in
  FixedString.wf CLIENT_N (client_id o) /\ FixedString.wf SYMBOL_N (symbol o) /\
  FixedString.c_str (client_id o) =
    take 31 (until_nul (BoundedString.data_ (no_client_id msg) ++ behind_client)) /\
  FixedString.c_str (symbol o) =
    take 7 (until_nul (BoundedString.data_ (no_symbol msg) ++ behind_symbol)).
Proof.
  intros Hc Hs. cbn zeta. cbn [client_id symbol TcpGateway.order_of_message].
  unfold CLIENT_N, SYMBOL_N in *. split_and!.
  1,2: apply FixedStringFacts.make_wf; lia.
  all: unfold FixedString.make; rewrite FixedStringFacts.c_str_assign;
    [lia|by apply FixedStringFacts.init_wf; lia|apply until_nul_nonzero|].
  all: rewrite take_until_nul; [lia|done].
Qed.

Lemma wire_strings_bounded_witness :
  FixedString.c_str (client_id (TcpGateway.order_of_message
    (mkNewOrder (mkHeader 1 110 1 1 0) 1 (BoundedString.mk (replicate 32 65) 99)
       (BoundedString.mk (replicate 8 66) 99) 1 1 1 1) 0)) = replicate 31 65.
Proof.
  destruct (wire_strings_bounded (mkNewOrder (mkHeader 1 110 1 1 0) 1 (BoundedString.mk (replicate 32 65) 99)
    (BoundedString.mk (replicate 8 66) 99) 1 1 1 1) 0 [] []) as (_ & _ & H & _); [reflexivity..|].
  exact H.
Defined.

(** ** A concrete gateway *)

Definition ex_gw_clock (n : nat) : Timestamp := Z.of_nat n.
Definition ex_gw_send (n : nat) : Z := 77.
Definition ex_gw_queue : SPSCQueue.t RiskRequest :=
  match SPSCQueue.make (RISK_NEW_ORDER None) 4 with Some q => q | None => SPSCQueue.mk 0 0 [] 0 0 0 0 end.
Definition ex_gw_risk : RiskManager.t unit :=
  RiskManager.mk RiskConfig_default 0 ∅ ∅ ∅ ∅ ∅ ex_gw_queue false RiskStats_zero RiskStats_zero.
Definition ex_gw_pool : MemoryPool.t Order :=
  match MemoryPool.make Order_default 2 with
  | inr p => p
  | inl _ => MemoryPool.mk 0 [] [] 0 0 0 []
  end.
Definition ex_gw : TcpGateway.t unit :=
  TcpGateway.accept_connection ex_gw_clock 5 (TcpGateway.make ex_gw_risk ex_gw_pool).

(** A client's buy order for symbol "AB". *)
Definition ex_gw_message : NewOrderMessage :=
  mkNewOrder (mkHeader 1 110 1 1 0) 42 (BoundedString.mk (67 :: replicate 31 0) 1)
    (BoundedString.mk ([65; 66] ++ replicate 6 0) 2) 1 10 1000000 2.
Definition ex_gw_cancel : CancelOrderMessage :=
  mkCancelOrder (mkHeader 2 92 1 1 0) 42 (BoundedString.mk (67 :: replicate 31 0) 1)
    (BoundedString.mk ([65; 66] ++ replicate 6 0) 2).

Lemma ex_gw_pool_free : MemoryPool.free_list ex_gw_pool [0%nat; 1%nat].
Proof.
  unfold ex_gw_pool. destruct (MemoryPool.make_free_list Order_default 2) as (p & -> & _ & Hfl); [done|]. exact Hfl.
Qed.

Lemma ex_gw_queue_holds : SPSCQueue.holds ex_gw_queue [].
Proof.
  unfold ex_gw_queue. destruct (SPSCQueue.make_repr (RISK_NEW_ORDER None) 4) as (q & -> & Hr & _); [lia|].
  by exists 0, 0.
Qed.

Lemma ex_gw_ok : gateway_ok ex_gw.
Proof.
  apply accept_ok; [lia|]. apply (make_ok _ _ []); [by eexists; apply ex_gw_pool_free|apply ex_gw_queue_holds].
Qed.

Lemma ex_gw_messages_wf : new_order_wf ex_gw_message /\ cancel_order_wf ex_gw_cancel.
Proof.
  split; split; simpl; try u_lia; try (split; simpl; u_lia); split; simpl; first [reflexivity|u_lia].
Qed.

Definition ex_gw_conn : ConnectionState := mkConn 5 ReadBuffer.init false true 0.

(** The message arrives in two pieces. *)
Lemma handle_client_data_refines_witness :
  exists g' g'',
    process_frames ex_gw_clock ex_gw_send ex_gw_conn [encode_new_order ex_gw_message] ex_gw = Some g' /\
    TcpGateway.handle_client_data ex_gw_clock ex_gw_send 5
      [take 30 (encode_new_order ex_gw_message); drop 30 (encode_new_order ex_gw_message)] WouldBlock ex_gw
      = Some g'' /\
    recv_outcome 5 ex_gw_conn (Partial []) WouldBlock g' g''.
Proof.
  exact (handle_client_data_refines ex_gw_clock ex_gw_send 5
    [take 30 (encode_new_order ex_gw_message); drop 30 (encode_new_order ex_gw_message)] WouldBlock
    ex_gw_conn ex_gw ex_gw_ok eq_refl eq_refl).
Defined.

Lemma gateway_order_entry_witness :
  exists g', TcpGateway.process_message ex_gw_clock ex_gw_send ex_gw_conn
      (encode_new_order ex_gw_message ++ [9]) (Z.of_nat sizeof_NewOrderMessage) ex_gw = Some g' /\
    new_order_effect ex_gw_clock ex_gw_conn ex_gw_message [0%nat; 1%nat] [] ex_gw g'.
Proof.
  exact (proj1 (gateway_order_entry ex_gw_clock ex_gw_send ex_gw_conn ex_gw_message ex_gw_cancel [9] ex_gw
    [0%nat; 1%nat] [] (proj1 ex_gw_messages_wf) eq_refl (proj2 ex_gw_messages_wf) eq_refl
    ex_gw_pool_free ex_gw_queue_holds)).
Defined.

Lemma gateway_safe_witness :
  exists g', TcpGateway.worker_round ex_gw_clock ex_gw_send
    [TcpGateway.mkEvent 5 false true [[1; 2; 3]] WouldBlock] ex_gw = Some g'.
Proof.
  exact (proj1 (gateway_safe ex_gw_clock ex_gw_send ex_gw_risk ex_gw_pool [] ex_gw
    [TcpGateway.mkEvent 5 false true [[1; 2; 3]] WouldBlock]
    (ex_intro _ _ ex_gw_pool_free) ex_gw_queue_holds
    (rtc_once _ _ (step_accept ex_gw_clock ex_gw_send 5 _ ltac:(lia))))).
Defined.
