(* ===== verification/Transaction.v ===== *)
(** * Transactions (transaction.hpp, transaction.cpp)

    A [Transaction] runs a list of actions and undoes the executed ones in
    reverse order when one fails.  Actions are virtual: [TransactionAction] is
    a class over the type of action objects and the world they act on.  The
    laws that make a transaction atomic are a second class, so that atomicity
    is proved for every kind of action that keeps them; the concrete actions of
    the source are an instance.

    The state of the actions themselves (the network action remembers whether
    it has executed) is threaded through; a moved-from pointer of [actions_]
    only exists inside [commit], where it is dropped from the list. *)

From S2P Require Import Prelude Types ErrorHandling MemorySafety.

Class TransactionAction (A W : Type) := {
  execute : A -> W -> Result unit * A * W;
  rollback_action : A -> W -> Result unit * A * W;
  description : A -> cstring
}.

(** What undoing needs: a failed action leaves the world alone, and rolling
    back what was executed restores it without an error. *)
Class Compensable (A W : Type) `{!TransactionAction A W} := {
  execute_failed a w e a' w' : execute a w = (Error e, a', w') -> w' = w;
  rollback_undoes a w a' w' : execute a w = (Value tt, a', w') ->
    exists a'', rollback_action a' w' = (Value tt, a'', w)
}.

Inductive TxState := TX_ACTIVE | TX_COMMITTED | TX_ROLLED_BACK.

#[export] Instance TxState_eq_dec : EqDecision TxState.
Proof. solve_decision. Defined.

Module Transaction.
Section transaction.
Context {A W : Type} `{!TransactionAction A W}.

Record t := mk {
  name_ : cstring;
  actions_ : list A;
  executed_actions_ : list A;
  state_ : TxState;
  auto_rollback_ : bool
}.

(** [Transaction(name)]; [self] is the address of the object, the name of an
    unnamed transaction. *)
Definition make (self : Z) (name : cstring) : t :=
  mk (match name with [] => cstr "Transaction_" ++ print_u64 self | _ => name end) [] [] TX_ACTIVE true.

Definition add_action (action : A) (tx : t) : t :=
  if decide (state_ tx = TX_ACTIVE)
  then mk (name_ tx) (actions_ tx ++ [action]) (executed_actions_ tx) (state_ tx) (auto_rollback_ tx)
  else tx.

(** The rollback loop, over the executed actions last first. *)
Fixpoint rollback_loop (reversed : list A) (last_error : error_code) (w : W) : error_code * W :=
  match reversed with
  | [] => (last_error, w)
  | a :: rest =>
      let '(result, _, w) := rollback_action a w in
      rollback_loop rest (match result with Error e => e | Value _ => last_error end) w
  end.

(** A default-constructed [std::error_code]. *)
Definition no_error : error_code := mk_error 0 rtes_category.

Definition rollback (tx : t) (w : W) : Result unit * t * W :=
  if decide (state_ tx = TX_ROLLED_BACK) then (Value tt, tx, w)
  else
    let '(last_error, w) := rollback_loop (reverse (executed_actions_ tx)) no_error w in
    let tx := mk (name_ tx) [] [] TX_ROLLED_BACK (auto_rollback_ tx) in
    if error_set last_error then (Error last_error, tx, w) else (Value tt, tx, w).

(** The commit loop: the executed actions so far, and the error of the first
    action that failed. *)
Fixpoint commit_loop (actions executed : list A) (w : W) : option error_code * list A * W :=
  match actions with
  | [] => (None, executed, w)
  | a :: rest =>
      let '(result, a, w) := execute a w in
      match result with
      | Error e => (Some e, executed, w)
      | Value _ => commit_loop rest (executed ++ [a]) w
      end
  end.

Definition commit (tx : t) (w : W) : Result unit * t * W :=
  if decide (state_ tx = TX_ACTIVE) then
    let '(failed, executed, w) := commit_loop (actions_ tx) (executed_actions_ tx) w in
    match failed with
    | Some e =>
        let '(_, tx, w) := rollback (mk (name_ tx) (actions_ tx) executed (state_ tx) (auto_rollback_ tx)) w in
        (Error e, tx, w)
    | None => (Value tt, mk (name_ tx) [] executed TX_COMMITTED false, w)
    end
  else (err SYSTEM_CORRUPTED_STATE, tx, w).

(** The destructor. *)
Definition destroy (tx : t) (w : W) : W :=
  if bool_decide (state_ tx = TX_ACTIVE) && auto_rollback_ tx then (rollback tx w).2 else w.

End transaction.
Arguments t : clear implicits.
End Transaction.

(** ** TransactionScope and TransactionManager *)

Module TransactionScope.
Section scope.
Context {A W : Type} `{!TransactionAction A W}.

Record t := mk { transaction_ : Transaction.t A; committed_ : bool }.

Definition commit (s : t) (w : W) : Result unit * t * W :=
  let '(result, tx, w) := Transaction.commit (transaction_ s) w in
  (result, mk tx (if has_value result then true else committed_ s), w).

(** [transaction().commit()]: the same transaction, without the scope knowing. *)
Definition commit_directly (s : t) (w : W) : Result unit * t * W :=
  let '(result, tx, w) := Transaction.commit (transaction_ s) w in (result, mk tx (committed_ s), w).

(** The scope's destructor, then the transaction's. *)
Definition destroy (s : t) (w : W) : W :=
  if committed_ s then Transaction.destroy (transaction_ s) w
  else let '(_, tx, w) := Transaction.rollback (transaction_ s) w in Transaction.destroy tx w.

End scope.
Arguments t : clear implicits.
End TransactionScope.

Module TransactionManager.

(** [active_transactions_] holds the transactions its weak pointers still
    reach, [None] for an expired one. *)
Record t (A : Type) := mk {
  active_transactions_ : list (option (Transaction.t A));
  total_transactions_ : Z;
  failed_transactions_ : Z
}.
Arguments mk {A}.
Arguments active_transactions_ {A}.
Arguments total_transactions_ {A}.
Arguments failed_transactions_ {A}.

Section manager.
Context {A W : Type} `{!TransactionAction A W}.

Definition instance : t A := mk [] 0 0.

Definition begin_transaction (self : Z) (name : cstring) (m : t A) : Transaction.t A * t A :=
  (Transaction.make self name,
   mk (active_transactions_ m) (total_transactions_ m +₆₄ 1) (failed_transactions_ m)).

Fixpoint rollback_each (txs : list (option (Transaction.t A))) (last_error : error_code) (failed : Z) (w : W)
    : error_code * Z * W :=
  match txs with
  | [] => (last_error, failed, w)
  | Some tx :: rest =>
      if decide (Transaction.state_ tx = TX_ACTIVE) then
        let '(result, _, w) := Transaction.rollback tx w in
        match result with
        | Error e => rollback_each rest e (failed +₆₄ 1) w
        | Value _ => rollback_each rest last_error failed w
        end
      else rollback_each rest last_error failed w
  | None :: rest => rollback_each rest last_error failed w
  end.

Definition rollback_all_active_transactions (m : t A) (w : W) : Result unit * t A * W :=
  let live := filter is_Some (active_transactions_ m) in
  let '(last_error, failed, w) := rollback_each live Transaction.no_error (failed_transactions_ m) w in
  (if error_set last_error then Error last_error else Value tt, mk [] (total_transactions_ m) failed, w).

Definition active_transaction_count (m : t A) : nat := length (filter is_Some (active_transactions_ m)).

End manager.
End TransactionManager.

(** ** The concrete actions: they log, and the network action keeps a flag. *)

Inductive OrderBookActionType := ADD_ORDER | CANCEL_ORDER_ACTION | EXECUTE_TRADE.
Inductive MemoryPoolActionType := ALLOCATE | DEALLOCATE.
Inductive NetworkActionType := SEND_MESSAGE | CLOSE_CONNECTION.

Inductive Action :=
| OrderBookAction (type : OrderBookActionType) (order_id : OrderID) (symbol : cstring)
| MemoryPoolAction (type : MemoryPoolActionType) (ptr : Z) (size : Z)
| NetworkAction (type : NetworkActionType) (connection_id : Z) (data : list Z) (executed_ : bool).

Definition action_execute {W : Type} (a : Action) (w : W) : Result unit * Action * W :=
  match a with
  | NetworkAction type connection_id data _ => (Value tt, NetworkAction type connection_id data true, w)
  | _ => (Value tt, a, w)
  end.

Definition action_rollback {W : Type} (a : Action) (w : W) : Result unit * Action * W :=
  match a with
  | NetworkAction type connection_id data true => (Value tt, NetworkAction type connection_id data false, w)
  | _ => (Value tt, a, w)
  end.

Definition action_description (a : Action) : cstring :=
  match a with
  | OrderBookAction ADD_ORDER i _ => cstr "AddOrder(" ++ print_u64 i ++ cstr ")"
  | OrderBookAction CANCEL_ORDER_ACTION i _ => cstr "CancelOrder(" ++ print_u64 i ++ cstr ")"
  | OrderBookAction EXECUTE_TRADE i _ => cstr "ExecuteTrade(" ++ print_u64 i ++ cstr ")"
  | MemoryPoolAction ALLOCATE _ n => cstr "MemoryAllocate(" ++ print_u64 n ++ cstr ")"
  | MemoryPoolAction DEALLOCATE _ n => cstr "MemoryDeallocate(" ++ print_u64 n ++ cstr ")"
  | NetworkAction SEND_MESSAGE c _ _ => cstr "SendMessage(conn=" ++ print_i64 c ++ cstr ")"
  | NetworkAction CLOSE_CONNECTION c _ _ => cstr "CloseConnection(" ++ print_i64 c ++ cstr ")"
  end.

#[export] Instance Action_TransactionAction {W} : TransactionAction Action W := {|
  execute := action_execute;
  rollback_action := action_rollback;
  description := action_description
|}.

#[export] Instance Action_Compensable {W} : Compensable Action W.
Proof.
  split.
  - by intros [] w e a' w' [=].
  - intros [] w a' w' [= <- <-]; by eexists.
Qed.

(** ** Executing and undoing *)

Section atomicity.
Import Transaction.
Context {A W : Type} `{!TransactionAction A W}.
Implicit Types (w : W) (tx : Transaction.t A).

(** The reference: all the actions, or the error of the first that fails. *)
Fixpoint execute_all (actions : list A) w : Result W :=
  match actions with
  | [] => Value w
  | a :: rest =>
      match execute a w with
      | (Value _, _, w') => execute_all rest w'
      | (Error e, _, _) => Error e
      end
  end.

(** [done] are actions executed one after the other from [w0] to [w]. *)
Inductive ran (w0 : W) : list A -> W -> Prop :=
| ran_nil : ran w0 [] w0
| ran_snoc done a a' w w' : ran w0 done w -> execute a w = (Value tt, a', w') -> ran w0 (done ++ [a']) w'.

Lemma commit_loop_spec w0 actions executed w :
  ran w0 executed w ->
  match execute_all actions w with
  | Value w' => exists done, commit_loop actions executed w = (None, done, w') /\ ran w0 done w' /\
      length done = (length executed + length actions)%nat
  | Error e => exists done a w1 a' w', commit_loop actions executed w = (Some e, done, w') /\ ran w0 done w1 /\
      execute a w1 = (Error e, a', w')
  end.
Proof.
  revert executed w. induction actions as [|a actions IH]; intros executed w Hr; cbn [execute_all commit_loop].
  - exists executed. split; [done|]. split; [done|]. simpl. lia.
  - destruct (execute a w) as [[[[]|e] a'] w'] eqn:E; [|by eexists executed, a, w, a', w'].
    specialize (IH (executed ++ [a']) w' (ran_snoc _ _ _ _ _ _ Hr E)).
    destruct (execute_all actions w'); [|done]. destruct IH as (done & -> & Hd & Hl). exists done.
    split; [done|]. split; [done|]. rewrite Hl length_app. simpl. lia.
Qed.

Lemma rollback_loop_undoes `{!Compensable A W} w0 done w e :
  ran w0 done w -> rollback_loop (reverse done) e w = (e, w0).
Proof.
  intros Hr. induction Hr as [|done a a' w w' Hr IH Hx]; [done|]. rewrite reverse_snoc. cbn [rollback_loop].
  destruct (rollback_undoes a w a' w' Hx) as (a'' & ->). exact IH.
Qed.

(** A transaction with the given actions added. *)
Definition build (self : Z) (name : cstring) (actions : list A) : Transaction.t A :=
  foldl (fun tx a => add_action a tx) (make self name) actions.

Lemma build_spec self name actions :
  build self name actions = mk (name_ (A:=A) (make self name)) actions [] TX_ACTIVE true.
Proof.
  unfold build. induction actions as [|a actions IH] using rev_ind; [done|]. by rewrite foldl_app IH.
Qed.

Lemma rollback_executed `{!Compensable A W} w0 tx w :
  state_ tx <> TX_ROLLED_BACK -> ran w0 (executed_actions_ tx) w ->
  rollback tx w = (Value tt, mk (name_ tx) [] [] TX_ROLLED_BACK (auto_rollback_ tx), w0).
Proof.
  intros Hs Hr. unfold rollback. rewrite decide_False; [done|]. by rewrite (rollback_loop_undoes w0).
Qed.

Lemma commit_build `{!Compensable A W} self name actions w :
  let tx := build self name actions in
  match execute_all actions w with
  | Value w' => exists done, commit tx w = (Value tt, mk (name_ tx) [] done TX_COMMITTED false, w') /\
      ran w done w' /\ length done = length actions
  | Error e => commit tx w = (Error e, mk (name_ tx) [] [] TX_ROLLED_BACK true, w)
  end.
Proof.
  cbn zeta. rewrite build_spec. unfold commit. cbn [state_ actions_ executed_actions_ name_ auto_rollback_].
  pose proof (commit_loop_spec w actions [] w (ran_nil w)) as Hc.
  destruct (execute_all actions w) as [w'|e].
  - destruct Hc as (done & -> & Hr & Hl). by exists done.
  - destruct Hc as (done & a & w1 & a' & w' & -> & Hr & Hx).
    rewrite (execute_failed _ _ _ _ _ Hx). by rewrite (rollback_executed w).
Qed.

(** C22: transactions are atomic.  For actions whose failure leaves the world
    alone and whose rollback undoes their execution, committing a transaction
    that the actions were added to has one of two outcomes: every action ran,
    in order, the transaction is committed and remembers all of them; or some
    action failed, the commit reports that action's error, the actions executed
    before it were undone in reverse order and the world is exactly what it was
    before, with the transaction rolled back.  A second commit is refused. *)
Theorem commit_atomic `{!Compensable A W} self name actions w :
  let tx := build self name actions in
  (match execute_all actions w with
   | Value w' => exists done, commit tx w = (Value tt, mk (name_ tx) [] done TX_COMMITTED false, w') /\
       ran w done w' /\ length done = length actions
   | Error e => commit tx w = (Error e, mk (name_ tx) [] [] TX_ROLLED_BACK true, w)
   end) /\
  (let '(_, tx', w') := commit tx w in commit tx' w' = (err SYSTEM_CORRUPTED_STATE, tx', w')).
Proof.
  pose proof (commit_build self name actions w) as Hc. split; [done|]. cbn zeta in *.
  destruct (execute_all actions w); [destruct Hc as (done & Hc & _)|]; by rewrite Hc.
Qed.

(** The life of a scope, for actions that all succeed.  A scope whose
    [commit] was called keeps the effects when it is destroyed; one that was
    never committed leaves the world as it was.  But a scope whose transaction
    was committed through [transaction().commit()] is not told, and its
    destructor rolls the committed transaction back: all the effects are
    undone. *)
Theorem scope_lifetime `{!Compensable A W} self name actions w w' :
  execute_all actions w = Value w' ->
  let s := TransactionScope.mk (build self name actions) false in
  (let '(r, s', w1) := TransactionScope.commit s w in r = Value tt /\ TransactionScope.destroy s' w1 = w') /\
  TransactionScope.destroy s w = w /\
  (let '(r, s', w1) := TransactionScope.commit_directly s w in
   r = Value tt /\ w1 = w' /\ TransactionScope.destroy s' w1 = w).
Proof.
  intros Hx. pose proof (commit_build self name actions w) as Hc. rewrite Hx in Hc. cbn zeta in *.
  destruct Hc as (done & Hc & Hr & _).
  unfold TransactionScope.commit, TransactionScope.commit_directly, TransactionScope.destroy.
  cbn [TransactionScope.transaction_ TransactionScope.committed_]. rewrite Hc. cbn [has_value].
  split; [done|]. split; [|split; [done|split; [done|]]].
  - rewrite (rollback_executed w); rewrite build_spec; [done|constructor|done].
  - by rewrite (rollback_executed w).
Qed.

(** ** The manager *)

Inductive manager_step : TransactionManager.t A * W -> TransactionManager.t A * W -> Prop :=
| step_begin self name m w :
    manager_step (m, w) ((TransactionManager.begin_transaction self name m).2, w)
| step_rollback_all m w :
    manager_step (m, w) (let '(_, m', w') := TransactionManager.rollback_all_active_transactions m w in (m', w'))
| step_outside m w w' : manager_step (m, w) (m, w').

Lemma manager_no_active w0 m w :
  rtc manager_step (TransactionManager.instance, w0) (m, w) -> TransactionManager.active_transactions_ m = [].
Proof.
  assert (forall x y, rtc manager_step x y -> TransactionManager.active_transactions_ x.1 = [] ->
            TransactionManager.active_transactions_ y.1 = []) as H.
  { induction 1 as [|x y z Hs _ IH]; [done|]. intros Hx. apply IH. destruct Hs as [|m1 w1|]; [done| |done].
    unfold TransactionManager.rollback_all_active_transactions. cbn [fst] in Hx. by rewrite Hx. }
  intros Hr. by apply (H _ _ Hr).
Qed.

(** The recovery entry point of the manager never finds anything to roll
    back.  However many transactions were begun and whatever they did, the
    manager's list of active transactions is empty: [begin_transaction] counts
    the transaction but does not record it, so
    [rollback_all_active_transactions] reports success without touching the
    world, and the active count is 0. *)
Theorem manager_tracks_nothing w0 m w :
  rtc manager_step (TransactionManager.instance, w0) (m, w) ->
  TransactionManager.active_transaction_count m = 0%nat /\
  TransactionManager.rollback_all_active_transactions m w =
    (Value tt, TransactionManager.mk [] (TransactionManager.total_transactions_ m)
                 (TransactionManager.failed_transactions_ m), w).
Proof.
  intros Hr%manager_no_active. unfold TransactionManager.active_transaction_count,
    TransactionManager.rollback_all_active_transactions. by rewrite Hr.
Qed.

End atomicity.

(** ** An action on a counter, for the concrete instances *)

(** Adds to a register that must stay below 100. *)
#[local] Instance Counter_TransactionAction : TransactionAction Z Z := {|
  execute a w := if 100 <=? w + a then (err RISK_LIMIT_EXCEEDED, a, w) else (Value tt, a, w + a);
  rollback_action a w := (Value tt, a, w - a);
  description a := print_i64 a
|}.

#[local] Instance Counter_Compensable : Compensable Z Z.
Proof.
  split; simpl; intros a w.
  - intros e a' w'. by destruct (100 <=? w + a); intros [=].
  - intros a' w'. destruct (100 <=? w + a); intros [= <- <-]. exists a. f_equal. lia.
Qed.

(** Adding 60 twice fails the second time and leaves 0. *)
Lemma commit_atomic_witness :
  Transaction.commit (build 1 (cstr "t") [60; 60]) 0 =
    (err RISK_LIMIT_EXCEEDED, Transaction.mk (cstr "t") [] [] TX_ROLLED_BACK true, 0).
Proof. exact (proj1 (commit_atomic 1 (cstr "t") [60; 60] 0)). Defined.

Lemma scope_lifetime_witness :
  TransactionScope.destroy
    (TransactionScope.commit_directly (TransactionScope.mk (build 1 (cstr "t") [5; 6]) false) 0).1.2 11 = 0.
Proof. exact (proj2 (proj2 (proj2 (proj2 (scope_lifetime 1 (cstr "t") [5; 6] 0 11 eq_refl))))). Defined.

Lemma manager_tracks_nothing_witness :
  TransactionManager.active_transaction_count
    (TransactionManager.begin_transaction (A:=Z) 1 (cstr "t") TransactionManager.instance).2 = 0%nat.
Proof.
  exact (proj1 (manager_tracks_nothing 0 _ 0 (rtc_once _ _ (step_begin 1 (cstr "t") TransactionManager.instance 0)))).
Defined.
