(* ===== verification/Strings.v ===== *)
(** * std::string

    The operations on strings the components share: searching, substrings and
    prefixes.  A string is the list of its bytes; positions are size_t, and
    [NPOS] is [std::string::npos], so arithmetic on a position that was not
    found wraps as in the code. *)

From S2P Require Import Prelude Types MemorySafety.

Definition NPOS : Z := 2 ^ 64 - 1.

Fixpoint starts_with (s p : cstring) {struct p} : bool :=
  match p, s with
  | [], _ => true
  | x :: p', y :: s' => (x =? y) && starts_with s' p'
  | _, [] => false
  end.

(** The first occurrence of [p] in [s]. *)
Fixpoint search (p s : cstring) : option nat :=
  if starts_with s p then Some 0%nat
  else match s with
  | [] => None
  | _ :: s' => S <$> search p s'
  end.

(** [s.find(p, pos)] *)
Definition find (s p : cstring) (pos : Z) : Z :=
  if Z.of_nat (length s) <? pos then NPOS
  else match search p (drop (Z.to_nat pos) s) with
  | Some i => pos + Z.of_nat i
  | None => NPOS
  end.

Definition contains (s p : cstring) : bool := match search p s with Some _ => true | None => false end.

(** [s.substr(pos, n)] throws [std::out_of_range] beyond the end. *)
Definition substr (s : cstring) (pos n : Z) : outcome cstring :=
  if Z.of_nat (length s) <? pos then Throws "out_of_range"
  else Done (take (Z.to_nat n) (drop (Z.to_nat pos) s)).

(** The longest prefix of characters that satisfy a test, and what follows it. *)
Fixpoint take_while (f : Z -> bool) (s : cstring) : cstring :=
  match s with
  | [] => []
  | c :: s' => if f c then c :: take_while f s' else []
  end.
Fixpoint drop_while (f : Z -> bool) (s : cstring) : cstring :=
  match s with
  | [] => []
  | c :: s' => if f c then drop_while f s' else s
  end.

(** ** Lemmas *)

Lemma take_drop_while f a r :
  Forall (fun c => f c = true) a -> match r with [] => True | c :: _ => f c = false end ->
  take_while f (a ++ r) = a /\ drop_while f (a ++ r) = r.
Proof.
  intros Ha Hr. induction Ha as [|c a Hc Ha [IH1 IH2]]; simpl.
  - destruct r as [|c r]; [done|]. simpl. by rewrite Hr.
  - by rewrite Hc IH1 IH2.
Qed.


Lemma starts_with_spec s p : starts_with s p = true <-> exists r, s = p ++ r.
Proof.
  revert s. induction p as [|x p IH]; intros s; simpl; [split; [intros _; by exists s|done]|].
  destruct s as [|y s]; [split; [done|by intros [r ?]]|].
  rewrite andb_true_iff Z.eqb_eq IH. split.
  - intros [-> [r ->]]. by exists r.
  - intros [r [= -> ->]]. split; [done|by exists r].
Qed.

Lemma starts_with_app p r : starts_with (p ++ r) p = true.
Proof. apply starts_with_spec. by exists r. Qed.

Lemma search_found p s i :
  search p s = Some i <->
  (exists r, drop i s = p ++ r) /\ (i <= length s)%nat /\ forall j, (j < i)%nat -> starts_with (drop j s) p = false.
Proof.
  revert i. induction s as [|x s IH]; intros i.
  - simpl. destruct (starts_with [] p) eqn:E.
    + split.
      * intros [= <-]. apply starts_with_spec in E. split_and!; [done|done|lia].
      * intros (_ & Hi & _). f_equal. simpl in Hi. lia.
    + split; [done|]. intros ([r Hr] & _). rewrite drop_nil in Hr.
      apply not_true_iff_false in E. destruct E. apply starts_with_spec. by exists r.
  - cbn [search]. destruct (starts_with (x :: s) p) eqn:E.
    + split.
      * intros [= <-]. apply starts_with_spec in E. split_and!; [done|lia|lia].
      * intros (_ & _ & Hj). destruct i as [|i]; [done|]. specialize (Hj 0%nat ltac:(lia)). simpl in *. congruence.
    + rewrite fmap_Some. split.
      * intros (j & Hj & ->). apply IH in Hj as (Hr & Hl & Hn). split_and!; [done|simpl; lia|].
        intros [|k] Hk; [done|]. apply Hn. lia.
      * intros (Hr & Hl & Hn). destruct i as [|i]; [destruct Hr as [r Hr]; cbn [drop] in Hr; rewrite Hr starts_with_app in E; done|].
        exists i. split; [|done]. apply IH. split_and!; [done|simpl in Hl; lia|]. intros j Hj. exact (Hn (S j) ltac:(lia)).
Qed.

(** Nothing found: no position matches. *)
Lemma search_none p s : search p s = None <-> forall j, starts_with (drop j s) p = false.
Proof.
  induction s as [|x s IH]; simpl.
  - destruct (starts_with [] p) eqn:E; [split; [done|intros Hj; specialize (Hj 0%nat); simpl in Hj; congruence]|].
    split; [|done]. intros _ j. by rewrite drop_nil.
  - destruct (starts_with (x :: s) p) eqn:E; [split; [done|intros Hj; specialize (Hj 0%nat); simpl in Hj; congruence]|].
    rewrite fmap_None IH. split.
    + intros Hj [|j]; [done|apply Hj].
    + intros Hj j. exact (Hj (S j)).
Qed.

(** The first occurrence when the text before it contains none. *)
Lemma search_app_first p a r :
  (forall j, (j < length a)%nat -> starts_with (drop j (a ++ p ++ r)) p = false) -> search p (a ++ p ++ r) = Some (length a).
Proof.
  intros Hn. apply search_found. split_and!; [exists r; by rewrite drop_app_length|rewrite !length_app; lia|exact Hn].
Qed.

(** A single character. *)
Lemma search_char c a r : c ∉ a -> search [c] (a ++ c :: r) = Some (length a).
Proof.
  intros Ha. apply (search_app_first [c]). intros j Hj. apply not_true_iff_false.
  intros [r' Hr']%starts_with_spec. apply Ha. rewrite drop_app_le in Hr'; [lia|].
  destruct (drop j a) as [|x b] eqn:E.
  - apply (f_equal length) in E. rewrite length_drop in E. simpl in E. lia.
  - simpl in Hr'. injection Hr' as -> _. apply (list_elem_of_lookup_2 a j). rewrite -(Nat.add_0_r j) -lookup_drop E. done.
Qed.

Lemma search_char_none c s : search [c] s = None <-> c ∉ s.
Proof.
  rewrite search_none. split.
  - intros Hn (i & Hi)%list_elem_of_lookup. specialize (Hn i). apply not_true_iff_false in Hn. apply Hn, starts_with_spec.
    exists (drop (S i) s). by apply drop_S.
  - intros Hc j. apply not_true_iff_false. intros [r Hr]%starts_with_spec. apply Hc.
    apply (list_elem_of_lookup_2 s j). by rewrite -(Nat.add_0_r j) -lookup_drop Hr.
Qed.

(** Text in which the first character of the pattern does not occur is skipped. *)
Lemma search_skip c p a r : c ∉ a -> search (c :: p) (a ++ r) = (fun i => (length a + i)%nat) <$> search (c :: p) r.
Proof.
  induction a as [|x a IH]; intros Hc; [cbn [app length]; by destruct (search (c :: p) r)|].
  apply not_elem_of_cons in Hc as [Hx Ha]. cbn [app search starts_with].
  rewrite (proj2 (Z.eqb_neq c x)) //. cbn [andb]. rewrite IH //. destruct (search (c :: p) r); done.
Qed.

(** The pattern itself, right here. *)
Lemma search_here p r : search p (p ++ r) = Some 0%nat.
Proof. destruct (p ++ r) eqn:E; cbn [search]; rewrite -E starts_with_app; done. Qed.

(** [find] from a position, in terms of the text from there on. *)
Lemma find_from s p a b i :
  s = a ++ b -> search p b = Some i -> find s p (Z.of_nat (length a)) = Z.of_nat (length a + i).
Proof.
  intros -> Hs. unfold find. rewrite length_app. rewrite (proj2 (Z.ltb_ge _ _)); [lia|].
  rewrite Nat2Z.id drop_app_length Hs. lia.
Qed.

Lemma substr_from s a b c n :
  s = a ++ b ++ c -> n = Z.of_nat (length b) -> substr s (Z.of_nat (length a)) n = Done b.
Proof.
  intros -> ->. unfold substr. rewrite !length_app. rewrite (proj2 (Z.ltb_ge _ _)); [lia|].
  by rewrite !Nat2Z.id drop_app_length take_app_length.
Qed.
