(* ===== verification/Formatting.v ===== *)
(** * Text of numbers (what [ostream <<], [std::to_string] and [std::hex] write)

    Doubles are printed as the C library does: the exact value, rounded to the
    nearest decimal with ties to even.  [print_fixed] is [%.<p>f] ([std::fixed]
    with a precision; [std::to_string] has the precision 6), [print_general] is
    [%g] (the default of a stream, 6 significant digits).  A NaN has no sign
    here. *)

From Stdlib Require Import SpecFloat.
From S2P Require Import Prelude Types Double MemorySafety.

(** Text with every backquote a double quote. *)
Definition quoting (s : string) : cstring := (fun c => if c =? 96 then 34 else c) <$> cstr s.

(** A natural number below 10^400 in decimal, with at least [w] digits. *)
Definition decimal (v : Z) : cstring := digits_loop 400 v [].
Definition decimal_padded (w : nat) (v : Z) : cstring := replicate (w - length (decimal v)) 48 ++ decimal v.

(** [num / den], the tie to even. *)
Definition round_div (num den : Z) : Z :=
  let q := num / den in
  let r := num mod den in
  if 2 * r <? den then q else if den <? 2 * r then q + 1 else if Z.even q then q else q + 1.

(** The value of a finite double as a fraction. *)
Definition numerator (m : positive) (e : Z) : Z := Zpos m * 2 ^ Z.max e 0.
Definition denominator (e : Z) : Z := 2 ^ Z.max (- e) 0.

Definition signed (s : bool) (text : cstring) : cstring := if s then 45 :: text else text.

Definition fixed_text (p : nat) (n : Z) : cstring :=
  let unit := 10 ^ Z.of_nat p in
  decimal (n / unit) ++ (if Nat.eqb p 0 then [] else 46 :: decimal_padded p (n mod unit)).
Definition print_fixed (p : nat) (d : double) : cstring :=
  match d with
  | S754_zero s => signed s (fixed_text p 0)
  | S754_infinity s => signed s (cstr "inf")
  | S754_nan => cstr "nan"
  | S754_finite s m e => signed s (fixed_text p (round_div (numerator m e * 10 ^ Z.of_nat p) (denominator e)))
  end.
Definition to_string_double (d : double) : cstring := print_fixed 6 d.

(** The least [k] from [k0] on with [den <= num * 10^k]. *)
Fixpoint leading_place (fuel : nat) (num den k : Z) : Z :=
  match fuel with
  | O => k
  | S fuel => if den <=? num * 10 ^ k then k else leading_place fuel num den (k + 1)
  end.
(** The exponent of the leading decimal digit. *)
Definition decimal_exponent (num den : Z) : Z :=
  if den <=? num then Z.of_nat (length (decimal (num / den))) - 1 else - leading_place 400 num den 1.

Definition drop_zeros (s : cstring) : cstring := reverse ((fix go s := match s with 48 :: s' => go s' | _ => s end) (reverse s)).
Definition with_fraction (whole fraction : cstring) : cstring :=
  match drop_zeros fraction with [] => whole | f => whole ++ 46 :: f end.

(** Six digits with the leading one at 10^[x]. *)
Definition general_text (n x : Z) : cstring :=
  let ds := decimal n in
  if (-4 <=? x) && (x <? 6)
  then if 0 <=? x then with_fraction (take (Z.to_nat (x + 1)) ds) (drop (Z.to_nat (x + 1)) ds)
       else with_fraction [48] (replicate (Z.to_nat (- x - 1)) 48 ++ ds)
  else with_fraction (take 1 ds) (drop 1 ds) ++ [101; if x <? 0 then 45 else 43] ++ decimal_padded 2 (Z.abs x).
Definition print_general (d : double) : cstring :=
  match d with
  | S754_zero s => signed s [48]
  | S754_infinity s => signed s (cstr "inf")
  | S754_nan => cstr "nan"
  | S754_finite s m e =>
      let num := numerator m e in
      let den := denominator e in
      let x := decimal_exponent num den in
      let n := round_div (num * 10 ^ Z.max (5 - x) 0) (den * 10 ^ Z.max (x - 5) 0) in
      signed s (if n =? 1000000 then general_text 100000 (x + 1) else general_text n x)
  end.

(** [std::hex] of a 64-bit number. *)
Definition hex_char (v : Z) : Z := if v <? 10 then 48 + v else 87 + v.
Fixpoint hex_loop (fuel : nat) (v : Z) (acc : cstring) : cstring :=
  match fuel with
  | O => acc
  | S fuel =>
      let acc := hex_char (v mod 16) :: acc in
      if v <? 16 then acc else hex_loop fuel (v / 16) acc
  end.
Definition print_hex (v : Z) : cstring := hex_loop 16 v [].

Example general_numbers :
  print_general (double_of_Z 0) = cstr "0" /\ print_general (double_of_Z 1000) = cstr "1000" /\
  print_general (double_of_Z 999999) = cstr "999999" /\ print_general (double_of_Z 1234567) = cstr "1.23457e+06" /\
  print_general (double_div (double_of_Z 1) (double_of_Z 3)) = cstr "0.333333" /\
  print_general (double_div (double_of_Z 1) (double_of_Z 100000)) = cstr "1e-05" /\
  print_general (double_div (double_of_Z (-5)) (double_of_Z 2)) = cstr "-2.5" /\
  print_general (double_of_Z 9999995) = cstr "1e+07".
Proof. by vm_compute. Qed.

Example fixed_numbers :
  print_fixed 2 (double_div (double_of_Z 1) (double_of_Z 8)) = cstr "0.12" /\
  print_fixed 2 (double_div (double_of_Z 3) (double_of_Z 8)) = cstr "0.38" /\
  to_string_double (double_div (double_of_Z 1) (double_of_Z 10)) = cstr "0.100000" /\
  print_hex 48879 = cstr "beef" /\ print_hex 0 = cstr "0".
Proof. by vm_compute. Qed.

(** ** Digits *)

Lemma digits_loop_step f v acc : 10 <= v -> digits_loop (S f) v acc = digits_loop f (v / 10) ((48 + v mod 10) :: acc).
Proof. intros Hv. cbn [digits_loop]. by rewrite (proj2 (Z.ltb_ge _ _)). Qed.

Lemma digits_loop_last f v acc : 0 <= v < 10 -> digits_loop (S f) v acc = (48 + v) :: acc.
Proof. intros Hv. cbn [digits_loop]. rewrite (proj2 (Z.ltb_lt _ _)); [lia|]. by rewrite Z.mod_small. Qed.

Lemma div10_bound f v : 10 <= v < 10 ^ Z.of_nat (S f) -> 0 < v / 10 < 10 ^ Z.of_nat f.
Proof.
  rewrite Nat2Z.inj_succ Z.pow_succ_r; [lia|]. intros Hv. split; [|apply Z.div_lt_upper_bound; lia].
  pose proof (Z.div_le_mono 10 v 10 ltac:(lia) ltac:(lia)) as H. rewrite Z.div_same in H; lia.
Qed.

Lemma digits_loop_app f : forall v acc, digits_loop f v acc = digits_loop f v [] ++ acc.
Proof.
  induction f as [|f IH]; intros v acc; [done|]. cbn [digits_loop]. destruct (v <? 10); [done|].
  rewrite IH (IH _ [_]) -app_assoc. done.
Qed.

(** More fuel than digits changes nothing. *)
Lemma digits_loop_fuel f : forall g v acc,
  0 <= v < 10 ^ Z.of_nat f -> 0 <= v < 10 ^ Z.of_nat g -> (0 < f)%nat -> (0 < g)%nat -> digits_loop f v acc = digits_loop g v acc.
Proof.
  induction f as [|f IH]; intros g v acc Hf Hg H0 H1; [lia|]. destruct g as [|g]; [lia|].
  destruct (Z_lt_le_dec v 10) as [Hv|Hv]; [rewrite !digits_loop_last; [lia..|done]|]. rewrite !digits_loop_step //.
  pose proof (div10_bound f v ltac:(lia)). pose proof (div10_bound g v ltac:(lia)).
  assert (f <> 0 /\ g <> 0)%nat as [? ?] by (split; intros ->; simpl in *; lia). apply IH; lia.
Qed.

Lemma digits_loop_shift k : forall f n acc,
  0 < n -> digits_loop (k + f) (n * 10 ^ Z.of_nat k) acc = digits_loop f n (replicate k 48 ++ acc).
Proof.
  induction k as [|k IH]; intros f n acc Hn; [cbn [Nat.add replicate app]; f_equal; simpl; lia|].
  assert (0 < 10 ^ Z.of_nat k) by (apply Z.pow_pos_nonneg; lia).
  rewrite Nat2Z.inj_succ Z.pow_succ_r; [lia|]. replace (n * (10 * 10 ^ Z.of_nat k)) with (n * 10 ^ Z.of_nat k * 10) by lia.
  cbn [Nat.add]. rewrite digits_loop_step; [nia|]. rewrite Z.div_mul // Z.mod_mul // IH //.
  f_equal. rewrite replicate_S_end -app_assoc. done.
Qed.

Lemma digits_loop_length f : forall v acc,
  0 < v < 10 ^ Z.of_nat f ->
  exists k, length (digits_loop f v acc) = (S k + length acc)%nat /\ 10 ^ Z.of_nat k <= v < 10 ^ Z.of_nat (S k).
Proof.
  induction f as [|f IH]; intros v acc Hv; [simpl in Hv; lia|].
  destruct (Z_lt_le_dec v 10) as [Hlt|Hge].
  - exists 0%nat. rewrite digits_loop_last; [lia|]. split; [done|]. simpl. lia.
  - rewrite digits_loop_step //. destruct (IH (v / 10) ((48 + v mod 10) :: acc)) as (k & Hl & Hk).
    { apply div10_bound; lia. }
    exists (S k). split; [rewrite Hl; simpl; lia|].
    pose proof (Z.div_mod v 10 ltac:(lia)). pose proof (Z.mod_pos_bound v 10 ltac:(lia)).
    rewrite !Nat2Z.inj_succ !Z.pow_succ_r in Hk |- *; lia.
Qed.

Lemma drop_zeros_replicate k : drop_zeros (replicate k 48) = [].
Proof. unfold drop_zeros. rewrite reverse_replicate. by induction k as [|k IH]. Qed.

(** ** Rounding *)

Lemma round_div_exact n den : 0 < den -> round_div (n * den) den = n.
Proof.
  intros Hd. unfold round_div. rewrite Z.div_mul; [lia|]. rewrite Z.mod_mul; [lia|]. by rewrite (proj2 (Z.ltb_lt _ _)); [lia|].
Qed.

(** The nearest integer: the distance is at most a half. *)
Lemma round_div_nearest num den : 0 < den -> 2 * Z.abs (round_div num den * den - num) <= den.
Proof.
  intros Hd. unfold round_div. pose proof (Z.div_mod num den ltac:(lia)). pose proof (Z.mod_pos_bound num den Hd).
  set (q := num / den) in *. set (r := num mod den) in *.
  destruct (Z.ltb_spec (2 * r) den); [nia|]. destruct (Z.ltb_spec den (2 * r)); [nia|]. destruct (Z.even q); nia.
Qed.

(** ** Whole numbers *)

Lemma six_digits n f : n < 1000000 -> (6 <= f)%nat -> n < 10 ^ Z.of_nat f.
Proof.
  intros Hn Hf. pose proof (Z.pow_le_mono_r 10 6 (Z.of_nat f) ltac:(lia) ltac:(lia)) as H.
  change (10 ^ 6) with 1000000 in H. lia.
Qed.

(** A whole number of at most six digits is printed as its digits. *)
Lemma print_general_whole n : 0 <= n < 1000000 -> print_general (double_of_Z n) = print_u64 n.
Proof.
  intros Hn. destruct (decide (n = 0)) as [->|Hne]; [done|].
  destruct (double_of_small n) as (m & e & -> & He & Hm). { change (2 ^ 53) with 9007199254740992. lia. }
  assert (0 < 2 ^ (- e)) as Hp by (apply Z.pow_pos_nonneg; lia).
  cbn [print_general signed]. assert (numerator m e = n * 2 ^ (- e)) as ->.
  { unfold numerator. rewrite Z.max_r // Z.pow_0_r Hm. lia. }
  assert (denominator e = 2 ^ (- e)) as -> by (unfold denominator; rewrite Z.max_l; [lia|done]).
  pose proof (six_digits n 400 ltac:(lia) ltac:(lia)) as H400. pose proof (six_digits n 20 ltac:(lia) ltac:(lia)) as H20.
  destruct (digits_loop_length 400 n []) as (k & Hl & Hk); [lia|].
  change (digits_loop 400 n []) with (decimal n) in Hl. rewrite Nat.add_0_r in Hl.
  assert (k < 6)%nat as Hk6.
  { destruct (le_lt_dec 6 k) as [H6|]; [|done]. pose proof (Z.pow_le_mono_r 10 6 (Z.of_nat k) ltac:(lia) ltac:(lia)) as H.
    change (10 ^ 6) with 1000000 in H. lia. }
  assert (decimal_exponent (n * 2 ^ (- e)) (2 ^ (- e)) = Z.of_nat k) as ->.
  { unfold decimal_exponent. rewrite (proj2 (Z.leb_le _ _)); [nia|]. rewrite Z.div_mul ?Hl; lia. }
  rewrite (Z.max_l (5 - Z.of_nat k)) ?(Z.max_r (Z.of_nat k - 5)); [lia..|].
  rewrite Z.pow_0_r Z.mul_1_r -Z.mul_assoc (Z.mul_comm (2 ^ (- e))) Z.mul_assoc round_div_exact //.
  replace (5 - Z.of_nat k) with (Z.of_nat (5 - k)) by lia. set (j := (5 - k)%nat).
  assert (decimal (n * 10 ^ Z.of_nat j) = decimal n ++ replicate j 48) as Hd.
  { unfold decimal. replace 400%nat with (j + (400 - j))%nat at 1 by lia. rewrite digits_loop_shift; [lia|].
    rewrite app_nil_r digits_loop_app. f_equal. apply digits_loop_fuel; try lia. split; [lia|]. apply six_digits; lia. }
  assert (n * 10 ^ Z.of_nat j < 10 ^ 6) as Hlt.
  { replace (10 ^ 6) with (10 ^ Z.of_nat (S k) * 10 ^ Z.of_nat j).
    - apply Z.mul_lt_mono_pos_r; [apply Z.pow_pos_nonneg|]; lia.
    - rewrite -Z.pow_add_r; [lia..|]. f_equal. lia. }
  rewrite (proj2 (Z.eqb_neq _ _)); [change 1000000 with (10 ^ 6); lia|]. unfold general_text. cbn zeta. rewrite Hd.
  rewrite (proj2 (Z.leb_le (-4) _)) ?(proj2 (Z.ltb_lt _ 6)) ?(proj2 (Z.leb_le 0 _)); [lia..|]. cbn [andb].
  replace (Z.to_nat (Z.of_nat k + 1)) with (length (decimal n)) by lia.
  rewrite take_app_length drop_app_length. unfold with_fraction. rewrite drop_zeros_replicate.
  apply digits_loop_fuel; lia.
Qed.

(** ** Fixed precision *)

Lemma decimal_spec v : 0 <= v < 10 ^ 400 -> parse_digits (decimal v) = v /\ Forall is_digit (decimal v).
Proof.
  intros Hv. destruct (digits_loop_spec 400 v []) as (ds & E & Hp & Hd & _); [lia|exact Hv|].
  unfold decimal. by rewrite E app_nil_r.
Qed.

Lemma parse_zeros k s : parse_digits (replicate k 48 ++ s) = parse_digits s.
Proof. unfold parse_digits. rewrite foldl_app. f_equal. by induction k as [|k IH]. Qed.

Lemma decimal_length v p : 0 <= v < 10 ^ Z.of_nat p -> (0 < p)%nat -> (length (decimal v) <= p)%nat.
Proof.
  intros Hv Hp. destruct (decide (v = 0)) as [->|Hne]; [simpl; lia|].
  destruct (le_lt_dec p 400) as [Hp4|Hp4].
  - destruct (digits_loop_spec p v []) as (ds & E & _ & _ & Hl); [lia|lia|]. unfold decimal.
    rewrite (digits_loop_fuel 400 p); [|lia|lia|lia|by rewrite E app_nil_r; lia]. split; [lia|].
    eapply Z.lt_le_trans; [apply Hv|]. apply Z.pow_le_mono_r; lia.
  - enough (length (decimal v) <= 400)%nat by lia. unfold decimal.
    assert (forall f v acc, (length (digits_loop f v acc) <= f + length acc)%nat) as Hf.
    { induction f as [|f IH]; intros w acc; [done|]. cbn [digits_loop]. destruct (w <? 10); [simpl; lia|].
      etransitivity; [apply IH|]. simpl. lia. }
    etransitivity; [apply Hf|]. simpl. lia.
Qed.

(** The text of a fixed precision reads back as the rounded value: digits, a
    point, exactly [p] digits. *)
Lemma fixed_text_value p n :
  0 <= n < 10 ^ 400 -> (0 < p <= 400)%nat ->
  exists w f, fixed_text p n = w ++ 46 :: f /\ Forall is_digit w /\ Forall is_digit f /\ length f = p /\
    parse_digits w * 10 ^ Z.of_nat p + parse_digits f = n.
Proof.
  intros Hn Hp. unfold fixed_text. cbn zeta. rewrite (proj2 (Nat.eqb_neq p 0)); [lia|].
  pose proof (Z.pow_le_mono_r 10 (Z.of_nat p) 400 ltac:(lia) ltac:(lia)) as Hu4.
  pose proof decimal_spec as Hdec. revert Hn Hu4 Hdec. generalize (10 ^ 400) as B. intros B Hn Hu4 Hdec.
  assert (0 < 10 ^ Z.of_nat p) as Hu by (apply Z.pow_pos_nonneg; lia).
  pose proof (Z.div_mod n (10 ^ Z.of_nat p) ltac:(lia)) as Hdm. pose proof (Z.mod_pos_bound n _ Hu) as Hm.
  assert (0 <= n / 10 ^ Z.of_nat p < B) as Hq.
  { split; [apply Z.div_pos; lia|]. apply Z.div_lt_upper_bound; nia. }
  assert (0 <= n mod 10 ^ Z.of_nat p < B) as Hr by lia.
  destruct (Hdec _ Hq) as [Eq Dq], (Hdec _ Hr) as [Er Dr].
  exists (decimal (n / 10 ^ Z.of_nat p)), (decimal_padded p (n mod 10 ^ Z.of_nat p)). split; [reflexivity|]. split; [exact Dq|].
  pose proof (decimal_length _ p Hm ltac:(lia)) as Hl. unfold decimal_padded. split; [|split].
  - apply Forall_app. split; [|exact Dr]. apply Forall_replicate. unfold is_digit. lia.
  - rewrite length_app length_replicate. lia.
  - transitivity (parse_digits (decimal (n / 10 ^ Z.of_nat p)) * 10 ^ Z.of_nat p + parse_digits (decimal (n mod 10 ^ Z.of_nat p))).
    + f_equal. exact (parse_zeros (p - length (decimal (n mod 10 ^ Z.of_nat p))) (decimal (n mod 10 ^ Z.of_nat p))).
    + revert Eq Er. generalize (parse_digits (decimal (n / 10 ^ Z.of_nat p))), (parse_digits (decimal (n mod 10 ^ Z.of_nat p))).
      intros a b -> ->. lia.
Qed.

(** ** Hexadecimal *)

Definition hex_value (c : Z) : Z := if c <? 58 then c - 48 else c - 87.
Definition parse_hex (s : cstring) : Z := foldl (fun v c => 16 * v + hex_value c) 0 s.

Lemma hex_value_char v : 0 <= v < 16 -> hex_value (hex_char v) = v.
Proof.
  intros Hv. unfold hex_value, hex_char. destruct (Z.ltb_spec v 10).
  - rewrite (proj2 (Z.ltb_lt _ _)); lia.
  - rewrite (proj2 (Z.ltb_ge _ _)); lia.
Qed.

Lemma hex_loop_spec f : forall v acc,
  (0 < f)%nat -> 0 <= v < 16 ^ Z.of_nat f -> exists ds, hex_loop f v acc = ds ++ acc /\ parse_hex ds = v /\ ds <> [].
Proof.
  induction f as [|f IH]; [lia|]. intros v acc _ Hv. cbn [hex_loop].
  pose proof (Z.mod_pos_bound v 16 ltac:(lia)) as Hm. pose proof (Z.div_mod v 16 ltac:(lia)) as Hd.
  destruct (Z.ltb_spec v 16) as [Hlt|Hge].
  - exists [hex_char (v mod 16)]. split; [done|]. split; [|done]. unfold parse_hex. cbn [foldl]. rewrite hex_value_char //.
    rewrite Z.mod_small; lia.
  - destruct f as [|f]; [change (16 ^ Z.of_nat 1) with 16 in Hv; lia|].
    destruct (IH (v / 16) (hex_char (v mod 16) :: acc)) as (ds & -> & Hp & _); [lia| |].
    { rewrite (Nat2Z.inj_succ (S f)) Z.pow_succ_r in Hv; [lia|]. split; [lia|]. apply Z.div_lt_upper_bound; lia. }
    exists (ds ++ [hex_char (v mod 16)]). rewrite -app_assoc. split; [done|]. split; [|by destruct ds].
    unfold parse_hex in *. rewrite foldl_app Hp. cbn [foldl]. rewrite hex_value_char //.
Qed.

Lemma print_hex_spec v : u64 v -> parse_hex (print_hex v) = v /\ print_hex v <> [].
Proof.
  intros Hv. destruct (hex_loop_spec 16 v [] ltac:(lia)) as (ds & E & H).
  { change (16 ^ Z.of_nat 16) with (2 ^ 64). exact Hv. }
  unfold print_hex. by rewrite E app_nil_r.
Qed.
