(* ===== verification/InputValidation.v ===== *)
(** * Input validation (input_validation.hpp, input_validation.cpp, config.hpp)

    Validators of message headers, payload sizes and message fields; the
    configuration validator; field validators and sanitizers over C++ strings
    (lists of bytes); and the rule chain.  Character classes are those of the
    "C" locale, where only ASCII letters and digits are alphanumeric; [char] is
    signed, so a byte of 128 or more compares below 0x20.

    Sanitizing a message writes into a [BoundedString]: the outcome says whether
    that assignment returns or throws. *)

From Stdlib Require Import SpecFloat.
From S2P Require Import Prelude Types ErrorHandling Double MemoryPool RiskManager MemorySafety Protocol.

Inductive ValidationError :=
| INVALID_MESSAGE_TYPE | INVALID_MESSAGE_SIZE | INVALID_FIELD_VALUE | INVALID_FIELD_FORMAT
| INVALID_FIELD_RANGE | MISSING_REQUIRED_FIELD | VE_INVALID_CONFIGURATION | SCHEMA_VIOLATION.

Definition ValidationError_int (e : ValidationError) : Z :=
  match e with
  | INVALID_MESSAGE_TYPE => 6000 | INVALID_MESSAGE_SIZE => 6001 | INVALID_FIELD_VALUE => 6002
  | INVALID_FIELD_FORMAT => 6003 | INVALID_FIELD_RANGE => 6004 | MISSING_REQUIRED_FIELD => 6005
  | VE_INVALID_CONFIGURATION => 6006 | SCHEMA_VIOLATION => 6007
  end.

(** [make_error_code(ValidationError)], in its own category. *)
Definition verr {A} (e : ValidationError) : Result A :=
  Error (mk_error (ValidationError_int e) validation_category).

(** ** Characters *)

Definition isdigit (c : Z) : bool := (48 <=? c) && (c <=? 57).
Definition isupper (c : Z) : bool := (65 <=? c) && (c <=? 90).
Definition islower (c : Z) : bool := (97 <=? c) && (c <=? 122).
Definition isalnum (c : Z) : bool := isdigit c || isupper c || islower c.
Definition isspace (c : Z) : bool := (c =? 32) || ((9 <=? c) && (c <=? 13)).
Definition toupper (c : Z) : Z := if islower c then c - 32 else c.
(** A byte read as a signed [char]. *)
Definition schar (c : Z) : Z := if c <? 128 then c else c - 256.

(** ** FieldValidators *)

Module FieldValidators.

(** The loop of [sanitize_symbol] and [sanitize_client_id]: keep what [keep]
    admits, mapped by [f], until [limit] characters are collected. *)
Fixpoint collect (keep : Z -> bool) (f : Z -> Z) (limit : nat) (s result : cstring) : cstring :=
  match s with
  | [] => result
  | c :: rest =>
      let result := if keep c then result ++ [f c] else result in
      if (limit <=? length result)%nat then result else collect keep f limit rest result
  end.

Definition sanitize_symbol (symbol : cstring) : cstring := collect isalnum toupper 8 symbol [].
Definition sanitize_client_id (client_id : cstring) : cstring :=
  collect (fun c => isalnum c || (c =? 95) || (c =? 45)) (fun c => c) 32 client_id [].

(** Here the bound is tested before the character is added. *)
Fixpoint sanitize_loop (input : cstring) (max_length : nat) (result : cstring) : cstring :=
  match input with
  | [] => result
  | c :: rest =>
      if (max_length <=? length result)%nat then result
      else sanitize_loop rest max_length
        (result ++ [if (c =? 10) || (c =? 13) || (c =? 9) then 95 else c])
  end.
Definition sanitize_string (input : cstring) (max_length : nat) : cstring := sanitize_loop input max_length [].

Definition length_rule (min_len max_len : nat) (value : cstring) : bool :=
  (min_len <=? length value)%nat && (length value <=? max_len)%nat.
Definition symbol_rule (value : cstring) : bool :=
  negb (bool_decide (value = []) || (8 <? length value)%nat) &&
  forallb (fun c => isalnum c && isupper c) value.
Definition alphanumeric_rule (value : cstring) : bool :=
  negb (bool_decide (value = [])) && forallb isalnum value.

Definition validate_port_range (port : Z) : bool := (1024 <=? port) && (port <=? 65535).
Definition validate_percentage (value : double) : bool :=
  double_le (double_of_Z 0) value && double_le value (double_of_Z 100).
Definition validate_price_quantity_relationship (price : Price) (quantity : Quantity) : bool := 0 <? quantity.

End FieldValidators.

(** ** InputSanitizer *)

Module InputSanitizer.

Definition DANGEROUS_CHARS : list Z :=
  [59; 124; 38; 36; 96; 40; 41; 123; 125; 91; 93; 60; 62; 34; 39].
Definition CONTROL_CHARS : list Z :=
  [0; 1; 2; 3; 4; 5; 6; 7; 8; 11; 12; 14; 15; 16; 17; 18; 19; 20; 21; 22; 23; 24; 25; 26; 27; 28; 29; 30; 31; 127].

Definition contains (c : Z) (set : list Z) : bool := existsb (Z.eqb c) set.

Definition kept (c : Z) : bool :=
  negb (contains c CONTROL_CHARS) && ((32 <=? schar c) || (c =? 9) || (c =? 10) || (c =? 13)).
Definition remove_control_chars (input : cstring) : cstring := filter (fun c => kept c = true) input.

Fixpoint escape_special_chars (input : cstring) : cstring :=
  match input with
  | [] => []
  | c :: rest => (if contains c DANGEROUS_CHARS then [92; c] else [c]) ++ escape_special_chars rest
  end.

(** Runs of white space become one space. *)
Fixpoint squeeze (prev_space : bool) (input : cstring) : cstring :=
  match input with
  | [] => []
  | c :: rest =>
      if isspace c then (if prev_space then squeeze true rest else 32 :: squeeze true rest)
      else c :: squeeze false rest
  end.

Definition strip_front (s : cstring) : cstring :=
  match s with c :: rest => if c =? 32 then rest else s | [] => s end.
Definition strip_back (s : cstring) : cstring :=
  match last s with Some c => if c =? 32 then take (length s - 1) s else s | None => s end.
Definition normalize_whitespace (input : cstring) : cstring := strip_back (strip_front (squeeze false input)).

Definition sanitize_network_input (input : cstring) : cstring :=
  if bool_decide (input = []) || (8192 <? Z.of_nat (length input)) then []
  else normalize_whitespace (escape_special_chars (remove_control_chars input)).
Definition sanitize_config_value (value : cstring) : cstring := sanitize_network_input value.
Definition sanitize_log_input (input : cstring) : cstring := remove_control_chars input.

End InputSanitizer.

(** ** MessageValidator *)

Module MessageValidator.

Definition VALID_MESSAGE_TYPES : list Z := [NEW_ORDER; CANCEL_ORDER; ORDER_ACK; TRADE_REPORT; HEARTBEAT].

Definition is_valid_message_type (type : Z) : bool := existsb (Z.eqb type) VALID_MESSAGE_TYPES.

(** [sizeof] of the struct of a message type. *)
Definition message_size (type : Z) : option nat :=
  if type =? NEW_ORDER then Some sizeof_NewOrderMessage
  else if type =? CANCEL_ORDER then Some sizeof_CancelOrderMessage
  else if type =? ORDER_ACK then Some sizeof_OrderAckMessage
  else if type =? TRADE_REPORT then Some sizeof_TradeMessage
  else if type =? HEARTBEAT then Some sizeof_HeartbeatMessage
  else None.

Definition is_valid_message_size (size type : Z) : bool :=
  if (size <? Z.of_nat sizeof_header) || (8192 <? size) then false
  else match message_size type with
  | Some expected => size =? Z.of_nat expected
  | None => false
  end.

Definition validate_message_header (header : MessageHeader) : Result unit :=
  if negb (is_valid_message_type (h_type header)) then verr INVALID_MESSAGE_TYPE
  else if negb (is_valid_message_size (h_length header) (h_type header)) then verr INVALID_MESSAGE_SIZE
  else if h_sequence header =? 0 then verr INVALID_FIELD_VALUE
  else Value tt.

(** [null]: whether the payload pointer is null. *)
Definition validate_message_payload (null : bool) (length type : Z) : Result unit :=
  if null && (0 <? length) then verr INVALID_FIELD_VALUE
  else match message_size type with
  | None => verr INVALID_MESSAGE_TYPE
  | Some size =>
      if negb (length =? Z.of_nat (size - sizeof_header)) then verr INVALID_MESSAGE_SIZE else Value tt
  end.

Definition set_symbol (s : BoundedString.t) (m : NewOrderMessage) : NewOrderMessage :=
  mkNewOrder (no_header m) (no_order_id m) (no_client_id m) s (no_side m) (no_quantity m) (no_price m)
    (no_order_type m).

(** The characters behind [c_str()]; reading past the array is undefined. *)
Definition c_str (s : BoundedString.t) : outcome cstring :=
  if existsb (Z.eqb 0) (BoundedString.data_ s) then Done (until_nul (BoundedString.data_ s)) else Undefined.

Definition sanitize_new_order (message : NewOrderMessage) : outcome (Result unit * NewOrderMessage) :=
  if no_order_id message =? 0 then Done (verr INVALID_FIELD_VALUE, message)
  else
    let! text := c_str (no_symbol message) in
    let symbol_str := FieldValidators.sanitize_symbol text in
    if bool_decide (symbol_str = []) || (7 <? length symbol_str)%nat
    then Done (verr INVALID_FIELD_FORMAT, message)
    else
      let! s := BoundedString.assign 8 (Some symbol_str) (no_symbol message) in
      let message := set_symbol s message in
      if negb (no_side message =? 1) && negb (no_side message =? 2)
      then Done (verr INVALID_FIELD_VALUE, message)
      else if (no_quantity message =? 0) || (1000000 <? no_quantity message)
      then Done (verr INVALID_FIELD_RANGE, message)
      else if (no_order_type message =? 2) && (no_price message =? 0)
      then Done (verr INVALID_FIELD_VALUE, message)
      else if negb (no_order_type message =? 1) && negb (no_order_type message =? 2)
      then Done (verr INVALID_FIELD_VALUE, message)
      else Done (Value tt, message).

Definition sanitize_cancel_order (message : CancelOrderMessage) : outcome (Result unit * CancelOrderMessage) :=
  if co_order_id message =? 0 then Done (verr INVALID_FIELD_VALUE, message)
  else
    let! text := c_str (co_symbol message) in
    let symbol_str := FieldValidators.sanitize_symbol text in
    if bool_decide (symbol_str = []) then Done (verr INVALID_FIELD_FORMAT, message)
    else
      let! s := BoundedString.assign 8 (Some symbol_str) (co_symbol message) in
      Done (Value tt, mkCancelOrder (co_header message) (co_order_id message) (co_client_id message) s).

Definition sanitize_order_ack (message : OrderAckMessage) : outcome (Result unit * OrderAckMessage) :=
  if oa_order_id message =? 0 then Done (verr INVALID_FIELD_VALUE, message)
  else if (oa_status message =? 0) || (2 <? oa_status message) then Done (verr INVALID_FIELD_VALUE, message)
  else
    let! text := c_str (oa_reason message) in
    let! s := BoundedString.assign 32 (Some (InputSanitizer.sanitize_network_input text)) (oa_reason message) in
    Done (Value tt, mkOrderAck (oa_header message) (oa_order_id message) (oa_status message) s).

End MessageValidator.

(** ** Configuration *)

Record ExchangeConfig := mkExchangeConfig {
  ec_name : cstring;
  tcp_port : Z;
  udp_multicast_group : cstring;
  udp_port : Z;
  metrics_port : Z
}.

Record PerformanceConfig := mkPerformanceConfig {
  order_pool_size : Z;
  queue_capacity : Z;
  enable_cpu_pinning : bool;
  tcp_nodelay : bool;
  udp_buffer_size : Z;
  market_data_queue_size : Z
}.

(** The logging and persistence sections are not validated. *)
Record Config := mkConfig {
  exchange : ExchangeConfig;
  symbols : list SymbolConfig;
  risk : RiskConfig;
  performance : PerformanceConfig
}.

Module ConfigurationValidator.

Definition validate_config_schema (config : Config) : Result unit :=
  if bool_decide (ec_name (exchange config) = []) then verr MISSING_REQUIRED_FIELD
  else if bool_decide (symbols config = []) then verr MISSING_REQUIRED_FIELD
  else Value tt.

Definition validate_exchange_config (config : ExchangeConfig) : Result unit :=
  if negb (FieldValidators.validate_port_range (tcp_port config))
     || negb (FieldValidators.validate_port_range (udp_port config))
     || negb (FieldValidators.validate_port_range (metrics_port config))
  then verr INVALID_FIELD_RANGE
  else if bool_decide (udp_multicast_group config = []) || negb (existsb (Z.eqb 46) (udp_multicast_group config))
  then verr INVALID_FIELD_FORMAT
  else Value tt.

Definition validate_risk_config (config : RiskConfig) : Result unit :=
  if (max_order_size config =? 0) || (10000000 <? max_order_size config) then verr INVALID_FIELD_RANGE
  else if double_le (max_notional_per_client config) (double_of_Z 0) then verr INVALID_FIELD_VALUE
  else if (max_orders_per_second config =? 0) || (100000 <? max_orders_per_second config)
  then verr INVALID_FIELD_RANGE
  else Value tt.

Definition validate_performance_config (config : PerformanceConfig) : Result unit :=
  if (order_pool_size config =? 0) || (10000000 <? order_pool_size config) then verr INVALID_FIELD_RANGE
  else if (queue_capacity config =? 0) || (1000000 <? queue_capacity config) then verr INVALID_FIELD_RANGE
  else Value tt.

Fixpoint validate_symbols (seen : list cstring) (syms : list SymbolConfig) : Result unit :=
  match syms with
  | [] => Value tt
  | s :: rest =>
      if bool_decide (sc_symbol s = []) || (8 <? length (sc_symbol s))%nat then verr INVALID_FIELD_FORMAT
      else if bool_decide (sc_symbol s ∈ seen) then verr VE_INVALID_CONFIGURATION
      else if double_le (tick_size s) (double_of_Z 0) || (lot_size s =? 0) then verr INVALID_FIELD_VALUE
      else if negb (FieldValidators.validate_percentage (price_collar_pct s)) then verr INVALID_FIELD_RANGE
      else validate_symbols (sc_symbol s :: seen) rest
  end.
Definition validate_symbol_configs (syms : list SymbolConfig) : Result unit := validate_symbols [] syms.

Definition then_ (r next : Result unit) : Result unit := if has_error r then r else next.

Definition validate_config_values (config : Config) : Result unit :=
  then_ (validate_exchange_config (exchange config))
    (then_ (validate_risk_config (risk config))
       (then_ (validate_performance_config (performance config)) (validate_symbol_configs (symbols config)))).

Definition validate_config_dependencies (config : Config) : Result unit :=
  let e := exchange config in
  if (tcp_port e =? udp_port e) || (tcp_port e =? metrics_port e) || (udp_port e =? metrics_port e)
  then verr VE_INVALID_CONFIGURATION else Value tt.

Definition validate_full_config (config : Config) : Result unit :=
  then_ (validate_config_schema config)
    (then_ (validate_config_values config) (validate_config_dependencies config)).

End ConfigurationValidator.

(** ** ValidationChain *)

Module ValidationChain.

Record ValidationRule := mkRule { validator : cstring -> bool; error_message : cstring }.

(** [rules_] in the order its iteration visits the fields. *)
Record t := mk {
  rules_ : list (cstring * list ValidationRule);
  custom_validators_ : list (Result unit)
}.

Fixpoint add_to (field : cstring) (rule : ValidationRule) (rules : list (cstring * list ValidationRule))
    : list (cstring * list ValidationRule) :=
  match rules with
  | [] => [(field, [rule])]
  | (f, rs) :: rest => if decide (f = field) then (f, rs ++ [rule]) :: rest else (f, rs) :: add_to field rule rest
  end.

Definition add_rule (field : cstring) (rule : ValidationRule) (c : t) : t :=
  mk (add_to field rule (rules_ c)) (custom_validators_ c).
Definition add_custom_validator (result : Result unit) (c : t) : t :=
  mk (rules_ c) (custom_validators_ c ++ [result]).
Definition clear (c : t) : t := mk [] [].

Fixpoint check_rules (rules : list (cstring * list ValidationRule)) (fields : gmap cstring cstring) : Result unit :=
  match rules with
  | [] => Value tt
  | (f, rs) :: rest =>
      match fields !! f with
      | None => verr MISSING_REQUIRED_FIELD
      | Some value =>
          if forallb (fun r => validator r value) rs then check_rules rest fields else verr INVALID_FIELD_VALUE
      end
  end.

(** The first custom validator that reports an error. *)
Fixpoint check_custom (results : list (Result unit)) : Result unit :=
  match results with
  | [] => Value tt
  | r :: rest => if has_error r then r else check_custom rest
  end.

Definition validate (fields : gmap cstring cstring) (c : t) : Result unit :=
  match check_rules (rules_ c) fields with
  | Value _ => check_custom (custom_validators_ c)
  | Error e => Error e
  end.

Definition validate_early_reject (c : t) : Result unit := validate ∅ c.

End ValidationChain.

(** ** Sanitized symbols *)

Section collect.
Import FieldValidators.

(** The bounded loop is the filtered, mapped string cut to the limit. *)
Lemma collect_spec keep f limit s result :
  (length result < limit)%nat ->
  collect keep f limit s result = take limit (result ++ map f (filter (fun c => keep c = true) s)).
Proof.
  revert result. induction s as [|c s IH]; intros result Hl; cbn [collect].
  { rewrite app_nil_r take_ge; [lia|done]. }
  destruct (keep c) eqn:Hk.
  - rewrite filter_cons_True; [done|]. cbn [map].
    destruct (Nat.leb_spec limit (length (result ++ [f c]))) as [Hfull|Hroom].
    + assert (length (result ++ [f c]) = limit) as Hn by (rewrite length_app /= in Hfull |- *; lia).
      rewrite -Hn (cons_middle (f c) result (map f _)) app_assoc. by rewrite take_app_length.
    + rewrite IH; [done|]. by rewrite -app_assoc.
  - rewrite filter_cons_False; [congruence|]. destruct (Nat.leb_spec limit (length result)); [lia|]. by apply IH.
Qed.

Lemma sanitize_symbol_spec s :
  sanitize_symbol s = take 8 (map toupper (filter (fun c => isalnum c = true) s)).
Proof. unfold sanitize_symbol. rewrite collect_spec; [simpl; lia|done]. Qed.

(** Characters of a sanitized symbol are upper-case letters or digits. *)
Lemma sanitize_symbol_chars s : Forall (fun c => isupper c = true \/ isdigit c = true) (sanitize_symbol s).
Proof.
  rewrite sanitize_symbol_spec. apply Forall_take, Forall_map. apply Forall_forall. intros c Hc.
  apply list_elem_of_filter in Hc as [Hc _]. unfold toupper, isalnum in *.
  destruct (islower c) eqn:El.
  - left. unfold islower, isupper in *. apply andb_true_iff in El. apply andb_true_iff. lia.
  - destruct (isdigit c); [by right|]. destruct (isupper c); [by left|done].
Qed.

End collect.

Lemma until_nul_terminated s : BoundedString.wf 8 s ->
  MessageValidator.c_str s = Done (until_nul (BoundedString.data_ s)).
Proof.
  intros (Hl & Hr & H0). unfold MessageValidator.c_str.
  assert (existsb (Z.eqb 0) (BoundedString.data_ s) = true) as ->; [|done].
  apply existsb_exists. exists 0. split; [|done]. apply list_elem_of_In, list_elem_of_lookup. by eexists.
Qed.

(** Field sanitizing of a new-order message whose symbol is a terminated
    string always returns, with a verdict.  When the verdict is success, the
    message names an order, its side and type bytes are those of an enumerator
    (so the casts the gateway applies to them are defined), its quantity is
    between 1 and 1000000, a limit order has a price, and its symbol has been
    replaced by its 1 to 7 letters and digits in upper case. *)
Theorem sanitized_order_valid m :
  BoundedString.wf 8 (no_symbol m) -> 0 <= no_quantity m ->
  exists r m', MessageValidator.sanitize_new_order m = Done (r, m') /\
    (r = Value tt ->
     no_order_id m' <> 0 /\ 1 <= no_quantity m' <= 1000000 /\
     Side_of_byte (no_side m') ∈ [BUY; SELL] /\ OrderType_of_byte (no_order_type m') ∈ [MARKET; LIMIT] /\
     (OrderType_of_byte (no_order_type m') = LIMIT -> no_price m' <> 0) /\
     exists sym, BoundedString.wf 8 (no_symbol m') /\ BoundedString.view (no_symbol m') = Done sym /\
       sym = FieldValidators.sanitize_symbol (until_nul (BoundedString.data_ (no_symbol m))) /\
       (1 <= length sym <= 7)%nat /\ Forall (fun c => isupper c = true \/ isdigit c = true) sym).
Proof.
  intros Hw Hq. unfold MessageValidator.sanitize_new_order. rewrite until_nul_terminated; [done|].
  destruct (Z.eqb_spec (no_order_id m) 0); [by do 2 eexists|]. cbn [omap_outcome].
  pose proof (sanitize_symbol_chars (until_nul (BoundedString.data_ (no_symbol m)))) as Hc.
  set (sym := FieldValidators.sanitize_symbol _) in *.
  destruct (bool_decide_reflect (sym = [])) as [|Hne]; [by do 2 eexists|].
  destruct (Nat.ltb_spec 7 (length sym)) as [|Hl]; cbn [orb]; [by do 2 eexists|].
  destruct (BoundedStringFacts.assign_done 8 sym (no_symbol m)) as (s' & Et & Hw' & Hv); [done|lia|].
  rewrite Et.
  cbn [omap_outcome no_side no_quantity no_order_type no_price MessageValidator.set_symbol].
  destruct (_ && _) eqn:E1; [by do 2 eexists|]. destruct (_ || _) eqn:E2; [by do 2 eexists|].
  destruct ((no_order_type m =? 2) && _) eqn:E3; [by do 2 eexists|].
  destruct (negb (no_order_type m =? 1) && _) eqn:E4; [by do 2 eexists|].
  do 2 eexists. split; [done|]. intros _. cbn. unfold Side_of_byte, OrderType_of_byte.
  split; [done|]. split; [zbool; simpl in *; try done; lia|].
  split; [zbool; simpl in *; try done; set_solver|]. split; [zbool; simpl in *; try done; set_solver|].
  split; [zbool; simpl in *; try done; lia|].
  exists sym. split_and!; try done. destruct sym; [done|simpl; lia].
Qed.

Lemma sanitized_order_valid_witness :
  exists m', MessageValidator.sanitize_new_order
    (mkNewOrder (mkHeader 1 110 1 1 0) 42 (BoundedString.init 32)
       (BoundedString.mk ([97; 45; 98] ++ replicate 5 0) 3) 1 10 1000000 2) = Done (Value tt, m') /\
    BoundedString.view (no_symbol m') = Done [65; 66].
Proof.
  destruct (sanitized_order_valid (mkNewOrder (mkHeader 1 110 1 1 0) 42 (BoundedString.init 32)
       (BoundedString.mk ([97; 45; 98] ++ replicate 5 0) 3) 1 10 1000000 2)) as (r & m' & H & Hok).
  { split; [reflexivity|split; [simpl; lia|reflexivity]]. }
  { simpl; lia. }
  injection H as <- <-. eexists. split; [reflexivity|].
  destruct (Hok eq_refl) as (_ & _ & _ & _ & _ & sym & _ & Hv & Hs & _). rewrite Hv Hs. reflexivity.
Defined.

(** Sanitizing an acknowledgement escapes its reason, and the escaped text may
    no longer fit the field: sixteen semicolons already make [assign] throw. *)
Theorem sanitized_ack_throws h order_id :
  order_id <> 0 ->
  MessageValidator.sanitize_order_ack
    (mkOrderAck h order_id 1 (BoundedString.mk (replicate 16 59 ++ replicate 16 0) 16))
    = Throws "String length exceeds max".
Proof.
  intros Hid. unfold MessageValidator.sanitize_order_ack. cbn [oa_order_id oa_status oa_reason].
  rewrite (proj2 (Z.eqb_neq _ _)); [done|]. reflexivity.
Qed.

(** ** Clean text *)

Section clean.
Import InputSanitizer.

Definition printable (c : Z) : Prop := 32 <= c <= 126.

Lemma kept_range c : u8 c -> kept c = true -> printable c \/ isspace c = true.
Proof.
  intros Hc Hk. unfold kept in Hk. apply andb_true_iff in Hk as [Hn Hk].
  unfold printable, isspace, schar in *. change (2 ^ 8) with 256 in Hc. unfold is_u in Hc.
  assert (c <> 127) by (intros ->; discriminate Hn).
  destruct (Z.ltb_spec c 128); repeat rewrite orb_true_iff in Hk; rewrite !Z.eqb_eq Z.leb_le in Hk;
    rewrite orb_true_iff andb_true_iff Z.eqb_eq !Z.leb_le; u_lia.
Qed.

Lemma escape_forall (Q : Z -> Prop) s : Q 92 -> Forall Q s -> Forall Q (escape_special_chars s).
Proof.
  intros H92. induction 1 as [|c s Hc Hs IH]; cbn [escape_special_chars]; [done|].
  destruct (contains _ _); simpl; repeat constructor; done.
Qed.

(** No two spaces in a row, none first when one precedes. *)
Fixpoint single_spaced (prev : bool) (s : cstring) : Prop :=
  match s with
  | [] => True
  | c :: rest => printable c /\ (c = 32 -> prev = false) /\ single_spaced (c =? 32) rest
  end.

Lemma squeeze_single prev s :
  Forall (fun c => printable c \/ isspace c = true) s -> single_spaced prev (squeeze prev s).
Proof.
  intros Hs. revert prev. induction Hs as [|c s Hc Hs IH]; intros prev; cbn [squeeze]; [done|].
  destruct (isspace c) eqn:E.
  - destruct prev; [apply IH|]. cbn [single_spaced]. split; [unfold printable; lia|]. split; [done|]. apply IH.
  - destruct Hc as [Hc|]; [|done]. assert (c <> 32) as Hne by (intros ->; discriminate E).
    cbn [single_spaced]. split; [done|]. split; [done|]. rewrite (proj2 (Z.eqb_neq _ _)); [done|]. apply IH.
Qed.

Lemma single_spaced_weaken s : single_spaced true s -> single_spaced false s.
Proof. destruct s as [|c s]; [done|]. intros (? & ? & ?). by split. Qed.

Lemma single_spaced_app prev a b : single_spaced prev (a ++ b) -> single_spaced prev a.
Proof.
  revert prev. induction a as [|c a IH]; intros prev; [done|]. intros (Hp & Hq & Hr).
  split; [done|]. split; [done|]. by apply IH.
Qed.

Lemma strip_front_clean s :
  single_spaced false s -> single_spaced false (strip_front s) /\ head (strip_front s) <> Some 32.
Proof.
  destruct s as [|c s]; [done|]. intros (Hp & _ & Hr). destruct (decide (c = 32)) as [->|Hne].
  - change (strip_front (32 :: s)) with s. rewrite Z.eqb_refl in Hr. split; [by apply single_spaced_weaken|].
    destruct s as [|d s]; [done|]. destruct Hr as (_ & Hd & _). intros [= ->]. by specialize (Hd eq_refl).
  - unfold strip_front. rewrite (proj2 (Z.eqb_neq _ _)); [done|]. split; [by split|]. by intros [= ->].
Qed.

Lemma last_not_space prev a : single_spaced prev (a ++ [32]) -> last a <> Some 32.
Proof.
  revert prev. induction a as [|c a IH]; intros prev; [done|]. intros (_ & Hc & Hr).
  destruct a as [|d a]; [|by apply IH in Hr].
  simpl in *. intros [= ->]. destruct Hr as (_ & H & _). by specialize (H eq_refl).
Qed.

Lemma strip_back_clean s :
  single_spaced false s -> head s <> Some 32 ->
  single_spaced false (strip_back s) /\ head (strip_back s) <> Some 32 /\ last (strip_back s) <> Some 32.
Proof.
  intros Hs Hh. destruct s as [|c a _] using rev_ind; [done|].
  unfold strip_back. rewrite last_snoc. destruct (decide (c = 32)) as [->|Hne].
  - rewrite Z.eqb_refl length_app Nat.add_sub take_app_length. split; [by eapply single_spaced_app|].
    split; [by destruct a|by eapply last_not_space].
  - rewrite (proj2 (Z.eqb_neq _ _)); [done|]. rewrite last_snoc. split; [done|]. split; [done|].
    by intros [= ->].
Qed.

(** Text that comes through [sanitize_network_input] is printable ASCII, has
    single spaces between words and none at either end, whatever the bytes of
    the input were. *)
Theorem network_input_clean input :
  Forall (fun c => u8 c) input ->
  let s := sanitize_network_input input in
  single_spaced false s /\ head s <> Some 32 /\ last s <> Some 32.
Proof.
  intros Hb. cbn zeta. unfold sanitize_network_input. destruct (_ || _); [done|].
  assert (Forall (fun c => printable c \/ isspace c = true) (remove_control_chars input)) as Hk.
  { apply Forall_forall. intros c [Hc Hin]%list_elem_of_filter. apply kept_range; [|done].
    rewrite Forall_forall in Hb. by apply Hb. }
  apply escape_forall in Hk; [|left; unfold printable; lia].
  apply (squeeze_single false) in Hk. apply strip_front_clean in Hk as [H1 H2].
  by apply strip_back_clean.
Qed.

Lemma network_input_clean_witness :
  let s := sanitize_network_input [32; 9; 104; 200; 105; 32; 32; 59; 10] in
  single_spaced false s /\ head s <> Some 32 /\ last s <> Some 32.
Proof. apply (network_input_clean [32; 9; 104; 200; 105; 32; 32; 59; 10]). repeat constructor; u_lia. Defined.

End clean.

(** ** Percentages as integers *)

Lemma digits2_pos_bound m : Zpos m < 2 ^ Zpos (digits2_pos m).
Proof.
  induction m as [m IH|m IH|]; cbn [digits2_pos]; [| |done]; rewrite Pos2Z.inj_succ Z.pow_succ_r; lia.
Qed.

(** A stored double has at most 53 significant bits. *)
Lemma valid_mantissa s m e : valid_binary 53 1024 (S754_finite s m e) = true -> Zpos m < 2 ^ 53.
Proof.
  cbn [valid_binary]. unfold bounded, canonical_mantissa. intros [Hc _]%andb_true_iff.
  apply Z.eqb_eq in Hc. unfold fexp, emin in Hc.
  apply Z.lt_le_trans with (2 ^ Zpos (digits2_pos m)); [apply digits2_pos_bound|].
  apply Z.pow_le_mono_r; lia.
Qed.

Definition double_100_m : positive := 7036874417766400.

Lemma double_100 : double_of_Z 100 = S754_finite false double_100_m (-46).
Proof. reflexivity. Qed.

Lemma scaled_at_most_100 m e :
  Zpos m < 2 ^ 53 -> e < -46 \/ (e = -46 /\ Zpos m <= Zpos double_100_m) ->
  0 <= Zpos m / 2 ^ (- e) <= 100.
Proof.
  intros Hm He. assert (0 < 2 ^ (- e)) by (apply Z.pow_pos_nonneg; lia).
  split; [apply Z.div_pos; lia|]. apply Z.lt_succ_r, Z.div_lt_upper_bound; [done|].
  assert (2 ^ 46 * 2 ^ (- e - 46) = 2 ^ (- e)) as Hp by (rewrite -Z.pow_add_r; [lia|lia|]; f_equal; lia).
  assert (0 < 2 ^ (- e - 46)) by (apply Z.pow_pos_nonneg; lia).
  destruct He as [He|[-> Hle]].
  - assert (2 ^ 1 <= 2 ^ (- e - 46)) by (apply Z.pow_le_mono_r; lia).
    change (2 ^ 53) with (128 * 2 ^ 46) in Hm. nia.
  - unfold double_100_m in Hle. change (2 ^ (- -46)) with 70368744177664. lia.
Qed.

(** A percentage that passes validation truncates to an integer of [0, 100]. *)
Lemma percentage_trunc v :
  valid_binary 53 1024 v = true -> FieldValidators.validate_percentage v = true ->
  exists pct, trunc_u64 v = Some pct /\ 0 <= pct <= 100.
Proof.
  intros Hv. unfold FieldValidators.validate_percentage, double_le. rewrite double_100. intros [H0 H1]%andb_true_iff.
  destruct v as [s|s| |s m e]; [by exists 0|by destruct s|done|]. destruct s; [done|].
  apply valid_mantissa in Hv. unfold SFleb in H1. cbn [SFcompare] in H1.
  assert (e < -46 \/ (e = -46 /\ Zpos m <= Zpos double_100_m)) as He.
  { destruct (Z.compare_spec e (-46)) as [->|Hlt|Hgt]; [right|by left|done]. split; [done|].
    clear -H1. revert H1. generalize double_100_m. intros d H1.
    change (Pos.compare_cont Eq m d) with (m ?= d)%positive in H1.
    destruct (Pos.compare_spec m d); [subst; done|lia|done]. }
  pose proof (scaled_at_most_100 m e Hv He) as Hb.
  unfold trunc_u64. destruct (Z.leb_spec 0 e); [lia|]. cbn zeta.
  destruct (Z.ltb_spec (Zpos m / 2 ^ (- e)) (2 ^ 64)) as [_|Hbad]; [by eexists|].
  change (2 ^ 64) with 18446744073709551616 in Hbad. lia.
Qed.

(** ** A validated configuration *)

Lemma then_ok r next : ConfigurationValidator.then_ r next = Value tt <-> r = Value tt /\ next = Value tt.
Proof. destruct r as [[]|e]; cbn; naive_solver. Qed.

Lemma validated_pool c :
  has_error (ConfigurationValidator.validate_full_config c) = false ->
  order_pool_size (performance c) <> 0 /\ order_pool_size (performance c) <= 10000000.
Proof.
  intros He. assert (ConfigurationValidator.validate_full_config c = Value tt) as Hv.
  { by destruct (ConfigurationValidator.validate_full_config c) as [[]|]. }
  apply then_ok in Hv as [_ [Hv _]%then_ok]. unfold ConfigurationValidator.validate_config_values in Hv.
  apply then_ok in Hv as [_ [_ [Hf _]%then_ok]%then_ok]. unfold ConfigurationValidator.validate_performance_config in Hf.
  destruct ((order_pool_size _ =? 0) || _) eqn:E; [done|]. rewrite orb_false_iff Z.eqb_neq Z.ltb_ge in E. done.
Qed.

(** What the validator requires of one symbol. *)
Definition symbol_ok (s : SymbolConfig) : Prop :=
  (1 <= length (sc_symbol s) <= 8)%nat /\ lot_size s <> 0 /\
  FieldValidators.validate_percentage (price_collar_pct s) = true.

Lemma validate_symbols_ok seen syms :
  ConfigurationValidator.validate_symbols seen syms = Value tt ->
  Forall symbol_ok syms /\ NoDup (sc_symbol <$> syms) /\ Forall (fun s => sc_symbol s ∉ seen) syms.
Proof.
  revert seen. induction syms as [|s syms IH]; intros seen; cbn [ConfigurationValidator.validate_symbols].
  { intros _. split; [constructor|]. split; constructor. }
  destruct (bool_decide_reflect (sc_symbol s = [])) as [|Hne]; [done|].
  destruct (Nat.ltb_spec 8 (length (sc_symbol s))) as [|Hl]; cbn [orb]; [done|].
  destruct (bool_decide_reflect (sc_symbol s ∈ seen)) as [|Hns]; [done|].
  destruct (_ || _) eqn:E1; [done|]. destruct (negb _) eqn:E2; [done|]. intros (Hf & Hnd & Hs)%IH.
  split_and!.
  - constructor; [|done]. split; [destruct (sc_symbol s); [done|simpl in *; lia]|].
    split; [intros H0; rewrite H0 orb_true_r in E1; done|by apply negb_false_iff].
  - cbn. constructor; [|done]. intros (x & Hx & Hin)%list_elem_of_fmap.
    rewrite Forall_forall in Hs. apply (Hs x Hin). rewrite -Hx. set_solver.
  - constructor; [done|]. eapply Forall_impl; [exact Hs|]. set_solver.
Qed.

(** C28: a configuration the validator accepts can be run: the order pool is
    constructed without an error, the three ports are distinct and
    unprivileged, the limits the risk manager divides and compares by are not
    zero, the symbols are distinct strings of 1 to 8 characters, and every price
    collar is a whole percentage of at most 100, the range in which the risk
    manager's unsigned collar arithmetic does not wrap around. *)
Theorem validated_config_runs c :
  ConfigurationValidator.validate_full_config c = Value tt ->
  0 <= order_pool_size (performance c) -> 0 <= max_order_size (risk c) ->
  (forall s, s ∈ symbols c -> valid_binary 53 1024 (price_collar_pct s) = true) ->
  (exists p, MemoryPool.make Order_default (order_pool_size (performance c)) = inr p /\ MemoryPool.ok p) /\
  NoDup [tcp_port (exchange c); udp_port (exchange c); metrics_port (exchange c)] /\
  Forall (fun port => 1024 <= port <= 65535)
    [tcp_port (exchange c); udp_port (exchange c); metrics_port (exchange c)] /\
  1 <= max_order_size (risk c) <= 10000000 /\ max_orders_per_second (risk c) <> 0 /\
  NoDup (sc_symbol <$> symbols c) /\
  (forall s, s ∈ symbols c -> (1 <= length (sc_symbol s) <= 8)%nat /\
     exists pct, trunc_u64 (price_collar_pct s) = Some pct /\ 0 <= pct <= 100).
Proof.
  intros Hv Hp Hm Hb. unfold ConfigurationValidator.validate_full_config in Hv.
  apply then_ok in Hv as [_ [Hv Hd]%then_ok]. unfold ConfigurationValidator.validate_config_values in Hv.
  apply then_ok in Hv as [He [Hr [Hf [Hs [Hnd _]]%validate_symbols_ok]%then_ok]%then_ok].
  unfold ConfigurationValidator.validate_exchange_config in He.
  destruct (_ || _) eqn:E1 in He; [done|]. rewrite !orb_false_iff !negb_false_iff in E1.
  unfold FieldValidators.validate_port_range in E1. rewrite !andb_true_iff !Z.leb_le in E1.
  unfold ConfigurationValidator.validate_config_dependencies in Hd.
  destruct (_ || _) eqn:E2 in Hd; [done|]. rewrite !orb_false_iff !Z.eqb_neq in E2.
  unfold ConfigurationValidator.validate_performance_config in Hf.
  destruct ((order_pool_size _ =? 0) || _) eqn:E3 in Hf; [done|].
  rewrite orb_false_iff Z.eqb_neq Z.ltb_ge in E3. unfold ConfigurationValidator.validate_risk_config in Hr.
  destruct ((max_order_size _ =? 0) || _) eqn:E4 in Hr; [done|]. rewrite orb_false_iff Z.eqb_neq Z.ltb_ge in E4.
  destruct (double_le _ _) in Hr; [done|]. destruct ((max_orders_per_second _ =? 0) || _) eqn:E5 in Hr; [done|].
  rewrite orb_false_iff Z.eqb_neq in E5. split_and!; try lia.
  - destruct (MemoryPool.make_free_list Order_default (order_pool_size (performance c))) as (p & Hmk & _ & Hfl).
    { unfold MemoryPool.POOL_EMPTY. lia. }
    exists p. split; [done|]. by eexists.
  - repeat constructor; set_solver by lia.
  - repeat constructor; lia.
  - done.
  - intros s Hin. rewrite Forall_forall in Hs. destruct (Hs s Hin) as (Hlen & _ & Hpct).
    split; [done|]. apply percentage_trunc; [by apply Hb|done].
Qed.

(** ** A configuration, and two symbols that collide *)

Definition ex_symbol_config (name : cstring) : SymbolConfig :=
  mkSymbolConfig name (double_of_Z 1) 1 (double_of_Z 10).
Definition ex_config (names : list cstring) : Config :=
  mkConfig (mkExchangeConfig (cstr "RTES") 8888 (cstr "239.0.0.1") 9999 8080)
    (map ex_symbol_config names) RiskConfig_default
    (mkPerformanceConfig 1000 1024 false true 65536 4096).

Lemma validated_config_runs_witness :
  exists p, MemoryPool.make Order_default 1000 = inr p /\ MemoryPool.ok p.
Proof.
  refine (proj1 (validated_config_runs (ex_config [cstr "AAPL"; cstr "MSFT"]) eq_refl _ _ _)); [simpl; lia..|].
  intros s Hin. cbn in Hin. apply list_elem_of_In in Hin. destruct Hin as [<-|[<-|[]]]; reflexivity.
Defined.

(** The validator admits symbols of 8 characters, but a [Symbol] holds 7: two
    valid, distinct symbols get the same key in the risk manager's and the
    exchange's maps, so orders for one are routed to the engine of the other. *)
Theorem validated_symbols_collide :
  ConfigurationValidator.validate_full_config (ex_config [cstr "LONGSYMA"; cstr "LONGSYMB"]) = Value tt /\
  cstr "LONGSYMA" <> cstr "LONGSYMB" /\
  RiskManager.symbol_key (cstr "LONGSYMA") = RiskManager.symbol_key (cstr "LONGSYMB").
Proof. split; [reflexivity|]. split; [discriminate|reflexivity]. Qed.
