(* ===== verification/SecurityUtils.v ===== *)
(** * Security utilities and authentication
    (security_utils.hpp/.cpp, auth_middleware.hpp/.cpp)

    [SecurityUtils] sanitizes log text, checks paths, symbols and tokens and
    decides what a user may do; [AuthMiddleware] puts authentication, the rate
    limit and authorization before a request handler.  The file system and the
    environment are arguments; the role of a context that was not authenticated
    is indeterminate in the code and [None] here.  Times are nanoseconds. *)

From S2P Require Import Prelude Types MemorySafety InputValidation Strings.

Inductive UserRole := ADMIN | TRADER | VIEWER | SYSTEM.

#[export] Instance UserRole_eq_dec : EqDecision UserRole.
Proof. solve_decision. Defined.

Record AuthContext := mkAuth {
  user_id : cstring;
  role : option UserRole;
  permissions : list cstring;
  authenticated : bool
}.

Definition AuthContext_default : AuthContext := mkAuth [] None [] false.

(** What [std::filesystem] answers; [None] is a [filesystem_error]. *)
Record FileSystem := mkFileSystem {
  current_path : cstring;
  weakly_canonical : cstring -> option cstring;
  canonical : cstring -> option cstring;
  relative : cstring -> cstring -> option cstring;
  read_file : cstring -> option cstring
}.

Module SecurityUtils.

Definition ALLOWED_CONFIG_DIRS : list cstring :=
  [cstr "/etc/rtes"; cstr "./configs"; cstr "../configs";
   cstr "/Users/shivanshu/Low-latency-trading-exchange-simmulator/RTES/configs"].

(** Every byte below 0x20 but tab, newline and carriage return, and 0x7F. *)
Definition CONTROL_CHARS : list Z :=
  [0; 1; 2; 3; 4; 5; 6; 7; 8; 11; 12; 14; 15; 16; 17; 18; 19; 20; 21; 22; 23; 24; 25; 26; 27; 28; 29; 30; 31; 127].
Definition is_control (c : Z) : bool := bool_decide (c ∈ CONTROL_CHARS).

Definition escape (c : Z) : cstring :=
  if c =? 10 then [92; 110]
  else if c =? 13 then [92; 114]
  else if c =? 9 then [92; 116]
  else if c =? 92 then [92; 92]
  else if c =? 34 then [92; 34]
  else [c].

Fixpoint sanitize_log_input (input : cstring) : cstring :=
  match input with
  | [] => []
  | c :: rest => (if is_control c then [] else escape c) ++ sanitize_log_input rest
  end.

Definition validate_file_path (fs : FileSystem) (path base_dir : cstring) : bool :=
  match weakly_canonical fs path, canonical fs base_dir with
  | Some canonical_file, Some canonical_base =>
      match relative fs canonical_file canonical_base with
      | Some rel =>
          if bool_decide (rel = []) || starts_with rel (cstr "..") then false
          else existsb (fun allowed => starts_with canonical_file allowed) ALLOWED_CONFIG_DIRS
      | None => false
      end
  | _, _ => false
  end.

Definition normalize_path (fs : FileSystem) (path : cstring) : cstring := default [] (weakly_canonical fs path).

Definition check_permission (ctx : AuthContext) (permission : cstring) : bool :=
  if negb (authenticated ctx) then false
  else if bool_decide (role ctx = Some ADMIN) then true
  else bool_decide (permission ∈ permissions ctx).

Definition ADMIN_OPS : list cstring := [cstr "shutdown"; cstr "config_reload"; cstr "user_management"].
Definition TRADER_OPS : list cstring := [cstr "place_order"; cstr "cancel_order"; cstr "view_positions"].

Definition is_authorized_for_operation (ctx : AuthContext) (operation : cstring) : bool :=
  if negb (authenticated ctx) then false
  else if bool_decide (operation ∈ ADMIN_OPS) then bool_decide (role ctx = Some ADMIN)
  else if bool_decide (operation ∈ TRADER_OPS)
  then bool_decide (role ctx = Some ADMIN) || bool_decide (role ctx = Some TRADER)
  else negb (bool_decide (role ctx = Some VIEWER)).

Definition is_safe_string (input : cstring) : bool := negb (existsb is_control input).

(** [auth_mode]: the environment variable RTES_AUTH_MODE. *)
Definition authenticate_user (auth_mode : option cstring) (token : cstring) : AuthContext :=
  if bool_decide (token = []) || (length token <? 32)%nat || (512 <? length token)%nat then AuthContext_default
  else if negb (is_safe_string token) then AuthContext_default
  else if negb (bool_decide (auth_mode = Some (cstr "development"))) then AuthContext_default
  else if starts_with token (cstr "dev_admin_")
  then mkAuth (take 16 (drop 10 token)) (Some ADMIN) [cstr "all"] true
  else if starts_with token (cstr "dev_trader_")
  then mkAuth (take 16 (drop 11 token)) (Some TRADER) [cstr "place_order"; cstr "cancel_order"; cstr "view_positions"] true
  else AuthContext_default.

(** The pattern ^[A-Z][A-Z0-9]*$ *)
Definition is_valid_symbol (symbol : cstring) : bool :=
  match symbol with
  | [] => false
  | c :: rest =>
      (length symbol <=? 10)%nat && isupper c && forallb (fun x => isupper x || isdigit x) rest
  end.

Definition is_valid_order_id (order_id : cstring) : bool :=
  negb (bool_decide (order_id = [])) && (length order_id <=? 20)%nat &&
  forallb (fun c => isalnum c || (c =? 45) || (c =? 95)) order_id.

End SecurityUtils.

(** ** AuthMiddleware *)

Module AuthMiddleware.
Section middleware.
Context {W : Type}.
Variable auth_mode : option cstring.

Definition rate_limit_window_ : Z := 1000000000.

(** [rate_limits_]: when each user's last accepted request was. *)
Definition limits : Type := gmap cstring Z.

Definition check_rate_limit (now : Z) (user : cstring) (m : limits) : bool * limits :=
  match m !! user with
  | None => (true, <[user := now]> m)
  | Some last => if now - last <? rate_limit_window_ then (false, m) else (true, <[user := now]> m)
  end.

(** A handler answers, or throws; both may have changed the world. *)
Definition handler : Type := AuthContext -> cstring -> W -> outcome bool * W.

Definition authenticate_and_authorize (now : Z) (token operation resource : cstring) (h : handler)
    (m : limits) (w : W) : bool * limits * W :=
  if negb (SecurityUtils.is_safe_string token) then (false, m, w)
  else
    let ctx := SecurityUtils.authenticate_user auth_mode token in
    if negb (authenticated ctx) then (false, m, w)
    else
      let '(allowed, m) := check_rate_limit now (user_id ctx) m in
      if negb allowed then (false, m, w)
      else if negb (SecurityUtils.is_authorized_for_operation ctx operation) then (false, m, w)
      else
        let '(r, w) := h ctx resource w in
        (match r with Done b => b | _ => false end, m, w).

Definition validate_session (token : cstring) : AuthContext :=
  if negb (SecurityUtils.is_safe_string token) then AuthContext_default
  else SecurityUtils.authenticate_user auth_mode token.

Definition is_operation_allowed (ctx : AuthContext) (operation : cstring) : bool :=
  SecurityUtils.is_authorized_for_operation ctx operation.

(** ** AuthGuard *)

Record AuthGuard := mkGuard { context_ : AuthContext; authorized_ : bool }.

Definition AuthGuard_make (token operation : cstring) : AuthGuard :=
  let ctx := validate_session token in
  mkGuard ctx (if authenticated ctx then is_operation_allowed ctx operation else false).

End middleware.
End AuthMiddleware.

(** ** Log text *)

Section log.
Import SecurityUtils.

(** What a reader of the log does with the escapes. *)
Fixpoint unescape (s : cstring) : cstring :=
  match s with
  | 92 :: c :: rest =>
      (if c =? 110 then 10 else if c =? 114 then 13 else if c =? 116 then 9 else c) :: unescape rest
  | c :: rest => c :: unescape rest
  | [] => []
  end.

Lemma is_control_spec c : u8 c -> is_control c = true <-> (c < 32 /\ c <> 9 /\ c <> 10 /\ c <> 13) \/ c = 127.
Proof.
  intros Hc. change (2 ^ 8) with 256 in Hc. unfold is_u in Hc. unfold is_control. rewrite bool_decide_eq_true.
  split.
  - intros Hin. apply list_elem_of_In in Hin. cbn in Hin. lia.
  - intros H. apply list_elem_of_In. cbn. lia.
Qed.

Lemma unescape_escape c r : unescape (escape c ++ r) = c :: unescape r.
Proof.
  unfold escape. destruct (Z.eqb_spec c 10) as [->|]; [done|]. destruct (Z.eqb_spec c 13) as [->|]; [done|].
  destruct (Z.eqb_spec c 9) as [->|]; [done|]. destruct (Z.eqb_spec c 92) as [->|]; [done|].
  destruct (Z.eqb_spec c 34) as [->|]; [done|]. cbn [app unescape].
  repeat (match goal with |- context [match ?x with _ => _ end] => is_var x; destruct x; try done end).
Qed.

End log.

(** ** The properties *)

Lemma sanitize_printable input : Forall (fun c => u8 c) input ->
  Forall (fun c => 32 <= c /\ c <> 127) (SecurityUtils.sanitize_log_input input).
Proof.
  induction 1 as [|c input Hc _ IH]; [done|]. cbn [SecurityUtils.sanitize_log_input].
  destruct (SecurityUtils.is_control c) eqn:E; [done|].
  apply Forall_app. split; [|done]. apply not_true_iff_false in E. rewrite is_control_spec in E; [done|].
  unfold is_u in Hc. change (2 ^ 8) with 256 in Hc. unfold SecurityUtils.escape.
  zbool; repeat constructor; lia.
Qed.

(** Sanitized text cannot break out of its line of the log: it holds no
    control character, neither newline nor carriage return nor tab, and a reader
    who undoes the escapes gets the input back, less the control characters that
    were dropped. *)
Theorem sanitized_log_line input :
  Forall (fun c => u8 c) input ->
  Forall (fun c => 32 <= c /\ c <> 127) (SecurityUtils.sanitize_log_input input) /\
  unescape (SecurityUtils.sanitize_log_input input) = filter (fun c => SecurityUtils.is_control c = false) input.
Proof.
  intros Hu. split; [by apply sanitize_printable|].
  induction Hu as [|c input Hc _ IH]; [done|]. cbn [SecurityUtils.sanitize_log_input].
  destruct (SecurityUtils.is_control c) eqn:E.
  - rewrite filter_cons_False; [by rewrite E|]. done.
  - rewrite filter_cons_True; [done|]. by rewrite unescape_escape IH.
Qed.

Lemma sanitized_log_line_witness :
  unescape (SecurityUtils.sanitize_log_input [65; 10; 7; 34]) = [65; 10; 34].
Proof.
  refine (proj2 (sanitized_log_line [65; 10; 7; 34] _)). repeat constructor; unfold is_u; change (2 ^ 8) with 256; lia.
Defined.

(** A handler runs only for an authenticated user whose role allows the
    operation and whose last accepted request is at least a second old;
    otherwise the request is refused and nothing but the rate table changes.
    Outside development mode no request gets through. *)
Theorem handler_guarded {W} auth_mode now token operation resource (h : @AuthMiddleware.handler W) m w b m' w' :
  AuthMiddleware.authenticate_and_authorize auth_mode now token operation resource h m w = (b, m', w') ->
  let ctx := SecurityUtils.authenticate_user auth_mode token in
  (b = false /\ w' = w) \/
  (auth_mode = Some (cstr "development") /\ authenticated ctx = true /\
   SecurityUtils.is_authorized_for_operation ctx operation = true /\
   (forall last, m !! user_id ctx = Some last -> 1000000000 <= now - last) /\
   m' = <[user_id ctx := now]> m /\ w' = snd (h ctx resource w)).
Proof.
  unfold AuthMiddleware.authenticate_and_authorize. cbn zeta.
  destruct (negb (SecurityUtils.is_safe_string token)); [intros [= <- _ <-]; by left|].
  destruct (authenticated (SecurityUtils.authenticate_user auth_mode token)) eqn:Ha; cbn [negb]; [|intros [= <- _ <-]; by left].
  assert (auth_mode = Some (cstr "development")) as Hmode.
  { unfold SecurityUtils.authenticate_user in Ha. destruct (_ || _); [done|]. destruct (negb _); [done|].
    destruct (bool_decide (auth_mode = Some (cstr "development"))) eqn:E; [by apply bool_decide_eq_true in E|done]. }
  set (ctx := SecurityUtils.authenticate_user auth_mode token) in *. unfold AuthMiddleware.check_rate_limit.
  assert (forall r, (forall last, m !! user_id ctx = Some last -> 1000000000 <= now - last) ->
    (if negb (SecurityUtils.is_authorized_for_operation ctx operation) then (false, <[user_id ctx := now]> m, w)
     else let '(r, w) := h ctx resource w in (match r with Done b => b | _ => false end, <[user_id ctx := now]> m, w)) = r ->
    r = (b, m', w') -> (b = false /\ w' = w) \/
    (auth_mode = Some (cstr "development") /\ true = true /\
     SecurityUtils.is_authorized_for_operation ctx operation = true /\
     (forall last, m !! user_id ctx = Some last -> 1000000000 <= now - last) /\
     m' = <[user_id ctx := now]> m /\ w' = snd (h ctx resource w))) as Hgo.
  { intros r Hlast <-. destruct (SecurityUtils.is_authorized_for_operation ctx operation); cbn [negb]; [|intros [= <- _ <-]; by left].
    destruct (h ctx resource w) as [r w1]. intros [= _ <- <-]. by right. }
  destruct (m !! user_id ctx) as [last|] eqn:El.
  - destruct (Z.ltb_spec (now - last) AuthMiddleware.rate_limit_window_) as [|Hge]; cbn [negb]; [intros [= <- _ <-]; by left|].
    intros Hr. eapply Hgo; [|reflexivity|exact Hr]. intros last' [= <-]. exact Hge.
  - cbn [negb]. intros Hr. eapply Hgo; [|reflexivity|exact Hr]. done.
Qed.

Definition ex_token : cstring := cstr "dev_trader_alice_0123456789abcdef".
Definition ex_handler : @AuthMiddleware.handler nat := fun _ _ w => (Done true, S w).

Lemma handler_guarded_witness :
  exists b m w, AuthMiddleware.authenticate_and_authorize (Some (cstr "development")) 5 ex_token (cstr "place_order") [] ex_handler ∅ 0%nat
    = (b, m, w) /\ (b = false /\ w = 0%nat \/ w = 1%nat).
Proof.
  destruct (AuthMiddleware.authenticate_and_authorize (Some (cstr "development")) 5 ex_token (cstr "place_order") [] ex_handler ∅ 0%nat)
    as [[b m] w] eqn:E.
  exists b, m, w. split; [reflexivity|].
  destruct (handler_guarded (Some (cstr "development")) 5 ex_token (cstr "place_order") [] ex_handler ∅ 0%nat b m w E)
    as [H|(_ & _ & _ & _ & _ & H)]; [left; exact H|right; exact H].
Defined.

(** A configuration path that passes the check lies inside the base directory,
    and its canonical form begins with one of the allowed directories; when
    canonical paths are absolute, the two relative entries of the list accept
    nothing. *)
Theorem config_path_checked fs path base :
  SecurityUtils.validate_file_path fs path base = true ->
  exists file root rel, weakly_canonical fs path = Some file /\ canonical fs base = Some root /\
    relative fs file root = Some rel /\ rel <> [] /\ starts_with rel (cstr "..") = false /\
    (exists allowed r, allowed ∈ SecurityUtils.ALLOWED_CONFIG_DIRS /\ file = allowed ++ r) /\
    (starts_with file (cstr "/") = true ->
     starts_with file (cstr "/etc/rtes") = true \/
     starts_with file (cstr "/Users/shivanshu/Low-latency-trading-exchange-simmulator/RTES/configs") = true).
Proof.
  unfold SecurityUtils.validate_file_path. intros H.
  destruct (weakly_canonical fs path) as [file|]; [|done]. destruct (canonical fs base) as [root|]; [|done].
  destruct (relative fs file root) as [rel|] eqn:Er; [|done]. destruct (_ || _) eqn:E; [done|].
  apply orb_false_iff in E as [Hne Hup]. apply bool_decide_eq_false in Hne.
  exists file, root, rel. split_and!; try done.
  - apply existsb_exists in H as (allowed & Hin & Hs). apply list_elem_of_In in Hin.
    apply starts_with_spec in Hs as [r ->]. by exists allowed, r.
  - intros Habs. apply existsb_exists in H as (allowed & Hin & Hs).
    cbn [SecurityUtils.ALLOWED_CONFIG_DIRS In] in Hin.
    destruct Hin as [<-|[<-|[<-|[<-|[]]]]]; [by left| | |by right];
      apply starts_with_spec in Hs as [r ->]; done.
Qed.

Definition ex_fs : FileSystem :=
  mkFileSystem (cstr "/etc") (fun _ => Some (cstr "/etc/rtes-old/x")) (fun _ => Some (cstr "/etc"))
    (fun _ _ => Some (cstr "rtes-old/x")) (fun _ => None).

(** The list is a list of prefixes of text: a sibling directory passes, too. *)
Lemma config_path_checked_witness :
  SecurityUtils.validate_file_path ex_fs (cstr "x") (cstr "/etc") = true /\
  exists file, weakly_canonical ex_fs (cstr "x") = Some file.
Proof.
  split; [reflexivity|].
  destruct (config_path_checked ex_fs (cstr "x") (cstr "/etc") eq_refl) as (file & _ & _ & H & _).
  exists file. exact H.
Defined.

(** Requests of users, in the order of their times. *)
Fixpoint served_since (requests : list (Z * cstring)) (m : AuthMiddleware.limits) : AuthMiddleware.limits :=
  match requests with
  | [] => m
  | (now, user) :: rest => served_since rest (snd (AuthMiddleware.check_rate_limit now user m))
  end.

(** After a request of a user was accepted, every further one within a second
    is refused, whatever other requests were made in between. *)
Theorem auth_rate_limited user t1 t2 between m m1 :
  AuthMiddleware.check_rate_limit t1 user m = (true, m1) ->
  (forall t u, (t, u) ∈ between -> t1 <= t <= t2) -> t2 - t1 < 1000000000 ->
  fst (AuthMiddleware.check_rate_limit t2 user (served_since between m1)) = false.
Proof.
  intros Hacc Hb Hlt.
  assert (m1 !! user = Some t1) as H1.
  { unfold AuthMiddleware.check_rate_limit in Hacc. destruct (m !! user) as [l|]; [destruct (_ <? _); [done|]|];
      injection Hacc as <-; apply lookup_insert_eq. }
  clear Hacc. enough (served_since between m1 !! user = Some t1) as H.
  { unfold AuthMiddleware.check_rate_limit. rewrite H. unfold AuthMiddleware.rate_limit_window_.
    by rewrite (proj2 (Z.ltb_lt _ _)). }
  revert m1 H1. induction between as [|[t u] between IH]; intros m1 H1; [done|]. cbn [served_since].
  apply IH; [intros t' u' Hin; apply (Hb t' u'); by right|]. pose proof (Hb t u ltac:(left)) as Ht.
  unfold AuthMiddleware.check_rate_limit. destruct (decide (u = user)) as [->|Hne].
  - rewrite H1. unfold AuthMiddleware.rate_limit_window_. rewrite (proj2 (Z.ltb_lt _ _)); [lia|]. done.
  - destruct (m1 !! u) as [l|]; [destruct (_ <? _); [done|]|]; cbn [snd]; by rewrite lookup_insert_ne.
Qed.

Lemma auth_rate_limited_witness :
  fst (AuthMiddleware.check_rate_limit 900 (cstr "a") (served_since [(5, cstr "b")] (<[cstr "a" := 3]> ∅))) = false.
Proof.
  refine (auth_rate_limited (cstr "a") 3 900 [(5, cstr "b")] ∅ _ eq_refl _ _); [|lia].
  intros t u Hin. apply list_elem_of_In in Hin. destruct Hin as [[= <- <-]|[]]. lia.
Defined.
