(* ===== verification/Logger.v ===== *)
(** * The logger (logger.hpp, logger.cpp)

    One logger for the process: a level below which nothing is written and a
    time that must pass between two lines.  Times of the steady clock are
    nanoseconds; the wall clock is the time since the epoch in milliseconds, and
    [put_time] of [gmtime] is the proleptic Gregorian calendar in UTC.  A call
    returns the line it writes, if any. *)

From S2P Require Import Prelude Types MemorySafety InputValidation Strings SecurityUtils.

Inductive LogLevel := DEBUG | INFO | WARN | ERROR | FATAL.

Definition level_value (l : LogLevel) : Z :=
  match l with DEBUG => 0 | INFO => 1 | WARN => 2 | ERROR => 3 | FATAL => 4 end.

(** ** The calendar *)

(** Days since 1970-01-01 as year, month and day. *)
Definition civil_from_days (days : Z) : Z * Z * Z :=
  let z := days + 719468 in
  let era := z / 146097 in
  let doe := z mod 146097 in
  let yoe := (doe - doe / 1460 + doe / 36524 - doe / 146096) / 365 in
  let doy := doe - (365 * yoe + yoe / 4 - yoe / 100) in
  let mp := (5 * doy + 2) / 153 in
  let d := doy - (153 * mp + 2) / 5 + 1 in
  let m := if mp <? 10 then mp + 3 else mp - 9 in
  (yoe + era * 400 + (if m <=? 2 then 1 else 0), m, d).

(** A number with at least [w] digits. *)
Definition padded (w : nat) (v : Z) : cstring :=
  let text := print_u64 v in replicate (w - length text) 48 ++ text.

(** [put_time(gmtime(...), "%Y-%m-%d<sep>%H:%M:%S")] *)
Definition put_time (seconds : Z) (sep : Z) : cstring :=
  let '(y, m, d) := civil_from_days (seconds / 86400) in
  let t := seconds mod 86400 in
  padded 4 y ++ [45] ++ padded 2 m ++ [45] ++ padded 2 d ++ [sep] ++
  padded 2 (t / 3600) ++ [58] ++ padded 2 (t / 60 mod 60) ++ [58] ++ padded 2 (t mod 60).

Module Logger.

Record t := mk {
  level_ : LogLevel;
  structured_ : bool;
  rate_limit_ : Z;   (* milliseconds *)
  last_log_ : Z
}.
Implicit Types l : t.

Definition init : t := mk INFO false 1000 0.
Definition set_level x l : t := mk x (structured_ l) (rate_limit_ l) (last_log_ l).
Definition set_rate_limit x l : t := mk (level_ l) (structured_ l) x (last_log_ l).
Definition enable_structured x l : t := mk (level_ l) x (rate_limit_ l) (last_log_ l).

Definition should_rate_limit (now : Z) l : bool * t :=
  if now - last_log_ l <? rate_limit_ l * 1000000 then (true, l)
  else (false, mk (level_ l) (structured_ l) (rate_limit_ l) now).

Definition level_name (level : LogLevel) (structured : bool) : cstring :=
  match level with
  | DEBUG => cstr "DEBUG"
  | INFO => if structured then cstr "INFO" else cstr "INFO "
  | WARN => if structured then cstr "WARN" else cstr "WARN "
  | ERROR => cstr "ERROR"
  | FATAL => cstr "FATAL"
  end.

(** [wall]: milliseconds since the epoch. *)
Definition format_message (wall : Z) (level : LogLevel) (message : cstring) l : cstring :=
  if structured_ l then
    [123; 34] ++ cstr "timestamp" ++ [34; 58; 34] ++ put_time (wall / 1000) 84 ++ [46] ++ padded 3 (wall mod 1000) ++
    [90; 34; 44; 34] ++ cstr "level" ++ [34; 58; 34] ++ level_name level true ++ [34; 44; 34] ++
    cstr "message" ++ [34; 58; 34] ++ message ++ [34; 125]
  else
    [91] ++ put_time (wall / 1000) 32 ++ [46] ++ padded 3 (wall mod 1000) ++ [93; 32] ++
    level_name level false ++ [32] ++ message.

Definition log (now wall : Z) (level : LogLevel) (message : cstring) l : option cstring * t :=
  if level_value level <? level_value (level_ l) then (None, l)
  else
    let '(limited, l) := should_rate_limit now l in
    if limited then (None, l) else (Some (format_message wall level message l), l).

(** [debug], [info], [warn], [error] and [fatal] sanitize and log; the macros
    test the level first, except for [LOG_FATAL]. *)
Definition log_sanitized (now wall : Z) (level : LogLevel) (message : cstring) l : option cstring * t :=
  log now wall level (SecurityUtils.sanitize_log_input message) l.
Definition log_macro (now wall : Z) (level : LogLevel) (message : cstring) l : option cstring * t :=
  if match level with FATAL => true | _ => level_value (level_ l) <=? level_value level end
  then log_sanitized now wall level message l
  else (None, l).

End Logger.

(** ** What is written *)

(** A call of a macro: the two clocks, the level and the text. *)
Record call := mkCall { at_steady : Z; at_wall : Z; call_level : LogLevel; text : cstring }.

Fixpoint written (cs : list call) (l : Logger.t) : list (Z * cstring) :=
  match cs with
  | [] => []
  | c :: cs =>
      let '(line, l) := Logger.log_macro (at_steady c) (at_wall c) (call_level c) (text c) l in
      (match line with Some s => [(at_steady c, s)] | None => [] end) ++ written cs l
  end.

Fixpoint in_time (t : Z) (cs : list call) : Prop :=
  match cs with [] => True | c :: cs => t <= at_steady c /\ in_time (at_steady c) cs end.

Definition printable (c : Z) : Prop := 32 <= c /\ c <> 127.

Lemma digits_printable fuel : forall v acc, Forall printable acc -> Forall printable (digits_loop fuel v acc).
Proof.
  induction fuel as [|fuel IH]; intros v acc Ha; [done|]. cbn [digits_loop].
  assert (Forall printable ((48 + v mod 10) :: acc)) as Hc.
  { constructor; [|done]. unfold printable. pose proof (Z.mod_pos_bound v 10 ltac:(lia)). lia. }
  destruct (v <? 10); [done|by apply IH].
Qed.

Lemma padded_printable w v : Forall printable (padded w v).
Proof.
  apply Forall_app. split; [|by apply digits_printable]. apply Forall_replicate. unfold printable. lia.
Qed.

Ltac printable_parts := repeat match goal with |- Forall printable (_ ++ _) => apply Forall_app; split end.

Lemma put_time_printable seconds sep : printable sep -> Forall printable (put_time seconds sep).
Proof.
  intros Hs. unfold put_time. destruct (civil_from_days _) as [[y m] d].
  assert (printable 45 /\ printable 58) as [H1 H2] by (unfold printable; lia).
  printable_parts; first [apply padded_printable|by apply Forall_singleton].
Qed.

Lemma format_printable wall level message l :
  Forall printable message -> Forall printable (Logger.format_message wall level message l).
Proof.
  intros Hm. unfold Logger.format_message.
  assert (forall s, forallb (fun c => (32 <=? c) && negb (c =? 127)) s = true -> Forall printable s) as Hb.
  { intros s. induction s as [|c s IH]; [done|]. cbn [forallb]. intros [H1 H2]%andb_prop. constructor; [|by apply IH].
    unfold printable. apply andb_prop in H1 as [H1 H3]. split; [lia|]. by destruct (Z.eqb_spec c 127). }
  assert (printable 84 /\ printable 32) as [H84 H32] by (unfold printable; lia).
  destruct (Logger.structured_ l), level; cbn [Logger.level_name];
    printable_parts; first [exact Hm|by apply Hb|by apply put_time_printable|apply padded_printable].
Qed.

(** Lines and their times: at least [limit] apart, after [t] plus the limit. *)
Fixpoint spaced (limit t : Z) (ws : list (Z * cstring)) : Prop :=
  match ws with [] => True | w :: ws => t + limit <= w.1 /\ spaced limit w.1 ws end.

Lemma spaced_count limit t ws : 0 < limit -> spaced limit t ws ->
  forall last, t <= last -> Forall (fun w => w.1 <= last) ws -> Z.of_nat (length ws) * limit <= last - t.
Proof.
  intros Hl. revert t. induction ws as [|w ws IH]; intros t Hs last Ht Hf; [simpl; lia|].
  destruct Hs as [Hw Hs]. apply Forall_cons in Hf as [Hwl Hf]. specialize (IH w.1 Hs last Hwl Hf). cbn [length]. lia.
Qed.

Lemma written_spaced cs : forall l t,
  spaced (Logger.rate_limit_ l * 1000000) (Logger.last_log_ l) (written cs l) /\
  (in_time t cs -> Forall (fun w => t <= w.1) (written cs l)).
Proof.
  induction cs as [|c cs IH]; intros l t; [done|]. cbn [written in_time].
  destruct (Logger.log_macro _ _ _ _ l) as [line l1] eqn:E.
  assert (line = None /\ l1 = l \/ (exists s, line = Some s) /\
    l1 = Logger.mk (Logger.level_ l) (Logger.structured_ l) (Logger.rate_limit_ l) (at_steady c) /\
    Logger.last_log_ l + Logger.rate_limit_ l * 1000000 <= at_steady c) as Hcase.
  { unfold Logger.log_macro, Logger.log_sanitized, Logger.log, Logger.should_rate_limit in E.
    destruct (match call_level c with FATAL => true | _ => _ end); [|simplify_eq; by left].
    destruct (_ <? level_value (Logger.level_ l)); [simplify_eq; by left|].
    destruct (at_steady c - Logger.last_log_ l <? _) eqn:El; simplify_eq; [by left|]. right.
    split; [by eexists|]. split; [done|]. lia. }
  destruct Hcase as [[-> ->]|((s & ->) & -> & Hle)].
  - cbn [app]. destruct (IH l (at_steady c)) as [H1 H2]. split; [exact H1|]. intros [Ht Hc].
    eapply Forall_impl; [by apply H2|]. intros w Hw. simpl in Hw. lia.
  - destruct (IH (Logger.mk (Logger.level_ l) (Logger.structured_ l) (Logger.rate_limit_ l) (at_steady c)) (at_steady c)) as [H1 H2].
    cbn [app spaced fst]. split; [split; [exact Hle|exact H1]|]. intros [Ht Hc]. constructor; [done|].
    eapply Forall_impl; [by apply H2|]. intros w Hw. simpl in Hw. lia.
Qed.

(** What reaches the log.  Over any sequence of logging calls of any threads,
    each in the order of its look at the clock, every line written is free of
    control characters - one call writes at most one line, whatever the text -
    and lines are at least the rate limit apart, so that within any time at most
    that time divided by the limit are written.  The limit spares no level: a
    fatal message within the limit of the line before is dropped. *)
Theorem log_lines_bounded cs l last :
  0 < Logger.rate_limit_ l -> Logger.last_log_ l <= last ->
  Forall (fun c => Forall (fun b => u8 b) (text c) /\ at_steady c <= last) cs ->
  Forall (fun w => Forall printable w.2) (written cs l) /\
  spaced (Logger.rate_limit_ l * 1000000) (Logger.last_log_ l) (written cs l) /\
  Z.of_nat (length (written cs l)) * (Logger.rate_limit_ l * 1000000) <= last - Logger.last_log_ l /\
  (forall now wall message, now - Logger.last_log_ l < Logger.rate_limit_ l * 1000000 ->
     Logger.log_macro now wall FATAL message l = (None, l)).
Proof.
  intros Hl Hlast Hcs. destruct (written_spaced cs l 0) as [Hsp _].
  assert (forall cs l, Forall (fun c => Forall (fun b => u8 b) (text c) /\ at_steady c <= last) cs ->
    Forall (fun w => Forall printable w.2 /\ w.1 <= last) (written cs l)) as Hw.
  { clear. intros cs. induction cs as [|c cs IH]; intros l Hcs; [done|]. apply Forall_cons in Hcs as [[Ht Ha] Hcs].
    cbn [written]. destruct (Logger.log_macro _ _ _ _ l) as [line l1] eqn:E.
    apply Forall_app. split; [|by apply IH]. destruct line as [s|]; [|done]. apply Forall_singleton. split; [|done]. simpl.
    unfold Logger.log_macro, Logger.log_sanitized, Logger.log, Logger.should_rate_limit in E.
    destruct (match call_level c with FATAL => true | _ => _ end); [|done].
    destruct (_ <? level_value (Logger.level_ l)); [done|].
    destruct (at_steady c - Logger.last_log_ l <? _); [done|]. injection E as <- _.
    apply format_printable. eapply Forall_impl; [by apply sanitize_printable|]. done. }
  specialize (Hw cs l Hcs). split; [eapply Forall_impl; [exact Hw|]; by intros w [? _]|]. split; [done|]. split.
  - eapply spaced_count; [lia|done|lia|]. eapply Forall_impl; [exact Hw|]. by intros w [_ ?].
  - intros now wall message Hnow. unfold Logger.log_macro, Logger.log_sanitized, Logger.log, Logger.should_rate_limit.
    destruct (_ <? level_value (Logger.level_ l)); [done|]. by rewrite (proj2 (Z.ltb_lt _ _) Hnow).
Qed.

Lemma log_lines_bounded_witness :
  Z.of_nat (length (written [mkCall 2000000000 0 INFO [65]; mkCall 2500000000 0 FATAL [66; 10]; mkCall 3000000000 0 ERROR [67]]
    Logger.init)) * 1000000000 <= 3000000000.
Proof.
  apply (log_lines_bounded [mkCall 2000000000 0 INFO [65]; mkCall 2500000000 0 FATAL [66; 10]; mkCall 3000000000 0 ERROR [67]]
    Logger.init 3000000000); [reflexivity|discriminate|].
  repeat (apply Forall_cons; split; [split; [repeat (apply Forall_cons; split; [split; [discriminate|reflexivity]|])|discriminate]|]);
    try apply Forall_nil_2.
  all: apply Forall_nil_2.
Defined.

(** The format, in plain and in structured form. *)
Example formatted_line :
  Logger.log_macro 2000000000 1700000000042 WARN (cstr "x") Logger.init
    = (Some (cstr "[2023-11-14 22:13:20.042] WARN  x"), Logger.mk INFO false 1000 2000000000).
Proof. vm_compute. reflexivity. Qed.
