(* ===== verification/ConfigLoader.v ===== *)
(** * Loading the configuration (src/config.cpp)

    [JsonParser] looks the keys up by text search, wherever they occur in the
    file.  [std::stod] is modelled on the digits and dots it is given: the value
    is the double nearest to the decimal; an exception and undefined behaviour
    of a conversion are values of [outcome].  The file system is an argument. *)

From Stdlib Require Import SpecFloat String.
From S2P Require Import Prelude Types Double MemorySafety ErrorHandling RiskManager InputValidation Strings SecurityUtils.

(** The sections that are read but not validated. *)
Record LoggingConfig := mkLogging { log_level : cstring; rate_limit_ms : Z; enable_structured : bool }.
Record PersistenceConfig := mkPersistence {
  enable_event_log : bool;
  snapshot_interval_ms : Z;
  log_directory : cstring
}.
Record FullConfig := mkFullConfig { base : Config; logging : LoggingConfig; persistence : PersistenceConfig }.

(** ** std::stod *)

(** Decimal digits: their value after [m], their number, what follows. *)
Fixpoint read_digits (s : cstring) (m : Z) (n : nat) : Z * nat * cstring :=
  match s with
  | c :: rest => if isdigit c then read_digits rest (10 * m + (c - 48)) (S n) else (m, n, s)
  | [] => (m, n, [])
  end.

(** The double nearest to m / 10^k: the quotient with at least 56 bits, the last
    one set if something was cut off. *)
Definition nearest_decimal (m : Z) (k : nat) : double :=
  match k with
  | O => double_of_Z m
  | _ =>
      let d := 10 ^ Z.of_nat k in
      let s := Z.max 0 (Z.log2 d - Z.log2 m + 57) in
      let q := m * 2 ^ s / d in
      let sticky := if (m * 2 ^ s) mod d =? 0 then 0 else 1 in
      binary_normalize 53 1024 (2 * q + sticky) (- s - 1) false
  end.

(** Overflow, and underflow with loss, are reported as out of range. *)
Definition out_of_range (m : Z) (k : nat) (d : double) : bool :=
  match d with
  | S754_infinity _ => true
  | _ => (0 <? m) && (m * 2 ^ 1022 <? 10 ^ Z.of_nat k) && negb ((m * 2 ^ 1074) mod 10 ^ Z.of_nat k =? 0)
  end.

(** On text of digits and dots only. *)
Definition stod (s : cstring) : outcome double :=
  let '(m, n, rest) := read_digits s 0 0 in
  let '(m, k) := match rest with
                 | 46 :: frac => let '(m, k, _) := read_digits frac m 0 in (m, k)
                 | _ => (m, 0%nat)
                 end in
  if (n + k =? 0)%nat then Throws "stod"
  else
    let d := nearest_decimal m k in
    if out_of_range m k d then Throws "stod" else Done d.

(** A cast to an unsigned type of [w] bits. *)
Definition to_uint (w : Z) (d : double) : outcome Z :=
  match trunc_u64 d with
  | Some v => if v <? 2 ^ w then Done v else Undefined
  | None => Undefined
  end.

(** ** JsonParser *)

Module JsonParser.

Definition quoted (key : cstring) : cstring := 34 :: key ++ [34].

Definition extract_string (json key : cstring) : outcome cstring :=
  let pos := find json (quoted key) 0 in
  if pos =? NPOS then Done []
  else
    let pos := find json [58] pos in
    let pos := find json [34] pos in
    let end_ := find json [34] (pos +₆₄ 1) in
    substr json (pos +₆₄ 1) (end_ -₆₄ pos -₆₄ 1).

Definition extract_bool (json key : cstring) : bool :=
  let pos := find json (quoted key) 0 in
  if pos =? NPOS then false
  else
    let pos := find json [58] pos in
    find json (cstr "true") pos <? find json (cstr "false") pos.

(** The leading characters that satisfy [f]. *)
Fixpoint span (f : Z -> bool) (s : cstring) : nat :=
  match s with
  | c :: rest => if f c then S (span f rest) else 0%nat
  | [] => 0%nat
  end.
(** The loops that advance a position while it is inside the text. *)
Definition skip (f : Z -> bool) (json : cstring) (pos : Z) : Z :=
  if pos <? Z.of_nat (length json) then pos + Z.of_nat (span f (drop (Z.to_nat pos) json)) else pos.

Definition extract_number (json key : cstring) : outcome double :=
  let pos := find json (quoted key) 0 in
  if pos =? NPOS then Done (double_of_Z 0)
  else
    let pos := find json [58] pos in
    let pos := skip (fun c => (c =? 58) || (c =? 32)) json pos in
    let end_ := skip (fun c => isdigit c || (c =? 46)) json pos in
    let! text := substr json pos (end_ -₆₄ pos) in
    stod text.

Definition extract_uint (w : Z) (json key : cstring) : outcome Z := let! d := extract_number json key in to_uint w d.
Definition extract_uint16 : cstring -> cstring -> outcome Z := extract_uint 16.
Definition extract_uint32 : cstring -> cstring -> outcome Z := extract_uint 32.
Definition extract_uint64 : cstring -> cstring -> outcome Z := extract_uint 64.
Definition extract_double (json key : cstring) : outcome double := extract_number json key.

(** The literals 0.01 and 10.0. *)
Definition default_symbol (name : cstring) : SymbolConfig :=
  mkSymbolConfig name (nearest_decimal 1 2) 1 (double_of_Z 10).

Definition parse (content : cstring) : outcome FullConfig :=
  let! name := extract_string content (cstr "name") in
  let! tcp := extract_uint16 content (cstr "tcp_port") in
  let! group := extract_string content (cstr "udp_multicast_group") in
  let! udp := extract_uint16 content (cstr "udp_port") in
  let! metrics := extract_uint16 content (cstr "metrics_port") in
  let! order_size := extract_uint64 content (cstr "max_order_size") in
  let! notional := extract_double content (cstr "max_notional_per_client") in
  let! per_second := extract_uint32 content (cstr "max_orders_per_second") in
  let collar := extract_bool content (cstr "price_collar_enabled") in
  let! pool := extract_uint32 content (cstr "order_pool_size") in
  let! capacity := extract_uint32 content (cstr "queue_capacity") in
  let pinning := extract_bool content (cstr "enable_cpu_pinning") in
  let nodelay := extract_bool content (cstr "tcp_nodelay") in
  let! buffer := extract_uint32 content (cstr "udp_buffer_size") in
  let! level := extract_string content (cstr "level") in
  let! rate := extract_uint32 content (cstr "rate_limit_ms") in
  let structured := extract_bool content (cstr "enable_structured") in
  let event_log := extract_bool content (cstr "enable_event_log") in
  let! snapshot := extract_uint32 content (cstr "snapshot_interval_ms") in
  let! directory := extract_string content (cstr "log_directory") in
  Done (mkFullConfig
    (mkConfig (mkExchangeConfig name tcp group udp metrics)
       [default_symbol (cstr "AAPL"); default_symbol (cstr "MSFT"); default_symbol (cstr "GOOGL")]
       (mkRiskConfig order_size notional per_second collar)
       (mkPerformanceConfig pool capacity pinning nodelay buffer 4096))
    (mkLogging level rate structured) (mkPersistence event_log snapshot directory)).

End JsonParser.

(** ** Config::load_from_file *)

(** The texts of the exceptions are abbreviated. *)
Definition load_from_file (fs : FileSystem) (path : cstring) : outcome FullConfig :=
  if negb (SecurityUtils.validate_file_path fs path (current_path fs)) then Throws "Invalid config file path"
  else
    let normalized_path := SecurityUtils.normalize_path fs path in
    if bool_decide (normalized_path = []) then Throws "Cannot normalize config file path"
    else match read_file fs normalized_path with
    | None => Throws "Cannot open config file"
    | Some content =>
        match JsonParser.parse content with
        | Done config =>
            if has_error (ConfigurationValidator.validate_full_config (base config))
            then Throws "Failed to parse config: Configuration validation failed"
            else Done config
        | Throws _ => Throws "Failed to parse config"
        | Undefined => Undefined
        end
    end.

(** ** Reading a field *)

Lemma isdigit_spec c : isdigit c = true <-> is_digit c.
Proof. unfold isdigit, is_digit. rewrite andb_true_iff !Z.leb_le. done. Qed.

Lemma read_digits_app ds rest m n :
  Forall is_digit ds -> head rest = None \/ (exists c, head rest = Some c /\ isdigit c = false) ->
  read_digits (ds ++ rest) m n = (foldl (fun v c => 10 * v + (c - 48)) m ds, (n + length ds)%nat, rest).
Proof.
  intros Hd Hr. revert m n. induction Hd as [|c ds Hc _ IH]; intros m n; cbn [app foldl length].
  - rewrite Nat.add_0_r. destruct rest as [|c rest]; [done|]. cbn [read_digits].
    destruct Hr as [Hr|(c' & [= <-] & ->)]; [done|done].
  - cbn [read_digits]. rewrite (proj2 (isdigit_spec c)) // IH. do 2 f_equal. lia.
Qed.

Lemma span_app f s rest :
  Forall (fun c => f c = true) s -> head rest = None \/ (exists c, head rest = Some c /\ f c = false) ->
  JsonParser.span f (s ++ rest) = length s.
Proof.
  intros Hs Hr. induction Hs as [|c s Hc _ IH]; cbn [app length].
  - destruct rest as [|c rest]; [done|]. cbn [JsonParser.span]. by destruct Hr as [|(c' & [= <-] & ->)].
  - cbn [JsonParser.span]. by rewrite Hc IH.
Qed.

(** Decimal text of an integer without a fraction. *)
Lemma stod_print n : 0 <= n < 2 ^ 53 -> stod (print_u64 n) = Done (double_of_Z n).
Proof.
  intros Hn. destruct (print_u64_spec n) as (Hp & Hd & Hl).
  { change (2 ^ 53) with 9007199254740992 in Hn. u_lia. }
  unfold stod. rewrite -(app_nil_r (print_u64 n)) (read_digits_app _ []); [done|by left|].
  cbn [Nat.add]. change (foldl (fun v c => 10 * v + (c - 48)) 0 (print_u64 n)) with (parse_digits (print_u64 n)).
  rewrite Hp Nat.add_0_r. destruct (length (print_u64 n)) as [|k]; [lia|]. cbn [Nat.eqb nearest_decimal].
  assert (out_of_range n 0 (double_of_Z n) = false) as ->; [|done].
  destruct (decide (n = 0)) as [->|Hne]; [done|].
  destruct (double_of_small n ltac:(lia)) as (m & e & -> & _). cbn [out_of_range]. rewrite Z.pow_0_r Z.mod_1_r. apply andb_false_r.
Qed.

Section field.
Import JsonParser.
Variables (before key rest : cstring) (sp : nat).
Hypothesis key_plain : 58 ∉ key.

(** A field: the key in quotes, a colon, spaces, the value. *)
Definition field_text (value : cstring) : cstring :=
  before ++ quoted key ++ 58 :: replicate sp 32 ++ value ++ rest.

(** The key does not occur earlier, and the text has a length. *)
Definition first_key (value : cstring) : Prop :=
  (forall j, (j < length before)%nat -> starts_with (drop j (field_text value)) (quoted key) = false) /\
  Z.of_nat (length (field_text value)) < 2 ^ 63.

Lemma find_key value : first_key value -> find (field_text value) (quoted key) 0 = Z.of_nat (length before).
Proof using.
  intros [Hf _]. rewrite (find_from _ _ [] (field_text value) (length before)); [done| |done].
  apply search_app_first. exact Hf.
Qed.

Lemma find_colon value :
  find (field_text value) [58] (Z.of_nat (length before)) = Z.of_nat (length (before ++ quoted key)).
Proof using key_plain.
  rewrite (find_from _ [58] before (quoted key ++ 58 :: replicate sp 32 ++ value ++ rest) (length (quoted key))); [done| |].
  - apply search_char. unfold quoted. intros [?|[?|?%list_elem_of_singleton]%elem_of_app]%elem_of_cons; done.
  - by rewrite length_app.
Qed.

Lemma key_found value : first_key value -> (find (field_text value) (quoted key) 0 =? NPOS) = false.
Proof using.
  intros H. rewrite find_key //. destruct H as [_ H]. apply Z.eqb_neq. unfold field_text in H. rewrite length_app in H.
  unfold NPOS. change (2 ^ 63) with 9223372036854775808 in H. change (2 ^ 64) with 18446744073709551616. lia.
Qed.

Lemma not_in_spaces c : c <> 58 -> c <> 32 -> c ∉ 58 :: replicate sp 32.
Proof using. intros H1 H2 [?|H]%elem_of_cons; [done|]. apply elem_of_replicate in H as [? _]. done. Qed.

Lemma number_field n w :
  0 <= n < 2 ^ 53 -> n < 2 ^ w -> first_key (print_u64 n) ->
  head rest = None \/ (exists c, head rest = Some c /\ isdigit c = false /\ c <> 46) ->
  extract_uint w (field_text (print_u64 n)) key = Done n.
Proof using key_plain.
  intros Hn Hw Hf Hr. destruct (print_u64_spec n) as (_ & Hd & Hl).
  { change (2 ^ 53) with 9007199254740992 in Hn. u_lia. }
  unfold extract_uint, extract_number. rewrite key_found // find_key // find_colon.
  set (t := print_u64 n) in *. set (j := field_text t) in *.
  assert (j = (before ++ quoted key) ++ (58 :: replicate sp 32) ++ t ++ rest) as Hj.
  { unfold j, field_text. by rewrite -!app_assoc. }
  assert (j = (before ++ quoted key ++ 58 :: replicate sp 32) ++ t ++ rest) as Hj2.
  { rewrite Hj. by rewrite -!app_assoc. }
  assert (skip (fun c => (c =? 58) || (c =? 32)) j (Z.of_nat (length (before ++ quoted key))) =
    Z.of_nat (length (before ++ quoted key ++ 58 :: replicate sp 32))) as ->.
  { unfold skip. rewrite (proj2 (Z.ltb_lt _ _)); [rewrite Hj !length_app /=; lia|].
    rewrite Nat2Z.id {1}Hj drop_app_length span_app.
    - constructor; [done|]. apply Forall_replicate. done.
    - destruct t as [|c t']; [simpl in Hl; lia|]. right. exists c. split; [done|].
      apply Forall_cons in Hd as [Hc _]. unfold is_digit in Hc. apply orb_false_iff. rewrite !Z.eqb_neq. lia.
    - rewrite !length_app /=. lia. }
  set (a := before ++ quoted key ++ 58 :: replicate sp 32) in *.
  assert (skip (fun c => isdigit c || (c =? 46)) j (Z.of_nat (length a)) = Z.of_nat (length a + length t)) as ->.
  { unfold skip. rewrite (proj2 (Z.ltb_lt _ _)); [rewrite Hj2 !length_app; lia|].
    rewrite Nat2Z.id {1}Hj2 drop_app_length span_app; [|destruct Hr as [?|(c & ? & H1 & H2)]; [by left|right]|lia].
    - eapply Forall_impl; [exact Hd|]. intros c Hc. by rewrite (proj2 (isdigit_spec c)).
    - exists c. split; [done|]. rewrite H1. cbn [orb]. by apply Z.eqb_neq. }
  destruct Hf as [_ Hlen]. fold j in Hlen. rewrite Hj2 !length_app in Hlen. change (2 ^ 63) with 9223372036854775808 in Hlen.
  rewrite (substr_from j a t rest); [done| |].
  { rewrite wrap_small; [unfold is_u; change (2 ^ 64) with 18446744073709551616; lia|lia]. }
  cbn [omap_outcome]. unfold t. rewrite stod_print //. cbn [omap_outcome]. unfold to_uint.
  by rewrite trunc_of_Z // (proj2 (Z.ltb_lt _ _)).
Qed.

Lemma string_field value :
  34 ∉ value -> first_key (quoted value) -> extract_string (field_text (quoted value)) key = Done value.
Proof using key_plain.
  intros Hv Hf. unfold extract_string. rewrite key_found // find_key // find_colon.
  set (j := field_text (quoted value)) in *.
  assert (j = (before ++ quoted key) ++ (58 :: replicate sp 32) ++ 34 :: value ++ 34 :: rest) as Hj.
  { unfold j, field_text, quoted. by rewrite -!app_assoc /= -!app_assoc. }
  set (a := before ++ quoted key ++ 58 :: replicate sp 32).
  assert (j = (a ++ [34]) ++ value ++ 34 :: rest) as Hj2.
  { rewrite Hj. unfold a. by rewrite -!app_assoc. }
  rewrite (find_from j [34] (before ++ quoted key) _ (length (58 :: replicate sp 32)) Hj).
  { rewrite search_skip; [by apply not_in_spaces|]. cbn. by rewrite Nat.add_0_r. }
  assert (Z.of_nat (length (before ++ quoted key) + length (58 :: replicate sp 32)) = Z.of_nat (length a)) as ->.
  { unfold a. rewrite !length_app. lia. }
  clearbody a. destruct Hf as [_ Hlen]. fold j in Hlen. rewrite Hj2 !length_app in Hlen. change (2 ^ 63) with 9223372036854775808 in Hlen.
  cbn [length] in Hlen.
  assert (Z.of_nat (length a) +₆₄ 1 = Z.of_nat (length (a ++ [34]))) as ->.
  { rewrite length_app wrap_small; [unfold is_u; change (2 ^ 64) with 18446744073709551616; lia|cbn [length]; lia]. }
  rewrite (find_from j [34] (a ++ [34]) _ (length value) Hj2); [by apply search_char|].
  apply (substr_from j (a ++ [34]) value (34 :: rest)); [done|].
  rewrite length_app. cbn [length].
  assert (forall x y, 0 <= y <= x -> x < 2 ^ 64 -> x -₆₄ y = x - y) as Hsub by (intros; apply wrap_small; unfold is_u; lia).
  change (2 ^ 64) with 18446744073709551616 in Hsub. rewrite !Hsub; lia.
Qed.

Lemma bool_field b :
  let value := if (b : bool) then cstr "true" else cstr "false" in
  first_key value -> extract_bool (field_text value) key = b.
Proof using key_plain.
  intros value Hf. unfold extract_bool. rewrite key_found // find_key // find_colon.
  set (j := field_text value) in *.
  assert (j = (before ++ quoted key) ++ (58 :: replicate sp 32) ++ value ++ rest) as Hj.
  { unfold j, field_text. by rewrite -!app_assoc. }
  assert (forall c p, c <> 58 -> c <> 32 -> search (c :: p) ((58 :: replicate sp 32) ++ value ++ rest) =
    (fun i => (length (58%Z :: replicate sp 32%Z) + i)%nat) <$> search (c :: p) (value ++ rest)) as Hs.
  { intros c p H1 H2. exact (search_skip c p (58 :: replicate sp 32) (value ++ rest) (not_in_spaces c H1 H2)). }
  destruct Hf as [_ Hlen]. fold j in Hlen. change (2 ^ 63) with 9223372036854775808 in Hlen.
  assert (forall p, find j p (Z.of_nat (length (before ++ quoted key))) =
    match search p ((58 :: replicate sp 32) ++ value ++ rest) with
    | Some i => Z.of_nat (length (before ++ quoted key) + i) | None => NPOS end) as Hfind.
  { intros p. destruct (search p _) as [i|] eqn:E; [by apply (find_from j p _ _ i Hj)|].
    unfold find. rewrite (proj2 (Z.ltb_ge _ _)); [rewrite Hj !length_app; lia|].
    rewrite Nat2Z.id Hj drop_app_length E. done. }
  rewrite !Hfind. change (cstr "true") with (116 :: cstr "rue"). change (cstr "false") with (102 :: cstr "alse").
  rewrite !Hs //.
  assert (Z.of_nat (length (before ++ quoted key) + length (58 :: replicate sp 32)) < NPOS) as Hb.
  { rewrite Hj !length_app in Hlen. rewrite length_app. unfold NPOS. change (2 ^ 64) with 18446744073709551616. lia. }
  destruct b; subst value; cbn [app cstr].
  - change (cstr "true" ++ rest) with ((116 :: cstr "rue") ++ rest). rewrite search_here. cbn [fmap option_fmap option_map].
    apply Z.ltb_lt. destruct (search (102 :: cstr "alse") ((116 :: cstr "rue") ++ rest)) as [i|] eqn:E; cbn [fmap option_fmap option_map]; [|lia].
    destruct i as [|i]; [|lia]. apply search_found in E as ([r Hr] & _). done.
  - change (cstr "false" ++ rest) with ((102 :: cstr "alse") ++ rest). rewrite search_here. cbn [fmap option_fmap option_map].
    apply Z.ltb_ge. destruct (search (116 :: cstr "rue") ((102 :: cstr "alse") ++ rest)) as [i|]; cbn [fmap option_fmap option_map]; lia.
Qed.

End field.

(** ** What a parsed configuration looks like *)

Lemma omap_done {A B} (f : A -> outcome B) (x : outcome A) b :
  omap_outcome f x = Done b -> exists a, x = Done a /\ f a = Done b.
Proof. destruct x as [a| |]; [by exists a|done|done]. Qed.

Lemma to_uint_range w d v : to_uint w d = Done v -> 0 <= v < 2 ^ w.
Proof.
  unfold to_uint. destruct (trunc_u64 d) as [x|] eqn:E; [|done]. apply trunc_u64_range in E.
  destruct (Z.ltb_spec x (2 ^ w)); [|done]. intros [= <-]. lia.
Qed.

Lemma parse_shape content c :
  JsonParser.parse content = Done c ->
  symbols (base c) = [JsonParser.default_symbol (cstr "AAPL"); JsonParser.default_symbol (cstr "MSFT");
                      JsonParser.default_symbol (cstr "GOOGL")] /\
  market_data_queue_size (performance (base c)) = 4096 /\ 0 <= order_pool_size (performance (base c)).
Proof.
  unfold JsonParser.parse. intros H. do 8 (apply omap_done in H as (? & _ & H)).
  apply omap_done in H as (pool & Hpool & H). do 6 (apply omap_done in H as (? & _ & H)).
  injection H as <-. cbn [base symbols performance market_data_queue_size order_pool_size].
  split_and!; [done|done|]. apply omap_done in Hpool as (d & _ & Hd). apply to_uint_range in Hd. lia.
Qed.

(** ** The properties *)

(** C31: A field is read back as it was written, wherever it stands: an integer
    below 2^53 that fits the type, a string without quotes and a truth value, each
    after the quoted key, a colon and any number of spaces, if the key does not
    occur earlier in the text. *)
Theorem config_fields_read before key rest sp :
  58 ∉ key ->
  (forall n w, 0 <= n < 2 ^ 53 -> n < 2 ^ w -> first_key before key rest sp (print_u64 n) ->
     head rest = None \/ (exists c, head rest = Some c /\ isdigit c = false /\ c <> 46) ->
     JsonParser.extract_uint w (field_text before key rest sp (print_u64 n)) key = Done n) /\
  (forall value, 34 ∉ value -> first_key before key rest sp (JsonParser.quoted value) ->
     JsonParser.extract_string (field_text before key rest sp (JsonParser.quoted value)) key = Done value) /\
  (forall b : bool, let value := if b then cstr "true" else cstr "false" in
     first_key before key rest sp value ->
     JsonParser.extract_bool (field_text before key rest sp value) key = b).
Proof.
  intros Hk. split; [|split].
  - intros n w. by apply number_field.
  - intros value. by apply string_field.
  - intros b. by apply bool_field.
Qed.

(** JSON text, with ' for the quotation mark. *)
Definition json_text (s : string) : cstring := (fun c => if c =? 39 then 34 else c) <$> cstr s.

Lemma config_fields_read_witness :
  JsonParser.extract_uint 16 (json_text "{'a': 1, 'tcp_port':  8888}") (cstr "tcp_port") = Done 8888.
Proof.
  refine (proj1 (config_fields_read (json_text "{'a': 1, ") (cstr "tcp_port") (cstr "}") 2 _) 8888 16 _ _ _ _).
  - apply (bool_decide_eq_true_1 (58 ∉ cstr "tcp_port")). reflexivity.
  - change (2 ^ 53) with 9007199254740992. lia.
  - change (2 ^ 16) with 65536. lia.
  - split; [|reflexivity]. intros j Hj. change (length (json_text "{'a': 1, ")) with 9%nat in Hj.
    do 9 (destruct j as [|j]; [reflexivity|]). lia.
  - right. exists 125. split; [reflexivity|]. split; [reflexivity|lia].
Defined.

(** The text of configs/config.json, and what it means. *)
Definition shipped_config : cstring := json_text "{
  'exchange': {
    'name': 'RTES',
    'tcp_port': 8888,
    'udp_multicast_group': '239.0.0.1',
    'udp_port': 9999,
    'metrics_port': 8080
  },
  'symbols': [
    {
      'symbol': 'AAPL',
      'tick_size': 0.01,
      'lot_size': 1,
      'price_collar_pct': 10.0
    },
    {
      'symbol': 'MSFT', 
      'tick_size': 0.01,
      'lot_size': 1,
      'price_collar_pct': 10.0
    },
    {
      'symbol': 'GOOGL',
      'tick_size': 0.01,
      'lot_size': 1,
      'price_collar_pct': 10.0
    }
  ],
  'risk': {
    'max_order_size': 10000,
    'max_notional_per_client': 1000000.0,
    'max_orders_per_second': 1000,
    'price_collar_enabled': true
  },
  'performance': {
    'order_pool_size': 1000000,
    'queue_capacity': 65536,
    'enable_cpu_pinning': false,
    'tcp_nodelay': true,
    'udp_buffer_size': 262144
  },
  'logging': {
    'level': 'INFO',
    'rate_limit_ms': 1000,
    'enable_structured': true
  },
  'persistence': {
    'enable_event_log': false,
    'snapshot_interval_ms': 60000,
    'log_directory': './logs'
  }
}".

Example shipped_config_parsed :
  JsonParser.parse shipped_config =
  Done (mkFullConfig
    (mkConfig (mkExchangeConfig (cstr "RTES") 8888 (cstr "239.0.0.1") 9999 8080)
       [JsonParser.default_symbol (cstr "AAPL"); JsonParser.default_symbol (cstr "MSFT"); JsonParser.default_symbol (cstr "GOOGL")]
       (mkRiskConfig 10000 (double_of_Z 1000000) 1000 true)
       (mkPerformanceConfig 1000000 65536 false true 262144 4096))
    (mkLogging (cstr "INFO") 1000 true) (mkPersistence false 60000 (cstr "./logs"))).
Proof. vm_compute. reflexivity. Qed.

(** A number on the next line, in quotes or negative is an exception, a port
    above 65535 undefined behaviour, and a missing truth value is whichever word
    comes first in the rest of the file. *)
Example irregular_fields :
  JsonParser.extract_uint16 (json_text "{'tcp_port': '80'}") (cstr "tcp_port") = Throws "stod" /\
  JsonParser.extract_uint16 (json_text "{'tcp_port': -80}") (cstr "tcp_port") = Throws "stod" /\
  JsonParser.extract_uint16 (json_text "{'tcp_port': 70000}") (cstr "tcp_port") = Undefined /\
  JsonParser.extract_bool (json_text "{'tcp_nodelay': 0, 'other': true}") (cstr "tcp_nodelay") = true.
Proof. vm_compute. by split_and!. Qed.
