(* ===== verification/Performance.v ===== *)
(** * The performance optimizer (performance_optimizer.hpp/.cpp)

    Fast parsers, a ring buffer, an allocator that hands out consecutive pieces
    of large blocks, and trackers of latency, memory and throughput; each as its
    sequential operations, where a compare-exchange succeeds.  Addresses are
    integers; the blocks that [aligned_alloc] returns are an argument. *)

From S2P Require Import Prelude Types Double MemorySafety Strings Formatting.

(** ** FastStringParser *)

Module FastStringParser.

Definition is_alpha_upper (c : Z) : bool := (65 <=? c) && (c <=? 90).
Definition is_digit (c : Z) : bool := (48 <=? c) && (c <=? 57).
Definition symbol_char (c : Z) : bool := is_alpha_upper c || is_digit c.

(** Characters are written to [output] up to the first invalid one. *)
Fixpoint copy_symbol (input : cstring) (i : nat) (output : list Z) : bool * list Z :=
  match input with
  | [] => (true, <[i := 0]> output)
  | c :: rest => if symbol_char c then copy_symbol rest (S i) (<[i := c]> output) else (false, output)
  end.
Definition parse_symbol (input : cstring) (output : list Z) (max_len : Z) : bool * list Z :=
  match input with
  | [] => (false, output)
  | _ => if max_len -₆₄ 1 <? Z.of_nat (length input) then (false, output) else copy_symbol input 0 output
  end.

Fixpoint parse_uint64_loop (input : cstring) (result : Z) : Z :=
  match input with
  | [] => result
  | c :: rest => if is_digit c then parse_uint64_loop rest (wrap 64 (result * 10 + (c - 48))) else 0
  end.
Definition parse_uint64 (input : cstring) : Z := parse_uint64_loop input 0.

Definition tenth : double := double_div (double_of_Z 1) (double_of_Z 10).

Fixpoint parse_price_loop (input : cstring) (result fraction : double) (after_decimal : bool) (decimal_place : double) : double :=
  match input with
  | [] => double_add result fraction
  | c :: rest =>
      if c =? 46 then parse_price_loop rest result fraction true decimal_place
      else if is_digit c then
        if after_decimal then
          parse_price_loop rest result (double_add fraction (double_mul (double_of_Z (c - 48)) decimal_place)) true
            (double_mul decimal_place tenth)
        else parse_price_loop rest (double_add (double_mul result (double_of_Z 10)) (double_of_Z (c - 48))) fraction false decimal_place
      else double_of_Z 0
  end.
Definition parse_price (input : cstring) : double :=
  parse_price_loop input (double_of_Z 0) (double_of_Z 0) false tenth.

Definition is_valid_symbol_fast (symbol : cstring) : bool :=
  match symbol with [] => false | _ => (Z.of_nat (length symbol) <=? 8) && forallb symbol_char symbol end.

End FastStringParser.

(** ** RingBuffer *)

Module RingBuffer.
Section ring.
Context {T : Type}.
Variable SIZE : Z.

Record t := mk { head_ : Z; tail_ : Z; buffer_ : list T }.
Implicit Types r : t.

Definition init (dflt : T) : t := mk 0 0 (replicate (Z.to_nat SIZE) dflt).
Definition next (i : Z) : Z := Z.land (i +₆₄ 1) (SIZE -₆₄ 1).

Definition push (item : T) r : bool * t :=
  if next (tail_ r) =? head_ r then (false, r)
  else (true, mk (head_ r) (next (tail_ r)) (<[Z.to_nat (tail_ r) := item]> (buffer_ r))).

Definition pop r : option T * t :=
  if head_ r =? tail_ r then (None, r)
  else (buffer_ r !! Z.to_nat (head_ r), mk (next (head_ r)) (tail_ r) (buffer_ r)).

Definition size r : Z := Z.land (tail_ r -₆₄ head_ r) (SIZE -₆₄ 1).
Definition empty r : bool := head_ r =? tail_ r.
Definition full r : bool := next (tail_ r) =? head_ r.

End ring.
Arguments t : clear implicits.
End RingBuffer.

(** ** CompactAllocator *)

Module CompactAllocator.
Section allocator.
Variable BLOCK_SIZE : Z.
Variable sizeof_T : Z.
(** What the [n]-th [aligned_alloc] returns. *)
Variable heap : nat -> option Z.

Record t := mk {
  blocks_ : list Z;
  current_block_ : Z;     (* 0: null *)
  current_offset_ : Z;
  requested : nat         (* calls of [aligned_alloc] so far *)
}.
Implicit Types a : t.

Definition allocate_new_block a : t :=
  match heap (requested a) with
  | Some block => mk (blocks_ a ++ [block]) block 0 (S (requested a))
  | None => mk (blocks_ a) (current_block_ a) (current_offset_ a) (S (requested a))
  end.

Definition make : t := allocate_new_block (mk [] 0 0 0).

Definition allocate a : Z * t :=
  let a := if BLOCK_SIZE <? current_offset_ a +₆₄ sizeof_T then allocate_new_block a else a in
  (current_block_ a + current_offset_ a,
   mk (blocks_ a) (current_block_ a) (current_offset_ a +₆₄ sizeof_T) (requested a)).

Definition reset a : t :=
  mk (blocks_ a) (match blocks_ a with [] => current_block_ a | b :: _ => b end) 0 (requested a).

Fixpoint allocations (n : nat) a : list Z * t :=
  match n with
  | O => ([], a)
  | S n => let '(p, a) := allocate a in let '(ps, a) := allocations n a in (p :: ps, a)
  end.

End allocator.
End CompactAllocator.

(** ** OrderBookLevelsSOA *)

Module OrderBookLevelsSOA.
Definition MAX_LEVELS : Z := 1024.
Record t := mk {
  prices : list Price;
  quantities : list Quantity;
  order_counts : list Z;
  first_orders : list Z;
  size : Z
}.
Implicit Types l : t.

(** A level beyond the last one is dropped. *)
Definition insert_level (price : Price) (qty : Quantity) (count first_order : Z) l : t :=
  if size l <? MAX_LEVELS then
    let i := Z.to_nat (size l) in
    mk (<[i := price]> (prices l)) (<[i := qty]> (quantities l)) (<[i := count]> (order_counts l))
      (<[i := first_order]> (first_orders l)) (size l + 1)
  else l.
End OrderBookLevelsSOA.

(** ** Trackers *)

Module LatencyTracker.

Record t := mk { count_ : Z; total_ns_ : Z; min_ns_ : Z; max_ns_ : Z }.
Record Stats := mkStats { count : Z; avg_ns : Z; min_ns : Z; max_ns : Z }.

Definition init : t := mk 0 0 u64_max 0.
Definition record_latency (latency_ns : Z) (l : t) : t :=
  mk (count_ l +₆₄ 1) (total_ns_ l +₆₄ latency_ns)
    (if latency_ns <? min_ns_ l then latency_ns else min_ns_ l)
    (if max_ns_ l <? latency_ns then latency_ns else max_ns_ l).
Definition get_stats (l : t) : Stats :=
  mkStats (count_ l) (if 0 <? count_ l then total_ns_ l / count_ l else 0) (min_ns_ l) (max_ns_ l).
Definition reset (l : t) : t := init.

(** The measurement of a scope: the difference of two readings of the clock. *)
Definition measured (start_time end_time : Z) (l : t) : t := record_latency (end_time -₆₄ start_time) l.

End LatencyTracker.

Module MemoryMonitor.

Record t := mk { total_allocated_ : Z; peak_allocated_ : Z; current_allocated_ : Z; allocation_count_ : Z }.

Definition init : t := mk 0 0 0 0.
Definition record_allocation (size : Z) (m : t) : t :=
  let current := current_allocated_ m +₆₄ size in
  mk (total_allocated_ m +₆₄ size) (if peak_allocated_ m <? current then current else peak_allocated_ m)
    current (allocation_count_ m +₆₄ 1).
Definition record_deallocation (size : Z) (m : t) : t :=
  mk (total_allocated_ m) (peak_allocated_ m) (current_allocated_ m -₆₄ size) (allocation_count_ m).

End MemoryMonitor.

Module ThroughputTracker.

(** Times in nanoseconds. *)
Record t := mk { event_count_ : Z; last_reset_ : Z }.

Definition make (now : Z) : t := mk 0 now.
Definition record_event (t : t) : ThroughputTracker.t := mk (event_count_ t +₆₄ 1) (last_reset_ t).
Definition get_throughput_per_second (now : Z) (t : t) : double * ThroughputTracker.t :=
  let elapsed := (now - last_reset_ t) `quot` 1000 in
  if 1000000 <? elapsed
  then (double_div (double_mul (double_of_Z (event_count_ t)) (double_of_Z 1000000)) (double_of_Z elapsed), mk 0 now)
  else (double_of_Z 0, t).

End ThroughputTracker.

(** ** PerformanceOptimizer *)

Module PerformanceOptimizer.
Section optimizer.
Variable sizeof_Order : Z.
Variable heap : nat -> option Z.

Record t := mk {
  order_allocator_ : CompactAllocator.t;
  memory_monitor_ : MemoryMonitor.t;
  latency_trackers_ : gmap cstring LatencyTracker.t;
  throughput_trackers_ : gmap cstring ThroughputTracker.t
}.
Implicit Types o : t.

Definition make : t := mk (CompactAllocator.make heap) MemoryMonitor.init ∅ ∅.

Definition parse_symbol_fast (input : cstring) (output : list Z) : bool * list Z :=
  FastStringParser.parse_symbol input output 9.
Definition parse_order_id_fast (input : cstring) : Z := FastStringParser.parse_uint64 input.
Definition parse_price_fast (input : cstring) : option Price :=
  trunc_u64 (double_mul (FastStringParser.parse_price input) (double_of_Z 10000)).

Definition allocate_order o : Z * t :=
  let '(order, a) := CompactAllocator.allocate 4096 sizeof_Order heap (order_allocator_ o) in
  (order, mk a (if order =? 0 then memory_monitor_ o else MemoryMonitor.record_allocation sizeof_Order (memory_monitor_ o))
    (latency_trackers_ o) (throughput_trackers_ o)).
Definition deallocate_order (order : Z) o : t :=
  if order =? 0 then o
  else mk (order_allocator_ o) (MemoryMonitor.record_deallocation sizeof_Order (memory_monitor_ o))
    (latency_trackers_ o) (throughput_trackers_ o).

(** The tracker is created when the operation is first asked for. *)
Definition get_latency_tracker (operation : cstring) o : t :=
  match latency_trackers_ o !! operation with
  | Some _ => o
  | None => mk (order_allocator_ o) (memory_monitor_ o) (<[operation := LatencyTracker.init]> (latency_trackers_ o))
      (throughput_trackers_ o)
  end.
Definition get_throughput_tracker (now : Z) (operation : cstring) o : t :=
  match throughput_trackers_ o !! operation with
  | Some _ => o
  | None => mk (order_allocator_ o) (memory_monitor_ o) (latency_trackers_ o)
      (<[operation := ThroughputTracker.make now]> (throughput_trackers_ o))
  end.

(** [order]: how an [unordered_map] is walked.  Reading a throughput may restart
    its count. *)
Variable order : forall V : Type, gmap cstring V -> list (cstring * V).
Definition line (label : string) (v : Z) (unit : string) : cstring := cstr label ++ print_u64 v ++ cstr unit ++ [10].
Definition latency_text (e : cstring * LatencyTracker.t) : cstring :=
  let stats := LatencyTracker.get_stats e.2 in
  if 0 <? LatencyTracker.count stats
  then cstr "  " ++ e.1 ++ cstr ":" ++ [10] ++ line "    Count: " (LatencyTracker.count stats) "" ++
       line "    Average: " (LatencyTracker.avg_ns stats) " ns" ++ line "    Min: " (LatencyTracker.min_ns stats) " ns" ++
       line "    Max: " (LatencyTracker.max_ns stats) " ns"
  else [].
Definition throughput_text (now : Z) (e : cstring * ThroughputTracker.t) : cstring :=
  let throughput := (ThroughputTracker.get_throughput_per_second now e.2).1 in
  if double_lt (double_of_Z 0) throughput
  then cstr "  " ++ e.1 ++ cstr ": " ++ print_general throughput ++ cstr " events/sec" ++ [10] else [].
Definition print_performance_stats (now : Z) o : cstring * t :=
  let m := memory_monitor_ o in
  ([10] ++ cstr "=== Performance Statistics ===" ++ [10] ++ cstr "Memory:" ++ [10] ++
   line "  Total Allocated: " (MemoryMonitor.total_allocated_ m) " bytes" ++
   line "  Peak Allocated: " (MemoryMonitor.peak_allocated_ m) " bytes" ++
   line "  Current Allocated: " (MemoryMonitor.current_allocated_ m) " bytes" ++
   line "  Allocation Count: " (MemoryMonitor.allocation_count_ m) "" ++ [10] ++
   cstr "Latency (nanoseconds):" ++ [10] ++ concat (latency_text <$> order _ (latency_trackers_ o)) ++
   [10] ++ cstr "Throughput (events/second):" ++ [10] ++ concat (throughput_text now <$> order _ (throughput_trackers_ o)) ++
   cstr "==============================" ++ [10; 10],
   mk (order_allocator_ o) m (latency_trackers_ o)
     ((fun t => (ThroughputTracker.get_throughput_per_second now t).2) <$> throughput_trackers_ o)).

Definition reset_all_stats o : t :=
  mk (CompactAllocator.reset (order_allocator_ o)) MemoryMonitor.init (LatencyTracker.reset <$> latency_trackers_ o)
    (throughput_trackers_ o).

End optimizer.
End PerformanceOptimizer.

(** ** What the fast parsers accept *)

Module ParserClaims.
Import FastStringParser.

Lemma parse_uint64_loop_digits ds r :
  Forall (fun c => 48 <= c <= 57) ds ->
  parse_uint64_loop ds (wrap 64 r) = wrap 64 (foldl (fun v c => 10 * v + (c - 48)) r ds).
Proof.
  revert r. induction ds as [|c ds IH]; intros r Hd; [done|]. inversion Hd as [|? ? Hc Hds]; subst.
  cbn [parse_uint64_loop foldl]. assert (is_digit c = true) as -> by (unfold is_digit; zbool; lia).
  rewrite -IH //. f_equal. unfold wrap. rewrite Zplus_mod Zmult_mod_idemp_l -Zplus_mod. f_equal. lia.
Qed.

(** Printing a 64-bit number and parsing the text gives the number back; on any
    text of digits the result is the value modulo 2^64. *)
Theorem parse_uint64_print n : u64 n -> parse_uint64 (print_u64 n) = n.
Proof.
  intros Hn. destruct (print_u64_spec n Hn) as (Hp & Hd & _). unfold parse_uint64.
  change 0 with (wrap 64 0). rewrite parse_uint64_loop_digits //.
  change (foldl _ 0 _) with (parse_digits (print_u64 n)). rewrite Hp. by apply wrap_small.
Qed.

Lemma parse_uint64_loop_invalid ds c r rest :
  is_digit c = false -> parse_uint64_loop (ds ++ c :: rest) r = 0.
Proof.
  intros Hc. revert r. induction ds as [|d ds IH]; intros r; cbn [app parse_uint64_loop]; [by rewrite Hc|].
  destruct (is_digit d); [apply IH|done].
Qed.

Lemma copy_symbol_spec input pre suf :
  (length input < length suf)%nat ->
  copy_symbol input (length pre) (pre ++ suf) =
  (forallb symbol_char input,
   if forallb symbol_char input then pre ++ input ++ 0 :: drop (S (length input)) suf
   else (copy_symbol input (length pre) (pre ++ suf)).2).
Proof.
  revert pre suf. induction input as [|c input IH]; intros pre suf Hl; cbn [length] in Hl.
  - destruct suf as [|x suf]; [simpl in Hl; lia|]. cbn [copy_symbol forallb]. by rewrite insert_middle.
  - cbn [copy_symbol forallb]. destruct (symbol_char c) eqn:Hc; cbn [andb]; [|done].
    destruct suf as [|x suf]; [simpl in Hl; lia|]. rewrite insert_middle.
    specialize (IH (pre ++ [c]) suf). rewrite length_app /= Nat.add_1_r -app_assoc in IH. cbn [app] in IH.
    rewrite IH; [simpl in Hl; lia|]. by destruct (forallb symbol_char input); cbn [snd]; rewrite -?app_assoc.
Qed.

(** A symbol is parsed exactly when it is valid; the output is then the text with
    its terminator, the rest of the buffer unchanged. *)
Theorem parse_symbol_fast_valid input output :
  (9 <= length output)%nat ->
  (PerformanceOptimizer.parse_symbol_fast input output).1 = is_valid_symbol_fast input /\
  (is_valid_symbol_fast input = true ->
   (PerformanceOptimizer.parse_symbol_fast input output).2 = input ++ 0 :: drop (S (length input)) output).
Proof.
  intros Ho. unfold PerformanceOptimizer.parse_symbol_fast, parse_symbol, is_valid_symbol_fast.
  destruct input as [|c input]; [done|]. cbv match. change (9 -₆₄ 1) with 8. set (s := c :: input).
  destruct (Z.ltb_spec 8 (Z.of_nat (length s))) as [Hl|Hl].
  - by rewrite (proj2 (Z.leb_gt _ _)).
  - rewrite (proj2 (Z.leb_le _ _)) //. cbn [andb]. pose proof (copy_symbol_spec s [] output) as Hc.
    cbn [length app] in Hc. rewrite Hc; [lia|]. split; [done|]. intros ->. done.
Qed.

(** Off by one: the product by 10000 is truncated, not rounded. *)
Example parse_price_truncates :
  PerformanceOptimizer.parse_price_fast (cstr "1.13") = Some 11299 /\
  PerformanceOptimizer.parse_price_fast (cstr "1.25") = Some 12500.
Proof. by vm_compute. Qed.

(** A number above 64 bits wraps to a small one, and the result for text that is
    not a number is that of [0]. *)
Example parse_uint64_wraps :
  parse_uint64 (cstr "18446744073709551616") = 0 /\ parse_uint64 (cstr "18446744073709551623") = 7 /\
  parse_uint64 (cstr "12x") = parse_uint64 (cstr "0") /\ parse_uint64 [] = 0.
Proof. by vm_compute. Qed.

End ParserClaims.

(** ** The ring buffer is a bounded FIFO *)

Module RingClaims.
Import RingBuffer.
Section ring.
Context {T : Type}.
Variable k : Z.
Hypothesis Hk : 0 < k < 64.
Abbreviation SIZE := (2 ^ k).
Implicit Types (r : RingBuffer.t T) (l : list T).

(** The elements of [l] are in the buffer, from the head on. *)
Record holds r l : Prop := {
  h_head : 0 <= head_ r < SIZE;
  h_tail : tail_ r = (head_ r + Z.of_nat (length l)) mod SIZE;
  h_length : Z.of_nat (length l) < SIZE;
  h_buffer : Z.of_nat (length (buffer_ r)) = SIZE;
  h_at i x : l !! i = Some x -> buffer_ r !! Z.to_nat ((head_ r + Z.of_nat i) mod SIZE) = Some x
}.

Lemma size_bound : 2 <= SIZE < 2 ^ 64.
Proof using Hk.
  split; [change 2 with (2 ^ 1) at 1; apply Z.pow_le_mono_r; lia|apply Z.pow_lt_mono_r; lia].
Qed.

Lemma mask_mod x : Z.land (wrap 64 x) (SIZE -₆₄ 1) = x mod SIZE.
Proof using Hk.
  pose proof size_bound. rewrite (wrap_small 64 (SIZE - 1)); [u_lia|].
  rewrite land_pow2_mask; [lia|]. by rewrite wrap_mod_pow2; [lia|].
Qed.

Lemma full_length r l : holds r l -> next SIZE (tail_ r) = head_ r <-> Z.of_nat (length l) = SIZE - 1.
Proof using Hk.
  intros [Hh Ht Hl _ _]. pose proof size_bound. unfold next. rewrite mask_mod Ht Zplus_mod_idemp_l. split.
  - intros E. destruct (decide (Z.of_nat (length l) = SIZE - 1)) as [|Hn]; [done|].
    exfalso. apply (mod_distinct SIZE (head_ r) (Z.of_nat (length l) + 1)); [lia|].
    rewrite Z.mod_small // -E. f_equal. lia.
  - intros ->. replace (head_ r + (SIZE - 1) + 1) with (head_ r + 1 * SIZE) by lia.
    rewrite Z_mod_plus_full. by apply Z.mod_small.
Qed.

Lemma empty_length r l : holds r l -> head_ r = tail_ r <-> l = [].
Proof using Hk.
  intros [Hh Ht Hl _ _]. pose proof size_bound. rewrite Ht. split.
  - intros E. destruct l as [|x l]; [done|]. exfalso.
    apply (mod_distinct SIZE (head_ r) (Z.of_nat (length (x :: l)))); [cbn [length] in *; lia|].
    by rewrite {1}Z.mod_small.
  - intros ->. rewrite Z.add_0_r. symmetry. by apply Z.mod_small.
Qed.

Lemma ring_push_holds r l x :
  holds r l ->
  exists r', push SIZE x r = (bool_decide (Z.of_nat (length l) < SIZE - 1), r') /\
    holds r' (if bool_decide (Z.of_nat (length l) < SIZE - 1) then l ++ [x] else l).
Proof using Hk.
  intros Hr. pose proof (full_length r l Hr) as Hf. pose proof Hr as [Hh Ht Hl Hb Hat]. pose proof size_bound.
  unfold push. destruct (Z.eqb_spec (next SIZE (tail_ r)) (head_ r)) as [E|E].
  - rewrite bool_decide_false; [apply Hf in E; lia|]. by eexists.
  - assert (Z.of_nat (length l) <> SIZE - 1) as Hn by (intros ?; apply E, Hf; done).
    rewrite bool_decide_true; [lia|]. eexists. split; [done|]. split; cbn [head_ tail_ buffer_].
    + done.
    + unfold next. rewrite mask_mod Ht Zplus_mod_idemp_l length_app /=. f_equal. lia.
    + rewrite length_app /=. lia.
    + by rewrite length_insert.
    + intros i y Hy. pose proof (Z.mod_pos_bound (head_ r + Z.of_nat i) SIZE). 
      pose proof (Z.mod_pos_bound (head_ r + Z.of_nat (length l)) SIZE).
      apply lookup_snoc_Some in Hy as [[Hi Hy]|[-> <-]].
      * rewrite list_lookup_insert_ne; [|by apply Hat]. rewrite Ht. intros E'.
        apply Z2Nat.inj in E'; [|lia..].
        apply (mod_distinct SIZE (head_ r + Z.of_nat i) (Z.of_nat (length l) - Z.of_nat i)); [lia|].
        rewrite -E'. f_equal. lia.
      * rewrite Ht list_lookup_insert_eq //. lia.
Qed.

Lemma ring_pop_holds r l :
  holds r l ->
  exists r', pop SIZE r = (head l, r') /\ holds r' (tail l).
Proof using Hk.
  intros Hr. pose proof (empty_length r l Hr) as Hf. pose proof Hr as [Hh Ht Hl Hb Hat]. pose proof size_bound.
  unfold pop. destruct (Z.eqb_spec (head_ r) (tail_ r)) as [E|E].
  - rewrite (proj1 Hf E). exists r. split; [done|]. rewrite -(proj1 Hf E) //.
    by rewrite (proj1 Hf E) in Hr |- *.
  - destruct l as [|x l]; [by exfalso; apply E, Hf|]. cbn [head tail length] in *.
    pose proof (Hat 0%nat x eq_refl) as H0. rewrite Z.add_0_r Z.mod_small // in H0. rewrite H0.
    eexists. split; [done|]. unfold next. rewrite mask_mod. split; cbn [head_ tail_ buffer_].
    + apply Z.mod_pos_bound. lia.
    + rewrite Ht Zplus_mod_idemp_l. f_equal. lia.
    + lia.
    + done.
    + intros i y Hy. rewrite Zplus_mod_idemp_l -(Hat (S i) y Hy). do 3 f_equal. lia.
Qed.

Lemma ring_size_holds r l : holds r l -> size SIZE r = Z.of_nat (length l).
Proof using Hk.
  intros [Hh Ht Hl _ _]. pose proof size_bound. unfold size. rewrite mask_mod Ht Zminus_mod_idemp_l.
  rewrite Z.mod_small; lia.
Qed.

Lemma ring_init_holds dflt : holds (init SIZE dflt) [].
Proof using Hk. pose proof size_bound. split; cbn [init head_ tail_ buffer_]; rewrite ?length_replicate ?Z.mod_small //=; lia. Qed.

(** A sequence of pushes and pops on the buffer, and on a list that holds at most
    [SIZE - 1] elements. *)
Inductive op := Push (x : T) | Pop.
Inductive answer := Pushed (b : bool) | Popped (x : option T).

Fixpoint run (ops : list op) r : list answer * RingBuffer.t T :=
  match ops with
  | [] => ([], r)
  | Push x :: ops => let '(b, r) := push SIZE x r in let '(bs, r) := run ops r in (Pushed b :: bs, r)
  | Pop :: ops => let '(x, r) := pop SIZE r in let '(bs, r) := run ops r in (Popped x :: bs, r)
  end.
Fixpoint run_spec (ops : list op) l : list answer * list T :=
  match ops with
  | [] => ([], l)
  | Push x :: ops =>
      let b := bool_decide (Z.of_nat (length l) < SIZE - 1) in
      let '(bs, l) := run_spec ops (if b then l ++ [x] else l) in (Pushed b :: bs, l)
  | Pop :: ops => let '(bs, l') := run_spec ops (tail l) in (Popped (head l) :: bs, l')
  end.

Lemma run_holds ops r l :
  holds r l -> (run ops r).1 = (run_spec ops l).1 /\ holds (run ops r).2 (run_spec ops l).2.
Proof using Hk.
  revert r l. induction ops as [|[x|] ops IH]; intros r l Hr; cbn [run run_spec]; [done| |].
  - destruct (ring_push_holds r l x Hr) as (r' & -> & Hr'). apply IH in Hr' as [E Hr'].
    destruct (run ops r') as [bs r1], (run_spec ops _) as [bs' l1]. cbn [fst snd] in *. by rewrite E.
  - destruct (ring_pop_holds r l Hr) as (r' & -> & Hr'). apply IH in Hr' as [E Hr'].
    destruct (run ops r') as [bs r1], (run_spec ops _) as [bs' l1]. cbn [fst snd] in *. by rewrite E.
Qed.

(** Any sequence of pushes and pops answers as a first-in first-out list with room
    for [SIZE - 1] elements does, and [size], [empty] and [full] report its length. *)
Theorem ring_buffer_fifo dflt ops :
  let '(answers, r) := run ops (init SIZE dflt) in
  let '(answers', l) := run_spec ops [] in
  answers = answers' /\ size SIZE r = Z.of_nat (length l) /\
  empty r = bool_decide (l = []) /\ full SIZE r = bool_decide (Z.of_nat (length l) = SIZE - 1).
Proof using Hk.
  destruct (run_holds ops _ [] (ring_init_holds dflt)) as [E Hr].
  destruct (run ops _) as [bs r], (run_spec ops []) as [bs' l]. cbn [fst snd] in *.
  split; [done|]. split; [by apply ring_size_holds|]. unfold empty, full.
  split; apply eq_bool_prop_intro; split; intros Hb.
  - apply bool_decide_pack, (empty_length r l Hr). by apply Z.eqb_eq, Is_true_true.
  - apply Is_true_true, Z.eqb_eq, (empty_length r l Hr). by apply bool_decide_unpack in Hb.
  - apply bool_decide_pack, (full_length r l Hr). by apply Z.eqb_eq, Is_true_true.
  - apply Is_true_true, Z.eqb_eq, (full_length r l Hr). by apply bool_decide_unpack in Hb.
Qed.

End ring.

(** A buffer of 4 refuses the fourth element. *)
Example ring_of_four :
  (run 2 [Push 1; Push 2; Push 3; Push 4; Pop; Push 5; Pop; Pop; Pop; Pop] (init (2 ^ 2) 0)).1 =
  [Pushed true; Pushed true; Pushed true; Pushed false; Popped (Some 1); Pushed true;
   Popped (Some 2); Popped (Some 3); Popped (Some 5); Popped None].
Proof. by vm_compute. Qed.

Lemma ring_buffer_fifo_witness :
  (run 2 [Push 1; Push 2; Push 3; Push 4; Pop; Pop] (init (2 ^ 2) 0)).1 =
    [Pushed true; Pushed true; Pushed true; Pushed false; Popped (Some 1); Popped (Some 2)].
Proof.
  pose proof (ring_buffer_fifo 2 ltac:(lia) 0 [Push 1; Push 2; Push 3; Push 4; Pop; Pop]) as H.
  destruct (run 2 [Push 1; Push 2; Push 3; Push 4; Pop; Pop] (init (2 ^ 2) 0)) as [answers r].
  destruct (run_spec 2 [Push 1; Push 2; Push 3; Push 4; Pop; Pop] []) as [answers' l] eqn:E. destruct H as [H _].
  cbn [fst]. rewrite H. vm_compute in E. by injection E as <- <-.
Defined.

End RingClaims.

(** ** The statistics *)

Module TrackerClaims.
Import LatencyTracker.

Definition record_all (ls : list Z) : t := foldl (fun l x => record_latency x l) init ls.

Record stats_of (l : t) (ls : list Z) : Prop := {
  so_count : count_ l = wrap 64 (Z.of_nat (length ls));
  so_total : total_ns_ l = wrap 64 (sumZ ls);
  so_min_le : Forall (fun x => min_ns_ l <= x) ls;
  so_min_in : min_ns_ l ∈ u64_max :: ls;
  so_max_ge : Forall (fun x => x <= max_ns_ l) ls;
  so_max_in : max_ns_ l ∈ 0 :: ls
}.

Lemma record_latency_stats l ls x : u64 x -> stats_of l ls -> stats_of (record_latency x l) (ls ++ [x]).
Proof.
  intros Hx [Hc Ht Hmi Hmin Hma Hmax]. split; cbn [record_latency count_ total_ns_ min_ns_ max_ns_].
  - rewrite Hc length_app wrap_add_l. f_equal. simpl. lia.
  - rewrite Ht sumZ_app wrap_add_l. f_equal. simpl. lia.
  - apply Forall_app. destruct (Z.ltb_spec x (min_ns_ l)); split; try (apply Forall_singleton; lia); [|done].
    eapply Forall_impl; [exact Hmi|]. simpl. lia.
  - destruct (Z.ltb_spec x (min_ns_ l)); set_solver.
  - apply Forall_app. destruct (Z.ltb_spec (max_ns_ l) x); split; try (apply Forall_singleton; lia); [|done].
    eapply Forall_impl; [exact Hma|]. simpl. lia.
  - destruct (Z.ltb_spec (max_ns_ l) x); set_solver.
Qed.

Lemma record_all_stats ls : Forall u64 ls -> stats_of (record_all ls) ls.
Proof.
  intros Hls. induction ls as [|x ls IH] using rev_ind.
  - split; cbn; try done; set_solver.
  - apply Forall_app in Hls as [Hls Hx]. apply (Forall_singleton u64) in Hx. unfold record_all. rewrite foldl_app.
    apply record_latency_stats; [done|]. by apply IH.
Qed.

(** After any sequence of latencies whose sum fits 64 bits the statistics are
    their number, the integer mean, the least and the greatest of them. *)
Theorem latency_stats_exact ls :
  ls <> [] -> Forall u64 ls -> u64 (sumZ ls) -> u64 (Z.of_nat (length ls)) ->
  let s := get_stats (record_all ls) in
  count s = Z.of_nat (length ls) /\ avg_ns s = sumZ ls / Z.of_nat (length ls) /\
  min_ns s ∈ ls /\ max_ns s ∈ ls /\ Forall (fun x => min_ns s <= x <= max_ns s) ls.
Proof.
  intros Hne Hls Hs Hn. pose proof (record_all_stats ls Hls) as [Hc Ht Hmi Hmin Hma Hmax].
  cbn zeta. cbn [get_stats count avg_ns min_ns max_ns]. rewrite Hc Ht !wrap_small //.
  destruct ls as [|y ls]; [done|]. split; [done|]. split; [by rewrite (proj2 (Z.ltb_lt _ _)); [simpl; lia|]|].
  inversion Hls as [|? ? Hy _]; subst. inversion Hmi as [|? ? Hmi0 _]; subst. inversion Hma as [|? ? Hma0 _]; subst.
  split; [|split].
  - apply elem_of_cons in Hmin as [E|]; [|done]. rewrite E in Hmi0 |- *. replace u64_max with y; [by left|]. u_lia.
  - apply elem_of_cons in Hmax as [E|]; [|done]. rewrite E in Hma0 |- *. replace 0 with y; [by left|]. u_lia.
  - apply Forall_and. by split.
Qed.

(** The peak is the greatest amount that was allocated at a time. *)
Definition memory_step (e : bool * Z) (m : MemoryMonitor.t) : MemoryMonitor.t :=
  if e.1 then MemoryMonitor.record_allocation e.2 m else MemoryMonitor.record_deallocation e.2 m.
Lemma memory_peak_covers es m :
  MemoryMonitor.current_allocated_ m <= MemoryMonitor.peak_allocated_ m ->
  Forall (fun e => u64 e.2) es ->
  (forall n, u64 (MemoryMonitor.current_allocated_ m + sumZ ((fun e : bool * Z => if e.1 then e.2 else - e.2) <$> take n es))) ->
  let m' := foldl (fun m e => memory_step e m) m es in
  MemoryMonitor.current_allocated_ m' = MemoryMonitor.current_allocated_ m + sumZ ((fun e : bool * Z => if e.1 then e.2 else - e.2) <$> es) /\
  MemoryMonitor.current_allocated_ m' <= MemoryMonitor.peak_allocated_ m' /\
  MemoryMonitor.peak_allocated_ m <= MemoryMonitor.peak_allocated_ m'.
Proof.
  revert m. induction es as [|[b x] es IH]; intros m Hp Hx Hn; cbn zeta; cbn [foldl]; [cbn; lia|].
  inversion Hx as [|? ? Hx0 Hxs]; subst. pose proof (Hn 1%nat) as H1. cbn in H1. replace (foldr _ _ _) with 0 in H1 by done.
  assert (MemoryMonitor.current_allocated_ (memory_step (b, x) m) =
          MemoryMonitor.current_allocated_ m + (if b then x else - x)) as E.
  { destruct b; cbn; apply wrap_small; u_lia. }
  assert (MemoryMonitor.peak_allocated_ m <= MemoryMonitor.peak_allocated_ (memory_step (b, x) m) /\
          MemoryMonitor.current_allocated_ (memory_step (b, x) m) <= MemoryMonitor.peak_allocated_ (memory_step (b, x) m)) as [Hm Hc].
  { change (0 <= x < 2 ^ 64) in Hx0. rewrite E. destruct b; unfold memory_step;
      cbn [fst snd MemoryMonitor.record_allocation MemoryMonitor.record_deallocation MemoryMonitor.peak_allocated_]; [|lia].
    rewrite wrap_small; [u_lia|].
    destruct (Z.ltb_spec (MemoryMonitor.peak_allocated_ m) (MemoryMonitor.current_allocated_ m + x)); lia. }
  destruct (IH (memory_step (b, x) m)) as (Hc' & Hp' & Hm'); [done|done| |].
  - intros n. pose proof (Hn (S n)) as H. cbn [take] in H. rewrite fmap_cons sumZ_cons in H. cbn [fst snd] in H. rewrite E.
    destruct b; u_lia.
  - split; [|by split; [|lia]]. rewrite Hc' E fmap_cons sumZ_cons. cbn [fst snd]. lia.
Qed.

End TrackerClaims.

(** ** The orders handed out do not overlap *)

Module AllocatorClaims.
Import CompactAllocator.
Section allocator.
Variables (BLOCK_SIZE sizeof_T : Z) (heap : nat -> option Z).
Hypothesis sizes : 0 < sizeof_T <= BLOCK_SIZE /\ BLOCK_SIZE < 2 ^ 63.
(** What [aligned_alloc] promises: every block is new. *)
Hypothesis heap_disjoint : forall i j b c,
  (i < j)%nat -> heap i = Some b -> heap j = Some c -> b + BLOCK_SIZE <= c \/ c + BLOCK_SIZE <= b.
(** No call fails. *)
Variable block : nat -> Z.
Hypothesis heap_serves : forall i, heap i = Some (block i).
Implicit Types a : CompactAllocator.t.

(** [a] is at [offset] of the last block requested. *)
Record at_block a : Prop := {
  ab_requested : (0 < requested a)%nat;
  ab_current : current_block_ a = block (pred (requested a));
  ab_offset : 0 <= current_offset_ a <= BLOCK_SIZE
}.

(** The place of an allocation: the number of its block and the offset in it. *)
Lemma allocate_place a p a' :
  at_block a -> allocate BLOCK_SIZE sizeof_T heap a = (p, a') ->
  at_block a' /\
  exists offset, p = block (pred (requested a')) + offset /\ 0 <= offset /\ current_offset_ a' = offset + sizeof_T /\
    ((requested a' = requested a /\ offset = current_offset_ a) \/ (requested a < requested a')%nat).
Proof using sizes heap_serves.
  destruct sizes as [Hs Hb]. intros [Hr Hc Ho]. unfold allocate, allocate_new_block. rewrite heap_serves.
  rewrite (wrap_small 64 (current_offset_ a + sizeof_T)); [u_lia|].
  destruct (Z.ltb_spec BLOCK_SIZE (current_offset_ a + sizeof_T)) as [Hl|Hl];
    cbn [current_block_ current_offset_ requested blocks_]; rewrite wrap_small; try u_lia;
    intros [= <- <-]; (split; [split|]); cbn [current_block_ current_offset_ requested pred]; try lia; try done.
  - exists 0. rewrite Z.add_0_r. repeat split; try lia. 
  - exists (current_offset_ a). rewrite Hc. repeat split; try lia. 
Qed.

Definition apart (p q : Z) : Prop := p + sizeof_T <= q \/ q + sizeof_T <= p.

(** Later allocations stay clear of a piece that ends at or before the offset of
    the current block, or lies in an earlier block. *)
Lemma allocations_clear n a i offset :
  at_block a -> 0 <= offset -> offset + sizeof_T <= BLOCK_SIZE ->
  (i = pred (requested a) /\ offset + sizeof_T <= current_offset_ a) \/ (i < pred (requested a))%nat ->
  Forall (apart (block i + offset)) (allocations BLOCK_SIZE sizeof_T heap n a).1.
Proof using sizes heap_serves heap_disjoint.
  revert a. induction n as [|n IH]; intros a Ha Ho Hl Hi; cbn [allocations]; [by apply Forall_nil_2|].
  destruct (allocate BLOCK_SIZE sizeof_T heap a) as [p a'] eqn:E.
  destruct (allocate_place a p a' Ha E) as (Ha' & o' & Ep & Ho' & Hc & Hor).
  specialize (IH a'). destruct (allocations BLOCK_SIZE sizeof_T heap n a') as [ps a1]. cbn [fst] in *.
  pose proof (ab_requested _ Ha). pose proof (ab_offset _ Ha'). apply Forall_cons_2.
  - subst p. unfold apart. destruct Hor as [[Er ->]|Hr]; [destruct Hi as [[-> Hi]|Hi]|].
    + rewrite Er. lia.
    + destruct (heap_disjoint i (pred (requested a')) _ _ ltac:(lia) (heap_serves _) (heap_serves _)); lia.
    + destruct (heap_disjoint i (pred (requested a')) _ _ ltac:(lia) (heap_serves _) (heap_serves _)); lia.
  - apply IH; [done..|]. destruct Hor as [[-> ->]|Hr]; [|right; lia]. destruct Hi as [[-> Hi]|Hi]; [left; lia|by right].
Qed.

(** Any number of allocations gives pieces inside the blocks that were obtained,
    no two of which overlap. *)
Theorem compact_allocations_disjoint n :
  let ps := (allocations BLOCK_SIZE sizeof_T heap n (make heap)).1 in
  length ps = n /\
  Forall (fun p => exists i, block i <= p /\ p + sizeof_T <= block i + BLOCK_SIZE) ps /\
  (forall i j p q, ps !! i = Some p -> ps !! j = Some q -> (i < j)%nat -> apart p q).
Proof using sizes heap_serves heap_disjoint.
  cbn zeta. assert (at_block (make heap)) as Hm.
  { destruct sizes. unfold make, allocate_new_block. rewrite heap_serves. split; cbn; lia || done. }
  revert Hm. generalize (make heap) as a. induction n as [|n IH]; intros a Ha; cbn [allocations].
  { split; [done|]. split; [by apply Forall_nil_2|]. done. }
  destruct (allocate BLOCK_SIZE sizeof_T heap a) as [p a'] eqn:E.
  destruct (allocate_place a p a' Ha E) as (Ha' & o' & Ep & Ho' & Hc & Hor). pose proof (ab_offset _ Ha') as Hb.
  pose proof (allocations_clear n a' (pred (requested a')) o' Ha' Ho' ltac:(lia) ltac:(left; lia)) as Hclear.
  destruct (IH a' Ha') as (Hl & Hin & Hap). destruct (allocations BLOCK_SIZE sizeof_T heap n a') as [ps a1].
  cbn [fst] in *. split; [by cbn; rewrite Hl|]. split.
  - apply Forall_cons_2; [|done]. exists (pred (requested a')). lia.
  - intros [|i] [|j] x y Hx Hy Hij; try lia; cbn in Hx, Hy.
    + injection Hx as <-. rewrite Ep. eapply (proj1 (Forall_lookup _ _) Hclear); done.
    + apply (Hap i j); done || lia.
Qed.

End allocator.

(** Orders of 256 bytes from blocks of 4096, at addresses a block apart. *)
Lemma compact_allocations_disjoint_witness :
  let heap i := Some (4096 + 4096 * Z.of_nat i) in
  (allocations 4096 256 heap 17 (make heap)).1 !! 16%nat = Some 8192 /\
  length (allocations 4096 256 heap 17 (make heap)).1 = 17%nat.
Proof.
  cbn zeta. split; [by vm_compute|].
  apply (compact_allocations_disjoint 4096 256 (fun i => Some (4096 + 4096 * Z.of_nat i)) ltac:(lia)
    ltac:(intros i j b c Hij [= <-] [= <-]; lia) (fun i => 4096 + 4096 * Z.of_nat i) ltac:(done) 17).
Defined.

(** When a block cannot be obtained the offset is not reset: the next order is
    placed behind the end of the old block. *)
Example allocate_past_the_block :
  let heap i := if Nat.eqb i 0 then Some 4096 else None in
  (allocations 4096 256 heap 17 (make heap)).1 !! 16%nat = Some (4096 + 4096).
Proof. by vm_compute. Qed.

(** After a reset the orders that are still in use are handed out again, and the
    second block is not used before a third is requested. *)
Example reset_reuses_live_orders :
  let heap i := Some (4096 + 8192 * Z.of_nat i) in
  let '(ps, a) := allocations 4096 256 heap 20 (make heap) in
  let '(qs, a) := allocations 4096 256 heap 17 (reset a) in
  take 16 qs = take 16 ps /\ last qs = Some (4096 + 8192 * 2) /\ length (blocks_ a) = 3%nat.
Proof. by vm_compute. Qed.

End AllocatorClaims.
