(* ===== verification/ThreadSafety.v ===== *)
(** * Thread safety utilities (include/rtes/thread_safety.hpp, src/thread_safety.cpp)

    The deadlock detector with the scoped lock built on it, the shutdown
    manager, the work drainer, the lock order validator and the race detector.
    Threads and addresses are natural numbers, times nanoseconds.  Every method
    holds the mutex of its object throughout, so a method is one step; the
    singletons are explicit states. *)

From S2P Require Import Prelude Types.

Definition tid : Type := nat.
Definition addr : Type := nat.

(** ** DeadlockDetector *)

Module DeadlockDetector.

Record t := mk {
  thread_locks_ : gmap tid (list addr);
  lock_owners_ : gmap addr tid
}.
Implicit Types d : t.

Definition init : t := mk ∅ ∅.

(** [thread_locks_[tid]]: a missing entry is created empty. *)
Definition locks_of (who : tid) d : list addr := default [] (thread_locks_ d !! who).

Definition register_lock_acquisition (who : tid) (lock_addr : addr) d : t :=
  mk (<[who := locks_of who d ++ [lock_addr]]> (thread_locks_ d)) (<[lock_addr := who]> (lock_owners_ d)).

Definition register_lock_release (who : tid) (lock_addr : addr) d : t :=
  mk (<[who := filter (fun l => l <> lock_addr) (locks_of who d)]> (thread_locks_ d)) (delete lock_addr (lock_owners_ d)).

Definition would_cause_deadlock (who : tid) (lock_addr : addr) d : bool * t :=
  match lock_owners_ d !! lock_addr with
  | None => (false, d)
  | Some owner =>
      if decide (owner = who) then (false, d)
      else
        let current_locks := locks_of who d in
        (existsb (fun held => bool_decide (lock_owners_ d !! held = Some owner)) current_locks,
         mk (<[who := current_locks]> (thread_locks_ d)) (lock_owners_ d))
  end.

End DeadlockDetector.

(** ** scoped_lock *)

(** The mutexes of the program with their owners, and the detector. *)
Record locks := mkLocks { detector : DeadlockDetector.t; mutexes : gmap addr tid }.

Definition locks_init : locks := mkLocks DeadlockDetector.init ∅.

(** The fold of [check_deadlock] over the mutexes: [None] is the exception
    "Potential deadlock detected". *)
Fixpoint check_deadlocks (who : tid) (ms : list addr) (d : DeadlockDetector.t) : option DeadlockDetector.t :=
  match ms with
  | [] => Some d
  | m :: rest =>
      let '(bad, d) := DeadlockDetector.would_cause_deadlock who m d in
      if (bad : bool) then None else check_deadlocks who rest d
  end.

(** The constructor: [Blocked] while one of the mutexes is taken. *)
Inductive lock_result := Acquired (s : locks) | Detected | Blocked.

Definition scoped_lock_make (who : tid) (ms : list addr) (s : locks) : lock_result :=
  match check_deadlocks who ms (detector s) with
  | None => Detected
  | Some d =>
      if forallb (fun m => bool_decide (mutexes s !! m = None)) ms && bool_decide (NoDup ms)
      then Acquired (mkLocks (foldl (fun d m => DeadlockDetector.register_lock_acquisition who m d) d ms)
                       (foldl (fun mu m => <[m := who]> mu) (mutexes s) ms))
      else Blocked
  end.

(** The destructor tells the detector; it does not unlock the mutexes. *)
Definition scoped_lock_destroy (who : tid) (ms : list addr) (s : locks) : locks :=
  mkLocks (foldl (fun d m => DeadlockDetector.register_lock_release who m d) (detector s) ms) (mutexes s).

(** What threads do with scoped locks: the live ones are [held]. *)
Inductive lock_step : locks * list (tid * list addr) -> locks * list (tid * list addr) -> Prop :=
  | step_make who ms s s' held :
      scoped_lock_make who ms s = Acquired s' -> lock_step (s, held) (s', (who, ms) :: held)
  | step_destroy who ms s held1 held2 :
      lock_step (s, held1 ++ (who, ms) :: held2) (scoped_lock_destroy who ms s, held1 ++ held2).

(** ** ShutdownManager *)

Module ShutdownManager.
Section manager.
Context {W : Type}.

(** A shutdown function changes the world; whether it throws does not matter to
    the manager, which catches everything. *)
Record t := mk {
  components_ : gmap cstring (W -> W);
  shutdown_requested_ : bool;
  active_components_ : Z
}.
Implicit Types m : t.

Definition init : t := mk ∅ false 0.

(** [None]: the int [active_components_] overflows. *)
Definition register_component (name : cstring) (shutdown_fn : W -> W) m : option t :=
  if active_components_ m <? 2 ^ 31 - 1
  then Some (mk (<[name := shutdown_fn]> (components_ m)) (shutdown_requested_ m) (active_components_ m + 1))
  else None.

(** [order]: how the loop visits the hash map. *)
Definition initiate_shutdown (order : list cstring) m (w : W) : t * W :=
  (mk (components_ m) true (active_components_ m),
   foldl (fun w name => match components_ m !! name with Some f => f w | None => w end) w order).

(** The condition [wait_for_shutdown] waits for. *)
Definition wait_over m : bool := shutdown_requested_ m && (active_components_ m =? 0).
Definition is_shutdown_requested m : bool := shutdown_requested_ m.

End manager.
Arguments t : clear implicits.
End ShutdownManager.

(** ** WorkDrainer *)

Module WorkDrainer.
Section drainer.
Context {A : Type}.

Record t := mk {
  work_queue_ : list A;
  draining_ : bool
}.
Implicit Types d : t.

Definition init : t := mk [] false.

Definition add_work_item (work : A) d : t :=
  if draining_ d then d else mk (work_queue_ d ++ [work]) (draining_ d).

(** One turn of the loop of [process_work]: the item to run, outside the lock. *)
Definition process_one d : option A * t :=
  match work_queue_ d with
  | [] => (None, d)
  | work :: rest => if draining_ d then (None, d) else (Some work, mk rest (draining_ d))
  end.

Definition drain_work d : t := mk [] true.

End drainer.
Arguments t : clear implicits.
End WorkDrainer.

(** ** LockOrderValidator *)

Module LockOrderValidator.

Record t := mk { lock_graph_ : gmap addr (list addr) }.
Implicit Types v : t.

Definition init : t := mk ∅.

Definition register_lock_order (first second : addr) v : t :=
  mk (<[first := default [] (lock_graph_ v !! first) ++ [second]]> (lock_graph_ v)).

Definition violates (first second : addr) v : bool :=
  match lock_graph_ v !! second with
  | Some successors => bool_decide (first ∈ successors)
  | None => false
  end.

(** The two nested loops. *)
Fixpoint validate_lock_order (locks : list addr) v : bool :=
  match locks with
  | [] => true
  | first :: rest =>
      if existsb (fun second => violates first second v) rest then false else validate_lock_order rest v
  end.

End LockOrderValidator.

(** ** RaceDetector *)

Module RaceDetector.

Record MemoryAccess := mkAccess { thread_id : tid; is_write : bool; timestamp : Z }.

Record t := mk {
  memory_accesses_ : gmap addr (list MemoryAccess);
  race_detected_ : bool
}.
Implicit Types r : t.

Definition init : t := mk ∅ false.

Definition conflicts (who : tid) (write : bool) (now : Z) (a : MemoryAccess) : bool :=
  negb (bool_decide (thread_id a = who)) && (write || is_write a) && (now - timestamp a <? 100000).

Definition register_memory_access (a : addr) (write : bool) (who : tid) (now : Z) r : t :=
  let accesses := default [] (memory_accesses_ r !! a) in
  if existsb (conflicts who write now) accesses
  then mk (<[a := accesses]> (memory_accesses_ r)) true
  else mk (<[a := filter (fun x => ~ (timestamp x < now - 1000000)) (accesses ++ [mkAccess who write now])]>
             (memory_accesses_ r)) (race_detected_ r).

Definition register_synchronization_point r : t := mk ∅ (race_detected_ r).
Definition has_race_condition r : bool := race_detected_ r.

End RaceDetector.

(** ** The detector sees no deadlock *)

Section scoped.
Import DeadlockDetector.
Implicit Types s : locks.

(** A lock in a thread's list is owned by it, an owned lock is locked by its
    owner, and so are the mutexes of live scoped locks. *)
Record lock_inv (s : locks) (held : list (tid * list addr)) : Prop := {
  li_listed who l : l ∈ locks_of who (detector s) -> lock_owners_ (detector s) !! l = Some who;
  li_owner who l : lock_owners_ (detector s) !! l = Some who -> mutexes s !! l = Some who;
  li_held who ms m : (who, ms) ∈ held -> m ∈ ms -> mutexes s !! m = Some who
}.

Lemma would_cause_deadlock_locks who m d who' :
  locks_of who' (snd (would_cause_deadlock who m d)) = locks_of who' d /\
  lock_owners_ (snd (would_cause_deadlock who m d)) = lock_owners_ d.
Proof.
  unfold would_cause_deadlock. destruct (lock_owners_ d !! m) as [owner|]; [|done].
  destruct (decide (owner = who)); [done|]. split; [|done]. unfold locks_of. cbn.
  destruct (decide (who = who')) as [->|Hne]; [by rewrite lookup_insert_eq|by rewrite lookup_insert_ne].
Qed.

(** No lock a thread holds belongs to another one. *)
Lemma would_cause_deadlock_false s held who m :
  lock_inv s held -> fst (would_cause_deadlock who m (detector s)) = false.
Proof.
  intros [Hl _ _]. unfold would_cause_deadlock. destruct (lock_owners_ (detector s) !! m) as [owner|] eqn:Ho; [|done].
  destruct (decide (owner = who)) as [|Hne]; [done|]. cbn [fst].
  apply not_true_iff_false. intros (l & Hin & Hb)%existsb_exists. apply bool_decide_eq_true in Hb.
  apply list_elem_of_In, Hl in Hin. congruence.
Qed.

Lemma check_deadlocks_same who ms d :
  (forall l owner, l ∈ locks_of who d -> lock_owners_ d !! l = Some owner -> owner = who) ->
  exists d', check_deadlocks who ms d = Some d' /\ (forall w, locks_of w d' = locks_of w d) /\ lock_owners_ d' = lock_owners_ d.
Proof.
  revert d. induction ms as [|m ms IH]; intros d Hd; cbn [check_deadlocks]; [by exists d|].
  pose proof (would_cause_deadlock_locks who m d) as Hw.
  assert (fst (would_cause_deadlock who m d) = false) as Hf.
  { unfold would_cause_deadlock. destruct (lock_owners_ d !! m) as [owner|]; [|done].
    destruct (decide (owner = who)) as [|Hne]; [done|]. cbn [fst].
    apply not_true_iff_false. intros (l & Hin & Hb)%existsb_exists. apply bool_decide_eq_true in Hb.
    apply list_elem_of_In in Hin. by specialize (Hd l owner Hin Hb). }
  destruct (would_cause_deadlock who m d) as [bad d1]. cbn [fst snd] in *. rewrite Hf.
  destruct (IH d1) as (d' & Hc & Hl & Ho).
  { intros l owner. destruct (Hw who) as [-> ->]. apply Hd. }
  exists d'. split; [done|]. split; [intros w; rewrite Hl; apply Hw|rewrite Ho; apply (Hw who)].
Qed.

(** Locking [ms] changes no other mutex. *)
Lemma lock_all_other who m ms (mu : gmap addr tid) :
  m ∉ ms -> foldl (fun mu m => <[m := who]> mu) mu ms !! m = mu !! m.
Proof.
  revert mu. induction ms as [|x ms IH]; intros mu Hm; [done|]. apply not_elem_of_cons in Hm as [Hx Hm].
  cbn [foldl]. rewrite IH //. by apply lookup_insert_ne.
Qed.

Lemma acquire_inv who ms d mu held :
  lock_inv (mkLocks d mu) held -> NoDup ms -> (forall m, m ∈ ms -> mu !! m = None) ->
  lock_inv (mkLocks (foldl (fun d m => register_lock_acquisition who m d) d ms)
              (foldl (fun mu m => <[m := who]> mu) mu ms)) held /\
  forall m, m ∈ ms -> foldl (fun mu m => <[m := who]> mu) mu ms !! m = Some who.
Proof.
  revert d mu. induction ms as [|m ms IH]; intros d mu Hinv Hnd Hfree; cbn [foldl].
  { split; [done|]. by intros m ?%not_elem_of_nil. }
  apply NoDup_cons in Hnd as [Hm Hnd]. destruct Hinv as [H1 H2 H3]. cbn [detector mutexes] in *.
  assert (mu !! m = None) as Hmu by (apply Hfree; left).
  destruct (IH (register_lock_acquisition who m d) (<[m := who]> mu)) as [Hi Ha]; [|done| |].
  - split; cbn [detector mutexes].
    + intros who' l. unfold register_lock_acquisition, locks_of at 1. cbn.
      destruct (decide (who = who')) as [<-|Hne].
      * rewrite lookup_insert_eq. cbn [default]. intros [Hl|Hl]%elem_of_app.
        -- apply H1 in Hl as Ho. destruct (decide (m = l)) as [->|]; [|by rewrite lookup_insert_ne].
           apply H2 in Ho. congruence.
        -- apply list_elem_of_singleton in Hl as ->. by rewrite lookup_insert_eq.
      * rewrite lookup_insert_ne //. intros Hl. apply H1 in Hl as Ho.
        destruct (decide (m = l)) as [->|]; [apply H2 in Ho; congruence|by rewrite lookup_insert_ne].
    + intros who' l. cbn. destruct (decide (m = l)) as [->|Hne].
      * by rewrite !lookup_insert_eq.
      * rewrite !lookup_insert_ne //. apply H2.
    + intros who' ms' m' Hh Hin. specialize (H3 who' ms' m' Hh Hin).
      rewrite lookup_insert_ne; [congruence|done].
  - intros m' Hin. rewrite lookup_insert_ne; [by intros ->|]. apply Hfree. by right.
  - split; [done|]. intros m' [->|Hin]%elem_of_cons; [|by apply Ha].
    rewrite (lock_all_other who m ms) //. apply lookup_insert_eq.
Qed.

Lemma release_inv who ms s held :
  lock_inv s held -> (forall m, m ∈ ms -> mutexes s !! m = Some who) -> lock_inv (scoped_lock_destroy who ms s) held.
Proof.
  destruct s as [d mu]. unfold scoped_lock_destroy. cbn [detector mutexes]. revert d.
  induction ms as [|m ms IH]; intros d Hinv Hm; cbn [foldl]; [done|].
  apply IH; [|intros m' ?; apply Hm; by right].
  destruct Hinv as [H1 H2 H3]. split; cbn [detector mutexes] in *; [| |done].
  - intros who' l. unfold register_lock_release, locks_of at 1. cbn.
    destruct (decide (who = who')) as [<-|Hne].
    + rewrite lookup_insert_eq. cbn [default]. intros [Hl Hin]%list_elem_of_filter.
      rewrite lookup_delete_ne; [done|]. by apply H1.
    + rewrite lookup_insert_ne //. intros Hl. apply H1 in Hl as Ho.
      destruct (decide (m = l)) as [->|]; [|by rewrite lookup_delete_ne].
      apply H2 in Ho. specialize (Hm l ltac:(left)). congruence.
  - intros who' l. cbn. intros [_ Ho]%lookup_delete_Some. by apply H2.
Qed.

Lemma lock_step_inv c c' : lock_step c c' -> lock_inv c.1 c.2 -> lock_inv c'.1 c'.2.
Proof.
  intros [who ms s s' held Hmk|who ms s held1 held2] Hinv; cbn [fst snd] in *.
  - unfold scoped_lock_make in Hmk.
    destruct (check_deadlocks_same who ms (detector s)) as (d' & Hc & Hl & Ho).
    { intros l owner Hin. rewrite (li_listed _ _ Hinv _ _ Hin). congruence. }
    rewrite Hc in Hmk. destruct (_ && _) eqn:Hg; [|done]. injection Hmk as <-.
    apply andb_true_iff in Hg as [Hfree Hnd]. apply bool_decide_eq_true in Hnd.
    destruct (acquire_inv who ms d' (mutexes s) held) as [Hi Ha]; [|done| |].
    + destruct Hinv as [H1 H2 H3]. split; cbn [detector mutexes]; [|by rewrite Ho|done].
      intros w l. rewrite Hl Ho. apply H1.
    + intros m Hm. rewrite forallb_forall in Hfree. apply list_elem_of_In, Hfree, bool_decide_eq_true in Hm. done.
    + destruct Hi as [I1 I2 I3]. split; [done|done|]. cbn [mutexes].
      intros w ms' m [[= -> ->]|Hin]%elem_of_cons Hm; [by apply Ha|by apply (I3 w ms')].
  - apply release_inv.
    + destruct Hinv as [H1 H2 H3]. split; [done|done|]. intros w ms' m Hin. apply (H3 w ms').
      apply elem_of_app in Hin as [?|?]; apply elem_of_app; [by left|right; by right].
    + intros m Hm. apply (li_held _ _ Hinv who ms); [|done]. apply elem_of_app. right. left.
Qed.

Lemma locks_reach_inv c : rtc lock_step (locks_init, []) c -> lock_inv c.1 c.2.
Proof.
  intros Hr. assert (lock_inv locks_init []) as Hi.
  { split; cbn.
    - intros who l. unfold locks_of. cbn. rewrite lookup_empty. by intros ?%not_elem_of_nil.
    - intros who l. by rewrite lookup_empty.
    - by intros who ms m ?%not_elem_of_nil. }
  change (lock_inv (locks_init, @nil (tid * list addr)).1 (locks_init, @nil (tid * list addr)).2) in Hi. revert Hi.
  induction Hr as [|c1 c2 c3 Hs _ IH]; [done|]. intros Hi. by apply IH, (lock_step_inv c1).
Qed.

(** A taken mutex stays taken. *)
Lemma mutexes_grow c c' m who : rtc lock_step c c' -> mutexes c.1 !! m = Some who -> mutexes c'.1 !! m = Some who.
Proof.
  induction 1 as [|c1 c2 c3 Hs _ IH]; [done|]. intros Hm. apply IH.
  destruct Hs as [w ms s s' held Hmk|w ms s h1 h2]; cbn [fst] in *; [|done].
  unfold scoped_lock_make in Hmk. destruct (check_deadlocks _ _ _); [|done]. destruct (_ && _) eqn:Hg; [|done].
  injection Hmk as <-. apply andb_true_iff in Hg as [Hfree _]. rewrite forallb_forall in Hfree. cbn [mutexes].
  assert (m ∉ ms) as Hno.
  { intros Hin. apply list_elem_of_In, Hfree, bool_decide_eq_true in Hin. congruence. }
  by rewrite lock_all_other.
Qed.

End scoped.

(** ** The properties *)

(** The detector reports no deadlock, whatever the threads do with scoped
    locks, and a scoped lock is for ever: its destructor unregisters the mutexes
    but does not unlock them, so in every later state a scoped lock on one of
    them blocks, also after the first one was destroyed. *)
Theorem scoped_lock_never_frees who ms s held s1 m :
  rtc lock_step (locks_init, []) (s, held) -> scoped_lock_make who ms s = Acquired s1 -> m ∈ ms ->
  forall s2 held2, rtc lock_step (s1, (who, ms) :: held) (s2, held2) ->
  forall who' ms', m ∈ ms' ->
  fst (DeadlockDetector.would_cause_deadlock who' m (detector s2)) = false /\
  scoped_lock_make who' ms' s2 = Blocked.
Proof.
  intros Hr Hmk Hm s2 held2 Hr2 who' ms' Hm'.
  assert (rtc lock_step (locks_init, []) (s1, (who, ms) :: held)) as Hr1.
  { etransitivity; [exact Hr|]. eapply rtc_once, step_make. exact Hmk. }
  assert (rtc lock_step (locks_init, []) (s2, held2)) as Hr2' by (etransitivity; [exact Hr1|exact Hr2]).
  apply locks_reach_inv in Hr1, Hr2'. cbn [fst snd] in *.
  assert (mutexes s2 !! m = Some who) as Hmu.
  { apply (mutexes_grow _ _ m who Hr2). exact (li_held _ _ Hr1 who ms m ltac:(left) Hm). }
  split; [by eapply would_cause_deadlock_false|]. unfold scoped_lock_make.
  destruct (check_deadlocks_same who' ms' (detector s2)) as (d' & -> & _).
  { intros l owner Hin. rewrite (li_listed _ _ Hr2' _ _ Hin). congruence. }
  assert (forallb (fun m0 => bool_decide (mutexes s2 !! m0 = None)) ms' = false) as ->; [|done].
  apply not_true_iff_false. rewrite forallb_forall. intros Hf.
  apply list_elem_of_In, Hf, bool_decide_eq_true in Hm'. congruence.
Qed.

Definition ex_locked : locks :=
  match scoped_lock_make 1%nat [5%nat] locks_init with Acquired s => s | _ => locks_init end.

Lemma scoped_lock_never_frees_witness :
  scoped_lock_make 2%nat [5%nat] (scoped_lock_destroy 1%nat [5%nat] ex_locked) = Blocked.
Proof.
  refine (proj2 (scoped_lock_never_frees 1%nat [5%nat] locks_init [] ex_locked 5%nat (rtc_refl _ _) eq_refl ltac:(left)
    _ [] _ 2%nat [5%nat] ltac:(left))).
  apply rtc_once. exact (step_destroy 1%nat [5%nat] ex_locked [] []).
Defined.

(** Thread 1 holds lock 5 and asks for 6, thread 2 holds 6 and asks for 5. *)
Example crossed_locks_not_detected :
  let d := DeadlockDetector.register_lock_acquisition 2%nat 6%nat
             (DeadlockDetector.register_lock_acquisition 1%nat 5%nat DeadlockDetector.init) in
  fst (DeadlockDetector.would_cause_deadlock 1%nat 6%nat d) = false /\
  fst (DeadlockDetector.would_cause_deadlock 2%nat 5%nat d) = false.
Proof. vm_compute. by split. Qed.

(** What callers do with the shutdown manager. *)
Inductive manager_op (W : Type) := Register (name : cstring) (f : W -> W) | Initiate (order : list cstring) (w : W).
Arguments Register {W}.
Arguments Initiate {W}.

Fixpoint manager_run {W} (ops : list (manager_op W)) (m : ShutdownManager.t W) : option (ShutdownManager.t W) :=
  match ops with
  | [] => Some m
  | Register name f :: rest => m ← ShutdownManager.register_component name f m; manager_run rest m
  | Initiate order w :: rest => manager_run rest (fst (ShutdownManager.initiate_shutdown order m w))
  end.

(** The number of active components never goes down: once a component is
    registered, [wait_for_shutdown] waits for ever, whatever else happens. *)
Theorem shutdown_wait_never_ends {W} (name : cstring) (f : W -> W) before after m :
  manager_run (before ++ Register name f :: after) ShutdownManager.init = Some m -> ShutdownManager.wait_over m = false.
Proof.
  intros Hr. enough (0 < ShutdownManager.active_components_ m) as Hpos.
  { unfold ShutdownManager.wait_over. rewrite (proj2 (Z.eqb_neq _ _)); [lia|]. apply andb_false_r. }
  assert (forall ops (m1 m2 : ShutdownManager.t W), manager_run ops m1 = Some m2 ->
    ShutdownManager.active_components_ m1 <= ShutdownManager.active_components_ m2) as Hmono.
  { clear. induction ops as [|[n g|o w] ops IH]; intros m1 m2 Hr; cbn [manager_run] in Hr; [by simplify_eq|..].
    - unfold ShutdownManager.register_component in Hr. destruct (_ <? _); [|done].
      cbn [mbind option_bind] in Hr. apply IH in Hr. cbn in Hr. lia.
    - apply IH in Hr. done. }
  assert (exists m1, manager_run before ShutdownManager.init = Some m1 /\
    manager_run (Register name f :: after) m1 = Some m) as (m1 & Hb & Ha).
  { clear Hmono. revert Hr. generalize (@ShutdownManager.init W).
    induction before as [|[n g|o w] before IH]; intros m0 Hr; cbn [app manager_run] in *; [by exists m0| |by apply IH].
    destruct (ShutdownManager.register_component n g m0) as [m1|]; [|done]. by apply IH. }
  apply Hmono in Hb. cbn in Hb. cbn [manager_run] in Ha. unfold ShutdownManager.register_component in Ha.
  destruct (_ <? _); [|done]. cbn [mbind option_bind] in Ha. apply Hmono in Ha. cbn in Ha. lia.
Qed.

Lemma shutdown_wait_never_ends_witness :
  exists m, manager_run [Register (cstr "engine") (fun n : nat => S n); Initiate [cstr "engine"] 0%nat] ShutdownManager.init = Some m /\
    ShutdownManager.wait_over m = false.
Proof.
  eexists. split; [reflexivity|].
  exact (shutdown_wait_never_ends (cstr "engine") (fun n : nat => S n) [] [Initiate [cstr "engine"] 0%nat] _ eq_refl).
Defined.

(** Every pair of locks is checked against the registered order of the pair:
    the sequence is accepted exactly if no lock was registered to come before
    one that precedes it in the sequence. *)
Theorem lock_order_validated locks v :
  LockOrderValidator.validate_lock_order locks v = true <->
  forall i j first second, (i < j)%nat -> locks !! i = Some first -> locks !! j = Some second ->
    first ∉ default [] (LockOrderValidator.lock_graph_ v !! second).
Proof.
  assert (forall first second, LockOrderValidator.violates first second v = false <->
    first ∉ default [] (LockOrderValidator.lock_graph_ v !! second)) as Hv.
  { intros. unfold LockOrderValidator.violates. destruct (LockOrderValidator.lock_graph_ v !! second); cbn [default].
    - apply bool_decide_eq_false.
    - split; [intros _; apply not_elem_of_nil|done]. }
  induction locks as [|x locks IH]; cbn [LockOrderValidator.validate_lock_order]; [split; [by intros _ [|i] [|j] ? ? ?|done]|].
  destruct (existsb _ locks) eqn:He.
  - split; [done|]. intros Hall. apply existsb_exists in He as (y & Hy & Hb). apply list_elem_of_In in Hy.
    apply list_elem_of_lookup in Hy as [j Hj]. exfalso. revert Hb. apply not_true_iff_false, Hv.
    exact (Hall 0%nat (S j) x y ltac:(lia) eq_refl Hj).
  - rewrite IH. split.
    + intros Hall [|i] [|j] first second Hij Hi Hj; [lia| |lia|].
      * injection Hi as <-. apply Hv, not_true_iff_false. intros Hb.
        apply not_true_iff_false in He. apply He, existsb_exists. exists second. split; [|done].
        apply list_elem_of_In, list_elem_of_lookup. by exists j.
      * exact (Hall i j first second ltac:(lia) Hi Hj).
    + intros Hall i j first second Hij Hi Hj. exact (Hall (S i) (S j) first second ltac:(lia) Hi Hj).
Qed.

(** What happens to a work drainer: [accepted] and [executed] record the items. *)
Inductive drain_op (A : Type) := AddWork (x : A) | ProcessOne | DrainWork.
Arguments AddWork {A}.
Arguments ProcessOne {A}.
Arguments DrainWork {A}.

Record drain_log (A : Type) := mkDrainLog { drainer : WorkDrainer.t A; accepted : list A; executed : list A }.
Arguments mkDrainLog {A}.
Arguments drainer {A}.
Arguments accepted {A}.
Arguments executed {A}.

Definition drain_step {A} (op : drain_op A) (s : drain_log A) : drain_log A :=
  match op with
  | AddWork x =>
      mkDrainLog (WorkDrainer.add_work_item x (drainer s))
        (if WorkDrainer.draining_ (drainer s) then accepted s else accepted s ++ [x]) (executed s)
  | ProcessOne =>
      let '(r, d) := WorkDrainer.process_one (drainer s) in
      mkDrainLog d (accepted s) (match r with Some x => executed s ++ [x] | None => executed s end)
  | DrainWork => mkDrainLog (WorkDrainer.drain_work (drainer s)) (accepted s) (executed s)
  end.

Definition drain_run {A} (ops : list (drain_op A)) : drain_log A :=
  foldl (fun s op => drain_step op s) (mkDrainLog WorkDrainer.init [] []) ops.

(** Work is executed in the order in which it was accepted, each item at most
    once; until the drain nothing is lost, and from the drain on nothing is
    accepted or executed any more: the pending items are dropped. *)
Theorem work_drainer_fifo {A} (before after : list (drain_op A)) :
  (forall op, op ∈ before -> op <> DrainWork) ->
  let s := drain_run before in
  accepted s = executed s ++ WorkDrainer.work_queue_ (drainer s) /\
  let s' := drain_run (before ++ DrainWork :: after) in
  accepted s' = accepted s /\ executed s' = executed s /\ WorkDrainer.work_queue_ (drainer s') = [].
Proof.
  intros Hb. cbn zeta.
  assert (accepted (drain_run before) = executed (drain_run before) ++ WorkDrainer.work_queue_ (drainer (drain_run before)) /\
    WorkDrainer.draining_ (drainer (drain_run before)) = false) as [Hacc _].
  { induction before as [|op before IH] using rev_ind; [done|].
    destruct IH as [IH1 IH2]; [intros; apply Hb, elem_of_app; by left|].
    unfold drain_run in *. rewrite foldl_app. cbn [foldl]. set (s := foldl _ _ before) in *.
    destruct op as [x| |]; cbn [drain_step].
    - unfold WorkDrainer.add_work_item. rewrite IH2. cbn. split; [by rewrite IH1 app_assoc|done].
    - unfold WorkDrainer.process_one. rewrite IH2 IH1.
      destruct (WorkDrainer.work_queue_ (drainer s)) as [|x q] eqn:Eq; cbn; [by rewrite Eq|].
      split; [by rewrite -app_assoc|done].
    - exfalso. apply (Hb DrainWork); [|done]. apply elem_of_app. right. left. }
  split; [done|].
  assert (forall s0 : drain_log A, WorkDrainer.draining_ (drainer s0) = true -> WorkDrainer.work_queue_ (drainer s0) = [] ->
    let s' := foldl (fun s op => drain_step op s) s0 after in
    accepted s' = accepted s0 /\ executed s' = executed s0 /\ WorkDrainer.work_queue_ (drainer s') = []) as Hafter.
  { clear. induction after as [|op after IH]; intros s0 Hd Hq; [done|]. cbn [foldl].
    destruct op as [x| |]; cbn [drain_step].
    - unfold WorkDrainer.add_work_item. rewrite Hd. by apply (IH (mkDrainLog (drainer s0) (accepted s0) (executed s0))).
    - unfold WorkDrainer.process_one. rewrite Hq. by apply (IH (mkDrainLog (drainer s0) (accepted s0) (executed s0))).
    - by apply (IH (mkDrainLog (WorkDrainer.drain_work (drainer s0)) (accepted s0) (executed s0))). }
  unfold drain_run. rewrite foldl_app. cbn [foldl]. exact (Hafter (drain_step DrainWork _) eq_refl eq_refl).
Qed.

Lemma work_drainer_fifo_witness :
  accepted (drain_run [AddWork 1%nat; AddWork 2%nat; ProcessOne]) = [1%nat] ++ [2%nat].
Proof.
  refine (proj1 (work_drainer_fifo [AddWork 1%nat; AddWork 2%nat; ProcessOne] [] _)).
  intros op Hin. apply list_elem_of_In in Hin. destruct Hin as [<-|[<-|[<-|[]]]]; discriminate.
Defined.

(** A race is reported exactly if an access of another thread to the address
    is on record that is less than 100 microseconds old and one of the two
    writes; the flag is never taken back. *)
Theorem race_reported a write who now r :
  let r' := RaceDetector.register_memory_access a write who now r in
  RaceDetector.has_race_condition r' = true <->
  RaceDetector.has_race_condition r = true \/
  exists x, x ∈ default [] (RaceDetector.memory_accesses_ r !! a) /\ RaceDetector.thread_id x <> who /\
    (write = true \/ RaceDetector.is_write x = true) /\ now - RaceDetector.timestamp x < 100000.
Proof.
  cbn zeta. unfold RaceDetector.register_memory_access, RaceDetector.has_race_condition.
  set (accesses := default [] _).
  assert (existsb (RaceDetector.conflicts who write now) accesses = true <->
    exists x, x ∈ accesses /\ RaceDetector.thread_id x <> who /\
      (write = true \/ RaceDetector.is_write x = true) /\ now - RaceDetector.timestamp x < 100000) as He.
  { rewrite existsb_exists. apply exist_proper. intros x. rewrite list_elem_of_In. unfold RaceDetector.conflicts.
    rewrite !andb_true_iff orb_true_iff negb_true_iff bool_decide_eq_false Z.ltb_lt. tauto. }
  destruct (existsb _ accesses) eqn:E; cbn [RaceDetector.race_detected_].
  - split; [intros _; right; by apply He|done].
  - split; [by left|]. intros [H|H]; [done|]. apply He in H. congruence.
Qed.
