(* ===== verification/WorkThreads.v ===== *)
(** * The work drainer between threads (include/rtes/thread_safety.hpp)

    Any number of threads share one [WorkDrainer]: they add work, process it and
    drain it.  A step of a thread is one action on shared memory: taking or
    releasing [work_mutex_], an access to [draining_] (an [atomic_wrapper],
    sequentially consistent), a use of the queue, or an operation of the
    [condition_variable_safe].  A wait with a predicate tests it with the mutex
    held and, when it fails, releases the mutex and sleeps in one step; a
    sleeping thread goes on when it is notified, or spuriously, and takes the
    mutex before it tests again.  Work items return. *)

From S2P Require Import Prelude ThreadSafety.

Module WorkThreads.
Import WorkDrainer.
Section threads.
Context {A : Type}.

(** Where a thread is in its call; the comment is what it does next. *)
Inductive pc :=
  | Idle
  | AddLock (x : A)          (* take the mutex *)
  | AddTest (x : A)          (* load [draining_] *)
  | AddPush (x : A)          (* [push_back] *)
  | AddNotify                (* [notify_one] *)
  | AddUnlock                (* release the mutex and return *)
  | WaitLock                 (* take the mutex *)
  | WaitTest                 (* the predicate of the wait *)
  | WaitBlock                (* release the mutex and sleep *)
  | Asleep
  | LoopTest                 (* the test of the loop *)
  | Take                     (* [front] and [pop_front] *)
  | Release (x : A)          (* [lock.unlock()] *)
  | Run (x : A)              (* [work()] *)
  | Relock                   (* [lock.lock()] *)
  | WorkUnlock               (* release the mutex and return *)
  | DrainStore               (* [draining_.store(true)] *)
  | DrainNotify              (* [notify_all] *)
  | DrainLock                (* take the mutex *)
  | DrainClear               (* [clear] *)
  | DrainUnlock.             (* release the mutex and return *)

(** The drainer, who holds its mutex, the threads; and what happened: the items
    put into the queue, those taken out of it and those run, with the thread, and
    those thrown away. *)
Record st := mkst {
  shared : WorkDrainer.t A;
  work_mutex_ : option nat;
  threads : list pc;
  accepted : list A;
  taken : list (nat * A);
  ran : list (nat * A);
  dropped : list A
}.
Implicit Types s : st.

Definition start (n : nat) : st := mkst init None (replicate n Idle) [] [] [] [].

Inductive event :=
  | CallAdd (x : A)
  | CallProcess
  | CallDrain
  | Continue (woken : option nat)   (* whom [notify_one] wakes *)
  | Spurious.

Definition goto (i : nat) (c : pc) s : st :=
  mkst (shared s) (work_mutex_ s) (<[i := c]> (threads s)) (accepted s) (taken s) (ran s) (dropped s).
Definition lock (i : nat) (c : pc) s : option st :=
  match work_mutex_ s with
  | None => Some (mkst (shared s) (Some i) (<[i := c]> (threads s)) (accepted s) (taken s) (ran s) (dropped s))
  | Some _ => None
  end.
Definition unlock (i : nat) (c : pc) s : st :=
  mkst (shared s) None (<[i := c]> (threads s)) (accepted s) (taken s) (ran s) (dropped s).

Definition asleep (c : pc) : bool := match c with Asleep => true | _ => false end.

Definition notify_one (woken : option nat) (ts : list pc) : option (list pc) :=
  match woken with
  | Some j => match ts !! j with Some Asleep => Some (<[j := WaitLock]> ts) | _ => None end
  | None => if existsb asleep ts then None else Some ts
  end.
Definition notify_all (ts : list pc) : list pc := (fun c => if asleep c then WaitLock else c) <$> ts.

Definition queued s : list A := work_queue_ (shared s).
Definition is_draining s : bool := draining_ (shared s).

(** The next step of thread [i], which is at [c]. *)
Definition continue (i : nat) (c : pc) (woken : option nat) s : option st :=
  match c with
  | AddLock x => lock i (AddTest x) s
  | AddTest x => Some (goto i (if is_draining s then AddUnlock else AddPush x) s)
  | AddPush x =>
      Some (mkst (mk (queued s ++ [x]) (is_draining s)) (work_mutex_ s) (<[i := AddNotify]> (threads s))
              (accepted s ++ [x]) (taken s) (ran s) (dropped s))
  | AddNotify =>
      ts ← notify_one woken (<[i := AddUnlock]> (threads s));
      Some (mkst (shared s) (work_mutex_ s) ts (accepted s) (taken s) (ran s) (dropped s))
  | AddUnlock => Some (unlock i Idle s)
  | WaitLock => lock i WaitTest s
  | WaitTest => Some (goto i (if negb (bool_decide (queued s = [])) || is_draining s then LoopTest else WaitBlock) s)
  | WaitBlock => Some (unlock i Asleep s)
  | LoopTest => Some (goto i (if negb (bool_decide (queued s = [])) && negb (is_draining s) then Take else WorkUnlock) s)
  | Take =>
      match queued s with
      | x :: rest => Some (mkst (mk rest (is_draining s)) (work_mutex_ s) (<[i := Release x]> (threads s))
                             (accepted s) (taken s ++ [(i, x)]) (ran s) (dropped s))
      | [] => None
      end
  | Release x => Some (unlock i (Run x) s)
  | Run x => Some (mkst (shared s) (work_mutex_ s) (<[i := Relock]> (threads s)) (accepted s) (taken s)
                     (ran s ++ [(i, x)]) (dropped s))
  | Relock => lock i LoopTest s
  | WorkUnlock => Some (unlock i Idle s)
  | DrainStore =>
      Some (mkst (mk (queued s) true) (work_mutex_ s) (<[i := DrainNotify]> (threads s)) (accepted s) (taken s) (ran s) (dropped s))
  | DrainNotify =>
      Some (mkst (shared s) (work_mutex_ s) (notify_all (<[i := DrainLock]> (threads s))) (accepted s) (taken s) (ran s) (dropped s))
  | DrainLock => lock i DrainClear s
  | DrainClear =>
      Some (mkst (mk [] (is_draining s)) (work_mutex_ s) (<[i := DrainUnlock]> (threads s)) (accepted s) (taken s) (ran s)
              (dropped s ++ queued s))
  | DrainUnlock => Some (unlock i Idle s)
  | Idle | Asleep => None
  end.

Definition step (i : nat) (e : event) s : option st :=
  c ← threads s !! i;
  match e, c with
  | CallAdd x, Idle => Some (goto i (AddLock x) s)
  | CallProcess, Idle => Some (goto i WaitLock s)
  | CallDrain, Idle => Some (goto i DrainStore s)
  | Spurious, Asleep => Some (goto i WaitLock s)
  | Continue woken, c => continue i c woken s
  | _, _ => None
  end.

Fixpoint run (es : list (nat * event)) s : option st :=
  match es with
  | [] => Some s
  | (i, e) :: es => s ← step i e s; run es s
  end.

(** ** The invariant *)

(** The thread has the mutex. *)
Definition holding (c : pc) : bool :=
  match c with
  | AddTest _ | AddPush _ | AddNotify | AddUnlock | WaitTest | WaitBlock | LoopTest | Take | Release _ | WorkUnlock
  | DrainClear | DrainUnlock => true
  | _ => false
  end.

(** The thread will look at the queue, or wake one that will. *)
Definition serving (c : pc) : bool :=
  match c with AddNotify | WaitLock | WaitTest | LoopTest | Take | Release _ | Run _ | Relock => true | _ => false end.

(** The item a thread has taken and not run. *)
Definition current (c : pc) : list A := match c with Release x | Run x => [x] | _ => [] end.

(** What a thread relies on at [c]. *)
Definition at_pc s (c : pc) : Prop :=
  match c with
  | AddPush _ => dropped s = []
  | WaitBlock => queued s = []
  | Take => queued s <> []
  | DrainNotify | DrainLock | DrainClear | DrainUnlock => is_draining s = true
  | _ => True
  end.

Definition of_thread (i : nat) (l : list (nat * A)) : list A := (filter (fun e => e.1 = i) l).*2.

Record inv s : Prop := {
  inv_mutex : forall i c, threads s !! i = Some c -> holding c = true <-> work_mutex_ s = Some i;
  inv_owner : forall i, work_mutex_ s = Some i -> is_Some (threads s !! i);
  inv_pc : forall i c, threads s !! i = Some c -> at_pc s c;
  inv_items : accepted s = (taken s).*2 ++ dropped s ++ queued s;
  inv_dropped : dropped s <> [] -> is_draining s = true /\ queued s = [];
  inv_runs : forall i c, threads s !! i = Some c -> of_thread i (taken s) = of_thread i (ran s) ++ current c;
  inv_woken : is_draining s = false -> queued s <> [] -> Asleep ∈ threads s -> exists c, c ∈ threads s /\ serving c = true
}.

(** ** One thread moves *)

(** The mutex when thread [i] goes from [c] to [c']. *)
Definition mutex_moves (i : nat) (c c' : pc) (m m' : option nat) : Prop :=
  (holding c' = holding c /\ m' = m) \/ (holding c = false /\ holding c' = true /\ m = None /\ m' = Some i) \/
  (holding c = true /\ holding c' = false /\ m' = None).

(** Whoever holds the mutex is alone. *)
Lemma alone s i c j d :
  inv s -> threads s !! i = Some c -> holding c = true -> threads s !! j = Some d -> j <> i -> holding d = false.
Proof.
  intros I Hi Hc Hj Hne. destruct (holding d) eqn:Hd; [|done]. apply (inv_mutex s I i c Hi) in Hc.
  apply (inv_mutex s I j d Hj) in Hd. congruence.
Qed.

(** The mutex after a move. *)
Lemma mutex_moved s i c c' m' j d :
  inv s -> threads s !! i = Some c -> mutex_moves i c c' (work_mutex_ s) m' ->
  <[i := c']> (threads s) !! j = Some d -> holding d = true <-> m' = Some j.
Proof.
  intros I Hi Hm Hj. pose proof (inv_mutex s I i c Hi) as Hic. destruct (decide (i = j)) as [<-|Hne].
  - rewrite list_lookup_insert_eq in Hj; [by eapply lookup_lt_Some|]. injection Hj as <-.
    destruct Hm as [[-> ->]|[(_ & -> & _ & ->)|(_ & -> & ->)]]; [done|by split|]. by split.
  - rewrite list_lookup_insert_ne // in Hj. pose proof (inv_mutex s I j d Hj) as Hjd.
    destruct Hm as [[_ ->]|[(_ & _ & Hn & ->)|(Hc & _ & ->)]]; [done| |].
    + rewrite Hjd Hn. split; congruence.
    + rewrite (alone s i c j d I Hi Hc Hj); [congruence|]. split; discriminate.
Qed.

Lemma inv_move s s' i c c' :
  inv s -> threads s !! i = Some c -> threads s' = <[i := c']> (threads s) ->
  mutex_moves i c c' (work_mutex_ s) (work_mutex_ s') ->
  at_pc s' c' -> (forall j d, j <> i -> threads s !! j = Some d -> at_pc s' d) ->
  accepted s' = (taken s').*2 ++ dropped s' ++ queued s' ->
  (dropped s' <> [] -> is_draining s' = true /\ queued s' = []) ->
  of_thread i (taken s') = of_thread i (ran s') ++ current c' ->
  (forall j, j <> i -> of_thread j (taken s') = of_thread j (taken s) /\ of_thread j (ran s') = of_thread j (ran s)) ->
  (is_draining s' = false -> queued s' <> [] -> Asleep ∈ threads s' -> exists d, d ∈ threads s' /\ serving d = true) ->
  inv s'.
Proof.
  intros I Hi Ht Hm Hpc Hothers Hitems Hdrop Hmine Htheirs Hw. pose proof (lookup_lt_Some _ _ _ Hi) as Hlt.
  split; try done; rewrite Ht.
  - intros j d. by apply mutex_moved with c.
  - intros j Hj. apply lookup_lt_is_Some. rewrite length_insert.
    destruct Hm as [[_ E]|[(_ & _ & _ & E)|(_ & _ & E)]]; rewrite E in Hj; [|congruence|done].
    by apply lookup_lt_is_Some, (inv_owner s I).
  - intros j d Hj. apply list_lookup_insert_Some in Hj as [(<- & <- & _)|[Hne Hj]]; [done|]. by apply (Hothers j).
  - intros j d Hj. apply list_lookup_insert_Some in Hj as [(<- & <- & _)|[Hne Hj]]; [done|].
    destruct (Htheirs j) as [-> ->]; [done|]. by apply (inv_runs s I).
Qed.

(** Another thread that serves stays. *)
Lemma still_serving s i c c' :
  inv s -> threads s !! i = Some c -> serving c = false -> c' <> Asleep -> is_draining s = false -> queued s <> [] ->
  Asleep ∈ <[i := c']> (threads s) -> exists d, d ∈ <[i := c']> (threads s) /\ serving d = true.
Proof.
  intros I Hi Hc Hc' Hd Hq Hin. destruct (inv_woken s I Hd Hq) as (d & Hdin & Hs).
  - apply list_elem_of_lookup in Hin as [j Hj]. apply list_lookup_insert_Some in Hj as [(_ & E & _)|[_ Hj]]; [congruence|].
    by apply list_elem_of_lookup_2 in Hj.
  - apply list_elem_of_lookup in Hdin as [j Hj]. exists d. split; [|done]. apply list_elem_of_lookup. exists j.
    rewrite list_lookup_insert_ne //. intros <-. congruence.
Qed.

Lemma now_serving (ts : list pc) i c c' : ts !! i = Some c -> serving c' = true -> exists d, d ∈ <[i := c']> ts /\ serving d = true.
Proof.
  intros Hi Hs. exists c'. split; [|done]. apply list_elem_of_lookup. exists i.
  apply list_lookup_insert_eq. by eapply lookup_lt_Some.
Qed.

(** A step that changes the thread and the mutex only. *)
Lemma local_step s i c c' m' :
  inv s -> threads s !! i = Some c -> mutex_moves i c c' (work_mutex_ s) m' -> at_pc s c' -> current c' = current c ->
  serving c' = true \/ (serving c = false /\ c' <> Asleep) \/ queued s = [] \/ is_draining s = true ->
  inv (mkst (shared s) m' (<[i := c']> (threads s)) (accepted s) (taken s) (ran s) (dropped s)).
Proof.
  intros I Hi Hm Hpc Hcur Hw. eapply (inv_move s); [exact I|exact Hi|reflexivity|exact Hm|exact Hpc|..].
  - intros j d _ Hj. exact (inv_pc s I j d Hj).
  - apply (inv_items s I).
  - apply (inv_dropped s I).
  - rewrite Hcur. by apply (inv_runs s I).
  - done.
  - intros Hd Hq Hin. destruct Hw as [Hs|[[Hs Ha]|[E|E]]].
    + by apply now_serving with c.
    + by apply still_serving with c.
    + by destruct Hq.
    + unfold is_draining in *. cbn in Hd. congruence.
Qed.

(** Threads that are woken. *)
Lemma inv_wake s ts :
  inv s -> Forall2 (fun c c' => c' = c \/ c = Asleep /\ c' = WaitLock) (threads s) ts ->
  inv (mkst (shared s) (work_mutex_ s) ts (accepted s) (taken s) (ran s) (dropped s)).
Proof.
  intros I Hts.
  assert (forall i d, ts !! i = Some d -> exists c, threads s !! i = Some c /\ (d = c \/ c = Asleep /\ d = WaitLock)) as Hback.
  { intros i d Hi. destruct (Forall2_lookup_r _ _ _ _ _ Hts Hi) as (c & Hc & H). by exists c. }
  split; cbn [threads work_mutex_ accepted taken ran dropped]; try apply I.
  - intros i d Hi. destruct (Hback i d Hi) as (c & Hc & [->|[-> ->]]); by apply (inv_mutex s I) in Hc.
  - intros i Hi. destruct (inv_owner s I i Hi) as [c Hc]. destruct (Forall2_lookup_l _ _ _ _ _ Hts Hc) as (d & Hd & _). by exists d.
  - intros i d Hi. destruct (Hback i d Hi) as (c & Hc & [->|[-> ->]]); [by apply (inv_pc s I i)|done].
  - intros i d Hi. destruct (Hback i d Hi) as (c & Hc & [->|[-> ->]]); by apply (inv_runs s I) in Hc.
  - intros Hd Hq Hin. apply list_elem_of_lookup in Hin as [i Hi]. destruct (Hback i _ Hi) as (c & Hc & [<-|[_ ?]]); [|done].
    destruct (inv_woken s I Hd Hq) as (x & Hx & Hs); [by apply list_elem_of_lookup_2 in Hc|].
    apply list_elem_of_lookup in Hx as [k Hk]. destruct (Forall2_lookup_l _ _ _ _ _ Hts Hk) as (y & Hy & [->|[-> _]]); [|done].
    exists x. split; [|done]. by apply list_elem_of_lookup_2 in Hy.
Qed.

(** ** The steps *)

Lemma of_thread_snoc j i x l : of_thread j (l ++ [(i, x)]) = of_thread j l ++ (if decide (i = j) then [x] else []).
Proof.
  unfold of_thread. rewrite filter_app fmap_app. f_equal. rewrite filter_cons filter_nil.
  cbn [fst]. by destruct (decide (i = j)).
Qed.

(** The condition of a thread without the mutex is only about [draining_]. *)
Lemma at_pc_free s s' d :
  holding d = false -> (is_draining s = true -> is_draining s' = true) -> at_pc s d -> at_pc s' d.
Proof. destruct d; cbn; auto; discriminate. Qed.

Lemma others_free s s' i c j d :
  inv s -> threads s !! i = Some c -> holding c = true -> (is_draining s = true -> is_draining s' = true) ->
  j <> i -> threads s !! j = Some d -> at_pc s' d.
Proof.
  intros I Hi Hc Hd Hne Hj. apply (at_pc_free s); [by apply (alone s i c j d)|done|by apply (inv_pc s I j)].
Qed.

Lemma push_inv s i x s' : inv s -> threads s !! i = Some (AddPush x) -> continue i (AddPush x) None s = Some s' -> inv s'.
Proof.
  intros I Hi [= <-]. pose proof (inv_pc s I i _ Hi) as Hd. cbn in Hd.
  eapply (inv_move s _ i _ AddNotify); [exact I|exact Hi|reflexivity|by left|exact Logic.I|..]; cbn [accepted taken dropped threads ran].
  - intros j d Hne Hj. by apply (others_free s _ i _ j d I Hi).
  - rewrite (inv_items s I) Hd. cbn [queued shared work_queue_ app]. by rewrite app_assoc.
  - by rewrite Hd.
  - by rewrite (inv_runs s I i _ Hi).
  - done.
  - intros _ _ _. by apply now_serving with (AddPush x).
Qed.

Lemma take_inv s i : inv s -> threads s !! i = Some Take -> exists s', continue i Take None s = Some s' /\ inv s'.
Proof.
  intros I Hi. pose proof (inv_pc s I i _ Hi) as Hq. cbn in Hq. cbn [continue].
  destruct (queued s) as [|x rest] eqn:Eq; [done|]. eexists. split; [reflexivity|].
  assert (dropped s = []) as Hd.
  { destruct (dropped s) eqn:E; [done|]. destruct (inv_dropped s I) as [_ ?]; congruence. }
  eapply (inv_move s _ i _ (Release x)); [exact I|exact Hi|reflexivity|by left|exact Logic.I|..]; cbn [accepted taken dropped threads ran].
  - intros j d Hne Hj. by apply (others_free s _ i _ j d I Hi).
  - rewrite (inv_items s I) Hd Eq fmap_app -app_assoc. done.
  - by rewrite Hd.
  - rewrite of_thread_snoc decide_True // (inv_runs s I i _ Hi). cbn [current]. by rewrite app_nil_r.
  - intros j Hne. by rewrite of_thread_snoc decide_False // app_nil_r.
  - intros _ _ _. by apply now_serving with Take.
Qed.

Lemma ran_inv s i x s' : inv s -> threads s !! i = Some (Run x) -> continue i (Run x) None s = Some s' -> inv s'.
Proof.
  intros I Hi [= <-].
  eapply (inv_move s _ i _ Relock); [exact I|exact Hi|reflexivity|by left|exact Logic.I|..]; cbn [accepted taken dropped threads ran].
  - intros j d _ Hj. exact (inv_pc s I j d Hj).
  - apply (inv_items s I).
  - apply (inv_dropped s I).
  - rewrite of_thread_snoc decide_True // (inv_runs s I i _ Hi). cbn [current]. by rewrite app_nil_r.
  - intros j Hne. by rewrite of_thread_snoc decide_False // app_nil_r.
  - intros _ _ _. by apply now_serving with (Run x).
Qed.

Lemma store_inv s i s' : inv s -> threads s !! i = Some DrainStore -> continue i DrainStore None s = Some s' -> inv s'.
Proof.
  intros I Hi [= <-].
  eapply (inv_move s _ i _ DrainNotify); [exact I|exact Hi|reflexivity|by left|done|..]; cbn [accepted taken dropped threads ran].
  - intros j d _ Hj. pose proof (inv_pc s I j d Hj) as Hpc. by destruct d.
  - apply (inv_items s I).
  - intros Hd. by destruct (inv_dropped s I Hd).
  - by rewrite (inv_runs s I i _ Hi).
  - done.
  - discriminate.
Qed.

Lemma clear_inv s i s' : inv s -> threads s !! i = Some DrainClear -> continue i DrainClear None s = Some s' -> inv s'.
Proof.
  intros I Hi [= <-]. pose proof (inv_pc s I i _ Hi) as Hd. cbn in Hd.
  eapply (inv_move s _ i _ DrainUnlock); [exact I|exact Hi|reflexivity|by left|exact Hd|..]; cbn [accepted taken dropped threads ran].
  - intros j d Hne Hj. by apply (others_free s _ i _ j d I Hi).
  - rewrite (inv_items s I). cbn [queued shared work_queue_]. by rewrite app_nil_r.
  - by split.
  - by rewrite (inv_runs s I i _ Hi).
  - done.
  - cbn. congruence.
Qed.

(** [notify_one] with the thread that calls it already past the call. *)
Lemma notify_inv s i woken s' : inv s -> threads s !! i = Some AddNotify -> continue i AddNotify woken s = Some s' -> inv s'.
Proof.
  intros I Hi H. cbn [continue] in H. destruct (notify_one _ _) as [ts|] eqn:E; [|done]. injection H as <-.
  pose proof (lookup_lt_Some _ _ _ Hi) as Hlt. destruct woken as [j|]; cbn [notify_one] in E.
  - destruct (decide (j = i)) as [->|Hne]; [by rewrite list_lookup_insert_eq in E|]. rewrite list_lookup_insert_ne // in E.
    destruct (threads s !! j) as [c|] eqn:Hj; [|done]. destruct c; try done. injection E as <-.
    rewrite list_insert_insert_ne //. set (s1 := mkst (shared s) (work_mutex_ s) (<[j := WaitLock]> (threads s))
      (accepted s) (taken s) (ran s) (dropped s)).
    assert (inv s1) as I1.
    { apply inv_wake; [done|]. apply Forall2_same_length_lookup_2; [by rewrite length_insert|]. intros k c d Hk Hd.
      apply list_lookup_insert_Some in Hd as [(<- & <- & _)|[_ Hd]]; [right|left]; split || congruence; congruence. }
    assert (threads s1 !! i = Some AddNotify) as Hi1 by (cbn; by rewrite list_lookup_insert_ne).
    eapply (inv_move s1 _ i _ AddUnlock); [exact I1|exact Hi1|reflexivity|by left|exact Logic.I|..].
    + intros k d _ Hk. exact (inv_pc s1 I1 k d Hk).
    + apply (inv_items s1 I1).
    + apply (inv_dropped s1 I1).
    + by rewrite (inv_runs s1 I1 i _ Hi1).
    + done.
    + intros _ _ _. exists WaitLock. split; [|done]. apply list_elem_of_lookup. exists j.
      cbn. rewrite list_lookup_insert_ne //. apply list_lookup_insert_eq. by eapply lookup_lt_Some.
  - destruct (existsb asleep _) eqn:Ha; [done|]. injection E as <-.
    eapply (inv_move s _ i _ AddUnlock); [exact I|exact Hi|reflexivity|by left|exact Logic.I|..].
    + intros k d _ Hk. exact (inv_pc s I k d Hk).
    + apply (inv_items s I).
    + apply (inv_dropped s I).
    + by rewrite (inv_runs s I i _ Hi).
    + done.
    + intros _ _ Hin. exfalso. cbn [threads] in Hin. apply not_true_iff_false in Ha. apply Ha, existsb_exists.
      exists Asleep. split; [by apply list_elem_of_In|done].
Qed.

Lemma step_inv_work i e s s' : inv s -> step i e s = Some s' -> inv s'.
Proof.
  intros I H. unfold step in H. destruct (threads s !! i) as [c|] eqn:Hi; [|done]. cbn [mbind option_bind] in H.
  assert (forall c' m', mutex_moves i c c' (work_mutex_ s) m' -> at_pc s c' -> current c' = current c ->
    serving c' = true \/ (serving c = false /\ c' <> Asleep) \/ queued s = [] \/ is_draining s = true ->
    inv (mkst (shared s) m' (<[i := c']> (threads s)) (accepted s) (taken s) (ran s) (dropped s))) as Hlocal
    by (intros; by apply local_step with c).
  assert (forall c' s', lock i c' s = Some s' -> holding c = false -> holding c' = true -> at_pc s c' -> current c' = current c ->
    serving c' = true \/ (serving c = false /\ c' <> Asleep) -> inv s') as Hlock.
  { intros c' s2 E Hc Hc' Hpc Hcur Hw. unfold lock in E. destruct (work_mutex_ s) eqn:Em; [done|]. injection E as <-.
    apply Hlocal; [right; left; done|done|done|]. destruct Hw; auto. }
  destruct e as [x| | |woken|], c; try discriminate; cbn [continue] in H;
    try (eapply Hlock; [exact H|done|done|done|done|by (left + right)]);
    try (injection H as <-; apply Hlocal; [by left|done|done|by (left + (right; left))]);
    try (injection H as <-; apply Hlocal; [by (right; right)|done|done|by (left + (right; left))]).
  - injection H as <-. destruct (is_draining s) eqn:Hd; apply Hlocal; [by left|done|done|by (right; left)|by left| |done|by (right; left)].
    cbn. destruct (dropped s) eqn:E; [done|]. destruct (inv_dropped s I) as [? _]; congruence.
  - by apply (push_inv s i x).
  - by apply (notify_inv s i woken).
  - injection H as <-. case_bool_decide as Hq; cbn [negb orb].
    + destruct (is_draining s); apply Hlocal; [by left|done|done|by left|by left|done|done|by (right; right; left)].
    + apply Hlocal; [by left|done|done|by left].
  - injection H as <-. apply Hlocal; [by (right; right)|done|done|]. right; right; left. exact (inv_pc s I i _ Hi).
  - injection H as <-. case_bool_decide as Hq; cbn [negb andb].
    + apply Hlocal; [by left|done|done|by (right; right; left)].
    + destruct (is_draining s) eqn:Hd; apply Hlocal; [by left|done|done|by (right; right; right)|by left|done|done|by left].
  - destruct (take_inv s i I Hi) as (s2 & E & I2). cbn [continue] in E. congruence.
  - by apply (ran_inv s i x).
  - by apply (store_inv s i).
  - injection H as <-. pose proof (inv_pc s I i _ Hi) as Hd.
    assert (inv (goto i DrainLock s)) as I1 by (apply Hlocal; [by left|done|done|by (right; right; right)]).
    apply (inv_wake _ _ I1). apply Forall2_fmap_r, Forall_Forall2_diag, Forall_true. intros []; auto.
  - eapply Hlock; [exact H|done|done|exact (inv_pc s I i _ Hi)|done|by right].
  - by apply (clear_inv s i).
Qed.

Lemma start_inv_work n : inv (start n).
Proof.
  assert (forall i c, threads (start n) !! i = Some c -> c = Idle) as Hidle
    by (intros i c Hi; by apply lookup_replicate in Hi as [-> _]).
  split; try done.
  - intros i c ->%Hidle. by split.
  - intros i c ->%Hidle. done.
  - intros i c ->%Hidle. done.
Qed.

Lemma run_inv es : forall s s', inv s -> run es s = Some s' -> inv s'.
Proof.
  induction es as [|[i e] es IH]; intros s s' I H; cbn [run] in H; [by injection H as <-|].
  destruct (step i e s) as [s1|] eqn:E; [|done]. cbn [mbind option_bind] in H. apply (IH s1); [|done]. by apply (step_inv_work i e s).
Qed.

(** Someone can be woken, or nobody sleeps. *)
Lemma notify_one_some ts : exists woken ts', notify_one woken ts = Some ts'.
Proof.
  destruct (existsb asleep ts) eqn:E; [|by exists None, ts; cbn; rewrite E].
  apply existsb_exists in E as (c & Hc & Ha). destruct c; try done. apply list_elem_of_In, list_elem_of_lookup in Hc as [j Hj].
  exists (Some j), (<[j := WaitLock]> ts). cbn. by rewrite Hj.
Qed.

(** Whoever has the mutex can go on. *)
Lemma holder_continues s i c :
  inv s -> threads s !! i = Some c -> holding c = true -> exists woken s', step i (Continue woken) s = Some s'.
Proof.
  intros I Hi Hc. unfold step. rewrite Hi. cbn [mbind option_bind].
  destruct c; try discriminate; try (exists None; eexists; reflexivity).
  - destruct (notify_one_some (<[i := AddUnlock]> (threads s))) as (woken & ts & E). exists woken. cbn [continue].
    rewrite E. by eexists.
  - destruct (take_inv s i I Hi) as (s' & E & _). by exists None, s'.
Qed.

(** No deadlock: while a call is on its way and not asleep, some thread can go on. *)
Lemma work_goes_on s i c :
  inv s -> threads s !! i = Some c -> c <> Idle -> c <> Asleep -> exists j woken s', step j (Continue woken) s = Some s'.
Proof.
  intros I Hi Hidle Hsleep. destruct (work_mutex_ s) as [j|] eqn:Em.
  - destruct (inv_owner s I j Em) as [d Hd]. exists j. apply (holder_continues s j d I Hd). by apply (inv_mutex s I j d Hd).
  - destruct (holding c) eqn:Hc; [exists i; by apply (holder_continues s i c)|].
    exists i, None. unfold step. rewrite Hi. cbn [mbind option_bind].
    destruct c; try done; cbn [continue]; unfold lock; rewrite ?Em; by eexists.
Qed.

(** ** After a drain *)

(** Nobody is about to notify. *)
Definition quiet (c : pc) : bool := match c with AddPush _ | AddNotify | DrainStore | DrainNotify => false | _ => true end.

Definition no_wakeup (e : nat * event) : Prop := match e.2 with CallDrain | Spurious => False | _ => True end.

(** A thread asleep after the drain stays asleep, whatever the others call. *)
Lemma stays_asleep es : forall s s' i,
  is_draining s = true -> Forall (fun c => quiet c = true) (threads s) -> threads s !! i = Some Asleep ->
  Forall no_wakeup es -> run es s = Some s' -> threads s' !! i = Some Asleep.
Proof.
  induction es as [|[j e] es IH]; intros s s' i Hd Hq Hi Hes H; cbn [run] in H; [by injection H as <-|].
  apply Forall_cons in Hes as [He Hes]. destruct (step j e s) as [s1|] eqn:E; [|done]. cbn [mbind option_bind] in H.
  enough (is_draining s1 = true /\ exists d, threads s1 = <[j := d]> (threads s) /\ quiet d = true /\ i <> j) as (Hd1 & d & Ht & Hdq & Hne).
  { apply (IH s1); [done| | |done|done].
    - rewrite Ht. by apply Forall_insert.
    - by rewrite Ht list_lookup_insert_ne. }
  unfold step in E. destruct (threads s !! j) as [c|] eqn:Hj; [|done]. cbn [mbind option_bind] in E.
  pose proof (proj1 (Forall_lookup _ _) Hq j c Hj) as Hc.
  assert (c <> Asleep -> i <> j) as Hij by (intros ? ->; congruence).
  destruct e as [x| | |woken|], c; try done; cbn [continue] in E;
    unfold lock in E; try destruct (work_mutex_ s); try discriminate;
    try (destruct (queued s) eqn:Eq; [discriminate|]);
    injection E as <-; rewrite ?Hd; (split; [done|]); eexists; (split; [reflexivity|]); (split; [|by apply Hij]);
    repeat case_bool_decide; done.
Qed.

End threads.
End WorkThreads.

Module WorkClaims.
Import WorkThreads.

(** C26: Threads that share a work drainer.  Whatever they call and however their
    steps interleave: one thread at a time has the mutex; the items put into the
    queue were taken out of it in that order, are still in it, or were thrown
    away by a drain, none of them twice; each thread has run exactly the items it
    took, in order, but for the one it is about to run; as long as nobody drains,
    a queued item is left to no sleeping thread alone: somebody awake will look at
    the queue or wake a sleeper; and no call that is not asleep waits for ever: some
    thread can go on. *)
Theorem work_shared {A} n (es : list (nat * event)) (s : @st A) :
  run es (start n) = Some s ->
  (forall i j c d, threads s !! i = Some c -> threads s !! j = Some d -> holding c = true -> holding d = true -> i = j) /\
  accepted s = (taken s).*2 ++ dropped s ++ queued s /\ (dropped s <> [] -> is_draining s = true /\ queued s = []) /\
  (forall i c, threads s !! i = Some c -> of_thread i (taken s) = of_thread i (ran s) ++ current c) /\
  (is_draining s = false -> queued s <> [] -> Asleep ∈ threads s -> exists c, c ∈ threads s /\ serving c = true) /\
  (forall i c, threads s !! i = Some c -> c <> Idle -> c <> Asleep -> exists j woken s', step j (Continue woken) s = Some s').
Proof.
  intros H. pose proof (run_inv es _ _ (start_inv_work n) H) as I. split_and!.
  - intros i j c d Hi Hj Hc Hd. destruct (decide (j = i)) as [->|Hne]; [done|].
    rewrite (alone s i c j d I Hi Hc Hj Hne) in Hd. done.
  - apply (inv_items s I).
  - apply (inv_dropped s I).
  - apply (inv_runs s I).
  - apply (inv_woken s I).
  - intros i c. by apply work_goes_on.
Qed.

(** Thread 0 sleeps, thread 1 adds two items and wakes it, thread 0 runs the first. *)
Definition ex_sharing : list (nat * event) :=
  [(0%nat, CallProcess); (0%nat, Continue None); (0%nat, Continue None); (0%nat, Continue None);
   (1%nat, CallAdd 5); (1%nat, Continue None); (1%nat, Continue None); (1%nat, Continue None); (1%nat, Continue (Some 0%nat)); (1%nat, Continue None);
   (1%nat, CallAdd 6); (1%nat, Continue None); (1%nat, Continue None); (1%nat, Continue None); (1%nat, Continue None); (1%nat, Continue None);
   (0%nat, Continue None); (0%nat, Continue None); (0%nat, Continue None); (0%nat, Continue None); (0%nat, Continue None); (0%nat, Continue None)].

Lemma work_shared_witness :
  exists s : @st Z, run ex_sharing (start 2) = Some s /\ queued s = [6] /\ ran s = [(0%nat, 5)] /\ accepted s = (taken s).*2 ++ dropped s ++ queued s.
Proof.
  eexists. split; [vm_compute; reflexivity|]. split; [reflexivity|]. split; [reflexivity|].
  apply (work_shared 2 ex_sharing). vm_compute. reflexivity.
Defined.

(** [drain_work] sets the flag and notifies without the mutex.  When it does so
    between a worker's test of the predicate and its going to sleep, the worker
    sleeps for ever: no later call but another drain notifies. *)
Theorem drain_wakeup_lost {A} n :
  exists es (s : @st A), run es (start (S (S n))) = Some s /\
    threads s = Asleep :: replicate (S n) Idle /\ is_draining s = true /\
    forall es' s', Forall no_wakeup es' -> run es' s = Some s' ->
      threads s' !! 0%nat = Some Asleep.
Proof.
  eexists [(0%nat, CallProcess); (0%nat, Continue None); (0%nat, Continue None);
    (1%nat, CallDrain); (1%nat, Continue None); (1%nat, Continue None);
    (0%nat, Continue None);
    (1%nat, Continue None); (1%nat, Continue None); (1%nat, Continue None)], _.
  assert (notify_all (replicate n Idle) = replicate n (@Idle A)) as Hn
    by (unfold notify_all; by rewrite fmap_replicate).
  split; [cbn; unfold notify_all in Hn; cbn in Hn; rewrite Hn; reflexivity|]. split; [reflexivity|]. split; [reflexivity|].
  intros es' s' Hes H. eapply stays_asleep; [| | |exact Hes|exact H]; [done| |done].
  repeat (apply Forall_cons; split; [done|]). by apply Forall_replicate.
Qed.

End WorkClaims.
