(* ===== verification/NetworkSecurity.v ===== *)
(** * Network security (network_security.hpp/.cpp)

    The token bucket rate limiter, the authenticated UDP broadcast, the traffic
    monitor, the sessions of the authenticator, the TLS channel and the layer
    that joins them.  OpenSSL is not part of the program: HMAC, the random
    bytes and the outcomes of the TLS calls are arguments.  Times are
    nanoseconds of the steady clock, 0 its epoch; every method holds its mutex
    throughout, so a method is one step. *)

From S2P Require Import Prelude Types ErrorHandling MemorySafety Protocol.

Record SecurityConfig := mkSecurityConfig {
  has_ca_cert_file : bool;   (* [ca_cert_file] is not empty *)
  hmac_key : BoundedString.t;
  rate_limit_per_second : Z;
  session_timeout : Z;
  require_client_certs : bool
}.

(** ** RateLimiter *)

Module RateLimiter.

Record TokenBucket := mkBucket { tokens : Z; last_refill : Z }.

Record t := mk {
  max_tokens_ : Z;
  refill_interval_ : Z;   (* milliseconds *)
  buckets_ : gmap cstring TokenBucket
}.
Implicit Types r : t.

Definition make (max_tokens refill_interval : Z) : t := mk max_tokens refill_interval ∅.

(** [None]: division by an interval of zero. *)
Definition refill_bucket (now : Z) (b : TokenBucket) r : option TokenBucket :=
  if last_refill b =? 0 then Some (mkBucket (max_tokens_ r) now)
  else
    let elapsed := (now - last_refill b) `quot` 1000000 in
    if refill_interval_ r <=? elapsed then
      if refill_interval_ r =? 0 then None
      else
        let tokens_to_add := wrap 32 (elapsed `quot` refill_interval_ r) in
        Some (mkBucket (Z.min (max_tokens_ r) (wrap 32 (tokens b + tokens_to_add))) now)
    else Some b.

Definition try_consume (now : Z) (client : cstring) (n : Z) r : option (bool * t) :=
  let b := default (mkBucket 0 0) (buckets_ r !! client) in
  b ← refill_bucket now b r;
  let put b := mk (max_tokens_ r) (refill_interval_ r) (<[client := b]> (buckets_ r)) in
  if n <=? tokens b
  then Some (true, put (mkBucket (tokens b - n) (last_refill b)))
  else Some (false, put b).

Definition reset_client (client : cstring) r : t :=
  mk (max_tokens_ r) (refill_interval_ r) (delete client (buckets_ r)).
Definition active_clients r : nat := size (buckets_ r).

End RateLimiter.

(** ** AuthenticatedUdpBroadcast *)

Module AuthenticatedUdpBroadcast.
Section broadcast.
(** [HMAC(EVP_sha256(), key, data)]; [None] when the library fails. *)
Variable hmac : list Z -> list Z -> option (list Z).

Record t := mk { config_ : SecurityConfig; sequence_number_ : Z }.
Implicit Types u : t.

Definition make (config : SecurityConfig) : t := mk config 1.

Definition initialize u : Result unit :=
  if BoundedString.length_ (hmac_key (config_ u)) =? 0 then err INVALID_CONFIGURATION else Value tt.

(** The bytes of the key: [length()] bytes from [c_str()]. *)
Definition key_bytes u : list Z :=
  take (Z.to_nat (BoundedString.length_ (hmac_key (config_ u)))) (BoundedString.data_ (hmac_key (config_ u))).

Definition compute_hmac (data : list Z) u : Result (list Z) :=
  match hmac (key_bytes u) data with
  | Some mac => Value mac
  | None => err SYSTEM_CORRUPTED_STATE
  end.

(** [AuthenticatedMessage]: 8 bytes, 4 bytes, 4 bytes of padding, which the code
    does not initialise. *)
Definition sizeof_AuthenticatedMessage : nat := 16.
(** The capacity of [message_buffer]. *)
Definition BUFFER : nat := Z.to_nat 8192.
Definition encode_auth (sequence hmac_size : Z) (padding : list Z) : list Z :=
  le_encode 8 sequence ++ le_encode 4 hmac_size ++ padding.

(** What the socket calls return, and the bytes given to [sendto]. *)
Record socket_env := mkSocketEnv { socket_ok : bool; sendto_ok : bool }.

Definition send_authenticated_message (data padding : list Z) (env : socket_env) u
    : outcome (Result unit * option (list Z) * t) :=
  match compute_hmac data u with
  | Error e => Done (Error e, None, u)
  | Value mac =>
      let size := Z.of_nat (length data) in
      let hmac_len := Z.of_nat (length mac) in
      if Z.of_nat BUFFER <? Z.of_nat sizeof_AuthenticatedMessage +₆₄ size +₆₄ hmac_len
      then Done (err MEMORY_BUFFER_OVERFLOW, None, u)
      else
        let auth_msg := encode_auth (sequence_number_ u) (wrap 32 hmac_len) padding in
        let u := mk (config_ u) (sequence_number_ u +₆₄ 1) in
        let! b := FixedSizeBuffer.write BUFFER auth_msg (Z.of_nat sizeof_AuthenticatedMessage) (FixedSizeBuffer.init BUFFER) in
        let! b := FixedSizeBuffer.append BUFFER data size b in
        let! b := FixedSizeBuffer.append BUFFER mac hmac_len b in
        if negb (socket_ok env) then Done (err NETWORK_CONNECTION_FAILED, None, u)
        else
          let sent := FixedSizeBuffer.contents b in
          if sendto_ok env then Done (Value tt, Some sent, u)
          else Done (err NETWORK_CONNECTION_FAILED, Some sent, u)
  end.

(** [data]: the [size] bytes behind the pointer, or a null pointer. *)
Definition verify_message_authenticity (data : option (list Z)) u : Result bool :=
  match data with
  | None => err INVALID_ARGUMENT
  | Some data =>
      let size := Z.of_nat (length data) in
      if size <? Z.of_nat sizeof_AuthenticatedMessage then err INVALID_ARGUMENT
      else
        let hmac_size := field data 8 4 in
        if size <? Z.of_nat sizeof_AuthenticatedMessage + hmac_size then err INVALID_ARGUMENT
        else
          let payload_size := Z.to_nat (size - Z.of_nat sizeof_AuthenticatedMessage - hmac_size) in
          let payload := take payload_size (drop sizeof_AuthenticatedMessage data) in
          let received_hmac := drop payload_size (drop sizeof_AuthenticatedMessage data) in
          match compute_hmac payload u with
          | Error e => Error e
          | Value computed =>
              if negb (Z.of_nat (length computed) =? hmac_size) then Value false
              else Value (bool_decide (computed = take (length computed) received_hmac))
          end
  end.

End broadcast.
End AuthenticatedUdpBroadcast.

(** ** NetworkSecurityMonitor *)

Module NetworkSecurityMonitor.

Definition MAX_MESSAGES_PER_MINUTE : Z := 10000.
Definition MAX_BYTES_PER_MINUTE : Z := 1048576.
Definition MAX_AUTH_FAILURES : Z := 5.
Definition MAX_CONNECTIONS_PER_IP : Z := 10.
Definition UINT64_MAX : Z := 2 ^ 64 - 1.

Record SecurityStats := mkSecurityStats {
  total_connections : Z;
  blocked_connections : Z;
  stats_auth_failures : Z;
  anomalies_detected : Z
}.

Record ClientMetrics := mkClientMetrics {
  message_count : Z;
  total_bytes : Z;
  client_first_seen : Z;
  last_activity : Z
}.

Record IpMetrics := mkIpMetrics {
  connection_count : Z;
  auth_failures : Z;
  ip_first_seen : Z;
  last_failure : Z
}.

Record t := mk {
  client_metrics_ : gmap cstring ClientMetrics;
  ip_metrics_ : gmap cstring IpMetrics;
  stats_ : SecurityStats
}.
Implicit Types m : t.

Definition init : t := mk ∅ ∅ (mkSecurityStats 0 0 0 0).

Definition ip_of (ip : cstring) m : IpMetrics := default (mkIpMetrics 0 0 0 0) (ip_metrics_ m !! ip).
Definition client_of (client : cstring) m : ClientMetrics :=
  default (mkClientMetrics 0 0 0 0) (client_metrics_ m !! client).

Definition anomaly m : t :=
  mk (client_metrics_ m) (ip_metrics_ m)
    (mkSecurityStats (total_connections (stats_ m)) (blocked_connections (stats_ m)) (stats_auth_failures (stats_ m))
       (anomalies_detected (stats_ m) +₆₄ 1)).

Definition record_connection (now : Z) (ip : cstring) m : t :=
  let i := ip_of ip m in
  let i := mkIpMetrics (wrap 32 (connection_count i + 1)) (auth_failures i)
             (if ip_first_seen i =? 0 then now else ip_first_seen i) (last_failure i) in
  mk (client_metrics_ m) (<[ip := i]> (ip_metrics_ m))
    (mkSecurityStats (total_connections (stats_ m) +₆₄ 1) (blocked_connections (stats_ m)) (stats_auth_failures (stats_ m))
       (anomalies_detected (stats_ m))).

Definition record_message (now : Z) (client : cstring) (message_size : Z) m : t :=
  if 1048576 <? message_size then anomaly m
  else
    let c := client_of client m in
    let keep := mk (<[client := c]> (client_metrics_ m)) (ip_metrics_ m) (stats_ m) in
    if message_count c =? UINT64_MAX then keep
    else if UINT64_MAX - message_size <? total_bytes c then keep
    else
      mk (<[client := mkClientMetrics (message_count c + 1) (total_bytes c + message_size)
                        (if client_first_seen c =? 0 then now else client_first_seen c) now]> (client_metrics_ m))
        (ip_metrics_ m) (stats_ m).

Definition record_authentication_failure (now : Z) (ip : cstring) m : t :=
  let i := ip_of ip m in
  let i := mkIpMetrics (connection_count i) (wrap 32 (auth_failures i + 1)) (ip_first_seen i) now in
  mk (client_metrics_ m) (<[ip := i]> (ip_metrics_ m))
    (mkSecurityStats (total_connections (stats_ m)) (blocked_connections (stats_ m)) (stats_auth_failures (stats_ m) +₆₄ 1)
       (anomalies_detected (stats_ m))).

Definition detect_anomalous_traffic_patterns (now : Z) (client : cstring) m : bool * t :=
  match client_metrics_ m !! client with
  | None => (false, m)
  | Some c =>
      let minutes := (now - client_first_seen c) `quot` 60000000000 in
      if 0 <? minutes then
        if (MAX_MESSAGES_PER_MINUTE <? message_count c / minutes) || (MAX_BYTES_PER_MINUTE <? total_bytes c / minutes)
        then (true, anomaly m) else (false, m)
      else (false, m)
  end.

Definition should_block_connection (ip : cstring) m : bool * t :=
  match ip_metrics_ m !! ip with
  | None => (false, m)
  | Some i =>
      if (MAX_CONNECTIONS_PER_IP <? connection_count i) || (MAX_AUTH_FAILURES <? auth_failures i)
      then (true, mk (client_metrics_ m) (ip_metrics_ m)
                    (mkSecurityStats (total_connections (stats_ m)) (blocked_connections (stats_ m) +₆₄ 1)
                       (stats_auth_failures (stats_ m)) (anomalies_detected (stats_ m))))
      else (false, m)
  end.

End NetworkSecurityMonitor.

(** ** ClientAuthenticator *)

Module ClientAuthenticator.

Record Session := mkSession { client_id : cstring; created : Z; last_access : Z }.

Record t := mk {
  config_ : SecurityConfig;
  active_sessions_ : gmap cstring Session;
  api_keys_ : gmap cstring cstring
}.
Implicit Types a : t.

Definition make (config : SecurityConfig) : t := mk config ∅ ∅.

(** The name the certificate of the peer carries: [None] without a certificate
    or a subject, otherwise the text of the common name, at most 255 bytes. *)
Definition authenticate_certificate (common_name : option cstring) : Result cstring :=
  match common_name with
  | None => err NETWORK_CONNECTION_FAILED
  | Some cn =>
      let client := take 255 cn in
      if bool_decide (client = []) then err NETWORK_CONNECTION_FAILED else Value client
  end.

(** Two hexadecimal digits per byte. *)
Definition hex_digit (v : Z) : Z := if v <? 10 then 48 + v else 87 + v.
Definition hex_byte (b : Z) : list Z := [hex_digit (b / 16); hex_digit (b mod 16)].

(** [random]: what [RAND_bytes] delivers. *)
Definition generate_session_token (random : option (list Z)) : outcome cstring :=
  match random with
  | None => Throws "Cryptographic random generation failed"
  | Some bytes => Done (concat (hex_byte <$> bytes))
  end.

Definition set_sessions x a : t := mk (config_ a) x (api_keys_ a).

Definition create_session (now : Z) (random : option (list Z)) (client : cstring) a : outcome (Result cstring * t) :=
  let! token := generate_session_token random in
  Done (Value token, set_sessions (<[token := mkSession client now now]> (active_sessions_ a)) a).

Definition expired (now : Z) (s : Session) a : bool := session_timeout (config_ a) * 1000000000 <? now - created s.

Definition validate_session (now : Z) (token : cstring) a : bool * t :=
  match active_sessions_ a !! token with
  | None => (false, a)
  | Some s =>
      if expired now s a then (false, set_sessions (delete token (active_sessions_ a)) a)
      else (true, set_sessions (<[token := mkSession (client_id s) (created s) now]> (active_sessions_ a)) a)
  end.

Definition invalidate_session (token : cstring) a : t := set_sessions (delete token (active_sessions_ a)) a.

Definition cleanup_expired_sessions (now : Z) a : t :=
  set_sessions (filter (fun x => expired now x.2 a = false) (active_sessions_ a)) a.

Definition validate_api_key (key : cstring) a : Result cstring :=
  match api_keys_ a !! key with
  | None => err NETWORK_CONNECTION_FAILED
  | Some client => Value client
  end.

End ClientAuthenticator.

(** ** SecureTcpChannel
    The resources the channel holds: open descriptors and live [SSL] objects
    (by address) with the descriptor each was given.  [SSL_CTX] is held or not. *)

Module SecureTcpChannel.

Record resources := mkResources { open_fds : gset Z; live_ssl : gmap Z Z }.

Record t := mk { config_ : SecurityConfig; ssl_ctx_ : bool; verify_peer : bool }.
Implicit Types c : t.

Definition make (config : SecurityConfig) : t := mk config false false.

(** What the library calls of the set-up return. *)
Record setup_env := mkSetupEnv {
  ctx_new_ok : bool;
  certificate_ok : bool;
  private_key_ok : bool;
  key_matches : bool;
  ca_ok : bool
}.

Definition load_certificates (e : setup_env) : Result unit :=
  if negb (certificate_ok e) then err FILE_NOT_FOUND
  else if negb (private_key_ok e) then err FILE_NOT_FOUND
  else if negb (key_matches e) then err FILE_CORRUPTED
  else Value tt.

Definition setup_ssl_context (e : setup_env) c : Result unit * t :=
  if negb (ctx_new_ok e) then (err NETWORK_CONNECTION_FAILED, mk (config_ c) false (verify_peer c))
  else
    let c := mk (config_ c) true (verify_peer c) in
    match load_certificates e with
    | Error x => (Error x, c)
    | Value _ =>
        if require_client_certs (config_ c) then
          let c := mk (config_ c) true true in
          if has_ca_cert_file (config_ c) && negb (ca_ok e) then (err FILE_NOT_FOUND, c)
          else (Value tt, c)
        else (Value tt, c)
    end.

Definition initialize (e : setup_env) c : Result unit * t := setup_ssl_context e c.

(** What the calls of one connection return: the descriptor of [accept], the
    object of [SSL_new], the result of [SSL_accept], the certificate of the peer
    (with its common name) and the result of its verification. *)
Record accept_env := mkAcceptEnv {
  accept_result : Z;
  ssl_new : option Z;
  ssl_accept : Z;
  peer_certificate : option cstring;
  verify_result : Z
}.

Definition X509_V_OK : Z := 0.

Definition close (fd : Z) (r : resources) : resources := mkResources (open_fds r ∖ {[fd]}) (live_ssl r).
Definition SSL_free (ssl : Z) (r : resources) : resources := mkResources (open_fds r) (delete ssl (live_ssl r)).

Definition verify_client_certificate (e : accept_env) : Result unit :=
  match peer_certificate e with
  | None => err NETWORK_CONNECTION_FAILED
  | Some _ => if verify_result e =? X509_V_OK then Value tt else err NETWORK_CONNECTION_FAILED
  end.

(** [intptr_t] to [int] keeps the low 32 bits; [int] to a pointer extends the
    sign. *)
Definition int_of_pointer (ssl : Z) : Z := wrap 32 (ssl + 2 ^ 31) - 2 ^ 31.
Definition pointer_of_int (v : Z) : Z := wrap 64 v.

Definition accept_secure_connection (e : accept_env) c (r : resources) : Result Z * resources :=
  let client_fd := accept_result e in
  if client_fd <? 0 then (err NETWORK_CONNECTION_FAILED, r)
  else
    let r := mkResources ({[client_fd]} ∪ open_fds r) (live_ssl r) in
    match ssl_new e with
    | None => (err MEMORY_ALLOCATION_FAILED, close client_fd r)
    | Some ssl =>
        let r := mkResources (open_fds r) (<[ssl := client_fd]> (live_ssl r)) in
        if ssl_accept e <=? 0
        then (err NETWORK_CONNECTION_FAILED, close client_fd (SSL_free ssl r))
        else
          match (if require_client_certs (config_ c) then verify_client_certificate e else Value tt) with
          | Error x => (Error x, close client_fd (SSL_free ssl r))
          | Value _ => (Value (int_of_pointer ssl), r)
          end
    end.

(** A pointer that is not a live object may not be used. *)
Definition close_connection (ssl : Z) (r : resources) : option resources :=
  if ssl =? 0 then Some r
  else
    fd ← live_ssl r !! ssl;
    let r := SSL_free ssl r in
    Some (if 0 <=? fd then close fd r else r).

(** [SSL_read] and [SSL_write] with the length as [int]; [call] is their result,
    [wants_more] that the library asks to retry. *)
Definition to_int (size : Z) : Z := wrap 32 (size + 2 ^ 31) - 2 ^ 31.
Definition transfer (call : Z -> Z) (wants_more : bool) (size : Z) : Result Z :=
  let n := call (to_int size) in
  if n <=? 0 then if wants_more then Value 0 else err NETWORK_DISCONNECTED
  else Value n.
Definition secure_read := transfer.
Definition secure_write := transfer.

End SecureTcpChannel.

(** ** SecureNetworkLayer *)

Module SecureNetworkLayer.

Record t := mk {
  tcp_channel_ : SecureTcpChannel.t;
  udp_broadcast_ : AuthenticatedUdpBroadcast.t;
  rate_limiter_ : RateLimiter.t;
  security_monitor_ : NetworkSecurityMonitor.t;
  authenticator_ : ClientAuthenticator.t;
  resources : SecureTcpChannel.resources
}.
Implicit Types l : t.

Definition make (config : SecurityConfig) : t :=
  mk (SecureTcpChannel.make config) (AuthenticatedUdpBroadcast.make config)
     (RateLimiter.make (rate_limit_per_second config) 1000)
     NetworkSecurityMonitor.init (ClientAuthenticator.make config)
     (SecureTcpChannel.mkResources ∅ ∅).

Definition set_channel c l : t :=
  mk c (udp_broadcast_ l) (rate_limiter_ l) (security_monitor_ l) (authenticator_ l) (resources l).
Definition set_udp u l : t :=
  mk (tcp_channel_ l) u (rate_limiter_ l) (security_monitor_ l) (authenticator_ l) (resources l).
Definition set_limiter r l : t :=
  mk (tcp_channel_ l) (udp_broadcast_ l) r (security_monitor_ l) (authenticator_ l) (resources l).
Definition set_monitor m l : t :=
  mk (tcp_channel_ l) (udp_broadcast_ l) (rate_limiter_ l) m (authenticator_ l) (resources l).
Definition set_resources r l : t :=
  mk (tcp_channel_ l) (udp_broadcast_ l) (rate_limiter_ l) (security_monitor_ l) (authenticator_ l) r.

Definition initialize (e : SecureTcpChannel.setup_env) l : Result unit * t :=
  let '(tcp_result, c) := SecureTcpChannel.initialize e (tcp_channel_ l) in
  let l := set_channel c l in
  match tcp_result with
  | Error x => (Error x, l)
  | Value _ =>
      match AuthenticatedUdpBroadcast.initialize (udp_broadcast_ l) with
      | Error x => (Error x, l)
      | Value _ => (Value tt, l)
      end
  end.

(** The returned handle and the identity of the client.  [None]: the pointer
    rebuilt from the handle is not the object of the connection. *)
Definition accept_secure_tcp_connection (e : SecureTcpChannel.accept_env) l
    : option (Result (Z * cstring) * t) :=
  let '(ssl_result, r) := SecureTcpChannel.accept_secure_connection e (tcp_channel_ l) (resources l) in
  match ssl_result with
  | Error x => Some (Error x, set_resources r l)
  | Value v =>
      let ssl := SecureTcpChannel.pointer_of_int v in
      _ ← SecureTcpChannel.live_ssl r !! ssl;
      match ClientAuthenticator.authenticate_certificate (SecureTcpChannel.peer_certificate e) with
      | Error x => r ← SecureTcpChannel.close_connection ssl r; Some (Error x, set_resources r l)
      | Value client => Some (Value (v, client), set_resources r l)
      end
  end.

Definition read_secure_tcp_message := SecureTcpChannel.secure_read.
Definition write_secure_tcp_message := SecureTcpChannel.secure_write.

Definition broadcast_market_data (hmac : list Z -> list Z -> option (list Z)) (data padding : list Z)
    (env : AuthenticatedUdpBroadcast.socket_env) l : outcome (Result unit * option (list Z) * t) :=
  let! x := AuthenticatedUdpBroadcast.send_authenticated_message hmac data padding env (udp_broadcast_ l) in
  Done (x.1.1, x.1.2, set_udp x.2 l).

Definition verify_udp_message (hmac : list Z -> list Z -> option (list Z)) (data : option (list Z)) l
    : Result bool :=
  AuthenticatedUdpBroadcast.verify_message_authenticity hmac data (udp_broadcast_ l).

Definition is_client_rate_limited (now : Z) (client : cstring) l : option (bool * t) :=
  x ← RateLimiter.try_consume now client 1 (rate_limiter_ l);
  Some (negb x.1, set_limiter x.2 l).

Definition should_block_ip (ip : cstring) l : bool * t :=
  let '(b, m) := NetworkSecurityMonitor.should_block_connection ip (security_monitor_ l) in
  (b, set_monitor m l).

Definition record_security_event (now : Z) (client : cstring) l : t :=
  set_monitor (NetworkSecurityMonitor.record_message now client 0 (security_monitor_ l)) l.

End SecureNetworkLayer.
