(* ===== verification/NetworkTheorems.v ===== *)
(** * Properties of the network security components

    The token bucket never grants more than its burst and its refill rate; a
    broadcast verifies, and only with the right code over the payload; a session
    is valid exactly for its time-out; the monitor blocks an address by its
    counters alone; a refused connection leaves nothing open. *)

From S2P Require Import Prelude Types ErrorHandling MemorySafety Protocol NetworkSecurity.

(** ** The token bucket *)

Module RateLimiterClaims.
Import RateLimiter.

(** One request: time, client, tokens. *)
Record request := mkRequest { at_time : Z; from : cstring; wanted : Z }.

(** The requests in order, with the answers. *)
Fixpoint serve (qs : list request) (r : t) : option (list bool * t) :=
  match qs with
  | [] => Some ([], r)
  | q :: qs =>
      x ← try_consume (at_time q) (from q) (wanted q) r;
      y ← serve qs x.2;
      Some (x.1 :: y.1, y.2)
  end.

(** The tokens granted to a client. *)
Fixpoint granted (client : cstring) (qs : list request) (bs : list bool) : Z :=
  match qs, bs with
  | q :: qs, b :: bs =>
      (if b && bool_decide (from q = client) then wanted q else 0) + granted client qs bs
  | _, _ => 0
  end.

(** Requests carry word-sized demands, and times that do not run backwards, from [t0]. *)
Fixpoint timed (t0 : Z) (qs : list request) : Prop :=
  match qs with
  | [] => True
  | q :: qs => t0 <= at_time q /\ u32 (wanted q) /\ timed (at_time q) qs
  end.
Definition last_time (t0 : Z) (qs : list request) : Z := foldl (fun _ q => at_time q) t0 qs.

(** The refill interval in nanoseconds. *)
Definition period r : Z := refill_interval_ r * 1000000.

(** What a client was granted and still holds is covered by the burst and the
    refills; [now] is the time of the last request. *)
Definition covered (t0 now : Z) (client : cstring) (spent : Z) r : Prop :=
  match buckets_ r !! client with
  | None => spent <= 0
  | Some b =>
      t0 <= last_refill b <= now /\ 0 <= tokens b /\
      spent + tokens b <= max_tokens_ r + (last_refill b - t0) / period r
  end.

Lemma wrap_le w x : 0 <= w -> 0 <= x -> wrap w x <= x.
Proof. intros. apply Z.mod_le; [done|]. by apply Z.pow_pos_nonneg. Qed.

Lemma quot_quot_div a d : 0 <= a -> 0 < d -> (a `quot` 1000000) `quot` d = a / (d * 1000000).
Proof.
  intros. rewrite (Z.quot_div_nonneg a); [lia..|]. rewrite Z.quot_div_nonneg; [|done|].
  { apply Z.div_pos; lia. }
  rewrite Z.div_div; [lia..|]. f_equal. lia.
Qed.

Lemma div_split t0 a b p : 0 < p -> t0 <= a <= b -> (a - t0) / p + (b - a) / p <= (b - t0) / p.
Proof.
  intros Hp Hab. apply Z.div_le_lower_bound; [done|].
  pose proof (Z.mul_div_le (a - t0) p Hp). pose proof (Z.mul_div_le (b - a) p Hp). nia.
Qed.

(** Refilling keeps the budget: what the bucket gains, the time pays for. *)
Lemma refill_ok t0 now b r :
  0 < t0 -> 0 < refill_interval_ r -> u32 (max_tokens_ r) ->
  t0 <= last_refill b <= now -> 0 <= tokens b ->
  exists b', refill_bucket now b r = Some b' /\ t0 <= last_refill b' <= now /\ 0 <= tokens b' /\
    tokens b' - (last_refill b' - t0) / period r <= tokens b - (last_refill b - t0) / period r.
Proof.
  intros Ht Hi Hm Hl Hb. unfold refill_bucket.
  rewrite (proj2 (Z.eqb_neq _ _)); [lia|].
  destruct (Z.leb_spec (refill_interval_ r) ((now - last_refill b) `quot` 1000000)) as [He|He];
    [|by exists b]. rewrite (proj2 (Z.eqb_neq _ _)); [lia|]. eexists. split; [done|]. simpl.
  rewrite quot_quot_div; [lia..|]. fold (period r). set (k := (now - last_refill b) / period r).
  assert (0 <= k) as Hk by (apply Z.div_pos; unfold period; lia).
  assert (wrap 32 k <= k) as Hw by (apply wrap_le; lia).
  pose proof (wrap_range 32 k ltac:(lia)) as Hr.
  assert (wrap 32 (tokens b + wrap 32 k) <= tokens b + wrap 32 k) as Hw2
    by (apply wrap_le; unfold is_u in *; lia).
  pose proof (wrap_range 32 (tokens b + wrap 32 k) ltac:(lia)) as Hr2.
  pose proof (div_split t0 (last_refill b) now (period r) ltac:(unfold period; lia) ltac:(lia)).
  fold k in H. unfold is_u in *. split_and!; lia.
Qed.

Lemma refill_total now b r : 0 < refill_interval_ r -> exists b', refill_bucket now b r = Some b'.
Proof.
  intros Hi. unfold refill_bucket. destruct (_ =? 0); [by eexists|].
  destruct (_ <=? _); [|by eexists]. rewrite (proj2 (Z.eqb_neq (refill_interval_ r) 0)); [lia|]. by eexists.
Qed.

Lemma last_time_le qs : forall t0, timed t0 qs -> t0 <= last_time t0 qs.
Proof.
  induction qs as [|q qs IH]; intros t0 Hq; [done|]. destruct Hq as (? & ? & Hq).
  etransitivity; [done|]. by apply IH.
Qed.

(** The first request of a client fills its bucket. *)
Lemma refill_first now r : refill_bucket now (mkBucket 0 0) r = Some (mkBucket (max_tokens_ r) now).
Proof. done. Qed.

Lemma try_consume_ok t0 now q client spent r :
  0 < t0 -> 0 < refill_interval_ r -> u32 (max_tokens_ r) -> t0 <= now <= at_time q -> u32 (wanted q) ->
  covered t0 now client spent r ->
  exists ok r', try_consume (at_time q) (from q) (wanted q) r = Some (ok, r') /\
    refill_interval_ r' = refill_interval_ r /\ max_tokens_ r' = max_tokens_ r /\
    covered t0 (at_time q) client
      (spent + if ok && bool_decide (from q = client) then wanted q else 0) r'.
Proof.
  intros Ht Hi Hm Hn Hw Hc.
  unfold try_consume. destruct (decide (from q = client)) as [->|Hne].
  - rewrite bool_decide_true; [done|]. unfold covered in Hc.
    assert (exists b', refill_bucket (at_time q) (default (mkBucket 0 0) (buckets_ r !! client)) r = Some b' /\
      t0 <= last_refill b' <= at_time q /\ 0 <= tokens b' /\
      spent + tokens b' <= max_tokens_ r + (last_refill b' - t0) / period r) as (b' & -> & Hl & Hp & Hs).
    { destruct (buckets_ r !! client) as [b|] eqn:Hb; cbn [default from_option] in *; unfold Datatypes.id.
      - destruct Hc as (? & ? & ?).
        destruct (refill_ok t0 (at_time q) b r) as (b' & -> & ? & ? & ?); [done || lia..|].
        exists b'. split_and!; try done; lia.
      - rewrite refill_first. eexists. split; [done|]. simpl.
        assert (0 <= (at_time q - t0) / period r) by (apply Z.div_pos; unfold period; lia).
        unfold is_u in *. split_and!; lia. }
    cbn [mbind option_bind]. unfold is_u in *. destruct (Z.leb_spec (wanted q) (tokens b')).
    + unfold period in *. eexists _, _. split; [done|]. split; [done|]. split; [done|].
      unfold covered, period. cbn [buckets_ max_tokens_ refill_interval_ andb]. rewrite lookup_insert_eq.
      cbn [tokens last_refill]. split_and!; lia.
    + unfold period in *. eexists _, _. split; [done|]. split; [done|]. split; [done|].
      unfold covered, period. cbn [buckets_ max_tokens_ refill_interval_ andb]. rewrite lookup_insert_eq.
      split_and!; lia.
  - rewrite bool_decide_false; [done|].
    destruct (refill_total (at_time q) (default (mkBucket 0 0) (buckets_ r !! from q)) r Hi) as [b' ->].
    cbn [mbind option_bind]. unfold covered in *.
    destruct (Z.leb_spec (wanted q) (tokens b')); eexists _, _; (split; [done|]); (split; [done|]); (split; [done|]);
      rewrite andb_false_r Z.add_0_r; cbn [buckets_ max_tokens_]; rewrite lookup_insert_ne //;
      destruct (buckets_ r !! client); unfold period in *; cbn [refill_interval_] in *; lia.
Qed.

Lemma serve_ok qs : forall t0 now client spent r,
  0 < t0 -> 0 < refill_interval_ r -> u32 (max_tokens_ r) -> t0 <= now -> timed now qs ->
  covered t0 now client spent r ->
  exists bs r', serve qs r = Some (bs, r') /\ length bs = length qs /\
    refill_interval_ r' = refill_interval_ r /\ max_tokens_ r' = max_tokens_ r /\
    covered t0 (last_time now qs) client (spent + granted client qs bs) r'.
Proof.
  induction qs as [|q qs IH]; intros t0 now client spent r Ht Hi Hm Hn Hq Hc.
  { exists [], r. cbn [granted last_time foldl]. by rewrite Z.add_0_r. }
  destruct Hq as (Hle & Hw & Hq). cbn [serve].
  destruct (try_consume_ok t0 now q client spent r) as (ok & r1 & -> & Hi1 & Hm1 & Hc1); [done..|].
  cbn [mbind option_bind fst snd].
  destruct (IH t0 (at_time q) client _ r1 Ht ltac:(by rewrite Hi1) ltac:(by rewrite Hm1) ltac:(lia) Hq Hc1)
    as (bs & r' & -> & Hl & Hi2 & Hm2 & Hc2).
  exists (ok :: bs), r'. cbn [mbind option_bind fst snd granted last_time foldl length].
  rewrite Hi2 Hm2 Hi1 Hm1 Hl. split_and!; [done..|].
  rewrite Z.add_assoc. exact Hc2.
Qed.

(** C34: the token bucket limits every client.  Over any sequence of requests from
    any clients at non-decreasing times, every request is answered, and the
    tokens granted to one client never exceed the burst [max_tokens] plus one
    per refill interval that passed since the first request: neither the 32-bit
    arithmetic of the refill nor other clients' requests give it more. *)
Theorem token_bucket_bound max_tokens interval qs t0 client :
  u32 max_tokens -> 0 < interval -> 0 < t0 -> timed t0 qs ->
  exists bs r, serve qs (make max_tokens interval) = Some (bs, r) /\ length bs = length qs /\
    granted client qs bs <= max_tokens + (last_time t0 qs - t0) / (interval * 1000000).
Proof.
  intros Hm Hi Ht Hq.
  destruct (serve_ok qs t0 t0 client 0 (make max_tokens interval)) as (bs & r & Hs & Hl & Hir & Hmr & Hc);
    [done..|by unfold covered; cbn [make buckets_]; rewrite lookup_empty|]. exists bs, r. split; [done|]. split; [done|].
  assert (t0 <= last_time t0 qs) as Hlast by by apply last_time_le.
  unfold covered, period in Hc. rewrite Hir Hmr in Hc. cbn [make max_tokens_ refill_interval_] in Hc.
  assert (0 < interval * 1000000) as Hp by lia.
  destruct (buckets_ r !! client) as [b|].
  - destruct Hc as (Hb & Hk & Hs'). etransitivity; [|apply Z.add_le_mono_l, (Z.div_le_mono (last_refill b - t0)); lia]. lia.
  - assert (0 <= (last_time t0 qs - t0) / (interval * 1000000)) by (apply Z.div_pos; lia). unfold is_u in *. lia.
Qed.

Lemma token_bucket_bound_witness :
  exists bs r, serve [mkRequest 5 [65] 1; mkRequest 6 [66] 1; mkRequest 7 [65] 1; mkRequest 8 [65] 1] (make 2 1000)
    = Some (bs, r) /\ length bs = 4%nat /\
    granted [65] [mkRequest 5 [65] 1; mkRequest 6 [66] 1; mkRequest 7 [65] 1; mkRequest 8 [65] 1] bs <= 2.
Proof.
  apply (token_bucket_bound 2 1000
    [mkRequest 5 [65] 1; mkRequest 6 [66] 1; mkRequest 7 [65] 1; mkRequest 8 [65] 1] 5 [65]);
    [split; done|lia|lia|].
  cbn [timed at_time wanted]. unfold is_u. word_consts. lia.
Defined.
End RateLimiterClaims.

(** ** The authenticated broadcast *)

Module BroadcastClaims.
Import AuthenticatedUdpBroadcast.
#[local] Opaque le_encode BUFFER.

(** On a fresh buffer [write] is [append]. *)
Lemma write_init N src :
  Z.of_nat (length src) < 2 ^ 63 -> (length src <= N)%nat ->
  FixedSizeBuffer.write N src (Z.of_nat (length src)) (FixedSizeBuffer.init N)
    = FixedSizeBuffer.append N src (Z.of_nat (length src)) (FixedSizeBuffer.init N).
Proof.
  intros Hs Hfit. unfold FixedSizeBuffer.write, FixedSizeBuffer.append. cbn [FixedSizeBuffer.init FixedSizeBuffer.used_size_].
  rewrite Z.add_0_l wrap_small; [change (2 ^ 63) with 9223372036854775808 in Hs; u_lia|].
  by rewrite (proj2 (Z.ltb_ge _ _)); [lia|].
Qed.

Lemma buffer_init_wf N : FixedSizeBuffer.wf N (FixedSizeBuffer.init N).
Proof. split; [apply length_replicate|simpl; lia]. Qed.

Lemma used_size_contents N b :
  FixedSizeBuffer.wf N b -> FixedSizeBuffer.used_size_ b = Z.of_nat (length (FixedSizeBuffer.contents b)).
Proof. intros [Hl Hu]. unfold FixedSizeBuffer.contents. rewrite length_take. lia. Qed.

(** Three parts that fit are laid out one behind the other. *)
Lemma fill_buffer N (x y z : list Z) :
  Z.of_nat N < 2 ^ 32 -> (length x + length y + length z <= N)%nat ->
  exists b, (let! b := FixedSizeBuffer.write N x (Z.of_nat (length x)) (FixedSizeBuffer.init N) in
     let! b := FixedSizeBuffer.append N y (Z.of_nat (length y)) b in
     FixedSizeBuffer.append N z (Z.of_nat (length z)) b) = Done b /\
    FixedSizeBuffer.contents b = x ++ y ++ z.
Proof.
  intros HN Hfit. change (2 ^ 32) with 4294967296 in HN.
  assert (Z.of_nat N < 2 ^ 63) as HN' by (change (2 ^ 63) with 9223372036854775808; lia).
  assert (forall l : list Z, (length l <= N)%nat -> Z.of_nat (length l) < 2 ^ 63) as Hlen.
  { intros l Hl. lia. }
  rewrite write_init; [apply Hlen; lia|lia|].
  destruct (FixedSizeBufferFacts.append_done N x (FixedSizeBuffer.init N)) as (b1 & -> & Hw1 & Hc1);
    [apply buffer_init_wf|done|apply Hlen; lia|simpl; lia|]. simpl.
  pose proof (used_size_contents N b1 Hw1) as Hu1. rewrite Hc1 length_app /= in Hu1.
  destruct (FixedSizeBufferFacts.append_done N y b1) as (b2 & -> & Hw2 & Hc2); [done|done|apply Hlen; lia|lia|]. simpl.
  pose proof (used_size_contents N b2 Hw2) as Hu2. rewrite Hc2 Hc1 !length_app /= in Hu2.
  destruct (FixedSizeBufferFacts.append_done N z b2) as (b3 & -> & Hw3 & Hc3); [done|done|apply Hlen; lia|lia|]. simpl.
  exists b3. split; [done|]. by rewrite Hc3 Hc2 Hc1 -!app_assoc.
Qed.

Section broadcast.
Variable hmac : list Z -> list Z -> option (list Z).
(** A code has at most [EVP_MAX_MD_SIZE] bytes. *)
Hypothesis hmac_size_bound : forall k d mac, hmac k d = Some mac -> (length mac <= 64)%nat.
#[local] Set Default Proof Using "Type*".

Definition datagram (sequence : Z) (padding data mac : list Z) : list Z :=
  encode_auth sequence (Z.of_nat (length mac)) padding ++ data ++ mac.

Lemma length_encode_auth s h padding : length padding = 4%nat -> length (encode_auth s h padding) = 16%nat.
Proof. intros Hp. unfold encode_auth. by rewrite !length_app !length_le_encode Hp. Qed.

(** What the receiver decides about a datagram of this shape. *)
Lemma verify_datagram sequence padding data mac u :
  length padding = 4%nat -> (length mac <= 64)%nat ->
  verify_message_authenticity hmac (Some (datagram sequence padding data mac)) u =
    match hmac (key_bytes u) data with
    | None => err SYSTEM_CORRUPTED_STATE
    | Some computed => Value (bool_decide (computed = mac))
    end.
Proof.
  intros Hp Hm. unfold verify_message_authenticity, datagram, sizeof_AuthenticatedMessage, compute_hmac.
  pose proof (length_encode_auth sequence (Z.of_nat (length mac)) padding Hp) as He.
  assert (field (encode_auth sequence (Z.of_nat (length mac)) padding ++ data ++ mac) 8 4 = Z.of_nat (length mac)) as ->.
  { unfold encode_auth. rewrite -!app_assoc. rewrite field_skip; [by rewrite length_le_encode; lia|].
    rewrite length_le_encode. apply field_here. change (256 ^ Z.of_nat 4) with 4294967296. lia. }
  rewrite length_app He length_app. rewrite (proj2 (Z.ltb_ge _ _)); [lia|]. rewrite (proj2 (Z.ltb_ge _ _)); [lia|].
  rewrite (drop_app_length' _ _ 16); [done|].
  replace (Z.to_nat _) with (length data) by lia.
  rewrite take_app_length drop_app_length.
  destruct (hmac (key_bytes u) data) as [computed|]; [|done].
  destruct (decide (length computed = length mac)) as [Hl|Hl].
  - rewrite Hl Z.eqb_refl /= take_ge //.
  - rewrite (proj2 (Z.eqb_neq _ _)) /=; [lia|]. rewrite bool_decide_false //. by intros ->.
Qed.

Lemma send_datagram data padding env mac u :
  length padding = 4%nat -> hmac (key_bytes u) data = Some mac ->
  16 + Z.of_nat (length data) + Z.of_nat (length mac) <= 8192 ->
  send_authenticated_message hmac data padding env u =
    let u' := mk (config_ u) (sequence_number_ u +₆₄ 1) in
    let sent := datagram (sequence_number_ u) padding data mac in
    Done (if socket_ok env
          then (if sendto_ok env then Value tt else err NETWORK_CONNECTION_FAILED, Some sent, u')
          else (err NETWORK_CONNECTION_FAILED, None, u')).
Proof.
  intros Hp Hmac Hfit. pose proof (hmac_size_bound _ _ _ Hmac) as Hm.
  assert (Z.of_nat BUFFER = 8192) as HB by done.
  unfold send_authenticated_message, compute_hmac. rewrite Hmac.
  pose proof (length_encode_auth (sequence_number_ u) (Z.of_nat (length mac)) padding Hp) as He.
  rewrite HB. change (Z.of_nat sizeof_AuthenticatedMessage) with (Z.of_nat 16).
  rewrite wrap_add_l (wrap_small 64 (_ + _ + _)); [u_lia|]. rewrite (wrap_small 32 (Z.of_nat _)); [u_lia|].
  rewrite (proj2 (Z.ltb_ge _ _)); [lia|].
  assert (forall A (k : FixedSizeBuffer.t -> outcome A) x y z,
    (let! b := FixedSizeBuffer.write BUFFER x (Z.of_nat (length x)) (FixedSizeBuffer.init BUFFER) in
     let! b := FixedSizeBuffer.append BUFFER y (Z.of_nat (length y)) b in
     let! b := FixedSizeBuffer.append BUFFER z (Z.of_nat (length z)) b in k b) =
    let! b := (let! b := FixedSizeBuffer.write BUFFER x (Z.of_nat (length x)) (FixedSizeBuffer.init BUFFER) in
     let! b := FixedSizeBuffer.append BUFFER y (Z.of_nat (length y)) b in
     FixedSizeBuffer.append BUFFER z (Z.of_nat (length z)) b) in k b) as Hassoc.
  { intros. destruct (FixedSizeBuffer.write _ _ _ _) as [b|?|]; [simpl|done..].
    by destruct (FixedSizeBuffer.append _ _ _ b). }
  rewrite -{1}He Hassoc He.
  destruct (fill_buffer BUFFER (encode_auth (sequence_number_ u) (Z.of_nat (length mac)) padding) data mac)
    as (b & Hb & Hc); [rewrite HB; done|rewrite He; lia|].
  rewrite He in Hb. rewrite Hb. simpl. rewrite Hc. by destruct (socket_ok env), (sendto_ok env).
Qed.

(** A market data broadcast authenticates itself.  A payload that fits is
    sent as header, payload and code, and the receiver accepts exactly the
    datagrams whose code is the code of their payload under the shared key; the
    sequence number and the padding are not covered, so the same payload is
    accepted under every other sequence number (a replay). *)
Theorem broadcast_authenticated data padding mac u :
  length padding = 4%nat -> hmac (key_bytes u) data = Some mac ->
  16 + Z.of_nat (length data) + Z.of_nat (length mac) <= 8192 ->
  let sent := datagram (sequence_number_ u) padding data mac in
  let u' := mk (config_ u) (sequence_number_ u +₆₄ 1) in
  send_authenticated_message hmac data padding (mkSocketEnv true true) u = Done (Value tt, Some sent, u') /\
  verify_message_authenticity hmac (Some sent) u' = Value true /\
  (forall sequence padding', length padding' = 4%nat ->
     verify_message_authenticity hmac (Some (datagram sequence padding' data mac)) u' = Value true) /\
  (forall sequence padding' data' mac', length padding' = 4%nat -> (length mac' <= 64)%nat ->
     verify_message_authenticity hmac (Some (datagram sequence padding' data' mac')) u' = Value true
       <-> hmac (key_bytes u) data' = Some mac').
Proof.
  intros Hp Hmac Hfit sent u'. pose proof (hmac_size_bound _ _ _ Hmac) as Hm.
  assert (forall sequence padding' data' mac', length padding' = 4%nat -> (length mac' <= 64)%nat ->
     verify_message_authenticity hmac (Some (datagram sequence padding' data' mac')) u' = Value true
       <-> hmac (key_bytes u) data' = Some mac') as Hiff.
  { intros sq pd d' m' Hpd Hm'. rewrite (verify_datagram sq pd d' m' u' Hpd Hm').
    change (key_bytes u') with (key_bytes u). destruct (hmac (key_bytes u) d') as [c|]; [|done].
    split; [intros [= ->%bool_decide_eq_true]|intros [= ->]; rewrite bool_decide_true]; done. }
  split_and!; [|by apply Hiff|by intros; apply Hiff|done].
  by rewrite (send_datagram data padding (mkSocketEnv true true) mac u Hp Hmac Hfit).
Qed.
End broadcast.

(** A code of one byte: the sum of the key's and the payload's bytes. *)
Definition toy_hmac (k d : list Z) : option (list Z) := Some [wrap 8 (sumZ k + sumZ d)].

Lemma broadcast_authenticated_witness :
  send_authenticated_message toy_hmac [1; 2] [0; 0; 0; 0] (mkSocketEnv true true)
    (make (mkSecurityConfig false (BoundedString.mk [7; 0] 1) 1000 3600 true))
    = Done (Value tt, Some ([1; 0; 0; 0; 0; 0; 0; 0] ++ [1; 0; 0; 0] ++ [0; 0; 0; 0] ++ [1; 2] ++ [10]),
        mk (mkSecurityConfig false (BoundedString.mk [7; 0] 1) 1000 3600 true) 2).
Proof.
  apply (broadcast_authenticated toy_hmac ltac:(intros ??? [= <-]; simpl; lia) [1; 2] [0; 0; 0; 0] [10]
    (make (mkSecurityConfig false (BoundedString.mk [7; 0] 1) 1000 3600 true)));
    [reflexivity|reflexivity|simpl; lia].
Defined.
End BroadcastClaims.

(** ** Sessions *)

Module SessionClaims.
Import ClientAuthenticator.

(** The operations on the session table, each with its time. *)
Inductive session_op :=
  | Create (client : cstring) (random : list Z)
  | Validate (token : cstring)
  | Invalidate (token : cstring)
  | Cleanup.

Definition token_of (random : list Z) : cstring := concat (hex_byte <$> random).

Definition perform (now : Z) (op : session_op) (a : t) : t :=
  match op with
  | Create client random =>
      match create_session now (Some random) client a with Done (_, a) => a | _ => a end
  | Validate token => (validate_session now token a).2
  | Invalidate token => invalidate_session token a
  | Cleanup => cleanup_expired_sessions now a
  end.

Fixpoint performs (ops : list (Z * session_op)) (a : t) : t :=
  match ops with
  | [] => a
  | (now, op) :: ops => performs ops (perform now op a)
  end.

(** [op] leaves the session of [random] to the clock. *)
Definition spares (random : list Z) (op : session_op) : Prop :=
  match op with
  | Create _ r => r <> random /\ length r = length random /\ Forall (fun b => u8 b) r
  | Invalidate token => token <> token_of random
  | _ => True
  end.

(** The session of a token is still there, or its time is over. *)
Definition alive_or_over (token : cstring) (born now : Z) (client : cstring) (a : t) : Prop :=
  match active_sessions_ a !! token with
  | Some s => created s = born /\ client_id s = client
  | None => session_timeout (config_ a) * 1000000000 < now - born
  end.

Lemma hex_digit_inj a b : 0 <= a < 16 -> 0 <= b < 16 -> hex_digit a = hex_digit b -> a = b.
Proof. unfold hex_digit. zbool; lia. Qed.

Lemma hex_byte_inj a b : u8 a -> u8 b -> hex_byte a = hex_byte b -> a = b.
Proof.
  unfold is_u. word_consts. intros Ha Hb [= H1 H2].
  apply hex_digit_inj in H1; [|split; [apply Z.div_pos; lia|apply Z.div_lt_upper_bound; lia]..].
  apply hex_digit_inj in H2; [|apply Z.mod_pos_bound; lia..].
  rewrite (Z.div_mod a 16); [lia|]. rewrite H1 H2 -Z.div_mod; lia.
Qed.

(** Different random bytes give different tokens. *)
Lemma token_inj r1 : forall r2,
  Forall (fun b => u8 b) r1 -> Forall (fun b => u8 b) r2 -> length r1 = length r2 ->
  token_of r1 = token_of r2 -> r1 = r2.
Proof.
  induction r1 as [|x r1 IH]; intros [|y r2]; try done.
  intros [Hx H1]%Forall_cons [Hy H2]%Forall_cons [= Hl].
  unfold token_of. cbn [fmap list_fmap concat]. intros He.
  apply (app_inj_1 (hex_byte x) (hex_byte y)) in He as [Hxy He]; [|done].
  apply hex_byte_inj in Hxy as ->; [|done..]. f_equal. by apply IH.
Qed.

Lemma perform_spares random now' now born client op a :
  Forall (fun b => u8 b) random -> spares random op -> now <= now' ->
  alive_or_over (token_of random) born now client a ->
  alive_or_over (token_of random) born now' client (perform now' op a) /\ config_ (perform now' op a) = config_ a.
Proof.
  intros Hr Hs Hn Ha.
  assert (alive_or_over (token_of random) born now' client a) as Ha'.
  { unfold alive_or_over in *. destruct (active_sessions_ a !! _); [done|lia]. }
  destruct op as [cl r|tok|tok|]; cbn [perform spares] in *.
  - destruct Hs as (Hne & Hl & Hu). split; [|done]. unfold alive_or_over. cbn [set_sessions active_sessions_ config_].
    rewrite lookup_insert_ne; [|done]. intros He. by apply Hne, (token_inj r random).
  - unfold validate_session. destruct (active_sessions_ a !! tok) as [s|] eqn:Hs0; [|done].
    destruct (expired now' s a) eqn:He; cbn [snd set_sessions config_]; (split; [|done]);
      unfold alive_or_over in *; cbn [set_sessions active_sessions_ config_];
      (destruct (decide (tok = token_of random)) as [->|Hne]; [|by rewrite ?lookup_insert_ne ?lookup_delete_ne]);
      rewrite Hs0 in Ha'; destruct Ha' as [<- <-]; [|by rewrite lookup_insert_eq].
    rewrite lookup_delete_eq. by apply Z.ltb_lt.
  - split; [|done]. unfold alive_or_over in *. cbn [invalidate_session set_sessions active_sessions_ config_].
    by rewrite lookup_delete_ne.
  - split; [|done]. unfold alive_or_over in *. cbn [cleanup_expired_sessions set_sessions active_sessions_ config_].
    rewrite map_lookup_filter. destruct (active_sessions_ a !! token_of random) as [s|] eqn:Hs0; [|done].
    cbn [mbind option_bind snd]. case_guard as Hg; [done|]. simpl. destruct Ha' as [<- <-].
    apply not_false_is_true in Hg. by apply Z.ltb_lt.
Qed.

(** The times of the operations do not run backwards and end by [now]. *)
Fixpoint in_order (from now : Z) (ops : list (Z * session_op)) : Prop :=
  match ops with
  | [] => from <= now
  | (t, _) :: ops => from <= t /\ in_order t now ops
  end.

Lemma performs_spares random born now client ops : forall from a,
  Forall (fun b => u8 b) random -> Forall (fun x => spares random x.2) ops -> in_order from now ops ->
  alive_or_over (token_of random) born from client a ->
  alive_or_over (token_of random) born now client (performs ops a) /\ config_ (performs ops a) = config_ a.
Proof.
  induction ops as [|[t op] ops IH]; intros from a Hr Hs Ho Ha.
  { split; [|done]. cbn [performs in_order] in *. unfold alive_or_over in *.
    destruct (active_sessions_ a !! _); [done|lia]. }
  apply Forall_cons in Hs as [Hop Hs]. destruct Ho as [Ht Ho]. cbn [performs snd] in *.
  destruct (perform_spares random t from born client op a Hr Hop Ht Ha) as [Ha' <-]. by apply (IH t).
Qed.

Lemma validate_alive token born now client a :
  alive_or_over token born now client a ->
  (validate_session now token a).1 = (now - born <=? session_timeout (config_ a) * 1000000000).
Proof.
  unfold alive_or_over, validate_session, expired. destruct (active_sessions_ a !! token) as [s|].
  - intros [<- _]. destruct (Z.ltb_spec (session_timeout (config_ a) * 1000000000) (now - created s)); symmetry;
      [by apply Z.leb_gt|by apply Z.leb_le].
  - intros Hl. symmetry. by apply Z.leb_gt.
Qed.

Lemma perform_absent random now op a :
  Forall (fun b => u8 b) random -> spares random op -> active_sessions_ a !! token_of random = None ->
  active_sessions_ (perform now op a) !! token_of random = None.
Proof.
  intros Hr Hs Ha. destruct op as [cl r|tok|tok|]; cbn [perform spares] in *.
  - destruct Hs as (Hne & Hl & Hu). cbn [set_sessions active_sessions_].
    rewrite lookup_insert_ne; [|done]. intros He. by apply Hne, (token_inj r random).
  - unfold validate_session. destruct (active_sessions_ a !! tok) as [s|] eqn:Hs0; [|done].
    assert (tok <> token_of random) by (intros ->; by rewrite Hs0 in Ha).
    destruct (expired now s a); cbn [snd set_sessions active_sessions_];
      by rewrite ?lookup_insert_ne ?lookup_delete_ne.
  - cbn [invalidate_session set_sessions active_sessions_]. by rewrite lookup_delete_ne.
  - cbn [cleanup_expired_sessions set_sessions active_sessions_]. by rewrite map_lookup_filter Ha.
Qed.

Lemma performs_absent random ops : forall a,
  Forall (fun b => u8 b) random -> Forall (fun x => spares random x.2) ops ->
  active_sessions_ a !! token_of random = None ->
  active_sessions_ (performs ops a) !! token_of random = None.
Proof.
  induction ops as [|[t op] ops IH]; intros a Hr Hs Ha; [done|].
  apply Forall_cons in Hs as [Hop Hs]. apply IH; [done..|]. by apply perform_absent.
Qed.

(** A session is valid exactly until its time-out.  Whatever is done to the
    session table after a session is created at [born] - other sessions created
    from different random bytes, any tokens validated, other tokens invalidated,
    expired sessions cleaned up - the token validates at [now] exactly when no
    more than the time-out has passed since its creation (using it does not
    prolong it), and once invalidated it never validates again. *)
Theorem session_lifetime a client random born ops now a' :
  Forall (fun b => u8 b) random ->
  create_session born (Some random) client a = Done (Value (token_of random), a') ->
  Forall (fun x => spares random x.2) ops -> in_order born now ops ->
  (validate_session now (token_of random) (performs ops a')).1
    = (now - born <=? session_timeout (config_ a) * 1000000000) /\
  (forall at_time b more, b = performs more (invalidate_session (token_of random) (performs ops a')) ->
     Forall (fun x => spares random x.2) more ->
     (validate_session at_time (token_of random) b).1 = false).
Proof.
  intros Hr [= Ha'] Hs Ho. split.
  - destruct (performs_spares random born now client ops born a' Hr Hs Ho) as [Ha Hc].
    { rewrite -Ha'. unfold alive_or_over. cbn [set_sessions active_sessions_]. by rewrite lookup_insert_eq. }
    rewrite (validate_alive _ born now client); [done|]. rewrite Hc. by rewrite -Ha'.
  - intros tm b more -> Hm.
    assert (active_sessions_ (performs more (invalidate_session (token_of random) (performs ops a'))) !! token_of random = None)
      as Hnone; [|by unfold validate_session; rewrite Hnone].
    apply performs_absent; [done..|]. cbn [invalidate_session set_sessions active_sessions_]. by rewrite lookup_delete_eq.
Qed.

Lemma session_lifetime_witness :
  let cfg := mkSecurityConfig false (BoundedString.mk [7; 0] 1) 1000 3600 true in
  let a := mk cfg {[ token_of [1; 2] := mkSession [65] 100 100 ]} ∅ in
  (validate_session 3600000000100 (token_of [1; 2])
     (performs [(200, Create [66] [3; 4]); (300, Validate (token_of [1; 2])); (400, Cleanup)] a)).1 = true.
Proof.
  intros cfg a.
  apply (session_lifetime (make cfg) [65] [1; 2] 100
    [(200, Create [66] [3; 4]); (300, Validate (token_of [1; 2])); (400, Cleanup)] 3600000000100 a).
  - repeat constructor; done.
  - reflexivity.
  - repeat constructor; done.
  - cbn [in_order]. lia.
Defined.
End SessionClaims.

(** ** The monitor *)

Module MonitorClaims.
Import NetworkSecurityMonitor.

(** Everything that is recorded, with its time. *)
Inductive monitor_op :=
  | Connection (ip : cstring)
  | Message (client : cstring) (size : Z)
  | AuthFailure (ip : cstring)
  | Detect (client : cstring)
  | ShouldBlock (ip : cstring).

Definition record (now : Z) (op : monitor_op) (m : t) : t :=
  match op with
  | Connection ip => record_connection now ip m
  | Message client size => record_message now client size m
  | AuthFailure ip => record_authentication_failure now ip m
  | Detect client => (detect_anomalous_traffic_patterns now client m).2
  | ShouldBlock ip => (should_block_connection ip m).2
  end.

Definition records (ops : list (Z * monitor_op)) (m : t) : t := foldl (fun m x => record x.1 x.2 m) m ops.

Definition is_connection (ip : cstring) (op : monitor_op) : bool :=
  match op with Connection i => bool_decide (i = ip) | _ => false end.
Definition is_failure (ip : cstring) (op : monitor_op) : bool :=
  match op with AuthFailure i => bool_decide (i = ip) | _ => false end.
Definition count (p : monitor_op -> bool) (ops : list (Z * monitor_op)) : Z :=
  Z.of_nat (length (base.filter (fun x => p x.2 = true) ops)).

Lemma count_cons p x ops : count p (x :: ops) = (if p x.2 then 1 else 0) + count p ops.
Proof. unfold count. rewrite filter_cons. destruct (p x.2); case_decide; try done. simpl. lia. Qed.

(** An operation touches the entry of an address only when it records for it. *)
Lemma record_counts ip now op m :
  connection_count (ip_of ip (record now op m))
    = (if is_connection ip op then wrap 32 (connection_count (ip_of ip m) + 1) else connection_count (ip_of ip m)) /\
  auth_failures (ip_of ip (record now op m))
    = (if is_failure ip op then wrap 32 (auth_failures (ip_of ip m) + 1) else auth_failures (ip_of ip m)).
Proof.
  destruct op as [i|c n|i|c|i]; cbn [record is_connection is_failure].
  - unfold record_connection, ip_of. cbn [ip_metrics_]. destruct (decide (i = ip)) as [->|Hne].
    + by rewrite bool_decide_true // lookup_insert_eq.
    + by rewrite bool_decide_false // lookup_insert_ne.
  - unfold record_message. destruct (_ <? n); [done|]. destruct (_ =? _); [done|]. by destruct (_ <? _).
  - unfold record_authentication_failure, ip_of. cbn [ip_metrics_]. destruct (decide (i = ip)) as [->|Hne].
    + by rewrite bool_decide_true // lookup_insert_eq.
    + by rewrite bool_decide_false // lookup_insert_ne.
  - unfold detect_anomalous_traffic_patterns. destruct (_ !! c); [|done]. destruct (0 <? _); [|done].
    by destruct (_ || _).
  - unfold should_block_connection. destruct (_ !! i); [|done]. by destruct (_ || _).
Qed.

Lemma records_counts ip ops : forall m,
  u32 (connection_count (ip_of ip m)) -> u32 (auth_failures (ip_of ip m)) ->
  connection_count (ip_of ip (records ops m)) = wrap 32 (connection_count (ip_of ip m) + count (is_connection ip) ops) /\
  auth_failures (ip_of ip (records ops m)) = wrap 32 (auth_failures (ip_of ip m) + count (is_failure ip) ops).
Proof.
  induction ops as [|x ops IH]; intros m Hc Hf.
  { rewrite !Z.add_0_r !wrap_small; done. }
  cbn [records foldl]. fold (records ops (record x.1 x.2 m)). rewrite !count_cons.
  destruct (record_counts ip x.1 x.2 m) as [H1 H2].
  destruct (IH (record x.1 x.2 m)) as [IH1 IH2].
  { rewrite H1. destruct (is_connection ip x.2); [by apply wrap_range|done]. }
  { rewrite H2. destruct (is_failure ip x.2); [by apply wrap_range|done]. }
  rewrite IH1 IH2 H1 H2.
  split; [destruct (is_connection ip x.2)|destruct (is_failure ip x.2)]; rewrite ?wrap_add_l; f_equal; lia.
Qed.

Lemma should_block_counts ip m :
  (should_block_connection ip m).1
    = ((MAX_CONNECTIONS_PER_IP <? connection_count (ip_of ip m)) || (MAX_AUTH_FAILURES <? auth_failures (ip_of ip m))).
Proof.
  unfold should_block_connection, ip_of. destruct (ip_metrics_ m !! ip); [|done]. simpl. by destruct (_ || _).
Qed.

(** An address is blocked by its own record alone.  After any sequence of
    recorded connections, messages, failures and queries, a connection from an
    address is refused exactly when more than 10 connections or more than 5
    authentication failures of this address were recorded (below [2^32] of
    each).  Nothing ever lowers the counts: closed connections still count, and
    an address once blocked stays blocked. *)
Theorem blocked_by_counts ip ops :
  count (is_connection ip) ops < 2 ^ 32 -> count (is_failure ip) ops < 2 ^ 32 ->
  (should_block_connection ip (records ops init)).1
    = ((10 <? count (is_connection ip) ops) || (5 <? count (is_failure ip) ops)) /\
  (forall more, count (is_connection ip) (ops ++ more) < 2 ^ 32 -> count (is_failure ip) (ops ++ more) < 2 ^ 32 ->
     (should_block_connection ip (records ops init)).1 = true ->
     (should_block_connection ip (records (ops ++ more) init)).1 = true).
Proof.
  assert (forall ops, count (is_connection ip) ops < 2 ^ 32 -> count (is_failure ip) ops < 2 ^ 32 ->
    (should_block_connection ip (records ops init)).1
      = ((10 <? count (is_connection ip) ops) || (5 <? count (is_failure ip) ops))) as Hb.
  { intros l Hc Hf. rewrite should_block_counts.
    destruct (records_counts ip l init) as [-> ->]; [done..|].
    rewrite !wrap_small; [split; [apply Zle_0_nat|exact Hc]|split; [apply Zle_0_nat|exact Hf]|done]. }
  intros Hc Hf. split; [by apply Hb|]. intros more Hc' Hf'. rewrite (Hb _ Hc Hf) (Hb _ Hc' Hf').
  unfold count. rewrite !filter_app !length_app. rewrite !orb_true_iff !Z.ltb_lt. lia.
Qed.

Lemma blocked_by_counts_witness :
  (should_block_connection [49] (records (replicate 11 (1, Connection [49])) init)).1 = true.
Proof. apply (blocked_by_counts [49] (replicate 11 (1, Connection [49]))); reflexivity. Defined.
End MonitorClaims.

(** ** The TLS channel *)

Module ChannelClaims.
Import SecureTcpChannel.

(** The handle is the pointer exactly for addresses the sign extension of the
    low 32 bits reaches. *)
Lemma handle_roundtrip ssl : u64 ssl ->
  pointer_of_int (int_of_pointer ssl) = ssl <-> ssl < 2 ^ 31 \/ 2 ^ 64 - 2 ^ 31 <= ssl.
Proof.
  intros Hs. unfold pointer_of_int, int_of_pointer.
  change (2 ^ 31) with 2147483648. unfold is_u, wrap in *. word_consts.
  destruct (decide (ssl < 2147483648)).
  { rewrite (Z.mod_small (ssl + _)); [lia|]. rewrite Z.mod_small; lia. }
  pose proof (Z.mod_pos_bound (ssl + 2147483648) 4294967296 ltac:(lia)) as Hb.
  split; intros H.
  - right. destruct (decide (0 <= (ssl + 2147483648) mod 4294967296 - 2147483648)).
    + rewrite Z.mod_small in H; lia.
    + replace (_ mod 4294967296 - 2147483648)
        with ((ssl + 2147483648) mod 4294967296 - 2147483648 + 18446744073709551616 + (-1) * 18446744073709551616) in H by lia.
      rewrite Z.mod_add in H; [lia|]. rewrite Z.mod_small in H; lia.
  - destruct H as [|H]; [lia|]. symmetry. apply Z.mod_unique with (-1); [lia|].
    assert ((ssl + 2147483648) mod 4294967296 = ssl + 2147483648 - 4294967296 * 4294967296) as ->; [|lia].
    symmetry. apply Z.mod_unique with 4294967296; lia.
Qed.

(** The resources of an established connection. *)
Definition established (fd ssl : Z) (r : resources) : resources :=
  mkResources ({[fd]} ∪ open_fds r) (<[ssl := fd]> (live_ssl r)).

(** The connection is served: the handshake succeeded, and where client
    certificates are required the verified peer presented one. *)
Definition handshake_ok (e : accept_env) (c : t) : bool :=
  (0 <=? accept_result e) && bool_decide (is_Some (ssl_new e)) && (0 <? ssl_accept e) &&
  (negb (require_client_certs (config_ c)) ||
   bool_decide (is_Some (peer_certificate e)) && (verify_result e =? X509_V_OK)).

Lemma accept_outcome e c r fd ssl :
  fd ∉ open_fds r -> live_ssl r !! ssl = None ->
  accept_result e = fd -> ssl_new e = Some ssl \/ ssl_new e = None ->
  accept_secure_connection e c r =
    if handshake_ok e c then (Value (int_of_pointer ssl), established fd ssl r)
    else (if (0 <=? fd) && bool_decide (ssl_new e = None) then err MEMORY_ALLOCATION_FAILED
          else err NETWORK_CONNECTION_FAILED, r).
Proof.
  intros Hfd Hssl Hacc Hnew. destruct r as [fds live]. cbn [open_fds live_ssl] in *.
  assert (({[fd]} ∪ fds) ∖ {[fd]} = fds) as Hclose by set_solver.
  assert (delete ssl (<[ssl := fd]> live) = live) as Hfree by (rewrite delete_insert_eq; by apply delete_id).
  unfold accept_secure_connection, handshake_ok, established. rewrite Hacc. cbn [open_fds live_ssl].
  destruct (Z.ltb_spec fd 0) as [Hneg|Hpos].
  { by rewrite (proj2 (Z.leb_gt 0 fd)). }
  rewrite (proj2 (Z.leb_le 0 fd)); [done|]. unfold close, SSL_free.
  destruct Hnew as [-> | ->]; cbn [open_fds live_ssl]; [|by rewrite Hclose].
  rewrite bool_decide_true; [by eexists|]. rewrite Hfree Hclose.
  destruct (Z.leb_spec (ssl_accept e) 0) as [Ha|Ha].
  { by rewrite (proj2 (Z.ltb_ge 0 _)). }
  rewrite (proj2 (Z.ltb_lt 0 _)); [done|]. destruct (require_client_certs (config_ c)); [|done].
  unfold verify_client_certificate. destruct (peer_certificate e); [|done]. by destruct (_ =? _).
Qed.

Lemma release_established fd ssl r :
  fd ∉ open_fds r -> live_ssl r !! ssl = None -> close fd (SSL_free ssl (established fd ssl r)) = r.
Proof.
  intros Hfd Hssl. destruct r as [fds live]. unfold close, SSL_free, established. cbn [open_fds live_ssl] in *.
  f_equal; [set_solver|]. rewrite delete_insert_eq. by apply delete_id.
Qed.

Lemma handshake_fd e c : handshake_ok e c = true -> 0 <= accept_result e.
Proof. unfold handshake_ok. rewrite !andb_true_iff Z.leb_le. tauto. Qed.

(** Accepting a TLS connection leaks nothing and lets no unverified peer
    in.  For a new descriptor and a new [SSL] object, the layer refuses every
    connection whose handshake or required certificate check fails, or whose
    certificate has no name, with both resources released; it accepts the others
    under the first 255 bytes of the certificate's common name.  This holds
    where the object's address survives the conversion to [int] and back
    (below [2^31]); at the addresses the conversion loses, the layer follows a
    pointer to no object. *)
Theorem accept_connection_guarded e l fd ssl :
  fd ∉ open_fds (SecureNetworkLayer.resources l) ->
  live_ssl (SecureNetworkLayer.resources l) !! ssl = None ->
  accept_result e = fd -> ssl_new e = Some ssl -> 0 < ssl < 2 ^ 64 ->
  let c := SecureNetworkLayer.tcp_channel_ l in
  let r := SecureNetworkLayer.resources l in
  (handshake_ok e c = false ->
     SecureNetworkLayer.accept_secure_tcp_connection e l = Some (err NETWORK_CONNECTION_FAILED, l)) /\
  (handshake_ok e c = true -> ssl < 2 ^ 31 ->
     SecureNetworkLayer.accept_secure_tcp_connection e l =
       match peer_certificate e with
       | None | Some [] => Some (err NETWORK_CONNECTION_FAILED, l)
       | Some name => Some (Value (ssl, take 255 name), SecureNetworkLayer.set_resources (established fd ssl r) l)
       end) /\
  (handshake_ok e c = true -> live_ssl r !! pointer_of_int (int_of_pointer ssl) = None ->
     2 ^ 31 <= ssl < 2 ^ 64 - 2 ^ 31 ->
     SecureNetworkLayer.accept_secure_tcp_connection e l = None).
Proof.
  intros Hfd Hssl Hacc Hnew Hr c r. unfold SecureNetworkLayer.accept_secure_tcp_connection.
  rewrite (accept_outcome e c r fd ssl Hfd Hssl Hacc (or_introl Hnew)). fold c r.
  split_and!; intros Hok; rewrite Hok.
  - rewrite Hnew bool_decide_false // andb_false_r. by destruct l.
  - intros Hlow. assert (u64 ssl) as Hu by (unfold is_u; lia).
    rewrite (proj2 (handle_roundtrip ssl Hu)); [by left|].
    cbn [established live_ssl]. rewrite lookup_insert_eq. cbn [mbind option_bind].
    assert (int_of_pointer ssl = ssl) as Hint.
    { unfold int_of_pointer. rewrite wrap_small; [|lia]. change (2 ^ 31) with 2147483648 in *. u_lia. }
    assert (0 <= fd) as Hpos by (rewrite -Hacc; by apply (handshake_fd e c)).
    destruct (peer_certificate e) as [[|x name]|]; cbn [ClientAuthenticator.authenticate_certificate].
    all: try (unfold close_connection; rewrite (proj2 (Z.eqb_neq ssl 0)); [lia|];
      cbn [established live_ssl]; rewrite lookup_insert_eq; cbn [mbind option_bind];
      rewrite (proj2 (Z.leb_le 0 fd)); [done|]; by rewrite release_established; [done..|destruct l]).
    by rewrite Hint.
  - intros Hother Hhigh. cbn [established live_ssl].
    rewrite lookup_insert_ne; [|by rewrite Hother]. intros He. symmetry in He.
    apply (handle_roundtrip ssl) in He; [|unfold is_u]; lia.
Qed.

Lemma accept_connection_guarded_witness :
  let l := SecureNetworkLayer.make (mkSecurityConfig false (BoundedString.mk [7; 0] 1) 1000 3600 true) in
  SecureNetworkLayer.accept_secure_tcp_connection (mkAcceptEnv 7 (Some 4096) 1 (Some [65; 66]) 0) l
    = Some (Value (4096, [65; 66]),
        SecureNetworkLayer.set_resources (established 7 4096 (SecureNetworkLayer.resources l)) l) /\
  SecureNetworkLayer.accept_secure_tcp_connection (mkAcceptEnv 7 (Some 4096) 1 (Some [65; 66]) 10) l
    = Some (err NETWORK_CONNECTION_FAILED, l).
Proof.
  intros l. split.
  - apply (accept_connection_guarded (mkAcceptEnv 7 (Some 4096) 1 (Some [65; 66]) 0) l 7 4096);
      [apply not_elem_of_empty|reflexivity..|split; reflexivity|reflexivity|reflexivity].
  - apply (accept_connection_guarded (mkAcceptEnv 7 (Some 4096) 1 (Some [65; 66]) 10) l 7 4096);
      [apply not_elem_of_empty|reflexivity..|split; reflexivity|reflexivity].
Defined.
End ChannelClaims.
