(* ===== verification/HttpServer.v ===== *)
(** * The HTTP server (http_server.hpp/.cpp)

    The listening socket, the server loop's round per connection, and the whole
    of a request: the request line, the path, the handlers and the response.
    What [recv] delivers and what the socket calls return are arguments; a
    handler is a function on the state [W] of the services behind it, and
    [Throws] is an exception derived from [std::exception]. *)

From S2P Require Import Prelude Types MemorySafety Strings InputValidation.

Definition CRLF : cstring := [13; 10].

Module HttpServer.
Section server.
Context {W : Type}.

Definition HttpHandler : Type := cstring -> cstring -> W -> outcome cstring * W.

Record t := mk {
  running_ : bool;
  listen_fd_ : Z;
  open_fds : gset Z;
  handlers_ : gmap cstring HttpHandler;
  requests_served_ : Z
}.
Implicit Types s : t.

Definition make : t := mk false (-1) ∅ ∅ 0.

Definition add_handler (path : cstring) (handler : HttpHandler) s : t :=
  mk (running_ s) (listen_fd_ s) (open_fds s) (<[path := handler]> (handlers_ s)) (requests_served_ s).

(** [fd] is the result of [socket]. *)
Definition setup_listen_socket (fd : Z) (bind_ok listen_ok : bool) s : bool * t :=
  let opened := mk (running_ s) fd (if fd <? 0 then open_fds s else {[fd]} ∪ open_fds s) (handlers_ s) (requests_served_ s) in
  if fd <? 0 then (false, opened)
  else if negb bind_ok then (false, opened)
  else if negb listen_ok then (false, opened)
  else (true, opened).

Definition set_running b s : t := mk b (listen_fd_ s) (open_fds s) (handlers_ s) (requests_served_ s).

Definition start (fd : Z) (bind_ok listen_ok : bool) s : t :=
  if running_ s then s
  else
    let '(ok, s) := setup_listen_socket fd bind_ok listen_ok s in
    if ok then set_running true s else s.

(** The descriptors of the listening socket and of an accepted connection. *)
Definition close_listener s : t :=
  if 0 <=? listen_fd_ s
  then mk (running_ s) (-1) (open_fds s ∖ {[listen_fd_ s]}) (handlers_ s) (requests_served_ s)
  else s.
Definition open_client (client_fd : Z) s : t :=
  mk (running_ s) (listen_fd_ s) ({[client_fd]} ∪ open_fds s) (handlers_ s) (requests_served_ s).
Definition close_client (client_fd : Z) s : t :=
  mk (running_ s) (listen_fd_ s) (open_fds s ∖ {[client_fd]}) (handlers_ s) (requests_served_ s).

(** [stop] once the join has returned; when it does is a matter of the thread
    (Monitoring.v). *)
Definition stop s : t :=
  if negb (running_ s) then s else close_listener (set_running false s).

Definition count_request s : t :=
  mk (running_ s) (listen_fd_ s) (open_fds s) (handlers_ s) (requests_served_ s +₆₄ 1).

(** [stream >> word]: skip white space, read up to the next. *)
Definition next_word (s : cstring) : option (cstring * cstring) :=
  match drop_while isspace s with
  | [] => None
  | rest => Some (take_while (fun c => negb (isspace c)) rest, drop_while (fun c => negb (isspace c)) rest)
  end.

Definition parse_request_path (request_line : cstring) : cstring :=
  match (x ← next_word request_line; y ← next_word x.2; z ← next_word y.2; Some y.1) with
  | Some path =>
      match search [63] path with
      | Some query_pos => take query_pos path
      | None => path
      end
  | None => [47]
  end.

Definition status_text (status_code : Z) : cstring :=
  if status_code =? 200 then cstr "OK"
  else if status_code =? 404 then cstr "Not Found"
  else if status_code =? 500 then cstr "Internal Server Error"
  else cstr "Unknown".

Definition create_response (status_code : Z) (content_type body : cstring) : cstring :=
  cstr "HTTP/1.1 " ++ print_u64 status_code ++ [32] ++ status_text status_code ++ CRLF ++
  cstr "Content-Type: " ++ content_type ++ CRLF ++
  cstr "Content-Length: " ++ print_u64 (Z.of_nat (length body)) ++ CRLF ++
  cstr "Connection: close" ++ CRLF ++ CRLF ++ body.

(** [received]: what the one call of [recv] put into the buffer; [None] an error
    or the end of the stream.  A request that arrives in pieces is judged by its
    first piece.  The response is taken to be sent whole.  The result is what is sent, if anything.  [None]: the handler
    is undefined. *)
Definition handle_client (received : option (list Z)) s (w : W) : option (option cstring * t * W) :=
  match received with
  | None | Some [] => Some (None, s, w)
  | Some bytes =>
      let request := if (4096 <=? length bytes)%nat then take 4095 bytes else bytes in
      match search CRLF request with
      | None => Some (None, s, w)
      | Some line_end =>
          if 8192 <? Z.of_nat line_end then Some (None, s, w)
          else
            let path := parse_request_path (take line_end request) in
            if contains path (cstr "..") || contains path (cstr "//")
            then Some (Some (create_response 400 (cstr "text/plain") (cstr "Bad Request")), s, w)
            else
              match handlers_ s !! path with
              | None => Some (Some (create_response 404 (cstr "text/plain") (cstr "Not Found")), count_request s, w)
              | Some handler =>
                  match handler path [] w with
                  | (Done content, w) =>
                      Some (Some (create_response 200 (cstr "text/plain; charset=utf-8") content), count_request s, w)
                  | (Throws _, w) =>
                      Some (Some (create_response 500 (cstr "text/plain") (cstr "Internal Server Error")), count_request s, w)
                  | (Undefined, _) => None
                  end
              end
      end
  end.

(** One turn of [server_loop]: the accepted descriptor is closed afterwards. *)
Definition server_round (client_fd : Z) (received : option (list Z)) s (w : W) : option (option cstring * t * W) :=
  if client_fd <? 0 then Some (None, s, w)
  else
    '(sent, s, w) ← handle_client received (open_client client_fd s) w;
    Some (sent, close_client client_fd s, w).

End server.
Arguments t : clear implicits.
End HttpServer.

(** ** The request line *)

Section request.
Definition word (s : cstring) : Prop := s <> [] /\ Forall (fun c => isspace c = false) s.

Lemma next_word_skip a r :
  word a -> match r with [] => True | c :: _ => isspace c = true end ->
  HttpServer.next_word (a ++ r) = Some (a, r) /\ HttpServer.next_word (32 :: a ++ r) = Some (a, r).
Proof.
  intros [Hne Ha] Hr.
  destruct (take_drop_while (fun c => negb (isspace c)) a r) as [Ht Hd].
  { eapply Forall_impl; [exact Ha|]. by intros c ->. }
  { destruct r; [done|]. by rewrite Hr. }
  destruct a as [|c a]; [done|]. apply Forall_cons in Ha as [Hc Ha]. unfold HttpServer.next_word.
  assert (drop_while isspace ((c :: a) ++ r) = (c :: a) ++ r) as Hdw by (simpl; by rewrite Hc).
  assert (drop_while isspace (32 :: (c :: a) ++ r) = (c :: a) ++ r) as Hdw2 by (simpl; by rewrite Hc).
  rewrite Hdw Hdw2. cbn [app] in *. by rewrite Ht Hd.
Qed.

(** The path of a well-formed request line is the target up to the query. *)
Lemma request_path method path query version :
  word method -> word (path ++ query) -> word version -> 63 ∉ path ->
  match query with [] => True | c :: _ => c = 63 end ->
  HttpServer.parse_request_path (method ++ 32 :: (path ++ query) ++ 32 :: version) = path.
Proof.
  intros Hm Ht Hv Hp Hq. unfold HttpServer.parse_request_path.
  rewrite (proj1 (next_word_skip method (32 :: (path ++ query) ++ 32 :: version) Hm eq_refl)).
  cbn [mbind option_bind snd].
  rewrite (proj2 (next_word_skip (path ++ query) (32 :: version) Ht eq_refl)). cbn [mbind option_bind snd fst].
  rewrite -(app_nil_r version) (proj2 (next_word_skip version [] Hv I)). cbn [mbind option_bind].
  destruct query as [|c query].
  - rewrite app_nil_r. by rewrite (proj2 (search_char_none 63 path) Hp).
  - rewrite Hq search_char //. by rewrite take_app_length.
Qed.
End request.

(** ** The response as its reader sees it *)

Definition HEAD_END : cstring := CRLF ++ CRLF.
Definition digit (c : Z) : bool := (48 <=? c) && (c <=? 57).

(** Status, declared length and body. *)
Definition read_response (r : cstring) : option (Z * Z * cstring) :=
  i ← search HEAD_END r;
  j ← search (cstr "Content-Length: ") r;
  Some (parse_digits (take_while digit (drop 9 r)), parse_digits (take_while digit (drop (j + 16) r)), drop (i + 4) r).

Lemma skip_line a b :
  13 ∉ a -> head b <> None -> head b <> Some 13 ->
  search HEAD_END (a ++ CRLF ++ b) = (fun i => (length a + 2 + i)%nat) <$> search HEAD_END b.
Proof.
  intros Ha Hb Hx. destruct b as [|x b]; [done|]. unfold HEAD_END, CRLF. cbn [app]. rewrite search_skip //.
  assert (search [13; 10; 13; 10] (13 :: 10 :: x :: b) = (fun i => (2 + i)%nat) <$> search [13; 10; 13; 10] (x :: b)) as ->.
  { assert ((13 =? x) = false) as Hne by (apply Z.eqb_neq; intros <-; done).
    rewrite {1}/search -/(search _ _). cbn [starts_with]. rewrite Hne.
    change (13 =? 10) with false. rewrite ?andb_false_r. cbn [andb].
    cbn [search starts_with]. rewrite Hne. cbn [andb]. by destruct (search _ b). }
  destruct (search _ (x :: b)) as [i|]; [|done]. cbn [fmap option_fmap option_map]. f_equal. lia.
Qed.

Lemma last_line a b : 13 ∉ a -> search HEAD_END (a ++ CRLF ++ CRLF ++ b) = Some (length a).
Proof.
  intros Ha. unfold HEAD_END, CRLF. cbn [app]. rewrite search_skip //.
  rewrite (search_here [13; 10; 13; 10] b). cbn. f_equal. lia.
Qed.

Lemma digits_no_cr v : u64 v -> (13 ∉ print_u64 v) /\ Forall (fun c => digit c = true) (print_u64 v).
Proof.
  intros Hv. destruct (print_u64_spec v Hv) as (_ & Hd & _). split.
  - intros Hin. rewrite Forall_forall in Hd. specialize (Hd 13 Hin). unfold is_digit in Hd. lia.
  - eapply Forall_impl; [exact Hd|]. intros c. unfold is_digit, digit. lia.
Qed.

(** A concrete text without a carriage return. *)
Ltac no_cr := match goal with |- ?x ∉ ?l => apply (proj1 (bool_decide_eq_false (x ∈ l))); vm_compute end.

(** The three kinds of answers the server gives with their types. *)
Definition answer (code : Z) (content_type : cstring) : Prop :=
  code = 200 /\ content_type = cstr "text/plain; charset=utf-8" \/
  (code = 400 \/ code = 404 \/ code = 500) /\ content_type = cstr "text/plain".

Lemma read_answer code content_type body :
  answer code content_type -> Z.of_nat (length body) < 2 ^ 64 ->
  read_response (HttpServer.create_response code content_type body) = Some (code, Z.of_nat (length body), body).
Proof.
  intros Ha Hb. assert (u64 (Z.of_nat (length body))) as Hu by u_lia.
  destruct (digits_no_cr _ Hu) as [Hcr Hdig]. destruct (print_u64_spec _ Hu) as (Hp & _ & _).
  set (n := print_u64 (Z.of_nat (length body))) in *.
  set (head := cstr "HTTP/1.1 " ++ print_u64 code ++ [32] ++ HttpServer.status_text code).
  set (ct := cstr "Content-Type: " ++ content_type).
  assert (HttpServer.create_response code content_type body =
    head ++ CRLF ++ ct ++ CRLF ++ (cstr "Content-Length: " ++ n) ++ CRLF ++ cstr "Connection: close" ++ CRLF ++ CRLF ++ body) as Hr.
  { unfold HttpServer.create_response, head, ct. fold n. by rewrite -!app_assoc. }
  assert ((13 ∉ head) /\ (13 ∉ ct)) as [Hh Hc].
  { unfold head, ct. destruct Ha as [[-> ->]|[[-> |[-> | ->]] ->]]; split; by no_cr. }
  assert (search HEAD_END (HttpServer.create_response code content_type body)
    = Some (length head + 2 + (length ct + 2 + (length (cstr "Content-Length: " ++ n) + 2 + 17)))%nat) as Hend.
  { rewrite Hr. rewrite skip_line; [done..|]. rewrite skip_line; [done..|].
    rewrite skip_line; [apply not_elem_of_app; split; [by no_cr|done]|done|done|].
    rewrite last_line; [by no_cr|done]. }
  unfold read_response. rewrite Hend. cbn [mbind option_bind].
  assert (exists j, search (cstr "Content-Length: ") (HttpServer.create_response code content_type body) = Some j /\
    drop (j + 16) (HttpServer.create_response code content_type body)
      = n ++ CRLF ++ cstr "Connection: close" ++ CRLF ++ CRLF ++ body /\
    parse_digits (take_while digit (drop 9 (HttpServer.create_response code content_type body))) = code)
    as (j & Hj & Hdj & Hcode).
  { unfold HttpServer.create_response. fold n. generalize (n ++ CRLF ++ cstr "Connection: close" ++ CRLF ++ CRLF ++ body).
    intros r. destruct Ha as [[-> ->]|[[-> |[-> | ->]] ->]]; eexists; split_and!; reflexivity. }
  rewrite Hj. cbn [mbind option_bind]. rewrite Hdj Hcode. f_equal. f_equal; [f_equal|].
  - destruct (take_drop_while digit n (CRLF ++ cstr "Connection: close" ++ CRLF ++ CRLF ++ body)) as [-> _]; done.
  - rewrite Hr.
    assert (forall (x y : cstring) k, k = length x -> drop k (x ++ y) = y) as Hdrop by (intros ??? ->; apply drop_app_length).
    rewrite !app_assoc. apply Hdrop. rewrite !length_app. simpl. lia.
Qed.

(** ** Requests *)

Section requests.
Context {W : Type}.
Implicit Types (s : HttpServer.t W) (w : W).

(** The answer a path has coming, with the state of the services behind it. *)
Definition expected (path : cstring) s w : option (Z * cstring * W) :=
  if contains path (cstr "..") || contains path (cstr "//") then Some (400, cstr "Bad Request", w)
  else match HttpServer.handlers_ s !! path with
  | None => Some (404, cstr "Not Found", w)
  | Some handler =>
      match handler path [] w with
      | (Done content, w) => Some (200, content, w)
      | (Throws _, w) => Some (500, cstr "Internal Server Error", w)
      | (Undefined, _) => None
      end
  end.

Lemma handle_path line rest s w :
  13 ∉ line -> (length (line ++ CRLF ++ rest) < 4096)%nat ->
  HttpServer.handle_client (Some (line ++ CRLF ++ rest)) s w =
    match expected (HttpServer.parse_request_path line) s w with
    | None => None
    | Some (code, body, w') =>
        Some (Some (HttpServer.create_response code
                (if code =? 200 then cstr "text/plain; charset=utf-8" else cstr "text/plain") body),
              if code =? 400 then s else HttpServer.count_request s, w')
    end.
Proof.
  intros Hcr Hlen.
  assert (search CRLF (line ++ CRLF ++ rest) = Some (length line)) as Hs.
  { unfold CRLF. rewrite search_skip //. cbn [app]. rewrite (search_here [13; 10] rest). cbn. f_equal. lia. }
  assert (Z.of_nat (length line) <= 8192) as Hl.
  { rewrite length_app in Hlen. lia. }
  assert ((4096 <=? length (line ++ CRLF ++ rest))%nat = false) as H4 by (by apply Nat.leb_gt).
  unfold HttpServer.handle_client.
  assert (exists x y, line ++ CRLF ++ rest = x :: y) as (x & y & Hxy).
  { destruct line; [by eexists _, _|by eexists _, _]. }
  rewrite Hxy -Hxy H4 Hs. rewrite (proj2 (Z.ltb_ge _ _)); [lia|]. rewrite take_app_length.
  unfold expected. set (path := HttpServer.parse_request_path line).
  destruct (contains path (cstr "..") || contains path (cstr "//")); [done|].
  destruct (HttpServer.handlers_ s !! path) as [h|]; [|done].
  by destruct (h path [] w) as [[content|e|] w'].
Qed.

Lemma expected_answer path s w code body w' :
  expected path s w = Some (code, body, w') ->
  answer code (if code =? 200 then cstr "text/plain; charset=utf-8" else cstr "text/plain").
Proof.
  unfold expected. destruct (contains path (cstr "..") || contains path (cstr "//")).
  { intros [= <- <- <-]. right. auto. }
  destruct (HttpServer.handlers_ s !! path) as [h|]; [|intros [= <- <- <-]; right; auto].
  destruct (h path [] w) as [[c|e|] w0]; [|..|done]; intros [= <- <- <-]; [by left|right; auto].
Qed.

(** C35: every well-formed request is answered for its path.  A request line of
    method, target and version that one [recv] delivers, in at most 4095 bytes
    with what follows it, gets exactly one response; its reader finds the status, a declared length
    that is the length of the body, and the body.  The path is the target
    without its query; a path with [..] or [//] in it is refused with 400 and
    reaches no handler, an unknown one with 404, a throwing handler gives 500,
    and otherwise the body is what the handler registered for exactly this path
    returned. *)
Theorem http_request_answered method path query version rest s w code body w' :
  word method -> word (path ++ query) -> word version -> 63 ∉ path ->
  match query with [] => True | c :: _ => c = 63 end ->
  13 ∉ method -> 13 ∉ (path ++ query) -> 13 ∉ version ->
  Z.of_nat (length ((method ++ 32 :: (path ++ query) ++ 32 :: version) ++ CRLF ++ rest)) < 4096 ->
  expected path s w = Some (code, body, w') -> Z.of_nat (length body) < 2 ^ 64 ->
  exists response s',
    HttpServer.handle_client (Some ((method ++ 32 :: (path ++ query) ++ 32 :: version) ++ CRLF ++ rest)) s w
      = Some (Some response, s', w') /\
    read_response response = Some (code, Z.of_nat (length body), body) /\
    HttpServer.requests_served_ s' =
      (if code =? 400 then HttpServer.requests_served_ s else HttpServer.requests_served_ s +₆₄ 1) /\
    ((contains path (cstr "..") || contains path (cstr "//")) = true -> code = 400 /\ w' = w).
Proof.
  intros Hm Ht Hv Hp Hq H1 H2 H3 Hlen He Hb.
  rewrite handle_path.
  { rewrite not_elem_of_app not_elem_of_cons not_elem_of_app not_elem_of_cons. split_and!; done. }
  { lia. }
  rewrite (request_path method path query version Hm Ht Hv Hp Hq) He. eexists _, _. split; [done|].
  split; [apply read_answer; [|done]|].
  { by eapply expected_answer. }
  split; [by destruct (code =? 400)|].
  intros Hbad. unfold expected in He. rewrite Hbad in He. by injection He as <- <- <-.
Qed.
End requests.

(** A server with one handler that counts its calls. *)
Definition ex_server : HttpServer.t nat :=
  HttpServer.add_handler (cstr "/health") (fun _ _ w => (Done (cstr "up"), S w)) HttpServer.make.

Lemma http_request_answered_witness :
  exists response s',
    HttpServer.handle_client (Some ((cstr "GET" ++ 32 :: (cstr "/health" ++ cstr "?x=1") ++ 32 :: cstr "HTTP/1.1") ++ CRLF ++ CRLF))
      ex_server 0%nat = Some (Some response, s', 1%nat) /\
    read_response response = Some (200, 2, cstr "up").
Proof.
  destruct (http_request_answered (cstr "GET") (cstr "/health") (cstr "?x=1") (cstr "HTTP/1.1") CRLF ex_server 0%nat
    200 (cstr "up") 1%nat) as (response & s' & H1 & H2 & _).
  - split; [discriminate|]. apply (bool_decide_unpack _). vm_compute. exact I.
  - split; [discriminate|]. apply (bool_decide_unpack _). vm_compute. exact I.
  - split; [discriminate|]. apply (bool_decide_unpack _). vm_compute. exact I.
  - no_cr. reflexivity.
  - reflexivity.
  - no_cr. reflexivity.
  - no_cr. reflexivity.
  - no_cr. reflexivity.
  - reflexivity.
  - reflexivity.
  - reflexivity.
  - exists response, s'. exact (conj H1 H2).
Defined.

(** The text of a refused request's status line says [Unknown], and it is not
    counted. *)
Example refused_request :
  match HttpServer.handle_client (Some (cstr "GET /../etc HTTP/1.1" ++ CRLF)) ex_server 0%nat with
  | Some (Some r, s', _) => (take 20 r, HttpServer.requests_served_ s')
  | _ => ([], 0)
  end = (cstr "HTTP/1.1 400 Unknown", 0).
Proof. vm_compute. reflexivity. Qed.

(** A request whose first line comes in two pieces gets no answer: one [recv] is
    taken for the request. *)
Example split_request_unanswered :
  HttpServer.handle_client (Some (cstr "GET /hea")) ex_server 0%nat = Some (None, ex_server, 0%nat).
Proof. reflexivity. Qed.

(** When [bind] fails the socket stays open: [stop] does nothing on a server that
    is not running, and the next [start] overwrites the descriptor. *)
Example failed_bind_leaks_socket :
  let s := HttpServer.start 7 false true (@HttpServer.make nat) in
  let s := HttpServer.start 8 true true (HttpServer.stop s) in
  bool_decide (7 ∈ HttpServer.open_fds (HttpServer.stop s)) = true.
Proof. vm_compute. reflexivity. Qed.
