(* ===== verification/Metrics.v ===== *)
(** * Metrics and monitoring (metrics.hpp/.cpp, monitoring.hpp/.cpp)

    Counters, histograms, the registry they live in, and the monitoring service
    that feeds them and serves them over HTTP.  Every method holds its mutex
    throughout, so a method is one step.  The order in which the hash maps are
    walked is part of what a handler sees.  The threads of the service are in
    Monitoring.v. *)

From S2P Require Import Prelude Types Double MemorySafety Strings Formatting ConfigLoader HttpServer.

(** ** Counter *)

Module Counter.
Definition t : Type := Z.
Definition init : t := 0.
Definition increment (value : Z) (c : t) : t := c +₆₄ value.
Definition get (c : t) : Z := c.
Definition reset (c : t) : t := 0.
End Counter.

(** ** Histogram *)

Module Histogram.

Record t := mk {
  buckets_ : list double;
  count_ : Z;
  sum_ : double;
  bucket_counts_ : list Z
}.
Implicit Types h : t.

(** [std::sort] with [<]. *)
Fixpoint insert (x : double) (l : list double) : list double :=
  match l with
  | [] => [x]
  | y :: l' => if double_lt x y then x :: l else y :: insert x l'
  end.
Fixpoint sort (l : list double) : list double :=
  match l with [] => [] | x :: l' => insert x (sort l') end.

Definition make (buckets : list double) : t :=
  mk (sort buckets) 0 (double_of_Z 0) (replicate (S (length buckets)) 0).

(** The first bucket that holds the value, else the last counter. *)
Fixpoint bucket_index (value : double) (buckets : list double) : nat :=
  match buckets with
  | [] => 0%nat
  | b :: buckets' => if double_le value b then 0%nat else S (bucket_index value buckets')
  end.

Definition observe (value : double) h : t :=
  mk (buckets_ h) (count_ h +₆₄ 1) (double_add (sum_ h) value)
    (alter (fun n => n +₆₄ 1) (bucket_index value (buckets_ h)) (bucket_counts_ h)).

(** The running totals of [get_prometheus_output], one per bucket and one for
    [+Inf]. *)
Fixpoint cumulate (cumulative : Z) (counts : list Z) : list Z :=
  match counts with
  | [] => []
  | n :: counts' => let cumulative := cumulative +₆₄ n in cumulative :: cumulate cumulative counts'
  end.
Definition cumulative_counts h : list Z := cumulate 0 (bucket_counts_ h).

Definition bucket_line (name le : cstring) (cumulative : Z) : cstring :=
  name ++ quoting "_bucket{le=`" ++ le ++ quoting "`} " ++ print_u64 cumulative ++ [10].
Definition get_prometheus_output (name : cstring) h : cstring :=
  concat (zip_with (bucket_line name) ((print_general <$> buckets_ h) ++ [cstr "+Inf"]) (cumulative_counts h)) ++
  name ++ cstr "_count " ++ print_u64 (count_ h) ++ [10] ++ name ++ cstr "_sum " ++ print_fixed 6 (sum_ h) ++ [10].

Definition get_stats h : Z * double * list Z := (count_ h, sum_ h, bucket_counts_ h).

End Histogram.

(** ** MetricsRegistry *)

Module MetricsRegistry.

Record t := mk { counters_ : gmap cstring Counter.t; histograms_ : gmap cstring Histogram.t }.
Implicit Types r : t.

Definition init : t := mk ∅ ∅.

Definition default_latency_buckets : list double :=
  [nearest_decimal 1 6; nearest_decimal 5 6; nearest_decimal 1 5; nearest_decimal 5 5; nearest_decimal 1 4;
   nearest_decimal 5 4; nearest_decimal 1 3; nearest_decimal 5 3; nearest_decimal 1 2; nearest_decimal 5 2;
   nearest_decimal 1 1].

(** The pointers are the names: an entry is created once and never moves. *)
Definition get_counter (name : cstring) r : t :=
  match counters_ r !! name with
  | Some _ => r
  | None => mk (<[name := Counter.init]> (counters_ r)) (histograms_ r)
  end.

Definition get_histogram (name : cstring) (buckets : list double) r : t :=
  match histograms_ r !! name with
  | Some _ => r
  | None =>
      let bucket_config := match buckets with [] => default_latency_buckets | _ => buckets end in
      mk (counters_ r) (<[name := Histogram.make bucket_config]> (histograms_ r))
  end.

Definition increment (name : cstring) (value : Z) r : t :=
  mk (alter (Counter.increment value) name (counters_ r)) (histograms_ r).
Definition observe (name : cstring) (value : double) r : t :=
  mk (counters_ r) (alter (Histogram.observe value) name (histograms_ r)).

(** [counters] and [histograms]: the entries in the order of the two maps. *)
Definition get_prometheus_output (counters : list (cstring * Counter.t)) (histograms : list (cstring * Histogram.t)) : cstring :=
  cstr "# HELP rtes_metrics RTES Exchange Metrics" ++ [10] ++ cstr "# TYPE rtes_orders_total counter" ++ [10] ++
  cstr "# TYPE rtes_trades_total counter" ++ [10] ++ cstr "# TYPE rtes_latency_seconds histogram" ++ [10; 10] ++
  concat ((fun c => c.1 ++ [32] ++ print_u64 (Counter.get c.2) ++ [10]) <$> counters) ++
  concat ((fun h => Histogram.get_prometheus_output h.1 h.2) <$> histograms).

End MetricsRegistry.

(** ** MonitoringService *)

Module MonitoringService.

(** What the handlers see when they are called: the registry, whether the
    pointers of the exchange are there, the time, and the order in which the hash
    maps are walked. *)
Record view := mkView {
  v_registry : MetricsRegistry.t;
  v_exchange : bool;
  v_risk_manager : bool;
  v_order_pool : bool;
  v_seconds : Z;
  v_counters : gmap cstring Counter.t -> list (cstring * Counter.t);
  v_histograms : gmap cstring Histogram.t -> list (cstring * Histogram.t)
}.

Record t := mk {
  running_ : bool;
  http_server_ : HttpServer.t view;
  registry : MetricsRegistry.t;
  has_exchange : bool;
  has_risk_manager : bool
}.
Implicit Types m : t.

Definition orders_total : cstring := cstr "rtes_orders_total".
Definition orders_rejected : cstring := cstr "rtes_orders_rejected_total".
Definition trades_total : cstring := cstr "rtes_trades_total".
Definition order_latency : cstring := cstr "rtes_order_latency_seconds".
Definition queue_depth : cstring := cstr "rtes_queue_depth".

Definition initial_metrics (r : MetricsRegistry.t) : MetricsRegistry.t :=
  let r := MetricsRegistry.get_counter orders_total r in
  let r := MetricsRegistry.get_counter orders_rejected r in
  let r := MetricsRegistry.get_counter trades_total r in
  let r := MetricsRegistry.get_counter (cstr "rtes_tcp_connections_total") r in
  let r := MetricsRegistry.get_counter (cstr "rtes_udp_messages_total") r in
  let r := MetricsRegistry.get_histogram order_latency [] r in
  MetricsRegistry.get_histogram queue_depth [] r.

Definition handle_metrics (w : view) : cstring :=
  MetricsRegistry.get_prometheus_output (v_counters w (MetricsRegistry.counters_ (v_registry w)))
    (v_histograms w (MetricsRegistry.histograms_ (v_registry w))).
(** The uptime is the number of orders. *)
Definition handle_health (w : view) : cstring :=
  quoting "{" ++ [10] ++ quoting "  `status`: `healthy`," ++ [10] ++ quoting "  `timestamp`: " ++ print_i64 (v_seconds w) ++ [44; 10] ++
  quoting "  `uptime_seconds`: " ++ print_u64 (default 0 (MetricsRegistry.counters_ (v_registry w) !! orders_total)) ++ [10] ++
  cstr "}" ++ [10].
(** It dereferences [exchange_] whether or not it is there. *)
Definition truth (b : bool) : cstring := if b then cstr "true" else cstr "false".
Definition handle_ready (w : view) : outcome cstring :=
  let ready := v_exchange w && v_risk_manager w in
  if v_exchange w then
    Done (cstr "{" ++ [10] ++ quoting "  `ready`: " ++ truth ready ++ [44; 10] ++ quoting "  `components`: {" ++ [10] ++
          quoting "    `risk_manager`: " ++ truth (v_risk_manager w) ++ [44; 10] ++
          quoting "    `order_pool`: " ++ truth (v_order_pool w) ++ [10] ++ cstr "  }" ++ [10] ++ cstr "}" ++ [10])
  else Undefined.

Definition setup_http_handlers (s : HttpServer.t view) : HttpServer.t view :=
  HttpServer.add_handler (cstr "/ready") (fun _ _ w => (handle_ready w, w))
    (HttpServer.add_handler (cstr "/health") (fun _ _ w => (Done (handle_health w), w))
      (HttpServer.add_handler (cstr "/metrics") (fun _ _ w => (Done (handle_metrics w), w)) s)).

Definition make (r : MetricsRegistry.t) (exchange risk : bool) : t :=
  mk false (setup_http_handlers HttpServer.make) (initial_metrics r) exchange risk.

Definition start (fd : Z) (bind_ok listen_ok : bool) m : t :=
  if running_ m then m
  else mk true (HttpServer.start fd bind_ok listen_ok (http_server_ m)) (registry m) (has_exchange m) (has_risk_manager m).

Definition set_running b m : t := mk b (http_server_ m) (registry m) (has_exchange m) (has_risk_manager m).
Definition with_server s m : t := mk (running_ m) s (registry m) (has_exchange m) (has_risk_manager m).

Definition with_registry r m : t := mk (running_ m) (http_server_ m) r (has_exchange m) (has_risk_manager m).

Definition record_order_latency (latency : double) m : t :=
  with_registry (MetricsRegistry.observe order_latency latency (registry m)) m.
Definition record_trade_executed m : t :=
  with_registry (MetricsRegistry.increment trades_total 1 (registry m)) m.
Definition record_order_rejected m : t :=
  with_registry (MetricsRegistry.increment orders_rejected 1 (registry m)) m.

Definition collect_system_metrics m : t :=
  if negb (has_exchange m) then m
  else
    let r := if has_risk_manager m then MetricsRegistry.increment orders_total 0 (registry m) else registry m in
    with_registry (MetricsRegistry.observe queue_depth (double_of_Z 10) r) m.

End MonitoringService.

(** ** Histograms count what they say *)

Section histogram.
Import Histogram.

Definition observes (vs : list double) (h : t) : t := foldl (fun h v => observe v h) h vs.
Definition count_le (b : double) (vs : list double) : Z :=
  Z.of_nat (length (filter (fun v => double_le v b = true) vs)).

Fixpoint ordered (l : list double) : Prop :=
  match l with
  | [] => True
  | x :: l' => is_number x = true /\ Forall (fun y => double_le x y = true) l' /\ ordered l'
  end.

Lemma insert_forall (P : double -> Prop) x l : P x -> Forall P l -> Forall P (insert x l).
Proof.
  intros Hx Hl. induction Hl as [|y l Hy Hl IH]; simpl; [by repeat constructor|].
  destruct (double_lt x y); by repeat constructor.
Qed.

Lemma insert_ordered x l : is_number x = true -> ordered l -> ordered (insert x l).
Proof.
  intros Hx. induction l as [|y l IH]; simpl; [done|]. intros (Hy & Hl & Ho).
  destruct (double_lt x y) eqn:E; simpl.
  - apply double_lt_le in E. split_and!; try done. constructor; [done|].
    eapply Forall_impl; [exact Hl|]. simpl. intros z Hz. by eapply double_le_trans.
  - apply double_not_lt in E; [|done..]. split_and!; [done| |by apply IH]. by apply insert_forall.
Qed.

Lemma sort_ordered l : Forall (fun x => is_number x = true) l -> ordered (sort l).
Proof. induction 1; simpl; [done|]. by apply insert_ordered. Qed.

Lemma insert_perm x l : insert x l ≡ₚ x :: l.
Proof.
  induction l as [|y l IH]; simpl; [done|]. destruct (double_lt x y); [done|]. rewrite IH. constructor.
Qed.

Lemma sort_perm l : sort l ≡ₚ l.
Proof. induction l as [|x l IH]; simpl; [done|]. by rewrite insert_perm IH. Qed.

(** The counters in closed form. *)
Fixpoint tally (buckets : list double) (vs : list double) : list Z :=
  match buckets with
  | [] => [Z.of_nat (length vs)]
  | b :: buckets' => count_le b vs :: tally buckets' (filter (fun v => double_le v b <> true) vs)
  end.

Lemma count_le_bound b vs : 0 <= count_le b vs <= Z.of_nat (length vs).
Proof. unfold count_le. pose proof (length_filter (fun v => double_le v b = true) vs). lia. Qed.

Lemma count_le_snoc b vs v : count_le b (vs ++ [v]) = count_le b vs + if double_le v b then 1 else 0.
Proof.
  unfold count_le. rewrite filter_app length_app. destruct (double_le v b) eqn:E.
  - rewrite filter_cons_True //. simpl. lia.
  - rewrite filter_cons_False; [congruence|]. simpl. lia.
Qed.

(** Below [2^64] observations the counters are the tally. *)
Lemma tally_snoc buckets : forall vs v, Z.of_nat (length vs) + 1 < 2 ^ 64 ->
  alter (fun n => n +₆₄ 1) (bucket_index v buckets) (tally buckets vs) = tally buckets (vs ++ [v]).
Proof.
  induction buckets as [|b buckets IH]; intros vs v Hlen; cbn [tally bucket_index].
  - cbn. f_equal. rewrite length_app wrap_small /=; [u_lia|lia].
  - rewrite count_le_snoc filter_app. pose proof (count_le_bound b vs).
    destruct (double_le v b) eqn:E; cbn [alter list_alter].
    + rewrite (filter_cons_False _ v); [tauto|]. rewrite filter_nil app_nil_r. f_equal. rewrite wrap_small; [u_lia|done].
    + rewrite (filter_cons_True _ v); [congruence|]. rewrite filter_nil Z.add_0_r. f_equal. apply IH.
      pose proof (length_filter (fun v => double_le v b <> true) vs). lia.
Qed.

Lemma tally_nil buckets : tally buckets [] = replicate (S (length buckets)) 0.
Proof. induction buckets as [|b buckets IH]; [done|]. cbn [tally length replicate]. f_equal. exact IH. Qed.

Lemma observes_tally vs : forall us buckets sum,
  Z.of_nat (length us + length vs) < 2 ^ 64 ->
  exists sum', observes vs (mk buckets (Z.of_nat (length us)) sum (tally buckets us))
    = mk buckets (Z.of_nat (length us + length vs)) sum' (tally buckets (us ++ vs)).
Proof.
  induction vs as [|v vs IH]; intros us buckets sum Hlen.
  { exists sum. by rewrite app_nil_r Nat.add_0_r. }
  cbn [observes foldl]. unfold observe. cbn [buckets_ count_ sum_ bucket_counts_ length] in *.
  rewrite tally_snoc; [lia|]. rewrite wrap_small; [u_lia|].
  replace (Z.of_nat (length us) + 1) with (Z.of_nat (length (us ++ [v]))) by (rewrite length_app /=; lia).
  destruct (IH (us ++ [v]) buckets (double_add sum v)) as [sum' E]; [rewrite length_app /=; lia|].
  exists sum'. unfold observes in E. rewrite E -app_assoc length_app /=. do 2 f_equal. lia.
Qed.

(** What lies below a bucket lies below every later one. *)
Lemma count_le_split b b' vs : double_le b b' = true ->
  count_le b' vs = count_le b vs + count_le b' (filter (fun v => double_le v b <> true) vs).
Proof.
  intros Hb. unfold count_le. induction vs as [|v vs IH]; [done|].
  destruct (double_le v b) eqn:E.
  - rewrite (filter_cons_True (fun v => double_le v b' = true)); [by eapply double_le_trans|].
    rewrite (filter_cons_True (fun v => double_le v b = true)) //.
    rewrite (filter_cons_False (fun v => double_le v b <> true)); [tauto|]. simpl. lia.
  - rewrite (filter_cons_False (fun v => double_le v b = true)); [congruence|].
    rewrite (filter_cons_True (fun v => double_le v b <> true)); [congruence|].
    rewrite !(filter_cons _ v). case_decide; simpl; lia.
Qed.

Lemma length_split b vs : Z.of_nat (length vs) = count_le b vs + Z.of_nat (length (filter (fun v => double_le v b <> true) vs)).
Proof.
  unfold count_le. induction vs as [|v vs IH]; [done|]. destruct (double_le v b) eqn:E.
  - rewrite filter_cons_True // (filter_cons_False (fun v => double_le v b <> true)); [tauto|]. simpl. lia.
  - rewrite filter_cons_False; [congruence|]. rewrite (filter_cons_True (fun v => double_le v b <> true)); [congruence|]. simpl. lia.
Qed.

Lemma cumulate_tally buckets : forall c vs,
  ordered buckets -> 0 <= c -> c + Z.of_nat (length vs) < 2 ^ 64 ->
  cumulate c (tally buckets vs) = ((fun b => c + count_le b vs) <$> buckets) ++ [c + Z.of_nat (length vs)].
Proof.
  induction buckets as [|b buckets IH]; intros c vs Ho Hc Hl; cbn [tally cumulate fmap list_fmap app].
  { rewrite wrap_small; [u_lia|done]. }
  destruct Ho as (_ & Hb & Ho). pose proof (count_le_bound b vs). pose proof (length_split b vs) as Hs.
  rewrite wrap_small; [u_lia|]. f_equal. rewrite IH; [done|lia|lia|]. f_equal.
  - apply list_fmap_ext. intros i b' Hi. rewrite Forall_lookup in Hb. specialize (Hb i b' Hi).
    pose proof (count_le_split b b' vs Hb). lia.
  - f_equal. lia.
Qed.
End histogram.

(** A histogram reports the truth.  For buckets that are numbers, in any
    order, after any fewer than [2^64] observations (infinities and not-a-number
    included), the reported running total of every bucket is the number of
    observations that are at most its bound, and the last is the number of all
    of them, which is also the reported count; the buckets are the given ones in
    ascending order. *)
Theorem histogram_cumulative buckets vs :
  Forall (fun b => is_number b = true) buckets -> Z.of_nat (length vs) < 2 ^ 64 ->
  let h := observes vs (Histogram.make buckets) in
  Histogram.cumulative_counts h
    = ((fun b => count_le b vs) <$> Histogram.buckets_ h) ++ [Z.of_nat (length vs)] /\
  Histogram.count_ h = Z.of_nat (length vs) /\
  Histogram.buckets_ h ≡ₚ buckets /\ ordered (Histogram.buckets_ h).
Proof.
  intros Hb Hl h.
  assert (exists sum, h = Histogram.mk (Histogram.sort buckets) (Z.of_nat (length vs)) sum (tally (Histogram.sort buckets) vs))
    as [sum ->].
  { unfold h, Histogram.make.
    replace (length buckets) with (length (Histogram.sort buckets)) by (by rewrite (sort_perm buckets)).
    rewrite -tally_nil. apply (observes_tally vs [] (Histogram.sort buckets) (double_of_Z 0)). done. }
  pose proof (sort_ordered buckets Hb) as Ho. cbn [Histogram.buckets_ Histogram.count_].
  split; [|split; [done|split; [apply sort_perm|done]]].
  unfold Histogram.cumulative_counts. cbn [Histogram.bucket_counts_]. by rewrite cumulate_tally.
Qed.

Lemma histogram_cumulative_witness :
  let h := observes [double_of_Z 3; double_of_Z 1; double_of_Z 9] (Histogram.make [double_of_Z 5; double_of_Z 2]) in
  Histogram.cumulative_counts h
    = ((fun b => count_le b [double_of_Z 3; double_of_Z 1; double_of_Z 9]) <$> Histogram.buckets_ h) ++ [3].
Proof.
  apply (histogram_cumulative [double_of_Z 5; double_of_Z 2] [double_of_Z 3; double_of_Z 1; double_of_Z 9]);
    [repeat constructor|reflexivity].
Defined.

(** [collect_system_metrics] observes the constant 10 and adds 0 orders: the
    metrics do not depend on the exchange. *)
Example collected_metrics_constant :
  let m := MonitoringService.make MetricsRegistry.init true true in
  let r := MonitoringService.registry (MonitoringService.collect_system_metrics m) in
  (MetricsRegistry.counters_ r !! MonitoringService.orders_total,
   Histogram.cumulative_counts <$> MetricsRegistry.histograms_ r !! MonitoringService.queue_depth)
  = (Some 0, Some [0; 0; 0; 0; 0; 0; 0; 0; 0; 0; 0; 1]).
Proof. vm_compute. reflexivity. Qed.

(** The text of a histogram: the bounds as the stream prints them, the counts
    cumulated, the sum with six decimals. *)
Example histogram_text :
  Histogram.get_prometheus_output (cstr "h")
    (observes [nearest_decimal 1 7; double_of_Z 2] (Histogram.make [double_of_Z 1; nearest_decimal 1 6])) =
  quoting "h_bucket{le=`1e-06`} 1" ++ [10] ++ quoting "h_bucket{le=`1`} 1" ++ [10] ++
  quoting "h_bucket{le=`+Inf`} 2" ++ [10] ++ cstr "h_count 2" ++ [10] ++ cstr "h_sum 2.000000" ++ [10].
Proof. by vm_compute. Qed.
