(* ===== verification/Monitoring.v ===== *)
(** * The threads of the monitoring service (monitoring.cpp, http_server.cpp)

    [MonitoringService::start] creates two threads: one collects the metrics once
    a second, the other accepts HTTP connections and answers one request on each.
    [Monitoring.t] is the service with the place at which its HTTP thread is.
    The listening socket does not block, an accepted connection does: in [InRecv]
    the thread waits for the client for as long as the client likes.  The response
    goes out with [send(..., 0)], which raises [SIGPIPE] when the client has reset
    the connection; nothing ignores or handles that signal, so the process ends
    ([None]).  A response is small enough for the socket's buffer.

    [stop] is in two parts, before and after the join of the HTTP thread; the
    metrics thread, which only sleeps, is joined in the first. *)

From S2P Require Import Prelude Types MemorySafety Strings Formatting HttpServer Metrics.

Module Monitoring.

(** Where [server_loop] is: in [accept], in the [recv] of [handle_client], or
    returned. *)
Inductive http_pc := InAccept | InRecv (client_fd : Z) | Returned.

(** [http_thread] is [None] when [server_thread_] is not joinable; [responses] is
    what was sent. *)
Record t := mk {
  service : MonitoringService.t;
  http_thread : option http_pc;
  metrics_thread : bool;
  responses : list cstring
}.
Implicit Types m : t.

(** The registry is the process's one; nothing else writes to it. *)
Definition make : t := mk (MonitoringService.make MetricsRegistry.init true true) None false [].

Definition http_server m : HttpServer.t MonitoringService.view := MonitoringService.http_server_ (service m).
Definition running m : bool := MonitoringService.running_ (service m).

Definition start (fd : Z) (bind_ok listen_ok : bool) m : t :=
  if running m then m
  else
    let s := MonitoringService.start fd bind_ok listen_ok (service m) in
    mk s (if HttpServer.running_ (MonitoringService.http_server_ s) then Some InAccept else None) true (responses m).

(** One turn of [metrics_collection_loop]. *)
Definition metrics_round m : t :=
  if metrics_thread m && running m
  then mk (MonitoringService.collect_system_metrics (service m)) (http_thread m) (metrics_thread m) (responses m)
  else m.

(** The test of [server_loop]. *)
Definition loop_test (s : HttpServer.t MonitoringService.view) : http_pc := if HttpServer.running_ s then InAccept else Returned.

(** [accept] returns [client_fd], negative when nobody connects. *)
Definition http_accept (client_fd : Z) m : t :=
  match http_thread m with
  | Some InAccept =>
      if client_fd <? 0 then mk (service m) (Some (loop_test (http_server m))) (metrics_thread m) (responses m)
      else mk (MonitoringService.with_server (HttpServer.open_client client_fd (http_server m)) (service m))
             (Some (InRecv client_fd)) (metrics_thread m) (responses m)
  | _ => m
  end.

(** What the client of the accepted connection does: the result of [recv], whether
    the connection still stands when the response is sent, and the rest of what
    the handler sees. *)
Record delivery := mkDelivery {
  d_received : option (list Z);
  d_peer_open : bool;
  d_seconds : Z;
  d_counters : gmap cstring Counter.t -> list (cstring * Counter.t);
  d_histograms : gmap cstring Histogram.t -> list (cstring * Histogram.t)
}.

Definition view_of (d : delivery) m : MonitoringService.view :=
  MonitoringService.mkView (MonitoringService.registry (service m)) (MonitoringService.has_exchange (service m))
    (MonitoringService.has_risk_manager (service m)) true (d_seconds d) (d_counters d) (d_histograms d).

(** [recv] returns: the rest of [handle_client], [close] and the test of the loop. *)
Definition http_receive (d : delivery) m : option t :=
  match http_thread m with
  | Some (InRecv client_fd) =>
      '(sent, s, _) ← HttpServer.handle_client (d_received d) (http_server m) (view_of d m);
      if bool_decide (is_Some sent) && negb (d_peer_open d) then None
      else
        let s := HttpServer.close_client client_fd s in
        Some (mk (MonitoringService.with_server s (service m)) (Some (loop_test s)) (metrics_thread m)
                (responses m ++ option_list sent))
  | _ => Some m
  end.

(** [stop] up to the join of the HTTP thread. *)
Definition begin_stop m : t :=
  if negb (running m) then m
  else
    mk (MonitoringService.with_server (HttpServer.set_running false (http_server m))
          (MonitoringService.set_running false (service m)))
      (http_thread m) false (responses m).

(** The join returns when the thread has; [None] while it has not. *)
Definition join_http m : option t :=
  match http_thread m with
  | Some Returned => Some (mk (MonitoringService.with_server (HttpServer.close_listener (http_server m)) (service m))
                             None (metrics_thread m) (responses m))
  | Some _ => None
  | None => Some m
  end.

(** ** What the threads keep *)

(** The handlers are those of the service, which has its exchange. *)
Record ok m : Prop := {
  ok_handlers : HttpServer.handlers_ (http_server m) = HttpServer.handlers_ (http_server make);
  ok_exchange : MonitoringService.has_exchange (service m) = true;
  ok_metrics : metrics_thread m = running m
}.

Lemma new_service_ok : ok make.
Proof. by split. Qed.

Lemma start_handlers {W} fd b l (s : HttpServer.t W) :
  HttpServer.handlers_ (HttpServer.start fd b l s) = HttpServer.handlers_ s.
Proof.
  unfold HttpServer.start, HttpServer.setup_listen_socket. destruct (HttpServer.running_ s); [done|].
  by destruct (fd <? 0), b, l.
Qed.

Lemma start_ok fd b l m : ok m -> ok (start fd b l m).
Proof.
  intros [H1 H2 H3]. unfold start. destruct (running m) eqn:E; [split; congruence|].
  unfold running in E. unfold MonitoringService.start. rewrite E. split; [|done|done].
  unfold http_server. cbn [service MonitoringService.http_server_]. rewrite start_handlers. exact H1.
Qed.

Lemma metrics_round_ok m : ok m -> ok (metrics_round m).
Proof.
  intros [H1 H2 H3]. unfold metrics_round. destruct (_ && _); [|by split].
  unfold MonitoringService.collect_system_metrics. rewrite H2. by split.
Qed.

Lemma http_accept_ok fd m : ok m -> ok (http_accept fd m).
Proof.
  intros [H1 H2 H3]. unfold http_accept. destruct (http_thread m) as [[| |]|]; try done.
  by destruct (fd <? 0).
Qed.

Lemma handle_client_total received (s : HttpServer.t MonitoringService.view) w :
  HttpServer.handlers_ s = HttpServer.handlers_ (http_server make) -> MonitoringService.v_exchange w = true ->
  exists sent s', HttpServer.handle_client received s w = Some (sent, s', w) /\
    HttpServer.handlers_ s' = HttpServer.handlers_ s /\ HttpServer.running_ s' = HttpServer.running_ s.
Proof.
  intros Hh Hw. unfold HttpServer.handle_client. destruct received as [[|b bytes]|]; [by eexists _, _| |by eexists _, _].
  destruct (search CRLF _) as [line_end|]; [|by eexists _, _]. destruct (8192 <? _); [by eexists _, _|].
  set (path := HttpServer.parse_request_path _). destruct (_ || _); [by eexists _, _|].
  destruct (HttpServer.handlers_ s !! path) as [h|] eqn:E; [|by eexists _, _].
  assert (exists content, h path [] w = (Done content, w)) as [content ->]; [|by eexists _, _].
  rewrite Hh in E.
  change (HttpServer.handlers_ (http_server make)) with (HttpServer.handlers_ (MonitoringService.setup_http_handlers HttpServer.make)) in E.
  unfold MonitoringService.setup_http_handlers, HttpServer.add_handler, HttpServer.make in E. cbn [HttpServer.handlers_] in E.
  rewrite !lookup_insert_Some in E.
  destruct E as [[_ <-]|[_ [[_ <-]|[_ [[_ <-]|[_ E]]]]]]; [|by eexists..|by rewrite lookup_empty in E].
  unfold MonitoringService.handle_ready. rewrite Hw. by eexists.
Qed.

Lemma http_receive_ok d m :
  ok m -> d_peer_open d = true ->
  exists m', http_receive d m = Some m' /\ ok m' /\ running m' = running m /\
    HttpServer.running_ (http_server m') = HttpServer.running_ (http_server m).
Proof.
  intros [H1 H2 H3] Hp. unfold http_receive. destruct (http_thread m) as [[|fd|]|]; [by exists m| |by exists m..].
  destruct (handle_client_total (d_received d) (http_server m) (view_of d m) H1 H2) as (sent & s & -> & Hs & Hr).
  cbn [mbind option_bind]. rewrite Hp andb_false_r. eexists. split; [reflexivity|].
  split; [|by split]. split; [|exact H2|exact H3]. unfold http_server. cbn. rewrite Hs. exact H1.
Qed.

Lemma begin_stop_ok m : ok m -> ok (begin_stop m) /\ running (begin_stop m) = false.
Proof.
  intros [H1 H2 H3]. unfold begin_stop. destruct (running m) eqn:E; cbn [negb]; [|split; [split|]; congruence].
  split; [|done]. by split.
Qed.

Lemma join_http_ok m m' : ok m -> join_http m = Some m' -> ok m' /\ running m' = running m /\ http_thread m' = None.
Proof.
  intros [H1 H2 H3]. unfold join_http. destruct (http_thread m) as [[| |]|] eqn:E; intros [= <-]; [|by split].
  split; [|by split]. split; [|done|done]. unfold http_server, HttpServer.close_listener. cbn.
  by destruct (0 <=? _).
Qed.

(** ** How the thread ends *)

(** The turn that brings the thread back to the test of its loop. *)
Definition last_turn (d : delivery) m : option t :=
  match http_thread m with
  | Some InAccept => Some (http_accept (-1) m)
  | Some (InRecv _) => http_receive d m
  | _ => Some m
  end.

(** Once the flag is false the next test ends the thread. *)
Lemma last_turn_returns d m :
  ok m -> d_peer_open d = true -> HttpServer.running_ (http_server m) = false ->
  exists m', last_turn d m = Some m' /\ ok m' /\ running m' = running m /\
    HttpServer.running_ (http_server m') = false /\ (http_thread m = None -> http_thread m' = None) /\
    is_Some (join_http m').
Proof.
  intros Hok Hp Hr. unfold last_turn. destruct (http_thread m) as [[|fd|]|] eqn:E.
  - exists (http_accept (-1) m). split; [done|]. split; [by apply http_accept_ok|].
    unfold http_accept. rewrite E. cbn [Z.ltb Z.compare]. split_and!; [done|done|done|].
    unfold join_http, loop_test. cbn [http_thread]. rewrite Hr. by eexists.
  - destruct (http_receive_ok d m Hok Hp) as (m' & Hm & Hok' & Hr1 & Hr2). rewrite Hr in Hr2.
    exists m'. split_and!; [done..|].
    unfold http_receive in Hm. rewrite E in Hm. destruct (HttpServer.handle_client _ _ _) as [[[sent s] w]|]; [|done].
    cbn [mbind option_bind] in Hm. destruct (_ && _); [done|]. injection Hm as <-.
    unfold join_http, loop_test, http_server in *. cbn in *. rewrite Hr2. by eexists.
  - exists m. rewrite E. split_and!; try done. unfold join_http. rewrite E. by eexists.
  - exists m. rewrite E. split_and!; try done. unfold join_http. rewrite E. by eexists.
Qed.

(** While the client sends nothing the thread stays where it is, whatever else
    happens, and the join does not return. *)
Definition stuck m : bool := match http_thread m with Some (InRecv _) => true | _ => false end.

Lemma stuck_join m : stuck m = true -> join_http m = None.
Proof. unfold stuck, join_http. by destruct (http_thread m) as [[| |]|]. Qed.

Lemma stuck_stays m fd : stuck m = true -> http_accept fd m = m /\ stuck (metrics_round m) = true.
Proof.
  unfold stuck, http_accept, metrics_round. destruct (http_thread m) as [[| |]|] eqn:E; try done. intros _.
  split; [done|]. destruct (_ && _); cbn [http_thread]; rewrite ?E; done.
Qed.

End Monitoring.

(** A client that connects and says nothing: the stop of the service waits for it. *)
Example silent_client_blocks_stop :
  let m := Monitoring.begin_stop (Monitoring.http_accept 7 (Monitoring.start 3 true true Monitoring.make)) in
  (Monitoring.http_thread m, match Monitoring.join_http m with Some _ => true | None => false end)
  = (Some (Monitoring.InRecv 7), false).
Proof. by vm_compute. Qed.

Definition ex_delivery (bytes : option (list Z)) (peer_open : bool) : Monitoring.delivery :=
  Monitoring.mkDelivery bytes peer_open 0 map_to_list map_to_list.

(** When it closes the connection the thread returns and the stop with it; when it
    asks and resets the connection the process dies of [SIGPIPE]. *)
Example closing_client_frees_stop :
  let m := Monitoring.begin_stop (Monitoring.http_accept 7 (Monitoring.start 3 true true Monitoring.make)) in
  (match Monitoring.http_receive (ex_delivery None true) m ≫= Monitoring.join_http with Some _ => true | None => false end,
   match Monitoring.http_receive (ex_delivery (Some (cstr "GET /health HTTP/1.1" ++ CRLF)) false) m with Some _ => true | None => false end)
  = (true, false).
Proof. by vm_compute. Qed.
