(* ===== verification/Observability.v ===== *)
(** * Observability (observability.hpp, observability.cpp)

    The structured logger, the metrics, the traces, the anomaly detector, the
    alerts, the counters of operations and of business events, the security
    audit trail and the thread that checks them.  Each class is a singleton: its
    members are a record and a method is a step, as the methods hold their mutex
    throughout.  Times are nanoseconds of the system clock.  The order in which
    an [unordered_map] is walked is the argument [iterate]; the text written to
    [std::cout] is the list of lines a method returns. *)

From Stdlib Require Import SpecFloat.
From S2P Require Import Prelude Types Double MemorySafety Strings Formatting Logger ConfigLoader Metrics.

Definition SECOND : Z := 1000000000.
Abbreviation fields := (gmap cstring cstring).
Definition walk : Type := forall V : Type, gmap cstring V -> list (cstring * V).

Definition double_sub (x y : double) : double := SFsub 53 1024 x y.
Definition double_abs (x : double) : double := SFabs x.
Definition double_sqrt (x : double) : double := SFsqrt 53 1024 x.
Definition sum_double (l : list double) : double := foldl double_add (double_of_Z 0) l.

(** [v.push_back(x); if (v.size() > limit) v.erase(begin, begin + n)] *)
Definition push_limited {A} (limit n : Z) (x : A) (l : list A) : list A :=
  let l := l ++ [x] in if limit <? Z.of_nat (length l) then drop (Z.to_nat n) l else l.

(** ** StructuredLogger *)

Module StructuredLogger.
Section logger.
Variable iterate : walk.

Record LogEntry := mkEntry {
  timestamp : Z;
  level : LogLevel;
  message : cstring;
  component : cstring;
  trace_id : cstring;
  entry_fields : fields
}.
Record t := mk {
  global_fields_ : fields;
  current_trace_id_ : gmap nat cstring;   (* thread_local *)
  json_format_ : bool
}.
Implicit Types l : t.

Definition init : t := mk ∅ ∅ true.
Definition set_trace_id (tid : nat) (id : cstring) l : t :=
  mk (global_fields_ l) (<[tid := id]> (current_trace_id_ l)) (json_format_ l).
Definition get_trace_id (tid : nat) l : cstring := default [] (current_trace_id_ l !! tid).
Definition add_global_field (key value : cstring) l : t :=
  mk (<[key := value]> (global_fields_ l)) (current_trace_id_ l) (json_format_ l).
Definition set_output_format (json : bool) l : t := mk (global_fields_ l) (current_trace_id_ l) json.

(** The table has six names, the enumeration five values from 0. *)
Definition level_str (lv : LogLevel) : cstring :=
  nth (Z.to_nat (level_value lv))
    [cstr "TRACE"; cstr "DEBUG"; cstr "INFO"; cstr "WARN"; cstr "ERROR"; cstr "CRITICAL"] [].

Fixpoint json_pairs (ps : list (cstring * cstring)) (first : bool) : cstring :=
  match ps with
  | [] => []
  | (key, value) :: ps =>
      (if first then [] else [44]) ++ [34] ++ key ++ quoting "`:`" ++ value ++ [34] ++ json_pairs ps false
  end.
Definition to_json (e : LogEntry) : cstring :=
  quoting "{`timestamp`:`" ++ put_time (timestamp e / SECOND) 84 ++ quoting "Z`,`level`:`" ++ level_str (level e) ++
  quoting "`,`component`:`" ++ component e ++ quoting "`,`message`:`" ++ message e ++ [34] ++
  (match trace_id e with [] => [] | id => quoting ",`trace_id`:`" ++ id ++ [34] end) ++
  (match iterate _ (entry_fields e) with [] => [] | ps => quoting ",`fields`:{" ++ json_pairs ps true ++ [125] end) ++
  [125].

Definition format_log_entry (e : LogEntry) l : cstring :=
  if json_format_ l then to_json e
  else
    put_time (timestamp e / SECOND) 84 ++ cstr " [" ++ level_str (level e) ++ cstr "] [" ++ component e ++ [93] ++
    (match trace_id e with [] => [] | id => cstr " [" ++ id ++ [93] end) ++ [32] ++ message e ++
    concat ((fun kv => [32] ++ kv.1 ++ [61] ++ kv.2) <$> iterate _ (entry_fields e)).

(** A field of the call is kept, a global one added when its key is new. *)
Definition add_globals (globals : list (cstring * cstring)) (fs : fields) : fields :=
  foldl (fun fs kv => match fs !! kv.1 with None => <[kv.1 := kv.2]> fs | Some _ => fs end) fs globals.

Definition log (now : Z) (tid : nat) (lv : LogLevel) (comp msg : cstring) (fs : list (cstring * cstring)) l : cstring :=
  format_log_entry
    (mkEntry now lv msg comp (get_trace_id tid l) (add_globals (iterate _ (global_fields_ l)) (list_to_map fs))) l.

End logger.
End StructuredLogger.

(** ** MetricsCollector *)

Module MetricsCollector.
Section collector.
Variable iterate : walk.

Record MetricValue := mkValue { value : double; timestamp : Z; labels : fields }.
Abbreviation series := (gmap cstring (list MetricValue)).
Record t := mk { counters_ : series; gauges_ : series; histograms_ : series }.
Implicit Types m : t.

Definition init : t := mk ∅ ∅ ∅.
Definition at_name (f : list MetricValue -> list MetricValue) (name : cstring) (s : series) : series :=
  <[name := f (default [] (s !! name))]> s.

Definition increment_counter (now : Z) (name : cstring) (lbls : list (cstring * cstring)) m : t :=
  mk (at_name (fun l => l ++ [mkValue (double_of_Z 1) now (list_to_map lbls)]) name (counters_ m)) (gauges_ m) (histograms_ m).
Definition set_gauge (now : Z) (name : cstring) (v : double) (lbls : list (cstring * cstring)) m : t :=
  mk (counters_ m) (at_name (push_limited 1000 500 (mkValue v now (list_to_map lbls))) name (gauges_ m)) (histograms_ m).
Definition record_histogram (now : Z) (name : cstring) (v : double) (lbls : list (cstring * cstring)) m : t :=
  mk (counters_ m) (gauges_ m) (at_name (push_limited 10000 5000 (mkValue v now (list_to_map lbls))) name (histograms_ m)).

Definition type_line (name : cstring) (kind : string) : cstring := cstr "# TYPE " ++ name ++ [32] ++ cstr kind ++ [10].
Definition value_line (name : cstring) (v : double) : cstring := name ++ [32] ++ print_general v ++ [10].

Definition counter_total (vs : list MetricValue) : double := sum_double (value <$> vs).
Definition export_counter (c : cstring * list MetricValue) : cstring :=
  type_line c.1 "counter" ++ value_line c.1 (counter_total c.2).
Definition export_gauge (g : cstring * list MetricValue) : cstring :=
  match last g.2 with None => [] | Some v => type_line g.1 "gauge" ++ value_line g.1 (value v) end.

(** The index of a percentile, [size * fraction] truncated; reading past the end
    is undefined. *)
Definition percentile_index (size : nat) (fraction : double) : option nat :=
  Z.to_nat <$> trunc_u64 (double_mul (double_of_Z (Z.of_nat size)) fraction).
Definition percentile (sorted : list double) (fraction : double) : option double :=
  i ← percentile_index (length sorted) fraction; sorted !! i.
Definition p50 : double := double_half.
Definition p95 : double := nearest_decimal 95 2.
Definition p99 : double := nearest_decimal 99 2.
Definition export_histogram (h : cstring * list MetricValue) : option cstring :=
  match h.2 with
  | [] => Some []
  | _ =>
      let sorted_values := Histogram.sort (value <$> h.2) in
      v50 ← percentile sorted_values p50;
      v95 ← percentile sorted_values p95;
      v99 ← percentile sorted_values p99;
      Some (type_line h.1 "histogram" ++ value_line (h.1 ++ cstr "_p50") v50 ++ value_line (h.1 ++ cstr "_p95") v95 ++
            value_line (h.1 ++ cstr "_p99") v99)
  end.
Definition export_prometheus m : option cstring :=
  hs ← mapM export_histogram (iterate _ (histograms_ m));
  Some (concat (export_counter <$> iterate _ (counters_ m)) ++ concat (export_gauge <$> iterate _ (gauges_ m)) ++ concat hs).

Definition add_suffixed (suffix : cstring) (s : series) (all : series) : series :=
  foldl (fun all nv => <[nv.1 ++ suffix := nv.2]> all) all (iterate _ s).
Definition get_all_metrics m : series :=
  add_suffixed (cstr "_histogram") (histograms_ m)
    (add_suffixed (cstr "_gauge") (gauges_ m) (add_suffixed (cstr "_counter") (counters_ m) ∅)).

End collector.
End MetricsCollector.

(** ** DistributedTracer *)

Module DistributedTracer.
Section tracer.
Variable iterate : walk.

Record Span := mkSpan {
  trace_id : cstring;
  span_id : cstring;
  parent_span_id : cstring;
  operation_name : cstring;
  start_time : Z;
  end_time : Z;
  tags : fields;
  finished : bool
}.
(** The spans behind the shared pointers, by address, and the copies made when a
    span is finished. *)
Record t := mk { heap : list Span; traces_ : gmap cstring (list Span); span_counter_ : Z }.
Implicit Types d : t.

Definition init : t := mk [] ∅ 0.

(** [random]: what the generator gives next. *)
Definition generate_trace_id (random : Z) : cstring := print_hex random.
Definition generate_span_id d : cstring * t :=
  (print_hex (span_counter_ d), mk (heap d) (traces_ d) (span_counter_ d +₆₄ 1)).

(** The [break] leaves the inner loop only: the last trace with such a span wins. *)
Definition find_trace (parent : cstring) (traces : list (cstring * list Span)) : cstring :=
  foldl (fun found ts => if existsb (fun s => bool_decide (span_id s = parent)) ts.2 then ts.1 else found) [] traces.

Definition start_span (random now : Z) (tid : nat) (operation parent : cstring) d (l : StructuredLogger.t)
    : nat * t * StructuredLogger.t :=
  let trace :=
    match parent with
    | [] => generate_trace_id random
    | _ => match find_trace parent (iterate _ (traces_ d)) with [] => generate_trace_id random | id => id end
    end in
  let '(span, d) := generate_span_id d in
  (length (heap d), mk (heap d ++ [mkSpan trace span parent operation now 0 ∅ false]) (traces_ d) (span_counter_ d),
   StructuredLogger.set_trace_id tid trace l).

Definition finish_span (now : Z) (p : option nat) d : t :=
  match p ≫= fun i => (fun s => (i, s)) <$> heap d !! i with
  | None => d
  | Some (i, s) =>
      if finished s then d
      else
        let s := mkSpan (trace_id s) (span_id s) (parent_span_id s) (operation_name s) (start_time s) now (tags s) true in
        mk (<[i := s]> (heap d)) (<[trace_id s := default [] (traces_ d !! trace_id s) ++ [s]]> (traces_ d)) (span_counter_ d)
  end.
Definition add_tag (p : option nat) (key val : cstring) d : t :=
  match p with
  | None => d
  | Some i =>
      mk (alter (fun s => mkSpan (trace_id s) (span_id s) (parent_span_id s) (operation_name s) (start_time s) (end_time s)
                            (<[key := val]> (tags s)) (finished s)) i (heap d)) (traces_ d) (span_counter_ d)
  end.
Definition get_trace (id : cstring) d : list Span := default [] (traces_ d !! id).

End tracer.
End DistributedTracer.

(** ** AnomalyDetector *)

Module AnomalyDetector.

Record AnomalyThreshold := mkThreshold { mean : double; std_dev : double; z_score_threshold : double; window_size : Z }.
Record t := mk { thresholds_ : gmap cstring AnomalyThreshold; history_ : gmap cstring (list double) }.
Implicit Types a : t.

Definition init : t := mk ∅ ∅.
(** What [operator\[\]] creates. *)
Definition no_threshold : AnomalyThreshold := mkThreshold (double_of_Z 0) (double_of_Z 0) (double_of_Z 3) 100.

Definition configure_metric (name : cstring) (threshold : AnomalyThreshold) a : t :=
  mk (<[name := threshold]> (thresholds_ a)) (history_ a).
Definition z_score (v : double) (th : AnomalyThreshold) : double :=
  double_div (double_abs (double_sub v (mean th))) (std_dev th).
Definition is_anomaly (name : cstring) (v : double) a : bool :=
  match thresholds_ a !! name with
  | None => false
  | Some th => double_lt (z_score_threshold th) (z_score v th)
  end.

Definition mean_of (hist : list double) : double := double_div (sum_double hist) (double_of_Z (Z.of_nat (length hist))).
Definition std_dev_of (hist : list double) : double :=
  let mu := mean_of hist in
  double_sqrt (double_div (sum_double ((fun v => double_mul (double_sub v mu) (double_sub v mu)) <$> hist))
    (double_of_Z (Z.of_nat (length hist)))).
Definition calculate_statistics (hist : list double) (th : AnomalyThreshold) : AnomalyThreshold :=
  if Z.of_nat (length hist) <? 10 then th
  else mkThreshold (mean_of hist) (std_dev_of hist) (z_score_threshold th) (window_size th).
Definition update_baseline (name : cstring) (v : double) a : t :=
  let th := default no_threshold (thresholds_ a !! name) in
  let hist := push_limited (window_size th) 1 v (default [] (history_ a !! name)) in
  mk (<[name := calculate_statistics hist th]> (thresholds_ a)) (<[name := hist]> (history_ a)).

End AnomalyDetector.

(** ** AlertManager *)

Module AlertManager.
Section alerts.
Variable iterate : walk.

Inductive AlertSeverity := INFO | WARNING | CRITICAL.
Definition severity_value (s : AlertSeverity) : Z := match s with INFO => 0 | WARNING => 1 | CRITICAL => 2 end.
Record Alert := mkAlert {
  name : cstring;
  severity : AlertSeverity;
  message : cstring;
  timestamp : Z;
  labels : fields;
  resolved : bool
}.

(** The two closures that are registered, by what they capture. *)
Inductive condition :=
  | Above (metric_name : cstring) (threshold : double)
  | Anomalous (metric_name : cstring).
Record t := mk { active_alerts_ : list Alert; alert_conditions_ : gmap cstring condition }.
Implicit Types a : t.

Definition init : t := mk [] ∅.

(** The severity and the message are not stored. *)
Definition register_threshold_alert (metric_name : cstring) (threshold : double) (sev : AlertSeverity) (msg : cstring) a : t :=
  mk (active_alerts_ a) (<[metric_name := Above metric_name threshold]> (alert_conditions_ a)).
Definition register_anomaly_alert (metric_name : cstring) (sev : AlertSeverity) a : t :=
  mk (active_alerts_ a) (<[metric_name ++ cstr "_anomaly" := Anomalous metric_name]> (alert_conditions_ a)).

Definition last_gauge (metric_name : cstring) (m : MetricsCollector.t) : option double :=
  vs ← MetricsCollector.get_all_metrics iterate m !! (metric_name ++ cstr "_gauge");
  v ← last vs; Some (MetricsCollector.value v).
Definition holds (c : condition) (m : MetricsCollector.t) (d : AnomalyDetector.t) : bool :=
  match c with
  | Above name threshold => match last_gauge name m with Some v => double_lt threshold v | None => false end
  | Anomalous name => match last_gauge name m with Some v => AnomalyDetector.is_anomaly name v d | None => false end
  end.

Definition escalate_alert (al : Alert) : list cstring :=
  match severity al with CRITICAL => [cstr "CRITICAL ALERT: " ++ message al] | _ => [] end.
Definition fire_alert (now : Z) (tid : nat) (al : Alert) (l : StructuredLogger.t) a : list cstring * t :=
  (StructuredLogger.log iterate now tid ERROR (cstr "AlertManager") (message al)
     [(cstr "alert_name", name al); (cstr "severity", print_i64 (severity_value (severity al)))] l :: escalate_alert al,
   mk (active_alerts_ a ++ [al]) (alert_conditions_ a)).

Definition is_active (n : cstring) (als : list Alert) : bool :=
  existsb (fun al => bool_decide (name al = n) && negb (resolved al)) als.
Definition triggered (now : Z) (n : cstring) : Alert :=
  mkAlert n WARNING (cstr "Alert condition triggered: " ++ n) now ∅ false.
Definition check_alert (now : Z) (tid : nat) (m : MetricsCollector.t) (d : AnomalyDetector.t) (l : StructuredLogger.t)
    (nc : cstring * condition) (out : list cstring * t) : list cstring * t :=
  if holds nc.2 m d && negb (is_active nc.1 (active_alerts_ out.2))
  then let '(lines, a) := fire_alert now tid (triggered now nc.1) l out.2 in (out.1 ++ lines, a)
  else out.
Definition check_alerts (now : Z) (tid : nat) (m : MetricsCollector.t) (d : AnomalyDetector.t) (l : StructuredLogger.t) a
    : list cstring * t :=
  foldl (fun out nc => check_alert now tid m d l nc out) ([], a) (iterate _ (alert_conditions_ a)).

Definition resolve (al : Alert) : Alert := mkAlert (name al) (severity al) (message al) (timestamp al) (labels al) true.
Fixpoint resolve_first (n : cstring) (als : list Alert) : option (list Alert) :=
  match als with
  | [] => None
  | al :: als =>
      if bool_decide (name al = n) && negb (resolved al) then Some (resolve al :: als)
      else (fun als => al :: als) <$> resolve_first n als
  end.
Definition resolve_alert (now : Z) (tid : nat) (n : cstring) (l : StructuredLogger.t) a : list cstring * t :=
  match resolve_first n (active_alerts_ a) with
  | None => ([], a)
  | Some als =>
      ([StructuredLogger.log iterate now tid Logger.INFO (cstr "AlertManager") (cstr "Alert resolved") [(cstr "alert_name", n)] l],
       mk als (alert_conditions_ a))
  end.
Definition get_active_alerts a : list Alert := filter (fun al => resolved al = false) (active_alerts_ a).

End alerts.
End AlertManager.

(** ** PerformanceCounters *)

Module PerformanceCounters.

Record t := mk {
  latencies_ : gmap cstring (list double);   (* microseconds *)
  throughput_counters_ : gmap cstring Z;
  error_counters_ : gmap cstring Z;
  total_counters_ : gmap cstring Z
}.
Implicit Types p : t.

Definition init : t := mk ∅ ∅ ∅ ∅.
Definition count_up (n : Z) (name : cstring) (c : gmap cstring Z) : gmap cstring Z :=
  <[name := default 0 (c !! name) +₆₄ n]> c.

Definition record_latency (now : Z) (operation : cstring) (latency : Z) p (m : MetricsCollector.t) : t * MetricsCollector.t :=
  let latency_us := double_div (double_of_Z latency) (double_of_Z 1000) in
  (mk (<[operation := push_limited 10000 5000 latency_us (default [] (latencies_ p !! operation))]> (latencies_ p))
     (throughput_counters_ p) (error_counters_ p) (total_counters_ p),
   MetricsCollector.record_histogram now (operation ++ cstr "_latency_us") latency_us [] m).
Definition record_throughput (now : Z) (operation : cstring) (count : Z) p (m : MetricsCollector.t) : t * MetricsCollector.t :=
  (mk (latencies_ p) (count_up count operation (throughput_counters_ p)) (error_counters_ p)
     (count_up count operation (total_counters_ p)),
   MetricsCollector.increment_counter now (operation ++ cstr "_throughput") [] m).
Definition record_error (now : Z) (operation error_type : cstring) p (m : MetricsCollector.t) : t * MetricsCollector.t :=
  (mk (latencies_ p) (throughput_counters_ p) (count_up 1 operation (error_counters_ p)) (count_up 1 operation (total_counters_ p)),
   MetricsCollector.increment_counter now (operation ++ cstr "_errors") [(cstr "type", error_type)] m).

Definition get_avg_latency (operation : cstring) p : double :=
  match latencies_ p !! operation with
  | None | Some [] => double_of_Z 0
  | Some l => AnomalyDetector.mean_of l
  end.
Definition get_throughput (operation : cstring) p : Z := default 0 (throughput_counters_ p !! operation).
Definition get_error_rate (operation : cstring) p : double :=
  match error_counters_ p !! operation, total_counters_ p !! operation with
  | Some errors, Some total => if 0 <? total then double_div (double_of_Z errors) (double_of_Z total) else double_of_Z 0
  | _, _ => double_of_Z 0
  end.

End PerformanceCounters.

(** ** BusinessMetrics *)

Module BusinessMetrics.

Record t := mk { symbol_volumes_ : gmap cstring double; trade_counts_ : gmap cstring Z; client_pnls_ : gmap cstring double }.
Implicit Types b : t.

Definition init : t := mk ∅ ∅ ∅.
Definition with_symbol (symbol : cstring) : list (cstring * cstring) := [(cstr "symbol", symbol)].

Definition record_order_placed (now : Z) (symbol : cstring) (notional : double) (m : MetricsCollector.t) : MetricsCollector.t :=
  MetricsCollector.set_gauge now (cstr "notional_value") notional (with_symbol symbol)
    (MetricsCollector.increment_counter now (cstr "orders_placed") (with_symbol symbol) m).
Definition record_trade_executed (now : Z) (symbol : cstring) (quantity : Z) (price : double) b (m : MetricsCollector.t)
    : t * MetricsCollector.t :=
  let volume := double_mul (double_of_Z quantity) price in
  (mk (<[symbol := double_add (default (double_of_Z 0) (symbol_volumes_ b !! symbol)) volume]> (symbol_volumes_ b))
     (PerformanceCounters.count_up 1 symbol (trade_counts_ b)) (client_pnls_ b),
   MetricsCollector.set_gauge now (cstr "trade_volume") volume (with_symbol symbol)
     (MetricsCollector.increment_counter now (cstr "trades_executed") (with_symbol symbol) m)).
Definition record_client_activity (now : Z) (client_id activity : cstring) (m : MetricsCollector.t) : MetricsCollector.t :=
  MetricsCollector.increment_counter now (cstr "client_activity") [(cstr "client_id", client_id); (cstr "activity", activity)] m.

Definition get_total_volume (symbol : cstring) b : double := default (double_of_Z 0) (symbol_volumes_ b !! symbol).
Definition get_trade_count (symbol : cstring) b : Z := default 0 (trade_counts_ b !! symbol).
Definition get_client_pnl (client_id : cstring) b : double := default (double_of_Z 0) (client_pnls_ b !! client_id).

End BusinessMetrics.

(** ** SecurityAuditTrail *)

Module SecurityAuditTrail.
Section audit.
Variable iterate : walk.

Record SecurityEvent := mkEvent {
  timestamp : Z;
  event_type : cstring;
  user_id : cstring;
  resource : cstring;
  action : cstring;
  success : bool;
  details : cstring;
  source_ip : cstring
}.
Definition t : Type := list SecurityEvent.

Definition truth (b : bool) : cstring := if b then cstr "true" else cstr "false".
Definition HOUR : Z := 3600 * SECOND.
Definition RETENTION : Z := 24 * 30 * HOUR.

Definition cleanup_old_events (now : Z) (events_ : t) : t := filter (fun e => now - RETENTION <= timestamp e) events_.
Definition log_security_event (tid : nat) (e : SecurityEvent) (events_ : t) (m : MetricsCollector.t) (l : StructuredLogger.t)
    : cstring * t * MetricsCollector.t :=
  let now := timestamp e in
  let events_ := events_ ++ [e] in
  (StructuredLogger.log iterate now tid Logger.INFO (cstr "SecurityAudit") (cstr "Security event")
     [(cstr "event_type", event_type e); (cstr "user_id", user_id e); (cstr "resource", resource e);
      (cstr "action", action e); (cstr "success", truth (success e)); (cstr "source_ip", source_ip e)] l,
   (if 100000 <? Z.of_nat (length events_) then cleanup_old_events now events_ else events_),
   MetricsCollector.increment_counter now (cstr "security_events") [(cstr "type", event_type e); (cstr "success", truth (success e))] m).
Definition get_events (from to : Z) (events_ : t) : t := filter (fun e => from <= timestamp e /\ timestamp e <= to) events_.

Definition failed_login (now : Z) (e : SecurityEvent) : bool :=
  (now - HOUR <=? timestamp e) && bool_decide (event_type e = cstr "LOGIN") && negb (success e).
Definition failed_logins (now : Z) (events_ : t) : gmap cstring Z :=
  foldl (fun c e => if failed_login now e then <[user_id e := default 0 (c !! user_id e) + 1]> c else c) ∅ events_.
Definition suspicious (now : Z) (user : cstring) (count : Z) : AlertManager.Alert :=
  AlertManager.mkAlert (cstr "suspicious_login_" ++ user) AlertManager.WARNING
    (cstr "Multiple failed login attempts for user: " ++ user) now
    (list_to_map [(cstr "user_id", user); (cstr "failed_count", print_i64 count)]) false.
Definition detect_suspicious_activity (now : Z) (tid : nat) (events_ : t) (l : StructuredLogger.t) (a : AlertManager.t)
    : list cstring * AlertManager.t :=
  foldl (fun out uc =>
           if 5 <=? uc.2
           then let '(lines, a) := AlertManager.fire_alert iterate now tid (suspicious now uc.1 uc.2) l out.2 in (out.1 ++ lines, a)
           else out)
    ([], a) (iterate _ (failed_logins now events_)).

End audit.
End SecurityAuditTrail.

(** ** ObservabilityStack *)

Module ObservabilityStack.
Section stack.
Variable iterate : walk.

(** All the singletons. *)
Record t := mk {
  logger : StructuredLogger.t;
  metrics : MetricsCollector.t;
  tracer : DistributedTracer.t;
  detector : AnomalyDetector.t;
  alerts : AlertManager.t;
  audit : SecurityAuditTrail.t;
  monitoring_active_ : bool;
  monitoring_thread_ : bool   (* joinable *)
}.
Implicit Types o : t.

Definition init : t :=
  mk StructuredLogger.init MetricsCollector.init DistributedTracer.init AnomalyDetector.init AlertManager.init [] false false.
Definition stack_line (now : Z) (tid : nat) (msg : string) o : cstring :=
  StructuredLogger.log iterate now tid Logger.INFO (cstr "ObservabilityStack") (cstr msg) [] (logger o).

Definition initialize (now : Z) (tid : nat) o : list cstring * t :=
  let l := StructuredLogger.add_global_field (cstr "service") (cstr "rtes") (logger o) in
  let l := StructuredLogger.add_global_field (cstr "version") (cstr "1.0.0") l in
  let d := AnomalyDetector.configure_metric (cstr "latency")
    (AnomalyDetector.mkThreshold (double_of_Z 0) (double_of_Z 1) (double_of_Z 3) 1000) (detector o) in
  let d := AnomalyDetector.configure_metric (cstr "throughput")
    (AnomalyDetector.mkThreshold (double_of_Z 1000) (double_of_Z 100) (double_of_Z 2) 1000) d in
  let o := mk l (metrics o) (tracer o) d (alerts o) (audit o) (monitoring_active_ o) (monitoring_thread_ o) in
  ([stack_line now tid "Initialized observability stack" o], o).

Definition set_monitoring (active thread : bool) o : t :=
  mk (logger o) (metrics o) (tracer o) (detector o) (alerts o) (audit o) active thread.
(** Assigning to a thread that has not been joined terminates the program
    ([None]). *)
Definition start_monitoring (now : Z) (tid : nat) o : option (list cstring * t) :=
  if monitoring_active_ o then Some ([], o)
  else if monitoring_thread_ o then None
  else Some ([stack_line now tid "Started monitoring" o], set_monitoring true true o).
Definition stop_monitoring (now : Z) (tid : nat) o : list cstring * t :=
  ([stack_line now tid "Stopped monitoring" o], set_monitoring false false o).

Definition set_trace_context (tid : nat) (id : cstring) o : t :=
  mk (StructuredLogger.set_trace_id tid id (logger o)) (metrics o) (tracer o) (detector o) (alerts o) (audit o)
    (monitoring_active_ o) (monitoring_thread_ o).
Definition start_operation (random now : Z) (tid : nat) (operation : cstring) o : nat * t :=
  let '(p, d, l) := DistributedTracer.start_span iterate random now tid operation [] (tracer o) (logger o) in
  (p, mk l (metrics o) d (detector o) (alerts o) (audit o) (monitoring_active_ o) (monitoring_thread_ o)).
Definition log_with_metrics (now : Z) (tid : nat) (lv : LogLevel) (comp msg : cstring) (metric_value : double) o
    : list cstring * t :=
  ([StructuredLogger.log iterate now tid lv comp msg [] (logger o)],
   mk (logger o) (MetricsCollector.set_gauge now (comp ++ cstr "_value") metric_value [] (metrics o)) (tracer o) (detector o)
     (alerts o) (audit o) (monitoring_active_ o) (monitoring_thread_ o)).

(** One turn of [monitoring_loop], on the thread [tid]. *)
Definition monitoring_round (now : Z) (tid : nat) o : list cstring * t :=
  let '(lines1, a) := AlertManager.check_alerts iterate now tid (metrics o) (detector o) (logger o) (alerts o) in
  let '(lines2, a) := SecurityAuditTrail.detect_suspicious_activity iterate now tid (audit o) (logger o) a in
  let m := MetricsCollector.set_gauge now (cstr "system_health") (double_of_Z 1) [] (metrics o) in
  (lines1 ++ lines2,
   mk (logger o) m (tracer o) (detector o) a (audit o) (monitoring_active_ o) (monitoring_thread_ o)).

End stack.
End ObservabilityStack.
