(* ===== verification/ObservabilityTheorems.v ===== *)
(** * What the observability stack promises

    Bounded windows that keep the newest values, percentiles that are always in
    range, exact counters, alerts that fire once per condition, suspicious users
    found exactly, and the trace a span is filed under. *)

From Stdlib Require Import SpecFloat.
From S2P Require Import Prelude Types Double MemorySafety Strings Formatting Logger ConfigLoader Metrics Observability.

(** ** Bounded windows *)

Section window.
Context {A : Type}.
Variables (limit n : Z).
Hypothesis sizes : 0 < n <= limit.

Definition push_all (xs : list A) : list A := foldl (fun l x => push_limited limit n x l) [] xs.

(** What is kept is a suffix of what was recorded: all of it up to the limit, more
    than [limit - n] values beyond. *)
Lemma push_all_suffix xs :
  exists dropped, xs = dropped ++ push_all xs /\ Z.of_nat (length (push_all xs)) <= limit /\
    (Z.of_nat (length xs) <= limit -> dropped = []) /\
    (limit < Z.of_nat (length xs) -> limit - n < Z.of_nat (length (push_all xs))).
Proof using sizes.
  induction xs as [|x xs (dropped & E & Hl & Hs & Hb)] using rev_ind.
  - exists []. cbn. split; [done|]. split; [lia|]. split; [done|]. lia.
  - unfold push_all. rewrite foldl_app. cbn [foldl]. fold (push_all xs). unfold push_limited. rewrite !length_app. cbn [length].
    apply (f_equal length) in E as El. rewrite length_app in El.
    destruct (Z.ltb_spec limit (Z.of_nat (length (push_all xs) + 1))) as [Hlt|Hge].
    + exists (dropped ++ take (Z.to_nat n) (push_all xs ++ [x])).
      split; [rewrite -app_assoc take_drop {1}E -app_assoc //|]. rewrite length_drop length_app. cbn [length].
      split; [lia|]. split; [lia|]. lia.
    + exists dropped. split; [rewrite {1}E -app_assoc //|]. rewrite length_app. cbn [length]. split; [lia|].
      split; [intros; apply Hs; lia|]. intros H.
      destruct (Z_lt_le_dec limit (Z.of_nat (length xs))); [specialize (Hb ltac:(lia)); lia|].
      rewrite Hs in El; [lia|]. simpl in El. lia.
Qed.

End window.

(** ** Percentiles *)

Lemma percentile_defined (l : list double) fraction c :
  fraction = S754_finite false c (-53) -> 2 ^ 52 <= Zpos c <= 2 ^ 53 - 2 ^ 46 ->
  l <> [] -> Z.of_nat (length l) < 2 ^ 53 -> is_Some (MetricsCollector.percentile l fraction).
Proof.
  intros -> Hc Hne Hl. unfold MetricsCollector.percentile, MetricsCollector.percentile_index.
  destruct (share_below (Z.of_nat (length l)) c) as (i & -> & Hi); [destruct l; [done|simpl in *; lia]|done|].
  cbn [fmap option_fmap option_map mbind option_bind]. apply lookup_lt_is_Some. lia.
Qed.

Lemma p95_defined l :
  l <> [] -> Z.of_nat (length l) < 2 ^ 53 -> is_Some (MetricsCollector.percentile l MetricsCollector.p95).
Proof. eapply percentile_defined; [vm_compute; reflexivity|by vm_compute]. Qed.
Lemma p99_defined l :
  l <> [] -> Z.of_nat (length l) < 2 ^ 53 -> is_Some (MetricsCollector.percentile l MetricsCollector.p99).
Proof. eapply percentile_defined; [vm_compute; reflexivity|by vm_compute]. Qed.

Lemma sorted_elem x l : x ∈ Histogram.sort l <-> x ∈ l.
Proof. by rewrite sort_perm. Qed.
Lemma sorted_length l : length (Histogram.sort l) = length l.
Proof. by rewrite sort_perm. Qed.

(** ** Histories that are iterated *)

Section observed.
Variable iterate : walk.
Hypothesis iterate_perm : forall V (m : gmap cstring V), iterate V m ≡ₚ map_to_list m.
#[local] Set Default Proof Using "Type*".

Lemma iterate_keys {V} (m : gmap cstring V) : NoDup (iterate V m).*1.
Proof. rewrite iterate_perm. apply NoDup_fst_map_to_list. Qed.

Lemma iterate_elem {V} (m : gmap cstring V) k v : (k, v) ∈ iterate V m <-> m !! k = Some v.
Proof. rewrite iterate_perm. apply elem_of_map_to_list. Qed.

Lemma iterate_to_map {V} (m : gmap cstring V) : list_to_map (iterate V m) = m.
Proof.
  rewrite -{2}(list_to_map_to_list m). apply list_to_map_proper; [apply iterate_keys|apply iterate_perm].
Qed.

(** ** The fields of a log line *)

Lemma add_globals_lookup gs fs k :
  StructuredLogger.add_globals gs fs !! k =
  match fs !! k with Some v => Some v | None => (list_to_map gs : fields) !! k end.
Proof.
  unfold StructuredLogger.add_globals. revert fs. induction gs as [|[g v] gs IH]; intros fs; cbn [foldl list_to_map].
  - by destruct (fs !! k).
  - rewrite IH. cbn [fst snd]. destruct (decide (g = k)) as [->|Hne].
    + destruct (fs !! k) eqn:E; rewrite ?E ?lookup_insert_eq //.
    + rewrite lookup_insert_ne //. destruct (fs !! g) eqn:Eg; [done|]. by rewrite lookup_insert_ne.
Qed.

(** A line carries the fields of the call and those global fields the call does
    not set itself. *)
Lemma log_fields l fs :
  StructuredLogger.add_globals (iterate _ (StructuredLogger.global_fields_ l)) fs = fs ∪ StructuredLogger.global_fields_ l.
Proof.
  apply map_eq. intros k. rewrite add_globals_lookup iterate_to_map lookup_union.
  by destruct (fs !! k), (StructuredLogger.global_fields_ l !! k).
Qed.

(** ** All metrics *)

Lemma last_suffix (a s : cstring) c : last s = Some c -> last (a ++ s) = Some c.
Proof. intros H. by rewrite last_app H. Qed.

Lemma add_suffixed_same s all suffix (name : cstring) :
  MetricsCollector.add_suffixed iterate suffix s all !! (name ++ suffix) =
  match s !! name with Some v => Some v | None => all !! (name ++ suffix) end.
Proof.
  unfold MetricsCollector.add_suffixed. rewrite -{2}(iterate_to_map s). pose proof (iterate_keys s) as Hn. revert Hn.
  generalize (iterate _ s) as l. induction l as [|[k v] l IH] using rev_ind; intros Hn; [done|].
  rewrite fmap_app in Hn. apply NoDup_app in Hn as (Hn & Hd & _). rewrite foldl_app. cbn [foldl fst snd].
  destruct (decide (k = name)) as [->|Hne].
  - rewrite lookup_insert_eq. rewrite list_to_map_app lookup_union_r; [|by cbn; rewrite lookup_insert_eq].
    apply not_elem_of_list_to_map. intros Hi. apply (Hd _ Hi). by left.
  - rewrite lookup_insert_ne; [intros E; apply Hne; by apply app_inj_2 in E as [-> _]|]. rewrite IH //.
    rewrite list_to_map_app. destruct ((list_to_map l : gmap _ _) !! name) eqn:E; [by rewrite (lookup_union_Some_l _ _ _ _ E)|].
    rewrite lookup_union_r // /= lookup_insert_ne //.
Qed.

Lemma add_suffixed_other s all suffix (k : cstring) c d :
  last k = Some c -> last suffix = Some d -> c <> d ->
  MetricsCollector.add_suffixed iterate suffix s all !! k = all !! k.
Proof.
  intros Hk Hs Hcd. unfold MetricsCollector.add_suffixed. generalize (iterate _ s) as l.
  induction l as [|[n v] l IH] using rev_ind; [done|]. rewrite foldl_app. cbn [foldl fst snd].
  rewrite lookup_insert_ne //. intros <-. rewrite (last_suffix _ _ _ Hs) in Hk. congruence.
Qed.

(** Under its name and [_gauge] a gauge is found, whatever else is recorded. *)
Lemma gauge_found (name : cstring) m :
  MetricsCollector.get_all_metrics iterate m !! (name ++ cstr "_gauge") = MetricsCollector.gauges_ m !! name.
Proof.
  unfold MetricsCollector.get_all_metrics.
  rewrite (add_suffixed_other _ _ _ _ 101 109); [by apply last_suffix|done|done|]. rewrite add_suffixed_same.
  destruct (MetricsCollector.gauges_ m !! name); [done|].
  rewrite (add_suffixed_other _ _ _ _ 101 114); [by apply last_suffix|done|done|]. apply lookup_empty.
Qed.


(** ** The export *)

Lemma export_histogram_defined name vs :
  Z.of_nat (length vs) < 2 ^ 53 -> is_Some (MetricsCollector.export_histogram (name, vs)).
Proof.
  intros Hl. unfold MetricsCollector.export_histogram. cbn [fst snd]. destruct vs as [|v vs]; [done|].
  set (l := Histogram.sort _).
  assert (length l = length (v :: vs)) as El by (unfold l; rewrite sorted_length length_fmap //).
  assert (l <> []) as Hne by (intros E; by rewrite E in El).
  assert (exists x, MetricsCollector.percentile l MetricsCollector.p50 = Some x) as (x & ->)
    by (eapply percentile_defined; [reflexivity|done|done|by rewrite El]).
  assert (exists x, MetricsCollector.percentile l MetricsCollector.p95 = Some x) as (y & ->)
    by (apply p95_defined; [done|by rewrite El]).
  assert (exists x, MetricsCollector.percentile l MetricsCollector.p99 = Some x) as (z & ->)
    by (apply p99_defined; [done|by rewrite El]).
  by eexists.
Qed.

(** Rendering the metrics never reads outside a vector: every percentile has an
    index in range. *)
Lemma export_defined m :
  (forall name vs, MetricsCollector.histograms_ m !! name = Some vs -> Z.of_nat (length vs) < 2 ^ 53) ->
  is_Some (MetricsCollector.export_prometheus iterate m).
Proof.
  intros Hh. unfold MetricsCollector.export_prometheus.
  match goal with |- is_Some (?ms ≫= _) => assert (is_Some ms) as [hs ->]; [|by eexists] end.
  apply mapM_is_Some_2, Forall_forall. intros [name vs] Hin. apply export_histogram_defined.
  apply (Hh name). by apply iterate_elem.
Qed.

(** *** Counters *)

Lemma counter_total_ones vs :
  Forall (fun v => MetricsCollector.value v = double_of_Z 1) vs -> Z.of_nat (length vs) < 2 ^ 53 ->
  MetricsCollector.counter_total vs = double_of_Z (Z.of_nat (length vs)).
Proof.
  unfold MetricsCollector.counter_total, sum_double. induction vs as [|v vs IH] using rev_ind; intros Hv Hl; [done|].
  apply Forall_app in Hv as [Hv Hx]. inversion Hx as [|? ? Ex _]; subst. rewrite length_app in Hl |- *. cbn [length] in *.
  rewrite fmap_app foldl_app. cbn [fmap list_fmap foldl]. rewrite IH //; [lia|]. rewrite Ex double_add_exact; [lia..|].
  f_equal. lia.
Qed.

Fixpoint increments (calls : list (Z * list (cstring * cstring))) (name : cstring) (m : MetricsCollector.t) : MetricsCollector.t :=
  match calls with
  | [] => m
  | (now, lbls) :: calls => increments calls name (MetricsCollector.increment_counter now name lbls m)
  end.

Lemma increments_series calls name m :
  exists vs, default [] (MetricsCollector.counters_ (increments calls name m) !! name) =
      default [] (MetricsCollector.counters_ m !! name) ++ vs /\
    length vs = length calls /\ Forall (fun v => MetricsCollector.value v = double_of_Z 1) vs.
Proof.
  revert m. induction calls as [|[now lbls] calls IH]; intros m; cbn [increments].
  { exists []. by rewrite app_nil_r. }
  destruct (IH (MetricsCollector.increment_counter now name lbls m)) as (vs & -> & Hl & Hv).
  cbn [MetricsCollector.increment_counter MetricsCollector.counters_]. unfold MetricsCollector.at_name.
  rewrite lookup_insert_eq. cbn [default from_option].
  exists (MetricsCollector.mkValue (double_of_Z 1) now (list_to_map lbls) :: vs). rewrite -app_assoc. split; [done|].
  split; [simpl; by rewrite Hl|]. by constructor.
Qed.

(** ** The alerts *)

Import AlertManager.

Lemma holds_above name threshold m d :
  holds iterate (Above name threshold) m d =
  match last (default [] (MetricsCollector.gauges_ m !! name)) with
  | None => false
  | Some v => double_lt threshold (MetricsCollector.value v)
  end.
Proof.
  cbn [holds]. unfold last_gauge. rewrite gauge_found.
  destruct (MetricsCollector.gauges_ m !! name) as [vs|]; [|done]. cbn [mbind option_bind default from_option].
  unfold Datatypes.id. by destruct (last vs).
Qed.

Definition due m d (als : list Alert) (nc : cstring * condition) : bool := holds iterate nc.2 m d && negb (is_active nc.1 als).

Lemma is_active_app n als als' : is_active n (als ++ als') = is_active n als || is_active n als'.
Proof. apply existsb_app. Qed.

(** A check appends one alert for every condition that holds and has no
    unresolved alert yet, and changes nothing else. *)
Lemma check_alerts_appends now tid m d l a :
  (check_alerts iterate now tid m d l a).2 =
  mk (active_alerts_ a ++ (triggered now <$> (filter (fun nc => due m d (active_alerts_ a) nc = true)
                              (iterate _ (alert_conditions_ a))).*1)) (alert_conditions_ a).
Proof.
  unfold check_alerts. pose proof (iterate_keys (alert_conditions_ a)) as Hn. revert Hn.
  generalize (iterate _ (alert_conditions_ a)) as l'. generalize (@nil cstring) as out.
  induction l' as [|[n c] l' IH] using rev_ind; intros Hn.
  { cbn. rewrite app_nil_r. by destruct a. }
  rewrite fmap_app in Hn. apply NoDup_app in Hn as (Hn & Hd & _). rewrite foldl_app. cbn [foldl].
  specialize (IH Hn). destruct (foldl _ _ l') as [lines a']. cbn [snd] in IH. subst a'.
  rewrite filter_app !fmap_app. unfold check_alert. cbn [fst snd active_alerts_].
  assert (is_active n (active_alerts_ a ++ (triggered now <$> (filter (fun nc => due m d (active_alerts_ a) nc = true) l').*1))
          = is_active n (active_alerts_ a)) as Ha.
  { rewrite is_active_app. assert (is_active n (triggered now <$> (filter (fun nc => due m d (active_alerts_ a) nc = true) l').*1) = false) as ->; [|by rewrite orb_false_r].
    apply not_true_iff_false. intros Hex. apply existsb_exists in Hex as (al & Hin & Hal).
    apply list_elem_of_In in Hin. apply list_elem_of_fmap in Hin as (k & -> & Hin).
    apply andb_true_iff in Hal as [Hal _]. apply bool_decide_eq_true in Hal. cbn in Hal. subst k.
    apply list_elem_of_fmap in Hin as ([k c'] & -> & Hin). apply list_elem_of_filter in Hin as [_ Hin].
    apply (Hd k); [|by left]. apply list_elem_of_fmap. by exists (k, c'). }
  rewrite Ha. rewrite filter_cons. cbn [filter list_filter].
  change (holds iterate c m d && negb (is_active n (active_alerts_ a))) with (due m d (active_alerts_ a) (n, c)).
  destruct (due m d (active_alerts_ a) (n, c)) eqn:E.
  - cbn [fmap list_fmap fst snd]. by rewrite app_assoc.
  - cbn [fmap list_fmap]. by rewrite app_nil_r.
Qed.

Lemma due_elem m d a n :
  n ∈ (filter (fun nc => due m d (active_alerts_ a) nc = true) (iterate _ (alert_conditions_ a))).*1 <->
  exists c, alert_conditions_ a !! n = Some c /\ holds iterate c m d = true /\ is_active n (active_alerts_ a) = false.
Proof.
  rewrite list_elem_of_fmap. split.
  - intros ([k c] & -> & Hin). apply list_elem_of_filter in Hin as [Hd Hin]. apply iterate_elem in Hin.
    apply andb_true_iff in Hd as [Hh Ha]. exists c. split; [done|]. split; [done|]. by apply negb_true_iff.
  - intros (c & Hc & Hh & Ha). exists (n, c). split; [done|]. apply list_elem_of_filter. split; [|by apply iterate_elem].
    unfold due. cbn [fst snd]. by rewrite Hh Ha.
Qed.

Lemma is_active_triggered now ns n : is_active n (triggered now <$> ns) = bool_decide (n ∈ ns).
Proof.
  induction ns as [|k ns IH]; [done|]. cbn [fmap list_fmap is_active existsb triggered name resolved]. unfold is_active in IH.
  rewrite IH andb_true_r. destruct (decide (k = n)) as [->|Hne].
  - rewrite bool_decide_true //. symmetry. apply bool_decide_true. by left.
  - rewrite bool_decide_false //. cbn [orb]. apply bool_decide_ext. rewrite elem_of_cons. naive_solver.
Qed.

Lemma check_alerts_active now tid m d l a n c :
  alert_conditions_ a !! n = Some c -> holds iterate c m d = true ->
  is_active n (active_alerts_ (check_alerts iterate now tid m d l a).2) = true.
Proof.
  intros Hc Hh. rewrite check_alerts_appends. cbn [active_alerts_]. rewrite is_active_app is_active_triggered.
  destruct (is_active n (active_alerts_ a)) eqn:E; [done|]. cbn [orb]. apply bool_decide_true, due_elem. by exists c.
Qed.

(** A second check with the same metrics raises nothing new. *)
Lemma check_alerts_idempotent now now' tid m d l l' a :
  (check_alerts iterate now' tid m d l' (check_alerts iterate now tid m d l a).2).2 = (check_alerts iterate now tid m d l a).2.
Proof.
  pose proof (check_alerts_active now tid m d l a) as Hact. set (a' := (check_alerts iterate now tid m d l a).2) in *.
  assert (alert_conditions_ a' = alert_conditions_ a) as Ec by (unfold a'; by rewrite check_alerts_appends).
  rewrite check_alerts_appends.
  assert ((filter (fun nc => due m d (active_alerts_ a') nc = true) (iterate _ (alert_conditions_ a'))).*1 = []) as ->.
  { apply elem_of_nil_inv. intros n Hn. apply due_elem in Hn as (c & Hc & Hh & Ha). rewrite Ec in Hc.
    rewrite (Hact n c Hc Hh) in Ha. done. }
  cbn [fmap list_fmap]. rewrite app_nil_r. by destruct a'.
Qed.

(** ** The audit trail *)

Import SecurityAuditTrail.

Definition attempts (now : Z) (es : SecurityAuditTrail.t) (user : cstring) : Z :=
  Z.of_nat (length (filter (fun e => failed_login now e = true /\ user_id e = user) es)).

(** The count of a user is the number of failed logins of the last hour. *)
Lemma failed_logins_count now es user :
  default 0 (failed_logins now es !! user) = attempts now es user /\
  (failed_logins now es !! user = None <-> attempts now es user = 0).
Proof.
  unfold failed_logins, attempts. induction es as [|e es IH] using rev_ind; [done|].
  rewrite foldl_app filter_app length_app. cbn [foldl]. destruct IH as [IH1 IH2].
  destruct (failed_login now e) eqn:Ef; last first.
  { rewrite (filter_cons_False _ e); [by rewrite Ef; intros [? ?]|]. cbn [filter list_filter length]. rewrite Nat.add_0_r. by split. }
  destruct (decide (user_id e = user)) as [<-|Hne].
  - rewrite filter_cons_True; [done|]. cbn [filter list_filter length]. rewrite lookup_insert_eq.
    match goal with |- context [default 0 (Some ?x)] => change (default 0 (Some x)) with x end.
    rewrite IH1. split; [by rewrite Nat2Z.inj_add|]. split; [done|lia].
  - rewrite filter_cons_False; [by intros [? ?]|]. cbn [filter list_filter length]. rewrite lookup_insert_ne // Nat.add_0_r. by split.
Qed.

Lemma failed_logins_some now es user c : failed_logins now es !! user = Some c -> c = attempts now es user.
Proof. intros E. destruct (failed_logins_count now es user) as [H _]. by rewrite E in H. Qed.

(** One alert for each user with five failed logins or more. *)
Lemma detect_appends now tid es l a :
  (detect_suspicious_activity iterate now tid es l a).2 =
  mk (active_alerts_ a ++ ((fun uc => suspicious now uc.1 uc.2) <$> filter (fun uc => 5 <= uc.2) (iterate _ (failed_logins now es))))
    (alert_conditions_ a).
Proof.
  unfold detect_suspicious_activity. generalize (@nil cstring) as out. generalize (iterate _ (failed_logins now es)) as us.
  induction us as [|[u c] us IH] using rev_ind; intros out; [cbn; rewrite app_nil_r; by destruct a|].
  rewrite foldl_app filter_app fmap_app. cbn [foldl]. specialize (IH out). destruct (foldl _ _ us) as [lines a']. cbn [snd] in IH. subst a'.
  cbn [fst snd]. destruct (Z.leb_spec 5 c) as [Hc|Hc].
  - rewrite filter_cons_True //. cbn [fire_alert snd active_alerts_ alert_conditions_ fmap list_fmap filter list_filter fst].
    by rewrite app_assoc.
  - rewrite filter_cons_False; [cbn; lia|]. cbn [filter list_filter fmap list_fmap snd]. by rewrite app_nil_r.
Qed.

Lemma suspicious_elem now es al :
  al ∈ ((fun uc => suspicious now uc.1 uc.2) <$> filter (fun uc => 5 <= uc.2) (iterate _ (failed_logins now es))) <->
  exists user, 5 <= attempts now es user /\ al = suspicious now user (attempts now es user).
Proof.
  rewrite list_elem_of_fmap. split.
  - intros ([u c] & -> & Hin). apply list_elem_of_filter in Hin as [Hc Hin]. apply iterate_elem in Hin.
    apply failed_logins_some in Hin as ->. by exists u.
  - intros (u & Hu & ->). exists (u, attempts now es u). split; [done|]. apply list_elem_of_filter. split; [done|].
    apply iterate_elem. destruct (failed_logins_count now es u) as [H1 H2].
    destruct (failed_logins now es !! u) as [c|]; [by cbn in H1; subst|]. rewrite (proj1 H2 eq_refl) in Hu. lia.
Qed.

(** Nothing younger than thirty days is dropped from the trail. *)
Lemma retention tid e es m l old :
  old ∈ es ++ [e] -> timestamp e - RETENTION <= timestamp old ->
  old ∈ (log_security_event iterate tid e es m l).1.2.
Proof.
  intros Hin Ht. unfold log_security_event. cbn [fst snd].
  destruct (100000 <? Z.of_nat (length (es ++ [e]))); [|done]. apply list_elem_of_filter. by split.
Qed.

(** ** A round of the monitoring thread *)

Import ObservabilityStack.

(** Why an alert is raised. *)
Inductive cause (now : Z) (o : ObservabilityStack.t) (al : Alert) : Prop :=
  | Condition c :
      alert_conditions_ (alerts o) !! name al = Some c -> holds iterate c (metrics o) (detector o) = true ->
      is_active (name al) (active_alerts_ (alerts o)) = false -> al = triggered now (name al) -> cause now o al
  | Logins user :
      5 <= attempts now (audit o) user -> al = suspicious now user (attempts now (audit o) user) -> cause now o al.

(** C38: A round raises exactly the alerts it has a cause for: afterwards every
    condition that holds has an unresolved alert and every user with five failed
    logins in the last hour a new one; the alerts there were are kept, every new
    one is a warning, and the health gauge is 1.  The round is taken to read one
    time [now]; the code reads the clock for each alert and once for the hour of
    the logins, readings that lie within one round. *)
Theorem monitoring_round_alerts now tid o :
  let o' := (monitoring_round iterate now tid o).2 in
  exists new, active_alerts_ (alerts o') = active_alerts_ (alerts o) ++ new /\
    Forall (fun al => cause now o al /\ severity al = WARNING /\ resolved al = false) new /\
    (forall n c, alert_conditions_ (alerts o) !! n = Some c -> holds iterate c (metrics o) (detector o) = true ->
       is_active n (active_alerts_ (alerts o')) = true) /\
    (forall user, 5 <= attempts now (audit o) user -> suspicious now user (attempts now (audit o) user) ∈ new) /\
    last_gauge iterate (cstr "system_health") (metrics o') = Some (double_of_Z 1).
Proof.
  cbn zeta. unfold monitoring_round.
  pose proof (check_alerts_appends now tid (metrics o) (detector o) (logger o) (alerts o)) as Ec.
  pose proof (check_alerts_active now tid (metrics o) (detector o) (logger o) (alerts o)) as Hact.
  destruct (check_alerts _ _ _ _ _ _ _) as [lines1 a1]. cbn [snd] in Ec, Hact.
  pose proof (detect_appends now tid (audit o) (logger o) a1) as Ed.
  destruct (detect_suspicious_activity _ _ _ _ _ _) as [lines2 a2]. cbn [snd] in Ed. subst a2.
  cbn [snd alerts metrics active_alerts_]. rewrite {1}Ec. cbn [active_alerts_]. rewrite -app_assoc.
  eexists. split; [reflexivity|]. split; [|split; [|split]].
  - apply Forall_app. split; apply Forall_forall; intros al Hin.
    + apply list_elem_of_fmap in Hin as (n & -> & Hn). apply due_elem in Hn as (c & Hc & Hh & Ha).
      split; [|done]. by eapply Condition.
    + apply suspicious_elem in Hin as (u & Hu & ->). split; [|done]. by eapply Logins.
  - intros n c Hc Hh. rewrite is_active_app (Hact n c) //.
  - intros u Hu. apply elem_of_app. right. apply suspicious_elem. by exists u.
  - unfold last_gauge. rewrite gauge_found. cbn [MetricsCollector.set_gauge MetricsCollector.gauges_].
    unfold MetricsCollector.at_name. rewrite lookup_insert_eq. cbn [mbind option_bind]. unfold push_limited. cbn zeta.
    assert (forall (l : list MetricsCollector.MetricValue) x, last (if 1000 <? Z.of_nat (length (l ++ [x])) then drop (Z.to_nat 500) (l ++ [x]) else l ++ [x]) = Some x) as ->; [|done].
    intros l x. destruct (Z.ltb_spec 1000 (Z.of_nat (length (l ++ [x])))) as [Hl|]; [|by rewrite last_snoc].
    rewrite length_app in Hl. cbn [length] in Hl. rewrite drop_app_le; [lia|]. by rewrite last_snoc.
Qed.

(** ** Traces *)

Import DistributedTracer.

Lemma find_trace_none parent (ts : list (cstring * list Span)) :
  (forall id ss, (id, ss) ∈ ts -> forall s, s ∈ ss -> span_id s <> parent) -> find_trace parent ts = [].
Proof.
  intros H. unfold find_trace. induction ts as [|[id ss] ts IH] using rev_ind; [done|].
  rewrite foldl_app. cbn [foldl fst snd]. rewrite IH; [intros ? ? Hin; apply (H id0), elem_of_app; by left|].
  destruct (existsb _ ss) eqn:E; [|done]. apply existsb_exists in E as (s & Hs & He). apply bool_decide_eq_true in He.
  apply list_elem_of_In in Hs. exfalso. apply (H id ss) with s; [apply elem_of_app; right; by left|done|done].
Qed.

Lemma find_trace_some parent tr (ts : list (cstring * list Span)) :
  (forall id ss, (id, ss) ∈ ts -> forall s, s ∈ ss -> span_id s = parent -> id = tr) ->
  (exists id ss s, (id, ss) ∈ ts /\ s ∈ ss /\ span_id s = parent) -> find_trace parent ts = tr.
Proof.
  intros Hall Hex. unfold find_trace. induction ts as [|[id ss] ts IH] using rev_ind.
  { destruct Hex as (? & ? & ? & Hin & _). by apply not_elem_of_nil in Hin. }
  rewrite foldl_app. cbn [foldl fst snd]. destruct (existsb _ ss) eqn:E.
  - apply existsb_exists in E as (s & Hs & He). apply bool_decide_eq_true in He. apply list_elem_of_In in Hs.
    apply (Hall id ss) with s; [apply elem_of_app; right; by left|done|done].
  - apply IH; [intros id' ss' Hin; apply (Hall id' ss'), elem_of_app; by left|].
    destruct Hex as (id' & ss' & s & Hin & Hs & He). exists id', ss', s. split; [|done].
    apply elem_of_app in Hin as [Hin|Hin]; [done|]. apply list_elem_of_singleton in Hin as [= -> ->].
    apply not_true_iff_false in E. exfalso. apply E, existsb_exists. exists s. split; [by apply list_elem_of_In|].
    by apply bool_decide_eq_true.
Qed.

(** The calls of the tracer. *)
Inductive span_op :=
  | Start (random now : Z) (tid : nat) (operation parent : cstring)
  | Finish (now : Z) (p : option nat)
  | Tag (p : option nat) (key val : cstring).
Definition span_step (op : span_op) (st : DistributedTracer.t * StructuredLogger.t) : DistributedTracer.t * StructuredLogger.t :=
  match op with
  | Start random now tid operation parent =>
      let '(_, d, l) := start_span iterate random now tid operation parent st.1 st.2 in (d, l)
  | Finish now p => (finish_span now p st.1, st.2)
  | Tag p key val => (add_tag p key val st.1, st.2)
  end.
Definition span_run (ops : list span_op) (l : StructuredLogger.t) : DistributedTracer.t * StructuredLogger.t :=
  foldl (fun st op => span_step op st) (DistributedTracer.init, l) ops.
Definition draws_u64 (op : span_op) : Prop := match op with Start random _ _ _ _ => u64 random | _ => True end.

(** The identifiers are the positions in the heap; the traces hold copies of the
    finished spans, under their trace. *)
Record filed (d : DistributedTracer.t) : Prop := {
  f_counter : span_counter_ d = Z.of_nat (length (heap d));
  f_span i s : heap d !! i = Some s -> span_id s = print_hex (Z.of_nat i) /\ trace_id s <> [];
  f_copy id ss s : traces_ d !! id = Some ss -> s ∈ ss ->
    exists i s', heap d !! i = Some s' /\ finished s' = true /\ span_id s' = span_id s /\ trace_id s' = id;
  f_finished i s : heap d !! i = Some s -> finished s = true ->
    exists ss s', traces_ d !! trace_id s = Some ss /\ s' ∈ ss /\ span_id s' = span_id s
}.

Lemma span_id_inj d i j s s' :
  filed d -> Z.of_nat (length (heap d)) < 2 ^ 64 ->
  heap d !! i = Some s -> heap d !! j = Some s' -> span_id s = span_id s' -> i = j.
Proof.
  intros Hf Hl Hi Hj E. pose proof (lookup_lt_Some _ _ _ Hi). pose proof (lookup_lt_Some _ _ _ Hj).
  rewrite (proj1 (f_span d Hf i s Hi)) (proj1 (f_span d Hf j s' Hj)) in E. apply (f_equal parse_hex) in E.
  rewrite !(proj1 (print_hex_spec _ _)) in E; [u_lia..|]. lia.
Qed.

Lemma find_trace_filed d i parent :
  filed d -> Z.of_nat (length (heap d)) < 2 ^ 64 -> heap d !! i = Some parent ->
  find_trace (span_id parent) (iterate _ (traces_ d)) = if finished parent then trace_id parent else [].
Proof.
  intros Hf Hl Hi. destruct (finished parent) eqn:Efin.
  - apply find_trace_some.
    + intros id ss Hin s Hs Es. apply iterate_elem in Hin. destruct (f_copy d Hf id ss s Hin Hs) as (j & s' & Hj & _ & Es' & Et).
      rewrite Es in Es'. pose proof (span_id_inj d j i s' parent Hf Hl Hj Hi Es') as ->. rewrite Hi in Hj. by injection Hj as <-.
    + destruct (f_finished d Hf i parent Hi Efin) as (ss & s' & Hss & Hs' & Es). exists (trace_id parent), ss, s'.
      split; [by apply iterate_elem|done].
  - apply find_trace_none. intros id ss Hin s Hs Es. apply iterate_elem in Hin.
    destruct (f_copy d Hf id ss s Hin Hs) as (j & s' & Hj & Hfin & Es' & _). rewrite Es in Es'.
    pose proof (span_id_inj d j i s' parent Hf Hl Hj Hi Es') as ->. rewrite Hi in Hj. injection Hj as <-. congruence.
Qed.

Lemma start_span_filed random now tid operation parent d l :
  u64 random -> filed d -> Z.of_nat (length (heap d)) < 2 ^ 64 - 1 ->
  let '(p, d', l') := start_span iterate random now tid operation parent d l in
  p = length (heap d) /\ filed d' /\ length (heap d') = S (length (heap d)).
Proof.
  intros Hr Hf Hl. unfold start_span, generate_span_id, generate_trace_id. cbn zeta. cbn [heap traces_ span_counter_].
  set (tr := match parent with [] => _ | _ => _ end).
  assert (tr <> []) as Htr.
  { destruct (print_hex_spec random Hr) as [_ Hne]. unfold tr. destruct parent; [done|]. by destruct (find_trace _ _). }
  split; [done|]. rewrite length_app Nat.add_1_r. split; [|done].
  destruct Hf as [Hc Hs Hcopy Hfin]. split; cbn [heap traces_ span_counter_].
  - rewrite Hc length_app wrap_small; [u_lia|]. cbn [length]. lia.
  - intros i s Hi. apply lookup_snoc_Some in Hi as [[_ Hi]|[-> <-]]; [by apply Hs|]. cbn [span_id trace_id]. by rewrite Hc.
  - intros id ss s Hid Hin. destruct (Hcopy id ss s Hid Hin) as (i & s' & Hi & H). exists i, s'. split; [|done].
    by apply lookup_app_l_Some.
  - intros i s Hi Hsf. apply lookup_snoc_Some in Hi as [[_ Hi]|[-> <-]]; [by apply (Hfin i)|]. done.
Qed.

Lemma add_tag_filed p key val d : filed d -> filed (add_tag p key val d).
Proof.
  intros [Hc Hs Hcopy Hfin]. destruct p as [j|]; [|by split]. unfold add_tag.
  match goal with |- context [alter ?f j] => set (g := f) end.
  assert (forall s, span_id (g s) = span_id s /\ trace_id (g s) = trace_id s /\ finished (g s) = finished s) as Hg by done.
  assert (forall i s, alter g j (heap d) !! i = Some s -> exists s0, heap d !! i = Some s0 /\
    span_id s = span_id s0 /\ trace_id s = trace_id s0 /\ finished s = finished s0) as Hback.
  { intros i s Hi. destruct (decide (i = j)) as [->|Hne].
    - rewrite list_lookup_alter_eq in Hi. destruct (heap d !! j) as [s0|]; [|done]. injection Hi as <-. exists s0. split; [done|]. apply Hg.
    - rewrite list_lookup_alter_ne // in Hi. by exists s. }
  split; cbn [heap traces_ span_counter_].
  - by rewrite length_alter.
  - intros i s Hi. apply Hback in Hi as (s0 & Hi & -> & -> & _). by apply Hs.
  - intros id ss s Hid Hin. destruct (Hcopy id ss s Hid Hin) as (i & s' & Hi & Hf' & He & Ht).
    destruct (decide (i = j)) as [->|Hne].
    + exists j, (g s'). rewrite list_lookup_alter_eq Hi. split; [done|]. destruct (Hg s') as (-> & -> & ->). done.
    + exists i, s'. by rewrite list_lookup_alter_ne.
  - intros i s Hi Hsf. apply Hback in Hi as (s0 & Hi & -> & -> & Ef). rewrite Ef in Hsf. by apply (Hfin i).
Qed.

Lemma finish_span_filed now p d : filed d -> filed (finish_span now p d).
Proof.
  intros Hf. unfold finish_span. destruct p as [j|]; [|done]. cbn [mbind option_bind].
  destruct (heap d !! j) as [s|] eqn:Hj; cbn [fmap option_fmap option_map]; [|done].
  destruct (finished s) eqn:Efin; [done|]. cbn zeta. cbn [trace_id].
  match goal with |- context [<[j := ?x]> (heap d)] => set (s1 := x) end.
  destruct Hf as [Hc Hs Hcopy Hfin]. pose proof (lookup_lt_Some _ _ _ Hj) as Hlt.
  assert (<[j := s1]> (heap d) !! j = Some s1) as Hj1 by (by apply list_lookup_insert_eq).
  split; cbn [heap traces_ span_counter_].
  - by rewrite length_insert.
  - intros i x Hi. destruct (decide (i = j)) as [->|Hne].
    + rewrite Hj1 in Hi. injection Hi as <-. exact (Hs j s Hj).
    + rewrite list_lookup_insert_ne // in Hi. by apply Hs.
  - intros id ss x Hid Hin. destruct (decide (id = trace_id s)) as [->|Hne].
    + rewrite lookup_insert_eq in Hid. injection Hid as <-. apply elem_of_app in Hin as [Hin|Hin%list_elem_of_singleton].
      * destruct (traces_ d !! trace_id s) as [ss|] eqn:Ess; [|by apply not_elem_of_nil in Hin].
        destruct (Hcopy _ ss x Ess Hin) as (i & s' & Hi & Hf' & H). exists i, s'. split; [|done].
        rewrite list_lookup_insert_ne //. intros <-. rewrite Hj in Hi. injection Hi as <-. congruence.
      * subst x. by exists j, s1.
    + rewrite lookup_insert_ne // in Hid. destruct (Hcopy id ss x Hid Hin) as (i & s' & Hi & Hf' & H). exists i, s'. split; [|done].
      rewrite list_lookup_insert_ne //. intros <-. rewrite Hj in Hi. injection Hi as <-. congruence.
  - intros i x Hi Hxf. destruct (decide (i = j)) as [->|Hne].
    + rewrite Hj1 in Hi. injection Hi as <-. rewrite lookup_insert_eq. eexists _, s1. split; [reflexivity|].
      split; [|done]. apply elem_of_app. right. by left.
    + rewrite list_lookup_insert_ne // in Hi. destruct (Hfin i x Hi Hxf) as (ss & s' & Hss & Hin & E).
      destruct (decide (trace_id x = trace_id s)) as [Et|Hnt].
      * rewrite Et lookup_insert_eq. rewrite Et in Hss. rewrite Hss. eexists _, s'. split; [reflexivity|].
        split; [|done]. apply elem_of_app. by left.
      * rewrite lookup_insert_ne //. by exists ss, s'.
Qed.

Lemma span_run_filed ops l :
  Forall draws_u64 ops -> Z.of_nat (length ops) < 2 ^ 64 ->
  filed (span_run ops l).1 /\ (length (heap (span_run ops l).1) <= length ops)%nat.
Proof.
  intros Hd Hl. induction ops as [|op ops IH] using rev_ind.
  { split; [|done]. split; cbn; try done; intros *; by rewrite ?lookup_empty ?lookup_nil. }
  apply Forall_app in Hd as [Hd Hop]. inversion Hop as [|? ? Hr _]; subst. rewrite length_app in Hl |- *. cbn [length] in *.
  destruct IH as [Hf Hn]; [done|lia|]. unfold span_run. rewrite foldl_app. cbn [foldl]. fold (span_run ops l).
  destruct (span_run ops l) as [d lg]. cbn [fst] in *.
  destruct op as [random now tid operation parent|now p|p key val]; cbn [span_step fst snd].
  - pose proof (start_span_filed random now tid operation parent d lg Hr Hf ltac:(lia)) as H.
    destruct (start_span _ _ _ _ _ _ _ _) as [[p d'] lg']. destruct H as (_ & H & E). split; [done|]. cbn [fst]. lia.
  - split; [by apply finish_span_filed|]. unfold finish_span. destruct p as [j|]; cbn [mbind option_bind]; [|lia].
    destruct (heap d !! j); cbn [fmap option_fmap option_map]; [|lia]. destruct (finished _); cbn [heap]; rewrite ?length_insert; lia.
  - split; [by apply add_tag_filed|]. destruct p; cbn [add_tag heap]; rewrite ?length_alter; lia.
Qed.

(** After any calls of the tracer, a span started under the identifier of another
    one joins its trace when that span is finished, and starts a trace of its own
    while it is still open; the log lines of the thread carry the new span's
    trace. *)
Theorem child_span_trace ops l i parent random now tid operation :
  Forall draws_u64 ops -> Z.of_nat (length ops) < 2 ^ 64 - 1 -> u64 random ->
  heap (span_run ops l).1 !! i = Some parent ->
  let '(p, d, lg) := start_span iterate random now tid operation (span_id parent) (span_run ops l).1 (span_run ops l).2 in
  exists child, heap d !! p = Some child /\ parent_span_id child = span_id parent /\
    trace_id child = (if finished parent then trace_id parent else print_hex random) /\
    StructuredLogger.get_trace_id tid lg = trace_id child /\
    Forall (fun s => span_id s <> span_id child) (heap (span_run ops l).1).
Proof.
  intros Hd Hl Hr Hi. destruct (span_run_filed ops l Hd ltac:(lia)) as [Hf Hn].
  destruct (span_run ops l) as [d lg]. cbn [fst snd] in *.
  pose proof (find_trace_filed d i parent Hf ltac:(lia) Hi) as Hft.
  destruct (f_span d Hf i parent Hi) as [Hid Htr]. destruct (print_hex_spec (Z.of_nat i)) as [_ Hne].
  { pose proof (lookup_lt_Some _ _ _ Hi). u_lia. }
  unfold start_span, generate_span_id, generate_trace_id. cbn zeta. cbn [heap traces_ span_counter_].
  rewrite Hft. eexists. split; [by apply list_lookup_middle|]. cbn [parent_span_id trace_id span_id].
  split; [done|]. split; [|split].
  - destruct (span_id parent) as [|c id]; [by rewrite -Hid in Hne|]. destruct (finished parent); [by destruct (trace_id parent)|done].
  - unfold StructuredLogger.get_trace_id, StructuredLogger.set_trace_id. cbn [StructuredLogger.current_trace_id_]. by rewrite lookup_insert_eq.
  - apply Forall_lookup. intros j s Hj. rewrite (proj1 (f_span d Hf j s Hj)) (f_counter d Hf).
    pose proof (lookup_lt_Some _ _ _ Hj). intros E. apply (f_equal parse_hex) in E.
    rewrite !(proj1 (print_hex_spec _ _)) in E; [u_lia..|]. lia.
Qed.

End observed.

(** The text of a counter is the number of times it was incremented. *)
Lemma counter_exported calls name :
  Z.of_nat (length calls) < 1000000 ->
  MetricsCollector.export_counter (name, default [] (MetricsCollector.counters_ (increments calls name MetricsCollector.init) !! name)) =
  cstr "# TYPE " ++ name ++ cstr " counter" ++ [10] ++ name ++ [32] ++ print_u64 (Z.of_nat (length calls)) ++ [10].
Proof.
  intros Hl. destruct (increments_series calls name MetricsCollector.init) as (vs & E & Hn & Hv).
  cbn [MetricsCollector.init MetricsCollector.counters_] in E. rewrite lookup_empty in E. cbn [default from_option app] in E.
  rewrite E. unfold MetricsCollector.export_counter, MetricsCollector.type_line, MetricsCollector.value_line. cbn [fst snd].
  rewrite counter_total_ones //; [rewrite Hn; change (2 ^ 53) with 9007199254740992; lia|].
  rewrite Hn print_general_whole; [lia|]. by rewrite -!app_assoc.
Qed.

(** ** Concrete runs *)

Definition walk_map : walk := fun V m => map_to_list m.
Lemma walk_map_perm V (m : gmap cstring V) : walk_map V m ≡ₚ map_to_list m.
Proof. done. Qed.

Module ObservabilityExamples.
Import ObservabilityStack SecurityAuditTrail AlertManager.

(** An [INFO] message is written as [DEBUG], and a message ends the JSON string it
    is put in. *)
Example info_logged_as_debug :
  StructuredLogger.log walk_map 0 0 Logger.INFO (cstr "c") (quoting "x`,`level`:`ERROR") [] StructuredLogger.init =
  quoting "{`timestamp`:`1970-01-01T00:00:00Z`,`level`:`DEBUG`,`component`:`c`,`message`:`x`,`level`:`ERROR`}".
Proof. by vm_compute. Qed.

Definition failed (t : Z) : SecurityEvent :=
  mkEvent t (cstr "LOGIN") (cstr "bob") (cstr "gateway") (cstr "login") false [] (cstr "10.0.0.1").
(** Five failed logins, and a threshold registered as critical that is exceeded. *)
Definition ex_stack : ObservabilityStack.t :=
  ObservabilityStack.mk StructuredLogger.init
    (MetricsCollector.set_gauge 0 (cstr "queue_depth") (double_of_Z 900) [] MetricsCollector.init) DistributedTracer.init
    AnomalyDetector.init
    (register_threshold_alert (cstr "queue_depth") (double_of_Z 500) CRITICAL (cstr "queue is full") AlertManager.init)
    (failed <$> [1; 2; 3; 4; 5]) true true.

(** The alert of the critical threshold is a warning with a text of its own, and
    the suspicious user is reported again in every round. *)
Example second_round :
  let o := (monitoring_round walk_map (10 * SECOND) 1 (monitoring_round walk_map 0 1 ex_stack).2).2 in
  (fun al => (name al, severity al)) <$> active_alerts_ (alerts o) =
    [(cstr "queue_depth", WARNING); (cstr "suspicious_login_bob", WARNING); (cstr "suspicious_login_bob", WARNING)].
Proof. by vm_compute. Qed.

(** A metric that was constant has no deviation: the next value that differs is an
    anomaly, however close. *)
Example constant_baseline :
  let a := Nat.iter 10 (AnomalyDetector.update_baseline (cstr "x") (double_of_Z 100)) AnomalyDetector.init in
  AnomalyDetector.is_anomaly (cstr "x") (double_of_Z 101) a = true /\
  AnomalyDetector.is_anomaly (cstr "x") (double_of_Z 100) a = false.
Proof. by vm_compute. Qed.

(** A metric with fewer than ten values and no configuration: any value but 0. *)
Example unconfigured_metric :
  let a := AnomalyDetector.update_baseline (cstr "x") (double_of_Z 100) AnomalyDetector.init in
  AnomalyDetector.is_anomaly (cstr "x") (double_of_Z 100) a = true.
Proof. by vm_compute. Qed.

Example percentiles_of_four :
  MetricsCollector.export_histogram (cstr "h",
    (fun v => MetricsCollector.mkValue (double_of_Z v) 0 ∅) <$> [4; 1; 3; 2]) =
  Some (cstr "# TYPE h histogram" ++ [10] ++ cstr "h_p50 3" ++ [10] ++ cstr "h_p95 4" ++ [10] ++ cstr "h_p99 4" ++ [10]).
Proof. by vm_compute. Qed.

Lemma monitoring_round_alerts_witness :
  exists new, active_alerts_ (alerts (monitoring_round walk_map 0 1 ex_stack).2) = active_alerts_ (alerts ex_stack) ++ new /\
    attempts 0 (audit ex_stack) (cstr "bob") = 5 /\ suspicious 0 (cstr "bob") 5 ∈ new /\
    is_active (cstr "queue_depth") (active_alerts_ (alerts (monitoring_round walk_map 0 1 ex_stack).2)) = true.
Proof.
  destruct (monitoring_round_alerts walk_map walk_map_perm 0 1 ex_stack) as (new & E & _ & Hc & Hs & _).
  exists new. split; [exact E|]. split; [by vm_compute|]. split.
  - apply (Hs (cstr "bob")). by vm_compute.
  - apply (Hc (cstr "queue_depth") (Above (cstr "queue_depth") (double_of_Z 500))); by vm_compute.
Defined.

(** A span, a child of it while it is open, and the parent finished. *)
Definition ex_spans : list span_op :=
  [Start 7 0 0 (cstr "order") []; Start 8 1 0 (cstr "risk") (print_hex 0); Finish 2 (Some 0%nat)].

Lemma child_span_trace_witness :
  exists parent child d lg, DistributedTracer.heap (span_run walk_map ex_spans StructuredLogger.init).1 !! 0%nat = Some parent /\
    DistributedTracer.start_span walk_map 9 3 1 (cstr "book") (DistributedTracer.span_id parent)
      (span_run walk_map ex_spans StructuredLogger.init).1 (span_run walk_map ex_spans StructuredLogger.init).2 = (2%nat, d, lg) /\
    DistributedTracer.heap d !! 2%nat = Some child /\ DistributedTracer.trace_id child = DistributedTracer.trace_id parent.
Proof.
  destruct (DistributedTracer.heap (span_run walk_map ex_spans StructuredLogger.init).1 !! 0%nat) as [parent|] eqn:E; [|by vm_compute in E].
  pose proof (child_span_trace walk_map walk_map_perm ex_spans StructuredLogger.init 0 parent 9 3 1 (cstr "book")
    ltac:(unfold ex_spans, draws_u64; repeat (constructor; try done)) ltac:(done) ltac:(done) E) as H.
  destruct (DistributedTracer.start_span _ _ _ _ _ _ _ _) as [[p d] lg] eqn:Es. destruct H as (child & Hc & _ & Ht & _).
  assert (p = 2%nat) as -> by (by vm_compute in E; injection E as <-; vm_compute in Es; injection Es as <- _ _).
  exists parent, child, d, lg. split; [done|]. split; [done|]. split; [done|].
  rewrite Ht. vm_compute in E. injection E as <-. done.
Defined.

(** The child that was started while its parent was open is in a trace of its own. *)
Example open_parent_loses_the_child :
  DistributedTracer.trace_id <$> DistributedTracer.heap (span_run walk_map ex_spans StructuredLogger.init).1 = [cstr "7"; cstr "8"].
Proof. by vm_compute. Qed.

End ObservabilityExamples.
