(* ===== verification/SecureConfig.v ===== *)
(** * Secure configuration (secure_config.hpp/.cpp)

    Encryption and signatures, the configuration manager, feature flags, health
    checks and the emergency shutdown.  OpenSSL, the environment, the file
    contents, [std::hash] and the registered functions are arguments; [W] is the
    state the registered functions act on, and a function that throws has the
    outcome [Throws].  Reading a value as a double is not modelled. *)

From S2P Require Import Prelude Types ErrorHandling Double MemorySafety Strings InputValidation.

Inductive Environment := DEVELOPMENT | STAGING | PRODUCTION.

(** ** ConfigEncryption *)

Module ConfigEncryption.

Record EncryptedConfig := mkEncrypted { encrypted_data : list Z; iv : list Z; key_id : cstring }.

(** What the library calls of an encryption or decryption deliver: a context,
    and the transformation of the data under key and initialisation vector. *)
Record cipher := mkCipher { ctx_ok : bool; transform : cstring -> list Z -> list Z -> option (list Z) }.

Definition encrypt (random_iv : option (list Z)) (getenv : cstring -> option cstring) (c : cipher)
    (data key_id : cstring) : Result EncryptedConfig :=
  match random_iv with
  | None => err ENCRYPTION_FAILED
  | Some iv =>
      match getenv (cstr "RTES_ENCRYPTION_KEY_" ++ key_id) with
      | None => err ENCRYPTION_KEY_NOT_FOUND
      | Some key =>
          if negb (ctx_ok c) then err ENCRYPTION_FAILED
          else match transform c key iv data with
          | None => err ENCRYPTION_FAILED
          | Some out => Value (mkEncrypted out iv key_id)
          end
      end
  end.

Definition decrypt (c : cipher) (config : EncryptedConfig) (key : cstring) : Result cstring :=
  if negb (ctx_ok c) then err DECRYPTION_FAILED
  else match transform c key (iv config) (encrypted_data config) with
  | None => err DECRYPTION_FAILED
  | Some out => Value out
  end.

(** [ss << std::hex << int]: no leading zero. *)
Definition hex_digit (v : Z) : Z := if v <? 10 then 48 + v else 87 + v.
Definition hex_int (b : Z) : cstring := if b <? 16 then [hex_digit b] else [hex_digit (b / 16); hex_digit (b mod 16)].

Definition generate_key (random : list Z) : cstring := concat (hex_int <$> random).
Definition verify_signature (sha256 : list Z -> list Z) (data hash : cstring) : bool :=
  bool_decide (concat (hex_int <$> sha256 data) = hash).

End ConfigEncryption.

(** ** SecureConfigManager *)

Module SecureConfigManager.
Section manager.
Context {W : Type}.

Definition callback : Type := cstring -> W -> outcome unit * W.

Record t := mk {
  config_data_ : gmap cstring cstring;
  callbacks_ : gmap cstring callback;
  environment_ : Environment;
  config_path_ : cstring
}.
Implicit Types m : t.

Definition init : t := mk ∅ ∅ DEVELOPMENT [].
Definition set_data d m : t := mk d (callbacks_ m) (environment_ m) (config_path_ m).

(** [std::getline] over the content. *)
Fixpoint lines (s : cstring) : list cstring :=
  match s with
  | [] => [[]]
  | c :: s' =>
      if c =? 10 then [] :: lines s'
      else match lines s' with l :: ls => (c :: l) :: ls | [] => [[c]] end
  end.

(** Blanks at both ends: [find_first_not_of] and [find_last_not_of]. *)
Definition blank (c : Z) : bool := (c =? 32) || (c =? 9).
Definition trim (s : cstring) : cstring := reverse (drop_while blank (reverse (drop_while blank s))).

Definition parse_line (line : cstring) (d : gmap cstring cstring) : gmap cstring cstring :=
  match search [61] line with
  | None => d
  | Some pos => <[trim (take pos line) := trim (drop (S pos) line)]> d
  end.

Definition parse_content (content : cstring) (d : gmap cstring cstring) : gmap cstring cstring :=
  foldl (fun d line => parse_line line d) d (lines content).

Definition load_encrypted_file (file : option cstring) m : Result unit * t :=
  match file with
  | None => (err CONFIG_FILE_NOT_FOUND, m)
  | Some content => (Value tt, set_data (parse_content content (config_data_ m)) m)
  end.

Definition env_suffix (e : Environment) : cstring :=
  match e with DEVELOPMENT => cstr "_DEV" | STAGING => cstr "_STAGING" | PRODUCTION => cstr "_PROD" end.
Definition env_key (key : cstring) (e : Environment) : cstring :=
  toupper <$> (cstr "RTES_" ++ key ++ env_suffix e).

(** Every key on its own, so the order of the iteration does not matter. *)
Definition load_environment_overrides (getenv : cstring -> option cstring) m : t :=
  set_data (map_imap (fun key value => Some (default value (getenv (env_key key (environment_ m))))) (config_data_ m)) m.

Definition required_keys : list cstring := [cstr "exchange.name"; cstr "exchange.tcp_port"; cstr "exchange.udp_port"].

Definition validate_configuration m : Result unit :=
  if forallb (fun key => bool_decide (is_Some (config_data_ m !! key))) required_keys then Value tt
  else err CONFIG_VALIDATION_FAILED.

Definition load_config (files : cstring -> option cstring) (getenv : cstring -> option cstring) (path : cstring)
    (env : Environment) m : Result unit * t :=
  let m := mk (config_data_ m) (callbacks_ m) env path in
  match load_encrypted_file (files path) m with
  | (Error e, m) => (Error e, m)
  | (Value _, m) =>
      let m := load_environment_overrides getenv m in
      (validate_configuration m, m)
  end.

Definition reload_config files getenv m : Result unit * t :=
  load_config files getenv (config_path_ m) (environment_ m) m.

Definition get_string (key : cstring) m : Result cstring :=
  match config_data_ m !! key with None => err CONFIG_KEY_NOT_FOUND | Some v => Value v end.

Definition get_bool (key : cstring) m : Result bool :=
  match config_data_ m !! key with
  | None => err CONFIG_KEY_NOT_FOUND
  | Some v => Value (bool_decide (v = cstr "true") || bool_decide (v = cstr "1"))
  end.

(** [std::stoi]: blanks, a sign, digits; throws without digits or outside [int]. *)
Definition stoi (s : cstring) : option Z :=
  let s := drop_while isspace s in
  let '(negative, s) := match s with 45 :: s' => (true, s') | 43 :: s' => (false, s') | _ => (false, s) end in
  let digits := take_while (fun c => (48 <=? c) && (c <=? 57)) s in
  match digits with
  | [] => None
  | _ =>
      let v := if (negative : bool) then - parse_digits digits else parse_digits digits in
      if (- 2 ^ 31 <=? v) && (v <? 2 ^ 31) then Some v else None
  end.

Definition get_int (key : cstring) m : Result Z :=
  match config_data_ m !! key with
  | None => err CONFIG_KEY_NOT_FOUND
  | Some v => match stoi v with Some n => Value n | None => err CONFIG_PARSE_ERROR end
  end.

(** An exception of the callback is caught. *)
Definition notify_callbacks (key value : cstring) m (w : W) : option W :=
  match callbacks_ m !! key with
  | None => Some w
  | Some f => match f value w with (Undefined, _) => None | (_, w) => Some w end
  end.

Definition set_value (key value : cstring) m (w : W) : option (Result unit * t * W) :=
  let m := set_data (<[key := value]> (config_data_ m)) m in
  w ← notify_callbacks key value m w;
  Some (Value tt, m, w).

Definition has_key (key : cstring) m : bool := bool_decide (is_Some (config_data_ m !! key)).

Definition register_change_callback (key : cstring) (f : callback) m : t :=
  mk (config_data_ m) (<[key := f]> (callbacks_ m)) (environment_ m) (config_path_ m).

Definition is_production m : bool := match environment_ m with PRODUCTION => true | _ => false end.

End manager.
Arguments t : clear implicits.
End SecureConfigManager.

(** ** FeatureFlags *)

Module FeatureFlags.
Section flags.
(** [std::hash<std::string>] *)
Variable hash : cstring -> Z.

Record t := mk { flags_ : gmap cstring bool; rollout_percentages_ : gmap cstring double }.
Implicit Types f : t.

Definition init : t := mk ∅ ∅.

Definition is_enabled (flag : cstring) f : bool := default false (flags_ f !! flag).
Definition set_flag (flag : cstring) (enabled : bool) f : t :=
  mk (<[flag := enabled]> (flags_ f)) (rollout_percentages_ f).

(** [std::clamp] with [<]. *)
Definition clamp (v lo hi : double) : double := if double_lt v lo then lo else if double_lt hi v then hi else v.

Definition set_rollout_percentage (flag : cstring) (percentage : double) f : t :=
  mk (flags_ f) (<[flag := clamp percentage (double_of_Z 0) (double_of_Z 100)]> (rollout_percentages_ f)).

Definition user_percentage (user : cstring) : double :=
  double_div (double_of_Z (hash user mod 10000)) (double_of_Z 100).

Definition is_enabled_for_user (flag user : cstring) f : bool :=
  match flags_ f !! flag with
  | None | Some false => false
  | Some true =>
      match rollout_percentages_ f !! flag with
      | None => true
      | Some percentage => double_lt (user_percentage user) percentage
      end
  end.

End flags.
End FeatureFlags.

(** ** HealthCheckManager *)

Module HealthCheckManager.

Inductive HealthStatus := HEALTHY | DEGRADED | UNHEALTHY.
#[export] Instance HealthStatus_eq_dec : EqDecision HealthStatus.
Proof. solve_decision. Defined.

Section checks.
Context {W : Type}.

Record HealthCheck := mkCheck { check_name : cstring; check_fn : W -> outcome HealthStatus; critical : bool }.
Definition t : Type := list HealthCheck.

Definition register_check (check : HealthCheck) (m : t) : t := m ++ [check].

(** An exception is caught and counts as [UNHEALTHY]. *)
Definition run_check (check : HealthCheck) (w : W) : HealthStatus :=
  match check_fn check w with Done s => s | _ => UNHEALTHY end.

(** The loop over the checks with its two flags. *)
Fixpoint overall_loop (m : t) (w : W) (has_critical_failure has_degraded : bool) : bool * bool :=
  match m with
  | [] => (has_critical_failure, has_degraded)
  | check :: m =>
      let status := run_check check w in
      if bool_decide (status = UNHEALTHY) && critical check then overall_loop m w true has_degraded
      else if bool_decide (status = DEGRADED) then overall_loop m w has_critical_failure true
      else overall_loop m w has_critical_failure has_degraded
  end.

Definition get_overall_status (m : t) (w : W) : HealthStatus :=
  let '(has_critical_failure, has_degraded) := overall_loop m w false false in
  if (has_critical_failure : bool) then UNHEALTHY else if (has_degraded : bool) then DEGRADED else HEALTHY.

Definition get_detailed_status (m : t) (w : W) : gmap cstring HealthStatus :=
  foldl (fun r check => <[check_name check := run_check check w]> r) ∅ m.

Definition is_ready (m : t) (w : W) : bool := negb (bool_decide (get_overall_status m w = UNHEALTHY)).

Definition is_live (m : t) (w : W) : bool :=
  forallb (fun check => negb (critical check && bool_decide (run_check check w = UNHEALTHY))) m.

End checks.
Arguments HealthCheck : clear implicits.
Arguments t : clear implicits.
End HealthCheckManager.

(** ** EmergencyShutdown *)

Module EmergencyShutdown.
Section shutdown.
Context {W : Type}.

(** What is registered: functions that return or throw an exception derived from
    [std::exception]; the handlers change the state [W] of the program. *)
Abbreviation trigger := (W -> string + bool).
Abbreviation handler := (W -> (string + unit) * W).

(** The monitor thread and the others. *)
Definition thread : Type := nat.
Definition MONITOR : thread := 0%nat.

(** Where a joinable monitor thread is: in its loop, or returned from it. *)
Inductive monitor_pc := Looping | Ended.

(** [shutdown_mutex_] is the thread that holds it. *)
Record t := mk {
  emergency_active_ : bool;
  monitoring_active_ : bool;
  triggers_ : list (cstring * trigger);
  handlers_ : list handler;
  shutdown_mutex_ : option thread;
  monitor_thread_ : option monitor_pc
}.
Implicit Types e : t.

Definition init : t := mk false false [] [] None None.
Definition set_emergency b e : t :=
  mk b (monitoring_active_ e) (triggers_ e) (handlers_ e) (shutdown_mutex_ e) (monitor_thread_ e).
Definition set_mutex o e : t :=
  mk (emergency_active_ e) (monitoring_active_ e) (triggers_ e) (handlers_ e) o (monitor_thread_ e).
Definition set_monitor b pc e : t := mk (emergency_active_ e) b (triggers_ e) (handlers_ e) (shutdown_mutex_ e) pc.

(** A call returns; its thread waits for a mutex another thread holds; it locks a
    [std::mutex] it holds itself, which is undefined; or it ends the process by
    assigning to a joinable [std::thread]. *)
Inductive call := Returns (e : t) (w : W) | Waits | Relocks | Terminates.

Definition lock (me : thread) e (body : t -> call) : call :=
  match shutdown_mutex_ e with
  | None => body (set_mutex (Some me) e)
  | Some owner => if decide (owner = me) then Relocks else Waits
  end.
Definition unlock e : t := set_mutex None e.

Definition register_trigger (me : thread) (name : cstring) (f : trigger) e (w : W) : call :=
  lock me e (fun e => Returns (unlock (mk (emergency_active_ e) (monitoring_active_ e) (triggers_ e ++ [(name, f)])
                                 (handlers_ e) (shutdown_mutex_ e) (monitor_thread_ e))) w).
Definition register_shutdown_handler (me : thread) (f : handler) e (w : W) : call :=
  lock me e (fun e => Returns (unlock (mk (emergency_active_ e) (monitoring_active_ e) (triggers_ e)
                                 (handlers_ e ++ [f]) (shutdown_mutex_ e) (monitor_thread_ e))) w).

(** Every handler runs; exceptions are caught. *)
Definition run_handlers (fs : list handler) (w : W) : W := foldl (fun w (f : handler) => (f w).2) w fs.

(** The exchange on [emergency_active_] comes before the mutex. *)
Definition initiate_emergency_shutdown (me : thread) e (w : W) : call :=
  if emergency_active_ e then Returns e w
  else lock me (set_emergency true e) (fun e => Returns (unlock e) (run_handlers (handlers_ e) w)).

Definition is_emergency_shutdown_active e : bool := emergency_active_ e.

Definition start_monitoring e (w : W) : call :=
  if monitoring_active_ e then Returns e w
  else match monitor_thread_ e with
       | Some _ => Terminates
       | None => Returns (set_monitor true (Some Looping) e) w
       end.

(** The join returns: the loop ends at its next test of the flag. *)
Definition stop_monitoring e (w : W) : call := Returns (set_monitor false None e) w.

(** The first trigger that fires. *)
Fixpoint fired (ts : list (cstring * trigger)) (w : W) : option cstring :=
  match ts with
  | [] => None
  | (name, f) :: ts => match f w with inr true => Some name | _ => fired ts w end
  end.

(** One turn of [monitor_loop], on its thread: the triggers are tried, and the
    shutdown initiated, under the mutex. *)
Definition monitor_turn e (w : W) : call :=
  match monitor_thread_ e with
  | Some Looping =>
      if negb (monitoring_active_ e) then Returns (set_monitor false (Some Ended) e) w
      else lock MONITOR e (fun e =>
             match fired (triggers_ e) w with
             | None => Returns (unlock e) w
             | Some name =>
                 match initiate_emergency_shutdown MONITOR e w with
                 | Returns e w => Returns (unlock (set_monitor (monitoring_active_ e) (Some Ended) e)) w
                 | r => r
                 end
             end)
  | _ => Returns e w
  end.

(** Calls in the order in which they take effect; the callers are not the monitor. *)
Inductive op :=
  | Initiate (caller : nat)
  | RegisterHandler (caller : nat) (f : handler)
  | RegisterTrigger (caller : nat) (name : cstring) (f : trigger)
  | StartMonitoring
  | StopMonitoring
  | MonitorTurn.

Definition step (o : op) e (w : W) : call :=
  match o with
  | Initiate caller => initiate_emergency_shutdown (S caller) e w
  | RegisterHandler caller f => register_shutdown_handler (S caller) f e w
  | RegisterTrigger caller name f => register_trigger (S caller) name f e w
  | StartMonitoring => start_monitoring e w
  | StopMonitoring => stop_monitoring e w
  | MonitorTurn => monitor_turn e w
  end.

Fixpoint run (ops : list op) e (w : W) : call :=
  match ops with
  | [] => Returns e w
  | o :: ops => match step o e w with Returns e w => run ops e w | r => r end
  end.

End shutdown.
Arguments t : clear implicits.
Arguments call : clear implicits.
Arguments op : clear implicits.
End EmergencyShutdown.

(** ** Configuration files *)

Section files.
Import SecureConfigManager.

(** A key or value that survives trimming. *)
Definition trimmed (s : cstring) : Prop := trim s = s /\ 10 ∉ s.
Definition entry_ok (kv : cstring * cstring) : Prop := trimmed kv.1 /\ (61 ∉ kv.1) /\ trimmed kv.2.

(** One [key = value] per line. *)
Definition render_entry (kv : cstring * cstring) : cstring := kv.1 ++ cstr " = " ++ kv.2.
Definition render (kvs : list (cstring * cstring)) : cstring := concat ((fun kv => render_entry kv ++ [10]) <$> kvs).

Lemma lines_app a s : 10 ∉ a -> lines (a ++ 10 :: s) = a :: lines s.
Proof.
  induction a as [|c a IH]; [done|]. intros [Hc Ha]%not_elem_of_cons. cbn [app lines].
  rewrite (proj2 (Z.eqb_neq c 10)); [congruence|]. by rewrite IH.
Qed.

Lemma drop_while_snoc f s x :
  drop_while f (s ++ [x]) = match drop_while f s with [] => drop_while f [x] | r => r ++ [x] end.
Proof. induction s as [|c s IH]; [done|]. cbn [app drop_while]. by destruct (f c). Qed.

Lemma trim_snoc s : trim (s ++ [32]) = trim s.
Proof.
  unfold trim. rewrite drop_while_snoc. destruct (drop_while blank s) as [|c r]; [done|].
  by rewrite (reverse_app (c :: r) [32]).
Qed.

Lemma parse_render_entry kv d : entry_ok kv -> parse_line (render_entry kv) d = <[kv.1 := kv.2]> d.
Proof.
  destruct kv as [k v]. intros ([Hk _] & He & [Hv _]). cbn [fst snd] in *. unfold parse_line, render_entry. cbn [fst snd].
  change (cstr " = ") with ([32] ++ [61] ++ [32]). rewrite !app_assoc -(app_assoc _ [61]) -(app_assoc _ _ v).
  cbn [app]. rewrite search_char.
  { rewrite not_elem_of_app. split; [done|]. by apply not_elem_of_cons; split; [|apply not_elem_of_nil]. }
  rewrite take_app_length trim_snoc Hk. f_equal.
  replace ((k ++ [32]) ++ 61 :: 32 :: v) with (((k ++ [32]) ++ [61]) ++ 32 :: v) by (by rewrite -app_assoc).
  rewrite drop_app_length'; [rewrite (length_app (k ++ [32])) /=; lia|]. exact Hv.
Qed.

Lemma render_entry_line kv : entry_ok kv -> 10 ∉ render_entry kv.
Proof.
  intros ([_ Hk] & _ & [_ Hv]). unfold render_entry. rewrite !not_elem_of_app. split_and!; [done| |done].
  apply (proj1 (bool_decide_eq_false (10 ∈ _))). by vm_compute.
Qed.

Lemma parse_render kvs : forall d, Forall entry_ok kvs ->
  parse_content (render kvs) d = foldl (fun d kv => <[kv.1 := kv.2]> d) d kvs.
Proof.
  unfold parse_content, render. induction kvs as [|kv kvs IH]; intros d Hk; [done|].
  apply Forall_cons in Hk as [Hkv Hk]. cbn [fmap list_fmap concat]. rewrite -app_assoc. cbn [app].
  rewrite lines_app; [by apply render_entry_line|]. cbn [foldl]. rewrite parse_render_entry //. by apply IH.
Qed.

(** The last assignment of a key, on top of what was there. *)
Definition assigned (kvs : list (cstring * cstring)) (old : gmap cstring cstring) (key : cstring) : option cstring :=
  match last (snd <$> filter (fun kv => kv.1 = key) kvs) with Some v => Some v | None => old !! key end.

Lemma assigned_insert kvs : forall old key,
  foldl (fun d kv => <[kv.1 := kv.2]> d) old kvs !! key = assigned kvs old key.
Proof.
  induction kvs as [|kv kvs IH] using rev_ind; intros old key; [done|].
  rewrite foldl_app. cbn [foldl]. unfold assigned. rewrite filter_app fmap_app. destruct (decide (kv.1 = key)) as [<-|Hne].
  - rewrite lookup_insert_eq filter_cons_True // filter_nil. cbn [fmap list_fmap]. by rewrite last_snoc.
  - rewrite lookup_insert_ne // filter_cons_False // filter_nil. cbn [fmap list_fmap]. rewrite app_nil_r. apply IH.
Qed.
End files.

(** A configuration file written as [key = value] lines is read back.  For
    keys and values without surrounding blanks and line breaks (keys without an
    equals sign), loading succeeds exactly when the three required keys end up
    with a value, and in either case every key then has the value of the
    environment variable that overrides it, else its last value in the file,
    else the value it had before the load: a reload never removes a key. *)
Theorem config_file_roundtrip {W} (m : SecureConfigManager.t W) files getenv path env kvs :
  Forall entry_ok kvs -> files path = Some (render kvs) ->
  let '(r, m') := SecureConfigManager.load_config files getenv path env m in
  (forall key, SecureConfigManager.config_data_ m' !! key =
     (fun value => default value (getenv (SecureConfigManager.env_key key env)))
       <$> assigned kvs (SecureConfigManager.config_data_ m) key) /\
  (r = Value tt <-> Forall (fun key => is_Some (assigned kvs (SecureConfigManager.config_data_ m) key))
                      SecureConfigManager.required_keys) /\
  (r <> Value tt -> r = err CONFIG_VALIDATION_FAILED).
Proof.
  intros Hk Hf. unfold SecureConfigManager.load_config, SecureConfigManager.load_encrypted_file. rewrite Hf.
  set (m1 := SecureConfigManager.load_environment_overrides getenv _).
  assert (forall key, SecureConfigManager.config_data_ m1 !! key =
     (fun value => default value (getenv (SecureConfigManager.env_key key env)))
       <$> assigned kvs (SecureConfigManager.config_data_ m) key) as Hd.
  { intros key. unfold m1. cbn. rewrite map_lookup_imap parse_render // assigned_insert.
    by destruct (assigned kvs (SecureConfigManager.config_data_ m) key). }
  split; [done|]. unfold SecureConfigManager.validate_configuration.
  destruct (forallb _ _) eqn:E.
  - split; [|done]. split; [|done]. intros _. apply Forall_forall. intros key Hin.
    rewrite forallb_forall in E. apply list_elem_of_In in Hin. specialize (E key Hin).
    apply bool_decide_eq_true in E. rewrite Hd in E. by apply fmap_is_Some in E.
  - split; [|done]. split; [done|]. intros Hall. exfalso. apply not_true_iff_false in E. apply E.
    apply forallb_forall. intros key Hin%list_elem_of_In. apply bool_decide_eq_true. rewrite Hd. apply fmap_is_Some.
    rewrite Forall_forall in Hall. by apply Hall.
Qed.

Lemma config_file_roundtrip_witness :
  let kvs := [(cstr "exchange.name", cstr "RTES"); (cstr "exchange.tcp_port", cstr "8888")] in
  let '(r, m') := SecureConfigManager.load_config (fun _ => Some (render kvs)) (fun _ => None) (cstr "a.conf") STAGING
                    (@SecureConfigManager.init nat) in
  r = err CONFIG_VALIDATION_FAILED.
Proof.
  intros kvs.
  assert (Forall entry_ok kvs) as Hk.
  { apply Forall_cons_2; [|apply Forall_cons_2; [|apply Forall_nil_2]];
      (split; [split; [reflexivity|]|split; [|split; [reflexivity|]]]);
      apply (proj1 (bool_decide_eq_false (_ ∈ _))); reflexivity. }
  pose proof (config_file_roundtrip (@SecureConfigManager.init nat) (fun _ => Some (render kvs)) (fun _ => None)
    (cstr "a.conf") STAGING kvs Hk eq_refl) as H.
  destruct (SecureConfigManager.load_config _ _ _ _ _) as [r m']. destruct H as (_ & Hr & He).
  apply He. intros Hv. apply Hr in Hv. rewrite Forall_forall in Hv.
  assert (cstr "exchange.udp_port" ∈ SecureConfigManager.required_keys) as Hin
    by (apply list_elem_of_In; right; right; left; reflexivity).
  apply Hv in Hin as [x Hx]. vm_compute in Hx. discriminate.
Defined.

(** ** Feature flags *)

Lemma double_lt_number x y : double_lt x y = true -> is_number x = true /\ is_number y = true.
Proof. intros H%double_lt_le. by apply double_le_number. Qed.

Lemma double_lt_le_trans x y z : double_lt x y = true -> double_le y z = true -> double_lt x z = true.
Proof.
  intros Hxy Hyz. destruct (double_lt_number _ _ Hxy) as [Hx Hy], (double_le_number _ _ Hyz) as [_ Hz].
  rewrite double_lt_rank // in Hxy. rewrite double_le_rank // in Hyz. rewrite double_lt_rank //.
  unfold rank_lt in *. lia.
Qed.

(** Clamping keeps the order. *)
Lemma clamp_mono p q lo hi :
  double_le p q = true -> double_le lo hi = true ->
  double_le (FeatureFlags.clamp p lo hi) (FeatureFlags.clamp q lo hi) = true.
Proof.
  intros Hpq Hlh. destruct (double_le_number _ _ Hpq) as [Hp Hq], (double_le_number _ _ Hlh) as [Hlo Hhi].
  unfold FeatureFlags.clamp.
  destruct (double_lt p lo) eqn:E1, (double_lt q lo) eqn:E2, (double_lt hi p) eqn:E3, (double_lt hi q) eqn:E4;
    rewrite ?double_lt_rank // in E1, E2, E3, E4;
    repeat match goal with
    | H : double_lt _ _ = true |- _ => apply double_lt_rank in H; [|done..]
    | H : double_lt _ _ = false |- _ => apply not_true_iff_false in H; rewrite double_lt_rank // in H
    | H : double_le _ _ = true |- _ => apply double_le_rank in H; [|done..]
    end; apply double_le_rank; try done; unfold rank_lt in *; lia.
Qed.

(** Raising a rollout percentage never takes a feature away from a user.  A
    disabled or unknown flag is off for everybody; an enabled flag without a
    percentage is on for everybody; and who has it at one percentage has it at
    every higher one, percentages outside 0 to 100 included. *)
Theorem rollout_monotone hash flag user f p q :
  double_le p q = true ->
  let at_percentage x := FeatureFlags.is_enabled_for_user hash flag user (FeatureFlags.set_rollout_percentage flag x f) in
  (FeatureFlags.is_enabled flag f = false -> at_percentage p = false /\ FeatureFlags.is_enabled_for_user hash flag user f = false) /\
  (at_percentage p = true -> at_percentage q = true) /\
  (FeatureFlags.is_enabled flag f = true -> FeatureFlags.rollout_percentages_ f !! flag = None ->
     FeatureFlags.is_enabled_for_user hash flag user f = true).
Proof.
  intros Hpq at_percentage. unfold at_percentage, FeatureFlags.is_enabled_for_user, FeatureFlags.is_enabled.
  cbn [FeatureFlags.set_rollout_percentage FeatureFlags.flags_ FeatureFlags.rollout_percentages_].
  rewrite !lookup_insert_eq. destruct (FeatureFlags.flags_ f !! flag) as [[|]|]; cbn [default from_option]; [|done..].
  split; [done|]. split; [|by intros _ ->]. intros Hp. eapply double_lt_le_trans; [exact Hp|].
  by apply clamp_mono.
Qed.

Lemma rollout_monotone_witness :
  let f := FeatureFlags.set_flag (cstr "x") true FeatureFlags.init in
  FeatureFlags.is_enabled_for_user (fun _ => 1234) (cstr "x") (cstr "u")
    (FeatureFlags.set_rollout_percentage (cstr "x") (double_of_Z 20) f) = true.
Proof.
  intros f.
  exact (proj1 (proj2 (rollout_monotone (fun _ => 1234) (cstr "x") (cstr "u") f (double_of_Z 13) (double_of_Z 20) eq_refl)) eq_refl).
Defined.

(** ** Health checks *)

Section health.
Context {W : Type}.
Import HealthCheckManager.
Implicit Types (m : t W) (w : W).

Definition fails_critically (c : HealthCheck W) (w : W) : bool := critical c && bool_decide (run_check c w = UNHEALTHY).
Definition is_degraded (c : HealthCheck W) (w : W) : bool := bool_decide (run_check c w = DEGRADED).

Lemma overall_loop_spec m w : forall a b,
  overall_loop m w a b = (a || existsb (fun c => fails_critically c w) m, b || existsb (fun c => is_degraded c w) m).
Proof.
  induction m as [|c m IH]; intros a b; cbn [overall_loop existsb]; [by rewrite !orb_false_r|].
  unfold fails_critically at 1, is_degraded at 1. rewrite !orb_assoc -IH.
  repeat case_bool_decide; try congruence; destruct (critical c); cbn [andb orb];
    by rewrite ?orb_true_r ?orb_false_r ?IH.
Qed.

Lemma is_live_spec m w : is_live m w = negb (existsb (fun c => fails_critically c w) m).
Proof. induction m as [|c m IH]; [done|]. cbn [is_live forallb existsb]. rewrite negb_orb. f_equal. exact IH. Qed.
End health.

(** Readiness and liveness are the same question.  The overall status is
    [UNHEALTHY] exactly when some critical check fails or throws, otherwise
    [DEGRADED] exactly when some check is degraded, otherwise [HEALTHY]: a failing
    check that is not critical leaves no trace in it.  Hence the program is
    ready exactly when it is live. *)
Theorem ready_iff_live {W} (m : HealthCheckManager.t W) w :
  HealthCheckManager.get_overall_status m w =
    (if existsb (fun c => fails_critically c w) m then HealthCheckManager.UNHEALTHY
     else if existsb (fun c => is_degraded c w) m then HealthCheckManager.DEGRADED
     else HealthCheckManager.HEALTHY) /\
  HealthCheckManager.is_ready m w = HealthCheckManager.is_live m w.
Proof.
  assert (HealthCheckManager.get_overall_status m w =
    (if existsb (fun c => fails_critically c w) m then HealthCheckManager.UNHEALTHY
     else if existsb (fun c => is_degraded c w) m then HealthCheckManager.DEGRADED
     else HealthCheckManager.HEALTHY)) as Hs.
  { unfold HealthCheckManager.get_overall_status. by rewrite overall_loop_spec. }
  split; [done|]. unfold HealthCheckManager.is_ready. rewrite Hs is_live_spec.
  destruct (existsb (fun c => fails_critically c w) m); [done|]. by destruct (existsb _ _).
Qed.

(** ** Emergency shutdown *)

Section emergency.
Context {W : Type}.
Import EmergencyShutdown.
Implicit Types (e : t W) (ops : list (op W)).

(** Whether some thread calls for the shutdown, and the handlers that are registered
    by the time the first does. *)
Definition initiated ops : bool := existsb (fun o => match o with Initiate _ => true | _ => false end) ops.
Fixpoint summoned (hs : list (W -> (string + unit) * W)) ops : list (W -> (string + unit) * W) :=
  match ops with
  | [] => []
  | Initiate _ :: _ => hs
  | RegisterHandler _ f :: ops => summoned (hs ++ [f]) ops
  | _ :: ops => summoned hs ops
  end.

(** Between two calls the mutex is free, and a joinable monitor means monitoring. *)
Definition quiet e : Prop := shutdown_mutex_ e = None /\ (monitoring_active_ e = false -> monitor_thread_ e = None).

Lemma init_quiet : quiet init.
Proof. by split. Qed.

(** A call from such a state. *)
Lemma step_quiet o e (w : W) :
  quiet e ->
  match step o e w with
  | Returns e' w' => quiet e' /\ emergency_active_ e' = emergency_active_ e || initiated [o] /\
      handlers_ e' = (match o with RegisterHandler _ f => handlers_ e ++ [f] | _ => handlers_ e end) /\
      w' = (if initiated [o] && negb (emergency_active_ e) then run_handlers (handlers_ e) w else w)
  | Relocks => o = MonitorTurn /\ emergency_active_ e = false /\ monitor_thread_ e = Some Looping /\ is_Some (fired (triggers_ e) w)
  | _ => False
  end.
Proof.
  intros [Hm Hj].
  destruct o as [caller|caller f|caller name f| | |]; cbn [step initiated existsb orb andb].
  - unfold initiate_emergency_shutdown. destruct (emergency_active_ e) eqn:E; [by rewrite E|].
    unfold lock. cbn. by rewrite Hm.
  - unfold register_shutdown_handler, lock. rewrite Hm. cbn. by rewrite orb_false_r.
  - unfold register_trigger, lock. rewrite Hm. cbn. by rewrite orb_false_r.
  - unfold start_monitoring. destruct (monitoring_active_ e) eqn:Ea; [rewrite orb_false_r; split_and!; try done; by split; [|rewrite Ea]|].
    rewrite (Hj eq_refl). cbn. by rewrite orb_false_r.
  - cbn. by rewrite orb_false_r.
  - unfold monitor_turn. destruct (monitor_thread_ e) as [[]|] eqn:Et; [|by rewrite orb_false_r; split_and!; [split; [|rewrite Et]|..]..].
    destruct (monitoring_active_ e) eqn:Ea; [|by specialize (Hj eq_refl)]. cbn [negb]. unfold lock at 1. rewrite Hm.
    cbn [triggers_ set_mutex]. destruct (fired (triggers_ e) w) as [name|] eqn:Ef.
    + unfold initiate_emergency_shutdown. cbn [emergency_active_ set_mutex]. destruct (emergency_active_ e) eqn:E.
      * cbn. rewrite Ea. by split_and!.
      * unfold lock. cbn. split_and!; try done.
    + cbn. rewrite orb_false_r. split_and!; try done. split; [done|]. cbn. congruence.
Qed.

Lemma initiated_cons o ops : initiated (o :: ops) = initiated [o] || initiated ops.
Proof. cbn. by rewrite orb_false_r. Qed.

(** Once an emergency is active, no handler runs any more. *)
Lemma run_active ops : forall e (w : W),
  quiet e -> emergency_active_ e = true ->
  exists e', run ops e w = Returns e' w /\ quiet e' /\ emergency_active_ e' = true.
Proof.
  induction ops as [|o ops IH]; intros e w Hq Ha; cbn [run]; [by exists e|].
  pose proof (step_quiet o e w Hq) as Hs. rewrite Ha in Hs. destruct (step o e w) as [e1 w1| | |]; [|done|by destruct Hs as (_ & ? & _)|done].
  destruct Hs as (Hq1 & Ha1 & _ & ->). cbn [negb] in *. rewrite andb_false_r. by apply IH.
Qed.

(** What a run comes to from a state in which there is no emergency. *)
Lemma run_quiet ops : forall e (w : W),
  quiet e -> emergency_active_ e = false ->
  match run ops e w with
  | Returns e' w' => quiet e' /\ emergency_active_ e' = initiated ops /\ w' = run_handlers (summoned (handlers_ e) ops) w
  | Relocks => exists before after e', ops = before ++ MonitorTurn :: after /\ initiated before = false /\
      run before e w = Returns e' w /\ monitor_thread_ e' = Some Looping /\ is_Some (fired (triggers_ e') w)
  | _ => False
  end.
Proof.
  induction ops as [|o ops IH]; intros e w Hq Ha; cbn [run]; [by split_and!|].
  pose proof (step_quiet o e w Hq) as Hs. rewrite initiated_cons.
  destruct (step o e w) as [e1 w1| | |] eqn:Es; [|done| |done].
  2: { destruct Hs as (-> & _ & Ht & Hf). exists [], ops, e. by split_and!. }
  rewrite Ha in Hs. cbn [orb negb] in Hs. rewrite andb_true_r in Hs. destruct Hs as (Hq1 & Ha1 & Hh & ->).
  destruct (initiated [o]) eqn:Ei; cbn [orb].
  { destruct o; try done. destruct (run_active ops e1 (run_handlers (handlers_ e) w) Hq1 Ha1) as (e' & -> & Hq' & Ha').
    by split_and!. }
  specialize (IH e1 w Hq1 Ha1). destruct (run ops e1 w) as [e' w'| | |]; [|done| |done].
  - destruct IH as (Hq' & Ha' & ->). split_and!; [done|done|]. rewrite Hh. by destruct o.
  - destruct IH as (before & after & e' & -> & Hb & Hr & Ht & Hf). exists (o :: before), after, e'.
    split_and!; [done|by rewrite initiated_cons Ei|cbn [run]; by rewrite Es|done|done].
Qed.
End emergency.

(** C36: The handlers of an emergency run once, or not at all.  Whatever calls the
    threads of the program make, in any order of whole calls: no call waits for
    ever and no thread is overwritten; as long as the run is defined, the handlers
    registered before the first call of [initiate_emergency_shutdown] have run
    exactly once each, in the order of their registration and whatever they throw,
    later calls and later handlers changing nothing.  The run becomes undefined in
    exactly one way: the monitor finds a trigger that fires before anybody called
    for the shutdown, and initiates it with the mutex in its hands, so that the
    emergency the monitor is there for ends in a second lock of the same
    [std::mutex] before a single handler has run. *)
Theorem emergency_handlers_once {W} (ops : list (EmergencyShutdown.op W)) (w : W) :
  match EmergencyShutdown.run ops EmergencyShutdown.init w with
  | EmergencyShutdown.Returns e w' =>
      EmergencyShutdown.is_emergency_shutdown_active e = initiated ops /\
      w' = EmergencyShutdown.run_handlers (summoned [] ops) w /\ EmergencyShutdown.shutdown_mutex_ e = None
  | EmergencyShutdown.Relocks => exists before after e,
      ops = before ++ EmergencyShutdown.MonitorTurn :: after /\ initiated before = false /\
      EmergencyShutdown.run before EmergencyShutdown.init w = EmergencyShutdown.Returns e w /\
      EmergencyShutdown.monitor_thread_ e = Some EmergencyShutdown.Looping /\
      is_Some (EmergencyShutdown.fired (EmergencyShutdown.triggers_ e) w)
  | EmergencyShutdown.Waits | EmergencyShutdown.Terminates => False
  end /\
  (forall e, EmergencyShutdown.run ops EmergencyShutdown.init w = EmergencyShutdown.Returns e w ->
     initiated ops = false -> EmergencyShutdown.monitor_thread_ e = Some EmergencyShutdown.Looping ->
     is_Some (EmergencyShutdown.fired (EmergencyShutdown.triggers_ e) w) ->
     EmergencyShutdown.step EmergencyShutdown.MonitorTurn e w = EmergencyShutdown.Relocks).
Proof.
  pose proof (run_quiet ops EmergencyShutdown.init w init_quiet eq_refl) as H. split.
  - destruct (EmergencyShutdown.run ops EmergencyShutdown.init w); [|done..]. destruct H as ([Hm _] & Ha & Hw). by split_and!.
  - intros e He Hi Ht [name Hf]. rewrite He in H. destruct H as ([Hm Hj] & Ha & _). rewrite Hi in Ha.
    cbn [EmergencyShutdown.step]. unfold EmergencyShutdown.monitor_turn. rewrite Ht.
    destruct (EmergencyShutdown.monitoring_active_ e) eqn:E; [|by rewrite (Hj eq_refl) in Ht]. cbn [negb].
    unfold EmergencyShutdown.lock at 1. rewrite Hm. cbn [EmergencyShutdown.triggers_ EmergencyShutdown.set_mutex]. rewrite Hf.
    unfold EmergencyShutdown.initiate_emergency_shutdown. cbn [EmergencyShutdown.emergency_active_ EmergencyShutdown.set_mutex].
    by rewrite Ha.
Qed.

(** Two handlers, the first of which throws; a third one comes too late. *)
Definition ex_emergency (fires : bool) : list (EmergencyShutdown.op nat) :=
  [EmergencyShutdown.RegisterHandler 1 (fun w => (inl "failed"%string, w + 1)%nat);
   EmergencyShutdown.RegisterHandler 2 (fun w => (inr tt, w * 10)%nat);
   EmergencyShutdown.RegisterTrigger 1 (cstr "t") (fun w => inr fires);
   EmergencyShutdown.StartMonitoring; EmergencyShutdown.MonitorTurn; EmergencyShutdown.Initiate 3;
   EmergencyShutdown.RegisterHandler 1 (fun w => (inr tt, 0%nat)); EmergencyShutdown.Initiate 4].

Lemma emergency_handlers_once_witness :
  match EmergencyShutdown.run (ex_emergency false) EmergencyShutdown.init 4%nat with
  | EmergencyShutdown.Returns e w => w = 50%nat
  | _ => False
  end.
Proof.
  pose proof (emergency_handlers_once (ex_emergency false) 4%nat) as [H _].
  assert (exists e w, EmergencyShutdown.run (ex_emergency false) EmergencyShutdown.init 4%nat = EmergencyShutdown.Returns e w) as (e & w & E)
    by (eexists _, _; vm_compute; reflexivity).
  rewrite E in H |- *. destruct H as (_ & H & _). exact H.
Defined.

(** With a trigger that fires the same program is undefined at the monitor's turn. *)
Example trigger_relocks :
  EmergencyShutdown.run (ex_emergency true) EmergencyShutdown.init 4%nat = EmergencyShutdown.Relocks.
Proof. reflexivity. Qed.

(** Without leading zeros the text of a hash is ambiguous: two different hashes
    with the same text. *)
Example signature_texts_collide :
  concat (ConfigEncryption.hex_int <$> [1; 35]) = concat (ConfigEncryption.hex_int <$> [18; 3]).
Proof. reflexivity. Qed.
