(* ===== verification/NumericRules.v ===== *)
(** * Rules on numbers written as text (input_validation.cpp, secure_config.cpp)

    [std::stod] on any text, as [strtod] reads it in the C locale, and the code
    that uses it: the two validators of [FieldValidators] and
    [SecureConfigManager::get_value<double>].  A number too large or too small
    for a double throws. *)

From Stdlib Require Import SpecFloat.
From S2P Require Import Prelude Types ErrorHandling Double MemorySafety Strings Formatting InputValidation ConfigLoader SecureConfig.

(** ** strtod *)

Definition lower (c : Z) : Z := if isupper c then c + 32 else c.
(** [s] starts with [word], whatever the case of its letters. *)
Definition starts_word (word s : cstring) : bool := bool_decide (lower <$> take (length word) s = word).

Definition hex_digit (c : Z) : option Z :=
  if isdigit c then Some (c - 48)
  else let c := lower c in if (97 <=? c) && (c <=? 102) then Some (c - 87) else None.

(** Hexadecimal digits: their value after [m], their number, what follows. *)
Fixpoint read_hex (s : cstring) (m : Z) (n : nat) : Z * nat * cstring :=
  match s with
  | c :: rest => match hex_digit c with Some v => read_hex rest (16 * m + v) (S n) | None => (m, n, s) end
  | [] => (m, n, [])
  end.

(** The exponent behind [mark]; without digits there is none. *)
Definition read_exponent (mark : Z) (s : cstring) : Z :=
  match s with
  | c :: rest =>
      if lower c =? mark then
        let '(negative, digits) := match rest with 45 :: r => (true, r) | 43 :: r => (false, r) | _ => (false, rest) end in
        let v := parse_digits (take_while isdigit digits) in
        if (negative : bool) then - v else v
      else 0
  | [] => 0
  end.

Inductive conversion := NoNumber | OutOfRange | Number (d : double).

Definition signed_number (negative : bool) (d : double) : double := if negative then SFopp d else d.

(** [m * 10^e], [n] digits in [m].  Above 10^400 it overflows, below 10^-400 it is
    lost. *)
Definition decimal_number (m : Z) (n : nat) (e : Z) : conversion :=
  if m =? 0 then Number (double_of_Z 0)
  else if 400 <? e then OutOfRange
  else if Z.of_nat n + e <? -400 then OutOfRange
  else
    let '(m, k) := if 0 <=? e then (m * 10 ^ e, 0%nat) else (m, Z.to_nat (- e)) in
    let d := nearest_decimal m k in
    if out_of_range m k d then OutOfRange else Number d.

(** [m * 2^e]; bits below the least double are a loss. *)
Definition binary_number (m e : Z) : conversion :=
  if m =? 0 then Number (double_of_Z 0)
  else if 2000 <? e then OutOfRange
  else if Z.log2 m + e <? -2000 then OutOfRange
  else
    match binary_normalize 53 1024 m e false with
    | S754_infinity _ => OutOfRange
    | d => if (m * 2 ^ Z.max (1022 + e) 0 <? 2 ^ Z.max (- (1022 + e)) 0)
              && negb ((m * 2 ^ Z.max (1074 + e) 0) mod 2 ^ Z.max (- (1074 + e)) 0 =? 0)
           then OutOfRange else Number d
    end.

Definition strtod_unsigned (s : cstring) : conversion :=
  if starts_word (cstr "inf") s then Number (S754_infinity false)
  else if starts_word (cstr "nan") s then Number S754_nan
  else
    let hex := if starts_word (cstr "0x") s then
                 let '(m, n, rest) := read_hex (drop 2 s) 0 0 in
                 let '(m, k, rest) := match rest with 46 :: frac => read_hex frac m 0 | _ => (m, 0%nat, rest) end in
                 if (n + k =? 0)%nat then None
                 else Some (binary_number m (read_exponent 112 rest - 4 * Z.of_nat k))
               else None in
    match hex with
    | Some x => x
    | None =>
        let '(m, n, rest) := read_digits s 0 0 in
        let '(m, k, rest) := match rest with 46 :: frac => read_digits frac m 0 | _ => (m, 0%nat, rest) end in
        if (n + k =? 0)%nat then NoNumber
        else decimal_number m (n + k) (read_exponent 101 rest - Z.of_nat k)
    end.

Definition strtod (s : cstring) : conversion :=
  let s := drop_while isspace s in
  let '(negative, s) := match s with 45 :: r => (true, r) | 43 :: r => (false, r) | _ => (false, s) end in
  match strtod_unsigned s with Number d => Number (signed_number negative d) | x => x end.

(** [std::stod] *)
Definition std_stod (s : cstring) : outcome double :=
  match strtod s with
  | NoNumber => Throws "stod: no conversion"
  | OutOfRange => Throws "stod: out of range"
  | Number d => Done d
  end.

(** ** Where it is used *)

Definition range_validator (min max : double) : ValidationChain.ValidationRule :=
  ValidationChain.mkRule (fun value => match std_stod value with Done val => double_le min val && double_le val max | _ => false end)
    (cstr "Value must be between " ++ to_string_double min ++ cstr " and " ++ to_string_double max).

Definition positive_validator : ValidationChain.ValidationRule :=
  ValidationChain.mkRule (fun value => match std_stod value with Done val => double_lt (double_of_Z 0) val | _ => false end)
    (cstr "Value must be positive").

(** [get_value<double>] *)
Definition get_double {W} (key : cstring) (m : SecureConfigManager.t W) : Result double :=
  match SecureConfigManager.config_data_ m !! key with
  | None => err CONFIG_KEY_NOT_FOUND
  | Some v => match std_stod v with Done d => Value d | _ => err CONFIG_PARSE_ERROR end
  end.

Example stod_texts :
  std_stod (cstr "  -1.5e2x") = Done (double_of_Z (-150)) /\ std_stod (cstr "1e400") = Throws "stod: out of range" /\
  std_stod (cstr "1e-400") = Throws "stod: out of range" /\ std_stod (cstr "0e999999999") = Done (double_of_Z 0) /\
  std_stod (cstr "abc") = Throws "stod: no conversion" /\ std_stod (cstr "0x1.8p1") = Done (double_of_Z 3) /\
  std_stod (cstr "0x") = Done (double_of_Z 0) /\ std_stod (cstr "-Infinity") = Done (S754_infinity true) /\
  std_stod (cstr "1e") = Done (double_of_Z 1) /\ std_stod (cstr "0.1") = Done (double_div (double_of_Z 1) (double_of_Z 10)) /\
  std_stod (cstr "1e308") <> Throws "stod: out of range" /\ std_stod (cstr "1.8e308") = Throws "stod: out of range".
Proof. vm_compute. split_and!; done. Qed.

(** ** What the rules decide *)

(** Whole numbers keep their order as doubles. *)
Lemma double_of_Z_order a b :
  0 <= a < 2 ^ 53 -> 0 <= b < 2 ^ 53 -> SFcompare (double_of_Z a) (double_of_Z b) = Some (a ?= b).
Proof.
  intros Ha Hb. destruct a as [|p|p]; [| |lia].
  - destruct b as [|q|q]; [done| |lia]. destruct (double_of_pos q ltac:(lia)) as (m & _ & _ & ->). done.
  - destruct b as [|q|q]; [| |lia].
    { by destruct (double_of_pos p ltac:(lia)) as (m & _ & _ & ->). }
    assert (forall x, Zpos x < 2 ^ 53 -> 0 <= Z.log2 (Zpos x) <= 52) as Hlog.
    { intros x Hx. pose proof (Z.log2_nonneg (Zpos x)). assert (Z.log2 (Zpos x) < 53) by (apply Z.log2_lt_pow2; lia). lia. }
    pose proof (Hlog p ltac:(lia)) as Hp. pose proof (Hlog q ltac:(lia)) as Hq.
    destruct (double_of_pos p ltac:(lia)) as (m & Em & _ & ->), (double_of_pos q ltac:(lia)) as (n & En & _ & ->).
    cbn [SFcompare].
    destruct (Z.compare_spec (Z.log2 (Zpos p) - 52) (Z.log2 (Zpos q) - 52)) as [E|E|E]; f_equal.
    + assert (Z.log2 (Zpos p) = Z.log2 (Zpos q)) as El by lia. rewrite El in Em.
      change (Pos.compare_cont Eq m n) with (m ?= n)%positive. change (m ?= n)%positive with (Zpos m ?= Zpos n).
      rewrite Em En. assert (0 < 2 ^ (52 - Z.log2 (Zpos q))) by (apply Z.pow_pos_nonneg; lia).
      destruct (Z.compare_spec (Zpos p) (Zpos q)); [apply Z.compare_eq_iff|apply Z.compare_lt_iff|apply Z.compare_gt_iff]; nia.
    + symmetry. apply Z.compare_lt_iff. apply Z.log2_lt_cancel. lia.
    + symmetry. apply Z.compare_gt_iff. apply Z.log2_lt_cancel. lia.
Qed.

Lemma double_le_of_Z a b : 0 <= a < 2 ^ 53 -> 0 <= b < 2 ^ 53 -> double_le (double_of_Z a) (double_of_Z b) = (a <=? b).
Proof. intros Ha Hb. unfold double_le, SFleb. by rewrite double_of_Z_order. Qed.

Lemma double_lt_of_Z a b : 0 <= a < 2 ^ 53 -> 0 <= b < 2 ^ 53 -> double_lt (double_of_Z a) (double_of_Z b) = (a <? b).
Proof. intros Ha Hb. unfold double_lt, SFltb. by rewrite double_of_Z_order. Qed.

(** Text of digits and dots, which the configuration reader cuts out, is read as
    by the reader's own conversion. *)
Definition plain (c : Z) : Prop := isdigit c = true \/ c = 46.

Lemma plain_not_letter c : plain c -> isspace c = false /\ c <> 45 /\ c <> 43 /\ lower c = c /\ c < 58.
Proof.
  intros [H| ->]; [|done]. unfold isdigit in H. apply andb_true_iff in H as [H1 H2]. apply Z.leb_le in H1, H2.
  unfold isspace, lower, isupper. split_and!; zbool; lia || done.
Qed.

Lemma starts_word_plain (a : Z) w s : 58 <= a -> Forall plain s -> starts_word (a :: w) s = false.
Proof.
  intros Ha Hs. unfold starts_word. apply bool_decide_eq_false_2. destruct s as [|c s]; [done|].
  apply Forall_cons in Hs as [Hc _]. destruct (plain_not_letter c Hc) as (_ & _ & _ & Hl & Hlt).
  cbn [length firstn fmap list_fmap]. rewrite Hl. intros E. injection E as -> _. lia.
Qed.

Lemma starts_0x_plain s : Forall plain s -> starts_word (cstr "0x") s = false.
Proof.
  intros Hs. unfold starts_word. apply bool_decide_eq_false_2. destruct s as [|c [|d s]]; [done|done|].
  apply Forall_cons in Hs as [Hc Hs]. apply Forall_cons in Hs as [Hd _].
  destruct (plain_not_letter d Hd) as (_ & _ & _ & Hl & Hlt). cbn. intros E. injection E as _ Ed.
  rewrite Hl in Ed. lia.
Qed.

Lemma read_digits_rest s : forall m n, Forall plain s -> Forall plain (read_digits s m n).2.
Proof.
  induction s as [|c s IH]; intros m n Hs; cbn [read_digits]; [constructor|].
  pose proof Hs as Hs'. apply Forall_cons in Hs as [Hc Hs]. by destruct (isdigit c); [apply IH|].
Qed.

Lemma read_digits_nonneg s : forall m n, 0 <= m -> 0 <= (read_digits s m n).1.1.
Proof.
  induction s as [|c s IH]; intros m n Hm; cbn [read_digits]; [done|].
  destruct (isdigit c) eqn:E; [|done]. apply IH. unfold isdigit in E. apply andb_true_iff in E as [E _]. apply Z.leb_le in E. lia.
Qed.

Lemma read_exponent_plain s : Forall plain s -> read_exponent 101 s = 0.
Proof.
  intros Hs. unfold read_exponent. destruct s as [|c s]; [done|]. apply Forall_cons in Hs as [Hc _].
  destruct (plain_not_letter c Hc) as (_ & _ & _ & -> & Hlt). destruct (Z.eqb_spec c 101); [lia|done].
Qed.

Lemma decimal_number_plain m n k :
  0 <= m -> decimal_number m (n + k) (0 - Z.of_nat k) =
    (let d := nearest_decimal m k in if out_of_range m k d then OutOfRange else Number d).
Proof.
  intros Hm. unfold decimal_number. destruct (Z.eqb_spec m 0) as [->|Hne].
  { destruct k as [|k]; [done|]. cbn [nearest_decimal]. rewrite Z.mul_0_l Z.div_0_l; [by apply Z.pow_nonzero; lia|].
    rewrite Z.mod_0_l; [by apply Z.pow_nonzero; lia|]. done. }
  destruct (Z.ltb_spec 400 (0 - Z.of_nat k)); [lia|].
  destruct (Z.ltb_spec (Z.of_nat (n + k) + (0 - Z.of_nat k)) (-400)); [lia|].
  destruct (Z.leb_spec 0 (0 - Z.of_nat k)).
  - assert (k = 0%nat) as -> by lia. by rewrite Z.mul_1_r.
  - by replace (Z.to_nat (- (0 - Z.of_nat k))) with k by lia.
Qed.

Lemma std_stod_plain (s : cstring) : Forall plain s -> std_stod s = match stod s with Throws _ => std_stod s | x => x end.
Proof.
  intros Hs. enough (match strtod s with Number d => stod s = Done d | _ => stod s = Throws "stod" end) as H.
  { unfold std_stod. destruct (strtod s); by rewrite H. }
  unfold strtod. assert (drop_while isspace s = s) as ->.
  { destruct s as [|c s]; [done|]. apply Forall_cons in Hs as [Hc _]. destruct (plain_not_letter c Hc) as (Hsp & _).
    cbn [drop_while]. by rewrite Hsp. }
  assert ((match s with 45 :: r => (true, r) | 43 :: r => (false, r) | _ => (false, s) end) = (false, s)) as ->.
  { destruct s as [|c s]; [done|]. apply Forall_cons in Hs as [Hc _]. destruct (plain_not_letter c Hc) as (_ & H1 & H2 & _).
    repeat (congruence || done || match goal with |- context [match ?x with _ => _ end] => destruct x end). }
  unfold strtod_unsigned. rewrite (starts_word_plain 105 _ s) // (starts_word_plain 110 _ s) // starts_0x_plain //. cbv zeta iota.
  unfold stod. pose proof (read_digits_rest s 0 0 Hs) as Hrest. pose proof (read_digits_nonneg s 0 0 ltac:(lia)) as Hm.
  destruct (read_digits s 0 0) as [[m n] rest]. cbn [fst snd] in Hrest, Hm.
  assert (forall m k rest, Forall plain rest -> 0 <= m ->
    match (match (if (n + k =? 0)%nat then NoNumber else decimal_number m (n + k) (read_exponent 101 rest - Z.of_nat k)) with
           | Number d => Number (signed_number false d) | x => x end)
    with Number d => (if (n + k =? 0)%nat then Throws "stod"
                      else let d := nearest_decimal m k in if out_of_range m k d then Throws "stod" else Done d) = Done d
       | _ => (if (n + k =? 0)%nat then Throws "stod"
               else let d := nearest_decimal m k in if out_of_range m k d then Throws "stod" else Done d) = Throws "stod" end) as Hmain.
  { intros m' k rest' Hr Hm'. rewrite (read_exponent_plain _ Hr). destruct (n + k =? 0)%nat; [done|].
    rewrite decimal_number_plain //. cbv zeta. by destruct (out_of_range m' k (nearest_decimal m' k)). }
  destruct rest as [|c frac]; [by apply Hmain|]. apply Forall_cons in Hrest as [Hc Hfrac].
  destruct (Z.eq_dec c 46) as [->|Hne].
  - pose proof (read_digits_rest frac m 0 Hfrac) as Hr2. pose proof (read_digits_nonneg frac m 0 Hm) as Hm2.
    destruct (read_digits frac m 0) as [[m2 k] rest2]. by apply Hmain.
  - assert (forall A (x y : A), match c with 46 => x | _ => y end = y) as Hcase.
    { intros A x y. repeat (congruence || done || match goal with |- context [match ?x with _ => _ end] => destruct x end). }
    pose proof (Hmain m 0%nat (c :: frac) ltac:(by constructor) Hm) as H.
    repeat match goal with |- context [match c with _ => _ end] =>
      first [rewrite (Hcase _ (read_digits frac m 0) (m, 0%nat, c :: frac)) | rewrite (Hcase _ (let '(m0, k, _) := read_digits frac m 0 in (m0, k)) (m, 0%nat))] end.
    exact H.
Qed.

Lemma print_u64_plain n : u64 n -> Forall plain (print_u64 n).
Proof.
  intros Hn. destruct (print_u64_spec n Hn) as (_ & Hd & _). eapply Forall_impl; [exact Hd|].
  intros c Hc. left. by apply isdigit_spec.
Qed.

Lemma std_stod_print n : 0 <= n < 2 ^ 53 -> std_stod (print_u64 n) = Done (double_of_Z n).
Proof.
  intros Hn. rewrite std_stod_plain; [apply print_u64_plain; change (2 ^ 53) with 9007199254740992 in Hn; u_lia|].
  by rewrite stod_print.
Qed.

(** On whole numbers below 2^53 the two rules decide what they say, and the value
    written into the configuration is the one read back. *)
Theorem numeric_rules {W} a b n key (m : SecureConfigManager.t W) :
  0 <= a < 2 ^ 53 -> 0 <= b < 2 ^ 53 -> 0 <= n < 2 ^ 53 ->
  ValidationChain.validator (range_validator (double_of_Z a) (double_of_Z b)) (print_u64 n) = (a <=? n) && (n <=? b) /\
  ValidationChain.validator positive_validator (print_u64 n) = (0 <? n) /\
  (SecureConfigManager.config_data_ m !! key = Some (print_u64 n) -> get_double key m = Value (double_of_Z n)).
Proof.
  intros Ha Hb Hn. unfold range_validator, positive_validator, get_double. cbn [ValidationChain.validator].
  rewrite std_stod_print // !double_le_of_Z // double_lt_of_Z //. split; [done|]. split; [done|].
  intros Hk. by rewrite Hk std_stod_print.
Qed.

(** Not a number is in no range; infinity is positive; what follows the number is
    not looked at. *)
Example odd_numbers :
  let in_percent := ValidationChain.validator (range_validator (double_of_Z 0) (double_of_Z 100)) in
  in_percent (cstr "nan") = false /\ in_percent (cstr "50 apples") = true /\ in_percent (cstr "1e2") = true /\
  in_percent (cstr "100.00000000000001") = false /\ in_percent (cstr "") = false /\
  ValidationChain.validator positive_validator (cstr "inf") = true /\
  ValidationChain.error_message (range_validator (double_of_Z 0) (double_of_Z 100)) =
    cstr "Value must be between 0.000000 and 100.000000".
Proof. by vm_compute. Qed.
