(* ===== verification/Readiness.v ===== *)
(** * Production readiness (production_readiness.hpp, production_readiness.cpp)

    The readiness checks, the chaos experiments, the load test, the blue-green
    deployment, the incidents and the backups.  What the operating system, the
    clocks and the threads of a load test report are arguments; the log lines
    are not recorded.  Locking a [shared_mutex] again in the thread that holds it
    is undefined ([None]). *)

From Stdlib Require Import SpecFloat.
From S2P Require Import Prelude Types ErrorHandling Double MemorySafety Strings Formatting Logger ConfigLoader Metrics Observability ObservabilityTheorems SecureConfig.

(** ** DisasterRecovery *)

Module DisasterRecovery.

Record BackupConfig := mkConfig {
  backup_location : cstring;
  retention_period : Z;   (* hours *)
  enable_encryption : bool;
  encryption_key_id : cstring
}.

(** [now]: seconds since the epoch. *)
Definition backup_system_state (now : Z) (config : BackupConfig) : cstring := cstr "backup-" ++ print_i64 now.
Definition verify_backup_completeness (backup_id : cstring) : bool := true.
Definition create_backup (now : Z) (config : BackupConfig) : Result unit :=
  let backup_id := backup_system_state now config in
  match backup_id with
  | [] => err BACKUP_FAILED
  | _ => if negb (verify_backup_completeness backup_id) then err BACKUP_VERIFICATION_FAILED else Value tt
  end.
Definition restore_from_backup (backup_id : cstring) : Result unit := Value tt.
Definition validate_backup_integrity (backup_id : cstring) : Result unit :=
  if negb (verify_backup_completeness backup_id) then err BACKUP_VERIFICATION_FAILED else Value tt.
Definition list_available_backups : list cstring := [cstr "backup-20240115-120000"; cstr "backup-20240115-060000"].
Definition test_config : BackupConfig := mkConfig (cstr "/tmp/test_backup") (24 * 30) false [].
Definition test_disaster_recovery_procedure (now : Z) : bool :=
  match create_backup now test_config with Error _ => false | Value _ => true end.

End DisasterRecovery.

(** ** ProductionReadinessValidator *)

Module ProductionReadinessValidator.

Inductive ReadinessStatus := PASS | WARN | FAIL.
#[export] Instance ReadinessStatus_eq_dec : EqDecision ReadinessStatus.
Proof. solve_decision. Defined.

Section validator.
Variable iterate : walk.
Context {W : Type}.

(** What the checks read: the counters, the configuration, the health checks and
    their world, the resident memory in kilobytes, the available blocks and the
    block size of the disk, and the time. *)
Record Env := mkEnv {
  perf : PerformanceCounters.t;
  config : SecureConfigManager.t W;
  health : HealthCheckManager.t W;
  world : W;
  ru_maxrss : Z;
  statvfs : option (Z * Z);
  now : Z
}.
Record ReadinessCheck := mkCheck {
  name : cstring;
  category : cstring;
  check_fn : Env -> outcome ReadinessStatus;
  description : cstring;
  critical : bool
}.
Record ReadinessResult := mkResult { status : ReadinessStatus; message : cstring; details : list cstring; duration : Z }.
Definition t : Type := list ReadinessCheck.
Implicit Types (v : t) (e : Env).

Definition register_check (check : ReadinessCheck) v : t := v ++ [check].

Definition run_health_checks e : ReadinessResult :=
  let '(status, details) :=
    if 1024 * 1024 <? ru_maxrss e
    then (WARN, [cstr "High memory usage: " ++ print_i64 (ru_maxrss e / 1024) ++ cstr " MB"]) else (PASS, []) in
  let '(status, details) :=
    match statvfs e with
    | None => (status, details)
    | Some (f_bavail, f_frsize) =>
        let free_space_gb := double_div (double_of_Z (wrap 64 (f_bavail * f_frsize))) (double_of_Z (1024 * 1024 * 1024)) in
        if double_lt free_space_gb (double_of_Z 1)
        then (FAIL, details ++ [cstr "Low disk space: " ++ to_string_double free_space_gb ++ cstr " GB"]) else (status, details)
    end in
  let '(status, details) :=
    match HealthCheckManager.get_overall_status (health e) (world e) with
    | HealthCheckManager.UNHEALTHY => (FAIL, details ++ [cstr "Health checks failing"])
    | _ => (status, details)
    end in
  mkResult status (cstr "Health checks completed") details 0.

Definition validate_security_configuration e : ReadinessResult :=
  let '(status, details) :=
    if negb (SecureConfigManager.is_production (config e)) then (WARN, [cstr "Not running in production mode"]) else (PASS, []) in
  let '(status, details) :=
    if negb (SecureConfigManager.has_key (cstr "security.encryption_key_id") (config e))
    then (FAIL, details ++ [cstr "Encryption key not configured"]) else (status, details) in
  let tls_result := SecureConfigManager.get_bool (cstr "security.enable_tls") (config e) in
  let '(status, details) :=
    if negb (SecureConfigManager.has_key (cstr "security.enable_tls") (config e)) ||
       match tls_result with Value b => negb b | Error _ => false end
    then (FAIL, details ++ [cstr "TLS not enabled"]) else (status, details) in
  mkResult status (cstr "Security configuration validated") details 0.

Definition verify_backup_and_recovery e : ReadinessResult :=
  let '(status, details) :=
    match DisasterRecovery.list_available_backups with [] => (WARN, [cstr "No backups available"]) | _ => (PASS, []) end in
  let '(status, details) :=
    if negb (DisasterRecovery.test_disaster_recovery_procedure (now e))
    then (FAIL, details ++ [cstr "Disaster recovery test failed"]) else (status, details) in
  mkResult status (cstr "Backup and recovery verified") details 0.

Definition performance_sla e : outcome ReadinessStatus :=
  Done (if double_lt (PerformanceCounters.get_avg_latency (cstr "order_processing") (perf e)) (double_of_Z 10) then PASS else FAIL).
Definition memory_usage e : outcome ReadinessStatus := Done (if ru_maxrss e <? 1024 * 1024 then PASS else WARN).

(** The default checks are set up when there is no check yet.  The text of the
    first one has a Greek mu in UTF-8. *)
Definition default_checks : t :=
  [mkCheck (cstr "performance_sla") (cstr "Performance") performance_sla
     (cstr "Order processing latency < 10" ++ [206; 188; 115]) true;
   mkCheck (cstr "memory_usage") (cstr "Resources") memory_usage (cstr "Memory usage within limits") false;
   mkCheck (cstr "security_config") (cstr "Security") (fun e => Done (status (validate_security_configuration e)))
     (cstr "Security configuration valid") true;
   mkCheck (cstr "backup_recovery") (cstr "Disaster Recovery") (fun e => Done (status (verify_backup_and_recovery e)))
     (cstr "Backup and recovery operational") true].
Definition setup_default_checks v : t := match v with [] => default_checks | _ => v end.

(** [took]: milliseconds the check ran. *)
Definition run_check (took : Z) (check : ReadinessCheck) e : option ReadinessResult :=
  match check_fn check e with
  | Done s => Some (mkResult s (description check) [] took)
  | Throws what => Some (mkResult FAIL (cstr "Check failed with exception: " ++ cstr what) [] took)
  | Undefined => None
  end.
Fixpoint run_checks (took : cstring -> Z) (cs : list ReadinessCheck) e (results : gmap cstring ReadinessResult)
    : option (gmap cstring ReadinessResult) :=
  match cs with
  | [] => Some results
  | check :: cs => r ← run_check (took (name check)) check e; run_checks took cs e (<[name check := r]> results)
  end.
Definition run_all_checks (took : cstring -> Z) v e : option (gmap cstring ReadinessResult * t) :=
  let v := setup_default_checks v in
  results ← run_checks took v e ∅; Some (results, v).

Definition failed (r : cstring * ReadinessResult) : bool := bool_decide (status r.2 = FAIL).
Definition is_production_ready (took : cstring -> Z) v e : option (bool * t) :=
  '(results, v) ← run_all_checks took v e; Some (negb (existsb failed (iterate _ results)), v).

Definition status_text (s : ReadinessStatus) : cstring :=
  match s with PASS => cstr "PASS" | WARN => cstr "WARN" | FAIL => cstr "FAIL" end.
Definition result_text (r : cstring * ReadinessResult) : cstring :=
  [91] ++ status_text (status r.2) ++ cstr "] " ++ r.1 ++ cstr " (" ++ print_i64 (duration r.2) ++ cstr "ms)" ++ [10] ++
  cstr "  " ++ message r.2 ++ [10] ++ concat ((fun d => cstr "  - " ++ d ++ [10]) <$> details r.2) ++ [10].
Definition count_status (s : ReadinessStatus) (rs : list (cstring * ReadinessResult)) : Z :=
  Z.of_nat (length (filter (fun r => status r.2 = s) rs)).
Definition generate_readiness_report (took : cstring -> Z) v e : option (cstring * t) :=
  '(results, v) ← run_all_checks took v e;
  let rs := iterate _ results in
  Some (cstr "=== RTES Production Readiness Report ===" ++ [10; 10] ++ concat (result_text <$> rs) ++
        cstr "Summary: " ++ print_i64 (count_status PASS rs) ++ cstr " passed, " ++ print_i64 (count_status WARN rs) ++
        cstr " warnings, " ++ print_i64 (count_status FAIL rs) ++ cstr " failed" ++ [10] ++
        cstr "Production Ready: " ++ (if count_status FAIL rs =? 0 then cstr "YES" else cstr "NO") ++ [10], v).

End validator.
Arguments Env : clear implicits.
Arguments ReadinessCheck : clear implicits.
Arguments t : clear implicits.
End ProductionReadinessValidator.

(** ** ChaosEngineer *)

Module ChaosEngineer.

Inductive ChaosScenario :=
  NETWORK_PARTITION | HIGH_LATENCY | MEMORY_PRESSURE | CPU_SPIKE | DISK_FULL | CONNECTION_DROPS | RANDOM_FAILURES.

(** What an experiment does to the process: only the memory it takes stays. *)
Record World := mkWorld { memory_hog : Z; perf : PerformanceCounters.t }.
Record ChaosExperiment := mkExperiment {
  name : cstring;
  scenario : ChaosScenario;
  duration : Z;   (* seconds *)
  intensity : double;
  setup_fn : option (World -> option World);
  cleanup_fn : option (World -> option World);
  success_criteria : option (World -> bool)
}.
Record t := mk { experiments_ : list ChaosExperiment; chaos_active_ : bool; world : World }.
Implicit Types c : t.

Definition register_experiment (experiment : ChaosExperiment) c : t :=
  mk (experiments_ c ++ [experiment]) (chaos_active_ c) (world c).

Definition inject_network_latency (latency : Z) (w : World) : option World := Some w.
Definition inject_random_failures (failure_rate : double) (w : World) : option World := Some w.
(** The vector is resized to the share of a gigabyte. *)
Definition inject_memory_pressure (percentage : double) (w : World) : option World :=
  bytes ← trunc_u64 (double_mul (double_of_Z (1024 * 1024 * 1024)) percentage); Some (mkWorld bytes (perf w)).
Definition stop_all_chaos c : t := mk (experiments_ c) false (world c).

Definition call_fn (f : option (World -> option World)) (w : World) : option World :=
  match f with None => Some w | Some f => f w end.
(** [locked]: the thread holds [experiments_mutex_] already. *)
Definition run_experiment (locked : bool) (n : cstring) c : option (bool * t) :=
  if locked then None
  else match List.find (fun x => bool_decide (name x = n)) (experiments_ c) with
  | None => Some (false, c)
  | Some x =>
      w ← call_fn (setup_fn x) (world c);
      let success := match success_criteria x with None => true | Some f => f w end in
      w ← call_fn (cleanup_fn x) w;
      Some (success, mk (experiments_ c) false w)
  end.

Definition default_experiments : list ChaosExperiment :=
  [mkExperiment (cstr "network_latency_spike") HIGH_LATENCY 30 (nearest_decimal 1 1)
     (Some (inject_network_latency 100)) (Some Some)
     (Some (fun w => double_lt (PerformanceCounters.get_avg_latency (cstr "order_processing") (perf w)) (double_of_Z 50)));
   mkExperiment (cstr "memory_pressure") MEMORY_PRESSURE 60 (nearest_decimal 2 1)
     (Some (inject_memory_pressure double_half)) (Some Some) (Some (fun _ => true));
   mkExperiment (cstr "random_connection_drops") CONNECTION_DROPS 45 (nearest_decimal 5 2)
     (Some (inject_random_failures (nearest_decimal 1 2))) (Some Some) (Some (fun _ => true))].
Definition setup_default_experiments c : t :=
  match experiments_ c with [] => mk default_experiments (chaos_active_ c) (world c) | _ => c end.

(** The shared lock is held over the loop, and [run_experiment] locks again. *)
Definition run_all_experiments c : option t :=
  let c := setup_default_experiments c in
  foldl (fun r x => c ← r; '(_, c) ← run_experiment true (name x) c; Some c) (Some c) (experiments_ c).

End ChaosEngineer.

(** ** LoadTester *)

Module LoadTester.

Record LoadTestConfig := mkConfig {
  concurrent_clients : Z;
  orders_per_second : Z;
  duration : Z;   (* seconds *)
  symbols : list cstring;
  enable_chaos : bool
}.
Record LoadTestResult := mkResult {
  total_orders : Z;
  successful_orders : Z;
  failed_orders : Z;
  avg_latency_us : double;
  p99_latency_us : double;
  throughput_ops : double;
  passed_sla : bool
}.

(** An order of a simulated client: its latency in nanoseconds and whether it
    succeeded.  [orders] is what the clients did, in the order in which they took
    the mutex.  A client that pauses divides by its rate. *)
Definition simulate_client_load (config : LoadTestConfig) (orders : list (Z * bool)) : option LoadTestResult :=
  if concurrent_clients config =? 0 then None
  else
    let orders_per_client := orders_per_second config / concurrent_clients config in
    if (orders_per_client =? 0) && negb (Nat.eqb (length orders) 0) then None
    else
      let successful := filter (fun o => o.2 = true) orders in
      let latencies := Histogram.sort ((fun o => double_div (double_of_Z o.1) (double_of_Z 1000)) <$> successful) in
      '(avg, p99) ← match latencies with
                    | [] => Some (double_of_Z 0, double_of_Z 0)
                    | _ => p99 ← MetricsCollector.percentile latencies MetricsCollector.p99;
                           Some (AnomalyDetector.mean_of latencies, p99)
                    end;
      Some (mkResult (wrap 64 (Z.of_nat (length orders))) (wrap 64 (Z.of_nat (length successful)))
              (wrap 64 (Z.of_nat (length orders - length successful))) avg p99 (double_of_Z 0) false).

(** [elapsed]: microseconds. *)
Definition run_load_test (config : LoadTestConfig) (orders : list (Z * bool)) (elapsed : Z) : option LoadTestResult :=
  r ← simulate_client_load config orders;
  let throughput := double_div (double_of_Z (successful_orders r)) (double_div (double_of_Z elapsed) (double_of_Z 1000000)) in
  let sla := double_lt (avg_latency_us r) (double_of_Z 10) && double_lt (p99_latency_us r) (double_of_Z 100) &&
             double_le (double_mul (double_of_Z (orders_per_second config)) (nearest_decimal 95 2)) throughput in
  Some (mkResult (total_orders r) (successful_orders r) (failed_orders r) (avg_latency_us r) (p99_latency_us r) throughput sla).

Definition under_load : LoadTestConfig := mkConfig 200 50000 120 [cstr "AAPL"; cstr "GOOGL"; cstr "MSFT"] true.
Definition validate_performance_under_load (orders : list (Z * bool)) (elapsed : Z) : option bool :=
  r ← run_load_test under_load orders elapsed; Some (passed_sla r).

(** [inject_chaos_during_test] *)
Definition inject_chaos_during_test (c : ChaosEngineer.t) : option ChaosEngineer.t :=
  w ← ChaosEngineer.inject_network_latency 50 (ChaosEngineer.world c);
  w ← ChaosEngineer.inject_memory_pressure (nearest_decimal 3 1) w;
  Some (ChaosEngineer.stop_all_chaos (ChaosEngineer.mk (ChaosEngineer.experiments_ c) (ChaosEngineer.chaos_active_ c) w)).

End LoadTester.

(** ** BlueGreenDeployment *)

Module BlueGreenDeployment.

Inductive DeploymentSlot := BLUE | GREEN.
#[export] Instance DeploymentSlot_eq_dec : EqDecision DeploymentSlot.
Proof. solve_decision. Defined.

Definition other (s : DeploymentSlot) : DeploymentSlot := match s with BLUE => GREEN | GREEN => BLUE end.
Record t := mk { active_slot_ : DeploymentSlot; blue_version_ : cstring; green_version_ : cstring }.
Implicit Types b : t.

Definition init : t := mk BLUE [] [].
Definition get_active_slot b : DeploymentSlot := active_slot_ b.
Definition get_standby_slot b : DeploymentSlot := other (active_slot_ b).
Definition set_slot (s : DeploymentSlot) b : t := mk s (blue_version_ b) (green_version_ b).

(** The health of the process, whatever the slot. *)
Definition validate_slot_health {W} (health : HealthCheckManager.t W) (w : W) (slot : DeploymentSlot) : bool :=
  HealthCheckManager.is_ready health w && HealthCheckManager.is_live health w.
Definition start_instance_in_slot (slot : DeploymentSlot) (version : cstring) : bool := true.

Section deployment.
Context {W : Type}.
Variable health : HealthCheckManager.t W.

(** [w]: the world when the health is asked for, 30 seconds later. *)
Definition prepare_deployment (w : W) (target : DeploymentSlot) (version : cstring) b : Result unit * t :=
  if negb (start_instance_in_slot target version) then (err DEPLOYMENT_FAILED, b)
  else if negb (validate_slot_health health w target) then (err HEALTH_CHECK_FAILED, b)
  else (Value tt, match target with
                  | BLUE => mk (active_slot_ b) version (green_version_ b)
                  | GREEN => mk (active_slot_ b) (blue_version_ b) version
                  end).
(** [w] before the switch and [w'] 10 seconds after it. *)
Definition switch_traffic (w w' : W) (target : DeploymentSlot) b : Result unit * t :=
  if negb (validate_slot_health health w target) then (err HEALTH_CHECK_FAILED, b)
  else
    let b := set_slot target b in
    if negb (validate_slot_health health w' target) then (err DEPLOYMENT_FAILED, set_slot (other target) b)
    else (Value tt, b).
Definition rollback_deployment (w w' : W) b : Result unit * t := switch_traffic w w' (other (active_slot_ b)) b.

End deployment.
End BlueGreenDeployment.

(** ** IncidentManager *)

Module IncidentManager.

Inductive IncidentSeverity := P1_CRITICAL | P2_HIGH | P3_MEDIUM | P4_LOW.
Record Incident := mkIncident {
  id : cstring;
  title : cstring;
  description : cstring;
  severity : IncidentSeverity;
  created_at : Z;
  resolved_at : Z;
  actions_taken : list cstring;
  resolved : bool
}.
Section incidents.
Context {W : Type}.

(** Times are seconds; [counter] is the static of [generate_incident_id]. *)
Record t := mk { incidents_ : list Incident; runbooks_ : gmap cstring (W -> outcome unit * W); counter : Z }.
Implicit Types m : t.

Definition init : t := mk [] ∅ 1.
Definition generate_incident_id (now : Z) m : cstring * t :=
  (cstr "INC-" ++ print_i64 now ++ [45] ++ print_u64 (counter m), mk (incidents_ m) (runbooks_ m) (counter m +₆₄ 1)).
Definition create_incident (now : Z) (ttl descr : cstring) (sev : IncidentSeverity) m : cstring * t :=
  let '(i, m) := generate_incident_id now m in
  (i, mk (incidents_ m ++ [mkIncident i ttl descr sev now 0 [] false]) (runbooks_ m) (counter m)).

(** The first incident that [p] selects. *)
Fixpoint update_first (p : Incident -> bool) (f : Incident -> Incident) (l : list Incident) : list Incident :=
  match l with [] => [] | x :: l => if p x then f x :: l else x :: update_first p f l end.
Definition add_action (incident_id action : cstring) m : t :=
  mk (update_first (fun x => bool_decide (id x = incident_id))
        (fun x => mkIncident (id x) (title x) (description x) (severity x) (created_at x) (resolved_at x)
                    (actions_taken x ++ [action]) (resolved x)) (incidents_ m)) (runbooks_ m) (counter m).
Definition resolve_incident (now : Z) (incident_id : cstring) m : t :=
  mk (update_first (fun x => bool_decide (id x = incident_id) && negb (resolved x))
        (fun x => mkIncident (id x) (title x) (description x) (severity x) (created_at x) now (actions_taken x) true)
        (incidents_ m)) (runbooks_ m) (counter m).
Definition get_active_incidents m : list Incident := filter (fun x => resolved x = false) (incidents_ m).

(** An exception of the runbook is caught; its steps before it remain. *)
Definition execute_runbook (runbook : cstring) m (w : W) : option W :=
  match runbooks_ m !! runbook with
  | None => Some w
  | Some f => match f w with (Undefined, _) => None | (_, w) => Some w end
  end.
(** The runbooks only write a line to the log. *)
Definition log_only (w : W) : outcome unit * W := (Done tt, w).
Definition setup_default_runbooks m : t :=
  mk (incidents_ m) (<[cstr "network_partition" := log_only]> (<[cstr "memory_leak" := log_only]> (<[cstr "high_latency" := log_only]> (runbooks_ m))))
    (counter m).

End incidents.
Arguments t : clear implicits.
End IncidentManager.

(** ** When the process counts as ready *)

Module ReadinessClaims.
Import ProductionReadinessValidator.
Section readiness.
Variable iterate : walk.
Hypothesis iterate_perm : forall V (m : gmap cstring V), iterate V m ≡ₚ map_to_list m.
Context {W : Type}.
Implicit Types (v : ProductionReadinessValidator.t W) (e : Env W).

Lemma some_failed results :
  existsb failed (iterate _ results) = true <-> exists n r, results !! n = Some r /\ status r = FAIL.
Proof using iterate_perm.
  rewrite existsb_exists. split.
  - intros ([n r] & Hin & Hf). apply list_elem_of_In in Hin. rewrite iterate_perm elem_of_map_to_list in Hin.
    exists n, r. split; [done|]. by apply bool_decide_eq_true in Hf.
  - intros (n & r & Hr & Hf). exists (n, r). rewrite -list_elem_of_In iterate_perm elem_of_map_to_list. split; [done|].
    by apply bool_decide_eq_true.
Qed.

Definition tls_enabled (c : SecureConfigManager.t W) : bool :=
  match SecureConfigManager.get_bool (cstr "security.enable_tls") c with Value b => b | Error _ => false end.

Lemma security_fails e :
  status (validate_security_configuration e) = FAIL <->
  SecureConfigManager.has_key (cstr "security.encryption_key_id") (config e) = false \/ tls_enabled (config e) = false.
Proof using.
  unfold validate_security_configuration, tls_enabled, SecureConfigManager.get_bool, SecureConfigManager.has_key.
  destruct (SecureConfigManager.config_data_ (config e) !! cstr "security.enable_tls") as [tls|];
    [rewrite (bool_decide_true (is_Some (Some tls))) //|]; cbn [negb orb];
    destruct (SecureConfigManager.is_production (config e)), (bool_decide (is_Some _)); cbn [negb];
    try destruct (bool_decide (tls = cstr "true") || bool_decide (tls = cstr "1")); cbn; naive_solver.
Qed.

Lemma backup_passes e : status (verify_backup_and_recovery e) = PASS.
Proof using. done. Qed.

(** With the default checks the process is ready exactly when the mean latency of
    the orders recorded is below ten microseconds, an encryption key is configured
    and TLS is enabled; memory and backups never decide. *)
Theorem default_readiness took e :
  is_production_ready iterate took [] e =
  Some (double_lt (PerformanceCounters.get_avg_latency (cstr "order_processing") (perf e)) (double_of_Z 10) &&
        SecureConfigManager.has_key (cstr "security.encryption_key_id") (config e) && tls_enabled (config e),
        default_checks).
Proof using iterate_perm.
  unfold is_production_ready, run_all_checks. cbn [setup_default_checks default_checks run_checks]. unfold run_check.
  cbn [check_fn performance_sla memory_usage mbind option_bind name description]. do 2 f_equal.
  match goal with |- context [iterate _ ?m] => set (results := m) end.
  assert (existsb failed (iterate _ results) = true <->
    double_lt (PerformanceCounters.get_avg_latency (cstr "order_processing") (perf e)) (double_of_Z 10) = false \/
    status (validate_security_configuration e) = FAIL) as H.
  { rewrite some_failed. unfold results. split.
    - intros (n & r & Hr & Hf). repeat (apply lookup_insert_Some in Hr as [[_ <-]|[_ Hr]]; cbn [status] in Hf).
      + by rewrite backup_passes in Hf.
      + by right.
      + by destruct (ru_maxrss e <? 1024 * 1024).
      + left. by destruct (double_lt _ _).
      + by rewrite lookup_empty in Hr.
    - intros [Hf|Hf].
      + exists (cstr "performance_sla"). eexists. split.
        { do 3 (apply lookup_insert_Some; right; split; [done|]). apply lookup_insert_Some. by left. }
        cbn [status]. by rewrite Hf.
      + exists (cstr "security_config"). eexists. split.
        { apply lookup_insert_Some. right. split; [done|]. apply lookup_insert_Some. by left. }
        exact Hf. }
  rewrite security_fails in H.
  destruct (double_lt _ _), (SecureConfigManager.has_key _ _), (tls_enabled _), (existsb _ _); cbn in *; try done; exfalso; intuition congruence.
Qed.

(** A check that is registered first replaces the default ones. *)
Lemma registered_check_replaces_defaults took e check :
  check_fn check e = Done PASS ->
  is_production_ready iterate took (register_check check []) e = Some (true, [check]).
Proof using iterate_perm.
  intros Hc. unfold is_production_ready, run_all_checks. cbn [register_check app setup_default_checks run_checks]. unfold run_check.
  rewrite Hc. cbn [mbind option_bind]. do 2 f_equal. apply negb_true_iff, not_true_iff_false. rewrite some_failed.
  intros (n & r & Hr & Hf). apply lookup_insert_Some in Hr as [[_ <-]|[_ Hr]]; [done|by rewrite lookup_empty in Hr].
Qed.

(** The report ends with the verdict of [is_production_ready]. *)
Lemma report_verdict took v e text v' :
  generate_readiness_report iterate took v e = Some (text, v') ->
  exists ready pre, is_production_ready iterate took v e = Some (ready, v') /\
    text = pre ++ cstr "Production Ready: " ++ (if ready : bool then cstr "YES" else cstr "NO") ++ [10].
Proof using.
  unfold generate_readiness_report, is_production_ready. destruct (run_all_checks took v e) as [[results v1]|]; [|done].
  cbn [mbind option_bind]. set (rs := iterate _ results).
  intros H. apply (inj Some), pair_equal_spec in H as [<- <-].
  exists (negb (existsb failed rs)). eexists. split; [done|].
  assert ((count_status FAIL rs =? 0) = negb (existsb failed rs)) as ->.
  { unfold count_status. induction rs as [|r rs IH]; [done|]. cbn [existsb]. unfold failed at 1.
    destruct (decide (status r.2 = FAIL)) as [Hf|Hf].
    - rewrite filter_cons_True // bool_decide_true //.
    - rewrite filter_cons_False // bool_decide_false //. }
  etransitivity; [rewrite !app_assoc; reflexivity|].
  rewrite -(app_assoc _ _ [10]) -(app_assoc _ (cstr "Production Ready: ")). reflexivity.
Qed.

End readiness.

(** A process that has recorded no order, with a key and TLS, is ready; without the
    key it is not. *)
Definition ex_env (data : gmap cstring cstring) : Env unit :=
  mkEnv PerformanceCounters.init (SecureConfigManager.mk data ∅ PRODUCTION []) [] tt 0 None 0.
Definition ex_config : gmap cstring cstring :=
  <[cstr "security.encryption_key_id" := cstr "k1"]> (<[cstr "security.enable_tls" := cstr "true"]> ∅).
Lemma default_readiness_witness :
  fst <$> is_production_ready walk_map (fun _ => 0) [] (ex_env ex_config) = Some true /\
  fst <$> is_production_ready walk_map (fun _ => 0) [] (ex_env (delete (cstr "security.encryption_key_id") ex_config)) = Some false.
Proof.
  split.
  - rewrite (default_readiness walk_map walk_map_perm (fun _ => 0) (ex_env ex_config)). by vm_compute.
  - rewrite (default_readiness walk_map walk_map_perm (fun _ => 0) (ex_env (delete (cstr "security.encryption_key_id") ex_config))).
    by vm_compute.
Defined.

End ReadinessClaims.

(** ** Chaos and load *)

Module ChaosClaims.
Import ChaosEngineer.

(** Running all experiments locks the mutex twice, whatever is registered. *)
Lemma run_all_experiments_undefined c : run_all_experiments c = None.
Proof.
  unfold run_all_experiments. set (c' := setup_default_experiments c).
  assert (experiments_ c' <> []) as Hne by (unfold c', setup_default_experiments; destruct (experiments_ c) eqn:E; [done|by rewrite E]).
  destruct (experiments_ c') as [|x xs]; [done|]. cbn. clear Hne.
  induction xs as [|y xs IH]; [done|]. cbn. exact IH.
Qed.

(** The memory of the pressure experiment is still taken when it is over. *)
Example memory_stays_taken :
  let c := setup_default_experiments (mk [] false (mkWorld 0 PerformanceCounters.init)) in
  match run_experiment false (cstr "memory_pressure") c with
  | Some (success, c) => success = true /\ memory_hog (world (stop_all_chaos c)) = 536870912
  | None => False
  end.
Proof. by vm_compute. Qed.

Lemma successful_length (orders : list (Z * bool)) : (length (filter (fun o => o.2 = true) orders) <= length orders)%nat.
Proof. apply length_filter. Qed.

(** A load test with at least one client that may send at least one order a second
    gives a result whatever the clients did; the orders are split exactly into
    successful and failed ones, and the 99th percentile is the latency of one of
    the successful ones. *)
Theorem load_test_counts config orders elapsed :
  0 < LoadTester.concurrent_clients config <= LoadTester.orders_per_second config ->
  Z.of_nat (length orders) < 2 ^ 53 ->
  exists r, LoadTester.run_load_test config orders elapsed = Some r /\
    LoadTester.total_orders r = Z.of_nat (length orders) /\
    LoadTester.total_orders r = LoadTester.successful_orders r + LoadTester.failed_orders r /\
    LoadTester.successful_orders r = Z.of_nat (length (filter (fun o => o.2 = true) orders)) /\
    (LoadTester.successful_orders r <> 0 ->
       exists ns, (ns, true) ∈ orders /\ LoadTester.p99_latency_us r = double_div (double_of_Z ns) (double_of_Z 1000)).
Proof.
  intros Hc Hl. unfold LoadTester.run_load_test, LoadTester.simulate_client_load.
  rewrite (proj2 (Z.eqb_neq _ 0)); [lia|].
  rewrite (proj2 (Z.eqb_neq (LoadTester.orders_per_second config / LoadTester.concurrent_clients config) 0)).
  { pose proof (Z.div_le_mono _ _ (LoadTester.concurrent_clients config) ltac:(lia) (proj2 Hc)) as H.
    rewrite Z.div_same in H; lia. }
  cbn [andb]. pose proof (successful_length orders) as Hs. set (good := filter _ orders) in *.
  set (ls := Histogram.sort _). change (2 ^ 53) with 9007199254740992 in Hl.
  assert (length ls = length good) as El by (unfold ls; rewrite sorted_length length_fmap //).
  assert (exists p, match ls with [] => Some (double_of_Z 0, double_of_Z 0)
            | _ => p99 ← MetricsCollector.percentile ls MetricsCollector.p99; Some (AnomalyDetector.mean_of ls, p99) end = Some p /\
            (length good <> 0%nat -> p.2 ∈ ls)) as ([avg p99] & -> & Hin).
  { destruct ls as [|x l]; [eexists; split; [done|]; rewrite -El; by intros []|].
    destruct (p99_defined (x :: l)) as [p99 Ep]; [done|rewrite El; change (2 ^ 53) with 9007199254740992; lia|]. rewrite Ep.
    eexists. split; [done|]. intros _. cbn [snd]. unfold MetricsCollector.percentile in Ep.
    destruct (MetricsCollector.percentile_index _ _); [|done]. by apply list_elem_of_lookup_2 in Ep. }
  cbn [mbind option_bind LoadTester.successful_orders]. eexists. split; [done|].
  cbn [LoadTester.total_orders LoadTester.successful_orders LoadTester.failed_orders LoadTester.passed_sla LoadTester.throughput_ops].
  rewrite !wrap_small; [u_lia..|]. split; [done|]. split; [lia|]. split; [done|].
  intros Hne. specialize (Hin ltac:(lia)). cbn [snd LoadTester.p99_latency_us] in *. apply sorted_elem, list_elem_of_fmap in Hin as ([ns ok] & -> & Ho).
  apply list_elem_of_filter in Ho as [E Ho]. cbn in E. subst ok. by exists ns.
Qed.

(** More clients than orders a second: the pause divides by zero. *)
Example slow_clients_undefined :
  LoadTester.run_load_test (LoadTester.mkConfig 100 50 60 [] false) [(5000, true)] 1000000 = None.
Proof. by vm_compute. Qed.

End ChaosClaims.

(** ** Blue and green *)

Module BlueGreenClaims.
Import BlueGreenDeployment.
Section blue_green.
Context {W : Type}.
Variable health : HealthCheckManager.t W.

(** A switch that reports success leaves the target active and the process healthy;
    a failure before the switch changes nothing; a failure after it makes the slot
    other than the target active, which is the old one when the traffic moved. *)
Theorem switch_traffic_outcome w w' target b :
  let '(r, b') := switch_traffic health w w' target b in
  blue_version_ b' = blue_version_ b /\ green_version_ b' = green_version_ b /\
  match r with
  | Value _ => active_slot_ b' = target /\ validate_slot_health health w' target = true
  | Error _ =>
      if validate_slot_health health w target
      then active_slot_ b' = other target /\ (target <> active_slot_ b -> b' = b)
      else b' = b
  end.
Proof using.
  unfold switch_traffic. destruct (validate_slot_health health w target), (validate_slot_health health w' target); cbn [negb];
    (split; [done|]; split; [done|]); try done.
  split; [done|]. intros Hne. destruct b as [[] ? ?], target; done.
Qed.

(** Two rollbacks in a healthy process are no change. *)
Lemma rollback_twice w b :
  validate_slot_health health w BLUE = true ->
  (rollback_deployment health w w (rollback_deployment health w w b).2).2 = b.
Proof using.
  intros Hh. unfold rollback_deployment, switch_traffic.
  assert (forall s, validate_slot_health health w s = true) as Ha by (intros s; by rewrite -Hh).
  rewrite !Ha. cbn. by destruct b as [[] ? ?].
Qed.

End blue_green.

(** The slot that nothing was deployed to takes the traffic of a rollback. *)
Example rollback_to_an_empty_slot :
  let b := (prepare_deployment ([] : HealthCheckManager.t unit) tt BLUE (cstr "1.0") init).2 in
  let b := (rollback_deployment ([] : HealthCheckManager.t unit) tt tt b).2 in
  (active_slot_ b, blue_version_ b, green_version_ b) = (GREEN, cstr "1.0", []).
Proof. by vm_compute. Qed.

(** Switching to the slot that is active already moves the traffic off it when the
    second check fails. *)
Example failed_switch_leaves_the_active_slot :
  let unhealthy_later : HealthCheckManager.t bool :=
    [HealthCheckManager.mkCheck (cstr "c") (fun w : bool => Done (if w then HealthCheckManager.UNHEALTHY else HealthCheckManager.HEALTHY)) true] in
  active_slot_ (switch_traffic unhealthy_later false true BLUE init).2 = GREEN.
Proof. by vm_compute. Qed.

End BlueGreenClaims.

(** ** Incidents *)

Module IncidentClaims.
Import IncidentManager.
Section incidents.
Context {W : Type}.
Implicit Types m : IncidentManager.t W.

Inductive incident_op :=
  | Create (now : Z) (ttl descr : cstring) (sev : IncidentSeverity)
  | AddAction (incident_id action : cstring)
  | Resolve (now : Z) (incident_id : cstring).
Definition incident_step m (op : incident_op) : IncidentManager.t W :=
  match op with
  | Create now ttl descr sev => (create_incident now ttl descr sev m).2
  | AddAction i action => add_action i action m
  | Resolve now i => resolve_incident now i m
  end.
Definition incident_run (ops : list incident_op) : IncidentManager.t W := foldl incident_step init ops.

Lemma update_first_ids p f (l : list Incident) : (forall x, id (f x) = id x) -> id <$> update_first p f l = id <$> l.
Proof using. intros Hf. induction l as [|x l IH]; [done|]. cbn [update_first]. destruct (p x); cbn; [by rewrite Hf|by f_equal]. Qed.

(** Every identifier ends in the number of the incident. *)
Record numbered m : Prop := {
  n_counter : counter m = Z.of_nat (S (length (incidents_ m)));
  n_id i x : incidents_ m !! i = Some x -> exists now, id x = cstr "INC-" ++ print_i64 now ++ [45] ++ print_u64 (Z.of_nat (S i))
}.

Lemma number_at_end a b x y :
  u64 x -> u64 y -> a ++ [45] ++ print_u64 x = b ++ [45] ++ print_u64 y -> x = y.
Proof using.
  intros Hx Hy E. destruct (print_u64_spec x Hx) as (Px & Dx & _), (print_u64_spec y Hy) as (Py & Dy & _).
  rewrite -Px -Py. f_equal. apply (f_equal reverse) in E. rewrite !reverse_app !reverse_singleton -!app_assoc in E.
  assert (forall (ds ds' : list Z) r r', Forall is_digit ds -> Forall is_digit ds' ->
    ds ++ [45] ++ r = ds' ++ [45] ++ r' -> ds = ds') as Hsplit.
  { induction ds as [|d ds IH]; intros [|d' ds'] r r' Hd Hd' Eq; [done| | |].
    - injection Eq as <- _. inversion Hd'; subst. unfold is_digit in *. lia.
    - injection Eq as -> _. inversion Hd; subst. unfold is_digit in *. lia.
    - injection Eq as <- Eq. f_equal. apply (IH ds' r r'); [by inversion Hd|by inversion Hd'|exact Eq]. }
  apply Hsplit in E; [by apply (inj reverse) in E|by rewrite Forall_reverse..].
Qed.

Lemma update_first_numbered m p f :
  (forall x, id (f x) = id x) -> numbered m -> numbered (mk (update_first p f (incidents_ m)) (runbooks_ m) (counter m)).
Proof using.
  intros Hf [Hc Hi]. pose proof (update_first_ids p f (incidents_ m) Hf) as E. split; cbn [counter incidents_].
  - apply (f_equal length) in E. rewrite !length_fmap in E. by rewrite E.
  - intros i x Hx. assert ((id <$> incidents_ m) !! i = Some (id x)) as H by (rewrite -E list_lookup_fmap Hx //).
    rewrite list_lookup_fmap in H. destruct (incidents_ m !! i) as [y|] eqn:Ey; [|done]. injection H as H. rewrite -H. by apply Hi.
Qed.

Lemma incident_run_numbered ops : Z.of_nat (length ops) < 2 ^ 63 -> numbered (incident_run ops) /\ (length (incidents_ (incident_run ops)) <= length ops)%nat.
Proof using.
  intros Hl. induction ops as [|op ops IH] using rev_ind; [split; [split; [done|intros i x Hx; by rewrite lookup_nil in Hx]|done]|].
  rewrite length_app in Hl |- *. cbn [length] in *. destruct IH as [Hn Hlen]; [lia|]. unfold incident_run. rewrite foldl_app. cbn [foldl].
  fold (incident_run ops). destruct op as [now ttl descr sev|i action|now i]; cbn [incident_step].
  - destruct Hn as [Hc Hi]. cbn [create_incident generate_incident_id incidents_ counter snd]. split; [split; cbn [incidents_ counter]|].
    + rewrite Hc length_app wrap_small; [u_lia|]. cbn [length]. lia.
    + intros j x Hx. apply lookup_snoc_Some in Hx as [[_ Hx]|[-> <-]]; [by apply Hi|]. exists now. cbn [id]. by rewrite Hc.
    + rewrite length_app. cbn [length]. lia.
  - split; [by apply update_first_numbered|]. cbn [add_action incidents_].
    rewrite -(length_fmap id) update_first_ids // length_fmap. lia.
  - split; [by apply update_first_numbered|]. cbn [resolve_incident incidents_].
    rewrite -(length_fmap id) update_first_ids // length_fmap. lia.
Qed.

(** After any calls no two incidents have the same identifier, so an action is
    added to, and a resolution applied to, the incident it names and no other. *)
Theorem incident_ids_unique ops :
  Z.of_nat (length ops) < 2 ^ 63 -> NoDup (id <$> incidents_ (incident_run ops)).
Proof using.
  intros Hl. destruct (incident_run_numbered ops Hl) as [[_ Hi] Hlen]. apply NoDup_alt. intros i j k Hik Hjk.
  rewrite !list_lookup_fmap in Hik, Hjk.
  destruct (incidents_ _ !! i) as [x|] eqn:Ex; [|done]. destruct (incidents_ _ !! j) as [y|] eqn:Ey; [|done].
  injection Hik as Hx. injection Hjk as Hy. destruct (Hi i x Ex) as (t1 & E1), (Hi j y Ey) as (t2 & E2).
  pose proof (lookup_lt_Some _ _ _ Ex). pose proof (lookup_lt_Some _ _ _ Ey). rewrite -Hy E1 E2 in Hx.
  rewrite !app_assoc -app_assoc in Hx. rewrite -(app_assoc _ [45]) in Hx.
  apply number_at_end in Hx; [lia|u_lia..].
Qed.

(** No runbook is ever set up: executing one does nothing. *)
Lemma runbooks_never_run ops name (w : W) : execute_runbook name (incident_run ops) w = Some w.
Proof using.
  unfold execute_runbook. assert (runbooks_ (incident_run ops) = ∅) as ->; [|by rewrite lookup_empty].
  induction ops as [|op ops IH] using rev_ind; [done|]. unfold incident_run. rewrite foldl_app. cbn [foldl]. fold (incident_run ops).
  by destruct op.
Qed.

End incidents.
End IncidentClaims.
