(* ===== verification/Dashboard.v ===== *)
(** * The dashboards (dashboard.hpp, dashboard.cpp)

    The pages of the operational dashboard and of the alerts, and the server of
    the first: a thread that accepts a connection, answers one request and closes
    it.  What a page shows is read from the metrics and the alerts of the
    observability stack.  A backquote in a text stands for a double quote. *)

From S2P Require Import Prelude Types Double MemorySafety Strings Formatting Logger HttpServer Observability ObservabilityTheorems.

(** [html << a << b ...] *)
Definition div (class : string) (body : cstring) : cstring :=
  quoting "<div class=`" ++ cstr class ++ quoting "`>" ++ body ++ cstr "</div>".

(** ** OperationalDashboard *)

Module OperationalDashboard.
Section dashboard.
Variable iterate : walk.

Record DashboardWidget := mkWidget {
  widget_id : cstring;
  widget_title : cstring;
  type : cstring;
  query : cstring;
  widget_config : fields
}.
Record DashboardPanel := mkPanel {
  id : cstring;
  title : cstring;
  widgets : list DashboardWidget;
  grid_x : Z;
  grid_y : Z;
  grid_w : Z;
  grid_h : Z
}.
(** [server_thread_]: the thread is joinable. *)
Record t := mk { server_running_ : bool; server_thread_ : bool; port_ : Z; panels_ : list DashboardPanel }.
Implicit Types d : t.

Definition init : t := mk false false 3000 [].
Definition add_panel (panel : DashboardPanel) d : t :=
  mk (server_running_ d) (server_thread_ d) (port_ d) (panels_ d ++ [panel]).

Definition metric (name title query : string) : DashboardWidget :=
  mkWidget (cstr name) (cstr title) (cstr "metric") (cstr query) ∅.
Definition health_panel : DashboardPanel :=
  mkPanel (cstr "system_health") (cstr "System Health")
    [metric "cpu_usage" "CPU Usage" "system_cpu_percent"; metric "memory_usage" "Memory Usage" "system_memory_percent";
     metric "active_connections" "Active Connections" "tcp_connections_active"] 0 0 6 4.
(** The first title has a Greek mu in UTF-8. *)
Definition perf_panel : DashboardPanel :=
  mkPanel (cstr "performance") (cstr "Performance Metrics")
    [mkWidget (cstr "avg_latency") (cstr "Average Latency (" ++ [206; 188] ++ cstr "s)") (cstr "metric")
       (cstr "order_processing_latency_us") ∅;
     metric "throughput" "Orders/sec" "orders_per_second"; metric "error_rate" "Error Rate %" "error_rate_percent"] 6 0 6 4.
Definition business_panel : DashboardPanel :=
  mkPanel (cstr "business") (cstr "Business Metrics")
    [metric "total_volume" "Total Volume" "total_trading_volume"; metric "active_symbols" "Active Symbols" "active_symbols_count";
     metric "client_count" "Active Clients" "active_clients_count"] 0 4 8 4.
Definition alerts_panel : DashboardPanel :=
  mkPanel (cstr "alerts") (cstr "Active Alerts")
    [mkWidget (cstr "active_alerts") (cstr "Active Alerts") (cstr "alert") (cstr "active_alerts") ∅] 8 4 4 4.
Definition setup_default_panels d : t :=
  mk (server_running_ d) (server_thread_ d) (port_ d) [health_panel; perf_panel; business_panel; alerts_panel].
Definition initialize d : t := setup_default_panels d.

(** The last value of a gauge, else 0, with two decimals. *)
Definition metric_text (query : cstring) (m : MetricsCollector.t) : cstring :=
  div "metric" (print_fixed 2 (default (double_of_Z 0) (AlertManager.last_gauge iterate query m))).
Definition alert_class (s : AlertManager.AlertSeverity) : string :=
  match s with AlertManager.WARNING => "alert warning" | AlertManager.INFO => "alert info" | AlertManager.CRITICAL => "alert" end.
Definition alert_text (al : AlertManager.Alert) : cstring :=
  div (alert_class (AlertManager.severity al)) (cstr "<strong>" ++ AlertManager.name al ++ cstr "</strong><br>" ++ AlertManager.message al).
Definition alerts_text (a : AlertManager.t) : cstring :=
  match AlertManager.get_active_alerts a with
  | [] => div "info" (cstr "No active alerts")
  | als => concat (alert_text <$> als)
  end.
Definition render_widget (m : MetricsCollector.t) (a : AlertManager.t) (w : DashboardWidget) : cstring :=
  div "widget" (cstr "<h3>" ++ widget_title w ++ cstr "</h3>" ++
    (if bool_decide (type w = cstr "metric") then metric_text (query w) m
     else if bool_decide (type w = cstr "alert") then alerts_text a
     else if bool_decide (type w = cstr "chart") then div "chart" (cstr "Chart: " ++ query w)
     else [])).
Definition render_panel (m : MetricsCollector.t) (a : AlertManager.t) (p : DashboardPanel) : cstring :=
  quoting "<div class=`panel` style=`grid-column: span " ++ print_i64 (grid_w p) ++ cstr "; grid-row: span " ++
  print_i64 (grid_h p) ++ quoting ";`>" ++ cstr "<h2>" ++ title p ++ cstr "</h2>" ++
  concat (render_widget m a <$> widgets p) ++ cstr "</div>".

Definition page_head : cstring := quoting "<!DOCTYPE html>
<html>
<head>
    <title>RTES Operational Dashboard</title>
    <style>
        body { font-family: Arial, sans-serif; margin: 0; padding: 20px; background: #f5f5f5; }
        .header { background: #2c3e50; color: white; padding: 20px; margin: -20px -20px 20px -20px; }
        .grid { display: grid; grid-template-columns: repeat(12, 1fr); gap: 20px; }
        .panel { background: white; border-radius: 8px; padding: 20px; box-shadow: 0 2px 4px rgba(0,0,0,0.1); }
        .widget { margin-bottom: 20px; }
        .metric { font-size: 2em; font-weight: bold; color: #27ae60; }
        .alert { background: #e74c3c; color: white; padding: 10px; border-radius: 4px; margin: 5px 0; }
        .warning { background: #f39c12; }
        .info { background: #3498db; }
        .chart { height: 200px; background: #ecf0f1; border-radius: 4px; display: flex; align-items: center; justify-content: center; }
        .refresh { position: fixed; top: 20px; right: 20px; background: #3498db; color: white; border: none; padding: 10px 20px; border-radius: 4px; cursor: pointer; }
    </style>
    <script>
        function refreshDashboard() {
            location.reload();
        }
        setInterval(refreshDashboard, 30000); // Auto-refresh every 30 seconds
    </script>
</head>
<body>
    <div class=`header`>
        <h1>RTES Operational Dashboard</h1>
        <p>Real-Time Trading Exchange Simulator - System Status</p>
    </div>
    <button class=`refresh` onclick=`refreshDashboard()`>Refresh</button>
    <div class=`grid`>
".
Definition page_end : cstring := quoting "
    </div>
</body>
</html>".
Definition render_dashboard (m : MetricsCollector.t) (a : AlertManager.t) d : cstring :=
  page_head ++ concat (render_panel m a <$> panels_ d) ++ page_end.

Definition get_metrics_data (m : MetricsCollector.t) : option cstring := MetricsCollector.export_prometheus iterate m.

Definition alert_json (al : AlertManager.Alert) : cstring :=
  quoting "{`name`:`" ++ AlertManager.name al ++ quoting "`,`severity`:`" ++
  print_i64 (AlertManager.severity_value (AlertManager.severity al)) ++ quoting "`,`message`:`" ++ AlertManager.message al ++
  quoting "`,`timestamp`:`" ++ print_i64 (AlertManager.timestamp al / SECOND) ++ quoting "`}".
Fixpoint separated (l : list cstring) : cstring :=
  match l with [] => [] | [s] => s | s :: l => s ++ [44] ++ separated l end.
Definition get_alerts_data (a : AlertManager.t) : cstring :=
  quoting "{`alerts`:[" ++ separated (alert_json <$> AlertManager.get_active_alerts a) ++ cstr "]}".

(** *** The server *)

Inductive route := DashboardRoute | MetricsRoute | AlertsRoute | NoRoute.
(** [strstr] on the buffer of 4096 bytes, 4095 of them read; anywhere in it. *)
Definition route_of (received : list Z) : route :=
  let buffer := take_while (fun c => negb (c =? 0)) (take 4095 received) in
  if contains buffer (cstr "GET / ") || contains buffer (cstr "GET /dashboard") then DashboardRoute
  else if contains buffer (cstr "GET /api/metrics") then MetricsRoute
  else if contains buffer (cstr "GET /api/alerts") then AlertsRoute
  else NoRoute.
Definition http_response (status content_type : string) (response : cstring) : cstring :=
  cstr "HTTP/1.1 " ++ cstr status ++ CRLF ++ cstr "Content-Type: " ++ cstr content_type ++ CRLF ++
  cstr "Content-Length: " ++ print_u64 (Z.of_nat (length response)) ++ CRLF ++ CRLF ++ response.
Definition handle_request (received : list Z) (m : MetricsCollector.t) (a : AlertManager.t) d : option cstring :=
  match route_of received with
  | DashboardRoute => Some (http_response "200 OK" "text/html" (render_dashboard m a d))
  | MetricsRoute => response ← get_metrics_data m; Some (http_response "200 OK" "text/plain" response)
  | AlertsRoute => Some (http_response "200 OK" "application/json" (get_alerts_data a))
  | NoRoute => Some (http_response "404 Not Found" "text/plain" (cstr "404 Not Found"))
  end.

(** The thread: opening the socket, testing the flag, waiting in [accept], gone. *)
Inductive pc := Opening | Testing | Accepting | Gone.
Record server := mkServer { thread : pc; board : t }.
Definition start_server (port : Z) (s : server) : option server :=
  let d := board s in
  if server_running_ d then Some s
  else if server_thread_ d then None
  else Some (mkServer Opening (mk true true port (panels_ d))).
(** [stop_server] up to the [join], which waits for the thread to be gone. *)
Definition stop_begin (s : server) : server :=
  mkServer (thread s) (mk false (server_thread_ (board s)) (port_ (board s)) (panels_ (board s))).
Definition stop_join (s : server) : option server :=
  let d := board s in
  if negb (server_thread_ d) then Some s
  else match thread s with Gone => Some (mkServer Gone (mk (server_running_ d) false (port_ d) (panels_ d))) | _ => None end.

(** A step of the thread: [opened] whether socket, bind and listen succeed,
    [client] what a connection that arrives sends; [None] as the client: none
    arrives, or [accept] fails. *)
Inductive server_step (m : MetricsCollector.t) (a : AlertManager.t) : server -> option cstring -> server -> Prop :=
  | step_open d : server_step m a (mkServer Opening d) None (mkServer Testing d)
  | step_open_fails d : server_step m a (mkServer Opening d) None (mkServer Gone d)
  | step_running d : server_running_ d = true -> server_step m a (mkServer Testing d) None (mkServer Accepting d)
  | step_stopped d : server_running_ d = false -> server_step m a (mkServer Testing d) None (mkServer Gone d)
  | step_accept_fails d : server_step m a (mkServer Accepting d) None (mkServer Testing d)
  | step_serve d received text :
      handle_request received m a d = Some text -> server_step m a (mkServer Accepting d) (Some text) (mkServer Testing d).

End dashboard.
End OperationalDashboard.

(** ** AlertingDashboard *)

Module AlertingDashboard.
Section alerting.
Variable iterate : walk.

Definition get_alert_severity_color (s : AlertManager.AlertSeverity) : string :=
  match s with
  | AlertManager.CRITICAL => "severity-critical"
  | AlertManager.WARNING => "severity-warning"
  | AlertManager.INFO => "severity-info"
  end.
Definition severity_name (s : AlertManager.AlertSeverity) : string :=
  match s with AlertManager.CRITICAL => "CRITICAL" | AlertManager.WARNING => "WARNING" | AlertManager.INFO => "INFO" end.
Definition button (class action label : string) (name : cstring) : cstring :=
  quoting "<button class=`" ++ cstr class ++ quoting "` onclick=`" ++ cstr action ++ cstr "('" ++ name ++ quoting "')`>" ++
  cstr label ++ cstr "</button>".
Definition alert_row (al : AlertManager.Alert) : cstring :=
  let name := AlertManager.name al in
  cstr "<tr>" ++ cstr "<td>" ++ name ++ cstr "</td>" ++
  quoting "<td class=`" ++ cstr (get_alert_severity_color (AlertManager.severity al)) ++ quoting "`>" ++
  cstr (severity_name (AlertManager.severity al)) ++ cstr "</td>" ++ cstr "<td>" ++ AlertManager.message al ++ cstr "</td>" ++
  cstr "<td>" ++ put_time (AlertManager.timestamp al / SECOND) 32 ++ cstr "</td>" ++ quoting "<td class=`actions`>" ++
  button "ack-btn" "acknowledgeAlert" "Acknowledge" name ++ button "silence-btn" "silenceAlert" "Silence 1h" name ++
  cstr "</td>" ++ cstr "</tr>".
Definition format_alert_table (als : list AlertManager.Alert) : cstring :=
  quoting "<table class=`alert-table`>" ++
  cstr "<tr><th>Alert Name</th><th>Severity</th><th>Message</th><th>Timestamp</th><th>Actions</th></tr>" ++
  concat (alert_row <$> als) ++ cstr "</table>" ++
  match als with [] => cstr "<p>No active alerts. System is healthy!</p>" | _ => [] end.

Definition page_head : cstring := quoting "<!DOCTYPE html>
<html>
<head>
    <title>RTES Alerts</title>
    <style>
        body { font-family: Arial, sans-serif; margin: 20px; }
        .header { background: #e74c3c; color: white; padding: 20px; margin: -20px -20px 20px -20px; }
        .alert-table { width: 100%; border-collapse: collapse; margin-top: 20px; }
        .alert-table th, .alert-table td { border: 1px solid #ddd; padding: 12px; text-align: left; }
        .alert-table th { background-color: #f2f2f2; }
        .severity-critical { background-color: #e74c3c; color: white; }
        .severity-warning { background-color: #f39c12; color: white; }
        .severity-info { background-color: #3498db; color: white; }
        .actions button { margin: 2px; padding: 5px 10px; border: none; border-radius: 3px; cursor: pointer; }
        .ack-btn { background: #27ae60; color: white; }
        .silence-btn { background: #95a5a6; color: white; }
    </style>
</head>
<body>
    <div class=`header`>
        <h1>RTES Alert Management</h1>
        <p>Active alerts and incident management</p>
    </div>
".
Definition page_end : cstring := quoting "
</body>
</html>".
Definition render_alerts_page (a : AlertManager.t) : cstring :=
  page_head ++ format_alert_table (AlertManager.get_active_alerts a) ++ page_end.

Definition get_alert_history : cstring := quoting "{`history`: []}".
Definition acknowledge_alert (now : Z) (tid : nat) (alert_id : cstring) (l : StructuredLogger.t) (a : AlertManager.t)
    : list cstring * AlertManager.t :=
  let '(lines, a) := AlertManager.resolve_alert iterate now tid alert_id l a in
  (lines ++ [StructuredLogger.log iterate now tid INFO (cstr "AlertingDashboard") (cstr "Alert acknowledged")
               [(cstr "alert_id", alert_id)] l], a).
(** Nothing is silenced. *)
Definition silence_alert (now : Z) (tid : nat) (alert_id : cstring) (minutes : Z) (l : StructuredLogger.t) (a : AlertManager.t)
    : list cstring * AlertManager.t :=
  ([StructuredLogger.log iterate now tid INFO (cstr "AlertingDashboard") (cstr "Alert silenced")
      [(cstr "alert_id", alert_id); (cstr "duration_minutes", print_i64 minutes)] l], a).

End alerting.
End AlertingDashboard.

(** ** The answers of the server *)

Module DashboardClaims.
Import OperationalDashboard.

(** An answer is read back as its status, the length of its body and the body. *)
Lemma read_http status content_type body code :
  (status, code) ∈ [("200 OK", 200); ("404 Not Found", 404)]%string ->
  content_type ∈ ["text/html"; "text/plain"; "application/json"]%string -> Z.of_nat (length body) < 2 ^ 64 ->
  read_response (http_response status content_type body) = Some (code, Z.of_nat (length body), body).
Proof.
  intros Hs Hc Hb. assert (u64 (Z.of_nat (length body))) as Hu by u_lia.
  destruct (digits_no_cr _ Hu) as [Hcr Hdig]. destruct (print_u64_spec _ Hu) as (Hp & _ & _).
  set (n := print_u64 (Z.of_nat (length body))) in *.
  set (h := cstr "HTTP/1.1 " ++ cstr status). set (ct := cstr "Content-Type: " ++ cstr content_type).
  assert (http_response status content_type body =
    h ++ CRLF ++ ct ++ CRLF ++ (cstr "Content-Length: " ++ n) ++ CRLF ++ CRLF ++ body) as Hr.
  { unfold http_response, h, ct. fold n. by rewrite -!app_assoc. }
  assert ((13 ∉ h) /\ (13 ∉ ct) /\ parse_digits (take_while digit (drop 9 (http_response status content_type body))) = code /\
    head ct <> None /\ head ct <> Some 13 /\
    exists j, search (cstr "Content-Length: ") (http_response status content_type body) = Some j /\
      drop (j + 16) (http_response status content_type body) = n ++ CRLF ++ CRLF ++ body)
    as (Hh & Hct & Hcode & Hct1 & Hct2 & j & Hj & Hdj).
  { unfold http_response. fold n. generalize (n ++ CRLF ++ CRLF ++ body). intros r.
    rewrite !elem_of_cons elem_of_nil in Hs. rewrite !elem_of_cons elem_of_nil in Hc.
    destruct Hs as [[= -> ->]|[[= -> ->]|[]]]; destruct Hc as [->|[->|[->|[]]]]; unfold h, ct;
      (split; [by no_cr|]; split; [by no_cr|]; split; [reflexivity|]; split; [done|]; split; [done|]; eexists; split; reflexivity). }
  assert (search HEAD_END (http_response status content_type body)
    = Some (length h + 2 + (length ct + 2 + length (cstr "Content-Length: " ++ n)))%nat) as Hend.
  { rewrite Hr. rewrite skip_line; [done..|by destruct ct|by destruct ct|]. rewrite skip_line; [done..|].
    rewrite last_line; [apply not_elem_of_app; split; [by no_cr|done]|done]. }
  unfold read_response. rewrite Hend. cbn [mbind option_bind]. rewrite Hj. cbn [mbind option_bind]. rewrite Hdj Hcode.
  f_equal. f_equal; [f_equal|].
  - destruct (take_drop_while digit n (CRLF ++ CRLF ++ body)) as [-> _]; done.
  - rewrite Hr.
    assert (forall (x y : cstring) k, k = length x -> drop k (x ++ y) = y) as Hdrop by (intros ??? ->; apply drop_app_length).
    rewrite !app_assoc. apply Hdrop. rewrite !length_app. cbn [length CRLF]. lia.
Qed.

Section answers.
Variable iterate : walk.
Hypothesis iterate_perm : forall V (m : gmap cstring V), iterate V m ≡ₚ map_to_list m.

Definition body_of (received : list Z) (m : MetricsCollector.t) (a : AlertManager.t) (d : t) : option (Z * cstring) :=
  match route_of received with
  | DashboardRoute => Some (200, render_dashboard iterate m a d)
  | MetricsRoute => (fun s => (200, s)) <$> MetricsCollector.export_prometheus iterate m
  | AlertsRoute => Some (200, get_alerts_data a)
  | NoRoute => Some (404, cstr "404 Not Found")
  end.

(** Whatever a client sends, it is answered: a client that reads the answer finds
    the status of the route, a declared length that is the length of the body, and
    the body. *)
Theorem dashboard_answers received m a d :
  (forall name vs, MetricsCollector.histograms_ m !! name = Some vs -> Z.of_nat (length vs) < 2 ^ 53) ->
  exists text code body, handle_request iterate received m a d = Some text /\ body_of received m a d = Some (code, body) /\
    (Z.of_nat (length body) < 2 ^ 64 -> read_response text = Some (code, Z.of_nat (length body), body)).
Proof using iterate_perm.
  intros Hh. unfold handle_request, body_of, get_metrics_data. destruct (export_defined iterate iterate_perm m Hh) as [metrics ->].
  destruct (route_of received); cbn [mbind option_bind fmap option_fmap option_map]; eexists _, _, _;
    (split; [reflexivity|]; split; [reflexivity|]; intros Hb; apply read_http; [|set_solver|done]); set_solver.
Qed.

End answers.

(** ** Stopping the server *)

(** A thread that waits for a connection is not stopped by the flag: the join does
    not return, and the thread's next step takes a connection or a failed accept. *)
Lemma stop_waits_for_accept iterate m a s text s' :
  thread s = Accepting -> server_thread_ (board s) = true ->
  stop_join (stop_begin s) = None /\ (server_step iterate m a (stop_begin s) text s' -> thread s' = Testing).
Proof.
  intros Ht Hj. split.
  - unfold stop_join, stop_begin. cbn [board server_thread_ thread]. by rewrite Hj Ht.
  - intros H. unfold stop_begin in H. rewrite Ht in H. by inversion H.
Qed.

(** After the flag is cleared a thread that is not waiting ends without serving. *)
Lemma stop_ends_testing iterate m a s text s' :
  thread s = Testing -> server_step iterate m a (stop_begin s) text s' -> thread s' = Gone /\ text = None.
Proof. intros Ht H. unfold stop_begin in H. rewrite Ht in H. inversion H; subst; by cbn in *. Qed.

(** A server whose socket could not be opened still counts as running: starting it
    again does nothing. *)
Lemma failed_server_stays iterate m a s s' port port' :
  start_server port s = Some s' -> server_running_ (board s) = false ->
  server_step iterate m a s' None (mkServer Gone (board s')) /\ start_server port' (mkServer Gone (board s')) = Some (mkServer Gone (board s')).
Proof.
  intros Hs Hr. unfold start_server in Hs. rewrite Hr in Hs. destruct (server_thread_ (board s)); [done|]. injection Hs as <-.
  split; [constructor|]. done.
Qed.

(** ** The alerts page *)

(** Every unresolved alert has its row on the page. *)
Lemma alert_on_page a al :
  al ∈ AlertManager.get_active_alerts a ->
  exists pre post, AlertingDashboard.render_alerts_page a = pre ++ AlertingDashboard.alert_row al ++ post.
Proof.
  intros Hin. unfold AlertingDashboard.render_alerts_page, AlertingDashboard.format_alert_table.
  apply list_elem_of_split in Hin as (l1 & l2 & ->). rewrite fmap_app concat_app. cbn [fmap list_fmap concat].
  rewrite -!app_assoc. eexists (_ ++ _ ++ _ ++ _), _. rewrite -!app_assoc. reflexivity.
Qed.

Lemma resolve_first_active n als als' :
  AlertManager.resolve_first n als = Some als' ->
  exists l1 al l2, filter (fun al => AlertManager.resolved al = false) als = l1 ++ al :: l2 /\
    filter (fun al => AlertManager.resolved al = false) als' = l1 ++ l2 /\ AlertManager.name al = n /\
    Forall (fun al => AlertManager.name al <> n) l1.
Proof.
  revert als'. induction als as [|al als IH]; intros als' H; [done|]. cbn [AlertManager.resolve_first] in H.
  destruct (decide (AlertManager.resolved al = false)) as [Hr|Hr].
  - rewrite Hr in H. rewrite (filter_cons_True _ al) //. destruct (decide (AlertManager.name al = n)) as [Hn|Hn].
    + rewrite bool_decide_true // in H. injection H as <-. exists [], al, (filter (fun al => AlertManager.resolved al = false) als).
      rewrite filter_cons_False //.
    + rewrite bool_decide_false // in H. cbn [andb] in H. destruct (AlertManager.resolve_first n als) as [x|]; [|done].
      injection H as <-. destruct (IH x eq_refl) as (l1 & b & l2 & E & E' & Hb & Hl). exists (al :: l1), b, l2.
      rewrite E (filter_cons_True _ al) // E'. split; [done|]. split; [done|]. split; [done|]. by constructor.
  - rewrite (filter_cons_False _ al) //. apply not_false_is_true in Hr. rewrite Hr andb_false_r in H.
    destruct (AlertManager.resolve_first n als) as [x|]; [|done]. injection H as <-.
    destruct (IH x eq_refl) as (l1 & b & l2 & E & E' & Hb & Hl). exists l1, b, l2. rewrite E. split; [done|].
    rewrite (filter_cons_False _ al) //. by rewrite Hr.
Qed.

(** Acknowledging a name takes its oldest unresolved alert off the page and leaves
    the others; a name without one changes nothing. *)
Theorem acknowledge_resolves iterate now tid n l a :
  let a' := (AlertingDashboard.acknowledge_alert iterate now tid n l a).2 in
  AlertManager.alert_conditions_ a' = AlertManager.alert_conditions_ a /\
  (AlertManager.get_active_alerts a' = AlertManager.get_active_alerts a /\ AlertManager.resolve_first n (AlertManager.active_alerts_ a) = None \/
   exists l1 al l2, AlertManager.get_active_alerts a = l1 ++ al :: l2 /\ AlertManager.get_active_alerts a' = l1 ++ l2 /\
     AlertManager.name al = n /\ Forall (fun al => AlertManager.name al <> n) l1).
Proof.
  cbn zeta. unfold AlertingDashboard.acknowledge_alert, AlertManager.resolve_alert.
  destruct (AlertManager.resolve_first n (AlertManager.active_alerts_ a)) as [als|] eqn:E; cbn [snd].
  - split; [done|]. right. unfold AlertManager.get_active_alerts. cbn [AlertManager.active_alerts_]. by apply resolve_first_active.
  - split; [done|]. by left.
Qed.

(** An alert's text is put into the page as it is. *)
Example alert_markup :
  OperationalDashboard.alert_text (AlertManager.mkAlert (cstr "<b>") AlertManager.WARNING (cstr "x") 0 ∅ false) =
  quoting "<div class=`alert warning`><strong><b></strong><br>x</div>".
Proof. by vm_compute. Qed.

(** A panel without values shows zeros; the request line may be anywhere. *)
Example widget_without_value :
  render_widget walk_map MetricsCollector.init AlertManager.init (metric "cpu_usage" "CPU Usage" "system_cpu_percent") =
  quoting "<div class=`widget`><h3>CPU Usage</h3><div class=`metric`>0.00</div></div>" /\
  route_of (cstr "POST /x?q=GET /dashboard HTTP/1.1") = DashboardRoute.
Proof. by vm_compute. Qed.

Lemma dashboard_answers_witness :
  exists text, handle_request walk_map (cstr "GET /api/alerts HTTP/1.1") MetricsCollector.init AlertManager.init init = Some text /\
    read_response text = Some (200, 13, quoting "{`alerts`:[]}").
Proof.
  destruct (dashboard_answers walk_map walk_map_perm (cstr "GET /api/alerts HTTP/1.1") MetricsCollector.init AlertManager.init init)
    as (text & code & body & E & Eb & H).
  { intros name vs Hn. by rewrite lookup_empty in Hn. }
  exists text. split; [exact E|]. vm_compute in Eb. injection Eb as <- <-. by apply H.
Defined.

End DashboardClaims.
