(* ===== verification/Deployment.v ===== *)
(** * Deployment (deployment_manager.hpp/.cpp)

    The rolling update as a state machine: the deployment thread's program
    counter is part of the state, a step is what the thread does between two
    sleeps, and the clock enters as the time since the current phase began.
    The traffic controller, the rollback handler and the checks are functions on
    the state [W] of the services.  [std::terminate] - an exception that leaves
    the thread, or assigning to a thread that was not joined - is [Terminated].
    Then the probes and the health endpoints. *)

From S2P Require Import Prelude Types ErrorHandling Double MemorySafety Strings Formatting SecureConfig.
Import HealthCheckManager.

Inductive DeploymentPhase := INITIALIZING | HEALTH_CHECK | TRAFFIC_RAMP | FULL_DEPLOYMENT | ROLLBACK | FAILED.

Record DeploymentConfig := mkDeployment {
  version : cstring;
  target_env : Environment;
  health_check_timeout : Z;    (* seconds, as the time a step is given *)
  traffic_ramp_duration : Z;
  traffic_ramp_step : double;
  enable_canary : bool;
  required_health_checks : list cstring
}.

(** ** RollingUpdateManager *)

Module RollingUpdateManager.
Section manager.
Context {W : Type}.

(** Where the deployment thread is. *)
Inductive pc := Begin | HealthWait | Ramp (current_traffic : double) | Full | Final | Finished.

Record t := mk {
  current_phase_ : DeploymentPhase;
  traffic_percentage_ : double;
  deployment_active_ : bool;
  current_config_ : DeploymentConfig;
  traffic_controller_ : option (double -> W -> outcome unit * W);
  rollback_handler_ : option (W -> outcome unit * W);
  health_manager : HealthCheckManager.t W;
  deployment_thread_ : option pc   (* [None]: not joinable *)
}.
Implicit Types s : t.

Definition set_phase x s : t :=
  mk x (traffic_percentage_ s) (deployment_active_ s) (current_config_ s) (traffic_controller_ s) (rollback_handler_ s)
    (health_manager s) (deployment_thread_ s).
Definition set_traffic x s : t :=
  mk (current_phase_ s) x (deployment_active_ s) (current_config_ s) (traffic_controller_ s) (rollback_handler_ s)
    (health_manager s) (deployment_thread_ s).
Definition set_active x s : t :=
  mk (current_phase_ s) (traffic_percentage_ s) x (current_config_ s) (traffic_controller_ s) (rollback_handler_ s)
    (health_manager s) (deployment_thread_ s).
Definition set_thread x s : t :=
  mk (current_phase_ s) (traffic_percentage_ s) (deployment_active_ s) (current_config_ s) (traffic_controller_ s)
    (rollback_handler_ s) (health_manager s) x.
Definition set_config x s : t :=
  mk (current_phase_ s) (traffic_percentage_ s) (deployment_active_ s) x (traffic_controller_ s) (rollback_handler_ s)
    (health_manager s) (deployment_thread_ s).

Definition register_traffic_controller f s : t :=
  mk (current_phase_ s) (traffic_percentage_ s) (deployment_active_ s) (current_config_ s) (Some f) (rollback_handler_ s)
    (health_manager s) (deployment_thread_ s).
Definition register_rollback_handler f s : t :=
  mk (current_phase_ s) (traffic_percentage_ s) (deployment_active_ s) (current_config_ s) (traffic_controller_ s) (Some f)
    (health_manager s) (deployment_thread_ s).

(** What a call or a step leads to. *)
Inductive next := Running (s : t) (w : W) | Terminated (w : W).

Definition start_deployment (config : DeploymentConfig) s (w : W) : Result unit * next :=
  if deployment_active_ s then (err DEPLOYMENT_ALREADY_ACTIVE, Running s w)
  else
    let s := set_traffic (double_of_Z 0) (set_phase INITIALIZING (set_active true (set_config config s))) in
    match deployment_thread_ s with
    | Some _ => (Value tt, Terminated w)
    | None => (Value tt, Running (set_thread (Some Begin) s) w)
    end.

(** The controller, when there is one; [true]: it threw. *)
Definition control (x : double) s (w : W) : bool * W :=
  match traffic_controller_ s with
  | None => (false, w)
  | Some f => match f x w with (Done _, w) => (false, w) | (_, w) => (true, w) end
  end.

(** The handler's exceptions are caught, the controller's are not. *)
Definition execute_rollback s (w : W) : bool * t * W :=
  let w := match rollback_handler_ s with None => w | Some f => (f w).2 end in
  let '(threw, w) := control (double_of_Z 0) s w in
  (threw, if threw then s else set_traffic (double_of_Z 0) s, w).

(** [abort_deployment] up to the join; [true]: it threw before. *)
Definition abort_begin s (w : W) : bool * t * W :=
  let s := set_phase ROLLBACK s in
  let '(threw, s, w) := execute_rollback s w in
  (threw, if threw then s else set_active false s, w).

(** Called by the deployment thread: the thread cannot join itself, the join
    throws; the handler of [deployment_loop] aborts again, which throws out of
    the thread. *)
Definition abort_in_thread s (w : W) : next :=
  let '(_, s, w) := abort_begin s w in
  let '(_, _, w) := abort_begin s w in
  Terminated w.

(** Called by another thread: afterwards it waits for the deployment thread. *)
Definition abort_deployment s (w : W) : next :=
  let '(threw, s, w) := abort_begin s w in
  if threw then Terminated w else Running s w.
Definition join_done s : t := match deployment_thread_ s with Some Finished => set_thread None s | _ => s end.

Definition validate_health_checks s (w : W) : bool :=
  forallb (fun name =>
    match get_detailed_status (health_manager s) w !! name with
    | None | Some UNHEALTHY => false
    | _ => true
    end) (required_health_checks (current_config_ s)) &&
  negb (bool_decide (get_overall_status (health_manager s) w = UNHEALTHY)).

Definition double_min (a b : double) : double := if double_lt b a then b else a.

(** One step of [deployment_loop]; [elapsed]: the time since the health phase or
    the ramp began. *)
Definition deployment_step (elapsed : Z) s (w : W) : next :=
  match deployment_thread_ s with
  | None | Some Finished => Running s w
  | Some Begin => Running (set_thread (Some HealthWait) (set_phase HEALTH_CHECK s)) w
  | Some HealthWait =>
      if validate_health_checks s w then
        Running (if enable_canary (current_config_ s)
                 then set_thread (Some (Ramp (double_of_Z 0))) (set_phase TRAFFIC_RAMP s)
                 else set_thread (Some Full) s) w
      else if elapsed <? health_check_timeout (current_config_ s) then Running s w
      else abort_in_thread (set_phase FAILED s) w
  | Some (Ramp current_traffic) =>
      if double_lt current_traffic (double_of_Z 1) && (elapsed <? traffic_ramp_duration (current_config_ s)) then
        let current_traffic := double_min (double_of_Z 1) (double_add current_traffic (traffic_ramp_step (current_config_ s))) in
        let '(threw, w) := control current_traffic s w in
        if threw then abort_in_thread s w
        else
          let s := set_traffic current_traffic s in
          if validate_health_checks s w then Running (set_thread (Some (Ramp current_traffic)) s) w
          else abort_in_thread s w
      else Running (set_thread (Some Full) s) w
  | Some Full =>
      let s := set_phase FULL_DEPLOYMENT s in
      let '(threw, w) := control (double_of_Z 1) s w in
      if threw then abort_in_thread s w
      else Running (set_thread (Some Final) (set_traffic (double_of_Z 1) s)) w
  | Some Final =>
      if validate_health_checks s w then Running (set_thread (Some Finished) (set_active false s)) w
      else abort_in_thread s w
  end.

Fixpoint deployment_run (times : list Z) s (w : W) : next :=
  match times with
  | [] => Running s w
  | elapsed :: times =>
      match deployment_step elapsed s w with
      | Running s w => deployment_run times s w
      | terminated => terminated
      end
  end.

End manager.
Arguments t : clear implicits.
Arguments next : clear implicits.
End RollingUpdateManager.

(** ** Probes *)

Module Probes.
Section probes.
Context {W : Type}.

(** The checks in the order of the iteration over the map. *)
Definition checks : Type := list (cstring * (W -> outcome bool)).

Definition passes (check : W -> outcome bool) (w : W) : bool := match check w with Done b => b | _ => false end.

(** ReadinessProbe *)
Fixpoint is_ready (cs : checks) (w : W) : bool :=
  match cs with
  | [] => true
  | (_, check) :: cs => if passes check w then is_ready cs w else false
  end.

Definition get_failed_checks (cs : checks) (w : W) : list cstring :=
  fst <$> filter (fun c => passes c.2 w = false) cs.

(** The map as the list its iteration gives; a name registered again is replaced. *)
Definition register_check (name : cstring) (check : W -> outcome bool) (cs : checks) : checks :=
  match list_find (fun c => c.1 = name) cs with
  | Some (i, _) => <[i := (name, check)]> cs
  | None => (name, check) :: cs
  end.

(** LivenessProbe: nanoseconds of the system clock. *)
Definition is_alive (now last_heartbeat : Z) (cs : checks) (w : W) : bool :=
  if 30 * 1000000000 <? now - last_heartbeat then false else is_ready cs w.

End probes.
End Probes.

(** ** DeploymentHealthEndpoints *)

Module DeploymentHealthEndpoints.

Definition quoted (s : cstring) : cstring := [34] ++ s ++ [34].

Fixpoint json_fields (details : list (cstring * cstring)) (first : bool) : cstring :=
  match details with
  | [] => []
  | (key, value) :: details =>
      (if first then [] else [44]) ++ quoted key ++ [58] ++ quoted value ++ json_fields details false
  end.

(** [details] in the order of the iteration. *)
Definition create_json_response (status : cstring) (details : list (cstring * cstring)) : cstring :=
  [123] ++ quoted (cstr "status") ++ [58] ++ quoted status ++
  (match details with
   | [] => []
   | _ => [44] ++ quoted (cstr "details") ++ [58; 123] ++ json_fields details true ++ [125]
   end) ++ [125].

Definition status_name (s : HealthStatus) : cstring :=
  match s with HEALTHY => cstr "healthy" | DEGRADED => cstr "degraded" | UNHEALTHY => cstr "unhealthy" end.

Section endpoints.
Context {W : Type}.

Definition handle_health_request (m : HealthCheckManager.t W) (w : W) (order : list cstring) : cstring :=
  create_json_response (status_name (get_overall_status m w))
    (omap (fun name => (fun s => (name, status_name s)) <$> get_detailed_status m w !! name) order).

Fixpoint join (sep : cstring) (l : list cstring) : cstring :=
  match l with [] => [] | [x] => x | x :: l => x ++ sep ++ join sep l end.

(** [ready_first]: the order of the two details. *)
Definition handle_ready_request (cs : @Probes.checks W) (w : W) (ready_first : bool) : cstring :=
  let ready := Probes.is_ready cs w in
  let flag := (cstr "ready", if ready then cstr "true" else cstr "false") in
  let failed := Probes.get_failed_checks cs w in
  create_json_response (if ready then cstr "ready" else cstr "not_ready")
    (match failed with
     | [] => [flag]
     | _ => let reasons := (cstr "failed_checks", join [44] failed) in
            if ready_first then [flag; reasons] else [reasons; flag]
     end).

Inductive route := HealthRoute | ReadyRoute | LiveRoute | MetricsRoute | NoRoute.

(** The first text found anywhere before the first zero byte; every answer is a 200. *)
Definition route_of (bytes : cstring) : route :=
  let buffer := take_while (fun c => negb (c =? 0)) bytes in
  if contains buffer (cstr "GET /health") then HealthRoute
  else if contains buffer (cstr "GET /ready") then ReadyRoute
  else if contains buffer (cstr "GET /live") then LiveRoute
  else if contains buffer (cstr "GET /metrics") then MetricsRoute
  else NoRoute.

(** Seconds, rounded towards zero. *)
Definition handle_live_request (now last_heartbeat : Z) (cs : @Probes.checks W) (w : W) (alive_first : bool) : cstring :=
  let alive := Probes.is_alive now last_heartbeat cs w in
  let flag := (cstr "alive", if alive then cstr "true" else cstr "false") in
  let age := (cstr "last_heartbeat_seconds_ago", print_i64 (Z.quot (now - last_heartbeat) 1000000000)) in
  create_json_response (if alive then cstr "alive" else cstr "dead") (if alive_first then [flag; age] else [age; flag]).

Definition http_response (response : cstring) : cstring :=
  cstr "HTTP/1.1 200 OK" ++ [13; 10] ++ cstr "Content-Type: application/json" ++ [13; 10] ++
  cstr "Content-Length: " ++ print_u64 (Z.of_nat (length response)) ++ [13; 10] ++ [13; 10] ++ response.

Definition phase_name (p : DeploymentPhase) : cstring :=
  match p with
  | INITIALIZING => cstr "initializing"
  | HEALTH_CHECK => cstr "health_check"
  | TRAFFIC_RAMP => cstr "traffic_ramp"
  | FULL_DEPLOYMENT => cstr "full_deployment"
  | ROLLBACK => cstr "rollback"
  | FAILED => cstr "failed"
  end.

(** [order]: the order of the details. *)
Definition handle_metrics_request (order : list (cstring * cstring) -> list (cstring * cstring))
  (d : RollingUpdateManager.t W) : cstring :=
  create_json_response (cstr "ok") (order
    [(cstr "deployment_active", if RollingUpdateManager.deployment_active_ d then cstr "1" else cstr "0");
     (cstr "traffic_percentage", to_string_double (RollingUpdateManager.traffic_percentage_ d));
     (cstr "deployment_phase", phase_name (RollingUpdateManager.current_phase_ d))]).

End endpoints.
End DeploymentHealthEndpoints.

(** ** The rolling update *)

Section rolling.
Context {W : Type}.
Import RollingUpdateManager.
Implicit Types (s : t W) (w : W).

Definition always_healthy s : Prop := forall w, validate_health_checks s w = true.
Definition quiet s : Prop := forall x w, (control x s w).1 = false.

(** The time of both waiting phases is over. *)
Definition late (e : Z) s : Prop :=
  health_check_timeout (current_config_ s) <= e /\ traffic_ramp_duration (current_config_ s) <= e.

(** Steps to the end once the time is over. *)
Definition distance (p : pc) : nat :=
  match p with Begin => 5 | HealthWait => 4 | Ramp _ => 3 | Full => 2 | Final => 1 | Finished => 0 end.

(** A deployment whose checks pass and whose controller does not throw. *)
Record going (p : pc) (s : t W) : Prop := {
  go_thread : deployment_thread_ s = Some p;
  go_healthy : always_healthy s;
  go_quiet : quiet s;
  go_full : (distance p <= 1)%nat -> current_phase_ s = FULL_DEPLOYMENT /\ traffic_percentage_ s = double_of_Z 1;
  go_done : p = Finished -> deployment_active_ s = false
}.

Lemma control_quiet x s w : quiet s -> exists w', control x s w = (false, w').
Proof. intros Hq. specialize (Hq x w). destruct (control x s w) as [b w']. simpl in Hq. subst b. by exists w'. Qed.

(** The thread always takes its next step, and gets nearer to the end when the
    time of its phase is over. *)
Lemma going_step e p s w :
  going p s -> exists p' s' w', deployment_step e s w = Running s' w' /\ going p' s' /\
    current_config_ s' = current_config_ s /\
    (distance p' <= distance p)%nat /\ (late e s -> (distance p' <= distance p - 1)%nat).
Proof.
  intros [Ht Hh Hq Hf Hd]. unfold deployment_step. rewrite Ht. destruct p as [| |cur| | |].
  - eexists HealthWait, _, _. split; [done|]. split; [split; try done; simpl; lia|]. split; [done|]. simpl; lia.
  - rewrite (Hh w). destruct (enable_canary _).
    + eexists (Ramp _), _, _. split; [done|]. split; [split; try done; simpl; lia|]. split; [done|]. simpl; lia.
    + eexists Full, _, _. split; [done|]. split; [split; try done; simpl; lia|]. split; [done|]. simpl; lia.
  - destruct (double_lt cur (double_of_Z 1) && _) eqn:E.
    + destruct (control_quiet (double_min (double_of_Z 1) (double_add cur (traffic_ramp_step (current_config_ s)))) s w Hq)
        as [w' ->].
      match goal with |- context [validate_health_checks ?s1 w'] => assert (validate_health_checks s1 w' = true) as -> by exact (Hh w') end.
      eexists (Ramp _), _, _. split; [done|]. split; [split; try done; simpl; lia|].
      split; [done|]. split; [simpl; lia|]. intros [_ Hl]. apply andb_prop in E as [_ E]. lia.
    + eexists Full, _, _. split; [done|]. split; [split; try done; simpl; lia|]. split; [done|]. simpl; lia.
  - destruct (control_quiet (double_of_Z 1) (set_phase FULL_DEPLOYMENT s) w Hq) as [w' ->].
    eexists Final, _, _. split; [done|]. split; [by split|]. split; [done|]. simpl; lia.
  - rewrite (Hh w). eexists Finished, _, _. split; [done|]. split; [|split; [done|simpl; lia]].
    split; try done. intros _. by apply Hf.
  - eexists Finished, s, w. split; [done|]. split; [by split|]. split; [done|]. simpl; lia.
Qed.

(** Once every further step is late, five more are enough. *)
Lemma going_run times late_times : forall p s w, going p s -> Forall (fun e => late e s) late_times ->
  exists p' s' w', deployment_run (times ++ late_times) s w = Running s' w' /\ going p' s' /\
    (distance p' <= distance p - length late_times)%nat.
Proof.
  assert (forall e s s', current_config_ s' = current_config_ s -> late e s -> late e s') as Hmono.
  { intros e s s' E. unfold late. by rewrite E. }
  induction times as [|b times IH]; cbn [app].
  - induction late_times as [|b times IH]; intros p s w Hg Hl; [by exists p, s, w; split_and!; try done; simpl; lia|].
    apply Forall_cons in Hl as [Hb Hl].
    cbn [deployment_run]. destruct (going_step b p s w Hg) as (p1 & s1 & w1 & -> & Hg1 & Hc & Hle & Hlt).
    destruct (IH p1 s1 w1 Hg1) as (p' & s' & w' & -> & Hg' & Hd).
    { eapply Forall_impl; [exact Hl|]. intros e. by apply Hmono. }
    exists p', s', w'. split_and!; try done. specialize (Hlt Hb). simpl. lia.
  - intros p s w Hg Hl.
    cbn [deployment_run]. destruct (going_step b p s w Hg) as (p1 & s1 & w1 & -> & Hg1 & Hc & Hle & Hlt).
    destruct (IH p1 s1 w1 Hg1) as (p' & s' & w' & -> & Hg' & Hd).
    { eapply Forall_impl; [exact Hl|]. intros e. by apply Hmono. }
    exists p', s', w'. split_and!; try done. lia.
Qed.

(** An abort from outside. *)
Lemma going_abort p s w : going p s -> (2 <= distance p)%nat ->
  exists s' w', abort_deployment s w = Running s' w' /\ going p s' /\ current_config_ s' = current_config_ s /\ current_phase_ s' = ROLLBACK /\
    traffic_percentage_ s' = double_of_Z 0 /\ deployment_active_ s' = false.
Proof.
  intros [Ht Hh Hq Hf Hd] Hp. unfold abort_deployment, abort_begin, execute_rollback.
  set (w1 := match rollback_handler_ _ with None => w | Some f => (f w).2 end).
  destruct (control_quiet (double_of_Z 0) (set_phase ROLLBACK s) w1 Hq) as [w' ->].
  eexists _, w'. split; [done|]. split; [|done].
  split; [done|exact Hh|exact Hq|lia|done].
Qed.

(** The effect of one rollback on the services. *)
Definition rolled_back s w : W :=
  (control (double_of_Z 0) s (match rollback_handler_ s with None => w | Some f => (f w).2 end)).2.

Lemma abort_begin_quiet s w : quiet s ->
  abort_begin s w = (false, set_active false (set_traffic (double_of_Z 0) (set_phase ROLLBACK s)), rolled_back s w).
Proof.
  intros Hq. unfold abort_begin, execute_rollback, rolled_back. cbn [rollback_handler_ set_phase].
  change (control (double_of_Z 0) (set_phase ROLLBACK s)) with (control (double_of_Z 0) s).
  set (w1 := match rollback_handler_ s with None => w | Some f => (f w).2 end).
  destruct (control_quiet (double_of_Z 0) s w1 Hq) as [w' ->]. done.
Qed.

Lemma abort_rolls_back_twice s w : quiet s -> abort_in_thread s w = Terminated (rolled_back s (rolled_back s w)).
Proof.
  intros Hq. unfold abort_in_thread. rewrite abort_begin_quiet //.
  by rewrite (abort_begin_quiet (set_active false (set_traffic (double_of_Z 0) (set_phase ROLLBACK s)))).
Qed.
End rolling.

(** C37: a healthy deployment completes, and an abort does not stop it.  While the
    checks pass and the traffic controller does not throw, from any point of a
    deployment, after any number of steps at any times, five steps after the time is
    over the deployment is finished with full traffic in the phase
    [FULL_DEPLOYMENT]; the same holds when another thread aborts it before its
    last two steps: the rollback to no traffic is overridden by the deployment
    thread, which never looks at the abort. *)
Theorem deployment_completes {W} p (s : RollingUpdateManager.t W) w before after :
  going p s -> length after = 5%nat -> Forall (fun elapsed => late elapsed s) after ->
  let times := before ++ after in
  let complete s' :=
    RollingUpdateManager.deployment_thread_ s' = Some RollingUpdateManager.Finished /\
    RollingUpdateManager.current_phase_ s' = FULL_DEPLOYMENT /\
    RollingUpdateManager.traffic_percentage_ s' = double_of_Z 1 /\
    RollingUpdateManager.deployment_active_ s' = false in
  (exists s' w', RollingUpdateManager.deployment_run times s w = RollingUpdateManager.Running s' w' /\ complete s') /\
  ((2 <= distance p)%nat -> exists s1 w1 s' w',
     RollingUpdateManager.abort_deployment s w = RollingUpdateManager.Running s1 w1 /\
     RollingUpdateManager.traffic_percentage_ s1 = double_of_Z 0 /\
     RollingUpdateManager.deployment_run times s1 w1 = RollingUpdateManager.Running s' w' /\ complete s').
Proof.
  intros Hg H5 Hl times complete.
  assert (forall (s1 : RollingUpdateManager.t W) w, going p s1 ->
    RollingUpdateManager.current_config_ s1 = RollingUpdateManager.current_config_ s -> exists s' w',
    RollingUpdateManager.deployment_run times s1 w = RollingUpdateManager.Running s' w' /\ complete s') as Hrun.
  { intros s1 w1 Hg1 Hc. destruct (going_run before after p s1 w1 Hg1) as (p' & s' & w' & E & Hg' & Hd).
    { eapply Forall_impl; [exact Hl|]. intros e. unfold late. by rewrite Hc. }
    assert (distance p <= 5)%nat by (destruct p; simpl; lia).
    destruct Hg' as [Ht _ _ Hf Ha]. destruct p'; simpl in Hd; try lia.
    exists s', w'. split; [done|]. destruct Hf as [Hp Htr]; [simpl; lia|]. split_and!; try done. by apply Ha. }
  split; [by eapply Hrun|]. intros Hp.
  destruct (going_abort p s w Hg Hp) as (s1 & w1 & E & Hg1 & Hc & _ & Htr & _).
  destruct (Hrun s1 w1 Hg1 Hc) as (s' & w' & E' & Hc'). by exists s1, w1, s', w'.
Qed.

(** A manager with nothing registered, just started. *)
Definition ex_manager : RollingUpdateManager.t nat :=
  RollingUpdateManager.mk INITIALIZING (double_of_Z 0) true
    (mkDeployment (cstr "1.0") STAGING 30 300 (double_div (double_of_Z 1) (double_of_Z 10)) true []) None None [] (Some RollingUpdateManager.Begin).

Lemma deployment_completes_witness :
  exists s' w', RollingUpdateManager.deployment_run ([0; 1; 0; 10] ++ replicate 5 300) ex_manager 0%nat
    = RollingUpdateManager.Running s' w' /\
    RollingUpdateManager.traffic_percentage_ s' = double_of_Z 1.
Proof.
  destruct (deployment_completes RollingUpdateManager.Begin ex_manager 0%nat [0; 1; 0; 10] (replicate 5 300))
    as [(s' & w' & E & _ & _ & Ht & _) _].
  - split; [reflexivity|intros w; reflexivity|intros x w; reflexivity|simpl; lia|discriminate].
  - reflexivity.
  - repeat constructor; discriminate.
  - exists s', w'. exact (conj E Ht).
Defined.

(** A failing check ends the process.  When the deployment thread finds a
    check failed - at the end of the health phase, during the ramp, or in the
    final check - it aborts the deployment from within: it cannot join itself,
    the exception is answered by a second abort, and the process terminates with
    the rollback performed twice.  And a manager can run one deployment only: a
    start after a completed one terminates the process too. *)
Theorem failed_deployment_terminates {W} (s : RollingUpdateManager.t W) w p :
  RollingUpdateManager.deployment_thread_ s = Some p -> quiet s ->
  (forall w', RollingUpdateManager.validate_health_checks s w' = false) ->
  p = RollingUpdateManager.HealthWait \/ p = RollingUpdateManager.Final \/
    (exists x, p = RollingUpdateManager.Ramp x /\ double_lt x (double_of_Z 1) = true) ->
  (forall elapsed,
     match p with
     | RollingUpdateManager.HealthWait => health_check_timeout (RollingUpdateManager.current_config_ s) <= elapsed
     | RollingUpdateManager.Ramp _ => elapsed < traffic_ramp_duration (RollingUpdateManager.current_config_ s)
     | _ => True
     end -> exists w1, RollingUpdateManager.deployment_step elapsed s w
    = RollingUpdateManager.Terminated (rolled_back s (rolled_back s w1))) /\
  (forall config s2, RollingUpdateManager.deployment_thread_ s2 = Some RollingUpdateManager.Finished ->
     RollingUpdateManager.deployment_active_ s2 = false ->
     RollingUpdateManager.start_deployment config s2 w = (Value tt, RollingUpdateManager.Terminated w)).
Proof.
  intros Ht Hq Hh Hp. split.
  - intros elapsed He. unfold RollingUpdateManager.deployment_step. rewrite Ht.
    destruct Hp as [-> |[-> |(x & -> & Hx)]].
    + rewrite Hh (proj2 (Z.ltb_ge _ _) He). exists w. by apply (abort_rolls_back_twice (RollingUpdateManager.set_phase FAILED s)).
    + rewrite Hh. exists w. by apply abort_rolls_back_twice.
    + rewrite Hx (proj2 (Z.ltb_lt _ _) He). cbn [andb].
      set (y := RollingUpdateManager.double_min _ _). destruct (control_quiet y s w Hq) as [w1 ->].
      change (RollingUpdateManager.validate_health_checks (RollingUpdateManager.set_traffic y s) w1)
        with (RollingUpdateManager.validate_health_checks s w1). rewrite Hh.
      exists w1. by apply (abort_rolls_back_twice (RollingUpdateManager.set_traffic y s)).
  - intros config s2 H2 Ha. unfold RollingUpdateManager.start_deployment. rewrite Ha.
    cbn [RollingUpdateManager.set_traffic RollingUpdateManager.set_phase RollingUpdateManager.set_active
      RollingUpdateManager.set_config RollingUpdateManager.deployment_thread_]. by rewrite H2.
Qed.

(** One failing critical check, and a rollback handler that counts. *)
Definition ex_failing : RollingUpdateManager.t nat :=
  RollingUpdateManager.mk FULL_DEPLOYMENT (double_of_Z 1) true
    (mkDeployment (cstr "1.0") STAGING 30 300 (double_of_Z 1) true []) None (Some (fun w => (Done tt, S w)))
    [HealthCheckManager.mkCheck (cstr "db") (fun _ => Done UNHEALTHY) true] (Some RollingUpdateManager.Final).

Lemma failed_deployment_terminates_witness :
  exists w1, RollingUpdateManager.deployment_step 10 ex_failing 0%nat
    = RollingUpdateManager.Terminated (rolled_back ex_failing (rolled_back ex_failing w1)).
Proof.
  apply (failed_deployment_terminates ex_failing 0%nat RollingUpdateManager.Final);
    [reflexivity|intros x w; reflexivity|intros w; reflexivity|right; left; reflexivity|exact I].
Defined.

(** ** Probes *)

(** The probe is ready exactly when it lists no failed check. *)
Lemma ready_iff_no_failed_checks {W} (cs : @Probes.checks W) w :
  Probes.is_ready cs w = true <-> Probes.get_failed_checks cs w = [].
Proof.
  unfold Probes.get_failed_checks. induction cs as [|[name check] cs IH]; [done|]. cbn [Probes.is_ready].
  destruct (Probes.passes check w) eqn:E.
  - rewrite filter_cons_False; [by rewrite E|]. exact IH.
  - rewrite filter_cons_True //.
Qed.

(** A check name with a quote in it leaves its place in the report: the details
    are not escaped. *)
Example unescaped_detail :
  DeploymentHealthEndpoints.create_json_response (cstr "ok") [([97; 34], cstr "b")]
    = [123; 34] ++ cstr "status" ++ [34; 58; 34] ++ cstr "ok" ++ [34; 44; 34] ++ cstr "details" ++ [34; 58; 123; 34; 97; 34; 34; 58; 34; 98; 34; 125; 125].
Proof. reflexivity. Qed.
