(* ===== verification/HealthServer.v ===== *)
(** * The server of the deployment's health endpoints (deployment_manager.cpp)

    The liveness probe with its heartbeat and the thread that answers on the
    health port: one connection after the other, each with the text of its route.
    What the thread meets ([socket], [bind], [listen], [accept], the bytes of a
    request) is the label of a step. *)

From S2P Require Import Prelude Types Double MemorySafety Strings Formatting ErrorHandling HttpServer SecureConfig Deployment.

(** ** LivenessProbe *)

Module LivenessProbe.
Section probe.
Context {W : Type}.

(** Nanoseconds of the system clock. *)
Record t := mk { liveness_checks_ : @Probes.checks W; last_heartbeat_ : Z }.

Definition register_liveness_check (name : cstring) (check : W -> outcome bool) (p : t) : t :=
  mk (Probes.register_check name check (liveness_checks_ p)) (last_heartbeat_ p).
Definition is_alive (now : Z) (p : t) (w : W) : bool := Probes.is_alive now (last_heartbeat_ p) (liveness_checks_ p) w.
Definition update_last_heartbeat (now : Z) (p : t) : t := mk (liveness_checks_ p) now.
Definition get_last_heartbeat (p : t) : Z := last_heartbeat_ p.

End probe.
Arguments t : clear implicits.
End LivenessProbe.

(** ** The server *)

Module HealthServer.
Import DeploymentHealthEndpoints.
Section server.
Context {W : Type}.

(** The singletons the answers are read from. *)
Record sources := mkSources {
  health : HealthCheckManager.t W;
  readiness : @Probes.checks W;
  liveness : LivenessProbe.t W;
  deployment : RollingUpdateManager.t W;
  world : W
}.

(** A connection: its request, the time, the singletons and the orders in which
    their maps are walked. *)
Record connection := mkConnection {
  c_bytes : cstring;
  c_now : Z;
  c_sources : sources;
  c_health_order : list cstring;
  c_ready_first : bool;
  c_alive_first : bool;
  c_metrics_order : list (cstring * cstring) -> list (cstring * cstring)
}.

Definition NOT_FOUND : cstring := quoting "{`status`: `not_found`}".

(** [read] fills at most 1023 of the 1024 bytes of the buffer. *)
Definition respond (c : connection) : cstring :=
  let x := c_sources c in
  http_response
    (match route_of (take 1023 (c_bytes c)) with
     | HealthRoute => handle_health_request (health x) (world x) (c_health_order c)
     | ReadyRoute => handle_ready_request (readiness x) (world x) (c_ready_first c)
     | LiveRoute =>
         handle_live_request (c_now c) (LivenessProbe.last_heartbeat_ (liveness x)) (LivenessProbe.liveness_checks_ (liveness x))
           (world x) (c_alive_first c)
     | MetricsRoute => handle_metrics_request (c_metrics_order c) (deployment x)
     | NoRoute => NOT_FOUND
     end).

(** Where [server_loop] is: before the socket is set up, in [accept], returned. *)
Inductive pc := SetUp | InAccept | Ended.

(** [server_thread_] is [None] when it is not joinable; [sent] are the responses
    written so far. *)
Record t := mk { server_running_ : bool; port_ : Z; server_thread_ : option pc; sent : list cstring }.
Implicit Types s : t.

Definition init : t := mk false 8080 None [].

Definition start_server (port : Z) s : t :=
  if server_running_ s then s else mk true port (Some SetUp) (sent s).

Inductive label :=
  | SocketReady (ok : bool)
  | Connects (c : connection)
  | AcceptFails.

(** The test of the loop. *)
Definition loop_test s : pc := if server_running_ s then InAccept else Ended.

(** [None]: the thread cannot meet this label where it is. *)
Definition thread_step (l : label) s : option t :=
  match server_thread_ s, l with
  | Some SetUp, SocketReady ok => Some (mk (server_running_ s) (port_ s) (Some (if ok then loop_test s else Ended)) (sent s))
  | Some InAccept, Connects c => Some (mk (server_running_ s) (port_ s) (Some (loop_test s)) (sent s ++ [respond c]))
  | Some InAccept, AcceptFails => Some (mk (server_running_ s) (port_ s) (Some (loop_test s)) (sent s))
  | _, _ => None
  end.

(** The thread as long as it meets what it waits for. *)
Fixpoint thread_run (ls : list label) s : t :=
  match ls with
  | [] => s
  | l :: ls => match thread_step l s with Some s => thread_run ls s | None => s end
  end.

(** [stop_server] while the thread meets [ls]: [None] when the join does not return. *)
Definition stop_server (ls : list label) s : option t :=
  let s := thread_run ls (mk false (port_ s) (server_thread_ s) (sent s)) in
  match server_thread_ s with
  | None => Some s
  | Some Ended => Some (mk (server_running_ s) (port_ s) None (sent s))
  | Some _ => None
  end.

Definition clients (ls : list label) : list connection :=
  omap (fun l => match l with Connects c => Some c | _ => None end) ls.

(** *** Lemmas *)

(** While it runs the server answers everyone, in order. *)
Lemma serves_all ls : forall s,
  server_running_ s = true -> server_thread_ s = Some InAccept -> (forall ok, SocketReady ok ∉ ls) ->
  thread_run ls s = mk true (port_ s) (Some InAccept) (sent s ++ (respond <$> clients ls)).
Proof.
  induction ls as [|l ls IH]; intros s Hr Ht Hl; cbn [thread_run].
  { cbn. rewrite app_nil_r -Hr -Ht. by destruct s. }
  assert (forall ok, SocketReady ok ∉ ls) as Hl' by (intros ok Hin; apply (Hl ok), elem_of_cons; by right).
  unfold thread_step. rewrite Ht. destruct l as [ok|c|].
  - exfalso. apply (Hl ok), elem_of_cons. by left.
  - rewrite IH; [done|by rewrite /= /loop_test Hr|done|]. cbn [port_ sent clients omap list_omap]. by rewrite -app_assoc.
  - rewrite IH; [done|by rewrite /= /loop_test Hr|done|]. done.
Qed.

End server.
End HealthServer.

Section claims.
Context {W : Type}.
Import HealthServer.

(** A listening server: every connection gets exactly one response, the one of its
    route, in the order of arrival, and the server goes on.  [stop_server] alone
    does not end it: the thread stays in [accept], and the join returns only
    after one more connection (which is answered) or an error of [accept]. *)
Theorem health_server_serves (s : t) (ls : list (label (W := W))) :
  server_running_ s = true -> server_thread_ s = Some InAccept -> (forall ok, SocketReady ok ∉ ls) ->
  sent (thread_run ls s) = sent s ++ (respond <$> clients ls) /\
  stop_server (W := W) [] (thread_run ls s) = None /\
  (forall (c : connection (W := W)) more, stop_server (Connects c :: more) (thread_run ls s) =
     Some (mk false (port_ s) None (sent s ++ (respond <$> clients ls) ++ [respond c]))) /\
  (forall more : list (label (W := W)), stop_server (AcceptFails :: more) (thread_run ls s) =
     Some (mk false (port_ s) None (sent s ++ (respond <$> clients ls)))).
Proof.
  intros Hr Ht Hl. rewrite serves_all //. split_and!; [done|done| |].
  - intros c more. unfold stop_server. cbn [thread_run thread_step server_thread_]. unfold loop_test. cbn [server_running_].
    replace (thread_run more _) with (mk false (port_ s) (Some Ended) ((sent s ++ (respond <$> clients ls)) ++ [respond c]));
      [by rewrite /= -app_assoc|]. by destruct more as [|[] ?].
  - intros more. unfold stop_server. cbn [thread_run thread_step server_thread_]. unfold loop_test. cbn [server_running_].
    replace (thread_run more _) with (mk false (port_ s) (Some Ended) (sent s ++ (respond <$> clients ls)));
      [done|]. by destruct more as [|[] ?].
Qed.

(** When the socket cannot be set up the thread ends but the server still counts as
    running: starting it again does nothing until it has been stopped. *)
Lemma failed_setup_blocks_start port port' (s : t) :
  server_running_ s = false ->
  let s' := thread_run (W := W) [SocketReady false] (start_server port s) in
  server_thread_ s' = Some Ended /\ start_server port' s' = s' /\
  stop_server (W := W) [] s' = Some (mk false port None (sent s)).
Proof. intros Hr. unfold start_server. rewrite Hr. cbn. done. Qed.

End claims.
