(* ===== verification/Clients.v ===== *)
(** * Clients and strategies (client_base.hpp/.cpp, strategies.hpp/.cpp)

    The client's connection, its order entry and its receiver, and the four
    trading strategies built on it.  The virtual methods of [ClientBase] are the
    class [Strategy].  The operating system and the random generator are
    arguments: what the n-th [send] returns for a size, what [recv] delivers, the n-th draw
    of a uniform distribution.  [wire] is what the kernel accepted for sending,
    [sent_log] the messages handed to [send].  The main thread's ticks and the
    rounds of the receiver thread are separate steps. *)

From S2P Require Import Prelude Types MemorySafety Protocol TcpGateway.

Definition byte_of_Side (s : Side) : Z := match s with BUY => 1 | SELL => 2 | Side_byte b => b end.
Definition byte_of_OrderType (t : OrderType) : Z := match t with MARKET => 1 | LIMIT => 2 | OrderType_byte b => b end.

(** ** ClientBase *)

Module ClientBase.
Section client.
Variable timestamp : nat -> Timestamp.
Variable send_result : nat -> Z -> Z.
Variable uniform : nat -> Z -> Z -> Z.

Inductive message := SentOrder (m : NewOrderMessage) | SentCancel (m : CancelOrderMessage).

Record t := mk {
  client_id_ : Z;
  socket_open : bool;
  running_ : bool;
  orders_sent_ : Z;
  orders_acked_ : Z;
  orders_rejected_ : Z;
  trades_received_ : Z;
  next_order_id_ : Z;
  sequence_ : Z;
  rng_ : nat;
  ticks : nat;
  sent_log : list message;
  wire : list Z
}.
Implicit Types c : t.

Definition make (client_id : Z) : t := mk client_id false false 0 0 0 0 1 0 0 0 [] [].

Definition set_socket x c : t :=
  mk (client_id_ c) x (running_ c) (orders_sent_ c) (orders_acked_ c) (orders_rejected_ c) (trades_received_ c)
    (next_order_id_ c) (sequence_ c) (rng_ c) (ticks c) (sent_log c) (wire c).
Definition set_running x c : t :=
  mk (client_id_ c) (socket_open c) x (orders_sent_ c) (orders_acked_ c) (orders_rejected_ c) (trades_received_ c)
    (next_order_id_ c) (sequence_ c) (rng_ c) (ticks c) (sent_log c) (wire c).
Definition inc_orders_sent c : t :=
  mk (client_id_ c) (socket_open c) (running_ c) (orders_sent_ c +₆₄ 1) (orders_acked_ c) (orders_rejected_ c)
    (trades_received_ c) (next_order_id_ c) (sequence_ c) (rng_ c) (ticks c) (sent_log c) (wire c).
Definition inc_orders_acked c : t :=
  mk (client_id_ c) (socket_open c) (running_ c) (orders_sent_ c) (orders_acked_ c +₆₄ 1) (orders_rejected_ c)
    (trades_received_ c) (next_order_id_ c) (sequence_ c) (rng_ c) (ticks c) (sent_log c) (wire c).
Definition inc_orders_rejected c : t :=
  mk (client_id_ c) (socket_open c) (running_ c) (orders_sent_ c) (orders_acked_ c) (orders_rejected_ c +₆₄ 1)
    (trades_received_ c) (next_order_id_ c) (sequence_ c) (rng_ c) (ticks c) (sent_log c) (wire c).
Definition inc_trades_received c : t :=
  mk (client_id_ c) (socket_open c) (running_ c) (orders_sent_ c) (orders_acked_ c) (orders_rejected_ c)
    (trades_received_ c +₆₄ 1) (next_order_id_ c) (sequence_ c) (rng_ c) (ticks c) (sent_log c) (wire c).
(** [++sequence_] and the reading of the clock for a header. *)
Definition bump_sequence c : t :=
  mk (client_id_ c) (socket_open c) (running_ c) (orders_sent_ c) (orders_acked_ c) (orders_rejected_ c)
    (trades_received_ c) (next_order_id_ c) (sequence_ c +₆₄ 1) (rng_ c) (S (ticks c)) (sent_log c) (wire c).
Definition bump_order_id c : t :=
  mk (client_id_ c) (socket_open c) (running_ c) (orders_sent_ c) (orders_acked_ c) (orders_rejected_ c)
    (trades_received_ c) (next_order_id_ c +₆₄ 1) (sequence_ c) (rng_ c) (ticks c) (sent_log c) (wire c).
Definition drawn c : t :=
  mk (client_id_ c) (socket_open c) (running_ c) (orders_sent_ c) (orders_acked_ c) (orders_rejected_ c)
    (trades_received_ c) (next_order_id_ c) (sequence_ c) (S (rng_ c)) (ticks c) (sent_log c) (wire c).
Definition put_wire (m : message) (bytes : list Z) c : t :=
  mk (client_id_ c) (socket_open c) (running_ c) (orders_sent_ c) (orders_acked_ c) (orders_rejected_ c)
    (trades_received_ c) (next_order_id_ c) (sequence_ c) (rng_ c) (ticks c) (sent_log c ++ [m]) (wire c ++ bytes).

(** ** Connection *)

Definition connect (socket_ok address_ok connect_ok : bool) c : bool * t :=
  if negb socket_ok then (false, set_socket false c)
  else if negb address_ok then (false, set_socket false c)
  else if negb connect_ok then (false, set_socket false c)
  else (true, set_socket true c).

Definition disconnect c : t := set_socket false (set_running false c).

(** ** Sending *)

Definition encode (m : message) : list Z :=
  match m with SentOrder m => encode_new_order m | SentCancel m => encode_cancel_order m end.

(** [send] accepts a prefix of the message, or fails. *)
Definition send_message (m : message) c : bool * t :=
  if negb (socket_open c) then (false, c)
  else
    let bytes := encode m in
    let sent := send_result (length (sent_log c)) (Z.of_nat (length bytes)) in
    (sent =? Z.of_nat (length bytes), put_wire m (take (Z.to_nat sent) bytes) c).

Definition generate_order_id c : Z * t := (next_order_id_ c, bump_order_id c).

(** [std::to_string(client_id_).c_str()] and [symbol.c_str()] into fresh bounded
    strings, which throw when they do not fit. *)
Definition text (N : nat) (s : cstring) : outcome BoundedString.t :=
  BoundedString.assign N (Some s) (BoundedString.init N).

(** The bytes behind the header: [set_checksum] reads them from [&msg.order_id]. *)
Definition payload (bytes : list Z) : option (list Z) := Some (drop sizeof_header bytes).

Definition checksummed_order (m : NewOrderMessage) : outcome NewOrderMessage :=
  match set_checksum (payload (encode_new_order m)) (no_header m) with
  | Some h => Done (mkNewOrder h (no_order_id m) (no_client_id m) (no_symbol m) (no_side m) (no_quantity m)
                      (no_price m) (no_order_type m))
  | None => Undefined
  end.

Definition checksummed_cancel (m : CancelOrderMessage) : outcome CancelOrderMessage :=
  match set_checksum (payload (encode_cancel_order m)) (co_header m) with
  | Some h => Done (mkCancelOrder h (co_order_id m) (co_client_id m) (co_symbol m))
  | None => Undefined
  end.

Definition send_new_order (symbol : cstring) (side : Side) (quantity price : Z) c : outcome (bool * t) :=
  let c := bump_sequence c in
  let header := MessageHeader_make NEW_ORDER (Z.of_nat sizeof_NewOrderMessage) (sequence_ c)
                  (timestamp (pred (ticks c))) in
  let '(order_id, c) := generate_order_id c in
  let! client_text := text 32 (print_u64 (client_id_ c)) in
  let! symbol_text := text 8 symbol in
  let! msg := checksummed_order (mkNewOrder header order_id client_text symbol_text (byte_of_Side side) quantity price
                (byte_of_OrderType LIMIT)) in
  let '(ok, c) := send_message (SentOrder msg) c in
  Done (ok, if ok then inc_orders_sent c else c).

Definition send_cancel_order (order_id : Z) (symbol : cstring) c : outcome (bool * t) :=
  let c := bump_sequence c in
  let header := MessageHeader_make CANCEL_ORDER (Z.of_nat sizeof_CancelOrderMessage) (sequence_ c)
                  (timestamp (pred (ticks c))) in
  let! client_text := text 32 (print_u64 (client_id_ c)) in
  let! symbol_text := text 8 symbol in
  let! msg := checksummed_cancel (mkCancelOrder header order_id client_text symbol_text) in
  Done (send_message (SentCancel msg) c).

Definition random_int (min max : Z) c : Z * t := (uniform (rng_ c) min max, drawn c).

End client.

(** ** Receiving *)

(** What becomes of a [receive_message]: the bytes; an error or the end of the
    stream, the bytes received so far being lost; or the thread waits in [recv],
    which blocks, because nothing more arrives. *)
Inductive receipt := Got (bytes : list Z) | Failed | Waiting.

(** [recv] until [size] bytes are there.  The pieces that arrive are [chunks], and an
    empty piece is the end of the stream, which stays.  [fuel] calls of [recv] are
    made before [running_] is found cleared. *)
Fixpoint receive_loop (fuel : nat) (acc : list Z) (size : nat) (chunks : list (list Z)) : receipt * list (list Z) :=
  if (size <=? length acc)%nat then (Got acc, chunks)
  else match fuel with
  | O => (Failed, chunks)
  | S fuel' =>
      match recv true (Z.of_nat (size - length acc)) chunks WouldBlock with
      | (Received [], rest) => (Failed, [] :: rest)
      | (Received bytes, rest) => receive_loop fuel' (acc ++ bytes) size rest
      | (RecvFails _, rest) => (Waiting, rest)
      end
  end.

Definition receive_message (open : bool) (fuel size : nat) (chunks : list (list Z)) : receipt * list (list Z) :=
  if negb open then (Failed, chunks) else receive_loop fuel [] size chunks.

End ClientBase.

(** ** The interface of a strategy: the virtual methods *)

Class Strategy (S : Type) := {
  base : S -> ClientBase.t;
  set_base : ClientBase.t -> S -> S;
  on_start : S -> outcome S;
  on_tick : S -> outcome S;
  on_order_ack : OrderAckMessage -> S -> outcome S;
  on_trade : TradeMessage -> S -> outcome S;
  on_stop : S -> outcome S
}.

Section drive.
Context {S : Type} `{Strategy S}.

(** One turn of [receiver_loop], with at most [head] and [body] calls of [recv] for
    the header and the rest; the flag says whether the turn came to its end. *)
Definition receiver_turn (head body : nat) (chunks : list (list Z)) (s : S) : outcome (bool * list (list Z) * S) :=
  let open := ClientBase.socket_open (base s) in
  match ClientBase.receive_message open head sizeof_header chunks with
  | (ClientBase.Failed, chunks) => Done (true, chunks, s)
  | (ClientBase.Waiting, chunks) => Done (false, chunks, s)
  | (ClientBase.Got header, chunks) =>
      let type := h_type (decode_header header) in
      if type =? ORDER_ACK then
        match ClientBase.receive_message open body (sizeof_OrderAckMessage - sizeof_header) chunks with
        | (ClientBase.Failed, chunks) => Done (true, chunks, s)
        | (ClientBase.Waiting, chunks) => Done (false, chunks, s)
        | (ClientBase.Got rest, chunks) =>
            let ack := decode_order_ack (header ++ rest) in
            let s := set_base (if oa_status ack =? 1 then ClientBase.inc_orders_acked (base s)
                               else ClientBase.inc_orders_rejected (base s)) s in
            let! s := on_order_ack ack s in Done (true, chunks, s)
        end
      else if type =? TRADE_REPORT then
        match ClientBase.receive_message open body (sizeof_TradeMessage - sizeof_header) chunks with
        | (ClientBase.Failed, chunks) => Done (true, chunks, s)
        | (ClientBase.Waiting, chunks) => Done (false, chunks, s)
        | (ClientBase.Got rest, chunks) =>
            let trade := decode_trade (header ++ rest) in
            let s := set_base (ClientBase.inc_trades_received (base s)) s in
            let! s := on_trade trade s in Done (true, chunks, s)
        end
      else Done (true, chunks, s)
  end.

(** A turn while [running_]: every call of [recv] that succeeds delivers a byte, so
    as many calls as bytes are enough. *)
Definition receiver_round : list (list Z) -> S -> outcome (bool * list (list Z) * S) :=
  receiver_turn sizeof_header sizeof_TradeMessage.

End drive.

(** ** The strategies *)

Section strategies.
Variable timestamp : nat -> Timestamp.
Variable send_result : nat -> Z -> Z.
Variable uniform : nat -> Z -> Z -> Z.
Abbreviation send_new_order := (ClientBase.send_new_order timestamp send_result).
Abbreviation send_cancel_order := (ClientBase.send_cancel_order timestamp send_result).
Abbreviation random_int := (ClientBase.random_int uniform).

(** *** MarketMakerStrategy *)

Record MarketMaker := mkMarketMaker {
  mm_base : ClientBase.t;
  mm_symbol_ : cstring;
  spread_ticks_ : Z;
  mm_base_price_ : Z;
  quote_size_ : Z;
  bid_order_id_ : Z;
  ask_order_id_ : Z
}.
Implicit Types m : MarketMaker.

Definition MarketMaker_make (client_id : Z) (symbol : cstring) (spread_ticks : Z) : MarketMaker :=
  mkMarketMaker (ClientBase.make client_id) symbol spread_ticks 150000 100 0 0.

Definition mm_set_base c m : MarketMaker :=
  mkMarketMaker c (mm_symbol_ m) (spread_ticks_ m) (mm_base_price_ m) (quote_size_ m) (bid_order_id_ m) (ask_order_id_ m).
Definition mm_set_price p m : MarketMaker :=
  mkMarketMaker (mm_base m) (mm_symbol_ m) (spread_ticks_ m) p (quote_size_ m) (bid_order_id_ m) (ask_order_id_ m).
Definition mm_set_bid x m : MarketMaker :=
  mkMarketMaker (mm_base m) (mm_symbol_ m) (spread_ticks_ m) (mm_base_price_ m) (quote_size_ m) x (ask_order_id_ m).
Definition mm_set_ask x m : MarketMaker :=
  mkMarketMaker (mm_base m) (mm_symbol_ m) (spread_ticks_ m) (mm_base_price_ m) (quote_size_ m) (bid_order_id_ m) x.

Definition cancel_existing_orders m : outcome MarketMaker :=
  let! m :=
    if 0 <? bid_order_id_ m then
      let! r := send_cancel_order (bid_order_id_ m) (mm_symbol_ m) (mm_base m) in
      Done (mm_set_bid 0 (mm_set_base r.2 m))
    else Done m in
  if 0 <? ask_order_id_ m then
    let! r := send_cancel_order (ask_order_id_ m) (mm_symbol_ m) (mm_base m) in
    Done (mm_set_ask 0 (mm_set_base r.2 m))
  else Done m.

Definition update_quotes m : outcome MarketMaker :=
  let! m := cancel_existing_orders m in
  let '(price_adjustment, c) := random_int (-5) 5 (mm_base m) in
  let m := mm_set_base c m in
  let adjusted_price := mm_base_price_ m +₆₄ price_adjustment in
  let bid_price := adjusted_price -₆₄ spread_ticks_ m in
  let ask_price := adjusted_price +₆₄ spread_ticks_ m in
  let! r := send_new_order (mm_symbol_ m) BUY (quote_size_ m) bid_price (mm_base m) in
  let m := mm_set_base r.2 m in
  let m := if (r.1 : bool) then mm_set_bid (ClientBase.next_order_id_ (mm_base m) -₆₄ 1) m else m in
  let! r := send_new_order (mm_symbol_ m) SELL (quote_size_ m) ask_price (mm_base m) in
  let m := mm_set_base r.2 m in
  Done (if (r.1 : bool) then mm_set_ask (ClientBase.next_order_id_ (mm_base m) -₆₄ 1) m else m).

Definition mm_on_tick m : outcome MarketMaker :=
  let '(x, c) := random_int 1 1000 (mm_base m) in
  let m := mm_set_base c m in
  if x <=? 10 then update_quotes m else Done m.

Definition mm_on_trade (trade : TradeMessage) m : outcome MarketMaker :=
  let! m := cancel_existing_orders (mm_set_price (tm_price trade) m) in
  update_quotes m.

#[global] Instance MarketMaker_strategy : Strategy MarketMaker := {
  base := mm_base;
  set_base := mm_set_base;
  on_start := update_quotes;
  on_tick := mm_on_tick;
  on_order_ack _ s := Done s;
  on_trade := mm_on_trade;
  on_stop := Done
}.

(** *** MomentumStrategy *)

Record Momentum := mkMomentum {
  mo_base : ClientBase.t;
  mo_symbol_ : cstring;
  price_history_ : list Z;
  last_trade_price_ : Z;
  momentum_threshold_ : Z;
  mo_order_size_ : Z
}.

Definition Momentum_make (client_id : Z) (symbol : cstring) : Momentum :=
  mkMomentum (ClientBase.make client_id) symbol [] 0 5 50.

Definition mo_set_base c (m : Momentum) : Momentum :=
  mkMomentum c (mo_symbol_ m) (price_history_ m) (last_trade_price_ m) (momentum_threshold_ m) (mo_order_size_ m).

(** The loop over adjacent prices. *)
Fixpoint count_adjacent (test : Z -> Z -> bool) (prices : list Z) : Z :=
  match prices with
  | previous :: (next :: _) as rest => (if test previous next then 1 else 0) + count_adjacent test rest
  | _ => 0
  end.

Definition detect_upward_momentum (m : Momentum) : bool :=
  if (length (price_history_ m) <? 5)%nat then false
  else momentum_threshold_ m <=? count_adjacent (fun previous next => previous <? next) (price_history_ m).

Definition detect_downward_momentum (m : Momentum) : bool :=
  if (length (price_history_ m) <? 5)%nat then false
  else momentum_threshold_ m <=? count_adjacent (fun previous next => next <? previous) (price_history_ m).

Definition analyze_momentum (m : Momentum) : outcome Momentum :=
  if detect_upward_momentum m then
    let! r := send_new_order (mo_symbol_ m) BUY (mo_order_size_ m) (last_trade_price_ m +₆₄ 5) (mo_base m) in
    Done (mo_set_base r.2 m)
  else if detect_downward_momentum m then
    let! r := send_new_order (mo_symbol_ m) SELL (mo_order_size_ m) (last_trade_price_ m -₆₄ 5) (mo_base m) in
    Done (mo_set_base r.2 m)
  else Done m.

Definition mo_on_tick (m : Momentum) : outcome Momentum :=
  if (10 <=? length (price_history_ m))%nat then analyze_momentum m else Done m.

Definition mo_on_trade (trade : TradeMessage) (m : Momentum) : outcome Momentum :=
  let history := price_history_ m ++ [tm_price trade] in
  let history := if (20 <? length history)%nat then tail history else history in
  Done (mkMomentum (mo_base m) (mo_symbol_ m) history (tm_price trade) (momentum_threshold_ m) (mo_order_size_ m)).

#[global] Instance Momentum_strategy : Strategy Momentum := {
  base := mo_base;
  set_base := mo_set_base;
  on_start := Done;
  on_tick := mo_on_tick;
  on_order_ack _ s := Done s;
  on_trade := mo_on_trade;
  on_stop := Done
}.

(** *** ArbitrageStrategy *)

Record Arbitrage := mkArbitrage {
  ar_base : ClientBase.t;
  symbol1_ : cstring;
  symbol2_ : cstring;
  symbol1_price_ : Z;
  symbol2_price_ : Z;
  spread_threshold_ : Z;
  arb_size_ : Z
}.

Definition Arbitrage_make (client_id : Z) (symbol1 symbol2 : cstring) : Arbitrage :=
  mkArbitrage (ClientBase.make client_id) symbol1 symbol2 0 0 50 25.

Definition ar_set_base c (a : Arbitrage) : Arbitrage :=
  mkArbitrage c (symbol1_ a) (symbol2_ a) (symbol1_price_ a) (symbol2_price_ a) (spread_threshold_ a) (arb_size_ a).
Definition ar_set_prices p1 p2 (a : Arbitrage) : Arbitrage :=
  mkArbitrage (ar_base a) (symbol1_ a) (symbol2_ a) p1 p2 (spread_threshold_ a) (arb_size_ a).

(** [trade.symbol.c_str()] in the message object: up to the first zero byte from
    the symbol on; without one in the object the read leaves it. *)
Definition trade_symbol (trade : TradeMessage) : outcome cstring :=
  let from_symbol := drop 52 (encode_trade trade) in
  if bool_decide (0 ∈ from_symbol) then Done (until_nul from_symbol) else Undefined.

Definition ar_on_trade (trade : TradeMessage) (a : Arbitrage) : outcome Arbitrage :=
  let! symbol := trade_symbol trade in
  Done (if bool_decide (symbol = symbol1_ a) then ar_set_prices (tm_price trade) (symbol2_price_ a) a
        else if bool_decide (symbol = symbol2_ a) then ar_set_prices (symbol1_price_ a) (tm_price trade) a
        else a).

Definition check_arbitrage_opportunity (a : Arbitrage) : outcome Arbitrage :=
  let p1 := symbol1_price_ a in
  let p2 := symbol2_price_ a in
  let price_diff := if p2 <? p1 then p1 - p2 else p2 - p1 in
  let avg_price := (p1 +₆₄ p2) / 2 in
  let threshold := (avg_price *₆₄ spread_threshold_ a) / 10000 in
  if threshold <? price_diff then
    if p2 <? p1 then
      let! r := send_new_order (symbol1_ a) SELL (arb_size_ a) (p1 -₆₄ 1) (ar_base a) in
      let! r := send_new_order (symbol2_ a) BUY (arb_size_ a) (p2 +₆₄ 1) r.2 in
      Done (ar_set_base r.2 a)
    else
      let! r := send_new_order (symbol1_ a) BUY (arb_size_ a) (p1 +₆₄ 1) (ar_base a) in
      let! r := send_new_order (symbol2_ a) SELL (arb_size_ a) (p2 -₆₄ 1) r.2 in
      Done (ar_set_base r.2 a)
  else Done a.

Definition ar_on_tick (a : Arbitrage) : outcome Arbitrage :=
  if (0 <? symbol1_price_ a) && (0 <? symbol2_price_ a) then check_arbitrage_opportunity a else Done a.

#[global] Instance Arbitrage_strategy : Strategy Arbitrage := {
  base := ar_base;
  set_base := ar_set_base;
  on_start := Done;
  on_tick := ar_on_tick;
  on_order_ack _ s := Done s;
  on_trade := ar_on_trade;
  on_stop := Done
}.

(** *** LiquidityTakerStrategy *)

Record LiquidityTaker := mkLiquidityTaker {
  lt_base : ClientBase.t;
  lt_symbol_ : cstring;
  lt_base_price_ : Z;
  lt_order_size_ : Z;
  order_frequency_ : Z;
  tick_counter_ : Z
}.

Definition LiquidityTaker_make (client_id : Z) (symbol : cstring) : LiquidityTaker :=
  mkLiquidityTaker (ClientBase.make client_id) symbol 150000 75 100 0.

Definition lt_set_base c (l : LiquidityTaker) : LiquidityTaker :=
  mkLiquidityTaker c (lt_symbol_ l) (lt_base_price_ l) (lt_order_size_ l) (order_frequency_ l) (tick_counter_ l).
Definition lt_set_counter n (l : LiquidityTaker) : LiquidityTaker :=
  mkLiquidityTaker (lt_base l) (lt_symbol_ l) (lt_base_price_ l) (lt_order_size_ l) (order_frequency_ l) n.

Definition send_random_order (l : LiquidityTaker) : outcome LiquidityTaker :=
  let '(coin, c) := random_int 0 1 (lt_base l) in
  let side := if coin =? 0 then BUY else SELL in
  let '(price_offset, c) := random_int (-20) 20 c in
  let price := lt_base_price_ l +₆₄ price_offset in
  let '(size_offset, c) := random_int (-25) 25 c in
  let size := lt_order_size_ l +₆₄ size_offset in
  let! r := send_new_order (lt_symbol_ l) side size price c in
  Done (lt_set_base r.2 l).

(** [int] arithmetic: the increment of the largest [int], a frequency of zero or
    above 1000 are undefined. *)
Definition lt_on_tick (l : LiquidityTaker) : outcome LiquidityTaker :=
  if tick_counter_ l =? 2 ^ 31 - 1 then Undefined
  else
    let l := lt_set_counter (tick_counter_ l + 1) l in
    if order_frequency_ l =? 0 then Undefined
    else
      let period := 1000 `quot` order_frequency_ l in
      if period =? 0 then Undefined
      else if tick_counter_ l `rem` period =? 0 then send_random_order l else Done l.

#[global] Instance LiquidityTaker_strategy : Strategy LiquidityTaker := {
  base := lt_base;
  set_base := lt_set_base;
  on_start := Done;
  on_tick := lt_on_tick;
  on_order_ack _ s := Done s;
  on_trade _ s := Done s;
  on_stop := Done
}.

End strategies.
