(* ===== verification/ClientTheorems.v ===== *)
(** * Properties of the clients

    What a client sends, the gateway reads: the byte stream of any sequence of
    complete sends is cut back into the messages sent.  What the exchange sends,
    the client dispatches, however the network splits it.  The market maker
    keeps track of its quotes, and the strategies' orders are in range. *)

From S2P Require Import Prelude Types MemorySafety Protocol TcpGateway GatewayTheorems Clients.

#[local] Opaque le_encode.

(** ** Texts *)

Lemma bounded_split N s b :
  BoundedString.wf N b -> BoundedString.view b = Done s ->
  exists r, BoundedString.data_ b = s ++ 0 :: r.
Proof.
  intros (Hl & Hlen & H0) Hv. unfold BoundedString.view in Hv.
  rewrite memread_done in Hv; [lia..|]. injection Hv as Hv. cbn [Z.to_nat drop] in Hv.
  exists (drop (S (Z.to_nat (BoundedString.length_ b))) (BoundedString.data_ b)).
  rewrite -Hv. change (drop 0 ?x) with x. by rewrite -{1}(take_drop_middle _ _ _ H0).
Qed.

Definition text_ok (s : cstring) : Prop := Forall (fun c => 0 < c < 256) s.

Lemma text_done N s :
  (1 < N)%nat -> Z.of_nat N < 2 ^ 64 -> (length s < N)%nat -> text_ok s ->
  exists b, ClientBase.text N s = Done b /\ bounded_wf N b /\
    until_nul (BoundedString.data_ b) = s /\ Forall (fun x => u8 x) (BoundedString.data_ b).
Proof.
  intros HN HN' Hs Hok. unfold ClientBase.text.
  destruct (BoundedStringFacts.assign_done N s (BoundedString.init N)) as (b & E & Hw & Hv);
    [by apply BoundedStringFacts.bounded_init_wf|done|].
  exists b. split; [done|]. destruct (bounded_split N s b Hw Hv) as [r Hr].
  split; [destruct Hw as (? & ? & ?); split; [done|unfold is_u; lia]|]. split.
  - rewrite Hr. apply until_nul_app_0. eapply Forall_impl; [exact Hok|]. simpl. lia.
  - unfold BoundedString.assign, BoundedString.assign_n in E.
    rewrite (proj2 (Z.leb_gt _ _)) in E; [lia|]. cbn [BoundedString.init BoundedString.data_] in E.
    rewrite memcpy_done in E; [rewrite ?length_replicate ?length_app; lia..|].
    cbn [omap_outcome] in E. injection E as <-. cbn [BoundedString.data_].
    assert (u8 0) as H0 by u_lia.
    apply Forall_insert; [|done]. apply Forall_app_2; [|apply Forall_drop, Forall_replicate, H0].
    apply Forall_take, Forall_app_2; [|by repeat constructor].
    eapply Forall_impl; [exact Hok|]. intros x. simpl. u_lia.
Qed.

Lemma le_encode_u8 n : forall v, Forall (fun x => u8 x) (le_encode n v).
Proof.
  #[local] Transparent le_encode.
  induction n as [|n IH]; intros v; [by apply Forall_nil|]. constructor; [|apply IH].
  unfold is_u. word_consts. apply Z.mod_pos_bound. lia.
Qed.
#[local] Opaque le_encode.

Lemma print_u64_text v : u64 v -> text_ok (print_u64 v) /\ (length (print_u64 v) < 32)%nat.
Proof.
  intros Hv. destruct (print_u64_spec v Hv) as (_ & Hd & Hl). split; [|lia].
  eapply Forall_impl; [exact Hd|]. unfold is_digit. intros x ?. lia.
Qed.

(** ** Sending *)

Section sending.
Variable timestamp : nat -> Timestamp.
Variable send_result : nat -> Z -> Z.
Hypothesis timestamp_u64 : forall n, u64 (timestamp n).
#[local] Set Default Proof Using "Type*".
Import ClientBase.

(** What a client is asked to send. *)
Inductive request :=
  | NewOrder (symbol : cstring) (side : Side) (quantity price : Z)
  | CancelOrder (order_id : Z) (symbol : cstring).

Definition request_ok (r : request) : Prop :=
  match r with
  | NewOrder symbol side quantity price =>
      text_ok symbol /\ (length symbol < 8)%nat /\ (side = BUY \/ side = SELL) /\ u64 quantity /\ u64 price
  | CancelOrder order_id symbol => text_ok symbol /\ (length symbol < 8)%nat /\ u64 order_id
  end.

Definition issue (r : request) (c : t) : outcome (bool * t) :=
  match r with
  | NewOrder symbol side quantity price => send_new_order timestamp send_result symbol side quantity price c
  | CancelOrder order_id symbol => send_cancel_order timestamp send_result order_id symbol c
  end.

Definition sizeof_request (r : request) : nat :=
  match r with NewOrder _ _ _ _ => sizeof_NewOrderMessage | CancelOrder _ _ => sizeof_CancelOrderMessage end.

(** The message says what was asked, for this client. *)
Definition says (id client_id : Z) (r : request) (m : message) : Prop :=
  match r, m with
  | NewOrder symbol side quantity price, SentOrder m =>
      new_order_wf m /\ h_type (no_header m) = NEW_ORDER /\
      validate_checksum (no_header m) (payload (encode_new_order m)) = Some true /\
      forall now, TcpGateway.order_of_message m now =
        mkOrder price quantity id PENDING side LIMIT quantity now
          (FixedString.make SYMBOL_N (Some symbol)) (FixedString.make CLIENT_N (Some (print_u64 client_id)))
  | CancelOrder order_id symbol, SentCancel m =>
      cancel_order_wf m /\ h_type (co_header m) = CANCEL_ORDER /\
      validate_checksum (co_header m) (payload (encode_cancel_order m)) = Some true /\
      co_order_id m = order_id /\ until_nul (BoundedString.data_ (co_symbol m)) = symbol /\
      until_nul (BoundedString.data_ (co_client_id m)) = print_u64 client_id
  | _, _ => False
  end.

Definition takes_id (r : request) : Z := match r with NewOrder _ _ _ _ => 1 | CancelOrder _ _ => 0 end.

(** The client after the headers and ids are drawn, before [send]. *)
Definition numbered (r : request) (c : t) : t :=
  match r with NewOrder _ _ _ _ => bump_order_id (bump_sequence c) | CancelOrder _ _ => bump_sequence c end.

(** A header stamped over its payload. *)
Lemma stamped h body :
  header_wf h -> h_length h = Z.of_nat (sizeof_header + length body) -> h_length h <= 8192 ->
  Forall (fun x => u8 x) body ->
  exists h', set_checksum (Some body) h = Some h' /\ header_wf h' /\ h_type h' = h_type h /\
    h_length h' = h_length h /\ validate_checksum h' (Some body) = Some true.
Proof.
  intros [? ? ? ? ?] Hl Hm Hu. eexists. split; [by apply set_checksum_done|].
  split; [split; simpl; try done; apply lxor_u32; [apply crc_loop_u32; [u_lia|done]|u_lia]|].
  split; [done|]. split; [done|]. rewrite validate_checksum_done; [done..|]. by rewrite Z.eqb_refl.
Qed.

(** The bytes behind the header do not depend on it. *)
Lemma order_payload h m :
  drop sizeof_header (encode_new_order (mkNewOrder h (no_order_id m) (no_client_id m) (no_symbol m) (no_side m)
    (no_quantity m) (no_price m) (no_order_type m))) = drop sizeof_header (encode_new_order m).
Proof. unfold encode_new_order. by rewrite !drop_app_length' ?length_encode_header. Qed.

Lemma cancel_payload h m :
  drop sizeof_header (encode_cancel_order (mkCancelOrder h (co_order_id m) (co_client_id m) (co_symbol m)))
    = drop sizeof_header (encode_cancel_order m).
Proof. unfold encode_cancel_order. by rewrite !drop_app_length' ?length_encode_header. Qed.

Ltac bytes_u8 :=
  rewrite drop_app_length'; [by rewrite length_encode_header|];
  unfold encode_bounded; rewrite !Forall_app; split_and!; first [apply le_encode_u8|done].

Lemma checksummed_order_done m :
  new_order_wf m -> h_length (no_header m) = Z.of_nat sizeof_NewOrderMessage ->
  Forall (fun x => u8 x) (BoundedString.data_ (no_client_id m)) ->
  Forall (fun x => u8 x) (BoundedString.data_ (no_symbol m)) ->
  exists m', checksummed_order m = Done m' /\ new_order_wf m' /\ h_type (no_header m') = h_type (no_header m) /\
    h_length (no_header m') = h_length (no_header m) /\
    validate_checksum (no_header m') (payload (encode_new_order m')) = Some true /\
    (forall now, TcpGateway.order_of_message m' now = TcpGateway.order_of_message m now).
Proof.
  intros Hm Hl Hc Hs.
  destruct (stamped (no_header m) (drop sizeof_header (encode_new_order m))) as (h & E & Hw & Ht & Hlh & Hv);
    [apply Hm|rewrite Hl length_drop length_encode_new_order //|by rewrite Hl|unfold encode_new_order; bytes_u8|].
  eexists. split; [unfold checksummed_order, payload; by rewrite E|].
  split; [by destruct Hm; split|]. split; [done|]. split; [done|]. split; [|done].
  unfold payload. rewrite order_payload. exact Hv.
Qed.

Lemma checksummed_cancel_done m :
  cancel_order_wf m -> h_length (co_header m) = Z.of_nat sizeof_CancelOrderMessage ->
  Forall (fun x => u8 x) (BoundedString.data_ (co_client_id m)) ->
  Forall (fun x => u8 x) (BoundedString.data_ (co_symbol m)) ->
  exists m', checksummed_cancel m = Done m' /\ cancel_order_wf m' /\ h_type (co_header m') = h_type (co_header m) /\
    h_length (co_header m') = h_length (co_header m) /\
    validate_checksum (co_header m') (payload (encode_cancel_order m')) = Some true /\
    co_order_id m' = co_order_id m /\ co_client_id m' = co_client_id m /\ co_symbol m' = co_symbol m.
Proof.
  intros Hm Hl Hc Hs.
  destruct (stamped (co_header m) (drop sizeof_header (encode_cancel_order m))) as (h & E & Hw & Ht & Hlh & Hv);
    [apply Hm|rewrite Hl length_drop length_encode_cancel_order //|by rewrite Hl|unfold encode_cancel_order; bytes_u8|].
  eexists. split; [unfold checksummed_cancel, payload; by rewrite E|].
  split; [by destruct Hm; split|]. split; [done|]. split; [done|]. split; [|done].
  unfold payload. rewrite cancel_payload. exact Hv.
Qed.

Lemma header_made ty len sq ts :
  u32 ty -> u32 len -> u64 sq -> u64 ts -> header_wf (MessageHeader_make ty len sq ts).
Proof. intros. by split. Qed.

(** The message of an order and of a cancellation, as both clients build them. *)
Lemma order_made sq ts id client_id symbol side q p :
  u64 sq -> u64 ts -> u64 id -> u32 client_id -> request_ok (NewOrder symbol side q p) ->
  exists ct st m, text 32 (print_u64 client_id) = Done ct /\ text 8 symbol = Done st /\
    checksummed_order (mkNewOrder (MessageHeader_make NEW_ORDER (Z.of_nat sizeof_NewOrderMessage) sq ts) id ct st
      (byte_of_Side side) q p (byte_of_OrderType LIMIT)) = Done m /\
    says id client_id (NewOrder symbol side q p) (SentOrder m) /\
    length (encode_new_order m) = sizeof_NewOrderMessage /\
    field (encode_new_order m) 4 4 = Z.of_nat sizeof_NewOrderMessage.
Proof.
  intros Hsq Hts Hid Hc (Hst & Hsl & Hside & Hq & Hp). destruct (print_u64_text client_id) as [Hct Hcl]; [u_lia|].
  destruct (text_done 32 (print_u64 client_id)) as (ct & Ect & Hcw & Hcs & Hcu); [lia|done|done|done|].
  destruct (text_done 8 symbol) as (st & Est & Hsw & Hss & Hsu); [lia|done|done|done|].
  set (m0 := mkNewOrder (MessageHeader_make NEW_ORDER (Z.of_nat sizeof_NewOrderMessage) sq ts) id ct st
    (byte_of_Side side) q p (byte_of_OrderType LIMIT)).
  assert (new_order_wf m0) as Hw0.
  { split; [by apply header_made|done|done|done|by destruct Hside as [-> | ->]|done|done|done]. }
  destruct (checksummed_order_done m0 Hw0 eq_refl Hcu Hsu) as (m & Em & Hw & Ht & Hl & Hv & Ho').
  exists ct, st, m. do 3 (split; [done|]). split; [|split].
  { split; [done|]. split; [done|]. split; [done|]. intros now. rewrite Ho'. unfold TcpGateway.order_of_message, m0.
    cbn [no_price no_quantity no_order_id no_side no_order_type no_symbol no_client_id]. rewrite Hcs Hss.
    by destruct Hside as [-> | ->]. }
  { by apply length_encode_new_order. }
  pose proof (decode_new_order_app m [] Hw) as Hd. rewrite app_nil_r in Hd.
  change (h_length (no_header (decode_new_order (encode_new_order m))) = Z.of_nat sizeof_NewOrderMessage).
  by rewrite Hd Hl.
Qed.

Lemma cancel_made sq ts id client_id symbol any :
  u64 sq -> u64 ts -> u32 client_id -> request_ok (CancelOrder id symbol) ->
  exists ct st m, text 32 (print_u64 client_id) = Done ct /\ text 8 symbol = Done st /\
    checksummed_cancel (mkCancelOrder (MessageHeader_make CANCEL_ORDER (Z.of_nat sizeof_CancelOrderMessage) sq ts) id ct st)
      = Done m /\
    says any client_id (CancelOrder id symbol) (SentCancel m) /\
    length (encode_cancel_order m) = sizeof_CancelOrderMessage /\
    field (encode_cancel_order m) 4 4 = Z.of_nat sizeof_CancelOrderMessage.
Proof.
  intros Hsq Hts Hc (Hst & Hsl & Hid). destruct (print_u64_text client_id) as [Hct Hcl]; [u_lia|].
  destruct (text_done 32 (print_u64 client_id)) as (ct & Ect & Hcw & Hcs & Hcu); [lia|done|done|done|].
  destruct (text_done 8 symbol) as (st & Est & Hsw & Hss & Hsu); [lia|done|done|done|].
  set (m0 := mkCancelOrder (MessageHeader_make CANCEL_ORDER (Z.of_nat sizeof_CancelOrderMessage) sq ts) id ct st).
  assert (cancel_order_wf m0) as Hw0.
  { split; [by apply header_made|done|done|done]. }
  destruct (checksummed_cancel_done m0 Hw0 eq_refl Hcu Hsu) as (m & Em & Hw & Ht & Hl & Hv & Hi & Hc1 & Hs1).
  exists ct, st, m. do 3 (split; [done|]). split; [|split].
  { cbn [says]. rewrite Hi Hc1 Hs1. done. }
  { by apply length_encode_cancel_order. }
  pose proof (decode_cancel_order_app m [] Hw) as Hd. rewrite app_nil_r in Hd.
  change (h_length (co_header (decode_cancel_order (encode_cancel_order m))) = Z.of_nat sizeof_CancelOrderMessage).
  by rewrite Hd Hl.
Qed.

(** What [issue] hands to [send]. *)
Lemma issue_done r c :
  request_ok r -> u32 (client_id_ c) -> u64 (next_order_id_ c) -> socket_open c = true ->
  exists m, says (next_order_id_ c) (client_id_ c) r m /\ length (encode m) = sizeof_request r /\
    field (encode m) 4 4 = Z.of_nat (sizeof_request r) /\
    issue r c = Done
      (let '(ok, c') := send_message send_result m (numbered r c) in
       (ok, if ok && (takes_id r =? 1) then inc_orders_sent c' else c')).
Proof.
  intros Hr Hid Hn Ho. pose proof (wrap_range 64 (sequence_ c + 1) ltac:(lia)) as Hsq.
  destruct r as [symbol side q p|id symbol]; cbn [issue numbered sizeof_request].
  - destruct (order_made (sequence_ c +₆₄ 1) (timestamp (ticks c)) (next_order_id_ c) (client_id_ c) symbol side q p)
      as (ct & st & m & Ect & Est & Em & Hs & Hl & Hf); [done..|].
    exists (SentOrder m). do 3 (split; [done|]). unfold send_new_order. cbn [generate_order_id].
    cbn [client_id_ bump_order_id bump_sequence sequence_ ticks pred].
    rewrite Ect. cbn [omap_outcome]. rewrite Est. cbn [omap_outcome]. rewrite Em. cbn [omap_outcome].
    fold (bump_sequence c). destruct (send_message _ _ _) as [ok c']. by rewrite andb_true_r.
  - destruct (cancel_made (sequence_ c +₆₄ 1) (timestamp (ticks c)) id (client_id_ c) symbol (next_order_id_ c))
      as (ct & st & m & Ect & Est & Em & Hs & Hl & Hf); [done..|].
    exists (SentCancel m). do 3 (split; [done|]). unfold send_cancel_order.
    cbn [client_id_ bump_sequence sequence_ ticks pred].
    rewrite Ect. cbn [omap_outcome]. rewrite Est. cbn [omap_outcome]. rewrite Em. cbn [omap_outcome].
    fold (bump_sequence c). destruct (send_message _ _ _) as [ok c']. by rewrite andb_false_r.
Qed.

(** Requests one after the other. *)
Fixpoint issues (rs : list request) (c : t) : outcome (list bool * t) :=
  match rs with
  | [] => Done ([], c)
  | r :: rs => let! x := issue r c in let! y := issues rs x.2 in Done (x.1 :: y.1, y.2)
  end.

(** Order ids count up from [id]. *)
Fixpoint all_say (id client_id : Z) (rs : list request) (ms : list message) : Prop :=
  match rs, ms with
  | [], [] => True
  | r :: rs, m :: ms => says id client_id r m /\ all_say (id + takes_id r) client_id rs ms
  | _, _ => False
  end.

Definition orders_in (rs : list request) : Z := sumZ (takes_id <$> rs).

(** Every [send] takes its whole message. *)
Definition complete_sends : Prop := forall n size, send_result n size = size.

Lemma orders_in_nonneg rs : 0 <= orders_in rs.
Proof.
  apply sumZ_nonneg, Forall_forall. intros x (r & -> & _)%list_elem_of_fmap. by destruct r.
Qed.

(** A complete message behind a stream of complete messages is one more frame. *)
Lemma parse_snoc b fs f :
  parse_stream b = (fs, Partial []) -> (28 <= length f <= 4096)%nat -> field f 4 4 = Z.of_nat (length f) ->
  parse_stream (b ++ f) = (fs ++ [f], Partial []).
Proof.
  intros Hb Hl Hf. rewrite parse_app Hb. cbn [app].
  assert (parse_stream f = ([f], Partial [])) as ->; [|done].
  rewrite parse_unfold. unfold sizeof_header. rewrite (proj2 (Nat.ltb_ge _ _)); [lia|]. cbn zeta. rewrite Hf.
  rewrite (proj2 (Z.ltb_ge _ 28)); [lia|]. rewrite (proj2 (Z.ltb_ge 4096 _)); [lia|].
  rewrite Z.ltb_irrefl Nat2Z.id take_ge // drop_ge //.
Qed.

Lemma issue_complete r c fs :
  request_ok r -> u32 (client_id_ c) -> u64 (next_order_id_ c) -> socket_open c = true ->
  complete_sends ->
  parse_stream (wire c) = (fs, Partial []) ->
  exists m c', issue r c = Done (true, c') /\ says (next_order_id_ c) (client_id_ c) r m /\
    sent_log c' = sent_log c ++ [m] /\ parse_stream (wire c') = (fs ++ [encode m], Partial []) /\
    client_id_ c' = client_id_ c /\ socket_open c' = true /\
    next_order_id_ c' = wrap 64 (next_order_id_ c + takes_id r) /\
    orders_sent_ c' = if takes_id r =? 1 then orders_sent_ c +₆₄ 1 else orders_sent_ c.
Proof.
  intros Hr Hid Hn Ho Hs Hp. destruct (issue_done r c Hr Hid Hn Ho) as (m & Hm & Hl & Hf & E).
  assert (28 <= sizeof_request r <= 4096)%nat as Hz.
  { destruct r; unfold sizeof_request, sizeof_NewOrderMessage, sizeof_CancelOrderMessage, sizeof_header, sizeof_bounded; lia. }
  pose proof (parse_snoc (wire c) fs (encode m) Hp ltac:(lia) ltac:(by rewrite Hl)) as Hw.
  exists m. unfold send_message in E.
  replace (socket_open (numbered r c)) with true in E by (by destruct r).
  replace (sent_log (numbered r c)) with (sent_log c) in E by (by destruct r).
  cbn [negb] in E. rewrite Hs Z.eqb_refl Nat2Z.id firstn_all in E.
  eexists. split; [exact E|]. split; [done|].
  destruct r; cbn [takes_id Z.eqb Pos.eqb andb]; split_and!; try done.
  symmetry. rewrite Z.add_0_r. by apply wrap_small.
Qed.

(** C32: the gateway reads what a client sends.  Over any sequence of well-formed
    order and cancel requests whose sends are complete, every call succeeds, the
    client's byte stream is cut by the gateway's framing into exactly the
    messages sent, in order and with nothing left over; each carries a valid
    checksum and decodes to the request - the order the gateway stores has the
    requested side, price, quantity, symbol and client - under consecutive order
    ids. *)
Theorem client_stream_read rs : forall c fs,
  Forall request_ok rs -> u32 (client_id_ c) -> 0 <= next_order_id_ c -> next_order_id_ c + orders_in rs < 2 ^ 64 ->
  socket_open c = true -> complete_sends ->
  parse_stream (wire c) = (fs, Partial []) ->
  exists ms c', issues rs c = Done (replicate (length rs) true, c') /\
    sent_log c' = sent_log c ++ ms /\ all_say (next_order_id_ c) (client_id_ c) rs ms /\
    parse_stream (wire c') = (fs ++ (encode <$> ms), Partial []) /\
    next_order_id_ c' = next_order_id_ c + orders_in rs.
Proof.
  induction rs as [|r rs IH]; intros c fs Hr Hid Hn Hb Ho Hs Hp.
  { exists [], c. rewrite !app_nil_r. cbn [orders_in sumZ foldr fmap list_fmap]. split_and!; try done.
    cbn. lia. }
  apply Forall_cons in Hr as [Hr Hrs].
  pose proof (orders_in_nonneg rs) as H0. unfold orders_in in *. cbn [fmap list_fmap] in Hb. rewrite sumZ_cons in Hb.
  assert (0 <= takes_id r) by (destruct r; simpl; lia).
  destruct (issue_complete r c fs) as (m & c1 & E & Hm & Hlog & Hp1 & Hid1 & Ho1 & Hn1 & _); [done|done|u_lia|done..|].
  assert (next_order_id_ c1 = next_order_id_ c + takes_id r) as Hn1' by (rewrite Hn1; apply wrap_small; u_lia).
  destruct (IH c1 (fs ++ [encode m])) as (ms & c' & E' & Hlog' & Hsay & Hp' & Hn'); [done|by rewrite Hid1|lia|lia|done..|].
  exists (m :: ms), c'. cbn [issues replicate length]. rewrite E. cbn [omap_outcome snd fst]. rewrite E'. cbn [omap_outcome].
  split; [done|]. split; [by rewrite Hlog' Hlog -app_assoc|]. split.
  { cbn [all_say]. split; [done|]. by rewrite -Hn1' -Hid1. }
  split; [by rewrite Hp' -app_assoc|]. cbn [fmap list_fmap]. rewrite sumZ_cons. lia.
Qed.
End sending.

Lemma client_stream_read_witness :
  let c := ClientBase.set_socket true (ClientBase.make 7) in
  let rs := [NewOrder (cstr "AAPL") BUY 100 1500000; CancelOrder 1 (cstr "AAPL")] in
  let sends := fun (_ : nat) size => size in
  exists ms c', issues (fun _ => 5) sends rs c = Done ([true; true], c') /\
    ClientBase.sent_log c' = ms /\ all_say 1 7 rs ms /\
    parse_stream (ClientBase.wire c') = (ClientBase.encode <$> ms, Partial []).
Proof.
  intros c rs sends.
  destruct (client_stream_read (fun _ => 5) sends ltac:(intros; u_lia) rs c []) as (ms & c' & H1 & H2 & H3 & H4 & _).
  - repeat constructor; try (simpl; lia); try u_lia; by left.
  - simpl. u_lia.
  - simpl. lia.
  - reflexivity.
  - reflexivity.
  - intros n size. reflexivity.
  - reflexivity.
  - exists ms, c'. exact (conj H1 (conj H2 (conj H3 H4))).
Defined.

(** ** What every strategy keeps *)

Class StrategyLaws (S : Type) `{Strategy S} := {
  base_set_base c (s : S) : base (set_base c s) = c;
  ack_socket a (s s' : S) :
    on_order_ack a s = Done s' -> ClientBase.socket_open (base s') = ClientBase.socket_open (base s);
  trade_socket t (s s' : S) :
    on_trade t s = Done s' -> ClientBase.socket_open (base s') = ClientBase.socket_open (base s)
}.

Lemma let_done {A B} (e : outcome A) (k : A -> outcome B) y :
  (let! x := e in k x) = Done y -> exists x, e = Done x /\ k x = Done y.
Proof. destruct e as [x| |]; [|done..]. by exists x. Qed.

Ltac inv_done H := repeat (apply let_done in H as (? & ? & H)).

Section laws.
Variable timestamp : nat -> Timestamp.
Variable send_result : nat -> Z -> Z.
Variable uniform : nat -> Z -> Z -> Z.

Lemma send_message_socket m c : ClientBase.socket_open (ClientBase.send_message send_result m c).2 = ClientBase.socket_open c.
Proof. unfold ClientBase.send_message. by destruct (negb _). Qed.

Lemma send_new_order_socket s d q p c x :
  ClientBase.send_new_order timestamp send_result s d q p c = Done x -> ClientBase.socket_open x.2 = ClientBase.socket_open c.
Proof.
  intros E. unfold ClientBase.send_new_order in E. cbn [ClientBase.generate_order_id] in E. inv_done E.
  match type of E with context [ClientBase.send_message _ ?m ?c'] =>
    pose proof (send_message_socket m c') as Hs; destruct (ClientBase.send_message send_result m c') as [ok c1] end.
  injection E as <-. by destruct ok.
Qed.

Lemma send_cancel_order_socket i s c x :
  ClientBase.send_cancel_order timestamp send_result i s c = Done x -> ClientBase.socket_open x.2 = ClientBase.socket_open c.
Proof.
  intros E. unfold ClientBase.send_cancel_order in E. inv_done E. injection E as <-. by rewrite send_message_socket.
Qed.

Lemma cancel_existing_socket m m' :
  cancel_existing_orders timestamp send_result m = Done m' ->
  ClientBase.socket_open (mm_base m') = ClientBase.socket_open (mm_base m).
Proof.
  unfold cancel_existing_orders. intros E. apply let_done in E as (m1 & E1 & E).
  assert (ClientBase.socket_open (mm_base m1) = ClientBase.socket_open (mm_base m)) as H1.
  { destruct (0 <? bid_order_id_ m); [|by injection E1 as <-].
    apply let_done in E1 as (r & Er & E1). injection E1 as <-. by apply send_cancel_order_socket in Er. }
  destruct (0 <? ask_order_id_ m1); [|by injection E as <-].
  apply let_done in E as (r & Er & E). injection E as <-. apply send_cancel_order_socket in Er. by rewrite -H1 -Er.
Qed.

Lemma update_quotes_socket m m' :
  update_quotes timestamp send_result uniform m = Done m' ->
  ClientBase.socket_open (mm_base m') = ClientBase.socket_open (mm_base m).
Proof.
  unfold update_quotes. intros E. apply let_done in E as (m1 & E1 & E). apply cancel_existing_socket in E1 as <-.
  cbn [ClientBase.random_int] in E. apply let_done in E as (r & Er & E). apply send_new_order_socket in Er.
  apply let_done in E as (r' & Er' & E). apply send_new_order_socket in Er'. injection E as <-.
  destruct (r.1), (r'.1); cbn [mm_set_base mm_set_bid mm_set_ask mm_base] in *; by rewrite Er' Er.
Qed.

#[global] Instance MarketMaker_laws : @StrategyLaws _ (MarketMaker_strategy timestamp send_result uniform).
Proof.
  split; [done|by intros ??? [= <-]|]. intros t m m' E.
  apply let_done in E as (m1 & E1 & E). apply update_quotes_socket in E.
  apply cancel_existing_socket in E1. cbn [base MarketMaker_strategy] in *. by rewrite E E1.
Qed.

#[global] Instance Momentum_laws : @StrategyLaws _ (Momentum_strategy timestamp send_result).
Proof. split; [done|by intros ??? [= <-]|by intros ??? [= <-]]. Qed.

#[global] Instance Arbitrage_laws : @StrategyLaws _ (Arbitrage_strategy timestamp send_result).
Proof.
  split; [done|by intros ??? [= <-]|]. intros t a a' E. apply let_done in E as (sy & _ & E). injection E as <-.
  by repeat case_bool_decide.
Qed.

#[global] Instance LiquidityTaker_laws : @StrategyLaws _ (LiquidityTaker_strategy timestamp send_result uniform).
Proof. split; [done|by intros ??? [= <-]|by intros ??? [= <-]]. Qed.
End laws.

(** ** Receiving *)

Definition nonempty (chunks : list (list Z)) : Prop := Forall (fun c => c <> []) chunks.

Lemma recv_some (n : nat) chunks :
  (0 < n)%nat -> nonempty chunks -> chunks <> [] ->
  exists bytes rest, recv true (Z.of_nat n) chunks WouldBlock = (Received bytes, rest) /\
    bytes <> [] /\ (length bytes <= n)%nat /\ nonempty rest /\ bytes ++ concat rest = concat chunks.
Proof.
  intros Hn Hne Hc. destruct chunks as [|c rest]; [done|]. apply Forall_cons in Hne as [Hc0 Hne].
  unfold recv. rewrite (proj2 (Z.eqb_neq _ _)); [lia|]. cbn [negb].
  destruct (Z.leb_spec (Z.of_nat (length c)) (Z.of_nat n)).
  - exists c, rest. split_and!; try done. lia.
  - rewrite Nat2Z.id. exists (take n c), (drop n c :: rest). split; [done|]. split.
    { intros E%(f_equal length). rewrite length_take /= in E. lia. }
    split; [rewrite length_take; lia|]. split.
    { constructor; [|done]. intros E%(f_equal length). rewrite length_drop /= in E. lia. }
    cbn [concat]. by rewrite app_assoc take_drop.
Qed.

(** Enough bytes in the stream are received whatever the chunks. *)
Lemma receive_loop_done size fuel : forall acc chunks,
  (length acc <= size)%nat -> (size <= length acc + fuel)%nat -> nonempty chunks ->
  (size <= length acc + length (concat chunks))%nat ->
  exists rest, ClientBase.receive_loop fuel acc size chunks
      = (ClientBase.Got (acc ++ take (size - length acc) (concat chunks)), rest) /\
    nonempty rest /\ concat rest = drop (size - length acc) (concat chunks).
Proof.
  induction fuel as [|fuel IH]; intros acc chunks Ha Hf Hne Hs; cbn [ClientBase.receive_loop];
    destruct (Nat.leb_spec size (length acc)) as [Hle|Hlt]; try lia.
  1,2: replace (size - length acc)%nat with 0%nat by lia; exists chunks; by rewrite app_nil_r drop_0.
  destruct (recv_some (size - length acc) chunks) as (bytes & rest & -> & Hb & Hbl & Hner & Hcat); [lia|done| |].
  { intros ->. simpl in Hs. lia. }
  destruct bytes as [|b bytes]; [done|].
  assert (1 <= length (b :: bytes))%nat as H1 by (simpl; lia). set (by_ := b :: bytes) in *. clearbody by_.
  rewrite -Hcat length_app in Hs.
  destruct (IH (acc ++ by_) rest) as (rest' & -> & Hne' & Hc'); [rewrite length_app; lia..|done|rewrite length_app; lia|].
  exists rest'. rewrite length_app in Hc' |- *. rewrite -Hcat. split; [|split; [done|]].
  - f_equal. f_equal. rewrite -app_assoc. f_equal. rewrite take_app_ge; [lia|]. f_equal. f_equal. lia.
  - rewrite Hc' drop_app_ge; [lia|]. f_equal. lia.
Qed.

Lemma receive_message_done fuel size chunks head tail :
  nonempty chunks -> concat chunks = head ++ tail -> length head = size -> (size <= fuel)%nat ->
  exists rest, ClientBase.receive_message true fuel size chunks = (ClientBase.Got head, rest) /\
    nonempty rest /\ concat rest = tail.
Proof.
  intros Hne Hc Hl Hf. destruct (receive_loop_done size fuel [] chunks) as (rest & E & Hr & Hcr).
  { simpl. lia. }
  { simpl. lia. }
  { done. }
  { rewrite Hc length_app. simpl. lia. }
  exists rest. unfold ClientBase.receive_message. cbn [negb]. rewrite E. cbn [length app] in *.
  rewrite Nat.sub_0_r in Hcr |- *. rewrite Hc in Hcr |- *. by rewrite -Hl take_app_length drop_app_length in Hcr |- *.
Qed.

Section receiving.
Context {St : Type} `{StrategyLaws St}.
#[local] Set Default Proof Using "Type*".

(** What the exchange sends to a client. *)
Inductive reply := Ack (a : OrderAckMessage) | Report (t : TradeMessage).

Definition reply_ok (r : reply) : Prop :=
  match r with
  | Ack a => order_ack_wf a /\ h_type (oa_header a) = ORDER_ACK
  | Report t => trade_wf t /\ h_type (tm_header t) = TRADE_REPORT
  end.

Definition encode_reply (r : reply) : list Z :=
  match r with Ack a => encode_order_ack a | Report t => encode_trade t end.

(** The counters and the strategy's method for one message. *)
Definition dispatch (r : reply) (s : St) : outcome St :=
  match r with
  | Ack a =>
      on_order_ack a (set_base (if oa_status a =? 1 then ClientBase.inc_orders_acked (base s)
                                else ClientBase.inc_orders_rejected (base s)) s)
  | Report t => on_trade t (set_base (ClientBase.inc_trades_received (base s)) s)
  end.

Fixpoint dispatches (rs : list reply) (s : St) : outcome St :=
  match rs with [] => Done s | r :: rs => let! s := dispatch r s in dispatches rs s end.

Fixpoint rounds (n : nat) (chunks : list (list Z)) (s : St) : outcome (list (list Z) * St) :=
  match n with
  | O => Done (chunks, s)
  | S n => let! x := receiver_round chunks s in rounds n x.1.2 x.2
  end.

Lemma dispatch_socket r s s' :
  dispatch r s = Done s' -> ClientBase.socket_open (base s') = ClientBase.socket_open (base s).
Proof.
  destruct r as [a|t]; cbn [dispatch]; intros E; [apply ack_socket in E|apply trade_socket in E];
    rewrite E base_set_base; [by destruct (_ =? 1)|done].
Qed.

(** One complete message is one round. *)
Lemma receiver_round_done r chunks tail s :
  ClientBase.socket_open (base s) = true -> reply_ok r -> nonempty chunks -> concat chunks = encode_reply r ++ tail ->
  exists rest, nonempty rest /\ concat rest = tail /\
    receiver_round chunks s = let! s := dispatch r s in Done (true, rest, s).
Proof.
  intros Ho Hr Hne Hc. unfold receiver_round, receiver_turn. rewrite Ho.
  assert (28 <= length (encode_reply r))%nat as Hlen.
  { destruct r as [a|t]; cbn [encode_reply reply_ok] in *.
    - rewrite length_encode_order_ack; [apply Hr|]. unfold sizeof_OrderAckMessage, sizeof_header. lia.
    - rewrite length_encode_trade; [apply Hr|]. unfold sizeof_TradeMessage, sizeof_header. lia. }
  destruct (receive_message_done 28 28 chunks (take 28 (encode_reply r)) (drop 28 (encode_reply r) ++ tail))
    as (rest1 & E1 & Hne1 & Hc1); [done|by rewrite app_assoc take_drop|by rewrite length_take; lia|done|].
  change sizeof_header with 28%nat. rewrite E1.
  destruct r as [a|t]; cbn [encode_reply reply_ok dispatch] in *; destruct Hr as [Hw Ht].
  - replace (h_type (decode_header (take 28 (encode_order_ack a)))) with ORDER_ACK.
    2:{ unfold encode_order_ack. rewrite (take_app_length' _ _ 28); [by rewrite length_encode_header|].
        rewrite -{1}(app_nil_r (encode_header _)) decode_header_app //. apply Hw. }
    cbn [Z.eqb Pos.eqb ORDER_ACK].
    destruct (receive_message_done sizeof_TradeMessage (sizeof_OrderAckMessage - 28) rest1 (drop 28 (encode_order_ack a)) tail)
      as (rest2 & E2 & Hne2 & Hc2); [done|done|by rewrite length_drop length_encode_order_ack|by apply Nat.leb_le|].
    rewrite E2 take_drop. exists rest2. split_and!; [done..|].
    pose proof (decode_order_ack_app a [] Hw) as Hd. rewrite app_nil_r in Hd. by rewrite Hd.
  - replace (h_type (decode_header (take 28 (encode_trade t)))) with TRADE_REPORT.
    2:{ unfold encode_trade. rewrite (take_app_length' _ _ 28); [by rewrite length_encode_header|].
        rewrite -{1}(app_nil_r (encode_header _)) decode_header_app //. apply Hw. }
    cbn [Z.eqb Pos.eqb ORDER_ACK TRADE_REPORT].
    destruct (receive_message_done sizeof_TradeMessage (sizeof_TradeMessage - 28) rest1 (drop 28 (encode_trade t)) tail)
      as (rest2 & E2 & Hne2 & Hc2); [done|done|by rewrite length_drop length_encode_trade|lia|].
    rewrite E2 take_drop. exists rest2. split_and!; [done..|].
    pose proof (decode_trade_app t [] Hw) as Hd. rewrite app_nil_r in Hd. by rewrite Hd.
Qed.

(** A client dispatches every message it is sent, whatever the network does
    to the stream.  For acknowledgements and trade reports that arrive one
    behind the other, cut into any non-empty pieces, one round of the receiver
    per message counts and hands each of them to the strategy, in order, and
    leaves nothing in the stream. *)
Theorem client_receives_all rs : forall chunks s,
  ClientBase.socket_open (base s) = true -> Forall reply_ok rs -> nonempty chunks ->
  concat chunks = concat (encode_reply <$> rs) ->
  rounds (length rs) chunks s = let! s' := dispatches rs s in Done ([], s').
Proof.
  induction rs as [|r rs IH]; intros chunks s Ho Hr Hne Hc.
  { destruct Hne as [|c cs Hcn Hcs]; [done|]. simpl in Hc. by destruct c. }
  apply Forall_cons in Hr as [Hr Hrs]. cbn [length rounds dispatches fmap list_fmap concat] in *.
  destruct (receiver_round_done r chunks (concat (encode_reply <$> rs)) s) as (rest & Hne1 & Hc1 & ->); [done..|].
  destruct (dispatch r s) as [s1| |] eqn:Ed; [|done..]. cbn [omap_outcome fst snd].
  apply IH; [|done..]. by rewrite (dispatch_socket r s s1 Ed).
Qed.
End receiving.

#[local] Existing Instance LiquidityTaker_strategy.

(** An acknowledgement and a report for the witness. *)
Definition ex_ack : OrderAckMessage :=
  mkOrderAck (mkHeader ORDER_ACK 77 1 5 0) 9 1 (BoundedString.init 32).
Definition ex_report : TradeMessage :=
  mkTradeMessage (mkHeader TRADE_REPORT 92 2 6 0) 1 9 8 (BoundedString.init 8) 10 150000 7.

Lemma ex_replies_ok : Forall reply_ok [Ack ex_ack; Report ex_report].
Proof.
  apply Forall_cons_2; [|apply Forall_cons_2; [|apply Forall_nil_2]].
  - split; [|done]. split; [split| | |split; [done|]]; (split; vm_compute; congruence).
  - split; [|done]. split; [split| | | |split; [done|]| | |]; (split; vm_compute; congruence).
Qed.

Lemma client_receives_all_witness :
  let s := LiquidityTaker_make 7 (cstr "AAPL") in
  let s := lt_set_base (ClientBase.set_socket true (lt_base s)) s in
  let stream := encode_order_ack ex_ack ++ encode_trade ex_report in
  @rounds _ (LiquidityTaker_strategy (fun _ => 0) (fun _ _ => 0) (fun _ a _ => a)) 2 [take 20 stream; drop 20 stream] s
    = Done ([], lt_set_base (ClientBase.inc_trades_received (ClientBase.inc_orders_acked (lt_base s))) s).
Proof.
  intros s0 s stream.
  assert (nonempty [take 20 stream; drop 20 stream]) as Hne.
  { apply Forall_cons_2; [discriminate|apply Forall_cons_2; [discriminate|apply Forall_nil_2]]. }
  exact (@client_receives_all _ (LiquidityTaker_strategy (fun _ => 0) (fun _ _ => 0) (fun _ a _ => a))
    (LiquidityTaker_laws (fun _ => 0) (fun _ _ => 0) (fun _ a _ => a))
    [Ack ex_ack; Report ex_report] [take 20 stream; drop 20 stream] s eq_refl
    ex_replies_ok Hne eq_refl).
Defined.

(** A message of any other type takes the receiver out of step: the body of a
    heartbeat is read as the next header. *)
Example heartbeat_desynchronises :
  let s := LiquidityTaker_make 7 (cstr "AAPL") in
  let s := lt_set_base (ClientBase.set_socket true (lt_base s)) s in
  let heartbeat := encode_header (mkHeader HEARTBEAT 36 1 5 0) ++ le_encode 8 5 in
  match @rounds _ (LiquidityTaker_strategy (fun _ => 0) (fun _ _ => 0) (fun _ a _ => a)) 3
          [heartbeat ++ encode_order_ack ex_ack] s with
  | Done (_, s') => ClientBase.orders_acked_ (lt_base s')
  | _ => -1
  end = 0.
Proof. vm_compute. reflexivity. Qed.

(** ** The market maker *)

Section logs.
Import ClientBase.

Definition order_ids (log : list message) : list Z :=
  omap (fun m => match m with SentOrder m => Some (no_order_id m) | _ => None end) log.
Definition cancelled_ids (log : list message) : list Z :=
  omap (fun m => match m with SentCancel m => Some (co_order_id m) | _ => None end) log.

(** Sent and not cancelled. *)
Definition outstanding (id : Z) (log : list message) : Prop := id ∈ order_ids log /\ id ∉ cancelled_ids log.

Lemma order_ids_snoc l m : order_ids (l ++ [m]) = order_ids l ++ order_ids [m].
Proof. apply omap_app. Qed.
Lemma cancelled_ids_snoc l m : cancelled_ids (l ++ [m]) = cancelled_ids l ++ cancelled_ids [m].
Proof. apply omap_app. Qed.

Lemma outstanding_order id l m : outstanding id (l ++ [SentOrder m]) <->
  outstanding id l \/ id = no_order_id m /\ id ∉ cancelled_ids l.
Proof.
  unfold outstanding. rewrite order_ids_snoc cancelled_ids_snoc !elem_of_app. cbn [order_ids cancelled_ids omap list_omap].
  rewrite list_elem_of_singleton. set_solver.
Qed.

Lemma outstanding_cancel id l m :
  outstanding id (l ++ [SentCancel m]) <-> outstanding id l /\ id <> co_order_id m.
Proof.
  unfold outstanding. rewrite order_ids_snoc cancelled_ids_snoc !elem_of_app. cbn [order_ids cancelled_ids omap list_omap].
  rewrite list_elem_of_singleton. set_solver.
Qed.

End logs.

Section market_maker.
Variable timestamp : nat -> Timestamp.
Variable send_result : nat -> Z -> Z.
Variable uniform : nat -> Z -> Z -> Z.
Hypothesis timestamp_u64 : forall n, u64 (timestamp n).
Hypothesis sends_complete : complete_sends send_result.
#[local] Set Default Proof Using "Type*".
Import ClientBase.

(** A connected client whose stream is whole and whose ids lie below the next. *)
Record client_ok (c : t) : Prop := {
  co_id : u32 (client_id_ c);
  co_open : socket_open c = true;
  co_next : 1 <= next_order_id_ c < 2 ^ 64;
  co_whole : exists fs, parse_stream (wire c) = (fs, Partial []);
  co_orders : forall id, id ∈ order_ids (sent_log c) -> 0 < id < next_order_id_ c;
  co_cancels : forall id, id ∈ cancelled_ids (sent_log c) -> 0 < id < next_order_id_ c
}.

(** One more order: it is outstanding beside the others. *)
Lemma order_step symbol side q p c :
  client_ok c -> request_ok (NewOrder symbol side q p) -> next_order_id_ c < 2 ^ 64 - 1 ->
  exists c' m, send_new_order timestamp send_result symbol side q p c = Done (true, c') /\ client_ok c' /\
    next_order_id_ c' = next_order_id_ c + 1 /\ sent_log c' = sent_log c ++ [SentOrder m] /\
    no_order_id m = next_order_id_ c /\ no_price m = p /\
    (forall id, outstanding id (sent_log c') <-> outstanding id (sent_log c) \/ id = next_order_id_ c).
Proof.
  intros Hc Hr Hn. destruct Hc as [Hid Ho Hnx [fs Hfs] Hos Hcs].
  destruct (issue_complete timestamp send_result timestamp_u64 (NewOrder symbol side q p) c fs)
    as (m & c' & E & Hm & Hlog & Hp & Hid' & Ho' & Hn' & _); [done|done|u_lia|done|done|done|].
  destruct m as [m|]; [|done]. destruct Hm as (Hw & _ & _ & Hord). specialize (Hord 0).
  assert (no_order_id m = next_order_id_ c /\ no_price m = p) as [Hmi Hmp].
  { by injection Hord. }
  cbn [takes_id] in Hn'. rewrite wrap_small in Hn'; [u_lia|].
  exists c', m. split; [exact E|].
  assert (forall id, outstanding id (sent_log c') <-> outstanding id (sent_log c) \/ id = next_order_id_ c) as Hout.
  { intros id. rewrite Hlog outstanding_order Hmi. split; [tauto|]. intros [?|Hx]; [by left|]. subst id. right. split; [done|].
    intros Hin. apply Hcs in Hin. lia. }
  split; [|by split_and!]. split; [by rewrite Hid'|done|lia|by eexists| |].
  - intros id. rewrite Hlog order_ids_snoc elem_of_app. cbn [order_ids omap list_omap]. rewrite list_elem_of_singleton Hn' Hmi.
    intros [Hin|Hin]; [apply Hos in Hin|]; lia.
  - intros id. rewrite Hlog cancelled_ids_snoc elem_of_app. cbn [cancelled_ids omap list_omap].
    intros [Hin|Hin]; [apply Hcs in Hin; lia|by apply not_elem_of_nil in Hin].
Qed.

Lemma cancel_step id0 symbol c :
  client_ok c -> request_ok (CancelOrder id0 symbol) -> 0 < id0 < next_order_id_ c ->
  exists c', send_cancel_order timestamp send_result id0 symbol c = Done (true, c') /\ client_ok c' /\
    next_order_id_ c' = next_order_id_ c /\
    (forall id, outstanding id (sent_log c') <-> outstanding id (sent_log c) /\ id <> id0).
Proof.
  intros Hc Hr Hi. destruct Hc as [Hid Ho Hnx [fs Hfs] Hos Hcs].
  destruct (issue_complete timestamp send_result timestamp_u64 (CancelOrder id0 symbol) c fs)
    as (m & c' & E & Hm & Hlog & Hp & Hid' & Ho' & Hn' & _); [done|done|u_lia|done|done|done|].
  destruct m as [|m]; [done|]. destruct Hm as (Hw & _ & _ & Hmi & _).
  cbn [takes_id] in Hn'. rewrite Z.add_0_r wrap_small in Hn'; [u_lia|].
  exists c'. split; [exact E|]. split; [split; [by rewrite Hid'|done|lia|by eexists| |]|split; [done|]].
  - intros id. rewrite Hlog order_ids_snoc elem_of_app. cbn [order_ids omap list_omap]. rewrite Hn'.
    intros [Hin|Hin]; [apply Hos in Hin; lia|by apply not_elem_of_nil in Hin].
  - intros id. rewrite Hlog cancelled_ids_snoc elem_of_app. cbn [cancelled_ids omap list_omap].
    rewrite list_elem_of_singleton Hn' Hmi. intros [Hin|Hin]; [apply Hcs in Hin|]; lia.
  - intros id. by rewrite Hlog outstanding_cancel Hmi.
Qed.

(** The market maker knows its outstanding quotes. *)
Record maker_ok (m : MarketMaker) : Prop := {
  mk_client : client_ok (mm_base m);
  mk_symbol : text_ok (mm_symbol_ m) /\ (length (mm_symbol_ m) < 8)%nat;
  mk_size : u64 (quote_size_ m);
  mk_bid : 0 <= bid_order_id_ m < next_order_id_ (mm_base m);
  mk_ask : 0 <= ask_order_id_ m < next_order_id_ (mm_base m);
  mk_quotes : forall id, outstanding id (sent_log (mm_base m)) <-> 0 < id /\ (id = bid_order_id_ m \/ id = ask_order_id_ m)
}.

Lemma cancel_existing_ok m :
  maker_ok m ->
  exists m', cancel_existing_orders timestamp send_result m = Done m' /\ maker_ok m' /\
    bid_order_id_ m' = 0 /\ ask_order_id_ m' = 0 /\ spread_ticks_ m' = spread_ticks_ m /\
    mm_base_price_ m' = mm_base_price_ m /\ next_order_id_ (mm_base m') = next_order_id_ (mm_base m).
Proof.
  intros [Hc [Hst Hsl] Hsz Hb Ha Hq]. pose proof (co_next _ Hc) as Hn. unfold cancel_existing_orders.
  assert (exists m1, (if 0 <? bid_order_id_ m then
      let! r := send_cancel_order timestamp send_result (bid_order_id_ m) (mm_symbol_ m) (mm_base m) in
      Done (mm_set_bid 0 (mm_set_base r.2 m)) else Done m) = Done m1 /\ client_ok (mm_base m1) /\
      next_order_id_ (mm_base m1) = next_order_id_ (mm_base m) /\
      m1 = mm_set_bid 0 (mm_set_base (mm_base m1) m) /\
      (forall id, outstanding id (sent_log (mm_base m1)) <->
         0 < id /\ id = ask_order_id_ m /\ id <> bid_order_id_ m))
    as (m1 & -> & Hc1 & Hn1 & Hm1 & Hq1).
  { destruct (Z.ltb_spec 0 (bid_order_id_ m)).
    - destruct (cancel_step (bid_order_id_ m) (mm_symbol_ m) (mm_base m)) as (c1 & -> & Hc1 & Hn1 & Ho1);
        [done|split_and!; try done; u_lia|lia|]. eexists. split; [done|]. split; [done|]. split; [done|]. split; [done|].
      intros id. cbn [mm_set_bid mm_set_base mm_base]. rewrite Ho1 Hq. lia.
    - exists m. split; [done|]. split; [done|]. split; [done|].
      assert (bid_order_id_ m = 0) as Hz by lia. split; [destruct m; simpl in *; by rewrite Hz|].
      intros id. rewrite Hq. lia. }
  cbn [omap_outcome]. rewrite Hm1. cbn [ask_order_id_ mm_set_bid mm_set_base mm_symbol_ mm_base].
  destruct (Z.ltb_spec 0 (ask_order_id_ m)).
  - destruct (cancel_step (ask_order_id_ m) (mm_symbol_ m) (mm_base m1)) as (c2 & -> & Hc2 & Hn2 & Ho2);
      [done|split_and!; try done; u_lia|lia|]. eexists. split; [done|]. split; [|by rewrite -Hn1 -Hn2].
    split; cbn; try done; try lia. intros id. rewrite Ho2 Hq1. lia.
  - eexists. split; [done|].
    assert (ask_order_id_ m = 0) as Hz by lia. split; [|cbn; by rewrite -Hn1].
    split; cbn; try done; try lia. intros id. rewrite Hq1. lia.
Qed.

Lemma maker_drawn m : maker_ok m -> maker_ok (mm_set_base (drawn (mm_base m)) m).
Proof. intros [[? ? ? ? ? ?] ? ? ? ? ?]. by split; [split|..]. Qed.

Lemma update_quotes_ok m :
  maker_ok m -> next_order_id_ (mm_base m) < 2 ^ 64 - 2 ->
  exists m' bid ask, update_quotes timestamp send_result uniform m = Done m' /\ maker_ok m' /\
    next_order_id_ (mm_base m') = next_order_id_ (mm_base m) + 2 /\
    bid_order_id_ m' = next_order_id_ (mm_base m) /\ ask_order_id_ m' = next_order_id_ (mm_base m) + 1 /\
    (exists log, sent_log (mm_base m') = log ++ [SentOrder bid; SentOrder ask]) /\
    no_order_id bid = bid_order_id_ m' /\ no_order_id ask = ask_order_id_ m' /\
    exists k, no_price bid = mm_base_price_ m +₆₄ uniform k (-5) 5 -₆₄ spread_ticks_ m /\
      no_price ask = mm_base_price_ m +₆₄ uniform k (-5) 5 +₆₄ spread_ticks_ m.
Proof.
  intros Hm Hn. unfold update_quotes.
  destruct (cancel_existing_ok m Hm) as (m1 & -> & Hm1 & Hb1 & Ha1 & Hsp & Hbp & Hn1). cbn [omap_outcome random_int].
  apply maker_drawn in Hm1. set (m2 := mm_set_base (drawn (mm_base m1)) m1) in *.
  destruct Hm1 as [Hc [Hst Hsl] Hsz Hb Ha Hq].
  assert (bid_order_id_ m2 = 0 /\ ask_order_id_ m2 = 0 /\ next_order_id_ (mm_base m2) = next_order_id_ (mm_base m) /\
    spread_ticks_ m2 = spread_ticks_ m /\ mm_base_price_ m2 = mm_base_price_ m) as (Hb2 & Ha2 & Hn2 & Hs2 & Hp2) by done.
  clearbody m2. rewrite Hs2 Hp2. set (a := uniform _ _ _).
  pose proof (co_next _ Hc) as Hnx.
  destruct (order_step (mm_symbol_ m2) BUY (quote_size_ m2) (mm_base_price_ m +₆₄ a -₆₄ spread_ticks_ m) (mm_base m2))
    as (c3 & b & -> & Hc3 & Hn3 & Hl3 & Hbi & Hbp3 & Ho3);
    [done|split_and!; try done; [by left|by apply wrap_range]|lia|].
  cbn [omap_outcome fst snd mm_set_base mm_set_bid mm_base mm_symbol_ quote_size_].
  destruct (order_step (mm_symbol_ m2) SELL (quote_size_ m2) (mm_base_price_ m +₆₄ a +₆₄ spread_ticks_ m) c3)
    as (c4 & k & -> & Hc4 & Hn4 & Hl4 & Hki & Hkp & Ho4);
    [done|split_and!; try done; [by right|by apply wrap_range]|lia|].
  cbn [omap_outcome fst snd mm_set_base mm_set_ask mm_base].
  assert (next_order_id_ c3 -₆₄ 1 = next_order_id_ (mm_base m)) as E3 by (rewrite wrap_small; u_lia).
  assert (next_order_id_ c4 -₆₄ 1 = next_order_id_ (mm_base m) + 1) as E4 by (rewrite wrap_small; u_lia).
  rewrite E3 E4. eexists _, b, k. split; [done|]. split.
  { split; cbn; try done; try lia. intros id. rewrite Ho4 Ho3 Hq. lia. }
  cbn. split; [lia|]. split; [done|]. split; [done|]. split.
  { exists (sent_log (mm_base m2)). by rewrite Hl4 Hl3 -app_assoc. }
  split; [lia|]. split; [lia|]. by eexists.
Qed.

(** What happens to a market maker: its start, ticks, and trades. *)
Inductive maker_event := Started | Ticked | Traded (trade : TradeMessage).

Definition maker_step (e : maker_event) (m : MarketMaker) : outcome MarketMaker :=
  match e with
  | Started => update_quotes timestamp send_result uniform m
  | Ticked => mm_on_tick timestamp send_result uniform m
  | Traded trade => mm_on_trade timestamp send_result uniform trade m
  end.

Fixpoint maker_run (es : list maker_event) (m : MarketMaker) : outcome MarketMaker :=
  match es with [] => Done m | e :: es => let! m := maker_step e m in maker_run es m end.

Lemma maker_step_ok e m :
  maker_ok m -> next_order_id_ (mm_base m) < 2 ^ 64 - 2 ->
  exists m', maker_step e m = Done m' /\ maker_ok m' /\
    next_order_id_ (mm_base m) <= next_order_id_ (mm_base m') <= next_order_id_ (mm_base m) + 2.
Proof.
  intros Hm Hn. destruct e as [| |trade]; cbn [maker_step].
  - destruct (update_quotes_ok m Hm Hn) as (m' & _ & _ & E & Hm' & Hn' & _). exists m'. split_and!; try done; lia.
  - unfold mm_on_tick. cbn [random_int]. apply maker_drawn in Hm.
    destruct (uniform _ _ _ <=? 10); [|by eexists; split_and!; try done; simpl; lia].
    destruct (update_quotes_ok _ Hm Hn) as (m' & _ & _ & E & Hm' & Hn' & _).
    exists m'. split_and!; try done; rewrite Hn'; simpl; lia.
  - unfold mm_on_trade.
    destruct (cancel_existing_ok (mm_set_price (tm_price trade) m)) as (m1 & -> & Hm1 & _ & _ & _ & _ & Hn1);
      [by destruct Hm|]. cbn [omap_outcome]. cbn [mm_set_price mm_base] in Hn1.
    destruct (update_quotes_ok m1 Hm1 ltac:(lia)) as (m' & _ & _ & E & Hm' & Hn' & _).
    exists m'. split_and!; try done; lia.
Qed.

(** C33: the market maker never loses track of a quote.  While its sends are
    complete and its order ids do not run out, after any sequence of starts,
    ticks and trades, at any prices, the orders it has sent and not cancelled are
    exactly those it remembers as its bid and its ask - at most one of each - and
    its stream is a sequence of whole messages.  Its next quotes lie one spread
    below and above its base price, moved by at most five ticks, where these
    prices do not leave the 64-bit range. *)
Theorem market_maker_tracks_quotes es : forall m,
  maker_ok m -> next_order_id_ (mm_base m) + 2 * Z.of_nat (length es) < 2 ^ 64 - 2 ->
  (forall k, -5 <= uniform k (-5) 5 <= 5) ->
  exists m', maker_run es m = Done m' /\
    (forall id, outstanding id (sent_log (mm_base m')) <->
       0 < id /\ (id = bid_order_id_ m' \/ id = ask_order_id_ m')) /\
    (exists fs, parse_stream (wire (mm_base m')) = (fs, Partial [])) /\
    (0 <= spread_ticks_ m' -> 5 + spread_ticks_ m' <= mm_base_price_ m' < 2 ^ 64 - 5 - spread_ticks_ m' ->
     exists m2 log bid ask a, update_quotes timestamp send_result uniform m' = Done m2 /\ -5 <= a <= 5 /\
       sent_log (mm_base m2) = log ++ [SentOrder bid; SentOrder ask] /\
       no_price bid = mm_base_price_ m' + a - spread_ticks_ m' /\
       no_price ask = mm_base_price_ m' + a + spread_ticks_ m').
Proof.
  induction es as [|e es IH]; intros m Hm Hn Hu.
  - exists m. split; [done|]. split; [apply Hm|]. split; [apply (co_whole _ (mk_client _ Hm))|].
    intros Hs Hp. simpl in Hn.
    destruct (update_quotes_ok m Hm) as (m2 & b & k & E & _ & _ & _ & _ & [log Hl] & _ & _ & i & Hb & Hk); [lia|].
    specialize (Hu i). exists m2, log, b, k, (uniform i (-5) 5). split_and!; try done; try lia.
    + rewrite Hb wrap_sub_l wrap_small; [u_lia|lia].
    + rewrite Hk wrap_add_l wrap_small; [u_lia|lia].
  - cbn [length maker_run] in *. destruct (maker_step_ok e m Hm) as (m1 & -> & Hm1 & Hn1); [lia|].
    cbn [omap_outcome]. apply IH; [done|lia|done].
Qed.
End market_maker.

Lemma market_maker_tracks_quotes_witness :
  let sends := fun (_ : nat) size => size in
  let uniform := fun (_ : nat) (a _ : Z) => a in
  let m := MarketMaker_make 7 (cstr "AAPL") 10 in
  let m := mm_set_base (ClientBase.set_socket true (mm_base m)) m in
  exists m', maker_run (fun _ => 5) sends uniform [Started; Ticked; Traded ex_report] m = Done m' /\
    (forall id, outstanding id (ClientBase.sent_log (mm_base m')) <->
       0 < id /\ (id = bid_order_id_ m' \/ id = ask_order_id_ m')).
Proof.
  intros sends uniform m0 m.
  destruct (market_maker_tracks_quotes (fun _ => 5) sends uniform ltac:(intros; u_lia) ltac:(intros ??; reflexivity)
    [Started; Ticked; Traded ex_report] m) as (m' & E & Hq & _).
  - split; [split; [vm_compute; split; congruence|reflexivity|vm_compute; split; congruence|by exists []| | ]| | | | |].
    + intros id Hin. by apply not_elem_of_nil in Hin.
    + intros id Hin. by apply not_elem_of_nil in Hin.
    + split; [repeat constructor; lia|simpl; lia].
    + vm_compute; split; congruence.
    + vm_compute; split; congruence.
    + vm_compute; split; congruence.
    + intros id. split; [intros [Hin _]; by apply not_elem_of_nil in Hin|intros [Hp [Hx|Hx]]; vm_compute in Hx; lia].
  - reflexivity.
  - intros k. unfold uniform. lia.
  - exists m'. exact (conj E Hq).
Defined.

(** A trade at a price below the spread: the next bid wraps to almost [2^64]. *)
Example low_trade_bids_high :
  let sends := fun (_ : nat) size => size in
  let uniform := fun (_ : nat) (a _ : Z) => a in
  let m := MarketMaker_make 7 (cstr "AAPL") 10 in
  let m := mm_set_base (ClientBase.set_socket true (mm_base m)) m in
  let trade := mkTradeMessage (mkHeader TRADE_REPORT 92 2 6 0) 1 9 8 (BoundedString.init 8) 10 8 7 in
  match mm_on_trade (fun _ => 5) sends uniform trade m with
  | Done m' => match ClientBase.sent_log (mm_base m') with ClientBase.SentOrder b :: _ => no_price b | _ => 0 end
  | _ => 0
  end = 2 ^ 64 - 7.
Proof. vm_compute. reflexivity. Qed.

(** A cancel that is not sent completely is forgotten: the quote stays in the
    market. *)
Example lost_cancel_forgets_quote :
  let sends := fun (n : nat) size => if (n =? 2)%nat then -1 else size in
  let uniform := fun (_ : nat) (a _ : Z) => a in
  let m := MarketMaker_make 7 (cstr "AAPL") 10 in
  let m := mm_set_base (ClientBase.set_socket true (mm_base m)) m in
  match maker_run (fun _ => 5) sends uniform [Started; Started] m with
  | Done m' => (length (ClientBase.wire (mm_base m')), bid_order_id_ m', ask_order_id_ m')
  | _ => (0%nat, 0, 0)
  end = ((4 * 110 + 92)%nat, 3, 4).
Proof. vm_compute. reflexivity. Qed.
