(* ===== verification/UdpPublisher.v ===== *)
(** * The UDP publisher (include/rtes/udp_publisher.hpp, src/udp_publisher.cpp)

    The worker takes market data events off the shared queue in batches, turns
    them into datagrams and hands the datagrams to the socket.  What
    [sendmmsg] returns on its [k]-th call, with [n] datagrams offered, is the
    argument [send_result k n], at most [n]; the datagrams it accepted are
    appended to [wire].  Creating the socket, its
    options and the pause of an idle worker are not modelled; undefined
    behaviour inside the queue is [None]. *)

From S2P Require Import Prelude Types MpmcQueue MatchingEngine Protocol.

Definition MD_BATCH_SIZE : nat := 64.
Definition SENDMMSG_BATCH : nat := 32.
Definition MD_STATS_FLUSH : Z := 2048.

(** ** The packed messages *)

Definition BBO_UPDATE_TYPE : Z := 201.
Definition TRADE_UPDATE_TYPE : Z := 202.

Record UdpMessageHeader := mkUdpHeader {
  uh_type : Z;
  uh_length : Z;
  uh_sequence : Z;
  uh_timestamp_ns : Z
}.

Record BBOUpdateMessage := mkBBOUpdate {
  bu_header : UdpMessageHeader;
  bu_symbol : list Z;
  bu_bid_price : Z;
  bu_bid_quantity : Z;
  bu_ask_price : Z;
  bu_ask_quantity : Z
}.

Record TradeUpdateMessage := mkTradeUpdate {
  tu_header : UdpMessageHeader;
  tu_trade_id : Z;
  tu_symbol : list Z;
  tu_quantity : Z;
  tu_price : Z;
  tu_aggressor_side : Z
}.

Definition sizeof_udp_header : nat := 24.
Definition sizeof_BBOUpdateMessage : nat := sizeof_udp_header + 8 + 8 + 8 + 8 + 8.
Definition sizeof_TradeUpdateMessage : nat := sizeof_udp_header + 8 + 8 + 8 + 8 + 1.

Definition encode_udp_header (h : UdpMessageHeader) : list Z :=
  le_encode 4 (uh_type h) ++ le_encode 4 (uh_length h) ++ le_encode 8 (uh_sequence h)
  ++ le_encode 8 (uh_timestamp_ns h).
Definition decode_udp_header (b : list Z) : UdpMessageHeader :=
  mkUdpHeader (field b 0 4) (field b 4 4) (field b 8 8) (field b 16 8).

Definition encode_bbo_update (m : BBOUpdateMessage) : list Z :=
  encode_udp_header (bu_header m) ++ bu_symbol m ++ le_encode 8 (bu_bid_price m)
  ++ le_encode 8 (bu_bid_quantity m) ++ le_encode 8 (bu_ask_price m) ++ le_encode 8 (bu_ask_quantity m).
Definition decode_bbo_update (b : list Z) : BBOUpdateMessage :=
  mkBBOUpdate (decode_udp_header b) (bytes_at b 24 8) (field b 32 8) (field b 40 8) (field b 48 8) (field b 56 8).

Definition encode_trade_update (m : TradeUpdateMessage) : list Z :=
  encode_udp_header (tu_header m) ++ le_encode 8 (tu_trade_id m) ++ tu_symbol m
  ++ le_encode 8 (tu_quantity m) ++ le_encode 8 (tu_price m) ++ le_encode 1 (tu_aggressor_side m).
Definition decode_trade_update (b : list Z) : TradeUpdateMessage :=
  mkTradeUpdate (decode_udp_header b) (field b 24 8) (bytes_at b 32 8) (field b 40 8) (field b 48 8) (field b 56 1).

(** ** The publisher *)

Module UdpPublisher.

Record t := mk {
  input_queue_ : MPMCQueue.t MarketDataEvent;
  running_ : bool;
  socket_open : bool;
  messages_sent : Z;
  next_sequence : Z;
  stats_messages_sent : Z;
  ticks : nat;
  sends : nat;
  wire : list (list Z)
}.

Section publisher.
Variable steady_clock : nat -> Timestamp.
Variable send_result : nat -> nat -> Z.
Implicit Types u : t.

Definition make (q : MPMCQueue.t MarketDataEvent) : t := mk q false false 0 1 0 0 0 [].

Definition set_queue x u : t :=
  mk x (running_ u) (socket_open u) (messages_sent u) (next_sequence u) (stats_messages_sent u) (ticks u)
    (sends u) (wire u).
Definition set_running x s u : t :=
  mk (input_queue_ u) x s (messages_sent u) (next_sequence u) (stats_messages_sent u) (ticks u) (sends u) (wire u).
(** [local_stats_.next_sequence++] and a reading of the clock. *)
Definition stamp u : t :=
  mk (input_queue_ u) (running_ u) (socket_open u) (messages_sent u) (next_sequence u +₆₄ 1)
    (stats_messages_sent u) (S (ticks u)) (sends u) (wire u).

(** The loop of [drain_events]: at most [left] more events. *)
Fixpoint drain_loop (left : nat) (events : list MarketDataEvent) u : option (list MarketDataEvent * t) :=
  match left with
  | O => Some (events, u)
  | S left' =>
      '(event, q) ← MPMCQueue.pop (input_queue_ u);
      let u := set_queue q u in
      match event with
      | Some event => drain_loop left' (events ++ [event]) u
      | None => Some (events, u)
      end
  end.
Definition drain_events u : option (list MarketDataEvent * t) := drain_loop MD_BATCH_SIZE [] u.

(** [memcpy(msg.symbol, event.symbol, 8)] out of the event's 16 bytes. *)
Definition build_bbo_datagram (symbol : list Z) (bbo : BBOData) u : list Z * t :=
  let header := mkUdpHeader BBO_UPDATE_TYPE (Z.of_nat sizeof_BBOUpdateMessage) (next_sequence u)
                  (steady_clock (ticks u)) in
  (encode_bbo_update (mkBBOUpdate header (take 8 symbol) (bd_bid_price bbo) (bd_bid_quantity bbo)
     (bd_ask_price bbo) (bd_ask_quantity bbo)), stamp u).

Definition build_trade_datagram (symbol : list Z) (trade : Trade) u : list Z * t :=
  let header := mkUdpHeader TRADE_UPDATE_TYPE (Z.of_nat sizeof_TradeUpdateMessage) (next_sequence u)
                  (steady_clock (ticks u)) in
  (encode_trade_update (mkTradeUpdate header (trade_id trade) (take 8 symbol) (trade_quantity trade)
     (trade_price trade) 1), stamp u).

Definition build_datagram (event : MarketDataEvent) u : list Z * t :=
  match ev_payload event with
  | BBO_UPDATE bbo => build_bbo_datagram (ev_symbol event) bbo u
  | TRADE trade => build_trade_datagram (ev_symbol event) trade u
  end.

(** The loop of [build_datagrams]: both kinds of events yield a datagram, and the
    loop ends when the send buffers are full. *)
Fixpoint build_datagrams (events : list MarketDataEvent) (buffers : list (list Z)) u : list (list Z) * t :=
  match events with
  | [] => (buffers, u)
  | event :: rest =>
      if Nat.ltb (length buffers) SENDMMSG_BATCH then
        let '(datagram, u) := build_datagram event u in
        build_datagrams rest (buffers ++ [datagram]) u
      else (buffers, u)
  end.

Definition batch_send (buffers : list (list Z)) u : t :=
  let sent := send_result (sends u) (length buffers) in
  if 0 <? sent
  then mk (input_queue_ u) (running_ u) (socket_open u) (messages_sent u +₆₄ sent) (next_sequence u)
         (stats_messages_sent u) (ticks u) (S (sends u)) (wire u ++ take (Z.to_nat sent) buffers)
  else mk (input_queue_ u) (running_ u) (socket_open u) (messages_sent u) (next_sequence u)
         (stats_messages_sent u) (ticks u) (S (sends u)) (wire u).

Definition flush_stats u : t :=
  mk (input_queue_ u) (running_ u) (socket_open u) (messages_sent u) (next_sequence u) (messages_sent u)
    (ticks u) (sends u) (wire u).
Definition maybe_flush_stats u : t :=
  if (messages_sent u mod MD_STATS_FLUSH =? 0) && (0 <? messages_sent u) then flush_stats u else u.

(** One turn of [worker_loop]. *)
Definition worker_round u : option t :=
  '(events, u) ← drain_events u;
  Some (match events with
        | [] => u
        | _ =>
            let '(buffers, u) := build_datagrams events [] u in
            maybe_flush_stats (match buffers with [] => u | _ => batch_send buffers u end)
        end).

(** [ready]: whether the socket could be created. *)
Definition start (ready : bool) u : t :=
  if running_ u then u else if ready then set_running true true u else set_running false false u.
Definition stop u : t := if running_ u then flush_stats (set_running false false u) else u.

End publisher.
End UdpPublisher.

(** ** What a round sends *)

(** The datagram of an event. *)
Definition datagram_of (event : MarketDataEvent) (seq : Z) (now : Timestamp) : list Z :=
  match ev_payload event with
  | BBO_UPDATE bbo =>
      encode_bbo_update (mkBBOUpdate (mkUdpHeader BBO_UPDATE_TYPE 64 seq now) (take 8 (ev_symbol event))
        (bd_bid_price bbo) (bd_bid_quantity bbo) (bd_ask_price bbo) (bd_ask_quantity bbo))
  | TRADE trade =>
      encode_trade_update (mkTradeUpdate (mkUdpHeader TRADE_UPDATE_TYPE 57 seq now) (trade_id trade)
        (take 8 (ev_symbol event)) (trade_quantity trade) (trade_price trade) 1)
  end.

Section rounds.
Import UdpPublisher.
Variable steady_clock : nat -> Timestamp.
Variable send_result : nat -> nat -> Z.
Implicit Types u : UdpPublisher.t.

(** The datagrams of consecutive events: consecutive sequence numbers. *)
Definition datagrams_of (seq : Z) (tick : nat) (events : list MarketDataEvent) : list (list Z) :=
  imap (fun i event => datagram_of event (wrap 64 (seq + Z.of_nat i)) (steady_clock (tick + i))) events.

Lemma length_datagrams_of seq tick events : length (datagrams_of seq tick events) = length events.
Proof. apply length_imap. Qed.

(** Taking an element uses no position of the producers. *)
Lemma pop_holds (q : MPMCQueue.t MarketDataEvent) xs n :
  MPMCQueue.holds (S n) q xs ->
  exists q', MPMCQueue.pop q = Some (head xs, q') /\ MPMCQueue.holds (S n) q' (tail xs) /\
    MPMCQueue.capacity_ q' = MPMCQueue.capacity_ q.
Proof.
  intros (D & E & Hr & Hb). pose proof (MPMCQueue.mpmc_pop_spec q D E xs Hr ltac:(lia)) as Hp.
  destruct xs as [|x xs]; [exists q; split_and!; [done|by exists D, E|done]|].
  destruct Hp as (q' & Hq & Hr' & Hc). exists q'. split_and!; [done| |done]. exists (D + 1), E. by rewrite Hc.
Qed.

Lemma drain_events_spec left acc u xs n :
  MPMCQueue.holds (S n) (input_queue_ u) xs ->
  exists q', drain_loop left acc u = Some (acc ++ take left xs, set_queue q' u) /\
    MPMCQueue.holds (S n) q' (drop left xs) /\ MPMCQueue.capacity_ q' = MPMCQueue.capacity_ (input_queue_ u).
Proof.
  revert acc u xs. induction left as [|left IH]; intros acc u xs Hh.
  { exists (input_queue_ u). rewrite take_0 app_nil_r. split_and!; [by destruct u|done|done]. }
  cbn [drain_loop]. destruct (pop_holds _ _ _ Hh) as (q' & Hq & Hh' & Hc). rewrite Hq. cbn [mbind option_bind].
  destruct xs as [|x xs]; cbn [head tail] in *.
  { exists q'. by rewrite take_nil app_nil_r drop_nil. }
  destruct (IH (acc ++ [x]) (set_queue q' u) xs Hh') as (q2 & Hd & Hh2 & Hc2). exists q2.
  rewrite Hd -app_assoc. split_and!; [done|done|]. by rewrite -Hc.
Qed.

(** Sequence number and clock reading after [k] datagrams. *)
Definition stamped (k : nat) u : UdpPublisher.t := Nat.iter k stamp u.

Lemma stamped_S k u : stamped (S k) u = stamped k (stamp u).
Proof. unfold stamped. by rewrite Nat.iter_succ_r. Qed.

Lemma build_datagram_eq event u :
  build_datagram steady_clock event u = (datagram_of event (next_sequence u) (steady_clock (ticks u)), stamp u).
Proof. unfold build_datagram, datagram_of. by destruct (ev_payload event). Qed.

Lemma build_datagrams_spec events bufs u :
  u64 (next_sequence u) ->
  let k := Nat.min (SENDMMSG_BATCH - length bufs) (length events) in
  build_datagrams steady_clock events bufs u =
    (bufs ++ datagrams_of (next_sequence u) (ticks u) (take k events), stamped k u).
Proof.
  revert bufs u. induction events as [|event events IH]; intros bufs u Hs k; cbn [build_datagrams].
  { subst k. rewrite Nat.min_0_r take_0. by rewrite app_nil_r. }
  destruct (Nat.ltb_spec (length bufs) SENDMMSG_BATCH) as [Hlt|Hge].
  - rewrite build_datagram_eq. rewrite IH; [apply wrap_range; lia|]. rewrite length_app. cbn [length].
    assert (k = S (Nat.min (SENDMMSG_BATCH - (length bufs + 1)) (length events))) as -> by (subst k; simpl; lia).
    rewrite stamped_S. f_equal. rewrite firstn_cons -app_assoc. f_equal. unfold datagrams_of. cbn [imap app].
    rewrite Z.add_0_r Nat.add_0_r (wrap_small 64 (next_sequence u)); [done|]. f_equal.
    apply imap_ext. intros i x _. cbn [compose]. f_equal; [|f_equal; simpl; lia].
    simpl. rewrite wrap_add_l. f_equal. lia.
  - assert (k = 0%nat) as -> by (subst k; lia). rewrite take_0. by rewrite app_nil_r.
Qed.

Lemma stamped_fields k u :
  u64 (next_sequence u) ->
  input_queue_ (stamped k u) = input_queue_ u /\ wire (stamped k u) = wire u /\ sends (stamped k u) = sends u /\
  running_ (stamped k u) = running_ u /\ ticks (stamped k u) = (ticks u + k)%nat /\
  next_sequence (stamped k u) = wrap 64 (next_sequence u + Z.of_nat k).
Proof.
  intros Hs. induction k as [|k (H1 & H2 & H3 & H4 & H5 & H6)].
  { simpl. rewrite Z.add_0_r wrap_small; [done|]. split_and!; try done. }
  change (stamped (S k) u) with (stamp (stamped k u)). cbn [stamp input_queue_ wire sends running_ ticks next_sequence].
  rewrite H5 H6 wrap_add_l. split_and!; try done; try lia; f_equal; lia.
Qed.

(** The whole round in terms of the events it found. *)
Lemma worker_round_spec u xs n :
  MPMCQueue.holds (S n) (input_queue_ u) xs -> u64 (next_sequence u) ->
  let ds := datagrams_of (next_sequence u) (ticks u) (take SENDMMSG_BATCH xs) in
  exists u', worker_round steady_clock send_result u = Some u' /\
    MPMCQueue.holds (S n) (input_queue_ u') (drop MD_BATCH_SIZE xs) /\
    wire u' = wire u ++ take (Z.to_nat (send_result (sends u) (length ds))) ds /\
    next_sequence u' = wrap 64 (next_sequence u + Z.of_nat (length ds)) /\
    (running_ u' = running_ u /\ ticks u' = (ticks u + length ds)%nat) /\
    MPMCQueue.capacity_ (input_queue_ u') = MPMCQueue.capacity_ (input_queue_ u).
Proof.
  intros Hh Hs ds. unfold worker_round, drain_events.
  destruct (drain_events_spec MD_BATCH_SIZE [] u xs n Hh) as (q' & Hd & Hh' & Hcap). rewrite Hd. cbn [mbind option_bind].
  change ([] ++ take MD_BATCH_SIZE xs) with (take MD_BATCH_SIZE xs).
  destruct xs as [|x xs].
  { eexists. split; [reflexivity|]. subst ds. unfold datagrams_of. rewrite !take_nil. cbn [imap length].
    rewrite app_nil_r Z.add_0_r Nat.add_0_r wrap_small; done. }
  set (evs := take MD_BATCH_SIZE (x :: xs)) in *.
  rewrite (build_datagrams_spec evs [] (set_queue q' u) Hs). cbn [length app].
  assert (take (Nat.min (SENDMMSG_BATCH - 0) (length evs)) evs = take SENDMMSG_BATCH (x :: xs)) as ->.
  { rewrite Nat.sub_0_r -firstn_firstn firstn_all. unfold evs. by rewrite firstn_firstn. }
  change (next_sequence (set_queue q' u)) with (next_sequence u).
  change (ticks (set_queue q' u)) with (ticks u). fold ds.
  set (k := Nat.min (SENDMMSG_BATCH - 0) (length evs)).
  assert (k = length ds) as Hk.
  { unfold ds. rewrite length_datagrams_of. unfold k, evs. rewrite !length_take. unfold SENDMMSG_BATCH, MD_BATCH_SIZE. lia. }
  destruct (stamped_fields k (set_queue q' u) Hs) as (H1 & H2 & H3 & H4 & H5 & H6).
  assert (exists d ds', ds = d :: ds') as (d & ds' & Eds) by (unfold ds; by do 2 eexists).
  change evs with (x :: take 63 xs). cbv iota. rewrite Eds -Eds.
  unfold maybe_flush_stats, batch_send. rewrite H3. cbn [sends set_queue].
  destruct (Z.ltb_spec 0 (send_result (sends u) (length ds))) as [Hpos|Hneg];
    (destruct (_ && _); eexists; (split; [reflexivity|]); cbn [flush_stats input_queue_ wire next_sequence running_ ticks];
     rewrite ?H1 ?H2 ?H4 ?H5 ?H6 ?Hk); split_and!; try done.
  all: replace (Z.to_nat (send_result (sends u) (length ds))) with 0%nat by lia; by rewrite take_0 app_nil_r.
Qed.

End rounds.

(** ** Datagrams on the wire *)

#[local] Opaque le_encode.

Record udp_header_wf (h : UdpMessageHeader) : Prop := {
  uw_type : u32 (uh_type h);
  uw_length : u32 (uh_length h);
  uw_sequence : u64 (uh_sequence h);
  uw_timestamp : u64 (uh_timestamp_ns h)
}.

Lemma decode_udp_header_app h r : udp_header_wf h -> decode_udp_header (encode_udp_header h ++ r) = h.
Proof.
  destruct h. intros []. unfold decode_udp_header, encode_udp_header. simpl in *. rewrite -!app_assoc.
  f_equal; read_field.
Qed.

(** An event as the engines publish it. *)
Definition event_wf (event : MarketDataEvent) : Prop :=
  length (ev_symbol event) = 16%nat /\
  match ev_payload event with
  | BBO_UPDATE b => u64 (bd_bid_price b) /\ u64 (bd_bid_quantity b) /\ u64 (bd_ask_price b) /\ u64 (bd_ask_quantity b)
  | TRADE t => u64 (trade_id t) /\ u64 (trade_quantity t) /\ u64 (trade_price t)
  end.

Lemma decode_bbo_update_app m r :
  udp_header_wf (bu_header m) -> length (bu_symbol m) = 8%nat ->
  u64 (bu_bid_price m) -> u64 (bu_bid_quantity m) -> u64 (bu_ask_price m) -> u64 (bu_ask_quantity m) ->
  decode_bbo_update (encode_bbo_update m ++ r) = m.
Proof.
  intros Hh Hs ? ? ? ?. unfold decode_bbo_update, encode_bbo_update. rewrite -!app_assoc.
  rewrite decode_udp_header_app; [done|]. destruct m as [h s a b c d]. cbn [bu_header bu_symbol bu_bid_price bu_bid_quantity bu_ask_price bu_ask_quantity] in *.
  unfold encode_udp_header. rewrite -?app_assoc. f_equal; read_field.
Qed.

Lemma decode_trade_update_app m r :
  udp_header_wf (tu_header m) -> length (tu_symbol m) = 8%nat ->
  u64 (tu_trade_id m) -> u64 (tu_quantity m) -> u64 (tu_price m) -> u8 (tu_aggressor_side m) ->
  decode_trade_update (encode_trade_update m ++ r) = m.
Proof.
  intros Hh Hs ? ? ? ?. unfold decode_trade_update, encode_trade_update. rewrite -!app_assoc.
  rewrite decode_udp_header_app; [done|]. destruct m as [h i s a b c]. cbn [tu_header tu_symbol tu_trade_id tu_quantity tu_price tu_aggressor_side] in *.
  unfold encode_udp_header. rewrite -?app_assoc. f_equal; read_field.
Qed.

(** ** The properties *)

(** A round of the publisher takes up to 64 events off the queue, oldest
    first, and offers the socket one datagram for each of the first 32, in that
    order and with consecutive sequence numbers; the others of the batch are in
    no datagram and no longer in the queue.  What the socket refuses is lost
    too.  The round returns, and the queue keeps what was not taken. *)
Theorem publisher_round steady_clock send_result u xs n :
  MPMCQueue.holds (S n) (UdpPublisher.input_queue_ u) xs -> u64 (UdpPublisher.next_sequence u) ->
  let ds := datagrams_of steady_clock (UdpPublisher.next_sequence u) (UdpPublisher.ticks u) (take 32 xs) in
  exists u', UdpPublisher.worker_round steady_clock send_result u = Some u' /\
    MPMCQueue.holds (S n) (UdpPublisher.input_queue_ u') (drop 64 xs) /\
    UdpPublisher.wire u' =
      UdpPublisher.wire u ++ take (Z.to_nat (send_result (UdpPublisher.sends u) (length ds))) ds /\
    UdpPublisher.next_sequence u' = wrap 64 (UdpPublisher.next_sequence u + Z.of_nat (length ds)).
Proof.
  intros Hh Hs ds. destruct (worker_round_spec steady_clock send_result u xs n Hh Hs) as (u' & H1 & H2 & H3 & H4 & _).
  by exists u'.
Qed.

Definition ex_event (k : Z) : MarketDataEvent :=
  mkEvent (cstr "AAPL" ++ replicate 12 0) (BBO_UPDATE (mkBBOData k 1 (k + 1) 2)).

(** [n] events in a queue of 64 cells. *)
Definition ex_full_queue (n : nat) : MPMCQueue.t MarketDataEvent :=
  match MPMCQueue.make (ex_event 0) 64 with
  | Some q =>
      foldl (fun q k => match MPMCQueue.push (ex_event (Z.of_nat k)) q with Some (_, q) => q | None => q end)
        q (seq 0 n)
  | None => MPMCQueue.mk 0 0 [] 0 0
  end.

Lemma ex_empty_queue_holds : MPMCQueue.holds 100 (ex_full_queue 0) [].
Proof.
  unfold ex_full_queue. destruct (MPMCQueue.mpmc_make_repr (ex_event 0) 64) as (q & Hq & Hr & Hc); [lia|].
  rewrite Hq. cbn [seq foldl]. exists 0, 0. split; [done|]. pose proof (MPMCQueue.mpmc_cap_bounds _ _ _ _ Hr) as Hb.
  change (2 ^ 62) with 4611686018427387904 in Hb. change (2 ^ 63) with 9223372036854775808. lia.
Qed.

Lemma publisher_round_witness :
  exists u', UdpPublisher.worker_round (fun _ => 0) (fun _ n => Z.of_nat n) (UdpPublisher.make (ex_full_queue 0)) = Some u' /\
    UdpPublisher.wire u' = [].
Proof.
  destruct (publisher_round (fun _ => 0) (fun _ n => Z.of_nat n) (UdpPublisher.make (ex_full_queue 0)) [] 99
    ex_empty_queue_holds) as (u' & H1 & _ & H3 & _); [by vm_compute|].
  exists u'. split; [exact H1|]. exact H3.
Defined.

(** The code on a full batch: 64 events are taken, 32 datagrams leave, and the
    queue is empty, although the socket accepts everything it is offered. *)
Example publisher_loses_half_a_batch :
  match UdpPublisher.worker_round (fun _ => 0) (fun _ n => Z.of_nat n) (UdpPublisher.make (ex_full_queue 64)) with
  | Some u => length (UdpPublisher.wire u) = 32%nat /\ MPMCQueue.size_approx (UdpPublisher.input_queue_ u) = 0
  | None => False
  end.
Proof. vm_compute. split; reflexivity. Qed.

Lemma build_bbo_bytes steady_clock event bbo u rest :
  event_wf event -> ev_payload event = BBO_UPDATE bbo ->
  u64 (UdpPublisher.next_sequence u) -> u64 (steady_clock (UdpPublisher.ticks u)) ->
  let d := (UdpPublisher.build_bbo_datagram steady_clock (ev_symbol event) bbo u).1 in
  decode_bbo_update (d ++ rest) =
    mkBBOUpdate (mkUdpHeader 201 64 (UdpPublisher.next_sequence u) (steady_clock (UdpPublisher.ticks u)))
      (take 8 (ev_symbol event)) (bd_bid_price bbo) (bd_bid_quantity bbo) (bd_ask_price bbo) (bd_ask_quantity bbo) /\
  length d = 64%nat.
Proof.
  intros [Hsym Hev] Hp Hseq Hnow. rewrite Hp in Hev. destruct Hev as (? & ? & ? & ?).
  assert (length (take 8 (ev_symbol event)) = 8%nat) as Hs by (rewrite length_take Hsym; lia).
  cbn [UdpPublisher.build_bbo_datagram fst]. split; [by apply decode_bbo_update_app|].
  unfold encode_bbo_update. rewrite !length_app !length_le_encode. cbn [bu_symbol]. by rewrite Hs.
Qed.

Lemma build_trade_bytes steady_clock event trade u rest :
  event_wf event -> ev_payload event = TRADE trade ->
  u64 (UdpPublisher.next_sequence u) -> u64 (steady_clock (UdpPublisher.ticks u)) ->
  let d := (UdpPublisher.build_trade_datagram steady_clock (ev_symbol event) trade u).1 in
  decode_trade_update (d ++ rest) =
    mkTradeUpdate (mkUdpHeader 202 57 (UdpPublisher.next_sequence u) (steady_clock (UdpPublisher.ticks u)))
      (trade_id trade) (take 8 (ev_symbol event)) (trade_quantity trade) (trade_price trade) 1 /\
  length d = 57%nat.
Proof.
  intros [Hsym Hev] Hp Hseq Hnow. rewrite Hp in Hev. destruct Hev as (? & ? & ?).
  assert (length (take 8 (ev_symbol event)) = 8%nat) as Hs by (rewrite length_take Hsym; lia).
  cbn [UdpPublisher.build_trade_datagram fst]. split; [by apply decode_trade_update_app|].
  unfold encode_trade_update. rewrite !length_app !length_le_encode. cbn [tu_symbol]. by rewrite Hs.
Qed.

(** C20: The bytes the publisher builds for an event carry it.  What
    [build_bbo_datagram] writes for an update of the best prices, read at the
    offsets of the packed struct, is type 201, length 64, the publisher's next
    sequence number, the time, and the event's own bid and ask; what
    [build_trade_datagram] writes is type 202, length 57, the number, the time and
    the trade's own id, quantity and price, with an aggressor side that is always
    1; both cut the symbol to its first 8 bytes.  [build_datagram] chooses by the
    type of the event, and the number goes up by one. *)
Theorem datagram_roundtrip steady_clock event u rest :
  event_wf event -> u64 (UdpPublisher.next_sequence u) -> u64 (steady_clock (UdpPublisher.ticks u)) ->
  let header type length :=
    mkUdpHeader type length (UdpPublisher.next_sequence u) (steady_clock (UdpPublisher.ticks u)) in
  (forall bbo, ev_payload event = BBO_UPDATE bbo ->
     exists d u', UdpPublisher.build_bbo_datagram steady_clock (ev_symbol event) bbo u = (d, u') /\
       UdpPublisher.build_datagram steady_clock event u = (d, u') /\
       UdpPublisher.next_sequence u' = UdpPublisher.next_sequence u +₆₄ 1 /\ length d = 64%nat /\
       decode_bbo_update (d ++ rest) =
         mkBBOUpdate (header 201 64) (take 8 (ev_symbol event)) (bd_bid_price bbo) (bd_bid_quantity bbo)
           (bd_ask_price bbo) (bd_ask_quantity bbo)) /\
  (forall trade, ev_payload event = TRADE trade ->
     exists d u', UdpPublisher.build_trade_datagram steady_clock (ev_symbol event) trade u = (d, u') /\
       UdpPublisher.build_datagram steady_clock event u = (d, u') /\
       UdpPublisher.next_sequence u' = UdpPublisher.next_sequence u +₆₄ 1 /\ length d = 57%nat /\
       decode_trade_update (d ++ rest) =
         mkTradeUpdate (header 202 57) (trade_id trade) (take 8 (ev_symbol event)) (trade_quantity trade)
           (trade_price trade) 1).
Proof.
  intros Hev Hseq Hnow header. split.
  - intros bbo Hp. destruct (build_bbo_bytes steady_clock event bbo u rest Hev Hp Hseq Hnow) as [Hd Hl].
    unfold UdpPublisher.build_datagram. rewrite Hp. by eexists _, _.
  - intros trade Hp. destruct (build_trade_bytes steady_clock event trade u rest Hev Hp Hseq Hnow) as [Hd Hl].
    unfold UdpPublisher.build_datagram. rewrite Hp. by eexists _, _.
Qed.

Lemma ex_event_wf : event_wf (ex_event 5).
Proof. split; [reflexivity|]. cbn [ev_payload ex_event bd_bid_price bd_bid_quantity bd_ask_price bd_ask_quantity]. repeat split; u_lia. Qed.

Lemma datagram_roundtrip_witness :
  exists d u', UdpPublisher.build_bbo_datagram (fun _ => 9) (ev_symbol (ex_event 5)) (mkBBOData 5 1 6 2)
      (UdpPublisher.make (ex_full_queue 0)) = (d, u') /\
    decode_bbo_update (d ++ [1]) =
      mkBBOUpdate (mkUdpHeader 201 64 1 9) (take 8 (cstr "AAPL" ++ replicate 12 0)) 5 1 6 2.
Proof.
  destruct (datagram_roundtrip (fun _ => 9) (ex_event 5) (UdpPublisher.make (ex_full_queue 0)) [1] ex_event_wf) as [H _];
    [cbn; u_lia..|].
  destruct (H (mkBBOData 5 1 6 2) eq_refl) as (d & u' & H1 & _ & _ & _ & H2). exists d, u'. exact (conj H1 H2).
Defined.
