(* ===== verification/UdpReceiver.v ===== *)
(** * The market data receiver (tools/udp_receiver.cpp)

    The subscriber to the publisher's multicast group: it follows the sequence
    numbers, counts the gaps and prints what each datagram says.  What [recv]
    delivers is an argument: [None] when it fails, otherwise a datagram.  The
    lines written to [std::cout] are the result; printing a [char] array that
    holds no terminator reads past it and is undefined ([None]).  Creating the
    socket and joining the group are answers of the operating system.  The
    structs of market_data.hpp are those of udp_publisher.hpp, with the depth
    message besides. *)

From Stdlib Require Import SpecFloat.
From S2P Require Import Prelude Types MpmcQueue MatchingEngine Double MemorySafety Strings Formatting Protocol SecureConfig UdpPublisher.

Definition DEPTH_UPDATE_TYPE : Z := 203.

Record DepthLevel := mkDepthLevel { dl_price : Z; dl_quantity : Z; dl_order_count : Z }.
Record DepthUpdateMessage := mkDepthUpdate {
  du_header : UdpMessageHeader;
  du_symbol : list Z;
  du_num_bid_levels : Z;
  du_num_ask_levels : Z;
  du_levels : list DepthLevel
}.
Definition sizeof_DepthLevel : nat := 8 + 8 + 4.
Definition sizeof_DepthUpdateMessage : nat := sizeof_udp_header + 8 + 1 + 1 + 20 * sizeof_DepthLevel.

Definition decode_depth_level (b : list Z) (off : nat) : DepthLevel :=
  mkDepthLevel (field b off 8) (field b (off + 8) 8) (field b (off + 16) 4).
Definition decode_depth_update (b : list Z) : DepthUpdateMessage :=
  mkDepthUpdate (decode_udp_header b) (bytes_at b 24 8) (field b 32 1) (field b 33 1)
    ((fun i => decode_depth_level b (34 + i * sizeof_DepthLevel)) <$> seq 0 20).

(** [std::cout << a] for [char a[n]]: the characters up to the terminator. *)
Definition print_array (a : list Z) : option cstring := if bool_decide (0 ∈ a) then Some (until_nul a) else None.

(** [p / 10000.0] for [uint64_t p]. *)
Definition print_price (p : Z) : cstring := print_general (double_div (double_of_Z p) (double_of_Z 10000)).

Module UdpReceiver.

(** The locals of [run]. *)
Record t := mk { expected_sequence : Z; messages_received : Z; gaps_detected : Z }.
Definition initial : t := mk 1 0 0.
Definition BUFFER_SIZE : nat := 1024.

(** [true] when the socket is bound and in the group, and otherwise what is
    written to [std::cerr]. *)
Definition start (socket_ok bind_ok join_ok : bool) (group : cstring) (port : Z) : bool * list cstring :=
  if negb socket_ok then (false, [cstr "Failed to create socket"])
  else if negb bind_ok then (false, [cstr "Failed to bind socket"])
  else if negb join_ok then (false, [cstr "Failed to join multicast group"])
  else (true, [cstr "Listening on " ++ group ++ cstr ":" ++ print_u64 port; cstr "Press Ctrl+C to stop"; []]).

Definition process_bbo_update (msg : BBOUpdateMessage) : option cstring :=
  symbol ← print_array (bu_symbol msg);
  Some (cstr "BBO " ++ symbol
        ++ cstr " Bid:" ++ print_price (bu_bid_price msg) ++ cstr "x" ++ print_u64 (bu_bid_quantity msg)
        ++ cstr " Ask:" ++ print_price (bu_ask_price msg) ++ cstr "x" ++ print_u64 (bu_ask_quantity msg)
        ++ cstr " Seq:" ++ print_u64 (uh_sequence (bu_header msg))).

Definition process_trade_update (msg : TradeUpdateMessage) : option cstring :=
  symbol ← print_array (tu_symbol msg);
  Some (cstr "TRADE " ++ symbol
        ++ cstr " ID:" ++ print_u64 (tu_trade_id msg)
        ++ cstr " " ++ print_u64 (tu_quantity msg) ++ cstr "@" ++ print_price (tu_price msg)
        ++ cstr " Side:" ++ (if tu_aggressor_side msg =? 1 then cstr "BUY" else cstr "SELL")
        ++ cstr " Seq:" ++ print_u64 (uh_sequence (tu_header msg))).

Definition process_depth_update (msg : DepthUpdateMessage) : option cstring :=
  symbol ← print_array (du_symbol msg);
  Some (cstr "DEPTH " ++ symbol
        ++ cstr " Bids:" ++ print_u64 (du_num_bid_levels msg)
        ++ cstr " Asks:" ++ print_u64 (du_num_ask_levels msg)
        ++ cstr " Seq:" ++ print_u64 (uh_sequence (du_header msg))).

Definition gap_line (expected got : Z) : cstring :=
  cstr "GAP DETECTED: Expected " ++ print_u64 expected ++ cstr ", got " ++ print_u64 got.

(** The check of the sequence number, and the counters. *)
Definition follow (sequence : Z) (s : t) : list cstring * t :=
  let '(lines, expected, gaps) :=
    if sequence =? expected_sequence s then ([], expected_sequence s, gaps_detected s)
    else if 0 <? messages_received s
      then ([gap_line (expected_sequence s) sequence], sequence, gaps_detected s +₆₄ 1)
      else ([], sequence, gaps_detected s) in
  (lines, mk (expected +₆₄ 1) (messages_received s +₆₄ 1) gaps).

(** The [switch] on the type of the message. *)
Definition show (received : list Z) : option (list cstring) :=
  let header := decode_udp_header received in
  if uh_type header =? BBO_UPDATE_TYPE then
    if (sizeof_BBOUpdateMessage <=? length received)%nat
    then line ← process_bbo_update (decode_bbo_update received); Some [line] else Some []
  else if uh_type header =? TRADE_UPDATE_TYPE then
    if (sizeof_TradeUpdateMessage <=? length received)%nat
    then line ← process_trade_update (decode_trade_update received); Some [line] else Some []
  else if uh_type header =? DEPTH_UPDATE_TYPE then
    if (sizeof_DepthUpdateMessage <=? length received)%nat
    then line ← process_depth_update (decode_depth_update received); Some [line] else Some []
  else Some [cstr "Unknown message type: " ++ print_u64 (uh_type header)].

(** One turn of the loop of [run]: [recv] cuts a datagram to the buffer. *)
Definition receive (datagram : option (list Z)) (s : t) : option (list cstring * t) :=
  match datagram with
  | None => Some ([], s)
  | Some bytes =>
      let received := take BUFFER_SIZE bytes in
      if (length received <? sizeof_udp_header)%nat then Some ([], s)
      else
        let '(gap, s) := follow (uh_sequence (decode_udp_header received)) s in
        lines ← show received;
        Some (gap ++ lines, s)
  end.

(** The loop while [running]: over what [recv] delivers until the signal. *)
Fixpoint loop (datagrams : list (option (list Z))) (s : t) : option (list cstring * t) :=
  match datagrams with
  | [] => Some ([], s)
  | d :: rest =>
      '(lines, s) ← receive d s;
      '(more, s) ← loop rest s;
      Some (lines ++ more, s)
  end.

Definition statistics (s : t) : list cstring :=
  [[]; cstr "Statistics:"; cstr "Messages received: " ++ print_u64 (messages_received s);
   cstr "Gaps detected: " ++ print_u64 (gaps_detected s)].

Definition run (datagrams : list (option (list Z))) : option (list cstring) :=
  '(lines, s) ← loop datagrams initial;
  Some (lines ++ statistics s).

(** [main]: the exit status and the lines; the exception of [std::stoi] ends the
    program, and the port is narrowed to 16 bits. *)
Definition main (program : cstring) (args : list cstring) (answers : bool * bool * bool)
    (datagrams : list (option (list Z))) : outcome (Z * list cstring) :=
  match args with
  | [group; port] =>
      match SecureConfigManager.stoi port with
      | None => Throws "stoi"
      | Some v =>
          let '(socket_ok, bind_ok, join_ok) := answers in
          let '(started, lines) := start socket_ok bind_ok join_ok group (wrap 16 v) in
          if negb started then Done (1, lines)
          else match run datagrams with Some more => Done (0, lines ++ more) | None => Undefined end
      end
  | _ => Done (1, [cstr "Usage: " ++ program ++ cstr " <multicast_group> <port>";
                   cstr "Example: " ++ program ++ cstr " 239.0.0.1 9999"])
  end.

End UdpReceiver.

(** ** What the receiver makes of the publisher's datagrams *)

Import UdpReceiver.

(** A datagram as it was sent: the event, its sequence number and its time. *)
Record sent := mkSent { s_event : MarketDataEvent; s_sequence : Z; s_time : Timestamp }.
Definition bytes_of (d : sent) : list Z := datagram_of (s_event d) (s_sequence d) (s_time d).

(** The first eight bytes of the symbol hold its terminator. *)
Definition short_symbol (event : MarketDataEvent) : Prop := 0 ∈ take 8 (ev_symbol event).
Definition sent_ok (d : sent) : Prop :=
  event_wf (s_event d) /\ short_symbol (s_event d) /\ u64 (s_sequence d) /\ u64 (s_time d).

(** The line of an event. *)
Definition line_of (d : sent) : cstring :=
  let symbol := until_nul (take 8 (ev_symbol (s_event d))) in
  match ev_payload (s_event d) with
  | BBO_UPDATE b =>
      cstr "BBO " ++ symbol ++ cstr " Bid:" ++ print_price (bd_bid_price b) ++ cstr "x" ++ print_u64 (bd_bid_quantity b)
      ++ cstr " Ask:" ++ print_price (bd_ask_price b) ++ cstr "x" ++ print_u64 (bd_ask_quantity b)
      ++ cstr " Seq:" ++ print_u64 (s_sequence d)
  | TRADE t =>
      cstr "TRADE " ++ symbol ++ cstr " ID:" ++ print_u64 (trade_id t)
      ++ cstr " " ++ print_u64 (trade_quantity t) ++ cstr "@" ++ print_price (trade_price t)
      ++ cstr " Side:" ++ cstr "BUY" ++ cstr " Seq:" ++ print_u64 (s_sequence d)
  end.

#[local] Opaque le_encode print_u64 print_price.

Lemma print_array_short a : 0 ∈ a -> print_array a = Some (until_nul a).
Proof. intros H. unfold print_array. by rewrite bool_decide_true. Qed.

Lemma decode_header_datagram d :
  sent_ok d -> exists ty len, decode_udp_header (bytes_of d) = mkUdpHeader ty len (s_sequence d) (s_time d).
Proof.
  intros ((Hl & He) & _ & Hs & Ht). unfold bytes_of, datagram_of.
  destruct (ev_payload (s_event d)) as [t|b]; do 2 eexists;
    [unfold encode_trade_update|unfold encode_bbo_update]; cbn [tu_header bu_header];
    (rewrite decode_udp_header_app; [split; cbn; (done || u_lia)|reflexivity]).
Qed.

Lemma length_datagram d :
  sent_ok d -> length (bytes_of d) = match ev_payload (s_event d) with BBO_UPDATE _ => 64%nat | TRADE _ => 57%nat end.
Proof.
  intros ((Hl & _) & _). unfold bytes_of, datagram_of.
  assert (length (take 8 (ev_symbol (s_event d))) = 8%nat) as H8 by (rewrite length_take Hl; lia).
  destruct (ev_payload (s_event d)); [unfold encode_trade_update|unfold encode_bbo_update];
    rewrite !length_app !length_le_encode; cbn [tu_symbol bu_symbol]; by rewrite H8.
Qed.

(** The line a datagram prints. *)
Lemma show_datagram d : sent_ok d -> show (bytes_of d) = Some [line_of d].
Proof.
  intros Hd. pose proof (length_datagram d Hd) as Hlen. destruct Hd as ((Hl & He) & Hsym & Hs & Ht).
  assert (length (take 8 (ev_symbol (s_event d))) = 8%nat) as H8 by (rewrite length_take Hl; lia).
  unfold show, line_of, bytes_of, datagram_of in *. destruct (ev_payload (s_event d)) as [t|b].
  - destruct He as (? & ? & ?). set (m := mkTradeUpdate _ _ _ _ _ _) in *.
    assert (decode_trade_update (encode_trade_update m) = m) as Hm.
    { rewrite -{1}(app_nil_r (encode_trade_update m)). by apply decode_trade_update_app. }
    assert (uh_type (decode_udp_header (encode_trade_update m)) = TRADE_UPDATE_TYPE) as ->.
    { pose proof (f_equal (fun m => uh_type (tu_header m)) Hm) as E. exact E. }
    rewrite Hlen Hm. change (TRADE_UPDATE_TYPE =? BBO_UPDATE_TYPE) with false. cbv iota.
    change (TRADE_UPDATE_TYPE =? TRADE_UPDATE_TYPE) with true. cbn [Nat.leb]. cbv iota.
    unfold process_trade_update. cbn [tu_symbol m]. rewrite print_array_short; [done|]. reflexivity.
  - destruct He as (? & ? & ? & ?). set (m := mkBBOUpdate _ _ _ _ _ _) in *.
    assert (decode_bbo_update (encode_bbo_update m) = m) as Hm.
    { rewrite -{1}(app_nil_r (encode_bbo_update m)). by apply decode_bbo_update_app. }
    assert (uh_type (decode_udp_header (encode_bbo_update m)) = BBO_UPDATE_TYPE) as ->.
    { pose proof (f_equal (fun m => uh_type (bu_header m)) Hm) as E. exact E. }
    rewrite Hlen Hm. change (BBO_UPDATE_TYPE =? BBO_UPDATE_TYPE) with true. cbn [Nat.leb]. cbv iota.
    unfold process_bbo_update. cbn [bu_symbol m]. rewrite print_array_short; [done|]. reflexivity.
Qed.

Lemma receive_datagram d s :
  sent_ok d ->
  receive (Some (bytes_of d)) s =
    Some ((follow (s_sequence d) s).1 ++ [line_of d], (follow (s_sequence d) s).2).
Proof.
  intros Hd. unfold receive. pose proof (length_datagram d Hd) as Hlen.
  assert (57 <= length (bytes_of d) <= 64)%nat as Hb by (rewrite Hlen; destruct (ev_payload _); lia).
  rewrite take_ge; [unfold BUFFER_SIZE; lia|].
  destruct (Nat.ltb_spec (length (bytes_of d)) sizeof_udp_header) as [Hlt|_]; [unfold sizeof_udp_header in Hlt; lia|].
  destruct (decode_header_datagram d Hd) as (ty & len & ->). cbn [uh_sequence].
  destruct (follow _ _) as [gap s']. by rewrite show_datagram.
Qed.

(** What is printed for a run of datagrams after the number [last]. *)
Fixpoint report (last : Z) (ds : list sent) : list cstring :=
  match ds with
  | [] => []
  | d :: ds =>
      (if s_sequence d =? last +₆₄ 1 then [] else [gap_line (last +₆₄ 1) (s_sequence d)])
      ++ [line_of d] ++ report (s_sequence d) ds
  end.
(** The datagrams whose number does not follow the one before. *)
Fixpoint breaks (last : Z) (ds : list sent) : Z :=
  match ds with
  | [] => 0
  | d :: ds => (if s_sequence d =? last +₆₄ 1 then 0 else 1) + breaks (s_sequence d) ds
  end.

Lemma breaks_bounds ds : forall last, 0 <= breaks last ds <= Z.of_nat (length ds).
Proof.
  induction ds as [|d ds IH]; intros last; cbn [breaks length]; [lia|]. specialize (IH (s_sequence d)).
  destruct (_ =? _); lia.
Qed.

(** The loop once a datagram was received. *)
Lemma loop_follows ds : forall last s,
  Forall sent_ok ds -> expected_sequence s = last +₆₄ 1 -> 0 < messages_received s -> 0 <= gaps_detected s ->
  messages_received s + Z.of_nat (length ds) < 2 ^ 64 -> gaps_detected s + Z.of_nat (length ds) < 2 ^ 64 ->
  loop ((fun d => Some (bytes_of d)) <$> ds) s =
    Some (report last ds, mk (default last (s_sequence <$> list.last ds) +₆₄ 1)
                            (messages_received s + Z.of_nat (length ds)) (gaps_detected s + breaks last ds)).
Proof.
  induction ds as [|d ds IH]; intros last s Hds He Hm Hg Hmb Hgb.
  { cbn. rewrite -He !Z.add_0_r. by destruct s. }
  apply Forall_cons in Hds as [Hd Hds]. rewrite fmap_cons. cbn [loop]. rewrite receive_datagram; [done|].
  cbn [mbind option_bind]. cbn [length] in Hmb, Hgb. unfold follow. rewrite He. cbn [report breaks].
  destruct (Z.ltb_spec 0 (messages_received s)) as [_|]; [|lia].
  assert (wrap 64 (messages_received s + 1) = messages_received s + 1) as Hw1 by (apply wrap_small; u_lia).
  assert (wrap 64 (gaps_detected s + 1) = gaps_detected s + 1) as Hw2 by (apply wrap_small; u_lia).
  destruct (Z.eqb_spec (s_sequence d) (last +₆₄ 1)) as [E|E]; cbn [fst snd].
  all: rewrite (IH (s_sequence d)); [done|cbn [expected_sequence]; by rewrite ?E|cbn [messages_received gaps_detected]; lia..|].
  all: cbn [mbind option_bind messages_received gaps_detected]; rewrite ?Hw1 ?Hw2; f_equal; apply pair_equal_spec; split.
  all: rewrite -?app_assoc ?last_cons; try done; cbn [length].
  all: destruct (list.last ds); cbn [default]; f_equal; lia.
Qed.

(** The first datagram is taken as it comes. *)
Lemma loop_first d ds :
  Forall sent_ok (d :: ds) -> Z.of_nat (length (d :: ds)) < 2 ^ 64 ->
  exists s, loop ((fun d => Some (bytes_of d)) <$> d :: ds) initial = Some (line_of d :: report (s_sequence d) ds, s) /\
    messages_received s = Z.of_nat (length (d :: ds)) /\ gaps_detected s = breaks (s_sequence d) ds.
Proof.
  intros [Hd Hds]%Forall_cons Hlen. cbn [length] in Hlen. rewrite fmap_cons. cbn [loop].
  rewrite receive_datagram; [done|]. cbn [mbind option_bind]. unfold follow.
  change (0 <? messages_received initial) with false. cbv iota.
  destruct (Z.eqb_spec (s_sequence d) (expected_sequence initial)) as [E|_]; cbn [fst snd].
  all: rewrite (loop_follows ds (s_sequence d)); [done|cbn; by rewrite ?E|cbn [messages_received gaps_detected initial] in *..|].
  all: try (rewrite (wrap_small 64 1); u_lia).
  all: try lia.
  all: cbn [mbind option_bind]; eexists; split; [reflexivity|]; cbn [messages_received gaps_detected initial length].
  all: rewrite (wrap_small 64 (0 + 1)); [u_lia|]; lia.
Qed.

(** ** The publisher and a subscriber *)

(** The jumps in a list of positions. *)
Fixpoint jumps (ps : list nat) : nat :=
  match ps with
  | i :: ((j :: _) as rest) => ((if bool_decide (j = S i) then 0 else 1) + jumps rest)%nat
  | _ => 0%nat
  end.

Section subscriber.
Variable steady_clock : nat -> Timestamp.
Variable send_result : nat -> nat -> Z.
Implicit Types u : UdpPublisher.t.

(** Rounds of the publisher: [q] is the queue as the producers left it for the round. *)
Fixpoint publish (qs : list (MPMCQueue.t MarketDataEvent)) u : option UdpPublisher.t :=
  match qs with
  | [] => Some u
  | q :: qs => u ← UdpPublisher.worker_round steady_clock send_result (UdpPublisher.set_queue q u); publish qs u
  end.

(** Events sent one after the other. *)
Definition sent_from (seq : Z) (tick : nat) (events : list MarketDataEvent) : list sent :=
  imap (fun i event => mkSent event (wrap 64 (seq + Z.of_nat i)) (steady_clock (tick + i))) events.

Lemma datagrams_sent seq tick events : datagrams_of steady_clock seq tick events = bytes_of <$> sent_from seq tick events.
Proof. unfold datagrams_of, sent_from. by rewrite fmap_imap. Qed.

Lemma sent_from_app seq tick es es' :
  sent_from seq tick (es ++ es') = sent_from seq tick es ++ sent_from (wrap 64 (seq + Z.of_nat (length es))) (tick + length es) es'.
Proof.
  unfold sent_from. rewrite imap_app. f_equal. apply imap_ext. intros i e _. cbn [compose]. f_equal.
  - rewrite wrap_add_l. f_equal. lia.
  - f_equal. lia.
Qed.

Lemma publish_spec qs xss u :
  Forall2 (fun q xs => exists n, MPMCQueue.holds (S n) q xs) qs xss -> (forall k n, (n <= 32)%nat -> send_result k n = Z.of_nat n) ->
  u64 (UdpPublisher.next_sequence u) ->
  exists u', publish qs u = Some u' /\
    UdpPublisher.wire u' = UdpPublisher.wire u ++
      (bytes_of <$> sent_from (UdpPublisher.next_sequence u) (UdpPublisher.ticks u) (concat (take 32 <$> xss))).
Proof.
  intros Hq Hsend. revert u. induction Hq as [|q xs qs xss [n Hq] _ IH]; intros u Hu.
  { exists u. cbn. by rewrite app_nil_r. }
  destruct (worker_round_spec steady_clock send_result (UdpPublisher.set_queue q u) xs n Hq Hu)
    as (u1 & Hr & _ & Hw & Hn & [_ Ht] & _).
  rewrite length_datagrams_of in Hn, Ht. rewrite datagrams_sent take_ge in Hw.
  { rewrite Hsend; [rewrite length_fmap /sent_from length_imap length_take; unfold SENDMMSG_BATCH; lia|].
    rewrite length_fmap /sent_from length_imap. lia. }
  cbn [UdpPublisher.wire UdpPublisher.next_sequence UdpPublisher.ticks UdpPublisher.set_queue] in Hw, Hn, Ht.
  destruct (IH u1) as (u' & Hp & Hw'); [rewrite Hn; apply wrap_range; lia|].
  exists u'. cbn [publish]. rewrite Hr. cbn [mbind option_bind]. split; [done|].
  rewrite Hw' Hw Hn Ht fmap_cons concat_cons sent_from_app fmap_app -app_assoc. reflexivity.
Qed.

Lemma sent_from_ok seq tick events :
  Forall event_wf events -> Forall short_symbol events -> (forall n, u64 (steady_clock n)) ->
  Forall sent_ok (sent_from seq tick events).
Proof.
  intros Hw Hs Hc. apply Forall_lookup_2. intros i d Hi. unfold sent_from in Hi. rewrite list_lookup_imap in Hi.
  destruct (events !! i) as [e|] eqn:He; [|done]. cbn in Hi. injection Hi as <-.
  split_and!; [by eapply Forall_lookup_1 in Hw|by eapply Forall_lookup_1 in Hs|apply wrap_range; lia|apply Hc].
Qed.

(** Positions in increasing order and the numbers they carry. *)
Lemma breaks_jumps seq tick events i : forall ps,
  StronglySorted lt (i :: ps) -> Forall (fun j => (j < length events)%nat) (i :: ps) -> Z.of_nat (length events) < 2 ^ 64 ->
  breaks (wrap 64 (seq + Z.of_nat i)) (omap (fun j => sent_from seq tick events !! j) ps) = Z.of_nat (jumps (i :: ps)).
Proof.
  intros ps. revert i. induction ps as [|j ps IH]; intros i Hs Hb Hl; [done|].
  inversion Hs as [|? ? Hs' Hlt]; subst. apply Forall_cons in Hlt as [Hij _]. apply Forall_cons in Hb as [Hbi Hb].
  assert (exists e, events !! j = Some e) as [e He].
  { apply lookup_lt_is_Some_2. by apply Forall_cons in Hb as [? _]. }
  cbn [omap list_omap]. assert (sent_from seq tick events !! j = Some (mkSent e (wrap 64 (seq + Z.of_nat j)) (steady_clock (tick + j)))) as ->.
  { unfold sent_from. by rewrite list_lookup_imap He. }
  cbn [breaks s_sequence]. rewrite IH; [done..|]. change (jumps (i :: j :: ps))
    with ((if bool_decide (j = S i) then 0 else 1) + jumps (j :: ps))%nat.
  apply Forall_cons in Hb as [Hbj _]. rewrite wrap_add_l -Z.add_assoc.
  destruct (Z.eqb_spec (wrap 64 (seq + Z.of_nat j)) (wrap 64 (seq + (Z.of_nat i + 1)))) as [E|E];
    case_bool_decide as Hj; try lia; exfalso.
  - apply Hj. pose proof (wrap_distance 64 (seq + Z.of_nat j) (seq + (Z.of_nat i + 1))) as Hd.
    rewrite E Z.sub_diag (wrap_small 64 0) in Hd; u_lia.
  - apply E. subst j. f_equal. lia.
Qed.

End subscriber.

(** What a subscriber prints for the datagrams it receives. *)
Definition transcript (ds : list sent) : list cstring :=
  match ds with [] => [] | d :: ds => line_of d :: report (s_sequence d) ds end.

(** The datagrams at given positions of the wire. *)
Lemma positions_delivered (sends : list sent) ps :
  Forall (fun p => (p < length sends)%nat) ps ->
  (fun p => (bytes_of <$> sends) !! p) <$> ps = (fun d => Some (bytes_of d)) <$> omap (fun p => sends !! p) ps /\
  length (omap (fun p => sends !! p) ps) = length ps.
Proof.
  induction 1 as [|p ps Hp _ [IH1 IH2]]; [done|]. destruct (lookup_lt_is_Some_2 sends p Hp) as [d Hd].
  cbn [omap list_omap]. rewrite Hd !fmap_cons list_lookup_fmap Hd IH1. cbn [length]. by rewrite IH2.
Qed.

Lemma Forall_omap_lookup {A} (P : A -> Prop) (l : list A) (ps : list nat) : Forall P l -> Forall P (omap (fun p => l !! p) ps).
Proof.
  intros Hl. induction ps as [|p ps IH]; [constructor|]. cbn [omap list_omap].
  destruct (l !! p) as [x|] eqn:Hx; [|done]. constructor; [|done]. by eapply Forall_lookup_1 in Hl.
Qed.

Lemma positions_length m : forall ps k,
  StronglySorted lt ps -> Forall (fun p => (k <= p < m)%nat) ps -> (length ps <= m - k)%nat.
Proof.
  induction ps as [|p ps IH]; intros k Hs Hb; cbn [length]; [lia|].
  inversion Hs as [|? ? Hs' Hlt]; subst. apply Forall_cons in Hb as [Hp Hb].
  assert (length ps <= m - S p)%nat; [|lia]. apply IH; [done|].
  eapply Forall_impl; [exact (List.Forall_and Hlt Hb)|]. cbn. lia.
Qed.

Module ReceiverClaims.

(** C21: A subscriber and the publisher.  The publisher runs any number of rounds,
    its socket accepting every datagram it is offered, with symbols of at most 7
    characters; the network delivers the datagrams at
    the positions [ps] of what was sent, in order, and loses the others, those
    before the subscriber joined included.  The receiver returns and prints one
    line for each delivered event and one warning wherever datagrams are missing in
    between; its statistics count exactly the delivered datagrams and the places
    where the network lost some.  The events a round takes and does not send (all
    but the first 32) are no gap: no subscriber can notice them. *)
Theorem subscriber_follows_publisher clock send_result qs xss q ps :
  Forall2 (fun q xs => exists n, MPMCQueue.holds (S n) q xs) qs xss ->
  (forall k n, (n <= 32)%nat -> send_result k n = Z.of_nat n) -> (forall k, u64 (clock k)) ->
  Forall (Forall event_wf) xss -> Forall (Forall short_symbol) xss ->
  let events := concat (take 32 <$> xss) in
  Z.of_nat (length events) < 2 ^ 64 -> StronglySorted lt ps -> Forall (fun p => (p < length events)%nat) ps ->
  exists u s, publish clock send_result qs (UdpPublisher.make q) = Some u /\
    length (UdpPublisher.wire u) = length events /\
    loop ((fun p => UdpPublisher.wire u !! p) <$> ps) initial =
      Some (transcript (omap (fun p => sent_from clock 1 0 events !! p) ps), s) /\
    messages_received s = Z.of_nat (length ps) /\ gaps_detected s = Z.of_nat (jumps ps).
Proof.
  intros Hq Hsend Hclock Hwf Hshort events Hlen Hsorted Hps.
  destruct (publish_spec clock send_result qs xss (UdpPublisher.make q) Hq Hsend) as (u & Hu & Hw); [cbn; u_lia|].
  cbn [UdpPublisher.make UdpPublisher.wire UdpPublisher.next_sequence UdpPublisher.ticks app] in Hw. fold events in Hw.
  assert (Forall sent_ok (sent_from clock 1 0 events)) as Hok.
  { apply sent_from_ok; [apply Forall_concat, Forall_fmap..|done].
    - eapply Forall_impl; [exact Hwf|]. intros xs Hxs. by apply Forall_take.
    - eapply Forall_impl; [exact Hshort|]. intros xs Hxs. by apply Forall_take. }
  assert (length (sent_from clock 1 0 events) = length events) as Hsl by apply length_imap.
  exists u. rewrite Hw length_fmap Hsl.
  destruct (positions_delivered (sent_from clock 1 0 events) ps) as [-> Hdl]; [by rewrite Hsl|].
  destruct ps as [|p ps]; [by exists initial|]. rewrite -Hdl.
  destruct (lookup_lt_is_Some_2 (sent_from clock 1 0 events) p) as [d Hd]; [rewrite Hsl; by apply Forall_cons in Hps as [? _]|].
  pose proof (Forall_omap_lookup _ _ (p :: ps) Hok) as Hds.
  assert (Z.of_nat (length (omap (fun p => sent_from clock 1 0 events !! p) (p :: ps))) < 2 ^ 64) as Hb.
  { rewrite Hdl. assert (length (p :: ps) <= length events - 0)%nat; [|lia]. apply positions_length; [done|].
    eapply Forall_impl; [exact Hps|]. cbn. lia. }
  cbn [omap list_omap] in Hds, Hb |- *. rewrite Hd in Hds, Hb |- *.
  destruct (loop_first d _ Hds Hb) as (s & Hl & Hm & Hg). exists s. split_and!; try done.
  rewrite Hg. unfold sent_from in Hd. rewrite list_lookup_imap in Hd. destruct (events !! p) as [e|]; [|done].
  injection Hd as <-. cbn [s_sequence]. by apply breaks_jumps.
Qed.

End ReceiverClaims.

Lemma ex_queue_repr n : (n <= 64)%nat ->
  MPMCQueue.repr (ex_full_queue n) 0 (Z.of_nat n) ((fun k => ex_event (Z.of_nat k)) <$> seq 0 n) /\
  MPMCQueue.capacity_ (ex_full_queue n) = 64.
Proof.
  unfold ex_full_queue. destruct (MPMCQueue.mpmc_make_repr (ex_event 0) 64) as (q & Hq & Hr & _); [lia|].
  assert (MPMCQueue.capacity_ <$> MPMCQueue.make (ex_event 0) 64 = Some 64) as Hc by by vm_compute.
  rewrite Hq in Hc |- *. injection Hc as Hc.
  induction n as [|n IH]; intros Hn; [by split|].
  destruct IH as [Hrn Hcn]; [lia|]. rewrite seq_S Nat.add_0_l foldl_app fmap_app. cbn [foldl fmap list_fmap].
  set (q' := foldl _ q (seq 0 n)) in *. clearbody q'.
  pose proof (MPMCQueue.mpmc_push_spec _ _ _ _ (ex_event (Z.of_nat n)) Hrn) as Hp. rewrite Hcn in Hp.
  rewrite decide_True in Hp; [rewrite length_fmap length_seq; lia|].
  destruct Hp as (q2 & -> & Hr2 & Hc2); [change (2 ^ 63) with 9223372036854775808; lia|].
  rewrite Hc2 Nat2Z.inj_succ. split; [exact Hr2|done].
Qed.

Lemma filled_queue_holds n : (n <= 64)%nat ->
  exists m, MPMCQueue.holds (S m) (ex_full_queue n) ((fun k => ex_event (Z.of_nat k)) <$> seq 0 n).
Proof.
  intros Hn. destruct (ex_queue_repr n Hn) as [Hr Hc]. exists 0%nat, 0, (Z.of_nat n). split; [done|].
  rewrite Hc. change (2 ^ 63) with 9223372036854775808. lia.
Qed.

(** Three events of which the second datagram is lost. *)
Lemma subscriber_follows_publisher_witness :
  exists u s, publish (fun _ => 0) (fun _ n => Z.of_nat n) [ex_full_queue 3] (UdpPublisher.make (ex_full_queue 0)) = Some u /\
    messages_received s = 2 /\ gaps_detected s = 1 /\
    loop [UdpPublisher.wire u !! 0%nat; UdpPublisher.wire u !! 2%nat] initial =
      Some ([cstr "BBO AAPL Bid:0x1 Ask:0.0001x2 Seq:1"; cstr "GAP DETECTED: Expected 2, got 3";
             cstr "BBO AAPL Bid:0.0002x1 Ask:0.0003x2 Seq:3"], s).
Proof.
  destruct (ReceiverClaims.subscriber_follows_publisher (fun _ => 0) (fun _ n => Z.of_nat n) [ex_full_queue 3]
    [[ex_event 0; ex_event 1; ex_event 2]] (ex_full_queue 0) [0; 2]%nat) as (u & s & Hu & _ & Hl & Hm & Hg).
  - constructor; [apply (filled_queue_holds 3); lia|constructor].
  - done.
  - intros _. u_lia.
  - repeat constructor; cbn; u_lia.
  - unfold short_symbol. apply (bool_decide_unpack _). by vm_compute.
  - by vm_compute.
  - repeat constructor.
  - repeat constructor; cbn; lia.
  - exists u, s. split_and!; [exact Hu|exact Hm|exact Hg|]. refine (eq_trans Hl _). by vm_compute.
Defined.

(** Two full batches: 128 events are taken, 64 arrive, and the subscriber sees no gap. *)
Example dropped_events_are_no_gap :
  match publish (fun _ => 0) (fun _ n => Z.of_nat n) [ex_full_queue 64; ex_full_queue 64] (UdpPublisher.make (ex_full_queue 0)) with
  | Some u => match loop (Some <$> UdpPublisher.wire u) initial with
              | Some (_, s) => s = mk 65 64 0
              | None => False
              end
  | None => False
  end.
Proof. by vm_compute. Qed.

(** The datagram of a symbol of eight characters has no terminator to stop at. *)
Example long_symbol_undefined :
  receive (Some (datagram_of (mkEvent (cstr "ABCDEFGH" ++ replicate 8 0) (BBO_UPDATE (mkBBOData 1 1 2 2))) 1 0)) initial = None.
Proof. by vm_compute. Qed.
