(* ===== verification/TcpClient.v ===== *)
(** * The interactive client (tools/tcp_client.cpp)

    A console on the gateway: it reads commands from [std::cin], sends orders and
    cancellations and reads one reply per command.  The typed text, what [send]
    and [recv] return and the clock are arguments; the texts written to the
    terminal are the result, one per line or prompt.  Using a variable that the
    extraction left uninitialised is undefined, as is printing an array without
    a terminator. *)

From S2P Require Import Prelude Types MatchingEngine MemorySafety Strings Formatting InputValidation Protocol TcpGateway GatewayTheorems HttpServer SecureConfig Clients ClientTheorems UdpReceiver.

(** ** Extraction from [std::cin]: [None] once the stream has failed *)

Definition stream := option cstring.

(** [in >> text]: [None] when the variable is left alone. *)
Definition extract_word (s : stream) : option cstring * stream :=
  match s with
  | None => (None, None)
  | Some text => match HttpServer.next_word text with Some (w, rest) => (Some w, Some rest) | None => (None, None) end
  end.

(** [in >> n] for an unsigned type of [w] bits.  At the end of the input the
    variable is left alone; without digits it becomes 0, and above the range
    the greatest value, and the stream fails. *)
Definition extract_unsigned (w : Z) (s : stream) : option Z * stream :=
  match s with
  | None => (None, None)
  | Some text =>
      match drop_while isspace text with
      | [] => (None, None)
      | text =>
          let '(negative, text) := match text with 45 :: r => (true, r) | 43 :: r => (false, r) | _ => (false, text) end in
          match take_while isdigit text with
          | [] => (Some 0, None)
          | digits =>
              let v := parse_digits digits in
              if 2 ^ w <=? v then (Some (2 ^ w - 1), None)
              else (Some (if (negative : bool) then wrap w (- v) else v), Some (drop_while isdigit text))
          end
      end
  end.

(** Reading a variable that was declared without an initialiser. *)
Definition use {A} (x : option A) : outcome A := match x with Some x => Done x | None => Undefined end.

Module TcpClient.
Section client.
Variable timestamp : nat -> Timestamp.
Variable send_result : nat -> Z -> Z.

Record t := mk { sock_open : bool; sequence_ : Z; ticks : nat; sends : nat; wire : list Z }.
Implicit Types c : t.

Definition make : t := mk false 0 0 0 [].

(** The answers of [socket], [inet_pton] and [connect]; the socket stays open
    when one of the later two fails. *)
Definition connect (socket_ok address_ok connect_ok : bool) (host : cstring) (port : Z) c : bool * list cstring * t :=
  let opened x := mk x (sequence_ c) (ticks c) (sends c) (wire c) in
  if negb socket_ok then (false, [cstr "Failed to create socket"], opened false)
  else if negb address_ok then (false, [cstr "Invalid address"], opened true)
  else if negb connect_ok then (false, [cstr "Connection failed"], opened true)
  else (true, [cstr "Connected to " ++ host ++ cstr ":" ++ print_u64 port], opened true).

Definition disconnect c : t := mk false (sequence_ c) (ticks c) (sends c) (wire c).

(** [++sequence_] and the reading of the clock. *)
Definition numbered c : t := mk (sock_open c) (sequence_ c +₆₄ 1) (S (ticks c)) (sends c) (wire c).

(** [send(sock_, &msg, sizeof(msg), 0)]: what it returns, and the accepted bytes. *)
Definition transmit (bytes : list Z) c : Z * t :=
  let sent := if sock_open c then send_result (sends c) (Z.of_nat (length bytes)) else -1 in
  (sent, mk (sock_open c) (sequence_ c) (ticks c) (S (sends c)) (wire c ++ take (Z.to_nat sent) bytes)).

Definition side_text (side : Side) : cstring := if bool_decide (side = BUY) then cstr "BUY" else cstr "SELL".

Definition send_new_order (order_id client_id : Z) (symbol : cstring) (side : Side) (quantity price : Z) c
    : outcome (bool * list cstring * t) :=
  let c := numbered c in
  let header := MessageHeader_make NEW_ORDER (Z.of_nat sizeof_NewOrderMessage) (sequence_ c) (timestamp (pred (ticks c))) in
  let! client_text := ClientBase.text 32 (print_u64 client_id) in
  let! symbol_text := ClientBase.text 8 symbol in
  let! msg := ClientBase.checksummed_order (mkNewOrder header order_id client_text symbol_text (byte_of_Side side)
                quantity price (byte_of_OrderType LIMIT)) in
  let '(sent, c) := transmit (encode_new_order msg) c in
  if sent =? Z.of_nat sizeof_NewOrderMessage
  then Done (true, [cstr "Sent order: ID=" ++ print_u64 order_id ++ cstr " " ++ symbol ++ cstr " " ++ side_text side
                    ++ cstr " " ++ print_u64 quantity ++ cstr "@" ++ print_price price], c)
  else Done (false, [cstr "Failed to send order"], c).

Definition send_cancel_order (order_id client_id : Z) (symbol : cstring) c : outcome (bool * list cstring * t) :=
  let c := numbered c in
  let header := MessageHeader_make CANCEL_ORDER (Z.of_nat sizeof_CancelOrderMessage) (sequence_ c)
                  (timestamp (pred (ticks c))) in
  let! client_text := ClientBase.text 32 (print_u64 client_id) in
  let! symbol_text := ClientBase.text 8 symbol in
  let! msg := ClientBase.checksummed_cancel (mkCancelOrder header order_id client_text symbol_text) in
  let '(sent, c) := transmit (encode_cancel_order msg) c in
  if sent =? Z.of_nat sizeof_CancelOrderMessage
  then Done (true, [cstr "Sent cancel: ID=" ++ print_u64 order_id], c)
  else Done (false, [cstr "Failed to send cancel"], c).

(** One [recv] that must deliver all [size] bytes. *)
Definition receive_whole (size : nat) (chunks : list (list Z)) c : option (list Z) * list (list Z) :=
  match recv (sock_open c) (Z.of_nat size) chunks WouldBlock with
  | (Received bytes, chunks) => (if (length bytes =? size)%nat then Some bytes else None, chunks)
  | (RecvFails _, chunks) => (None, chunks)
  end.

Definition receive_response (chunks : list (list Z)) c : outcome (bool * list cstring * list (list Z)) :=
  match receive_whole sizeof_header chunks c with
  | (None, chunks) => Done (false, [], chunks)
  | (Some header, chunks) =>
      let type := h_type (decode_header header) in
      if type =? ORDER_ACK then
        match receive_whole (sizeof_OrderAckMessage - sizeof_header) chunks c with
        | (None, chunks) => Done (false, [], chunks)
        | (Some rest, chunks) =>
            let ack := decode_order_ack (header ++ rest) in
            let! reason := use (print_array (BoundedString.data_ (oa_reason ack))) in
            Done (true, [cstr "Received ACK: Order=" ++ print_u64 (oa_order_id ack)
                         ++ cstr " Status=" ++ (if oa_status ack =? 1 then cstr "ACCEPTED" else cstr "REJECTED")
                         ++ cstr " Reason=" ++ reason], chunks)
        end
      else if type =? TRADE_REPORT then
        match receive_whole (sizeof_TradeMessage - sizeof_header) chunks c with
        | (None, chunks) => Done (false, [], chunks)
        | (Some rest, chunks) =>
            let trade := decode_trade (header ++ rest) in
            let! symbol := use (print_array (BoundedString.data_ (tm_symbol trade))) in
            Done (true, [cstr "Received TRADE: ID=" ++ print_u64 (tm_trade_id trade) ++ cstr " " ++ symbol ++ cstr " "
                         ++ print_u64 (tm_quantity trade) ++ cstr "@" ++ print_price (tm_price trade)], chunks)
        end
      else Done (true, [], chunks)
  end.

(** ** The loop of [main] *)

(** The [order] command: six extractions, then the call; [price * 10000] wraps. *)
Definition order_command (input : stream) c : outcome (list cstring * stream * t) :=
  let '(id, input) := extract_unsigned 64 input in
  let '(client_id, input) := extract_unsigned 32 input in
  let '(symbol, input) := extract_word input in
  let '(side_str, input) := extract_word input in
  let '(qty, input) := extract_unsigned 64 input in
  let '(price, input) := extract_unsigned 64 input in
  let side_str := default [] side_str in
  let side := if bool_decide (side_str = cstr "BUY") || bool_decide (side_str = cstr "buy") then BUY else SELL in
  let! id := use id in
  let! client_id := use client_id in
  let! qty := use qty in
  let! price := use price in
  let! x := send_new_order id client_id (default [] symbol) side qty (wrap 64 (price * 10000)) c in
  Done (x.1.2, input, x.2).

Definition cancel_command (input : stream) c : outcome (list cstring * stream * t) :=
  let '(id, input) := extract_unsigned 64 input in
  let '(client_id, input) := extract_unsigned 32 input in
  let '(symbol, input) := extract_word input in
  let! id := use id in
  let! client_id := use client_id in
  let! x := send_cancel_order id client_id (default [] symbol) c in
  Done (x.1.2, input, x.2).

Definition prompt : cstring := cstr "> ".

(** Every turn reads a word, so the length of the input is enough fuel. *)
Fixpoint console_loop (fuel : nat) (input : stream) (chunks : list (list Z)) c : outcome (list cstring * t) :=
  match fuel with
  | O => Undefined
  | S fuel =>
      match extract_word input with
      | (None, _) => Done ([prompt], c)
      | (Some command, input) =>
          if bool_decide (command = cstr "quit") then Done ([prompt], c)
          else
            let! x :=
              (if bool_decide (command = cstr "order") then order_command input c
               else if bool_decide (command = cstr "cancel") then cancel_command input c
               else Done ([cstr "Unknown command: " ++ command], input, c)) in
            let '(lines, input, c) := x in
            let! r := receive_response chunks c in
            let '(_, replies, chunks) := r in
            let! more := console_loop fuel input chunks c in
            Done (prompt :: lines ++ replies ++ more.1, more.2)
      end
  end.

Definition usage : list cstring :=
  [[]; cstr "Commands:"; cstr "  order <id> <client_id> <symbol> <side> <qty> <price>";
   cstr "  cancel <id> <client_id> <symbol>"; cstr "  quit"; []].

(** [main] after the arguments: the exit status and what was written. *)
Definition console (answers : bool * bool * bool) (host : cstring) (port : Z) (typed : cstring) (chunks : list (list Z))
    : outcome (Z * list cstring * t) :=
  let '(socket_ok, address_ok, connect_ok) := answers in
  let '(connected, lines, c) := connect socket_ok address_ok connect_ok host port make in
  if negb connected then Done (1, lines, c)
  else
    let! x := console_loop (S (length typed)) (Some typed) chunks c in
    Done (0, lines ++ usage ++ x.1, disconnect x.2).

Definition main (program : cstring) (args : list cstring) (answers : bool * bool * bool) (typed : cstring)
    (chunks : list (list Z)) : outcome (Z * list cstring * t) :=
  match args with
  | [host; port] =>
      match SecureConfigManager.stoi port with
      | None => Throws "stoi"
      | Some v => console answers host (wrap 16 v) typed chunks
      end
  | _ => Done (1, [cstr "Usage: " ++ program ++ cstr " <host> <port>"], make)
  end.

End client.
End TcpClient.

(** ** Typed text *)

#[local] Opaque le_encode print_u64 print_price.

Definition ends_word (r : cstring) : Prop := match r with [] => True | c :: _ => isspace c = true end.

Lemma isspace_not_digit c : isspace c = true -> isdigit c = false.
Proof. unfold isspace, isdigit. zbool; lia || done. Qed.

Lemma extract_word_typed a r : word a -> ends_word r -> extract_word (Some (a ++ r)) = (Some a, Some r) /\
  extract_word (Some (32 :: a ++ r)) = (Some a, Some r).
Proof. intros Ha Hr. destruct (next_word_skip a r Ha Hr) as [H1 H2]. unfold extract_word. by rewrite H1 H2. Qed.

Lemma extract_word_space c s : isspace c = true -> extract_word (Some (c :: s)) = extract_word (Some s).
Proof. intros Hc. unfold extract_word, HttpServer.next_word. cbn [drop_while]. by rewrite Hc. Qed.

Lemma extract_unsigned_typed w v r :
  u64 v -> v < 2 ^ w -> ends_word r -> extract_unsigned w (Some (32 :: print_u64 v ++ r)) = (Some v, Some r).
Proof.
  intros Hv Hw Hr. destruct (print_u64_spec v Hv) as (Hp & Hd & Hl). unfold extract_unsigned.
  destruct (take_drop_while isdigit (print_u64 v) r) as [Ht Hdr].
  { eapply Forall_impl; [exact Hd|]. unfold is_digit, isdigit. intros c ?. zbool; lia || done. }
  { destruct r; [done|]. by apply isspace_not_digit. }
  change (drop_while isspace (32 :: print_u64 v ++ r)) with (drop_while isspace (print_u64 v ++ r)).
  destruct (print_u64 v) as [|c ds] eqn:E; [cbn in Hl; lia|].
  apply Forall_cons in Hd as [Hc _]. unfold is_digit in Hc. cbn [app] in *.
  assert (isspace c = false) as Hs by (unfold isspace; zbool; lia || done).
  cbn [drop_while]. rewrite Hs.
  assert ((match c :: ds ++ r with 45 :: x => (true, x) | 43 :: x => (false, x) | _ => (false, c :: ds ++ r) end)
          = (false, c :: ds ++ r)) as ->.
  { repeat (lia || done || match goal with |- context [match ?x with _ => _ end] => destruct x eqn:? end). }
  rewrite Ht Hdr Hp. destruct (Z.leb_spec (2 ^ w) v); [lia|]. done.
Qed.

Inductive typed_command :=
  | TypeOrder (id client_id : Z) (symbol : cstring) (buy : bool) (qty price : Z)
  | TypeCancel (id client_id : Z) (symbol : cstring).

Definition side_of (buy : bool) : Side := if buy then BUY else SELL.

(** The line the user types. *)
Definition typed (x : typed_command) : cstring :=
  match x with
  | TypeOrder id client_id symbol buy qty price =>
      cstr "order" ++ 32 :: print_u64 id ++ 32 :: print_u64 client_id ++ 32 :: symbol
      ++ 32 :: TcpClient.side_text (side_of buy) ++ 32 :: print_u64 qty ++ 32 :: print_u64 price ++ [10]
  | TypeCancel id client_id symbol =>
      cstr "cancel" ++ 32 :: print_u64 id ++ 32 :: print_u64 client_id ++ 32 :: symbol ++ [10]
  end.

Definition symbol_ok (s : cstring) : Prop := word s /\ text_ok s /\ (length s < 8)%nat.
Definition typed_ok (x : typed_command) : Prop :=
  match x with
  | TypeOrder id client_id symbol buy qty price =>
      u64 id /\ u32 client_id /\ symbol_ok symbol /\ u64 qty /\ u64 price /\ u64 (price * 10000)
  | TypeCancel id client_id symbol => u64 id /\ u32 client_id /\ symbol_ok symbol
  end.

(** What the exchange is asked. *)
Definition asks (x : typed_command) (m : ClientBase.message) : Prop :=
  match x with
  | TypeOrder id client_id symbol buy qty price => says id client_id (NewOrder symbol (side_of buy) qty (price * 10000)) m
  | TypeCancel id client_id symbol => says 0 client_id (CancelOrder id symbol) m
  end.

Definition sent_line (x : typed_command) : cstring :=
  match x with
  | TypeOrder id _ symbol buy qty price =>
      cstr "Sent order: ID=" ++ print_u64 id ++ cstr " " ++ symbol ++ cstr " " ++ TcpClient.side_text (side_of buy)
      ++ cstr " " ++ print_u64 qty ++ cstr "@" ++ print_price (price * 10000)
  | TypeCancel id _ _ => cstr "Sent cancel: ID=" ++ print_u64 id
  end.

(** A reply of the gateway, and its line. *)
Definition ack_ok (a : OrderAckMessage) : Prop :=
  order_ack_wf a /\ h_type (oa_header a) = ORDER_ACK /\ 0 ∈ BoundedString.data_ (oa_reason a).
Definition ack_line (a : OrderAckMessage) : cstring :=
  cstr "Received ACK: Order=" ++ print_u64 (oa_order_id a)
  ++ cstr " Status=" ++ (if oa_status a =? 1 then cstr "ACCEPTED" else cstr "REJECTED")
  ++ cstr " Reason=" ++ until_nul (BoundedString.data_ (oa_reason a)).

(** ** A session *)

Section session.
Variable timestamp : nat -> Timestamp.
Variable send_result : nat -> Z -> Z.
Hypothesis timestamp_u64 : forall n, u64 (timestamp n).
Hypothesis sends_complete : complete_sends send_result.
#[local] Set Default Proof Using "Type*".
Import TcpClient.
Implicit Types c : t.

(** Connected, and everything sent so far consists of whole messages. *)
Definition session_ok (c : t) (fs : list (list Z)) : Prop :=
  sock_open c = true /\ u64 (sequence_ c) /\ parse_stream (wire c) = (fs, Partial []).

Lemma transmit_whole bytes c fs :
  session_ok c fs -> (28 <= length bytes <= 4096)%nat -> field bytes 4 4 = Z.of_nat (length bytes) ->
  exists c', transmit send_result bytes (numbered c) = (Z.of_nat (length bytes), c') /\ session_ok c' (fs ++ [bytes]).
Proof.
  intros (Ho & Hs & Hp) Hl Hf. unfold transmit. cbn [sock_open numbered]. rewrite Ho sends_complete Nat2Z.id firstn_all.
  eexists. split; [reflexivity|]. split_and!; [done| |]; cbn [sequence_ wire].
  - apply wrap_range. lia.
  - by apply parse_snoc.
Qed.

Lemma send_new_order_done id client_id symbol side q p c fs :
  u64 id -> u32 client_id -> request_ok (NewOrder symbol side q p) -> session_ok c fs ->
  exists m c', send_new_order timestamp send_result id client_id symbol side q p c =
      Done (true, [cstr "Sent order: ID=" ++ print_u64 id ++ cstr " " ++ symbol ++ cstr " " ++ side_text side
                   ++ cstr " " ++ print_u64 q ++ cstr "@" ++ print_price p], c') /\
    says id client_id (NewOrder symbol side q p) m /\ session_ok c' (fs ++ [ClientBase.encode m]).
Proof.
  intros Hid Hc Hr Hok. pose proof (wrap_range 64 (sequence_ c + 1) ltac:(lia)) as Hsq.
  destruct (order_made (sequence_ c +₆₄ 1) (timestamp (ticks c)) id client_id symbol side q p)
    as (ct & st & m & Ect & Est & Em & Hs & Hl & Hf); [done..|].
  destruct (transmit_whole (encode_new_order m) c fs Hok) as (c' & Et & Hok'); [|by rewrite Hl|].
  { rewrite Hl. unfold sizeof_NewOrderMessage, sizeof_header, sizeof_bounded. lia. }
  exists (ClientBase.SentOrder m), c'. split; [|done]. unfold send_new_order.
  rewrite Ect. cbn [omap_outcome]. rewrite Est. cbn [omap_outcome].
  cbn [numbered sequence_ ticks pred] in *. rewrite Em. cbn [omap_outcome]. rewrite Et Hl Z.eqb_refl. done.
Qed.

Lemma send_cancel_order_done id client_id symbol c fs :
  u32 client_id -> request_ok (CancelOrder id symbol) -> session_ok c fs ->
  exists m c', send_cancel_order timestamp send_result id client_id symbol c =
      Done (true, [cstr "Sent cancel: ID=" ++ print_u64 id], c') /\
    says 0 client_id (CancelOrder id symbol) m /\ session_ok c' (fs ++ [ClientBase.encode m]).
Proof.
  intros Hc Hr Hok. pose proof (wrap_range 64 (sequence_ c + 1) ltac:(lia)) as Hsq.
  destruct (cancel_made (sequence_ c +₆₄ 1) (timestamp (ticks c)) id client_id symbol 0)
    as (ct & st & m & Ect & Est & Em & Hs & Hl & Hf); [done..|].
  destruct (transmit_whole (encode_cancel_order m) c fs Hok) as (c' & Et & Hok'); [|by rewrite Hl|].
  { rewrite Hl. unfold sizeof_CancelOrderMessage, sizeof_header, sizeof_bounded. lia. }
  exists (ClientBase.SentCancel m), c'. split; [|done]. unfold send_cancel_order.
  rewrite Ect. cbn [omap_outcome]. rewrite Est. cbn [omap_outcome].
  cbn [numbered sequence_ ticks pred] in *. rewrite Em. cbn [omap_outcome]. rewrite Et Hl Z.eqb_refl. done.
Qed.

Lemma side_word buy : word (side_text (side_of buy)).
Proof. destruct buy; (split; [done|]); by repeat constructor. Qed.

Lemma side_read buy :
  (if bool_decide (side_text (side_of buy) = cstr "BUY") || bool_decide (side_text (side_of buy) = cstr "buy")
   then BUY else SELL) = side_of buy.
Proof. by destruct buy. Qed.

Lemma use_some {A} (x : A) : use (Some x) = Done x.
Proof. done. Qed.

(** The command behind its first word. *)
Lemma order_command_done id client_id symbol buy qty price rest c fs :
  typed_ok (TypeOrder id client_id symbol buy qty price) -> session_ok c fs ->
  exists m c', order_command timestamp send_result
      (Some (32 :: print_u64 id ++ 32 :: print_u64 client_id ++ 32 :: symbol
             ++ 32 :: side_text (side_of buy) ++ 32 :: print_u64 qty ++ 32 :: print_u64 price ++ 10 :: rest)) c =
      Done ([sent_line (TypeOrder id client_id symbol buy qty price)], Some (10 :: rest), c') /\
    asks (TypeOrder id client_id symbol buy qty price) m /\ session_ok c' (fs ++ [ClientBase.encode m]).
Proof.
  intros (Hid & Hc & (Hw & Htx & Hsl) & Hq & Hp & Hpp) Hok. unfold order_command.
  rewrite extract_unsigned_typed; [done|apply Hid|done|]. rewrite extract_unsigned_typed; [u_lia|apply Hc|done|].
  rewrite (proj2 (extract_word_typed symbol _ Hw _)); [done|].
  rewrite (proj2 (extract_word_typed _ _ (side_word buy) _)); [done|].
  rewrite extract_unsigned_typed; [done|apply Hq|done|]. rewrite extract_unsigned_typed; [done|apply Hp|done|].
  rewrite !use_some. cbn [omap_outcome]. change (default [] (Some ?x)) with x.
  rewrite side_read (wrap_small 64 (price * 10000)); [done|].
  destruct (send_new_order_done id client_id symbol (side_of buy) qty (price * 10000) c fs) as (m & c' & -> & Hm & Hok');
    [done|done| |done|].
  { cbn [request_ok]. split_and!; try done. destruct buy; [by left|by right]. }
  exists m, c'. cbn [omap_outcome fst snd]. done.
Qed.

Lemma cancel_command_done id client_id symbol rest c fs :
  typed_ok (TypeCancel id client_id symbol) -> session_ok c fs ->
  exists m c', cancel_command timestamp send_result
      (Some (32 :: print_u64 id ++ 32 :: print_u64 client_id ++ 32 :: symbol ++ 10 :: rest)) c =
      Done ([sent_line (TypeCancel id client_id symbol)], Some (10 :: rest), c') /\
    asks (TypeCancel id client_id symbol) m /\ session_ok c' (fs ++ [ClientBase.encode m]).
Proof.
  intros (Hid & Hc & (Hw & Htx & Hsl)) Hok. unfold cancel_command.
  rewrite extract_unsigned_typed; [done|apply Hid|done|]. rewrite extract_unsigned_typed; [u_lia|apply Hc|done|].
  rewrite (proj2 (extract_word_typed symbol _ Hw _)); [done|].
  rewrite !use_some. cbn [omap_outcome]. change (default [] (Some ?x)) with x.
  destruct (send_cancel_order_done id client_id symbol c fs) as (m & c' & -> & Hm & Hok'); [done|done|done|].
  exists m, c'. cbn [omap_outcome fst snd]. done.
Qed.

(** A reply that arrives in one piece. *)
Lemma receive_ack a chunks c :
  sock_open c = true -> ack_ok a ->
  receive_response (encode_order_ack a :: chunks) c = Done (true, [ack_line a], chunks).
Proof.
  intros Ho (Hw & Ht & H0). pose proof (length_encode_order_ack a Hw) as Hl. unfold receive_response, receive_whole.
  rewrite Ho. unfold recv at 1. cbn [negb]. change (Z.of_nat sizeof_header =? 0) with false. cbv iota.
  rewrite Hl. change (Z.of_nat sizeof_OrderAckMessage <=? Z.of_nat sizeof_header) with false. cbv iota.
  rewrite Nat2Z.id length_take Hl. change (Nat.min sizeof_header sizeof_OrderAckMessage =? sizeof_header)%nat with true. cbv iota.
  assert (decode_header (take sizeof_header (encode_order_ack a)) = oa_header a) as ->.
  { unfold encode_order_ack. rewrite take_app_length'; [by rewrite length_encode_header|].
    rewrite -{1}(app_nil_r (encode_header _)) decode_header_app //. apply Hw. }
  rewrite Ht. change (ORDER_ACK =? ORDER_ACK) with true. cbv iota.
  unfold recv. cbn [negb]. change (Z.of_nat (sizeof_OrderAckMessage - sizeof_header) =? 0) with false. cbv iota.
  rewrite length_drop Hl Z.leb_refl length_drop Hl Nat.eqb_refl take_drop.
  pose proof (decode_order_ack_app a [] Hw) as Hd. rewrite app_nil_r in Hd. rewrite Hd.
  rewrite print_array_short; [done|]. rewrite use_some. done.
Qed.

(** What the terminal shows for commands and their replies. *)
Fixpoint shown (cs : list typed_command) (acks : list OrderAckMessage) : list cstring :=
  match cs, acks with
  | x :: cs, a :: acks => prompt :: sent_line x :: ack_line a :: shown cs acks
  | _, _ => [prompt]
  end.

Lemma console_loop_space fuel s chunks c :
  console_loop timestamp send_result fuel (Some (10 :: s)) chunks c = console_loop timestamp send_result fuel (Some s) chunks c.
Proof. destruct fuel as [|fuel]; [done|]. cbn [console_loop]. by rewrite extract_word_space. Qed.

(** One command with its reply. *)
Lemma console_command x a rest chunks c fs fuel :
  typed_ok x -> ack_ok a -> session_ok c fs ->
  exists m c', asks x m /\ session_ok c' (fs ++ [ClientBase.encode m]) /\
    console_loop timestamp send_result (S fuel) (Some (typed x ++ rest)) (encode_order_ack a :: chunks) c =
      let! more := console_loop timestamp send_result fuel (Some rest) chunks c' in
      Done (prompt :: sent_line x :: ack_line a :: more.1, more.2).
Proof.
  intros Hx Ha Hok. destruct x as [id cid symbol buy qty price|id cid symbol]; cbn [typed console_loop].
  - repeat (rewrite -app_assoc; cbn [app]).
    rewrite (proj1 (extract_word_typed (cstr "order") _ _ _)); [split; [done|by repeat constructor]|done|].
    rewrite bool_decide_false; [done|]. rewrite bool_decide_true; [done|].
    destruct (order_command_done id cid symbol buy qty price rest c fs Hx Hok) as (m & c' & E & Hm & Hok').
    exists m, c'. split; [done|]. split; [done|]. rewrite E. cbn [omap_outcome].
    rewrite receive_ack; [apply Hok'|done|]. cbn [omap_outcome]. by rewrite console_loop_space.
  - repeat (rewrite -app_assoc; cbn [app]).
    rewrite (proj1 (extract_word_typed (cstr "cancel") _ _ _)); [split; [done|by repeat constructor]|done|].
    rewrite bool_decide_false; [done|]. rewrite bool_decide_false; [done|]. rewrite bool_decide_true; [done|].
    destruct (cancel_command_done id cid symbol rest c fs Hx Hok) as (m & c' & E & Hm & Hok').
    exists m, c'. split; [done|]. split; [done|]. rewrite E. cbn [omap_outcome].
    rewrite receive_ack; [apply Hok'|done|]. cbn [omap_outcome]. by rewrite console_loop_space.
Qed.

Lemma console_session cs : forall acks c fs fuel,
  Forall typed_ok cs -> Forall ack_ok acks -> length acks = length cs -> session_ok c fs -> (length cs < fuel)%nat ->
  exists ms c', console_loop timestamp send_result fuel (Some (concat (typed <$> cs) ++ cstr "quit"))
      (encode_order_ack <$> acks) c = Done (shown cs acks, c') /\
    Forall2 asks cs ms /\ session_ok c' (fs ++ (ClientBase.encode <$> ms)).
Proof.
  induction cs as [|x cs IH]; intros acks c fs fuel Hcs Hacks Hlen Hok Hf.
  - exists [], c. rewrite app_nil_r. split; [|by split]. by destruct fuel; [lia|].
  - destruct acks as [|a acks]; [done|]. destruct fuel as [|fuel]; [cbn in Hf; lia|].
    apply Forall_cons in Hcs as [Hx Hcs]. apply Forall_cons in Hacks as [Ha Hacks]. injection Hlen as Hlen.
    rewrite !fmap_cons concat_cons -app_assoc.
    destruct (console_command x a (concat (typed <$> cs) ++ cstr "quit") (encode_order_ack <$> acks) c fs fuel)
      as (m & c1 & Hm & Hok1 & ->); [done..|].
    destruct (IH acks c1 (fs ++ [ClientBase.encode m]) fuel) as (ms & c' & -> & Hms & Hok'); [done..|cbn in Hf; lia|].
    exists (m :: ms), c'. cbn [omap_outcome]. split; [done|]. split; [by constructor|]. by rewrite -app_assoc in Hok'.
Qed.

Lemma typed_nonempty x : (0 < length (typed x))%nat.
Proof. destruct x; cbn [typed]; rewrite length_app; cbn; lia. Qed.

Lemma session_fuel cs : (length cs < S (length (concat (typed <$> cs) ++ cstr "quit")))%nat.
Proof.
  rewrite length_app. enough (length cs <= length (concat (typed <$> cs)))%nat by lia.
  induction cs as [|x cs IH]; [done|]. rewrite fmap_cons concat_cons length_app. cbn [length].
  pose proof (typed_nonempty x). lia.
Qed.

End session.

Module ConsoleClaims.

(** A session at the console.  The user types any orders and cancellations and
    then [quit]; the socket takes every message whole and every reply of the
    gateway arrives in one piece.  The client returns 0 and has shown, for each
    command, what it sent and the gateway's answer; the gateway's framing cuts its
    byte stream into exactly one message per command, in order, with a valid
    checksum and the typed ids, symbol, side, quantity and price (in units of
    1/10000). *)
Theorem typed_session_read timestamp send_result host port cs acks :
  (forall n, u64 (timestamp n)) -> complete_sends send_result ->
  Forall typed_ok cs -> Forall ack_ok acks -> length acks = length cs ->
  exists ms c,
    TcpClient.console timestamp send_result (true, true, true) host port (concat (typed <$> cs) ++ cstr "quit")
      (encode_order_ack <$> acks) =
      Done (0, (cstr "Connected to " ++ host ++ cstr ":" ++ print_u64 port) :: TcpClient.usage ++ shown cs acks, c) /\
    Forall2 asks cs ms /\ parse_stream (TcpClient.wire c) = (ClientBase.encode <$> ms, Partial []).
Proof.
  intros Hts Hsend Hcs Hacks Hlen. unfold TcpClient.console. cbn [TcpClient.connect negb].
  destruct (console_session timestamp send_result Hts Hsend cs acks (TcpClient.mk true 0 0 0 []) []
    (S (length (concat (typed <$> cs) ++ cstr "quit")))) as (ms & c & E & Hms & _ & _ & Hp); [done..| | |].
  - split_and!; [done|cbn; u_lia|done].
  - apply session_fuel.
  - exists ms, (TcpClient.disconnect c). cbn [TcpClient.make TcpClient.sequence_ TcpClient.ticks TcpClient.sends TcpClient.wire].
    rewrite E. done.
Qed.

Definition ex_order : typed_command := TypeOrder 7 42 (cstr "AAPL") true 100 150.
Definition ex_accepted : OrderAckMessage :=
  mkOrderAck (mkHeader ORDER_ACK 77 1 5 0) 7 1 (BoundedString.mk (cstr "OK" ++ replicate 30 0) 2).

Lemma ex_accepted_ok : ack_ok ex_accepted.
Proof.
  split; [|split; [done|]].
  - split; [split|..]; by vm_compute.
  - cbn [ex_accepted oa_reason BoundedString.data_]. apply (bool_decide_unpack _). by vm_compute.
Qed.

Lemma typed_session_read_witness :
  exists ms c,
    TcpClient.console (fun _ => 5) (fun _ size => size) (true, true, true) (cstr "127.0.0.1") 8888
      (cstr "order 7 42 AAPL BUY 100 150" ++ [10] ++ cstr "quit") [encode_order_ack ex_accepted] =
      Done (0, cstr "Connected to 127.0.0.1:8888" :: TcpClient.usage
               ++ [cstr "> "; cstr "Sent order: ID=7 AAPL BUY 100@150"; cstr "Received ACK: Order=7 Status=ACCEPTED Reason=OK";
                   cstr "> "], c) /\
    Forall2 asks [ex_order] ms /\ parse_stream (TcpClient.wire c) = (ClientBase.encode <$> ms, Partial []).
Proof.
  destruct (typed_session_read (fun _ => 5) (fun _ size => size) (cstr "127.0.0.1") 8888 [ex_order] [ex_accepted])
    as (ms & c & E & Hm & Hp).
  - intros _. u_lia.
  - intros n size. reflexivity.
  - constructor; [|constructor]. cbn [typed_ok ex_order]. unfold symbol_ok, word, text_ok.
    split_and!; try u_lia; try done; try (cbn; lia); repeat constructor; cbn; lia.
  - constructor; [apply ex_accepted_ok|constructor].
  - reflexivity.
  - exists ms, c. split; [|by split]. refine (eq_trans (eq_trans _ E) _); by vm_compute.
Defined.

End ConsoleClaims.

(** A reply that arrives in two pieces is lost: the first part is read as a
    header, the rest of it as the next reply's. *)
Example split_reply_lost :
  let bytes := encode_order_ack ConsoleClaims.ex_accepted in
  let c := TcpClient.mk true 0 0 0 [] in
  TcpClient.receive_response [take 20 bytes; drop 20 bytes] c = Done (false, [], [drop 20 bytes]).
Proof. by vm_compute. Qed.

(** A price that is no number is sent as 0, an incomplete command reads variables
    that were never set, and a symbol of eight characters ends the program. *)
Example odd_commands :
  let run text := TcpClient.console (fun _ => 5) (fun _ size => size) (true, true, true) (cstr "127.0.0.1") 8888 text [] in
  (exists c, run (cstr "order 7 42 AAPL BUY 100 market") =
     Done (0, cstr "Connected to 127.0.0.1:8888" :: TcpClient.usage
              ++ [cstr "> "; cstr "Sent order: ID=7 AAPL BUY 100@0"; cstr "> "], c) /\
     no_price (decode_new_order (TcpClient.wire c)) = 0) /\
  run (cstr "order 7 42 AAPL BUY") = Undefined /\
  run (cstr "cancel 7 42 ABCDEFGH") = Throws "String length exceeds max".
Proof. split; [eexists; split; by vm_compute|]. split; by vm_compute. Qed.
