(* ===== verification/Tools.v ===== *)
(** * The client simulator and the load generator (tools/client_simulator.cpp, tools/load_generator.cpp)

    Both read their options, create clients of the four strategies, connect and
    run them and report the totals.  The command line, the answers of the network
    ([address_ok] for [inet_pton], [connect_ok] for [connect]), the interleaving
    of a client's two threads and the elapsed times are arguments; the lines
    written to the terminal are the result. *)

From Stdlib Require Import SpecFloat.
From S2P Require Import Prelude Types MatchingEngine Double MemorySafety Strings Formatting InputValidation Protocol TcpGateway SecureConfig Clients ClientTheorems TcpClient.

(** ** A client of any strategy *)

(** [std::unique_ptr<ClientBase>] *)
Inductive AnyClient :=
  | AMarketMaker (m : MarketMaker)
  | ALiquidityTaker (l : LiquidityTaker)
  | AMomentum (m : Momentum)
  | AArbitrage (a : Arbitrage).

Definition any_base (x : AnyClient) : ClientBase.t :=
  match x with
  | AMarketMaker m => mm_base m | ALiquidityTaker l => lt_base l | AMomentum m => mo_base m | AArbitrage a => ar_base a
  end.
Definition any_set_base (c : ClientBase.t) (x : AnyClient) : AnyClient :=
  match x with
  | AMarketMaker m => AMarketMaker (mm_set_base c m)
  | ALiquidityTaker l => ALiquidityTaker (lt_set_base c l)
  | AMomentum m => AMomentum (mo_set_base c m)
  | AArbitrage a => AArbitrage (ar_set_base c a)
  end.

Definition wrapped {A} (f : A -> AnyClient) (x : outcome A) : outcome AnyClient := let! y := x in Done (f y).

Section dispatch.
Variable timestamp : nat -> Timestamp.
Variable send_result : nat -> Z -> Z.
Variable uniform : nat -> Z -> Z -> Z.
Let maker := MarketMaker_strategy timestamp send_result uniform.
Let taker := LiquidityTaker_strategy timestamp send_result uniform.
Let momentum := Momentum_strategy timestamp send_result.
Let arbitrage := Arbitrage_strategy timestamp send_result.

(** A virtual call. *)
Definition any_method (maker_f : MarketMaker -> outcome MarketMaker) (taker_f : LiquidityTaker -> outcome LiquidityTaker)
    (momentum_f : Momentum -> outcome Momentum) (arbitrage_f : Arbitrage -> outcome Arbitrage) (x : AnyClient)
    : outcome AnyClient :=
  match x with
  | AMarketMaker m => wrapped AMarketMaker (maker_f m)
  | ALiquidityTaker l => wrapped ALiquidityTaker (taker_f l)
  | AMomentum m => wrapped AMomentum (momentum_f m)
  | AArbitrage a => wrapped AArbitrage (arbitrage_f a)
  end.

Definition AnyClient_strategy : Strategy AnyClient := {|
  base := any_base;
  set_base := any_set_base;
  on_start := any_method (on_start (Strategy := maker)) (on_start (Strategy := taker)) (on_start (Strategy := momentum))
                (on_start (Strategy := arbitrage));
  on_tick := any_method (on_tick (Strategy := maker)) (on_tick (Strategy := taker)) (on_tick (Strategy := momentum))
               (on_tick (Strategy := arbitrage));
  on_order_ack a := any_method (on_order_ack (Strategy := maker) a) (on_order_ack (Strategy := taker) a)
                      (on_order_ack (Strategy := momentum) a) (on_order_ack (Strategy := arbitrage) a);
  on_trade t := any_method (on_trade (Strategy := maker) t) (on_trade (Strategy := taker) t)
                  (on_trade (Strategy := momentum) t) (on_trade (Strategy := arbitrage) t);
  on_stop := any_method (on_stop (Strategy := maker)) (on_stop (Strategy := taker)) (on_stop (Strategy := momentum))
               (on_stop (Strategy := arbitrage))
|}.

End dispatch.

(** ** The two threads of [ClientBase::run] *)

Inductive thread_event :=
  | MainReads (now : Z)      (* the test of the main loop, and a tick if it holds *)
  | ReceiverTurn.            (* a turn of [receiver_loop] *)

(** The turns of the receiver before [on_start], those during the main loop, those
    between the loop and the moment [running_] is cleared, and where the receiver is
    at that moment: at the test of its loop ([None]), in the [head]-th [recv] of a
    header ([Some (head, 0)]), or in the [body]-th [recv] behind one. *)
Record schedule := mkSchedule {
  sc_early : nat;
  sc_events : list thread_event;
  sc_late : nat;
  sc_last : option (nat * nat)
}.

Section threads.
Context {S : Type} `{Strategy S}.

(** The receiver with its stream: whether it still takes turns, or waits in [recv]
    for what does not come. *)
Record receiver := mkReceiver { rx_live : bool; rx_chunks : list (list Z) }.

Definition turn (head body : nat) (r : receiver) (s : S) : outcome (receiver * S) :=
  if rx_live r
  then let! x := receiver_turn head body (rx_chunks r) s in Done (mkReceiver x.1.1 x.1.2, x.2)
  else Done (r, s).
Definition whole_turn : receiver -> S -> outcome (receiver * S) := turn sizeof_header sizeof_TradeMessage.

(** Until the test of the main loop fails, or nothing more happens. *)
Fixpoint interleave (end_time : Z) (events : list thread_event) (r : receiver) (s : S) : outcome (receiver * S) :=
  match events with
  | [] => Done (r, s)
  | MainReads now :: events =>
      if ClientBase.running_ (base s) && (now <? end_time)
      then let! s := on_tick s in interleave end_time events r s
      else Done (r, s)
  | ReceiverTurn :: events =>
      if ClientBase.running_ (base s)
      then let! x := whole_turn r s in interleave end_time events x.1 x.2
      else interleave end_time events r s
  end.

Fixpoint receiver_turns (n : nat) (r : receiver) (s : S) : outcome (receiver * S) :=
  match n with
  | O => Done (r, s)
  | Datatypes.S n => let! x := whole_turn r s in receiver_turns n x.1 x.2
  end.

(** The turn in which the receiver finds [running_] cleared.  In the body of a
    message the header has come whole; in the header no body is asked for. *)
Definition last_turn (last : option (nat * nat)) (r : receiver) (s : S) : outcome (receiver * S) :=
  match last with
  | None => Done (r, s)
  | Some (head, O) => turn head 0 r s
  | Some (_, body) => turn sizeof_header body r s
  end.

(** [run]: the receiver runs from before [on_start] until [running_] is cleared
    behind [on_stop], and is then joined; the flag of the result says whether the
    join returns. *)
Definition run_threads (duration start_time : Z) (x : schedule) (chunks : list (list Z)) (s : S)
    : outcome (receiver * S) :=
  if negb (ClientBase.socket_open (base s)) then Done (mkReceiver true chunks, s)
  else
    let s := set_base (ClientBase.set_running true (base s)) s in
    let! r := receiver_turns (sc_early x) (mkReceiver true chunks) s in
    let! s := on_start r.2 in
    let! r := interleave (start_time + duration) (sc_events x) r.1 s in
    let! r := receiver_turns (sc_late x) r.1 r.2 in
    let! s := on_stop r.2 in
    last_turn (sc_last x) r.1 (set_base (ClientBase.set_running false (base s)) s).

(** What every turn of the receiver keeps of its stream, the run keeps. *)
Section keeps.
Variable Q : receiver -> Prop.
Hypothesis turn_keeps : forall head body r s x, turn head body r s = Done x -> Q r -> Q x.1.

Lemma turns_keep n : forall r s x, receiver_turns n r s = Done x -> Q r -> Q x.1.
Proof using turn_keeps.
  induction n as [|n IH]; intros r s x E HQ; cbn [receiver_turns] in E; [by injection E as <-|].
  destruct (whole_turn r s) as [y| |] eqn:Et; cbn [omap_outcome] in E; [|done..].
  eapply IH; [exact E|]. eapply turn_keeps; [exact Et|done].
Qed.

Lemma interleave_keeps end_time events : forall r s x, interleave end_time events r s = Done x -> Q r -> Q x.1.
Proof using turn_keeps.
  induction events as [|[now|] events IH]; intros r s x E HQ; cbn [interleave] in E; [by injection E as <-|..].
  - destruct (_ && _); [|by injection E as <-]. destruct (on_tick s); cbn [omap_outcome] in E; [|done..]. by eapply IH.
  - destruct (ClientBase.running_ _); [|by eapply IH]. destruct (whole_turn r s) as [y| |] eqn:Et; cbn [omap_outcome] in E; [|done..].
    eapply IH; [exact E|]. eapply turn_keeps; [exact Et|done].
Qed.

Lemma run_threads_keeps duration start_time x chunks s y :
  run_threads duration start_time x chunks s = Done y -> Q (mkReceiver true chunks) -> Q y.1.
Proof using turn_keeps.
  intros E HQ. unfold run_threads in E. destruct (negb _); [by injection E as <-|]. cbv zeta in E.
  destruct (receiver_turns (sc_early x) _ _) as [r1| |] eqn:E1; cbn [omap_outcome] in E; [|done..].
  destruct (on_start _) as [s2| |]; cbn [omap_outcome] in E; [|done..].
  destruct (interleave _ _ _ _) as [r3| |] eqn:E3; cbn [omap_outcome] in E; [|done..].
  destruct (receiver_turns (sc_late x) _ _) as [r4| |] eqn:E4; cbn [omap_outcome] in E; [|done..].
  destruct (on_stop _) as [s5| |]; cbn [omap_outcome] in E; [|done..].
  assert (Q r4.1) as H4 by (eapply turns_keep; [exact E4|]; eapply interleave_keeps; [exact E3|]; by eapply turns_keep).
  unfold last_turn in E. destruct (sc_last x) as [[head [|body]]|]; [by eapply turn_keeps..|by injection E as <-].
Qed.
End keeps.

(** A stream that ends leaves no [recv] waiting. *)
Definition closes (r : receiver) : Prop := rx_live r = true /\ [] ∈ rx_chunks r.

Lemma receive_loop_closes size fuel : forall acc chunks,
  [] ∈ chunks ->
  (ClientBase.receive_loop fuel acc size chunks).1 <> ClientBase.Waiting /\ [] ∈ (ClientBase.receive_loop fuel acc size chunks).2.
Proof.
  induction fuel as [|fuel IH]; intros acc chunks Hin; cbn [ClientBase.receive_loop]; destruct (Nat.leb_spec size (length acc)); try done.
  unfold recv. cbn [negb]. rewrite (proj2 (Z.eqb_neq _ _)); [lia|]. destruct chunks as [|c chunks]; [by apply elem_of_nil in Hin|].
  destruct c as [|b c].
  - rewrite (proj2 (Z.leb_le _ _)); [cbn; lia|]. by split; [|left].
  - apply elem_of_cons in Hin as [?|Hin]; [done|]. destruct (_ <=? _); [by apply IH|].
    destruct (take _ (b :: c)); [by split; [|left]|]. apply IH. by right.
Qed.

Lemma receive_message_closes open fuel size chunks :
  [] ∈ chunks ->
  (ClientBase.receive_message open fuel size chunks).1 <> ClientBase.Waiting /\
  [] ∈ (ClientBase.receive_message open fuel size chunks).2.
Proof. intros Hin. unfold ClientBase.receive_message. destruct (negb open); [done|]. by apply receive_loop_closes. Qed.

Lemma turn_closes head body r s x : turn head body r s = Done x -> closes r -> closes x.1.
Proof.
  intros E [Hl Hin]. unfold turn in E. rewrite Hl in E. unfold receiver_turn in E. cbv zeta in E.
  remember (ClientBase.socket_open (base s)) as open eqn:Eo. clear Eo.
  pose proof (receive_message_closes open head sizeof_header _ Hin) as [Hw Hin1].
  destruct (ClientBase.receive_message open head _ _) as [[bytes| |] c1]; cbn [fst snd] in *; [|by injection E as <-|done].
  cbv zeta in E. destruct (_ =? ORDER_ACK); [|destruct (_ =? TRADE_REPORT); [|by injection E as <-]].
  1: pose proof (receive_message_closes open body (sizeof_OrderAckMessage - sizeof_header) c1 Hin1) as [Hw2 Hin2].
  2: pose proof (receive_message_closes open body (sizeof_TradeMessage - sizeof_header) c1 Hin1) as [Hw2 Hin2].
  all: destruct (ClientBase.receive_message open body _ c1) as [[rest| |] c2]; cbn [fst snd] in *; [|by injection E as <-|done].
  - destruct (on_order_ack _ _); cbn [omap_outcome] in E; [|done..]. by injection E as <-.
  - destruct (on_trade _ _); cbn [omap_outcome] in E; [|done..]. by injection E as <-.
Qed.

Lemma turn_nil head body r s x : turn head body r s = Done x -> rx_chunks r = [] -> rx_chunks x.1 = [].
Proof.
  intros E Hc. unfold turn in E. destruct (rx_live r); [|by injection E as <-]. unfold receiver_turn in E. rewrite Hc in E.
  cbv zeta in E. unfold ClientBase.receive_message in E. destruct (negb _); [by injection E as <-|].
  by destruct head; injection E as <-.
Qed.

(** A silent exchange: whatever turn needs a byte does not end. *)
Lemma turn_silent head body r s :
  rx_chunks r = [] -> ClientBase.socket_open (base s) = true ->
  exists r', turn (Datatypes.S head) body r s = Done (r', s) /\ rx_chunks r' = [] /\ rx_live r' = false.
Proof.
  intros Hc Ho. unfold turn. destruct (rx_live r) eqn:Hl; [|by exists r]. unfold receiver_turn. rewrite Ho Hc. by eexists.
Qed.

End threads.

(** ** Options *)

(** [std::stoul]: blanks, a sign, digits; a negative number wraps. *)
Definition stoul (s : cstring) : option Z :=
  let s := drop_while isspace s in
  let '(negative, s) := match s with 45 :: s' => (true, s') | 43 :: s' => (false, s') | _ => (false, s) end in
  match take_while isdigit s with
  | [] => None
  | digits =>
      let v := parse_digits digits in
      if 2 ^ 64 <=? v then None else Some (if (negative : bool) then wrap 64 (- v) else v)
  end.

(** An exception that nothing catches. *)
Definition or_throw (what : string) (x : option Z) : outcome Z := match x with Some v => Done v | None => Throws what end.

(** What [main] does after its options: goes on, or returns. *)
Inductive parsed (O : Type) := Options (o : O) | Exit (code : Z) (lines : list cstring).
Arguments Options {O} _.
Arguments Exit {O} _ _.

(** The loop over [argv], two entries a turn.  [apply_option] is [None] for an
    option it does not know. *)
Section options.
Context {O : Type}.
Variable apply_option : cstring -> cstring -> O -> option (outcome O).
Variable help unknown : list cstring.

Fixpoint parse_options (args : list cstring) (o : O) : outcome (parsed O) :=
  match args with
  | [] => Done (Options o)
  | arg :: rest =>
      if bool_decide (rest = []) && negb (bool_decide (arg = cstr "--help"))
      then Done (Exit 1 [cstr "Missing value for " ++ arg])
      else match rest with
      | value :: rest' =>
          match apply_option arg value o with
          | Some x => let! o := x in parse_options rest' o
          | None =>
              if bool_decide (arg = cstr "--help") then Done (Exit 0 help)
              else Done (Exit 1 ((cstr "Unknown option: " ++ arg) :: unknown))
          end
      | [] => Done (Exit 0 help)
      end
  end.
End options.

(** ** The client simulator *)

Module ClientSimulator.

Record t := mk {
  strategy : cstring;
  symbol : cstring;
  symbol2 : cstring;
  host : cstring;
  port : Z;
  client_id : Z;
  duration : Z
}.

Definition defaults (random : Z) : t :=
  mk (cstr "market_maker") (cstr "AAPL") (cstr "MSFT") (cstr "localhost") 8888 random 60.

Definition print_usage (program_name : cstring) : list cstring :=
  [cstr "Usage: " ++ program_name ++ cstr " [options]";
   cstr "Options:";
   cstr "  --strategy <type>    Strategy type: market_maker, momentum, arbitrage, liquidity_taker";
   cstr "  --symbol <symbol>    Primary symbol (default: AAPL)";
   cstr "  --symbol2 <symbol>   Secondary symbol for arbitrage";
   cstr "  --host <host>        Exchange host (default: localhost)";
   cstr "  --port <port>        Exchange port (default: 8888)";
   cstr "  --client-id <id>     Client ID (default: random)";
   cstr "  --duration <sec>     Run duration in seconds (default: 60)";
   cstr "  --help               Show this help"].

(** The assignments of the option loop, narrowed to the type of the variable. *)
Definition apply_option (arg value : cstring) (o : t) : option (outcome t) :=
  if bool_decide (arg = cstr "--strategy") then
    Some (Done (mk value (symbol o) (symbol2 o) (host o) (port o) (client_id o) (duration o)))
  else if bool_decide (arg = cstr "--symbol") then
    Some (Done (mk (strategy o) value (symbol2 o) (host o) (port o) (client_id o) (duration o)))
  else if bool_decide (arg = cstr "--symbol2") then
    Some (Done (mk (strategy o) (symbol o) value (host o) (port o) (client_id o) (duration o)))
  else if bool_decide (arg = cstr "--host") then
    Some (Done (mk (strategy o) (symbol o) (symbol2 o) value (port o) (client_id o) (duration o)))
  else if bool_decide (arg = cstr "--port") then
    Some (let! v := or_throw "stoi" (SecureConfigManager.stoi value) in
          Done (mk (strategy o) (symbol o) (symbol2 o) (host o) (wrap 16 v) (client_id o) (duration o)))
  else if bool_decide (arg = cstr "--client-id") then
    Some (let! v := or_throw "stoul" (stoul value) in
          Done (mk (strategy o) (symbol o) (symbol2 o) (host o) (port o) (wrap 32 v) (duration o)))
  else if bool_decide (arg = cstr "--duration") then
    Some (let! v := or_throw "stoi" (SecureConfigManager.stoi value) in
          Done (mk (strategy o) (symbol o) (symbol2 o) (host o) (port o) (client_id o) v))
  else None.

Definition parse (program_name : cstring) (args : list cstring) (random : Z) : outcome (parsed t) :=
  parse_options apply_option (print_usage program_name) (print_usage program_name) args (defaults random).

Definition make_client (o : t) : option AnyClient :=
  if bool_decide (strategy o = cstr "market_maker") then Some (AMarketMaker (MarketMaker_make (client_id o) (symbol o) 10))
  else if bool_decide (strategy o = cstr "momentum") then Some (AMomentum (Momentum_make (client_id o) (symbol o)))
  else if bool_decide (strategy o = cstr "arbitrage") then
    Some (AArbitrage (Arbitrage_make (client_id o) (symbol o) (symbol2 o)))
  else if bool_decide (strategy o = cstr "liquidity_taker") then
    Some (ALiquidityTaker (LiquidityTaker_make (client_id o) (symbol o)))
  else None.

Definition banner (o : t) : cstring :=
  cstr "Starting " ++ strategy o ++ cstr " strategy for " ++ symbol o
  ++ (if bool_decide (strategy o = cstr "arbitrage") then cstr "/" ++ symbol2 o else [])
  ++ cstr " (client " ++ print_u64 (client_id o) ++ cstr ")".

(** [elapsed]: whole seconds. *)
Definition statistics (elapsed : Z) (c : ClientBase.t) : list cstring :=
  [[]; cstr "Strategy completed after " ++ print_i64 elapsed ++ cstr " seconds";
   cstr "Statistics:";
   cstr "  Orders sent: " ++ print_u64 (ClientBase.orders_sent_ c);
   cstr "  Orders acked: " ++ print_u64 (ClientBase.orders_acked_ c);
   cstr "  Orders rejected: " ++ print_u64 (ClientBase.orders_rejected_ c);
   cstr "  Trades received: " ++ print_u64 (ClientBase.trades_received_ c)]
  ++ (if 0 <? elapsed
      then [cstr "  Order rate: " ++ print_general (double_div (double_of_Z (ClientBase.orders_sent_ c)) (double_of_Z elapsed))
            ++ cstr " orders/sec"]
      else []).

Section main.
Variable timestamp : nat -> Timestamp.
Variable send_result : nat -> Z -> Z.
Variable uniform : nat -> Z -> Z -> Z.
(** [inet_pton] and [connect]. *)
Variable address_ok : cstring -> bool.
Variable connect_ok : cstring -> Z -> bool.

(** [main]: the exit status, [None] when [run] does not return, and what was
    written.  [elapsed] is what the clock says at the end. *)
Definition main (program_name : cstring) (args : list cstring) (random start_time elapsed : Z)
    (x : schedule) (chunks : list (list Z)) : outcome (option Z * list cstring) :=
  let! p := parse program_name args random in
  match p with
  | Exit code lines => Done (Some code, lines)
  | Options o =>
      match make_client o with
      | None => Done (Some 1, [banner o; cstr "Unknown strategy: " ++ strategy o])
      | Some client =>
          let '(connected, c) := ClientBase.connect true (address_ok (host o)) (connect_ok (host o) (port o)) (any_base client) in
          let client := any_set_base c client in
          if negb connected
          then Done (Some 1, [banner o; cstr "Failed to connect to " ++ host o ++ cstr ":" ++ print_u64 (port o)])
          else
            let! r := run_threads (H := AnyClient_strategy timestamp send_result uniform) (duration o * 1000000000) start_time
                        x chunks client in
            let lines := [banner o; cstr "Connected to exchange, running for " ++ print_i64 (duration o) ++ cstr " seconds..."] in
            if rx_live r.1 then Done (Some 0, lines ++ statistics elapsed (any_base r.2)) else Done (None, lines)
      end
  end.
End main.

End ClientSimulator.

(** ** The load generator *)

Module LoadGenerator.

(** [std::getline(ss, symbol, ',')] until it fails: the piece behind the last
    comma counts only when it is not empty. *)
Fixpoint split_loop (piece : cstring) (s : cstring) : list cstring :=
  match s with
  | [] => match piece with [] => [] | _ => [piece] end
  | c :: s => if c =? 44 then piece :: split_loop [] s else split_loop (piece ++ [c]) s
  end.
Definition split_symbols (s : cstring) : list cstring := split_loop [] s.

(** The [i]-th client; indexing an empty vector is undefined. *)
Definition make_client (symbols : list cstring) (i : nat) : option AnyClient :=
  let client_id := wrap 32 (1000 + Z.of_nat i) in
  symbol ← symbols !! (i mod length symbols)%nat;
  match (i mod 4)%nat with
  | 0%nat => Some (AMarketMaker (MarketMaker_make client_id symbol 10))
  | 1%nat => Some (ALiquidityTaker (LiquidityTaker_make client_id symbol))
  | 2%nat => Some (AMomentum (Momentum_make client_id symbol))
  | _ => symbol2 ← symbols !! ((i + 1) mod length symbols)%nat; Some (AArbitrage (Arbitrage_make client_id symbol symbol2))
  end.

Definition client_id_of (x : AnyClient) : Z := ClientBase.client_id_ (any_base x).

(** The creation loop from [i] on; [connects i] tells whether the [i]-th client connects. *)
Fixpoint create_clients (connects : nat -> bool) (symbols : list cstring) (todo i : nat) (clients : list AnyClient)
    (lines : list cstring) : option (list AnyClient * list cstring) :=
  match todo with
  | O => Some (clients, lines)
  | S todo =>
      client ← make_client symbols i;
      let '(connected, c) := ClientBase.connect true true (connects i) (any_base client) in
      if connected then create_clients connects symbols todo (S i) (clients ++ [any_set_base c client]) lines
      else create_clients connects symbols todo (S i) clients
             (lines ++ [cstr "Failed to connect client " ++ print_u64 (client_id_of client)])
  end.

Record totals := mkTotals { total_orders : Z; total_acked : Z; total_rejected : Z; total_trades : Z }.

(** The loop over the clients. *)
Definition add_client (s : totals) (x : AnyClient) : totals :=
  let c := any_base x in
  mkTotals (total_orders s +₆₄ ClientBase.orders_sent_ c) (total_acked s +₆₄ ClientBase.orders_acked_ c)
    (total_rejected s +₆₄ ClientBase.orders_rejected_ c) (total_trades s +₆₄ ClientBase.trades_received_ c).
Definition total (clients : list AnyClient) : totals := foldl add_client (mkTotals 0 0 0 0) clients.

Definition ratio (a b : Z) : double := double_div (double_of_Z a) (double_of_Z b).
Definition percent (a b : Z) : double := double_mul (ratio a b) (double_of_Z 100).

Definition print_statistics (clients : list AnyClient) (elapsed_seconds : Z) : cstring :=
  let s := total clients in
  let orders_per_sec := ratio (total_orders s) elapsed_seconds in
  let reject_rate := if 0 <? total_orders s then percent (total_rejected s) (total_orders s) else double_of_Z 0 in
  cstr "[" ++ print_i64 elapsed_seconds ++ cstr "s] Orders: " ++ print_u64 (total_orders s)
  ++ cstr " (" ++ print_general orders_per_sec ++ cstr "/s), Acked: " ++ print_u64 (total_acked s)
  ++ cstr ", Rejected: " ++ print_u64 (total_rejected s) ++ cstr " (" ++ print_general reject_rate ++ cstr "%)"
  ++ cstr ", Trades: " ++ print_u64 (total_trades s).

Definition print_final_statistics (clients : list AnyClient) (total_seconds : Z) : list cstring :=
  let s := total clients in
  [[]; cstr "=== Load Test Results ===";
   cstr "Duration: " ++ print_i64 total_seconds ++ cstr " seconds";
   cstr "Clients: " ++ print_u64 (Z.of_nat (length clients));
   cstr "Total orders sent: " ++ print_u64 (total_orders s);
   cstr "Orders acknowledged: " ++ print_u64 (total_acked s);
   cstr "Orders rejected: " ++ print_u64 (total_rejected s);
   cstr "Trades received: " ++ print_u64 (total_trades s)]
  ++ (if 0 <? total_seconds
      then [cstr "Average order rate: " ++ print_general (ratio (total_orders s) total_seconds) ++ cstr " orders/sec";
            cstr "Average trade rate: " ++ print_general (ratio (total_trades s) total_seconds) ++ cstr " trades/sec"]
      else [])
  ++ (if 0 <? total_orders s
      then [cstr "Reject rate: " ++ print_general (percent (total_rejected s) (total_orders s)) ++ cstr "%";
            cstr "Fill rate: " ++ print_general (percent (total_trades s) (total_orders s)) ++ cstr "%"]
      else []).

(** The progress loop: at each reading of the clock, the whole seconds elapsed
    and the clients as they are then; it ends at the duration or at a signal
    (the end of the readings). *)
Fixpoint monitor (duration_seconds : Z) (readings : list (Z * list AnyClient)) : list cstring :=
  match readings with
  | [] => []
  | (elapsed, clients) :: readings =>
      if duration_seconds <=? elapsed then []
      else (if (elapsed `rem` 10 =? 0) && (0 <? elapsed) then [print_statistics clients elapsed] else [])
           ++ monitor duration_seconds readings
  end.

Section run.
(** The clock, the sends and the random numbers of the [i]-th connected client. *)
Variable timestamp : nat -> nat -> Timestamp.
Variable send_result : nat -> nat -> Z -> Z.
Variable uniform : nat -> nat -> Z -> Z -> Z.

(** The threads of the clients from the [i]-th on: the events and the received pieces
    of each, and whether all of them end. *)
Fixpoint run_clients (duration start_time : Z) (i : nat) (clients : list AnyClient)
    (schedules : list (schedule * list (list Z))) : outcome (bool * list AnyClient) :=
  match clients, schedules with
  | client :: clients, (x, chunks) :: schedules =>
      let! r := run_threads (H := AnyClient_strategy (timestamp i) (send_result i) (uniform i)) duration start_time
                  x chunks client in
      let! rest := run_clients duration start_time (S i) clients schedules in
      let more : bool * list AnyClient := rest in
      Done (rx_live r.1 && more.1, r.2 :: more.2)
  | clients, _ => Done (true, clients)
  end.

(** [connects i]: whether [inet_pton] and [connect] succeed for the [i]-th client.
    The final statistics are printed when all threads have been joined. *)
Definition run (connects : nat -> bool) (symbols : list cstring) (num_clients duration_seconds start_time : Z)
    (readings : list (Z * list AnyClient)) (schedules : list (schedule * list (list Z))) (total_elapsed : Z)
    : outcome (bool * list cstring) :=
  match create_clients connects symbols (Z.to_nat num_clients) 0 [] [] with
  | None => Undefined
  | Some (clients, errors) =>
      let! ended := run_clients (duration_seconds * 1000000000) start_time 0 clients schedules in
      let final : bool * list AnyClient := ended in
      Done (final.1,
            [cstr "Starting load test with " ++ print_i64 num_clients ++ cstr " clients for "
             ++ print_i64 duration_seconds ++ cstr " seconds"]
            ++ errors
            ++ [cstr "Connected " ++ print_u64 (Z.of_nat (length clients)) ++ cstr " clients"]
            ++ monitor duration_seconds readings
            ++ (if final.1 then print_final_statistics final.2 total_elapsed else []))
  end.
End run.

Record options := mkOptions { o_host : cstring; o_port : Z; o_clients : Z; o_duration : Z; o_symbols : cstring }.
Definition default_options : options := mkOptions (cstr "localhost") 8888 10 60 (cstr "AAPL,MSFT,GOOGL").

Definition print_usage (program_name : cstring) : list cstring :=
  [cstr "Usage: " ++ program_name ++ cstr " [options]";
   cstr "Options:";
   cstr "  --host <host>        Exchange host (default: localhost)";
   cstr "  --port <port>        Exchange port (default: 8888)";
   cstr "  --clients <num>      Number of clients (default: 10)";
   cstr "  --duration <sec>     Test duration in seconds (default: 60)";
   cstr "  --symbols <list>     Comma-separated symbol list (default: AAPL,MSFT,GOOGL)";
   cstr "  --help               Show this help"].

Definition apply_option (arg value : cstring) (o : options) : option (outcome options) :=
  if bool_decide (arg = cstr "--host") then
    Some (Done (mkOptions value (o_port o) (o_clients o) (o_duration o) (o_symbols o)))
  else if bool_decide (arg = cstr "--port") then
    Some (let! v := or_throw "stoi" (SecureConfigManager.stoi value) in
          Done (mkOptions (o_host o) (wrap 16 v) (o_clients o) (o_duration o) (o_symbols o)))
  else if bool_decide (arg = cstr "--clients") then
    Some (let! v := or_throw "stoi" (SecureConfigManager.stoi value) in
          Done (mkOptions (o_host o) (o_port o) v (o_duration o) (o_symbols o)))
  else if bool_decide (arg = cstr "--duration") then
    Some (let! v := or_throw "stoi" (SecureConfigManager.stoi value) in
          Done (mkOptions (o_host o) (o_port o) (o_clients o) v (o_symbols o)))
  else if bool_decide (arg = cstr "--symbols") then
    Some (Done (mkOptions (o_host o) (o_port o) (o_clients o) (o_duration o) value))
  else None.

(** [main] up to the call of [run]: the options and the symbols. *)
Definition prepare (program_name : cstring) (args : list cstring) : outcome (parsed (options * list cstring)) :=
  let! p := parse_options apply_option (print_usage program_name) (print_usage program_name) args default_options in
  match p with
  | Exit code lines => Done (Exit code lines)
  | Options o =>
      match split_symbols (o_symbols o) with
      | [] => Done (Exit 1 [cstr "No symbols specified"])
      | symbols => Done (Options (o, symbols))
      end
  end.

Section main.
Variable timestamp : nat -> nat -> Timestamp.
Variable send_result : nat -> nat -> Z -> Z.
Variable uniform : nat -> nat -> Z -> Z -> Z.

Definition main (program_name : cstring) (args : list cstring) (connects : nat -> bool) (start_time : Z)
    (readings : list (Z * list AnyClient)) (schedules : list (schedule * list (list Z))) (total_elapsed : Z)
    : outcome (option Z * list cstring) :=
  let! p := prepare program_name args in
  match p with
  | Exit code lines => Done (Some code, lines)
  | Options (o, symbols) =>
      let! ended := run timestamp send_result uniform connects symbols (o_clients o) (o_duration o) start_time readings
                      schedules total_elapsed in
      let lines : bool * list cstring := ended in
      Done (if lines.1 then Some 0 else None, lines.2)
  end.
End main.

End LoadGenerator.

(** ** Properties of the load generator *)

Import LoadGenerator.

(** The class of a client, by its place in the [switch]. *)
Definition kind_of (x : AnyClient) : nat :=
  match x with AMarketMaker _ => 0 | ALiquidityTaker _ => 1 | AMomentum _ => 2 | AArbitrage _ => 3 end.
Definition first_symbol (x : AnyClient) : cstring :=
  match x with
  | AMarketMaker m => mm_symbol_ m | ALiquidityTaker l => lt_symbol_ l | AMomentum m => mo_symbol_ m | AArbitrage a => symbol1_ a
  end.

Definition failed_line (i : nat) : cstring := cstr "Failed to connect client " ++ print_u64 (wrap 32 (1000 + Z.of_nat i)).
(** A connected client of the [i]-th turn. *)
Definition is_client (symbols : list cstring) (i : nat) (x : AnyClient) : Prop :=
  kind_of x = (i mod 4)%nat /\ client_id_of x = wrap 32 (1000 + Z.of_nat i) /\
  symbols !! (i mod length symbols)%nat = Some (first_symbol x) /\ ClientBase.socket_open (any_base x) = true.

Lemma make_client_some symbols i :
  symbols <> [] ->
  exists x, make_client symbols i = Some x /\ client_id_of x = wrap 32 (1000 + Z.of_nat i) /\
    is_client symbols i (any_set_base (ClientBase.set_socket true (any_base x)) x).
Proof.
  intros Hs. assert (length symbols <> 0)%nat as Hl by (by destruct symbols).
  assert (forall k, exists s, symbols !! (k mod length symbols)%nat = Some s) as Hsome.
  { intros k. apply lookup_lt_is_Some_2. by apply Nat.mod_upper_bound. }
  destruct (Hsome i) as [s Hi], (Hsome (i + 1)%nat) as [s2 Hi2]. unfold make_client, is_client. rewrite Hi. cbn [mbind option_bind].
  pose proof (Nat.mod_upper_bound i 4 ltac:(lia)) as H4.
  destruct (i mod 4)%nat as [|[|[|[|k]]]] eqn:Ek; [eexists; split; [done|]; split; [done|split_and!; done]..| |lia].
  rewrite Hi2. cbn [mbind option_bind]. eexists. split; [done|]. split; [done|]. split_and!; done.
Qed.

Lemma create_clients_spec connects symbols todo : forall i clients lines,
  symbols <> [] ->
  exists more, create_clients connects symbols todo i clients lines =
      Some (clients ++ more, lines ++ (failed_line <$> filter (fun k => connects k = false) (seq i todo))) /\
    Forall2 (is_client symbols) (filter (fun k => connects k = true) (seq i todo)) more.
Proof.
  induction todo as [|todo IH]; intros i clients lines Hs; cbn [create_clients seq].
  { exists []. rewrite !app_nil_r. split; [done|constructor]. }
  destruct (make_client_some symbols i Hs) as (x & -> & Hid & Hx). cbn [mbind option_bind].
  unfold ClientBase.connect. cbn [negb]. destruct (connects i) eqn:Hc; cbn [negb].
  - destruct (IH (S i) (clients ++ [any_set_base (ClientBase.set_socket true (any_base x)) x]) lines Hs) as (more & E & Hm).
    exists (any_set_base (ClientBase.set_socket true (any_base x)) x :: more).
    rewrite E -app_assoc filter_cons_False; [by rewrite Hc|]. split; [done|].
    rewrite filter_cons_True; [done|]. by constructor.
  - destruct (IH (S i) clients (lines ++ [cstr "Failed to connect client " ++ print_u64 (client_id_of x)]) Hs)
      as (more & E & Hm).
    exists more. rewrite E -app_assoc filter_cons_True; [done|]. rewrite Hid. split; [done|].
    rewrite filter_cons_False; [by rewrite Hc|]. done.
Qed.

(** The totals are the sums over the clients. *)
Lemma total_sums clients :
  let sum f := wrap 64 (sumZ (f <$> (any_base <$> clients))) in
  total clients = mkTotals (sum ClientBase.orders_sent_) (sum ClientBase.orders_acked_) (sum ClientBase.orders_rejected_)
                    (sum ClientBase.trades_received_).
Proof.
  intros sum. unfold total.
  enough (forall s, u64 (total_orders s) -> u64 (total_acked s) -> u64 (total_rejected s) -> u64 (total_trades s) ->
    foldl add_client s clients =
      mkTotals (wrap 64 (total_orders s + sumZ (ClientBase.orders_sent_ <$> (any_base <$> clients))))
        (wrap 64 (total_acked s + sumZ (ClientBase.orders_acked_ <$> (any_base <$> clients))))
        (wrap 64 (total_rejected s + sumZ (ClientBase.orders_rejected_ <$> (any_base <$> clients))))
        (wrap 64 (total_trades s + sumZ (ClientBase.trades_received_ <$> (any_base <$> clients))))) as H.
  { rewrite H; cbn [total_orders total_acked total_rejected total_trades]; [u_lia..|]. by rewrite !Z.add_0_l. }
  induction clients as [|x clients IH]; intros s H1 H2 H3 H4; cbn [foldl].
  { rewrite !fmap_nil /= !Z.add_0_r !wrap_small //. by destruct s. }
  unfold add_client at 2. rewrite IH; cbn [total_orders total_acked total_rejected total_trades]; [apply wrap_range; lia..|].
  rewrite !fmap_cons !sumZ_cons !wrap_add_l. by rewrite !Z.add_assoc.
Qed.

(** Joining and splitting. *)
Fixpoint join (symbols : list cstring) : cstring :=
  match symbols with [] => [] | [s] => s | s :: rest => s ++ 44 :: join rest end.

Lemma split_loop_piece piece s r : 44 ∉ s -> split_loop piece (s ++ r) = split_loop (piece ++ s) r.
Proof.
  revert piece. induction s as [|c s IH]; intros piece Hs; [by rewrite app_nil_r|].
  apply not_elem_of_cons in Hs as [Hc Hs]. cbn [app split_loop].
  destruct (Z.eqb_spec c 44); [congruence|]. rewrite IH //. by rewrite -app_assoc.
Qed.

Lemma split_join symbols :
  Forall (fun s => 44 ∉ s) symbols -> list.last symbols <> Some [] -> split_symbols (join symbols) = symbols.
Proof.
  intros Hs. unfold split_symbols. induction Hs as [|s symbols Hc _ IH]; intros Hl; [done|].
  destruct symbols as [|s2 symbols].
  - cbn [join]. rewrite -{1}(app_nil_r s) split_loop_piece //. cbn. by destruct s.
  - cbn [join]. rewrite split_loop_piece //. cbn [split_loop app]. rewrite Z.eqb_refl. f_equal. by apply IH.
Qed.

Lemma clients_distinct symbols is_ clients n :
  Forall2 (is_client symbols) is_ clients -> NoDup is_ -> Forall (fun i => (i < n)%nat) is_ -> Z.of_nat n <= 2 ^ 31 ->
  NoDup (client_id_of <$> clients).
Proof.
  intros H2 Hnd Hb Hn. assert (client_id_of <$> clients = (fun i => 1000 + Z.of_nat i) <$> is_) as ->.
  { clear Hnd. induction H2 as [|i x is_ clients Hx _ IH]; [done|]. apply Forall_cons in Hb as [Hi Hb].
    rewrite !fmap_cons IH //. destruct Hx as (_ & -> & _). f_equal. apply wrap_small.
    change (2 ^ 31) with 2147483648 in Hn. u_lia. }
  apply NoDup_fmap_2; [|done]. intros a b. lia.
Qed.

Module ToolClaims.

(** The clients of a load test.  For any non-empty list of symbols and any
    number of clients an [int] can hold, whichever of them the exchange lets
    connect: the loop of [run] ends, keeps exactly the connected ones in order and
    reports the others; the [i]-th client is of the strategy [i mod 4], trades the
    symbol [i mod] the number of symbols, and no two have the same client id. *)
Theorem load_generator_population connects symbols n :
  symbols <> [] -> Z.of_nat n <= 2 ^ 31 ->
  exists clients,
    create_clients connects symbols n 0 [] [] =
      Some (clients, failed_line <$> filter (fun i => connects i = false) (seq 0 n)) /\
    Forall2 (is_client symbols) (filter (fun i => connects i = true) (seq 0 n)) clients /\
    NoDup (client_id_of <$> clients).
Proof.
  intros Hs Hn. destruct (create_clients_spec connects symbols n 0 [] [] Hs) as (clients & E & Hc).
  exists clients. split; [exact E|]. split; [done|].
  apply (clients_distinct symbols _ _ n Hc); [apply NoDup_filter, NoDup_seq| |done].
  apply Forall_forall. intros i [_ Hi]%list_elem_of_filter. apply elem_of_seq in Hi. lia.
Qed.

Lemma load_generator_population_witness :
  exists clients,
    create_clients (fun i => negb (Nat.eqb i 1)) [cstr "AAPL"; cstr "MSFT"] 3 0 [] [] =
      Some (clients, [cstr "Failed to connect client 1001"]) /\
    client_id_of <$> clients = [1000; 1002] /\ kind_of <$> clients = [0; 2]%nat.
Proof.
  destruct (load_generator_population (fun i => negb (Nat.eqb i 1)) [cstr "AAPL"; cstr "MSFT"] 3)
    as (clients & E & Hc & _); [done|done|].
  exists clients. split; [exact E|].
  change (filter _ _) with [0; 2]%nat in Hc.
  inversion Hc as [|? ? ? ? (K0 & I0 & _) Hc1]; subst. inversion Hc1 as [|? ? ? ? (K2 & I2 & _) Hc2]; subst.
  inversion Hc2; subst. rewrite !fmap_cons !fmap_nil K0 I0 K2 I2. split; reflexivity.
Defined.

End ToolClaims.

(** The text of the symbol option is read back as the list. *)
Lemma symbols_option_read symbols :
  Forall (fun s => 44 ∉ s) symbols -> symbols <> [] -> list.last symbols <> Some [] ->
  prepare (cstr "load_generator") [cstr "--symbols"; join symbols] =
    Done (Options (mkOptions (cstr "localhost") 8888 10 60 (join symbols), symbols)).
Proof.
  intros Hs Hne Hl. unfold prepare. cbn [parse_options]. rewrite bool_decide_false; [done|]. cbn [andb].
  change (apply_option (cstr "--symbols") ?v default_options)
    with (Some (Done (mkOptions (cstr "localhost") 8888 10 60 v))).
  cbv iota. cbn [omap_outcome o_symbols]. rewrite split_join //. by destruct symbols.
Qed.

Example split_cases :
  split_symbols (cstr "AAPL,MSFT") = [cstr "AAPL"; cstr "MSFT"] /\ split_symbols (cstr "AAPL,,X,") = [cstr "AAPL"; []; cstr "X"] /\
  split_symbols [] = [] /\ split_symbols (cstr ",") = [[]].
Proof. by vm_compute. Qed.

(** [inet_pton] accepts numeric addresses only, and the default host is a name:
    without [--host] the simulator connects to nothing. *)
Lemma default_host_refused timestamp send_result uniform address_ok connect_ok random start_time elapsed x chunks :
  (forall h, address_ok h = true -> Forall (fun c => isdigit c || (c =? 46) = true) h) -> u32 random ->
  exists line, ClientSimulator.main timestamp send_result uniform address_ok connect_ok (cstr "client_simulator") [] random
    start_time elapsed x chunks = Done (Some 1, [line; cstr "Failed to connect to localhost:8888"]).
Proof.
  intros Ha _. assert (address_ok (cstr "localhost") = false) as Hf.
  { destruct (address_ok (cstr "localhost")) eqn:E; [|done]. apply Ha, Forall_cons in E as [E _]. done. }
  eexists. unfold ClientSimulator.main. cbn [ClientSimulator.parse parse_options omap_outcome].
  change (ClientSimulator.make_client (ClientSimulator.defaults random))
    with (Some (AMarketMaker (MarketMaker_make random (cstr "AAPL") 10))). cbv iota.
  change (ClientSimulator.host (ClientSimulator.defaults random)) with (cstr "localhost"). rewrite Hf.
  unfold ClientBase.connect. cbn [negb]. done.
Qed.

Example simulator_options :
  ClientSimulator.parse (cstr "sim") [cstr "--port"; cstr "70000"; cstr "--client-id"; cstr "-1"] 5 =
    Done (Options (ClientSimulator.mk (cstr "market_maker") (cstr "AAPL") (cstr "MSFT") (cstr "localhost") 4464 4294967295 60)) /\
  ClientSimulator.parse (cstr "sim") [cstr "--port"] 5 = Done (Exit 1 [cstr "Missing value for --port"]) /\
  ClientSimulator.parse (cstr "sim") [cstr "--port"; cstr "http"] 5 = Throws "stoi" /\
  ClientSimulator.parse (cstr "sim") [cstr "--help"] 5 = Done (Exit 0 (ClientSimulator.print_usage (cstr "sim"))).
Proof. split_and!; by vm_compute. Qed.
