(* ===== verification/PerfHarness.v ===== *)
(** * The performance harness (tools/perf_harness.cpp)

    The latency samples and their percentiles, the five tests of the service
    levels and their report.  What the network, the shell and the clocks answer
    and how the threads of the clients interleave are arguments, one record of
    them per test; when the run of a client does not return, because its receiver
    waits for the exchange, neither does the harness ([Done None]).  The format of [std::cout] is part of the state: a precision
    set by one test stays for the following ones. *)

From Stdlib Require Import SpecFloat.
From S2P Require Import Prelude Types MatchingEngine Double MemorySafety Strings Formatting Protocol Metrics SecureConfig Clients Tools.

(** ** LatencyStats *)

Module LatencyStats.

Record t := mk { latencies : list double; min_latency : double; max_latency : double; sum_latency : double }.

(** [std::numeric_limits<double>::max()] *)
Definition double_max : double := S754_finite false 9007199254740991 971.
Definition init : t := mk [] double_max (double_of_Z 0) (double_of_Z 0).

Definition std_min (a b : double) : double := if double_lt b a then b else a.
Definition std_max (a b : double) : double := if double_lt a b then b else a.

Definition add_sample (latency_us : double) (s : t) : t :=
  mk (latencies s ++ [latency_us]) (std_min (min_latency s) latency_us) (std_max (max_latency s) latency_us)
    (double_add (sum_latency s) latency_us).

Definition calculate_percentiles (s : t) : t :=
  match latencies s with
  | [] => s
  | _ => mk (Histogram.sort (latencies s)) (min_latency s) (max_latency s) (sum_latency s)
  end.

(** The conversion of a value outside [size_t] is undefined. *)
Definition percentile_index (n : Z) (p : double) : option Z :=
  index ← trunc_u64 (double_div (double_mul (double_of_Z n) p) (double_of_Z 100));
  Some (Z.min index (n - 1)).
Definition get_percentile (p : double) (s : t) : option double :=
  match latencies s with
  | [] => Some (double_of_Z 0)
  | _ =>
      index ← percentile_index (Z.of_nat (length (latencies s))) p;
      latencies s !! Z.to_nat index
  end.

Definition get_average (s : t) : double :=
  match latencies s with
  | [] => double_of_Z 0
  | _ => double_div (sum_latency s) (double_of_Z (Z.of_nat (length (latencies s))))
  end.

End LatencyStats.

(** ** Texts *)

(** [None]: the format of a fresh stream; [Some p]: [std::fixed] with precision [p]. *)
Definition format := option nat.
Definition print_double (f : format) (d : double) : cstring :=
  match f with None => print_general d | Some p => print_fixed p d end.

Definition MICRO : cstring := [206; 188; 115].              (* a micro sign and an s *)
Definition TICK : cstring := [226; 156; 147].
Definition CROSS : cstring := [226; 156; 151].
Definition mark (b : bool) : cstring := if b then TICK else CROSS.
(** What follows a part that may not return. *)
Definition after {A B} (x : outcome (option A)) (k : A -> outcome (option B)) : outcome (option B) :=
  let! a := x in match a with Some a => k a | None => Done None end.

Definition verdict (name : string) (b : bool) : cstring := cstr name ++ cstr ": " ++ (if b then cstr "PASSED" else cstr "FAILED").

(** ** The harness *)

Module PerformanceHarness.
Section harness.
(** The clock, the sends and the random numbers of the clients of the harness. *)
Variable timestamp : nat -> nat -> Timestamp.
Variable send_result : nat -> nat -> Z -> Z.
Variable uniform : nat -> nat -> Z -> Z -> Z.

Record t := mk { host_ : cstring; port_ : Z; cout : format; test_results_ : list cstring; lines : list cstring }.
Implicit Types h : t.

Definition make (host : cstring) (port : Z) : t := mk host port None [] [].
Definition print (l : list cstring) h : t := mk (host_ h) (port_ h) (cout h) (test_results_ h) (lines h ++ l).
Definition set_format (f : format) h : t := mk (host_ h) (port_ h) f (test_results_ h) (lines h).
Definition push_result (r : cstring) h : t := mk (host_ h) (port_ h) (cout h) (test_results_ h ++ [r]) (lines h).

(** A [LiquidityTakerStrategy] on ["AAPL"], and its connection. *)
Definition taker (id : Z) : LiquidityTaker := LiquidityTaker_make id (cstr "AAPL").
Definition connect_taker (connects : bool) (id : Z) : option LiquidityTaker :=
  let '(ok, c) := ClientBase.connect true true connects (lt_base (taker id)) in
  if ok then Some (lt_set_base c (taker id)) else None.

(** [n] orders one after the other; [price i] is the price of the [i]-th. *)
Fixpoint send_orders (n i : nat) (price : nat -> Z) (l : LiquidityTaker) : outcome LiquidityTaker :=
  match n with
  | O => Done l
  | S n =>
      let! r := ClientBase.send_new_order (timestamp 0) (send_result 0) (cstr "AAPL") BUY 100 (price i) (lt_base l) in
      send_orders n (S i) price (lt_set_base r.2 l)
  end.

(** [health]: the exit status of [curl]. *)
Definition verify_exchange_health (health : Z) (connects : bool) h : bool * t :=
  let h := print [cstr "Verifying exchange health..."] h in
  if negb (health =? 0) then (false, print [CROSS ++ cstr " HTTP health check failed"] h)
  else match connect_taker connects 99999 with
  | None => (false, print [CROSS ++ cstr " TCP connectivity failed"] h)
  | Some _ => (true, print [TICK ++ cstr " Exchange is healthy"] h)
  end.

(** *** Single client latency *)

(** The measured times of the orders, pauses of 50 microseconds included. *)
Record latency_world := mkLatencyWorld {
  lw_connects : bool;
  lw_start : Z;
  lw_schedule : schedule;
  lw_chunks : list (list Z);
  lw_samples : list double
}.

Definition P (x : Z) : double := double_of_Z x.
Definition P999 : double := double_div (double_of_Z 999) (double_of_Z 10).

Definition test_single_client_latency (w : latency_world) h : outcome (option t) :=
  let h := print [[]; cstr "=== Single Client Latency Test ==="] h in
  match connect_taker (lw_connects w) 10001 with
  | None => Done (Some (push_result (cstr "Single Client Latency: FAILED (connection)") h))
  | Some client =>
      let! r := run_threads (H := LiquidityTaker_strategy (timestamp 0) (send_result 0) (uniform 0)) 5000000000 (lw_start w)
                  (lw_schedule w) (lw_chunks w) client in
      if negb (rx_live r.1) then Done None
      else
      let! _ := send_orders 1000 0 (fun i => 150000 + Z.of_nat i) r.2 in
      let stats := LatencyStats.calculate_percentiles
                     (foldl (fun s x => LatencyStats.add_sample x s) LatencyStats.init (take 1000 (lw_samples w))) in
      match LatencyStats.get_percentile (P 50) stats, LatencyStats.get_percentile (P 90) stats,
            LatencyStats.get_percentile (P 99) stats, LatencyStats.get_percentile P999 stats with
      | Some p50, Some p90, Some p99, Some p999 =>
          let average := LatencyStats.get_average stats in
          let text d := print_fixed 2 d ++ MICRO in
          let avg_slo := double_le average (P 10) in
          let p99_slo := double_le p99 (P 100) in
          let p999_slo := double_le p999 (P 500) in
          Done (Some (push_result (verdict "Single Client Latency" (avg_slo && p99_slo && p999_slo))
            (set_format (Some 2%nat)
              (print [cstr "Warming up..."; cstr "Measuring order latency..."; cstr "Results:";
                      cstr "  Samples: " ++ print_u64 (Z.of_nat (length (LatencyStats.latencies stats)));
                      cstr "  Average: " ++ text average;
                      cstr "  Min: " ++ text (LatencyStats.min_latency stats);
                      cstr "  Max: " ++ text (LatencyStats.max_latency stats);
                      cstr "  P50: " ++ text p50; cstr "  P90: " ++ text p90;
                      cstr "  P99: " ++ text p99; cstr "  P999: " ++ text p999;
                      cstr "  SLO Check: Avg " ++ mark avg_slo ++ cstr " P99 " ++ mark p99_slo
                      ++ cstr " P999 " ++ mark p999_slo] h))))
      | _, _, _, _ => Undefined
      end
  end.

(** *** Throughput *)

Record throughput_world := mkThroughputWorld {
  tw_connects : nat -> bool;
  tw_start : Z;
  tw_schedules : list (schedule * list (list Z));
  tw_seconds : Z
}.

(** The connected ones of [n] clients with ids from [first_id + i] on. *)
Fixpoint connect_takers (connects : nat -> bool) (first_id : Z) (n i : nat) : list AnyClient :=
  match n with
  | O => []
  | S n =>
      match connect_taker (connects i) (first_id + Z.of_nat i) with
      | Some l => ALiquidityTaker l :: connect_takers connects first_id n (S i)
      | None => connect_takers connects first_id n (S i)
      end
  end.

(** One turn of the loop over [client_counts]; [met] is [throughput_slo_met]. *)
Definition throughput_round (num_clients : nat) (w : throughput_world) (met : bool) h : outcome (option (bool * t)) :=
  let h := print [cstr "Testing with " ++ print_u64 (Z.of_nat num_clients) ++ cstr " clients..."] h in
  let clients := connect_takers (tw_connects w) 20000 num_clients 0 in
  if negb (length clients =? num_clients)%nat
  then Done (Some (met, print [cstr "  " ++ CROSS ++ cstr " Failed to connect all clients"] h))
  else
    let! ended := LoadGenerator.run_clients timestamp send_result uniform 10000000000 (tw_start w) 0 clients
                    (tw_schedules w) in
    let '(joined, clients) := ended in
    if negb joined then Done None
    else
    let total_orders := LoadGenerator.total_orders (LoadGenerator.total clients) in
    let throughput := LoadGenerator.ratio total_orders (tw_seconds w) in
    let h := set_format (Some 0%nat)
               (print [cstr "  Orders: " ++ print_u64 total_orders ++ cstr ", Throughput: " ++ print_fixed 0 throughput
                       ++ cstr " orders/sec"] h) in
    if double_le (double_of_Z 100000) throughput
    then Done (Some (true, print [cstr "  " ++ TICK ++ cstr " Throughput SLO met"] h))
    else Done (Some (met, h)).

Fixpoint throughput_rounds (counts : list nat) (ws : list throughput_world) (met : bool) h : outcome (option (bool * t)) :=
  match counts, ws with
  | n :: counts, w :: ws => after (throughput_round n w met h) (fun r => throughput_rounds counts ws r.1 r.2)
  | _, _ => Done (Some (met, h))
  end.

Definition client_counts : list nat := [1; 5; 10; 20; 50]%nat.
Definition test_throughput_scaling (ws : list throughput_world) h : outcome (option t) :=
  let h := print [[]; cstr "=== Throughput Scaling Test ==="] h in
  after (throughput_rounds client_counts ws false h)
    (fun r => Done (Some (push_result (verdict "Throughput Scaling" r.1) r.2))).

(** *** Sustained load *)

Record sustained_world := mkSustainedWorld {
  sw_connects : nat -> bool;
  sw_start : Z;
  sw_schedules : list (schedule * list (list Z));
  sw_minutes : list (list AnyClient);      (* the clients after each minute *)
  sw_seconds : Z
}.

(** The creation loop: every connected client, whatever its class, is cast down to
    [LiquidityTakerStrategy], which is undefined for an object of another class. *)
Definition sustained_clients (connects : nat -> bool) : outcome (list AnyClient) :=
  foldr (fun i rest =>
    let symbol := if (i mod 3 =? 0)%nat then cstr "AAPL" else if (i mod 3 =? 1)%nat then cstr "MSFT" else cstr "GOOGL" in
    let id := 30000 + Z.of_nat i in
    let client :=
      match (i mod 4)%nat with
      | 0%nat => AMarketMaker (MarketMaker_make id symbol 10)
      | 1%nat => ALiquidityTaker (LiquidityTaker_make id symbol)
      | 2%nat => AMomentum (Momentum_make id symbol)
      | _ => AArbitrage (Arbitrage_make id (cstr "AAPL") (cstr "MSFT"))
      end in
    let '(ok, c) := ClientBase.connect true true (connects i) (any_base client) in
    if ok then
      match client with
      | ALiquidityTaker _ => let! clients := rest in Done (any_set_base c client :: clients)
      | _ => Undefined
      end
    else rest) (Done []) (seq 0 20).

Definition reject_rate (s : LoadGenerator.totals) : double :=
  if 0 <? LoadGenerator.total_orders s then LoadGenerator.percent (LoadGenerator.total_rejected s) (LoadGenerator.total_orders s)
  else double_of_Z 0.

Definition test_sustained_load (w : sustained_world) h : outcome (option t) :=
  let h := print [[]; cstr "=== Sustained Load Test ==="; cstr "Running 20 clients for 5 minutes..."] h in
  let! clients := sustained_clients (sw_connects w) in
  let progress := imap (fun i clients =>
    let s := LoadGenerator.total clients in
    cstr "  Minute " ++ print_u64 (Z.of_nat i + 1) ++ cstr ": " ++ print_u64 (LoadGenerator.total_orders s)
    ++ cstr " orders, " ++ print_double (cout h) (reject_rate s) ++ cstr "% rejected") (take 5 (sw_minutes w)) in
  let! ended := LoadGenerator.run_clients timestamp send_result uniform 300000000000 (sw_start w) 0 clients (sw_schedules w) in
  let '(joined, clients) := ended in
  if negb joined then Done None
  else
  let s := LoadGenerator.total clients in
  let sustained_slo := double_lt (reject_rate s) (double_of_Z 5) in
  Done (Some (push_result (verdict "Sustained Load" sustained_slo)
    (print (progress ++
      [cstr "Results:";
       cstr "  Duration: " ++ print_i64 (sw_seconds w) ++ cstr "s";
       cstr "  Total orders: " ++ print_u64 (LoadGenerator.total_orders s);
       cstr "  Rejected: " ++ print_u64 (LoadGenerator.total_rejected s) ++ cstr " (" ++ print_double (cout h) (reject_rate s) ++ cstr "%)";
       cstr "  Trades: " ++ print_u64 (LoadGenerator.total_trades s);
       cstr "  SLO Check: " ++ mark sustained_slo ++ cstr " Reject rate"]) h))).

(** *** Bursts *)

(** [bw_micros]: the duration of the burst.  The client's receiver runs only inside
    [run], so no acknowledgement is counted here. *)
Record burst_world := mkBurstWorld { bw_connects : bool; bw_micros : Z }.

Definition test_burst_handling (w : burst_world) h : outcome t :=
  let h := print [[]; cstr "=== Burst Handling Test ==="] h in
  match connect_taker (bw_connects w) 40001 with
  | None => Done (push_result (cstr "Burst Handling: FAILED (connection)") h)
  | Some client =>
      let! client := send_orders (Z.to_nat 10000) 0 (fun i => 150000 + Z.of_nat i) client in
      let c := ClientBase.disconnect (lt_base client) in
      let burst_rate := double_div (double_mul (double_of_Z 10000) (double_of_Z 1000000)) (double_of_Z (bw_micros w)) in
      let burst_slo := double_le (double_of_Z 500000) burst_rate in
      Done (push_result (verdict "Burst Handling" burst_slo)
        (set_format (Some 0%nat)
          (print [cstr "Sending burst of orders..."; cstr "Results:";
                  cstr "  Burst duration: " ++ print_double (cout h) (double_div (double_of_Z (bw_micros w)) (double_of_Z 1000)) ++ cstr "ms";
                  cstr "  Burst rate: " ++ print_fixed 0 burst_rate ++ cstr " orders/sec";
                  cstr "  Orders sent: " ++ print_u64 (ClientBase.orders_sent_ c);
                  cstr "  Orders acked: " ++ print_u64 (ClientBase.orders_acked_ c);
                  cstr "  SLO Check: " ++ mark burst_slo ++ cstr " Burst rate"] h)))
  end.

(** *** Market data *)

(** [mw_received]: what the 50 calls of [recv] return. *)
Record market_world := mkMarketWorld { mw_socket : bool; mw_bind : bool; mw_connects : bool; mw_received : list Z }.

Definition test_market_data_latency (w : market_world) h : outcome t :=
  let h := print [[]; cstr "=== Market Data Latency Test ==="] h in
  if negb (mw_socket w) then Done (push_result (cstr "Market Data Latency: FAILED (socket)") h)
  else if negb (mw_bind w) then Done (push_result (cstr "Market Data Latency: FAILED (bind)") h)
  else
    let h := print [cstr "Listening for market data..."] h in
    match connect_taker (mw_connects w) 50001 with
    | None => Done (push_result (cstr "Market Data Latency: FAILED (connection)") h)
    | Some client =>
        let! _ := send_orders 100 0 (fun _ => 150000) client in
        let messages_received := Z.of_nat (length (filter (fun r => 0 < r) (take 50 (mw_received w)))) in
        let md_slo := 10 <? messages_received in
        Done (push_result (verdict "Market Data Latency" md_slo)
          (print [cstr "Results:"; cstr "  Messages received: " ++ print_u64 messages_received;
                  cstr "  SLO Check: " ++ mark md_slo ++ cstr " Market data flow"] h))
    end.

(** *** The report *)

Definition passed (results : list cstring) : Z :=
  Z.of_nat (length (filter (fun r => contains r (cstr "PASSED") = true) results)).
Definition overall (results : list cstring) : cstring :=
  cstr "Overall: " ++ print_u64 (passed results) ++ cstr "/" ++ print_u64 (Z.of_nat (length results)) ++ cstr " tests passed".

Definition PARTY : cstring := [240; 159; 142; 137].
Definition WARNING : cstring := [226; 154; 160; 239; 184; 143].
Definition all_passed_line : cstring := PARTY ++ cstr " All performance tests PASSED! Exchange meets SLOs.".
Definition some_failed_line : cstring := WARNING ++ cstr "  Some performance tests FAILED. Review results above.".

(** The terminal, and the file performance_report.txt; [now] counts the ticks of
    the system clock. *)
Definition generate_performance_report (now : Z) h : list cstring * t :=
  let results := test_results_ h in
  ([cstr "RTES Performance Test Report"; cstr "============================"; [];
    cstr "Target: " ++ host_ h ++ cstr ":" ++ print_u64 (port_ h);
    cstr "Timestamp: " ++ print_i64 now; []]
   ++ results ++ [[]; overall results],
   print ([[]; cstr "=== Performance Test Summary ==="] ++ results
          ++ [[]; overall results;
              if passed results =? Z.of_nat (length results) then all_passed_line else some_failed_line;
              []; cstr "Detailed report saved to: performance_report.txt"]) h).

Record world := mkWorld {
  w_health : Z;
  w_connects : bool;
  w_latency : latency_world;
  w_throughput : list throughput_world;
  w_sustained : sustained_world;
  w_burst : burst_world;
  w_market : market_world;
  w_now : Z
}.

Definition AT_LEAST : cstring := [226; 137; 165].
Definition AT_MOST : cstring := [226; 137; 164].
Definition banner h : list cstring :=
  [cstr "=== RTES Performance Harness ==="; cstr "Target: " ++ host_ h ++ cstr ":" ++ print_u64 (port_ h);
   cstr "SLOs: " ++ AT_LEAST ++ cstr "100K orders/sec, avg " ++ AT_MOST ++ cstr "10" ++ MICRO ++ cstr ", p99 " ++ AT_MOST
   ++ cstr "100" ++ MICRO ++ cstr ", p999 " ++ AT_MOST ++ cstr "500" ++ MICRO; []].

(** [None] for the report when the health check fails. *)
Definition run_comprehensive_test (w : world) h : outcome (option (option (list cstring) * t)) :=
  let '(healthy, h) := verify_exchange_health (w_health w) (w_connects w) (print (banner h) h) in
  if negb healthy then Done (Some (None, print [cstr "Exchange health check failed"] h))
  else
    after (test_single_client_latency (w_latency w) h) (fun h =>
    after (test_throughput_scaling (w_throughput w) h) (fun h =>
    after (test_sustained_load (w_sustained w) h) (fun h =>
    let! h := test_burst_handling (w_burst w) h in
    let! h := test_market_data_latency (w_market w) h in
    let '(report, h) := generate_performance_report (w_now w) h in
    Done (Some (Some report, h))))).

Definition help (program : cstring) : list cstring :=
  [cstr "Usage: " ++ program ++ cstr " [options]"; cstr "Options:";
   cstr "  --host <host>    Exchange host (default: localhost)";
   cstr "  --port <port>    Exchange port (default: 8888)"; cstr "  --help           Show this help"].
Definition apply_option (arg value : cstring) (o : cstring * Z) : option (outcome (cstring * Z)) :=
  if bool_decide (arg = cstr "--host") then Some (Done (value, o.2))
  else if bool_decide (arg = cstr "--port") then
    Some (let! v := or_throw "stoi" (SecureConfigManager.stoi value) in Done (o.1, wrap 16 v))
  else None.

(** The exit status is 0 however the tests end. *)
Definition main (program : cstring) (args : list cstring) (w : world) : outcome (option (Z * list cstring * option (list cstring))) :=
  let! p := parse_options apply_option (help program) [] args (cstr "localhost", 8888) in
  match p with
  | Exit code l => Done (Some (code, l, None))
  | Options o => after (run_comprehensive_test w (make o.1 o.2)) (fun r => Done (Some (0, lines r.2, r.1)))
  end.

End harness.
End PerformanceHarness.

(** ** The samples *)

Section samples.
Import LatencyStats.

Definition collect (samples : list double) : t := foldl (fun s x => add_sample x s) init samples.
Definition number (d : double) : Prop := is_number d = true.
Definition at_most (v x : double) : Prop := double_le x v = true.
Definition at_least (v x : double) : Prop := double_le v x = true.
#[global] Instance at_most_dec v x : Decision (at_most v x) := decide (double_le x v = true).
#[global] Instance at_least_dec v x : Decision (at_least v x) := decide (double_le v x = true).

Lemma double_le_refl x : number x -> double_le x x = true.
Proof. intros Hx. rewrite double_le_rank //. intros H. by apply rank_lt_irrefl in H. Qed.

Lemma std_min_le a b : number a -> number b -> double_le (std_min a b) a = true /\ double_le (std_min a b) b = true.
Proof.
  intros Ha Hb. unfold std_min. destruct (double_lt b a) eqn:E.
  - split; [by apply double_lt_le|by apply double_le_refl].
  - split; [by apply double_le_refl|by apply double_not_lt].
Qed.

Lemma std_max_ge a b : number a -> number b -> double_le a (std_max a b) = true /\ double_le b (std_max a b) = true.
Proof.
  intros Ha Hb. unfold std_max. destruct (double_lt a b) eqn:E.
  - split; [by apply double_lt_le|by apply double_le_refl].
  - split; [by apply double_le_refl|by apply double_not_lt].
Qed.

Lemma reports_collected samples :
  Forall number samples ->
  latencies (collect samples) = samples /\ number (min_latency (collect samples)) /\ number (max_latency (collect samples)) /\
  Forall (at_least (min_latency (collect samples))) samples /\ Forall (at_most (max_latency (collect samples))) samples.
Proof.
  induction samples as [|x samples IH] using rev_ind; intros Hs; [by split_and!|].
  apply Forall_app in Hs as [Hs Hx]. apply Forall_cons in Hx as [Hx _]. destruct (IH Hs) as (Hl & Hm & HM & Hge & Hle).
  unfold collect in *. rewrite foldl_app. cbn [foldl add_sample latencies min_latency max_latency].
  set (s := foldl _ init samples) in *. rewrite Hl. destruct (std_min_le (min_latency s) x Hm Hx) as [H1 H2].
  destruct (std_max_ge (max_latency s) x HM Hx) as [H3 H4]. split_and!; [done| | | |].
  - by destruct (double_le_number _ _ H2).
  - by destruct (double_le_number _ _ H4).
  - apply Forall_app. split; [|constructor; [exact H2|constructor]]. eapply Forall_impl; [exact Hge|].
    intros y Hy. exact (double_le_trans _ _ _ H1 Hy).
  - apply Forall_app. split; [|constructor; [exact H4|constructor]]. eapply Forall_impl; [exact Hle|].
    intros y Hy. exact (double_le_trans _ _ _ Hy H3).
Qed.

(** The value at a place of an ordered list. *)
Lemma ordered_lookup l i v :
  ordered l -> l !! i = Some v -> Forall (at_most v) (take (S i) l) /\ Forall (at_least v) (drop i l).
Proof.
  revert i. induction l as [|x l IH]; intros i Ho Hi; [done|]. destruct Ho as (Hx & Hf & Ho).
  destruct i as [|i].
  - injection Hi as ->. cbn [take drop]. split; [constructor; [by apply double_le_refl|constructor]|].
    constructor; [by apply double_le_refl|done].
  - destruct (IH i Ho Hi) as [H1 H2]. split; [|exact H2]. cbn [take]. constructor; [|exact H1].
    apply (Forall_lookup_1 _ _ i v) in Hf; done.
Qed.

Lemma filter_length_forall (Q : double -> Prop) `{forall x, Decision (Q x)} (a b : list double) :
  Forall Q a -> (length a <= length (filter Q (a ++ b)))%nat.
Proof.
  intros Ha. rewrite filter_app length_app. enough (filter Q a = a) as -> by lia.
  induction Ha as [|x a Hx Ha IH]; [done|]. by rewrite filter_cons_True // IH.
Qed.

End samples.

Module HarnessClaims.
Import LatencyStats.

(** The percentiles of the latency test are order statistics.  For any samples
    (none of them NaN), the [p]-th percentile after [calculate_percentiles] is one
    of the samples, at least [index + 1] of them are at most it and at least
    [n - index] of them at least it, where [index] is [size * p / 100] truncated
    and below [n]; it lies between the recorded minimum and maximum. *)
Theorem percentile_is_order_statistic samples p index :
  samples <> [] -> Forall number samples ->
  percentile_index (Z.of_nat (length samples)) p = Some index -> 0 <= index ->
  exists v, get_percentile p (calculate_percentiles (collect samples)) = Some v /\ v ∈ samples /\
    index < Z.of_nat (length samples) /\
    index + 1 <= Z.of_nat (length (filter (at_most v) samples)) /\
    Z.of_nat (length samples) - index <= Z.of_nat (length (filter (at_least v) samples)) /\
    double_le (min_latency (collect samples)) v = true /\ double_le v (max_latency (collect samples)) = true.
Proof.
  intros Hne Hs Hi H0. destruct (reports_collected samples Hs) as (Hl & _ & _ & Hmin & Hmax).
  assert (index < Z.of_nat (length samples)) as Hlt.
  { unfold percentile_index in Hi. destruct (trunc_u64 _); [|done]. injection Hi as <-. lia. }
  assert (calculate_percentiles (collect samples) = mk (Histogram.sort samples) (min_latency (collect samples))
    (max_latency (collect samples)) (sum_latency (collect samples))) as ->.
  { unfold calculate_percentiles. rewrite Hl. by destruct samples. }
  pose proof (sort_perm samples) as Hp. pose proof (sort_ordered samples Hs) as Ho. pose proof (Permutation_length Hp) as Hlen.
  set (l := Histogram.sort samples) in *. clearbody l.
  destruct (lookup_lt_is_Some_2 l (Z.to_nat index)) as [v Hv]; [lia|].
  assert (v ∈ samples) as Hin by (rewrite -Hp; by eapply list_elem_of_lookup_2).
  destruct (ordered_lookup l _ v Ho Hv) as [H1 H2].
  exists v. split.
  { unfold get_percentile. cbn [latencies]. destruct l as [|x l]; [done|]. by rewrite Hlen Hi. }
  split; [done|]. split; [done|]. rewrite Forall_forall in Hmin. rewrite Forall_forall in Hmax.
  split_and!; [| |by apply Hmin|by apply Hmax]; rewrite -Hp.
  - pose proof (filter_length_forall (at_most v) _ (drop (S (Z.to_nat index)) l) H1) as Hf.
    rewrite take_drop length_take in Hf. lia.
  - rewrite -(take_drop (Z.to_nat index) l) Permutation_app_comm.
    pose proof (filter_length_forall (at_least v) _ (take (Z.to_nat index) l) H2) as Hf.
    rewrite length_drop in Hf. rewrite length_app length_take length_drop. lia.
Qed.

Lemma percentile_is_order_statistic_witness :
  exists v, get_percentile (PerformanceHarness.P 50)
      (calculate_percentiles (collect [double_of_Z 7; double_of_Z 3; double_of_Z 9])) = Some v /\ v = double_of_Z 7.
Proof.
  destruct (percentile_is_order_statistic [double_of_Z 7; double_of_Z 3; double_of_Z 9] (PerformanceHarness.P 50) 1)
    as (v & Hv & _); [done|by repeat constructor|by vm_compute|done|].
  exists v. split; [exact Hv|]. vm_compute in Hv |- *. congruence.
Defined.

End HarnessClaims.

(** ** What the harness can report *)

Section reports.
Variable timestamp : nat -> nat -> Timestamp.
Variable send_result : nat -> nat -> Z -> Z.
Variable uniform : nat -> nat -> Z -> Z -> Z.
Import PerformanceHarness.

(** A client of another class among the connected ones is cast to a liquidity taker. *)
Lemma sustained_load_undefined w h i :
  (i < 20)%nat -> (i mod 4)%nat <> 1%nat -> sw_connects w i = true ->
  test_sustained_load timestamp send_result uniform w h = Undefined.
Proof.
  intros Hi H4 Hc. unfold test_sustained_load.
  enough (sustained_clients (sw_connects w) = Undefined) as -> by done.
  unfold sustained_clients. assert (i ∈ seq 0 20) as Hin by (apply elem_of_seq; lia). clear Hi.
  induction (seq 0 20) as [|k l IH]; [by apply elem_of_nil in Hin|]. cbn [foldr].
  unfold ClientBase.connect. cbn [negb]. apply elem_of_cons in Hin as [->|Hin].
  - rewrite Hc. cbn [negb]. pose proof (Nat.mod_upper_bound k 4 ltac:(lia)).
    destruct (k mod 4)%nat as [|[|[|[|?]]]]; (done || lia).
  - destruct (sw_connects w k); cbn [negb]; [|by apply IH].
    rewrite (IH Hin). by destruct (k mod 4)%nat as [|[|[|]]].
Qed.

(** When the exchange lets none of the twenty connect, the test passes. *)
Lemma sustained_load_without_clients w h :
  (forall i, sw_connects w i = false) ->
  exists h', test_sustained_load timestamp send_result uniform w h = Done (Some h') /\
    test_results_ h' = test_results_ h ++ [cstr "Sustained Load: PASSED"].
Proof.
  intros Hc. unfold test_sustained_load.
  assert (sustained_clients (sw_connects w) = Done []) as ->.
  { unfold sustained_clients. induction (seq 0 20) as [|k l IH]; [done|]. cbn [foldr]. unfold ClientBase.connect.
    rewrite Hc. cbn [negb]. exact IH. }
  cbn [omap_outcome]. replace (LoadGenerator.run_clients _ _ _ _ _ _ [] _) with (Done (A := bool * list AnyClient) (true, [])).
  2:{ by destruct (sw_schedules w). }
  cbn [omap_outcome]. eexists. split; [reflexivity|]. cbn [test_results_ push_result print]. f_equal.
Qed.

Definition one_more (h h' : t) : Prop := exists r, test_results_ h' = test_results_ h ++ [r].

Lemma latency_one_result w h h' : test_single_client_latency timestamp send_result uniform w h = Done (Some h') -> one_more h h'.
Proof.
  unfold test_single_client_latency. destruct (connect_taker _ _) as [client|]; [|intros [= <-]; by eexists].
  destruct (run_threads _ _ _ _ _) as [r| |]; cbn [omap_outcome]; try done. destruct (negb _); [done|].
  destruct (send_orders _ _ _ _ _ _); cbn [omap_outcome]; try done.
  repeat (destruct (LatencyStats.get_percentile _ _); [|done]). intros E. injection E as <-. by eexists.
Qed.

Lemma throughput_results counts : forall ws met h x,
  throughput_rounds timestamp send_result uniform counts ws met h = Done (Some x) -> test_results_ x.2 = test_results_ h.
Proof.
  induction counts as [|n counts IH]; intros ws met h x; [by intros [= <-]|]. destruct ws as [|w ws]; [by intros [= <-]|].
  cbn [throughput_rounds]. unfold throughput_round, after. destruct (negb _); cbn [omap_outcome].
  { intros E. apply IH in E. exact E. }
  destruct (LoadGenerator.run_clients _ _ _ _ _ _ _ _) as [[joined clients]| |]; cbn [omap_outcome]; try done.
  destruct (negb joined); cbn [omap_outcome]; [done|].
  destruct (double_le _ _); cbn [omap_outcome]; intros E; apply IH in E; exact E.
Qed.

Lemma throughput_one_result ws h h' : test_throughput_scaling timestamp send_result uniform ws h = Done (Some h') -> one_more h h'.
Proof.
  unfold test_throughput_scaling, after. destruct (throughput_rounds _ _ _ _ _ _ _) as [[x|]| |] eqn:E; cbn [omap_outcome]; try done.
  intros H. injection H as <-. apply throughput_results in E. eexists. cbn [test_results_ push_result]. by rewrite E.
Qed.

Lemma sustained_one_result w h h' : test_sustained_load timestamp send_result uniform w h = Done (Some h') -> one_more h h'.
Proof.
  unfold test_sustained_load. destruct (sustained_clients _); cbn [omap_outcome]; try done.
  destruct (LoadGenerator.run_clients _ _ _ _ _ _ _ _) as [[joined clients]| |]; cbn [omap_outcome]; try done.
  destruct (negb joined); [done|].
  intros E. injection E as <-. by eexists.
Qed.

Lemma burst_one_result w h h' : test_burst_handling timestamp send_result w h = Done h' -> one_more h h'.
Proof.
  unfold test_burst_handling. destruct (connect_taker _ _) as [client|]; [|intros [= <-]; by eexists].
  destruct (send_orders _ _ _ _ _ _); cbn [omap_outcome]; try done. intros E. injection E as <-. by eexists.
Qed.

Lemma market_one_result w h h' : test_market_data_latency timestamp send_result w h = Done h' -> one_more h h'.
Proof.
  unfold test_market_data_latency. destruct (mw_socket w); cbn [negb]; [|intros [= <-]; by eexists].
  destruct (mw_bind w); cbn [negb]; [|intros [= <-]; by eexists].
  destruct (connect_taker _ _) as [client|]; [|intros [= <-]; by eexists].
  destruct (send_orders _ _ _ _ _ _); cbn [omap_outcome]; try done. intros E. injection E as <-. by eexists.
Qed.

Lemma passed_all l :
  (passed l =? Z.of_nat (length l)) = true <-> Forall (fun r => contains r (cstr "PASSED") = true) l.
Proof.
  unfold passed. rewrite Z.eqb_eq. generalize (cstr "PASSED") as p. intros p. split.
  - intros Hl. apply Forall_forall. intros r Hr. destruct (contains r p) eqn:E; [done|].
    exfalso. apply list_elem_of_split in Hr as (a & b & ->). rewrite filter_app filter_cons_False in Hl; [by rewrite E|].
    rewrite !length_app in Hl. cbn [length] in Hl.
    pose proof (length_filter (fun r => contains r p = true) a).
    pose proof (length_filter (fun r => contains r p = true) b). lia.
  - intros Hl. f_equal. f_equal. induction Hl as [|r l Hr _ IH]; [done|]. by rewrite filter_cons_True // IH.
Qed.

Lemma health_results health connects h : test_results_ (verify_exchange_health health connects h).2 = test_results_ h.
Proof. unfold verify_exchange_health. destruct (negb _); [done|]. by destruct (connect_taker _ _). Qed.

Lemma report_results now h : test_results_ (generate_performance_report now h).2 = test_results_ h.
Proof. done. Qed.

Lemma let_done_inv {A B} (x : outcome A) (f : A -> outcome B) y : omap_outcome f x = Done y -> exists a, x = Done a /\ f a = Done y.
Proof. destruct x; cbn [omap_outcome]; try done. intros H. by eexists. Qed.

Lemma after_inv {A B} (x : outcome (option A)) (f : A -> outcome (option B)) y :
  after x f = Done (Some y) -> exists a, x = Done (Some a) /\ f a = Done (Some y).
Proof. unfold after. destruct x as [[a|]| |]; cbn [omap_outcome]; try done. intros H. by eexists. Qed.

(** Every test leaves one result, and the summary says that all passed exactly
    when each result does. *)
Lemma harness_report w h report h' :
  test_results_ h = [] -> run_comprehensive_test timestamp send_result uniform w h = Done (Some (Some report, h')) ->
  length (test_results_ h') = 5%nat /\
  ((passed (test_results_ h') =? Z.of_nat (length (test_results_ h'))) = true <->
   Forall (fun r => contains r (cstr "PASSED") = true) (test_results_ h')).
Proof.
  intros H0 H. split; [|apply passed_all]. unfold run_comprehensive_test in H.
  pose proof (health_results (w_health w) (w_connects w) (print (banner h) h)) as Hv.
  destruct (verify_exchange_health _ _ _) as [b h1]. cbn [snd] in Hv. destruct b; cbn [negb] in H; [|done].
  apply after_inv in H as (h2 & E2 & H). apply after_inv in H as (h3 & E3 & H). apply after_inv in H as (h4 & E4 & H). apply let_done_inv in H as (h5 & E5 & H).
  apply let_done_inv in H as (h6 & E6 & H).
  pose proof (report_results (w_now w) h6) as Hr. destruct (generate_performance_report _ _) as [rep h7]. cbn [snd] in Hr.
  assert (h7 = h') as <- by congruence. clear H.
  apply latency_one_result in E2 as [r2 E2]. apply throughput_one_result in E3 as [r3 E3].
  apply sustained_one_result in E4 as [r4 E4]. apply burst_one_result in E5 as [r5 E5].
  apply market_one_result in E6 as [r6 E6]. rewrite Hr E6 E5 E4 E3 E2 Hv. cbn [test_results_ print]. by rewrite H0.
Qed.
End reports.

(** Every sample of the latency test includes its pause of 50 microseconds: with
    nothing but the pause the test fails its limit of 10 on the average. *)
Example latency_slo_missed :
  let s := LatencyStats.calculate_percentiles (collect (replicate 1000 (double_of_Z 50))) in
  LatencyStats.get_average s = double_of_Z 50 /\ double_le (LatencyStats.get_average s) (PerformanceHarness.P 10) = false.
Proof. by vm_compute. Qed.
