(* ===== verification/Exchange.v ===== *)
(** * The exchange (include/rtes/exchange.hpp, src/exchange.cpp)

    [Exchange.t] owns the components.  The engines are reached both through the
    exchange's own map and through the pointers [wire_components] gives to the
    risk manager; they are stored once, in the risk manager's map, and
    [matching_engines_] is that map.  The order pool and the market data queue
    are shared by all engines: [attach] gives an engine the current contents of
    both before it runs, [detach] takes them back.  The iteration order of the
    hash map of engines is the argument [iteration].

    Logging and the creation of the threads are not modelled: the rounds of
    the worker threads are steps of their own ([Exchange.risk_round],
    [Exchange.engine_round]). *)

From S2P Require Import Prelude Types MemoryPool OrderPool OrderBook SpscQueue MpmcQueue MatchingEngine.
From S2P Require Import Double RiskManager RiskTheorems MemorySafety InputValidation.

Module Exchange.

Abbreviation engine := (MatchingEngine.t (MemoryPool.t Order)).

Inductive ExchangeState := CREATED | STARTING | RUNNING | STOPPING | STOPPED.

#[export] Instance ExchangeState_eq_dec : EqDecision ExchangeState.
Proof. solve_decision. Defined.

Record t := mk {
  config_ : Config;
  state_ : ExchangeState;
  order_pool_ : MemoryPool.t Order;
  risk_manager_ : RiskManager.t engine;
  market_data_queue_ : MPMCQueue.t MarketDataEvent;
  ticks : nat
}.

Definition matching_engines_ (ex : t) : gmap cstring engine := RiskManager.matching_engines_ (risk_manager_ ex).

Definition set_state (s : ExchangeState) (ex : t) : t :=
  mk (config_ ex) s (order_pool_ ex) (risk_manager_ ex) (market_data_queue_ ex) (ticks ex).
Definition set_risk (r : RiskManager.t engine) (ex : t) : t :=
  mk (config_ ex) (state_ ex) (order_pool_ ex) r (market_data_queue_ ex) (ticks ex).
Definition set_engines (m : gmap cstring engine) (ex : t) : t :=
  set_risk (RiskManager.set_engines m (risk_manager_ ex)) ex.

Definition is_running (ex : t) : bool := bool_decide (state_ ex = RUNNING).

(** ** Running a component on the shared state *)

Definition attach (ex : t) (m : engine) : engine :=
  let e := MatchingEngine.book_ m in
  MatchingEngine.with_env
    (OrderBook.mkenv (OrderBook.book e) (order_pool_ ex)
       (MatchingEngine.set_md (md_queue (market_data_queue_ ex)) (OrderBook.ctx e)) (ticks ex)) m.

(** [None] when an operation on the market data queue was undefined. *)
Definition detach (sym : cstring) (m : engine) (ex : t) : option t :=
  let e := MatchingEngine.book_ m in
  match MatchingEngine.market_data_queue_ (OrderBook.ctx e) with
  | md_queue q =>
      Some (mk (config_ ex) (state_ ex) (OrderBook.pool e)
              (RiskManager.set_engines (<[sym := m]> (matching_engines_ ex)) (risk_manager_ ex)) q
              (OrderBook.ticks e))
  | _ => None
  end.

Definition on_engine (f : engine -> option engine) (sym : cstring) (ex : t) : option t :=
  match matching_engines_ ex !! sym with
  | None => Some ex
  | Some m => m ← f (attach ex m); detach sym m ex
  end.

Definition on_risk (f : RiskManager.st (MemoryPool.t Order) engine -> option (RiskManager.st (MemoryPool.t Order) engine))
    (ex : t) : option t :=
  s ← f (RiskManager.mkst (risk_manager_ ex) (order_pool_ ex) (ticks ex));
  Some (mk (config_ ex) (state_ ex) (RiskManager.pool s) (RiskManager.rm s) (market_data_queue_ ex)
          (RiskManager.ticks s)).

Section exchange.
Variable steady_clock : nat -> Timestamp.
Variable iteration : gset cstring -> list cstring.
Implicit Types ex : t.

(** The symbols of the engines, as a loop over the map visits them. *)
Definition engine_order ex : list cstring := iteration (dom (matching_engines_ ex)).

(** ** Construction *)

Definition initialize_order_pool (config : Config) : outcome (MemoryPool.t Order) :=
  match MemoryPool.make Order_default (order_pool_size (performance config)) with
  | inr p => Done p
  | inl what => Throws what
  end.

Definition initialize_market_data_queue (config : Config) : outcome (MPMCQueue.t MarketDataEvent) :=
  match MPMCQueue.make (mkEvent (replicate 16 0) (TRADE Trade_default)) (market_data_queue_size (performance config)) with
  | Some q => Done q
  | None => Undefined
  end.

Fixpoint initialize_matching_engines (syms : list SymbolConfig) (p : MemoryPool.t Order)
    (engines : gmap cstring engine) : outcome (gmap cstring engine) :=
  match syms with
  | [] => Done engines
  | sym_config :: rest =>
      match MatchingEngine.make (sc_symbol sym_config) p 0 with
      | Some m => initialize_matching_engines rest p (<[RiskManager.symbol_key (sc_symbol sym_config) := m]> engines)
      | None => Undefined
      end
  end.

Definition initialize_risk_manager (config : Config) : outcome (RiskManager.t engine) :=
  match RiskManager.make (risk config) (symbols config) with
  | Some r => Done r
  | None => Undefined
  end.

Definition wire_components (engines : gmap cstring engine) (q : MPMCQueue.t MarketDataEvent)
    (r : RiskManager.t engine) : RiskManager.t engine :=
  let engines := MatchingEngine.set_market_data_queue (md_queue q) <$> engines in
  foldl (fun r sym => match engines !! sym with
                      | Some m => RiskManager.add_matching_engine sym m r
                      | None => r
                      end) r (iteration (dom engines)).

Definition make (config : option Config) : outcome t :=
  match config with
  | None => Throws "Exchange: null config"
  | Some config =>
      let! p := initialize_order_pool config in
      let! q := initialize_market_data_queue config in
      let! engines := initialize_matching_engines (symbols config) p ∅ in
      let! r := initialize_risk_manager config in
      Done (mk config CREATED p (wire_components engines q r) q 0)
  end.

(** ** Lifecycle *)

Definition start_engine (sym : cstring) ex : t :=
  match matching_engines_ ex !! sym with
  | Some m => set_engines (<[sym := snd (MatchingEngine.start m)]> (matching_engines_ ex)) ex
  | None => ex
  end.

Definition start ex : outcome t :=
  if negb (bool_decide (state_ ex = CREATED)) then Throws "Exchange::start() called in invalid state"
  else
    let ex := set_state STARTING ex in
    let ex := foldl (fun ex sym => start_engine sym ex) ex (engine_order ex) in
    let ex := set_risk (snd (RiskManager.start (risk_manager_ ex))) ex in
    Done (set_state RUNNING ex).

Fixpoint stop_engines (syms : list cstring) ex : option t :=
  match syms with
  | [] => Some ex
  | sym :: rest => ex ← on_engine (MatchingEngine.stop steady_clock) sym ex; stop_engines rest ex
  end.

Definition stop ex : option t :=
  if negb (bool_decide (state_ ex = RUNNING)) && negb (bool_decide (state_ ex = STARTING)) then Some ex
  else
    let ex := set_state STOPPING ex in
    ex ← on_risk (RiskManager.stop steady_clock) ex;
    ex ← stop_engines (engine_order ex) ex;
    Some (set_state STOPPED ex).

(** The destructor. *)
Definition destroy ex : option t :=
  if bool_decide (state_ ex = RUNNING) || bool_decide (state_ ex = STARTING) then stop ex else Some ex.

(** ** The worker threads *)

Definition risk_round ex : option t :=
  if RiskManager.running_ (risk_manager_ ex) then on_risk (RiskManager.run_round steady_clock) ex else Some ex.

Definition engine_round (sym : cstring) ex : option t :=
  match matching_engines_ ex !! sym with
  | Some m => if MatchingEngine.running_ m then on_engine (MatchingEngine.run_round steady_clock) sym ex else Some ex
  | None => Some ex
  end.

(** ** Access *)

Definition get_matching_engine (symbol : Symbol) ex : option engine := matching_engines_ ex !! FixedString.c_str symbol.
Definition get_symbols ex : list cstring := engine_order ex.
Definition symbol_count ex : nat := size (matching_engines_ ex).

(** ** Monitoring *)

(** The text of [detail] is not modelled. *)
Record ComponentHealth := mkComponentHealth { ch_name : cstring; healthy : bool }.
Record ExchangeHealth := mkExchangeHealth {
  overall_healthy : bool;
  eh_state : ExchangeState;
  components : list ComponentHealth
}.

(** [MemoryPool::get_stats().utilization] and the threshold 0.95. *)
Definition utilization (p : MemoryPool.t Order) : double :=
  double_div (double_of_Z (MemoryPool.allocated_ p)) (double_of_Z (MemoryPool.capacity_ p)).
Definition double_0_95 : double := double_div (double_of_Z 95) (double_of_Z 100).

Definition get_health ex : ExchangeHealth :=
  let engine_health := (fun sym =>
    mkComponentHealth (cstr "matching_engine_" ++ sym)
      (match matching_engines_ ex !! sym with Some m => MatchingEngine.running_ m | None => false end))
    <$> engine_order ex in
  let pool_healthy := double_lt (utilization (order_pool_ ex)) double_0_95 in
  mkExchangeHealth
    (is_running ex && forallb healthy engine_health && pool_healthy) (state_ ex)
    (mkComponentHealth (cstr "risk_manager") (is_running ex) :: engine_health
     ++ [mkComponentHealth (cstr "order_pool") pool_healthy]).

Record EngineStats := mkEngineStats { es_symbol : cstring; es_orders_processed : Z; es_trades_executed : Z }.
Record ExchangeStats := mkExchangeStats {
  total_orders_processed : Z;
  total_orders_approved : Z;
  total_orders_rejected : Z;
  total_trades_executed : Z;
  total_cancels : Z;
  market_data_events : Z;
  market_data_drops : Z;
  market_data_queue_depth : Z;
  order_pool_capacity : Z;
  order_pool_allocated : Z;
  order_pool_high_water : Z;
  order_pool_utilization : double;
  engines : list EngineStats
}.

(** The sum a loop over the engines accumulates. *)
Definition sum_engines (f : engine -> Z) ex : Z :=
  foldl (fun acc sym => match matching_engines_ ex !! sym with Some m => acc +₆₄ f m | None => acc end)
    0 (engine_order ex).

Definition get_stats ex : ExchangeStats :=
  let r := RiskManager.stats_atomic_ (risk_manager_ ex) in
  let p := order_pool_ ex in
  mkExchangeStats (rs_processed r) (rs_approved r) (rs_rejected r)
    (sum_engines MatchingEngine.trades_executed_ ex)
    (rs_cancels_accepted r +₆₄ rs_cancels_rejected r) 0
    (sum_engines MatchingEngine.md_drops_ ex)
    (MPMCQueue.size_approx (market_data_queue_ ex))
    (MemoryPool.capacity_ p) (MemoryPool.allocated_ p) (MemoryPool.high_water_ p) (utilization p)
    (omap (fun sym => m ← matching_engines_ ex !! sym;
             Some (mkEngineStats sym (MatchingEngine.orders_processed_ m) (MatchingEngine.trades_executed_ m)))
       (engine_order ex)).

End exchange.
End Exchange.
