(* ===== verification/SystemFrames.v ===== *)
(** * What each component leaves alone

    The frames the composition of the components needs: an engine changes only
    slots of orders it was given, the risk manager only marks the order it
    looks at, the gateway only takes free slots; and how many market data events
    an engine can publish per request. *)

From S2P Require Import Prelude Types ErrorHandling MemoryPool OrderPool PriceLevels OrderBook OrderBookSpec.
From S2P Require Import OrderBookInv OrderBookMatch OrderBookAdd OrderBookCancel OrderBookMaint OrderBookTheorems.
From S2P Require Import SpscQueue MpmcQueue MatchingEngine EngineTheorems Double RiskManager RiskTheorems.
Import OrderBook.
Import MatchingEngine.

(** ** Market data *)

(** The events reach the queue whatever the counters are. *)
Lemma push_event_md ev c1 c2 :
  market_data_queue_ c1 = market_data_queue_ c2 ->
  market_data_queue_ (push_event ev c1) = market_data_queue_ (push_event ev c2).
Proof.
  intros E. unfold push_event. rewrite E. destruct (market_data_queue_ c2) as [|q|] eqn:E2; [congruence| |congruence].
  by destruct (MPMCQueue.push ev q) as [[[] q']|].
Qed.

Lemma push_all_md evs c1 c2 :
  market_data_queue_ c1 = market_data_queue_ c2 ->
  market_data_queue_ (push_all evs c1) = market_data_queue_ (push_all evs c2).
Proof. revert c1 c2. induction evs as [|ev evs IH]; intros c1 c2 E; [done|]. by apply IH, push_event_md. Qed.

(** At most [n] events were published between [c] and [c']. *)
Definition published (n : Z) (c c' : Ctx) : Prop :=
  exists evs, Z.of_nat (length evs) <= n /\ market_data_queue_ c' = market_data_queue_ (push_all evs c).

Lemma published_none n c c' : 0 <= n -> market_data_queue_ c' = market_data_queue_ c -> published n c c'.
Proof. intros Hn E. by exists []. Qed.

Lemma published_trans n1 n2 c1 c2 c3 : published n1 c1 c2 -> published n2 c2 c3 -> published (n1 + n2) c1 c3.
Proof.
  intros (evs1 & H1 & E1) (evs2 & H2 & E2). exists (evs1 ++ evs2). rewrite length_app. split; [lia|].
  rewrite E2 push_all_app. by apply push_all_md.
Qed.

Lemma published_mono n n' c c' : n <= n' -> published n c c' -> published n' c c'.
Proof. intros Hn (evs & H & E). exists evs. split; [lia|done]. Qed.

(** The queue after [B] events at most. *)
Definition md_ok (B : Z) (q : MPMCQueue.t MarketDataEvent) : Prop :=
  exists D E xs, MPMCQueue.repr q D E xs /\ E <= B /\ MPMCQueue.capacity_ q <= 2 ^ 32.

Lemma md_ok_holds B q n :
  md_ok B q -> B + 2 ^ 32 + Z.of_nat n < 2 ^ 63 -> exists xs, MPMCQueue.holds n q xs.
Proof. intros (D & E & xs & Hr & HE & Hc) Hb. exists xs, D, E. split; [done|lia]. Qed.

Lemma push_all_md_ok evs B c q :
  market_data_queue_ c = md_queue q -> md_ok B q -> B + Z.of_nat (length evs) + 2 ^ 33 < 2 ^ 63 ->
  exists q', market_data_queue_ (push_all evs c) = md_queue q' /\ md_ok (B + Z.of_nat (length evs)) q'.
Proof.
  revert B c q. induction evs as [|ev evs IH]; intros B c q Hq Hok Hb.
  { exists q. rewrite Z.add_0_r. done. }
  destruct Hok as (D & E & xs & Hr & HE & Hc). cbn [length] in Hb.
  pose proof (MPMCQueue.mpmc_push_spec q D E xs ev Hr ltac:(change (2 ^ 33) with (2 ^ 32 + 2 ^ 32) in Hb; lia)) as Hp.
  assert (exists q1, market_data_queue_ (push_event ev c) = md_queue q1 /\ md_ok (B + 1) q1) as (q1 & Hq1 & Hok1).
  { unfold push_event. rewrite Hq. case_decide.
    - destruct Hp as (q' & -> & Hr' & Hc'). exists q'. split; [done|]. exists D, (E + 1), (xs ++ [ev]).
      rewrite Hc'. split; [done|]. lia.
    - rewrite Hp. exists q. split; [done|]. exists D, E, xs. split; [done|]. lia. }
  destruct (IH (B + 1) _ q1 Hq1 Hok1 ltac:(lia)) as (q' & Hq' & Hok'). exists q'. split; [done|].
  cbn [length]. by replace (B + Z.of_nat (S (length evs))) with (B + 1 + Z.of_nat (length evs)) by lia.
Qed.

Lemma published_md_ok n B c c' q :
  published n c c' -> market_data_queue_ c = md_queue q -> md_ok B q -> B + n + 2 ^ 33 < 2 ^ 63 ->
  exists q', market_data_queue_ c' = md_queue q' /\ md_ok (B + n) q'.
Proof.
  intros (evs & Hl & E) Hq Hok Hb. destruct (push_all_md_ok evs B c q Hq Hok ltac:(lia)) as (q' & Hq' & Hok').
  exists q'. rewrite E. split; [done|]. destruct Hok' as (D & E' & xs & Hr & HE & Hc).
  exists D, E', xs. split; [done|]. lia.
Qed.

(** ** Engines *)

Section engine.
Context {P : Type} `{!OrderPool P}.
Implicit Types e : env P Ctx.
Implicit Types m : MatchingEngine.t P.

Definition untouched (p p' : P) (i : nat) : Prop := deref p' i = deref p i /\ (owned p' i <-> owned p i).

Lemma untouched_trans p1 p2 p3 i : untouched p1 p2 i -> untouched p2 p3 i -> untouched p1 p3 i.
Proof. intros [H1 H2] [H3 H4]. split; [congruence|tauto]. Qed.

(** The engine, given the orders [mine], touched only those and the resting
    ones, and rests only those. *)
Record framed (mine : list nat) e e' : Prop := {
  fr_pool i : i ∉ all_ptrs (book e) -> i ∉ mine -> untouched (pool e) (pool e') i;
  fr_ptrs i : i ∈ all_ptrs (book e') -> i ∈ all_ptrs (book e) \/ i ∈ mine;
  fr_weight : (book_weight (book e') <= book_weight (book e) + length mine)%nat
}.

Lemma framed_refl mine e f : framed mine e (with_ctx f e).
Proof. split; [done|by left|simpl; lia]. Qed.

Lemma framed_trans mine1 mine2 e1 e2 e3 :
  framed mine1 e1 e2 -> framed mine2 e2 e3 -> framed (mine1 ++ mine2) e1 e3.
Proof.
  intros [A1 A2 A3] [B1 B2 B3]. split; [| |rewrite length_app; lia].
  - intros i Hi [H1 H2]%not_elem_of_app. eapply untouched_trans; [by apply A1|]. apply B1; [|done].
    intros [?|?]%A2; done.
  - intros i [[?|?]%A2|?]%B2; rewrite elem_of_app; tauto.
Qed.

(** No more fills than resting orders on the other side. *)
Lemma fills_bounded market d r b fs b' : Spec.add market d r b = (fs, b') -> (length fs <= length (Spec.get (negb d) b))%nat.
Proof.
  unfold Spec.add. destruct (Spec.match_against _ _ _) as [[fs1 q1] out1] eqn:E. intros [= <- _].
  apply match_against_priority in E as [Hp _]. apply prefix_length in Hp. by rewrite !length_fmap in Hp.
Qed.

Lemma live_weight ls : (length (ptrs ls) <= weight ls)%nat.
Proof.
  induction ls as [|l ls IH]; [done|]. rewrite ptrs_cons length_app. unfold weight in *. cbn [sum_list_with].
  unfold FlatLevel.live. rewrite length_drop. lia.
Qed.

Lemma resting_weight e d :
  inv [] e -> (length (Spec.get d (abs e)) <= book_weight (book e))%nat.
Proof.
  intros Hinv. rewrite abs_get (abs_side_length _ d); [apply (inv_side _ _ Hinv)|].
  pose proof (live_weight (get_side d (book e))). unfold book_weight. destruct d; simpl in *; lia.
Qed.

Lemma bbo_events_length sym b1 b2 b : (length (bbo_events sym b1 b2 b) <= 1)%nat.
Proof. unfold bbo_events. destruct (_ || _); simpl; lia. Qed.

Lemma cancel_framed k cl ps e e' :
  engine_ok ps e -> process_cancel k cl e = Some e' -> framed [] e e' /\ published 1 (ctx e) (ctx e').
Proof.
  intros Hok Hd. destruct (process_cancel_spec k cl _ e Hok) as (e2 & He2 & _ & Heff). rewrite Hd in He2.
  injection He2 as <-. destruct Hok as [Hinv Hp]. destruct (cancel_order_total e k Hinv) as (r & e1 & He & Hr & _).
  unfold process_cancel in Hd. rewrite He in Hd. cbn [mbind option_bind] in Hd. destruct r as [u|c]; cbn [has_value] in Hd.
  2:{ destruct Hr as [-> _]. injection Hd as <-. split; [apply framed_refl|]. apply published_none; [lia|done]. }
  destruct Hr as (a & Hk & Hres). rewrite publish_if_changed_spec in Hd. injection Hd as <-.
  pose proof (inv_tracked _ _ Hinv) as Ht. rewrite app_nil_r in Ht. apply Ht in Hk as Hk'. destruct Hk' as [Hin _]. split.
  - split; cbn [with_ctx book pool].
    + intros i Hi _. assert (i <> a) by (by intros ->). split; [by apply (cr_deref _ _ _ _ Hres)|].
      rewrite (cr_owned _ _ _ _ Hres). tauto.
    + intros i Hi. left. by apply (cr_sub _ _ _ _ Hres).
    + pose proof (cr_weight _ _ _ _ Hres). simpl. lia.
  - destruct Heff as [(a' & _ & _ & _ & _ & Hctx)|(Hbad & _)].
    + eexists. split; [|by rewrite Hctx; apply push_all_md]. etransitivity; [apply inj_le, bbo_events_length|lia].
    + unfold OrderBook.cancel_order in He. destruct Hbad as [Hn|Hs]; [congruence|]. by rewrite Hs in He.
Qed.

Lemma new_ptrs_app reqs1 reqs2 : new_ptrs (reqs1 ++ reqs2) = new_ptrs reqs1 ++ new_ptrs reqs2.
Proof. apply omap_app. Qed.

Lemma compact_framed m ps : engine_ok ps (book_ m) -> framed [] (book_ m) (book_ (maybe_compact m)).
Proof.
  intros [Hinv _]. unfold maybe_compact. destruct (processed_mod m COMPACT_INTERVAL); [|by split; [|left|simpl; lia]].
  simpl. pose proof (inv_compact _ _ Hinv) as Hc. pose proof (prune_inv [] _ Hc) as Hpr. cbn [book with_book] in Hpr.
  rewrite Hpr. split; [done| |pose proof (compact_weight (book (book_ m))); simpl; lia].
  intros i Hi. left. change (i ∈ all_ptrs (compact (book (book_ m)))) in Hi. by rewrite all_ptrs_compact in Hi.
Qed.

Variable steady_clock : nat -> Timestamp.

(** A new order the book accepts. *)
Lemma accepted_framed a o ps e e' :
  engine_ok (a :: ps) e -> acceptable a o e -> process_new_order steady_clock (Some a) e = Some e' ->
  framed [a] e e' /\ published (Z.of_nat (book_weight (book e)) + 1) (ctx e) (ctx e').
Proof.
  intros [Hinv Hp] Hac Hd.
  destruct (process_new_order_accepted steady_clock a o ps e (conj Hinv Hp) Hac) as (e2 & He2 & _ & Heff).
  rewrite Hd in He2. injection He2 as <-.
  pose proof (add_order_spec steady_clock callback a o e Hinv Hac) as Hspec.
  destruct (Spec.add _ _ _ _) as [fs b'] eqn:Hadd. destruct Hspec as (e1 & He & Hres). split.
  - unfold process_new_order in Hd. rewrite He in Hd. cbn [mbind option_bind has_value] in Hd.
    rewrite publish_if_changed_spec in Hd. injection Hd as <-. split; cbn [with_ctx book pool].
    + intros i Hi Ha. apply (ar_frame _ _ _ _ _ _ _ _ Hres); set_solver.
    + intros i Hi. destruct (ar_sub _ _ _ _ _ _ _ _ Hres i Hi); set_solver.
    + pose proof (ar_weight _ _ _ _ _ _ _ _ Hres). simpl. lia.
  - destruct Heff as [(_ & fs1 & b1 & Hadd1 & _ & _ & Hctx)|[Hno _]]; [|done].
    rewrite Hadd in Hadd1. injection Hadd1 as <- <-. eexists. split; [|by rewrite Hctx; apply push_all_md].
    rewrite length_app. unfold trade_events. rewrite length_fmap length_trades_of.
    pose proof (fills_bounded _ _ _ _ _ _ Hadd). pose proof (resting_weight e (negb (is_buy (side o))) Hinv).
    pose proof (bbo_events_length (symbol_cache_ (ctx e)) (best_bid (book e)) (best_ask (book e)) (book e')). lia.
Qed.

(** A new order the book refuses. *)
Lemma refused_framed a o ps c e e' :
  engine_ok (a :: ps) e -> deref (pool e) a = Some o -> add_order steady_clock callback (Some a) e = Some (Error c, e) ->
  process_new_order steady_clock (Some a) e = Some e' -> framed [a] e e' /\ published 1 (ctx e) (ctx e').
Proof.
  intros [Hinv Hp] Ho He Hd. unfold process_new_order in Hd. rewrite He in Hd.
  cbn [mbind option_bind has_value with_ctx pool] in Hd. rewrite (modify_some _ _ _ _ Ho) in Hd.
  cbn [mbind option_bind] in Hd.
  destruct (deallocate_owned (store a (set_status REJECTED o) (pool e)) a) as (p' & Hde & _ & Hdr & Hw);
    [apply pool_ok_store, (inv_pool _ _ Hinv)|apply owned_store, (po_owned _ _ Hp); left|].
  rewrite Hde in Hd. cbn [mbind option_bind] in Hd. injection Hd as <-. split.
  - split; simpl; [|by left|lia]. intros i _ Hia. assert (i <> a) by set_solver.
    split; [rewrite Hdr deref_store_ne; done|]. rewrite Hw owned_store. tauto.
  - apply published_none; [lia|done].
Qed.

Lemma dispatch_framed r reqs e e' :
  engine_ok (new_ptrs (r :: reqs)) e -> dispatch steady_clock r e = Some e' ->
  framed (new_ptrs [r]) e e' /\ published (2 ^ 32) (ctx e) (ctx e').
Proof.
  intros Hok Hd. assert (Z.of_nat (book_weight (book e)) + 1 <= 2 ^ 32) as Hw.
  { pose proof (po_weight _ _ (proj2 Hok)). lia. }
  destruct r as [[a|]|k cl]; cbn [dispatch] in Hd.
  - destruct Hok as [Hinv Hp].
    destruct (owned_deref (pool e) a (inv_pool _ _ Hinv)) as [o Ho]; [apply (po_owned _ _ Hp); left|].
    destruct (add_order_total steady_clock callback e a o Hinv) as (r & e1 & He & Hr & _);
      [apply (po_owned _ _ Hp); left|apply (po_fresh _ _ Hp); left|done|
       by apply (po_qty _ _ Hp a); [left|]|by eapply small_side|].
    destruct r as [u|c]; [|destruct Hr as [-> _]].
    + destruct (accepted_framed a o (new_ptrs reqs) e e' (conj Hinv Hp) Hr Hd) as [H1 H2].
      split; [done|]. by eapply published_mono.
    + destruct (refused_framed a o (new_ptrs reqs) c e e' (conj Hinv Hp) Ho He Hd) as [H1 H2].
      split; [done|]. eapply published_mono; [|done]. lia.
  - injection Hd as <-. split; [split; [done|by left|simpl; lia]|]. apply published_none; [lia|done].
  - destruct (cancel_framed k cl _ e e' Hok Hd) as [H1 H2]. split; [done|]. eapply published_mono; [|done]. lia.
Qed.

Lemma worked_framed reqs rest e e' :
  worked steady_clock reqs e e' -> engine_ok (new_ptrs (reqs ++ rest)) e ->
  framed (new_ptrs reqs) e e' /\ published (Z.of_nat (length reqs) * 2 ^ 32) (ctx e) (ctx e') /\
  engine_ok (new_ptrs rest) e'.
Proof.
  induction 1 as [e|r reqs e e1 e2 Hd _ IH|n reqs e e2 _ IH]; intros Hok.
  - split_and!; [by split; [|left|simpl; lia]|by apply published_none|done].
  - destruct (dispatch_framed r (reqs ++ rest) e e1 Hok Hd) as [Hf1 Hp1].
    destruct (dispatch_spec steady_clock r (reqs ++ rest) e Hok) as (e1' & Hd' & Hok1).
    rewrite Hd in Hd'. injection Hd' as <-. destruct (IH Hok1) as (Hf2 & Hp2 & Hok2). split_and!; [|   |done].
    + rewrite (new_ptrs_app [r] reqs). by eapply framed_trans.
    + eapply published_mono; [|exact (published_trans _ _ _ _ _ Hp1 Hp2)]. cbn [length]. lia.
  - destruct (IH (with_ctx_inv _ _ _ Hok)) as (Hf & Hp & Hok'). split_and!; [| |done].
    2:{ rewrite -(Z.add_0_l (_ * _)). eapply published_trans; [|exact Hp]. by apply published_none. }
    exact (framed_trans [] _ _ _ _ (framed_refl [] e _) Hf).
Qed.

(** ** The engine's worker as a step on its queue and its book *)

(** [finished] was taken off the queue and processed, [rest] still waits. *)
Record engine_progress (finished rest : list OrderRequest) m m' : Prop := {
  ep_queue : SPSCQueue.holds (input_queue_ m') rest;
  ep_ok : engine_ok (new_ptrs rest) (book_ m');
  ep_framed : framed (new_ptrs finished) (book_ m) (book_ m');
  ep_published : published (Z.of_nat (length finished) * 2 ^ 32) (ctx (book_ m)) (ctx (book_ m'))
}.

Lemma drain_batch_progress m reqs :
  SPSCQueue.holds (input_queue_ m) reqs -> engine_ok (new_ptrs reqs) (book_ m) ->
  let k := Nat.min BATCH_SIZE (length reqs) in
  exists e' q', drain_batch steady_clock m = Some (k, with_env e' (with_queue q' m)) /\
    engine_progress (take k reqs) (drop k reqs) m (with_env e' (with_queue q' m)).
Proof.
  intros Hh Hok k. destruct (drain_batch_spec steady_clock m reqs Hh Hok) as (e' & q' & Hd & Hw & Hh' & Hok').
  fold k in Hd, Hw, Hh', Hok'. rewrite -{1}(take_drop k reqs) in Hok.
  destruct (worked_framed _ _ _ _ Hw Hok) as (Hf & Hp & _). exists e', q'. split; [done|]. by split.
Qed.

Lemma run_round_progress m reqs :
  SPSCQueue.holds (input_queue_ m) reqs -> engine_ok (new_ptrs reqs) (book_ m) ->
  exists finished rest m', reqs = finished ++ rest /\ run_round steady_clock m = Some m' /\
    engine_progress finished rest m m' /\ running_ m' = running_ m.
Proof.
  intros Hh Hok. destruct (drain_batch_progress m reqs Hh Hok) as (e' & q' & Hd & Hp).
  set (k := Nat.min BATCH_SIZE (length reqs)) in *. exists (take k reqs), (drop k reqs).
  unfold run_round. rewrite Hd. cbn [mbind option_bind]. eexists. split; [by rewrite take_drop|]. split; [reflexivity|].
  destruct (Nat.ltb 0 k); [|done]. set (m1 := with_env e' (with_queue q' m)) in *.
  assert (engine_progress (take k reqs) (drop k reqs) m (maybe_compact m1)) as Hc.
  { destruct Hp as [H1 H2 H3 H4]. split.
    - unfold maybe_compact. by destruct (processed_mod _ _).
    - by apply maintain_ok.
    - rewrite -(app_nil_r (new_ptrs (take k reqs))). eapply framed_trans; [exact H3|]. by eapply compact_framed.
    - unfold maybe_compact. by destruct (processed_mod _ _). }
  assert (running_ (maybe_compact m1) = running_ m) as Hrun by (unfold maybe_compact; by destruct (processed_mod _ _)).
  unfold maybe_flush_stats. destruct (processed_mod (maybe_compact m1) STATS_FLUSH_INTERVAL); [|done].
  split; [by destruct Hc; split|done].
Qed.

Lemma stop_progress m reqs :
  running_ m = true -> SPSCQueue.holds (input_queue_ m) reqs -> engine_ok (new_ptrs reqs) (book_ m) ->
  exists m', stop steady_clock m = Some m' /\ engine_progress reqs [] m m' /\ running_ m' = false /\
    worked steady_clock reqs (book_ m) (book_ m') /\ SPSCQueue.holds (input_queue_ m') [].
Proof.
  intros Hrun Hh Hok. unfold stop. rewrite Hrun. unfold run_exit. cbn [input_queue_]. rewrite (holds_size _ _ Hh).
  match goal with |- context [drain_remaining _ _ ?x] => set (m0 := x) end.
  destruct (drain_remaining_spec steady_clock (S (length reqs)) m0 reqs) as (m1 & Hd & Hw & Hh1 & Hok1 & Hs);
    [done|done|lia|].
  rewrite Hd. cbn [mbind option_bind]. eexists. split; [reflexivity|].
  destruct (worked_framed reqs [] _ _ Hw) as (Hf & Hp & _); [by rewrite app_nil_r|].
  split; [by split|]. destruct Hs as (_ & _ & _ & _ & Hs). by split_and!.
Qed.

End engine.

(** ** The risk manager *)

Section risk.
Context {P E : Type} `{!OrderPool P} `{!OrderSink E}.
Implicit Types s : RiskManager.st P E.
Import RiskManager.

(** The parts of the manager that no handler changes. *)
Definition same_wiring (r r' : RiskManager.t E) : Prop :=
  RiskManager.input_queue_ r' = RiskManager.input_queue_ r /\ reference_prices_ r' = reference_prices_ r /\
  RiskManager.running_ r' = RiskManager.running_ r.

(** The engines after at most one of them was called. *)
Definition one_called (f : E -> E -> Prop) (m m' : gmap cstring E) : Prop :=
  m' = m \/ exists sym x x', m !! sym = Some x /\ f x x' /\ m' = <[sym := x']> m.

(** An order was looked at: it was marked, and its engine may have got it. *)
Record looked_at (ptr : nat) (o : Order) s s' : Prop := {
  la_pool : exists status, RiskManager.pool s' = store ptr (set_status status o) (RiskManager.pool s);
  la_wiring : same_wiring (rm s) (rm s');
  la_engines : one_called (fun x x' => exists ok, sink_submit (Some ptr) x = (ok, x'))
    (matching_engines_ (rm s)) (matching_engines_ (rm s'))
}.

Lemma reject_looked_at ptr o why s0 s r s' :
  deref (RiskManager.pool s) ptr = Some o -> RiskManager.pool s = RiskManager.pool s0 -> same_wiring (rm s0) (rm s) ->
  one_called (fun x x' => exists ok, sink_submit (Some ptr) x = (ok, x')) (matching_engines_ (rm s0)) (matching_engines_ (rm s)) ->
  reject_order ptr why s = Some (r, s') -> looked_at ptr o s0 s'.
Proof.
  intros Ho Hp Hw He. unfold reject_order. rewrite (modify_some _ _ _ _ Ho). cbn [mbind option_bind].
  intros [= _ <-]. split; simpl; [exists REJECTED; by rewrite Hp|done|done].
Qed.

Lemma unwind_wiring i k n s :
  same_wiring (rm s) (rm (unwind i k n s)) /\ matching_engines_ (rm (unwind i k n s)) = matching_engines_ (rm s) /\
  RiskManager.pool (unwind i k n s) = RiskManager.pool s.
Proof. unfold unwind. by destruct (client_states_ (rm s) !! _). Qed.

Lemma forward_looked_at ptr o s r s' :
  deref (RiskManager.pool s) ptr = Some o -> forward ptr o s = Some (r, s') -> looked_at ptr o s s'.
Proof.
  intros Ho. unfold forward. cbn zeta. set (s1 := put_client _ _ s).
  change (matching_engines_ (rm (with_rm _ s1))) with (matching_engines_ (rm s)).
  destruct (matching_engines_ (rm s) !! FixedString.c_str (symbol o)) as [x|] eqn:Ex.
  - destruct (sink_submit (Some ptr) x) as [ok x'] eqn:Es.
    assert (one_called (fun x x' => exists ok, sink_submit (Some ptr) x = (ok, x')) (matching_engines_ (rm s))
      (<[FixedString.c_str (symbol o) := x']> (matching_engines_ (rm s)))) as Hone.
    { right. exists (FixedString.c_str (symbol o)), x, x'. split; [done|]. split; [by exists ok|done]. }
    destruct ok; cbn [negb].
    + change (RiskManager.pool (with_rm _ _)) with (RiskManager.pool s). rewrite (modify_some _ _ _ _ Ho).
      cbn [mbind option_bind]. intros [= _ <-]. split; simpl; [by exists ACCEPTED|done|done].
    + match goal with |- context [unwind ?i ?k ?n ?x] => destruct (unwind_wiring i k n x) as (H1 & H2 & H3) end.
      apply reject_looked_at; [by rewrite H3|by rewrite H3|done|]. by rewrite H2.
  - match goal with |- context [unwind ?i ?k ?n ?x] => destruct (unwind_wiring i k n x) as (H1 & H2 & H3) end.
    apply reject_looked_at; [by rewrite H3|by rewrite H3|done|]. rewrite H2. by left.
Qed.

Variable steady_clock : nat -> Timestamp.

Lemma checked_wiring s o :
  same_wiring (rm s) (rm (checked steady_clock s o)) /\
  matching_engines_ (rm (checked steady_clock s o)) = matching_engines_ (rm s).
Proof. unfold checked, get_or_create_client. by destruct (client_states_ (rm s) !! _). Qed.

Lemma process_new_order_looked_at ptr o s r s' :
  deref (RiskManager.pool s) ptr = Some o -> RiskManager.process_new_order steady_clock (Some ptr) s = Some (r, s') ->
  looked_at ptr o s s'.
Proof.
  intros Ho. rewrite (process_new_order_eq steady_clock ptr o s Ho).
  destruct (checked_wiring s o) as [Hw He].
  assert (forall why, reject_order ptr why s = Some (r, s') -> looked_at ptr o s s') as Hrej0.
  { intros why. by apply reject_looked_at; [| | |left]. }
  assert (forall why, reject_order ptr why (checked steady_clock s o) = Some (r, s') -> looked_at ptr o s s') as Hrej.
  { intros why. apply reject_looked_at; [done|done|done|]. by left. }
  destruct (symbol_configs_ (rm s) !! FixedString.c_str (symbol o)) as [cfg|]; [|apply Hrej0].
  destruct (_ || _); [apply Hrej0|]. destruct (negb _); [apply Hrej|]. destruct (bool_decide _); [apply Hrej|].
  destruct (collar s o cfg) as [c|]; [|done]. cbn [mbind option_bind].
  destruct (negb c); [apply Hrej|]. destruct (negb _); [apply Hrej|].
  intros H. apply forward_looked_at in H as [H1 H2 H3]; [|done]. split; [exact H1| |by rewrite He in H3].
  destruct Hw as (A1 & A2 & A3), H2 as (B1 & B2 & B3). split_and!; congruence.
Qed.

Lemma process_cancel_wiring i c s :
  same_wiring (rm s) (rm (RiskManager.process_cancel i c s)) /\
  RiskManager.pool (RiskManager.process_cancel i c s) = RiskManager.pool s /\
  one_called (fun x x' => x' = snd (sink_cancel i c x)) (matching_engines_ (rm s))
    (matching_engines_ (rm (RiskManager.process_cancel i c s))).
Proof.
  unfold RiskManager.process_cancel. cbn zeta.
  destruct (client_states_ (rm s) !! FixedString.c_str c) as [cl|]; [|by split_and!; [| |left]].
  destruct (negb _); [by split_and!; [| |left]|].
  destruct (order_symbol_index_ (rm s) !! i) as [sym|]; [|by split_and!; [| |left]].
  destruct (matching_engines_ (rm s) !! sym) as [x|] eqn:Ex; [|by split_and!; [| |left]].
  split_and!; [done|done|]. right. by exists sym, x, (snd (sink_cancel i c x)).
Qed.

End risk.

(** The engine as a sink: a submission changes its queue and a counter. *)
Section sink.
Context {P : Type} `{!OrderPool P}.
Implicit Types m : MatchingEngine.t P.

Record handed_over (request : OrderRequest) m m' : Prop := {
  ho_book : book (book_ m') = book (book_ m);
  ho_running : running_ m' = running_ m;
  ho_queue reqs : SPSCQueue.holds (input_queue_ m) reqs ->
    SPSCQueue.holds (input_queue_ m') reqs \/ SPSCQueue.holds (input_queue_ m') (reqs ++ [request])
}.

Lemma submit_handed_over request m ok m' : submit request m = (ok, m') -> handed_over request m m'.
Proof.
  unfold submit. destruct (SPSCQueue.push request (input_queue_ m)) as [ok1 q1] eqn:Ep.
  assert (forall reqs, SPSCQueue.holds (input_queue_ m) reqs ->
    SPSCQueue.holds q1 reqs \/ SPSCQueue.holds q1 (reqs ++ [request])) as Hq.
  { intros reqs (T0 & H & Hr). pose proof (SPSCQueue.push_spec _ _ _ _ request Hr) as Hp. rewrite Ep in Hp.
    case_decide; destruct Hp as (q' & [= _ ->] & Hr'); [right; by exists T0, (H + 1)|left; by exists T0, H]. }
  destruct ok1; intros [= _ <-]; by split.
Qed.

End sink.
