(* ===== verification/GatewayFrames.v ===== *)
(** * What the gateway adds to the shared state

    A round of the gateway's worker takes free slots of the pool, fills them
    with orders from the wire and appends their requests to the risk queue; it
    touches no slot somebody owns, and every request it appends has a reply. *)

From S2P Require Import Prelude Types MemoryPool SpscQueue RiskManager MemorySafety Protocol TcpGateway GatewayTheorems.
Import TcpGateway.

(** The slots the requests carry. *)
Definition risk_ptrs (reqs : list RiskRequest) : list nat :=
  omap (fun r => match r with RISK_NEW_ORDER order => order | RISK_CANCEL_ORDER _ _ => None end) reqs.

Lemma risk_ptrs_app reqs1 reqs2 : risk_ptrs (reqs1 ++ reqs2) = risk_ptrs reqs1 ++ risk_ptrs reqs2.
Proof. apply omap_app. Qed.

(** An order whose quantity is a 64-bit word. *)
Definition order_in_range (o : Order) : Prop := 0 <= remaining_quantity o < 2 ^ 64.

(** ** Bytes *)

Lemma field_range_bytes b off n :
  Forall (fun x => u8 x) b -> 0 <= field b off n < 256 ^ Z.of_nat n.
Proof.
  intros Hb. unfold field.
  assert (Forall (fun x => u8 x) (take n (drop off b))) as Hf by (by apply Forall_take, Forall_drop).
  pose proof (le_decode_nonneg _ Hf) as Hr. split; [lia|]. eapply Z.lt_le_trans; [apply Hr|].
  apply Z.pow_le_mono_r; [lia|]. rewrite length_take. lia.
Qed.

Lemma parse_bytes b fs t :
  Forall (fun x => u8 x) b -> parse_stream b = (fs, t) ->
  Forall (Forall (fun x => u8 x)) fs /\ match t with Partial r => Forall (fun x => u8 x) r | Malformed => True end.
Proof.
  unfold parse_stream. generalize (S (length b)). intros fuel. revert b fs t.
  induction fuel as [|fuel IH]; intros b fs t Hb; cbn [frames]; [by intros [= <- <-]|].
  destruct (_ <? _)%nat; [by intros [= <- <-]|]. cbn zeta. destruct (_ || _); [by intros [= <- <-]|].
  destruct (_ <? _); [by intros [= <- <-]|]. destruct (frames fuel _) as [fs1 t1] eqn:E. intros [= <- <-].
  destruct (IH _ _ _ (Forall_drop _ _ _ Hb) E) as [H1 H2]. split; [|done]. constructor; [|done]. by apply Forall_take.
Qed.

Section gateway.
Context {E : Type}.
Abbreviation gw := (TcpGateway.t E).
Implicit Types g : gw.
Abbreviation queue g := (RiskManager.input_queue_ (risk_manager_ g)).

(** [new] was appended to a queue that held [reqs]. *)
Record grows (reqs new : list RiskRequest) g g' : Prop := {
  gr_queue : SPSCQueue.holds (queue g') (reqs ++ new);
  gr_risk : exists q, risk_manager_ g' = RiskManager.set_queue q (risk_manager_ g);
  gr_pool : MemoryPool.ok (order_pool_ g');
  gr_nodup : NoDup (risk_ptrs new);
  gr_new i : i ∈ risk_ptrs new -> ~ MemoryPool.owned (order_pool_ g) i /\
    exists o, MemoryPool.deref (order_pool_ g') i = Some o /\ order_in_range o;
  gr_owned i : MemoryPool.owned (order_pool_ g') i <-> MemoryPool.owned (order_pool_ g) i \/ i ∈ risk_ptrs new;
  gr_deref i : MemoryPool.owned (order_pool_ g) i ->
    MemoryPool.deref (order_pool_ g') i = MemoryPool.deref (order_pool_ g) i;
  gr_count : (length new + length (outbox g) <= length (outbox g'))%nat
}.

(** Nothing was appended. *)
Lemma grows_none reqs g g' :
  SPSCQueue.holds (queue g') reqs -> (exists q, risk_manager_ g' = RiskManager.set_queue q (risk_manager_ g)) ->
  MemoryPool.ok (order_pool_ g') ->
  (forall i, MemoryPool.owned (order_pool_ g') i <-> MemoryPool.owned (order_pool_ g) i) ->
  (forall i, MemoryPool.owned (order_pool_ g) i ->
     MemoryPool.deref (order_pool_ g') i = MemoryPool.deref (order_pool_ g) i) ->
  (length (outbox g) <= length (outbox g'))%nat -> grows reqs [] g g'.
Proof.
  intros Hq Hr Hp Ho Hd Hl. split; try done.
  - by rewrite app_nil_r.
  - constructor.
  - by intros i ?%not_elem_of_nil.
  - intros i. rewrite Ho. split; [by left|]. by intros [?|?%not_elem_of_nil].
Qed.

Lemma grows_refl reqs g g' :
  SPSCQueue.holds (queue g) reqs -> MemoryPool.ok (order_pool_ g) ->
  risk_manager_ g' = risk_manager_ g -> order_pool_ g' = order_pool_ g -> outbox g' = outbox g ->
  grows reqs [] g g'.
Proof.
  intros Hq Hp H1 H2 H3. apply grows_none; rewrite ?H1 ?H2 ?H3; try done.
  exists (queue g). by destruct (risk_manager_ g).
Qed.

Lemma grows_trans reqs new1 new2 g1 g2 g3 :
  grows reqs new1 g1 g2 -> grows (reqs ++ new1) new2 g2 g3 -> grows reqs (new1 ++ new2) g1 g3.
Proof.
  intros [A1 A2 A3 A4 A5 A6 A7 A8] [B1 B2 B3 B4 B5 B6 B7 B8]. split.
  - by rewrite app_assoc.
  - destruct A2 as [q1 H1], B2 as [q2 H2]. exists q2. rewrite H2 H1. done.
  - done.
  - rewrite risk_ptrs_app. apply NoDup_app. split_and!; [done| |done]. intros i H1 H2.
    apply (B5 i H2). apply A6. by right.
  - intros i. rewrite risk_ptrs_app elem_of_app. intros [Hi|Hi].
    + destruct (A5 i Hi) as (H1 & o & H2 & H3). split; [done|]. exists o. split; [|done].
      rewrite B7; [apply A6; by right|done].
    + destruct (B5 i Hi) as (H1 & H2). split; [|done]. intros Ho. apply H1, A6. by left.
  - intros i. rewrite B6 A6 risk_ptrs_app elem_of_app. tauto.
  - intros i Hi. rewrite B7; [apply A6; by left|by apply A7].
  - rewrite length_app. lia.
Qed.

(** Ownership in the pool around an allocation. *)
Lemma allocate_owned (p p' : MemoryPool.t Order) i fl :
  MemoryPool.free_list p (i :: fl) -> MemoryPool.owned_ p' = <[i := 1]> (MemoryPool.owned_ p) ->
  ~ MemoryPool.owned p i /\ (forall j, MemoryPool.owned p' j <-> MemoryPool.owned p j \/ j = i).
Proof.
  intros Hfl Ho. pose proof (slot_in_range _ _ _ Hfl) as Hi. rewrite (MemoryPool.fl_pool _ _ Hfl) in Hi.
  pose proof (MemoryPool.fl_owned _ _ Hfl i Hi) as Hoi. rewrite decide_True in Hoi; [left|].
  unfold MemoryPool.owned. rewrite Ho. split; [congruence|]. intros j.
  rewrite list_lookup_insert_Some (MemoryPool.fl_owned_len _ _ Hfl). naive_solver.
Qed.

(** A slot that was allocated, written and given back: as before. *)
Lemma returned_slot (p p' : MemoryPool.t Order) i fl o :
  MemoryPool.free_list p (i :: fl) -> MemoryPool.free_list p' fl -> MemoryPool.pool_ p' = MemoryPool.pool_ p ->
  MemoryPool.owned_ p' = <[i := 1]> (MemoryPool.owned_ p) ->
  exists p'', MemoryPool.deallocate (Some i) (MemoryPool.store i o p') = Some p'' /\ MemoryPool.ok p'' /\
    (forall j, MemoryPool.owned p'' j <-> MemoryPool.owned p j) /\
    (forall j, MemoryPool.owned p j -> MemoryPool.deref p'' j = MemoryPool.deref p j).
Proof.
  intros Hfl Hfl' Hp Ho. pose proof (slot_in_range _ _ _ Hfl) as Hi. destruct (allocate_owned _ _ _ _ Hfl Ho) as [Hno _].
  destruct (MemoryPool.deallocate_free_list (MemoryPool.store i o p') i fl) as (p'' & Hd & Hfl'' & Hp'' & _ & Ho'' & _).
  { by apply MemoryPool.store_free_list. }
  { unfold MemoryPool.owned. cbn [MemoryPool.owned_ MemoryPool.store MemoryPool.set_pool]. rewrite Ho.
    apply list_lookup_insert_eq. by rewrite (MemoryPool.fl_owned_len _ _ Hfl) -(MemoryPool.fl_pool _ _ Hfl). }
  exists p''. split; [done|]. split; [by exists (i :: fl)|]. split; intros j.
  - unfold MemoryPool.owned in *. rewrite Ho''. cbn [MemoryPool.owned_ MemoryPool.store MemoryPool.set_pool].
    rewrite Ho list_insert_insert_eq list_lookup_insert_Some. split; [naive_solver|].
    intros Hj. right. split; [by intros ->|done].
  - intros Hj. unfold MemoryPool.deref. rewrite Hp''. cbn [MemoryPool.store MemoryPool.pool_ MemoryPool.set_pool].
    rewrite list_lookup_insert_ne; [by intros ->|]. by rewrite Hp.
Qed.

Variable steady_clock : nat -> Timestamp.
Variable send_result : nat -> Z.

Lemma handle_cancel_grows conn data len g reqs :
  Z.of_nat sizeof_CancelOrderMessage <= len -> MemoryPool.ok (order_pool_ g) -> SPSCQueue.holds (queue g) reqs ->
  exists g' new, handle_cancel_order steady_clock send_result conn data len g = Some g' /\ grows reqs new g g' /\
    connections_ g' = connections_ g.
Proof.
  intros Hlen Hp Hq. destruct (handle_cancel_order_done steady_clock send_result conn data len g reqs Hlen Hq)
    as (g' & Hg & (q & Hr) & Hc & Hpool & He). exists g'.
  cbn zeta in He. case_decide; destruct He as [(text & _ & _ & Ho) Hh].
  - eexists. split; [done|]. split; [|done]. split; rewrite ?Hpool; try done; cbn [risk_ptrs omap list_omap].
    + by exists q.
    + constructor.
    + by intros i ?%not_elem_of_nil.
    + intros i. split; [by left|]. by intros [?|?%not_elem_of_nil].
    + rewrite Ho length_app. simpl. lia.
  - exists []. split; [done|]. split; [|done]. apply grows_none; rewrite ?Hpool; try done.
    + by exists q.
    + rewrite Ho length_app. simpl. lia.
Qed.

Lemma handle_new_order_grows conn data len g reqs :
  Z.of_nat sizeof_NewOrderMessage <= len -> Forall (fun x => u8 x) data ->
  MemoryPool.ok (order_pool_ g) -> SPSCQueue.holds (queue g) reqs ->
  exists g' new, handle_new_order steady_clock send_result conn data len g = Some g' /\ grows reqs new g g' /\
    connections_ g' = connections_ g.
Proof.
  intros Hlen Hb [fl Hfl] Hq. unfold handle_new_order. rewrite (proj2 (Z.ltb_ge _ _)); [done|].
  destruct fl as [|i fl].
  { rewrite (MemoryPool.allocate_nil _ Hfl). cbn [mbind option_bind].
    edestruct (send_reject_done (E:=E) steady_clock send_result) as (g' & -> & (text & _ & _ & Ho) & H1 & H2 & H3);
      [vm_compute; lia|].
    cbn [mbind option_bind]. eexists _, []. split; [done|]. split; [|done].
    apply grows_none; cbn [with_stats risk_manager_ order_pool_ outbox]; rewrite ?H1 ?H2 ?Ho; try done.
    - exists (queue g). by rewrite set_queue_same.
    - by exists [].
    - rewrite length_app. simpl. lia. }
  destruct (MemoryPool.allocate_cons _ _ _ Hfl) as (p' & -> & Hfl' & Hp & Hc & Ho & _).
  destruct (allocate_owned _ _ _ _ Hfl Ho) as [Hno How].
  cbn [mbind option_bind]. unfold RiskManager.submit_order. cbn [risk_manager_ set_pool tick].
  destruct (submit_push (risk_manager_ g) reqs (RISK_NEW_ORDER (Some i)) Hq) as (q' & -> & Hq').
  pose proof (slot_in_range _ _ _ Hfl) as Hi. cbn [set_risk order_pool_ set_pool].
  set (order := order_of_message (decode_new_order data) (steady_clock (ticks g))) in *.
  case_decide as Hroom.
  - rewrite bool_decide_true; [done|].
    edestruct (send_ack_done (E:=E) steady_clock send_result) as (g' & -> & (text & _ & _ & Hout) & H1 & H2 & H3);
      [vm_compute; lia|].
    exists g', [RISK_NEW_ORDER (Some i)]. split; [done|]. split; [|done].
    split; rewrite ?H1 ?H2; cbn [risk_ptrs omap list_omap risk_manager_ order_pool_ set_pool set_risk tick].
    + exact Hq'.
    + by exists q'.
    + exists fl. by apply MemoryPool.store_free_list.
    + apply NoDup_singleton.
    + intros j ->%list_elem_of_singleton. split; [done|]. exists order.
      split; [apply list_lookup_insert_eq; by rewrite Hp|]. apply (field_range_bytes data 93 8 Hb).
    + intros j. rewrite list_elem_of_singleton. exact (How j).
    + intros j Hj. unfold MemoryPool.deref. cbn [MemoryPool.store MemoryPool.pool_ MemoryPool.set_pool].
      rewrite list_lookup_insert_ne; [by intros ->|]. by rewrite Hp.
    + rewrite Hout length_app. simpl. lia.
  - rewrite bool_decide_false; [done|]. cbn [order_pool_ set_pool tick ticks].
    destruct (returned_slot _ _ _ _ order Hfl Hfl' Hp Ho) as (p'' & Hd & Hok & Ho'' & Hd''). rewrite Hd. cbn [mbind option_bind].
    edestruct (send_reject_done (E:=E) steady_clock send_result) as (g' & -> & (text & _ & _ & Hout) & H1 & H2 & H3);
      [vm_compute; lia|].
    exists g', []. split; [done|]. split; [|done]. apply grows_none; rewrite ?H1 ?H2; try done.
    + by exists q'.
    + rewrite Hout length_app. simpl. lia.
Qed.

Lemma process_message_grows conn data len g reqs :
  Forall (fun x => u8 x) data -> MemoryPool.ok (order_pool_ g) -> SPSCQueue.holds (queue g) reqs ->
  exists g' new, process_message steady_clock send_result conn data len g = Some g' /\ grows reqs new g g' /\
    connections_ g' = connections_ g.
Proof.
  intros Hb Hp Hq. pose proof (grows_refl reqs g g Hq Hp eq_refl eq_refl eq_refl) as Hrefl.
  unfold process_message. destruct (_ =? NEW_ORDER).
  - destruct (Z_lt_le_dec len (Z.of_nat sizeof_NewOrderMessage)) as [Hlt|Hge]; [|by apply handle_new_order_grows].
    unfold handle_new_order. rewrite (proj2 (Z.ltb_lt _ _)); [done|]. by exists g, [].
  - destruct (_ =? CANCEL_ORDER); [|by exists g, []].
    destruct (Z_lt_le_dec len (Z.of_nat sizeof_CancelOrderMessage)) as [Hlt|Hge]; [|by apply handle_cancel_grows].
    unfold handle_cancel_order. rewrite (proj2 (Z.ltb_lt _ _)); [done|]. by exists g, [].
Qed.

Lemma process_frames_grows conn fs g reqs :
  Forall (Forall (fun x => u8 x)) fs -> MemoryPool.ok (order_pool_ g) -> SPSCQueue.holds (queue g) reqs ->
  exists g' new, process_frames steady_clock send_result conn fs g = Some g' /\ grows reqs new g g' /\
    connections_ g' = connections_ g.
Proof.
  intros Hfs. revert g reqs. induction Hfs as [|f fs Hf _ IH]; intros g reqs Hp Hq.
  { exists g, []. split; [done|]. split; [by apply grows_refl|done]. }
  cbn [process_frames]. destruct (process_message_grows conn f (Z.of_nat (length f)) g reqs Hf Hp Hq)
    as (g1 & new1 & -> & H1 & Hc1). cbn [mbind option_bind].
  destruct (IH (with_stats inc_received g1) (reqs ++ new1)) as (g2 & new2 & Hg2 & H2 & Hc2);
    [apply (gr_pool _ _ _ _ H1)|apply (gr_queue _ _ _ _ H1)|].
  exists g2, (new1 ++ new2). split; [done|]. split; [|by rewrite Hc2 -Hc1].
  eapply grows_trans; [exact H1|]. destruct H2. by split.
Qed.

(** ** Rounds *)

(** The connections hold bytes only. *)
Definition bytes_ok g : Prop :=
  forall i c, connections_ g !! i = Some (Some c) -> Forall (fun x => u8 x) (ReadBuffer.contents (read_buf c)).

Definition event_bytes (e : TcpGateway.event) : Prop := Forall (Forall (fun x => u8 x)) (ev_chunks e).

Lemma until_eof_bytes chunks last :
  Forall (Forall (fun x => u8 x)) chunks -> Forall (fun x => u8 x) (concat (until_eof chunks last).1).
Proof using.
  induction 1 as [|c chunks Hc _ IH]; [constructor|]. cbn [until_eof]. destruct c as [|x c]; [constructor|].
  destruct (until_eof chunks last) as [cs l]. cbn [fst concat] in *. by apply Forall_app.
Qed.

Lemma remove_connection_grows fd g reqs :
  MemoryPool.ok (order_pool_ g) -> SPSCQueue.holds (queue g) reqs -> bytes_ok g ->
  grows reqs [] g (remove_connection fd g) /\ bytes_ok (remove_connection fd g).
Proof using.
  intros Hp Hq Hb. unfold remove_connection. destruct (in_range fd g); [|split; [by apply grows_refl|done]].
  split; [by apply grows_refl|]. intros i c. cbn [connections_ with_stats set_connections].
  intros [[_ [? _]]|[_ H]]%list_lookup_insert_Some; [done|]. by apply (Hb i).
Qed.

Lemma handle_client_data_grows fd chunks last g reqs :
  gateway_ok g -> bytes_ok g -> SPSCQueue.holds (queue g) reqs -> Forall (Forall (fun x => u8 x)) chunks ->
  exists g' new, handle_client_data steady_clock send_result fd chunks last g = Some g' /\ grows reqs new g g' /\
    bytes_ok g'.
Proof.
  intros Hok Hb Hq Hch. pose proof Hok as ((Hp & _) & _ & _).
  pose proof (grows_refl reqs g g Hq Hp eq_refl eq_refl eq_refl) as Hrefl.
  destruct (in_range fd g) eqn:Hr; [|unfold handle_client_data; rewrite Hr; by exists g, []].
  destruct (connections_ g !! Z.to_nat fd) as [[conn|]|] eqn:Hc.
  2,3: unfold handle_client_data; rewrite Hr Hc; by exists g, [].
  pose proof (handle_client_data_spec steady_clock send_result fd chunks last conn g Hok Hr Hc) as Hspec.
  pose proof (until_eof_bytes chunks last Hch) as Hcs.
  destruct (until_eof chunks last) as [cs l]. cbn [fst] in Hcs.
  destruct (parse_stream (ReadBuffer.contents (read_buf conn) ++ concat cs)) as [fs t] eqn:Ep.
  apply parse_bytes in Ep as [Hfs Ht]; [|apply Forall_app; split; [by eapply Hb|done]].
  destruct Hspec as (g1 & g2 & Hf & Hh & Ho).
  destruct (process_frames_grows conn fs g reqs Hfs Hp Hq) as (g1' & new & Hf' & Hg & Hcon).
  rewrite Hf in Hf'. injection Hf' as <-. exists g2, new. split; [done|].
  assert (bytes_ok g1) as Hb1 by (unfold bytes_ok; by rewrite Hcon).
  assert (g2 = remove_connection fd g1 -> grows reqs new g g2 /\ bytes_ok g2) as Hrem.
  { intros ->. destruct (remove_connection_grows fd g1 (reqs ++ new)) as [H1 H2];
      [apply (gr_pool _ _ _ _ Hg)|apply (gr_queue _ _ _ _ Hg)|done|].
    split; [|done]. rewrite -(app_nil_r new). by eapply grows_trans. }
  destruct t as [r|]; [destruct l|]; cbn [recv_outcome] in Ho; [|by apply Hrem..].
  destruct Ho as (b & _ & Hbr & ->). split; [destruct Hg; by split|].
  intros i c. cbn [connections_ set_connections].
  intros [[_ [[= <-] _]]|[_ H]]%list_lookup_insert_Some; [|by apply (Hb1 i)]. cbn [read_buf set_read_buf]. by rewrite Hbr.
Qed.

Lemma handle_events_grows events g reqs :
  gateway_ok g -> bytes_ok g -> SPSCQueue.holds (queue g) reqs -> Forall event_bytes events ->
  exists g' new, handle_events steady_clock send_result events g = Some g' /\ grows reqs new g g' /\
    gateway_ok g' /\ bytes_ok g'.
Proof.
  intros Hok Hb Hq He. revert g reqs Hok Hb Hq. induction He as [|e events Hev _ IH]; intros g reqs Hok Hb Hq.
  { exists g, []. split; [done|]. split; [|done]. apply grows_refl; try done. apply Hok. }
  cbn [handle_events].
  assert (exists g' new, handle_event steady_clock send_result e g = Some g' /\ grows reqs new g g' /\
    gateway_ok g' /\ bytes_ok g') as (g1 & new1 & -> & H1 & Hok1 & Hb1).
  { pose proof Hok as ((Hp & _) & _ & _). unfold handle_event. destruct (ev_error e).
    - destruct (remove_connection_grows (ev_fd e) g reqs Hp Hq Hb) as [H1 H2]. eexists _, [].
      split; [done|]. split; [done|]. split; [by apply remove_connection_ok|done].
    - destruct (ev_readable e); [|exists g, []; split; [done|]; split; [by apply grows_refl|done]].
      destruct (handle_client_data_grows (ev_fd e) (ev_chunks e) (ev_last e) g reqs Hok Hb Hq Hev)
        as (g' & new & Hh & Hg & Hb').
      destruct (handle_client_data_ok steady_clock send_result (ev_fd e) (ev_chunks e) (ev_last e) g Hok) as (g'' & Hh' & Hok').
      rewrite Hh in Hh'. injection Hh' as <-. by exists g', new. }
  cbn [mbind option_bind]. destruct (IH g1 (reqs ++ new1) Hok1 Hb1 (gr_queue _ _ _ _ H1)) as (g2 & new2 & -> & H2 & Hok2 & Hb2).
  exists g2, (new1 ++ new2). split; [done|]. split; [by eapply grows_trans|done].
Qed.

Lemma worker_round_grows events g reqs :
  gateway_ok g -> bytes_ok g -> SPSCQueue.holds (queue g) reqs -> Forall event_bytes events ->
  exists g' new, worker_round steady_clock send_result events g = Some g' /\ grows reqs new g g' /\
    gateway_ok g' /\ bytes_ok g'.
Proof.
  intros Hok Hb Hq He. unfold worker_round.
  destruct (handle_events_grows events g reqs Hok Hb Hq He) as (g' & new & -> & Hg & Hok' & Hb').
  cbn [mbind option_bind]. exists (maybe_flush_stats g'), new. split; [done|].
  unfold maybe_flush_stats. destruct (_ && _); [|done]. split; [destruct Hg; by split|]. split; [exact Hok'|exact Hb'].
Qed.

End gateway.
