(* ===== verification/Main.v ===== *)
(** * The running program (src/main.cpp)

    [run_exchange] builds the exchange, gives its risk manager and its order
    pool to the TCP gateway and its market data queue to the UDP publisher, and
    starts all of them under a [StartupGuard].  Here the components are joined
    to one state, [sys].  What they share is stored once, in the exchange:
    [gateway_view] and [publisher_view] give the gateway and the publisher the
    current contents, [put_gateway] and [put_publisher] take them back; all
    readings of the clock draw on one counter.

    The threads are interleaved at the granularity of their rounds: [action] is
    one round of one of the threads (the acceptor and the worker of the gateway,
    the risk manager, the engines, the publisher, the HTTP server and the
    collector of the metrics), and [main_step] is the next stop call of the main
    thread.  A round is one step: races inside a round, which the atomics and
    queues of the components are there for, are the subject of SpscQueue.v,
    MpmcThreads.v, PoolThreads.v and WorkThreads.v.  Whether the sockets could be
    set up is the argument [ready] of the start.  [None] is the end of the process:
    undefined behaviour, a failed assertion, or [SIGPIPE]. *)

From S2P Require Import Prelude Types MemoryPool MpmcQueue MatchingEngine RiskManager MemorySafety InputValidation.
From S2P Require Import TcpGateway UdpPublisher Exchange Logger HttpServer Metrics Monitoring.
From Stdlib Require Import String.

(** ** Log levels: [parse_log_level] *)

Definition level_map : list (cstring * LogLevel) :=
  [(cstr "DEBUG", DEBUG); (cstr "INFO", INFO); (cstr "WARN", WARN); (cstr "ERROR", ERROR)].
Definition parse_log_level (level_str : cstring) : LogLevel :=
  let normalized := toupper <$> level_str in
  match find (fun e => bool_decide (fst e = normalized)) level_map with
  | Some (_, level) => level
  | None => INFO
  end.

(** ** The components of [run_exchange] *)

(** Where the main thread is: in [wait_for_shutdown], in the join of the HTTP
    thread, or behind one of the stop calls of phase 5. *)
Inductive main_pc := Serving | JoiningHttp | MonitoringDown | PublisherDown | GatewayDown | ExchangeDown.

#[export] Instance main_pc_eq_dec : EqDecision main_pc.
Proof. solve_decision. Defined.

Record sys := mkSys {
  exch : Exchange.t;
  gateway : TcpGateway.t Exchange.engine;
  udp_publisher : UdpPublisher.t;
  monitoring : Monitoring.t;
  main_at : main_pc
}.

Definition set_exch ex σ : sys := mkSys ex (gateway σ) (udp_publisher σ) (monitoring σ) (main_at σ).
Definition set_monitoring m σ : sys := mkSys (exch σ) (gateway σ) (udp_publisher σ) m (main_at σ).
Definition set_main pc σ : sys := mkSys (exch σ) (gateway σ) (udp_publisher σ) (monitoring σ) pc.

Definition monitoring_running σ : bool := Monitoring.running (monitoring σ).

(** The gateway with the exchange's risk manager and pool. *)
Definition gateway_view σ : TcpGateway.t Exchange.engine :=
  let g := gateway σ in
  TcpGateway.mk (Exchange.risk_manager_ (exch σ)) (Exchange.order_pool_ (exch σ)) (TcpGateway.connections_ g)
    (TcpGateway.local_stats_ g) (TcpGateway.stats_atomic_ g) (TcpGateway.running_ g) (Exchange.ticks (exch σ))
    (TcpGateway.outbox g).
Definition put_gateway (g : TcpGateway.t Exchange.engine) σ : sys :=
  let ex := exch σ in
  mkSys (Exchange.mk (Exchange.config_ ex) (Exchange.state_ ex) (TcpGateway.order_pool_ g)
           (TcpGateway.risk_manager_ g) (Exchange.market_data_queue_ ex) (TcpGateway.ticks g))
    g (udp_publisher σ) (monitoring σ) (main_at σ).

(** The publisher with the exchange's market data queue. *)
Definition publisher_view σ : UdpPublisher.t :=
  let u := udp_publisher σ in
  UdpPublisher.mk (Exchange.market_data_queue_ (exch σ)) (UdpPublisher.running_ u) (UdpPublisher.socket_open u)
    (UdpPublisher.messages_sent u) (UdpPublisher.next_sequence u) (UdpPublisher.stats_messages_sent u)
    (Exchange.ticks (exch σ)) (UdpPublisher.sends u) (UdpPublisher.wire u).
Definition put_publisher (u : UdpPublisher.t) σ : sys :=
  let ex := exch σ in
  mkSys (Exchange.mk (Exchange.config_ ex) (Exchange.state_ ex) (Exchange.order_pool_ ex)
           (Exchange.risk_manager_ ex) (UdpPublisher.input_queue_ u) (UdpPublisher.ticks u))
    (gateway σ) u (monitoring σ) (main_at σ).

(** ** StartupGuard *)

Module StartupGuard.

Definition rollback : Type := sys -> option sys.
Definition t : Type := list rollback.

Definition make : t := [].
Definition add (r : rollback) (guard : t) : t := guard ++ [r].
Definition commit (_ : t) : t := [].

(** The destructor runs the actions from the last to the first. *)
Definition destroy (guard : t) (σ : sys) : option sys :=
  foldl (fun σ (r : rollback) => σ ← σ; r σ) (Some σ) (rev guard).

End StartupGuard.

Section run.
Variable steady_clock : nat -> Timestamp.
Variable iteration : gset cstring -> list cstring.
Variable gateway_send : nat -> Z.
Variable publisher_send : nat -> nat -> Z.

(** ** Stopping the components *)

(** [monitoring.stop()] up to the join of the HTTP thread, and the join: the state
    is unchanged while the thread has not returned. *)
Definition begin_stop_monitoring σ : sys := set_monitoring (Monitoring.begin_stop (monitoring σ)) σ.
Definition join_http σ : option sys := m ← Monitoring.join_http (monitoring σ); Some (set_monitoring m σ).
Definition stop_publisher σ : option sys := Some (put_publisher (UdpPublisher.stop (publisher_view σ)) σ).
Definition stop_gateway σ : option sys := Some (put_gateway (TcpGateway.stop (gateway_view σ)) σ).
Definition stop_exchange σ : option sys :=
  ex ← Exchange.stop steady_clock iteration (exch σ); Some (set_exch ex σ).

(** Phase 5 of [run_exchange], one stop call after the other. *)
Definition main_step σ : option sys :=
  match main_at σ with
  | Serving => Some (set_main JoiningHttp (begin_stop_monitoring σ))
  | JoiningHttp => Some (match join_http σ with Some σ => set_main MonitoringDown σ | None => σ end)
  | MonitoringDown => σ ← stop_publisher σ; Some (set_main PublisherDown σ)
  | PublisherDown => σ ← stop_gateway σ; Some (set_main GatewayDown σ)
  | GatewayDown => σ ← stop_exchange σ; Some (set_main ExchangeDown σ)
  | ExchangeDown => Some σ
  end.

(** [monitoring.stop()] as a rollback; the guard is committed right after it was
    registered. *)
Definition stop_monitoring σ : option sys :=
  let σ := begin_stop_monitoring σ in Some (default σ (join_http σ)).

(** ** Phases 1 and 2 of [run_exchange] *)

(** [Aborted what σ]: an exception left [run_exchange]; [σ] is the state after
    the guard ran, if the exchange had been constructed and started. *)
Inductive startup := Started (σ : sys) | Aborted (what : string) (σ : option sys) | Crashed.

Definition unwind (what : string) (guard : StartupGuard.t) σ : startup :=
  match StartupGuard.destroy guard σ with
  | Some σ => Aborted what (Some σ)
  | None => Crashed
  end.

(** Whether the sockets of the gateway and of the publisher can be set up, and
    what [socket], [bind] and [listen] answer to the HTTP server. *)
Record readiness := mkReady {
  gateway_ready : bool;
  publisher_ready : bool;
  http_socket : Z;
  http_bind : bool;
  http_listen : bool
}.

Definition run_startup (ready : readiness) (config_ptr : option Config) : startup :=
  match Exchange.make iteration config_ptr with
  | Throws what => Aborted what None
  | Undefined => Crashed
  | Done ex =>
      let guard := StartupGuard.make in
      match Exchange.start iteration ex with
      | Throws what => Aborted what None
      | Undefined => Crashed
      | Done ex =>
          let guard := StartupGuard.add stop_exchange guard in
          let gateway := TcpGateway.make (Exchange.risk_manager_ ex) (Exchange.order_pool_ ex) in
          let udp_publisher := UdpPublisher.make (Exchange.market_data_queue_ ex) in
          match TcpGateway.start (gateway_ready ready) gateway with
          | inl what => unwind what guard (mkSys ex gateway udp_publisher Monitoring.make Serving)
          | inr gateway =>
              let guard := StartupGuard.add stop_gateway guard in
              let udp_publisher := UdpPublisher.start (publisher_ready ready) udp_publisher in
              let guard := StartupGuard.add stop_publisher guard in
              let monitoring :=
                Monitoring.start (http_socket ready) (http_bind ready) (http_listen ready) Monitoring.make in
              let σ := mkSys ex gateway udp_publisher monitoring Serving in
              let guard := StartupGuard.add stop_monitoring guard in
              let guard := StartupGuard.commit guard in
              match StartupGuard.destroy guard σ with
              | Some σ => Started σ
              | None => Crashed
              end
          end
      end
  end.

(** ** The threads *)

Inductive action :=
  | Accept (client_fd : Z)
  | GatewayRound (events : list TcpGateway.event)
  | RiskRound
  | EngineRound (symbol : cstring)
  | PublisherRound
  | HttpAccepts (client_fd : Z)
  | HttpReceives (d : Monitoring.delivery)
  | MetricsRound.

Definition perform (a : action) σ : option sys :=
  match a with
  | Accept fd =>
      Some (if TcpGateway.running_ (gateway σ)
            then put_gateway (TcpGateway.accept_connection steady_clock fd (gateway_view σ)) σ else σ)
  | GatewayRound events =>
      if TcpGateway.running_ (gateway σ)
      then g ← TcpGateway.worker_round steady_clock gateway_send events (gateway_view σ); Some (put_gateway g σ)
      else Some σ
  | RiskRound => ex ← Exchange.risk_round steady_clock (exch σ); Some (set_exch ex σ)
  | EngineRound sym => ex ← Exchange.engine_round steady_clock sym (exch σ); Some (set_exch ex σ)
  | PublisherRound =>
      if UdpPublisher.running_ (udp_publisher σ)
      then u ← UdpPublisher.worker_round steady_clock publisher_send (publisher_view σ); Some (put_publisher u σ)
      else Some σ
  | HttpAccepts fd => Some (set_monitoring (Monitoring.http_accept fd (monitoring σ)) σ)
  | HttpReceives d => m ← Monitoring.http_receive d (monitoring σ); Some (set_monitoring m σ)
  | MetricsRound => Some (set_monitoring (Monitoring.metrics_round (monitoring σ)) σ)
  end.

(** A step of the program: a round of a thread, or the main thread going on with
    the shutdown. *)
Inductive step := Thread (a : action) | MainThread.
Definition move (s : step) σ : option sys :=
  match s with Thread a => perform a σ | MainThread => main_step σ end.
Definition moves (steps : list step) σ : option sys := foldl (fun σ s => σ ← σ; move s σ) (Some σ) steps.

End run.
