(* ===== verification/ExchangeInv.v ===== *)
(** * The invariant of the running exchange

    Every order slot has one holder: it waits in the risk queue, waits in the
    queue of one engine, or rests in the book of one engine.  [sys_inv] states
    this over the shared pool, the risk manager with its engines and the market
    data queue, together with the bounds that keep the 32-bit cursors and the
    queue positions from overflowing: [n] counts the requests that entered the
    system.  The lemmas show that a request handled by the risk manager and a
    batch processed by an engine preserve it. *)

From S2P Require Import Prelude Types MemoryPool OrderPool OrderBook OrderBookInv OrderBookTheorems.
From S2P Require Import SpscQueue MpmcQueue MatchingEngine EngineTheorems RiskManager RiskTheorems.
From S2P Require Import TcpGateway Exchange SystemFrames GatewayFrames.

Abbreviation engine := (MatchingEngine.t (MemoryPool.t Order)).
Abbreviation env := (OrderBook.env (MemoryPool.t Order) Ctx).

(** ** Engines on a shared pool *)

(** The book of an engine, over the shared pool. *)
Definition engine_env (p : MemoryPool.t Order) (m : engine) : env :=
  OrderBook.with_pool p (MatchingEngine.book_ m).

(** The slots an engine holds: those of the waiting requests and the resting ones. *)
Definition engine_ptrs (reqs : list OrderRequest) (m : engine) : list nat :=
  new_ptrs reqs ++ all_ptrs (OrderBook.book (MatchingEngine.book_ m)).

Lemma engine_ok_ext ps (e e' : env) :
  OrderBook.book e' = OrderBook.book e -> OrderBook.pool e' = OrderBook.pool e -> engine_ok ps e -> engine_ok ps e'.
Proof. intros Hb Hp [[] []]. split; split; by rewrite ?Hb ?Hp. Qed.

(** Another pool that agrees on the slots of the engine. *)
Lemma engine_ok_agree ps (e : env) p' :
  engine_ok ps e -> MemoryPool.ok p' ->
  (forall i, i ∈ ps ++ all_ptrs (OrderBook.book e) ->
     MemoryPool.deref p' i = MemoryPool.deref (OrderBook.pool e) i /\
     (MemoryPool.owned (OrderBook.pool e) i -> MemoryPool.owned p' i)) ->
  engine_ok ps (OrderBook.with_pool p' e).
Proof.
  intros [Hinv [H1 H2 H3 H4 H5]] Hok Ha. split.
  - apply inv_with_pool; [done| |done]. intros i Hi. apply Ha, elem_of_app. by right.
  - split; [done| |done| |done].
    + intros i Hi. apply Ha; [apply elem_of_app; by left|by apply H2].
    + intros i o Hi Ho. apply (H4 i o Hi). etransitivity; [|exact Ho]. symmetry.
      apply Ha, elem_of_app. by left.
Qed.

(** One more waiting order. *)
Lemma engine_ok_push ps a (e : env) :
  engine_ok ps e -> MemoryPool.owned (OrderBook.pool e) a -> a ∉ ps ++ all_ptrs (OrderBook.book e) ->
  (forall o, MemoryPool.deref (OrderBook.pool e) a = Some o -> order_in_range o) ->
  Z.of_nat (book_weight (OrderBook.book e) + length ps) + 1 < 2 ^ 32 -> engine_ok (ps ++ [a]) e.
Proof.
  intros [Hinv [H1 H2 H3 H4 H5]] Ho [Hn1 Hn2]%not_elem_of_app Hr Hw. split; [done|]. split.
  - apply NoDup_app. split_and!; [done| |apply NoDup_singleton]. intros i Hi ->%list_elem_of_singleton. done.
  - intros i [Hi| ->%list_elem_of_singleton]%elem_of_app; [by apply H2|done].
  - intros i [Hi| ->%list_elem_of_singleton]%elem_of_app; [by apply H3|done].
  - intros i o [Hi| ->%list_elem_of_singleton]%elem_of_app; [by apply H4|apply Hr].
  - rewrite length_app. cbn [length]. lia.
Qed.

(** ** Requests waiting in all engines *)

Definition upd {A} (f : cstring -> A) (k : cstring) (x : A) : cstring -> A :=
  fun j => if decide (j = k) then x else f j.

Lemma upd_eq {A} (f : cstring -> A) k x : upd f k x k = x.
Proof. unfold upd. by rewrite decide_True. Qed.
Lemma upd_ne {A} (f : cstring -> A) k x j : j <> k -> upd f k x j = f j.
Proof. intros. unfold upd. by rewrite decide_False. Qed.

Definition total (ks : gset cstring) (f : cstring -> list OrderRequest) : nat :=
  sum_list_with (fun k => length (f k)) (elements ks).

Lemma total_upd ks f k x : k ∈ ks -> (total ks (upd f k x) + length (f k) = total ks f + length x)%nat.
Proof.
  unfold total. rewrite -elem_of_elements. pose proof (NoDup_elements ks) as Hnd. revert Hnd.
  assert (forall l, k ∉ l -> sum_list_with (fun j => length (upd f k x j)) l = sum_list_with (fun j => length (f j)) l) as Hne.
  { induction l as [|j l IH]; intros Hk; [done|]. cbn [sum_list_with].
    rewrite IH; [set_solver|]. rewrite upd_ne; [set_solver|done]. }
  induction (elements ks) as [|j l IH]; [by intros _ ?%not_elem_of_nil|].
  intros [Hj Hnd]%NoDup_cons [->|Hin]%elem_of_cons; cbn [sum_list_with].
  - rewrite upd_eq (Hne l Hj). lia.
  - rewrite upd_ne; [by intros ->|]. specialize (IH Hnd Hin). lia.
Qed.

(** ** The invariant *)

(** [rreqs] waits in the risk queue, [ereqs k] in the queue of the engine of [k];
    [live] says for every engine whether its worker runs. *)
Record sys_inv (live : gmap cstring bool) (p : MemoryPool.t Order) (r : RiskManager.t engine) (q : MPMCQueue.t MarketDataEvent)
    (rreqs : list RiskRequest) (ereqs : cstring -> list OrderRequest) (n : Z) : Prop := {
  si_pool : MemoryPool.ok p;
  si_nodup : NoDup (risk_ptrs rreqs);
  si_owned i : i ∈ risk_ptrs rreqs ->
    MemoryPool.owned p i /\ forall o, MemoryPool.deref p i = Some o -> order_in_range o;
  si_queue k m : RiskManager.matching_engines_ r !! k = Some m ->
    SPSCQueue.holds (MatchingEngine.input_queue_ m) (ereqs k);
  si_engine k m : RiskManager.matching_engines_ r !! k = Some m ->
    engine_ok (new_ptrs (ereqs k)) (engine_env p m);
  si_risk_apart k m i : RiskManager.matching_engines_ r !! k = Some m ->
    i ∈ risk_ptrs rreqs -> i ∉ engine_ptrs (ereqs k) m;
  si_apart k1 k2 m1 m2 i : k1 <> k2 -> RiskManager.matching_engines_ r !! k1 = Some m1 ->
    RiskManager.matching_engines_ r !! k2 = Some m2 ->
    i ∈ engine_ptrs (ereqs k1) m1 -> i ∉ engine_ptrs (ereqs k2) m2;
  si_running : MatchingEngine.running_ <$> RiskManager.matching_engines_ r = live;
  si_weight k m : RiskManager.matching_engines_ r !! k = Some m ->
    Z.of_nat (book_weight (OrderBook.book (MatchingEngine.book_ m)) + length (new_ptrs (ereqs k)) +
              length (risk_ptrs rreqs)) <= n;
  si_pending : Z.of_nat (length rreqs + total (dom (RiskManager.matching_engines_ r)) ereqs) <= n;
  si_md : md_ok ((n - Z.of_nat (length rreqs + total (dom (RiskManager.matching_engines_ r)) ereqs)) * 2 ^ 32) q;
  si_bound : n < 2 ^ 30;
  si_accounts : accounts_ok (RiskManager.mkst r p 0);
  si_prices : RiskManager.reference_prices_ r = ∅
}.

Lemma md_ok_mono B B' q : B <= B' -> md_ok B q -> md_ok B' q.
Proof. intros HB (D & E & xs & Hr & HE & Hc). exists D, E, xs. split; [done|]. lia. Qed.

(** The invariant looks at the engines, the accounts and the prices only. *)
Lemma sys_inv_risk {live} p r r' q rreqs ereqs n :
  RiskManager.matching_engines_ r' = RiskManager.matching_engines_ r ->
  RiskManager.reference_prices_ r' = RiskManager.reference_prices_ r ->
  accounts_ok (RiskManager.mkst r' p 0) -> sys_inv live p r q rreqs ereqs n -> sys_inv live p r' q rreqs ereqs n.
Proof. intros He Hp Ha []. split; rewrite ?He ?Hp; done. Qed.

(** The invariant does not see the queue, the counters and the flag. *)
Lemma sys_inv_eq {live} p r r' q rreqs ereqs n :
  RiskManager.matching_engines_ r' = RiskManager.matching_engines_ r ->
  RiskManager.reference_prices_ r' = RiskManager.reference_prices_ r ->
  RiskManager.max_notional_scaled_ r' = RiskManager.max_notional_scaled_ r ->
  RiskManager.symbol_configs_ r' = RiskManager.symbol_configs_ r ->
  RiskManager.client_states_ r' = RiskManager.client_states_ r ->
  sys_inv live p r q rreqs ereqs n -> sys_inv live p r' q rreqs ereqs n.
Proof.
  intros H1 H2 H3 H4 H5 Hinv. eapply sys_inv_risk; [done|done| |done].
  destruct (si_accounts _ _ _ _ _ _ _ Hinv) as (A1 & A2 & A3). unfold accounts_ok, collars_ok, exposure, client_of in *.
  cbn in *. by rewrite H3 H4 H5.
Qed.

(** A request that leaves the risk queue without reaching an engine. *)
Lemma sys_inv_drop {live} p r q req rreqs ereqs n :
  sys_inv live p r q (req :: rreqs) ereqs n -> sys_inv live p r q rreqs ereqs n.
Proof.
  intros [H1 H2 H3 H4 H5 H6 H7 HL H8 H9 H10 H11 H12 H13]. cbn [length] in *.
  assert (forall i, i ∈ risk_ptrs rreqs -> i ∈ risk_ptrs (req :: rreqs)) as Hin.
  { intros i Hi. rewrite (risk_ptrs_app [req]). apply elem_of_app. by right. }
  assert (length (risk_ptrs rreqs) <= length (risk_ptrs (req :: rreqs)))%nat as Hl.
  { rewrite (risk_ptrs_app [req]) length_app. lia. }
  split; try done.
  - rewrite (risk_ptrs_app [req]) in H2. by apply NoDup_app in H2 as (_ & _ & H2).
  - eauto.
  - eauto.
  - intros k m Hk. specialize (H8 k m Hk). lia.
  - lia.
  - eapply md_ok_mono; [|exact H10]. lia.
Qed.

(** Marking an order that waits in the risk queue. *)
Lemma sys_inv_mark {live} p r q rreqs ereqs n a o status :
  a ∈ risk_ptrs rreqs -> MemoryPool.deref p a = Some o ->
  sys_inv live p r q rreqs ereqs n -> sys_inv live (MemoryPool.store a (set_status status o) p) r q rreqs ereqs n.
Proof.
  intros Ha Ho [H1 H2 H3 H4 H5 H6 H7 HL H8 H9 H10 H11 H12 H13].
  assert (MemoryPool.ok (MemoryPool.store a (set_status status o) p)) as Hok.
  { destruct H1 as [fl Hfl]. exists fl. by apply MemoryPool.store_free_list. }
  split; try done.
  - intros i Hi. destruct (H3 i Hi) as [Hw Hr]. split; [done|]. intros o' Ho'.
    destruct (decide (a = i)) as [<-|Hne].
    + change (deref (store a (set_status status o) p) a = Some o') in Ho'.
      rewrite deref_store_eq in Ho'; [by exists o|]. injection Ho' as <-. exact (Hr o Ho).
    + change (deref (store a (set_status status o) p) i = Some o') in Ho'.
      rewrite deref_store_ne in Ho'; [done|]. by apply Hr.
  - intros k m Hk. apply (engine_ok_agree _ (engine_env p m) (MemoryPool.store a (set_status status o) p));
      [by apply H5|done|].
    intros i Hi. split; [|done]. assert (a <> i) as Hne by (intros <-; exact (H6 k m a Hk Ha Hi)).
    exact (deref_store_ne p a i _ Hne).
Qed.

(** ** Handing a request to an engine *)

Lemma sys_inv_submit {live} p r q req rreqs ereqs n k m m' request :
  sys_inv live p r q (req :: rreqs) ereqs n -> RiskManager.matching_engines_ r !! k = Some m ->
  handed_over request m m' -> new_ptrs [request] = risk_ptrs [req] ->
  exists ereqs', sys_inv live p (RiskManager.set_engines (<[k := m']> (RiskManager.matching_engines_ r)) r) q rreqs ereqs' n.
Proof.
  intros Hinv Hk [Hb Hrun Hq] Hsame. set (r' := RiskManager.set_engines _ r).
  destruct Hinv as [H1 H2 H3 H4 H5 H6 H7 HL H8 H9 H10 H11 H12 H13]. rewrite (risk_ptrs_app [req]) -Hsame in H2 H3 H6 H8.
  apply NoDup_app in H2 as (Hnd1 & Hnd2 & Hnd3).
  assert (exists extra, (extra = [] \/ extra = [request]) /\ SPSCQueue.holds (MatchingEngine.input_queue_ m') (ereqs k ++ extra))
    as (extra & Hex & Hh).
  { destruct (Hq _ (H4 k m Hk)); [exists []; rewrite app_nil_r|exists [request]]; auto. }
  assert (forall i, i ∈ new_ptrs extra -> i ∈ new_ptrs [request]) as Hsub by (destruct Hex; subst; set_solver).
  assert (length (new_ptrs extra) <= length (new_ptrs [request]) /\ length extra <= 1)%nat as [Hl1 Hl2].
  { destruct Hex; subst; simpl; split; lia. }
  assert (forall k' m1, RiskManager.matching_engines_ r' !! k' = Some m1 ->
    exists m0, RiskManager.matching_engines_ r !! k' = Some m0 /\
      OrderBook.book (MatchingEngine.book_ m1) = OrderBook.book (MatchingEngine.book_ m0) /\ (k' <> k -> m1 = m0) /\ (k' = k -> m1 = m')) as Hold.
  { intros k' m1. cbn. rewrite lookup_insert_Some. intros [[<- <-]|[Hne Hk']]; [by exists m|]. exists m1. naive_solver. }
  assert (forall k' m1 m0 i, OrderBook.book (MatchingEngine.book_ m1) = OrderBook.book (MatchingEngine.book_ m0) ->
    i ∈ engine_ptrs (upd ereqs k (ereqs k ++ extra) k') m1 -> i ∈ engine_ptrs (ereqs k') m0 \/ (k' = k /\ i ∈ new_ptrs [request])) as Hptrs.
  { intros k' m1 m0 i Hbk. unfold engine_ptrs. rewrite Hbk. destruct (decide (k' = k)) as [->|Hne]; [|rewrite upd_ne; auto].
    rewrite upd_eq new_ptrs_app !elem_of_app. naive_solver. }
  assert (dom (RiskManager.matching_engines_ r') = dom (RiskManager.matching_engines_ r)) as Hdom.
  { cbn. rewrite dom_insert_L. apply elem_of_dom_2 in Hk. set_solver. }
  pose proof (total_upd (dom (RiskManager.matching_engines_ r)) ereqs k (ereqs k ++ extra) ltac:(by eapply elem_of_dom_2)) as Htot.
  rewrite length_app in Htot. cbn [length] in H9, H10.
  exists (upd ereqs k (ereqs k ++ extra)). split; try done.
  - intros i Hi. apply H3, elem_of_app. by right.
  - intros k' m1 Hk'. destruct (Hold k' m1 Hk') as (m0 & H0 & Hbk & Hne & Heq).
    destruct (decide (k' = k)) as [->|Hd]; [rewrite upd_eq Heq //|rewrite upd_ne // Hne //; by apply H4].
  - intros k' m1 Hk'. destruct (Hold k' m1 Hk') as (m0 & H0 & Hbk & _).
    pose proof (H5 k' m0 H0) as Hok. apply (engine_ok_ext _ (engine_env p m0)); [done|done|].
    destruct (decide (k' = k)) as [->|Hd]; [|by rewrite upd_ne]. rewrite upd_eq new_ptrs_app.
    destruct Hex as [->| ->]; [by rewrite app_nil_r|]. destruct request as [[a|]|]; [|by rewrite app_nil_r..].
    pose proof (H8 k m0 H0) as Hw. cbn in Hw.
    apply engine_ok_push; [done|apply H3; left|apply (H6 k m0 a H0); left|apply H3; left|].
    cbn [OrderBook.with_pool engine_env OrderBook.book]. change (2 ^ 32) with 4294967296. change (2 ^ 30) with 1073741824 in H11. lia.
  - intros k' m1 i Hk' Hi. destruct (Hold k' m1 Hk') as (m0 & H0 & Hbk & _). intros Hin.
    destruct (Hptrs k' m1 m0 i Hbk Hin) as [Ho|[_ Ho]]; [|exact (Hnd2 i Ho Hi)].
    apply (H6 k' m0 i H0); [|done]. apply elem_of_app. by right.
  - intros k1 k2 m1 m2 i Hne Hk1 Hk2 Hi1 Hi2.
    destruct (Hold k1 m1 Hk1) as (n1 & Hn1 & Hb1 & _), (Hold k2 m2 Hk2) as (n2 & Hn2 & Hb2 & _).
    destruct (Hptrs k1 m1 n1 i Hb1 Hi1) as [Ho1|[E1 Ho1]], (Hptrs k2 m2 n2 i Hb2 Hi2) as [Ho2|[E2 Ho2]].
    + exact (H7 k1 k2 n1 n2 i Hne Hn1 Hn2 Ho1 Ho2).
    + apply (H6 k1 n1 i Hn1); [apply elem_of_app; by left|done].
    + apply (H6 k2 n2 i Hn2); [apply elem_of_app; by left|done].
    + congruence.
  - cbn. rewrite fmap_insert Hrun insert_id; [by rewrite lookup_fmap Hk|done].
  - intros k' m1 Hk'. destruct (Hold k' m1 Hk') as (m0 & H0 & Hbk & _). specialize (H8 k' m0 H0).
    rewrite length_app in H8. rewrite Hbk. destruct (decide (k' = k)) as [->|Hd].
    + rewrite upd_eq new_ptrs_app length_app. lia.
    + rewrite upd_ne //. lia.
  - rewrite Hdom. lia.
  - rewrite Hdom. eapply md_ok_mono; [|exact H10]. lia.
Qed.

(** ** A batch of an engine *)

Lemma sys_inv_progress {live} p r q rreqs ereqs n k m m0 m' finished rest :
  sys_inv live p r q rreqs ereqs n -> RiskManager.matching_engines_ r !! k = Some m -> ereqs k = finished ++ rest ->
  OrderBook.book (MatchingEngine.book_ m0) = OrderBook.book (MatchingEngine.book_ m) ->
  OrderBook.pool (MatchingEngine.book_ m0) = p ->
  MatchingEngine.market_data_queue_ (OrderBook.ctx (MatchingEngine.book_ m0)) = md_queue q ->
  engine_progress finished rest m0 m' ->
  exists q', MatchingEngine.market_data_queue_ (OrderBook.ctx (MatchingEngine.book_ m')) = md_queue q' /\
    sys_inv (<[k := MatchingEngine.running_ m']> live) (OrderBook.pool (MatchingEngine.book_ m'))
      (RiskManager.set_engines (<[k := m']> (RiskManager.matching_engines_ r)) r) q' rreqs (upd ereqs k rest) n.
Proof.
  intros Hinv Hk Hreqs Hb0 Hp0 Hmd [Hq Hok [F1 F2 F3] Hpub]. rewrite Hb0 Hp0 in F1 F2 F3.
  destruct Hinv as [H1 H2 H3 H4 H5 H6 H7 HL H8 H9 H10 H11 H12 H13].
  set (r' := RiskManager.set_engines _ r). set (p' := OrderBook.pool (MatchingEngine.book_ m')) in *.
  assert (forall i, i ∉ engine_ptrs (ereqs k) m -> untouched p p' i) as Hun.
  { intros i [Hn1 Hn2]%not_elem_of_app. apply F1; [done|]. rewrite Hreqs new_ptrs_app in Hn1. set_solver. }
  assert (forall i, i ∈ engine_ptrs rest m' -> i ∈ engine_ptrs (ereqs k) m) as Hsub.
  { intros i [Hi|Hi]%elem_of_app; apply elem_of_app; rewrite Hreqs new_ptrs_app elem_of_app; [tauto|].
    apply F2 in Hi as [Hi|Hi]; tauto. }
  assert (forall k' m1, RiskManager.matching_engines_ r' !! k' = Some m1 ->
    (k' = k /\ m1 = m') \/ (k' <> k /\ RiskManager.matching_engines_ r !! k' = Some m1)) as Hold.
  { intros k' m1. cbn. rewrite lookup_insert_Some. naive_solver. }
  assert (forall k' m1 i, RiskManager.matching_engines_ r' !! k' = Some m1 -> i ∈ engine_ptrs (upd ereqs k rest k') m1 ->
    exists m2, RiskManager.matching_engines_ r !! k' = Some m2 /\ i ∈ engine_ptrs (ereqs k') m2) as Hptrs.
  { intros k' m1 i [[-> ->]|[Hne Hk']]%Hold; [rewrite upd_eq|rewrite upd_ne //]; eauto. }
  assert (dom (RiskManager.matching_engines_ r') = dom (RiskManager.matching_engines_ r)) as Hdom.
  { cbn. rewrite dom_insert_L. apply elem_of_dom_2 in Hk. set_solver. }
  pose proof (total_upd (dom (RiskManager.matching_engines_ r)) ereqs k rest ltac:(by eapply elem_of_dom_2)) as Htot.
  rewrite Hreqs length_app in Htot.
  change (2 ^ 30) with 1073741824 in H11.
  destruct (published_md_ok _ _ _ _ _ Hpub Hmd H10) as (q' & Hq' & Hok').
  { change (2 ^ 33) with 8589934592. change (2 ^ 32) with 4294967296. change (2 ^ 63) with 9223372036854775808. lia. }
  exists q'. split; [done|]. split; try done.
  - exact (inv_pool _ _ (proj1 Hok)).
  - intros i Hi. destruct (Hun i) as [Hd Hw]; [by apply (H6 k m)|]. destruct (H3 i Hi) as [Ho Hr].
    split; [by apply Hw|]. intros o Hio. apply Hr. etransitivity; [symmetry; exact Hd|exact Hio].
  - intros k' m1 [[-> ->]|[Hne Hk']]%Hold; [by rewrite upd_eq|rewrite upd_ne //; by apply H4].
  - intros k' m1 [[-> ->]|[Hne Hk']]%Hold; [rewrite upd_eq; by apply (engine_ok_ext _ (MatchingEngine.book_ m'))|].
    rewrite upd_ne //. apply (engine_ok_agree _ (engine_env p m1) p'); [by apply H5|exact (inv_pool _ _ (proj1 Hok))|].
    intros i Hi. destruct (Hun i) as [Hd Hw]; [by apply (H7 k' k m1 m i)|]. split; [exact Hd|apply Hw].
  - intros k' m1 i Hk' Hi Hin. destruct (Hptrs k' m1 i Hk' Hin) as (m2 & Hk2 & Hi2). by apply (H6 k' m2 i).
  - intros k1 k2 m1 m2 i Hne Hk1 Hk2 Hi1 Hi2.
    destruct (Hptrs k1 m1 i Hk1 Hi1) as (n1 & Hn1 & Hj1), (Hptrs k2 m2 i Hk2 Hi2) as (n2 & Hn2 & Hj2).
    by apply (H7 k1 k2 n1 n2 i).
  - cbn. by rewrite fmap_insert HL.
  - intros k' m1 [[-> ->]|[Hne Hk']]%Hold; [|rewrite upd_ne //; by apply H8]. rewrite upd_eq.
    specialize (H8 k m Hk). rewrite Hreqs new_ptrs_app length_app in H8. lia.
  - rewrite Hdom. lia.
  - rewrite Hdom. eapply md_ok_mono; [|exact Hok']. lia.
Qed.

(** ** A request of the risk manager *)

Section risk.
Variable steady_clock : nat -> Timestamp.
Implicit Types s : RiskManager.st (MemoryPool.t Order) engine.

(** What the worker does between two requests. *)
Inductive bookkeeping : (RiskManager.t engine -> RiskManager.t engine) -> Prop :=
  | bk_pop q : bookkeeping (RiskManager.set_queue q)
  | bk_count n : bookkeeping (fun r => RiskManager.set_stats (RiskManager.add_processed n (RiskManager.local_stats_ r)) r)
  | bk_flush : bookkeeping RiskManager.flush_stats
  | bk_stop : bookkeeping (RiskManager.set_running false).

(** The requests, decided one after the other and in this order. *)
Inductive decided : list RiskRequest -> RiskManager.st (MemoryPool.t Order) engine ->
    RiskManager.st (MemoryPool.t Order) engine -> Prop :=
  | decided_nil s : decided [] s s
  | decided_request req reqs s s1 s2 :
      RiskManager.dispatch steady_clock req s = Some s1 -> decided reqs s1 s2 -> decided (req :: reqs) s s2
  | decided_aside f reqs s s2 : bookkeeping f -> decided reqs (RiskManager.with_rm f s) s2 -> decided reqs s s2.

Lemma decided_app reqs1 reqs2 s s1 s2 : decided reqs1 s s1 -> decided reqs2 s1 s2 -> decided (reqs1 ++ reqs2) s s2.
Proof.
  induction 1 as [s|req reqs s s' s1' Hd _ IH|f reqs s s1' Hf _ IH]; intros H2; [done| |].
  - eapply decided_request; eauto.
  - eapply decided_aside; eauto.
Qed.

Lemma decided_then f reqs s s1 : bookkeeping f -> decided reqs s s1 -> decided reqs s (RiskManager.with_rm f s1).
Proof.
  intros Hf Hd. rewrite -(app_nil_r reqs). eapply decided_app; [exact Hd|]. eapply decided_aside; [exact Hf|constructor].
Qed.

(** What a round of the risk manager keeps: the queue, the prices, the worker. *)
Lemma risk_dispatch_inv {live} req rreqs ereqs q n s :
  sys_inv live (RiskManager.pool s) (RiskManager.rm s) q (req :: rreqs) ereqs n ->
  exists s' ereqs', RiskManager.dispatch steady_clock req s = Some s' /\
    sys_inv live (RiskManager.pool s') (RiskManager.rm s') q rreqs ereqs' n /\
    same_wiring (RiskManager.rm s) (RiskManager.rm s').
Proof.
  intros Hinv. pose proof (si_accounts _ _ _ _ _ _ _ Hinv) as Hacc.
  destruct req as [[a|]|i c]; cbn [RiskManager.dispatch].
  - assert (a ∈ risk_ptrs (RISK_NEW_ORDER (Some a) :: rreqs)) as Hin by left.
    destruct (si_owned _ _ _ _ _ _ _ Hinv a Hin) as [Hown Hr].
    destruct (MemoryPool.owned_in_range _ a (si_pool _ _ _ _ _ _ _ Hinv) Hown) as [o Ho].
    assert (deref (RiskManager.pool s) a = Some o) as Hd by exact Ho.
    destruct (process_new_order_total steady_clock a o s Hd) as (res & s' & Hs & _); [apply Hacc| |].
    { destruct Hacc as (Hl & _ & He). specialize (He (FixedString.c_str (client_id o))).
      change (exposure (RiskManager.mkst (RiskManager.rm s) (RiskManager.pool s) 0) (FixedString.c_str (client_id o)))
        with (exposure s (FixedString.c_str (client_id o))) in He. simpl in He, Hl. split; lia. }
    pose proof (new_order_accounts steady_clock (Some a) s _ s' Hacc Hs) as Hacc'.
    pose proof (process_new_order_looked_at steady_clock a o s _ s' Hd Hs) as [[status Hpool] Hw He].
    exists s'. rewrite Hs. pose proof (sys_inv_mark _ _ _ _ _ _ a o status Hin Ho Hinv) as Hm.
    rewrite Hpool. destruct Hw as (W1 & W2 & W3).
    destruct He as [He|(sym & x & x' & Hx & [ok Hsub] & He)].
    + exists ereqs. split; [done|]. split; [|done]. eapply sys_inv_risk; [exact He|exact W2|exact Hacc'|].
      by apply sys_inv_drop in Hm.
    + destruct (sys_inv_submit _ _ _ _ _ _ _ sym x x' (NEW_ORDER (Some a)) Hm Hx) as [ereqs' Hs'];
        [by eapply submit_handed_over|done|].
      exists ereqs'. split; [done|]. split; [|done]. refine (sys_inv_risk _ _ _ _ _ _ _ _ _ _ Hs'); [exact He|exact W2|exact Hacc'].
  - eexists _, ereqs. split; [reflexivity|]. split; [|done].
    apply (sys_inv_eq _ (RiskManager.rm s)); [done..|]. by apply sys_inv_drop in Hinv.
  - destruct (process_cancel_wiring i c s) as ((W1 & W2 & W3) & Hp & He).
    exists (RiskManager.process_cancel i c s). rewrite Hp.
    pose proof (dispatch_accounts steady_clock (RISK_CANCEL_ORDER i c) s _ Hacc eq_refl) as Hacc'.
    destruct He as [He|(sym & x & x' & Hx & -> & He)].
    + exists ereqs. split; [done|]. split; [|done]. eapply sys_inv_risk; [exact He|exact W2|exact Hacc'|].
      by apply sys_inv_drop in Hinv.
    + destruct (sink_cancel i c x) as [ok x'] eqn:Ec.
      destruct (sys_inv_submit _ _ _ _ _ _ _ sym x x' (CANCEL_ORDER i c) Hinv Hx) as [ereqs' Hs'];
        [by eapply submit_handed_over|done|].
      exists ereqs'. split; [done|]. split; [|done]. refine (sys_inv_risk _ _ _ _ _ _ _ _ _ _ Hs'); [exact He|exact W2|exact Hacc'].
Qed.

Lemma risk_drain_loop_inv {live} left count rreqs ereqs q n s :
  SPSCQueue.holds (RiskManager.input_queue_ (RiskManager.rm s)) rreqs ->
  sys_inv live (RiskManager.pool s) (RiskManager.rm s) q rreqs ereqs n ->
  let k := Nat.min left (length rreqs) in
  exists s' ereqs', RiskManager.drain_loop steady_clock left count s = Some ((count + k)%nat, s') /\
    decided (take k rreqs) s s' /\
    SPSCQueue.holds (RiskManager.input_queue_ (RiskManager.rm s')) (drop k rreqs) /\
    sys_inv live (RiskManager.pool s') (RiskManager.rm s') q (drop k rreqs) ereqs' n /\
    RiskManager.running_ (RiskManager.rm s') = RiskManager.running_ (RiskManager.rm s).
Proof.
  revert count rreqs ereqs s. induction left as [|left IH]; intros count rreqs ereqs s Hh Hinv k.
  { exists s, ereqs. simpl. rewrite Nat.add_0_r. split_and!; try done. constructor. }
  destruct Hh as (T0 & H & Hr). pose proof (SPSCQueue.pop_spec _ _ _ _ Hr) as Hp. cbn [RiskManager.drain_loop].
  destruct rreqs as [|req rreqs]; destruct Hp as (q' & Hq & Hr'); rewrite Hq; cbn [mbind option_bind].
  - exists (RiskManager.with_rm (RiskManager.set_queue q') s), ereqs. simpl. rewrite Nat.add_0_r.
    split_and!; [done|apply decided_then; constructor|by exists T0, H|by apply (sys_inv_eq _ (RiskManager.rm s))|done].
  - set (s1 := RiskManager.with_rm (RiskManager.set_queue q') s).
    assert (sys_inv live (RiskManager.pool s1) (RiskManager.rm s1) q (req :: rreqs) ereqs n) as Hinv1 by (by apply (sys_inv_eq _ (RiskManager.rm s))).
    destruct (risk_dispatch_inv req rreqs ereqs q n s1 Hinv1) as (s2 & ereqs2 & Hd & Hinv2 & (W1 & _ & W3)).
    cbv iota beta. rewrite Hd. cbn [mbind option_bind].
    destruct (IH (S count) rreqs ereqs2 s2) as (s3 & ereqs3 & Hl & Hd3 & Hh3 & Hinv3 & Hrun); [|done|].
    { rewrite W1. by exists (T0 + 1), H. }
    exists s3, ereqs3. subst k. cbn [length Nat.min drop take]. rewrite Hl.
    split_and!; [f_equal; f_equal; lia|eapply decided_aside; [apply (bk_pop q')|]; by eapply decided_request|done|done|].
    by rewrite Hrun W3.
Qed.

Lemma risk_drain_batch_inv {live} rreqs ereqs q n s :
  SPSCQueue.holds (RiskManager.input_queue_ (RiskManager.rm s)) rreqs ->
  sys_inv live (RiskManager.pool s) (RiskManager.rm s) q rreqs ereqs n ->
  let k := Nat.min RiskManager.RISK_BATCH_SIZE (length rreqs) in
  exists s' ereqs', RiskManager.drain_batch steady_clock s = Some (k, s') /\
    decided (take k rreqs) s s' /\
    SPSCQueue.holds (RiskManager.input_queue_ (RiskManager.rm s')) (drop k rreqs) /\
    sys_inv live (RiskManager.pool s') (RiskManager.rm s') q (drop k rreqs) ereqs' n /\
    RiskManager.running_ (RiskManager.rm s') = RiskManager.running_ (RiskManager.rm s).
Proof.
  intros Hh Hinv k. destruct (risk_drain_loop_inv RiskManager.RISK_BATCH_SIZE 0 rreqs ereqs q n s Hh Hinv)
    as (s' & ereqs' & Hd & Hdec & Hh' & Hinv' & Hrun).
  unfold RiskManager.drain_batch. rewrite Hd. cbn [mbind option_bind]. eexists _, ereqs'. split; [reflexivity|].
  split_and!; [apply (decided_then _ _ _ _ (bk_count _) Hdec)|done|by apply (sys_inv_eq _ (RiskManager.rm s'))|done].
Qed.

Lemma risk_round_inv {live} rreqs ereqs q n s :
  SPSCQueue.holds (RiskManager.input_queue_ (RiskManager.rm s)) rreqs ->
  sys_inv live (RiskManager.pool s) (RiskManager.rm s) q rreqs ereqs n ->
  exists s' rreqs' ereqs', RiskManager.run_round steady_clock s = Some s' /\
    SPSCQueue.holds (RiskManager.input_queue_ (RiskManager.rm s')) rreqs' /\
    sys_inv live (RiskManager.pool s') (RiskManager.rm s') q rreqs' ereqs' n /\
    RiskManager.running_ (RiskManager.rm s') = RiskManager.running_ (RiskManager.rm s).
Proof.
  intros Hh Hinv. destruct (risk_drain_batch_inv rreqs ereqs q n s Hh Hinv) as (s' & ereqs' & Hd & _ & Hh' & Hinv' & Hrun).
  unfold RiskManager.run_round. rewrite Hd. cbn [mbind option_bind]. eexists _, _, ereqs'. split; [reflexivity|].
  destruct (Nat.ltb _ _); [|done]. unfold RiskManager.maybe_flush_stats, RiskManager.with_rm.
  cbn [RiskManager.rm RiskManager.pool]. destruct (_ =? 0); [|done]. split_and!; [done|by apply (sys_inv_eq _ (RiskManager.rm s'))|done].
Qed.

Lemma risk_drain_remaining_inv {live} fuel rreqs ereqs q n s :
  SPSCQueue.holds (RiskManager.input_queue_ (RiskManager.rm s)) rreqs ->
  sys_inv live (RiskManager.pool s) (RiskManager.rm s) q rreqs ereqs n -> (length rreqs < fuel)%nat ->
  exists s' ereqs', RiskManager.drain_remaining steady_clock fuel s = Some s' /\ decided rreqs s s' /\
    SPSCQueue.holds (RiskManager.input_queue_ (RiskManager.rm s')) [] /\
    sys_inv live (RiskManager.pool s') (RiskManager.rm s') q [] ereqs' n /\
    RiskManager.running_ (RiskManager.rm s') = RiskManager.running_ (RiskManager.rm s).
Proof.
  revert rreqs ereqs s. induction fuel as [|fuel IH]; intros rreqs ereqs s Hh Hinv Hf; [lia|].
  destruct (risk_drain_batch_inv rreqs ereqs q n s Hh Hinv) as (s1 & ereqs1 & Hd & Hdec & Hh1 & Hinv1 & Hrun1).
  cbn [RiskManager.drain_remaining]. rewrite Hd. cbn [mbind option_bind].
  destruct (Nat.min RiskManager.RISK_BATCH_SIZE (length rreqs)) as [|k] eqn:Ek.
  - assert (rreqs = []) as -> by (destruct rreqs; [done|simpl in Ek; lia]). rewrite drop_nil in Hh1 Hinv1. rewrite take_nil in Hdec. by exists s1, ereqs1.
  - destruct (IH (drop (S k) rreqs) ereqs1 s1 Hh1 Hinv1) as (s2 & ereqs2 & H2 & Hdec2 & Hh2 & Hinv2 & Hrun2);
      [rewrite length_drop; lia|].
    exists s2, ereqs2. split_and!; [done| |done|done|by rewrite Hrun2].
    rewrite -(take_drop (S k) rreqs). by eapply decided_app.
Qed.

Lemma risk_stop_inv {live} rreqs ereqs q n s :
  RiskManager.running_ (RiskManager.rm s) = true ->
  SPSCQueue.holds (RiskManager.input_queue_ (RiskManager.rm s)) rreqs ->
  sys_inv live (RiskManager.pool s) (RiskManager.rm s) q rreqs ereqs n ->
  exists s' ereqs', RiskManager.stop steady_clock s = Some s' /\ decided rreqs s s' /\
    SPSCQueue.holds (RiskManager.input_queue_ (RiskManager.rm s')) [] /\
    sys_inv live (RiskManager.pool s') (RiskManager.rm s') q [] ereqs' n /\
    RiskManager.running_ (RiskManager.rm s') = false.
Proof.
  intros Hrun Hh Hinv. unfold RiskManager.stop. rewrite Hrun.
  assert (Z.to_nat (SPSCQueue.size (RiskManager.input_queue_ (RiskManager.rm s))) = length rreqs) as ->.
  { destruct Hh as (T0 & H & Hr). destruct (SPSCQueue.repr_size _ _ _ _ Hr) as [-> _]. lia. }
  destruct (risk_drain_remaining_inv (live := live) (S (length rreqs)) rreqs ereqs q n (RiskManager.with_rm (RiskManager.set_running false) s))
    as (s' & ereqs' & Hd & Hdec & Hh' & Hinv' & Hrun'); [done|by apply (sys_inv_eq _ (RiskManager.rm s))|lia|].
  rewrite Hd. cbn [mbind option_bind]. eexists _, ereqs'. split; [reflexivity|].
  split_and!; [|done|by apply (sys_inv_eq _ (RiskManager.rm s'))|exact Hrun'].
  apply (decided_then _ _ _ _ bk_flush), (decided_then _ _ _ _ bk_flush). eapply decided_aside; [exact bk_stop|exact Hdec].
Qed.

End risk.

(** ** A round of the gateway *)

Lemma engine_owned ps (e : env) i :
  engine_ok ps e -> i ∈ ps ++ all_ptrs (OrderBook.book e) -> MemoryPool.owned (OrderBook.pool e) i.
Proof.
  intros [Hinv Hp] [Hi|Hi]%elem_of_app; [by apply (po_owned _ _ Hp)|].
  apply elem_of_app in Hi as [Hi|Hi]; [exact (proj1 (inv_ptr _ e true i Hinv Hi))|exact (proj1 (inv_ptr _ e false i Hinv Hi))].
Qed.

Lemma sys_inv_grows {live} rreqs new ereqs q n n' (g g' : TcpGateway.t engine) :
  sys_inv live (TcpGateway.order_pool_ g) (TcpGateway.risk_manager_ g) q rreqs ereqs n ->
  grows rreqs new g g' -> n + Z.of_nat (length new) <= n' < 2 ^ 30 ->
  sys_inv live (TcpGateway.order_pool_ g') (TcpGateway.risk_manager_ g') q (rreqs ++ new) ereqs n'.
Proof.
  intros [H1 H2 H3 H4 H5 H6 H7 HL H8 H9 H10 H11 H12 H13] [G1 [rq Hr] G3 G4 G5 G6 G7 _] Hn. rewrite Hr. change (2 ^ 30) with 1073741824 in *.
  set (p := TcpGateway.order_pool_ g) in *. set (p' := TcpGateway.order_pool_ g') in *.
  set (r := TcpGateway.risk_manager_ g) in *.
  assert (forall k m i, RiskManager.matching_engines_ r !! k = Some m -> i ∈ engine_ptrs (ereqs k) m -> MemoryPool.owned p i) as Hown.
  { intros k m i Hk Hi. exact (engine_owned _ _ i (H5 k m Hk) Hi). }
  assert (length (risk_ptrs new) <= length new)%nat as Hl.
  { clear. induction new as [|x new IH]; [done|]. rewrite (risk_ptrs_app [x] new) length_app.
    destruct x as [[a|]|]; cbn; lia. }
  split; try done.
  - rewrite risk_ptrs_app. apply NoDup_app. split_and!; [done| |done].
    intros i Hi Hj. destruct (G5 i Hj) as [Hno _]. by apply Hno, H3.
  - intros i. rewrite risk_ptrs_app. intros [Hi|Hi]%elem_of_app.
    + destruct (H3 i Hi) as [Ho Hrg]. split; [apply G6; by left|]. rewrite (G7 i Ho). done.
    + destruct (G5 i Hi) as (_ & o & Ho & Hrg). split; [apply G6; by right|]. intros o' Ho'. congruence.
  - intros k m Hk. apply (engine_ok_agree _ (engine_env p m) p'); [by apply H5|done|].
    intros i Hi. assert (MemoryPool.owned p i) as Ho by (by apply (Hown k m)).
    split; [by apply G7|]. intros _. apply G6. by left.
  - intros k m i Hk. rewrite risk_ptrs_app. intros [Hi|Hi]%elem_of_app; [by apply (H6 k m i Hk)|].
    intros Hin. destruct (G5 i Hi) as [Hno _]. by apply Hno, (Hown k m).
  - intros k m Hk. specialize (H8 k m Hk). rewrite risk_ptrs_app length_app. lia.
  - rewrite length_app. cbn. lia.
  - rewrite length_app. eapply md_ok_mono; [|exact H10]. cbn. lia.
  - lia.
Qed.

(** ** A round of the publisher *)

Lemma md_ok_exact B q :
  md_ok B q -> 0 <= B -> B + 2 ^ 32 <= 2 ^ 62 ->
  exists n xs, MPMCQueue.holds (S n) q xs /\
    forall q' xs', MPMCQueue.holds (S n) q' xs' -> MPMCQueue.capacity_ q' = MPMCQueue.capacity_ q -> md_ok B q'.
Proof.
  intros (D & E & xs & Hr & HE & Hc) HB Hlt. change (2 ^ 32) with 4294967296 in *. change (2 ^ 62) with 4611686018427387904 in *.
  exists (Z.to_nat (2 ^ 63 - 2 - B - MPMCQueue.capacity_ q)), xs.
  unfold MPMCQueue.holds. change (2 ^ 63) with 9223372036854775808.
  split; [exists D, E; split; [done|lia]|].
  intros q' xs' (D' & E' & Hr' & Hb') Hc'. exists D', E', xs'. split; [done|]. rewrite Hc' in Hb' |- *. lia.
Qed.

Lemma sys_inv_md {live} p r q q' rreqs ereqs n :
  sys_inv live p r q rreqs ereqs n ->
  (forall B, 0 <= B -> B + 2 ^ 32 <= 2 ^ 62 -> md_ok B q -> md_ok B q') -> sys_inv live p r q' rreqs ereqs n.
Proof.
  intros [] Hq. split; try done. apply Hq; [lia| |done].
  change (2 ^ 30) with 1073741824 in *. change (2 ^ 32) with 4294967296. change (2 ^ 62) with 4611686018427387904. lia.
Qed.
