(* ===== verification/SystemInv.v ===== *)
(** * The state of the running program, from the start to the shutdown

    [sys_ok] is the invariant of [Main.sys] while the exchange is running:
    [sys_inv] over the shared pool, the engines and the queues, the invariant of
    the gateway, and the flags of all workers.  This file shows that the start
    establishes it, that every round of every thread preserves it, and that the
    shutdown leads from it to the state in which nothing waits and nothing runs. *)

From S2P Require Import Prelude Types MemoryPool OrderPool OrderBook OrderBookInv OrderBookTheorems.
From S2P Require Import SpscQueue MpmcQueue MatchingEngine EngineTheorems Double RiskManager RiskTheorems MemorySafety.
From S2P Require Import Protocol TcpGateway GatewayTheorems InputValidation.
From S2P Require Import HttpServer Metrics Monitoring UdpPublisher Exchange SystemFrames GatewayFrames Main ExchangeInv.

(** ** Keys of symbols *)

Lemma symbol_key_idemp s : RiskManager.symbol_key (RiskManager.symbol_key s) = RiskManager.symbol_key s.
Proof.
  unfold RiskManager.symbol_key at 1. set (w := FixedString.make SYMBOL_N (Some s)).
  assert (FixedString.wf SYMBOL_N w) as Hw by (apply FixedStringFacts.make_wf; unfold SYMBOL_N; lia).
  destruct (FixedStringFacts.wf_shape SYMBOL_N w ltac:(unfold SYMBOL_N; lia) Hw) as (_ & _ & Hl).
  change (RiskManager.symbol_key s) with (FixedString.c_str w).
  unfold FixedString.make. rewrite FixedStringFacts.c_str_assign.
  - unfold SYMBOL_N; lia.
  - apply FixedStringFacts.init_wf. unfold SYMBOL_N; lia.
  - apply until_nul_nonzero.
  - apply take_ge. lia.
Qed.

(** ** Construction *)

(** What the start of the exchange needs of the configuration. *)
Record runnable (c : Config) : Prop := {
  rn_pool : 0 < order_pool_size (performance c) < MemoryPool.POOL_EMPTY;
  rn_queue : 2 <= market_data_queue_size (performance c) <= 2 ^ 32;
  rn_notional : is_Some (trunc_u64 (double_mul (max_notional_per_client (risk c)) (double_of_Z PRICE_SCALE)));
  rn_collars s : s ∈ symbols c -> is_Some (trunc_u64 (price_collar_pct s))
}.

(** An engine as its constructor leaves it. *)
Record fresh (p : MemoryPool.t Order) (m : engine) : Prop := {
  fr_queue : SPSCQueue.holds (MatchingEngine.input_queue_ m) [];
  fr_book : exists sym, OrderBook.book (MatchingEngine.book_ m) = OrderBook.make sym;
  fr_running : MatchingEngine.running_ m = false
}.

Lemma engine_make sym p : exists m, MatchingEngine.make sym p 0 = Some m /\ fresh p m.
Proof.
  unfold MatchingEngine.make.
  destruct (SPSCQueue.make_repr OrderRequest_default MatchingEngine.QUEUE_CAPACITY) as (q & -> & Hr & _).
  { unfold MatchingEngine.QUEUE_CAPACITY. change (2 ^ 63) with 9223372036854775808. lia. }
  cbn [mbind option_bind]. eexists. split; [reflexivity|]. split; [by exists 0, 0|by exists sym|done].
Qed.

Definition keys (syms : list SymbolConfig) : gset cstring :=
  list_to_set ((fun s => RiskManager.symbol_key (sc_symbol s)) <$> syms).

Lemma keys_idemp syms k : k ∈ keys syms -> RiskManager.symbol_key k = k.
Proof. unfold keys. rewrite elem_of_list_to_set list_elem_of_fmap. intros (s & -> & _). apply symbol_key_idemp. Qed.

Lemma initialize_engines syms p engs :
  map_Forall (fun _ m => fresh p m) engs ->
  exists engs', Exchange.initialize_matching_engines syms p engs = Done engs' /\
    map_Forall (fun _ m => fresh p m) engs' /\ dom engs' = dom engs ∪ keys syms.
Proof.
  revert engs. induction syms as [|s syms IH]; intros engs Hf; cbn [Exchange.initialize_matching_engines].
  { exists engs. split_and!; [done|done|]. unfold keys. cbn. set_solver. }
  destruct (engine_make (sc_symbol s) p) as (m & -> & Hm).
  destruct (IH (<[RiskManager.symbol_key (sc_symbol s) := m]> engs)) as (engs' & -> & Hf' & Hd).
  { by apply map_Forall_insert_2. }
  exists engs'. split_and!; [done|done|]. rewrite Hd dom_insert_L. unfold keys. cbn. set_solver.
Qed.

(** A loop that visits keys and replaces the entry of each. *)
Definition visited (f : gmap cstring engine) (l : list cstring) (m m' : gmap cstring engine) : Prop :=
  forall k, m' !! k = if decide (k ∈ l) then from_option Some (m !! k) (f !! k) else m !! k.

Lemma visited_nil f m : visited f [] m m.
Proof. intros k. unfold visited. case_decide as H; [by apply not_elem_of_nil in H|done]. Qed.

Lemma visited_cons f x l m m1 m2 :
  m1 = match f !! x with Some e => <[x := e]> m | None => m end -> visited f l m1 m2 -> visited f (x :: l) m m2.
Proof.
  intros -> Hv k. rewrite (Hv k). destruct (decide (k = x)) as [->|Hne].
  - destruct (decide (x ∈ x :: l)) as [_|Hn]; [|by destruct Hn; left].
    destruct (f !! x) as [e|] eqn:E; cbn [from_option]; [rewrite lookup_insert_eq|]; by destruct (decide _).
  - assert (match f !! x with Some e => <[x := e]> m | None => m end !! k = m !! k) as ->.
    { destruct (f !! x); [by rewrite lookup_insert_ne|done]. }
    destruct (decide (k ∈ l)) as [Hl|Hl], (decide (k ∈ x :: l)) as [Hx|Hx]; try done.
    + destruct Hx. by right.
    + by apply elem_of_cons in Hx as [?|?].
Qed.

Lemma wire_fold engs l (r : RiskManager.t engine) :
  (forall k, k ∈ l -> RiskManager.symbol_key k = k) ->
  exists M, foldl (fun r sym => match engs !! sym with
                      | Some m => RiskManager.add_matching_engine sym m r
                      | None => r
                      end) r l = RiskManager.set_engines M r /\
    visited engs l (RiskManager.matching_engines_ r) M.
Proof.
  revert r. induction l as [|x l IH]; intros r Hk.
  { exists (RiskManager.matching_engines_ r). split; [by destruct r|apply visited_nil]. }
  cbn [foldl]. destruct (IH (match engs !! x with Some m => RiskManager.add_matching_engine x m r | None => r end))
    as (M & HM & Hv); [intros; apply Hk; by right|].
  exists M. rewrite HM. split.
  - destruct (engs !! x); [by destruct r|done].
  - eapply visited_cons; [|exact Hv]. destruct (engs !! x); [|done].
    unfold RiskManager.add_matching_engine. by rewrite (Hk x ltac:(left)).
Qed.

Definition started (m : engine) : engine := snd (MatchingEngine.start m).

Lemma visited_ext f f' l m m' : (forall k, k ∈ l -> f !! k = f' !! k) -> visited f l m m' -> visited f' l m m'.
Proof. intros Hf Hv k. rewrite (Hv k). destruct (decide (k ∈ l)) as [Hk|]; [by rewrite (Hf k Hk)|done]. Qed.

Lemma start_fold l (ex : Exchange.t) :
  NoDup l ->
  exists M, foldl (fun ex sym => Exchange.start_engine sym ex) ex l = Exchange.set_engines M ex /\
    visited (started <$> Exchange.matching_engines_ ex) l (Exchange.matching_engines_ ex) M.
Proof.
  revert ex. induction l as [|x l IH]; intros ex Hnd.
  { exists (Exchange.matching_engines_ ex). split; [|apply visited_nil].
    destruct ex as [c s p [] q n]. done. }
  apply NoDup_cons in Hnd as [Hx Hnd]. cbn [foldl].
  destruct (IH (Exchange.start_engine x ex) Hnd) as (M & -> & Hv). exists M.
  unfold Exchange.start_engine in *. split; [by destruct (Exchange.matching_engines_ ex !! x)|].
  eapply visited_cons; [|eapply visited_ext; [|exact Hv]].
  - rewrite lookup_fmap. by destruct (Exchange.matching_engines_ ex !! x).
  - intros k Hk. rewrite !lookup_fmap. destruct (Exchange.matching_engines_ ex !! x); [|done]. cbn.
    rewrite lookup_insert_ne; [by intros ->|done].
Qed.

(** A loop over all keys replaces the whole map. *)
Lemma visited_all f l m m' : dom f = dom m -> (forall k, k ∈ l <-> k ∈ dom f) -> visited f l m m' -> m' = f.
Proof.
  intros Hd Hl Hv. apply map_eq. intros k. rewrite (Hv k). destruct (decide (k ∈ l)) as [Hk|Hk].
  - apply Hl, elem_of_dom in Hk as [e ->]. done.
  - rewrite Hl in Hk. pose proof Hk as Hk'. rewrite Hd in Hk'. apply not_elem_of_dom in Hk, Hk'. by rewrite Hk.
Qed.

Lemma total_none ks : total ks (fun _ => []) = 0%nat.
Proof. unfold total. by induction (elements ks). Qed.

(** Engines without requests, over empty books. *)
Lemma idle_sys_inv p (r : RiskManager.t engine) q :
  MemoryPool.ok p -> md_ok 0 q -> accounts_ok (RiskManager.mkst r p 0) -> RiskManager.reference_prices_ r = ∅ ->
  map_Forall (fun _ m => SPSCQueue.holds (MatchingEngine.input_queue_ m) [] /\
    exists sym, OrderBook.book (MatchingEngine.book_ m) = OrderBook.make sym) (RiskManager.matching_engines_ r) ->
  sys_inv (MatchingEngine.running_ <$> RiskManager.matching_engines_ r) p r q [] (fun _ => []) 0.
Proof.
  intros Hp Hq Ha Hr Hm.
  assert (forall k m, RiskManager.matching_engines_ r !! k = Some m -> engine_ptrs [] m = []) as Hno.
  { intros k m Hk. destruct (Hm k m Hk) as (_ & sym & Hb). unfold engine_ptrs. by rewrite Hb. }
  split; try done.
  - apply NoDup_nil_2.
  - intros i []%not_elem_of_nil.
  - intros k m Hk. by apply (Hm k m Hk).
  - intros k m Hk. destruct (Hm k m Hk) as (_ & sym & Hb).
    apply (engine_ok_ext _ (OrderBook.mkenv (OrderBook.make sym) p (OrderBook.ctx (MatchingEngine.book_ m)) 0)); [done|done|].
    split; [by apply inv_make|]. split; [apply NoDup_nil_2|by intros i ?%not_elem_of_nil|by intros i ?%not_elem_of_nil|by intros i o ?%not_elem_of_nil|].
    vm_compute. reflexivity.
  - intros k m i Hk []%not_elem_of_nil.
  - intros k1 k2 m1 m2 i _ Hk _. rewrite (Hno k1 m1 Hk). intros []%not_elem_of_nil.
  - intros k m Hk. destruct (Hm k m Hk) as (_ & sym & Hb). rewrite Hb. vm_compute. discriminate.
  - rewrite total_none. done.
  - rewrite total_none. exact Hq.
Qed.

Lemma md_make zero n :
  2 <= n <= 2 ^ 32 -> exists q, MPMCQueue.make zero n = Some q /\ md_ok 0 q.
Proof.
  intros Hn. change (2 ^ 32) with 4294967296 in Hn.
  destruct (MPMCQueue.mpmc_make_repr zero n) as (q & Hq & Hr & _).
  { change (2 ^ 62) with 4611686018427387904. lia. }
  exists q. split; [done|]. exists 0, 0, []. split_and!; [done|done|].
  assert (MPMCQueue.capacity_ q = round_up_pow2 n) as ->.
  { unfold MPMCQueue.make in Hq. cbn zeta in Hq. repeat case_match; by simplify_eq/=. }
  rewrite round_up_pow2_spec; [change (2 ^ 63) with 9223372036854775808; lia|].
  apply Z.pow_le_mono_r; [lia|]. apply Z.log2_up_le_pow2; [lia|]. change (2 ^ 32) with 4294967296. lia.
Qed.

(** The exchange before it is started. *)
Record exchange_idle (live : bool) (c : Config) (ex : Exchange.t) : Prop := {
  ei_config : Exchange.config_ ex = c;
  ei_engines : dom (Exchange.matching_engines_ ex) = keys (symbols c);
  ei_live : map_Forall (fun _ m => MatchingEngine.running_ m = live) (Exchange.matching_engines_ ex);
  ei_risk : RiskManager.running_ (Exchange.risk_manager_ ex) = live;
  ei_queue : SPSCQueue.holds (RiskManager.input_queue_ (Exchange.risk_manager_ ex)) [];
  ei_inv : sys_inv (MatchingEngine.running_ <$> Exchange.matching_engines_ ex) (Exchange.order_pool_ ex)
    (Exchange.risk_manager_ ex) (Exchange.market_data_queue_ ex) [] (fun _ => []) 0;
  ei_fresh : map_Forall (fun _ m => SPSCQueue.holds (MatchingEngine.input_queue_ m) [] /\
    exists sym, OrderBook.book (MatchingEngine.book_ m) = OrderBook.make sym) (Exchange.matching_engines_ ex)
}.

Lemma risk_make c :
  runnable c ->
  exists r : RiskManager.t engine, RiskManager.make (risk c) (symbols c) = Some r /\
    RiskManager.matching_engines_ r = ∅ /\ RiskManager.reference_prices_ r = ∅ /\ RiskManager.running_ r = false /\
    SPSCQueue.holds (RiskManager.input_queue_ r) [] /\
    forall (M : gmap cstring engine) (p : MemoryPool.t Order),
      accounts_ok (RiskManager.mkst (RiskManager.set_engines M r) p 0).
Proof.
  intros [_ _ [limit Hl] Hc]. unfold RiskManager.make.
  destruct (SPSCQueue.make_repr (RISK_NEW_ORDER None) RiskManager.RISK_QUEUE_CAPACITY) as (q & -> & Hr & _).
  { unfold RiskManager.RISK_QUEUE_CAPACITY. change (2 ^ 63) with 9223372036854775808. lia. }
  cbn [mbind option_bind]. rewrite Hl. cbn [mbind option_bind]. eexists. split; [reflexivity|].
  split_and!; [done|done|done|by exists 0, 0|]. intros M p. apply trunc_u64_range in Hl.
  split_and!; [simpl; lia| |intros k; unfold exposure, client_of; simpl; rewrite lookup_empty; simpl; lia].
  unfold collars_ok. cbn [RiskManager.rm RiskManager.symbol_configs_ RiskManager.set_engines].
  assert (forall m : gmap cstring SymbolConfig, map_Forall (fun _ cfg => is_Some (trunc_u64 (price_collar_pct cfg))) m ->
    forall l, (forall s, s ∈ l -> is_Some (trunc_u64 (price_collar_pct s))) ->
    map_Forall (fun _ cfg => is_Some (trunc_u64 (price_collar_pct cfg)))
      (foldl (fun m sym => <[RiskManager.symbol_key (sc_symbol sym) := sym]> m) m l)) as Hfold.
  { intros m Hm l. revert m Hm. induction l as [|s l IH]; intros m Hm Hs; [done|]. cbn [foldl].
    apply IH; [|intros; apply Hs; by right]. apply map_Forall_insert_2; [apply Hs; left|done]. }
  apply Hfold; [apply map_Forall_empty|done].
Qed.

Section program.
#[local] Set Default Proof Using "Type*".
Variable steady_clock : nat -> Timestamp.
Variable iteration : gset cstring -> list cstring.
Variable gateway_send : nat -> Z.
Variable publisher_send : nat -> nat -> Z.
Hypothesis iteration_visits : forall ks, iteration ks ≡ₚ elements ks.

Lemma iteration_elem ks k : k ∈ iteration ks <-> k ∈ ks.
Proof using iteration_visits. rewrite iteration_visits. apply elem_of_elements. Qed.

Lemma iteration_nodup ks : NoDup (iteration ks).
Proof. rewrite iteration_visits. apply NoDup_elements. Qed.

Lemma exchange_make c :
  runnable c ->
  exists ex, Exchange.make iteration (Some c) = Done ex /\ Exchange.state_ ex = Exchange.CREATED /\
    exchange_idle false c ex.
Proof.
  intros Hc. pose proof Hc as [Hp Hq _ _]. unfold Exchange.make, Exchange.initialize_order_pool.
  destruct (MemoryPool.make_free_list Order_default _ Hp) as (p & -> & _ & Hfl).
  unfold Exchange.initialize_market_data_queue. set (zero := mkEvent _ _).
  destruct (md_make zero _ Hq) as (q & -> & Hmd).
  destruct (initialize_engines (symbols c) p ∅) as (engs & Hengs & Hf & Hd); [apply map_Forall_empty|].
  destruct (risk_make c Hc) as (r & Hrm & He & Hr & Hrun & Hh & Hacc).
  cbn [omap_outcome]. rewrite Hengs. cbn [omap_outcome]. unfold Exchange.initialize_risk_manager. rewrite Hrm.
  cbn [omap_outcome].
  set (wired := MatchingEngine.set_market_data_queue (md_queue q) <$> engs).
  assert (dom wired = keys (symbols c)) as Hdom by (unfold wired; by rewrite dom_fmap_L Hd dom_empty_L left_id_L).
  destruct (wire_fold wired (iteration (dom wired)) r) as (M & HM & Hv).
  { intros k. rewrite iteration_elem Hdom. apply keys_idemp. }
  assert (M = wired) as ->.
  { apply map_eq. intros k. rewrite (Hv k) He lookup_empty. destruct (decide _) as [|Hn]; [by destruct (wired !! k)|].
    rewrite iteration_elem in Hn. apply not_elem_of_dom in Hn. done. }
  assert (map_Forall (fun _ m => (SPSCQueue.holds (MatchingEngine.input_queue_ m) [] /\
    exists sym, OrderBook.book (MatchingEngine.book_ m) = OrderBook.make sym) /\ MatchingEngine.running_ m = false) wired) as Hw.
  { apply map_Forall_fmap. intros k m Hk. destruct (Hf k m Hk) as [H1 [sym H2] H3].
    split; [split; [exact H1|exists sym; exact H2]|exact H3]. }
  eexists. split; [reflexivity|]. cbn [Exchange.state_]. split; [done|].
  unfold Exchange.wire_components. fold wired. rewrite HM.
  split.
  - reflexivity.
  - exact Hdom.
  - intros k m Hk. by apply (Hw k m Hk).
  - exact Hrun.
  - exact Hh.
  - apply idle_sys_inv; [by eexists|exact Hmd|apply Hacc|exact Hr|].
    intros k m Hk. by apply (Hw k m Hk).
  - intros k m Hk. by apply (Hw k m Hk).
Qed.

(** The exchange after it was started: all workers run. *)
Lemma exchange_start c ex :
  Exchange.state_ ex = Exchange.CREATED -> exchange_idle false c ex ->
  exists ex', Exchange.start iteration ex = Done ex' /\ Exchange.state_ ex' = Exchange.RUNNING /\
    exchange_idle true c ex'.
Proof.
  intros Hst [H1 H2 H3 H4 H5 H6 H7]. unfold Exchange.start. rewrite Hst. cbn [negb bool_decide].
  set (ex1 := Exchange.set_state Exchange.STARTING ex).
  change (Exchange.engine_order iteration ex1) with (Exchange.engine_order iteration ex).
  change (Exchange.matching_engines_ ex) with (Exchange.matching_engines_ ex1) in *.
  destruct (start_fold (Exchange.engine_order iteration ex) ex1 (iteration_nodup _)) as (M & -> & Hv).
  apply visited_all in Hv; [|by rewrite dom_fmap_L|intros k; rewrite dom_fmap_L; apply iteration_elem].
  assert (RiskManager.start (Exchange.risk_manager_ (Exchange.set_engines M ex1)) =
    (true, RiskManager.set_running true (Exchange.risk_manager_ (Exchange.set_engines M ex1)))) as ->.
  { unfold RiskManager.start. change (RiskManager.running_ (Exchange.risk_manager_ (Exchange.set_engines M ex1)))
      with (RiskManager.running_ (Exchange.risk_manager_ ex)). by rewrite H4. }
  eexists. split; [reflexivity|]. split; [done|].
  assert (map_Forall (fun _ m => (SPSCQueue.holds (MatchingEngine.input_queue_ m) [] /\
    exists sym, OrderBook.book (MatchingEngine.book_ m) = OrderBook.make sym) /\ MatchingEngine.running_ m = true) M) as Hw.
  { subst M. apply map_Forall_fmap. intros k m Hk. unfold compose, started, MatchingEngine.start.
    rewrite (H3 k m Hk). split; [|done]. exact (H7 k m Hk). }
  split.
  - exact H1.
  - cbn. rewrite Hv dom_fmap_L. exact H2.
  - intros k m Hk. by apply (Hw k m Hk).
  - done.
  - exact H5.
  - destruct H6 as [I1 _ _ _ _ _ _ _ _ _ I11 _ I13 I14].
    apply idle_sys_inv; [exact I1| |exact I13|exact I14|]; [|intros k m Hk; by apply (Hw k m Hk)].
    rewrite total_none in I11. exact I11.
  - intros k m Hk. by apply (Hw k m Hk).
Qed.

(** ** The invariant of the program *)

(** Replies of the gateway: one per request it submitted, or more. *)
Definition replies (σ : sys) : Z := Z.of_nat (length (TcpGateway.outbox (gateway σ))).

Record sys_ok (c : Config) (σ : sys) : Prop := {
  so_config : Exchange.config_ (exch σ) = c;
  so_state : Exchange.state_ (exch σ) = Exchange.RUNNING;
  so_risk : RiskManager.running_ (Exchange.risk_manager_ (exch σ)) = true;
  so_gateway : gateway_ok (gateway_view σ);
  so_bytes : bytes_ok (gateway_view σ);
  so_sequence : u64 (UdpPublisher.next_sequence (udp_publisher σ));
  so_inv : exists rreqs ereqs,
    SPSCQueue.holds (RiskManager.input_queue_ (Exchange.risk_manager_ (exch σ))) rreqs /\
    sys_inv (gset_to_gmap true (keys (symbols c))) (Exchange.order_pool_ (exch σ)) (Exchange.risk_manager_ (exch σ))
      (Exchange.market_data_queue_ (exch σ)) rreqs ereqs (replies σ)
}.

(** The gateway's and the publisher's parts do not see the rest of the exchange. *)
Lemma sys_ok_exch c σ ex rreqs ereqs :
  sys_ok c σ -> Exchange.config_ ex = c -> Exchange.state_ ex = Exchange.RUNNING ->
  RiskManager.running_ (Exchange.risk_manager_ ex) = true ->
  SPSCQueue.holds (RiskManager.input_queue_ (Exchange.risk_manager_ ex)) rreqs ->
  sys_inv (gset_to_gmap true (keys (symbols c))) (Exchange.order_pool_ ex) (Exchange.risk_manager_ ex)
    (Exchange.market_data_queue_ ex) rreqs ereqs (replies σ) ->
  sys_ok c (set_exch ex σ).
Proof.
  intros [_ _ _ [_ Hg] Hb Hs _] H1 H2 H3 Hh Hinv. split; try done.
  - split; [split; [exact (si_pool _ _ _ _ _ _ _ Hinv)|by exists rreqs]|exact Hg].
  - by exists rreqs, ereqs.
Qed.

Lemma live_running c ex rreqs ereqs n k m :
  sys_inv (gset_to_gmap true (keys (symbols c))) (Exchange.order_pool_ ex) (Exchange.risk_manager_ ex)
    (Exchange.market_data_queue_ ex) rreqs ereqs n ->
  Exchange.matching_engines_ ex !! k = Some m -> MatchingEngine.running_ m = true /\ k ∈ keys (symbols c).
Proof.
  intros Hinv Hk. pose proof (si_running _ _ _ _ _ _ _ Hinv) as Hl.
  assert ((MatchingEngine.running_ <$> RiskManager.matching_engines_ (Exchange.risk_manager_ ex)) !! k =
    Some (MatchingEngine.running_ m)) as Hm by (by rewrite lookup_fmap Hk).
  rewrite Hl in Hm. apply lookup_gset_to_gmap_Some in Hm as [? ?]. done.
Qed.

Lemma risk_round_ok c σ :
  sys_ok c σ -> exists σ', perform steady_clock gateway_send publisher_send RiskRound σ = Some σ' /\ sys_ok c σ'.
Proof.
  intros Hok. pose proof Hok as [H1 H2 H3 _ _ _ (rreqs & ereqs & Hh & Hinv)].
  cbn [perform]. unfold Exchange.risk_round. rewrite H3. unfold Exchange.on_risk.
  set (s := RiskManager.mkst (Exchange.risk_manager_ (exch σ)) (Exchange.order_pool_ (exch σ)) (Exchange.ticks (exch σ))).
  destruct (risk_round_inv steady_clock rreqs ereqs _ _ s Hh Hinv) as (s' & rreqs' & ereqs' & Hs & Hh' & Hinv' & Hrun).
  rewrite Hs. cbn [mbind option_bind]. eexists. split; [reflexivity|].
  by apply (sys_ok_exch c σ _ rreqs' ereqs'); [| | |rewrite Hrun| |].
Qed.

(** A step of one engine on the shared state. *)
Lemma on_engine_inv {live} f k m finished rest ex rreqs ereqs n :
  sys_inv live (Exchange.order_pool_ ex) (Exchange.risk_manager_ ex) (Exchange.market_data_queue_ ex) rreqs ereqs n ->
  Exchange.matching_engines_ ex !! k = Some m -> ereqs k = finished ++ rest ->
  (exists m', f (Exchange.attach ex m) = Some m' /\ engine_progress finished rest (Exchange.attach ex m) m') ->
  exists m' ex', f (Exchange.attach ex m) = Some m' /\ Exchange.on_engine f k ex = Some ex' /\
    Exchange.matching_engines_ ex' = <[k := m']> (Exchange.matching_engines_ ex) /\
    Exchange.config_ ex' = Exchange.config_ ex /\ Exchange.state_ ex' = Exchange.state_ ex /\
    Exchange.risk_manager_ ex' = RiskManager.set_engines (<[k := m']> (Exchange.matching_engines_ ex)) (Exchange.risk_manager_ ex) /\
    sys_inv (<[k := MatchingEngine.running_ m']> live) (Exchange.order_pool_ ex') (Exchange.risk_manager_ ex')
      (Exchange.market_data_queue_ ex') rreqs (upd ereqs k rest) n.
Proof.
  intros Hinv Hk Hreqs (m' & Hf & Hp). exists m'.
  destruct (sys_inv_progress _ _ _ _ _ _ k m (Exchange.attach ex m) m' finished rest Hinv Hk Hreqs eq_refl eq_refl eq_refl Hp)
    as (q' & Hq' & Hinv').
  unfold Exchange.on_engine, Exchange.detach. rewrite Hk Hf. cbn [mbind option_bind]. rewrite Hq'.
  eexists. split_and!; try reflexivity. exact Hinv'.
Qed.

Lemma attach_ready {live} ex k m rreqs ereqs n :
  sys_inv live (Exchange.order_pool_ ex) (Exchange.risk_manager_ ex) (Exchange.market_data_queue_ ex) rreqs ereqs n ->
  Exchange.matching_engines_ ex !! k = Some m ->
  SPSCQueue.holds (MatchingEngine.input_queue_ (Exchange.attach ex m)) (ereqs k) /\
  engine_ok (new_ptrs (ereqs k)) (MatchingEngine.book_ (Exchange.attach ex m)).
Proof.
  intros Hinv Hk. split; [exact (si_queue _ _ _ _ _ _ _ Hinv k m Hk)|].
  by apply (engine_ok_ext _ (engine_env (Exchange.order_pool_ ex) m)); [| |apply (si_engine _ _ _ _ _ _ _ Hinv)].
Qed.

Lemma engine_round_ok c σ k :
  sys_ok c σ -> exists σ', perform steady_clock gateway_send publisher_send (EngineRound k) σ = Some σ' /\ sys_ok c σ'.
Proof.
  intros Hok. pose proof Hok as [H1 H2 H3 _ _ _ (rreqs & ereqs & Hh & Hinv)].
  cbn [perform]. unfold Exchange.engine_round.
  destruct (Exchange.matching_engines_ (exch σ) !! k) as [m|] eqn:Hk.
  2: { eexists. split; [reflexivity|]. by apply (sys_ok_exch c σ _ rreqs ereqs). }
  destruct (live_running c (exch σ) _ _ _ k m Hinv Hk) as [Hrun Hkey]. rewrite Hrun.
  destruct (attach_ready _ k m _ _ _ Hinv Hk) as [Hq Hok'].
  destruct (run_round_progress steady_clock _ _ Hq Hok') as (finished & rest & m0 & Hreqs & Hm0 & Hp & Hr0).
  destruct (on_engine_inv (MatchingEngine.run_round steady_clock) k m finished rest _ _ _ _ Hinv Hk Hreqs
    ltac:(by exists m0)) as (m' & ex' & Hm' & -> & _ & E1 & E2 & E3 & Hinv').
  cbn [mbind option_bind]. eexists. split; [reflexivity|].
  assert (m' = m0) as -> by congruence.
  rewrite insert_id in Hinv'; [rewrite Hr0; change (MatchingEngine.running_ (Exchange.attach (exch σ) m)) with (MatchingEngine.running_ m);
    rewrite Hrun; by apply lookup_gset_to_gmap_Some|].
  apply (sys_ok_exch c σ ex' rreqs (upd ereqs k rest)); [done|by rewrite E1|by rewrite E2|by rewrite E3|by rewrite E3|done].
Qed.

(** The arguments the operating system supplies; no client of the HTTP server resets
    its connection before the response is sent. *)
Definition action_ok (a : action) : Prop :=
  match a with
  | Accept fd => 0 <= fd
  | GatewayRound events => Forall event_bytes events
  | HttpReceives d => Monitoring.d_peer_open d = true
  | _ => True
  end.

Lemma accept_round_ok c σ fd :
  sys_ok c σ -> 0 <= fd ->
  exists σ', perform steady_clock gateway_send publisher_send (Accept fd) σ = Some σ' /\ sys_ok c σ'.
Proof.
  intros Hok Hfd. pose proof Hok as [H1 H2 H3 Hg Hb Hs (rreqs & ereqs & Hh & Hinv)]. cbn [perform].
  eexists. split; [reflexivity|]. destruct (TcpGateway.running_ (gateway σ)); [|done].
  pose proof (accept_ok steady_clock fd (gateway_view σ) Hfd Hg) as Hg'.
  set (g' := TcpGateway.accept_connection steady_clock fd (gateway_view σ)) in *.
  assert (TcpGateway.risk_manager_ g' = Exchange.risk_manager_ (exch σ) /\
    TcpGateway.order_pool_ g' = Exchange.order_pool_ (exch σ) /\ TcpGateway.outbox g' = TcpGateway.outbox (gateway σ) /\
    bytes_ok g') as (E1 & E2 & E3 & Hb').
  { unfold g', TcpGateway.accept_connection. destruct (_ <=? _); [by split_and!|]. split_and!; [done|done|done|].
    intros i cn. cbn [TcpGateway.connections_ TcpGateway.with_stats TcpGateway.set_connections TcpGateway.tick].
    intros [[_ [[= <-] _]]|[_ Hi]]%list_lookup_insert_Some; [by apply Forall_nil|by apply (Hb i)]. }
  split; [done|done|by cbn; rewrite E1|exact Hg'|exact Hb'|done|].
  exists rreqs, ereqs. unfold replies. cbn. rewrite E1 E2 E3. done.
Qed.

Lemma gateway_round_ok c σ events :
  sys_ok c σ -> Forall event_bytes events ->
  exists σ', perform steady_clock gateway_send publisher_send (GatewayRound events) σ = Some σ' /\
    (replies σ' < 2 ^ 30 -> sys_ok c σ').
Proof.
  intros Hok Hev. pose proof Hok as [H1 H2 H3 Hg Hb Hs (rreqs & ereqs & Hh & Hinv)]. cbn [perform].
  destruct (TcpGateway.running_ (gateway σ)); [|by exists σ].
  destruct (worker_round_grows steady_clock gateway_send events (gateway_view σ) rreqs Hg Hb Hh Hev)
    as (g' & new & -> & Hgr & Hg' & Hb').
  cbn [mbind option_bind]. eexists. split; [reflexivity|]. intros Hn.
  pose proof (gr_risk _ _ _ _ Hgr) as [rq Hrq].
  split; [done|done|by cbn; rewrite Hrq|exact Hg'|exact Hb'|done|].
  exists (rreqs ++ new), ereqs. split; [exact (gr_queue _ _ _ _ Hgr)|].
  refine (sys_inv_grows rreqs new ereqs _ (replies σ) _ (gateway_view σ) g' Hinv Hgr _).
  split; [|exact Hn]. pose proof (gr_count _ _ _ _ Hgr) as Hc. unfold replies. cbn in *. lia.
Qed.

Lemma publisher_round_ok c σ :
  sys_ok c σ -> exists σ', perform steady_clock gateway_send publisher_send PublisherRound σ = Some σ' /\ sys_ok c σ'.
Proof.
  intros Hok. pose proof Hok as [H1 H2 H3 Hg Hb Hs (rreqs & ereqs & Hh & Hinv)]. cbn [perform].
  destruct (UdpPublisher.running_ (udp_publisher σ)); [|by exists σ].
  set (q := Exchange.market_data_queue_ (exch σ)) in *.
  assert (exists u', UdpPublisher.worker_round steady_clock publisher_send (publisher_view σ) = Some u' /\
    u64 (UdpPublisher.next_sequence u') /\
    forall B, 0 <= B -> B + 2 ^ 32 <= 2 ^ 62 -> md_ok B q -> md_ok B (UdpPublisher.input_queue_ u')) as (u' & Hu & Hseq & Hmd).
  { assert (forall n xs, MPMCQueue.holds (S n) q xs -> exists u',
      UdpPublisher.worker_round steady_clock publisher_send (publisher_view σ) = Some u' /\
      u64 (UdpPublisher.next_sequence u') /\ (exists xs', MPMCQueue.holds (S n) (UdpPublisher.input_queue_ u') xs') /\
      MPMCQueue.capacity_ (UdpPublisher.input_queue_ u') = MPMCQueue.capacity_ q) as Hround.
    { intros n xs Hq. destruct (worker_round_spec steady_clock publisher_send (publisher_view σ) xs n Hq Hs)
        as (u' & Hu & Hq' & _ & Hn & _ & Hc).
      exists u'. split_and!; [done| |by eexists|done]. rewrite Hn. apply wrap_range. lia. }
    destruct (md_ok_exact _ q (si_md _ _ _ _ _ _ _ Hinv)) as (n & xs & Hq & _).
    { pose proof (si_pending _ _ _ _ _ _ _ Hinv). change (2 ^ 32) with 4294967296. lia. }
    { pose proof (si_bound _ _ _ _ _ _ _ Hinv) as Hbd. change (2 ^ 30) with 1073741824 in Hbd.
      change (2 ^ 32) with 4294967296. change (2 ^ 62) with 4611686018427387904. lia. }
    destruct (Hround n xs Hq) as (u' & Hu & Hseq & _). exists u'. split_and!; [done|done|].
    intros B HB Hlt Hmd. destruct (md_ok_exact B q Hmd HB Hlt) as (n' & xs' & Hq' & Hback).
    destruct (Hround n' xs' Hq') as (u2 & Hu2 & _ & [xs2 Hx] & Hc). assert (u2 = u') as -> by congruence.
    by apply (Hback _ xs2). }
  rewrite Hu. cbn [mbind option_bind]. eexists. split; [reflexivity|].
  split; [done|done|done|exact Hg|exact Hb|exact Hseq|].
  exists rreqs, ereqs. split; [done|]. exact (sys_inv_md _ _ _ _ _ _ _ Hinv Hmd).
Qed.

Lemma sys_ok_monitoring c σ m : sys_ok c σ -> sys_ok c (set_monitoring m σ).
Proof. intros [H1 H2 H3 H4 H5 H6 H7]. by split. Qed.

Lemma sys_ok_main c σ pc : sys_ok c σ -> sys_ok c (set_main pc σ).
Proof. intros [H1 H2 H3 H4 H5 H6 H7]. by split. Qed.

Lemma perform_ok c σ a :
  sys_ok c σ -> Monitoring.ok (monitoring σ) -> action_ok a ->
  exists σ', perform steady_clock gateway_send publisher_send a σ = Some σ' /\ (replies σ' < 2 ^ 30 -> sys_ok c σ').
Proof.
  intros Hok Hmon Ha. destruct a as [fd|events| |k| |fd|d|]; cbn [action_ok] in Ha; [|by apply gateway_round_ok|..].
  - destruct (accept_round_ok c σ fd Hok Ha) as (σ' & ? & ?). by exists σ'.
  - destruct (risk_round_ok c σ Hok) as (σ' & ? & ?). by exists σ'.
  - destruct (engine_round_ok c σ k Hok) as (σ' & ? & ?). by exists σ'.
  - destruct (publisher_round_ok c σ Hok) as (σ' & ? & ?). by exists σ'.
  - eexists. split; [reflexivity|]. intros _. by apply sys_ok_monitoring.
  - destruct (Monitoring.http_receive_ok d (monitoring σ) Hmon Ha) as (m & Hm & _).
    cbn [perform]. rewrite Hm. eexists. split; [reflexivity|]. intros _. by apply sys_ok_monitoring.
  - eexists. split; [reflexivity|]. intros _. by apply sys_ok_monitoring.
Qed.

(** ** The shutdown *)

(** The exchange in [ex'] is [ex] with other engines. *)
Definition same_but_engines (ex ex' : Exchange.t) : Prop :=
  Exchange.config_ ex' = Exchange.config_ ex /\ Exchange.state_ ex' = Exchange.state_ ex /\
  exists M, Exchange.risk_manager_ ex' = RiskManager.set_engines M (Exchange.risk_manager_ ex).

(** The engines of [l] stopped one after the other, each after it has processed, in
    order, all that its queue held. *)
Inductive engines_drained : list cstring -> Exchange.t -> Exchange.t -> Prop :=
  | ed_nil ex : engines_drained [] ex ex
  | ed_engine k l ex m m' reqs ex1 ex2 :
      Exchange.matching_engines_ ex !! k = Some m -> SPSCQueue.holds (MatchingEngine.input_queue_ m) reqs ->
      worked steady_clock reqs (MatchingEngine.book_ (Exchange.attach ex m)) (MatchingEngine.book_ m') ->
      SPSCQueue.holds (MatchingEngine.input_queue_ m') [] -> MatchingEngine.running_ m' = false ->
      Exchange.detach k m' ex = Some ex1 -> engines_drained l ex1 ex2 -> engines_drained (k :: l) ex ex2.

Lemma stop_engines_inv l ex live ereqs n :
  NoDup l -> (forall k, k ∈ l -> live !! k = Some true) ->
  sys_inv live (Exchange.order_pool_ ex) (Exchange.risk_manager_ ex) (Exchange.market_data_queue_ ex) [] ereqs n ->
  exists ex' ereqs', Exchange.stop_engines steady_clock l ex = Some ex' /\ same_but_engines ex ex' /\
    engines_drained l ex ex' /\ (forall k, ereqs' k = if decide (k ∈ l) then [] else ereqs k) /\
    sys_inv (foldr (fun k m => <[k := false]> m) live l) (Exchange.order_pool_ ex') (Exchange.risk_manager_ ex')
      (Exchange.market_data_queue_ ex') [] ereqs' n.
Proof.
  revert ex live ereqs. induction l as [|k l IH]; intros ex live ereqs Hnd Hl Hinv.
  { exists ex, ereqs. split_and!; [done| |constructor|intros k; destruct (decide (k ∈ [])) as [Hn|]; [by apply not_elem_of_nil in Hn|done]|done].
    split_and!; [done|done|]. exists (RiskManager.matching_engines_ (Exchange.risk_manager_ ex)). by destruct (Exchange.risk_manager_ ex). }
  apply NoDup_cons in Hnd as [Hk Hnd]. cbn [Exchange.stop_engines foldr].
  assert (exists m, Exchange.matching_engines_ ex !! k = Some m /\ MatchingEngine.running_ m = true) as (m & Hm & Hrun).
  { specialize (Hl k ltac:(left)). rewrite -(si_running _ _ _ _ _ _ _ Hinv) lookup_fmap fmap_Some in Hl.
    destruct Hl as (m & ? & ?). by exists m. }
  destruct (attach_ready _ k m _ _ _ Hinv Hm) as [Hq Hok].
  destruct (stop_progress steady_clock (Exchange.attach ex m) (ereqs k) Hrun Hq Hok) as (m0 & Hm0 & Hp & Hr0 & Hw & Hq0).
  destruct (on_engine_inv (MatchingEngine.stop steady_clock) k m (ereqs k) [] _ _ _ _ Hinv Hm ltac:(by rewrite app_nil_r)
    ltac:(by exists m0)) as (m' & ex1 & Hm' & Hon & _ & E1 & E2 & E3 & Hinv1).
  rewrite Hon. assert (m' = m0) as -> by congruence.
  assert (Exchange.detach k m0 ex = Some ex1) as Hdet.
  { unfold Exchange.on_engine in Hon. rewrite Hm Hm' in Hon. exact Hon. } rewrite Hr0 in Hinv1. cbn [mbind option_bind].
  destruct (IH ex1 (<[k := false]> live) (upd ereqs k []) Hnd) as (ex2 & ereqs2 & -> & (F1 & F2 & M & F3) & Hed & Hr2 & Hinv2).
  { intros j Hj. rewrite lookup_insert_ne; [by intros ->|]. apply Hl. by right. }
  { exact Hinv1. }
  exists ex2, ereqs2. split; [done|]. split; [|split; [by eapply ed_engine|split]].
  - split_and!; [congruence|congruence|]. exists M. rewrite F3 E3. done.
  - intros j. rewrite (Hr2 j). destruct (decide (j ∈ l)) as [Hj|Hj], (decide (j ∈ k :: l)) as [Hj'|Hj']; try done.
    + destruct Hj'. by right.
    + apply elem_of_cons in Hj' as [->|]; [by rewrite upd_eq|done].
    + rewrite upd_ne; [|done]. intros ->. apply Hj'. left.
  - replace (<[k := false]> (foldr (fun k m => <[k := false]> m) live l))
      with (foldr (fun k m => <[k := false]> m) (<[k := false]> live) l); [done|].
    clear. revert live. induction l as [|j l IH]; intros live; [done|]. cbn [foldr]. rewrite IH.
    destruct (decide (j = k)) as [->|Hne]; [done|by rewrite insert_insert_ne].
Qed.

(** Nothing runs, no request waits, and the books are still well formed over the
    shared pool.  The market data queue is well formed, and need not be empty: the
    publisher was stopped first. *)
Record exchange_stopped (c : Config) (ex : Exchange.t) : Prop := {
  es_state : Exchange.state_ ex = Exchange.STOPPED;
  es_config : Exchange.config_ ex = c;
  es_engines : dom (Exchange.matching_engines_ ex) = keys (symbols c);
  es_risk : RiskManager.running_ (Exchange.risk_manager_ ex) = false;
  es_queue : SPSCQueue.holds (RiskManager.input_queue_ (Exchange.risk_manager_ ex)) [];
  es_each k m : Exchange.matching_engines_ ex !! k = Some m ->
    MatchingEngine.running_ m = false /\ SPSCQueue.holds (MatchingEngine.input_queue_ m) [] /\
    inv [] (engine_env (Exchange.order_pool_ ex) m);
  es_market : exists n xs, MPMCQueue.holds (S n) (Exchange.market_data_queue_ ex) xs;
  es_inv : exists live ereqs n, sys_inv live (Exchange.order_pool_ ex) (Exchange.risk_manager_ ex)
    (Exchange.market_data_queue_ ex) [] ereqs n
}.

(** What [Exchange::stop] does with the requests that wait: those of the risk
    manager are all decided, in order; then each engine processes, in order, all
    that is in its queue by then, the orders just approved included. *)
Definition drained (ex ex' : Exchange.t) : Prop :=
  exists rreqs s ex1 ex2,
    SPSCQueue.holds (RiskManager.input_queue_ (Exchange.risk_manager_ ex)) rreqs /\
    decided steady_clock rreqs (RiskManager.mkst (Exchange.risk_manager_ ex) (Exchange.order_pool_ ex) (Exchange.ticks ex)) s /\
    ex1 = Exchange.mk (Exchange.config_ ex) Exchange.STOPPING (RiskManager.pool s) (RiskManager.rm s)
            (Exchange.market_data_queue_ ex) (RiskManager.ticks s) /\
    engines_drained (Exchange.engine_order iteration ex1) ex1 ex2 /\ ex' = Exchange.set_state Exchange.STOPPED ex2.

Lemma sys_inv_market live p r q rreqs ereqs n :
  sys_inv live p r q rreqs ereqs n -> exists n xs, MPMCQueue.holds (S n) q xs.
Proof.
  intros Hinv. destruct (md_ok_exact _ q (si_md _ _ _ _ _ _ _ Hinv)) as (m & xs & Hq & _); [| |by exists m, xs].
  - pose proof (si_pending _ _ _ _ _ _ _ Hinv). change (2 ^ 32) with 4294967296. lia.
  - pose proof (si_bound _ _ _ _ _ _ _ Hinv) as Hbd. change (2 ^ 30) with 1073741824 in Hbd.
    change (2 ^ 32) with 4294967296. change (2 ^ 62) with 4611686018427387904. lia.
Qed.

Lemma foldr_false (live : gmap cstring bool) l k :
  foldr (fun k m => <[k := false]> m) live l !! k = if decide (k ∈ l) then Some false else live !! k.
Proof.
  induction l as [|j l IH]; cbn [foldr]; [destruct (decide (k ∈ [])) as [Hn|]; [by apply not_elem_of_nil in Hn|done]|].
  destruct (decide (j = k)) as [->|Hne].
  - rewrite lookup_insert_eq. destruct (decide (k ∈ k :: l)) as [|Hn]; [done|]. destruct Hn. left.
  - rewrite lookup_insert_ne // IH. destruct (decide (k ∈ l)) as [Hl|Hl], (decide (k ∈ j :: l)) as [Hl'|Hl']; try done.
    + destruct Hl'. by right.
    + by apply elem_of_cons in Hl' as [?|?].
Qed.

Lemma exchange_stop c ex rreqs ereqs n :
  Exchange.state_ ex = Exchange.RUNNING -> Exchange.config_ ex = c ->
  RiskManager.running_ (Exchange.risk_manager_ ex) = true ->
  SPSCQueue.holds (RiskManager.input_queue_ (Exchange.risk_manager_ ex)) rreqs ->
  sys_inv (gset_to_gmap true (keys (symbols c))) (Exchange.order_pool_ ex) (Exchange.risk_manager_ ex)
    (Exchange.market_data_queue_ ex) rreqs ereqs n ->
  exists ex', Exchange.stop steady_clock iteration ex = Some ex' /\ exchange_stopped c ex' /\ drained ex ex'.
Proof.
  intros Hst Hc Hrun Hh Hinv. unfold Exchange.stop. rewrite Hst. cbn [bool_decide negb andb].
  set (ex1 := Exchange.set_state Exchange.STOPPING ex). unfold Exchange.on_risk.
  set (s := RiskManager.mkst (Exchange.risk_manager_ ex1) (Exchange.order_pool_ ex1) (Exchange.ticks ex1)).
  destruct (risk_stop_inv steady_clock rreqs ereqs _ _ s Hrun Hh Hinv) as (s' & ereqs' & Hs & Hdec & Hh' & Hinv' & Hrun').
  change (negb _ && negb _) with false. cbv iota. rewrite Hs. cbn [mbind option_bind].
  match goal with |- context [Exchange.stop_engines _ (Exchange.engine_order _ ?x)] => set (ex2 := x) end.
  assert (dom (Exchange.matching_engines_ ex2) = keys (symbols c)) as Hdom.
  { rewrite -(dom_fmap_L MatchingEngine.running_).
    change (Exchange.matching_engines_ ex2) with (RiskManager.matching_engines_ (RiskManager.rm s')).
    by rewrite (si_running _ _ _ _ _ _ _ Hinv') dom_gset_to_gmap. }
  destruct (stop_engines_inv (Exchange.engine_order iteration ex2) ex2 (gset_to_gmap true (keys (symbols c))) ereqs' n (iteration_nodup _)) as
    (ex3 & ereqs3 & -> & (F1 & F2 & M & F3) & Hed & Hr3 & Hinv3); [|exact Hinv'|].
  { intros k. unfold Exchange.engine_order. rewrite iteration_elem Hdom. intros Hk.
    by apply lookup_gset_to_gmap_Some. }
  cbn [mbind option_bind]. eexists. split; [reflexivity|]. split; [|by exists rreqs, s', ex2, ex3].
  assert (dom (Exchange.matching_engines_ ex3) = keys (symbols c)) as Hdom3.
  { apply set_eq. intros k. rewrite -(dom_fmap_L MatchingEngine.running_).
    change (Exchange.matching_engines_ ex3) with (RiskManager.matching_engines_ (Exchange.risk_manager_ ex3)).
    rewrite (si_running _ _ _ _ _ _ _ Hinv3) elem_of_dom foldr_false.
    unfold Exchange.engine_order. destruct (decide _) as [Hk|Hk]; rewrite iteration_elem Hdom in Hk; [by split|].
    apply (lookup_gset_to_gmap_None true) in Hk as Hn. rewrite Hn. split; [by intros [? ?]|done]. }
  split; [done|by cbn; rewrite F1|exact Hdom3|by cbn; rewrite F3|by cbn; rewrite F3| |by apply (sys_inv_market _ _ _ _ _ _ _ Hinv3)|by eexists _, ereqs3, n].
  intros k m Hm. pose proof (elem_of_dom_2 _ _ _ Hm) as Hk. change (k ∈ dom (Exchange.matching_engines_ ex3)) in Hk.
  rewrite Hdom3 in Hk.
  assert (k ∈ Exchange.engine_order iteration ex2) as Hin by (apply iteration_elem; by rewrite Hdom).
  assert (ereqs3 k = []) as Hnone by (rewrite Hr3; by destruct (decide _)).
  split_and!.
  - assert ((MatchingEngine.running_ <$> RiskManager.matching_engines_ (Exchange.risk_manager_ ex3)) !! k = Some (MatchingEngine.running_ m))
      as Hf by (rewrite lookup_fmap; by rewrite Hm).
    rewrite (si_running _ _ _ _ _ _ _ Hinv3) foldr_false in Hf. destruct (decide _); [by injection Hf|done].
  - rewrite -Hnone. exact (si_queue _ _ _ _ _ _ _ Hinv3 k m Hm).
  - exact (proj1 (si_engine _ _ _ _ _ _ _ Hinv3 k m Hm)).
Qed.

(** ** The start *)

Lemma gateway_make_ok (r : RiskManager.t engine) (p : MemoryPool.t Order) :
  MemoryPool.ok p -> SPSCQueue.holds (RiskManager.input_queue_ r) [] ->
  gateway_ok (TcpGateway.make r p) /\ bytes_ok (TcpGateway.make r p).
Proof.
  intros Hp Hq. assert (forall i (cn : ConnectionState), replicate MAX_CONNECTIONS None !! i = Some (Some cn) -> False) as Hno.
  { intros i cn [? _]%lookup_replicate. done. }
  split; [|intros i cn Hi; by apply Hno in Hi].
  split; [split; [exact Hp|by exists []]|]. split; [apply length_replicate|]. intros i cn Hi. by apply Hno in Hi.
Qed.

Lemma idle_sys_ok c ex gw pub mon pc :
  exchange_idle true c ex -> Exchange.state_ ex = Exchange.RUNNING ->
  gateway_ok gw -> bytes_ok gw -> TcpGateway.risk_manager_ gw = Exchange.risk_manager_ ex ->
  TcpGateway.order_pool_ gw = Exchange.order_pool_ ex -> TcpGateway.outbox gw = [] ->
  u64 (UdpPublisher.next_sequence pub) -> sys_ok c (mkSys ex gw pub mon pc).
Proof.
  intros [H1 H2 H3 H4 H5 H6 _] Hst Hg Hb Er Ep Eo Hs.
  split; try done.
  - destruct Hg as [[_ Hq] Hg]. rewrite Er in Hq. split; [|exact Hg]. split; [exact (si_pool _ _ _ _ _ _ _ H6)|exact Hq].
  - exists [], (fun _ => []). split; [done|]. unfold replies. cbn [exch gateway]. rewrite Eo.
    assert (gset_to_gmap true (keys (symbols c)) = MatchingEngine.running_ <$> Exchange.matching_engines_ ex) as ->; [|exact H6].
    apply map_eq. intros k. rewrite lookup_fmap lookup_gset_to_gmap -H2.
    destruct (Exchange.matching_engines_ ex !! k) as [m|] eqn:Hk; cbn [fmap option_fmap option_map].
    + rewrite option_guard_True; [by eapply elem_of_dom_2|]. by rewrite (H3 k m Hk).
    + rewrite option_guard_False; [by apply not_elem_of_dom|done].
Qed.

Lemma startup_ok c ready :
  runnable c -> gateway_ready ready = true ->
  exists σ, run_startup steady_clock iteration ready (Some c) = Started σ /\ sys_ok c σ /\ replies σ = 0 /\
    main_at σ = Serving /\ monitoring_running σ = true /\ Monitoring.ok (monitoring σ).
Proof.
  intros Hc Hr. destruct (exchange_make c Hc) as (ex0 & Hmk & Hst0 & Hidle0).
  destruct (exchange_start c ex0 Hst0 Hidle0) as (ex & Hsx & Hst & Hidle).
  unfold run_startup. rewrite Hmk Hsx Hr. cbn [TcpGateway.start TcpGateway.make TcpGateway.running_].
  cbn [StartupGuard.destroy StartupGuard.commit rev foldl]. eexists. split; [reflexivity|].
  split; [|split_and!; [done|done|done|by apply Monitoring.start_ok, Monitoring.new_service_ok]].
  destruct (gateway_make_ok (Exchange.risk_manager_ ex) (Exchange.order_pool_ ex)) as [Hg Hb].
  { exact (si_pool _ _ _ _ _ _ _ (ei_inv _ _ _ Hidle)). } { exact (ei_queue _ _ _ Hidle). }
  apply idle_sys_ok; [exact Hidle|exact Hst|exact Hg|exact Hb|done|done|done|].
  unfold UdpPublisher.start. destruct (UdpPublisher.running_ _); [|destruct (publisher_ready ready)]; vm_compute; by split.
Qed.

Lemma exchange_stop_idle c ex :
  exchange_idle true c ex -> Exchange.state_ ex = Exchange.RUNNING ->
  exists ex', Exchange.stop steady_clock iteration ex = Some ex' /\ exchange_stopped c ex' /\ drained ex ex'.
Proof.
  intros Hidle Hst.
  destruct (gateway_make_ok (Exchange.risk_manager_ ex) (Exchange.order_pool_ ex)) as [Hg Hb].
  { exact (si_pool _ _ _ _ _ _ _ (ei_inv _ _ _ Hidle)). } { exact (ei_queue _ _ _ Hidle). }
  assert (sys_ok c (mkSys ex (TcpGateway.make (Exchange.risk_manager_ ex) (Exchange.order_pool_ ex))
    (UdpPublisher.make (Exchange.market_data_queue_ ex)) Monitoring.make Serving)) as [H1 H2 H3 _ _ _ (rreqs & ereqs & Hh & Hinv)].
  { apply idle_sys_ok; try done; vm_compute; by split. }
  exact (exchange_stop c ex rreqs ereqs _ H2 H1 H3 Hh Hinv).
Qed.

Lemma startup_rolled_back c ready :
  runnable c -> gateway_ready ready = false ->
  exists σ, run_startup steady_clock iteration ready (Some c) = Aborted "Failed to start TCP Gateway" (Some σ) /\
    exchange_stopped c (exch σ) /\ TcpGateway.running_ (gateway σ) = false /\
    UdpPublisher.running_ (udp_publisher σ) = false /\ monitoring_running σ = false.
Proof.
  intros Hc Hr. destruct (exchange_make c Hc) as (ex0 & Hmk & Hst0 & Hidle0).
  destruct (exchange_start c ex0 Hst0 Hidle0) as (ex & Hsx & Hst & Hidle).
  destruct (exchange_stop_idle c ex Hidle Hst) as (ex' & Hstop & Hs & _).
  unfold run_startup. rewrite Hmk Hsx Hr. cbn [TcpGateway.start TcpGateway.make TcpGateway.running_].
  unfold unwind, StartupGuard.destroy, StartupGuard.add, StartupGuard.make, stop_exchange.
  cbn [app rev foldl mbind option_bind exch]. rewrite Hstop. cbn [mbind option_bind].
  eexists. split; [reflexivity|]. done.
Qed.

(** ** The invariant of the whole life of the process *)

Definition stage (pc : main_pc) : nat :=
  match pc with
  | Serving => 0 | JoiningHttp => 1 | MonitoringDown => 2 | PublisherDown => 3 | GatewayDown => 4 | ExchangeDown => 5
  end.

(** What is stopped by the time the main thread has come this far. *)
Record stages (σ : sys) : Prop := {
  sg_serving : main_at σ = Serving -> monitoring_running σ = true;
  sg_joining : (1 <= stage (main_at σ))%nat ->
    monitoring_running σ = false /\ HttpServer.running_ (Monitoring.http_server (monitoring σ)) = false;
  sg_monitoring : (2 <= stage (main_at σ))%nat -> Monitoring.http_thread (monitoring σ) = None;
  sg_publisher : (3 <= stage (main_at σ))%nat -> UdpPublisher.running_ (udp_publisher σ) = false;
  sg_gateway : (4 <= stage (main_at σ))%nat -> TcpGateway.running_ (gateway σ) = false
}.

Record program_ok (c : Config) (σ : sys) : Prop := {
  po_exchange : if decide (main_at σ = ExchangeDown) then exchange_stopped c (exch σ) else sys_ok c σ;
  po_monitoring : Monitoring.ok (monitoring σ);
  po_stages : stages σ
}.

Lemma program_ok_running c σ : program_ok c σ -> main_at σ <> ExchangeDown -> sys_ok c σ.
Proof. intros [H _ _] Hne. by rewrite decide_False in H. Qed.

Lemma program_ok_down c σ : program_ok c σ -> main_at σ = ExchangeDown -> exchange_stopped c (exch σ).
Proof. intros [H _ _] He. by rewrite decide_True in H. Qed.

(** What a round of a thread leaves to the main thread. *)
Record round_frame (σ σ' : sys) : Prop := {
  rf_main : main_at σ' = main_at σ;
  rf_flag : monitoring_running σ' = monitoring_running σ;
  rf_server : HttpServer.running_ (Monitoring.http_server (monitoring σ')) = HttpServer.running_ (Monitoring.http_server (monitoring σ));
  rf_thread : Monitoring.http_thread (monitoring σ) = None -> Monitoring.http_thread (monitoring σ') = None;
  rf_publisher : UdpPublisher.running_ (udp_publisher σ) = false -> UdpPublisher.running_ (udp_publisher σ') = false;
  rf_gateway : TcpGateway.running_ (gateway σ) = false -> TcpGateway.running_ (gateway σ') = false;
  rf_ok : Monitoring.ok (monitoring σ) -> Monitoring.ok (monitoring σ')
}.

Lemma perform_frame_refl σ : round_frame σ σ.
Proof. by split. Qed.

Lemma round_frame_exch σ ex : round_frame σ (set_exch ex σ).
Proof. by split. Qed.

Lemma round_frame_monitoring σ m :
  Monitoring.running m = monitoring_running σ ->
  HttpServer.running_ (Monitoring.http_server m) = HttpServer.running_ (Monitoring.http_server (monitoring σ)) ->
  (Monitoring.http_thread (monitoring σ) = None -> Monitoring.http_thread m = None) ->
  (Monitoring.ok (monitoring σ) -> Monitoring.ok m) -> round_frame σ (set_monitoring m σ).
Proof. intros. by split. Qed.

Lemma perform_frame a σ σ' :
  Monitoring.ok (monitoring σ) -> action_ok a ->
  perform steady_clock gateway_send publisher_send a σ = Some σ' -> round_frame σ σ'.
Proof.
  intros Hmon Ha Hp. destruct a as [fd|events| |k| |fd|d|]; cbn [perform] in Hp.
  - destruct (TcpGateway.running_ (gateway σ)) eqn:E; injection Hp as <-; [split; (done || congruence)|apply perform_frame_refl].
  - destruct (TcpGateway.running_ (gateway σ)) eqn:E; [|injection Hp as <-; apply perform_frame_refl].
    destruct (TcpGateway.worker_round _ _ _ _) as [g|]; [|done]. injection Hp as <-. split; (done || congruence).
  - destruct (Exchange.risk_round _ _); [|done]. injection Hp as <-. apply round_frame_exch.
  - destruct (Exchange.engine_round _ _ _); [|done]. injection Hp as <-. apply round_frame_exch.
  - destruct (UdpPublisher.running_ (udp_publisher σ)) eqn:E; [|injection Hp as <-; apply perform_frame_refl].
    destruct (UdpPublisher.worker_round _ _ _) as [u|]; [|done]. injection Hp as <-. split; (done || congruence).
  - injection Hp as <-. apply round_frame_monitoring; [..|by apply Monitoring.http_accept_ok];
      unfold Monitoring.http_accept, monitoring_running;
      destruct (Monitoring.http_thread (monitoring σ)) as [[| |]|] eqn:E; try done; by destruct (fd <? 0).
  - destruct (Monitoring.http_receive_ok d (monitoring σ) Hmon Ha) as (m & Hm & Hok & H1 & H2). rewrite Hm in Hp.
    injection Hp as <-. apply round_frame_monitoring; [done|done| |done].
    intros Hn. unfold Monitoring.http_receive in Hm. rewrite Hn in Hm. congruence.
  - injection Hp as <-. apply round_frame_monitoring; [..|by apply Monitoring.metrics_round_ok];
      unfold Monitoring.metrics_round, monitoring_running, MonitoringService.collect_system_metrics;
      destruct (_ && _); try done; by destruct (MonitoringService.has_exchange _), (MonitoringService.has_risk_manager _).
Qed.

Lemma stages_frame σ σ' : round_frame σ σ' -> stages σ -> stages σ'.
Proof.
  intros [F1 F2 F3 F4 F5 F6 _] [S1 S2 S3 S4 S5]. split; rewrite F1; rewrite ?F2 ?F3; auto.
Qed.

(** When everything is down no thread changes anything. *)
Lemma perform_down c σ a :
  program_ok c σ -> main_at σ = ExchangeDown -> perform steady_clock gateway_send publisher_send a σ = Some σ.
Proof.
  intros Hok Hd. pose proof (program_ok_down c σ Hok Hd) as Hs. destruct Hok as [_ Hm [_ S2 S3 S4 S5]].
  rewrite Hd in S2 S3 S4 S5. destruct S2 as [Hr _]; [cbn; lia|].
  specialize (S3 ltac:(cbn; lia)). specialize (S4 ltac:(cbn; lia)). specialize (S5 ltac:(cbn; lia)).
  destruct a as [fd|events| |k| |fd|d|]; cbn [perform].
  - by rewrite S5.
  - by rewrite S5.
  - unfold Exchange.risk_round. rewrite (es_risk _ _ Hs). by destruct σ.
  - unfold Exchange.engine_round. destruct (Exchange.matching_engines_ (exch σ) !! k) as [m|] eqn:Hk; [|by destruct σ].
    destruct (es_each _ _ Hs k m Hk) as [-> _]. by destruct σ.
  - by rewrite S4.
  - unfold Monitoring.http_accept. rewrite S3. by destruct σ.
  - unfold Monitoring.http_receive. rewrite S3. by destruct σ.
  - unfold Monitoring.metrics_round. rewrite (Monitoring.ok_metrics _ Hm).
    change (Monitoring.running (monitoring σ)) with (monitoring_running σ). rewrite Hr. by destruct σ.
Qed.

(** ** The steps of the main thread *)

Lemma stop_publisher_ok c σ :
  sys_ok c σ -> exists u, stop_publisher σ = Some (mkSys (exch σ) (gateway σ) u (monitoring σ) (main_at σ)) /\
    UdpPublisher.running_ u = false /\ sys_ok c (mkSys (exch σ) (gateway σ) u (monitoring σ) (main_at σ)).
Proof.
  intros [H1 H2 H3 H4 H5 H6 H7]. set (u := UdpPublisher.stop (publisher_view σ)). exists u.
  assert (UdpPublisher.input_queue_ u = Exchange.market_data_queue_ (exch σ) /\ UdpPublisher.ticks u = Exchange.ticks (exch σ) /\
    UdpPublisher.running_ u = false /\ UdpPublisher.next_sequence u = UdpPublisher.next_sequence (udp_publisher σ)) as (Eq & Et & Er & Es).
  { unfold u, UdpPublisher.stop. by destruct (UdpPublisher.running_ (publisher_view σ)) eqn:E. }
  split; [|split; [done|split; try done; cbn; by rewrite Es]].
  unfold stop_publisher, put_publisher. fold u. rewrite Eq Et. by destruct (exch σ).
Qed.

Lemma stop_gateway_ok c σ :
  sys_ok c σ -> exists g, stop_gateway σ = Some (mkSys (exch σ) g (udp_publisher σ) (monitoring σ) (main_at σ)) /\
    TcpGateway.running_ g = false /\ TcpGateway.outbox g = TcpGateway.outbox (gateway σ) /\
    sys_ok c (mkSys (exch σ) g (udp_publisher σ) (monitoring σ) (main_at σ)).
Proof.
  intros [H1 H2 H3 [Hc [Hl Hs]] Hb H6 H7]. set (g := TcpGateway.stop (gateway_view σ)). exists g.
  assert (TcpGateway.risk_manager_ g = Exchange.risk_manager_ (exch σ) /\ TcpGateway.order_pool_ g = Exchange.order_pool_ (exch σ) /\
    TcpGateway.ticks g = Exchange.ticks (exch σ) /\ TcpGateway.running_ g = false /\
    TcpGateway.outbox g = TcpGateway.outbox (gateway σ) /\
    (TcpGateway.connections_ g = TcpGateway.connections_ (gateway σ) \/
     TcpGateway.connections_ g = (fun _ => None) <$> TcpGateway.connections_ (gateway σ))) as (Er & Ep & Et & Hr & Ho & Hconn).
  { unfold g, TcpGateway.stop. destruct (TcpGateway.running_ (gateway_view σ)) eqn:E; split_and!; try done; [by right|by left]. }
  assert (forall i cn, TcpGateway.connections_ g !! i = Some (Some cn) ->
    TcpGateway.connections_ (gateway σ) !! i = Some (Some cn)) as Hsub.
  { intros i cn. destruct Hconn as [-> | ->]; [done|]. rewrite list_lookup_fmap. by destruct (_ !! i). }
  split; [unfold stop_gateway, put_gateway; fold g; rewrite Er Ep Et; by destruct (exch σ)|].
  split_and!; [done|done|]. split; try done.
  - split; [exact Hc|]. split.
    + cbn. destruct Hconn as [-> | ->]; [exact Hl|]. by rewrite length_fmap.
    + intros i cn Hi. apply (Hs i cn). by apply Hsub.
  - intros i cn Hi. apply (Hb i cn). by apply Hsub.
  - unfold replies. cbn. rewrite Ho. exact H7.
Qed.

(** The next step of the main thread: the exchange is as it was until it is itself
    stopped, and then its queues are drained; only the join can leave the main
    thread where it is. *)
Lemma main_step_ok c σ :
  program_ok c σ ->
  exists σ', main_step steady_clock iteration σ = Some σ' /\ program_ok c σ' /\ replies σ' = replies σ /\
    (if decide (main_at σ = GatewayDown) then drained (exch σ) (exch σ') else exch σ' = exch σ) /\
    ((main_at σ = JoiningHttp -> is_Some (Monitoring.join_http (monitoring σ))) ->
       stage (main_at σ') = Nat.min 5 (S (stage (main_at σ)))) /\
    (main_at σ = JoiningHttp -> Monitoring.join_http (monitoring σ) = None -> σ' = σ).
Proof.
  intros Hok. pose proof Hok as [Hex Hm Hst]. pose proof Hst as [S1 S2 S3 S4 S5].
  unfold main_step. destruct (main_at σ) eqn:Epc; cbn [stage] in *.
  - pose proof (program_ok_running c σ Hok ltac:(congruence)) as Hsys.
    destruct (Monitoring.begin_stop_ok _ Hm) as [Hm' Hr'].
    eexists. split; [reflexivity|]. split_and!; try done; [|congruence..]. split; [|exact Hm'|].
    + by apply sys_ok_main, sys_ok_monitoring.
    + split; cbn; try lia; try done. intros _. split; [exact Hr'|]. unfold Monitoring.begin_stop.
      specialize (S1 eq_refl). unfold monitoring_running in S1. by rewrite S1.
  - pose proof (program_ok_running c σ Hok ltac:(congruence)) as Hsys. unfold join_http.
    destruct (Monitoring.join_http (monitoring σ)) as [m|] eqn:Ej; cbn [mbind option_bind].
    2: { exists σ. split_and!; try done. intros H. by destruct (H eq_refl). }
    destruct (Monitoring.join_http_ok _ _ Hm Ej) as (Hm' & Hr' & Ht').
    destruct S2 as [Sr Ss]; [lia|].
    eexists. split; [reflexivity|]. split_and!; try done. split; [|exact Hm'|].
    + by apply sys_ok_main, sys_ok_monitoring.
    + split; cbn; try lia; try done. intros _. unfold monitoring_running in *. cbn. split; [congruence|].
      unfold Monitoring.join_http in Ej. destruct (Monitoring.http_thread _) as [[| |]|]; try done; injection Ej as <-; [|done].
      unfold Monitoring.http_server, HttpServer.close_listener in *. cbn. by destruct (0 <=? _).
  - pose proof (program_ok_running c σ Hok ltac:(congruence)) as Hsys.
    destruct (stop_publisher_ok c σ Hsys) as (u & -> & Hu & Hsys'). cbn [mbind option_bind].
    eexists. split; [reflexivity|]. split_and!; try done; [|congruence..]. split; [exact (sys_ok_main c _ PublisherDown Hsys')|exact Hm|].
    split; cbn; try done; try lia; intros _; [apply S2|apply S3]; lia.
  - pose proof (program_ok_running c σ Hok ltac:(congruence)) as Hsys.
    destruct (stop_gateway_ok c σ Hsys) as (g & -> & Hg & Ho & Hsys'). cbn [mbind option_bind].
    eexists. split; [reflexivity|]. split_and!; try done; [|unfold replies; cbn; by rewrite Ho|congruence..].
    split; [exact (sys_ok_main c _ GatewayDown Hsys')|exact Hm|].
    split; cbn; try done; try lia; intros _; [apply S2|apply S3|apply S4]; lia.
  - pose proof (program_ok_running c σ Hok ltac:(congruence)) as [H1 H2 H3 _ _ _ (rreqs & ereqs & Hh & Hinv)].
    destruct (exchange_stop c (exch σ) rreqs ereqs (replies σ) H2 H1 H3 Hh Hinv) as (ex' & Hs & Hstop & Hdr).
    unfold stop_exchange. rewrite Hs. cbn [mbind option_bind].
    eexists. split; [reflexivity|]. split_and!; try done. split; [exact Hstop|exact Hm|].
    split; cbn; try done; intros _; [apply S2|apply S3|apply S4|apply S5]; lia.
  - exists σ. split_and!; try done. by rewrite Epc.
Qed.

(** ** Reachable states *)

Definition step_ok (s : step) : Prop := match s with Thread a => action_ok a | MainThread => True end.

Abbreviation moving := (move steady_clock iteration gateway_send publisher_send).

Lemma move_ok c σ s :
  program_ok c σ -> step_ok s -> exists σ', moving s σ = Some σ' /\ (replies σ' < 2 ^ 30 -> program_ok c σ').
Proof.
  intros Hok Hs. destruct s as [a|]; cbn [move step_ok] in *.
  - destruct (decide (main_at σ = ExchangeDown)) as [Hd|Hd].
    { exists σ. split; [by apply (perform_down c)|done]. }
    pose proof (program_ok_running c σ Hok Hd) as Hsys. pose proof Hok as [_ Hm Hst].
    destruct (perform_ok c σ a Hsys Hm Hs) as (σ' & Hp & Hn). exists σ'. split; [done|]. intros Hlt.
    pose proof (perform_frame a σ σ' Hm Hs Hp) as Hf. split.
    + rewrite (rf_main _ _ Hf). rewrite decide_False //. by apply Hn.
    + by apply (rf_ok _ _ Hf).
    + by apply (stages_frame σ).
  - destruct (main_step_ok c σ Hok) as (σ' & Hm & Hok' & _). by exists σ'.
Qed.

(** Runs of the program that starts from [c], with fewer than 2^30 replies. *)
Inductive reach (c : Config) (ready : readiness) : sys -> Prop :=
  | reach_start σ : run_startup steady_clock iteration ready (Some c) = Started σ -> reach c ready σ
  | reach_step s σ σ' : reach c ready σ -> step_ok s -> moving s σ = Some σ' -> replies σ' < 2 ^ 30 -> reach c ready σ'.

Lemma started_ok c ready σ :
  runnable c -> run_startup steady_clock iteration ready (Some c) = Started σ -> program_ok c σ /\ replies σ = 0.
Proof.
  intros Hc Hs. destruct (gateway_ready ready) eqn:Hr.
  - destruct (startup_ok c ready Hc Hr) as (σ0 & Hs0 & Hok & Hn & Hpc & Hmr & Hm). assert (σ0 = σ) as -> by congruence.
    split; [|done]. split; [by rewrite decide_False; [rewrite Hpc|]|done|]. split; rewrite Hpc; cbn; (lia || done).
  - destruct (startup_rolled_back c ready Hc Hr) as (σ0 & Hs0 & _). congruence.
Qed.

Lemma reach_ok c ready σ : runnable c -> reach c ready σ -> program_ok c σ.
Proof.
  intros Hc. induction 1 as [σ Hs|s σ σ' _ IH Ha Hp Hn].
  - by apply (started_ok c ready).
  - destruct (move_ok c σ s IH Ha) as (σ0 & Hp0 & Hok). assert (σ0 = σ') as -> by congruence. by apply Hok.
Qed.

(** The accounts, the books and the queue of the market data, in every state. *)
Lemma program_ok_inv c σ : program_ok c σ ->
  exists live rreqs ereqs n, sys_inv live (Exchange.order_pool_ (exch σ)) (Exchange.risk_manager_ (exch σ))
    (Exchange.market_data_queue_ (exch σ)) rreqs ereqs n.
Proof.
  intros Hok. destruct (decide (main_at σ = ExchangeDown)) as [Hd|Hd].
  - destruct (program_ok_down c σ Hok Hd) as [_ _ _ _ _ _ _ (live & ereqs & n & Hinv)]. by exists live, [], ereqs, n.
  - destruct (program_ok_running c σ Hok Hd) as [_ _ _ _ _ _ (rreqs & ereqs & _ & Hinv)]. by eexists _, rreqs, ereqs, _.
Qed.

(** ** The shutdown to its end *)

Definition closing (n : nat) : list step := replicate n MainThread.

Lemma moves_cons s steps σ :
  moves steady_clock iteration gateway_send publisher_send (s :: steps) σ =
    (σ' ← moving s σ; moves steady_clock iteration gateway_send publisher_send steps σ').
Proof.
  unfold moves. cbn [foldl mbind option_bind]. destruct (moving s σ); [done|]. cbn [mbind option_bind].
  by induction steps.
Qed.

(** When everything is down the remaining steps change nothing. *)
Lemma moves_down n σ :
  main_at σ = ExchangeDown -> moves steady_clock iteration gateway_send publisher_send (closing n) σ = Some σ.
Proof.
  intros Hd. induction n as [|n IH]; [done|]. cbn [closing replicate]. rewrite moves_cons. cbn [move]. unfold main_step.
  by rewrite Hd.
Qed.

(** Past the join, or with the HTTP thread returned, nothing holds the main thread. *)
Lemma closing_ok c n : forall σ,
  program_ok c σ -> (1 <= stage (main_at σ))%nat -> (5 <= n + stage (main_at σ))%nat ->
  (main_at σ = JoiningHttp -> is_Some (Monitoring.join_http (monitoring σ))) ->
  exists σ', moves steady_clock iteration gateway_send publisher_send (closing n) σ = Some σ' /\
    program_ok c σ' /\ main_at σ' = ExchangeDown /\ replies σ' = replies σ /\
    (main_at σ <> ExchangeDown -> drained (exch σ) (exch σ')).
Proof.
  induction n as [|n IH]; intros σ Hok H1 Hn Hj.
  { exists σ. destruct (main_at σ) eqn:E; cbn in Hn; try lia. by split_and!. }
  cbn [closing replicate]. rewrite moves_cons. cbn [move].
  destruct (main_step_ok c σ Hok) as (σ1 & -> & Hok1 & Hr & Hd & Hs & _). specialize (Hs Hj). cbn [mbind option_bind].
  destruct (IH σ1 Hok1) as (σ' & Hmv & Hok' & Hm' & Hr' & Hd'); [rewrite Hs; lia|rewrite Hs; lia| |].
  { intros E. rewrite E in Hs. cbn [stage] in Hs. lia. }
  exists σ'. rewrite Hmv. split_and!; [done|done|done|congruence|]. intros Hne.
  destruct (decide (main_at σ = GatewayDown)) as [E|E].
  - rewrite E in Hs. cbn in Hs. assert (main_at σ1 = ExchangeDown) as E1 by (by destruct (main_at σ1)).
    rewrite (moves_down n σ1 E1) in Hmv. congruence.
  - rewrite -Hd. apply Hd'. intros E1. rewrite E1 in Hs. cbn in Hs. by destruct (main_at σ).
Qed.

(** The turn the HTTP thread still has to take, [d] being what its client does. *)
Definition http_turn (d : Monitoring.delivery) (σ : sys) : list step :=
  match Monitoring.http_thread (monitoring σ) with
  | Some Monitoring.InAccept => [Thread (HttpAccepts (-1))]
  | Some (Monitoring.InRecv _) => [Thread (HttpReceives d)]
  | _ => []
  end.

Lemma http_turn_ok c σ d :
  program_ok c σ -> Monitoring.d_peer_open d = true -> (1 <= stage (main_at σ))%nat ->
  exists m, moves steady_clock iteration gateway_send publisher_send (http_turn d σ) σ = Some (set_monitoring m σ) /\
    program_ok c (set_monitoring m σ) /\ is_Some (Monitoring.join_http m).
Proof.
  intros [Hex Hm Hst] Hp H1. destruct (sg_joining _ Hst H1) as [_ Hr].
  destruct (Monitoring.last_turn_returns d _ Hm Hp Hr) as (m & Hl & Hm' & Hr1 & Hr2 & Ht & Hj). exists m.
  split; [|split; [|done]].
  - unfold Monitoring.last_turn in Hl. unfold http_turn.
    destruct (Monitoring.http_thread (monitoring σ)) as [[| |]|]; unfold moves; cbn [foldl move perform mbind option_bind].
    + by injection Hl as <-.
    + by rewrite Hl.
    + injection Hl as <-. by destruct σ.
    + injection Hl as <-. by destruct σ.
  - split; [|exact Hm'|].
    + cbn. destruct (decide _); [done|by apply sys_ok_monitoring].
    + apply (stages_frame σ); [|done]. by apply round_frame_monitoring; [|congruence| |].
Qed.

Lemma moves_app steps1 steps2 σ :
  moves steady_clock iteration gateway_send publisher_send (steps1 ++ steps2) σ =
    (moves steady_clock iteration gateway_send publisher_send steps1 σ ≫=
     moves steady_clock iteration gateway_send publisher_send steps2).
Proof.
  revert σ. induction steps1 as [|s steps1 IH]; intros σ; [done|]. cbn [app]. rewrite !moves_cons.
  destruct (moving s σ) as [σ1|]; [|done]. cbn [mbind option_bind]. apply IH.
Qed.

(** The rest of the shutdown when the other threads are left out of it. *)
Definition shut_down (d : Monitoring.delivery) (σ : sys) : list step := MainThread :: http_turn d σ ++ closing 4.

(** The step of the main thread leaves the HTTP thread its turn. *)
Lemma main_step_turn d σ σ1 :
  main_step steady_clock iteration σ = Some σ1 ->
  http_turn d σ = http_turn d σ1 \/ http_turn d σ = [] /\ main_at σ1 <> JoiningHttp.
Proof.
  unfold main_step. intros Hmv. destruct (main_at σ) eqn:E; try by (injection Hmv as <-; left).
  - injection Hmv as <-. left. unfold http_turn, begin_stop_monitoring, Monitoring.begin_stop. cbn. by destruct (negb _).
  - unfold join_http in Hmv. destruct (Monitoring.join_http (monitoring σ)) as [m|] eqn:Ej; cbn [mbind option_bind] in Hmv.
    + injection Hmv as <-. right. split; [|done]. unfold Monitoring.join_http in Ej. unfold http_turn.
      by destruct (Monitoring.http_thread (monitoring σ)) as [[| |]|].
    + injection Hmv as <-. by left.
  - destruct (stop_exchange _ _ _) as [x|] eqn:Ex; [|done]. injection Hmv as <-. left.
    unfold stop_exchange in Ex. destruct (Exchange.stop _ _ _); [|done]. by injection Ex as <-.
Qed.

Lemma shut_down_ok c σ d :
  program_ok c σ -> Monitoring.d_peer_open d = true ->
  exists σ', moves steady_clock iteration gateway_send publisher_send (shut_down d σ) σ = Some σ' /\
    program_ok c σ' /\ main_at σ' = ExchangeDown /\ replies σ' = replies σ /\
    (main_at σ <> ExchangeDown -> drained (exch σ) (exch σ')).
Proof.
  intros Hok Hp. unfold shut_down. rewrite moves_cons. cbn [move].
  destruct (main_step_ok c σ Hok) as (σ1 & Hmv & Hok1 & Hr1 & Hd & Hs & Hstay). rewrite Hmv. cbn [mbind option_bind].
  assert (1 <= stage (main_at σ1))%nat as H1.
  { destruct (decide (main_at σ = JoiningHttp)) as [E|E]; [destruct (Monitoring.join_http (monitoring σ)) eqn:Ej|].
    - rewrite -> Hs by (intros; by eexists). lia.
    - rewrite (Hstay E eq_refl) E. cbn. lia.
    - rewrite -> Hs by done. lia. }
  assert (exists σ2, moves steady_clock iteration gateway_send publisher_send (http_turn d σ) σ1 = Some σ2 /\
    program_ok c σ2 /\ exch σ2 = exch σ1 /\ main_at σ2 = main_at σ1 /\ replies σ2 = replies σ1 /\
    (main_at σ2 = JoiningHttp -> is_Some (Monitoring.join_http (monitoring σ2)))) as (σ2 & Hmv2 & Hok2 & Eex & Epc & Er & Hj).
  { destruct (main_step_turn d σ σ1 Hmv) as [-> | [-> Hne]].
    - destruct (http_turn_ok c σ1 d Hok1 Hp H1) as (m & Hm & Hokm & Hj). by exists (set_monitoring m σ1).
    - exists σ1. by split_and!. }
  rewrite moves_app Hmv2. cbn [mbind option_bind].
  destruct (closing_ok c 4 σ2 Hok2) as (σ' & Hcl & Hok' & Hm' & Hr' & Hd'); [by rewrite Epc|rewrite Epc; lia|done|].
  exists σ'. split_and!; [done|done|done|congruence|]. intros Hne.
  destruct (decide (main_at σ = GatewayDown)) as [E|E].
  - rewrite E in Hs. cbn in Hs. specialize (Hs ltac:(done)).
    assert (main_at σ1 = ExchangeDown) as E1 by (by destruct (main_at σ1)).
    rewrite (moves_down 4 σ2 ltac:(congruence)) in Hcl. injection Hcl as <-. by rewrite Eex.
  - rewrite -Hd -Eex. apply Hd'. rewrite Epc. intros E1. destruct (main_at σ) eqn:E'; try done.
    2: { destruct (Monitoring.join_http (monitoring σ)); [|by rewrite (Hstay eq_refl eq_refl) E' in E1].
         rewrite E1 in Hs. specialize (Hs ltac:(intros; by eexists)). done. }
    all: rewrite E1 in Hs; specialize (Hs ltac:(done)); done.
Qed.

(** A client that says nothing holds the main thread in the join. *)
Lemma main_step_stuck σ :
  main_at σ = JoiningHttp -> Monitoring.stuck (monitoring σ) = true -> main_step steady_clock iteration σ = Some σ.
Proof. intros E Hs. unfold main_step, join_http. by rewrite E (Monitoring.stuck_join _ Hs). Qed.

Lemma perform_stuck a σ σ' :
  Monitoring.stuck (monitoring σ) = true -> (forall d, a <> HttpReceives d) ->
  perform steady_clock gateway_send publisher_send a σ = Some σ' -> Monitoring.stuck (monitoring σ') = true.
Proof.
  intros Hs Ha Hp. destruct a as [fd|events| |k| |fd|d|]; cbn [perform] in Hp; [..|by destruct (Ha d)|].
  - injection Hp as <-. by destruct (TcpGateway.running_ _).
  - destruct (TcpGateway.running_ _); [|by injection Hp as <-]. destruct (TcpGateway.worker_round _ _ _ _); [|done]. by injection Hp as <-.
  - destruct (Exchange.risk_round _ _); [|done]. by injection Hp as <-.
  - destruct (Exchange.engine_round _ _ _); [|done]. by injection Hp as <-.
  - destruct (UdpPublisher.running_ _); [|by injection Hp as <-]. destruct (UdpPublisher.worker_round _ _ _); [|done]. by injection Hp as <-.
  - injection Hp as <-. cbn. by rewrite (proj1 (Monitoring.stuck_stays _ fd Hs)).
  - injection Hp as <-. exact (proj2 (Monitoring.stuck_stays _ 0 Hs)).
Qed.

End program.
