(* ===== verification/SystemTheorems.v ===== *)
(** * What the running program guarantees

    The properties of the program as a whole, over every order of the rounds of
    its threads and of the stop calls of the main thread, and every behaviour of
    the sockets: in no reachable state is a next round undefined, the books stay
    well formed and hold each order once, the limits of the clients are respected;
    the shutdown processes every request that waits, once the HTTP thread lets the
    main thread go on; a failed start is rolled back.  A round is one step here:
    what two rounds do to each other in their middle is outside.  Two further results say
    what the wiring of the components does not do. *)

From S2P Require Import Prelude Types MemoryPool OrderPool OrderBook OrderBookInv OrderBookTheorems.
From S2P Require Import SpscQueue MpmcQueue MatchingEngine EngineTheorems Double RiskManager RiskTheorems MemorySafety.
From S2P Require Import Protocol TcpGateway GatewayTheorems ErrorHandling InputValidation Strings SecurityUtils ConfigLoader.
From S2P Require Import HttpServer Metrics Monitoring UdpPublisher Exchange SystemFrames GatewayFrames Main ExchangeInv SystemInv.

(** C7: In every state the program reaches by whole rounds of its threads and stop
    calls of its main thread, in any order, each of them can take its next one,
    whatever the network delivers: the acceptor and the worker of the gateway, the
    risk manager, each engine, the publisher, the HTTP server, the collector of the
    metrics and the main thread return without undefined behaviour, a failed
    assertion or [SIGPIPE].  The books of all engines are well formed over the
    shared pool, no order rests in two of them, and no client's exposure is above
    the limit.  (The conditions: fewer than 2^30 replies so far; no client of the
    HTTP server resets its connection before its response is sent.) *)
Theorem system_safe steady_clock iteration gateway_send publisher_send c ready σ :
  (forall ks, iteration ks ≡ₚ elements ks) -> runnable c ->
  reach steady_clock iteration gateway_send publisher_send c ready σ ->
  (forall s, step_ok s -> exists σ', move steady_clock iteration gateway_send publisher_send s σ = Some σ') /\
  (forall k m, Exchange.matching_engines_ (exch σ) !! k = Some m ->
     inv [] (engine_env (Exchange.order_pool_ (exch σ)) m)) /\
  (forall k1 k2 m1 m2 i, k1 <> k2 -> Exchange.matching_engines_ (exch σ) !! k1 = Some m1 ->
     Exchange.matching_engines_ (exch σ) !! k2 = Some m2 ->
     i ∈ all_ptrs (OrderBook.book (MatchingEngine.book_ m1)) ->
     i ∉ all_ptrs (OrderBook.book (MatchingEngine.book_ m2))) /\
  (forall client, 0 <= exposure (RiskManager.mkst (Exchange.risk_manager_ (exch σ)) (Exchange.order_pool_ (exch σ)) 0) client
     <= RiskManager.max_notional_scaled_ (Exchange.risk_manager_ (exch σ))).
Proof.
  intros Hit Hc Hr. pose proof (reach_ok _ _ _ _ Hit _ _ _ Hc Hr) as Hok.
  destruct (program_ok_inv c σ Hok) as (live & rreqs & ereqs & n & Hinv). split_and!.
  - intros a Ha. destruct (move_ok steady_clock iteration gateway_send publisher_send Hit c σ a Hok Ha) as (σ' & Hp & _). by exists σ'.
  - intros k m Hk. exact (proj1 (si_engine _ _ _ _ _ _ _ Hinv k m Hk)).
  - intros k1 k2 m1 m2 i Hne Hk1 Hk2 H1 H2. apply (si_apart _ _ _ _ _ _ _ Hinv k1 k2 m1 m2 i Hne Hk1 Hk2);
      apply elem_of_app; by right.
  - apply (si_accounts _ _ _ _ _ _ _ Hinv).
Qed.

Definition ex_run_config : Config := ex_config [cstr "AAPL"; cstr "MSFT"].
Definition ex_ready : readiness := mkReady true true 3 true true.
Abbreviation all_accepted := (fun (_ n : nat) => Z.of_nat n).
Definition ex_iteration (ks : gset cstring) : list cstring := elements ks.

Lemma ex_iteration_visits ks : ex_iteration ks ≡ₚ elements ks.
Proof. done. Qed.

Lemma ex_runnable : runnable ex_run_config.
Proof.
  split.
  - by vm_compute.
  - by vm_compute.
  - vm_compute. by eexists.
  - intros s Hin. cbn in Hin. apply list_elem_of_In in Hin. destruct Hin as [<-|[<-|[]]]; vm_compute; by eexists.
Qed.

Lemma system_safe_witness :
  exists σ, run_startup (fun _ => 0) ex_iteration ex_ready (Some ex_run_config) = Started σ /\
    (forall s, step_ok s -> exists σ', move (fun _ => 0) ex_iteration (fun _ => 1) all_accepted s σ = Some σ').
Proof.
  destruct (startup_ok (fun _ => 0) ex_iteration ex_iteration_visits ex_run_config ex_ready ex_runnable eq_refl)
    as (σ & Hs & _).
  exists σ. split; [exact Hs|].
  exact (proj1 (system_safe (fun _ => 0) ex_iteration (fun _ => 1) all_accepted ex_run_config ex_ready σ
    ex_iteration_visits ex_runnable (reach_start _ _ _ _ _ _ σ Hs))).
Defined.

(** C8: The shutdown loses no request.  Whatever rounds the threads took before and
    between the stop calls, when the main thread comes to stop the exchange, all
    requests that wait in the queue of the risk manager are decided, in order, and
    then every engine processes, in order, all that its queue holds by then, the
    orders just approved included; after that nothing runs, those queues are empty
    and every book is well formed.  (The queue of the market data is not drained:
    the publisher was stopped before, and what is in it is not sent.)  From every
    reachable state the main thread gets there as soon as the HTTP thread returns,
    for which the client it waits for has to send something or close; while that
    client does neither, the main thread stays in the join.  A second stop of the
    exchange changes nothing, and a second start is refused with an exception. *)
Theorem shutdown_drains steady_clock iteration gateway_send publisher_send c ready σ :
  (forall ks, iteration ks ≡ₚ elements ks) -> runnable c ->
  reach steady_clock iteration gateway_send publisher_send c ready σ ->
  (main_at σ = GatewayDown ->
     exists σ', main_step steady_clock iteration σ = Some σ' /\ main_at σ' = ExchangeDown /\
       drained steady_clock iteration (exch σ) (exch σ') /\ exchange_stopped c (exch σ')) /\
  (forall d, Monitoring.d_peer_open d = true ->
     exists σ', moves steady_clock iteration gateway_send publisher_send (shut_down d σ) σ = Some σ' /\
       (main_at σ <> ExchangeDown -> drained steady_clock iteration (exch σ) (exch σ')) /\
       main_at σ' = ExchangeDown /\ exchange_stopped c (exch σ') /\
       TcpGateway.running_ (gateway σ') = false /\ UdpPublisher.running_ (udp_publisher σ') = false /\
       monitoring_running σ' = false /\
       Exchange.stop steady_clock iteration (exch σ') = Some (exch σ') /\
       Exchange.destroy steady_clock iteration (exch σ') = Some (exch σ') /\
       Exchange.start iteration (exch σ') = Throws "Exchange::start() called in invalid state") /\
  (main_at σ = JoiningHttp -> Monitoring.stuck (monitoring σ) = true -> main_step steady_clock iteration σ = Some σ).
Proof.
  intros Hit Hc Hr. pose proof (reach_ok _ _ _ _ Hit _ _ _ Hc Hr) as Hok. split; [|split; [|exact (main_step_stuck steady_clock iteration Hit σ)]].
  - intros E. destruct (main_step_ok steady_clock iteration Hit c σ Hok) as (σ' & Hm & Hok' & _ & Hd & Hs & _). exists σ'.
    rewrite E in Hd Hs. specialize (Hs ltac:(done)). assert (main_at σ' = ExchangeDown) as E' by (by destruct (main_at σ')).
    split_and!; [done|done|exact Hd|by apply program_ok_down].
  - intros d Hd. destruct (shut_down_ok steady_clock iteration gateway_send publisher_send Hit c σ d Hok Hd) as (σ' & Hm & Hok' & E & _ & Hdr).
    exists σ'. pose proof (program_ok_down c σ' Hok' E) as Hstop. pose proof (es_state _ _ Hstop) as Hst.
    destruct Hok' as [_ _ [_ S2 _ S4 S5]]. rewrite E in S2 S4 S5. cbn [stage] in S2, S4, S5.
    unfold Exchange.stop, Exchange.destroy, Exchange.start. rewrite Hst.
    split_and!; try done; [apply S5|apply S4|apply S2]; lia.
Qed.

Lemma shutdown_drains_witness :
  exists σ σ', run_startup (fun _ => 0) ex_iteration ex_ready (Some ex_run_config) = Started σ /\
    moves (fun _ => 0) ex_iteration (fun _ => 1) all_accepted (shut_down (ex_delivery None true) σ) σ = Some σ' /\
    Exchange.state_ (exch σ') = Exchange.STOPPED.
Proof.
  destruct (startup_ok (fun _ => 0) ex_iteration ex_iteration_visits ex_run_config ex_ready ex_runnable eq_refl)
    as (σ & Hs & _).
  destruct (shutdown_drains (fun _ => 0) ex_iteration (fun _ => 1) all_accepted ex_run_config ex_ready σ
    ex_iteration_visits ex_runnable (reach_start _ _ _ _ _ _ σ Hs)) as (_ & H & _).
  destruct (H (ex_delivery None true) eq_refl) as (σ' & H1 & _ & _ & H2 & _).
  exists σ, σ'. split; [exact Hs|]. split; [exact H1|]. exact (es_state _ _ H2).
Defined.

(** A start that fails leaves nothing running.  Without a configuration
    [run_exchange] throws before anything is built; when the gateway cannot
    listen, its exception is passed on after the guard has stopped the exchange,
    whose engines and risk manager had been running.  Otherwise the program
    starts, with one engine for every configured symbol. *)
Theorem startup_rollback steady_clock iteration c ready :
  (forall ks, iteration ks ≡ₚ elements ks) -> runnable c ->
  run_startup steady_clock iteration ready None = Aborted "Exchange: null config" None /\
  (gateway_ready ready = false ->
     exists σ, run_startup steady_clock iteration ready (Some c) = Aborted "Failed to start TCP Gateway" (Some σ) /\
       exchange_stopped c (exch σ) /\ TcpGateway.running_ (gateway σ) = false /\
       UdpPublisher.running_ (udp_publisher σ) = false /\ monitoring_running σ = false) /\
  (gateway_ready ready = true ->
     exists σ, run_startup steady_clock iteration ready (Some c) = Started σ /\
       Exchange.is_running (exch σ) = true /\
       forall s, s ∈ symbols c ->
         is_Some (Exchange.get_matching_engine (FixedString.make SYMBOL_N (Some (sc_symbol s))) (exch σ))).
Proof.
  intros Hit Hc. split; [done|]. split; intros Hr; [by apply startup_rolled_back|].
  destruct (startup_ok steady_clock iteration Hit c ready Hc Hr) as (σ & Hs & [H1 H2 _ _ _ _ (? & ? & _ & Hinv)] & _).
  exists σ. split; [done|]. split; [unfold Exchange.is_running; by rewrite H2|].
  intros s Hin. unfold Exchange.get_matching_engine. apply (fmap_is_Some MatchingEngine.running_).
  rewrite -lookup_fmap (si_running _ _ _ _ _ _ _ Hinv).
  exists true. apply lookup_gset_to_gmap_Some. split; [|done]. unfold keys.
  rewrite elem_of_list_to_set list_elem_of_fmap. by exists s.
Qed.

Lemma startup_rollback_witness :
  exists σ, run_startup (fun _ => 0) ex_iteration (mkReady false true 3 true true) (Some ex_run_config) =
      Aborted "Failed to start TCP Gateway" (Some σ) /\ exchange_stopped ex_run_config (exch σ).
Proof.
  destruct (startup_rollback (fun _ => 0) ex_iteration ex_run_config (mkReady false true 3 true true) ex_iteration_visits ex_runnable)
    as (_ & H & _).
  destruct (H eq_refl) as (σ & H1 & H2 & _). exists σ. split; [exact H1|exact H2].
Defined.

(** A configuration that [load_from_file] returns can be run: unless the limit
    of the notional is too large for its scaled 64-bit form (the one thing the
    validation does not check), the program starts, with one engine for each of
    the three symbols built into the loader, whatever the file lists. *)
Theorem loaded_config_starts steady_clock iteration fs path c ready :
  (forall ks, iteration ks ≡ₚ elements ks) -> load_from_file fs path = Done c ->
  is_Some (trunc_u64 (double_mul (max_notional_per_client (risk (base c))) (double_of_Z PRICE_SCALE))) ->
  gateway_ready ready = true ->
  runnable (base c) /\
  exists σ, run_startup steady_clock iteration ready (Some (base c)) = Started σ /\
    dom (Exchange.matching_engines_ (exch σ)) = {[cstr "AAPL"; cstr "MSFT"; cstr "GOOGL"]}.
Proof.
  intros Hit Hl Hn Hr. unfold load_from_file in Hl. destruct (negb _); [done|]. destruct (bool_decide _); [done|].
  destruct (read_file _ _) as [content|]; [|done]. destruct (JsonParser.parse content) as [c'| |] eqn:Hp; [|done|done].
  destruct (has_error (ConfigurationValidator.validate_full_config (base c'))) eqn:Hv; [done|]. injection Hl as ->.
  apply parse_shape in Hp as (Hs & Hq & Hpool). pose proof (validated_pool (base c) Hv) as Hsize.
  assert (runnable (base c)) as Hc.
  { split; [unfold MemoryPool.POOL_EMPTY; lia|rewrite Hq; by vm_compute|done|].
    rewrite Hs. intros s Hin. apply list_elem_of_In in Hin. destruct Hin as [<-|[<-|[<-|[]]]]; vm_compute; by eexists. }
  split; [done|]. destruct (startup_ok steady_clock iteration Hit (base c) ready Hc Hr) as (σ & Hst & [_ _ _ _ _ _ (? & ? & _ & Hinv)] & _).
  exists σ. split; [done|].
  change (Exchange.matching_engines_ (exch σ)) with (RiskManager.matching_engines_ (Exchange.risk_manager_ (exch σ))).
  rewrite -(dom_fmap_L MatchingEngine.running_) (si_running _ _ _ _ _ _ _ Hinv) dom_gset_to_gmap Hs. reflexivity.
Qed.

(** A file system with the given text at /etc/rtes/config.json. *)
Definition ex_config_fs (text : cstring) : FileSystem :=
  mkFileSystem (cstr "/etc/rtes") (fun _ => Some (cstr "/etc/rtes/config.json")) (fun _ => Some (cstr "/etc/rtes"))
    (fun _ _ => Some (cstr "config.json")) (fun _ => Some text).

Definition ex_loaded : FullConfig :=
  match load_from_file (ex_config_fs shipped_config) (cstr "config.json") with
  | Done c => c
  | _ => mkFullConfig ex_run_config (mkLogging [] 0 false) (mkPersistence false 0 [])
  end.

Lemma loaded_config_starts_witness :
  exists σ, run_startup (fun _ => 0) ex_iteration ex_ready (Some (base ex_loaded)) = Started σ /\
    dom (Exchange.matching_engines_ (exch σ)) = {[cstr "AAPL"; cstr "MSFT"; cstr "GOOGL"]}.
Proof.
  refine (proj2 (loaded_config_starts (fun _ => 0) ex_iteration (ex_config_fs shipped_config) (cstr "config.json")
    ex_loaded ex_ready ex_iteration_visits _ _ eq_refl)).
  - vm_compute. reflexivity.
  - vm_compute. eexists. reflexivity.
Defined.

(** A notional limit of 10^16 passes the validation, and its conversion in the
    constructor of the risk manager is undefined. *)
Example huge_notional_undefined :
  let text := json_text "{'name': 'X', 'tcp_port': 8888, 'udp_multicast_group': '239.0.0.1', 'udp_port': 9999,
    'metrics_port': 8080, 'max_order_size': 10, 'max_notional_per_client': 10000000000000000,
    'max_orders_per_second': 10, 'order_pool_size': 10, 'queue_capacity': 10, 'udp_buffer_size': 1,
    'rate_limit_ms': 1, 'snapshot_interval_ms': 1}" in
  match load_from_file (ex_config_fs text) (cstr "config.json") with
  | Done c => Exchange.make ex_iteration (Some (base c)) = Undefined
  | _ => False
  end.
Proof. vm_compute. reflexivity. Qed.

(** The price collar never rejects an order: in no reachable state has any
    symbol a reference price, since nothing that runs sets one, and without one
    the check passes every price.  (A comment of exchange.hpp promises a feedback
    of the trade prices to the risk manager.) *)
Theorem collar_inactive steady_clock iteration gateway_send publisher_send c ready σ order sym_config :
  (forall ks, iteration ks ≡ₚ elements ks) -> runnable c ->
  reach steady_clock iteration gateway_send publisher_send c ready σ ->
  RiskManager.reference_prices_ (Exchange.risk_manager_ (exch σ)) = ∅ /\
  RiskManager.check_price_collar_int (Exchange.risk_manager_ (exch σ)) order sym_config = Some true.
Proof.
  intros Hit Hc Hr. pose proof (reach_ok _ _ _ _ Hit _ _ _ Hc Hr) as Hok.
  destruct (program_ok_inv c σ Hok) as (live & rreqs & ereqs & n & Hinv).
  pose proof (si_prices _ _ _ _ _ _ _ Hinv) as Hp. split; [done|].
  unfold RiskManager.check_price_collar_int. by rewrite Hp lookup_empty.
Qed.

Lemma collar_inactive_witness :
  exists σ, run_startup (fun _ => 0) ex_iteration ex_ready (Some ex_run_config) = Started σ /\
    RiskManager.check_price_collar_int (Exchange.risk_manager_ (exch σ)) Order_default (ex_symbol_config (cstr "AAPL")) = Some true.
Proof.
  destruct (startup_ok (fun _ => 0) ex_iteration ex_iteration_visits ex_run_config ex_ready ex_runnable eq_refl)
    as (σ & Hs & _).
  exists σ. split; [exact Hs|].
  exact (proj2 (collar_inactive (fun _ => 0) ex_iteration (fun _ => 1) all_accepted ex_run_config ex_ready σ
    Order_default (ex_symbol_config (cstr "AAPL")) ex_iteration_visits ex_runnable (reach_start _ _ _ _ _ _ σ Hs))).
Defined.

(** ** A run of the whole program *)

Definition ex_order_bytes (id : Z) (client symbol : cstring) (side quantity price : Z) : list Z :=
  encode_new_order (mkNewOrder (MessageHeader_make NEW_ORDER 110 0 0) id
    (BoundedString.mk (client ++ replicate (32 - length client) 0) (Z.of_nat (length client)))
    (BoundedString.mk (symbol ++ replicate (8 - length symbol) 0) (Z.of_nat (length symbol))) side quantity price 2).
Definition ex_cancel_bytes (id : Z) (client symbol : cstring) : list Z :=
  encode_cancel_order (mkCancelOrder (MessageHeader_make CANCEL_ORDER 92 0 0) id
    (BoundedString.mk (client ++ replicate (32 - length client) 0) (Z.of_nat (length client)))
    (BoundedString.mk (symbol ++ replicate (8 - length symbol) 0) (Z.of_nat (length symbol)))).

Definition ex_receive (fd : Z) (bytes : list Z) : action :=
  GatewayRound [TcpGateway.mkEvent fd false true [bytes] WouldBlock].

(** The rounds in turn, from the start of the program, and the shutdown. *)
Definition ex_moves : list step -> sys -> option sys := moves (fun n => Z.of_nat n) ex_iteration (fun _ => 1) all_accepted.
Definition ex_run (actions : list action) : option sys :=
  match run_startup (fun n => Z.of_nat n) ex_iteration ex_ready (Some ex_run_config) with
  | Started σ => ex_moves (Thread <$> actions) σ
  | _ => None
  end.
Definition ex_shut_down (σ : sys) : option sys := ex_moves (shut_down (ex_delivery None true) σ) σ.

Definition ex_resting (symbol : cstring) (σ : sys) : option nat :=
  m ← Exchange.matching_engines_ (exch σ) !! RiskManager.symbol_key symbol;
  Some (length (all_ptrs (OrderBook.book (MatchingEngine.book_ m)))).

(** An order travels from the bytes on the socket through the gateway, the risk
    manager and the engine into the book, the publisher announces the new best
    price, and the shutdown leaves the order in the book. *)
Example order_reaches_the_book :
  match ex_run [Accept 5; ex_receive 5 (ex_order_bytes 7 (cstr "alice") (cstr "AAPL") 1 10 1000000);
                RiskRound; EngineRound (cstr "AAPL"); PublisherRound] with
  | Some σ =>
      ex_resting (cstr "AAPL") σ = Some 1%nat /\ length (TcpGateway.outbox (gateway σ)) = 1%nat /\
      length (UdpPublisher.wire (udp_publisher σ)) = 1%nat /\
      (ex_shut_down σ ≫= ex_resting (cstr "AAPL")) = Some 1%nat
  | None => False
  end.
Proof. vm_compute. by split_and!. Qed.

(** Clients choose the ids of their orders, and the risk manager finds the
    engine of a cancellation by the id alone.  Bob's order 7 is for MSFT, Alice's
    order 7, which came later, for AAPL: Bob's cancellation of order 7 removes
    Alice's order and leaves his own in the book. *)
Example cancel_hits_another_client :
  let orders := [Accept 5; Accept 6; ex_receive 5 (ex_order_bytes 7 (cstr "bob") (cstr "MSFT") 1 10 1000000);
                 ex_receive 6 (ex_order_bytes 7 (cstr "alice") (cstr "AAPL") 1 10 1000000);
                 RiskRound; EngineRound (cstr "AAPL"); EngineRound (cstr "MSFT")] in
  let cancel := [ex_receive 5 (ex_cancel_bytes 7 (cstr "bob") (cstr "MSFT")); RiskRound;
                 EngineRound (cstr "AAPL"); EngineRound (cstr "MSFT")] in
  match ex_run orders, ex_run (orders ++ cancel) with
  | Some σ, Some σ' =>
      ex_resting (cstr "AAPL") σ = Some 1%nat /\ ex_resting (cstr "MSFT") σ = Some 1%nat /\
      ex_resting (cstr "AAPL") σ' = Some 0%nat /\ ex_resting (cstr "MSFT") σ' = Some 1%nat
  | _, _ => False
  end.
Proof. vm_compute. by split_and!. Qed.

(** An order the risk manager rejects keeps its slot in the pool: it is in no
    queue and in no book, and nothing returns it, the shutdown included. *)
Example rejected_order_keeps_its_slot :
  match ex_run [Accept 5; ex_receive 5 (ex_order_bytes 7 (cstr "alice") (cstr "NOPE") 1 10 1000000); RiskRound]
        ≫= ex_shut_down with
  | Some σ =>
      rs_rejected (RiskManager.stats_atomic_ (Exchange.risk_manager_ (exch σ))) = 1 /\
      ex_resting (cstr "AAPL") σ = Some 0%nat /\ ex_resting (cstr "MSFT") σ = Some 0%nat /\
      MemoryPool.allocated_ (Exchange.order_pool_ (exch σ)) = 1
  | None => False
  end.
Proof. vm_compute. by split_and!. Qed.

(** An order that still waits when the signal comes is decided and put into the
    book during the shutdown; the new best price it makes is in the market data
    queue afterwards, and in no datagram. *)
Example last_events_not_sent :
  match ex_run [Accept 5; ex_receive 5 (ex_order_bytes 7 (cstr "alice") (cstr "AAPL") 1 10 1000000)] ≫= ex_shut_down with
  | Some σ =>
      ex_resting (cstr "AAPL") σ = Some 1%nat /\ UdpPublisher.wire (udp_publisher σ) = [] /\
      MPMCQueue.size_approx (Exchange.market_data_queue_ (exch σ)) = 1
  | None => False
  end.
Proof. vm_compute. by split_and!. Qed.

(** A client of the metrics port that connects and says nothing: the stop waits for
    it, and the exchange goes on meanwhile; when it resets its connection before it
    is answered, the process is gone. *)
Example silent_http_client_delays_stop :
  let connected := ex_run [HttpAccepts 9] in
  (main_at <$> (connected ≫= ex_moves (replicate 9 MainThread))) = Some JoiningHttp /\
  (Exchange.state_ ∘ exch <$> (connected ≫= ex_moves (replicate 9 MainThread))) = Some Exchange.RUNNING /\
  (connected ≫= ex_moves [Thread (HttpReceives (ex_delivery (Some (cstr "GET /health HTTP/1.1" ++ CRLF)) false))]) = None.
Proof. vm_compute. by split_and!. Qed.
