(* ===== verification/Program.v ===== *)
(** * The program from its command line to its exit status (src/main.cpp)

    [main] checks its argument, loads the configuration, sets up the logger and
    calls [run_exchange], which starts the components, waits for a signal while
    their threads run, and shuts them down.  What happens after the start is a list
    of events: rounds of the threads, the delivery of a signal, and the steps of
    the main thread (a look at the flag while it waits, then one stop call after
    the other). *)

From S2P Require Import Prelude Types MemoryPool MatchingEngine Double RiskManager MemorySafety Strings.
From S2P Require Import TcpGateway GatewayTheorems InputValidation SecurityUtils ConfigLoader UdpPublisher Exchange Logger.
From S2P Require Import HttpServer Metrics Monitoring Main ExchangeInv SystemInv SystemTheorems.
From Stdlib Require Import String.

Definition configure_logger (c : LoggingConfig) (l : Logger.t) : Logger.t :=
  Logger.enable_structured (enable_structured c)
    (Logger.set_rate_limit (rate_limit_ms c) (Logger.set_level (parse_log_level (log_level c)) l)).

(** What [parse_log_level] writes to [std::cerr]. *)
Definition level_warning (level_str : cstring) : list cstring :=
  match List.find (fun e => bool_decide (fst e = toupper <$> level_str)) level_map with
  | Some _ => []
  | None => [cstr "Warning: Unknown log level '" ++ level_str ++ cstr "', defaulting to INFO"]
  end.

Inductive event :=
  | Acts (a : action)        (* a round of one of the threads *)
  | SignalArrives            (* SIGINT or SIGTERM *)
  | MainRuns.                (* the main thread goes on *)

(** [g_shutdown_requested = 1] *)
Definition signal_handler (g : Z) : Z := 1.

(** The test of [wait_for_shutdown]: whether it returns. *)
Definition wait_for_shutdown (g : Z) : bool := negb (g =? 0).

Inductive run_result :=
  | StillRuns (σ : sys)
  | Finished (σ : sys)
  | Raised (what : string)
  | Crash.

Inductive outcome_of_main :=
  | Running (l : Logger.t) (σ : sys)
  | Exited (code : Z) (errors : list cstring) (l : Logger.t) (σ : option sys)
  | Broken.

Definition usage (program : cstring) : cstring := cstr "Usage: " ++ program ++ cstr " <config_file>".
Definition fatal (what : string) : cstring := cstr "Fatal error: " ++ cstr what.

Section program.
Variable steady_clock : nat -> Timestamp.
Variable iteration : gset cstring -> list cstring.
Variable gateway_send : nat -> Z.
Variable publisher_send : nat -> nat -> Z.

(** [g] is [g_shutdown_requested]. *)
Definition happens (e : event) (g : Z) (σ : sys) : option (Z * sys) :=
  match e with
  | Acts a => σ ← perform steady_clock gateway_send publisher_send a σ; Some (g, σ)
  | SignalArrives => Some (signal_handler g, σ)
  | MainRuns =>
      if bool_decide (main_at σ = Serving) && negb (wait_for_shutdown g) then Some (g, σ)
      else σ ← main_step steady_clock iteration σ; Some (g, σ)
  end.

Fixpoint run_events (events : list event) (g : Z) (σ : sys) : option (Z * sys) :=
  match events with
  | [] => Some (g, σ)
  | e :: events => '(g, σ) ← happens e g σ; run_events events g σ
  end.

(** Phases 1 to 5: it returns when the main thread has stopped the exchange. *)
Definition run_exchange (ready : readiness) (config_ptr : option Config) (events : list event) : run_result :=
  match run_startup steady_clock iteration ready config_ptr with
  | Crashed => Crash
  | Aborted what _ => Raised what
  | Started σ =>
      match run_events events 0 σ with
      | None => Crash
      | Some (_, σ) => if bool_decide (main_at σ = ExchangeDown) then Finished σ else StillRuns σ
      end
  end.

(** [main]: [args] are the arguments behind the program's name. *)
Definition main (program : cstring) (args : list cstring) (fs : FileSystem) (ready : readiness) (events : list event)
    : outcome_of_main :=
  match args with
  | [path] =>
      match load_from_file fs path with
      | Undefined => Broken
      | Throws what => Exited 1 [fatal what] Logger.init None
      | Done config =>
          let l := configure_logger (logging config) Logger.init in
          let warning := level_warning (log_level (logging config)) in
          match run_exchange ready (Some (base config)) events with
          | StillRuns σ => Running l σ
          | Finished σ => Exited 0 warning l (Some σ)
          | Raised what => Exited 1 (warning ++ [fatal what]) l None
          | Crash => Broken
          end
      end
  | _ => Exited 1 [usage program] Logger.init None
  end.

(** ** Runs *)

(** The rounds are those of the program's threads, and fewer than 2^30 replies
    are sent. *)
Definition event_ok (e : event) : Prop := match e with Acts a => action_ok a | _ => True end.
Fixpoint events_ok (events : list event) (g : Z) (σ : sys) : Prop :=
  match events with
  | [] => True
  | e :: events =>
      event_ok e /\ forall g' σ', happens e g σ = Some (g', σ') -> replies σ' < 2 ^ 30 /\ events_ok events g' σ'
  end.

Lemma run_events_app events1 events2 g σ :
  run_events (events1 ++ events2) g σ = ('(g, σ) ← run_events events1 g σ; run_events events2 g σ).
Proof.
  revert g σ. induction events1 as [|e events1 IH]; intros g σ; [done|]. cbn [app run_events].
  destruct (happens e g σ) as [[g1 σ1]|]; [|done]. cbn [mbind option_bind]. apply IH.
Qed.

(** Whether a signal is among the events, and the flag after them. *)
Definition signal_in (events : list event) : bool :=
  existsb (fun e => match e with SignalArrives => true | _ => false end) events.
Definition signalled (g : Z) (events : list event) : Z := if signal_in events then 1 else g.

Section runs.
#[local] Set Default Proof Using "Type*".
Hypothesis iteration_visits : forall ks, iteration ks ≡ₚ elements ks.

Lemma happens_ok c e g σ :
  program_ok c σ -> event_ok e ->
  exists g' σ', happens e g σ = Some (g', σ') /\ (replies σ' < 2 ^ 30 -> program_ok c σ') /\
    g' = (match e with SignalArrives => 1 | _ => g end) /\
    (g = 0 -> main_at σ = Serving -> main_at σ' = Serving).
Proof.
  intros Hok He. destruct e as [a| |]; cbn [happens event_ok] in *.
  - destruct (move_ok steady_clock iteration gateway_send publisher_send iteration_visits c σ (Thread a) Hok He) as (σ' & Hm & Hn).
    cbn [move] in Hm. rewrite Hm. exists g, σ'. split_and!; [done|done|done|]. intros _ E.
    by rewrite (rf_main _ _ (perform_frame steady_clock gateway_send publisher_send a σ σ' (po_monitoring _ _ Hok) He Hm)).
  - by exists 1, σ.
  - case_bool_decide as E; cbn [andb].
    + destruct (negb _) eqn:Eg; [by exists g, σ|].
      destruct (main_step_ok steady_clock iteration iteration_visits c σ Hok) as (σ' & -> & Hok' & _).
      exists g, σ'. split_and!; [done|done|done|]. intros -> . done.
    + destruct (main_step_ok steady_clock iteration iteration_visits c σ Hok) as (σ' & -> & Hok' & _).
      exists g, σ'. split_and!; [done|done|done|]. intros _ ?. done.
Qed.

Lemma run_ok c events : forall g σ,
  program_ok c σ -> events_ok events g σ ->
  exists σ', run_events events g σ = Some (signalled g events, σ') /\ program_ok c σ' /\
    (signal_in events = false -> g = 0 -> main_at σ = Serving -> main_at σ' = Serving).
Proof.
  induction events as [|e events IH]; intros g σ Hok He; cbn [run_events]; [by exists σ|].
  destruct He as [He Hnext]. destruct (happens_ok c e g σ Hok He) as (g1 & σ1 & Hh & Hok1 & Hg & Hs).
  destruct (Hnext g1 σ1 Hh) as [Hn Hev]. rewrite Hh. cbn [mbind option_bind].
  destruct (IH g1 σ1 (Hok1 Hn) Hev) as (σ' & Hr & Hok' & Hs'). exists σ'. rewrite Hr. split_and!; [|done|].
  - f_equal. f_equal. subst g1. unfold signalled. destruct e; cbn [signal_in existsb orb]; fold (signal_in events); try done.
    by destruct (signal_in events).
  - intros Hno Hg0 E. destruct e; cbn [signal_in existsb orb] in Hno; try done; by apply Hs'; [|congruence|apply Hs].
Qed.

(** The rest of the shutdown as events. *)
Definition event_of (s : step) : event := match s with Thread a => Acts a | MainThread => MainRuns end.

Lemma run_steps steps : forall g σ σ',
  g <> 0 -> moves steady_clock iteration gateway_send publisher_send steps σ = Some σ' ->
  run_events (event_of <$> steps) g σ = Some (g, σ').
Proof.
  induction steps as [|s steps IH]; intros g σ σ' Hg Hm; [by injection Hm as <-|].
  rewrite (moves_cons steady_clock iteration gateway_send publisher_send iteration_visits) in Hm.
  destruct (move _ _ _ _ s σ) as [σ1|] eqn:E; [|done]. cbn [mbind option_bind] in Hm.
  rewrite fmap_cons. cbn [run_events].
  assert (happens (event_of s) g σ = Some (g, σ1)) as ->; [|cbn [mbind option_bind]; by apply IH].
  destruct s as [a|]; cbn [event_of happens move] in *; [by rewrite E|].
  unfold wait_for_shutdown. rewrite (proj2 (Z.eqb_neq g 0) Hg). cbn [negb]. rewrite andb_false_r. by rewrite E.
Qed.

(** A client that stays silent: the main thread does not get on. *)
Lemma run_stuck c events : forall g σ,
  program_ok c σ -> events_ok events g σ -> main_at σ = JoiningHttp -> Monitoring.stuck (monitoring σ) = true ->
  (forall d, Acts (HttpReceives d) ∉ events) ->
  exists g' σ', run_events events g σ = Some (g', σ') /\ main_at σ' = JoiningHttp.
Proof.
  induction events as [|e events IH]; intros g σ Hok He E Hs Hno; cbn [run_events]; [by exists g, σ|].
  destruct He as [He Hnext]. destruct (happens_ok c e g σ Hok He) as (g1 & σ1 & Hh & Hok1 & _).
  destruct (Hnext g1 σ1 Hh) as [Hn Hev]. rewrite Hh. cbn [mbind option_bind].
  assert (main_at σ1 = JoiningHttp /\ Monitoring.stuck (monitoring σ1) = true) as [E1 Hs1].
  { destruct e as [a| |]; cbn [happens] in Hh.
    - destruct (perform _ _ _ a σ) as [σ2|] eqn:Ep; [|done]. injection Hh as _ <-. split.
      + by rewrite (rf_main _ _ (perform_frame steady_clock gateway_send publisher_send a σ σ2 (po_monitoring _ _ Hok) He Ep)).
      + refine (perform_stuck steady_clock gateway_send publisher_send a σ σ2 Hs _ Ep).
        intros d ->. apply (Hno d). by left.
    - by injection Hh as _ <-.
    - rewrite E in Hh. cbn in Hh. rewrite (main_step_stuck steady_clock iteration iteration_visits σ E Hs) in Hh.
      by injection Hh as _ <-. }
  apply (IH g1 σ1 (Hok1 Hn) Hev E1 Hs1). intros d Hin. apply (Hno d). by right.
Qed.

End runs.
End program.

(** ** The properties *)

Section outcomes.
Variable steady_clock : nat -> Timestamp.
Variable iteration : gset cstring -> list cstring.
Variable gateway_send : nat -> Z.
Variable publisher_send : nat -> nat -> Z.

(** What [main] comes to, from the state its events lead to. *)
Lemma main_outcome program fs path c ready events σ g σ' :
  load_from_file fs path = Done c -> run_startup steady_clock iteration ready (Some (base c)) = Started σ ->
  run_events steady_clock iteration gateway_send publisher_send events 0 σ = Some (g, σ') ->
  main steady_clock iteration gateway_send publisher_send program [path] fs ready events =
    (if bool_decide (main_at σ' = ExchangeDown)
     then Exited 0 (level_warning (log_level (logging c))) (configure_logger (logging c) Logger.init) (Some σ')
     else Running (configure_logger (logging c) Logger.init) σ').
Proof.
  intros Hl Hs Hr. unfold main, run_exchange. rewrite Hl Hs Hr. by destruct (bool_decide _).
Qed.
End outcomes.

Module ProgramClaims.

(** C9: The program runs until it is told to stop, and then stops.  Started with a
    configuration file that [load_from_file] accepts, a notional limit that fits
    its scaled 64-bit form and a port it can listen on, and whatever whole rounds
    its threads take and the network delivers (with fewer than 2^30 replies, and
    no HTTP client that resets its connection before its response), it is either
    still running or has exited with status 0, every component stopped, no request
    left in the queues of the risk manager and the engines, and the books well
    formed.  Without a signal it goes on serving.  After one it exits as soon as
    the main thread has run and the HTTP thread, if it waits for a client, has
    heard from it; as long as that client is silent, [main] does not return. *)
Theorem program_exits steady_clock iteration gateway_send publisher_send program fs path c ready events :
  (forall ks, iteration ks ≡ₚ elements ks) -> load_from_file fs path = Done c ->
  is_Some (trunc_u64 (double_mul (max_notional_per_client (risk (base c))) (double_of_Z PRICE_SCALE))) ->
  gateway_ready ready = true ->
  (forall σ, run_startup steady_clock iteration ready (Some (base c)) = Started σ ->
     events_ok steady_clock iteration gateway_send publisher_send events 0 σ) ->
  let l := configure_logger (logging c) Logger.init in
  let warning := level_warning (log_level (logging c)) in
  let run := main steady_clock iteration gateway_send publisher_send program [path] fs ready in
  exists σ, program_ok (base c) σ /\
    run events = (if bool_decide (main_at σ = ExchangeDown) then Exited 0 warning l (Some σ) else Running l σ) /\
    (main_at σ = ExchangeDown ->
       exchange_stopped (base c) (exch σ) /\ TcpGateway.running_ (gateway σ) = false /\
       UdpPublisher.running_ (udp_publisher σ) = false /\ monitoring_running σ = false) /\
    (signal_in events = false -> main_at σ = Serving) /\
    (signal_in events = true -> forall d, Monitoring.d_peer_open d = true ->
       exists σ', run (events ++ (event_of <$> shut_down d σ)) = Exited 0 warning l (Some σ') /\
         exchange_stopped (base c) (exch σ')) /\
    (main_at σ = JoiningHttp -> Monitoring.stuck (monitoring σ) = true ->
       forall more, (forall d, Acts (HttpReceives d) ∉ more) ->
         events_ok steady_clock iteration gateway_send publisher_send more (signalled 0 events) σ ->
         exists σ', run (events ++ more) = Running l σ' /\ main_at σ' = JoiningHttp).
Proof.
  intros Hit Hl Hn Hr He l warning run.
  destruct (loaded_config_starts steady_clock iteration fs path c ready Hit Hl Hn Hr) as [Hrun _].
  destruct (startup_ok steady_clock iteration Hit (base c) ready Hrun Hr) as (σ0 & Hs & _ & _ & Hpc & _).
  destruct (started_ok steady_clock iteration Hit (base c) ready σ0 Hrun Hs) as [Hok0 _].
  destruct (run_ok steady_clock iteration gateway_send publisher_send Hit (base c) events 0 σ0 Hok0 (He σ0 Hs))
    as (σ & Hev & Hok & Hserve).
  exists σ. split; [done|]. split; [exact (main_outcome _ _ _ _ program fs path c ready events σ0 _ σ Hl Hs Hev)|].
  split; [|split; [auto|split]].
  - intros E. split; [by apply program_ok_down|]. destruct (po_stages _ _ Hok) as [_ S2 _ S4 S5].
    rewrite E in S2 S4 S5. cbn [stage] in S2, S4, S5. split_and!; [apply S5|apply S4|apply S2]; lia.
  - intros Hsig d Hd.
    destruct (shut_down_ok steady_clock iteration gateway_send publisher_send Hit (base c) σ d Hok Hd) as (σ' & Hm & Hok' & E' & _).
    exists σ'. split; [|by apply program_ok_down].
    unfold run. rewrite (main_outcome _ _ _ _ program fs path c ready _ σ0 1 σ' Hl Hs); [|by rewrite bool_decide_true].
    rewrite run_events_app Hev. cbn [mbind option_bind]. unfold signalled. rewrite Hsig. by apply run_steps.
  - intros E Hst more Hno Hmore.
    destruct (run_stuck steady_clock iteration gateway_send publisher_send Hit (base c) more _ σ Hok Hmore E Hst Hno)
      as (g' & σ' & Hr' & E'). exists σ'. split; [|done].
    unfold run. rewrite (main_outcome _ _ _ _ program fs path c ready _ σ0 g' σ' Hl Hs); [|by rewrite E'].
    by rewrite run_events_app Hev.
Qed.

Lemma ex_loaded_runnable : runnable (base ex_loaded).
Proof.
  refine (proj1 (loaded_config_starts (fun _ => 0) ex_iteration (ex_config_fs shipped_config) (cstr "config.json")
    ex_loaded ex_ready ex_iteration_visits _ _ eq_refl)).
  - vm_compute. reflexivity.
  - vm_compute. eexists. reflexivity.
Qed.

(** A signal after the first look at the flag, and then the shutdown. *)
Lemma program_exits_witness :
  exists σ l σ', main (fun _ => 0) ex_iteration (fun _ => 1) all_accepted (cstr "trading_exchange") [cstr "config.json"]
      (ex_config_fs shipped_config) ex_ready ([MainRuns; SignalArrives] ++ (event_of <$> shut_down (ex_delivery None true) σ)) =
    Exited 0 (level_warning (log_level (logging ex_loaded))) l (Some σ') /\ exchange_stopped (base ex_loaded) (exch σ').
Proof.
  destruct (program_exits (fun _ => 0) ex_iteration (fun _ => 1) all_accepted (cstr "trading_exchange")
    (ex_config_fs shipped_config) (cstr "config.json") ex_loaded ex_ready [MainRuns; SignalArrives]
    ex_iteration_visits) as (σ & _ & _ & _ & _ & H & _).
  - vm_compute. reflexivity.
  - vm_compute. eexists. reflexivity.
  - reflexivity.
  - intros σ0 H0.
    destruct (startup_ok (fun _ => 0) ex_iteration ex_iteration_visits (base ex_loaded) ex_ready ex_loaded_runnable eq_refl)
      as (σ2 & H2 & _ & Hr & Hpc & _). assert (σ0 = σ2) as -> by congruence.
    cbn [events_ok happens event_ok]. rewrite Hpc. cbn [bool_decide andb]. split; [exact I|]. intros g' σ' [= <- <-].
    rewrite Hr. split; [reflexivity|]. split; [exact I|]. intros g' σ' [= <- <-]. rewrite Hr. split; [reflexivity|exact I].
  - destruct (H eq_refl (ex_delivery None true) eq_refl) as (σ' & H1 & H2). eexists σ, _, σ'. exact (conj H1 H2).
Defined.

End ProgramClaims.

(** Every way to fail ends with status 1 and a message; a gateway that cannot
    listen is reported after the exchange has been stopped again. *)
Theorem program_fails steady_clock iteration gateway_send publisher_send program fs path ready events :
  (forall ks, iteration ks ≡ₚ elements ks) ->
  (forall args : list cstring, List.length args <> 1%nat ->
     main steady_clock iteration gateway_send publisher_send program args fs ready events =
       Exited 1 [usage program] Logger.init None) /\
  (forall what, load_from_file fs path = Throws what ->
     main steady_clock iteration gateway_send publisher_send program [path] fs ready events =
       Exited 1 [fatal what] Logger.init None) /\
  (forall c, load_from_file fs path = Done c -> runnable (base c) -> gateway_ready ready = false ->
     main steady_clock iteration gateway_send publisher_send program [path] fs ready events =
       Exited 1 (level_warning (log_level (logging c)) ++ [cstr "Fatal error: Failed to start TCP Gateway"])
         (configure_logger (logging c) Logger.init) None).
Proof.
  intros Hit. split_and!.
  - intros [|a [|b args]] Hl; done.
  - intros what Hw. unfold main. by rewrite Hw.
  - intros c Hc Hrun Hr. unfold main, run_exchange. rewrite Hc.
    destruct (startup_rolled_back steady_clock iteration Hit (base c) ready Hrun Hr) as (σ & -> & _). done.
Qed.
