(* ===== verification/BenchMatching.v ===== *)
(** * The matching engine benchmark (tools/bench_matching.cpp)

    One thread takes orders from the pool, fills them in with random numbers and
    submits them while the engine's worker runs; then it waits for the published
    counter, stops the engine and reports.  [turns k] is the number of rounds the
    worker completes before the [k]-th access of the main thread to something the
    two share; the random draws, the clock and the measured times are arguments. *)

From Stdlib Require Import SpecFloat.
From S2P Require Import Prelude Types ErrorHandling MemoryPool OrderPool PriceLevels OrderBook OrderBookSpec OrderBookInv OrderBookMatch OrderBookAdd OrderBookMaint OrderBookTheorems.
From S2P Require Import SpscQueue MpmcQueue MatchingEngine EngineTheorems Double MemorySafety Strings Formatting GatewayFrames SystemFrames SystemInv.
Import OrderBook.

(** ** What an engine does to its pool

    It writes orders and gives slots back: whatever these two keep, a new order
    keeps. *)
Section pool_relation.
Context {P C : Type} `{!OrderPool P}.
Variable R : P -> P -> Prop.
Context `{!PreOrder R}.
Hypothesis R_store : forall i x p, R p (store i x p).
Hypothesis R_deallocate : forall i p p', deallocate i p = Some p' -> R p p'.
Variable steady_clock : nat -> Timestamp.
Variable cb : option (Trade -> C -> C).
Implicit Types e : env P C.

Lemma modify_R i f p p' : modify i f p = Some p' -> R p p'.
Proof using R_store. unfold modify. destruct (deref p i); [|done]. intros [= <-]. apply R_store. Qed.

Lemma execute_trade_R a b q px e e' : execute_trade steady_clock cb a b q px e = Some e' -> R (pool e) (pool e').
Proof using All.
  unfold execute_trade. intros H.
  repeat (let E := fresh "E" in match type of H with
    | (modify ?i ?f ?p ≫= _) = _ => destruct (modify i f p) eqn:E; [apply modify_R in E|done]; cbn [mbind option_bind] in H
    | (deref ?p ?i ≫= _) = _ => destruct (deref p i); [|done]; cbn [mbind option_bind] in H
    end).
  injection H as <-. cbn [pool]. by repeat (etransitivity; [eassumption|]).
Qed.

Lemma trade_with_front_R d a l e e' : trade_with_front steady_clock cb d a l e = Some e' -> R (pool e) (pool e').
Proof using All.
  unfold trade_with_front. intros H.
  destruct (FlatLevel.front l) as [q|]; [|done]. cbn [mbind option_bind] in H.
  destruct (deref (pool e) a) as [o|]; [|done]. cbn [mbind option_bind] in H.
  destruct (deref (pool e) q) as [x|]; [|done]. cbn [mbind option_bind] in H.
  destruct (execute_trade _ _ _ _ _ _ _) as [e1|] eqn:E1; [|done]. apply execute_trade_R in E1. cbn [mbind option_bind] in H.
  destruct (deref (pool e1) q) as [y|]; [|done]. cbn [mbind option_bind] in H.
  destruct (remaining_quantity y =? 0); [|by injection H as <-].
  destruct (FlatLevel.pop_front _ l) as [l1|]; [|done]. cbn [mbind option_bind] in H.
  destruct (modify q _ _) as [p1|] eqn:E2; [|done]. apply modify_R in E2. cbn [mbind option_bind] in H.
  destruct (deallocate q p1) as [p2|] eqn:E3; [|done]. apply R_deallocate in E3. cbn [mbind option_bind] in H.
  injection H as <-. cbn [pool with_book with_pool] in *. etransitivity; [exact E1|]. by etransitivity.
Qed.

Lemma sweep_R fuel cr d a : forall e e', sweep steady_clock cb fuel cr d a e = Some e' -> R (pool e) (pool e').
Proof using All.
  induction fuel as [|fuel IH]; intros e e' H; [done|]. cbn [sweep] in H.
  destruct (deref (pool e) a) as [o|]; [|done]. cbn [mbind option_bind] in H.
  destruct (remaining_quantity o =? 0); [by injection H as <-|].
  destruct (get_side d (book e)) as [|l ls]; [by injection H as <-|].
  destruct (negb _); [by injection H as <-|]. destruct (FlatLevel.empty l); [exact (IH _ _ H)|].
  destruct (trade_with_front _ _ _ _ _ _) as [e1|] eqn:E; [|done]. cbn [mbind option_bind] in H.
  etransitivity; [by eapply trade_with_front_R|by apply IH].
Qed.

Lemma match_order_R a e r e' : match_order steady_clock cb a e = Some (r, e') -> R (pool e) (pool e').
Proof using All.
  unfold match_order, match_market_order, match_limit_order. intros H.
  destruct (shutdown_requested_ (book e)); [by injection H as _ <-|]. destruct a as [a|]; [|by injection H as _ <-].
  destruct (deref (pool e) a) as [o|]; [|done]. cbn [mbind option_bind] in H.
  destruct (is_market (type o)); cbn [mbind option_bind] in H;
    (destruct (sweep _ _ _ _ _ _ _) as [e1|] eqn:E; [|done]); injection H as _ <-; by eapply sweep_R.
Qed.

Lemma add_to_book_R a e r e' : add_to_book a e = Some (r, e') -> R (pool e) (pool e').
Proof using All.
  unfold add_to_book. intros H. destruct a as [a|]; [|by injection H as _ <-].
  destruct (deref (pool e) a) as [o|]; [|done]. cbn [mbind option_bind] in H.
  destruct (FlatPriceBook.find_or_insert _ _ _) as [i ls]. destruct (ls !! i) as [l|]; [|done]. cbn [mbind option_bind] in H.
  destruct (modify a _ _) as [p|] eqn:E; [|done]. injection H as _ <-. by apply modify_R in E.
Qed.

Lemma add_order_R a e r e' : add_order steady_clock cb a e = Some (r, e') -> R (pool e) (pool e').
Proof using All.
  unfold add_order. intros H. destruct (shutdown_requested_ (book e)); [by injection H as _ <-|].
  destruct a as [a|]; [|by injection H as _ <-].
  destruct (deref (pool e) a) as [o|]; [|done]. cbn [mbind option_bind] in H.
  destruct (remaining_quantity o =? 0); [by injection H as _ <-|]. case_bool_decide; [by injection H as _ <-|].
  destruct (match_order _ _ _ _) as [[r1 e1]|] eqn:E; [|done]. apply match_order_R in E. cbn [mbind option_bind pool with_book] in *.
  destruct r1; (destruct (deref (pool e1) a) as [o1|]; [|done]); cbn [mbind option_bind] in H; [|by injection H as _ <-].
  destruct (0 <? remaining_quantity o1); [|by injection H as _ <-].
  destruct (add_to_book _ _) as [[r2 e2]|] eqn:E2; [|done]. apply add_to_book_R in E2. cbn [mbind option_bind] in H.
  destruct r2; [injection H as _ <-; by etransitivity|].
  destruct (deref (pool e2) a); [|done]. injection H as _ <-. by etransitivity.
Qed.

End pool_relation.

Section engine_pool.
Context {P : Type} `{!OrderPool P}.
Variable R : P -> P -> Prop.
Context `{!PreOrder R}.
Hypothesis R_store : forall i x p, R p (store i x p).
Hypothesis R_deallocate : forall i p p', deallocate i p = Some p' -> R p p'.

Lemma process_new_order_R steady_clock a (e e' : env P Ctx) :
  MatchingEngine.process_new_order steady_clock a e = Some e' -> R (pool e) (pool e').
Proof using All.
  unfold MatchingEngine.process_new_order. destruct a as [a|]; [|by intros [= <-]]. intros H.
  destruct (add_order _ _ _ _) as [[r e1]|] eqn:E; [|done]. apply (add_order_R R R_store R_deallocate) in E.
  cbn [mbind option_bind] in H. destruct (has_value r).
  - injection H as <-. unfold MatchingEngine.publish_if_changed. by destruct (_ || _).
  - cbn [MatchingEngine.with_ctx pool] in H.
    destruct (modify a _ _) as [p1|] eqn:E1; [|done]. apply (modify_R R R_store) in E1. cbn [mbind option_bind] in H.
    destruct (deallocate a p1) as [p2|] eqn:E2; [|done]. apply R_deallocate in E2. injection H as <-. cbn.
    etransitivity; [exact E|]. by etransitivity.
Qed.
End engine_pool.

Definition same_capacity (p p' : MemoryPool.t Order) : Prop := MemoryPool.capacity_ p = MemoryPool.capacity_ p'.

#[export] Instance same_capacity_preorder : PreOrder same_capacity.
Proof. split; [done|]. intros p1 p2 p3 E1 E2. by transitivity (MemoryPool.capacity_ p2). Qed.

Lemma process_new_order_capacity steady_clock a (e e' : env (MemoryPool.t Order) Ctx) :
  MatchingEngine.process_new_order steady_clock a e = Some e' -> same_capacity (pool e) (pool e').
Proof.
  apply process_new_order_R; [apply _|done|]. intros i p p'. unfold deallocate. cbn. unfold MemoryPool.deallocate. intros Hd.
  destruct (negb _); [done|]. destruct (MemoryPool.owned_ p !! i); [|done]. cbn [mbind option_bind] in Hd.
  destruct (negb _); [done|]. by injection Hd as <-.
Qed.

Module BenchMatching.

Abbreviation pool_t := (MemoryPool.t Order).
Abbreviation engine_t := (MatchingEngine.t pool_t).

Definition num_orders : Z := 50000.
Definition pool_size : Z := num_orders + 1024.
Definition md_queue_size : Z := num_orders * 2 + 1024.

(** The engine with the pool and the queue it shares with the main thread, the
    accesses so far, the counters and what was written to [std::cerr]. *)
Record st := mkst {
  engine : engine_t;
  accesses : nat;
  submitted : Z;
  push_fails : Z;
  errors : list cstring
}.
Implicit Types s : st.

Section benchmark.
Variable steady_clock : nat -> Timestamp.
Variable turns : nat -> nat.
Variable side_dist price_dist qty_dist : nat -> Z.

Fixpoint engine_rounds (n : nat) (m : engine_t) : option engine_t :=
  match n with
  | O => Some m
  | S n => m ← MatchingEngine.run_round steady_clock m; engine_rounds n m
  end.

(** The worker runs up to the next access of the main thread. *)
Definition worker_runs s : option st :=
  m ← engine_rounds (turns (accesses s)) (engine s);
  Some (mkst m (S (accesses s)) (submitted s) (push_fails s) (errors s)).

Definition set_engine (m : engine_t) s : st := mkst m (accesses s) (submitted s) (push_fails s) (errors s).
Definition complain (line : cstring) s : st :=
  mkst (engine s) (accesses s) (submitted s) (push_fails s) (errors s ++ [line]).
Definition shared_pool s : pool_t := pool (MatchingEngine.book_ (engine s)).
Definition set_shared_pool (p : pool_t) s : st :=
  set_engine (MatchingEngine.with_env (with_pool p (MatchingEngine.book_ (engine s))) (engine s)) s.

Definition allocate s : option (option nat * st) :=
  s ← worker_runs s;
  '(r, p) ← MemoryPool.allocate (shared_pool s);
  Some (r, set_shared_pool p s).

(** The loop that waits for a free slot, [fuel] times at most. *)
Fixpoint wait_for_slot (fuel : nat) s : option (nat * st) :=
  match fuel with
  | O => None
  | S fuel =>
      '(r, s) ← allocate s;
      match r with
      | Some order => Some (order, s)
      | None => wait_for_slot fuel s
      end
  end.

Definition take_slot (fuel : nat) (i : nat) s : option (nat * st) :=
  '(r, s) ← allocate s;
  match r with
  | Some order => Some (order, s)
  | None => wait_for_slot fuel (complain (cstr "POOL EXHAUSTED at " ++ print_u64 (Z.of_nat i)) s)
  end.

(** The assignments to the fields; the timestamp keeps its value. *)
Definition fill_order (i : nat) (o : Order) : Order :=
  mkOrder (price_dist i) (qty_dist i) (Z.of_nat i + 1) PENDING (if side_dist i =? 1 then BUY else SELL) LIMIT
    (qty_dist i) (timestamp o) (FixedString.assign SYMBOL_N (symbol o) (Some (cstr "AAPL")))
    (FixedString.assign CLIENT_N (client_id o) (Some (cstr "100"))).

(** The submission loop: after 1001 failures it gives up. *)
Fixpoint submit_loop (tries : nat) (i order : nat) s : option st :=
  match tries with
  | O => Some (complain (cstr "PUSH FAILED after 1000 retries at order " ++ print_u64 (Z.of_nat i)) s)
  | S tries =>
      s ← worker_runs s;
      let '(ok, m) := MatchingEngine.submit_order (Some order) (engine s) in
      let s := set_engine m s in
      if ok then Some s
      else submit_loop tries i order (mkst (engine s) (accesses s) (submitted s) (push_fails s + 1) (errors s))
  end.

(** One turn of the main loop; an order that could not be submitted counts too. *)
Definition place_order (fuel i : nat) s : option st :=
  '(order, s) ← take_slot fuel i s;
  o ← deref (shared_pool s) order;
  s ← submit_loop 1001 i order (set_shared_pool (store order (fill_order i o) (shared_pool s)) s);
  Some (mkst (engine s) (accesses s) (submitted s + 1) (push_fails s) (errors s)).

Fixpoint place_orders (fuel todo i : nat) s : option st :=
  match todo with
  | O => Some s
  | S todo => s ← place_order fuel i s; place_orders fuel todo (S i) s
  end.

(** The wait for the counter; [waits] are the milliseconds at each look at the
    clock.  [None]: the clock does not get there. *)
Fixpoint wait_processed (waits : list Z) s : option st :=
  s ← worker_runs s;
  if MatchingEngine.orders_processed_ (engine s) <? submitted s then
    match waits with
    | [] => None
    | waited :: waits =>
        if 5000 <? waited then
          s ← worker_runs s;
          Some (complain (cstr "TIMEOUT waiting for processing. Processed: "
                  ++ print_u64 (MatchingEngine.orders_processed_ (engine s)) ++ cstr "/" ++ print_u64 (submitted s)) s)
        else wait_processed waits s
    end
  else Some s.

(** [while (market_data_queue.pop(event)) ++md_events] *)
Fixpoint count_events (fuel : nat) (q : MPMCQueue.t MarketDataEvent) (n : Z) : option Z :=
  match fuel with
  | O => None
  | S fuel =>
      '(r, q) ← MPMCQueue.pop q;
      match r with Some _ => count_events fuel q (n + 1) | None => Some n end
  end.

Definition event_count (m : engine_t) : option Z :=
  match market_data_queue_ (ctx (MatchingEngine.book_ m)) with
  | md_queue q => count_events (S (Z.to_nat (MPMCQueue.capacity_ q))) q 0
  | _ => None
  end.

(** [duration]: microseconds. *)
Definition report (submitted processed trades duration md_events : Z) : list cstring :=
  [cstr "Matching Engine Benchmark:";
   cstr "  Orders submitted:   " ++ print_u64 submitted;
   cstr "  Orders processed:   " ++ print_u64 processed;
   cstr "  Trades executed:    " ++ print_u64 trades;
   cstr "  Total time:         " ++ print_general (double_div (double_of_Z duration) (double_of_Z 1000)) ++ cstr " ms";
   cstr "  Avg latency:        " ++ print_general (double_div (double_of_Z duration) (double_of_Z submitted))
     ++ cstr " μs/order";
   cstr "  Throughput:         "
     ++ print_general (double_div (double_mul (double_of_Z submitted) (double_of_Z 1000000)) (double_of_Z duration))
     ++ cstr " orders/sec";
   cstr "  Market data events: " ++ print_u64 md_events].

Definition set_up : option st :=
  match MemoryPool.make Order_default pool_size with
  | inl _ => None
  | inr p =>
      q ← MPMCQueue.make (mkEvent (replicate 16 0) (TRADE Trade_default)) md_queue_size;
      m ← MatchingEngine.make (cstr "AAPL") p 0;
      Some (mkst (MatchingEngine.start (MatchingEngine.set_market_data_queue (md_queue q) m)).2 0 0 0 [])
  end.

(** What goes to [std::cerr] and to [std::cout]. *)
Definition benchmark_matching_engine (fuel : nat) (waits : list Z) (duration : Z) : option (list cstring * list cstring) :=
  s ← set_up;
  s ← place_orders fuel (Z.to_nat num_orders) 0 s;
  let first := cstr "Submitted: " ++ print_u64 (submitted s) ++ cstr ", Push fails: " ++ print_u64 (push_fails s) in
  s ← wait_processed waits s;
  s ← worker_runs s;
  m ← MatchingEngine.stop steady_clock (engine s);
  n ← event_count m;
  Some (errors s, first :: report (submitted s) (MatchingEngine.orders_processed_ m) (MatchingEngine.trades_executed_ m) duration n).

Definition main (fuel : nat) (waits : list Z) (duration : Z) : option (list cstring * list cstring) :=
  '(err, out) ← benchmark_matching_engine fuel waits duration;
  Some (err, [cstr "Matching Engine Benchmarks"; cstr "==========================="; []] ++ out).

(** ** The orders of the benchmark *)

Definition ids_below (k : Z) (b : Spec.book) : Prop := forall d r, r ∈ Spec.get d b -> Spec.r_id r <= k.

Lemma match_against_ids cr k rs : forall q fs q' out,
  Forall (fun r => Spec.r_id r <= k) rs -> Spec.match_against cr q rs = (fs, q', out) -> Forall (fun r => Spec.r_id r <= k) out.
Proof.
  induction rs as [|r rs IH]; intros q fs q' out Hrs H; cbn [Spec.match_against] in H; [by injection H as <- <- <-|].
  pose proof Hrs as [Hr Hrs']%Forall_cons.
  destruct (q =? 0); [by injection H as <- <- <-|]. destruct (cr _); [|by injection H as <- <- <-].
  destruct (_ <=? q).
  - destruct (Spec.match_against cr _ rs) as [[fs1 q1] out1] eqn:E. injection H as <- <- <-. by apply IH in E.
  - injection H as <- <- <-. by constructor.
Qed.

Lemma add_ids market buy r b fs b' k :
  ids_below k b -> Spec.r_id r <= k -> Spec.add market buy r b = (fs, b') -> ids_below k b'.
Proof.
  intros Hb Hr H. unfold Spec.add in H. destruct (Spec.match_against _ _ _) as [[fs1 q] out] eqn:E. injection H as _ <-.
  apply (match_against_ids _ k) in E; [|apply Forall_forall; intros x; apply Hb]. rewrite Forall_forall in E.
  assert (ids_below k (Spec.set (negb buy) out b)) as Hs.
  { intros d x. pose proof (Hb d x) as Hx. destruct d, buy; cbn in *; eauto. }
  destruct (q =? 0); [done|]. intros d x. pose proof (Hs d x) as Hx.
  destruct (decide (d = buy)) as [->|Hne].
  - assert (Spec.get buy (Spec.set buy (Spec.place buy (Spec.mkResting (Spec.r_id r) (Spec.r_price r) q)
      (Spec.get buy (Spec.set (negb buy) out b))) (Spec.set (negb buy) out b)) =
      Spec.place buy (Spec.mkResting (Spec.r_id r) (Spec.r_price r) q) (Spec.get buy (Spec.set (negb buy) out b))) as ->
      by by destruct buy.
    rewrite Spec.place_perm elem_of_cons. intros [->|Hin]; [done|]. by apply Hx.
  - intros Hin. apply Hx. destruct d, buy; done.
Qed.

Definition news (ps : list nat) : list OrderRequest := (fun a => NEW_ORDER (Some a)) <$> ps.

Lemma new_ptrs_news ps : new_ptrs (news ps) = ps.
Proof. induction ps as [|a ps IH]; [done|]. cbn. by rewrite -{2}IH. Qed.

(** The orders [ps] wait, with the numbers behind [done]; those up to [done] were
    all accepted. *)
Record waiting (done : nat) (ps : list nat) (e : env pool_t Ctx) : Prop := {
  w_ok : engine_ok ps e;
  w_orders j a : ps !! j = Some a ->
    exists o, deref (pool e) a = Some o /\ id o = Z.of_nat (done + j) + 1 /\ 0 < remaining_quantity o < 2 ^ 64;
  w_running : shutdown_requested_ (book e) = false;
  w_ids : ids_below (Z.of_nat done) (abs e);
  w_weight : (book_weight (book e) <= done)%nat;
  w_accepted : orders_accepted (local_stats_ (ctx e)) = Z.of_nat done
}.

(** At most [n] slots are out of the pool. *)
Definition taken (n : nat) (p : pool_t) : Prop :=
  MemoryPool.capacity_ p = pool_size /\ exists owners, (length owners <= n)%nat /\ forall i, owned p i -> i ∈ owners.

Lemma resting_elem (e : env pool_t Ctx) a o :
  a ∈ all_ptrs (book e) -> deref (pool e) a = Some o -> exists d, resting_of o ∈ Spec.get d (abs e).
Proof.
  intros Hin Ho. assert (forall ps, a ∈ ps -> resting_of o ∈ abs_ptrs (pool e) ps) as H.
  { intros ps Hps. unfold abs_ptrs. apply list_elem_of_omap. exists a. by rewrite Ho. }
  unfold all_ptrs in Hin. apply elem_of_app in Hin as [Hin|Hin]; [exists true|exists false]; by apply H.
Qed.

Lemma waiting_acceptable done a ps e :
  waiting done (a :: ps) e -> exists o, acceptable a o e /\ id o = Z.of_nat done + 1.
Proof.
  intros W. destruct (w_orders _ _ _ W 0%nat a eq_refl) as (o & Ho & Hid & Hq). rewrite Nat.add_0_r in Hid.
  pose proof (w_ok _ _ _ W) as [Hinv Hp]. exists o. split; [|done]. split; [apply (w_running _ _ _ W)|done| | |done| |].
  - apply (po_owned _ _ Hp). left.
  - apply (po_fresh _ _ Hp). left.
  - destruct (order_lookup_ (book e) !! id o) as [i|] eqn:E; [|done]. exfalso.
    pose proof (inv_tracked _ _ Hinv) as Ht. rewrite app_nil_r in Ht. apply Ht in E as (Hi & o' & Ho' & Hid').
    destruct (resting_elem e i o' Hi Ho') as (d & Hd). apply (w_ids _ _ _ W) in Hd. cbn in Hd. lia.
  - by eapply small_side.
Qed.

Lemma push_all_counts evs c :
  total_processed (local_stats_ (push_all evs c)) = total_processed (local_stats_ c) /\
  orders_accepted (local_stats_ (push_all evs c)) = orders_accepted (local_stats_ c).
Proof.
  revert c. induction evs as [|ev evs IH]; intros c; [done|]. rewrite push_all_cons. destruct (IH (MatchingEngine.push_event ev c)) as [-> ->].
  unfold MatchingEngine.push_event. destruct (market_data_queue_ c) as [|q|]; [done| |done].
  by destruct (MPMCQueue.push ev q) as [[[] q']|].
Qed.

Lemma repeat_counts n (s : LocalStats) :
  total_processed (repeat_stats n s) = total_processed s /\ orders_accepted (repeat_stats n s) = orders_accepted s.
Proof. revert s. induction n as [|n IH]; intros s; [done|]. cbn [repeat_stats]. by destruct (IH (inc_trades s)) as [-> ->]. Qed.

Lemma accepted_counts evs n c :
  let c' := push_all evs (MatchingEngine.update_stats inc_accepted (MatchingEngine.update_stats (repeat_stats n) c)) in
  total_processed (local_stats_ c') = total_processed (local_stats_ c) /\
  orders_accepted (local_stats_ c') = orders_accepted (local_stats_ c) +₆₄ 1.
Proof.
  intros c'. unfold c'. destruct (push_all_counts evs (MatchingEngine.update_stats inc_accepted
    (MatchingEngine.update_stats (repeat_stats n) c))) as [-> ->]. cbn. by destruct (repeat_counts n (local_stats_ c)) as [-> ->].
Qed.

(** The next order is accepted. *)
Lemma process_next done a ps e n :
  waiting done (a :: ps) e -> taken n (pool e) -> Z.of_nat done + 1 < 2 ^ 64 ->
  exists e', MatchingEngine.process_new_order steady_clock (Some a) e = Some e' /\ waiting (S done) ps e' /\
    framed [a] e e' /\ published (2 ^ 32) (ctx e) (ctx e') /\ taken n (pool e') /\
    total_processed (local_stats_ (ctx e')) = total_processed (local_stats_ (ctx e)).
Proof.
  intros W [Hcap (owners & Hlen & Hown)] Hsmall. destruct (waiting_acceptable _ _ _ _ W) as (o & Hac & Hid).
  pose proof (w_ok _ _ _ W) as Hok. pose proof Hok as [Hinv Hp].
  destruct (process_new_order_accepted steady_clock a o ps e Hok Hac) as (e' & He & Hok' & Heff).
  destruct (dispatch_framed steady_clock (NEW_ORDER (Some a)) (news ps) e e') as [Hf Hpub];
    [by cbn [new_ptrs omap list_omap]; fold (new_ptrs (news ps)); rewrite new_ptrs_news|done|].
  cbn [new_ptrs omap list_omap] in Hf.
  destruct Heff as [(_ & fs & b' & Hadd & Habs & Howned & Hctx)|[Hno _]]; [|done].
  exists e'. split; [done|]. split; [|split; [done|split; [done|split]]].
  - split; [done| | | | |].
    + intros j b Hj. destruct (w_orders _ _ _ W (S j) b Hj) as (x & Hx & Hxid & Hxq). exists x.
      assert (b ∈ a :: ps) as Hin by (right; by apply list_elem_of_lookup_2 in Hj).
      pose proof (po_nodup _ _ Hp) as [Hna _]%NoDup_cons.
      destruct (fr_pool _ _ _ Hf b) as [-> _]; [by apply (po_fresh _ _ Hp)| |].
      { intros ->%list_elem_of_singleton. apply Hna. by apply list_elem_of_lookup_2 in Hj. }
      split_and!; [done|rewrite Hxid; lia|lia|lia].
    + pose proof (add_order_spec steady_clock MatchingEngine.callback a o e Hinv Hac) as Hspec. rewrite Hadd in Hspec.
      destruct Hspec as (e1 & He1 & Hres). unfold MatchingEngine.process_new_order in He. rewrite He1 in He.
      cbn [mbind option_bind has_value] in He. injection He as <-. unfold MatchingEngine.publish_if_changed.
      pose proof (ar_running _ _ _ _ _ _ _ _ Hres). by destruct (_ || _).
    + rewrite Habs. eapply add_ids; [|  |exact Hadd].
      * intros d r Hr. apply (w_ids _ _ _ W) in Hr. lia.
      * cbn. lia.
    + pose proof (fr_weight _ _ _ Hf). pose proof (w_weight _ _ _ W). cbn [length] in *. lia.
    + rewrite Hctx. destruct (accepted_counts (trade_events (symbol_cache_ (ctx e))
        (trades_of steady_clock o (symbol_ (book e)) (ticks e) (next_trade_id_ (book e)) fs) ++
        bbo_events (symbol_cache_ (ctx e)) (best_bid (book e)) (best_ask (book e)) (book e')) (length fs) (ctx e)) as [_ ->].
      rewrite (w_accepted _ _ _ W) wrap_small; [unfold is_u; lia|lia].
  - split.
    + rewrite -Hcap. symmetry. by eapply process_new_order_capacity.
    + exists owners. split; [done|]. intros i Hi. apply Hown.
      destruct (decide (i ∈ all_ptrs (book e))) as [Hin|Hin].
      { apply elem_of_app in Hin as [Hin|Hin]; [apply (inv_ptr _ _ true i Hinv Hin)|apply (inv_ptr _ _ false i Hinv Hin)]. }
      destruct (decide (i = a)) as [->|Hne]; [apply (po_owned _ _ Hp); left|].
      apply (fr_pool _ _ _ Hf i); [done|by rewrite list_elem_of_singleton|done].
  - rewrite Hctx. apply accepted_counts.
Qed.

(** ** The engine during the benchmark *)

(** A slot the main thread holds, with what it wrote. *)
Definition held (sp : option (nat * Order)) (ps : list nat) (e : env pool_t Ctx) : Prop :=
  match sp with
  | None => True
  | Some (a, o) => owned (pool e) a /\ deref (pool e) a = Some o /\ (a ∉ all_ptrs (book e)) /\ (a ∉ ps)
  end.

(** [done] orders are processed, [ps] wait, [total] is the worker's own count. *)
Record at_work (done : nat) (ps : list nat) (sp : option (nat * Order)) (total : Z) (m : engine_t) : Prop := {
  aw_queue : SPSCQueue.holds (MatchingEngine.input_queue_ m) (news ps);
  aw_capacity : SPSCQueue.capacity_ (MatchingEngine.input_queue_ m) = 65536;
  aw_waiting : waiting done ps (MatchingEngine.book_ m);
  aw_held : held sp ps (MatchingEngine.book_ m);
  aw_taken : taken (match sp with None => (done + length ps)%nat | Some _ => S (done + length ps) end) (pool (MatchingEngine.book_ m));
  aw_total : total_processed (local_stats_ (ctx (MatchingEngine.book_ m))) = total;
  aw_few : Z.of_nat (done + length ps) <= 65536;
  aw_events : exists q, market_data_queue_ (ctx (MatchingEngine.book_ m)) = md_queue q /\ md_ok (Z.of_nat done * 2 ^ 32) q
}.

Lemma pop_capacity {T} (q q' : SPSCQueue.t T) r : SPSCQueue.pop q = Some (r, q') -> SPSCQueue.capacity_ q' = SPSCQueue.capacity_ q.
Proof.
  unfold SPSCQueue.pop. cbv zeta. intros H. destruct (_ =? _); [destruct (_ =? _); [by injection H as _ <-|]|];
    (destruct (_ !! _); [|done]); by injection H as _ <-.
Qed.

Lemma push_capacity {T} x (q q' : SPSCQueue.t T) r : SPSCQueue.push x q = (r, q') -> SPSCQueue.capacity_ q' = SPSCQueue.capacity_ q.
Proof.
  unfold SPSCQueue.push. cbv zeta. intros H. destruct (_ <=? _); [destruct (_ <=? _)|]; by injection H as _ <-.
Qed.

Lemma drain_loop_at left : forall count m done ps sp total,
  at_work done ps sp total m ->
  let k := Nat.min left (length ps) in
  exists m', MatchingEngine.drain_loop steady_clock left count m = Some ((count + k)%nat, m') /\
    at_work (done + k) (drop k ps) sp total m' /\ same_atomics m m'.
Proof.
  induction left as [|left IH]; intros count m done ps sp total A k.
  { exists m. cbn. rewrite !Nat.add_0_r. by split_and!. }
  cbn [MatchingEngine.drain_loop]. destruct (aw_queue _ _ _ _ _ A) as (T0 & H & Hr).
  pose proof (SPSCQueue.pop_spec _ _ _ _ Hr) as Hp. destruct ps as [|a ps]; cbn in Hp; destruct Hp as (q' & Hq & Hr');
    rewrite Hq; cbn [mbind option_bind]; pose proof (pop_capacity _ _ _ Hq) as Hcap; rewrite (aw_capacity _ _ _ _ _ A) in Hcap.
  - exists (MatchingEngine.with_queue q' m). cbn. rewrite !Nat.add_0_r. split; [done|]. split; [|done].
    destruct A as [A1 A2 A3 A4 A5 A6 A7 A8]. split; try done. by exists T0, H.
  - pose proof (aw_few _ _ _ _ _ A) as Hfew. cbn [length] in Hfew.
    destruct (process_next done a ps _ _ (aw_waiting _ _ _ _ _ A) (aw_taken _ _ _ _ _ A)) as (e & He & W & Hf & Hpub & Ht & Htot);
      [change (2 ^ 64) with 18446744073709551616; lia|].
    cbn [MatchingEngine.dispatch MatchingEngine.with_queue MatchingEngine.book_ fmap]. rewrite He. cbn [mbind option_bind].
    set (m1 := MatchingEngine.with_env e (MatchingEngine.with_queue q' m)).
    assert (at_work (S done) ps sp total m1) as A1.
    { split; cbn.
      - by exists (T0 + 1), H.
      - done.
      - done.
      - pose proof (aw_held _ _ _ _ _ A) as Hh. destruct sp as [[b o]|]; [|done]. destruct Hh as (H1 & H2 & H3 & H4).
        apply not_elem_of_cons in H4 as [H4 H5].
        assert (b ∉ [a]) as Hba by (by rewrite list_elem_of_singleton).
        destruct (fr_pool _ _ _ Hf b H3 Hba) as [D O]. cbn [held]. split_and!; [by apply O|by rewrite D| |done].
        intros Hb. by destruct (fr_ptrs _ _ _ Hf b Hb).
      - cbn [length] in Ht. rewrite -plus_n_Sm in Ht. exact Ht.
      - by rewrite Htot (aw_total _ _ _ _ _ A).
      - lia.
      - destruct (aw_events _ _ _ _ _ A) as (q & Eq & Hmd).
        destruct (published_md_ok _ _ _ _ _ Hpub Eq Hmd) as (q2 & Eq2 & Hmd2).
        { change (2 ^ 32) with 4294967296. change (2 ^ 33) with 8589934592. change (2 ^ 63) with 9223372036854775808. lia. }
        exists q2. split; [done|]. by replace (Z.of_nat (S done) * 2 ^ 32) with (Z.of_nat done * 2 ^ 32 + 2 ^ 32) by lia. }
    destruct (IH (S count) m1 (S done) ps sp total A1) as (m2 & E & A2 & Hs). exists m2.
    subst k. cbn [length Nat.min drop]. rewrite -!plus_n_Sm. split; [exact E|]. split; [exact A2|].
    destruct Hs as (S1 & S2 & S3 & S4 & S5). by split_and!.
Qed.

Lemma drain_batch_at m done ps sp :
  at_work done ps sp (Z.of_nat done) m ->
  let k := Nat.min MatchingEngine.BATCH_SIZE (length ps) in
  exists m', MatchingEngine.drain_batch steady_clock m = Some (k, m') /\
    at_work (done + k) (drop k ps) sp (Z.of_nat (done + k)) m' /\ same_atomics m m'.
Proof.
  intros A k. unfold MatchingEngine.drain_batch.
  destruct (drain_loop_at MatchingEngine.BATCH_SIZE 0 m done ps sp _ A) as (m1 & -> & A1 & Hs). fold k in A1 |- *. clearbody k.
  cbn [mbind option_bind]. eexists. split; [reflexivity|]. split; [|done].
  destruct A1 as [A1 A2 A3 A4 A5 A6 A7 A8]. split; try done.
  - destruct A3 as [B1 B2 B3 B4 B5 B6]. split; try done. by apply with_ctx_inv.
  - cbn. rewrite A6 wrap_small; [|lia].
    rewrite length_drop in A7. unfold is_u. change (2 ^ 64) with 18446744073709551616. lia.
Qed.

Lemma compact_at m done ps sp total : at_work done ps sp total m -> at_work done ps sp total (MatchingEngine.maybe_compact m).
Proof.
  intros [A1 A2 A3 A4 A5 A6 A7 A8]. unfold MatchingEngine.maybe_compact.
  destruct (MatchingEngine.processed_mod m MatchingEngine.COMPACT_INTERVAL) eqn:E; [|by split].
  pose proof (maintain_ok m ps (w_ok _ _ _ A3)) as Hok. unfold MatchingEngine.maybe_compact in Hok. rewrite E in Hok.
  set (e := MatchingEngine.book_ m) in *.
  pose proof (prune_inv [] _ (inv_compact _ _ (proj1 (w_ok _ _ _ A3)))) as Hpr. cbn [book with_book] in Hpr.
  cbn [MatchingEngine.book_ MatchingEngine.with_env] in Hok. rewrite Hpr in Hok |- *.
  split; try done; cbn [MatchingEngine.book_ MatchingEngine.with_env MatchingEngine.input_queue_].
  - destruct A3 as [B1 B2 B3 B4 B5 B6]. split; try done.
    + by rewrite abs_compact.
    + pose proof (compact_weight (book e)). cbn [book with_book]. lia.
  - destruct sp as [[a o]|]; [|done]. cbn [held pool book with_book] in *. by rewrite all_ptrs_compact.
Qed.

(** [i] orders were submitted; the published counter is one the worker had at a
    multiple of 4096. *)
Definition engine_at (i : nat) (sp : option (nat * Order)) (m : engine_t) : Prop :=
  exists done ps, i = (done + length ps)%nat /\ at_work done ps sp (Z.of_nat done) m /\ MatchingEngine.running_ m = true /\
    0 <= MatchingEngine.orders_processed_ m <= Z.of_nat done /\ MatchingEngine.orders_processed_ m mod 4096 = 0.

Lemma run_round_at i sp m :
  engine_at i sp m -> exists m', MatchingEngine.run_round steady_clock m = Some m' /\ engine_at i sp m'.
Proof.
  intros (done & ps & -> & A & Hrun & Hp & Hmod). unfold MatchingEngine.run_round.
  destruct (drain_batch_at m done ps sp A) as (m1 & -> & A1 & (Hs & _ & _ & _ & Hrun1)). cbn [mbind option_bind].
  set (k := Nat.min MatchingEngine.BATCH_SIZE (length ps)) in *.
  assert (k <= length ps)%nat as Hk by (unfold k; lia). clearbody k. eexists. split; [reflexivity|].
  exists (done + k)%nat, (drop k ps). split; [rewrite length_drop; lia|]. destruct (Nat.ltb 0 k).
  2:{ split_and!; [done|congruence|lia|lia|congruence]. }
  pose proof (compact_at _ _ _ _ _ A1) as A2. set (m2 := MatchingEngine.maybe_compact m1) in *.
  assert (MatchingEngine.orders_processed_ m2 = MatchingEngine.orders_processed_ m /\ MatchingEngine.running_ m2 = true) as [Hs2 Hrun2].
  { unfold m2, MatchingEngine.maybe_compact. destruct (MatchingEngine.processed_mod _ _); split; cbn; congruence. }
  clearbody m2. unfold MatchingEngine.maybe_flush_stats. destruct (MatchingEngine.processed_mod m2 _) eqn:E.
  2:{ split_and!; [done|done|lia|lia|congruence]. }
  unfold MatchingEngine.processed_mod in E. rewrite (aw_total _ _ _ _ _ A2) in E. apply Z.eqb_eq in E.
  pose proof (w_accepted _ _ _ (aw_waiting _ _ _ _ _ A2)) as Hacc. cbn [MatchingEngine.flush_stats MatchingEngine.orders_processed_].
  rewrite Hacc. split_and!; [by destruct A2|done|lia|lia|exact E].
Qed.

Lemma rounds_at n : forall i sp m,
  engine_at i sp m -> exists m', engine_rounds n m = Some m' /\ engine_at i sp m'.
Proof.
  induction n as [|n IH]; intros i sp m A; [by exists m|]. cbn [engine_rounds].
  destruct (run_round_at i sp m A) as (m1 & -> & A1). by apply IH.
Qed.

(** ** The main thread *)

Lemma worker_runs_at i sp s :
  engine_at i sp (engine s) -> exists s', worker_runs s = Some s' /\ engine_at i sp (engine s') /\
    submitted s' = submitted s /\ push_fails s' = push_fails s /\ errors s' = errors s.
Proof.
  intros A. unfold worker_runs. destruct (rounds_at (turns (accesses s)) i sp _ A) as (m & -> & A1). by eexists.
Qed.

(** The pool changes in places the engine does not look at. *)
Lemma at_work_pool done ps sp sp' total m p' :
  at_work done ps sp total m -> agree (pool (MatchingEngine.book_ m)) p' (all_ptrs (book (MatchingEngine.book_ m))) ->
  agree (pool (MatchingEngine.book_ m)) p' ps -> pool_ok p' ->
  held sp' ps (with_pool p' (MatchingEngine.book_ m)) ->
  taken (match sp' with None => (done + length ps)%nat | Some _ => S (done + length ps) end) p' ->
  at_work done ps sp' total (MatchingEngine.with_env (with_pool p' (MatchingEngine.book_ m)) m).
Proof.
  intros [A1 A2 [[Hinv Hp] B2 B3 B4 B5 B6] A4 A5 A6 A7 A8] Hb Hps Hok Hh Ht. set (e := MatchingEngine.book_ m) in *.
  split; try done. cbn [MatchingEngine.book_ MatchingEngine.with_env]. split; try done.
  - split; [by apply inv_with_pool|]. destruct Hp as [P1 P2 P3 P4 P5]. split; try done.
    + intros i Hi. by apply Hps, P2.
    + intros i o Hi. cbn [pool with_pool]. rewrite (proj1 (Hps i Hi)). by apply P4.
  - intros j a Hj. destruct (B2 j a Hj) as (o & Ho & H). exists o. cbn [pool with_pool].
    by rewrite (proj1 (Hps a (list_elem_of_lookup_2 _ _ _ Hj))).
  - intros d r Hr. apply (B4 d). revert Hr. rewrite !abs_get. unfold abs_side. cbn [pool with_pool book].
    rewrite (abs_ptrs_agree (pool e) p'); [|done]. eapply agree_mono, Hb. intros i Hi. rewrite (all_ptrs_side d). apply elem_of_app. by left.
Qed.

(** A slot is free while fewer orders than slots are out. *)
Lemma free_slot p n :
  pool_ok p -> taken n p -> Z.of_nat n < pool_size ->
  exists a p', MemoryPool.allocate p = Some (Some a, p') /\ pool_ok p' /\ taken (S n) p' /\ ~ owned p a /\ owned p' a /\
    (forall j, owned p j -> owned p' j) /\ forall j, deref p' j = deref p j.
Proof.
  intros [fl Hfl] [Hcap (owners & Hlen & Hown)] Hn. destruct fl as [|a fl].
  { exfalso. assert (seq 0 (Z.to_nat pool_size) ⊆+ owners) as H.
    { apply NoDup_submseteq; [apply NoDup_seq|]. intros i Hi. apply Hown. apply elem_of_seq in Hi.
      pose proof (MemoryPool.fl_owned _ _ Hfl i) as Ho. rewrite Hcap in Ho. specialize (Ho ltac:(lia)).
      destruct (decide (i ∈ [])) as [[]%not_elem_of_nil|_]; [exact Ho]. }
    apply submseteq_length in H. rewrite length_seq in H. lia. }
  destruct (MemoryPool.allocate_cons p a fl Hfl) as (p' & Ha & Hfl' & Hp & Hc & Ho & _).
  destruct (allocate_owned p p' a fl Hfl Ho) as [Hno Hiff]. exists a, p'. split_and!; [done|by exists fl| |done| | |].
  - split; [congruence|]. exists (a :: owners). split; [cbn; lia|]. intros i [Hi| ->]%Hiff; [right; by apply Hown|left].
  - apply Hiff. by right.
  - intros j Hj. apply Hiff. by left.
  - intros j. change (MemoryPool.deref p' j = MemoryPool.deref p j). unfold MemoryPool.deref. by rewrite Hp.
Qed.

Lemma allocate_at i s :
  engine_at i None (engine s) -> Z.of_nat i < pool_size ->
  exists a o s', allocate s = Some (Some a, s') /\ engine_at i (Some (a, o)) (engine s') /\
    submitted s' = submitted s /\ push_fails s' = push_fails s /\ errors s' = errors s.
Proof.
  intros A Hi. unfold allocate. destruct (worker_runs_at i None s A) as (s1 & -> & (done & ps & -> & A1 & Hrest) & Hs).
  cbn [mbind option_bind]. pose proof (aw_waiting _ _ _ _ _ A1) as W. pose proof (w_ok _ _ _ W) as [Hinv Hp].
  destruct (free_slot _ _ (inv_pool _ _ Hinv) (aw_taken _ _ _ _ _ A1) Hi) as (a & p' & Ha & Hok & Ht & Hno & Hyes & Hkeep & Hd).
  destruct (owned_deref p' a Hok Hyes) as [o Ho]. exists a, o. unfold shared_pool. rewrite Ha. cbn [mbind option_bind].
  eexists. split; [reflexivity|]. split; [|exact Hs]. exists done, ps. split; [done|]. split; [|exact Hrest].
  cbn [set_shared_pool set_engine engine].
  apply (at_work_pool _ _ None); try done; [intros j Hj; split; [apply Hd|apply Hkeep]..|].
  cbn [held pool book with_pool]. split_and!; [done|done| |].
  - intros Hin. apply Hno. apply elem_of_app in Hin as [Hin|Hin]; [apply (inv_ptr _ _ true a Hinv Hin)|apply (inv_ptr _ _ false a Hinv Hin)].
  - intros Hin. by apply Hno, (po_owned _ _ Hp).
Qed.

Lemma store_at i a o x m :
  engine_at i (Some (a, o)) m ->
  engine_at i (Some (a, x)) (MatchingEngine.with_env (with_pool (store a x (pool (MatchingEngine.book_ m))) (MatchingEngine.book_ m)) m).
Proof.
  intros (done & ps & -> & A & Hrest). exists done, ps. split; [done|]. split; [|exact Hrest].
  destruct (aw_held _ _ _ _ _ A) as (H1 & H2 & H3 & H4). pose proof (w_ok _ _ _ (aw_waiting _ _ _ _ _ A)) as [Hinv _].
  assert (forall qs, (a ∉ qs) -> agree (pool (MatchingEngine.book_ m)) (store a x (pool (MatchingEngine.book_ m))) qs) as Hag.
  { intros qs Hqs j Hj. split; [|by rewrite owned_store]. apply deref_store_ne. congruence. }
  apply (at_work_pool _ _ (Some (a, o))); [done|by apply Hag|by apply Hag|apply pool_ok_store, (inv_pool _ _ Hinv)| |].
  - cbn [held pool book with_pool]. split_and!; [by rewrite owned_store|by apply deref_store_eq|done|done].
  - destruct (aw_taken _ _ _ _ _ A) as [Hc (owners & Hl & Hall)]. split; [exact Hc|]. exists owners. split; [done|].
    intros j Hj%owned_store. by apply Hall.
Qed.

Lemma submit_at i a o m :
  engine_at i (Some (a, o)) m -> id o = Z.of_nat i + 1 -> 0 < remaining_quantity o < 2 ^ 64 -> Z.of_nat i < 65536 ->
  exists m', MatchingEngine.submit_order (Some a) m = (true, m') /\ engine_at (S i) None m'.
Proof.
  intros (done & ps & -> & [A1 A2 [[Hinv [P1 P2 P3 P4 P5]] B2 B3 B4 B5 B6] (H1 & H2 & H3 & H4) A5 A6 A7 A8] & Hrest) Hid Hq Hi.
  destruct A1 as (T0 & H & Hr). unfold MatchingEngine.submit_order, MatchingEngine.submit.
  pose proof (SPSCQueue.push_spec _ _ _ _ (NEW_ORDER (Some a)) Hr) as Hp. unfold news in Hp at 1. rewrite length_fmap A2 in Hp.
  rewrite decide_True in Hp; [lia|]. destruct Hp as (q' & Hq' & Hr'). unfold MatchingEngine.make_new_order. rewrite Hq'.
  eexists. split; [reflexivity|]. exists done, (ps ++ [a]). rewrite length_app. split; [cbn; lia|]. split; [|exact Hrest].
  split; cbn [MatchingEngine.with_queue MatchingEngine.input_queue_ MatchingEngine.book_]; try done.
  - exists T0, (H + 1). unfold news. by rewrite fmap_app.
  - rewrite -A2. by eapply push_capacity.
  - split; try done.
    + split; [done|]. split.
      * apply NoDup_app. split; [done|]. split; [|apply NoDup_singleton]. intros j Hj ->%list_elem_of_singleton. done.
      * intros j [Hj| ->%list_elem_of_singleton]%elem_of_app; [by apply P2|done].
      * intros j [Hj| ->%list_elem_of_singleton]%elem_of_app; [by apply P3|done].
      * intros j x [Hj| ->%list_elem_of_singleton]%elem_of_app Hx; [by apply (P4 j)|]. simplify_eq. lia.
      * rewrite length_app. cbn [length]. change (2 ^ 32) with 4294967296. lia.
    + intros j b Hj. apply lookup_app_Some in Hj as [Hj|[Hge Hj]]; [by apply B2|].
      apply list_lookup_singleton_Some in Hj as [Hj <-]. exists o. replace j with (length ps) by lia. by rewrite H2.
  - rewrite length_app Nat.add_1_r -plus_n_Sm. exact A5.
  - rewrite length_app. cbn [length]. lia.
Qed.

(** ** The loops *)

(** [uniform_int_distribution(100, 1000)] *)
Hypothesis qty_range : forall i, 100 <= qty_dist i <= 1000.

Lemma place_order_at fuel i s :
  engine_at i None (engine s) -> Z.of_nat i < num_orders -> errors s = [] -> push_fails s = 0 ->
  exists s', place_order fuel i s = Some s' /\ engine_at (S i) None (engine s') /\
    submitted s' = submitted s + 1 /\ push_fails s' = 0 /\ errors s' = [].
Proof using qty_range.
  intros A Hi He Hf. unfold num_orders in Hi. unfold place_order, take_slot.
  destruct (allocate_at i s A) as (a & o & s1 & -> & A1 & Hs & Hf1 & He1); [unfold pool_size, num_orders; lia|].
  cbn [mbind option_bind]. assert (deref (shared_pool s1) a = Some o) as ->.
  { by destruct A1 as (done & ps & _ & A1 & _); destruct (aw_held _ _ _ _ _ A1) as (_ & Ho & _). }
  cbn [mbind option_bind]. set (s2 := set_shared_pool _ s1).
  assert (engine_at i (Some (a, fill_order i o)) (engine s2)) as A2 by by apply (store_at _ _ o).
  assert (submitted s2 = submitted s1 /\ push_fails s2 = push_fails s1 /\ errors s2 = errors s1) as (Hs2 & Hf2 & He2) by done.
  clearbody s2. change 1001%nat with (S 1000). cbn [submit_loop].
  destruct (worker_runs_at i _ s2 A2) as (s3 & -> & A3 & Hs3 & Hf3 & He3). cbn [mbind option_bind].
  pose proof (qty_range i). destruct (submit_at i a _ _ A3) as (m & -> & A4); [done|cbn; change (2 ^ 64) with 18446744073709551616; lia|lia|].
  cbn. eexists. split; [reflexivity|]. split; [exact A4|]. cbn. split_and!; congruence.
Qed.

Lemma place_orders_at fuel todo : forall i s,
  engine_at i None (engine s) -> Z.of_nat (i + todo) <= num_orders -> errors s = [] -> push_fails s = 0 -> submitted s = Z.of_nat i ->
  exists s', place_orders fuel todo i s = Some s' /\ engine_at (i + todo) None (engine s') /\
    submitted s' = Z.of_nat (i + todo) /\ push_fails s' = 0 /\ errors s' = [].
Proof using qty_range.
  induction todo as [|todo IH]; intros i s A Hi He Hf Hs.
  { exists s. rewrite Nat.add_0_r. by split_and!. }
  cbn [place_orders]. destruct (place_order_at fuel i s A) as (s1 & -> & A1 & Hs1 & Hf1 & He1); [lia|done|done|].
  cbn [mbind option_bind]. rewrite -plus_n_Sm. apply (IH (S i)); [done|lia|done|done|lia].
Qed.

(** The counter the worker publishes is never 50000. *)
Lemma counter_short sp m : engine_at (Z.to_nat num_orders) sp m ->
  0 <= MatchingEngine.orders_processed_ m < num_orders /\ MatchingEngine.orders_processed_ m mod 4096 = 0.
Proof.
  intros (done & ps & Hi & _ & _ & Hp & Hm). split; [|done]. unfold num_orders in *.
  destruct (decide (MatchingEngine.orders_processed_ m = 50000)) as [E|]; [|lia]. rewrite E in Hm. done.
Qed.

Definition timeout_line (k : Z) : cstring :=
  cstr "TIMEOUT waiting for processing. Processed: " ++ print_u64 k ++ cstr "/" ++ print_u64 num_orders.

Lemma wait_processed_at waits : forall s,
  engine_at (Z.to_nat num_orders) None (engine s) -> submitted s = num_orders -> errors s = [] -> Exists (fun w => 5000 < w) waits ->
  exists s' k, wait_processed waits s = Some s' /\ engine_at (Z.to_nat num_orders) None (engine s') /\
    submitted s' = num_orders /\ errors s' = [timeout_line k] /\ 0 <= k < num_orders /\ k mod 4096 = 0.
Proof.
  induction waits as [|w waits IH]; intros s A Hs He Hw; [by apply Exists_nil in Hw|]. cbn [wait_processed].
  destruct (worker_runs_at _ _ s A) as (s1 & -> & A1 & Hs1 & _ & He1). cbn [mbind option_bind].
  destruct (Z.ltb_spec (MatchingEngine.orders_processed_ (engine s1)) (submitted s1)) as [_|Hge].
  2:{ exfalso. pose proof (counter_short _ _ A1). rewrite Hs1 Hs in Hge. lia. }
  destruct (Z.ltb_spec 5000 w) as [Hlt|Hle].
  - destruct (worker_runs_at _ _ s1 A1) as (s2 & -> & A2 & Hs2 & _ & He2). cbn [mbind option_bind].
    eexists. exists (MatchingEngine.orders_processed_ (engine s2)). split; [reflexivity|]. split; [exact A2|].
    destruct (counter_short _ _ A2). cbn [submitted errors complain]. split_and!; [congruence| |lia|lia|done].
    rewrite He2 He1 He Hs2 Hs1 Hs. done.
  - apply IH; [done|congruence|congruence|]. apply Exists_cons in Hw as [Hw|Hw]; [lia|done].
Qed.

(** ** The end *)

Lemma drain_remaining_at fuel : forall m done ps,
  at_work done ps None (Z.of_nat done) m -> (length ps < fuel)%nat ->
  exists m', MatchingEngine.drain_remaining steady_clock fuel m = Some m' /\
    at_work (done + length ps) [] None (Z.of_nat (done + length ps)) m'.
Proof.
  induction fuel as [|fuel IH]; intros m done ps A Hf; [lia|]. cbn [MatchingEngine.drain_remaining].
  destruct (drain_batch_at m done ps None A) as (m1 & -> & A1 & _). cbn [mbind option_bind].
  set (k := Nat.min MatchingEngine.BATCH_SIZE (length ps)) in *.
  assert ((k <= length ps)%nat /\ (k = 0%nat -> ps = [])) as [Hk H0].
  { unfold k, MatchingEngine.BATCH_SIZE. split; [lia|]. destruct ps; [done|]. cbn [length]. lia. }
  clearbody k. destruct k as [|k].
  - rewrite H0 in A1 |- *; [done..|]. exists m1. split; [done|]. by cbn [length drop] in *.
  - destruct (IH m1 _ _ A1) as (m2 & E & A2); [rewrite length_drop; lia|]. exists m2. split; [exact E|].
    rewrite length_drop in A2. by replace (done + S k + (length ps - S k))%nat with (done + length ps)%nat in A2 by lia.
Qed.

Lemma stop_at i m :
  engine_at i None m ->
  exists m', MatchingEngine.stop steady_clock m = Some m' /\ MatchingEngine.orders_processed_ m' = Z.of_nat i /\
    exists q, market_data_queue_ (ctx (MatchingEngine.book_ m')) = md_queue q /\ md_ok (Z.of_nat i * 2 ^ 32) q.
Proof.
  intros (done & ps & -> & A & Hrun & _). unfold MatchingEngine.stop. rewrite Hrun. unfold MatchingEngine.run_exit.
  cbn [MatchingEngine.input_queue_]. set (m1 := MatchingEngine.mk _ _ _ _ _ _ _).
  assert (at_work done ps None (Z.of_nat done) m1) as A1 by by destruct A.
  destruct (drain_remaining_at (S (Z.to_nat (SPSCQueue.size (MatchingEngine.input_queue_ m)))) m1 done ps A1) as (m2 & -> & A2).
  { rewrite (holds_size _ _ (aw_queue _ _ _ _ _ A)) /news length_fmap. lia. }
  cbn [mbind option_bind]. eexists. split; [reflexivity|].
  pose proof (w_accepted _ _ _ (aw_waiting _ _ _ _ _ A2)) as Hacc.
  split; [cbn; exact Hacc|]. exact (aw_events _ _ _ _ _ A2).
Qed.

Lemma count_events_at : forall fuel xs q D E n,
  MPMCQueue.repr q D E xs -> E + MPMCQueue.capacity_ q + 1 < 2 ^ 63 -> (length xs < fuel)%nat ->
  count_events fuel q n = Some (n + Z.of_nat (length xs)).
Proof.
  induction fuel as [|fuel IH]; intros xs q D E n Hr Hb Hf; [lia|]. cbn [count_events].
  pose proof (MPMCQueue.mpmc_pop_spec q D E xs Hr Hb) as Hp. destruct xs as [|x xs].
  - rewrite Hp. cbn [mbind option_bind length]. by rewrite Z.add_0_r.
  - destruct Hp as (q' & -> & Hr' & Hc). cbn [mbind option_bind].
    rewrite (IH xs q' (D + 1) E); [done|by rewrite Hc|cbn in Hf; lia|]. f_equal. cbn [length]. lia.
Qed.

Lemma event_count_at m q B :
  market_data_queue_ (ctx (MatchingEngine.book_ m)) = md_queue q -> md_ok B q -> B <= 2 ^ 60 ->
  exists n, event_count m = Some n /\ 0 <= n <= MPMCQueue.capacity_ q.
Proof.
  intros Hq (D & E & xs & Hr & HE & Hc) HB. unfold event_count. rewrite Hq.
  pose proof (MPMCQueue.r_len _ _ _ _ Hr). pose proof (MPMCQueue.r_full _ _ _ _ Hr).
  exists (Z.of_nat (length xs)). split; [|lia].
  rewrite (count_events_at _ xs q D E); [done| |lia|done].
  change (2 ^ 60) with 1152921504606846976 in HB. change (2 ^ 32) with 4294967296 in Hc. change (2 ^ 63) with 9223372036854775808. lia.
Qed.

Lemma make_capacity {T} (zero : T) n q : SPSCQueue.make zero n = Some q -> SPSCQueue.capacity_ q = round_up_pow2 n.
Proof. unfold SPSCQueue.make. cbn zeta. destruct (negb _); [done|]. destruct (negb _); [done|]. by intros [= <-]. Qed.

Lemma fresh_pool : exists p, MemoryPool.make Order_default pool_size = inr p /\ pool_ok p /\ taken 0 p.
Proof.
  destruct (MemoryPool.make_free_list Order_default pool_size) as (p & -> & Hcap & Hfl); [unfold pool_size, num_orders, MemoryPool.POOL_EMPTY; lia|].
  exists p. split; [reflexivity|]. split; [by eexists|]. split; [exact Hcap|]. exists []. split; [reflexivity|].
  intros i Hi. exfalso. change (MemoryPool.owned_ p !! i = Some 1) in Hi.
  assert (i < Z.to_nat (MemoryPool.capacity_ p))%nat as Hlt.
  { rewrite -(MemoryPool.fl_owned_len _ _ Hfl). by eapply lookup_lt_Some. }
  rewrite (MemoryPool.fl_owned _ _ Hfl i Hlt) in Hi. rewrite Hcap in Hlt.
  destruct (decide _) as [_|Hn]; [discriminate Hi|]. apply Hn, elem_of_seq. lia.
Qed.

Lemma set_up_at : exists s, set_up = Some s /\ engine_at 0 None (engine s) /\ submitted s = 0 /\ push_fails s = 0 /\ errors s = [].
Proof.
  unfold set_up. destruct fresh_pool as (p & -> & Hp & Ht).
  destruct (md_make (mkEvent (replicate 16 0) (TRADE Trade_default)) md_queue_size) as (q & -> & Hmd); [done|].
  cbn [mbind option_bind]. unfold MatchingEngine.make.
  destruct (SPSCQueue.make_repr OrderRequest_default MatchingEngine.QUEUE_CAPACITY) as (q1 & Hq1 & Hr & _); [done|].
  rewrite Hq1. apply make_capacity in Hq1. change (round_up_pow2 _) with 65536 in Hq1. cbn [mbind option_bind]. eexists. split; [reflexivity|]. split; [|done].
  exists 0%nat, []. split; [done|]. split; [|done].
  cbn [engine]. split; [by exists 0, 0|exact Hq1| |done|exact Ht|done|done|by exists q].
  split; [|by intros j a Hj|done|intros d r Hr'; destruct d; by apply elem_of_nil in Hr'|done|done].
  split; [by apply inv_make|].
  split; [apply NoDup_nil_2|by intros i ?%elem_of_nil..|by intros i x ?%elem_of_nil|done].
Qed.

End benchmark.
End BenchMatching.

Module BenchClaims.
Import BenchMatching.

(** C39: The benchmark runs to its end whatever the clock, the draws and the
    interleaving with the worker, no allocation and no submission fails, and after
    the join the engine has processed all 50,000 orders; but the wait before it
    always ends in the timeout, because the worker publishes its counter only at
    multiples of 4096: the time that is reported includes the five seconds. *)
Theorem benchmark_always_times_out steady_clock turns side_dist price_dist qty_dist fuel waits duration :
  (forall i, 100 <= qty_dist i <= 1000) -> Exists (fun waited => 5000 < waited) waits ->
  exists k trades events,
    benchmark_matching_engine steady_clock turns side_dist price_dist qty_dist fuel waits duration =
      Some ([timeout_line k],
            cstr "Submitted: 50000, Push fails: 0" :: report 50000 50000 trades duration events) /\
    0 <= k < 50000 /\ k mod 4096 = 0 /\ 0 <= events.
Proof.
  intros Hq Hw. unfold benchmark_matching_engine. destruct set_up_at as (s & -> & A & Hs & Hf & He).
  cbn [mbind option_bind].
  destruct (place_orders_at steady_clock turns side_dist price_dist qty_dist Hq fuel (Z.to_nat num_orders) 0 s A)
    as (s1 & -> & A1 & Hs1 & Hf1 & He1); [done..|]. cbn [mbind option_bind]. rewrite Hs1 Hf1.
  destruct (wait_processed_at steady_clock turns waits s1 A1) as (s2 & k & -> & A2 & Hs2 & He2 & Hk & Hm); [done..|].
  cbn [mbind option_bind]. destruct (worker_runs_at steady_clock turns _ _ s2 A2) as (s3 & -> & A3 & Hs3 & _ & He3).
  cbn [mbind option_bind]. destruct (stop_at steady_clock _ _ A3) as (m & -> & Hp & q & Hmd & Hok). cbn [mbind option_bind].
  destruct (event_count_at m q _ Hmd Hok) as (n & -> & Hn);
    [change (2 ^ 32) with 4294967296; change (2 ^ 60) with 1152921504606846976; unfold num_orders; lia|]. cbn [mbind option_bind].
  exists k, (MatchingEngine.trades_executed_ m), n. rewrite Hs3 He3 Hs2 He2 Hp. split_and!; [|apply Hk..|done|apply Hn].
  reflexivity.
Qed.

Lemma benchmark_always_times_out_witness :
  exists k trades events,
    benchmark_matching_engine (fun _ => 0) (fun _ => 1%nat) (fun _ => 1) (fun _ => 15000) (fun _ => 100) 0 [3; 5001] 6000000 =
      Some ([timeout_line k],
            cstr "Submitted: 50000, Push fails: 0" :: report 50000 50000 trades 6000000 events) /\
    0 <= k < 50000 /\ k mod 4096 = 0 /\ 0 <= events.
Proof.
  apply benchmark_always_times_out; [intros _; lia|]. right. left. lia.
Defined.

End BenchClaims.
