(* ===== verification/Benchmarks.v ===== *)
(** * The benchmarks of the pool and of a running exchange
      (tools/bench_memory_pool.cpp, tools/bench_exchange.cpp)

    The first allocates and frees orders, in one thread and in four; a step of one
    of the four is a whole call on the pool or the write to the order it holds, in
    the order of a schedule.  The second runs one [LiquidityTakerStrategy] against
    the exchange for a time computed from the number of orders asked for.  The
    measured times, the network and the interleavings are arguments. *)

From Stdlib Require Import SpecFloat.
From S2P Require Import Prelude Types MemoryPool OrderPool Double MemorySafety Strings Formatting Protocol SecureConfig Clients ClientTheorems Tools.

(** ** tools/bench_memory_pool.cpp *)
Module PoolBench.
Import MemoryPool.

Definition pool_size : Z := 1000000.
Definition iterations : nat := Z.to_nat 10000000.
Definition iterations_per_thread : nat := Z.to_nat 1000000.
Definition num_threads : nat := 4.

Abbreviation pool_t := (MemoryPool.t Order).

(** [for (i = 0; i < iterations; ++i) if (order = allocate()) deallocate(order)] *)
Fixpoint allocate_free (n : nat) (p : pool_t) : option pool_t :=
  match n with
  | O => Some p
  | S n =>
      '(order, p) ← allocate p;
      p ← match order with Some _ => deallocate order p | None => Some p end;
      allocate_free n p
  end.

(** [duration]: nanoseconds, a [long]; the average is divided as [size_t]. *)
Definition results (first count_line : cstring) (total duration : Z) : list cstring :=
  [first; count_line ++ print_u64 total;
   cstr "  Total time: " ++ print_general (double_div (double_of_Z duration) (double_of_Z 1000000)) ++ cstr " ms";
   cstr "  Avg per op: " ++ print_u64 (wrap 64 duration / total) ++ cstr " ns";
   cstr "  Ops/sec: " ++ print_general (double_div (double_mul (double_of_Z total) (double_of_Z 1000000000)) (double_of_Z duration));
   []].

Definition single_results (duration : Z) : list cstring :=
  results (cstr "Single-thread benchmark:") (cstr "  Iterations: ") (Z.of_nat iterations) duration.
Definition multi_results (duration : Z) : list cstring :=
  results (cstr "Multi-thread benchmark (" ++ print_i64 (Z.of_nat num_threads) ++ cstr " threads):") (cstr "  Total ops: ")
    (Z.of_nat num_threads * Z.of_nat iterations_per_thread) duration.

Definition benchmark_single_thread (duration : Z) : option (list cstring * pool_t) :=
  match make Order_default pool_size with
  | inl _ => None
  | inr p => p ← allocate_free iterations p; Some (single_results duration, p)
  end.

(** *** The four threads *)

(** Where a thread is in the body of its loop. *)
Inductive phase := Ready | Holding (order : nat) | Written (order : nat).
Record thread := mkThread { turn : nat; at_ : phase }.
Record st := mkst { pool : pool_t; threads : list thread }.
Implicit Types s : st.

Definition set_id (i : Z) (o : Order) : Order :=
  mkOrder (price o) (remaining_quantity o) i (status o) (side o) (type o) (quantity o) (timestamp o) (symbol o) (client_id o).

(** A step of thread [t], which makes [n] turns; a finished thread does nothing. *)
Definition thread_step (n t : nat) s : option st :=
  match threads s !! t with
  | None => Some s
  | Some th =>
      if (turn th <? n)%nat then
        match at_ th with
        | Ready =>
            '(order, p) ← allocate (pool s);
            Some (mkst p (<[t := match order with
                                 | Some order => mkThread (turn th) (Holding order)
                                 | None => mkThread (S (turn th)) Ready
                                 end]> (threads s)))
        | Holding order =>
            o ← deref (pool s) order;
            Some (mkst (store order (set_id (Z.of_nat (turn th)) o) (pool s))
                    (<[t := mkThread (turn th) (Written order)]> (threads s)))
        | Written order =>
            p ← deallocate (Some order) (pool s);
            Some (mkst p (<[t := mkThread (S (turn th)) Ready]> (threads s)))
        end
      else Some s
  end.

Fixpoint run_threads (n : nat) (schedule : list nat) s : option st :=
  match schedule with
  | [] => Some s
  | t :: schedule => s ← thread_step n t s; run_threads n schedule s
  end.

(** All threads can be joined. *)
Definition joined (n : nat) s : bool := forallb (fun th => (n <=? turn th)%nat) (threads s).

(** [None]: the schedule is not complete. *)
Definition benchmark_multi_thread (schedule : list nat) (duration : Z) : option (list cstring * pool_t) :=
  match make Order_default pool_size with
  | inl _ => None
  | inr p =>
      s ← run_threads iterations_per_thread schedule (mkst p (replicate num_threads (mkThread 0 Ready)));
      if joined iterations_per_thread s then Some (multi_results duration, pool s) else None
  end.

Definition main (schedule : list nat) (single_time multi_time : Z) : option (list cstring) :=
  '(single, _) ← benchmark_single_thread single_time;
  '(multi, _) ← benchmark_multi_thread schedule multi_time;
  Some ([cstr "Memory Pool Benchmarks"; cstr "======================"; []] ++ single ++ multi).

(** ** One thread *)

Lemma allocate_free_done n : forall p fl, free_list p fl -> exists p', allocate_free n p = Some p' /\ free_list p' fl.
Proof.
  induction n as [|n IH]; intros p fl Hfl; [by exists p|]. cbn [allocate_free]. destruct fl as [|i fl].
  { rewrite (allocate_nil p Hfl). cbn [mbind option_bind]. by apply IH. }
  destruct (allocate_cons p i fl Hfl) as (p1 & -> & Hfl1 & _ & Hc & Ho & _). cbn [mbind option_bind].
  destruct (deallocate_free_list p1 i fl Hfl1) as (p2 & -> & Hfl2 & _).
  { unfold owned. rewrite Ho. apply list_lookup_insert_eq. rewrite (fl_owned_len _ _ Hfl).
    destruct (fl_linked _ _ Hfl) as (_ & Hi & _). lia. }
  cbn [mbind option_bind]. by apply IH.
Qed.

(** ** Four threads *)

Definition slot_of (th : thread) : option nat :=
  match at_ th with Ready => None | Holding k | Written k => Some k end.

(** How many steps a thread has made. *)
Definition steps_of (th : thread) : nat :=
  3 * turn th + match at_ th with Ready => 0 | Holding _ => 1 | Written _ => 2 end.

(** The free slots and those the threads hold are all slots. *)
Record ok (n : nat) s (fl : list nat) : Prop := {
  k_free : free_list (pool s) fl;
  k_capacity : capacity_ (pool s) = pool_size;
  k_parts : fl ++ omap slot_of (threads s) ≡ₚ seq 0 (Z.to_nat (capacity_ (pool s)));
  k_few : Z.of_nat (length (threads s)) < capacity_ (pool s);
  k_high : high_water_ (pool s) <= Z.of_nat (length (threads s));
  k_turns th : th ∈ threads s -> (turn th <= n)%nat /\ (turn th = n -> at_ th = Ready)
}.

Lemma omap_length {A B} (f : A -> option B) l : (length (omap f l) <= length l)%nat.
Proof. induction l as [|x l IH]; [done|]. rewrite omap_cons length_app. destruct (f x); cbn in *; lia. Qed.

Lemma slots_split (ths : list thread) t th :
  ths !! t = Some th -> exists rest, omap slot_of ths ≡ₚ option_list (slot_of th) ++ rest /\
    (forall th', omap slot_of (<[t := th']> ths) ≡ₚ option_list (slot_of th') ++ rest) /\ (length rest < length ths)%nat.
Proof.
  intros Ht. pose proof (lookup_lt_Some _ _ _ Ht) as Hlt. exists (omap slot_of (take t ths ++ drop (S t) ths)). split_and!.
  - rewrite -{1}(take_drop_middle _ _ _ Ht) -omap_cons. by rewrite Permutation_middle.
  - intros th'. rewrite insert_take_drop; [done|]. rewrite -omap_cons. by rewrite Permutation_middle.
  - eapply Nat.le_lt_trans; [apply omap_length|]. rewrite length_app length_take length_drop. lia.
Qed.

Lemma held_owned n s fl t th k : ok n s fl -> threads s !! t = Some th -> slot_of th = Some k -> owned (pool s) k.
Proof.
  intros K Ht Hk. destruct (slots_split _ _ _ Ht) as (rest & Hp & _). rewrite Hk in Hp. cbn in Hp.
  pose proof (k_parts _ _ _ K) as Hall. rewrite Hp -Permutation_middle in Hall.
  assert (NoDup (k :: fl ++ rest)) as [Hnot _]%NoDup_cons by (rewrite Hall; apply NoDup_seq).
  assert (k ∈ seq 0 (Z.to_nat (capacity_ (pool s)))) as Hin by (rewrite -Hall; left). apply elem_of_seq in Hin.
  unfold owned. rewrite (fl_owned _ _ (k_free _ _ _ K)); [lia|]. rewrite decide_False; [|done]. intros Hfl. apply Hnot, elem_of_app. by left.
Qed.

Lemma allocate_high (p p' : pool_t) r : allocate p = Some (r, p') -> high_water_ p' <= high_water_ p `max` allocated_ p'.
Proof.
  unfold allocate. destruct (_ =? _); [intros [= _ <-]; lia|]. intros H.
  destruct (next_ p !! _); [|done]. cbn [mbind option_bind] in H. destruct (owned_ _ !! _); [|done]. cbn [mbind option_bind] in H.
  destruct (_ =? 0); [|done]. injection H as _ <-. cbn. destruct (_ <? _); lia.
Qed.

Lemma deallocate_high (p p' : pool_t) i : deallocate (Some i) p = Some p' -> high_water_ p' = high_water_ p.
Proof.
  unfold deallocate. destruct (negb _); [done|]. destruct (owned_ p !! i); [|done]. cbn [mbind option_bind].
  destruct (negb _); [done|]. by intros [= <-].
Qed.

(** A step succeeds, brings its thread forward and leaves the others. *)
Definition advanced (n t : nat) (ths ths' : list thread) : Prop :=
  length ths' = length ths /\
  forall u th, ths !! u = Some th -> exists th', ths' !! u = Some th' /\
    steps_of th' = if decide (u = t) then Nat.min (3 * n) (S (steps_of th)) else steps_of th.

Lemma advanced_insert n t ths th th' :
  ths !! t = Some th -> steps_of th' = Nat.min (3 * n) (S (steps_of th)) -> advanced n t ths (<[t := th']> ths).
Proof.
  intros Ht Hs. split; [apply length_insert|]. intros u x Hu. destruct (decide (u = t)) as [->|Hne].
  - exists th'. rewrite list_lookup_insert_eq; [by eapply lookup_lt_Some|]. by simplify_eq.
  - exists x. by rewrite list_lookup_insert_ne.
Qed.

Lemma turns_insert n t (ths : list thread) th' :
  (forall th, th ∈ ths -> (turn th <= n)%nat /\ (turn th = n -> at_ th = Ready)) ->
  (turn th' <= n)%nat -> (turn th' = n -> at_ th' = Ready) ->
  forall th, th ∈ <[t := th']> ths -> (turn th <= n)%nat /\ (turn th = n -> at_ th = Ready).
Proof.
  intros H H1 H2 th (u & Hu)%list_elem_of_lookup. apply list_lookup_insert_Some in Hu as [(_ & <- & _)|[_ Hu]]; [done|].
  apply H. by eapply list_elem_of_lookup_2.
Qed.

Lemma ready_step n t th s fl :
  ok n s fl -> threads s !! t = Some th -> at_ th = Ready -> (turn th < n)%nat ->
  exists k p fl', allocate (pool s) = Some (Some k, p) /\ ok n (mkst p (<[t := mkThread (turn th) (Holding k)]> (threads s))) fl'.
Proof.
  intros K Ht Hat Hlt. destruct (slots_split _ _ _ Ht) as (rest & Hp & Hins & Hlen). unfold slot_of in Hp at 2. rewrite Hat in Hp.
  pose proof (k_parts _ _ _ K) as Hall. rewrite Hp in Hall. pose proof (k_few _ _ _ K) as Hfew. pose proof (k_free _ _ _ K) as Hfl.
  pose proof (Permutation_length Hall) as Hl. rewrite length_app length_seq in Hl.
  destruct fl as [|k fl]; [cbn in Hl; lia|].
  destruct (allocate_cons _ k fl Hfl) as (p & Ha & Hfl' & _ & Hc & _ & Hal). exists k, p, fl. split; [done|].
  split; cbn [pool threads]; rewrite ?Hc ?length_insert.
  - done.
  - apply (k_capacity _ _ _ K).
  - rewrite (Hins (mkThread (turn th) (Holding k))). cbn. by rewrite -Hall -Permutation_middle.
  - done.
  - pose proof (allocate_high _ _ _ Ha). pose proof (k_high _ _ _ K). pose proof (fl_alloc _ _ Hfl'). rewrite Hc in H1. cbn in Hl. lia.
  - apply turns_insert; [apply (k_turns _ _ _ K)|cbn; lia|cbn; lia].
Qed.

Lemma written_step n t th k s fl :
  ok n s fl -> threads s !! t = Some th -> at_ th = Written k -> (turn th < n)%nat ->
  exists p, deallocate (Some k) (pool s) = Some p /\ ok n (mkst p (<[t := mkThread (S (turn th)) Ready]> (threads s))) (k :: fl).
Proof.
  intros K Ht Hat Hlt. assert (slot_of th = Some k) as Hk by by rewrite /slot_of Hat.
  destruct (deallocate_free_list _ k fl (k_free _ _ _ K)) as (p & Hd & Hfl' & _ & Hc & _); [by eapply held_owned|].
  exists p. split; [done|]. destruct (slots_split _ _ _ Ht) as (rest & Hp & Hins & Hlen). rewrite Hk in Hp.
  pose proof (k_parts _ _ _ K) as Hall. rewrite Hp in Hall. split; cbn [pool threads]; rewrite ?Hc ?length_insert.
  - done.
  - apply (k_capacity _ _ _ K).
  - rewrite (Hins (mkThread (S (turn th)) Ready)). cbn in *. by rewrite -Hall -Permutation_middle.
  - apply (k_few _ _ _ K).
  - rewrite (deallocate_high _ _ _ Hd). apply (k_high _ _ _ K).
  - apply turns_insert; [apply (k_turns _ _ _ K)|cbn; lia|done].
Qed.

Lemma thread_step_ok n t s fl :
  ok n s fl -> exists s' fl', thread_step n t s = Some s' /\ ok n s' fl' /\ advanced n t (threads s) (threads s').
Proof.
  intros K. unfold thread_step. destruct (threads s !! t) as [th|] eqn:Ht.
  2:{ exists s, fl. split_and!; [done..|]. split; [done|]. intros u th Hu. exists th. split; [done|]. rewrite decide_False; congruence. }
  destruct (k_turns _ _ _ K th (list_elem_of_lookup_2 _ _ _ Ht)) as [Hle Hend]. destruct (Nat.ltb_spec (turn th) n) as [Hlt|Hge].
  2:{ exists s, fl. split_and!; [done..|]. split; [done|]. intros u x Hu. exists x. split; [done|]. case_decide; [|done]. simplify_eq.
      unfold steps_of. rewrite Hend; lia. }
  destruct (at_ th) as [|k|k] eqn:Hat.
  - destruct (ready_step n t th s fl K Ht Hat Hlt) as (k & p & fl' & -> & K'). cbn [mbind option_bind].
    eexists _, fl'. split; [reflexivity|]. split; [done|]. apply (advanced_insert _ _ _ th); [done|].
    unfold steps_of. rewrite Hat. cbn [turn at_]. lia.
  - destruct (owned_in_range (pool s) k) as [o Ho]; [by exists fl; apply (k_free _ _ _ K)|apply (held_owned n s fl t th k K Ht); by rewrite /slot_of Hat|].
    rewrite Ho. cbn [mbind option_bind]. eexists _, fl. split; [reflexivity|]. split.
    + destruct (slots_split _ _ _ Ht) as (rest & Hp & Hins & Hlen). rewrite {2}/slot_of Hat in Hp. destruct K as [K1 K0 K2 K3 K4 K5].
      split; cbn [pool threads]; rewrite ?length_insert; try done.
      * by apply store_free_list.
      * rewrite (Hins (mkThread (turn th) (Written k))). cbn in *. by rewrite -Hp.
      * apply turns_insert; [done|cbn; lia|cbn; lia].
    + apply (advanced_insert _ _ _ th); [done|]. unfold steps_of. rewrite Hat. cbn [turn at_]. lia.
  - destruct (written_step n t th k s fl K Ht Hat Hlt) as (p & -> & K'). cbn [mbind option_bind].
    eexists _, (k :: fl). split; [reflexivity|]. split; [done|]. apply (advanced_insert _ _ _ th); [done|].
    unfold steps_of. rewrite Hat. cbn [turn at_]. lia.
Qed.

Definition times (t : nat) (schedule : list nat) : nat := length (filter (fun u => u = t) schedule).

Lemma run_threads_ok n schedule : forall s fl,
  ok n s fl -> (forall t th, threads s !! t = Some th -> (steps_of th <= 3 * n)%nat) ->
  exists s' fl', run_threads n schedule s = Some s' /\ ok n s' fl' /\ length (threads s') = length (threads s) /\
    forall t th, threads s !! t = Some th -> exists th', threads s' !! t = Some th' /\
      steps_of th' = Nat.min (3 * n) (steps_of th + times t schedule).
Proof.
  induction schedule as [|u schedule IH]; intros s fl K Hle.
  { exists s, fl. split_and!; [done..|]. intros t th Ht. exists th. split; [done|]. specialize (Hle t th Ht). change (times t []) with 0%nat. lia. }
  cbn [run_threads]. destruct (thread_step_ok n u s fl K) as (s1 & fl1 & -> & K1 & Hlen & Hadv). cbn [mbind option_bind].
  destruct (IH s1 fl1 K1) as (s2 & fl2 & Hr & K2 & Hlen2 & Hall).
  { intros t th Ht. pose proof (lookup_lt_Some _ _ _ Ht) as Hlt. rewrite Hlen in Hlt.
    destruct (lookup_lt_is_Some_2 _ _ Hlt) as [th0 Ht0]. destruct (Hadv t th0 Ht0) as (th1 & Ht1 & Hs). simplify_eq.
    rewrite Hs. specialize (Hle t th0 Ht0). case_decide; lia. }
  exists s2, fl2. split; [done|]. split; [done|]. split; [lia|]. intros t th Ht.
  destruct (Hadv t th Ht) as (th1 & Ht1 & Hs). destruct (Hall t th1 Ht1) as (th2 & Ht2 & Hs2). exists th2. split; [done|].
  rewrite Hs2 Hs. specialize (Hle t th Ht). unfold times. rewrite filter_cons. case_decide as E1; case_decide as E2; cbn [length]; [lia| | |lia]; congruence.
Qed.

Lemma make_high dflt cap (p : pool_t) : make dflt cap = inr p -> high_water_ p = 0.
Proof. unfold make. destruct (validate_capacity cap) as [|n]; [done|]. generalize (Z.to_nat n). by intros n' [= <-]. Qed.

Lemma fresh_threads n p k fl :
  free_list p fl -> fl ≡ₚ seq 0 (Z.to_nat (capacity_ p)) -> capacity_ p = pool_size -> high_water_ p = 0 -> Z.of_nat k < pool_size ->
  ok n (mkst p (replicate k (mkThread 0 Ready))) fl.
Proof.
  intros Hfl Hp Hc Hh Hk. split; cbn [pool threads]; rewrite ?length_replicate.
  - exact Hfl.
  - exact Hc.
  - assert (omap slot_of (replicate k (mkThread 0 Ready)) = []) as ->; [clear; by induction k|].
    rewrite app_nil_r. exact Hp.
  - lia.
  - lia.
  - intros th [-> _]%elem_of_replicate. cbn. split; [lia|done].
Qed.

End PoolBench.

Module PoolBenchClaims.
Import PoolBench.

(** The pool benchmarks run to their end under every schedule that gives each
    of the four threads its three million steps: no allocation fails, no assertion
    of [deallocate] fails, every slot is free again, the pool counts nothing as
    allocated, and it never had more than four slots out. *)
Theorem pool_benchmark_leaves_pool_free schedule single_time multi_time :
  (forall t, (t < num_threads)%nat -> (3 * iterations_per_thread <= times t schedule)%nat) ->
  exists p1 p4 fl,
    benchmark_single_thread single_time = Some (single_results single_time, p1) /\
    MemoryPool.free_list p1 (seq 0 (Z.to_nat pool_size)) /\
    benchmark_multi_thread schedule multi_time = Some (multi_results multi_time, p4) /\
    MemoryPool.free_list p4 fl /\ fl ≡ₚ seq 0 (Z.to_nat pool_size) /\
    MemoryPool.allocated_ p4 = 0 /\ MemoryPool.high_water_ p4 <= 4.
Proof.
  intros Hs. destruct (MemoryPool.make_free_list Order_default pool_size) as (p & Hp & Hc & Hfl);
    [unfold pool_size, MemoryPool.POOL_EMPTY; lia|].
  unfold benchmark_single_thread, benchmark_multi_thread. rewrite Hp. apply make_high in Hp.
  set (slots := seq 0 (Z.to_nat pool_size)) in *. set (N := iterations_per_thread) in *. set (M := iterations).
  assert (slots ≡ₚ seq 0 (Z.to_nat (MemoryPool.capacity_ p))) as Hslots by (rewrite Hc; reflexivity).
  assert (length slots = Z.to_nat pool_size) as Hl by (unfold slots; apply length_seq).
  clearbody slots N M.
  destruct (allocate_free_done M p _ Hfl) as (p1 & -> & Hfl1). cbn [mbind option_bind].
  destruct (run_threads_ok N schedule _ _ (fresh_threads N p num_threads _ Hfl Hslots Hc Hp eq_refl))
    as (s & fl & -> & K & Hlen & Hall).
  { intros t th [-> _]%lookup_replicate_1. unfold steps_of. cbn. lia. }
  cbn [mbind option_bind threads] in *. rewrite length_replicate in Hlen.
  assert (forall th, th ∈ threads s -> turn th = N /\ at_ th = Ready) as Hend.
  { intros th (t & Ht)%list_elem_of_lookup. pose proof (lookup_lt_Some _ _ _ Ht) as Hlt. rewrite Hlen in Hlt.
    destruct (Hall t (mkThread 0 Ready)) as (th' & Ht' & Hst); [by apply lookup_replicate_2|]. simplify_eq.
    specialize (Hs t Hlt). destruct (k_turns _ _ _ K th (list_elem_of_lookup_2 _ _ _ Ht)) as [Hle Hr].
    unfold steps_of in Hst. cbn [turn at_] in Hst. assert (turn th = N) as HN by (destruct (at_ th); lia). auto. }
  assert (joined N s = true) as ->.
  { apply forallb_forall. intros th Hin. apply Nat.leb_le. destruct (Hend th) as [-> _]; [by apply list_elem_of_In|done]. }
  assert (omap slot_of (threads s) = []) as Hno.
  { assert (Forall (fun th => at_ th = Ready) (threads s)) as HR by (apply Forall_forall; intros th Hin; by apply Hend).
    clear -HR. induction HR as [|th ths Hat _ IH]; [done|]. rewrite omap_cons IH /slot_of Hat. done. }
  pose proof (k_parts _ _ _ K) as Hparts. rewrite Hno app_nil_r in Hparts.
  pose proof (k_capacity _ _ _ K) as Hcs. rewrite Hcs -Hc -Hslots in Hparts.
  exists p1, (pool s), fl. split_and!; [done|done|done|apply (k_free _ _ _ K)|done| |].
  - rewrite (MemoryPool.fl_alloc _ _ (k_free _ _ _ K)) Hcs. apply Permutation_length in Hparts. rewrite Hparts Hl.
    unfold pool_size. lia.
  - pose proof (k_high _ _ _ K). rewrite Hlen in H. unfold num_threads in H. lia.
Qed.

(** The threads in turn. *)
Fixpoint round_robin (n : nat) : list nat :=
  match n with O => [] | S n => 0%nat :: 1%nat :: 2%nat :: 3%nat :: round_robin n end.

Lemma times_round_robin t n : (t < 4)%nat -> times t (round_robin n) = n.
Proof.
  intros Ht. induction n as [|n IH]; [done|]. unfold times in *. cbn [round_robin]. rewrite !filter_cons.
  repeat case_decide; cbn [length]; lia.
Qed.

Lemma pool_benchmark_leaves_pool_free_witness :
  exists p1 p4 fl,
    benchmark_single_thread 5 = Some (single_results 5, p1) /\
    MemoryPool.free_list p1 (seq 0 (Z.to_nat pool_size)) /\
    benchmark_multi_thread (round_robin (3 * iterations_per_thread)) 7 = Some (multi_results 7, p4) /\
    MemoryPool.free_list p4 fl /\ fl ≡ₚ seq 0 (Z.to_nat pool_size) /\
    MemoryPool.allocated_ p4 = 0 /\ MemoryPool.high_water_ p4 <= 4.
Proof.
  apply pool_benchmark_leaves_pool_free. intros t Ht. rewrite times_round_robin; [exact Ht|]. apply Nat.le_refl.
Defined.

End PoolBenchClaims.

(** ** tools/bench_exchange.cpp *)
Module ExchangeBench.

Record t := mk { symbols_str : cstring; num_orders : Z; host : cstring; port : Z }.

Definition defaults : t := mk (cstr "AAPL,MSFT") 1000000 (cstr "localhost") 8888.

(** The option loop; an option it does not know is skipped with its value. *)
Definition apply_option (arg value : cstring) (o : t) : outcome t :=
  if bool_decide (arg = cstr "--symbols") then Done (mk value (num_orders o) (host o) (port o))
  else if bool_decide (arg = cstr "--orders") then
    let! v := or_throw "stoi" (SecureConfigManager.stoi value) in Done (mk (symbols_str o) v (host o) (port o))
  else if bool_decide (arg = cstr "--host") then Done (mk (symbols_str o) (num_orders o) value (port o))
  else if bool_decide (arg = cstr "--port") then
    let! v := or_throw "stoi" (SecureConfigManager.stoi value) in Done (mk (symbols_str o) (num_orders o) (host o) (wrap 16 v))
  else Done o.

Fixpoint parse_options (args : list cstring) (o : t) : outcome (parsed t) :=
  match args with
  | [] => Done (Options o)
  | [arg] => Done (Exit 1 [cstr "Missing value for " ++ arg])
  | arg :: value :: rest => let! o := apply_option arg value o in parse_options rest o
  end.

Definition banner (o : t) : list cstring :=
  [cstr "Exchange Benchmark"; cstr "Symbols: " ++ symbols_str o; cstr "Target orders: " ++ print_i64 (num_orders o);
   cstr "Host: " ++ host o ++ cstr ":" ++ print_u64 (port o); []].

(** [std::max(1, num_orders / 1000)] *)
Definition estimated_duration (o : t) : Z := Z.max 1 (num_orders o `quot` 1000).

(** [duration]: microseconds. *)
Definition results (duration : Z) (c : ClientBase.t) : list cstring :=
  [[]; cstr "=== Benchmark Results ===";
   cstr "Duration: " ++ print_general (double_div (double_of_Z duration) (double_of_Z 1000)) ++ cstr " ms";
   cstr "Orders sent: " ++ print_u64 (ClientBase.orders_sent_ c);
   cstr "Orders acked: " ++ print_u64 (ClientBase.orders_acked_ c);
   cstr "Orders rejected: " ++ print_u64 (ClientBase.orders_rejected_ c);
   cstr "Trades received: " ++ print_u64 (ClientBase.trades_received_ c)]
  ++ (if 0 <? duration
      then [cstr "Throughput: "
              ++ print_general (double_div (double_mul (double_of_Z (ClientBase.orders_sent_ c)) (double_of_Z 1000000)) (double_of_Z duration))
              ++ cstr " orders/sec";
            cstr "Average latency: "
              ++ print_general (double_div (double_of_Z duration) (double_of_Z (ClientBase.orders_sent_ c))) ++ cstr " μs/order"]
      else []).

Section main.
Variable timestamp : nat -> Timestamp.
Variable send_result : nat -> Z -> Z.
Variable uniform : nat -> Z -> Z -> Z.
(** [inet_pton] and [connect]. *)
Variable address_ok : cstring -> bool.
Variable connect_ok : cstring -> Z -> bool.

(** [client.run(std::chrono::seconds(estimated_duration))] *)
Definition run_client (o : t) (start_time : Z) (x : schedule) (chunks : list (list Z)) (client : LiquidityTaker)
    : outcome (receiver * LiquidityTaker) :=
  run_threads (H := LiquidityTaker_strategy timestamp send_result uniform) (estimated_duration o * 1000000000) start_time x chunks client.

(** The exit status, [None] when [client.run] does not return, and what was written. *)
Definition main (args : list cstring) (start_time duration : Z) (x : schedule) (chunks : list (list Z))
    : outcome (option Z * list cstring) :=
  let! p := parse_options args defaults in
  match p with
  | Exit code lines => Done (Some code, lines)
  | Options o =>
      match LoadGenerator.split_symbols (symbols_str o) with
      | [] => Done (Some 1, [cstr "No symbols specified"])
      | symbol :: _ =>
          let client := LiquidityTaker_make 9999 symbol in
          let '(connected, c) := ClientBase.connect true (address_ok (host o)) (connect_ok (host o) (port o)) (lt_base client) in
          if negb connected then Done (Some 1, banner o ++ [cstr "Failed to connect to exchange"])
          else
            let! r := run_client o start_time x chunks (lt_set_base c client) in
            let lines := banner o ++ [cstr "Connected to exchange, starting benchmark..."] in
            if rx_live r.1 then Done (Some 0, lines ++ results duration (lt_base r.2)) else Done (None, lines)
      end
  end.

(** ** How many orders it sends *)

Hypothesis timestamp_u64 : forall n, u64 (timestamp n).

(** The client after [k] ticks: an order in ten at most. *)
Record pacing (sym : cstring) (k : Z) (l : LiquidityTaker) : Prop := {
  pc_symbol : lt_symbol_ l = sym;
  pc_frequency : order_frequency_ l = 100;
  pc_ticks : tick_counter_ l = k;
  pc_sent : 0 <= 10 * ClientBase.orders_sent_ (lt_base l) <= k;
  pc_open : ClientBase.socket_open (lt_base l) = true;
  pc_client : u32 (ClientBase.client_id_ (lt_base l));
  pc_next : u64 (ClientBase.next_order_id_ (lt_base l))
}.

Definition sendable (sym : cstring) : Prop := text_ok sym /\ (length sym < 8)%nat.

(** What an order does to the fields that matter. *)
Lemma send_paced sym side q p c :
  sendable sym -> (side = BUY \/ side = SELL) -> u64 q -> u64 p ->
  u32 (ClientBase.client_id_ c) -> u64 (ClientBase.next_order_id_ c) -> ClientBase.socket_open c = true ->
  0 <= ClientBase.orders_sent_ c < 2 ^ 63 ->
  exists ok c', ClientBase.send_new_order timestamp send_result sym side q p c = Done (ok, c') /\
    ClientBase.client_id_ c' = ClientBase.client_id_ c /\ u64 (ClientBase.next_order_id_ c') /\ ClientBase.socket_open c' = true /\
    ClientBase.orders_sent_ c <= ClientBase.orders_sent_ c' <= ClientBase.orders_sent_ c + 1.
Proof using timestamp_u64.
  intros [Ht Hl] Hs Hq Hp Hc Hn Ho Hb.
  destruct (issue_done timestamp send_result timestamp_u64 (NewOrder sym side q p) c) as (m & _ & _ & _ & E); [done..|].
  cbn [issue numbered] in E. rewrite E. unfold ClientBase.send_message.
  cbn [ClientBase.socket_open ClientBase.bump_order_id ClientBase.bump_sequence]. rewrite Ho. cbn [negb takes_id].
  destruct (send_result _ _ =? _); cbn [andb Z.eqb Pos.eqb]; do 2 eexists; (split; [reflexivity|]); cbn;
    (split; [done|]); (split; [apply wrap_range; lia|]); (split; [done|]); [|lia].
  rewrite wrap_small; [|lia]. unfold is_u. change (2 ^ 64) with 18446744073709551616. change (2 ^ 63) with 9223372036854775808 in Hb. lia.
Qed.

Lemma tick_pacing sym k l :
  sendable sym -> pacing sym k l -> k < 2 ^ 31 - 1 ->
  exists l', lt_on_tick timestamp send_result uniform l = Done l' /\ pacing sym (k + 1) l'.
Proof using timestamp_u64.
  intros Hsym [P1 P2 P3 P4 P5 P6 P7] Hk. unfold lt_on_tick. rewrite P3. destruct (Z.eqb_spec k (2 ^ 31 - 1)); [lia|].
  cbn [order_frequency_ lt_set_counter tick_counter_]. rewrite P2. change (100 =? 0) with false. change (1000 `quot` 100) with 10.
  change (10 =? 0) with false. cbn match. destruct (Z.eqb_spec ((k + 1) `rem` 10) 0) as [E|E].
  2:{ eexists. split; [reflexivity|]. split; cbn; try done; lia. }
  unfold send_random_order, ClientBase.random_int. cbn [lt_base lt_set_counter lt_symbol_ lt_base_price_ lt_order_size_ order_frequency_ tick_counter_].
  match goal with |- context [ClientBase.send_new_order _ _ _ ?side ?q ?p ?c] =>
    destruct (send_paced sym side q p c) as (ok & c' & Es & H1 & H2 & H3 & H4) end; try done.
  - destruct (_ =? 0); auto.
  - apply wrap_range. lia.
  - apply wrap_range. lia.
  - cbn. change (2 ^ 31) with 2147483648 in Hk. change (2 ^ 63) with 9223372036854775808. lia.
  - rewrite P1 Es. cbn [omap_outcome snd]. eexists. split; [reflexivity|]. split; cbn in *; try done; [|by rewrite H1].
    apply Z.rem_divide in E as [m Hm]; lia.
Qed.

#[local] Existing Instance LiquidityTaker_strategy.
Abbreviation taker := (LiquidityTaker_strategy timestamp send_result uniform).

Lemma turn_pacing sym k head body l r :
  pacing sym k l -> exists r' l', turn (H := taker) head body r l = Done (r', l') /\ pacing sym k l'.
Proof.
  intros P. unfold turn. destruct (rx_live r); [|by exists r, l]. unfold receiver_turn. cbv zeta.
  destruct (ClientBase.receive_message _ _ _ _) as [[header| |] c1]; [|by eexists _, l..].
  destruct (_ =? ORDER_ACK).
  - destruct (ClientBase.receive_message _ _ _ _) as [[rest| |] c2]; [|by eexists _, l..]. eexists _, _. split; [reflexivity|].
    destruct P as [P1 P2 P3 P4 P5 P6 P7]. cbn [snd]. destruct (_ =? 1); by split.
  - destruct (_ =? TRADE_REPORT); [|by eexists _, l].
    destruct (ClientBase.receive_message _ _ _ _) as [[rest| |] c2]; [|by eexists _, l..]. eexists _, _. split; [reflexivity|].
    destruct P as [P1 P2 P3 P4 P5 P6 P7]. by split.
Qed.

Lemma turns_pacing sym k n : forall l r,
  pacing sym k l -> exists r' l', receiver_turns (H := taker) n r l = Done (r', l') /\ pacing sym k l'.
Proof.
  induction n as [|n IH]; intros l r P; [by exists r, l|]. cbn [receiver_turns].
  destruct (turn_pacing sym k sizeof_header sizeof_TradeMessage l r P) as (r1 & l1 & E & P1).
  unfold whole_turn. rewrite E. cbn [omap_outcome fst snd]. by apply IH.
Qed.

(** [sleep_for] sleeps a millisecond at least. *)
Fixpoint spaced (earliest : Z) (events : list thread_event) : Prop :=
  match events with
  | [] => True
  | MainReads now :: events => earliest <= now /\ spaced (now + 1000000) events
  | ReceiverTurn :: events => spaced earliest events
  end.

Lemma interleave_pacing sym start millis events : forall k earliest l r,
  sendable sym -> 0 <= millis < 2 ^ 31 - 1 -> pacing sym k l -> k <= millis -> start + k * 1000000 <= earliest -> spaced earliest events ->
  exists r' l' k', interleave (H := taker) (start + millis * 1000000) events r l = Done (r', l') /\
    pacing sym k' l' /\ k' <= millis.
Proof using timestamp_u64.
  induction events as [|[now|] events IH]; intros k earliest l r Hsym Hm P Hk He Hsp; cbn [interleave].
  - by exists r, l, k.
  - destruct Hsp as [Hnow Hsp]. destruct (ClientBase.running_ _ && (now <? start + millis * 1000000)) eqn:E; [|by exists r, l, k].
    apply andb_true_iff in E as [_ E%Z.ltb_lt]. destruct (tick_pacing sym k l Hsym P) as (l1 & Et & P1); [lia|].
    cbn [on_tick LiquidityTaker_strategy]. rewrite Et. cbn [omap_outcome].
    apply (IH (k + 1) (now + 1000000)); [done|done|done|lia|lia|done].
  - destruct (ClientBase.running_ _); [|by apply (IH k earliest)].
    destruct (turn_pacing sym k sizeof_header sizeof_TradeMessage l r P) as (r1 & l1 & E & P1).
    unfold whole_turn. rewrite E. cbn [omap_outcome fst snd]. by apply (IH k earliest).
Qed.

(** The time planned, in milliseconds. *)
Lemma planned_millis o :
  1000 <= num_orders o < 2 ^ 31 ->
  exists millis, estimated_duration o * 1000000000 = millis * 1000000 /\ 0 <= millis <= num_orders o /\
    millis < 2 ^ 31 - 1.
Proof.
  intros Ho. change (2 ^ 31) with 2147483648 in Ho. exists (num_orders o / 1000 * 1000).
  assert (estimated_duration o = num_orders o / 1000) as ->.
  { unfold estimated_duration. rewrite Z.quot_div_nonneg; [lia..|]. assert (1 <= num_orders o / 1000) by (apply Z.div_le_lower_bound; lia). lia. }
  assert (1000 * (num_orders o / 1000) <= num_orders o) by (apply Z.mul_div_le; lia).
  assert (0 <= num_orders o / 1000) by (apply Z.div_pos; lia).
  assert (num_orders o / 1000 <= 2147483) by (transitivity (2147483647 / 1000); [apply Z.div_le_mono; lia|done]).
  change (2 ^ 31) with 2147483648. lia.
Qed.

(** A receiver that finds nothing in the stream when the run is to end. *)
Definition asks_again (x : schedule) : Prop := exists head, sc_last x = Some (S head, 0%nat).

Lemma run_client_paced o sym start_time x chunks c :
  sendable sym -> 1000 <= num_orders o < 2 ^ 31 -> spaced start_time (sc_events x) ->
  c = ClientBase.set_socket true (ClientBase.make 9999) ->
  exists r l, run_client o start_time x chunks (lt_set_base c (LiquidityTaker_make 9999 sym)) = Done (r, l) /\
    0 <= 10 * ClientBase.orders_sent_ (lt_base l) <= num_orders o /\
    (chunks = [] -> asks_again x -> rx_live r = false).
Proof using timestamp_u64.
  intros Hsym Ho Hsp ->. unfold run_client, run_threads. cbn [base LiquidityTaker_strategy lt_base lt_set_base LiquidityTaker_make].
  cbn [ClientBase.socket_open ClientBase.set_socket negb]. cbv zeta.
  set (l0 := set_base _ _). assert (pacing sym 0 l0) as P0 by by split.
  clearbody l0. destruct (turns_pacing sym 0 (sc_early x) l0 (mkReceiver true chunks) P0) as (r1 & l1 & E1 & P1).
  rewrite E1. cbn [omap_outcome fst snd on_start on_stop LiquidityTaker_strategy].
  destruct (planned_millis o Ho) as (millis & -> & Hm & Hm2). change (2 ^ 31) with 2147483648 in Ho.
  destruct (interleave_pacing sym start_time millis (sc_events x) 0 start_time l1 r1) as (r2 & l2 & k & E2 & P2 & Hk);
    [done|lia|done|lia|lia|done|]. rewrite E2. cbn [omap_outcome fst snd].
  destruct (turns_pacing sym k (sc_late x) l2 r2 P2) as (r3 & l3 & E3 & P3). rewrite E3. cbn [omap_outcome fst snd].
  match goal with |- context [last_turn _ _ ?l] => set (l4 := l) end.
  assert (pacing sym k l4) as P4 by (destruct P3; by split). clearbody l4.
  assert (chunks = [] -> rx_chunks r3 = []) as Hnil.
  { intros ->. apply (turns_keep (fun r => rx_chunks r = []) (turn_nil (H := taker)) _ _ _ _ E3).
    apply (interleave_keeps (fun r => rx_chunks r = []) (turn_nil (H := taker)) _ _ _ _ _ E2).
    by apply (turns_keep (fun r => rx_chunks r = []) (turn_nil (H := taker)) _ _ _ _ E1). }
  assert (exists r4 l5, last_turn (H := taker) (sc_last x) r3 l4 = Done (r4, l5) /\ pacing sym k l5 /\
    (chunks = [] -> asks_again x -> rx_live r4 = false)) as (r4 & l5 & E4 & P5 & Hs).
  { unfold last_turn, asks_again. destruct (sc_last x) as [[[|head] [|body]]|].
    3: destruct (turn_pacing sym k (S head) 0 l4 r3 P4) as (r4 & l5 & E & P5); exists r4, l5; split_and!; [done|done|];
       intros Hc _; destruct (turn_silent (H := taker) head 0 r3 l4 (Hnil Hc) (pc_open _ _ _ P4)) as (r' & E' & _ & ?); congruence.
    4: exists r3, l4; split_and!; [done|done|]; intros _ [? ?]; done.
    all: match goal with P : pacing _ _ ?l |- context [turn ?a ?b ?r ?l] => destruct (turn_pacing _ _ a b l r P) as (r4 & l5 & E & P5) end;
       exists r4, l5; split_and!; [done|done|]; intros _ [? ?]; done. }
  exists r4, l5. split; [exact E4|]. split; [|done]. pose proof (pc_sent _ _ _ P5). lia.
Qed.

End main.
End ExchangeBench.

Module ExchangeBenchClaims.
Import ExchangeBench.

(** C40: The benchmark of the exchange sends a tenth of its orders at most, and may
    not end.  Asked for at least 1000 orders and connected, with a symbol of at most
    7 characters and sends that return (with flags 0, a send on a connection that
    was reset would end the process by [SIGPIPE]), its client sends an order at every tenth
    tick, a tick takes a millisecond at least, and the time is planned for 1000
    orders a second: when the planned time is over, at most a tenth of the orders
    asked for has been sent, whatever the exchange answers and however the two
    threads of the client take turns.  The results are printed, and the status is 0,
    exactly when the receiver of the client can be joined: so it is when the
    exchange closes the connection sooner or later; but when the exchange says
    nothing and the receiver is in its [recv], [main] does not return. *)
Theorem exchange_benchmark_sends_a_tenth timestamp send_result uniform address_ok connect_ok args o sym rest start_time duration x chunks :
  (forall n, u64 (timestamp n)) -> parse_options args defaults = Done (Options o) ->
  LoadGenerator.split_symbols (symbols_str o) = sym :: rest -> sendable sym ->
  address_ok (host o) = true -> connect_ok (host o) (port o) = true ->
  1000 <= num_orders o < 2 ^ 31 -> spaced start_time (sc_events x) ->
  let client := lt_set_base (ClientBase.set_socket true (ClientBase.make 9999)) (LiquidityTaker_make 9999 sym) in
  let lines := banner o ++ [cstr "Connected to exchange, starting benchmark..."] in
  exists r l, run_client timestamp send_result uniform o start_time x chunks client = Done (r, l) /\
    10 * ClientBase.orders_sent_ (lt_base l) <= num_orders o /\
    main timestamp send_result uniform address_ok connect_ok args start_time duration x chunks =
      Done (if rx_live r then (Some 0, lines ++ results duration (lt_base l)) else (None, lines)) /\
    ([] ∈ chunks -> rx_live r = true) /\
    (chunks = [] -> asks_again x -> rx_live r = false).
Proof.
  intros Ht Hp Hs Hsym Ha Hc Ho Hsp client lines.
  destruct (run_client_paced timestamp send_result uniform Ht o sym start_time x chunks _ Hsym Ho Hsp eq_refl) as (r & l & Hr & Hn & Hsil).
  exists r, l. split; [exact Hr|]. split; [apply Hn|]. split; [|split; [|exact Hsil]].
  - unfold main. rewrite Hp. cbn [omap_outcome]. rewrite Hs. unfold ClientBase.connect. rewrite Ha Hc. cbn [negb].
    cbv zeta. change (lt_base (LiquidityTaker_make 9999 sym)) with (ClientBase.make 9999). rewrite Hr.
    cbn [omap_outcome fst snd]. by destruct (rx_live r).
  - intros Hin. unfold run_client in Hr. apply (run_threads_keeps closes turn_closes) in Hr; [|by split]. apply Hr.
Qed.

(** The exchange closes the connection: the results are printed. *)
Lemma exchange_benchmark_sends_a_tenth_witness :
  exists l, main (fun _ => 7) (fun _ size => size) (fun _ low _ => low) (fun _ => true) (fun _ _ => true)
      [cstr "--orders"; cstr "5000"] 0 6000000 (mkSchedule 1 (MainReads <$> [0; 1000000; 2000000]) 0 (Some (1, 0)%nat)) [[]] =
      Done (Some 0, (banner (mk (cstr "AAPL,MSFT") 5000 (cstr "localhost") 8888)
               ++ [cstr "Connected to exchange, starting benchmark..."]) ++ results 6000000 (lt_base l)) /\
    10 * ClientBase.orders_sent_ (lt_base l) <= 5000.
Proof.
  destruct (exchange_benchmark_sends_a_tenth (fun _ => 7) (fun _ size => size) (fun _ low _ => low) (fun _ => true) (fun _ _ => true)
    [cstr "--orders"; cstr "5000"] (mk (cstr "AAPL,MSFT") 5000 (cstr "localhost") 8888) (cstr "AAPL") [cstr "MSFT"] 0 6000000
    (mkSchedule 1 (MainReads <$> [0; 1000000; 2000000]) 0 (Some (1, 0)%nat)) [[]]) as (r & l & _ & Hn & Hm & Hc & _).
  - intros _. split; lia.
  - reflexivity.
  - reflexivity.
  - split; [repeat constructor|cbn; lia].
  - reflexivity.
  - reflexivity.
  - cbn. lia.
  - cbn. lia.
  - exists l. rewrite (Hc ltac:(left)) in Hm. exact (conj Hm Hn).
Defined.

End ExchangeBenchClaims.
