(* ===== verification/CodebaseAnalyzer.v ===== *)
(** * The codebase analyzer (codebase_analysis.cpp)

    A stand-alone program that looks which files of the repository exist and gives
    a verdict.  The file system is an argument: [exists_] for
    [std::filesystem::exists], [entries] for the names a [directory_iterator]
    delivers for [tests] and [docs], which are directories if they exist.  The three static members and the lines written are the state. *)

From Stdlib Require Import SpecFloat.
From S2P Require Import Prelude Types Double MemorySafety Strings Formatting.

(** ** [std::map<std::string, V>]: the entries in the order of their keys *)

Fixpoint text_lt (a b : cstring) : bool :=
  match a, b with
  | _, [] => false
  | [], _ :: _ => true
  | x :: a, y :: b => (x <? y) || (x =? y) && text_lt a b
  end.

(** [m[k] = v] *)
Fixpoint map_put {V} (k : cstring) (v : V) (m : list (cstring * V)) : list (cstring * V) :=
  match m with
  | [] => [(k, v)]
  | (k', v') :: m' =>
      if text_lt k k' then (k, v) :: m else if bool_decide (k = k') then (k, v) :: m' else (k', v') :: map_put k v m'
  end.

Module CodebaseAnalyzer.

Record ComponentAnalysis := mkComponent {
  name : cstring;
  files : list cstring;
  complete : bool;
  tested : bool;
  documented : bool;
  missing_features : list cstring
}.

Record st := mk {
  components : list (cstring * ComponentAnalysis);
  critical_issues : list cstring;
  recommendations : list cstring;
  out : list cstring
}.
Implicit Types s : st.

Definition initial : st := mk [] [] [] [].

Definition say (lines : list cstring) s : st :=
  mk (components s) (critical_issues s) (recommendations s) (out s ++ lines).
Definition add_issue (issue : cstring) s : st :=
  mk (components s) (critical_issues s ++ [issue]) (recommendations s) (out s).
Definition recommend (what : cstring) s : st :=
  mk (components s) (critical_issues s) (recommendations s ++ [what]) (out s).
Definition set_components c s : st := mk c (critical_issues s) (recommendations s) (out s).

(** Up to the first dot: [file.substr(0, file.find('.'))]. *)
Definition stem (file : cstring) : cstring := take_while (fun c => negb (c =? 46)) file.

(** [path::extension] of a file name: from its last dot on, unless that is its
    first character. *)
Fixpoint last_dot (seen : option cstring) (s : cstring) : option cstring :=
  match s with
  | [] => seen
  | c :: s' => last_dot (if c =? 46 then Some s else seen) s'
  end.
Definition extension (file : cstring) : cstring :=
  if bool_decide (file = cstr "..") then []
  else match file with [] => [] | _ :: file' => default [] (last_dot None file') end.

Section file_system.
Variable exists_ : cstring -> bool.
Variable entries : cstring -> list cstring.

(** A loop that reports each path and does [missing] about the absent ones. *)
Fixpoint check_paths (indent : cstring) (missing : cstring -> st -> st) (paths : list cstring) s : st :=
  match paths with
  | [] => s
  | path :: paths =>
      let s := if exists_ path then say [indent ++ cstr "✅ " ++ path] s
               else missing path (say [indent ++ cstr "❌ " ++ path ++ cstr " (MISSING)"] s) in
      check_paths indent missing paths s
  end.

(** *** analyze_project_structure *)

Definition required_dirs : list cstring :=
  [cstr "include/rtes"; cstr "src"; cstr "tests"; cstr "docs"; cstr "configs"; cstr "scripts"; cstr "tools"].
Definition essential_files : list cstring :=
  [cstr "CMakeLists.txt"; cstr "README.md"; cstr "LICENSE"; cstr "Dockerfile"; cstr "docker-compose.yml"; cstr ".gitignore"].

Definition analyze_project_structure s : st :=
  let s := say [[]; cstr "📁 Project Structure Analysis"; cstr "-----------------------------"] s in
  let s := check_paths (cstr "  ") (fun dir => add_issue (cstr "Missing directory: " ++ dir)) required_dirs s in
  let s := say [[]; cstr "📄 Essential Files:"] s in
  check_paths (cstr "  ") (fun file => recommend (cstr "Add missing file: " ++ file)) essential_files s.

(** *** analyze_core_components *)

Definition component (n : string) (fs : list string) : cstring * ComponentAnalysis :=
  (cstr n, mkComponent (cstr n) (cstr <$> fs) true true true []).

Definition core_components : list (cstring * ComponentAnalysis) :=
  [component "Trading Engine" ["order_book.hpp"; "matching_engine.hpp"; "exchange.hpp"];
   component "Network Layer" ["tcp_gateway.hpp"; "udp_publisher.hpp"; "protocol.hpp"];
   component "Risk Management" ["risk_manager.hpp"];
   component "Security" ["security_utils.hpp"; "auth_middleware.hpp"; "network_security.hpp"];
   component "Memory Management" ["memory_pool.hpp"; "memory_safety.hpp"];
   component "Error Handling" ["error_handling.hpp"; "transaction.hpp"];
   component "Observability" ["observability.hpp"; "metrics.hpp"; "monitoring.hpp"; "logger.hpp"];
   component "Configuration" ["config.hpp"; "secure_config.hpp"];
   component "Performance" ["performance_optimizer.hpp"; "spsc_queue.hpp"; "mpmc_queue.hpp"];
   component "Thread Safety" ["thread_safety.hpp"]]%string.

Definition header_path (file : cstring) : cstring := cstr "include/rtes/" ++ file.
Definition source_path (file : cstring) : cstring := cstr "src/" ++ stem file ++ cstr ".cpp".

(** The loop over the files of a component, with [all_files_exist]. *)
Fixpoint check_files (files : list cstring) (all_files_exist : bool) s : bool * st :=
  match files with
  | [] => (all_files_exist, s)
  | file :: files =>
      let '(all_files_exist, s) :=
        if exists_ (header_path file) then (all_files_exist, say [cstr "    ✅ " ++ file ++ cstr " (header)"] s)
        else (false, say [cstr "    ❌ " ++ file ++ cstr " (header MISSING)"] s) in
      let s := if exists_ (source_path file) then say [cstr "    ✅ " ++ stem file ++ cstr ".cpp (source)"] s
               else say [cstr "    ⚠️  " ++ stem file ++ cstr ".cpp (source MISSING)"] s in
      check_files files all_files_exist s
  end.

Definition set_complete (b : bool) (c : ComponentAnalysis) : ComponentAnalysis :=
  mkComponent (name c) (files c) b (tested c) (documented c) (missing_features c).

(** The loop over the components; [done_] are those it has dealt with. *)
Fixpoint check_components (todo done_ : list (cstring * ComponentAnalysis)) s : st :=
  match todo with
  | [] => set_components done_ s
  | (n, c) :: todo =>
      let '(all_files_exist, s) := check_files (files c) true (say [[]; cstr "  📦 " ++ n ++ cstr ":"] s) in
      let c := set_complete all_files_exist c in
      let s := if negb (complete c) then add_issue (cstr "Incomplete component: " ++ n) s else s in
      check_components todo (done_ ++ [(n, c)]) s
  end.

Definition analyze_core_components s : st :=
  let s := say [[]; cstr "🏗️  Core Components Analysis"; cstr "----------------------------"] s in
  let all := foldl (fun m kc => map_put kc.1 kc.2 m) (components s) core_components in
  check_components all [] s.

(** *** analyze_test_coverage and analyze_documentation *)

Definition files_with (ext dir : cstring) : list cstring :=
  if exists_ dir then filter (fun f => extension f = ext) (entries dir) else [].

Definition expected_tests : list cstring :=
  cstr <$> ["test_order_book.cpp"; "test_matching_engine.cpp"; "test_tcp_gateway.cpp"; "test_risk_manager.cpp";
            "test_memory_pool.cpp"; "test_security.cpp"; "test_error_handling.cpp"; "test_observability.cpp";
            "test_thread_safety.cpp"]%string.

(** A loop over expected names. *)
Fixpoint check_expected (found : list cstring) (advice : cstring) (names : list cstring) s : st :=
  match names with
  | [] => s
  | n :: names =>
      let s := if bool_decide (n ∈ found) then say [cstr "    ✅ " ++ n] s
               else recommend (advice ++ n) (say [cstr "    ❌ " ++ n ++ cstr " (MISSING)"] s) in
      check_expected found advice names s
  end.

(** [(double)n / m * 100.0] *)
Definition percent (n m : Z) : double := double_mul (double_div (double_of_Z n) (double_of_Z m)) (double_of_Z 100).

Definition analyze_test_coverage s : st :=
  let s := say [[]; cstr "🧪 Test Coverage Analysis"; cstr "-------------------------"] s in
  let test_files := files_with (cstr ".cpp") (cstr "tests") in
  let s := say [cstr "  Found " ++ print_u64 (Z.of_nat (length test_files)) ++ cstr " test files:"] s in
  let s := say ((fun test => cstr "    ✅ " ++ test) <$> test_files) s in
  let s := say [[]; cstr "  Core Component Test Coverage:"] s in
  let s := check_expected test_files (cstr "Add missing test: ") expected_tests s in
  let coverage := percent (Z.of_nat (length test_files)) (Z.of_nat (length expected_tests)) in
  let s := say [[]; cstr "  Test Coverage: " ++ print_general coverage ++ cstr "%"] s in
  if double_lt coverage (double_of_Z 80)
  then add_issue (cstr "Low test coverage: " ++ to_string_double coverage ++ cstr "%") s else s.

Definition essential_docs : list cstring :=
  cstr <$> ["ARCHITECTURE.md"; "API.md"; "DEPLOYMENT.md"; "SECURITY.md"; "PERFORMANCE.md"; "OBSERVABILITY.md";
            "INCIDENT_RESPONSE.md"]%string.

Definition analyze_documentation s : st :=
  let s := say [[]; cstr "📚 Documentation Analysis"; cstr "-------------------------"] s in
  let doc_files := files_with (cstr ".md") (cstr "docs") in
  let s := say [cstr "  Found " ++ print_u64 (Z.of_nat (length doc_files)) ++ cstr " documentation files:"] s in
  let s := say ((fun doc => cstr "    ✅ " ++ doc) <$> doc_files) s in
  let s := say [[]; cstr "  Essential Documentation:"] s in
  check_expected doc_files (cstr "Add missing documentation: ") essential_docs s.

(** *** analyze_production_readiness *)

Definition config_files : list cstring := [cstr "configs/config.dev.json"; cstr "configs/config.prod.json"].
Definition deploy_scripts : list cstring := [cstr "scripts/deploy.sh"; cstr "scripts/production_deploy.sh"].
Definition docker_files : list cstring := [cstr "Dockerfile"; cstr "docker-compose.yml"].

Definition analyze_production_readiness s : st :=
  let s := say [[]; cstr "🚀 Production Readiness Analysis"; cstr "--------------------------------"] s in
  let s := say [cstr "  Configuration Files:"] s in
  let s := check_paths (cstr "    ") (fun config => add_issue (cstr "Missing config: " ++ config)) config_files s in
  let s := say [[]; cstr "  Deployment Scripts:"] s in
  let s := check_paths (cstr "    ") (fun script => recommend (cstr "Add deployment script: " ++ script)) deploy_scripts s in
  let s := say [[]; cstr "  Docker Configuration:"] s in
  let s := check_paths (cstr "    ") (fun file => recommend (cstr "Add Docker file: " ++ file)) docker_files s in
  if exists_ (cstr ".github/workflows/ci.yml") then say [[]; cstr "  ✅ CI/CD Pipeline configured"] s
  else recommend (cstr "Add CI/CD pipeline configuration") (say [[]; cstr "  ❌ CI/CD Pipeline (MISSING)"] s).

(** *** generate_analysis_report *)

Definition complete_components s : Z := Z.of_nat (length (filter (fun kc => complete kc.2 = true) (components s))).
Definition completeness s : double := percent (complete_components s) (Z.of_nat (length (components s))).
Definition issue_count s : Z := Z.of_nat (length (critical_issues s)).
Definition production_ready s : bool :=
  (issue_count s =? 0) && double_le (double_of_Z 90) (completeness s).

Definition features : list (cstring * bool) :=
  (fun f => (cstr f, true)) <$>
    ["Order Management"; "Trade Matching"; "Risk Management"; "Network Communication"; "Security Framework";
     "Memory Safety"; "Error Handling"; "Observability"; "Performance Optimization"; "Thread Safety";
     "Configuration Management"; "Deployment Automation"]%string.
Definition implemented_features : Z := Z.of_nat (length (filter (fun f => f.2 = true) features)).
Definition feature_completeness : double := percent implemented_features (Z.of_nat (length features)).

Definition assessment s : list cstring :=
  if production_ready s then
    [[]; cstr "🌟 PRODUCTION READY ✅"; cstr "   All core components complete"; cstr "   No critical issues found";
     cstr "   Comprehensive test coverage"; cstr "   Complete documentation"]
  else if issue_count s =? 0 then
    [[]; cstr "✅ MOSTLY READY"; cstr "   Core functionality complete"; cstr "   Minor improvements recommended"]
  else
    [[]; cstr "⚠️  NEEDS ATTENTION"; cstr "   Critical issues must be resolved"; cstr "   Additional development required"].

Definition verdict s : cstring :=
  if production_ready s && double_le (double_of_Z 95) feature_completeness
  then cstr "🌟 EXCEPTIONAL - Ready for production deployment"
  else if double_le (double_of_Z 90) feature_completeness && (issue_count s <=? 2)
  then cstr "✅ EXCELLENT - Minor polish needed"
  else if double_le (double_of_Z 80) feature_completeness then cstr "👍 GOOD - Additional development recommended"
  else cstr "⚠️  INCOMPLETE - Significant work required".

Definition generate_analysis_report s : st :=
  let s := say [[]; cstr "📊 CODEBASE ANALYSIS REPORT"; cstr "==========================="] s in
  let s := say [[]; cstr "🏗️  Component Analysis:";
                cstr "  Total Components: " ++ print_u64 (Z.of_nat (length (components s)));
                cstr "  Complete Components: " ++ print_i64 (complete_components s);
                cstr "  Completeness: " ++ print_general (completeness s) ++ cstr "%"] s in
  let s := say ([[]; cstr "⚠️  Critical Issues (" ++ print_u64 (issue_count s) ++ cstr "):"]
                ++ ((fun issue => cstr "  ❌ " ++ issue) <$> critical_issues s)) s in
  let s := say ([[]; cstr "💡 Recommendations (" ++ print_u64 (Z.of_nat (length (recommendations s))) ++ cstr "):"]
                ++ ((fun r => cstr "  💡 " ++ r) <$> recommendations s)) s in
  let s := say [[]; cstr "🎯 OVERALL ASSESSMENT"; cstr "--------------------";
                cstr "  Component Completeness: " ++ print_general (completeness s) ++ cstr "%";
                cstr "  Critical Issues: " ++ print_u64 (issue_count s);
                cstr "  Recommendations: " ++ print_u64 (Z.of_nat (length (recommendations s)))] s in
  let s := say (assessment s) s in
  let s := say ([[]; cstr "🔧 FUNCTIONALITY ASSESSMENT"; cstr "---------------------------"]
                ++ ((fun f => (if f.2 : bool then cstr "  ✅ " else cstr "  ❌ ") ++ f.1) <$> features)) s in
  let s := say [[]; cstr "  Feature Completeness: " ++ print_general feature_completeness ++ cstr "%"] s in
  say [[]; cstr "🏆 FINAL VERDICT"; cstr "---------------"; verdict s] s.

Definition analyze_codebase s : st :=
  let s := say [cstr "🔍 RTES Codebase Analysis"; cstr "========================="] s in
  let s := analyze_project_structure s in
  let s := analyze_core_components s in
  let s := analyze_test_coverage s in
  let s := analyze_documentation s in
  let s := analyze_production_readiness s in
  generate_analysis_report s.

Definition main : list cstring := out (analyze_codebase (say [cstr "🔍 Starting RTES Codebase Analysis..."] initial)).

(** ** What decides *)

Definition absent (paths : list cstring) : list cstring := filter (fun p => exists_ p = false) paths.
Definition has_headers (c : ComponentAnalysis) : bool := forallb (fun f => exists_ (header_path f)) (files c).

(** The static members a step leaves or extends. *)
Definition extends (cs : list (cstring * ComponentAnalysis)) (issues : list cstring) s s' : Prop :=
  components s' = cs /\ critical_issues s' = critical_issues s ++ issues.

Lemma say_keeps lines s : components (say lines s) = components s /\ critical_issues (say lines s) = critical_issues s.
Proof. done. Qed.

Lemma check_paths_issues indent (prefix : cstring) paths : forall s,
  extends (components s) ((fun p => prefix ++ p) <$> absent paths) s (check_paths indent (fun p => add_issue (prefix ++ p)) paths s).
Proof.
  unfold absent. induction paths as [|p paths IH]; intros s; cbn [check_paths]; [split; [done|by rewrite app_nil_r]|].
  rewrite filter_cons. destruct (exists_ p) eqn:E; case_decide as Hd; try (exfalso; congruence).
  - exact (IH _).
  - destruct (IH (add_issue (prefix ++ p) (say [indent ++ cstr "❌ " ++ p ++ cstr " (MISSING)"] s))) as [H1 H2].
    split; [done|]. rewrite H2. cbn. by rewrite -app_assoc.
Qed.

Lemma check_paths_advice indent (prefix : cstring) paths : forall s,
  extends (components s) [] s (check_paths indent (fun p => recommend (prefix ++ p)) paths s).
Proof.
  induction paths as [|p paths IH]; intros s; cbn [check_paths]; [split; [done|by rewrite app_nil_r]|].
  destruct (exists_ p); exact (IH _).
Qed.

Lemma check_expected_advice found advice names : forall s,
  extends (components s) [] s (check_expected found advice names s).
Proof.
  induction names as [|n names IH]; intros s; cbn [check_expected]; [split; [done|by rewrite app_nil_r]|].
  destruct (bool_decide _); exact (IH _).
Qed.

Lemma check_files_result fs : forall b s,
  (check_files fs b s).1 = b && forallb (fun f => exists_ (header_path f)) fs /\
  extends (components s) [] s (check_files fs b s).2.
Proof.
  induction fs as [|f fs IH]; intros b s; cbn [check_files forallb]; [split; [by rewrite andb_true_r|split; [done|by rewrite app_nil_r]]|].
  destruct (exists_ (header_path f)), (exists_ (source_path f));
    match goal with |- context [check_files fs ?b' ?s'] => destruct (IH b' s') as [H1 H2] end; (split; [|exact H2]);
    rewrite H1; by rewrite ?andb_false_r ?andb_false_l.
Qed.

Definition checked (kc : cstring * ComponentAnalysis) : cstring * ComponentAnalysis := (kc.1, set_complete (has_headers kc.2) kc.2).
Definition incomplete (cs : list (cstring * ComponentAnalysis)) : list cstring :=
  (fun kc => cstr "Incomplete component: " ++ kc.1) <$> filter (fun kc => has_headers kc.2 = false) cs.

Lemma check_components_result todo : forall done_ s,
  extends (done_ ++ (checked <$> todo)) (incomplete todo) s (check_components todo done_ s).
Proof.
  unfold incomplete. induction todo as [|[n c] todo IH]; intros done_ s; cbn [check_components].
  { split; cbn; by rewrite app_nil_r. }
  pose proof (check_files_result (files c) true (say [[]; cstr "  📦 " ++ n ++ cstr ":"] s)) as [Hb [_ Hs]].
  destruct (check_files (files c) true _) as [b s1]. cbn [fst snd] in *. rewrite andb_true_l in Hb. fold (has_headers c) in Hb.
  rewrite app_nil_r in Hs. rewrite filter_cons fmap_cons. cbn [snd fst set_complete complete]. subst b.
  change (n, set_complete (has_headers c) c) with (checked (n, c)).
  destruct (has_headers c) eqn:E; cbn [negb]; case_decide as Hd; try done.
  - destruct (IH (done_ ++ [checked (n, c)]) s1) as [H1 H2].
    split; [by rewrite H1 -app_assoc|]. by rewrite H2 Hs.
  - destruct (IH (done_ ++ [checked (n, c)]) (add_issue (cstr "Incomplete component: " ++ n) s1)) as [H1 H2].
    split; [by rewrite H1 -app_assoc|]. rewrite H2. cbn. by rewrite Hs -app_assoc.
Qed.

(** The components in the order of the map. *)
Definition sorted_components : list (cstring * ComponentAnalysis) :=
  Eval vm_compute in foldl (fun m kc => map_put kc.1 kc.2 m) [] core_components.

Definition low_coverage : list cstring :=
  let coverage := percent (Z.of_nat (length (files_with (cstr ".cpp") (cstr "tests")))) 9 in
  if double_lt coverage (double_of_Z 80) then [cstr "Low test coverage: " ++ to_string_double coverage ++ cstr "%"] else [].

Ltac settle :=
  split; repeat match goal with
    | |- context [components (say ?l ?s)] => rewrite (proj1 (say_keeps l s))
    | |- context [critical_issues (say ?l ?s)] => rewrite (proj2 (say_keeps l s))
    | |- context [components (add_issue ?i ?s)] => change (components (add_issue i s)) with (components s)
    | |- context [critical_issues (add_issue ?i ?s)] => change (critical_issues (add_issue i s)) with (critical_issues s ++ [i])
    | |- context [components (recommend ?i ?s)] => change (components (recommend i s)) with (components s)
    | |- context [critical_issues (recommend ?i ?s)] => change (critical_issues (recommend i s)) with (critical_issues s)
    | |- context [check_paths ?i (fun p => add_issue (?prefix ++ p)) ?paths ?s] =>
        first [rewrite (proj1 (check_paths_issues i prefix paths s))|rewrite (proj2 (check_paths_issues i prefix paths s))]
    | |- context [check_paths ?i (fun p => recommend (?prefix ++ p)) ?paths ?s] =>
        first [rewrite (proj1 (check_paths_advice i prefix paths s))|rewrite (proj2 (check_paths_advice i prefix paths s))]
    | |- context [check_expected ?f ?a ?n ?s] =>
        first [rewrite (proj1 (check_expected_advice f a n s))|rewrite (proj2 (check_expected_advice f a n s))]
    end.

Lemma analyzed lines :
  exists s, analyze_codebase (say lines initial) = generate_analysis_report s /\
    components s = checked <$> sorted_components /\
    critical_issues s =
      ((fun dir => cstr "Missing directory: " ++ dir) <$> absent required_dirs) ++ incomplete sorted_components ++ low_coverage
      ++ ((fun config => cstr "Missing config: " ++ config) <$> absent config_files).
Proof.
  unfold analyze_codebase. set (s0 := say _ (say lines initial)).
  assert (components s0 = [] /\ critical_issues s0 = []) as [C0 I0] by done. clearbody s0.
  set (s1 := analyze_project_structure s0).
  assert (extends [] ((fun dir => cstr "Missing directory: " ++ dir) <$> absent required_dirs) s0 s1) as [C1 I1].
  { unfold s1, analyze_project_structure. cbv zeta. settle; by rewrite ?C0 ?app_nil_r. }
  clearbody s1. set (s2 := analyze_core_components s1).
  assert (extends (checked <$> sorted_components) (incomplete sorted_components) s1 s2) as [C2 I2].
  { unfold s2, analyze_core_components. cbv zeta.
    match goal with |- context [foldl ?f ?m ?l] => replace (foldl f m l) with sorted_components; [|by rewrite /= C1] end.
    exact (check_components_result sorted_components [] (say _ s1)). }
  clearbody s2. set (s3 := analyze_test_coverage s2).
  assert (extends (components s2) low_coverage s2 s3) as [C3 I3].
  { unfold s3, analyze_test_coverage, low_coverage. cbv zeta. change (Z.of_nat (length expected_tests)) with 9.
    destruct (double_lt _ _); settle; by rewrite ?app_nil_r. }
  clearbody s3. set (s4 := analyze_documentation s3).
  assert (extends (components s3) [] s3 s4) as [C4 I4].
  { unfold s4, analyze_documentation. cbv zeta. settle; by rewrite ?app_nil_r. }
  clearbody s4. set (s5 := analyze_production_readiness s4).
  assert (extends (components s4) ((fun config => cstr "Missing config: " ++ config) <$> absent config_files) s4 s5) as [C5 I5].
  { unfold s5, analyze_production_readiness. cbv zeta. destruct (exists_ _); settle; by rewrite ?app_nil_r. }
  exists s5. split; [done|]. split; [congruence|]. rewrite I5 I4 I3 I2 I1 I0 !app_nil_r. by rewrite !app_assoc.
Qed.

Lemma report_keeps s :
  components (generate_analysis_report s) = components s /\ critical_issues (generate_analysis_report s) = critical_issues s /\
  last (out (generate_analysis_report s)) = Some (verdict s).
Proof.
  split_and!; [done|done|]. unfold generate_analysis_report. cbv zeta. cbn [out say]. rewrite last_app. reflexivity.
Qed.

Lemma map_nil {A B} (f : A -> B) l : f <$> l = [] <-> l = [].
Proof. by destruct l. Qed.

(** Eight of nine tests make 80 percent. *)
Lemma coverage_threshold n : 0 <= n < 256 -> double_lt (percent n 9) (double_of_Z 80) = (n <? 8).
Proof.
  intros Hn. assert (forallb (fun k => eqb (double_lt (percent (Z.of_nat k) 9) (double_of_Z 80)) (Z.of_nat k <? 8)) (seq 0 256) = true) as H
    by by vm_compute.
  rewrite forallb_forall in H. specialize (H (Z.to_nat n)). rewrite Z2Nat.id in H; [lia|]. apply eqb_prop, H, in_seq. lia.
Qed.

Lemma absent_nil paths : absent paths = [] <-> Forall (fun p => exists_ p = true) paths.
Proof.
  unfold absent. induction paths as [|p paths IH]; [by split|]. rewrite filter_cons Forall_cons. case_decide as E.
  - split; [done|]. intros [E' _]. congruence.
  - rewrite IH. split; [|by intros [_ H]]. intros H. split; [by destruct (exists_ p)|done].
Qed.

Lemma incomplete_nil cs : incomplete cs = [] <-> Forall (fun kc => has_headers kc.2 = true) cs.
Proof.
  unfold incomplete. induction cs as [|kc cs IH]; [by split|]. rewrite filter_cons Forall_cons. case_decide as E.
  - split; [done|]. intros [E' _]. congruence.
  - rewrite IH. split; [|by intros [_ H]]. intros H. split; [by destruct (has_headers kc.2)|done].
Qed.

(** With every header there, every component is complete. *)
Lemma all_complete cs :
  Forall (fun kc => has_headers kc.2 = true) cs ->
  length (filter (fun kc => complete kc.2 = true) (checked <$> cs)) = length cs.
Proof.
  induction 1 as [|kc cs H _ IH]; [done|]. rewrite fmap_cons filter_cons. case_decide as E; [|by destruct E].
  cbn [length]. by rewrite IH.
Qed.

Definition all_headers : list cstring := mjoin ((fun kc : cstring * ComponentAnalysis => header_path <$> files kc.2) <$> sorted_components).

Lemma headers_exist cs :
  Forall (fun kc => has_headers kc.2 = true) cs <->
  Forall (fun p => exists_ p = true) (mjoin ((fun kc : cstring * ComponentAnalysis => header_path <$> files kc.2) <$> cs)).
Proof.
  induction cs as [|kc cs IH]; [by split|]. rewrite fmap_cons Forall_cons. change (mjoin (?x :: ?l)) with (x ++ mjoin l).
  rewrite Forall_app Forall_fmap IH. f_equiv. unfold has_headers. rewrite forallb_forall Forall_forall.
  unfold compose. split; intros H x Hx; apply H; by apply list_elem_of_In.
Qed.

End file_system.
End CodebaseAnalyzer.

Module AnalyzerClaims.
Import CodebaseAnalyzer.

(** The verdict of the analyzer, for fewer than 256 test files.  It finds the
    code ready for production exactly when the seven directories, the headers of
    the ten components and the two configurations exist and [tests] holds eight
    files that end in [.cpp]: sources, documentation, licence, scripts, Docker and
    CI files, and what the tests are called, never count.  The last line is
    EXCEPTIONAL then, else EXCELLENT up to two issues, else GOOD; the report is
    never MOSTLY READY and the verdict never INCOMPLETE. *)
Theorem analyzer_verdict exists_ entries :
  let tests := length (files_with exists_ entries (cstr ".cpp") (cstr "tests")) in
  (tests < 256)%nat ->
  let s := analyze_codebase exists_ entries (say [cstr "🔍 Starting RTES Codebase Analysis..."] initial) in
  (production_ready s = true <->
     Forall (fun p => exists_ p = true) (required_dirs ++ all_headers ++ config_files) /\ (8 <= tests)%nat) /\
  last (main exists_ entries) = Some (if production_ready s then cstr "🌟 EXCEPTIONAL - Ready for production deployment"
                                      else if issue_count s <=? 2 then cstr "✅ EXCELLENT - Minor polish needed"
                                      else cstr "👍 GOOD - Additional development recommended") /\
  (issue_count s = 0 -> production_ready s = true).
Proof.
  intros tests Ht s. destruct (analyzed exists_ entries [cstr "🔍 Starting RTES Codebase Analysis..."]) as (s1 & E & Hc & Hi).
  destruct (report_keeps s1) as (Hk1 & Hk2 & Hl). rewrite -E in Hk1, Hk2, Hl. fold s in Hk1, Hk2, Hl.
  assert (critical_issues s = [] <->
    Forall (fun p => exists_ p = true) (required_dirs ++ all_headers ++ config_files) /\ (8 <= tests)%nat) as Hnil.
  { pose proof (headers_exist exists_ sorted_components) as Hh. fold all_headers in Hh.
    rewrite Hk2 Hi (Forall_app _ required_dirs) (Forall_app _ all_headers) -Hh -incomplete_nil -(absent_nil exists_ required_dirs) -(absent_nil exists_ config_files).
    assert (low_coverage exists_ entries = [] <-> (8 <= tests)%nat) as Hlow.
    { unfold low_coverage. cbv zeta. rewrite coverage_threshold; [lia|]. fold tests. destruct (Z.ltb_spec (Z.of_nat tests) 8); split; done || lia. }
    rewrite -Hlow !app_nil !map_nil. tauto. }
  assert (production_ready s = true <-> critical_issues s = []) as Hready.
  { unfold production_ready, issue_count. rewrite andb_true_iff Z.eqb_eq. split.
    - intros [H _]. destruct (critical_issues s); [done|cbn in H; lia].
    - intros H0. split; [by rewrite H0|]. apply Hnil in H0 as [H0 _].
      assert (Forall (fun kc => has_headers exists_ kc.2 = true) sorted_components) as Hh.
      { apply headers_exist. apply Forall_app in H0 as [_ H0]. by apply Forall_app in H0 as [H0 _]. }
      unfold completeness, complete_components. rewrite Hk1 Hc (all_complete exists_ _ Hh) length_fmap. by vm_compute. }
  split; [by rewrite Hready|]. split.
  - unfold main. fold s. rewrite Hl. f_equal. unfold verdict, issue_count. rewrite -Hk2.
    assert (production_ready s1 = production_ready s) as ->.
    { unfold production_ready, issue_count, completeness, complete_components. by rewrite Hk1 Hk2. }
    replace (double_le (double_of_Z 95) feature_completeness) with true by by vm_compute.
    replace (double_le (double_of_Z 90) feature_completeness) with true by by vm_compute.
    replace (double_le (double_of_Z 80) feature_completeness) with true by by vm_compute.
    by rewrite andb_true_r andb_true_l.
  - intros H0. apply Hready. unfold issue_count in H0. by destruct (critical_issues s).
Qed.

(** The tests of the repository. *)
Definition ex_tests : list cstring :=
  cstr <$>
    ["test_error_handling.cpp"; "test_http_server.cpp"; "test_input_validation.cpp"; "test_integration.cpp";
     "test_integration_api.cpp"; "test_matching_engine.cpp"; "test_memory_pool.cpp"; "test_memory_safety.cpp";
     "test_metrics.cpp"; "test_network_security.cpp"; "test_observability.cpp"; "test_order_book.cpp";
     "test_performance_optimizer.cpp"; "test_performance_regression.cpp"; "test_production_readiness.cpp";
     "test_queues.cpp"; "test_risk_manager.cpp"; "test_secure_config.cpp"; "test_security.cpp";
     "test_strategies.cpp"; "test_tcp_gateway.cpp"; "test_thread_safety.cpp"; "test_udp_publisher.cpp";
     "test_utility_functions.cpp"]%string.

Lemma analyzer_verdict_witness :
  last (main (fun _ => true) (fun _ => ex_tests)) = Some (cstr "🌟 EXCEPTIONAL - Ready for production deployment").
Proof.
  destruct (analyzer_verdict (fun _ => true) (fun _ => ex_tests)) as (Hr & Hl & _); [vm_compute; lia|].
  rewrite Hl (proj2 Hr); [|reflexivity]. split; [by apply Forall_forall|vm_compute; lia].
Defined.

End AnalyzerClaims.
