(* ===== verification/SelfChecks.v ===== *)
(** * The self-checks (production_validation.cpp, test_runner.cpp)

    Two stand-alone programs that measure simulated work and print a verdict about
    the system.  The measured times and counts, the random draws and the order in
    which threads increment a shared counter are arguments; the static members and
    the lines written are the state.  [None]: an index is out of range. *)

From Stdlib Require Import SpecFloat.
From S2P Require Import Prelude Types Double MemorySafety Strings Formatting InputValidation ConfigLoader Metrics Observability ObservabilityTheorems CodebaseAnalyzer.

(** ** What the programs share *)

(** The latencies in microseconds, sorted, from nanoseconds. *)
Definition microseconds (ns : Z) : double := double_div (double_of_Z ns) (double_of_Z 1000).
Definition sorted_latencies (ns : list Z) : list double := Histogram.sort (microseconds <$> ns).
Definition mean (latencies : list double) : double :=
  double_div (sum_double latencies) (double_of_Z (Z.of_nat (length latencies))).
Definition p999 : double := nearest_decimal 999 3.

(** Threads that increment an atomic counter, in the order of [schedule]. *)
Fixpoint increments (schedule : list nat) (counter : Z) : Z :=
  match schedule with [] => counter | _ :: schedule => increments schedule (counter + 1) end.

(** Thread [t] of [n] makes [k] increments. *)
Definition all_increments (n k : nat) : list nat := mjoin ((fun t => replicate k t) <$> seq 0 n).

Lemma increments_length schedule : forall c, increments schedule c = c + Z.of_nat (length schedule).
Proof. induction schedule as [|t l IH]; intros c; cbn [increments length]; [lia|]. rewrite IH. lia. Qed.

Lemma length_all_increments n k : length (all_increments n k) = (n * k)%nat.
Proof.
  unfold all_increments. generalize 0%nat. induction n as [|n IH]; intros i; [done|].
  cbn [seq fmap list_fmap]. change (mjoin (?x :: ?l)) with (x ++ mjoin l). rewrite length_app length_replicate.
  change (mjoin (_ <$> seq (S i) n)) with (mjoin ((fun t => replicate k t) <$> seq (S i) n)). rewrite IH. lia.
Qed.

Lemma complete_schedule n k schedule : schedule ≡ₚ all_increments n k -> increments schedule 0 = Z.of_nat (n * k).
Proof. intros H. by rewrite increments_length (Permutation_length H) length_all_increments. Qed.

(** The retry loop: it succeeds at the third attempt. *)
Fixpoint recovery (fuel : nat) (retry_count : Z) (recovery_success : bool) : bool :=
  match fuel with
  | O => recovery_success
  | S fuel =>
      if (retry_count <? 3) && negb recovery_success
      then recovery fuel (retry_count + 1) (retry_count + 1 =? 3)
      else recovery_success
  end.

Module ProductionValidator.

Record st := mk {
  validation_results : list (cstring * bool);
  performance_metrics : list (cstring * cstring);
  out : list cstring
}.
Implicit Types s : st.
Definition initial : st := mk [] [] [].

Definition say (lines : list cstring) s : st := mk (validation_results s) (performance_metrics s) (out s ++ lines).
Definition set_result (category : string) (passed : bool) s : st :=
  mk (map_put (cstr category) passed (validation_results s)) (performance_metrics s) (out s).
Definition set_metric (metric : string) (v : cstring) s : st :=
  mk (validation_results s) (map_put (cstr metric) v (performance_metrics s)) (out s).
Definition get_metric (metric : string) s : cstring :=
  default [] (snd <$> head (filter (fun kv => kv.1 = cstr metric) (performance_metrics s))).

Definition mark (passed : bool) : cstring := if passed then cstr "✓ PASS" else cstr "✗ FAIL".
Definition item (what : string) (passed : bool) : cstring := cstr "  " ++ cstr what ++ cstr ": " ++ mark passed.

(** What the clock tells: the nanoseconds of each simulated order, and how often
    the loop of one second went round. *)
Record Measured := mkMeasured { latencies : list Z; operations : Z }.

Definition latency_sla (avg_latency p99_latency p999_latency : double) : bool :=
  double_le avg_latency (double_of_Z 10) && double_le p99_latency (double_of_Z 100) && double_le p999_latency (double_of_Z 500).
Definition throughput_sla (throughput : double) : bool := double_le (double_of_Z 100000) throughput.

Definition validate_performance_sla (m : Measured) s : option st :=
  let s := say [[]; cstr "=== Performance SLA Validation ==="] s in
  let ls := sorted_latencies (latencies m) in
  let avg_latency := mean ls in
  p99_latency ← MetricsCollector.percentile ls MetricsCollector.p99;
  p999_latency ← MetricsCollector.percentile ls p999;
  let s := say [cstr "  Average Latency: " ++ print_general avg_latency ++ cstr "μs (Target: ≤10μs)";
                cstr "  P99 Latency: " ++ print_general p99_latency ++ cstr "μs (Target: ≤100μs)";
                cstr "  P999 Latency: " ++ print_general p999_latency ++ cstr "μs (Target: ≤500μs)"] s in
  let throughput := double_of_Z (operations m) in
  let s := say [cstr "  Throughput: " ++ print_general throughput ++ cstr " ops/sec (Target: ≥100,000)"] s in
  let passed := latency_sla avg_latency p99_latency p999_latency && throughput_sla throughput in
  let s := set_result "performance_sla" passed s in
  let s := set_metric "avg_latency" (to_string_double avg_latency) s in
  let s := set_metric "p99_latency" (to_string_double p99_latency) s in
  let s := set_metric "throughput" (to_string_double throughput) s in
  Some (say [item "Performance SLA" passed] s).

Definition validate_input (input : cstring) : bool :=
  if bool_decide (input = []) || (100 <? length input)%nat then false
  else forallb (fun c => isalnum c || (c =? 95) || (c =? 45) || (c =? 46)) input.

Definition validate_security_hardening s : st :=
  let s := say [[]; cstr "=== Security Hardening Validation ==="] s in
  let input_validation := validate_input (cstr "AAPL") && negb (validate_input (cstr "'; DROP TABLE;")) in
  let authentication := true in
  let encryption := true in
  let s := say [item "Input Validation" input_validation; item "Authentication" authentication; item "Encryption" encryption] s in
  let passed := input_validation && authentication && encryption in
  say [item "Security Hardening" passed] (set_result "security" passed s).

(** [buffer[i] = i] and the unique pointers do not throw. *)
Definition validate_memory_safety s : st :=
  let s := say [[]; cstr "=== Memory Safety Validation ==="] s in
  let buffer_safety := true in
  let memory_leak_free := true in
  let s := say [item "Buffer Safety" buffer_safety; item "Memory Leak Free" memory_leak_free] s in
  let passed := buffer_safety && memory_leak_free in
  say [item "Memory Safety" passed] (set_result "memory_safety" passed s).

Definition validate_thread_safety (schedule : list nat) s : st :=
  let s := say [[]; cstr "=== Thread Safety Validation ==="] s in
  let atomic_safety := increments schedule 0 =? 10000 in
  let deadlock_free := true in
  let s := say [item "Atomic Operations" atomic_safety; item "Deadlock Prevention" deadlock_free] s in
  let passed := atomic_safety && deadlock_free in
  say [item "Thread Safety" passed] (set_result "thread_safety" passed s).

Definition validate_error_handling s : st :=
  let s := say [[]; cstr "=== Error Handling Validation ==="] s in
  let exception_handling := true in
  let recovery_success := recovery 4 0 false in
  let s := say [item "Exception Handling" exception_handling; item "Error Recovery" recovery_success] s in
  let passed := exception_handling && recovery_success in
  say [item "Error Handling" passed] (set_result "error_handling" passed s).

Definition validate_observability s : st :=
  let s := say [[]; cstr "=== Observability Validation ==="] s in
  let logging := true in
  let metrics := true in
  let tracing := true in
  let health_checks := true in
  let s := say [item "Structured Logging" logging; item "Metrics Collection" metrics; item "Distributed Tracing" tracing;
                item "Health Checks" health_checks] s in
  let passed := logging && metrics && tracing && health_checks in
  say [item "Observability" passed] (set_result "observability" passed s).

(** Every twentieth of the thousand operations fails. *)
Fixpoint chaos (todo : nat) (i successful_ops total_ops : Z) : Z * Z :=
  match todo with
  | O => (successful_ops, total_ops)
  | S todo => chaos todo (i + 1) (if negb (i `rem` 20 =? 0) then successful_ops + 1 else successful_ops) (total_ops + 1)
  end.

Definition validate_resilience s : st :=
  let s := say [[]; cstr "=== Resilience Validation ==="] s in
  let '(successful_ops, total_ops) := chaos 1000 0 0 0 in
  let success_rate := CodebaseAnalyzer.percent successful_ops total_ops in
  let chaos_resilience := double_le (double_of_Z 90) success_rate in
  let failover := true in
  let s := say [cstr "  Chaos Resilience: " ++ print_general success_rate ++ cstr "% (" ++ mark chaos_resilience ++ cstr ")";
                item "Failover Capability" failover] s in
  let passed := chaos_resilience && failover in
  say [item "Resilience" passed] (set_result "resilience" passed s).

Definition validate_deployment_readiness s : st :=
  let s := say [[]; cstr "=== Deployment Readiness Validation ==="] s in
  let config_valid := true in
  let health_endpoints := true in
  let backup_recovery := true in
  let monitoring := true in
  let s := say [item "Configuration Valid" config_valid; item "Health Endpoints" health_endpoints;
                item "Backup & Recovery" backup_recovery; item "Monitoring Setup" monitoring] s in
  let passed := config_valid && health_endpoints && backup_recovery && monitoring in
  say [item "Deployment Readiness" passed] (set_result "deployment" passed s).

Definition total_categories s : Z := Z.of_nat (length (validation_results s)).
Definition passed_categories s : Z := Z.of_nat (length (filter (fun kv => kv.2 = true) (validation_results s))).
Definition success_rate s : double := CodebaseAnalyzer.percent (passed_categories s) (total_categories s).
Definition production_ready s : bool := double_le (double_of_Z 95) (success_rate s).

Definition generate_final_report s : st :=
  let s := say [[]; cstr "=== FINAL PRODUCTION VALIDATION REPORT ==="; []; cstr "Validation Results:"] s in
  let s := say ((fun kv => cstr "  " ++ kv.1 ++ cstr ": " ++ mark kv.2) <$> validation_results s) s in
  let s := say ([[]; cstr "Performance Metrics:"] ++ ((fun kv => cstr "  " ++ kv.1 ++ cstr ": " ++ kv.2) <$> performance_metrics s)) s in
  let s := say [[]; cstr "=== SUMMARY ==="; cstr "Categories Validated: " ++ print_i64 (total_categories s);
                cstr "Categories Passed: " ++ print_i64 (passed_categories s);
                cstr "Success Rate: " ++ print_general (success_rate s) ++ cstr "%"] s in
  let s := say [[]; cstr "🎯 PRODUCTION READINESS: " ++ (if production_ready s then cstr "✅ READY" else cstr "❌ NOT READY")] s in
  if production_ready s then
    say [[]; cstr "🚀 RTES is PRODUCTION READY!";
         cstr "   • Ultra-low latency: " ++ get_metric "avg_latency" s ++ cstr "μs";
         cstr "   • High throughput: " ++ get_metric "throughput" s ++ cstr " ops/sec";
         cstr "   • Enterprise security: ✓"; cstr "   • Memory safe: ✓"; cstr "   • Thread safe: ✓";
         cstr "   • Fully observable: ✓"; cstr "   • Chaos resilient: ✓"] s
  else say [[]; cstr "⚠️  Additional validation required before production deployment"] s.

Definition run_full_validation (m : Measured) (schedule : list nat) s : option st :=
  let s := say [cstr "=== RTES Production Validation Suite ==="] s in
  s ← validate_performance_sla m s;
  let s := validate_security_hardening s in
  let s := validate_memory_safety s in
  let s := validate_thread_safety schedule s in
  let s := validate_error_handling s in
  let s := validate_observability s in
  let s := validate_resilience s in
  let s := validate_deployment_readiness s in
  Some (generate_final_report s).

Definition main (m : Measured) (schedule : list nat) : option (list cstring) :=
  out <$> run_full_validation m schedule (say [cstr "🔍 Starting RTES Production Validation..."] initial).

(** ** What decides *)

Lemma sort_length l : length (Histogram.sort l) = length l.
Proof.
  assert (forall x l, length (Histogram.insert x l) = S (length l)) as H.
  { clear. intros x l. induction l as [|y l IH]; cbn; [done|]. destruct (double_lt x y); cbn; [done|by rewrite IH]. }
  induction l as [|x l IH]; [done|]. cbn. by rewrite H IH.
Qed.

(** The performance SLA of the measurements. *)
Definition meets_sla (m : Measured) : option bool :=
  let ls := sorted_latencies (latencies m) in
  p99_latency ← MetricsCollector.percentile ls MetricsCollector.p99;
  p999_latency ← MetricsCollector.percentile ls p999;
  Some (latency_sla (mean ls) p99_latency p999_latency && throughput_sla (double_of_Z (operations m))).

Lemma percentile_at (l : list double) fraction n i :
  length l = n -> MetricsCollector.percentile_index n fraction = Some i -> (i < n)%nat ->
  is_Some (MetricsCollector.percentile l fraction).
Proof.
  intros Hl Hi Hlt. unfold MetricsCollector.percentile. rewrite Hl Hi. cbn. apply lookup_lt_is_Some_2. lia.
Qed.

Lemma meets_sla_defined m : length (latencies m) = Z.to_nat 10000 -> is_Some (meets_sla m).
Proof.
  intros Hl. unfold meets_sla. cbv zeta. set (ls := sorted_latencies (latencies m)).
  assert (length ls = Z.to_nat 10000) as Hn by (unfold ls, sorted_latencies; by rewrite sort_length length_fmap).
  destruct (percentile_at ls MetricsCollector.p99 _ (Z.to_nat 9900) Hn) as [a ->];
    [unfold MetricsCollector.percentile_index; rewrite Z2Nat.id; [done|]; by vm_compute|lia|].
  destruct (percentile_at ls p999 _ (Z.to_nat 9990) Hn) as [b ->];
    [unfold MetricsCollector.percentile_index; rewrite Z2Nat.id; [done|]; by vm_compute|lia|].
  cbn [mbind option_bind]. by eexists.
Qed.

(** The categories in the order of the map. *)
Definition categories (performance : bool) : list (cstring * bool) :=
  [(cstr "deployment", true); (cstr "error_handling", true); (cstr "memory_safety", true); (cstr "observability", true);
   (cstr "performance_sla", performance); (cstr "resilience", true); (cstr "security", true); (cstr "thread_safety", true)].

End ProductionValidator.

Module ValidatorClaims.
Import ProductionValidator.

Definition readiness_line (ready : bool) : cstring :=
  cstr "🎯 PRODUCTION READINESS: " ++ (if ready then cstr "✅ READY" else cstr "❌ NOT READY").

Lemma report_line s :
  validation_results (generate_final_report s) = validation_results s /\
  readiness_line (production_ready s) ∈ out (generate_final_report s).
Proof.
  unfold generate_final_report. cbv zeta. assert (forall lines s, production_ready (say lines s) = production_ready s) as H by done.
  rewrite !H. destruct (production_ready s); (split; [done|]); cbn [out say]; rewrite !elem_of_app; left; right; right; left.
Qed.

Lemma resilience_result s : validation_results (validate_resilience s) = map_put (cstr "resilience") true (validation_results s).
Proof.
  assert (chaos 1000 0 0 0 = (950, 1000)) as E by by vm_compute.
  assert (double_le (double_of_Z 90) (CodebaseAnalyzer.percent 950 1000) = true) as R by by vm_compute.
  unfold validate_resilience. rewrite E. cbv zeta. rewrite R. reflexivity.
Qed.

Lemma security_result s : validation_results (validate_security_hardening s) = map_put (cstr "security") true (validation_results s).
Proof.
  assert (validate_input (cstr "AAPL") && negb (validate_input (cstr "'; DROP TABLE;")) = true) as E by by vm_compute.
  unfold validate_security_hardening. rewrite E. reflexivity.
Qed.

Lemma threads_result schedule s :
  schedule ≡ₚ all_increments 10 (Z.to_nat 1000) ->
  validation_results (validate_thread_safety schedule s) = map_put (cstr "thread_safety") true (validation_results s).
Proof.
  intros H. assert ((increments schedule 0 =? 10000) = true) as Hi by (apply Z.eqb_eq; rewrite (complete_schedule _ _ _ H); lia).
  unfold validate_thread_safety. rewrite Hi. reflexivity.
Qed.

Lemma constant_results s :
  validation_results (validate_memory_safety s) = map_put (cstr "memory_safety") true (validation_results s) /\
  validation_results (validate_error_handling s) = map_put (cstr "error_handling") true (validation_results s) /\
  validation_results (validate_observability s) = map_put (cstr "observability") true (validation_results s) /\
  validation_results (validate_deployment_readiness s) = map_put (cstr "deployment") true (validation_results s).
Proof. done. Qed.

Lemma performance_result m b s :
  meets_sla m = Some b ->
  exists s', validate_performance_sla m s = Some s' /\
    validation_results s' = map_put (cstr "performance_sla") b (validation_results s).
Proof.
  intros Hb. unfold validate_performance_sla. cbv zeta. unfold meets_sla in Hb. cbv zeta in Hb.
  destruct (MetricsCollector.percentile _ MetricsCollector.p99) as [a|]; [|done]. cbn [mbind option_bind] in *.
  destruct (MetricsCollector.percentile _ p999) as [c|]; [|done]. cbn [mbind option_bind] in *. injection Hb as <-.
  eexists. split; [reflexivity|]. reflexivity.
Qed.

Lemma categories_put b :
  map_put (cstr "deployment") true (map_put (cstr "resilience") true (map_put (cstr "observability") true
    (map_put (cstr "error_handling") true (map_put (cstr "thread_safety") true (map_put (cstr "memory_safety") true
      (map_put (cstr "security") true (map_put (cstr "performance_sla") b []))))))) = categories b.
Proof. by vm_compute. Qed.

Lemma categories_ready s b : validation_results s = categories b -> production_ready s = b.
Proof.
  intros H. unfold production_ready, success_rate, passed_categories, total_categories. rewrite H. by destruct b; vm_compute.
Qed.

(** The production validation always ends, under every interleaving of its
    ten counting threads, and only the measured latencies and throughput decide
    its verdict: the seven other categories are constants that pass, and seven of
    eight are less than the 95 percent it asks for. *)
Theorem validation_is_the_performance_sla m schedule :
  length (latencies m) = Z.to_nat 10000 -> schedule ≡ₚ all_increments 10 (Z.to_nat 1000) ->
  exists s passed,
    run_full_validation m schedule (say [cstr "🔍 Starting RTES Production Validation..."] initial) = Some s /\
    meets_sla m = Some passed /\ validation_results s = categories passed /\
    production_ready s = passed /\ readiness_line passed ∈ out s.
Proof.
  intros Hl Hsch. destruct (meets_sla_defined m Hl) as [b Hb]. unfold run_full_validation. cbv zeta.
  set (s0 := say _ _). assert (validation_results s0 = []) as H0 by reflexivity. clearbody s0.
  destruct (performance_result m b s0 Hb) as (s1 & -> & H1). cbn [mbind option_bind].
  match goal with |- context [Some (generate_final_report ?x)] => set (s8 := x) end.
  assert (validation_results s8 = categories b) as H8.
  { unfold s8. rewrite (proj2 (proj2 (proj2 (constant_results _)))) resilience_result (proj1 (proj2 (proj2 (constant_results _))))
      (proj1 (proj2 (constant_results _))) threads_result; [exact Hsch|].
    rewrite (proj1 (constant_results _)) security_result H1 H0. apply categories_put. }
  clearbody s8. destruct (report_line s8) as [Hres Hline]. exists (generate_final_report s8), b. rewrite H8 in Hres.
  rewrite (categories_ready _ _ H8) in Hline. split_and!; [reflexivity|exact Hb|exact Hres|by apply categories_ready|exact Hline].
Qed.

Lemma validation_is_the_performance_sla_witness :
  exists s, run_full_validation (mkMeasured (replicate (Z.to_nat 10000) 120) 99999) (all_increments 10 (Z.to_nat 1000))
      (say [cstr "🔍 Starting RTES Production Validation..."] initial) = Some s /\
    exists passed, production_ready s = passed /\ readiness_line passed ∈ out s.
Proof.
  destruct (validation_is_the_performance_sla (mkMeasured (replicate (Z.to_nat 10000) 120) 99999) (all_increments 10 (Z.to_nat 1000)))
    as (s & b & H1 & H2 & H3 & H4 & H5); [apply length_replicate|reflexivity|].
  exists s. split; [exact H1|]. exists b. exact (conj H4 H5).
Defined.

End ValidatorClaims.

(** ** test_runner.cpp *)

Module TestRunner.

Record st := mk { total_tests : Z; passed_tests : Z; out : list cstring }.
Implicit Types s : st.
Definition initial : st := mk 0 0 [].
Definition say (lines : list cstring) s : st := mk (total_tests s) (passed_tests s) (out s ++ lines).

Definition assert_test (name : string) (condition : bool) s : st :=
  if condition then mk (total_tests s + 1) (passed_tests s + 1) (out s ++ [cstr "[PASS] " ++ cstr name])
  else mk (total_tests s + 1) (passed_tests s) (out s ++ [cstr "[FAIL] " ++ cstr name]).

(** What the clock and the scheduler decide: the nanoseconds of the simulated
    order, the rounds of the loop of 100 milliseconds, the two schedules of the
    counting threads, and the microseconds of the traced sleep. *)
Record Measured := mkMeasured {
  latency : Z;
  operations : Z;
  atomic_schedule : list nat;
  mutex_schedule : list nat;
  span : Z
}.

Definition latency_us (m : Measured) : double := microseconds (latency m).
Definition ops_per_sec (m : Measured) : double := double_mul (double_of_Z (operations m)) (double_of_Z 10).

Definition test_performance (m : Measured) s : st :=
  let s := say [[]; cstr "--- Performance Tests ---"] s in
  let s := assert_test "Order Processing Latency < 10μs" (double_lt (latency_us m) (double_of_Z 10)) s in
  let s := say [cstr "  Measured latency: " ++ print_general (latency_us m) ++ cstr "μs"] s in
  let s := assert_test "Throughput > 100K ops/sec" (double_lt (double_of_Z 100000) (ops_per_sec m)) s in
  say [cstr "  Measured throughput: " ++ print_general (ops_per_sec m) ++ cstr " ops/sec"] s.

(** The allocations do not throw. *)
Definition test_memory_safety s : st :=
  let s := say [[]; cstr "--- Memory Safety Tests ---"] s in
  let bounds_safe := true in
  let s := assert_test "Buffer Bounds Safety" bounds_safe s in
  let allocation_safe := true in
  let s := assert_test "Memory Allocation Safety" allocation_safe s in
  assert_test "RAII Resource Management" true s.

Definition test_thread_safety (m : Measured) s : st :=
  let s := say [[]; cstr "--- Thread Safety Tests ---"] s in
  let s := assert_test "Atomic Operations" (increments (atomic_schedule m) 0 =? 10000) s in
  assert_test "Mutex Synchronization" (increments (mutex_schedule m) 0 =? 5000) s.

Definition test_error_handling s : st :=
  let s := say [[]; cstr "--- Error Handling Tests ---"] s in
  let exception_handled := true in
  let s := assert_test "Exception Handling" exception_handled s in
  let error_test := false in
  let s := assert_test "Error Detection" (negb error_test) s in
  assert_test "Error Recovery" (recovery 4 0 false) s.

Definition validate_input (input : cstring) : bool :=
  if bool_decide (input = []) || (100 <? length input)%nat then false
  else forallb (fun c => isalnum c || (c =? 95) || (c =? 45)) input.
Definition authenticate (token : cstring) : bool := bool_decide (token = cstr "valid_token_12345").

Definition test_security s : st :=
  let s := say [[]; cstr "--- Security Tests ---"] s in
  let s := assert_test "Input Validation - Valid" (validate_input (cstr "AAPL_123")) s in
  let s := assert_test "Input Validation - Invalid" (negb (validate_input (cstr "'; DROP TABLE orders; --"))) s in
  let overflow_protected := true in
  let s := assert_test "Buffer Overflow Protection" overflow_protected s in
  let s := assert_test "Authentication - Valid" (authenticate (cstr "valid_token_12345")) s in
  assert_test "Authentication - Invalid" (negb (authenticate (cstr "invalid_token"))) s.

Definition metrics : list (cstring * double) :=
  map_put (cstr "error_rate") (nearest_decimal 1 3)
    (map_put (cstr "throughput_ops") (double_of_Z 1200000) (map_put (cstr "latency_us") (nearest_decimal 72 1) [])).

Definition test_observability (m : Measured) s : st :=
  let s := say [[]; cstr "--- Observability Tests ---"] s in
  let s := say [quoting "  [LOG] {`level`:`INFO`,`message`:`Test log entry`}"] s in
  let logging_works := true in
  let s := assert_test "Structured Logging" logging_works s in
  let s := assert_test "Metrics Collection" (negb (bool_decide (length metrics = 0%nat))) s in
  let health_check := true && true && true in
  let s := assert_test "Health Checks" health_check s in
  assert_test "Distributed Tracing" (0 <? span m) s.

(** [100.0 * passed_tests / total_tests] *)
Definition success_rate s : double :=
  double_div (double_mul (double_of_Z 100) (double_of_Z (passed_tests s))) (double_of_Z (total_tests s)).

Definition run_all_tests (m : Measured) s : st :=
  let s := say [cstr "=== RTES System Test Suite ==="] s in
  let s := test_performance m s in
  let s := test_memory_safety s in
  let s := test_thread_safety m s in
  let s := test_error_handling s in
  let s := test_security s in
  let s := test_observability m s in
  say [[]; cstr "=== Test Summary ==="; cstr "Total Tests: " ++ print_i64 (total_tests s);
       cstr "Passed: " ++ print_i64 (passed_tests s); cstr "Failed: " ++ print_i64 (total_tests s - passed_tests s);
       cstr "Success Rate: " ++ print_general (success_rate s) ++ cstr "%"] s.

End TestRunner.

Module LoadTester.

(** The orders in the order in which they were counted: the nanoseconds of a
    successful one. *)
Fixpoint successes (orders : list (option Z)) : list Z :=
  match orders with
  | [] => []
  | Some ns :: orders => ns :: successes orders
  | None :: orders => successes orders
  end.

Definition sla_met (success_rate avg_latency p99_latency throughput : double) : bool :=
  double_le (double_of_Z 99) success_rate && double_le avg_latency (double_of_Z 10) &&
  double_le p99_latency (double_of_Z 100) && double_le (double_of_Z 10000) throughput.

(** [total_duration]: whole seconds. *)
Definition run_load_test (orders : list (option Z)) (total_duration : Z) : option (list cstring) :=
  let successful := Z.of_nat (length (successes orders)) in
  let total_orders := Z.of_nat (length orders) in
  let failed := total_orders - successful in
  let success_rate := CodebaseAnalyzer.percent successful total_orders in
  let throughput := double_div (double_of_Z successful) (double_of_Z total_duration) in
  let latencies := sorted_latencies (successes orders) in
  '(avg_latency, p99_latency) ←
    match latencies with
    | [] => Some (double_of_Z 0, double_of_Z 0)
    | _ => p ← MetricsCollector.percentile latencies MetricsCollector.p99; Some (mean latencies, p)
    end;
  Some [[]; cstr "=== Load Testing ==="; cstr "Load Test Results:"; cstr "  Total Orders: " ++ print_i64 total_orders;
        cstr "  Successful: " ++ print_i64 successful; cstr "  Failed: " ++ print_i64 failed;
        cstr "  Success Rate: " ++ print_general success_rate ++ cstr "%";
        cstr "  Throughput: " ++ print_general throughput ++ cstr " orders/sec";
        cstr "  Average Latency: " ++ print_general avg_latency ++ cstr "μs";
        cstr "  P99 Latency: " ++ print_general p99_latency ++ cstr "μs";
        cstr "  SLA Met: " ++ (if sla_met success_rate avg_latency p99_latency throughput then cstr "YES" else cstr "NO")].

End LoadTester.

Module ChaosTester.

Definition yes (b : bool) : cstring := if b then cstr "YES" else cstr "NO".

(** The loop of [ops_thread]: [active] are the values it reads of
    [partition_active]. *)
Fixpoint partition_ops (active : list bool) (i successful_ops failed_ops : Z) : Z * Z :=
  match active with
  | [] => (successful_ops, failed_ops)
  | a :: active =>
      if (a : bool) && negb (i `rem` 10 =? 0) then partition_ops active (i + 1) successful_ops (failed_ops + 1)
      else partition_ops active (i + 1) (successful_ops + 1) failed_ops
  end.

Definition test_network_partition (active : list bool) : list cstring :=
  let '(successful_ops, failed_ops) := partition_ops active 0 0 0 in
  let success_rate := CodebaseAnalyzer.percent successful_ops (successful_ops + failed_ops) in
  [[]; cstr "--- Network Partition Test ---";
   cstr "  Operations during partition: " ++ print_i64 (successful_ops + failed_ops);
   cstr "  Success rate: " ++ print_general success_rate ++ cstr "%";
   cstr "  System remained operational: " ++ yes (double_lt (double_of_Z 50) success_rate)].

(** The hundred vectors are allocated. *)
Definition test_memory_pressure : list cstring :=
  [[]; cstr "--- Memory Pressure Test ---"; cstr "  Memory allocated: " ++ print_u64 (100 * 10000 * 4 / 1024 / 1024) ++ cstr " MB";
   cstr "  System stable under pressure: " ++ yes true].

Definition test_high_cpu_load : list cstring :=
  let operations_completed := increments (replicate 1000 0%nat) 0 in
  [[]; cstr "--- High CPU Load Test ---";
   cstr "  Operations completed under high CPU load: " ++ print_i64 operations_completed;
   cstr "  System responsive: " ++ yes (500 <? operations_completed)].

Definition run_chaos_tests (active : list bool) : list cstring :=
  [[]; cstr "=== Chaos Engineering Tests ==="] ++ test_network_partition active ++ test_memory_pressure ++ test_high_cpu_load.

End ChaosTester.

Definition system_validation (m : TestRunner.Measured) (orders : list (option Z)) (total_duration : Z) (active : list bool)
    : option (list cstring) :=
  let suite := TestRunner.run_all_tests m (TestRunner.say [cstr "Starting RTES System Validation..."] TestRunner.initial) in
  load ← LoadTester.run_load_test orders total_duration;
  Some (TestRunner.out suite ++ load ++ ChaosTester.run_chaos_tests active
        ++ [[]; cstr "=== RTES System Validation Complete ==="; cstr "System Status: PRODUCTION READY ✓"]).

Module TestRunnerClaims.

Lemma successes_length orders : (length (LoadTester.successes orders) <= length orders)%nat.
Proof. induction orders as [|[ns|] orders IH]; cbn; lia. Qed.

(** Whatever the machine measures, the system validation ends by calling the
    system ready for production.  Sixteen of its nineteen tests cannot fail under
    any interleaving of the counting threads; the other three are the measured
    latency, throughput and sleep. *)
Theorem validation_unconditional m orders total_duration active :
  TestRunner.atomic_schedule m ≡ₚ all_increments 10 (Z.to_nat 1000) ->
  TestRunner.mutex_schedule m ≡ₚ all_increments 5 (Z.to_nat 1000) -> Z.of_nat (length orders) < 2 ^ 53 ->
  (let s := TestRunner.run_all_tests m (TestRunner.say [cstr "Starting RTES System Validation..."] TestRunner.initial) in
   TestRunner.total_tests s = 19 /\
   TestRunner.passed_tests s = 16 + Z.b2z (double_lt (TestRunner.latency_us m) (double_of_Z 10))
     + Z.b2z (double_lt (double_of_Z 100000) (TestRunner.ops_per_sec m)) + Z.b2z (0 <? TestRunner.span m)) /\
  exists lines, system_validation m orders total_duration active = Some lines /\
    last lines = Some (cstr "System Status: PRODUCTION READY ✓").
Proof.
  intros Ha Hm Ho. split.
  - assert ((increments (TestRunner.atomic_schedule m) 0 =? 10000) = true) as Ea
      by (apply Z.eqb_eq; rewrite (complete_schedule _ _ _ Ha); lia).
    assert ((increments (TestRunner.mutex_schedule m) 0 =? 5000) = true) as Em
      by (apply Z.eqb_eq; rewrite (complete_schedule _ _ _ Hm); lia).
    unfold TestRunner.run_all_tests, TestRunner.test_observability, TestRunner.test_security, TestRunner.test_error_handling,
      TestRunner.test_thread_safety, TestRunner.test_memory_safety, TestRunner.test_performance. cbv zeta. rewrite Ea Em.
    generalize (TestRunner.latency_us m) (TestRunner.ops_per_sec m). intros l o.
    destruct (double_lt l _), (double_lt _ o), (0 <? TestRunner.span m); by vm_compute.
  - unfold system_validation, LoadTester.run_load_test. cbv zeta. pose proof (successes_length orders) as Hs.
    set (ls := sorted_latencies (LoadTester.successes orders)).
    assert (Z.of_nat (length ls) < 2 ^ 53) as Hl.
    { unfold ls, sorted_latencies. rewrite ProductionValidator.sort_length length_fmap. lia. }
    destruct ls as [|x ls]; cbn [mbind option_bind].
    + eexists. split; [reflexivity|]. rewrite !last_app. reflexivity.
    + destruct (p99_defined (x :: ls)) as [p ->]; [done|exact Hl|]. cbn [mbind option_bind].
      eexists. split; [reflexivity|]. rewrite !last_app. reflexivity.
Qed.

Lemma validation_unconditional_witness :
  exists lines, system_validation (TestRunner.mkMeasured 99999999 0 (all_increments 10 (Z.to_nat 1000)) (all_increments 5 (Z.to_nat 1000)) 0)
      [None; Some 1000000000] 3 [true] = Some lines /\ last lines = Some (cstr "System Status: PRODUCTION READY ✓").
Proof.
  destruct (validation_unconditional
    (TestRunner.mkMeasured 99999999 0 (all_increments 10 (Z.to_nat 1000)) (all_increments 5 (Z.to_nat 1000)) 0)
    [None; Some 1000000000] 3 [true]) as [_ H]; [reflexivity|reflexivity|cbn; lia|exact H].
Defined.

End TestRunnerClaims.
