(* ===== verification/PerfSuite.v ===== *)
(** * The performance and stress suites (benchmark.cpp, stress_test.cpp)

    Two stand-alone programs that time simulated work and grade it.  What the
    clocks measure (in nanoseconds), how many operations the threads manage and
    the number of cores are arguments; the list of results and the lines written
    are the state.  [None]: an index is out of range. *)

From Stdlib Require Import SpecFloat.
From S2P Require Import Prelude Types Double MemorySafety Strings Formatting InputValidation ConfigLoader Metrics Observability ObservabilityTheorems CodebaseAnalyzer SelfChecks.

(** [std::chrono::duration<double>(...).count()] *)
Definition seconds (ns : Z) : double := double_div (double_of_Z ns) (double_of_Z 1000000000).
Definition rate (operations ns : Z) : double := double_div (double_of_Z operations) (seconds ns).
Definition ge (x y : double) : bool := double_le y x.

(** ** benchmark.cpp *)
Module RTESBenchmark.

Record BenchmarkResult := mkResult { test_name : cstring; value : double; unit_ : cstring; passed_sla : bool }.
Record st := mk { results : list BenchmarkResult; out : list cstring }.
Implicit Types s : st.
Definition initial : st := mk [] [].
Definition say (lines : list cstring) s : st := mk (results s) (out s ++ lines).
Definition push (name : string) (v : double) (u : string) (passed : bool) s : st :=
  mk (results s ++ [mkResult (cstr name) v (cstr u) passed]) (out s).

Definition benchmark_latency (ns : list Z) s : option st :=
  let s := say [[]; cstr "📊 Latency Benchmark"; cstr "-------------------"] s in
  let latencies := sorted_latencies ns in
  let avg_latency := mean latencies in
  p50_latency ← latencies !! (length latencies / 2)%nat;
  p95_latency ← MetricsCollector.percentile latencies MetricsCollector.p95;
  p99_latency ← MetricsCollector.percentile latencies MetricsCollector.p99;
  p999_latency ← MetricsCollector.percentile latencies p999;
  let s := say [cstr "  Average Latency: " ++ print_general avg_latency ++ cstr "μs";
                cstr "  P50 Latency: " ++ print_general p50_latency ++ cstr "μs";
                cstr "  P95 Latency: " ++ print_general p95_latency ++ cstr "μs";
                cstr "  P99 Latency: " ++ print_general p99_latency ++ cstr "μs";
                cstr "  P999 Latency: " ++ print_general p999_latency ++ cstr "μs"] s in
  let s := push "Average Latency" avg_latency "μs" (double_le avg_latency (double_of_Z 10)) s in
  let s := push "P99 Latency" p99_latency "μs" (double_le p99_latency (double_of_Z 100)) s in
  Some (push "P999 Latency" p999_latency "μs" (double_le p999_latency (double_of_Z 500)) s).

(** Operations and elapsed time, alone and with a thread per core. *)
Definition benchmark_throughput (operations duration : Z) (num_threads mt_operations mt_duration : Z) s : st :=
  let s := say [[]; cstr "🔥 Throughput Benchmark"; cstr "----------------------"] s in
  let throughput := rate operations duration in
  let s := say [cstr "  Single-threaded: " ++ print_general throughput ++ cstr " ops/sec"] s in
  let mt_throughput := rate mt_operations mt_duration in
  let s := say [cstr "  Multi-threaded (" ++ print_i64 num_threads ++ cstr " cores): " ++ print_general mt_throughput ++ cstr " ops/sec";
                cstr "  Scaling factor: " ++ print_general (double_div mt_throughput throughput) ++ cstr "x"] s in
  let s := push "Single-thread Throughput" throughput "ops/sec" (ge throughput (double_of_Z 1000000)) s in
  push "Multi-thread Throughput" mt_throughput "ops/sec" (ge mt_throughput (double_of_Z 10000000)) s.

(** [samples]: the latencies in the order of the mutex.  Nothing counts a failed
    operation. *)
Definition benchmark_concurrent_operations (schedule : list nat) (samples : list Z) (duration : Z) s : st :=
  let s := say [[]; cstr "⚡ Concurrent Operations Benchmark"; cstr "--------------------------------"] s in
  let successful_ops := increments schedule 0 in
  let failed_ops := 0 in
  let total_ops := successful_ops +₆₄ failed_ops in
  let success_rate := CodebaseAnalyzer.percent successful_ops total_ops in
  let concurrent_throughput := rate successful_ops duration in
  let latencies := sorted_latencies samples in
  let avg_concurrent_latency := match latencies with [] => double_of_Z 0 | _ => mean latencies end in
  let s := say [cstr "  Concurrent threads: " ++ print_i64 16; cstr "  Total operations: " ++ print_u64 total_ops;
                cstr "  Success rate: " ++ print_general success_rate ++ cstr "%";
                cstr "  Concurrent throughput: " ++ print_general concurrent_throughput ++ cstr " ops/sec";
                cstr "  Average latency under load: " ++ print_general avg_concurrent_latency ++ cstr "μs"] s in
  let s := push "Concurrent Success Rate" success_rate "%" (ge success_rate (double_of_Z 99)) s in
  let s := push "Concurrent Throughput" concurrent_throughput "ops/sec" (ge concurrent_throughput (double_of_Z 1000000)) s in
  push "Latency Under Load" avg_concurrent_latency "μs" (double_le avg_concurrent_latency (double_of_Z 50)) s.

Definition benchmark_memory_performance (alloc_time access_time random_time : Z) s : st :=
  let s := say [[]; cstr "💾 Memory Performance Benchmark"; cstr "------------------------------"] s in
  let s := say [cstr "  Memory allocation (" ++ print_i64 1000 ++ cstr " x 1MB): " ++ print_general (seconds alloc_time) ++ cstr "s";
                cstr "  Memory access (sequential): " ++ print_general (seconds access_time) ++ cstr "s";
                cstr "  Memory access (random): " ++ print_general (seconds random_time) ++ cstr "s"] s in
  let alloc_rate := rate 1000 alloc_time in
  push "Memory Allocation Rate" alloc_rate "allocs/sec" (ge alloc_rate (double_of_Z 100)) s.

Definition benchmark_cache_efficiency (sequential_time strided_time : Z) s : st :=
  let s := say [[]; cstr "🎯 Cache Efficiency Benchmark"; cstr "----------------------------"] s in
  let cache_efficiency := double_div (seconds sequential_time) (seconds strided_time) in
  let s := say [cstr "  Sequential access: " ++ print_general (seconds sequential_time) ++ cstr "s";
                cstr "  Strided access (4KB stride): " ++ print_general (seconds strided_time) ++ cstr "s";
                cstr "  Cache efficiency ratio: " ++ print_general cache_efficiency] s in
  push "Cache Efficiency" cache_efficiency "ratio" (double_le cache_efficiency double_half) s.

(** [for (num_threads = 1; num_threads <= max_threads; num_threads *= 2)]: the
    throughputs and the lines; [times] are the elapsed times. *)
Fixpoint scaling_rounds (times : nat -> Z) (fuel i : nat) (num_threads max_threads : Z) (throughputs : list double) (lines : list cstring)
    : list double * list cstring :=
  match fuel with
  | O => (throughputs, lines)
  | S fuel =>
      if num_threads <=? max_threads then
        let operations := num_threads * 100000 in
        let throughput := rate operations (times i) in
        let throughputs := throughputs ++ [throughput] in
        let line := cstr "  " ++ print_i64 num_threads ++ cstr " threads: " ++ print_general throughput ++ cstr " ops/sec"
          ++ (if 1 <? num_threads then
                let scaling := double_div throughput (default (double_of_Z 0) (head throughputs)) in
                let efficiency := double_mul (double_div scaling (double_of_Z num_threads)) (double_of_Z 100) in
                cstr " (scaling: " ++ print_general scaling ++ cstr "x, efficiency: " ++ print_general efficiency ++ cstr "%)"
              else []) in
        scaling_rounds times fuel (S i) (num_threads * 2) max_threads throughputs (lines ++ [line])
      else (throughputs, lines)
  end.

(** The sum of the efficiencies from the second throughput on. *)
Fixpoint total_efficiency (first : double) (i : Z) (throughputs : list double) (total : double) : double :=
  match throughputs with
  | [] => total
  | x :: throughputs =>
      total_efficiency first (i + 1) throughputs (double_add total (double_div (double_div x first) (double_of_Z (2 ^ i))))
  end.

Definition avg_efficiency (throughputs : list double) : double :=
  let total := match throughputs with [] => double_of_Z 0 | first :: rest => total_efficiency first 1 rest (double_of_Z 0) end in
  double_mul (double_div total (double_of_Z (Z.of_nat (pred (length throughputs))))) (double_of_Z 100).

Definition benchmark_scalability (times : nat -> Z) (max_threads : Z) s : st :=
  let s := say [[]; cstr "📈 Scalability Benchmark"; cstr "-----------------------"] s in
  let '(throughputs, lines) := scaling_rounds times 31 0 1 max_threads [] [] in
  let s := say lines s in
  push "Scaling Efficiency" (avg_efficiency throughputs) "%" (ge (avg_efficiency throughputs) (double_of_Z 70)) s.

Definition passed s : Z := Z.of_nat (length (filter (fun r => passed_sla r = true) (results s))).
Definition total s : Z := Z.of_nat (length (results s)).
Definition pass_rate s : double := CodebaseAnalyzer.percent (passed s) (total s).

Definition grade (pass_rate : double) : cstring :=
  if ge pass_rate (double_of_Z 95) then cstr "A+ 🌟"
  else if ge pass_rate (double_of_Z 90) then cstr "A"
  else if ge pass_rate (double_of_Z 85) then cstr "B+"
  else if ge pass_rate (double_of_Z 80) then cstr "B"
  else if ge pass_rate (double_of_Z 75) then cstr "C+"
  else cstr "C".

Definition result_line (r : BenchmarkResult) : cstring :=
  cstr "  " ++ test_name r ++ cstr ": " ++ print_general (value r) ++ cstr " " ++ unit_ r ++ cstr " "
  ++ (if passed_sla r then cstr "✅ PASS" else cstr "❌ FAIL").

Definition generate_benchmark_report s : st :=
  let s := say ([[]; cstr "🏆 BENCHMARK RESULTS SUMMARY"; cstr "============================"] ++ (result_line <$> results s)) s in
  let s := say [[]; cstr "📊 PERFORMANCE GRADE"; cstr "-------------------";
                cstr "  Tests Passed: " ++ print_i64 (passed s) ++ cstr "/" ++ print_i64 (total s);
                cstr "  Pass Rate: " ++ print_general (pass_rate s) ++ cstr "%";
                cstr "  Performance Grade: " ++ grade (pass_rate s)] s in
  if ge (pass_rate s) (double_of_Z 90) then
    say [[]; cstr "🎉 EXCELLENT PERFORMANCE!"; cstr "   RTES demonstrates world-class trading system performance"] s
  else if ge (pass_rate s) (double_of_Z 75) then
    say [[]; cstr "✅ GOOD PERFORMANCE"; cstr "   RTES meets production requirements"] s
  else say [[]; cstr "⚠️  PERFORMANCE NEEDS IMPROVEMENT"; cstr "   Some benchmarks below target thresholds"] s.

(** Everything the machine decides. *)
Record Measured := mkMeasured {
  order_times : list Z;
  operations : Z; duration : Z;
  hardware_concurrency : Z; mt_operations : Z; mt_duration : Z;
  schedule : list nat; samples : list Z; concurrent_duration : Z;
  alloc_time : Z; access_time : Z; random_time : Z;
  sequential_time : Z; strided_time : Z;
  scaling_times : nat -> Z
}.

Definition run_comprehensive_benchmark (m : Measured) s : option st :=
  let s := say [cstr "🚀 RTES Performance Benchmark Suite"; cstr "===================================="] s in
  s ← benchmark_latency (order_times m) s;
  let s := benchmark_throughput (operations m) (duration m) (hardware_concurrency m) (mt_operations m) (mt_duration m) s in
  let s := benchmark_concurrent_operations (schedule m) (samples m) (concurrent_duration m) s in
  let s := benchmark_memory_performance (alloc_time m) (access_time m) (random_time m) s in
  let s := benchmark_cache_efficiency (sequential_time m) (strided_time m) s in
  let s := benchmark_scalability (scaling_times m) (hardware_concurrency m) s in
  Some (generate_benchmark_report s).

Definition main (m : Measured) : option (list cstring) :=
  out <$> run_comprehensive_benchmark m (say [cstr "🚀 Starting RTES Performance Benchmark..."] initial).

End RTESBenchmark.

(** ** stress_test.cpp *)
Module RTESStressTest.

Record StressResult := mkResult { test_name : cstring; passed : bool; details : cstring }.
Record st := mk { stress_results : list StressResult; out : list cstring }.
Implicit Types s : st.
Definition initial : st := mk [] [].
Definition say (lines : list cstring) s : st := mk (stress_results s) (out s ++ lines).
Definition push (name : string) (ok : bool) (d : cstring) s : st :=
  mk (stress_results s ++ [mkResult (cstr name) ok d]) (out s).
Definition mark (ok : bool) : cstring := if ok then cstr "✅ PASS" else cstr "❌ FAIL".

Definition stress_test_ultra_high_frequency (hardware_concurrency total_ops duration : Z) s : st :=
  let s := say [[]; cstr "⚡ Ultra High Frequency Test"; cstr "---------------------------"] s in
  let target_ops_per_sec := 10000000 in
  let num_threads := wrap 32 (hardware_concurrency * 2) in
  let actual_ops_per_sec := rate total_ops duration in
  let s := say [cstr "  Target: " ++ print_i64 target_ops_per_sec ++ cstr " ops/sec";
                cstr "  Achieved: " ++ print_general actual_ops_per_sec ++ cstr " ops/sec";
                cstr "  Total operations: " ++ print_u64 total_ops; cstr "  Threads used: " ++ print_i64 num_threads] s in
  let ok := ge actual_ops_per_sec (double_mul (double_of_Z target_ops_per_sec) (nearest_decimal 8 1)) in
  let s := push "Ultra High Frequency" ok (to_string_double actual_ops_per_sec ++ cstr " ops/sec") s in
  say [cstr "  Result: " ++ mark ok] s.

(** How the test of the memory ends: it completes, after [ns]; or an allocation
    throws at chunk [at_chunk], with a message or without. *)
Inductive memory_outcome := Completed (ns : Z) | Failed (at_chunk : nat) (what : option cstring).

Definition progress (n : nat) : list cstring :=
  (fun i => cstr "  Allocated: " ++ print_u64 (Z.of_nat i * 1048576 / (1024 * 1024)) ++ cstr " MB")
    <$> filter (fun i => Z.of_nat i mod 100 = 0) (seq 0 n).

Definition stress_test_memory_pressure (o : memory_outcome) s : st :=
  let s := say [[]; cstr "💾 Memory Pressure Stress Test"; cstr "-----------------------------";
                cstr "  Allocating " ++ print_u64 2 ++ cstr "GB of memory..."] s in
  let '(system_stable, s) :=
    match o with
    | Completed ns =>
        (true, say (progress 2048 ++ [cstr "  Memory allocation complete. Testing operations under pressure...";
                      cstr "  Operations under pressure: " ++ print_general (rate 1000000 ns) ++ cstr " ops/sec"]) s)
    | Failed n (Some what) => (false, say (progress n ++ [cstr "  Exception during memory pressure test: " ++ what]) s)
    | Failed n None => (false, say (progress n ++ [cstr "  Unknown exception during memory pressure test"]) s)
    end in
  let s := push "Memory Pressure" system_stable
             (if system_stable then cstr "System stable under " ++ print_u64 2 ++ cstr "GB pressure" else cstr "System unstable") s in
  say [cstr "  Result: " ++ mark system_stable] s.

Definition stress_test_concurrent_chaos (successful_ops failed_ops : Z) s : st :=
  let s := say [[]; cstr "🌪️  Concurrent Chaos Test"; cstr "------------------------"] s in
  let total_ops := successful_ops +₆₄ failed_ops in
  let success_rate := CodebaseAnalyzer.percent successful_ops total_ops in
  let s := say [cstr "  Total operations: " ++ print_u64 total_ops; cstr "  Successful: " ++ print_u64 successful_ops;
                cstr "  Failed: " ++ print_u64 failed_ops; cstr "  Success rate: " ++ print_general success_rate ++ cstr "%"] s in
  let ok := ge success_rate (double_of_Z 95) in
  let s := push "Concurrent Chaos" ok (to_string_double success_rate ++ cstr "% success rate") s in
  say [cstr "  Result: " ++ mark ok] s.

(** [*std::min_element], [*std::max_element] of what follows [x]. *)
Definition min_of (x : double) (l : list double) : double := foldl (fun best y => if double_lt y best then y else best) x l.
Definition max_of (x : double) (l : list double) : double := foldl (fun best y => if double_lt best y then y else best) x l.

(** The samples of the monitor: operations and elapsed time of each. *)
Definition stress_test_sustained_load (samples : list (Z * Z)) s : option st :=
  let s := say [[]; cstr "🏃 Sustained Load Test"; cstr "---------------------"] s in
  let throughput_samples := (fun x => rate x.1 x.2) <$> samples in
  let s := say (imap (fun i throughput => cstr "  " ++ print_u64 (Z.of_nat (S i) * 10) ++ cstr "s: " ++ print_general throughput
                                          ++ cstr " ops/sec") throughput_samples) s in
  match throughput_samples with
  | [] => None
  | first :: rest =>
      let min_throughput := min_of first rest in
      let max_throughput := max_of first rest in
      let avg_throughput := mean throughput_samples in
      let stability := double_mul (double_div min_throughput max_throughput) (double_of_Z 100) in
      let s := say [cstr "  Average throughput: " ++ print_general avg_throughput ++ cstr " ops/sec";
                    cstr "  Min throughput: " ++ print_general min_throughput ++ cstr " ops/sec";
                    cstr "  Max throughput: " ++ print_general max_throughput ++ cstr " ops/sec";
                    cstr "  Stability: " ++ print_general stability ++ cstr "%"] s in
      let ok := ge avg_throughput (double_of_Z 1000000) && ge stability (double_of_Z 80) in
      let s := push "Sustained Load" ok
                 (to_string_double avg_throughput ++ cstr " ops/sec avg, " ++ to_string_double stability ++ cstr "% stable") s in
      Some (say [cstr "  Result: " ++ mark ok] s)
  end.

Definition passed_count s : Z := Z.of_nat (length (filter (fun r => passed r = true) (stress_results s))).
Definition pass_rate s : double := CodebaseAnalyzer.percent (passed_count s) (Z.of_nat (length (stress_results s))).

Definition resilience (pass_rate : double) : list cstring :=
  if ge pass_rate (double_of_Z 100) then
    [[]; cstr "🌟 EXCEPTIONAL RESILIENCE!"; cstr "   RTES handles extreme stress conditions flawlessly"]
  else if ge pass_rate (double_of_Z 75) then
    [[]; cstr "💪 EXCELLENT RESILIENCE"; cstr "   RTES demonstrates strong performance under stress"]
  else if ge pass_rate (double_of_Z 50) then
    [[]; cstr "✅ GOOD RESILIENCE"; cstr "   RTES handles most stress conditions well"]
  else [[]; cstr "⚠️  RESILIENCE NEEDS IMPROVEMENT"; cstr "   Some stress conditions cause performance degradation"].

Definition generate_stress_report s : st :=
  let s := say ([[]; cstr "🏆 STRESS TEST RESULTS"; cstr "======================"] ++
                ((fun r => cstr "  " ++ test_name r ++ cstr ": " ++ mark (passed r) ++ cstr " (" ++ details r ++ cstr ")") <$> stress_results s)) s in
  let s := say [[]; cstr "📊 STRESS TEST SUMMARY"; cstr "----------------------";
                cstr "  Tests Passed: " ++ print_i64 (passed_count s) ++ cstr "/" ++ print_i64 (Z.of_nat (length (stress_results s)));
                cstr "  Pass Rate: " ++ print_general (pass_rate s) ++ cstr "%"] s in
  let s := say (resilience (pass_rate s)) s in
  say [[]; cstr "🎯 PRODUCTION STRESS READINESS: "
             ++ (if ge (pass_rate s) (double_of_Z 75) then cstr "✅ READY" else cstr "⚠️  NEEDS REVIEW")] s.

Definition run_stress_tests (cores total_ops duration : Z) (memory : memory_outcome) (successful_ops failed_ops : Z) (samples : list (Z * Z)) s
    : option st :=
  let s := say [cstr "🔥 RTES Extreme Stress Test Suite"; cstr "================================="] s in
  let s := stress_test_ultra_high_frequency cores total_ops duration s in
  let s := stress_test_memory_pressure memory s in
  let s := stress_test_concurrent_chaos successful_ops failed_ops s in
  s ← stress_test_sustained_load samples s;
  Some (generate_stress_report s).

Definition main (cores total_ops duration : Z) (memory : memory_outcome) (successful_ops failed_ops : Z) (samples : list (Z * Z))
    : option (list cstring) :=
  out <$> run_stress_tests cores total_ops duration memory successful_ops failed_ops samples
            (say [cstr "🔥 Starting RTES Extreme Stress Testing..."] initial).

End RTESStressTest.

Module SuiteClaims.
Import RTESBenchmark.

Lemma share_of_million fraction k (l : list double) :
  length l = Z.to_nat 1000000 -> trunc_u64 (double_mul (double_of_Z 1000000) fraction) = Some k -> 0 <= k < 1000000 ->
  is_Some (MetricsCollector.percentile l fraction).
Proof.
  intros Hl Ht Hk. apply (ProductionValidator.percentile_at l fraction _ (Z.to_nat k) Hl); [|lia].
  unfold MetricsCollector.percentile_index. rewrite Z2Nat.id; [lia|]. by rewrite Ht.
Qed.

Lemma latency_results ns s :
  length ns = Z.to_nat 1000000 ->
  exists s', benchmark_latency ns s = Some s' /\ length (results s') = (length (results s) + 3)%nat.
Proof.
  intros Hn. unfold benchmark_latency. cbv zeta. set (l := sorted_latencies ns).
  assert (length l = Z.to_nat 1000000) as Hl by (unfold l, sorted_latencies; by rewrite ProductionValidator.sort_length length_fmap).
  clearbody l. destruct (lookup_lt_is_Some_2 l (length l / 2)%nat) as [a ->]; [apply Nat.div_lt; lia|].
  destruct (share_of_million MetricsCollector.p95 950000 l Hl) as [b ->]; [by vm_compute|lia|].
  destruct (share_of_million MetricsCollector.p99 990000 l Hl) as [c ->]; [by vm_compute|lia|].
  destruct (share_of_million p999 999000 l Hl) as [d ->]; [by vm_compute|lia|].
  cbn [mbind option_bind]. eexists. split; [reflexivity|]. cbn [results push say]. rewrite !length_app. cbn [length]. lia.
Qed.

Lemma single_core_efficiency times max_threads :
  max_threads <= 1 -> avg_efficiency (scaling_rounds times 31 0 1 max_threads [] []).1 = S754_nan.
Proof.
  intros Hm. cbn [scaling_rounds]. destruct (Z.leb_spec 1 max_threads); [|done].
  change (1 * 2) with 2. destruct (Z.leb_spec 2 max_threads); [lia|done].
Qed.

(** The grade for [k] of the eleven results. *)
Definition grade_of (k : Z) : cstring :=
  if k =? 11 then cstr "A+ 🌟" else if k =? 10 then cstr "A" else if k =? 9 then cstr "B" else cstr "C".

Lemma grade_table k : 0 <= k <= 11 -> grade (CodebaseAnalyzer.percent k 11) = grade_of k.
Proof.
  intros Hk. assert (forallb (fun n => bool_decide (grade (CodebaseAnalyzer.percent (Z.of_nat n) 11) = grade_of (Z.of_nat n))) (seq 0 12) = true)
    as H by by vm_compute.
  rewrite forallb_forall in H. specialize (H (Z.to_nat k)). rewrite Z2Nat.id in H; [lia|].
  apply bool_decide_eq_true in H; [done|]. apply in_seq. lia.
Qed.

Lemma suite_report_results s : results (generate_benchmark_report s) = results s.
Proof. unfold generate_benchmark_report. cbv zeta. by destruct (ge _ _); [|destruct (ge _ _)]. Qed.

(** The performance suite always ends with eleven results.  It gives four of
    its six grades, A+ for eleven passes, A for ten, B for nine and C below: B+ and
    C+ cannot occur.  On a machine with one core the scaling efficiency is 0/0,
    which fails, so that A+ is out of reach there. *)
Theorem benchmark_grades m :
  length (order_times m) = Z.to_nat 1000000 ->
  exists s, run_comprehensive_benchmark m (say [cstr "🚀 Starting RTES Performance Benchmark..."] initial) = Some s /\
    total s = 11 /\ 0 <= passed s <= 11 /\ grade (pass_rate s) = grade_of (passed s) /\
    (hardware_concurrency m <= 1 -> passed s <= 10).
Proof.
  intros Hn. unfold run_comprehensive_benchmark. cbv zeta. set (s0 := say _ _).
  assert (length (results s0) = 0%nat) as H0 by reflexivity. clearbody s0.
  destruct (latency_results (order_times m) s0 Hn) as (s1 & -> & H1). cbn [mbind option_bind].
  match goal with |- context [benchmark_scalability _ _ ?x] => set (s5 := x) end.
  assert (length (results s5) = 10%nat) as H5.
  { unfold s5, benchmark_cache_efficiency, benchmark_memory_performance, benchmark_concurrent_operations, benchmark_throughput. cbv zeta.
    cbn [results push say]. rewrite !length_app H1 H0. reflexivity. }
  clearbody s5. set (s6 := benchmark_scalability _ _ s5).
  assert (exists r, results s6 = results s5 ++ [r] /\ (hardware_concurrency m <= 1 -> passed_sla r = false)) as (r & Hr & Hf).
  { unfold s6, benchmark_scalability. destruct (scaling_rounds _ _ _ _ _ _ _) as [ths lines] eqn:E. eexists. split; [reflexivity|].
    intros Hc. pose proof (single_core_efficiency (scaling_times m) _ Hc) as Hnan. rewrite E in Hnan. cbn [fst] in Hnan.
    cbn [passed_sla]. by rewrite Hnan. }
  clearbody s6. exists (generate_benchmark_report s6). split; [reflexivity|].
  assert (passed (generate_benchmark_report s6) = passed s6 /\ total (generate_benchmark_report s6) = 11) as [Hp Ht].
  { unfold passed, total. rewrite suite_report_results. split; [done|]. rewrite Hr length_app H5. done. }
  assert (0 <= passed s6 <= 11 /\ (hardware_concurrency m <= 1 -> passed s6 <= 10)) as [Hb H10].
  { unfold passed. rewrite Hr filter_app length_app. pose proof (length_filter (fun r => passed_sla r = true) (results s5)) as Hlf.
    rewrite filter_cons. split; [case_decide; cbn; lia|]. intros Hc. rewrite (Hf Hc). case_decide; [done|]. cbn. lia. }
  unfold pass_rate. rewrite Ht Hp. split_and!; [done|lia|lia|by apply grade_table|exact H10].
Qed.

Lemma benchmark_grades_witness :
  exists s, run_comprehensive_benchmark
      (mkMeasured (replicate (Z.to_nat 1000000) 50) 9000000 5000000000 1 9000000 5000000000 [] [] 1 1 1 1 2 1 (fun _ => 1))
      (say [cstr "🚀 Starting RTES Performance Benchmark..."] initial) = Some s /\ passed s <= 10.
Proof.
  destruct (benchmark_grades
    (mkMeasured (replicate (Z.to_nat 1000000) 50) 9000000 5000000000 1 9000000 5000000000 [] [] 1 1 1 1 2 1 (fun _ => 1)))
    as (s & H1 & _ & _ & _ & H5); [apply length_replicate|].
  exists s. split; [exact H1|]. apply H5. cbn [hardware_concurrency]. lia.
Defined.

End SuiteClaims.
